(* ===== verification/_CoqProject ===== *)
-Q . S2P
Prelude.v
PyFloat.v
PyStr.v
PyRe.v
PyDict.v
PyJson.v
JsonParse.v
FailPhase.v
Quarantine.v
FamilyAxes.v
Families.v
FamilyGates.v
Triage.v
TriagePrune.v
Weights.v
TcpFanout.v
AdaptiveQueue.v
AdaptiveInv.v
AdaptivePop.v
Batching.v
BridgePool.v
AdaptiveRunner.v
RunnerInv.v
ScanRun.v
PyIp.v
PyUrl.v
TlsCheck.v
PyExn.v
CurlProbe.v
CurlSpec.v
BlobAliases.v
Byedpi.v
Blake2s.v
GenHelpers.v
GenFake.v
GenSplit.v
GenTamper.v
Standard.v
GenFacts.v
RoundRobin.v
GenTyped.v
GenProps.v
ConfBuilder.v
StaticValidator.v
BridgeIpc.v
LuaConf.v
ProbeResult.v
BatchService.v
Sha256.v
RunStore.v
StoreLog.v
StoreQueries.v
StoreSpec.v
StoreFlush.v
StoreWeights.v
NetnsPool.v
NetnsInv.v
NetnsSpec.v
Custom.v
Flowseal.v
MatrixGen.v
PresetPaths.v
IpsetCatalog.v
Domains.v
DnsWire.v
SecureDns.v
DnsSpec.v
PairRunner.v
PairSpec.v
QuicRaw.v
VoiceUdp.v
NsFirewall.v
RunLock.v
Exchange.v
ProcTree.v
MemMonitor.v
Gc.v
GcDb.v
Ggc.v
DataBlock.v
