(* ===== verification/Prelude.v ===== *)
(** * Verification of the blockcheckS strategy engine

    blockcheckS probes how a provider interferes with connections: it generates desync strategies for nfqws2, runs
    them inside network namespaces against lists of domains, keeps what passed, and exports a configuration. This
    development models the Python package [src/src/blockchecks] (and the two Lua scripts of the bridge under
    [src/lua/blockchecks]) as Rocq functions and transition systems, and proves what makes its parts correct. This
    file holds the header, and the tactics and the lemmas on lists that the other files share.

    ** Parts and files

    Python itself. [PyFloat] (binary64), [PyStr] (str), [PyRe] (re: a backtracking matcher, its
    denotation, the language of an expression), [PyDict] (dict with its order), [PyJson] and [JsonParse] (JSON
    values, json.loads), [PyIp] (ipaddress), [PyUrl] (urllib.parse), [Blake2s] and [Sha256] (hashlib), [PyExn] (exceptions, state and
    weakest preconditions). They have no entry in the map: they model the language and its library.

    Generation of strategies. [FamilyAxes] and [Families] (engine/family_axes.py, family_spec.py: the registry and
    its tables); [GenHelpers], [GenFake], [GenSplit], [GenTamper] (engine/generators/families/: the 31 expanders);
    [Standard] (generators/standard.py) with its theory in [GenFacts] (what an expander adds), [GenTyped] (types
    of the axes), [RoundRobin] and [GenProps]; [Triage] and [TriagePrune] (triage.py, family_registry.py,
    blob_filter.py: the profile of a network and what it removes); [Custom], [Flowseal] (generators/custom.py,
    flowseal.py, strategy_loader.py); [MatrixGen] (matrix_generator.py, byedpi_matrix_generator.py: the sources
    joined, pruned and cut); [BlobAliases], [Byedpi], [StaticValidator] (blob files, the translation to ciadpi,
    the offline checks).

    The scan. [Weights] and [AdaptiveQueue] (adaptive_queue.py) with [AdaptiveInv] and [AdaptivePop]; [TcpFanout],
    [Batching], [BridgePool] (tcp_fanout.py, batch_scheduler.py, bridge_worker_pool.py, results.py);
    [AdaptiveRunner] (adaptive_runner.py) as a transition system with [RunnerInv] and [ScanRun]; [FamilyGates]
    (family_needs.py); [FailPhase] and [Quarantine] (fail_phase.py, domain_quarantine.py).

    The probe. [ProbeResult] and [BatchService] (batch_service.py: one batch from the lease of a namespace to its
    rows), [BridgeIpc] (lua_bridge_ipc.py, batch_bridge_probe.py, write_ipc.lua, scan_bridge.lua: both sides of
    the file protocol), [LuaConf] (lua_conf.py), [NetnsPool] with [NetnsInv] and [NetnsSpec] (netns_pool.py).

    What is kept. [RunStore] (store/sqlite_store.py, schema.py: tables and writes), [StoreLog] (its abstract
    state, a log of named results), [StoreQueries], [StoreSpec], [StoreFlush] (buffered writes under
    interleaving), [StoreWeights]; [ConfBuilder] (conf_builder.py: the exported configuration).

    What is probed. [PresetPaths], [IpsetCatalog] and [Domains] (preset_paths.py, ipset_catalog.py,
    domain_loader.py, checkers/ip_pin.py); [DnsWire], [SecureDns] and [DnsSpec] (checkers/dns_secure.py).

    Checks of one connection. [CurlProbe] with [CurlSpec] (checkers/curl_probe.py: classification, redirects,
    sessions, repeats, stalls; [_classify_response] calls the probe again for a redirect, one hop deep as in the
    source), [TlsCheck] (checkers/tcp_tls.py), [QuicRaw] (checkers/quic_raw.py), [VoiceUdp] (checkers/udp_voice.py).
    [PairRunner] with [PairSpec] (pair_matrix_runner.py: one event per segment of [run_pair], a state of namespaces,
    semaphore, lock and phases).

    The host. [NsFirewall] (service/ns_firewall.py: trackers over a class of iptables with the laws of its manual),
    [RunLock] (service/run_control.py: alone, and as interleaved accesses to the file), [ProcTree] and [MemMonitor]
    (service/metrics.py: signals, and windows of memory samples), [Gc] and [GcDb] (engine/gc.py,
    cli/commands/gc.py: files and rows, the latter in SQL's three-valued logic).

    Exchange. [Exchange] (provider_import.py, shortlist_import.py: summaries, presets, user matrices, shortlists), [Ggc]
    (ggc_pool.py: made-up cache hosts that the host pattern accepts, the pool of real ones, the chain of addresses;
    32 draws as in the source), [DataBlock] (data_block/store.py: the databases of a provider, the migration statement
    by statement with a process that may die, the hosts file, the commit).

    ** How the parts interact

    A campaign loads domains ([Domains]), audits their DNS and keeps their addresses ([SecureDns]), generates a
    matrix ([MatrixGen] over [Standard], [Custom] and [Flowseal], pruned by [TriagePrune]) and scans it:
    [AdaptiveRunner] pops jobs of [AdaptiveQueue], batches them ([Batching], [TcpFanout]) and hands a batch to a
    probe; its results settle jobs, feed [Weights] and [Quarantine]. [BatchService] is such a probe: it leases a
    namespace ([NetnsPool]), boots the daemon with the configuration of [LuaConf] and publishes strategies through
    [BridgeIpc]. Rows go to [RunStore], whose queries tell the next run what to skip. A component is proved against
    the interface of what it calls where there is one: the class [ResultMaker] (probe results), [Sqlite] (the
    database), [FileSys] (file systems), the class of random generators of [AdaptiveQueue], [ReadsStrategy]
    (nfqws2), the record of dependencies of [BatchService]. Compositions that are proved end to end: a scan over a
    queue that was built from a matrix ([ScanRun]), weights and resume sets through the store ([StoreWeights],
    [StoreSpec]), bridge numbers from the configuration to the events ([LuaConf], [BridgeIpc]), quarantined names
    through the deny list to the loader ([Domains]), catalogs through jailed presets ([IpsetCatalog]).

    ** What the theorems show

    - Generation: the generators terminate without an exception, within their bounds, with distinct strategies that
      the triage lets through, each of a known family and lane; one expression of the matrix as a specification.
    - Queue and scan: pop keeps the invariant, respects exclusions and loses no job; under every schedule, every
      outcome and every moment of a stop a scan settles each job once, and it ends.
    - Probe: a batch answers each item once, releases its lease on every path and never lets an exception escape
      from its cleanup; a published strategy is never attributed to an older generation; events are drained once;
      forwarding follows the life of the pools and a namespace has one holder.
    - Store: buffered writes equal immediate ones, nothing is lost or reordered whatever fails, resume sets are the
      latest results of the campaign, weights survive a restart.
    - Texts: round trips of profiles, pins, events and DNS messages; the validator and the exporter on every branch;
      presets stay under their directories; quarantined names stay out.
    - Checks: the verdict of a curl probe, of a TLS check, of a raw QUIC probe and of the voice probes, each on every
      branch; the ways of repeating a probe agree; a stalled stream is reported at the right window.
    - Pairs: whatever fails and in whatever order the tasks go on, namespaces, the semaphore and the lock are held
      as they should be, and the matrix ends with a result for every pair.
    - Host: a tracker takes back its own rules and no others, unless a command times out; of processes that start
      together one gets the lock; a kill reaches one process tree, or one namespace, and nothing else; a plan of
      deletions spares campaigns and the newest logs; the rows that a dry run counts are those that a real run
      deletes; the daemons that are recycled are those whose last samples say so.
    - Where the code does not do what it means to, an [Example] or a theorem shows a run that goes wrong; these are
      the findings of the manifest.

    ** Bounds and fuel

    Recursion that is not structural runs on fuel that is computed from its input and proved or chosen to suffice:
    the heap loop of pop (twice the heap plus one, [pop] never runs out: [AdaptivePop]), the family gates (one round
    per item), windows and regular expressions (the length of the text), the round robin (the longest group plus
    two), JSON (twice the length of the text), the burst of a voice probe (one round per byte asked for), the walk
    over a process tree (two rounds more than the process table has entries). A constant of the source stays one: 128 labels of a DNS name, 20
    answers, 3 retries of a transaction and 5 of a flush. Termination of a scan is a measure on its states.

    ** Conventions

    A str is a list of 8-bit characters. Case folding, [strip], [isdigit] and [splitlines] are those of ASCII; a
    literal of the source outside ASCII is its UTF-8 bytes. Integers are unbounded as in Python, and are masked
    where the source masks or packs them. An exception is [None] where only its presence matters, and a value of
    [res] ([PyExn]) or of a result type where its text or its moment does. An asyncio task runs alone between two
    suspension points, so a segment between awaits is one step; threads interleave at every call that they make.
    Log lines, progress output, timings and colours are left out everywhere.

    ** Not modelled

    Sockets, libcurl itself, subprocesses, iptables itself, the start and the life of the nfqws2 process and the
    terminal output: they are arguments of the definitions that use them. argparse tables, the glue of the
    command line, the HTTP and MCP endpoints, and the wiring of a campaign around the modelled runners: they
    delegate to modelled parts and hold little state of their own. Environment settings are arguments. *)

From stdpp Require Import base gmap strings list sorting relations.
From Stdlib Require Import ZArith Lia.

Declare Scope py_scope.
Delimit Scope py_scope with py.

(** ** Tactics and hint databases *)

#[export] Hint Rewrite andb_true_iff andb_false_iff orb_true_iff orb_false_iff
negb_true_iff negb_false_iff bool_decide_eq_true bool_decide_eq_false : pybool.

Create HintDb pylist.

(** Reflect the boolean conditions of the context and of the goal. *)
Ltac breflect :=
repeat (autorewrite with pybool in *; destruct_and?; simplify_eq/=).

(** Case analysis on the innermost match of the goal, or of [H]. *)
Ltac case_on_goal :=
match goal with
| |- context [match ?x with _ => _ end] =>
    lazymatch x with
    | context [match _ with _ => _ end] => fail
    | _ => destruct x eqn:?
    end
end.

Ltac case_on H :=
match type of H with
| context [match ?x with _ => _ end] =>
    lazymatch x with
    | context [match _ with _ => _ end] => fail
    | _ => destruct x eqn:?
    end
end.

(** ** Generic lemmas on lists *)

Section Lists.
Context {A : Type}.
Implicit Types (l : list A) (x y : A).

(** Python's [l[i : i + n] for i in range(0, len(l), n)]: consecutive
    windows of [n] elements, the last one possibly shorter. [fuel] bounds
    the number of windows; [length l] is always enough for [0 < n]. *)
Fixpoint windows_fuel (fuel n : nat) (l : list A) : list (list A) :=
  match fuel with
  | O => []
  | S f => match l with
           | [] => []
           | _ => take n l :: windows_fuel f n (drop n l)
           end
  end.

Definition windows (n : nat) (l : list A) : list (list A) :=
  windows_fuel (length l) n l.

Lemma windows_fuel_concat fuel n l :
  0 < n -> length l <= fuel -> concat (windows_fuel fuel n l) = l.
Proof.
  intros Hn. revert l. induction fuel as [|f IH]; intros l Hl.
  - by destruct l; [|simpl in Hl; lia].
  - destruct l as [|x l]; [done|]. cbn [windows_fuel concat].
    rewrite IH; [apply take_drop|]. rewrite length_drop. simpl in *. lia.
Qed.

Lemma windows_concat n l : 0 < n -> concat (windows n l) = l.
Proof. intros Hn. by apply windows_fuel_concat. Qed.

Lemma windows_fuel_bounds fuel n l b :
  0 < n -> b ∈ windows_fuel fuel n l -> 0 < length b <= n.
Proof.
  intros Hn. revert l. induction fuel as [|f IH]; intros l Hb; simpl in Hb.
  - by apply not_elem_of_nil in Hb.
  - destruct l as [|x l]; [by apply not_elem_of_nil in Hb|].
    apply elem_of_cons in Hb as [->|Hb]; [|by eapply IH].
    rewrite length_take. simpl. lia.
Qed.

Lemma windows_bounds n l b : 0 < n -> b ∈ windows n l -> 0 < length b <= n.
Proof. apply windows_fuel_bounds. Qed.

Lemma windows_fuel_one fuel l :
  length l <= fuel -> windows_fuel fuel 1 l = (λ x, [x]) <$> l.
Proof.
  revert l. induction fuel as [|f IH]; intros [|x l] Hl; simpl in *; try done; try lia.
  f_equal. rewrite drop_0. apply IH. lia.
Qed.

Lemma prefix_snoc_inv l k x : k `prefix_of` l ++ [x] -> k `prefix_of` l \/ k = l ++ [x].
Proof.
  intros [m Hm]. destruct m as [|y m _] using rev_ind; [right; by rewrite app_nil_r in Hm|].
  left. rewrite app_assoc in Hm. apply app_inj_tail in Hm as [-> _]. by exists m.
Qed.

(** [l[:n]], with Python's negative positions. *)
Definition first_n (n : Z) (l : list A) : list A :=
  take (Z.to_nat (if (n <? 0)%Z then Z.of_nat (length l) + n else n)) l.

Lemma first_n_prefix n l : first_n n l `prefix_of` l.
Proof. unfold first_n. eexists. symmetry. apply take_drop. Qed.

Lemma elem_of_first_n n l x : x ∈ first_n n l -> x ∈ l.
Proof. intros Hx. destruct (first_n_prefix n l) as [k ->]. set_solver. Qed.

Lemma length_first_n n l : (0 <= n)%Z -> (Z.of_nat (length (first_n n l)) <= n)%Z.
Proof.
  intros Hn. unfold first_n. destruct (Z.ltb_spec n 0); [lia|]. rewrite length_take. lia.
Qed.

Lemma first_n_all n l : (Z.of_nat (length l) <= n)%Z -> first_n n l = l.
Proof. intros Hn. unfold first_n. destruct (Z.ltb_spec n 0); [lia|]. apply take_ge. lia. Qed.

(** [dict.fromkeys]: first occurrences, in order. *)
Fixpoint dedup `{EqDecision A} (seen l : list A) : list A :=
  match l with
  | [] => []
  | x :: l => if decide (x ∈ seen) then dedup seen l else x :: dedup (x :: seen) l
  end.

Definition fromkeys `{EqDecision A} l : list A := dedup [] l.

Lemma elem_of_dedup `{EqDecision A} seen l x :
  x ∈ dedup seen l <-> x ∈ l /\ x ∉ seen.
Proof.
  revert seen. induction l as [|y l IH]; intros seen; simpl; [set_solver|].
  case_decide; rewrite ?elem_of_cons, IH; [set_solver|].
  destruct (decide (x = y)); set_solver.
Qed.

Lemma NoDup_dedup `{EqDecision A} seen l : NoDup (dedup seen l).
Proof.
  revert seen. induction l as [|y l IH]; intros seen; simpl; [constructor|].
  case_decide; [done|]. constructor; [rewrite elem_of_dedup; set_solver|done].
Qed.

Lemma dedup_NoDup_id `{EqDecision A} seen l :
  NoDup l -> (forall x, x ∈ l -> x ∉ seen) -> dedup seen l = l.
Proof.
  intros Hnd. revert seen. induction Hnd as [|x l Hx _ IH]; intros seen Hs; [done|].
  simpl. rewrite decide_False by (apply Hs; set_solver). f_equal.
  apply IH. intros y Hy. specialize (Hs y). set_solver.
Qed.

Lemma elem_of_fromkeys `{EqDecision A} l x : x ∈ fromkeys l <-> x ∈ l.
Proof. unfold fromkeys. rewrite elem_of_dedup. set_solver. Qed.

Lemma NoDup_fromkeys `{EqDecision A} l : NoDup (fromkeys l).
Proof. apply NoDup_dedup. Qed.
End Lists.

#[export] Hint Resolve NoDup_fromkeys : pylist.

(** An existential over the elements of a cons. *)
Lemma elem_of_cons_exists {A} (P : A -> Prop) x l :
  (exists y, y ∈ x :: l /\ P y) <-> P x \/ exists y, y ∈ l /\ P y.
Proof.
  split.
  - intros (y & [->|Hy]%elem_of_cons & Hp); [by left|right; eauto].
  - intros [Hp|(y & Hy & Hp)]; [exists x|exists y]; split; try done; [by left|by right].
Qed.

Lemma filter_id {A} (P : A -> Prop) `{!forall x, Decision (P x)} (l : list A) : Forall P l -> filter P l = l.
Proof. induction 1 as [|x l Hx _ IH]; [done|]. by rewrite filter_cons, decide_True, IH. Qed.

Lemma StronglySorted_lookup {A} (R : A -> A -> Prop) (l : list A) : StronglySorted R l ->
  forall i j x y, l !! i = Some x -> l !! j = Some y -> i < j -> R x y.
Proof.
  induction 1 as [|z l _ IH Hz]; intros i j x y Hi Hj Hij; [done|].
  destruct j as [|j]; [lia|]. cbn in Hj. destruct i as [|i]; cbn in Hi.
  - injection Hi as ->. rewrite Forall_forall in Hz. apply Hz. by apply list_elem_of_lookup_2 in Hj.
  - eapply IH; [exact Hi|exact Hj|lia].
Qed.

Lemma StronglySorted_filter {A} (R : A -> A -> Prop) (P : A -> Prop) `{!forall x, Decision (P x)} (l : list A) :
  StronglySorted R l -> StronglySorted R (filter P l).
Proof.
  induction 1 as [|x l _ IH Hx]; [constructor|]. rewrite filter_cons. case_decide; [|done].
  constructor; [done|]. apply Forall_forall. intros y [_ Hy]%list_elem_of_filter. rewrite Forall_forall in Hx. by apply Hx.
Qed.

(** ** Python's [sorted]

  A stable sort by a key comparison: [lt a b] is [key(a) < key(b)]. The
  insertion keeps the relative order of elements that compare equal, as
  Timsort does; only the result of [sorted] is observable. *)
Section Sorted.
Context {A : Type} (lt : A -> A -> bool).

Fixpoint insert_stable (x : A) (l : list A) : list A :=
  match l with
  | [] => [x]
  | y :: l' => if lt y x then y :: insert_stable x l' else x :: l
  end.

Fixpoint py_sorted (l : list A) : list A :=
  match l with
  | [] => []
  | x :: l => insert_stable x (py_sorted l)
  end.

Lemma insert_stable_perm x l : insert_stable x l ≡ₚ x :: l.
Proof.
  induction l as [|y l IH]; simpl; [done|].
  destruct (lt y x); [|done]. rewrite IH. apply perm_swap.
Qed.

Lemma py_sorted_perm l : py_sorted l ≡ₚ l.
Proof. induction l as [|x l IH]; simpl; [done|]. by rewrite insert_stable_perm, IH. Qed.

Lemma elem_of_py_sorted l x : x ∈ py_sorted l <-> x ∈ l.
Proof. by rewrite py_sorted_perm. Qed.

Lemma length_py_sorted l : length (py_sorted l) = length l.
Proof. by rewrite py_sorted_perm. Qed.

(** The key comparison is a strict weak order. *)
Class StrictWeakOrder : Prop := {
  swo_irrefl x : lt x x = false;
  swo_asym x y : lt x y = true -> lt y x = false;
  swo_neg_trans x y z : lt y x = false -> lt z y = false -> lt z x = false
}.

Lemma insert_stable_sorted `{!StrictWeakOrder} x l :
  StronglySorted (λ a b, lt b a = false) l ->
  StronglySorted (λ a b, lt b a = false) (insert_stable x l).
Proof.
  induction 1 as [|y l Hs IH Hf]; simpl; [by repeat constructor|].
  destruct (lt y x) eqn:E.
  - constructor; [done|]. rewrite insert_stable_perm. constructor; [|done].
    by apply swo_asym.
  - constructor; [by constructor|]. constructor; [done|].
    eapply Forall_impl; [exact Hf|]. intros z Hz. by eapply swo_neg_trans.
Qed.

Lemma py_sorted_sorted `{!StrictWeakOrder} l :
  StronglySorted (λ a b, lt b a = false) (py_sorted l).
Proof.
  induction l as [|x l IH]; simpl; [constructor|]. by apply insert_stable_sorted.
Qed.

(** The head of the sorted list is a least element. *)
Lemma py_sorted_head `{!StrictWeakOrder} l x l' y :
  py_sorted l = x :: l' -> y ∈ l -> lt y x = false.
Proof.
  intros Hs Hy. pose proof (py_sorted_sorted l) as Hss. rewrite Hs in Hss.
  apply elem_of_py_sorted in Hy. rewrite Hs in Hy.
  inversion Hss as [|? ? ? Hf]; subst. apply elem_of_cons in Hy as [->|Hy].
  - apply swo_irrefl.
  - rewrite Forall_forall in Hf. by apply Hf.
Qed.
End Sorted.

#[export] Hint Resolve py_sorted_perm : pylist.

(** The order of tuples: by the first component, and by the second where the first ones are equal. *)
Definition lex {A} (lt1 lt2 : A -> A -> bool) (a b : A) : bool := lt1 a b || (negb (lt1 b a) && lt2 a b).
Definition by_key {A B} (f : A -> B) (lt : B -> B -> bool) (a b : A) : bool := lt (f a) (f b).

#[export] Instance by_key_swo {A B} (f : A -> B) lt : StrictWeakOrder lt -> StrictWeakOrder (by_key f lt).
Proof. intros [Hi Ha Ht]. split; unfold by_key; eauto. Qed.

#[export] Instance lex_swo {A} (lt1 lt2 : A -> A -> bool) :
  StrictWeakOrder lt1 -> StrictWeakOrder lt2 -> StrictWeakOrder (lex lt1 lt2).
Proof.
  intros [Hi1 Ha1 Ht1] [Hi2 Ha2 Ht2]. split; unfold lex.
  - intros x. by rewrite Hi1, Hi2.
  - intros x y. rewrite orb_true_iff, andb_true_iff, negb_true_iff. intros [H|[H H2]].
    + by rewrite (Ha1 _ _ H), H.
    + by rewrite H, (Ha2 _ _ H2), andb_false_r.
  - intros x y z. rewrite !orb_false_iff, !andb_false_iff, !negb_false_iff. intros [H1 H1'] [H2 H2'].
    split; [eauto|]. destruct (lt1 x z) eqn:E; [by left|]. right.
    destruct H1' as [H1'|H1']; [|destruct H2' as [H2'|H2']; [|by eauto]].
    + rewrite (Ht1 y z x H2 E) in H1'. done.
    + rewrite (Ht1 z x y E H1) in H2'. done.
Qed.

#[export] Instance nat_lt_swo : StrictWeakOrder Nat.ltb.
Proof. split; intros *; rewrite ?Nat.ltb_lt, ?Nat.ltb_ge; lia. Qed.

(** ** Termination

    A relation that lowers four measures lexicographically, on states that satisfy an
    invariant, is strongly normalising. *)
Lemma lex4_sn {A} (Rel : A -> A -> Prop) (I : A -> Prop) (f1 f2 f3 f4 : A -> nat) :
  (forall x y, I x -> Rel x y -> I y /\
     (f1 y < f1 x \/ (f1 y = f1 x /\
       (f2 y < f2 x \/ (f2 y = f2 x /\
         (f3 y < f3 x \/ (f3 y = f3 x /\ f4 y < f4 x))))))%nat) ->
  forall x, I x -> sn Rel x.
Proof.
  intros H.
  cut (forall n1 n2 n3 n4 x, I x -> f1 x = n1 -> f2 x = n2 -> f3 x = n3 -> f4 x = n4 -> sn Rel x).
  { intros Hc x Hx. by eapply Hc. }
  induction n1 as [n1 IH1] using lt_wf_ind. induction n2 as [n2 IH2] using lt_wf_ind.
  induction n3 as [n3 IH3] using lt_wf_ind. induction n4 as [n4 IH4] using lt_wf_ind.
  intros x Hx <- <- <- <-. constructor. intros y Hy.
  destruct (H x y Hx Hy) as [Iy [Hl|[E1 [Hl|[E2 [Hl|[E3 Hl]]]]]]].
  - by eapply IH1.
  - by eapply IH2.
  - by eapply IH3.
  - by eapply IH4.
Qed.
