(* ===== verification/PyFloat.v ===== *)
(** * Python floats

    A Python [float] is an IEEE-754 binary64 number. It is modelled by the
    Standard Library's executable [spec_float] at precision 53 and maximal
    exponent 1024: every operation below computes the rounded result the
    hardware gives. The comparison operators are Python's: false on NaN.

    The comparison of non-NaN floats is a total preorder ([flt_trichotomy],
    [flt_trans], [fle_lt_trans]); this is what the priority queue needs. *)

From stdpp Require Import base numbers.
From Stdlib Require Import ZArith Lia Floats.SpecFloat.
From S2P Require Import Prelude.

Notation float := spec_float.

Definition f_prec : Z := 53.
Definition f_emax : Z := 1024.

Definition fadd (a b : float) : float := SFadd f_prec f_emax a b.
Definition fsub (a b : float) : float := SFsub f_prec f_emax a b.
Definition fmul (a b : float) : float := SFmul f_prec f_emax a b.
Definition fdiv (a b : float) : float := SFdiv f_prec f_emax a b.
Definition fneg (a : float) : float := SFopp a.
Definition flt (a b : float) : bool := SFltb a b.
Definition fle (a b : float) : bool := SFleb a b.
Definition feq (a b : float) : bool := SFeqb a b.
Definition is_nan (a : float) : bool := match a with S754_nan => true | _ => false end.

(** [float(z)] for an integer [z]. *)
Definition f_of_Z (z : Z) : float := binary_normalize f_prec f_emax z 0 false.

(** The literal [n / d]: division is correctly rounded, so this is the double
    a decimal literal such as [0.1] denotes. *)
Definition f_lit (n d : Z) : float := fdiv (f_of_Z n) (f_of_Z d).

(** [int(f)]: truncation towards zero; [None] for an infinity or a NaN. *)
Definition f_trunc (f : float) : option Z :=
  match f with
  | S754_zero _ => Some 0%Z
  | S754_finite s m e => Some ((if s then -1 else 1) * Z.quot (Zpos m * 2 ^ Z.max e 0) (2 ^ Z.max (- e) 0))%Z
  | _ => None
  end.

(** The integer nearest to [n / d], ties to even ([0 < d]). *)
Definition div_half_even (n d : Z) : Z :=
  (let q := n / d in
  let r := n mod d in
  if 2 * r <? d then q else if d <? 2 * r then q + 1 else if Z.even q then q else q + 1)%Z.

(** [round(f, 1)]: the decimal with one digit nearest to the exact value of [f],
    ties to even, read back as a float. *)
Definition round1 (f : float) : float :=
  match f with
  | S754_finite s m e =>
      match div_half_even (10 * Zpos m * 2 ^ Z.max e 0)%Z (2 ^ Z.max (- e) 0)%Z with
      | Zpos n => SFdiv f_prec f_emax (S754_finite s n 0) (S754_finite false 10 0)
      | _ => S754_zero s
      end
  | _ => f
  end.

Example round1_ex :
  round1 (f_lit 1 4) = f_lit 2 10 /\ round1 (f_lit 3 4) = f_lit 8 10 /\
  round1 (f_lit 12345 100) = f_lit 1235 10 /\ round1 (fneg (f_lit 4 100)) = S754_zero true /\
  round1 (f_of_Z 7) = f_of_Z 7 /\ round1 (f_lit 35 100) = f_lit 3 10.
Proof. by vm_compute. Qed.

(** Python's [min(a, b)]: the first argument unless the second is smaller. *)
Definition fmin (a b : float) : float := if flt b a then b else a.
Definition fmax (a b : float) : float := if flt a b then b else a.

#[export] Instance float_eq_dec : EqDecision float.
Proof. solve_decision. Defined.

Example f_lit_01 : f_lit 1 10 = S754_finite false 7205759403792794 (-56).
Proof. reflexivity. Qed.
Example f_add_01_02 : feq (fadd (f_lit 1 10) (f_lit 2 10)) (f_lit 3 10) = false.
Proof. reflexivity. Qed.

(** ** The order on floats

    [key] maps a non-NaN float to a triple ordered lexicographically. *)
Definition fkey (a : float) : Z * Z * Z :=
  match a with
  | S754_zero _ => (0, 0, 0)
  | S754_infinity s => (if s then -2 else 2, 0, 0)
  | S754_nan => (0, 0, 0)
  | S754_finite false m e => (1, e, Z.pos m)
  | S754_finite true m e => (-1, - e, Z.neg m)
  end%Z.

Definition key_lt (a b : Z * Z * Z) : Prop :=
  (a.1.1 < b.1.1 \/ (a.1.1 = b.1.1 /\ (a.1.2 < b.1.2 \/ (a.1.2 = b.1.2 /\ a.2 < b.2))))%Z.

(** The comparison is the lexicographic comparison of the keys. *)
Lemma SFcompare_key a b :
  is_nan a = false -> is_nan b = false ->
  match SFcompare a b with
  | Some Lt => key_lt (fkey a) (fkey b)
  | Some Eq => fkey a = fkey b
  | Some Gt => key_lt (fkey b) (fkey a)
  | None => False
  end.
Proof.
  intros Ha Hb.
  destruct a as [sa|sa| |sa ma ea], b as [sb|sb| |sb mb eb]; try done;
    try destruct sa; try destruct sb; unfold key_lt; simpl; try done; try lia.
  - destruct (Z.compare_spec ea eb); simpl; [|lia|lia].
    change (Pos.compare_cont Eq ma mb) with (Pos.compare ma mb).
    destruct (Pos.compare_spec ma mb); simpl; subst; [done|lia|lia].
  - destruct (Z.compare_spec ea eb); simpl; [|lia|lia].
    change (Pos.compare_cont Eq ma mb) with (Pos.compare ma mb).
    destruct (Pos.compare_spec ma mb); simpl; subst; [done|lia|lia].
Qed.

Lemma key_lt_irrefl k : ~ key_lt k k.
Proof. unfold key_lt. lia. Qed.

Lemma flt_key a b :
  is_nan a = false -> is_nan b = false -> flt a b = true <-> key_lt (fkey a) (fkey b).
Proof.
  intros Ha Hb. pose proof (SFcompare_key a b Ha Hb) as H.
  unfold flt, SFltb, key_lt in *. destruct (SFcompare a b) as [[| |]|]; [..|done];
    split; intros; try done; try (rewrite H in *); lia.
Qed.

Lemma feq_key a b :
  is_nan a = false -> is_nan b = false -> feq a b = true <-> fkey a = fkey b.
Proof.
  intros Ha Hb. pose proof (SFcompare_key a b Ha Hb) as H.
  unfold feq, SFeqb, key_lt in *. destruct (SFcompare a b) as [[| |]|]; [..|done];
    split; intros E; try done; rewrite E in *; lia.
Qed.

Lemma fle_key a b :
  is_nan a = false -> is_nan b = false -> fle a b = true <-> ~ key_lt (fkey b) (fkey a).
Proof.
  intros Ha Hb. pose proof (SFcompare_key a b Ha Hb) as H.
  unfold fle, SFleb, key_lt in *. destruct (SFcompare a b) as [[| |]|]; [..|done];
    split; intros E; try done; try (rewrite H in *); lia.
Qed.

(** A comparison that succeeds has no NaN operand. *)
Lemma flt_not_nan a b : flt a b = true -> is_nan a = false /\ is_nan b = false.
Proof. destruct a, b; done. Qed.

Lemma fle_not_nan a b : fle a b = true -> is_nan a = false /\ is_nan b = false.
Proof. destruct a, b; done. Qed.

Lemma feq_not_nan a b : feq a b = true -> is_nan a = false /\ is_nan b = false.
Proof. destruct a, b; done. Qed.

Lemma is_nan_fneg a : is_nan (fneg a) = is_nan a.
Proof. by destruct a. Qed.

Lemma feq_refl a : is_nan a = false -> feq a a = true.
Proof. intros Ha. by apply feq_key. Qed.

Lemma fle_refl a : is_nan a = false -> fle a a = true.
Proof. intros Ha. apply fle_key; [done..|]. apply key_lt_irrefl. Qed.

Lemma flt_irrefl a : flt a a = false.
Proof.
  destruct (flt a a) eqn:E; [|done]. destruct (flt_not_nan _ _ E) as [Ha _].
  apply flt_key in E; [|done..]. by apply key_lt_irrefl in E.
Qed.

Lemma flt_trans a b c : flt a b = true -> flt b c = true -> flt a c = true.
Proof.
  intros H1 H2. destruct (flt_not_nan _ _ H1), (flt_not_nan _ _ H2).
  apply flt_key in H1; [|done..]. apply flt_key in H2; [|done..].
  apply flt_key; [done..|]. unfold key_lt in *. lia.
Qed.

Lemma fle_trans a b c : fle a b = true -> fle b c = true -> fle a c = true.
Proof.
  intros H1 H2. destruct (fle_not_nan _ _ H1), (fle_not_nan _ _ H2).
  apply fle_key in H1; [|done..]. apply fle_key in H2; [|done..].
  apply fle_key; [done..|]. unfold key_lt in *. lia.
Qed.

Lemma fle_lt_trans a b c : fle a b = true -> flt b c = true -> flt a c = true.
Proof.
  intros H1 H2. destruct (fle_not_nan _ _ H1), (flt_not_nan _ _ H2).
  apply fle_key in H1; [|done..]. apply flt_key in H2; [|done..].
  apply flt_key; [done..|]. unfold key_lt in *. lia.
Qed.

(** On non-NaN floats [<=] is the complement of [>]. *)
Lemma fle_not_flt a b :
  is_nan a = false -> is_nan b = false -> fle a b = negb (flt b a).
Proof.
  intros Ha Hb. apply eq_bool_prop_intro. rewrite !Is_true_true.
  rewrite negb_true_iff, <- not_true_iff_false.
  rewrite (fle_key a b), (flt_key b a) by done. done.
Qed.

Lemma flt_trichotomy a b :
  is_nan a = false -> is_nan b = false -> flt a b = false -> flt b a = false ->
  feq a b = true.
Proof.
  intros Ha Hb H1 H2. apply feq_key; [done..|].
  apply not_true_iff_false in H1. rewrite flt_key in H1 by done.
  apply not_true_iff_false in H2. rewrite flt_key in H2 by done.
  unfold key_lt in *. destruct (fkey a) as [[]], (fkey b) as [[]]; simpl in *.
  repeat f_equal; lia.
Qed.

(** Negation reverses the order. *)
Lemma flt_fneg a b : flt (fneg a) (fneg b) = flt b a.
Proof.
  destruct (is_nan a) eqn:Ha; [by destruct a, b|].
  destruct (is_nan b) eqn:Hb; [by destruct a as [[]|[]| |[]], b|].
  assert (key_lt (fkey (fneg a)) (fkey (fneg b)) <-> key_lt (fkey b) (fkey a)) as H.
  { unfold key_lt.
    destruct a as [[]|[]| |[]], b as [[]|[]| |[]]; simpl in *; try done; lia. }
  apply eq_bool_prop_intro. rewrite !Is_true_true.
  rewrite !flt_key by (rewrite ?is_nan_fneg; done). done.
Qed.

Lemma feq_fneg a b : feq (fneg a) (fneg b) = feq a b.
Proof.
  destruct (is_nan a) eqn:Ha; [by destruct a, b|].
  destruct (is_nan b) eqn:Hb; [by destruct a as [[]|[]| |[]], b|].
  apply eq_bool_prop_intro. rewrite !Is_true_true.
  rewrite !feq_key by (rewrite ?is_nan_fneg; done).
  destruct a as [[]|[]| |[]], b as [[]|[]| |[]]; simpl in *; try done;
    split; intros; simplify_eq; try done; repeat f_equal; lia.
Qed.

(** ** Minimum *)

Lemma fmin_le_r a b : is_nan a = false -> is_nan b = false -> fle (fmin a b) b = true.
Proof.
  intros Ha Hb. unfold fmin. destruct (flt b a) eqn:E; [by apply fle_refl|].
  by rewrite fle_not_flt, E.
Qed.

(** Whatever [a] is, NaN included, [min(a, b)] is never greater than [b]. *)
Lemma fmin_not_gt a b : flt b (fmin a b) = false.
Proof. unfold fmin. destruct (flt b a) eqn:E; [apply flt_irrefl|done]. Qed.

Lemma fmin_nan a b : is_nan b = false -> is_nan (fmin a b) = is_nan a.
Proof.
  intros Hb. unfold fmin. destruct (flt b a) eqn:E; [|done].
  apply flt_not_nan in E as [_ ->]. done.
Qed.

Lemma fmin_idemp a b : fmin (fmin a b) b = fmin a b.
Proof. unfold fmin. destruct (flt b a) eqn:E; [by rewrite flt_irrefl|by rewrite E]. Qed.
