(* ===== verification/PyStr.v ===== *)
(** * Python strings

    A [str] is modelled as a Rocq [string], one 8-bit character per code point.
    [lower], [isdigit], [isspace] and the regular-expression classes are the
    ASCII ones; the strategy strings, labels and host names the engine handles
    are ASCII. Operations keep Python's behaviour on every branch: [split]
    never returns an empty list, [int] returns [None] where Python raises
    [ValueError]. *)

From stdpp Require Import base numbers list strings pretty.
From Stdlib Require Import ZArith Lia Ascii.
From S2P Require Import Prelude.

#[local] Open Scope string_scope.

(** ** Characters *)

Definition is_upper (c : ascii) : bool :=
  let n := N_of_ascii c in (65 <=? n)%N && (n <=? 90)%N.
Definition is_lower (c : ascii) : bool :=
  let n := N_of_ascii c in (97 <=? n)%N && (n <=? 122)%N.
Definition is_digit (c : ascii) : bool :=
  let n := N_of_ascii c in (48 <=? n)%N && (n <=? 57)%N.
Definition is_alnum (c : ascii) : bool := is_upper c || is_lower c || is_digit c.
(** The class [\w], which is also [[A-Za-z0-9_]]. *)
Definition is_word (c : ascii) : bool := is_alnum c || Ascii.eqb c "_".
Definition is_space (c : ascii) : bool :=
  let n := N_of_ascii c in ((9 <=? n)%N && (n <=? 13)%N) || ((28 <=? n)%N && (n <=? 32)%N).

Definition lower_char (c : ascii) : ascii :=
  if is_upper c then ascii_of_N (N_of_ascii c + 32) else c.

Lemma lower_char_idemp c : lower_char (lower_char c) = lower_char c.
Proof. by destruct c as [[] [] [] [] [] [] [] []]. Qed.

(** ** Building blocks *)

Fixpoint smap (f : ascii -> ascii) (s : string) : string :=
  match s with
  | EmptyString => EmptyString
  | String c s => String (f c) (smap f s)
  end.

Fixpoint sforall (p : ascii -> bool) (s : string) : bool :=
  match s with
  | EmptyString => true
  | String c s => p c && sforall p s
  end.

Definition nonempty (s : string) : bool := match s with EmptyString => false | _ => true end.

Definition lower (s : string) : string := smap lower_char s.

Fixpoint startswith (p s : string) : bool :=
  match p, s with
  | EmptyString, _ => true
  | String a p, String b s => Ascii.eqb a b && startswith p s
  | _, _ => false
  end.

(** [p in s] *)
Fixpoint contains (p s : string) : bool :=
  startswith p s || match s with EmptyString => false | String _ s => contains p s end.

Definition isdigit (s : string) : bool := nonempty s && sforall is_digit s.

(** [s[n:]] and [s[:n]] for a non-negative [n]. *)
Fixpoint sdrop (n : nat) (s : string) : string :=
  match n, s with
  | S n, String _ s => sdrop n s
  | _, _ => s
  end.

Fixpoint stake (n : nat) (s : string) : string :=
  match n, s with
  | S n, String c s => String c (stake n s)
  | _, _ => EmptyString
  end.

(** [s.split(sep)] for a one-character separator. *)
Fixpoint split_char (sep : ascii) (s : string) : list string :=
  match s with
  | EmptyString => [EmptyString]
  | String c s =>
      if Ascii.eqb c sep then EmptyString :: split_char sep s
      else match split_char sep s with
           | w :: ws => String c w :: ws
           | [] => [String c EmptyString]
           end
  end.

(** [s.split(sep, 1)[0]]: the text before the first separator. *)
Fixpoint before (sep : ascii) (s : string) : string :=
  match s with
  | EmptyString => EmptyString
  | String c s => if Ascii.eqb c sep then EmptyString else String c (before sep s)
  end.

(** [s.split(sep)] for a separator of two characters [a], [b]. *)
Fixpoint split_pair (a b : ascii) (s : string) : list string :=
  match s with
  | EmptyString => [EmptyString]
  | String c s' =>
      match s' with
      | String d s'' =>
          if Ascii.eqb c a && Ascii.eqb d b then EmptyString :: split_pair a b s''
          else match split_pair a b s' with
               | w :: ws => String c w :: ws
               | [] => [String c EmptyString]
               end
      | EmptyString => [String c EmptyString]
      end
  end.

(** [s.split(sep)] for a separator that is not empty; [skip] characters of it are still to be passed. *)
Fixpoint split_str_from (sep : string) (skip : nat) (s : string) : list string :=
  match s with
  | EmptyString => [EmptyString]
  | String c s' =>
      match skip with
      | S k => split_str_from sep k s'
      | O =>
          if startswith sep s then EmptyString :: split_str_from sep (String.length sep - 1) s'
          else match split_str_from sep 0 s' with
               | w :: ws => String c w :: ws
               | [] => [String c EmptyString]
               end
      end
  end.
Definition split_str (sep s : string) : list string := split_str_from sep 0 s.

(** [s.replace(c, t)] for a character [c]. *)
Fixpoint subst_char (c : ascii) (t s : string) : string :=
  match s with
  | EmptyString => EmptyString
  | String d s => (if Ascii.eqb d c then t else String d EmptyString) +:+ subst_char c t s
  end.

(** [s.split(sep, 1)[1]], when [sep] occurs. *)
Fixpoint after_first (sep s : string) : option string :=
  if startswith sep s then Some (sdrop (String.length sep) s)
  else match s with EmptyString => None | String _ s => after_first sep s end.

(** [s.endswith(suffix)] *)
Fixpoint endswith (suffix s : string) : bool :=
  String.eqb s suffix || match s with EmptyString => false | String _ s => endswith suffix s end.

(** [s.splitlines()] on ASCII text: \n, \r, \r\n, \v, \f and the separators 28 to 30 end a line. *)
Definition line_end (c : ascii) : bool :=
  let n := N_of_ascii c in ((10 <=? n)%N && (n <=? 13)%N) || ((28 <=? n)%N && (n <=? 30)%N).
Fixpoint splitlines_from (cur s : string) : list string :=
  match s with
  | EmptyString => if nonempty cur then [cur] else []
  | String c s' =>
      if line_end c then
        cur :: match s' with
               | String d s'' =>
                   if Ascii.eqb c "013" && Ascii.eqb d "010" then splitlines_from EmptyString s''
                   else splitlines_from EmptyString s'
               | EmptyString => []
               end
      else splitlines_from (cur +:+ String c EmptyString) s'
  end.
Definition splitlines (s : string) : list string := splitlines_from EmptyString s.

Fixpoint lstrip_by (p : ascii -> bool) (s : string) : string :=
  match s with
  | EmptyString => EmptyString
  | String c s' => if p c then lstrip_by p s' else s
  end.

Fixpoint rstrip_by (p : ascii -> bool) (s : string) : string :=
  match s with
  | EmptyString => EmptyString
  | String c s =>
      match rstrip_by p s with
      | EmptyString => if p c then EmptyString else String c EmptyString
      | s' => String c s'
      end
  end.

Definition strip_by (p : ascii -> bool) (s : string) : string := rstrip_by p (lstrip_by p s).
(** [s.strip()] *)
Definition strip (s : string) : string := strip_by is_space s.
(** [s.strip(c)] *)
Definition strip_char (c : ascii) (s : string) : string := strip_by (Ascii.eqb c) s.

Fixpoint join (sep : string) (l : list string) : string :=
  match l with
  | [] => EmptyString
  | [s] => s
  | s :: l => s +:+ sep +:+ join sep l
  end.

Fixpoint count_char (c : ascii) (s : string) : nat :=
  match s with
  | EmptyString => 0
  | String d s => (if Ascii.eqb c d then 1 else 0) + count_char c s
  end.

(** [a < b] on strings: code-point order. *)
Definition str_lt (a b : string) : bool :=
  match String.compare a b with Lt => true | _ => false end.

(** ** Integers *)

Definition digit_val (c : ascii) : Z := Z.of_N (N_of_ascii c) - 48.

Fixpoint digits_val (acc : Z) (s : string) : Z :=
  match s with
  | EmptyString => acc
  | String c s => digits_val (10 * acc + digit_val c) s
  end.

(** Digits with single underscores between them, as [int] accepts. *)
Fixpoint int_body (acc : Z) (prev_digit : bool) (s : string) : option Z :=
  match s with
  | EmptyString => if prev_digit then Some acc else None
  | String c s =>
      if is_digit c then int_body (10 * acc + digit_val c) true s
      else if Ascii.eqb c "_" && prev_digit then int_body acc false s
      else None
  end.

(** [int(s)]; [None] is [ValueError]. *)
Definition py_int (s : string) : option Z :=
  match strip s with
  | String "-" s => Z.opp <$> int_body 0 false s
  | String "+" s => int_body 0 false s
  | s => int_body 0 false s
  end.

(** [repr] of an ASCII text: single quotes unless the text has some and no double quotes. *)
Definition hex_char (n : N) : ascii := if (n <? 10)%N then ascii_of_N (n + 48) else ascii_of_N (n + 87).
Definition repr_char (quote c : ascii) : string :=
  let n := N_of_ascii c in
  if Ascii.eqb c quote || Ascii.eqb c "\" then String "\" (String c EmptyString)
  else if (n =? 9)%N then "\t" else if (n =? 10)%N then "\n" else if (n =? 13)%N then "\r"
  else if (n <? 32)%N || (n =? 127)%N
    then "\x" +:+ String (hex_char (n / 16)) (String (hex_char (n mod 16)) EmptyString)
  else String c EmptyString.
Fixpoint repr_body (quote : ascii) (s : string) : string :=
  match s with String c s => repr_char quote c +:+ repr_body quote s | EmptyString => EmptyString end.
Definition single_quote : ascii := ascii_of_N 39.
Definition double_quote : ascii := ascii_of_N 34.
Definition has_char (c : ascii) (s : string) : bool := negb (sforall (fun x => negb (Ascii.eqb x c)) s).
Definition repr_str (s : string) : string :=
  let quote := if has_char single_quote s && negb (has_char double_quote s) then double_quote else single_quote in
  String quote (repr_body quote s +:+ String quote EmptyString).

(** [str.split()]: the maximal runs of characters that are no white space. *)
Fixpoint split_ws_from (cur s : string) : list string :=
  match s with
  | EmptyString => if nonempty cur then [cur] else []
  | String c s =>
      if is_space c then if nonempty cur then cur :: split_ws_from EmptyString s else split_ws_from EmptyString s
      else split_ws_from (cur +:+ String c EmptyString) s
  end.
Definition split_ws (s : string) : list string := split_ws_from EmptyString s.

(** [str(z)] *)
Definition str_of_Z (z : Z) : string := pretty z.

Example py_int_ex : (py_int " -12 ", py_int "1_0", py_int "1__0", py_int "", py_int "x")
  = (Some (-12)%Z, Some 10%Z, None, None, None).
Proof. reflexivity. Qed.
Example split_str_ex : split_str " --" " --a --b-- c --" = [""; "a"; "b-- c"; ""].
Proof. reflexivity. Qed.
Example split_ex : split_char "," "a,,b" = ["a"; ""; "b"].
Proof. reflexivity. Qed.
Example strip_ex : strip_char "." "..a.b." = "a.b".
Proof. reflexivity. Qed.

(** ** Lemmas *)

Lemma append_nil_l s : EmptyString +:+ s = s.
Proof. reflexivity. Qed.

Lemma append_cons c s t : String c s +:+ t = String c (s +:+ t).
Proof. reflexivity. Qed.

Lemma append_nil_r s : s +:+ EmptyString = s.
Proof. induction s as [|c s IH]; [done|]. by rewrite append_cons, IH. Qed.

Lemma append_assoc s t u : (s +:+ t) +:+ u = s +:+ (t +:+ u).
Proof. induction s as [|c s IH]; [done|]. by rewrite !append_cons, IH. Qed.

Create HintDb pystr.
#[export] Hint Rewrite append_nil_l append_cons append_nil_r append_assoc : pystr.

Lemma length_append s t : String.length (s +:+ t) = String.length s + String.length t.
Proof. induction s as [|c s IH]; [done|]. rewrite append_cons. simpl. by rewrite IH. Qed.

Lemma smap_append f s t : smap f (s +:+ t) = smap f s +:+ smap f t.
Proof. induction s as [|c s IH]; [done|]. rewrite !append_cons. simpl. by rewrite IH. Qed.

Lemma lower_append s t : lower (s +:+ t) = lower s +:+ lower t.
Proof. apply smap_append. Qed.

Lemma lower_idemp s : lower (lower s) = lower s.
Proof. induction s as [|c s IH]; [done|]. unfold lower in *. simpl. by rewrite lower_char_idemp, IH. Qed.

Lemma sforall_append p s t : sforall p (s +:+ t) = sforall p s && sforall p t.
Proof. induction s as [|c s IH]; [done|]. rewrite append_cons. simpl. by rewrite IH, andb_assoc. Qed.

Lemma sforall_impl (p q : ascii -> bool) s :
  (forall c, p c = true -> q c = true) -> sforall p s = true -> sforall q s = true.
Proof.
  intros H. induction s as [|c s IH]; simpl; [done|].
  rewrite !andb_true_iff. naive_solver.
Qed.

Lemma startswith_spec p s : startswith p s = true <-> exists t, s = p +:+ t.
Proof.
  revert s. induction p as [|a p IH]; intros s; simpl; [naive_solver|].
  destruct s as [|b s]; [split; [done|by intros [t Ht]]|].
  rewrite andb_true_iff, Ascii.eqb_eq, IH. split.
  - intros [-> [t ->]]. by exists t.
  - intros [t Ht]. rewrite append_cons in Ht. simplify_eq. eauto.
Qed.

Lemma startswith_app p s : startswith p (p +:+ s) = true.
Proof. apply startswith_spec. by exists s. Qed.

Lemma startswith_app_r p s t : startswith p s = true -> startswith p (s +:+ t) = true.
Proof. intros [u ->]%startswith_spec. rewrite append_assoc. apply startswith_app. Qed.

Lemma startswith_lower p s : startswith p s = true -> startswith (lower p) (lower s) = true.
Proof. intros [u ->]%startswith_spec. rewrite lower_append. apply startswith_app. Qed.

Lemma contains_spec p s : contains p s = true <-> exists u t, s = u +:+ p +:+ t.
Proof.
  induction s as [|c s IH]; simpl; rewrite orb_true_iff, startswith_spec.
  - split.
    + intros [[t Ht]|]; [|done]. by exists EmptyString, t.
    + intros (u & t & H). destruct u; [|done]. left. by exists t.
  - rewrite IH. split.
    + intros [[t Ht]|(u & t & ->)]; [by exists EmptyString, t|]. by exists (String c u), t.
    + intros (u & t & H). destruct u as [|c' u]; [left; by exists t|].
      right. rewrite append_cons in H. simplify_eq. eauto.
Qed.

Lemma startswith_contains p s : startswith p s = true -> contains p s = true.
Proof. destruct s; simpl; intros ->; done. Qed.

Lemma split_char_ne sep s : split_char sep s <> [].
Proof.
  destruct s as [|c s]; [done|]. simpl. destruct (Ascii.eqb c sep); [done|].
  by destruct (split_char sep s).
Qed.

(** [s.split(sep)[0]] is [s.split(sep, 1)[0]]. *)
Lemma split_char_head sep s : head (split_char sep s) = Some (before sep s).
Proof.
  induction s as [|c s IH]; [done|]. simpl. destruct (Ascii.eqb c sep); [done|].
  destruct (split_char sep s) as [|w ws] eqn:E; [done|]. simpl in *. by simplify_eq.
Qed.

(** Joining the fields gives the string back. *)
Lemma split_char_join sep s : join (String sep EmptyString) (split_char sep s) = s.
Proof.
  induction s as [|c s IH]; [done|]. simpl. destruct (Ascii.eqb c sep) eqn:E.
  - apply Ascii.eqb_eq in E as ->. pose proof (split_char_ne sep s).
    destruct (split_char sep s) as [|w ws]; [done|].
    cbn [join]. cbn [join] in IH. rewrite append_nil_l, append_cons, append_nil_l. by f_equal.
  - destruct (split_char sep s) as [|w ws]; [by rewrite <- IH|].
    destruct ws as [|w' ws]; cbn [join] in *; rewrite ?append_cons; by f_equal.
Qed.

(** ** What holds of every character of a string holds of its pieces *)

Lemma sforall_lstrip p f s : sforall p s = true -> sforall p (lstrip_by f s) = true.
Proof.
  induction s as [|c s IH]; [done|]. cbn [sforall lstrip_by]. intros H.
  destruct (f c); [|done]. apply andb_true_iff in H as [_ H]. by apply IH.
Qed.

Lemma sforall_rstrip p f s : sforall p s = true -> sforall p (rstrip_by f s) = true.
Proof.
  induction s as [|c s IH]; [done|]. cbn [sforall rstrip_by]. intros [Hc H]%andb_true_iff. specialize (IH H).
  destruct (rstrip_by f s) as [|d w]; [destruct (f c)|]; cbn [sforall]; [done|by rewrite Hc|].
  by rewrite Hc.
Qed.

Lemma sforall_strip p s : sforall p s = true -> sforall p (strip s) = true.
Proof. intros. by apply sforall_rstrip, sforall_lstrip. Qed.

Lemma sforall_sdrop p n s : sforall p s = true -> sforall p (sdrop n s) = true.
Proof.
  revert s. induction n as [|n IH]; intros [|c s]; try done.
  cbn [sforall sdrop]. intros [_ H]%andb_true_iff. by apply IH.
Qed.

(** Adding a character to the first piece, as the [split] functions do. *)
Lemma Forall_push (P : string -> Prop) c ws :
  (forall w, P w -> P (String c w)) -> P EmptyString -> Forall P ws ->
  Forall P (match ws with w :: ws => String c w :: ws | [] => [String c EmptyString] end).
Proof. intros Hc H0. destruct 1; constructor; auto. Qed.

Lemma sforall_split_str p sep k s :
  sforall p s = true -> Forall (fun w => sforall p w = true) (split_str_from sep k s).
Proof.
  revert k. induction s as [|c s IH]; intros k; [by constructor|].
  cbn [sforall split_str_from]. intros [Hc H]%andb_true_iff. destruct k; [|by apply IH].
  destruct (startswith _ _); [constructor; [done|by apply IH]|].
  apply Forall_push; [|done|by apply IH]. intros w Hw. cbn [sforall]. by rewrite Hc.
Qed.

Lemma split_char_free sep s :
  Forall (fun w => sforall (fun c => negb (Ascii.eqb c sep)) w = true) (split_char sep s).
Proof.
  induction s as [|c s IH]; [by constructor|]. cbn [split_char]. destruct (Ascii.eqb c sep) eqn:E; [by constructor|].
  apply Forall_push; [|done|done]. intros w Hw. cbn [sforall]. by rewrite E.
Qed.

Lemma splitlines_free cur s :
  sforall (fun c => negb (line_end c)) cur = true ->
  Forall (fun w => sforall (fun c => negb (line_end c)) w = true) (splitlines_from cur s).
Proof.
  remember (String.length s) as n eqn:Hn. revert cur s Hn.
  induction n as [n IH] using lt_wf_ind; intros cur s Hn Hc. destruct s as [|c s].
  - cbn [splitlines_from]. destruct (nonempty cur); by repeat constructor.
  - cbn [splitlines_from]. cbn [String.length] in Hn. destruct (line_end c) eqn:E.
    + constructor; [done|]. destruct s as [|d s]; [done|]. cbn [String.length] in Hn.
      destruct (_ && _); (eapply IH; [|done|done]); cbn [String.length]; lia.
    + eapply IH; [|done|]; [lia|]. rewrite sforall_append, Hc. cbn [sforall]. by rewrite E.
Qed.

Lemma rstrip_idemp p s : rstrip_by p (rstrip_by p s) = rstrip_by p s.
Proof.
  induction s as [|c s IH]; [done|]. simpl. destruct (rstrip_by p s) as [|d t] eqn:E.
  - destruct (p c) eqn:Hc; [done|]. simpl. by rewrite Hc.
  - cbn [rstrip_by] in *. by rewrite IH.
Qed.

Lemma rstrip_app p s t : sforall p t = true -> rstrip_by p (s +:+ t) = rstrip_by p s.
Proof.
  intros Ht. induction s as [|c s IH].
  - rewrite append_nil_l. induction t as [|c t IHt]; [done|]. simpl in *.
    apply andb_true_iff in Ht as [Hc Ht]. rewrite IHt by done. simpl. by rewrite Hc.
  - rewrite append_cons. simpl. by rewrite IH.
Qed.

Lemma lstrip_head p s : match lstrip_by p s with EmptyString => True | String c _ => p c = false end.
Proof. induction s as [|c s IH]; simpl; [done|]. by destruct (p c) eqn:E. Qed.

Lemma lstrip_fix p c s : p c = false -> lstrip_by p (String c s) = String c s.
Proof. intros H. simpl. by rewrite H. Qed.

Lemma rstrip_cons_head p c s : p c = false -> exists t, rstrip_by p (String c s) = String c t.
Proof. intros H. simpl. destruct (rstrip_by p s); [rewrite H|]; eauto. Qed.

(** Stripping a stripped text that got blanks at its end gives it back. *)
Lemma strip_app_blank s t : sforall is_space t = true -> strip (strip s +:+ t) = strip s.
Proof.
  intros Ht. unfold strip, strip_by. pose proof (lstrip_head is_space s) as Hh.
  destruct (lstrip_by is_space s) as [|c u].
  - rewrite append_nil_l. induction t as [|d t IH]; [done|]. simpl in *.
    apply andb_true_iff in Ht as [-> Ht]. by apply IH.
  - destruct (rstrip_cons_head is_space c u Hh) as [v Hv]. rewrite Hv, append_cons.
    rewrite lstrip_fix by done. rewrite <- append_cons, <- Hv, rstrip_app by done.
    apply rstrip_idemp.
Qed.

Lemma strip_idemp s : strip (strip s) = strip s.
Proof. pose proof (strip_app_blank s EmptyString eq_refl) as H. by rewrite append_nil_r in H. Qed.

Lemma rstrip_last p s c : p c = false -> rstrip_by p (s +:+ String c EmptyString) = s +:+ String c EmptyString.
Proof.
  intros Hc. induction s as [|d s IH]; [rewrite append_nil_l; cbn [rstrip_by]; by rewrite Hc|].
  rewrite append_cons. cbn [rstrip_by]. rewrite IH. by destruct s.
Qed.

(** A text that begins and ends with a character that is no blank is stripped already. *)
Lemma strip_fix a s c : is_space a = false -> is_space c = false ->
  strip (String a (s +:+ String c EmptyString)) = String a (s +:+ String c EmptyString).
Proof.
  intros Ha Hc. unfold strip, strip_by. rewrite lstrip_fix by done. by apply (rstrip_last _ (String a s)).
Qed.

Lemma string_last s : nonempty s = true -> exists u c, s = u +:+ String c EmptyString.
Proof.
  induction s as [|a s IH]; [done|]. intros _. destruct s as [|b s]; [by exists EmptyString, a|].
  destruct IH as (u & c & ->); [done|]. exists (String a u), c. by rewrite append_cons.
Qed.

Lemma before_app sep a b :
  sforall (fun c => negb (Ascii.eqb c sep)) a = true -> before sep (a +:+ String sep b) = a.
Proof.
  induction a as [|c a IH]; intros H.
  - rewrite append_nil_l. simpl. by rewrite Ascii.eqb_refl.
  - simpl in H. apply andb_true_iff in H as [Hc%negb_true_iff H]. rewrite append_cons. simpl.
    by rewrite Hc, IH.
Qed.

(** A text is blank when nothing is left of it. *)
Lemma nonempty_lstrip p s : nonempty (lstrip_by p s) = negb (sforall p s).
Proof. induction s as [|c s IH]; [done|]. cbn [lstrip_by sforall]. by destruct (p c). Qed.

Lemma nonempty_rstrip p s : nonempty (rstrip_by p s) = negb (sforall p s).
Proof.
  induction s as [|c s IH]; [done|]. cbn [rstrip_by sforall].
  destruct (rstrip_by p s); cbn [nonempty] in IH; [destruct (p c)|]; cbn [nonempty andb negb]; [done|done|].
  by destruct (p c), (sforall p s).
Qed.

Lemma nonempty_strip s : nonempty (strip s) = negb (sforall is_space s).
Proof.
  unfold strip, strip_by. rewrite nonempty_rstrip. destruct (sforall is_space s) eqn:E.
  - assert (nonempty (lstrip_by is_space s) = false) as H by (by rewrite nonempty_lstrip, E).
    by destruct (lstrip_by is_space s).
  - pose proof (lstrip_head is_space s) as H. pose proof (nonempty_lstrip is_space s) as Hn. rewrite E in Hn.
    destruct (lstrip_by is_space s) as [|c t]; [done|]. cbn [sforall]. by rewrite H.
Qed.

Lemma count_char_append c s t : count_char c (s +:+ t) = count_char c s + count_char c t.
Proof. induction s as [|d s IH]; [done|]. rewrite append_cons. cbn [count_char]. rewrite IH. lia. Qed.

Lemma sforall_join p sep l :
  sforall p sep = true -> Forall (fun s => sforall p s = true) l -> sforall p (join sep l) = true.
Proof.
  intros Hsep. induction 1 as [|s l Hs Hl IH]; [done|]. destruct l as [|t l]; [done|].
  cbn [join] in IH |- *. by rewrite !sforall_append, Hs, Hsep.
Qed.

(** The characters that [p] rejects occur in no prefix of a string without them. *)
Lemma sforall_elem (p : ascii -> bool) s t c : sforall p (s +:+ String c t) = true -> p c = true.
Proof. rewrite sforall_append. cbn [sforall]. by intros [_ [H _]%andb_true_iff]%andb_true_iff. Qed.

Lemma str_lt_le a b : str_lt b a = false <-> String.le a b.
Proof.
  unfold str_lt, String.le, String.leb. rewrite (String.compare_antisym b a).
  destruct (String.compare a b); simpl; split; done.
Qed.

#[export] Instance str_lt_swo : StrictWeakOrder str_lt.
Proof.
  split.
  - intros x. apply str_lt_le. reflexivity.
  - intros x y. rewrite str_lt_le. unfold str_lt, String.le, String.leb.
    by destruct (String.compare x y).
  - intros x y z. rewrite !str_lt_le. intros. by transitivity y.
Qed.

Lemma str_lt_irrefl a : str_lt a a = false.
Proof. apply (swo_irrefl str_lt). Qed.

(** The order is total: strings that compare equal are equal. *)
Lemma str_lt_eq a b : str_lt a b = false -> str_lt b a = false -> a = b.
Proof. rewrite !str_lt_le. intros. by apply (anti_symm String.le). Qed.

Lemma sdrop_append p s : sdrop (String.length p) (p +:+ s) = s.
Proof. induction p as [|c p IH]; [done|]. by rewrite append_cons. Qed.

Lemma stake_length_append p s : stake (String.length p) (p +:+ s) = p.
Proof. induction p as [|c p IH]; [by destruct s|]. rewrite append_cons. simpl. by rewrite IH. Qed.

Lemma append_inj_l p s t : p +:+ s = p +:+ t -> s = t.
Proof.
  induction p as [|c p IH]; [done|]. rewrite !append_cons. intros H. simplify_eq. by apply IH.
Qed.

(** Two prefixes of one string with the same length are equal. *)
Lemma prefix_same_length p q s t :
  p +:+ s = q +:+ t -> String.length p = String.length q -> p = q.
Proof.
  intros H Hl. rewrite <- (stake_length_append p s), H, Hl. apply stake_length_append.
Qed.

(** ** [int(str(z)) = z] *)

Lemma digits_val_append acc s t : digits_val acc (s +:+ t) = digits_val (digits_val acc s) t.
Proof. revert acc. induction s as [|c s IH]; intros acc; [done|]. rewrite append_cons. apply IH. Qed.

Lemma pretty_char_digit x : (x < 10)%N ->
  is_digit (pretty_N_char x) = true /\ digit_val (pretty_N_char x) = Z.of_N x.
Proof.
  intros H. assert (x = 0 \/ x = 1 \/ x = 2 \/ x = 3 \/ x = 4 \/ x = 5 \/ x = 6 \/ x = 7 \/ x = 8
    \/ x = 9)%N as Hx by lia.
  by destruct Hx as [-> | [-> | [-> | [-> | [-> | [-> | [-> | [-> | [-> | ->]]]]]]]]].
Qed.

Lemma pretty_N_go_digits x s :
  exists w, pretty_N_go x s = w +:+ s /\ sforall is_digit w = true /\
    (forall acc, digits_val acc w = acc * 10 ^ Z.of_nat (String.length w) + Z.of_N x)%Z /\
    (nonempty w = true <-> x <> 0%N).
Proof.
  revert s. induction (N.lt_wf_0 x) as [x _ IH]; intros s.
  destruct (decide (x = 0%N)) as [->|Hx].
  - exists EmptyString. split_and!; [done|done| |done]. intros acc. simpl. lia.
  - rewrite pretty_N_go_step by lia.
    destruct (IH (x `div` 10)%N ltac:(apply N.div_lt; lia) (String (pretty_N_char (x `mod` 10)) s))
      as (w & -> & Hd & Hv & Hn).
    destruct (pretty_char_digit (x `mod` 10)%N) as [Hc Hc']; [by apply N.mod_lt|].
    exists (w +:+ String (pretty_N_char (x `mod` 10)) EmptyString). split_and!.
    + by rewrite append_assoc.
    + rewrite sforall_append, Hd. simpl. by rewrite Hc.
    + intros acc. rewrite digits_val_append, Hv, length_append. cbn [digits_val String.length].
      rewrite Hc', Nat.add_1_r, Nat2Z.inj_succ, Z.pow_succ_r by lia.
      rewrite N2Z.inj_div, N2Z.inj_mod.
      pose proof (Z.div_mod (Z.of_N x) 10 ltac:(lia)). change (Z.of_N 10) with 10%Z. lia.
    + split; [done|]. intros _. destruct w; done.
Qed.

(** No leading zero. *)
Lemma pretty_N_go_head x s : x <> 0%N ->
  exists c w, pretty_N_go x s = String c w /\ Ascii.eqb c "0" = false.
Proof.
  revert s. induction (N.lt_wf_0 x) as [x _ IH]; intros s Hx. rewrite pretty_N_go_step by lia.
  destruct (decide (x `div` 10 = 0)%N) as [Hd|Hd].
  - rewrite Hd. change (pretty_N_go 0 ?t) with t. eexists _, _. split; [reflexivity|].
    assert (x < 10)%N by (by apply N.div_small_iff). rewrite N.mod_small by done.
    assert (x = 1 \/ x = 2 \/ x = 3 \/ x = 4 \/ x = 5 \/ x = 6 \/ x = 7 \/ x = 8 \/ x = 9)%N as Hx' by lia.
    by destruct Hx' as [-> | [-> | [-> | [-> | [-> | [-> | [-> | [-> | ->]]]]]]]].
  - apply IH; [apply N.div_lt; lia|done].
Qed.

Lemma str_of_Z_head z : (0 < z)%Z -> exists c w, str_of_Z z = String c w /\ Ascii.eqb c "0" = false.
Proof.
  intros Hz. destruct z as [|p|p]; [lia| |lia].
  change (str_of_Z (Z.pos p)) with (pretty_N_go (N.pos p) EmptyString). by apply pretty_N_go_head.
Qed.

(** The decimal representation of a natural number: digits that denote it. *)
Lemma str_of_Z_nonneg z : (0 <= z)%Z ->
  isdigit (str_of_Z z) = true /\ digits_val 0 (str_of_Z z) = z.
Proof.
  intros Hz. destruct z as [|p|p]; [done| |lia].
  change (str_of_Z (Z.pos p)) with (pretty_N_go (N.pos p) EmptyString).
  destruct (pretty_N_go_digits (N.pos p) EmptyString) as (w & -> & Hd & Hv & Hn).
  rewrite append_nil_r. unfold isdigit. rewrite Hd, Hv. split; [|done].
  rewrite andb_true_r. by apply Hn.
Qed.

Lemma str_of_Z_neg z : (z < 0)%Z -> exists w, str_of_Z z = String "-" w.
Proof. destruct z; [lia|lia|]. intros _. eexists. reflexivity. Qed.

#[export] Instance str_of_Z_inj : Inj (=) (=) str_of_Z.
Proof. intros x y. apply pretty_Z_inj. Qed.

(** ** [int(str(z))] *)

Lemma strip_none p s : sforall (fun c => negb (p c)) s = true -> strip_by p s = s.
Proof.
  intros Hs. unfold strip_by. assert (lstrip_by p s = s) as ->.
  { destruct s as [|c s]; [done|]. cbn [sforall] in Hs. apply andb_prop in Hs as [Hc _].
    apply lstrip_fix. by apply negb_true_iff in Hc. }
  induction s as [|c s IH]; [done|]. cbn [sforall] in Hs. apply andb_prop in Hs as [Hc Hs].
  cbn [rstrip_by]. rewrite (IH Hs). apply negb_true_iff in Hc. by destruct s; rewrite ?Hc.
Qed.

Lemma digit_not_space c : is_digit c = true -> negb (is_space c) = true.
Proof. destruct c as [[] [] [] [] [] [] [] []]; vm_compute; done. Qed.

Lemma int_body_digits s : forall acc b, sforall is_digit s = true ->
  int_body acc b s = if b || nonempty s then Some (digits_val acc s) else None.
Proof.
  induction s as [|c s IH]; intros acc b Hs; [by destruct b|].
  cbn [sforall] in Hs. apply andb_prop in Hs as [Hc Hs]. cbn [int_body digits_val nonempty].
  rewrite Hc, (IH _ _ Hs), orb_true_r. done.
Qed.

Lemma py_int_digits s : isdigit s = true -> py_int s = Some (digits_val 0 s).
Proof.
  intros H. unfold isdigit in H. apply andb_prop in H as [Hn Hd]. unfold py_int, strip.
  rewrite strip_none by (eapply sforall_impl; [apply digit_not_space|exact Hd]).
  assert (int_body 0 false s = Some (digits_val 0 s)) as E by (by rewrite int_body_digits, Hn).
  destruct s as [|c s]; [done|]. cbn [sforall] in Hd. apply andb_prop in Hd as [Hc _]. rewrite <- E.
  clear - Hc. by destruct c as [[] [] [] [] [] [] [] []].
Qed.

Lemma py_int_str_of_Z z : (0 <= z)%Z -> py_int (str_of_Z z) = Some z.
Proof. intros Hz. destruct (str_of_Z_nonneg z Hz) as [Hd Hv]. by rewrite (py_int_digits _ Hd), Hv. Qed.

(** A split at the last separator. *)
Lemma split_char_snoc sep a b :
  sforall (fun c => negb (Ascii.eqb c sep)) b = true ->
  split_char sep (a +:+ String sep b) = (split_char sep a ++ [b])%list.
Proof.
  intros Hb. assert (split_char sep b = [b]) as E.
  { induction b as [|c b IH]; [done|]. cbn [sforall] in Hb. apply andb_prop in Hb as [Hc Hb].
    cbn [split_char]. apply negb_true_iff in Hc. by rewrite Hc, (IH Hb). }
  induction a as [|c a IH].
  - rewrite append_nil_l. cbn [split_char]. by rewrite Ascii.eqb_refl, E.
  - rewrite append_cons. cbn [split_char]. rewrite IH. destruct (Ascii.eqb c sep); [done|].
    pose proof (split_char_ne sep a). by destruct (split_char sep a).
Qed.

(** Splitting what was joined. *)
Lemma split_char_alone sep a : sforall (fun c => negb (Ascii.eqb c sep)) a = true -> split_char sep a = [a].
Proof.
  induction a as [|c a IH]; [done|]. cbn [sforall split_char]. intros [Hc Ha]%andb_prop.
  apply negb_true_iff in Hc. by rewrite Hc, (IH Ha).
Qed.

Lemma split_char_cons sep a s :
  sforall (fun c => negb (Ascii.eqb c sep)) a = true -> split_char sep (a +:+ String sep s) = a :: split_char sep s.
Proof.
  induction a as [|c a IH]; intros Ha.
  - rewrite append_nil_l. cbn [split_char]. by rewrite Ascii.eqb_refl.
  - cbn [sforall] in Ha. apply andb_prop in Ha as [Hc Ha]. rewrite append_cons. cbn [split_char].
    apply negb_true_iff in Hc. by rewrite Hc, (IH Ha).
Qed.

Lemma split_join_free sep l :
  l <> [] -> Forall (fun w => sforall (fun c => negb (Ascii.eqb c sep)) w = true) l ->
  split_char sep (join (String sep EmptyString) l) = l.
Proof.
  intros Hne Hl. induction l as [|a l IH]; [done|]. apply Forall_cons in Hl as [Ha Hl].
  destruct l as [|b l]; [by apply split_char_alone|].
  change (join (String sep EmptyString) (a :: b :: l)) with (a +:+ String sep (EmptyString +:+ join (String sep EmptyString) (b :: l))).
  rewrite append_nil_l, split_char_cons by done. f_equal. by apply IH.
Qed.

Lemma endswith_iff suf s : endswith suf s = true <-> exists u, s = u +:+ suf.
Proof.
  split.
  - induction s as [|c s IH]; cbn [endswith]; rewrite orb_true_iff, String.eqb_eq.
    + intros [<-|?]; [by exists EmptyString|done].
    + intros [<-|H]; [by exists EmptyString|]. destruct (IH H) as [u ->]. by exists (String c u).
  - intros [u ->]. induction u as [|c u IH].
    + rewrite append_nil_l. destruct suf; cbn [endswith]; by rewrite String.eqb_refl.
    + rewrite append_cons. cbn [endswith]. by rewrite IH, orb_true_r.
Qed.
Lemma endswith_spec suf s : endswith suf s = true -> exists u, s = u +:+ suf.
Proof. apply endswith_iff. Qed.
Lemma endswith_append s t : endswith t (s +:+ t) = true.
Proof. apply endswith_iff. by exists s. Qed.
