(* ===== verification/PyRe.v ===== *)
(** * Python regular expressions

    The fragment of [re] the source uses: literals, character classes,
    sequences, alternatives, greedy repetition, groups, the anchors [^], [$]
    and [\b], and lookahead. [exec] is a backtracking matcher in
    continuation-passing style: it explores the choices in Python's order
    (left alternative first, greedy repetition first), so the match it returns
    is the one [re] returns. No pattern of the source repeats a pattern that
    matches the empty string.

    [den] gives the meaning of a pattern as a relation between positions with
    captures; [exec_sound] and [exec_complete] relate the two, and the lemmas
    about [search] and [finditer] are stated with [den]. *)

From stdpp Require Import base numbers list relations strings.
From Stdlib Require Import ZArith Lia Ascii.
From S2P Require Import Prelude PyStr.

(** ** Syntax *)

Inductive re : Type :=
  | Eps
  | Chr (p : ascii -> bool)
  | Seq (r1 r2 : re)
  | Alt (r1 r2 : re)
  | Star (r : re)
  | Group (n : nat) (r : re)
  | Bol
  | Eol
  | WordB
  | Look (r : re)
  | NotLook (r : re).

Definition Plus (r : re) : re := Seq r (Star r).
Definition Opt (r : re) : re := Alt r Eps.
Fixpoint Rep (n : nat) (r : re) : re := match n with O => Eps | S n => Seq r (Rep n r) end.
Definition RepRange (lo hi : nat) (r : re) : re :=
  Seq (Rep lo r) (Nat.iter (hi - lo) (fun t => Opt (Seq r t)) Eps).
Definition dot : re := Chr (fun c => negb (Ascii.eqb c "010")).
Definition digit : re := Chr is_digit.
Definition space : re := Chr is_space.

(** A literal, and a literal under [re.I]. *)
Fixpoint lit (s : string) : re :=
  match s with EmptyString => Eps | String c s => Seq (Chr (Ascii.eqb c)) (lit s) end.
Definition eqi (a b : ascii) : bool := Ascii.eqb (lower_char a) (lower_char b).
Fixpoint liti (s : string) : re :=
  match s with EmptyString => Eps | String c s => Seq (Chr (eqi c)) (liti s) end.

Fixpoint alts (l : list re) : re :=
  match l with
  | [] => NotLook Eps
  | [r] => r
  | r :: l => Alt r (alts l)
  end.

Fixpoint seqs (l : list re) : re :=
  match l with [] => Eps | [r] => r | r :: l => Seq r (seqs l) end.

(** ** Matching *)

Record pos : Type := Pos { prev : option ascii; rest : string }.
Definition caps : Type := list (nat * string).

(** The text between two positions of one string. *)
Definition between (p q : pos) : string :=
  stake (String.length (rest p) - String.length (rest q)) (rest p).

Definition word_opt (o : option ascii) : bool :=
  match o with Some c => is_word c | None => false end.
Definition first_char (s : string) : option ascii :=
  match s with EmptyString => None | String c _ => Some c end.
Definition at_word_boundary (p : pos) : bool :=
  xorb (word_opt (prev p)) (word_opt (first_char (rest p))).
(** [$] without [re.M]: at the end, or before a final newline. *)
Definition at_end (p : pos) : bool :=
  match rest p with
  | EmptyString => true
  | String c s => Ascii.eqb c "010" && negb (nonempty s)
  end.
Definition shorter (p q : pos) : bool := Nat.ltb (String.length (rest p)) (String.length (rest q)).

Fixpoint exec (r : re) : forall {A : Type}, pos -> caps -> (pos -> caps -> option A) -> option A :=
  match r with
  | Eps => fun A p c k => k p c
  | Chr f => fun A p c k =>
      match rest p with
      | EmptyString => None
      | String a s => if f a then k (Pos (Some a) s) c else None
      end
  | Seq r1 r2 => fun A p c k => exec r1 p c (fun p' c' => exec r2 p' c' k)
  | Alt r1 r2 => fun A p c k =>
      match exec r1 p c k with Some x => Some x | None => exec r2 p c k end
  | Star r => fun A p c k =>
      (fix loop (fuel : nat) (p : pos) (c : caps) : option A :=
         match fuel with
         | O => k p c
         | S f =>
             match exec r p c (fun p' c' => if shorter p' p then loop f p' c' else None) with
             | Some x => Some x
             | None => k p c
             end
         end) (String.length (rest p)) p c
  | Group n r => fun A p c k => exec r p c (fun p' c' => k p' ((n, between p p') :: c'))
  | Bol => fun A p c k => match prev p with None => k p c | Some _ => None end
  | Eol => fun A p c k => if at_end p then k p c else None
  | WordB => fun A p c k => if at_word_boundary p then k p c else None
  | Look r => fun A p c k =>
      match exec r p c (fun _ c' => Some c') with Some c' => k p c' | None => None end
  | NotLook r => fun A p c k =>
      match exec r p c (fun _ c' => Some c') with Some _ => None | None => k p c end
  end.

Record match_ : Type := Match { m_start : pos; m_end : pos; m_caps : caps }.

Definition exec_at (r : re) (p : pos) : option match_ :=
  exec r p [] (fun q c => Some (Match p q c)).

Fixpoint cap_get (n : nat) (c : caps) : option string :=
  match c with
  | [] => None
  | (n', s) :: c => if Nat.eqb n n' then Some s else cap_get n c
  end.

(** [m.group(n)] *)
Definition group (n : nat) (m : match_) : option string :=
  match n with
  | O => Some (between (m_start m) (m_end m))
  | _ => cap_get n (m_caps m)
  end.

(** The leftmost match from a position on. *)
Fixpoint scan (r : re) (pr : option ascii) (s : string) : option match_ :=
  match exec_at r (Pos pr s) with
  | Some m => Some m
  | None => match s with EmptyString => None | String a s => scan r (Some a) s end
  end.

(** [re.search], [re.match], [re.fullmatch]. *)
Definition search (r : re) (s : string) : option match_ := scan r None s.
Definition re_match (r : re) (s : string) : option match_ := exec_at r (Pos None s).
Definition fullmatch (r : re) (s : string) : option match_ :=
  exec r (Pos None s) [] (fun q c =>
    match rest q with EmptyString => Some (Match (Pos None s) q c) | _ => None end).

Definition found {A} (o : option A) : bool := match o with Some _ => true | None => false end.

(** [re.finditer]: successive non-overlapping matches; the search goes on at
    the end of the last match, one character further after an empty one. *)
Fixpoint finditer_from (fuel : nat) (r : re) (p : pos) : list match_ :=
  match fuel with
  | O => []
  | S f =>
      match scan r (prev p) (rest p) with
      | None => []
      | Some m =>
          m :: (if shorter (m_end m) (m_start m) then finditer_from f r (m_end m)
                else match rest (m_end m) with
                     | EmptyString => []
                     | String a s => finditer_from f r (Pos (Some a) s)
                     end)
      end
  end.

Definition finditer (r : re) (s : string) : list match_ :=
  finditer_from (S (String.length s)) r (Pos None s).

(** [re.sub] with a function of the match, for patterns that match no empty text. *)
Fixpoint sub_from (fuel : nat) (r : re) (repl : match_ -> string) (p : pos) : string :=
  match fuel with
  | O => rest p
  | S f =>
      match scan r (prev p) (rest p) with
      | None => rest p
      | Some m =>
          between p (m_start m) +:+ repl m +:+
            (if shorter (m_end m) (m_start m) then sub_from f r repl (m_end m)
             else match rest (m_end m) with
                  | EmptyString => EmptyString
                  | String a s => String a (sub_from f r repl (Pos (Some a) s))
                  end)
      end
  end.

Definition re_sub (r : re) (repl : match_ -> string) (s : string) : string :=
  sub_from (S (String.length s)) r repl (Pos None s).

(** [re.findall] for a pattern with one group: the texts of group 1. *)
Definition findall1 (r : re) (s : string) : list string := omap (group 1) (finditer r s).

Example search_ex :
  findall1 (seqs [lit "blob="; Group 1 (Plus (Chr is_word))]) "fake:blob=stun:x;blob=b4pda"
  = ["stun"; "b4pda"].
Proof. reflexivity. Qed.
Example search_ex2 : found (search (seqs [WordB; liti "tcp rst"; WordB]) "got TCP RST.") = true.
Proof. reflexivity. Qed.

(** ** Meaning *)

Definition st : Type := pos * caps.

Fixpoint den (r : re) (x y : st) : Prop :=
  match r with
  | Eps => y = x
  | Chr f => exists a s, rest x.1 = String a s /\ f a = true /\ y = (Pos (Some a) s, x.2)
  | Seq r1 r2 => exists z, den r1 x z /\ den r2 z y
  | Alt r1 r2 => den r1 x y \/ den r2 x y
  | Star r => rtc (fun x y => den r x y /\ shorter y.1 x.1 = true) x y
  | Group n r => exists z, den r x z /\ y = (z.1, (n, between x.1 z.1) :: z.2)
  | Bol => prev x.1 = None /\ y = x
  | Eol => at_end x.1 = true /\ y = x
  | WordB => at_word_boundary x.1 = true /\ y = x
  | Look r => exists z, den r x z /\ y = (x.1, z.2)
  | NotLook r => (~ exists z, den r x z) /\ y = x
  end.

(** The text consumed: the end position is the start position advanced over it. *)
Fixpoint advance (pr : option ascii) (w : string) : option ascii :=
  match w with EmptyString => pr | String a w => advance (Some a) w end.

Definition consumes (p : pos) (w : string) (q : pos) : Prop :=
  rest p = w +:+ rest q /\ prev q = advance (prev p) w.

Lemma advance_append pr w v : advance pr (w +:+ v) = advance (advance pr w) v.
Proof. revert pr. induction w as [|a w IH]; intros pr; [done|]. rewrite append_cons. apply IH. Qed.

Lemma consumes_refl p : consumes p EmptyString p.
Proof. done. Qed.

Lemma consumes_trans p q o w v :
  consumes p w q -> consumes q v o -> consumes p (w +:+ v) o.
Proof.
  intros [H1 H2] [H3 H4]. split.
  - by rewrite H1, H3, append_assoc.
  - by rewrite H4, H2, advance_append.
Qed.

Lemma consumes_between p w q : consumes p w q -> between p q = w.
Proof.
  intros [H _]. unfold between. rewrite H, length_append.
  replace (_ + _ - _) with (String.length w) by lia. apply stake_length_append.
Qed.

Lemma consumes_length p w q :
  consumes p w q -> String.length (rest p) = String.length w + String.length (rest q).
Proof. intros [H _]. by rewrite H, length_append. Qed.

#[export] Hint Resolve consumes_refl consumes_trans : pystr.

Lemma den_consumes r x y : den r x y -> exists w, consumes x.1 w y.1.
Proof.
  revert x y. induction r as [|f|r1 IH1 r2 IH2|r1 IH1 r2 IH2|r IH|n r IH| | | |r IH|r IH];
    intros x y; simpl.
  - intros ->. eauto with pystr.
  - intros (a & s & H1 & _ & ->). exists (String a EmptyString). by split.
  - intros (z & [w Hw]%IH1 & [v Hv]%IH2). eauto with pystr.
  - intros [H|H]; eauto.
  - induction 1 as [|x z y [[w Hw]%IH _] _ [v Hv]]; eauto with pystr.
  - intros (z & [w Hw]%IH & ->). eauto.
  - intros [_ ->]. eauto with pystr.
  - intros [_ ->]. eauto with pystr.
  - intros [_ ->]. eauto with pystr.
  - intros (z & _ & ->). eauto with pystr.
  - intros [_ ->]. eauto with pystr.
Qed.

Lemma den_length r x y :
  den r x y -> String.length (rest y.1) <= String.length (rest x.1).
Proof. intros [w H%consumes_length]%den_consumes. lia. Qed.

(** ** The matcher computes the meaning *)

(** The inner loop of [Star], named for the proofs. *)
Definition star_loop (r : re) {A} (k : pos -> caps -> option A) :=
  fix loop (fuel : nat) (p : pos) (c : caps) : option A :=
    match fuel with
    | O => k p c
    | S f =>
        match exec r p c (fun p' c' => if shorter p' p then loop f p' c' else None) with
        | Some x => Some x
        | None => k p c
        end
    end.

Lemma exec_star r {A} p c (k : pos -> caps -> option A) :
  exec (Star r) p c k = star_loop r k (String.length (rest p)) p c.
Proof. reflexivity. Qed.

Definition sound (r : re) : Prop :=
  forall A p c (k : pos -> caps -> option A) a,
    exec r p c k = Some a -> exists q d, den r (p, c) (q, d) /\ k q d = Some a.

Lemma star_loop_sound r {A} (k : pos -> caps -> option A) fuel p c a :
  sound r -> star_loop r k fuel p c = Some a ->
  exists q d, den (Star r) (p, c) (q, d) /\ k q d = Some a.
Proof.
  intros Hr. revert p c. induction fuel as [|f IH]; intros p c; simpl.
  - intros H. by exists p, c; split; [apply rtc_refl|].
  - destruct (exec r p c _) as [b|] eqn:E.
    + intros [= ->]. apply Hr in E as (q & d & Hd & Hk).
      destruct (shorter q p) eqn:Hs; [|done].
      apply IH in Hk as (q' & d' & Hd' & Hk). exists q', d'.
      split; [|done]. eapply rtc_l; [|exact Hd']. done.
    + intros H. by exists p, c; split; [apply rtc_refl|].
Qed.

(** The two statements are proved together: a negative lookahead needs the
    completeness of its body to be sound, and the other way round. A pattern's
    meaning does not depend on the captures so far. *)
Definition caps_free (r : re) : Prop :=
  forall p c q c', den r (p, c) (q, c') -> forall d, exists d', den r (p, d) (q, d').

Lemma rtc_caps_free r p c q c' d :
  caps_free r -> den (Star r) (p, c) (q, c') -> exists d', den (Star r) (p, d) (q, d').
Proof.
  intros Hr H. remember (p, c) as x eqn:Ex. remember (q, c') as y eqn:Ey.
  revert p c Ex d. induction H as [x|x [z cz] y [H Hs] _ IH]; intros p c -> d; simplify_eq.
  - exists d. apply rtc_refl.
  - eapply Hr in H as [d' H]. destruct (IH eq_refl _ _ eq_refl d') as [d'' H''].
    exists d''. eapply rtc_l; [|exact H'']. done.
Qed.

Lemma den_caps_free r : caps_free r.
Proof.
  induction r as [|f|r1 IH1 r2 IH2|r1 IH1 r2 IH2|r IH|n r IH| | | |r IH|r IH];
    intros p c q c' H d; simpl in H.
  - simplify_eq. by exists d.
  - destruct H as (a & s & H1 & H2 & ?); simplify_eq/=. exists d, a, s. done.
  - destruct H as ([z cz] & H1 & H2). eapply IH1 in H1 as [d1 H1].
    eapply IH2 in H2 as [d2 H2]. exists d2, (z, d1). done.
  - destruct H as [H|H]; [eapply IH1 in H as [d' H]|eapply IH2 in H as [d' H]];
      exists d'; simpl; eauto.
  - by eapply rtc_caps_free.
  - destruct H as ([z cz] & H & ?); simplify_eq/=. eapply IH in H as [d' H].
    eexists _, (z, d'). done.
  - destruct H as [H ?]; simplify_eq/=. by exists d.
  - destruct H as [H ?]; simplify_eq/=. by exists d.
  - destruct H as [H ?]; simplify_eq/=. by exists d.
  - destruct H as ([z cz] & H & ?); simplify_eq/=. eapply IH in H as [d' H].
    eexists _, (z, d'). done.
  - destruct H as [H ?]; simplify_eq/=. exists d. split; [|done].
    intros [[z cz] Hz]. apply H. eapply IH in Hz as [d' Hz]. by exists (z, d').
Qed.

Definition complete (r : re) : Prop :=
  forall A p c q d (k : pos -> caps -> option A),
    den r (p, c) (q, d) -> (forall e, is_Some (k q e)) -> is_Some (exec r p c k).

Lemma star_loop_complete r {A} (k : pos -> caps -> option A) fuel p c q d e :
  complete r -> den (Star r) (p, c) (q, d) -> (forall e, is_Some (k q e)) ->
  String.length (rest p) <= fuel -> is_Some (star_loop r k fuel p e).
Proof.
  intros Hr H Hk. remember (p, c) as x eqn:Ex. remember (q, d) as y eqn:Ey.
  revert p c Ex fuel e.
  induction H as [x|x [z cz] y [H Hs] _ IH]; intros p c -> fuel e Hf; simplify_eq.
  - destruct fuel as [|f]; simpl; [apply Hk|]. by destruct (exec r _ _ _); [|apply Hk].
  - simpl in Hs. pose proof Hs as Hlt. unfold shorter in Hlt. apply Nat.ltb_lt in Hlt.
    destruct fuel as [|f]; [lia|]. simpl.
    destruct (exec r p e _) as [b|] eqn:E; [done|].
    eapply den_caps_free in H as [d' H].
    assert (is_Some (exec r p e (fun p' c' => if shorter p' p then star_loop r k f p' c' else None)))
      as [b Hb]; [|by rewrite E in Hb].
    eapply Hr; [exact H|]. intros e'. rewrite Hs. eapply IH; [done|done|lia].
Qed.

Lemma exec_sound_complete r : sound r /\ complete r.
Proof.
  induction r as [|f|r1 [S1 C1] r2 [S2 C2]|r1 [S1 C1] r2 [S2 C2]|r [Sr Cr]|n r [Sr Cr]| | |
    |r [Sr Cr]|r [Sr Cr]]; split; intros A p c.
  - intros k a H. by exists p, c.
  - intros q d k H Hk. simpl in H. simplify_eq. apply Hk.
  - intros k a. simpl. destruct (rest p) as [|b s] eqn:E; [done|].
    destruct (f b) eqn:Ef; [|done]. intros H. exists (Pos (Some b) s), c. split; [|done].
    exists b, s. done.
  - intros q d k (b & s & H1 & H2 & ?) Hk. simplify_eq/=. rewrite H1, H2. apply Hk.
  - intros k a H%S1. destruct H as (z & cz & H1 & H). apply S2 in H as (q & d & H2 & H).
    exists q, d. split; [|done]. by exists (z, cz).
  - intros q d k ([z cz] & H1 & H2) Hk. simpl. eapply C1; [exact H1|]. intros e.
    eapply den_caps_free in H2 as [d' H2]. eapply C2; [exact H2|done].
  - intros k a. simpl. destruct (exec r1 p c k) as [b|] eqn:E.
    + intros [= ->]. apply S1 in E as (q & d & H & Hk). exists q, d. auto.
    + intros H%S2. destruct H as (q & d & H & Hk). exists q, d. auto.
  - intros q d k [H|H] Hk; simpl.
    + assert (is_Some (exec r1 p c k)) as [b ->]; [eapply C1; eauto|done].
    + destruct (exec r1 p c k); [done|]. eapply C2; eauto.
  - intros k a. rewrite exec_star. by apply star_loop_sound.
  - intros q d k H Hk. rewrite exec_star. eapply star_loop_complete; eauto.
  - intros k a H%Sr. destruct H as (q & d & H & Hk). eexists q, _. split; [|exact Hk].
    by exists (q, d).
  - intros q d k ([z cz] & H & ?) Hk. simplify_eq/=. eapply Cr; [exact H|]. intros e. apply Hk.
  - intros k a. simpl. destruct (prev p) eqn:E; [done|]. intros H. by exists p, c.
  - intros q d k [H ?] Hk. simplify_eq/=. rewrite H. apply Hk.
  - intros k a. simpl. destruct (at_end p) eqn:E; [|done]. intros H. by exists p, c.
  - intros q d k [H ?] Hk. simplify_eq/=. rewrite H. apply Hk.
  - intros k a. simpl. destruct (at_word_boundary p) eqn:E; [|done]. intros H. by exists p, c.
  - intros q d k [H ?] Hk. simplify_eq/=. rewrite H. apply Hk.
  - intros k a. simpl. destruct (exec r p c _) as [b|] eqn:E; [|done]. intros H.
    apply Sr in E as (q & d & Hd & [= ->]). exists p, b. split; [|done]. by exists (q, b).
  - intros q d k ([z cz] & H & ?) Hk. simplify_eq/=.
    assert (is_Some (exec r p c (fun _ c' => Some c'))) as [b ->]; [|apply Hk].
    eapply Cr; [exact H|done].
  - intros k a. simpl. destruct (exec r p c _) as [b|] eqn:E; [done|]. intros H.
    exists p, c. split; [|done]. split; [|done]. intros [[z cz] Hz].
    assert (is_Some (exec r p c (fun _ c' => Some c'))) as [b Hb]; [|by rewrite E in Hb].
    eapply Cr; [exact Hz|done].
  - intros q d k [H ?] Hk. simplify_eq/=.
    destruct (exec r p c (fun _ c' => Some c')) as [b|] eqn:E; [|apply Hk].
    apply Sr in E as (z & cz & Hz & _). destruct H. by exists (z, cz).
Qed.

Lemma exec_sound r : sound r.
Proof. apply exec_sound_complete. Qed.

Lemma exec_complete r : complete r.
Proof. apply exec_sound_complete. Qed.

(** ** Searching *)

(** [p] is a position of the string that starts after [pr]. *)
Definition pos_of (pr : option ascii) (s : string) (p : pos) : Prop :=
  exists u, consumes (Pos pr s) u p.

Lemma exec_at_sound r p m :
  exec_at r p = Some m -> m_start m = p /\ den r (p, []) (m_end m, m_caps m).
Proof. intros H%exec_sound. destruct H as (q & d & H & [= <-]). done. Qed.

Lemma scan_sound r pr s m :
  scan r pr s = Some m ->
  pos_of pr s (m_start m) /\ den r (m_start m, []) (m_end m, m_caps m).
Proof.
  revert pr. induction s as [|a s IH]; intros pr; simpl;
    destruct (exec_at r _) as [m'|] eqn:E.
  - intros [= ->]. apply exec_at_sound in E as [-> H]. split; [|done]. by exists EmptyString.
  - done.
  - intros [= ->]. apply exec_at_sound in E as [-> H]. split; [|done]. by exists EmptyString.
  - intros [[u [H1 H2]] H]%IH. split; [|done]. exists (String a u).
    split; [by simpl in *; rewrite H1, append_cons|done].
Qed.

Lemma scan_complete r pr s p q d :
  pos_of pr s p -> den r (p, []) (q, d) -> is_Some (scan r pr s).
Proof.
  intros [u Hu] Hd. revert pr s Hu. induction u as [|a u IH]; intros pr s [H1 H2]; simpl in *.
  - assert (p = Pos pr s) as -> by (destruct p; simpl in *; by rewrite H1, H2).
    assert (is_Some (exec_at r (Pos pr s))) as [m Hm] by by eapply exec_complete.
    destruct s; simpl; by rewrite Hm.
  - rewrite append_cons in H1. subst s. simpl. destruct (exec_at r _); [done|].
    by apply IH.
Qed.

(** A search succeeds exactly when some position of the string matches. *)
Lemma search_found r s :
  found (search r s) = true <->
  exists p q d, pos_of None s p /\ den r (p, []) (q, d).
Proof.
  split.
  - destruct (search r s) as [m|] eqn:E; [|done]. intros _.
    apply scan_sound in E as [H1 H2]. eauto.
  - intros (p & q & d & Hp & Hd). unfold search.
    destruct (scan_complete _ _ _ _ _ _ Hp Hd) as [m ->]. done.
Qed.

Lemma pos_of_trans pr s p q : pos_of pr s p -> pos_of (prev p) (rest p) q -> pos_of pr s q.
Proof.
  intros [u Hu] [v Hv]. exists (u +:+ v). eapply consumes_trans; [exact Hu|].
  by destruct p.
Qed.

Lemma den_pos_of r x y : den r x y -> pos_of (prev x.1) (rest x.1) y.1.
Proof. intros [w Hw]%den_consumes. exists w. by destruct (x.1). Qed.

Lemma finditer_from_sound fuel r p m :
  m ∈ finditer_from fuel r p ->
  pos_of (prev p) (rest p) (m_start m) /\ den r (m_start m, []) (m_end m, m_caps m).
Proof.
  revert p. induction fuel as [|f IH]; intros p; simpl; [by intros ?%not_elem_of_nil|].
  destruct (scan r (prev p) (rest p)) as [m'|] eqn:E; [|by intros ?%not_elem_of_nil].
  apply scan_sound in E as [Hp Hd]. intros [->|Hm]%elem_of_cons; [done|].
  pose proof (pos_of_trans _ _ _ _ Hp (den_pos_of _ _ _ Hd)) as Hend. simpl in Hend.
  destruct (shorter _ _); [apply IH in Hm as [Hm ?]; split; [|done]; by eapply pos_of_trans|].
  destruct (rest (m_end m')) as [|a s] eqn:Er; [by apply not_elem_of_nil in Hm|].
  apply IH in Hm as [Hm ?]. split; [|done]. eapply pos_of_trans; [exact Hend|].
  destruct Hm as [u [H1 H2]]. exists (String a u). rewrite Er. by split; [simpl in *; rewrite H1|].
Qed.

Lemma finditer_sound r s m :
  m ∈ finditer r s ->
  pos_of None s (m_start m) /\ den r (m_start m, []) (m_end m, m_caps m).
Proof. apply finditer_from_sound. Qed.

(** ** Derived patterns *)

Lemma consumes_char p a q :
  consumes p (String a EmptyString) q <-> rest p = String a (rest q) /\ q = Pos (Some a) (rest q).
Proof.
  unfold consumes. rewrite append_cons, append_nil_l. destruct q as [pr s]. simpl.
  split; intros [H1 H2]; split; try done; [by rewrite H2|by injection H2].
Qed.

Lemma den_chr f x y :
  den (Chr f) x y <->
  exists a, f a = true /\ consumes x.1 (String a EmptyString) y.1 /\ y.2 = x.2.
Proof.
  simpl. split.
  - intros (a & s & H1 & H2 & ->). exists a. split_and!; [done| |done]. by split.
  - intros (a & H & [H1 H2]%consumes_char & H3). exists a, (rest y.1). split_and!; [done..|].
    destruct y as [q d]. simpl in *. by rewrite H2, H3.
Qed.

Lemma consumes_app_inv p w v q :
  consumes p (w +:+ v) q -> exists o, consumes p w o /\ consumes o v q.
Proof.
  intros [H1 H2]. exists (Pos (advance (prev p) w) (v +:+ rest q)).
  rewrite append_assoc in H1. rewrite advance_append in H2. done.
Qed.

Lemma consumes_nil p q : consumes p EmptyString q <-> q = p.
Proof.
  destruct p as [pr s], q as [pr' s']. unfold consumes. simpl. rewrite append_nil_l.
  split; [intros [-> ->]; done|intros; by simplify_eq].
Qed.

(** Two strings that agree character by character under a relation. *)
Fixpoint agree (e : ascii -> ascii -> bool) (w v : string) : bool :=
  match w, v with
  | EmptyString, EmptyString => true
  | String a w, String b v => e a b && agree e w v
  | _, _ => false
  end.

Fixpoint lit_by (e : ascii -> ascii -> bool) (s : string) : re :=
  match s with EmptyString => Eps | String c s => Seq (Chr (e c)) (lit_by e s) end.

Lemma lit_by_lit s : lit s = lit_by Ascii.eqb s.
Proof. induction s; simpl; congruence. Qed.

Lemma lit_by_liti s : liti s = lit_by eqi s.
Proof. induction s; simpl; congruence. Qed.

Lemma den_lit_by e w x y :
  den (lit_by e w) x y <-> exists v, agree e w v = true /\ consumes x.1 v y.1 /\ y.2 = x.2.
Proof.
  revert x. induction w as [|a w IH]; intros x.
  - simpl. split.
    + intros ->. exists EmptyString. split_and!; [done|apply consumes_refl|done].
    + intros ([|b v] & Hv & Hc & Hy); [|done]. apply consumes_nil in Hc.
      destruct x, y; simpl in *; by subst.
  - change (den (lit_by e (String a w)) x y) with (exists z, den (Chr (e a)) x z /\ den (lit_by e w) z y).
    split.
    + intros (z & (b & Hb & Hc & Hz)%den_chr & (v & Hv & Hc' & Hy)%IH).
      exists (String b v). split_and!; [simpl; by rewrite Hb, Hv| |congruence].
      exact (consumes_trans _ _ _ _ _ Hc Hc').
    + intros ([|b v] & Hv & Hc & Hy); [done|]. simpl in Hv. apply andb_true_iff in Hv as [Hb Hv].
      change (String b v) with (String b EmptyString +:+ v) in Hc.
      apply consumes_app_inv in Hc as (o & Ho & Hc). exists (o, x.2).
      rewrite den_chr, IH. split; [by exists b|by exists v].
Qed.

Lemma agree_eqb w v : agree Ascii.eqb w v = true <-> v = w.
Proof.
  revert v. induction w as [|a w IH]; intros [|b v]; simpl; try done.
  rewrite andb_true_iff, Ascii.eqb_eq, IH. naive_solver.
Qed.

Lemma agree_eqi w v : agree eqi w v = true <-> lower v = lower w.
Proof.
  revert v. induction w as [|a w IH]; intros [|b v]; simpl; try done.
  unfold eqi. rewrite andb_true_iff, Ascii.eqb_eq, IH. unfold lower. simpl.
  split; [by intros [-> ->]|by intros [= -> ->]].
Qed.

Lemma den_lit w x y : den (lit w) x y <-> consumes x.1 w y.1 /\ y.2 = x.2.
Proof.
  rewrite lit_by_lit, den_lit_by. setoid_rewrite agree_eqb. naive_solver.
Qed.

Lemma den_plus_chr f x y :
  den (Plus (Chr f)) x y <->
  exists w, nonempty w = true /\ sforall f w = true /\ consumes x.1 w y.1 /\ y.2 = x.2.
Proof.
  assert (Hstar : forall x y, den (Star (Chr f)) x y <->
    exists w, sforall f w = true /\ consumes x.1 w y.1 /\ y.2 = x.2).
  { clear x y. intros x y. split.
    - induction 1 as [x|x z y [(a & Ha & Hc & Hz)%den_chr _] _ (w & Hw & Hc' & Hy)].
      + exists EmptyString. split_and!; [done|apply consumes_refl|done].
      + exists (String a w). split_and!; [simpl; by rewrite Ha, Hw| |congruence].
        exact (consumes_trans _ _ _ _ _ Hc Hc').
    - intros (w & Hw & Hc & Hy). revert x Hc Hy.
      induction w as [|a w IH]; intros x Hc Hy.
      + apply consumes_nil in Hc. destruct x, y; simpl in *; subst. apply rtc_refl.
      + simpl in Hw. apply andb_true_iff in Hw as [Ha Hw].
        change (String a w) with (String a EmptyString +:+ w) in Hc.
        apply consumes_app_inv in Hc as (o & Ho & Hc).
        apply (rtc_l _ _ (o, x.2)); [|by apply IH].
        split; [apply den_chr; by exists a|].
        apply consumes_length in Ho. unfold shorter. apply Nat.ltb_lt. simpl in *. lia. }
  unfold Plus. change (den (Seq (Chr f) (Star (Chr f))) x y)
    with (exists z, den (Chr f) x z /\ den (Star (Chr f)) z y).
  setoid_rewrite Hstar. setoid_rewrite den_chr. split.
  - intros (z & (a & Ha & Hc & Hz) & w & Hw & Hc' & Hy). exists (String a w).
    split_and!; [done|simpl; by rewrite Ha, Hw| |congruence].
    exact (consumes_trans _ _ _ _ _ Hc Hc').
  - intros ([|a w] & Hn & Hw & Hc & Hy); [done|]. simpl in Hw. apply andb_true_iff in Hw as [Ha Hw].
    change (String a w) with (String a EmptyString +:+ w) in Hc.
    apply consumes_app_inv in Hc as (o & Ho & Hc). exists (o, x.2). split; [by exists a|by exists w].
Qed.

Lemma pos_of_rest s p : pos_of None s p -> exists u, s = u +:+ rest p.
Proof. intros [u [H _]]. by exists u. Qed.

Lemma pos_of_intro u s : pos_of None (u +:+ s) (Pos (advance None u) s).
Proof. by exists u. Qed.

(** A search for a literal is the substring test; under [re.I] it is the test
    on the lowered strings. *)
Lemma search_lit w s : found (search (lit w) s) = contains w s.
Proof.
  apply eq_bool_prop_intro. rewrite !Is_true_true, search_found, contains_spec. split.
  - intros (p & q & d & [u Hu]%pos_of_rest & [[Hc _] _]%den_lit).
    exists u, (rest q). simpl in Hc. by rewrite Hu, Hc.
  - intros (u & t & ->). exists (Pos (advance None u) (w +:+ t)).
    exists (Pos (advance (advance None u) w) t), []. split; [apply pos_of_intro|].
    rewrite den_lit. done.
Qed.

Lemma smap_append_inv f s u t :
  smap f s = u +:+ t -> exists u' t', s = u' +:+ t' /\ smap f u' = u /\ smap f t' = t.
Proof.
  revert s. induction u as [|a u IH]; intros s H.
  - by exists EmptyString, s.
  - destruct s as [|b s]; [done|]. rewrite append_cons in H. injection H as <- H.
    destruct (IH _ H) as (u' & t' & -> & <- & <-). by exists (String b u'), t'.
Qed.

Lemma search_liti w s : found (search (liti w) s) = contains (lower w) (lower s).
Proof.
  apply eq_bool_prop_intro. rewrite !Is_true_true, search_found, contains_spec.
  rewrite lit_by_liti. setoid_rewrite den_lit_by. setoid_rewrite agree_eqi. split.
  - intros (p & q & d & [u Hu]%pos_of_rest & v & Hv & [Hc _] & _).
    exists (lower u), (lower (rest q)). simpl in Hc. by rewrite Hu, Hc, !lower_append, Hv.
  - intros (u & t & H). unfold lower in H.
    apply smap_append_inv in H as (u' & t' & -> & <- & H').
    apply smap_append_inv in H' as (w' & t'' & -> & Hw & <-).
    exists (Pos (advance None u') (w' +:+ t'')).
    exists (Pos (advance (advance None u') w') t''), []. split; [apply pos_of_intro|].
    by exists w'.
Qed.

Lemma search_alt r1 r2 s : found (search (Alt r1 r2) s) = found (search r1 s) || found (search r2 s).
Proof.
  apply eq_bool_prop_intro. rewrite !Is_true_true, orb_true_iff, !search_found. simpl.
  naive_solver.
Qed.

Lemma search_never s : found (search (NotLook Eps) s) = false.
Proof.
  apply not_true_iff_false. rewrite search_found. intros (p & q & d & _ & H). simpl in H.
  destruct H as [H _]. apply H. eauto.
Qed.

Lemma search_alts rs s : found (search (alts rs) s) = existsb (fun r => found (search r s)) rs.
Proof.
  induction rs as [|r [|r' rs] IH].
  - apply search_never.
  - simpl. by rewrite orb_false_r.
  - change (alts (r :: r' :: rs)) with (Alt r (alts (r' :: rs))).
    rewrite search_alt, IH. done.
Qed.

#[export] Hint Rewrite search_lit search_liti search_alt search_never search_alts : pystr.

(** [re.findall] of [key([class]+)]: what it returns follows the key in the
    string, is not empty and stays in the class. *)
Definition keyed (key : string) (f : ascii -> bool) : re :=
  Seq (lit key) (Group 1 (Plus (Chr f))).

Lemma group_keyed key f m p :
  den (keyed key f) (p, []) (m_end m, m_caps m) ->
  exists h, group 1 m = Some h /\ nonempty h = true /\ sforall f h = true /\
    consumes p (key +:+ h) (m_end m).
Proof.
  intros (z & [Hk Hz]%den_lit & w & Hw & Heq). simpl in Hz.
  apply den_plus_chr in Hw as (h & Hn & Hf & Hc & Hw). injection Heq as Hend Hcaps.
  exists h. unfold group. rewrite Hcaps. simpl. rewrite (consumes_between _ _ _ Hc).
  split_and!; [done..|]. rewrite Hend. eapply consumes_trans; [exact Hk|exact Hc].
Qed.

Lemma findall1_keyed key f s h :
  h ∈ findall1 (keyed key f) s ->
  nonempty h = true /\ sforall f h = true /\ exists u t, s = u +:+ key +:+ h +:+ t.
Proof.
  unfold findall1. rewrite list_elem_of_omap. intros (m & Hm & Hg).
  apply finditer_sound in Hm as [[u Hu]%pos_of_rest Hd].
  apply group_keyed in Hd as (h' & Hg' & Hn & Hf & [Hc _]). simplify_eq.
  split_and!; [done..|]. exists u, (rest (m_end m)). by rewrite Hc, append_assoc.
Qed.

Lemma fullmatch_found r s :
  found (fullmatch r s) = true <->
  exists q d, den r (Pos None s, []) (q, d) /\ rest q = EmptyString.
Proof.
  unfold fullmatch. split.
  - destruct (exec r _ _ _) as [m|] eqn:E; [|done]. intros _.
    apply exec_sound in E as (q & d & Hd & Hq). exists q, d. split; [done|].
    by destruct (rest q).
  - intros (q & d & Hd & Hq).
    edestruct (exec_complete r) as [m ->]; [exact Hd| |done].
    intros e. simpl. by rewrite Hq.
Qed.

Lemma re_match_found r s :
  found (re_match r s) = true <-> exists q d, den r (Pos None s, []) (q, d).
Proof.
  unfold re_match, exec_at. split.
  - destruct (exec r _ _ _) as [m|] eqn:E; [|done]. intros _.
    apply exec_sound in E as (q & d & Hd & Hq). by exists q, d.
  - intros (q & d & Hd). edestruct (exec_complete r) as [m ->]; [exact Hd| |done]. done.
Qed.

(** One character of a class, then the rest of a sequence. *)
Lemma den_chr_seq f r x y :
  den (Seq (Chr f) r) x y <->
  exists a s, rest x.1 = String a s /\ f a = true /\ den r (Pos (Some a) s, x.2) y.
Proof.
  simpl. split.
  - intros (z & (a & s & H1 & H2 & ->) & H3). eauto.
  - intros (a & s & H1 & H2 & H3). exists (Pos (Some a) s, x.2). eauto 10.
Qed.

(** ** Greedy runs

    What the matcher itself does, not only what it can match: a starred class
    takes the longest run of its characters when the rest of the match goes on
    from there. *)

Definition head_fails (f : ascii -> bool) (s : string) : bool :=
  match s with EmptyString => true | String a _ => negb (f a) end.

Lemma exec_lit w {A} pr s c (k : pos -> caps -> option A) :
  exec (lit w) (Pos pr (w +:+ s)) c k = k (Pos (advance pr w) s) c.
Proof.
  revert pr. induction w as [|a w IH]; intros pr; [done|].
  rewrite append_cons. simpl. rewrite Ascii.eqb_refl. apply IH.
Qed.

Lemma star_loop_run f h s {A} pr c (k : pos -> caps -> option A) x n :
  sforall f h = true -> head_fails f s = true -> k (Pos (advance pr h) s) c = Some x ->
  String.length h <= n -> star_loop (Chr f) k n (Pos pr (h +:+ s)) c = Some x.
Proof.
  intros Hf Hs Hk. revert pr n Hf Hk. induction h as [|a h IH]; intros pr n Hf Hk Hn.
  - destruct n as [|n]; [exact Hk|]. simpl. destruct s as [|b s]; [exact Hk|]. simpl in Hs.
    rewrite append_nil_l.
    apply negb_true_iff in Hs. by rewrite Hs.
  - destruct n as [|n]; [simpl in Hn; lia|]. rewrite append_cons. simpl in Hf, Hn |- *.
    apply andb_true_iff in Hf as [Ha Hf]. rewrite Ha. unfold shorter. simpl.
    rewrite (proj2 (Nat.ltb_lt _ _)) by lia. fold (star_loop (Chr f) k).
    by rewrite (IH (Some a) n Hf Hk ltac:(lia)).
Qed.

Lemma exec_plus_run f h s {A} pr c (k : pos -> caps -> option A) x :
  nonempty h = true -> sforall f h = true -> head_fails f s = true ->
  k (Pos (advance pr h) s) c = Some x -> exec (Plus (Chr f)) (Pos pr (h +:+ s)) c k = Some x.
Proof.
  destruct h as [|a h]; [done|]. intros _ Hf Hs Hk. rewrite append_cons. simpl in Hf.
  apply andb_true_iff in Hf as [Ha Hf]. cbn [exec Plus rest]. rewrite Ha.
  change (star_loop (Chr f) k (String.length (h +:+ s)) (Pos (Some a) (h +:+ s)) c = Some x).
  apply star_loop_run; try done. rewrite length_append. lia.
Qed.

(** A key at the head of the string captures the run of the class after it. *)
Lemma search_keyed_here key f h s :
  nonempty h = true -> sforall f h = true -> head_fails f s = true ->
  exists m, search (keyed key f) (key +:+ h +:+ s) = Some m /\ group 1 m = Some h.
Proof.
  intros Hn Hf Hs. set (p := Pos None (key +:+ h +:+ s)).
  set (q := Pos (advance (advance None key) h) s).
  exists (Match p q [(1, h)]). split; [|done].
  assert (He : exec_at (keyed key f) p = Some (Match p q [(1, h)])).
  { unfold exec_at, keyed, p. cbn [exec]. rewrite exec_lit. apply exec_plus_run; try done.
    do 4 f_equal. by apply consumes_between. }
  unfold search. fold p in He. subst p. destruct (key +:+ h +:+ s); simpl; by rewrite He.
Qed.

Lemma exec_lit_fail w {A} pr s c (k : pos -> caps -> option A) :
  startswith w s = false -> exec (lit w) (Pos pr s) c k = None.
Proof.
  revert pr s. induction w as [|a w IH]; intros pr s; [done|]. cbn [startswith lit exec rest].
  destruct s as [|b s]; [done|]. destruct (Ascii.eqb a b); [|done]. by apply IH.
Qed.

(** The word of an alternative that is there, when the other words are not. *)
Lemma exec_alts_lit l w s {A} pr c (k : pos -> caps -> option A) x :
  w ∈ l -> (forall v, v ∈ l -> v <> w -> startswith v (w +:+ s) = false) ->
  k (Pos (advance pr w) s) c = Some x -> exec (alts (lit <$> l)) (Pos pr (w +:+ s)) c k = Some x.
Proof.
  intros Hw Hl Hk. induction l as [|v l IH]; [by apply not_elem_of_nil in Hw|].
  assert (Hv : w = v \/ exec (lit v) (Pos pr (w +:+ s)) c k = None).
  { destruct (decide (w = v)) as [|Hne]; [by left|right]. apply exec_lit_fail, Hl; [by left|done]. }
  assert (Hrest : w = v \/ exec (alts (lit <$> l)) (Pos pr (w +:+ s)) c k = Some x).
  { destruct (decide (w = v)) as [|Hne]; [by left|right]. apply elem_of_cons in Hw as [|Hw]; [done|].
    apply IH; [done|]. intros u Hu. apply Hl. by right. }
  destruct l as [|u l].
  - apply list_elem_of_singleton in Hw as ->. cbn [fmap list_fmap alts]. by rewrite exec_lit.
  - cbn [fmap list_fmap alts]. change (match exec (lit v) (Pos pr (w +:+ s)) c k with
      | Some y => Some y | None => exec (alts (lit <$> (u :: l))) (Pos pr (w +:+ s)) c k end = Some x).
    destruct Hv as [->|Hv]; [by rewrite exec_lit, Hk|]. rewrite Hv. destruct Hrest as [->|Hrest]; [|done].
    by rewrite exec_lit, Hk in Hv.
Qed.

(** ** No match is missed

    [finditer] finds every place where the pattern matches, except inside a match it returns. *)

(** [p] lies at or after [p0] in one string. *)
Lemma pos_of_refl p : pos_of (prev p) (rest p) p.
Proof. exists EmptyString. destruct p. apply consumes_refl. Qed.

Lemma scan_exec r pr s m : scan r pr s = Some m -> exec_at r (m_start m) = Some m.
Proof.
  revert pr. induction s as [|a s IH]; intros pr; cbn [scan];
    destruct (exec_at r (Pos pr _)) as [m'|] eqn:E; try done.
  - intros [= ->]. by destruct (exec_at_sound _ _ _ E) as [-> _].
  - intros [= ->]. by destruct (exec_at_sound _ _ _ E) as [-> _].
  - apply IH.
Qed.

Lemma finditer_exec fuel r p m : m ∈ finditer_from fuel r p -> exec_at r (m_start m) = Some m.
Proof.
  revert p. induction fuel as [|f IH]; intros p; cbn [finditer_from]; [by intros ?%not_elem_of_nil|].
  destruct (scan _ _ _) as [m'|] eqn:E; [|by intros ?%not_elem_of_nil].
  intros [->|Hm]%elem_of_cons; [by eapply scan_exec|].
  destruct (shorter _ _); [by eapply IH|]. destruct (rest (m_end m')); [by apply not_elem_of_nil in Hm|by eapply IH].
Qed.

(** The match that [scan] returns starts no later than any other. *)
Lemma scan_leftmost r pr s p q d :
  pos_of pr s p -> den r (p, []) (q, d) ->
  exists m, scan r pr s = Some m /\ pos_of (prev (m_start m)) (rest (m_start m)) p.
Proof.
  intros [u Hu] Hd. revert pr s Hu. induction u as [|a u IH]; intros pr s [H1 H2].
  - cbn [advance prev rest] in *. rewrite append_nil_l in H1.
    assert (p = Pos pr s) as -> by (destruct p; simpl in *; by subst).
    assert (is_Some (exec_at r (Pos pr s))) as [m Hm] by by eapply exec_complete.
    exists m. split; [destruct s; cbn [scan]; by rewrite Hm|].
    destruct (exec_at_sound _ _ _ Hm) as [-> _]. apply pos_of_refl.
  - cbn [advance prev rest] in *. rewrite append_cons in H1. subst s. cbn [scan].
    destruct (exec_at r _) as [m|] eqn:E; [|by apply IH].
    exists m. split; [done|]. destruct (exec_at_sound _ _ _ E) as [-> _].
    exists (String a u). split; [by rewrite append_cons|done].
Qed.

Lemma append_prefix u v s t :
  u +:+ s = v +:+ t -> String.length v <= String.length u -> exists w, u = v +:+ w.
Proof.
  revert v. induction u as [|a u IH]; intros [|b v]; try (by intros; eexists; rewrite append_nil_l).
  - cbn [String.length]. lia.
  - rewrite !append_cons. intros [= -> H] Hl. cbn [String.length] in Hl.
    destruct (IH v H ltac:(lia)) as [w ->]. exists w. by rewrite append_cons.
Qed.

(** [p] is reached from [q] or lies strictly before it. *)
Lemma pos_of_cmp pr s p q :
  pos_of pr s p -> pos_of pr s q -> pos_of (prev q) (rest q) p \/ shorter q p = true.
Proof.
  intros [u [H1 H2]] [v [H3 H4]]. cbn [prev rest] in *. unfold shorter. subst s.
  destruct (decide (String.length (rest q) < String.length (rest p))) as [|Hlt]; [right; by apply Nat.ltb_lt|left].
  assert (Hl : String.length v <= String.length u).
  { pose proof (f_equal String.length H3) as He. rewrite !length_append in He. lia. }
  assert (exists w, u = v +:+ w) as [w ->].
  { by eapply append_prefix. }
  exists w. split; cbn [prev rest].
  - rewrite append_assoc in H3. by apply append_inj_l in H3.
  - by rewrite H2, H4, advance_append.
Qed.

Lemma finditer_complete_from fuel r p0 p q d :
  String.length (rest p0) < fuel -> pos_of (prev p0) (rest p0) p -> den r (p, []) (q, d) ->
  exists m, m ∈ finditer_from fuel r p0 /\ pos_of (prev (m_start m)) (rest (m_start m)) p /\
    (p = m_start m \/ shorter (m_end m) p = true).
Proof.
  revert p0. induction fuel as [|f IH]; intros p0 Hf Hp Hd; [lia|]. cbn [finditer_from].
  destruct (scan_leftmost _ _ _ _ _ _ Hp Hd) as (m & Hm & Hs). rewrite Hm.
  destruct (scan_sound _ _ _ _ Hm) as [[u0 Hu0] Hden].
  pose proof (consumes_length _ _ _ Hu0) as Hl0. cbn [rest] in Hl0.
  destruct (den_consumes _ _ _ Hden) as [w Hw]. cbn [fst] in Hw.
  pose proof (consumes_length _ _ _ Hw) as Hl.
  destruct Hs as [v Hv]. destruct (String.length v) as [|n] eqn:Ev.
  { destruct v; [|done]. exists m. split_and!; [by left|by exists EmptyString|left].
    apply consumes_nil in Hv. by destruct (m_start m). }
  assert (Hmp : pos_of (prev (m_start m)) (rest (m_start m)) p) by (by exists v).
  assert (Hme : pos_of (prev (m_start m)) (rest (m_start m)) (m_end m)) by (exists w; by destruct (m_start m)).
  destruct (pos_of_cmp _ _ _ _ Hmp Hme) as [Hq|Hq].
  2:{ exists m. split_and!; [by left|done|by right]. }
  destruct (shorter (m_end m) (m_start m)) eqn:Esh.
  - apply Nat.ltb_lt in Esh. destruct (IH (m_end m)) as (m' & Hm' & H'); [lia|done..|].
    exists m'. split; [by right|done].
  - (* an empty match: the search goes on one character further *)
    assert (Hw0 : w = EmptyString) by (destruct w; [done|]; apply Nat.ltb_ge in Esh; cbn [String.length] in Hl; lia).
    subst w. apply consumes_nil in Hw. destruct v as [|a v]; [done|].
    rewrite Hw in *. destruct Hv as [Hv1 Hv2]. cbn [prev rest advance] in Hv1, Hv2. rewrite append_cons in Hv1.
    rewrite Hv1. destruct (IH (Pos (Some a) (v +:+ rest p))) as (m' & Hm' & H').
    + cbn [rest]. rewrite Hv1 in Hl0. cbn [String.length] in Hl0. lia.
    + by exists v.
    + done.
    + exists m'. split; [by right|done].
Qed.

Lemma finditer_complete r s p q d :
  pos_of None s p -> den r (p, []) (q, d) ->
  exists m, m ∈ finditer r s /\ pos_of (prev (m_start m)) (rest (m_start m)) p /\
    (p = m_start m \/ shorter (m_end m) p = true).
Proof. intros. by apply (finditer_complete_from _ _ (Pos None s) p q d); [cbn [rest]; lia|..]. Qed.

(** ** Languages of expressions

    What an expression without assertions and groups consumes, as a predicate on the text: [lang r P] says that a
    match of [r] between two positions is a text in [P] between them. The lemmas compute [P] from the expression, so
    that a question about a pattern becomes one about strings. *)

#[local] Open Scope string_scope.

Definition lang (r : re) (P : string -> Prop) : Prop :=
  forall x y, den r x y <-> exists w, P w /\ consumes x.1 w y.1 /\ y.2 = x.2.

Lemma lang_iff r P Q : lang r P -> (forall w, P w <-> Q w) -> lang r Q.
Proof. intros H E x y. rewrite (H x y). by setoid_rewrite E. Qed.

Lemma lang_eps : lang Eps (fun w => w = EmptyString).
Proof.
  intros x y. cbn [den]. split.
  - intros ->. exists EmptyString. split; [done|]. split; [apply consumes_refl|done].
  - intros (w & -> & Hc%consumes_nil & Hy). destruct x, y; simpl in *; congruence.
Qed.

Lemma lang_chr f : lang (Chr f) (fun w => exists a, w = String a EmptyString /\ f a = true).
Proof. intros x y. rewrite den_chr. naive_solver. Qed.

Lemma lang_seq r1 r2 P Q : lang r1 P -> lang r2 Q -> lang (Seq r1 r2) (fun w => exists u v, w = u +:+ v /\ P u /\ Q v).
Proof.
  intros H1 H2 x y. cbn [den]. setoid_rewrite (H1 _ _). setoid_rewrite (H2 _ _). split.
  - intros (z & (u & Hu & Hc & Hz) & v & Hv & Hd & Hy). exists (u +:+ v). split; [by exists u, v|].
    split; [by eapply consumes_trans|congruence].
  - intros (w & (u & v & -> & Hu & Hv) & Hc & Hy). apply consumes_app_inv in Hc as (o & Ho & Hc).
    exists (o, x.2). split; [by exists u|by exists v].
Qed.

Lemma lang_alt r1 r2 P Q : lang r1 P -> lang r2 Q -> lang (Alt r1 r2) (fun w => P w \/ Q w).
Proof. intros H1 H2 x y. cbn [den]. rewrite (H1 x y), (H2 x y). naive_solver. Qed.

Lemma lang_opt r P : lang r P -> lang (Opt r) (fun w => P w \/ w = EmptyString).
Proof. intros H. apply lang_alt; [done|apply lang_eps]. Qed.

Definition sconcat (l : list string) : string := foldr String.append EmptyString l.

(** A starred expression that cannot match the empty text. *)
Lemma lang_star r P : lang r P -> (forall w, P w -> nonempty w = true) ->
  lang (Star r) (fun w => exists l, w = sconcat l /\ Forall P l).
Proof.
  intros H Hne x y. cbn [den]. split.
  - induction 1 as [x|x z y [(u & Hu & Hc & Hz)%H _] _ (w & (l & -> & Hl) & Hc' & Hy)].
    + exists EmptyString. split; [exists []; by split|]. split; [apply consumes_refl|done].
    + exists (u +:+ sconcat l). split; [exists (u :: l); split; [done|by constructor]|].
      split; [by eapply consumes_trans|congruence].
  - intros (w & (l & -> & Hl) & Hc & Hy). revert x Hc Hy. induction Hl as [|u l Hu Hl IH]; intros x Hc Hy.
    + apply consumes_nil in Hc. destruct x, y; simpl in *; subst. apply rtc_refl.
    + change (sconcat (u :: l)) with (u +:+ sconcat l) in Hc. apply consumes_app_inv in Hc as (o & Ho & Hc).
      apply (rtc_l _ _ (o, x.2)); [|by apply IH]. split; [apply H; by exists u|].
      apply consumes_length in Ho. pose proof (Hne u Hu). destruct u; [done|]. unfold shorter. apply Nat.ltb_lt.
      simpl in *. lia.
Qed.

Lemma lang_plus r P : lang r P -> (forall w, P w -> nonempty w = true) ->
  lang (Plus r) (fun w => exists l, l <> [] /\ w = sconcat l /\ Forall P l).
Proof.
  intros H Hne. eapply lang_iff; [apply lang_seq; [exact H|by apply lang_star]|]. intros w. split.
  - intros (u & v & -> & Hu & l & -> & Hl). exists (u :: l). split; [done|]. split; [done|by constructor].
  - intros ([|u l] & Hn & -> & Hl); [done|]. apply Forall_cons in Hl as [Hu Hl]. exists u, (sconcat l).
    split; [done|]. split; [done|by exists l].
Qed.

Lemma lang_rep n f : lang (Rep n (Chr f)) (fun w => String.length w = n /\ sforall f w = true).
Proof.
  induction n as [|n IH]; cbn [Rep].
  - eapply lang_iff; [apply lang_eps|]. intros w. split; [by intros ->|]. by intros [? _]; destruct w.
  - eapply lang_iff; [apply lang_seq; [apply lang_chr|exact IH]|]. intros w. split.
    + intros (u & v & -> & (a & -> & Ha) & Hn & Hv). rewrite append_cons, append_nil_l. cbn. by rewrite Hn, Ha.
    + destruct w as [|a w]; cbn; [by intros [? _]|]. intros [[= Hn] [Ha Hw]%andb_prop].
      exists (String a EmptyString), w. split; [done|]. split; [by exists a|done].
Qed.

Lemma lang_upto k f :
  lang (Nat.iter k (fun t => Opt (Seq (Chr f) t)) Eps) (fun w => String.length w <= k /\ sforall f w = true).
Proof.
  induction k as [|k IH]; cbn [Nat.iter nat_rect].
  - eapply lang_iff; [apply lang_eps|]. intros w. split; [by intros ->|]. intros [? _]. destruct w; [done|]. cbn in *. lia.
  - eapply lang_iff; [apply lang_opt, lang_seq; [apply lang_chr|exact IH]|]. intros w. split.
    + intros [(u & v & -> & (a & -> & Ha) & Hn & Hv)| ->]; [|cbn; split; [lia|done]].
      rewrite append_cons, append_nil_l. cbn. rewrite Ha. split; [lia|done].
    + destruct w as [|a w]; cbn; [by right|]. intros [Hn [Ha Hw]%andb_prop]. left.
      exists (String a EmptyString), w. split; [done|]. split; [by exists a|]. split; [lia|done].
Qed.

Lemma stake_drop n s : s = stake n s +:+ sdrop n s.
Proof. revert n. induction s as [|c s IH]; intros [|n]; try done. cbn [stake sdrop]. by rewrite append_cons, <- IH. Qed.

Lemma length_stake n s : n <= String.length s -> String.length (stake n s) = n.
Proof. revert n. induction s as [|c s IH]; intros [|n] Hn; cbn in *; try lia. f_equal. apply IH. lia. Qed.

Lemma lang_range lo hi f : lo <= hi ->
  lang (RepRange lo hi (Chr f)) (fun w => lo <= String.length w <= hi /\ sforall f w = true).
Proof.
  intros Hlo. eapply lang_iff; [apply lang_seq; [apply lang_rep|apply lang_upto]|]. intros w. split.
  - intros (u & v & -> & [Hu Fu] & Hv & Fv). rewrite length_append, sforall_append, Fu, Fv. split; [lia|done].
  - intros [Hn Hw]. exists (stake lo w), (sdrop lo w). split; [apply stake_drop|].
    assert (String.length (stake lo w) = lo) as Hs by (apply length_stake; lia).
    rewrite (stake_drop lo w), sforall_append in Hw. apply andb_prop in Hw as [-> ->]. split; [done|]. split; [|done].
    assert (String.length w = String.length (stake lo w) + String.length (sdrop lo w))
      by (rewrite <- length_append, <- stake_drop; done). lia.
Qed.

(** [re.match] of a pattern that ends in [$]: the text, or the text and a line break. *)
Lemma match_to_end r P s : lang r P ->
  found (re_match (Seq r Eol) s) = true <-> exists w, P w /\ (s = w \/ s = w +:+ String "010" EmptyString).
Proof.
  intros H. rewrite re_match_found. cbn [den]. setoid_rewrite (H _ _). split.
  - intros (q & d & z & (w & Hw & [Hr _] & _) & He & _). exists w. split; [done|]. simpl in Hr. rewrite Hr.
    destruct z as [[pr u] c]; cbn in *. unfold at_end in He. cbn [rest] in He.
    destruct u as [|a [|b u]]; [left; apply append_nil_r| |].
    + right. apply andb_prop in He as [He _]. by apply Ascii.eqb_eq in He as ->.
    + apply andb_prop in He as [_ He]. done.
  - intros (w & Hw & Hs).
    assert (exists t, s = w +:+ t /\ at_end (Pos (advance None w) t) = true) as (t & -> & Ht).
    { destruct Hs as [-> | ->]; [exists EmptyString; by rewrite append_nil_r|by exists (String "010" EmptyString)]. }
    exists (Pos (advance None w) t), [], (Pos (advance None w) t, []). split; [|done].
    exists w. split; [done|]. split; [|done]. by split.
Qed.
