(* ===== verification/PyDict.v ===== *)
(** * Python dictionaries

  A [dict] is an association list in insertion order with distinct keys:
  assignment to a present key keeps its place, a new key goes to the end,
  deletion closes the gap. Iteration order is observable in the source
  (reservoir sampling, heap rebuild, row export), so a finite map would not
  be enough. [wf] is distinctness of the keys; every operation keeps it. *)

From stdpp Require Import base list strings option gmap.
From Stdlib Require Import Lia.
From S2P Require Import Prelude.

Section Dict.
Context {K V : Type} `{EqDecision K}.
Implicit Types (d : list (K * V)) (k : K) (v : V).

Fixpoint dget k d : option V :=
  match d with
  | [] => None
  | (k', v) :: d => if decide (k = k') then Some v else dget k d
  end.

Fixpoint dset k v d : list (K * V) :=
  match d with
  | [] => [(k, v)]
  | (k', v') :: d => if decide (k = k') then (k', v) :: d else (k', v') :: dset k v d
  end.

Fixpoint ddel k d : list (K * V) :=
  match d with
  | [] => []
  | (k', v') :: d => if decide (k = k') then d else (k', v') :: ddel k d
  end.

Definition keys d : list K := d.*1.
Definition values d : list V := d.*2.
Definition dget_default k (v : V) d : V := default v (dget k d).
(** [d.setdefault(k, v)] leaves [d] with [k] present. *)
Definition setdefault k v d : list (K * V) :=
  match dget k d with Some _ => d | None => dset k v d end.
(** [dict(pairs)]: later pairs overwrite earlier ones. *)
Definition dict_of (l : list (K * V)) : list (K * V) :=
  fold_left (fun d kv => dset kv.1 kv.2 d) l [].

Definition wf d : Prop := NoDup (keys d).

Lemma dget_None k d : dget k d = None <-> k ∉ keys d.
Proof.
  induction d as [|[k' v'] d IH]; simpl; [set_solver|].
  case_decide; simplify_eq; [set_solver|]. rewrite IH. set_solver.
Qed.

Lemma dget_Some_key k v d : dget k d = Some v -> k ∈ keys d.
Proof.
  intros H. destruct (decide (k ∈ keys d)) as [|Hn]; [done|].
  apply dget_None in Hn. congruence.
Qed.

Lemma dget_elem k v d : dget k d = Some v -> (k, v) ∈ d.
Proof.
  induction d as [|[k' v'] d IH]; [done|]. cbn [dget]. case_decide as E; [|intros H; right; by apply IH].
  intros [= ->]. subst. left.
Qed.

Lemma elem_of_keys k d : k ∈ keys d <-> is_Some (dget k d).
Proof.
  rewrite <- not_eq_None_Some, dget_None.
  destruct (decide (k ∈ keys d)); naive_solver.
Qed.

Lemma dget_set_eq k v d : dget k (dset k v d) = Some v.
Proof.
  induction d as [|[k' v'] d IH]; simpl; [by rewrite decide_True|].
  destruct (decide (k = k')) as [->|Hne]; simpl; [by rewrite decide_True|].
  by rewrite decide_False.
Qed.

Lemma dget_set_ne k k' v d : k <> k' -> dget k' (dset k v d) = dget k' d.
Proof.
  intros Hne. induction d as [|[k'' v''] d IH]; simpl; [by rewrite decide_False|].
  destruct (decide (k = k'')) as [->|]; simpl; [by rewrite !decide_False|]. by rewrite IH.
Qed.

Lemma dget_set k k' v d :
  dget k' (dset k v d) = if decide (k = k') then Some v else dget k' d.
Proof. case_decide; subst; [apply dget_set_eq|by apply dget_set_ne]. Qed.

Lemma dset_same k v d : dget k d = Some v -> dset k v d = d.
Proof.
  induction d as [|[k' v'] d IH]; simpl; [done|]. case_decide as Hk; intros Hv; simplify_eq; [done|].
  by rewrite IH.
Qed.

Lemma keys_set_in k v d : k ∈ keys d -> keys (dset k v d) = keys d.
Proof.
  induction d as [|[k' v'] d IH]; simpl; [set_solver|].
  case_decide; simpl; [done|]. intros Hk. f_equal. apply IH. set_solver.
Qed.

Lemma dset_new k v d : k ∉ keys d -> dset k v d = d ++ [(k, v)].
Proof.
  induction d as [|[k' v'] d IH]; simpl; [done|]. intros H.
  rewrite decide_False by set_solver. f_equal. apply IH. set_solver.
Qed.

Lemma keys_app d1 d2 : keys (d1 ++ d2) = keys d1 ++ keys d2.
Proof. apply fmap_app. Qed.

Lemma elem_of_keys_set k k' v d : k' ∈ keys (dset k v d) <-> k' = k \/ k' ∈ keys d.
Proof.
  destruct (decide (k ∈ keys d)) as [H|H].
  - rewrite keys_set_in by done. naive_solver.
  - rewrite dset_new, keys_app by done. simpl. set_solver.
Qed.

Lemma wf_nil : wf [].
Proof. constructor. Qed.

Lemma wf_set k v d : wf d -> wf (dset k v d).
Proof.
  unfold wf. destruct (decide (k ∈ keys d)) as [H|H].
  - by rewrite keys_set_in.
  - rewrite dset_new, keys_app by done. intros Hd. apply NoDup_app. simpl.
    split_and!; [done|set_solver|apply NoDup_singleton].
Qed.

Lemma keys_del_subseteq k k' d : k' ∈ keys (ddel k d) -> k' ∈ keys d.
Proof.
  induction d as [|[k'' v''] d IH]; simpl; [done|]. case_decide; simpl; set_solver.
Qed.

Lemma wf_del k d : wf d -> wf (ddel k d).
Proof.
  unfold wf. induction d as [|[k' v'] d IH]; simpl; [done|].
  intros [Hn Hd]%NoDup_cons. case_decide; [done|]. simpl. constructor; [|by apply IH].
  intros ?%keys_del_subseteq. done.
Qed.

Lemma dget_del_eq k d : wf d -> dget k (ddel k d) = None.
Proof.
  unfold wf. induction d as [|[k' v'] d IH]; simpl; [done|].
  intros [Hn Hd]%NoDup_cons. case_decide; simplify_eq; [by apply dget_None|].
  simpl. rewrite decide_False by done. by apply IH.
Qed.

Lemma dget_del_ne k k' d : k <> k' -> dget k' (ddel k d) = dget k' d.
Proof.
  intros Hne. induction d as [|[k'' v''] d IH]; simpl; [done|].
  case_decide; simplify_eq; [by rewrite decide_False|]. simpl. by case_decide.
Qed.

Lemma ddel_absent k d : k ∉ keys d -> ddel k d = d.
Proof.
  induction d as [|[k' v'] d IH]; simpl; [done|]. intros H.
  rewrite decide_False by set_solver. f_equal. apply IH. set_solver.
Qed.

Lemma elem_of_keys_del k k' d : wf d -> k' ∈ keys (ddel k d) <-> k' ∈ keys d /\ k' <> k.
Proof.
  intros Hd. rewrite !elem_of_keys. destruct (decide (k' = k)) as [->|Hne].
  - rewrite dget_del_eq by done. split; [by intros []|naive_solver].
  - rewrite dget_del_ne by done. naive_solver.
Qed.

Lemma length_del k d : wf d -> k ∈ keys d -> S (length (ddel k d)) = length d.
Proof.
  unfold wf. induction d as [|[k' v'] d IH]; simpl; [set_solver|].
  intros [Hn Hd]%NoDup_cons Hk. case_decide; [done|]. simpl. f_equal.
  apply IH; [done|]. set_solver.
Qed.

Lemma length_set_new k v d : k ∉ keys d -> length (dset k v d) = S (length d).
Proof. intros H. rewrite dset_new, length_app by done. simpl. lia. Qed.

Lemma elem_of_dict k v d : wf d -> (k, v) ∈ d <-> dget k d = Some v.
Proof.
  unfold wf. induction d as [|[k' v'] d IH]; simpl; [split; [by intros ?%not_elem_of_nil|done]|].
  intros [Hn Hd]%NoDup_cons. rewrite elem_of_cons, IH by done. case_decide; subst.
  - split; [|intros; left; congruence].
    intros [?|Hv]; [congruence|]. by apply dget_Some_key in Hv.
  - naive_solver.
Qed.

Lemma elem_of_values v d : wf d -> v ∈ values d <-> exists k, dget k d = Some v.
Proof.
  intros Hd. unfold values. rewrite list_elem_of_fmap. split.
  - intros ([k v'] & -> & H). exists k. by apply elem_of_dict.
  - intros [k Hk]. exists (k, v). split; [done|]. by apply elem_of_dict.
Qed.

Lemma dget_setdefault k k' v d :
  dget k' (setdefault k v d) =
    if decide (k = k') then Some (default v (dget k d)) else dget k' d.
Proof.
  unfold setdefault. destruct (dget k d) as [w|] eqn:E; simpl.
  - case_decide; by subst.
  - apply dget_set.
Qed.

Lemma wf_setdefault k v d : wf d -> wf (setdefault k v d).
Proof. unfold setdefault. destruct (dget k d); [done|]. apply wf_set. Qed.

Lemma wf_dict_of l : wf (dict_of l).
Proof.
  unfold dict_of. assert (H : wf ([] : list (K * V))) by constructor. revert H.
  generalize ([] : list (K * V)). induction l as [|[k v] l IH]; intros d Hd; simpl; [done|].
  apply IH, wf_set, Hd.
Qed.

(** Building a dictionary from pairs with distinct keys changes nothing. *)
Lemma fold_dset_app l d :
  NoDup (keys (d ++ l)) -> fold_left (fun d kv => dset kv.1 kv.2 d) l d = d ++ l.
Proof.
  revert d. induction l as [|[k v] l IH]; intros d H; simpl; [by rewrite app_nil_r|].
  rewrite dset_new.
  - rewrite IH; [by rewrite <- app_assoc|]. by rewrite <- app_assoc.
  - rewrite keys_app in H. apply NoDup_app in H as (_ & H & _). simpl in H.
    intros Hk. by apply (H k Hk), elem_of_cons; left.
Qed.

Lemma dict_of_id d : wf d -> dict_of d = d.
Proof. intros H. by apply (fold_dset_app d []). Qed.

(** Every key of the pairs is there, with one of its pairs. *)
Lemma dict_of_lookup k l : k ∈ l.*1 -> exists v, dget k (dict_of l) = Some v /\ (k, v) ∈ l.
Proof.
  unfold dict_of. intros Hk.
  assert (H : forall d, (k ∈ l.*1 \/ exists v, dget k d = Some v) ->
    exists v, dget k (fold_left (fun d kv => dset kv.1 kv.2 d) l d) = Some v /\
      ((k, v) ∈ l \/ dget k d = Some v)).
  { clear Hk. induction l as [|[k' v'] l IH]; intros d Hd; simpl.
    - destruct Hd as [Hd%not_elem_of_nil|(v & Hv)]; [done|]. exists v. split; [done|by right].
    - destruct (IH (dset k' v' d)) as (v & Hv & Hin).
      { destruct (decide (k = k')) as [->|Hne]; [right; exists v'; apply dget_set_eq|].
        destruct Hd as [[Hd|Hd]%elem_of_cons|(v & Hv)]; [done|by left|right; exists v].
        by rewrite dget_set_ne. }
      exists v. split; [done|]. destruct Hin as [Hin|Hin]; [left; by right|].
      rewrite dget_set in Hin. case_decide; [|by right]. simplify_eq. left. by left. }
  destruct (H [] (or_introl Hk)) as (v & Hv & [Hin|Hn]); [by exists v|done].
Qed.

Lemma foldl_dset_id d : wf d -> foldl (fun d kv => dset kv.1 kv.2 d) [] d = d.
Proof.
  intros H. rewrite <- (dict_of_id d H) at 2. unfold dict_of. generalize (@nil (K * V)) as acc.
  clear H. induction d as [|[k v] d IH]; intros acc; simpl; [done|apply IH].
Qed.
End Dict.

Create HintDb pydict.
#[export] Hint Resolve wf_nil wf_set wf_del wf_setdefault wf_dict_of : pydict.
#[export] Hint Rewrite @dget_set_eq @dget_set_ne using done : pydict.
