(* ===== verification/PyJson.v ===== *)
(** * JSON-safe Python values

    The values that [dict[str, Any]] rows hold in the program (decoded JSON or
    TOML): [None], booleans, integers, floats, strings, lists and dicts with
    string keys; Python's truth test, and the conversions [bool], [int],
    [float], [str], [list] and [dict] applied to them. *)

From stdpp Require Import base numbers list strings.
From Stdlib Require Import ZArith SpecFloat.
From S2P Require Import Prelude PyFloat PyStr PyDict.

#[local] Open Scope Z_scope.

Inductive json : Type :=
  | JNull
  | JBool (b : bool)
  | JInt (z : Z)
  | JFloat (f : float)
  | JStr (s : string)
  | JList (l : list json)
  | JDict (d : list (string * json)).

(** The outcome of Python code: a value, an exception, or [Beyond] when Python
    goes on with a value that the annotated type of the model cannot hold. *)
Inductive outcome (A : Type) : Type :=
  | Ret (a : A)
  | Raise
  | Beyond.
Arguments Ret {A} _.
Arguments Raise {A}.
Arguments Beyond {A}.

#[export] Instance outcome_ret : MRet outcome := fun _ x => Ret x.
#[export] Instance outcome_bind : MBind outcome := fun A B f x =>
  match x with Ret a => f a | Raise => Raise | Beyond => Beyond end.

(** [bool(v)] *)
Definition truthy (v : json) : bool :=
  match v with
  | JNull => false
  | JBool b => b
  | JInt z => negb (z =? 0)
  | JFloat f => negb (feq f (S754_zero false))
  | JStr s => nonempty s
  | JList l => match l with [] => false | _ => true end
  | JDict d => match d with [] => false | _ => true end
  end.

(** [d.get(k)] *)
Definition jget (k : string) (d : list (string * json)) : json := default JNull (dget k d).

(** [bool(d.get(k))] *)
Definition get_bool (k : string) (d : list (string * json)) : bool := truthy (jget k d).

(** [int(v or 0)] *)
Definition int_or_0 (v : json) : outcome Z :=
  if truthy v then
    match v with
    | JBool b => Ret (Z.b2z b)
    | JInt z => Ret z
    | JFloat f => match f_trunc f with Some z => Ret z | None => Raise end
    | JStr s => match py_int s with Some z => Ret z | None => Raise end
    | _ => Raise
    end
  else Ret 0.

(** [float(v or 0.0)]; the parsing of a string is not modelled. *)
Definition float_or_0 (v : json) : outcome float :=
  if truthy v then
    match v with
    | JBool b => Ret (f_of_Z (Z.b2z b))
    | JInt z => match f_of_Z z with S754_infinity _ => Raise | f => Ret f end
    | JFloat f => Ret f
    | JStr _ => Beyond
    | _ => Raise
    end
  else Ret (S754_zero false).

(** [str(v or '')]; the [repr] of numbers and containers is not modelled. *)
Definition str_or_empty (v : json) : outcome string :=
  if truthy v then match v with JStr s => Ret s | _ => Beyond end else Ret "".

Fixpoint chars (s : string) : list string :=
  match s with
  | EmptyString => []
  | String c s => String c EmptyString :: chars s
  end.

Fixpoint all_str (l : list json) : option (list string) :=
  match l with
  | [] => Some []
  | JStr s :: l => (cons s) <$> all_str l
  | _ :: _ => None
  end.

(** [list(v or [])], as a list of strings *)
Definition strs_or_empty (v : json) : outcome (list string) :=
  if truthy v then
    match v with
    | JStr s => Ret (chars s)
    | JList l => match all_str l with Some l => Ret l | None => Beyond end
    | JDict d => Ret (keys d)
    | _ => Raise
    end
  else Ret [].

(** [dict(v or {})]; the dict of a list of pairs is not modelled. *)
Definition dict_or_empty (v : json) : outcome (list (string * json)) :=
  if truthy v then match v with JDict d => Ret d | JList _ => Beyond | _ => Raise end else Ret [].

(** A field that is stored as it comes, annotated [int | None] or [bool | None]. *)
Definition opt_int (v : json) : outcome (option Z) :=
  match v with JNull => Ret None | JInt z => Ret (Some z) | _ => Beyond end.

Definition opt_bool (v : json) : outcome (option bool) :=
  match v with JNull => Ret None | JBool b => Ret (Some b) | _ => Beyond end.

(** Writing such fields. *)
Definition j_opt_int (o : option Z) : json := from_option JInt JNull o.
Definition j_opt_bool (o : option bool) : json := from_option JBool JNull o.
Definition j_strs (l : list string) : json := JList (JStr <$> l).

Lemma opt_int_roundtrip o : opt_int (j_opt_int o) = Ret o.
Proof. by destruct o. Qed.

Lemma opt_bool_roundtrip o : opt_bool (j_opt_bool o) = Ret o.
Proof. by destruct o. Qed.

Lemma all_str_fmap l : all_str (JStr <$> l) = Some l.
Proof. induction l as [|s l IH]; [done|]. rewrite fmap_cons. cbn [all_str]. by rewrite IH. Qed.

Lemma strs_roundtrip l : strs_or_empty (j_strs l) = Ret l.
Proof.
  pose proof (all_str_fmap l) as H. unfold strs_or_empty, j_strs.
  destruct l as [|s l]; [done|]. by rewrite H.
Qed.

Lemma dict_roundtrip d : dict_or_empty (JDict d) = Ret d.
Proof. by destruct d. Qed.

Lemma int_roundtrip z : int_or_0 (JInt z) = Ret z.
Proof. unfold int_or_0. simpl. by destruct (Z.eqb_spec z 0) as [->|]. Qed.

Lemma str_roundtrip s : str_or_empty (JStr s) = Ret s.
Proof. by destruct s. Qed.

#[export] Hint Rewrite opt_int_roundtrip opt_bool_roundtrip strs_roundtrip dict_roundtrip int_roundtrip
  str_roundtrip : pyjson.
