(* ===== verification/JsonParse.v ===== *)
(** * Parsing JSON: what [json.loads] does

    The decoder of Python's [json] module on texts of 8-bit characters: white space, the three
    literals, [NaN] and the infinities, strings with their escapes, integers, arrays and objects (of
    a repeated key the last value counts). [Raise] is [JSONDecodeError]; a number with a fraction or
    an exponent and an escape above [\u00ff] are [Beyond] the model. *)

From stdpp Require Import base numbers list strings.
From Stdlib Require Import ZArith Lia Ascii SpecFloat.
From S2P Require Import Prelude PyFloat PyStr PyDict PyJson.

#[local] Open Scope string_scope.

Definition json_ws (c : ascii) : bool := bool_decide (c ∈ ascii_of_N <$> [32; 9; 10; 13]%N).
Definition skip_ws (s : string) : string := lstrip_by json_ws s.
Definition dquote : ascii := ascii_of_N 34.

(** ** Strings *)

Definition simple_escape (c : ascii) : option ascii :=
  if Ascii.eqb c dquote || Ascii.eqb c "\" || Ascii.eqb c "/" then Some c
  else if Ascii.eqb c "b" then Some (ascii_of_N 8)
  else if Ascii.eqb c "f" then Some (ascii_of_N 12)
  else if Ascii.eqb c "n" then Some (ascii_of_N 10)
  else if Ascii.eqb c "r" then Some (ascii_of_N 13)
  else if Ascii.eqb c "t" then Some (ascii_of_N 9)
  else None.

Definition hex_val (c : ascii) : option N :=
  let n := N_of_ascii c in
  if is_digit c then Some (n - 48)%N
  else if ((97 <=? n) && (n <=? 102))%N then Some (n - 87)%N
  else if ((65 <=? n) && (n <=? 70))%N then Some (n - 55)%N else None.

Definition push (c : ascii) (r : outcome (string * string)) : outcome (string * string) :=
  '(w, rest) ← r; Ret (String c w, rest).

(** The text after the opening quote: the string and what follows the closing quote. *)
Fixpoint str_body (s : string) : outcome (string * string) :=
  match s with
  | EmptyString => Raise
  | String c s' =>
      if Ascii.eqb c dquote then Ret (EmptyString, s')
      else if Ascii.eqb c "\" then
        match s' with
        | EmptyString => Raise
        | String d s'' =>
            match simple_escape d with
            | Some e => push e (str_body s'')
            | None =>
                if negb (Ascii.eqb d "u") then Raise
                else match s'' with
                     | String h1 (String h2 (String h3 (String h4 t))) =>
                         match hex_val h1, hex_val h2, hex_val h3, hex_val h4 with
                         | Some a, Some b, Some x, Some y =>
                             let n := (((a * 16 + b) * 16 + x) * 16 + y)%N in
                             if (n <? 256)%N then push (ascii_of_N n) (str_body t) else Beyond
                         | _, _, _, _ => Raise
                         end
                     | _ => Raise
                     end
            end
        end
      else if (N_of_ascii c <? 32)%N then Raise
      else push c (str_body s')
  end.

(** ** Numbers *)

Fixpoint span (p : ascii -> bool) (s : string) : string * string :=
  match s with
  | EmptyString => (EmptyString, EmptyString)
  | String c s' => if p c then let '(w, rest) := span p s' in (String c w, rest) else (EmptyString, s)
  end.

(** A fraction or an exponent follows. *)
Definition float_tail (s : string) : bool :=
  match s with
  | String c s' =>
      if Ascii.eqb c "." then match s' with String d _ => is_digit d | EmptyString => false end
      else if Ascii.eqb c "e" || Ascii.eqb c "E" then
        match s' with
        | String d s'' =>
            is_digit d || ((Ascii.eqb d "+" || Ascii.eqb d "-") &&
                           match s'' with String e _ => is_digit e | EmptyString => false end)
        | EmptyString => false
        end
      else false
  | EmptyString => false
  end.

(** [0] or digits that do not begin with [0]. *)
Definition nat_body (s : string) : option (Z * string) :=
  match s with
  | String c s' =>
      if Ascii.eqb c "0" then Some (0%Z, s')
      else if is_digit c then let '(w, rest) := span is_digit s in Some (digits_val 0 w, rest)
      else None
  | EmptyString => None
  end.

Definition number (s : string) : outcome (json * string) :=
  let '(neg, body) := match s with String "-" s' => (true, s') | _ => (false, s) end in
  match nat_body body with
  | Some (z, rest) => if float_tail rest then Beyond else Ret (JInt (if neg then - z else z)%Z, rest)
  | None =>
      if startswith "NaN" s then Ret (JFloat S754_nan, sdrop 3 s)
      else if startswith "Infinity" s then Ret (JFloat (S754_infinity false), sdrop 8 s)
      else if startswith "-Infinity" s then Ret (JFloat (S754_infinity true), sdrop 9 s)
      else Raise
  end.

(** ** Values *)

(** The fuel bounds the depth and the length; the length of the text is enough. *)
Fixpoint value (fuel : nat) (s : string) : outcome (json * string) :=
  match fuel with
  | O => Beyond
  | S f =>
      match s with
      | EmptyString => Raise
      | String c s' =>
          if Ascii.eqb c dquote then '(w, rest) ← str_body s'; Ret (JStr w, rest)
          else if Ascii.eqb c "{" then
            let t := skip_ws s' in
            if startswith "}" t then Ret (JDict [], sdrop 1 t) else members f [] t
          else if Ascii.eqb c "[" then
            let t := skip_ws s' in
            if startswith "]" t then Ret (JList [], sdrop 1 t) else elements f [] t
          else if startswith "null" s then Ret (JNull, sdrop 4 s)
          else if startswith "true" s then Ret (JBool true, sdrop 4 s)
          else if startswith "false" s then Ret (JBool false, sdrop 5 s)
          else number s
      end
  end
with members (fuel : nat) (acc : list (string * json)) (s : string) : outcome (json * string) :=
  match fuel with
  | O => Beyond
  | S f =>
      match s with
      | String c s' =>
          if negb (Ascii.eqb c dquote) then Raise
          else
            '(key, t) ← str_body s';
            match skip_ws t with
            | String ":" t =>
                '(v, t) ← value f (skip_ws t);
                let acc := dset key v acc in
                match skip_ws t with
                | String "}" t => Ret (JDict acc, t)
                | String "," t => members f acc (skip_ws t)
                | _ => Raise
                end
            | _ => Raise
            end
      | EmptyString => Raise
      end
  end
with elements (fuel : nat) (acc : list json) (s : string) : outcome (json * string) :=
  match fuel with
  | O => Beyond
  | S f =>
      '(v, t) ← value f s;
      let acc := (acc ++ [v])%list in
      match skip_ws t with
      | String "]" t => Ret (JList acc, t)
      | String "," t => elements f acc (skip_ws t)
      | _ => Raise
      end
  end.

(** [json.loads(s)] *)
Definition json_loads (s : string) : outcome json :=
  '(v, t) ← value (S (2 * String.length s)) (skip_ws s);
  if nonempty (skip_ws t) then Raise else Ret v.

Definition q (s : string) : string := String dquote (s +:+ String dquote EmptyString).

Example loads_ex : json_loads (" {" +:+ q "a" +:+ ": [1, -20,0, null ], " +:+ q "b\n\u0041" +:+ ":{}} ") =
  Ret (JDict [("a", JList [JInt 1; JInt (-20); JInt 0; JNull]); (String "b" (String (ascii_of_N 10) "A"), JDict [])]).
Proof. reflexivity. Qed.
Example loads_ex2 : (json_loads "01", json_loads "{} x", json_loads "[1,]", json_loads "tru", json_loads "1.5")
  = (Raise, Raise, Raise, Raise, Beyond).
Proof. reflexivity. Qed.

(** ** Reading back what was written *)

(** A text of characters that need no escape. *)
Definition plain_char (c : ascii) : bool :=
  negb (Ascii.eqb c dquote || Ascii.eqb c "\") && (32 <=? N_of_ascii c)%N.

Lemma push_ret c w rest : push c (Ret (w, rest)) = Ret (String c w, rest).
Proof. reflexivity. Qed.

Lemma str_body_plain w rest :
  sforall plain_char w = true -> str_body (w +:+ String dquote rest) = Ret (w, rest).
Proof.
  induction w as [|c w IH]; [reflexivity|]. cbn [sforall]. intros [Hc Hw]%andb_true_iff.
  unfold plain_char in Hc. apply andb_true_iff in Hc as [[Hq Hb]%negb_true_iff%orb_false_iff Hn].
  rewrite append_cons. cbn [str_body]. rewrite Hq, Hb.
  assert ((N_of_ascii c <? 32)%N = false) as -> by (apply N.ltb_ge; by apply N.leb_le). by rewrite IH.
Qed.

Lemma span_run p w rest :
  sforall p w = true -> match rest with String c _ => p c = false | EmptyString => True end ->
  span p (w +:+ rest) = (w, rest).
Proof.
  intros Hw Hr. induction w as [|c w IH].
  - rewrite append_nil_l. destruct rest as [|c r]; [done|]. cbn [span]. by rewrite Hr.
  - cbn [sforall] in Hw. apply andb_true_iff in Hw as [Hc Hw]. rewrite append_cons. cbn [span].
    by rewrite Hc, IH.
Qed.

(** What may follow a value inside an object. *)
Definition delimited (rest : string) : Prop := exists t, rest = String "," t \/ rest = String "}" t.

Lemma number_nat z rest : (0 <= z)%Z -> delimited rest -> number (str_of_Z z +:+ rest) = Ret (JInt z, rest).
Proof.
  intros Hz Hrest. assert (Hft : float_tail rest = false) by (by destruct Hrest as [t [-> | ->]]).
  destruct (decide (z = 0)%Z) as [->|Hne].
  - change (str_of_Z 0) with "0". rewrite append_cons, append_nil_l. unfold number. cbn [nat_body].
    rewrite Ascii.eqb_refl. by rewrite Hft.
  - destruct (str_of_Z_nonneg z Hz) as [Hd Hv]. destruct (str_of_Z_head z) as (c & w & Hs & Hc); [lia|].
    pose proof Hd as [_ Hdig]%andb_true_iff. rewrite Hs in *. cbn [sforall] in Hdig.
    apply andb_true_iff in Hdig as [Hdc Hdw].
    assert (Hnb : nat_body (String c w +:+ rest) = Some (z, rest)).
    { rewrite append_cons. cbn [nat_body]. rewrite Hc, Hdc, <- append_cons, span_run, Hv; [done| |].
      - cbn [sforall]. by rewrite Hdc.
      - by destruct Hrest as [t [-> | ->]]. }
    unfold number. assert (Ascii.eqb c "-" = false) as Hm by (by destruct c as [[] [] [] [] [] [] [] []]).
    rewrite append_cons in *.
    assert ((match String c (w +:+ rest) with String "-" s' => (true, s') | _ => (false, String c (w +:+ rest)) end)
      = (false, String c (w +:+ rest))) as ->.
    { destruct c as [[] [] [] [] [] [] [] []]; done. }
    by rewrite Hnb, Hft.
Qed.

(** The first character of a value decides. *)
Lemma value_number f z rest : (0 <= z)%Z -> delimited rest ->
  value (S f) (str_of_Z z +:+ rest) = Ret (JInt z, rest).
Proof.
  intros Hz Hrest. rewrite <- (number_nat z rest Hz Hrest).
  destruct (str_of_Z_nonneg z Hz) as [Hd _]. apply andb_true_iff in Hd as [Hn Hd].
  destruct (str_of_Z z) as [|c w]; [done|]. cbn [sforall] in Hd. apply andb_true_iff in Hd as [Hd _].
  rewrite append_cons. destruct c as [[] [] [] [] [] [] [] []]; try done; reflexivity.
Qed.

Lemma value_string f w rest : value (S f) (String dquote (w +:+ String dquote rest)) =
  '(s, t) ← str_body (w +:+ String dquote rest); Ret (JStr s, t).
Proof. reflexivity. Qed.

(** The text [t] is read as the value [v], whatever ends it. *)
Record prints (t : string) (v : json) : Prop := Prints {
  reads_back : forall f rest, delimited rest -> value (S f) (t +:+ rest) = Ret (v, rest);
  no_blank : forall rest, skip_ws (t +:+ rest) = t +:+ rest
}.

Lemma prints_nat z : (0 <= z)%Z -> prints (str_of_Z z) (JInt z).
Proof.
  intros Hz. split; [intros; by apply value_number|]. intros rest.
  destruct (str_of_Z_nonneg z Hz) as [Hd _]. destruct (str_of_Z z) as [|c w]; [done|].
  apply andb_true_iff in Hd as [_ Hd]. cbn [sforall] in Hd. apply andb_true_iff in Hd as [Hd _].
  rewrite append_cons. unfold skip_ws. destruct c as [[] [] [] [] [] [] [] []]; try done.
Qed.

Lemma prints_bool (b : bool) : prints (if b then "true" else "false") (JBool b).
Proof. by destruct b. Qed.

(** A string whose body [t] the parser reads as [w]. *)
Lemma prints_string t w :
  (forall rest, str_body (t +:+ String dquote rest) = Ret (w, rest)) -> prints (q t) (JStr w).
Proof.
  intros H. split; [|reflexivity]. intros f rest _. unfold q. rewrite append_cons, append_assoc, append_cons, append_nil_l.
  rewrite value_string, H. reflexivity.
Qed.

(** A field: its key, the text of its value, and the value. *)
Definition field : Type := string * (string * json).
Definition field_text (x : field) : string := q x.1 +:+ ":" +:+ x.2.1.
Definition field_value (x : field) : string * json := (x.1, x.2.2).
Definition field_ok (x : field) : Prop := sforall plain_char x.1 = true /\ prints x.2.1 x.2.2.

Lemma member_step f acc key t v rest :
  sforall plain_char key = true -> prints t v -> delimited rest -> skip_ws rest = rest ->
  members (S (S f)) acc (q key +:+ ":" +:+ t +:+ rest) =
  match rest with
  | String "}" u => Ret (JDict (dset key v acc), u)
  | String "," u => members (S f) (dset key v acc) (skip_ws u)
  | _ => Raise
  end.
Proof.
  intros Hk [Hv Hb] Hrest Hws. unfold q. rewrite append_cons, append_assoc, append_cons, append_nil_l.
  remember (S f) as g. cbn [members]. rewrite Ascii.eqb_refl. cbn [negb].
  rewrite str_body_plain by done. cbn [mbind outcome_bind].
  change (skip_ws (":" +:+ t +:+ rest)) with (String ":" (t +:+ rest)). cbv iota beta.
  rewrite Hb. subst g. rewrite Hv by done. cbn [mbind outcome_bind]. by rewrite Hws.
Qed.

Lemma skip_ws_comma t : skip_ws (String "," t) = String "," t.
Proof. reflexivity. Qed.
Lemma skip_ws_brace t : skip_ws (String "}" t) = String "}" t.
Proof. reflexivity. Qed.

Lemma members_run fields acc f tail :
  fields <> [] -> Forall field_ok fields -> NoDup fields.*1 -> (forall x, x ∈ fields -> x.1 ∉ keys acc) ->
  (length fields < f)%nat ->
  members f acc (join "," (field_text <$> fields) +:+ String "}" tail) =
  Ret (JDict (acc ++ (field_value <$> fields)), tail).
Proof.
  intros Hne Hok. revert acc f Hne. induction Hok as [|x fields [Hk Hp] Hok IH]; intros acc f Hne Hnd Hacc Hf; [done|].
  destruct x as [key [t v]]. cbn [fst snd] in *. rewrite fmap_cons in Hnd. apply NoDup_cons in Hnd as [Hx Hnd].
  assert (Hkey : key ∉ keys acc) by (apply (Hacc (key, (t, v))); by left).
  destruct f as [|[|f]]; [cbn in Hf; lia..|]. destruct fields as [|y fields].
  - cbn [fmap list_fmap join]. unfold field_text. cbn [fst snd]. rewrite !append_assoc.
    rewrite (member_step _ _ _ _ v) by (try done; by exists tail; right).
    by rewrite dset_new.
  - change (join "," (field_text <$> (key, (t, v)) :: y :: fields))
      with (field_text (key, (t, v)) +:+ "," +:+ join "," (field_text <$> y :: fields)).
    unfold field_text at 1. cbn [fst snd]. rewrite !append_assoc.
    change ("," +:+ ?u) with (String "," u).
    rewrite (member_step _ _ _ _ v) by (try done; by eexists; left).
    set (l := y :: fields) in *.
    assert (Hblank : forall u, skip_ws (join "," (field_text <$> l) +:+ u) = join "," (field_text <$> l) +:+ u).
    { intros u. destruct fields; reflexivity. }
    rewrite Hblank, IH; [| |done| |cbn [length] in *; lia].
    + rewrite dset_new by done. rewrite <- app_assoc. reflexivity.
    + done.
    + intros z Hz Hin. rewrite dset_new, keys_app in Hin by done. apply elem_of_app in Hin as [Hin|Hin].
      * revert Hin. apply Hacc. by right.
      * apply list_elem_of_singleton in Hin. cbn [fst] in Hin. apply Hx. rewrite <- Hin. apply list_elem_of_fmap. by exists z.
Qed.

(** An object of such fields is read back. *)
Lemma loads_object fields :
  fields <> [] -> Forall field_ok fields -> NoDup fields.*1 ->
  json_loads ("{" +:+ join "," (field_text <$> fields) +:+ "}") = Ret (JDict (field_value <$> fields)).
Proof.
  intros Hne Hok Hnd. set (body := join "," (field_text <$> fields)).
  assert (Hlen : (length fields <= String.length body)%nat).
  { unfold body. clear. induction fields as [|x l IH]; [cbn; lia|]. destruct l as [|y l].
    - cbn [fmap list_fmap join length]. unfold field_text, q. rewrite append_cons. cbn [String.length]. lia.
    - change (join "," (field_text <$> x :: y :: l))
        with (field_text x +:+ "," +:+ join "," (field_text <$> y :: l)).
      rewrite !length_append. cbn [length String.length] in *. lia. }
  unfold json_loads. change (skip_ws ("{" +:+ body +:+ "}")) with (String "{" (body +:+ "}")).
  rewrite append_cons, append_nil_l. cbn [String.length]. rewrite length_append. cbn [String.length].
  remember (2 * S (String.length body + 1))%nat as n eqn:Hn.
  assert (Hblank : skip_ws (body +:+ "}") = body +:+ "}" /\ startswith "}" (body +:+ "}") = false).
  { unfold body. destruct fields as [|x [|y l]]; [done|split; reflexivity..]. }
  destruct Hblank as [Hb1 Hb2].
  change (value (S n) (String "{" (body +:+ "}"))) with
    (let t := skip_ws (body +:+ "}") in
     if startswith "}" t then Ret (JDict [], sdrop 1 t) else members n [] t).
  cbv zeta. rewrite Hb1, Hb2. unfold body. change "}" with (String "}" EmptyString) at 1.
  rewrite members_run; [reflexivity|done|done|done|by intros ? _ ?%not_elem_of_nil|lia].
Qed.
