(* ===== verification/FailPhase.v ===== *)
(** * Failure phases: [engine/fail_phase.py]

    The stable tokens of a probe's failure, the dynamic [http_<code>] members,
    the classification of an error text by the first matching pattern, and the
    infrastructure test that quarantine uses. A raised [ValueError] is [None]. *)

From stdpp Require Import base numbers list strings gmap.
From Stdlib Require Import ZArith Lia Ascii.
From S2P Require Import Prelude PyStr PyRe.

#[local] Open Scope Z_scope.

Inductive FailPhase : Type :=
  | UNKNOWN
  | OTHER
  | PASS
  | DNS_RESOLVE
  | DNS_TAMPERED
  | DNS_SINKHOLE
  | L4_SYN_DROP
  | L4_RST_AT_SYN
  | ICMP_BLOCK
  | IP_BLOCKED
  | TLS_RST_AT_SNI
  | TLS_SILENT_DROP_AFTER_SNI
  | TLS_FAKE_ALERT
  | TLS_HANDSHAKE_ERROR
  | CONNECT_TIMEOUT
  | CONNECT_REFUSED
  | DATA_STALL_TLS_CERT
  | DATA_STALL_FIRST_REQ
  | DATA_STALL_7K
  | DATA_STALL_16K
  | DATA_STALL_42K
  | DATA_STALL_64K_PLUS
  | DELAYED_RST
  | DELAYED_FIN
  | TLS_INJECTED_ALERT
  | ZERO_WINDOW_STALL
  | H2_RST_STREAM
  | BANDWIDTH_THROTTLED
  | QUIC_DROP
  | UDP_BLOCKED
  | HTTP_REDIRECT
  | HTTP_BLOCKED
  | HTTP (code : Z).

#[export] Instance FailPhase_eq_dec : EqDecision FailPhase.
Proof. solve_decision. Defined.

(** [.value]; a dynamic member's value is [http_<code>]. *)
Definition value (p : FailPhase) : string :=
  match p with
  | UNKNOWN => "unknown"
  | OTHER => "other"
  | PASS => "pass"
  | DNS_RESOLVE => "dns_resolve"
  | DNS_TAMPERED => "dns_tampered"
  | DNS_SINKHOLE => "dns_sinkhole"
  | L4_SYN_DROP => "l4_syn_drop"
  | L4_RST_AT_SYN => "l4_rst_at_syn"
  | ICMP_BLOCK => "icmp_block"
  | IP_BLOCKED => "ip_blocked"
  | TLS_RST_AT_SNI => "tls_rst_at_sni"
  | TLS_SILENT_DROP_AFTER_SNI => "tls_silent_drop_after_sni"
  | TLS_FAKE_ALERT => "tls_fake_alert"
  | TLS_HANDSHAKE_ERROR => "tls_handshake_error"
  | CONNECT_TIMEOUT => "connect_timeout"
  | CONNECT_REFUSED => "connect_refused"
  | DATA_STALL_TLS_CERT => "data_stall_tls_cert"
  | DATA_STALL_FIRST_REQ => "data_stall_first_req"
  | DATA_STALL_7K => "data_stall_7k"
  | DATA_STALL_16K => "data_stall_16k"
  | DATA_STALL_42K => "data_stall_42k"
  | DATA_STALL_64K_PLUS => "data_stall_64k_plus"
  | DELAYED_RST => "delayed_rst"
  | DELAYED_FIN => "delayed_fin"
  | TLS_INJECTED_ALERT => "tls_injected_alert"
  | ZERO_WINDOW_STALL => "zero_window_stall"
  | H2_RST_STREAM => "h2_rst_stream"
  | BANDWIDTH_THROTTLED => "bandwidth_throttled"
  | QUIC_DROP => "quic_drop"
  | UDP_BLOCKED => "udp_blocked"
  | HTTP_REDIRECT => "http_redirect"
  | HTTP_BLOCKED => "http_blocked"
  | HTTP code => "http_" +:+ str_of_Z code
  end.

(** The members the class body defines. *)
Definition static_members : list FailPhase :=
  [UNKNOWN; OTHER; PASS; DNS_RESOLVE; DNS_TAMPERED; DNS_SINKHOLE; L4_SYN_DROP; L4_RST_AT_SYN;
   ICMP_BLOCK; IP_BLOCKED; TLS_RST_AT_SNI; TLS_SILENT_DROP_AFTER_SNI; TLS_FAKE_ALERT;
   TLS_HANDSHAKE_ERROR; CONNECT_TIMEOUT; CONNECT_REFUSED; DATA_STALL_TLS_CERT;
   DATA_STALL_FIRST_REQ; DATA_STALL_7K; DATA_STALL_16K; DATA_STALL_42K; DATA_STALL_64K_PLUS;
   DELAYED_RST; DELAYED_FIN; TLS_INJECTED_ALERT; ZERO_WINDOW_STALL; H2_RST_STREAM;
   BANDWIDTH_THROTTLED; QUIC_DROP; UDP_BLOCKED; HTTP_REDIRECT; HTTP_BLOCKED].

Fixpoint find_value (v : string) (l : list FailPhase) : option FailPhase :=
  match l with
  | [] => None
  | p :: l => if String.eqb (value p) v then Some p else find_value v l
  end.

Definition is_3to5 (c : ascii) : bool :=
  let n := N_of_ascii c in (51 <=? n)%N && (n <=? 53)%N.
Definition http_re : re := seqs [lit "http_"; Chr is_3to5; digit; digit].

(** [_missing_]: a dynamic member for [http_3dd] to [http_5dd]. *)
Definition missing_ (v : string) : option FailPhase :=
  if found (fullmatch http_re v) then Some (HTTP (digits_val 0 (sdrop 5 v))) else None.

(** [FailPhase(v)]; [None] is the [ValueError] of an unknown value. *)
Definition of_value (v : string) : option FailPhase :=
  match find_value v static_members with
  | Some p => Some p
  | None => missing_ v
  end.

Definition http_phase (code : Z) : option FailPhase := of_value ("http_" +:+ str_of_Z code).

(** ** Error patterns *)

Definition any : re := Star dot.
Definition not_digit : re := Chr (fun c => negb (is_digit c)).

Definition _PHASE_PATTERNS : list (FailPhase * re) :=
  [ (ZERO_WINDOW_STALL, alts [liti "zero window"; liti "window=0"; liti "rwnd"]);
    (H2_RST_STREAM, alts [seqs [liti "http/2"; any; liti "rst"];
                          seqs [liti "h2"; any; liti "stream"]; liti "RST_STREAM"]);
    (TLS_INJECTED_ALERT, alts [liti "tls alert"; seqs [liti "fatal"; any; liti "alert"];
                               seqs [liti "alert"; any; liti "fatal"]]);
    (DATA_STALL_64K_PLUS, alts [seqs [liti "stall"; any; liti "64"]; liti "stalled at 64";
                                liti "reassembly"]);
    (DATA_STALL_42K, alts [seqs [liti "stall"; any; liti "42"]; liti "stalled at 42"]);
    (DATA_STALL_16K, alts [seqs [liti "stall"; any; liti "16"]; liti "stalled at 16"]);
    (DATA_STALL_7K, alts [seqs [liti "stall"; any; WordB; liti "7k"; WordB];
                          seqs [WordB; liti "7kb"; WordB];
                          seqs [liti "stalled at 7"; NotLook digit];
                          seqs [liti "stall"; any; not_digit; liti "7"; NotLook digit;
                                Opt (liti "k")]]);
    (DATA_STALL_FIRST_REQ, alts [seqs [liti "stall"; any; liti "first"];
                                 liti "stalled at first"; liti "first req"]);
    (DATA_STALL_TLS_CERT, alts [seqs [liti "stall"; any; liti "cert"];
                                seqs [liti "cert"; any; liti "stall"]; liti "stalled at 2"]);
    (DELAYED_RST, alts [liti "reset after"; liti "rst after"]);
    (DELAYED_FIN, alts [liti "fin after"; liti "fin_ack"; liti "fake fin"]);
    (DNS_RESOLVE, alts [liti "Could not resolve"; liti "Failed to resolve"; liti "getaddrinfo";
                        liti "no DoH A record"]);
    (DNS_TAMPERED, alts [liti "TAMPERED"; seqs [liti "dns"; any; liti "mismatch"]]);
    (DNS_SINKHOLE, alts [liti "sinkhole"; liti "bogon"; liti "reserved ip"; liti "198.18.";
                         liti "127.0.0.1"]);
    (CONNECT_TIMEOUT, alts [seqs [liti "time"; Opt (liti "d"); Opt (liti " "); liti "out"];
                            liti "timeout after"; liti "Operation timed out"]);
    (CONNECT_REFUSED, alts [liti "Connection refused"; liti "ECONNREFUSED"]);
    (TLS_RST_AT_SNI, alts [liti "Recv failure"; liti "Connection reset"; liti "ECONNRESET";
                           seqs [WordB; liti "TCP RST"; WordB]]);
    (TLS_SILENT_DROP_AFTER_SNI, alts [liti "no data"; liti "silent"; liti "frozen";
                                      liti "stalled"]);
    (TLS_HANDSHAKE_ERROR, alts [liti "SSL routines"; liti "WRONG_VERSION"; liti "TLS";
                                liti "handshake"]);
    (HTTP_REDIRECT, liti "suspicious redirect");
    (HTTP_BLOCKED, alts [liti "403"; liti "451"; liti "captcha"; liti "blocked"]);
    (IP_BLOCKED, alts [seqs [liti "IP"; any; liti "block"]; liti "blacklist";
                       seqs [liti "110"; WordB]]) ].

Definition _PASS_HTTP : list Z := [200; 204; 206; 401; 403; 404].

(** [for phase, pat in _PHASE_PATTERNS: if pat.search(error): return phase] *)
Fixpoint first_pattern (error : string) (l : list (FailPhase * re)) : option FailPhase :=
  match l with
  | [] => None
  | (phase, pat) :: l =>
      if found (search pat error) then Some phase else first_pattern error l
  end.

(** The outer [option] is the [ValueError] of [http_phase]. *)
Definition classify_fail_phase (error : string) (http_code : Z) : option FailPhase :=
  if negb (nonempty error) then
    if bool_decide (http_code ∈ _PASS_HTTP) then Some PASS
    else if negb (http_code =? 0) then http_phase http_code
    else Some UNKNOWN
  else
    match first_pattern error _PHASE_PATTERNS with
    | Some phase => Some phase
    | None => Some OTHER
    end.

(** ** Infrastructure failures *)

Definition INFRA_FAIL_PHASES : list FailPhase := [CONNECT_TIMEOUT].
Definition DNS_NODATA_SKIP : string := "no DoH A record (skipped probe)".
Definition _INFRA_ERROR_MARKERS : list string :=
  ["dev/shm"; "Permission denied"; "ns pool exhausted"; "stopped before probe";
   "batch probe loop failed"].

Definition is_infra_fail_phase (fail_phase error : string) : bool :=
  if existsb (fun marker => contains marker error) _INFRA_ERROR_MARKERS then true
  else bool_decide (lower (strip fail_phase) ∈ value <$> INFRA_FAIL_PHASES).

(** The classifications the unit tests fix. *)
Example classify_known :
  (λ e, value <$> classify_fail_phase e 0) <$>
    ["curl: (28) Connection timed out"; "curl: (35) Recv failure: Connection reset";
     "curl: (6) Could not resolve host"; "TAMPERED dns mismatch"; "sinkhole 198.18.0.1";
     "suspicious redirect 301 to https://x.com"; "stalled at 7kb"; "stalled at 16kb";
     "stalled at 42kb"; "stalled at 64kb reassembly"; "stalled at 2kb cert";
     "stalled at first req"; "zero window advertised"; "HTTP/2 stream reset by RST_STREAM";
     "TLS fatal alert received"; "fake FIN_ACK injected"; "rst after 8kb"; "Connection refused";
     "IP block detected 110"]
  = Some <$>
    ["connect_timeout"; "tls_rst_at_sni"; "dns_resolve"; "dns_tampered"; "dns_sinkhole";
     "http_redirect"; "data_stall_7k"; "data_stall_16k"; "data_stall_42k";
     "data_stall_64k_plus"; "data_stall_tls_cert"; "data_stall_first_req"; "zero_window_stall";
     "h2_rst_stream"; "tls_injected_alert"; "delayed_fin"; "delayed_rst"; "connect_refused";
     "ip_blocked"].
Proof. vm_compute. reflexivity. Qed.

(** ** Values round-trip *)

Definition valid (p : FailPhase) : Prop :=
  match p with HTTP c => 300 <= c <= 599 | _ => True end.

Lemma find_value_sound v l p : find_value v l = Some p -> value p = v /\ p ∈ l.
Proof.
  induction l as [|q l IH]; simpl; [done|].
  destruct (String.eqb_spec (value q) v); intros; simplify_eq; set_solver.
Qed.

Lemma static_dichotomy p : p ∈ static_members \/ exists c, p = HTTP c.
Proof. destruct p; try (left; by apply (bool_decide_unpack _)); right; eauto. Qed.

Lemma static_not_http p c : p ∈ static_members -> p <> HTTP c.
Proof.
  intros Hp ->. unfold static_members in Hp. repeat apply elem_of_cons in Hp as [Hp|Hp]; try done.
  by apply not_elem_of_nil in Hp.
Qed.

Lemma digit_char c : is_digit c = true -> c ∈ ["0";"1";"2";"3";"4";"5";"6";"7";"8";"9"]%char.
Proof.
  destruct c as [[] [] [] [] [] [] [] []]; try done; intros _; by apply (bool_decide_unpack _).
Qed.

Lemma three_digits_ok :
  forallb (λ a, forallb (λ b, forallb (λ c,
    let s := String a (String b (String c EmptyString)) in
    String.eqb (str_of_Z (digits_val 0 s)) s &&
    ((300 <=? digits_val 0 s) && (digits_val 0 s <=? 599)))
    ["0";"1";"2";"3";"4";"5";"6";"7";"8";"9"]%char)
    ["0";"1";"2";"3";"4";"5";"6";"7";"8";"9"]%char)
    ["3";"4";"5"]%char = true.
Proof. vm_compute. reflexivity. Qed.

Lemma http_re_shape v :
  found (fullmatch http_re v) = true ->
  let s := sdrop 5 v in
  v = "http_" +:+ s /\ str_of_Z (digits_val 0 s) = s /\ 300 <= digits_val 0 s <= 599.
Proof.
  rewrite fullmatch_found. intros (q & d & H & Hq).
  change http_re with (Seq (lit "http_") (Seq (Chr is_3to5) (Seq digit digit))) in H.
  destruct H as ([o co] & [[Ho _] _]%den_lit & H).
  apply den_chr_seq in H as (a & s1 & H1 & Ha & H).
  apply den_chr_seq in H as (b & s2 & H2 & Hb & H).
  destruct H as (c & s3 & H3 & Hc & H). simpl in Ho, H1, H2, H3, H. injection H as -> _.
  simpl in Hq. subst s3 s2 s1. rewrite H1 in Ho. subst v.
  cbv zeta. change 5%nat with (String.length "http_"). rewrite sdrop_append.
  split; [done|].
  assert (Ha' : a ∈ ["3";"4";"5"]%char).
  { destruct a as [[] [] [] [] [] [] [] []]; try done; by apply (bool_decide_unpack _). }
  apply digit_char in Hb. apply digit_char in Hc.
  pose proof three_digits_ok as Hall. rewrite forallb_forall in Hall.
  specialize (Hall a (proj1 (list_elem_of_In _ _) Ha')). rewrite forallb_forall in Hall.
  specialize (Hall b (proj1 (list_elem_of_In _ _) Hb)). rewrite forallb_forall in Hall.
  specialize (Hall c (proj1 (list_elem_of_In _ _) Hc)). cbv zeta in Hall.
  apply andb_true_iff in Hall as [->%String.eqb_eq Hr]. split; [done|lia].
Qed.

Lemma http_values_ok :
  forallb (λ c, bool_decide (of_value (value (HTTP c)) = Some (HTTP c))) (seqZ 300 300) = true.
Proof. vm_compute. reflexivity. Qed.

Lemma static_values_ok :
  forallb (λ p, bool_decide (of_value (value p) = Some p)) static_members = true.
Proof. vm_compute. reflexivity. Qed.

Lemma of_value_sound v p : of_value v = Some p -> value p = v /\ valid p.
Proof.
  unfold of_value, missing_. destruct (find_value v static_members) as [q|] eqn:E.
  - intros [= ->]. apply find_value_sound in E as [Hv Hp]. split; [done|].
    destruct p; try done. by apply (static_not_http _ code) in Hp.
  - destruct (found (fullmatch http_re v)) eqn:Hf; [|done]. intros Hp.
    assert (p = HTTP (digits_val 0 (sdrop 5 v))) as -> by congruence. clear Hp.
    apply http_re_shape in Hf as (Hv & Hs & Hr). split; [|done].
    cbn [value]. by rewrite Hs.
Qed.

Lemma of_value_value p : valid p -> of_value (value p) = Some p.
Proof.
  intros Hp. destruct (static_dichotomy p) as [Hs|[c ->]].
  - pose proof static_values_ok as Hall. rewrite forallb_forall in Hall.
    apply list_elem_of_In in Hs. by apply Hall, bool_decide_eq_true in Hs.
  - pose proof http_values_ok as Hall. rewrite forallb_forall in Hall. simpl in Hp.
    assert (In c (seqZ 300 300)) as Hc by (apply list_elem_of_In, elem_of_seqZ; lia).
    by apply Hall, bool_decide_eq_true in Hc.
Qed.

(** A stored token determines the phase and the phase its token: [FailPhase(v)]
    is the member [p] exactly when [p.value] is [v] and [p] is a static member or
    a dynamic HTTP member with code 300 to 599; it raises for every other string. *)
Theorem of_value_roundtrip v p : of_value v = Some p <-> value p = v /\ valid p.
Proof. split; [apply of_value_sound|]. intros [<- Hp]. by apply of_value_value. Qed.

(** ** The HTTP members and the classification *)

Lemma str_of_Z_first z :
  exists c w, str_of_Z z = String c w /\ (is_digit c = true \/ c = "-"%char).
Proof.
  destruct (decide (0 <= z)) as [Hz|Hz].
  - destruct (str_of_Z_nonneg z Hz) as [H _]. unfold isdigit in H.
    destruct (str_of_Z z) as [|c w]; [done|]. simpl in H. exists c, w. split; [done|].
    left. by destruct (is_digit c).
  - destruct (str_of_Z_neg z) as [w ->]; [lia|]. eauto.
Qed.

Lemma http_value_inv c p : value p = "http_" +:+ str_of_Z c -> p = HTTP c.
Proof.
  destruct (str_of_Z_first c) as (a & w & Hs & Ha). intros H.
  destruct p;
    try (cbn [value] in H; rewrite Hs in H; cbv in H; simplify_eq; by destruct Ha).
  cbn [value] in H. apply append_inj_l in H. apply (inj str_of_Z) in H. by subst.
Qed.

(** [http_phase] gives the HTTP member for codes 300 to 599 and raises
    [ValueError] for every other code. *)
Lemma http_phase_spec code :
  http_phase code = if (300 <=? code) && (code <=? 599) then Some (HTTP code) else None.
Proof.
  unfold http_phase. destruct (_ && _) eqn:E.
  - apply (of_value_value (HTTP code)). simpl. lia.
  - destruct (of_value _) as [p|] eqn:Hp; [|done]. apply of_value_sound in Hp as [Hv Hp].
    apply http_value_inv in Hv as ->. simpl in Hp. lia.
Qed.

Lemma classify_fail_phase_spec_core error code :
  classify_fail_phase error code =
    if nonempty error then Some (default OTHER (first_pattern error _PHASE_PATTERNS))
    else if bool_decide (code ∈ _PASS_HTTP) then Some PASS
    else if code =? 0 then Some UNKNOWN
    else if (300 <=? code) && (code <=? 599) then Some (HTTP code)
    else None.
Proof.
  unfold classify_fail_phase. rewrite http_phase_spec.
  destruct (nonempty error); cbn [negb]; [by destruct (first_pattern error _PHASE_PATTERNS)|].
  destruct (bool_decide _); [done|]. by destruct (code =? 0).
Qed.

(** The classification on every branch: an error text is classified by the
    patterns and never raises; with no error text a bypass-proof status is PASS,
    status 0 is UNKNOWN, a status from 300 to 599 is its HTTP member, and every
    other status (201, 202, 100, ...) raises instead of being classified. *)
Theorem classify_fail_phase_spec error code :
  classify_fail_phase error code =
    if nonempty error then Some (default OTHER (first_pattern error _PHASE_PATTERNS))
    else if bool_decide (code ∈ _PASS_HTTP) then Some PASS
    else if code =? 0 then Some UNKNOWN
    else if (300 <=? code) && (code <=? 599) then Some (HTTP code)
    else None.
Proof. exact (classify_fail_phase_spec_core error code). Qed.

(** A pattern of the table classifies an error when it matches and no earlier one does. *)
Lemma first_pattern_split error l p :
  first_pattern error l = Some p <->
  exists l1 pat l2, l = l1 ++ (p, pat) :: l2 /\ found (search pat error) = true /\
    Forall (λ pp, found (search pp.2 error) = false) l1.
Proof.
  induction l as [|[q pat] l IH]; simpl.
  - split; [done|]. by intros ([] & ? & ? & ? & _).
  - destruct (found (search pat error)) eqn:E.
    + split.
      * intros [= ->]. by exists [], pat, l.
      * intros ([|[q' pat'] l1] & pat'' & l2 & H & H1 & H2); simplify_eq/=; [done|].
        apply Forall_cons in H2 as [H2 _]. simpl in H2. congruence.
    + rewrite IH. split.
      * intros (l1 & pat' & l2 & -> & H1 & H2). exists ((q, pat) :: l1), pat', l2.
        split_and!; [done|done|by constructor].
      * intros ([|[q' pat'] l1] & pat'' & l2 & H & H1 & H2); simplify_eq/=; [congruence|].
        apply Forall_cons in H2 as [_ H2]. eauto 10.
Qed.

Lemma first_pattern_none error l :
  first_pattern error l = None <-> Forall (λ pp, found (search pp.2 error) = false) l.
Proof.
  induction l as [|[q pat] l IH]; simpl; [split; [constructor|done]|].
  destruct (found (search pat error)) eqn:E; rewrite Forall_cons; [naive_solver congruence|].
  simpl. naive_solver.
Qed.

(** An earlier entry that matches shadows all the later ones. *)
Lemma first_pattern_shadow error pre q pat post p :
  found (search pat error) = true ->
  first_pattern error (pre ++ (q, pat) :: post) = Some p -> p ∈ pre.*1 ++ [q].
Proof.
  intros Hq. induction pre as [|[q' pat'] pre IH]; simpl.
  - rewrite Hq. intros [= ->]. by left.
  - destruct (found (search pat' error)); [intros [= ->]; by left|]. right. by apply IH.
Qed.

(** The phases an error text can be given. *)
Lemma first_pattern_static error p :
  first_pattern error _PHASE_PATTERNS = Some p -> p ∈ static_members.
Proof.
  intros (l1 & pat & l2 & H & _)%first_pattern_split.
  assert (p ∈ _PHASE_PATTERNS.*1) as Hp.
  { rewrite H, fmap_app. apply elem_of_app. right. by left. }
  revert Hp. generalize p. apply Forall_forall. by apply (bool_decide_unpack _).
Qed.

(** A phase that is classified can be stored and read back: whatever the error
    text and the status, the classification is a member whose token [FailPhase]
    maps back to it. *)
Theorem classify_roundtrip error code p :
  classify_fail_phase error code = Some p -> of_value (value p) = Some p.
Proof.
  intros H. apply of_value_value. unfold classify_fail_phase in H.
  destruct (negb (nonempty error)).
  - destruct (bool_decide _); [by simplify_eq|].
    destruct (negb _); [|by simplify_eq]. by apply of_value_sound in H as [_ H].
  - destruct (first_pattern _ _) eqn:E; simplify_eq; [|done].
    apply first_pattern_static in E. destruct p; try done. by apply (static_not_http _ code0) in E.
Qed.

Lemma classify_roundtrip_witness : of_value (value DELAYED_RST) = Some DELAYED_RST.
Proof. apply (classify_roundtrip "rst after 8kb" 0). vm_compute. reflexivity. Defined.

(** The pattern for IP_BLOCKED comes after the one for HTTP_BLOCKED, which
    contains the word "blocked": an error text with that word, in any case, is
    never classified as IP_BLOCKED. *)
Theorem blocked_never_ip_blocked error code :
  contains "blocked" (lower error) = true -> classify_fail_phase error code <> Some IP_BLOCKED.
Proof.
  intros Hb. rewrite classify_fail_phase_spec_core. destruct (nonempty error) eqn:He; [|by destruct error].
  destruct (first_pattern error _PHASE_PATTERNS) as [p|] eqn:E; [|done].
  intros [= Hp]. simpl in Hp. subst p.
  rewrite <- (take_drop 20 _PHASE_PATTERNS) in E.
  apply (first_pattern_shadow _ _ HTTP_BLOCKED) in E.
  - revert E. by apply (bool_decide_unpack _).
  - rewrite search_alts. cbn [existsb]. rewrite !search_liti.
    change (lower "blocked") with "blocked". by rewrite Hb, !orb_true_r.
Qed.

Lemma blocked_never_ip_blocked_witness :
  classify_fail_phase "IP 10.0.0.1 blocked by provider" 0 <> Some IP_BLOCKED.
Proof. apply blocked_never_ip_blocked. vm_compute. reflexivity. Defined.

(** A phase token is an infrastructure one only for CONNECT_TIMEOUT, up to case
    and surrounding blanks. *)
Lemma is_infra_spec fail_phase error :
  is_infra_fail_phase fail_phase error = true <->
  (exists m, m ∈ _INFRA_ERROR_MARKERS /\ contains m error = true) \/
  lower (strip fail_phase) = "connect_timeout".
Proof.
  unfold is_infra_fail_phase. destruct (existsb _ _) eqn:E.
  - apply existsb_exists in E as (m & Hm & Hc). rewrite <- list_elem_of_In in Hm. split; eauto.
  - rewrite bool_decide_eq_true. simpl. rewrite list_elem_of_singleton. split; [auto|].
    intros [(m & Hm & Hc)|H]; [|done]. exfalso.
    assert (existsb (fun marker => contains marker error) _INFRA_ERROR_MARKERS = true) as E';
      [|congruence].
    apply existsb_exists. exists m. by rewrite <- list_elem_of_In.
Qed.
