(* ===== verification/Quarantine.v ===== *)
(** * Domain quarantine: [engine/domain_quarantine.py]

    The per-campaign tracker that stops probing domains that never pass: its
    counters, the seeding from stored rows, [record], the threshold coercion
    and the denylist file. The mutable [_DomainStats] object of a domain is its
    entry of the [stats] dictionary; [ts] is the wall-clock text [_mark] puts
    into the record. Logging is left out. *)

From stdpp Require Import base numbers list strings gmap.
From Stdlib Require Import ZArith Lia Ascii SpecFloat.
From S2P Require Import Prelude PyFloat PyStr PyDict FailPhase.

#[local] Open Scope Z_scope.

(** ** Thresholds *)

Definition DEFAULT_MIN_ATTEMPTS : Z := 300.
Definition DEFAULT_DNS_RESOLVE_MIN : Z := 50.
Definition QUARANTINE_MIN_LO : Z := 1.
Definition QUARANTINE_MIN_HI : Z := 10000.
Definition _WORKING_PROBE_STATUSES : list string := ["PASS"; "THROTTLED"].

(** A setting as [int] sees it: absent, a number, a text, or an object it
    rejects with [TypeError]. *)
Inductive setting : Type :=
  | SNone
  | SInt (z : Z)
  | SFloat (f : float)
  | SStr (s : string)
  | SOther.

Inductive int_result : Type :=
  | IntOk (z : Z)
  | IntBad          (** [ValueError] or [TypeError], both caught *)
  | IntOverflow.    (** [OverflowError] of an infinite float, not caught *)

(** [int(f)]: truncation towards zero. *)
Definition int_of_float (f : float) : int_result :=
  match f with
  | S754_zero _ => IntOk 0
  | S754_infinity _ => IntOverflow
  | S754_nan => IntBad
  | S754_finite s m e =>
      let a := if 0 <=? e then Z.pos m * 2 ^ e else Z.pos m / 2 ^ (- e) in
      IntOk (if s then - a else a)
  end.

Definition py_int_of (v : setting) : int_result :=
  match v with
  | SNone | SOther => IntBad
  | SInt z => IntOk z
  | SFloat f => int_of_float f
  | SStr s => match py_int s with Some z => IntOk z | None => IntBad end
  end.

(** [None]: the exception escapes. *)
Definition clamp_quarantine_min (value : setting) (default : Z) : option Z :=
  match value with
  | SNone => Some default
  | _ => match py_int_of value with
         | IntOk n => Some (Z.max QUARANTINE_MIN_LO (Z.min QUARANTINE_MIN_HI n))
         | IntBad => Some default
         | IntOverflow => None
         end
  end.

(** ** State *)

Record DomainStats : Type := Stats { attempts : Z; passed : Z; dns_resolve_attempts : Z }.
Definition no_stats : DomainStats := Stats 0 0 0.

Record QuarantineConfig : Type := Config {
  enabled : bool;
  min_attempts : Z;
  dns_resolve_min_attempts : Z;
  auto_denylist : bool
}.

Record info : Type := Info {
  i_domain : string; i_attempts : Z; i_passed : Z; i_failed : Z; i_ts : string; i_reason : string
}.

Record DomainQuarantine : Type := Quarantine {
  config : QuarantineConfig;
  stats : list (string * DomainStats);
  quarantined : list (string * info)
}.

Definition new_quarantine (c : QuarantineConfig) : DomainQuarantine := Quarantine c [] [].

Definition is_quarantined (q : DomainQuarantine) (d : string) : bool :=
  match dget d (quarantined q) with Some _ => true | None => false end.
Definition stats_of (q : DomainQuarantine) (d : string) : DomainStats :=
  default no_stats (dget d (stats q)).
Definition set_stats (d : string) (st : DomainStats) (q : DomainQuarantine) : DomainQuarantine :=
  Quarantine (config q) (dset d st (stats q)) (quarantined q).

Definition _mark (ts d : string) (st : DomainStats) (reason : string) (failed : Z)
    (q : DomainQuarantine) : DomainQuarantine :=
  Quarantine (config q) (stats q)
    (dset d (Info d (attempts st) (passed st) failed ts reason) (quarantined q)).

Definition attempts_reason (n : Z) : string := "0 PASS in " +:+ str_of_Z n +:+ " attempts".
Definition dns_reason (n : Z) : string := str_of_Z n +:+ " dns_resolve failures (no pin)".

(** ** Seeding from stored rows *)

Definition seed_row (ts : string) (row : string * Z * Z) (acc : DomainQuarantine * list string)
    : DomainQuarantine * list string :=
  let '(d, total, ok) := row in
  let '(q, newly) := acc in
  let st0 := stats_of q d in
  let st := Stats (Z.max (attempts st0) total) (Z.max (passed st0) ok) (dns_resolve_attempts st0) in
  let q := set_stats d st q in
  if negb (is_quarantined q d) && (min_attempts (config q) <=? attempts st) && (passed st =? 0)
  then (_mark ts d st (attempts_reason (attempts st)) (attempts st) q, newly ++ [d])
  else (q, newly).

Definition seed_from_rows (ts : string) (rows : list (string * Z * Z)) (q : DomainQuarantine)
    : DomainQuarantine * list string :=
  if enabled (config q) then fold_left (fun acc row => seed_row ts row acc) rows (q, []) else (q, []).

Definition seed_dns_row (ts : string) (row : string * Z * Z) (acc : DomainQuarantine * list string)
    : DomainQuarantine * list string :=
  let '(d, dns_fails, ok) := row in
  let '(q, newly) := acc in
  let st0 := stats_of q d in
  let st := Stats (attempts st0) (Z.max (passed st0) ok) (Z.max (dns_resolve_attempts st0) dns_fails) in
  let q := set_stats d st q in
  if negb (is_quarantined q d) && (passed st =? 0)
     && (dns_resolve_min_attempts (config q) <=? dns_resolve_attempts st)
  then (_mark ts d st (dns_reason (dns_resolve_attempts st)) (dns_resolve_attempts st) q, newly ++ [d])
  else (q, newly).

Definition seed_dns_resolve_from_rows (ts : string) (rows : list (string * Z * Z))
    (q : DomainQuarantine) : DomainQuarantine * list string :=
  if enabled (config q) then fold_left (fun acc row => seed_dns_row ts row acc) rows (q, [])
  else (q, []).

(** ** Accounting one probe *)

Definition counts_pass (ok : bool) (status : option string) : bool :=
  match status with
  | Some s => bool_decide (s ∈ _WORKING_PROBE_STATUSES)
  | None => ok
  end.

Definition record (ts d : string) (ok : bool) (status : option string) (fail_phase error : string)
    (q : DomainQuarantine) : DomainQuarantine * option string :=
  if negb (enabled (config q)) || is_quarantined q d then (q, None)
  else if counts_pass ok status then
    let st := stats_of q d in
    (set_stats d (Stats (attempts st + 1) (passed st + 1) (dns_resolve_attempts st)) q, None)
  else if String.eqb fail_phase (value DNS_RESOLVE) then
    let st0 := stats_of q d in
    let st := Stats (attempts st0) (passed st0) (dns_resolve_attempts st0 + 1) in
    let q := set_stats d st q in
    if negb (passed st =? 0) then (q, None)
    else if dns_resolve_attempts st <? dns_resolve_min_attempts (config q) then (q, None)
    else (_mark ts d st (dns_reason (dns_resolve_attempts st)) (dns_resolve_attempts st) q, Some d)
  else if is_infra_fail_phase fail_phase error then (q, None)
  else
    let st0 := stats_of q d in
    let st := Stats (attempts st0 + 1) (passed st0) (dns_resolve_attempts st0) in
    let q := set_stats d st q in
    if (attempts st <? min_attempts (config q)) || negb (passed st =? 0) then (q, None)
    else (_mark ts d st (attempts_reason (attempts st)) (attempts st) q, Some d).

Definition exclude_domains (q : DomainQuarantine) : gset string :=
  list_to_set (keys (quarantined q)).

(** ** The denylist file

    The file's text is a string, or [None] when it does not exist. An
    [OSError] makes the function return [] and write nothing. *)

Record deny_entry : Type := DenyEntry { e_domain : string; e_ts : string; e_reason : string }.

Definition newline : ascii := "010".
Definition nl : string := String newline EmptyString.

(** [line.split("#", 1)[0].strip().lower()] *)
Definition line_token (line : string) : string := lower (strip (before "#" line)).

(** Reading in text mode turns a carriage return into a newline. *)
Definition read_text (text : string) : string :=
  smap (fun c => if Ascii.eqb c "013" then newline else c) text.

Definition file_lines (text : option string) : list string :=
  split_char newline (read_text (default "" text)).

Definition existing_tokens (text : option string) : gset string :=
  list_to_set (filter (fun t => nonempty t = true) (line_token <$> file_lines text)).

Definition deny_line (dom : string) (e : deny_entry) : string :=
  dom +:+ "  # auto-quarantine " +:+ e_ts e +:+ " (" +:+ e_reason e +:+ ")" +:+ nl.

Fixpoint append_entries (existing : gset string) (entries : list deny_entry) : string * list string :=
  match entries with
  | [] => (EmptyString, [])
  | e :: es =>
      let dom := lower (strip (e_domain e)) in
      if negb (nonempty dom) || bool_decide (dom ∈ existing) then append_entries existing es
      else let '(text, written) := append_entries ({[dom]} ∪ existing) es in
           (deny_line dom e +:+ text, dom :: written)
  end.

(** The new text of the file and the domains written. *)
Definition append_denylist (text : option string) (entries : list deny_entry)
    : string * list string :=
  let '(added, written) := append_entries (existing_tokens text) entries in
  (default "" text +:+ added, written).

(** ** Configuration from the command line *)

Record quarantine_args : Type := QuarantineArgs {
  no_quarantine : bool; quarantine_min : setting; dns_resolve_quarantine_min : setting;
  quarantine_auto_denylist : bool
}.

(** The outer [option] is the escaping exception, the inner one [None]. *)
Definition quarantine_from_args (a : quarantine_args) : option (option QuarantineConfig) :=
  if no_quarantine a then Some None
  else m ← clamp_quarantine_min (quarantine_min a) DEFAULT_MIN_ATTEMPTS;
       n ← clamp_quarantine_min (dns_resolve_quarantine_min a) DEFAULT_DNS_RESOLVE_MIN;
       Some (Some (Config true m n (quarantine_auto_denylist a))).

(** ** Lemmas on one [record] *)

Lemma is_quarantined_mark ts d st r n q d' :
  is_quarantined (_mark ts d st r n q) d' = bool_decide (d = d') || is_quarantined q d'.
Proof.
  unfold is_quarantined, _mark. simpl. rewrite dget_set. by repeat case_decide; case_bool_decide.
Qed.

Lemma is_quarantined_set_stats d st q d' : is_quarantined (set_stats d st q) d' = is_quarantined q d'.
Proof. done. Qed.

Lemma stats_of_set d st q d' :
  stats_of (set_stats d st q) d' = if decide (d = d') then st else stats_of q d'.
Proof. unfold stats_of, set_stats. simpl. rewrite dget_set. by case_decide. Qed.

Lemma stats_of_mark ts d st r n q d' : stats_of (_mark ts d st r n q) d' = stats_of q d'.
Proof. done. Qed.

Lemma config_record ts d ok status phase error q :
  config (record ts d ok status phase error q).1 = config q.
Proof. unfold record. repeat case_match; done. Qed.

#[local] Hint Rewrite is_quarantined_mark is_quarantined_set_stats stats_of_set stats_of_mark : quar.

(** *** The outcome of a probe, and what one outcome does to one domain *)

Inductive outcome : Type := Working | DnsFail | InfraFail | DpiFail.
#[export] Instance outcome_eq_dec : EqDecision outcome.
Proof. solve_decision. Defined.

Definition classify (ok : bool) (status : option string) (fail_phase error : string) : outcome :=
  if counts_pass ok status then Working
  else if String.eqb fail_phase (value DNS_RESOLVE) then DnsFail
  else if is_infra_fail_phase fail_phase error then InfraFail
  else DpiFail.

Definition dstep (c : QuarantineConfig) (s : DomainStats * bool) (o : outcome) : DomainStats * bool :=
  let '(Stats a p n, quar) := s in
  if quar then s
  else match o with
       | Working => (Stats (a + 1) (p + 1) n, false)
       | DnsFail => (Stats a p (n + 1), (p =? 0) && (dns_resolve_min_attempts c <=? n + 1))
       | InfraFail => s
       | DpiFail => (Stats (a + 1) p n, (min_attempts c <=? a + 1) && (p =? 0))
       end.

Definition view (q : DomainQuarantine) (d : string) : DomainStats * bool :=
  (stats_of q d, is_quarantined q d).

Lemma record_view ts d ok status phase error q d' :
  enabled (config q) = true ->
  view (record ts d ok status phase error q).1 d' =
    if decide (d = d') then dstep (config q) (view q d) (classify ok status phase error)
    else view q d'.
Proof.
  intros He. unfold record, view, classify, dstep. rewrite He. simpl.
  destruct (is_quarantined q d) eqn:Hq; simpl.
  { case_decide; [subst; rewrite Hq|]; by destruct (stats_of q _). }
  destruct (stats_of q d) as [a p n] eqn:Hs. simpl.
  repeat (case_match; simpl; autorewrite with quar; simpl); repeat case_decide; subst;
    rewrite ?bool_decide_eq_true_2, ?bool_decide_eq_false_2, ?Hs, ?Hq by done;
    simpl; try done; try (f_equal; lia).
Qed.

Lemma record_result ts d ok status phase error q :
  (record ts d ok status phase error q).2 =
    if negb (is_quarantined q d) && is_quarantined (record ts d ok status phase error q).1 d
    then Some d else None.
Proof.
  unfold record. destruct (is_quarantined q d) eqn:Hq.
  { rewrite orb_true_r. simpl. done. }
  repeat (case_match; simpl; autorewrite with quar; simpl); 
    rewrite ?bool_decide_eq_true_2, ?Hq in * by done; done.
Qed.

(** A whole campaign's events. *)
Record event : Type := Event {
  ev_ts : string; ev_domain : string; ev_ok : bool; ev_status : option string;
  ev_phase : string; ev_error : string
}.

Definition ev_outcome (e : event) : outcome :=
  classify (ev_ok e) (ev_status e) (ev_phase e) (ev_error e).

Definition record_event (q : DomainQuarantine) (e : event) : DomainQuarantine :=
  (record (ev_ts e) (ev_domain e) (ev_ok e) (ev_status e) (ev_phase e) (ev_error e) q).1.

Definition run (q : DomainQuarantine) (evs : list event) : DomainQuarantine :=
  fold_left record_event evs q.

Definition outcomes_for (d : string) (evs : list event) : list outcome :=
  ev_outcome <$> filter (fun e => ev_domain e = d) evs.

Lemma config_run evs q : config (run q evs) = config q.
Proof. revert q. induction evs as [|e evs IH]; intros q; [done|]. simpl. rewrite IH. apply config_record. Qed.

Lemma run_view evs q d :
  enabled (config q) = true ->
  view (run q evs) d = fold_left (dstep (config q)) (outcomes_for d evs) (view q d).
Proof.
  revert q. induction evs as [|e evs IH]; intros q He; [done|]. simpl.
  rewrite IH by (unfold record_event; by rewrite config_record).
  unfold record_event. rewrite config_record, record_view by done.
  unfold outcomes_for. rewrite filter_cons.
  destruct (decide (ev_domain e = d)) as [<-|]; [|done]. done.
Qed.

(** *** The specification

    A domain is condemned by a sequence of outcomes when some prefix holds no
    working probe and reaches one of the two thresholds. *)
Definition tally (o : outcome) (l : list outcome) : Z := Z.of_nat (length (filter (fun o' => o' = o) l)).

Definition reaches (c : QuarantineConfig) (l : list outcome) : Prop :=
  Working ∉ l /\ (min_attempts c <= tally DpiFail l \/ dns_resolve_min_attempts c <= tally DnsFail l).

Definition condemned (c : QuarantineConfig) (l : list outcome) : Prop :=
  exists p, p `prefix_of` l /\ reaches c p.

Lemma tally_snoc o l o' : tally o (l ++ [o']) = tally o l + if decide (o' = o) then 1 else 0.
Proof.
  unfold tally. rewrite filter_app, length_app, filter_cons, filter_nil.
  case_decide; simpl; lia.
Qed.

Lemma tally_working l : tally Working l = 0 <-> Working ∉ l.
Proof.
  induction l as [|o l IH] using rev_ind; [set_solver|].
  rewrite tally_snoc, not_elem_of_app, list_elem_of_singleton.
  assert (0 <= tally Working l) by (unfold tally; lia).
  case_decide as Hd; [split; [lia|by intros [_ []]]|]. rewrite Z.add_0_r, IH. naive_solver.
Qed.

Lemma condemned_snoc c l o : condemned c (l ++ [o]) <-> condemned c l \/ reaches c (l ++ [o]).
Proof.
  unfold condemned. split.
  - intros (p & Hp & Hr). apply prefix_snoc_inv in Hp as [Hp| ->]; eauto.
  - intros [(p & Hp & Hr)|Hr]; [|by eauto]. exists p. split; [|done].
    by apply prefix_app_r.
Qed.

Lemma reaches_nil c : 1 <= min_attempts c -> 1 <= dns_resolve_min_attempts c -> ~ reaches c [].
Proof. intros H1 H2 [_ H]. unfold tally in H. simpl in H. lia. Qed.

Lemma condemned_reaches c l : reaches c l -> condemned c l.
Proof. intros H. by exists l. Qed.

(** Counters of a domain that is not quarantined, and when it is. *)
Definition counted (c : QuarantineConfig) (l : list outcome) (s : DomainStats * bool) : Prop :=
  (s.2 = true <-> condemned c l) /\
  (s.2 = false ->
    attempts s.1 = tally DpiFail l + tally Working l /\
    passed s.1 = tally Working l /\ dns_resolve_attempts s.1 = tally DnsFail l).

Lemma counted_step c l s o :
  counted c l s -> counted c (l ++ [o]) (dstep c s o).
Proof.
  destruct s as [[a p n] b]. intros [Hb Hn]. unfold counted in *. simpl in Hb, Hn.
  destruct b; [split; [|done]; simpl; rewrite condemned_snoc; naive_solver|].
  destruct (Hn eq_refl) as (Ha & Hp & Hd).
  assert (Hc : ~ condemned c l) by naive_solver.
  assert (Hr : Working ∉ l -> tally DpiFail l < min_attempts c /\ tally DnsFail l < dns_resolve_min_attempts c).
  { intros Hw. assert (~ reaches c l) as Hr by (intros ?; by apply Hc, condemned_reaches).
    unfold reaches in Hr. split; apply Z.nle_gt; intros ?; apply Hr; auto. }
  rewrite condemned_snoc. unfold reaches. rewrite !tally_snoc, not_elem_of_app, list_elem_of_singleton.
  rewrite <- tally_working in *.
  destruct o; simpl; rewrite ?andb_true_iff, ?Z.eqb_eq, ?Z.leb_le; repeat case_decide; try done;
    (split; [|intros _; lia]); subst; intuition (congruence || lia).
Qed.

Lemma counted_run c l :
  1 <= min_attempts c -> 1 <= dns_resolve_min_attempts c ->
  counted c l (fold_left (dstep c) l (no_stats, false)).
Proof.
  intros H1 H2. induction l as [|o l IH] using rev_ind.
  - split; [|done]. simpl. split; [done|]. intros (p & Hp & Hr).
    apply prefix_nil_inv in Hp as ->. by apply reaches_nil in Hr.
  - rewrite fold_left_app. simpl. by apply counted_step.
Qed.

(** ** Properties of the tracker *)

(** Refinement: after any sequence of probe results on a fresh tracker with
    thresholds of at least 1, a domain is quarantined exactly when some prefix of
    its own results has no working probe (PASS or THROTTLED) and holds
    [min_attempts] DPI failures or [dns_resolve_min_attempts] resolver failures. *)
Theorem quarantine_refines_spec c evs d :
  enabled c = true -> 1 <= min_attempts c -> 1 <= dns_resolve_min_attempts c ->
  is_quarantined (run (new_quarantine c) evs) d = true <-> condemned c (outcomes_for d evs).
Proof.
  intros He H1 H2. pose proof (run_view evs (new_quarantine c) d He) as Hv.
  destruct (counted_run c (outcomes_for d evs) H1 H2) as [Hc _].
  change (view (new_quarantine c) d) with (no_stats, false) in Hv.
  change (config (new_quarantine c)) with c in Hv. rewrite <- Hv in Hc. exact Hc.
Qed.

Definition demo_config : QuarantineConfig := Config true 2 3 false.
Definition demo_fail : event := Event "t" "bad.example" false None "tls_rst_at_sni" "reset".

Lemma quarantine_refines_spec_witness :
  is_quarantined (run (new_quarantine demo_config) [demo_fail; demo_fail]) "bad.example" = true
  <-> condemned demo_config (outcomes_for "bad.example" [demo_fail; demo_fail]).
Proof. apply quarantine_refines_spec; [reflexivity|done|done]. Defined.

(** [record] names the domain exactly when this probe quarantines it, and a
    quarantined domain is final: later probes of it change no part of the state. *)
Theorem record_reports_transition ts d ok status phase error q :
  let '(q', r) := record ts d ok status phase error q in
  (r = Some d <-> is_quarantined q d = false /\ is_quarantined q' d = true) /\
  (r = None \/ r = Some d) /\
  (is_quarantined q d = true -> q' = q).
Proof.
  pose proof (record_result ts d ok status phase error q) as H.
  destruct (record _ _ _ _ _ _ _) as [q' r] eqn:E. simpl in H. subst r.
  assert (is_quarantined q d = true -> q' = q) as Hfix.
  { intros Hq. unfold record in E. rewrite Hq, orb_true_r in E. by simplify_eq. }
  split_and!; [|by case_match; auto|done].
  destruct (is_quarantined q d) eqn:Hq, (is_quarantined q' d) eqn:Hq'; simpl; naive_solver.
Qed.

(** A record quarantines no domain but the one it reports. *)
Lemma record_exclude ts d ok status phase error q d' :
  d' ∈ exclude_domains (record ts d ok status phase error q).1 ->
  d' ∈ exclude_domains q \/ (record ts d ok status phase error q).2 = Some d'.
Proof.
  assert (Hex : forall q, d' ∈ exclude_domains q <-> is_quarantined q d' = true).
  { intros q0. unfold exclude_domains, is_quarantined. rewrite elem_of_list_to_set, elem_of_keys.
    rewrite is_Some_alt. by destruct (dget d' (quarantined q0)). }
  rewrite !Hex. intros H. destruct (is_quarantined q d') eqn:Hq; [by left|right].
  unfold record in *. destruct (_ || _); simpl in *; [congruence|].
  repeat case_match; simpl in *; rewrite ?is_quarantined_mark, ?is_quarantined_set_stats, ?Hq, ?orb_false_r in H;
    try done; apply bool_decide_eq_true in H; by subst.
Qed.

Lemma record_infra ts d ok status phase error q :
  classify ok status phase error = InfraFail -> record ts d ok status phase error q = (q, None).
Proof.
  unfold classify, record. destruct (_ || _); [done|].
  repeat case_match; done.
Qed.

(** Infrastructure failures never count: removing them from a campaign leaves
    the tracker in the same state, counters and records included. *)
Theorem infra_failures_do_not_count q evs :
  run q evs = run q (filter (fun e => ev_outcome e <> InfraFail) evs).
Proof.
  revert q. induction evs as [|e evs IH]; intros q; [done|].
  rewrite filter_cons. case_decide as Hd; simpl; [apply IH|].
  assert (record_event q e = q) as -> by (unfold record_event; by rewrite record_infra).
  apply IH.
Qed.

(** What is stored about a quarantined domain. *)
Definition info_ok (c : QuarantineConfig) (d : string) (i : info) : Prop :=
  i_domain i = d /\ i_passed i = 0 /\
  (i_failed i = i_attempts i /\ min_attempts c <= i_failed i \/
   dns_resolve_min_attempts c <= i_failed i).

Definition infos_ok (q : DomainQuarantine) : Prop :=
  forall d i, dget d (quarantined q) = Some i -> info_ok (config q) d i.

Lemma infos_ok_mark ts d st r n q :
  infos_ok q -> info_ok (config q) d (Info d (attempts st) (passed st) n ts r) ->
  infos_ok (_mark ts d st r n q).
Proof.
  intros Hq Hi d' i. unfold _mark. simpl. rewrite dget_set. case_decide; [|apply Hq].
  intros. by simplify_eq.
Qed.

Lemma infos_ok_record ts d ok status phase error q :
  infos_ok q -> infos_ok (record ts d ok status phase error q).1.
Proof.
  intros Hq. unfold record.
  repeat (case_match; simpl; try exact Hq); apply infos_ok_mark; try exact Hq;
    unfold info_ok; simpl in *; breflect; split_and!; try done; lia.
Qed.

Lemma infos_ok_seed_row ts row acc :
  infos_ok acc.1 -> infos_ok (seed_row ts row acc).1.
Proof.
  destruct row as [[d total] n], acc as [q newly]. intros Hq. unfold seed_row.
  case_match; [|exact Hq]. simpl. apply infos_ok_mark; [exact Hq|].
  unfold info_ok. simpl in *. breflect. split_and!; try done; lia.
Qed.

Lemma infos_ok_seed_dns_row ts row acc :
  infos_ok acc.1 -> infos_ok (seed_dns_row ts row acc).1.
Proof.
  destruct row as [[d n] k], acc as [q newly]. intros Hq. unfold seed_dns_row.
  case_match; [|exact Hq]. simpl. apply infos_ok_mark; [exact Hq|].
  unfold info_ok. simpl in *. breflect. split_and!; try done; lia.
Qed.

Lemma fold_left_inv {A B} (P : A -> Prop) (f : A -> B -> A) l a :
  (forall a b, P a -> P (f a b)) -> P a -> P (fold_left f l a).
Proof. intros Hf. revert a. induction l as [|b l IH]; simpl; auto. Qed.

(** The operations of a campaign on the tracker. *)
Inductive quar_step : DomainQuarantine -> DomainQuarantine -> Prop :=
  | step_record ts d ok status phase error q :
      quar_step q (record ts d ok status phase error q).1
  | step_seed ts rows q : quar_step q (seed_from_rows ts rows q).1
  | step_seed_dns ts rows q : quar_step q (seed_dns_resolve_from_rows ts rows q).1.

(** Invariant of every reachable tracker, whatever mix of seeding and probes:
    each stored record is about its own domain, says 0 passes, and its failure
    count reached the threshold of the path that stored it. *)
Theorem quarantine_records_justified c q :
  rtc quar_step (new_quarantine c) q -> infos_ok q.
Proof.
  assert (Hstep : forall q q', quar_step q q' -> infos_ok q -> infos_ok q').
  { intros q1 q2 [ts d ok status phase error q0|ts rows q0|ts rows q0] Hq.
    - by apply infos_ok_record.
    - unfold seed_from_rows. case_match; [|done].
      apply (fold_left_inv (fun acc => infos_ok acc.1)); [|done].
      intros acc row. apply infos_ok_seed_row.
    - unfold seed_dns_resolve_from_rows. case_match; [|done].
      apply (fold_left_inv (fun acc => infos_ok acc.1)); [|done].
      intros acc row. apply infos_ok_seed_dns_row. }
  intros H. assert (infos_ok (new_quarantine c)) as H0 by (by intros d i).
  induction H as [q|q1 q2 q3 H12 _ IH]; [done|]. eauto.
Qed.

Lemma quarantine_records_justified_witness :
  infos_ok (run (new_quarantine demo_config) [demo_fail; demo_fail]).
Proof.
  apply (quarantine_records_justified demo_config).
  do 2 (eapply rtc_l; [apply (step_record "t" "bad.example" false None "tls_rst_at_sni" "reset")|]).
  apply rtc_refl.
Defined.

(** A threshold setting is coerced into 1..10000 or replaced by the default;
    only an infinite float escapes with an exception. *)
Theorem clamp_quarantine_min_bounds v default :
  match clamp_quarantine_min v default with
  | Some n => 1 <= n <= 10000 \/ n = default
  | None => exists s, v = SFloat (S754_infinity s)
  end.
Proof.
  unfold clamp_quarantine_min. destruct v as [|z|f|s|]; simpl; auto.
  - left. unfold QUARANTINE_MIN_LO, QUARANTINE_MIN_HI. lia.
  - destruct f; simpl; eauto; left; unfold QUARANTINE_MIN_LO, QUARANTINE_MIN_HI; lia.
  - destruct (py_int s); auto. left. unfold QUARANTINE_MIN_LO, QUARANTINE_MIN_HI. lia.
Qed.

(** ** The denylist file *)

Lemma split_char_app sep a b :
  split_char sep (a +:+ String sep b) = split_char sep a ++ split_char sep b.
Proof.
  induction a as [|c a IH].
  - rewrite append_nil_l. simpl. by rewrite Ascii.eqb_refl.
  - rewrite append_cons. simpl. rewrite IH. destruct (Ascii.eqb c sep); [done|].
    pose proof (split_char_ne sep a). by destruct (split_char sep a).
Qed.

Lemma read_text_append a b : read_text (a +:+ b) = read_text a +:+ read_text b.
Proof. apply smap_append. Qed.

(** A text whose next character starts a new line. *)
Definition line_complete (text : string) : Prop :=
  text = EmptyString \/ exists t, text = t +:+ nl.

Definition tokens (text : string) : gset string := existing_tokens (Some text).

Lemma elem_of_tokens w text :
  w ∈ tokens text <-> nonempty w = true /\ exists l, l ∈ file_lines (Some text) /\ w = line_token l.
Proof.
  unfold tokens, existing_tokens. rewrite elem_of_list_to_set, list_elem_of_filter, list_elem_of_fmap.
  naive_solver.
Qed.

Lemma file_lines_app a b :
  file_lines (Some (a +:+ nl +:+ b)) = file_lines (Some a) ++ file_lines (Some b).
Proof.
  unfold file_lines. simpl. rewrite !read_text_append.
  change (read_text nl) with (String newline EmptyString). rewrite append_cons, append_nil_l.
  apply split_char_app.
Qed.

Lemma tokens_app a b : line_complete a -> tokens (a +:+ b) = tokens a ∪ tokens b.
Proof.
  intros [->|[t ->]]; rewrite ?append_assoc; apply set_eq; intros w;
    rewrite elem_of_union, !elem_of_tokens.
  - rewrite append_nil_l. split; [auto|]. intros [[Hn (l & Hl & ->)]|]; [|done].
    apply list_elem_of_singleton in Hl as ->. done.
  - rewrite file_lines_app. setoid_rewrite elem_of_app.
    rewrite <- (append_nil_r nl), file_lines_app. setoid_rewrite elem_of_app.
    assert (forall l, l ∈ file_lines (Some EmptyString) -> line_token l = EmptyString) as He.
    { intros l Hl. by apply list_elem_of_singleton in Hl as ->. }
    split.
    + intros [Hn (l & [Hl|Hl] & ->)]; [left|right]; eauto.
    + intros [[Hn (l & [Hl|Hl] & ->)]|[Hn (l & Hl & ->)]]; eauto 6.
      by rewrite (He _ Hl) in Hn.
Qed.

(** *** Cleaned names *)

Lemma is_space_lower c : is_space (lower_char c) = is_space c.
Proof. by destruct c as [[] [] [] [] [] [] [] []]. Qed.

Lemma lower_lstrip s : lower (lstrip_by is_space s) = lstrip_by is_space (lower s).
Proof.
  induction s as [|c s IH]; [done|]. unfold lower in *. simpl. rewrite is_space_lower.
  by destruct (is_space c).
Qed.

Lemma lower_rstrip s : lower (rstrip_by is_space s) = rstrip_by is_space (lower s).
Proof.
  induction s as [|c s IH]; [done|]. unfold lower in *. simpl. rewrite <- IH, is_space_lower.
  destruct (rstrip_by is_space s); simpl; [by destruct (is_space c)|done].
Qed.

Lemma lower_strip s : lower (strip s) = strip (lower s).
Proof. unfold strip, strip_by. by rewrite lower_rstrip, lower_lstrip. Qed.

(** The cleaned name of an entry, and the names the file can carry. *)
Definition clean (e : deny_entry) : string := lower (strip (e_domain e)).
Definition name_char (c : ascii) : bool :=
  negb (Ascii.eqb c "#" || Ascii.eqb c newline || Ascii.eqb c "013").
Definition fileable (e : deny_entry) : Prop := sforall name_char (clean e) = true.

Lemma split_char_first sep a b :
  sforall (fun c => negb (Ascii.eqb c sep)) a = true ->
  exists w ws, split_char sep (a +:+ b) = (a +:+ w) :: ws /\ split_char sep b = w :: ws.
Proof.
  induction a as [|c a IH]; intros H.
  - pose proof (split_char_ne sep b). destruct (split_char sep b) as [|w ws] eqn:E; [done|].
    rewrite append_nil_l. eauto.
  - simpl in H. apply andb_true_iff in H as [Hc%negb_true_iff H].
    destruct (IH H) as (w & ws & H1 & H2). exists w, ws. rewrite !append_cons. simpl.
    by rewrite Hc, H1.
Qed.

(** A written line makes its domain a token of the file. *)
Lemma deny_line_token e t :
  fileable e -> nonempty (clean e) = true -> clean e ∈ tokens (deny_line (clean e) e +:+ t).
Proof.
  intros Hf Hn. apply elem_of_tokens. split; [done|].
  unfold file_lines, deny_line. simpl. set (tail := e_ts e +:+ _).
  rewrite !append_assoc. rewrite !read_text_append.
  assert (read_text (clean e) = clean e) as ->.
  { unfold fileable in Hf. revert Hf. generalize (clean e) as w.
    induction w as [|c w IH]; intros Hf; [done|]. unfold read_text in *. simpl in *.
    apply andb_true_iff in Hf as [Hc Hf]. rewrite IH by done.
    unfold name_char in Hc. destruct (Ascii.eqb c "013") eqn:E; [|done].
    by rewrite !orb_true_r in Hc. }
  change (read_text "  # auto-quarantine ") with "  # auto-quarantine ".
  set (r := read_text tail +:+ _). set (u := " auto-quarantine " +:+ r).
  replace (clean e +:+ "  # auto-quarantine " +:+ r)
    with (((clean e +:+ "  ") +:+ String "#" EmptyString) +:+ u)
    by (unfold u; rewrite !append_assoc; reflexivity).
  assert (sforall (fun c => negb (Ascii.eqb c "#")) (clean e +:+ "  ") = true) as Hh.
  { rewrite sforall_append, andb_true_r. eapply sforall_impl; [|exact Hf].
    unfold name_char. intros c. by destruct (Ascii.eqb c "#"). }
  destruct (split_char_first newline ((clean e +:+ "  ") +:+ String "#" EmptyString) u) as (w & ws & -> & _).
  { rewrite !sforall_append, !andb_true_r. eapply sforall_impl; [|exact Hf].
    unfold name_char. intros c. destruct (Ascii.eqb c newline); [|done]. by rewrite orb_true_r. }
  eexists. split; [by left|]. unfold line_token.
  rewrite append_assoc, append_cons, append_nil_l, before_app by done.
  assert (clean e = strip (lower (e_domain e))) as -> by (unfold clean; apply lower_strip).
  by rewrite strip_app_blank, lower_strip, lower_idemp.
Qed.

(** Every name handed over is a token of the file afterwards, and nothing more
    is written for a name that is one already. *)
Lemma append_entries_covers existing es e :
  Forall fileable es -> e ∈ es -> nonempty (clean e) = true ->
  clean e ∈ existing \/ clean e ∈ tokens (append_entries existing es).1.
Proof.
  revert existing. induction es as [|e' es IH]; intros existing Hf He Hn; [by apply not_elem_of_nil in He|].
  apply Forall_cons in Hf as [Hf' Hf]. simpl. fold (clean e').
  destruct (_ || _) eqn:E.
  - apply elem_of_cons in He as [->|He]; [|by apply IH].
    left. breflect. destruct E as [E|E]; [by rewrite Hn in E|done].
  - destruct (append_entries ({[clean e']} ∪ existing) es) as [text written] eqn:Ea. simpl.
    destruct (decide (clean e = clean e')) as [Heq|Hne].
    { right. rewrite Heq in *. by apply deny_line_token. }
    apply elem_of_cons in He as [->|He]; [done|].
    specialize (IH ({[clean e']} ∪ existing) Hf He Hn). rewrite Ea in IH. simpl in IH.
    destruct IH as [IH|IH]; [left; set_solver|]. right.
    rewrite tokens_app; [set_solver|]. right. unfold deny_line.
    eexists. by rewrite <- !append_assoc.
Qed.

Lemma append_entries_skip existing es :
  (forall e, e ∈ es -> nonempty (clean e) = true -> clean e ∈ existing) ->
  append_entries existing es = (EmptyString, []).
Proof.
  intros H. induction es as [|e es IH]; [done|]. simpl. fold (clean e).
  destruct (nonempty (clean e)) eqn:Hn; simpl.
  - rewrite bool_decide_eq_true_2 by (apply H; [by left|done]). apply IH. intros. apply H; [by right|done].
  - apply IH. intros. apply H; [by right|done].
Qed.

(** Appending to a denylist whose last line is complete is idempotent: a
    second run with the same entries writes nothing, since every name is found
    among the file's tokens. The names are host names: no hash sign, no line
    break. *)
Theorem append_denylist_idempotent text es :
  line_complete (default EmptyString text) -> Forall fileable es ->
  let '(text', _) := append_denylist text es in
  append_denylist (Some text') es = (text', []).
Proof.
  intros Hc Hf. unfold append_denylist at 1.
  destruct (append_entries (existing_tokens text) es) as [added written] eqn:E.
  unfold append_denylist. rewrite append_entries_skip; [by rewrite append_nil_r|].
  intros e He Hn. change (existing_tokens (Some ?t)) with (tokens t).
  rewrite tokens_app by done. apply elem_of_union.
  pose proof (append_entries_covers (existing_tokens text) es e Hf He Hn) as H. rewrite E in H.
  destruct H as [H|H]; [left|by right].
  by destruct text.
Qed.

Definition demo_entry : deny_entry := DenyEntry " Bad.Example " "2026-01-01T00:00:00" "0 PASS in 2 attempts".

Lemma append_denylist_idempotent_witness :
  let '(text', _) := append_denylist (Some ("old.example" +:+ nl)) [demo_entry] in
  append_denylist (Some text') [demo_entry] = (text', []).
Proof.
  apply append_denylist_idempotent; [right; by exists "old.example"|].
  repeat constructor.
Defined.

(** When the file does not end with a newline the appended line is glued to
    the last one: the file then names neither domain. *)
Theorem append_denylist_glues_last_line :
  let text' := (append_denylist (Some "old.example") [demo_entry]).1 in
  "old.example" ∉ tokens text' /\ "bad.example" ∉ tokens text' /\
  "old.examplebad.example" ∈ tokens text'.
Proof. split_and!; refine (bool_decide_unpack _ _); vm_compute; exact I. Qed.
