(* ===== verification/FamilyAxes.v ===== *)
(** * Axis tables of the strategy families: [engine/family_axes.py]

    The scan constants and the table of axis values each family expands over.
    An axis value is a Python literal, [axval]. *)

From stdpp Require Import base numbers list strings.
From Stdlib Require Import ZArith Ascii.
From S2P Require Import Prelude PyStr.

#[local] Open Scope Z_scope.

Inductive axval : Type :=
  | VNone
  | VBool (b : bool)
  | VInt (z : Z)
  | VStr (s : string)
  | VList (l : list axval)
  | VTuple (l : list axval).

Definition strs (l : list string) : axval := VList (VStr <$> l).
Definition ints (l : list Z) : axval := VList (VInt <$> l).

(** ** Python's view of a value *)

Definition truthy (v : axval) : bool :=
  match v with
  | VNone => false | VBool b => b | VInt z => negb (Z.eqb z 0) | VStr s => nonempty s
  | VList l | VTuple l => negb (bool_decide (l = []))
  end.

Fixpoint py_repr (v : axval) : string :=
  match v with
  | VNone => "None"
  | VBool b => if b then "True" else "False"
  | VInt z => str_of_Z z
  | VStr s => repr_str s
  | VList l => "[" +:+ join ", " (map py_repr l) +:+ "]"
  | VTuple l =>
      "(" +:+ join ", " (map py_repr l) +:+ (match l with [_] => ",)" | _ => ")" end)
  end.

(** [str(v)], which is also what an f-string writes. *)
Definition py_str (v : axval) : string := match v with VStr s => s | _ => py_repr v end.

Example py_str_ex :
  py_str <$> [VStr "a'b"; VTuple [VStr "a'b"; VInt (-2)]; VTuple [VNone]; VList [VBool true; VStr "x\y"]] =
  ["a'b"; "(" +:+ String double_quote ("a'b" +:+ String double_quote EmptyString) +:+ ", -2)"; "(None,)";
   "[True, 'x\\y']"].
Proof. vm_compute. reflexivity. Qed.

(** [iter(v)]: [None] is a [TypeError]. *)
Fixpoint chars (s : string) : list string :=
  match s with String c s => String c EmptyString :: chars s | EmptyString => [] end.
Definition py_iter (v : axval) : option (list axval) :=
  match v with
  | VList l | VTuple l => Some l
  | VStr s => Some (VStr <$> chars s)
  | _ => None
  end.

(** [v[i]] for a non-negative index: [None] is an error. *)
Definition py_index (v : axval) (i : nat) : option axval := l ← py_iter v; l !! i.

(** ** The tables *)

(** [_axes(...)]: a read-only mapping from axis names to values. *)
Abbreviation axes := (list (string * axval)).

Definition ALL_FOOLINGS_TCP : list string :=
  [""; "tcp_md5"; "badsum"; "tcp_seq=-3000"; "tcp_seq=1000000"; "tcp_ack=-66000:tcp_ts_up";
   "tcp_ts=-1000"; "tcp_flags_unset=ACK"; "tcp_flags_set=SYN"].

Definition ALL_FOOLINGS_UDP : list string :=
  ["badsum"].

Definition ALL_FOOLINGS_IPV6 : list string :=
  ["ip6_hopbyhop"; "ip6_hopbyhop:ip6_hopbyhop2"; "ip6_destopt"; "ip6_routing"; "ip6_ah"].

Definition FAST_FOOLINGS_IPV6 : list string :=
  ["ip6_hopbyhop"; "ip6_destopt"].

Definition ALL_REPEATS : list Z :=
  [6; 3; 1; 8; 10; 11; 12; 2; 4; 5; 7; 9; 14; 15; 20].

Definition ALL_TTL : list Z :=
  [1; 5; 7; 12; 63; 64; 127; 128; 255].

Definition ALL_AUTOTTL : list string :=
  ["-1,3-20"; "-2,5-15"; "-3,7-12"; "-4,3-20"; "-5,5-15"].

Definition ALL_SPLIT_POSITIONS : list string :=
  ["1"; "2"; "3"; "23"; "45"; "midsld"; "sniext+1"; "sniext+4"; "host+1"; "1,midsld";
   "1,midsld,1220"; "1,sniext+1,host+1,midsld-2,midsld,midsld+2,endhost-1"].

Definition ALL_SEQOVL : list Z :=
  [1; 568; 652; 664; 679; 681].

Definition TLS_MODS : list string :=
  [""; "rnd"; "rnd,dupsid"; "rnd,dupsid,padencap"; "rnd,dupsid,sni=www.google.com";
   "rnd,dupsid,sni=fonts.google.com"; "rnd,dupsid,sni=ya.ru"].

Definition ALL_BLOBS_TCP : list string :=
  ["0x00000000"; "stun"; "max_ru"; "google"; "4pda"].

Definition FAST_FOOLINGS_TCP : list string :=
  ["tcp_ts=-1000"; ""; "tcp_md5"; "badsum"; "tcp_ack=-66000:tcp_ts_up"; "tcp_md5:tcp_ts=-1000";
   "tcp_seq=-3000"; "tcp_seq=1000000"; "tcp_flags_unset=ACK"; "tcp_flags_set=SYN"].

Definition FAST_REPEATS : list Z :=
  [6; 8; 3; 11; 12; 4; 14].

Definition axes_fake : axes :=
  [ ("blobs", strs ALL_BLOBS_TCP);
    ("repeats", ints FAST_REPEATS);
    ("foolings", strs FAST_FOOLINGS_TCP);
    ("ttl_static", ints ALL_TTL);
    ("ttl_auto", strs ALL_AUTOTTL);
    ("tls_mods", strs (take 3 TLS_MODS));
    ("ack_drop", VBool true);
    ("send_md5", VBool true) ].

Definition axes_hostfake : axes :=
  [ ("foolings", strs (filter (fun f => nonempty f = true) (take 5 FAST_FOOLINGS_TCP)));
    ("variants", VList [VStr "base"; VStr "disorder"; VStr "nofake1"; VStr "midhost=midsld";
     VStr "nodrop"]);
    ("ttl_static", ints ALL_TTL);
    ("ttl_auto", strs ALL_AUTOTTL);
    ("ack_drop", VBool true);
    ("send_md5", VBool true) ].

Definition axes_multisplit : axes :=
  [ ("repeats", VList [VInt 1; VInt 6; VInt 11]);
    ("positions", strs ALL_SPLIT_POSITIONS);
    ("foolings", strs (take 4 FAST_FOOLINGS_TCP));
    ("seqovl", ints ALL_SEQOVL);
    ("seqovl_blobs", strs ALL_BLOBS_TCP);
    ("ttl_static", ints ALL_TTL);
    ("ttl_auto", strs ALL_AUTOTTL);
    ("padencap", VBool true) ].

Definition axes_multidisorder : axes :=
  [ ("positions", VList [VStr "1"; VStr "2"; VStr "midsld"; VStr "method+2"; VStr "1,midsld"]);
    ("foolings", strs (take 4 FAST_FOOLINGS_TCP));
    ("seqovl", VList [VInt 664; VInt 681]);
    ("seqovl_blobs", strs ALL_BLOBS_TCP);
    ("padencap", VBool true) ].

Definition axes_syndata : axes :=
  [ ("blobs", VList [VStr "0x1603"; VStr "fake_default_tls"; VStr ""]);
    ("tls_mods", VList [VStr ""; VStr "rnd,dupsid"; VStr "rnd,dupsid,sni=www.google.com"]);
    ("plus_split", VList [VBool false; VBool true]);
    ("plus_hostfake", VBool true) ].

Definition axes_tcpseg : axes :=
  [ ("positions", VList [VStr "0,1"; VStr "0,midsld"]);
    ("repeats", VList [VInt 1; VInt 20; VInt 100; VInt 260]);
    ("ip_id", VStr "rnd") ].

Definition axes_oob : axes :=
  [ ("urps", VList [VStr "b"; VStr "0"; VStr "2"; VStr "midsld"]);
    ("in_range", VStr "-s1") ].

Definition axes_multi_fake : axes :=
  [ ("blob_pairs", VList [VTuple [VStr "stun"; VStr "max_ru"]; VTuple [VStr "max_ru";
   VStr "stun"]; VTuple [VStr "stun"; VStr "google"]; VTuple [VStr "google"; VStr "stun"];
   VTuple [VStr "max_ru"; VStr "google"]; VTuple [VStr "google"; VStr "max_ru"];
   VTuple [VStr "stun"; VStr "4pda"]; VTuple [VStr "4pda"; VStr "stun"]]);
    ("repeat_pairs", VList [VTuple [VInt 6; VInt 6]; VTuple [VInt 6; VInt 3]; VTuple [VInt 8;
     VInt 6]; VTuple [VInt 3; VInt 6]]);
    ("foolings", VList [VStr "tcp_ts=-1000"; VStr "tcp_md5"; VStr "badsum"; VStr ""]) ].

Definition axes_triple_fake : axes :=
  [ ("triples", VList [VTuple [VStr "stun"; VStr "max_ru"; VStr "google"]; VTuple [VStr "stun";
   VStr "google"; VStr "max_ru"]; VTuple [VStr "max_ru"; VStr "stun"; VStr "google"];
   VTuple [VStr "google"; VStr "stun"; VStr "max_ru"]]);
    ("repeats", VList [VInt 6; VInt 3]);
    ("foolings", VList [VStr "tcp_ts=-1000"; VStr "badsum"; VStr ""]) ].

Definition axes_fake_multisplit : axes :=
  [ ("blob_pairs", VList [VTuple [VStr "stun"; VStr "max_ru"]; VTuple [VStr "stun";
   VStr "google"]; VTuple [VStr "max_ru"; VStr "google"]; VTuple [VStr "stun"; VStr "4pda"];
   VTuple [VStr "google"; VStr "max_ru"]; VTuple [VStr "4pda"; VStr "google"]]);
    ("pattern_blobs", strs ALL_BLOBS_TCP);
    ("seqovl", VList [VInt 664; VInt 681; VInt 652]);
    ("positions", VList [VStr "2"; VStr "1,midsld"; VStr "midsld"]);
    ("repeats", VList [VInt 6; VInt 3; VInt 8]);
    ("foolings", VList [VStr "tcp_ts=-1000"; VStr "tcp_md5"; VStr "badsum"; VStr ""]) ].

Definition axes_fake_multisplit_hostfake : axes :=
  [ ("blob_pairs", VList [VTuple [VStr "google"; VStr "max_ru"]; VTuple [VStr "stun";
   VStr "max_ru"]; VTuple [VStr "stun"; VStr "google"]; VTuple [VStr "max_ru";
   VStr "google"]]);
    ("seqovl", VList [VInt 664; VInt 681]);
    ("positions", VList [VStr "1"; VStr "2"]);
    ("repeats", VList [VInt 6; VInt 8]);
    ("foolings", VList [VStr "tcp_ts=-1000"; VStr "tcp_md5"; VStr "badsum"]);
    ("hf_hosts", VList [VStr "www.google.com"; VStr "fonts.google.com"]) ].

Definition axes_fake_multidisorder : axes :=
  [ ("blobs", strs ALL_BLOBS_TCP);
    ("positions", VList [VStr "1"; VStr "2"; VStr "midsld"; VStr "method+2"]);
    ("repeats", VList [VInt 6; VInt 3; VInt 8; VInt 11]);
    ("foolings", VList [VStr "tcp_ts=-1000"; VStr "tcp_md5"; VStr "badsum"; VStr ""]) ].

Definition axes_fakedsplit : axes :=
  [ ("positions", VList [VStr "1"; VStr "midsld"; VStr "sniext+1"; VStr "method+2"]);
    ("pattern_blobs", strs ALL_BLOBS_TCP);
    ("foolings", strs (filter (fun f => nonempty f = true) (take 4 FAST_FOOLINGS_TCP)));
    ("repeats", VList [VInt 6; VInt 11]);
    ("ack_drop", VBool true);
    ("send_md5", VBool true) ].

Definition axes_fakeddisorder : axes :=
  [ ("positions", VList [VStr "1"; VStr "midsld"; VStr "method+2"]);
    ("pattern_blobs", strs ALL_BLOBS_TCP);
    ("foolings", strs (filter (fun f => nonempty f = true) (take 4 FAST_FOOLINGS_TCP)));
    ("repeats", VList [VInt 6; VInt 11]);
    ("ack_drop", VBool true);
    ("send_md5", VBool true) ].

Definition axes_fake_fakedsplit : axes :=
  [ ("blobs", strs ALL_BLOBS_TCP);
    ("positions", VList [VStr "1"; VStr "midsld"; VStr "method+2"]);
    ("pattern_blobs", strs ALL_BLOBS_TCP);
    ("repeats", VList [VInt 6; VInt 3; VInt 8]);
    ("foolings", VList [VStr "tcp_ts=-1000"; VStr "tcp_md5"; VStr "badsum"]) ].

Definition axes_tcp_ipfrag : axes :=
  [ ("positions", VList [VInt 8; VInt 16; VInt 24; VInt 32; VInt 40; VInt 48; VInt 64]);
    ("repeats", VList [VInt 6; VInt 11; VInt 4]);
    ("combo_blobs", VList [VStr ""; VStr "stun"; VStr "google"]);
    ("disorder", VList [VBool false; VBool true]);
    ("ipfrag_next", VList [VNone; VInt 255]) ].

Definition axes_fake_hostfake : axes :=
  [ ("blobs", strs ALL_BLOBS_TCP);
    ("repeats", VList [VInt 6; VInt 3; VInt 8; VInt 11; VInt 2]);
    ("foolings", VList [VStr "tcp_ts=-1000"; VStr "tcp_md5"; VStr "badsum"]);
    ("hf_variants", VList [VStr "base"; VStr "disorder_after"]);
    ("ack_drop", VBool true);
    ("send_md5", VBool true) ].

Definition axes_rst_fake : axes :=
  [ ("mods", VList [VStr "rst:badsum"; VStr "rst:ip_ttl=10"; VStr "rst:ip_ttl=1";
   VStr "rst:tcp_md5"; VStr "rst:rstack:badsum"; VStr "rst:rstack:ip_ttl=10";
   VStr "rst:rstack:ip_ttl=1"; VStr "rst:badsum:tcp_md5"]);
    ("flag_fakes", VList [VStr "send:tcp_flags_set=FIN,RST,ACK,PSH,URG,ECE:badsum";
     VStr "send:tcp_flags_set=FIN,RST,ECE,ACK,CWR:ip_ttl=10";
     VStr "send:tcp_flags_set=FIN,RST,ACK,PSH,URG:tcp_md5";
     VStr "send:tcp_flags_set=FIN:tcp_md5"]) ].

Definition axes_synack : axes :=
  [ ("modes", VList [VStr "synack"; VStr "synack"; VStr "acksyn"]);
    ("foolings", VList [VStr ""]) ].

Definition axes_wssize : axes :=
  [ ("sizes", VList [VStr "wssize:wsize=1:scale=6"]);
    ("combos", VList [VBool false; VBool true]) ].

Definition axes_geneva_fool : axes :=
  [ ("fools", VList [VStr "fool=bs_dataofs:badsum"; VStr "fool=bs_dataofs:ip_ttl=10";
   VStr "fool=bs_iplen:len=64"; VStr "fool=bs_iplen:len=78"; VStr "fool=bs_corrupt_load";
   VStr "fool=bs_corrupt_load:badsum"; VStr "fool=bs_corrupt_load:ip_ttl=8";
   VStr "fool=bs_corrupt_wscale"; VStr "fool=bs_corrupt_uto"]);
    ("repeats", VList [VInt 1; VInt 2]) ].

Definition axes_udp_discord : axes :=
  [ ("blobs", VList [VStr "discord_udp"; VStr "stun"]);
    ("repeats", VList [VInt 6; VInt 12; VInt 3; VInt 2]);
    ("ttl_static", VList [VInt 5]);
    ("ttl_auto", VList [VStr "-2,3-20"]) ].

Definition axes_udp_quic : axes :=
  [ ("port_ranges", VList [VStr "443"]);
    ("blobs", VList [VStr "quic_google"; VStr "quic_dbank"; VStr "quic_gv_kyber_1";
     VStr "quic_gv_kyber_2"]);
    ("repeats", VList [VInt 1; VInt 2; VInt 5; VInt 6; VInt 10; VInt 11; VInt 20]) ].

Definition axes_udp_game : axes :=
  [ ("port_ranges", VList [VStr "1024-65535"]);
    ("blobs", VList [VStr "quic_initial_dbankcloud_ru"; VStr "game_udp"]);
    ("repeats", VList [VInt 10; VInt 12; VInt 14]);
    ("out_range", VList [VNone; VStr "n1-<n3"; VStr "n1-<n4"; VStr "n1-<n5"]) ].

Definition axes_udp_multiblob : axes :=
  [ ("profiles", VList [VTuple [VStr "stun"; VStr "discord_udp"]; VTuple [VStr "quic_dbank";
   VStr "discord_udp"]; VTuple [VStr "game_udp"; VStr "discord_udp"]]);
    ("repeats", VList [VInt 6; VInt 10; VInt 12]) ].

Definition axes_http_simple : axes :=
  [ ("variants", VList [VStr "http_hostcase"; VStr "http_methodeol";
   VStr "http_hostcase:spell=hoSt"; VStr "http_domcase"; VStr "http_unixeol"]) ].

Definition axes_http_fake : axes :=
  [ ("blobs", VList [VStr "fake_default_http"; VStr "0x00000000"]);
    ("repeats", ints (take 4 FAST_REPEATS));
    ("foolings", strs (take 4 FAST_FOOLINGS_TCP)) ].

Definition axes_http_tls_dual : axes :=
  [ ("http_blobs", VList [VStr "fake_default_http"]);
    ("repeats", VList [VInt 6; VInt 3]);
    ("foolings", VList [VStr "tcp_ts=-1000"; VStr "badsum"; VStr ""]) ].

Definition axes_quic_fake : axes :=
  [ ("blobs", VList [VStr "fake_default_quic"; VStr "quic_initial"; VStr "quic_google";
   VStr "quic_vk"]);
    ("repeats", VList [VInt 1; VInt 2; VInt 5; VInt 6; VInt 10; VInt 11; VInt 20]);
    ("foolings", VList [VStr ""; VStr "badsum"]);
    ("ip6_send_drop", VBool true) ].

Definition axes_quic_gv : axes :=
  [ ("blobs", VList [VStr "quic_gv_kyber_1"; VStr "quic_gv_kyber_2"; VStr "quic_google"]);
    ("repeats", VList [VInt 1; VInt 2; VInt 5; VInt 6; VInt 11]) ].

Definition axes_quic_ipfrag : axes :=
  [ ("positions", VList [VInt 8; VInt 16; VInt 24; VInt 32; VInt 40; VInt 48; VInt 64]);
    ("repeats", VList [VInt 6; VInt 11; VInt 4]);
    ("disorder", VList [VBool false; VBool true]);
    ("ipfrag_next", VList [VNone; VInt 255]) ].

(** Insertion order is the order the type "all" expands in. *)
Definition FAMILY_AXES : list (string * axes) :=
  [ ("fake", axes_fake);
    ("hostfake", axes_hostfake);
    ("multisplit", axes_multisplit);
    ("multidisorder", axes_multidisorder);
    ("syndata", axes_syndata);
    ("tcpseg", axes_tcpseg);
    ("oob", axes_oob);
    ("multi_fake", axes_multi_fake);
    ("triple_fake", axes_triple_fake);
    ("fake_multisplit", axes_fake_multisplit);
    ("fake_multisplit_hostfake", axes_fake_multisplit_hostfake);
    ("fake_multidisorder", axes_fake_multidisorder);
    ("fakedsplit", axes_fakedsplit);
    ("fakeddisorder", axes_fakeddisorder);
    ("fake_fakedsplit", axes_fake_fakedsplit);
    ("tcp_ipfrag", axes_tcp_ipfrag);
    ("fake_hostfake", axes_fake_hostfake);
    ("rst_fake", axes_rst_fake);
    ("synack", axes_synack);
    ("wssize", axes_wssize);
    ("geneva_fool", axes_geneva_fool);
    ("udp_discord", axes_udp_discord);
    ("udp_quic", axes_udp_quic);
    ("udp_game", axes_udp_game);
    ("udp_multiblob", axes_udp_multiblob);
    ("http_simple", axes_http_simple);
    ("http_fake", axes_http_fake);
    ("http_tls_dual", axes_http_tls_dual);
    ("quic_fake", axes_quic_fake);
    ("quic_gv", axes_quic_gv);
    ("quic_ipfrag", axes_quic_ipfrag) ].
