(* ===== verification/Families.v ===== *)
(** * Strategy families: [engine/family_spec.py], [engine/family_needs.py],
    [engine/generators/base.py]

    The registry of families and the tables derived from it, the
    classification of a strategy item into its family, and the family order of
    a scan. *)

From stdpp Require Import base numbers list strings gmap sorting.
From Stdlib Require Import ZArith Lia Ascii.
From S2P Require Import Prelude PyStr PyDict FamilyAxes.

(** ** Strategy items *)

Record StrategyItem : Type := Item {
  label : string;
  strategy : string;
  is_config : bool;
  protocol : string
}.

#[export] Instance StrategyItem_eq_dec : EqDecision StrategyItem.
Proof. solve_decision. Defined.

(** [StrategyItem(label=..., strategy=...)] with the default fields. *)
Definition mk_item (l s : string) : StrategyItem := Item l s false "tls12".

(** ** The registry *)

Record FamilySpec : Type := Spec {
  name : string;
  protocols : list string;
  expander : string;
  spec_axes : axes;
  label_prefixes : list string;
  aliases : list string;
  spec_triage_tags : list string;
  default_tcp : bool
}.

(** [FAMILY_AXES[name]] raises [KeyError] at import for an unknown name;
    [registry_has_axes] shows that no entry does. *)
Definition _f (n : string) (protos prefixes als triage : list string) (dflt : bool) : FamilySpec :=
  Spec n protos ("_fam_" +:+ n) (default [] (dget n FAMILY_AXES)) prefixes als triage dflt.

Definition TRIAGE_TO_FAMILIES : list (string * list string) :=
  [ ("stall", ["wssize"]);
    ("silent_drop", ["fake"; "hostfake"; "fakedsplit"; "multisplit"; "multi_fake"]);
    ("rst_at_sni", ["multisplit"; "fakedsplit"; "multidisorder"]);
    ("quic_drop", ["quic_fake"; "quic_ipfrag"]);
    ("udp_blocked", ["udp_discord"]) ].

Definition DEFAULT_FAMILIES : list string := ["fake"; "hostfake"; "fakedsplit"; "multisplit"].

Definition _triage (n : string) : list string :=
  (filter (fun tf => n ∈ tf.2) TRIAGE_TO_FAMILIES).*1.

Definition REGISTRY : list FamilySpec :=
  [ _f "fake" ["tcp"] ["std_fake_"; "fake_"] [] (_triage "fake") true;
    _f "rst_fake" ["tcp"] ["std_rst_"] [] [] false;
    _f "synack" ["tcp"] ["std_synack"] [] [] false;
    _f "geneva_fool" ["tcp"] ["std_gva_"] [] [] false;
    _f "wssize" ["tcp"] ["std_wssize"] [] (_triage "wssize") false;
    _f "hostfake" ["tcp"] ["std_hf_"; "std_hostfake_"; "hostfake_"] [] (_triage "hostfake") true;
    _f "multisplit" ["tcp"] ["std_split_"; "std_multisplit_"; "multisplit_"] []
      (_triage "multisplit") true;
    _f "multidisorder" ["tcp"] ["std_mdis_"; "multidisorder_"] [] (_triage "multidisorder") false;
    _f "syndata" ["tcp"] ["std_syn_"; "std_syndata_"] [] [] false;
    _f "tcpseg" ["tcp"] ["std_tcpseg_"] [] [] false;
    _f "oob" ["tcp"] ["std_oob_"] [] [] false;
    _f "multi_fake" ["tcp"] ["std_multi_fake_"; "std_multi_"; "fake_multi_"] []
      (_triage "multi_fake") false;
    _f "triple_fake" ["tcp"] ["std_triple_"] [] [] false;
    _f "fake_multisplit" ["tcp"] ["std_fms_"; "fake_multisplit_"] [] [] false;
    _f "fake_multidisorder" ["tcp"] ["std_fmd_"; "fake_multidisorder_"] [] [] false;
    _f "fake_multisplit_hostfake" ["tcp"] ["std_fmsh_"; "fake_multisplit_hostfake_"] [] [] false;
    _f "fake_hostfake" ["tcp"] ["std_fake_hostfake_"; "std_fh_"; "fake_hostfake_"] [] [] false;
    _f "fakedsplit" ["tcp"] ["std_fds_"; "fakedsplit_"] [] (_triage "fakedsplit") true;
    _f "fakeddisorder" ["tcp"] ["std_fdd_"; "fakeddisorder_"] [] [] false;
    _f "fake_fakedsplit" ["tcp"] ["std_ffds_"; "fake_fakedsplit_"] [] [] false;
    _f "tcp_ipfrag" ["tcp"] ["std_tcp_fake_ipfrag_"; "std_tcp_ipfrag_"] ["ipfrag_tcp"] [] false;
    _f "http_simple" ["http"] [] [] [] false;
    _f "http_fake" ["http"] [] [] [] false;
    _f "http_tls_dual" ["http"] [] [] [] false;
    _f "udp_discord" ["udp_voice"] [] [] (_triage "udp_discord") false;
    _f "udp_multiblob" ["udp_voice"] [] [] [] false;
    _f "quic_fake" ["quic"] [] [] (_triage "quic_fake") false;
    _f "quic_gv" ["quic"] [] [] [] false;
    _f "quic_ipfrag" ["quic"] [] ["ipfrag_udp"] (_triage "quic_ipfrag") false;
    _f "udp_quic" ["quic"] [] [] [] false;
    _f "udp_game" ["udp_game"] [] [] [] false ].

Definition BY_NAME : list (string * FamilySpec) := dict_of ((fun s => (name s, s)) <$> REGISTRY).

Definition axes_for (n : string) : axes :=
  match dget n BY_NAME with Some s => spec_axes s | None => [] end.

Definition families_with (proto : string) : list string :=
  name <$> filter (fun s => proto ∈ protocols s) REGISTRY.

Definition TCP_FAMILIES : list string := Eval vm_compute in families_with "tcp".
Definition HTTP_FAMILIES : list string := Eval vm_compute in families_with "http".
Definition UDP_VOICE_FAMILIES : list string := Eval vm_compute in families_with "udp_voice".
Definition QUIC_HTTP3_FAMILIES : list string := Eval vm_compute in families_with "quic".
Definition UDP_QUIC_FAMILIES : list string :=
  Eval vm_compute in name <$> filter (fun s => name s ∈ ["udp_quic"; "udp_game"]) REGISTRY.
Definition FAMILY_ALIASES : list (string * string) :=
  Eval vm_compute in dict_of (s ← REGISTRY; (fun a => (a, name s)) <$> aliases s).
Definition LABEL_PREFIXES : list (string * list string) :=
  Eval vm_compute in
    dict_of ((fun s => (name s, label_prefixes s)) <$> filter (fun s => label_prefixes s <> []) REGISTRY).
Definition FAMILY_EXPANDERS : list (string * string) :=
  Eval vm_compute in dict_of ((fun s => (name s, expander s)) <$> REGISTRY).
Definition FAMILIES_BY_PROTOCOL : list (string * list string) :=
  [ ("udp_voice", UDP_VOICE_FAMILIES); ("udp_game", families_with "udp_game");
    ("http", HTTP_FAMILIES); ("quic", QUIC_HTTP3_FAMILIES) ].

(** [{name: idx for idx, name in enumerate(TCP_FAMILIES)}] *)
Definition FAMILY_RANK : list (string * nat) := zip TCP_FAMILIES (seq 0 (length TCP_FAMILIES)).

(** ** Classification *)

(** The pairs (prefix, family) whose prefix starts the label, in table order. *)
Definition prefix_hits (lab : string) : list (string * string) :=
  fp ← LABEL_PREFIXES;
  p ← fp.2;
  if startswith p lab then [(p, fp.1)] else [].

(** [sorted(..., key=lambda pair: len(pair[0]), reverse=True)] *)
Definition longer_prefix (a b : string * string) : bool :=
  Nat.ltb (String.length b.1) (String.length a.1).

Definition classify_strategy_family (item : StrategyItem) : string :=
  let lab := lower (label item) in
  match py_sorted longer_prefix (prefix_hits lab) with
  | (_, family) :: _ => family
  | [] =>
      let strat := lower (strategy item) in
      if contains "hostfakesplit" strat then "hostfake"
      else if contains "multisplit" strat || contains "multidisorder" strat then "multisplit"
      else if contains "fakedsplit" strat || contains "fakeddisorder" strat then "faked"
      else if startswith "std_" lab then
        match split_char "_" lab with
        | _ :: part :: _ => if decide (part ∈ TCP_FAMILIES) then part else "other"
        | _ => "other"
        end
      else "other"
  end.

(** [FAMILY_RANK.get(family, 999)] *)
Definition family_rank (f : string) : nat := dget_default f 999 FAMILY_RANK.

(** The key comparison of [sort_by_family]: tuples (rank, label). *)
Definition item_lt (a b : StrategyItem) : bool :=
  let ra := family_rank (classify_strategy_family a) in
  let rb := family_rank (classify_strategy_family b) in
  Nat.ltb ra rb || (Nat.eqb ra rb && str_lt (label a) (label b)).

Definition sort_by_family (items : list StrategyItem) : list StrategyItem :=
  py_sorted item_lt items.

Example classify_ex :
  classify_strategy_family <$>
    [mk_item "std_fake_stun_6" ""; mk_item "std_fake_hostfake_1" ""; mk_item "STD_FDS_1" "";
     mk_item "x" "fakedsplit:pos=1"; mk_item "std_oobx" ""; mk_item "std_oob" ""; mk_item "x" ""]
  = ["fake"; "fake_hostfake"; "fakedsplit"; "faked"; "other"; "oob"; "other"].
Proof. vm_compute. reflexivity. Qed.

(** ** The registry is consistent *)

Definition registry_names : list string := Eval vm_compute in name <$> REGISTRY.

(** Every family named by a table of the registry is a registered family with an
    axis table: nothing raises [KeyError] at import or in the generators. *)
Lemma registry_has_axes n : n ∈ registry_names -> n ∈ keys FAMILY_AXES.
Proof.
  revert n. apply Forall_forall. refine (bool_decide_unpack _ _). vm_compute. exact I.
Qed.

Lemma registry_names_NoDup : NoDup registry_names.
Proof. refine (bool_decide_unpack _ _). vm_compute. exact I. Qed.

Lemma triage_families_registered t fs n : (t, fs) ∈ TRIAGE_TO_FAMILIES -> n ∈ fs -> n ∈ registry_names.
Proof.
  intros H Hn. assert (Forall (fun tf => Forall (fun n => n ∈ registry_names) tf.2) TRIAGE_TO_FAMILIES) as Hall.
  { refine (bool_decide_unpack _ _). vm_compute. exact I. }
  rewrite Forall_forall in Hall. specialize (Hall _ H). rewrite Forall_forall in Hall. by apply Hall.
Qed.

Lemma default_families_registered n : n ∈ DEFAULT_FAMILIES -> n ∈ registry_names.
Proof. revert n. apply Forall_forall. refine (bool_decide_unpack _ _). vm_compute. exact I. Qed.

Definition table_prefixes : list (string * string) :=
  Eval vm_compute in (fp ← LABEL_PREFIXES; (fun p => (p, fp.1)) <$> fp.2).

Lemma table_prefixes_NoDup : NoDup table_prefixes.*1.
Proof. refine (bool_decide_unpack _ _). vm_compute. exact I. Qed.

Lemma table_families_tcp p f : (p, f) ∈ table_prefixes -> f ∈ TCP_FAMILIES.
Proof.
  assert (Forall (fun pf => pf.2 ∈ TCP_FAMILIES) table_prefixes) as H.
  { refine (bool_decide_unpack _ _). vm_compute. exact I. }
  rewrite Forall_forall in H. apply (H (p, f)).
Qed.

Lemma elem_of_prefix_hits lab p f :
  (p, f) ∈ prefix_hits lab <-> (p, f) ∈ table_prefixes /\ startswith p lab = true.
Proof.
  assert (table_prefixes = (fp ← LABEL_PREFIXES; (fun p => (p, fp.1)) <$> fp.2)) as -> by reflexivity.
  unfold prefix_hits. rewrite !list_elem_of_bind. split.
  - intros ([g ps] & Hin & Hg). apply list_elem_of_bind in Hin as (q & Hq & Hps).
    destruct (startswith q lab) eqn:E; [|by apply not_elem_of_nil in Hq].
    apply list_elem_of_singleton in Hq as [= -> ->]. split; [|done].
    exists (g, ps). split; [|done]. apply list_elem_of_fmap. eauto.
  - intros [([g ps] & Hin & Hg) Hs]. apply list_elem_of_fmap in Hin as (q & [= -> ->] & Hq).
    exists (g, ps). split; [|done]. apply list_elem_of_bind. exists q. split; [|done].
    rewrite Hs. by apply list_elem_of_singleton.
Qed.

#[export] Instance longer_prefix_swo : StrictWeakOrder longer_prefix.
Proof.
  unfold longer_prefix. split; intros *; rewrite ?Nat.ltb_lt, ?Nat.ltb_ge; try lia.
Qed.

(** Two table prefixes of one label with the same length belong to one family. *)
Lemma hits_same_length lab p q f g :
  (p, f) ∈ prefix_hits lab -> (q, g) ∈ prefix_hits lab ->
  String.length p = String.length q -> (p, f) = (q, g).
Proof.
  rewrite !elem_of_prefix_hits, !startswith_spec. intros [Hp [t Ht]] [Hq [u Hu]] Hl.
  assert (p = q) as -> by (eapply prefix_same_length; [|done]; by rewrite <- Ht).
  f_equal. pose proof table_prefixes_NoDup as Hnd.
  apply list_elem_of_lookup in Hp as [i Hi]. apply list_elem_of_lookup in Hq as [j Hj].
  assert (i = j) as ->; [|by rewrite Hi in Hj; simplify_eq].
  eapply NoDup_lookup; [exact Hnd| |]; rewrite list_lookup_fmap; [rewrite Hi|rewrite Hj]; done.
Qed.

(** The first sorted hit is a longest one. *)
Lemma classify_hit item (p f : string) :
  (p, f) ∈ prefix_hits (lower (label item)) ->
  exists q : string, (q, classify_strategy_family item) ∈ prefix_hits (lower (label item)) /\
    String.length p <= String.length q /\ (String.length p = String.length q -> classify_strategy_family item = f).
Proof.
  intros Hp. unfold classify_strategy_family.
  destruct (py_sorted longer_prefix _) as [|[q g] l] eqn:E.
  { pose proof (py_sorted_perm longer_prefix (prefix_hits (lower (label item)))) as Hperm.
    rewrite E in Hperm. apply Permutation_nil in Hperm. rewrite Hperm in Hp. by apply not_elem_of_nil in Hp. }
  assert (Hq : (q, g) ∈ prefix_hits (lower (label item))).
  { apply (elem_of_py_sorted longer_prefix). rewrite E. by left. }
  pose proof (py_sorted_head longer_prefix _ _ _ _ E Hp) as Hh.
  unfold longer_prefix in Hh. simpl in Hh. apply Nat.ltb_ge in Hh.
  exists q. split_and!; [done..|]. intros Hl.
  assert ((q, g) = (p, f)) by by eapply hits_same_length. by simplify_eq.
Qed.

(** The family of an item is decided by the longest registered prefix of its
    lowered label, whatever the order of the tables. *)
Theorem classify_longest_prefix item p f :
  (p, f) ∈ prefix_hits (lower (label item)) ->
  (forall q g, (q, g) ∈ prefix_hits (lower (label item)) -> String.length q <= String.length p) ->
  classify_strategy_family item = f.
Proof.
  intros Hp Hmax. destruct (classify_hit item p f Hp) as (q & Hq & Hle & Heq).
  apply Heq. specialize (Hmax _ _ Hq). lia.
Qed.

(** A registered prefix decides the family when no longer one of another family fits the label. *)
Lemma classify_by_prefix item (p f : string) :
  (p, f) ∈ table_prefixes -> startswith p (lower (label item)) = true ->
  (forall q g, (q, g) ∈ table_prefixes -> startswith q (lower (label item)) = true ->
    String.length p < String.length q -> startswith p q = true -> g = f) ->
  classify_strategy_family item = f.
Proof.
  intros Hp Hs Hext. destruct (classify_hit item p f) as (q & Hq & Hle & Heq).
  { by apply elem_of_prefix_hits. }
  destruct (decide (String.length p = String.length q)) as [|Hne]; [by apply Heq|].
  apply elem_of_prefix_hits in Hq as [Hq Hqs]. eapply Hext; [done..|lia|].
  apply startswith_spec in Hs as [t Ht]. apply startswith_spec in Hqs as [u Hu].
  rewrite Ht in Hu. clear Ht Heq Hext Hp Hq. revert q Hle Hne Hu.
  induction p as [|c p IH]; intros q Hle Hne Hu; [by destruct q|].
  destruct q as [|d q]; simpl in Hle; [lia|]. rewrite !append_cons in Hu. injection Hu as -> Hu.
  simpl. rewrite Ascii.eqb_refl. apply IH; [lia| |done]. intros E. apply Hne. simpl. by rewrite E.
Qed.

Lemma classify_longest_prefix_witness :
  classify_strategy_family (mk_item "Std_Fake_Hostfake_stun_6" "fake:blob=stun") = "fake_hostfake".
Proof.
  apply (classify_longest_prefix _ "std_fake_hostfake_").
  - refine (bool_decide_unpack _ _). vm_compute. exact I.
  - assert (Forall (fun pf => String.length pf.1 <= String.length "std_fake_hostfake_")
      (prefix_hits (lower (label (mk_item "Std_Fake_Hostfake_stun_6" "fake:blob=stun"))))) as H.
    { refine (bool_decide_unpack _ _). vm_compute. exact I. }
    rewrite Forall_forall in H. intros q g Hq. apply (H (q, g) Hq).
Defined.

(** The classification never leaves the TCP families, except for the two names
    "faked" and "other", which no family of the registry has. *)
Lemma classify_range item :
  classify_strategy_family item ∈ TCP_FAMILIES ++ ["faked"; "other"].
Proof.
  unfold classify_strategy_family. destruct (py_sorted longer_prefix _) as [|[q g] l] eqn:E.
  - repeat case_match; subst; try (refine (bool_decide_unpack _ _); vm_compute; exact I);
      by apply elem_of_app; left.
  - assert (Hq : (q, g) ∈ prefix_hits (lower (label item))).
    { apply (elem_of_py_sorted longer_prefix). rewrite E. by left. }
    apply elem_of_prefix_hits in Hq as [Hq _]. apply table_families_tcp in Hq.
    apply elem_of_app. by left.
Qed.

(** Families of [TCP_FAMILIES] have ranks of their own. *)
Lemma family_rank_inj f g : f ∈ TCP_FAMILIES -> family_rank g = family_rank f -> g = f.
Proof.
  assert (Forall (fun f => Forall (fun p => snd p = family_rank f -> fst p = f) FAMILY_RANK
                           /\ family_rank f < 999) TCP_FAMILIES) as Hall.
  { refine (bool_decide_unpack _ _). vm_compute. exact I. }
  intros Hf Hr. rewrite Forall_forall in Hall. destruct (Hall f Hf) as [Hp Hlt].
  rewrite Forall_forall in Hp. rewrite <- Hr in Hp, Hlt. unfold family_rank, dget_default in Hp, Hlt.
  destruct (dget g FAMILY_RANK) as [n|] eqn:E; simpl in Hlt; [|lia].
  apply elem_of_dict in E; [by apply (Hp _ E)|]. refine (bool_decide_unpack _ _). vm_compute. exact I.
Qed.

Lemma faked_not_registered : "faked" ∉ registry_names.
Proof. refine (bool_decide_unpack _ _). vm_compute. exact I. Qed.

(** ** Family order *)

#[export] Instance item_lt_swo : StrictWeakOrder item_lt.
Proof.
  split; unfold item_lt; cbv zeta.
  - intros x. by rewrite Nat.ltb_irrefl, str_lt_irrefl, andb_false_r.
  - intros x y. generalize (family_rank (classify_strategy_family x)) as a.
    generalize (family_rank (classify_strategy_family y)) as b. intros b a.
    rewrite orb_true_iff, orb_false_iff, andb_true_iff, andb_false_iff.
    rewrite Nat.ltb_lt, Nat.ltb_ge, Nat.eqb_eq, Nat.eqb_neq.
    intros [H|[H1 H2]]; (split; [lia|]); [left; lia|]. right. by apply (swo_asym str_lt).
  - intros x y z. generalize (family_rank (classify_strategy_family x)) as a.
    generalize (family_rank (classify_strategy_family y)) as b.
    generalize (family_rank (classify_strategy_family z)) as c. intros c b a.
    rewrite !orb_false_iff, !andb_false_iff, !Nat.ltb_ge, !Nat.eqb_neq.
    intros [H1 H1'] [H2 H2']. split; [lia|].
    destruct (decide (c = a)) as [Hca|]; [|by left]. right.
    destruct H1' as [?|H1']; [lia|]. destruct H2' as [?|H2']; [lia|]. by eapply (swo_neg_trans str_lt).
Qed.

Lemma sort_by_family_perm items : sort_by_family items ≡ₚ items.
Proof. apply py_sorted_perm. Qed.

Lemma sort_by_family_ranks items :
  StronglySorted (fun a b => family_rank (classify_strategy_family a)
                             <= family_rank (classify_strategy_family b)) (sort_by_family items).
Proof.
  unfold sort_by_family. pose proof (py_sorted_sorted item_lt items) as H.
  induction H as [|x l H IH Hf]; constructor; [done|].
  eapply Forall_impl; [exact Hf|]. intros y Hy. unfold item_lt in Hy.
  apply orb_false_iff in Hy as [Hy _]. by apply Nat.ltb_ge in Hy.
Qed.
