(* ===== verification/FamilyGates.v ===== *)
(** * Family gates: [FamilyNeedTracker] and [run_tcp_with_family_gates] of
    [engine/family_needs.py]

    The scan that runs the families in order and skips dependents of a family
    that passed. The runner is the environment: [test_tcp n item] is the outcome
    of the [n]-th probe, [stop n] the state of the stop event at its [n]-th
    poll; both are arbitrary. *)

From stdpp Require Import base numbers list strings gmap sorting.
From Stdlib Require Import ZArith Lia.
From S2P Require Import Prelude PyStr Families.

Create HintDb gates.

#[local] Open Scope Z_scope.

(** ** The need flags *)

Record FamilyNeedTracker : Type := Tracker {
  need_fake : Z; need_hostfakesplit : Z; need_multisplit : Z; need_multidisorder : Z;
  need_fakedsplit : Z; need_fakeddisorder : Z
}.

Definition new_tracker : FamilyNeedTracker := Tracker 1 1 1 1 1 1.

Definition finish_family (t : FamilyNeedTracker) (family : string) (had_pass : bool)
    : FamilyNeedTracker :=
  let val := if had_pass then 0 else 1 in
  let '(Tracker nf nh nm nmd nfs nfd) := t in
  if String.eqb family "fake" then Tracker val nh nm nmd nfs nfd
  else if String.eqb family "hostfake" then Tracker nf val nm nmd nfs nfd
  else if String.eqb family "multisplit" then Tracker nf nh val val nfs nfd
  else if bool_decide (family ∈ ["faked"; "fakedsplit"; "fakeddisorder"])
  then Tracker nf nh nm nmd val val
  else t.

Definition skip_family (t : FamilyNeedTracker) (family scan_level : string) : bool :=
  if String.eqb scan_level "full" then false
  else String.eqb family "fake_hostfake" && (need_hostfakesplit t =? 0).

Definition skip_strategy (t : FamilyNeedTracker) (item : StrategyItem) (scan_level : string) : bool :=
  if String.eqb scan_level "full" then false
  else
    let strat := strategy item in
    ((need_multisplit t =? 0) && (contains "multisplit" strat || contains "multidisorder" strat))
    || ((need_fakedsplit t =? 0) && contains "fakedsplit" strat)
    || ((need_fakeddisorder t =? 0) && contains "fakeddisorder" strat).

(** ** The scan *)

Record gate_state : Type := Gate {
  tracker : FamilyNeedTracker;
  results : list (StrategyItem * bool);
  done_ : Z;
  skipped : Z;
  passed : Z;
  polls : nat;
  progress : list (Z * Z * Z)
}.

Definition gate_init : gate_state := Gate new_tracker [] 0 0 0 0 [].

Section Run.
Context (scan_level : string)
        (test_tcp : nat -> StrategyItem -> bool)
        (resume_check : option (string -> bool))
        (working_tcp : option (list string))
        (stop : option (nat -> bool)).

(** [stop_event and stop_event.is_set()] *)
Definition poll (st : gate_state) : bool * gate_state :=
  match stop with
  | None => (false, st)
  | Some f =>
      (f (polls st),
       Gate (tracker st) (results st) (done_ st) (skipped st) (passed st) (S (polls st)) (progress st))
  end.

Definition set_tracker (t : FamilyNeedTracker) (st : gate_state) : gate_state :=
  Gate t (results st) (done_ st) (skipped st) (passed st) (polls st) (progress st).

(** [on_progress(done, skipped, passed)] *)
Definition report (st : gate_state) : gate_state :=
  Gate (tracker st) (results st) (done_ st) (skipped st) (passed st) (polls st)
    (progress st ++ [(done_ st, skipped st, passed st)]).

Definition skip_one (st : gate_state) : gate_state :=
  Gate (tracker st) (results st) (done_ st + 1) (skipped st + 1) (passed st) (polls st) (progress st).

Definition finish (fam : string) (had_pass : bool) (st : gate_state) : gate_state :=
  report (set_tracker (finish_family (tracker st) fam had_pass) st).

(** The loop over a family that is skipped as a whole. *)
Fixpoint skip_run (fam : string) (st : gate_state) (items : list StrategyItem)
    : gate_state * list StrategyItem :=
  match items with
  | [] => (st, [])
  | it :: rest =>
      if String.eqb (classify_strategy_family it) fam then skip_run fam (skip_one st) rest
      else (st, items)
  end.

Definition resumed (l : string) : bool :=
  match resume_check with Some f => f l | None => false end.

(** The loop that collects a family's items; it returns the state, the items to
    run, the labels already done by a former run, and the items left. *)
Fixpoint collect (fam : string) (st : gate_state) (items : list StrategyItem)
    : gate_state * list StrategyItem * list string * list StrategyItem :=
  match items with
  | [] => (st, [], [], [])
  | it :: rest =>
      if String.eqb (classify_strategy_family it) fam then
        if resumed (label it) then
          let '(st, its, labs, lft) := collect fam (skip_one st) rest in
          (st, its, label it :: labs, lft)
        else if skip_strategy (tracker st) it scan_level then collect fam (skip_one st) rest
        else
          let '(st, its, labs, lft) := collect fam st rest in
          (st, it :: its, labs, lft)
      else (st, [], [], items)
  end.

Definition add_result (st : gate_state) (it : StrategyItem) (ok : bool) : gate_state :=
  Gate (tracker st) (results st ++ [(it, ok)]) (done_ st + 1) (skipped st)
    (if ok then passed st + 1 else passed st) (polls st) (progress st).

(** The loop that runs a family's items; the last component tells that the
    function returned from inside it. *)
Fixpoint run_items (fam : string) (st : gate_state) (items : list StrategyItem) (had_pass : bool)
    : gate_state * bool * bool :=
  match items with
  | [] => (st, had_pass, false)
  | it :: rest =>
      let '(stopped, st) := poll st in
      if stopped then (st, had_pass, false)
      else
        let ok := test_tcp (length (results st)) it in
        let st := add_result st it ok in
        if ok && String.eqb scan_level "single" then (finish fam true st, true, true)
        else
          let st := if done_ st mod 50 =? 0 then report st else st in
          run_items fam st rest (had_pass || ok)
  end.

(** One iteration of the outer loop per unit of fuel; [None]: out of fuel. *)
Fixpoint gates (fuel : nat) (st : gate_state) (items : list StrategyItem) : option gate_state :=
  match items with
  | [] => Some st
  | it0 :: _ =>
      let '(stopped, st) := poll st in
      if stopped then Some st
      else match fuel with
      | O => None
      | S fuel =>
          let fam := classify_strategy_family it0 in
          if skip_family (tracker st) fam scan_level then
            let '(st, rest) := skip_run fam st items in
            gates fuel (finish fam false st) rest
          else
            let '(st, its, labs, rest) := collect fam st items in
            match its with
            | [] =>
                let had_pass := match working_tcp with
                                | Some w => existsb (fun l => bool_decide (l ∈ w)) labs
                                | None => false
                                end in
                gates fuel (finish fam had_pass st) rest
            | _ =>
                let '(st, had_pass, returned) := run_items fam st its false in
                if returned then Some st else gates fuel (finish fam had_pass st) rest
            end
      end
  end.

Definition run_tcp_with_family_gates (items : list StrategyItem) : option gate_state :=
  gates (length items) gate_init (sort_by_family items).

(** ** What the loops do *)

Definition successes (l : list (StrategyItem * bool)) : Z :=
  Z.of_nat (length (filter (fun r => r.2 = true) l)).

Lemma successes_app l k : successes (l ++ k) = successes l + successes k.
Proof. unfold successes. rewrite filter_app, length_app. lia. Qed.

(** The state after [n] more items were counted, [k] of them skipped, with the
    new results [rs]. *)
Definition advanced (st st' : gate_state) (k : Z) (rs : list (StrategyItem * bool)) : Prop :=
  results st' = results st ++ rs /\
  done_ st' = done_ st + k + Z.of_nat (length rs) /\
  skipped st' = skipped st + k /\
  passed st' = passed st + successes rs.

Lemma advanced_same st st' :
  results st' = results st -> done_ st' = done_ st -> skipped st' = skipped st ->
  passed st' = passed st -> advanced st st' 0 [].
Proof.
  unfold advanced. intros -> -> -> ->. rewrite app_nil_r. change (successes []) with 0.
  split_and!; [done|simpl; lia..].
Qed.

Lemma advanced_refl st : advanced st st 0 [].
Proof. by apply advanced_same. Qed.

Lemma advanced_trans st1 st2 st3 k1 k2 r1 r2 :
  advanced st1 st2 k1 r1 -> advanced st2 st3 k2 r2 -> advanced st1 st3 (k1 + k2) (r1 ++ r2).
Proof.
  intros (H1 & H2 & H3 & H4) (H5 & H6 & H7 & H8). unfold advanced.
  rewrite H5, H1, successes_app, length_app, app_assoc. split_and!; [done|lia..].
Qed.

Lemma advanced_poll st : advanced st (poll st).2 0 [].
Proof. unfold poll. destruct stop; by apply advanced_same. Qed.

Lemma advanced_finish fam b st : advanced st (finish fam b st) 0 [].
Proof. by apply advanced_same. Qed.

Lemma advanced_report st : advanced st (report st) 0 [].
Proof. by apply advanced_same. Qed.

Lemma advanced_skip_one st : advanced st (skip_one st) 1 [].
Proof.
  unfold advanced. rewrite app_nil_r. change (successes []) with 0. simpl. split_and!; [done|lia..].
Qed.

Lemma advanced_add_result st it ok : advanced st (add_result st it ok) 0 [(it, ok)].
Proof.
  unfold advanced. destruct ok; [change (successes _) with 1|change (successes _) with 0];
    simpl; split_and!; try done; lia.
Qed.

#[local] Hint Resolve advanced_refl advanced_poll advanced_finish advanced_report advanced_skip_one
  advanced_add_result : gates.

(** [pre] is the run of items of family [fam] at the head of [items]. *)
Definition family_run (fam : string) (items pre rest : list StrategyItem) : Prop :=
  items = pre ++ rest /\ Forall (fun it => classify_strategy_family it = fam) pre /\
  match rest with it :: _ => classify_strategy_family it <> fam | [] => True end.

Lemma family_run_nil fam : family_run fam [] [] [].
Proof. done. Qed.

Lemma family_run_stop fam it items :
  String.eqb (classify_strategy_family it) fam = false -> family_run fam (it :: items) [] (it :: items).
Proof. intros H. apply String.eqb_neq in H. done. Qed.

Lemma family_run_cons fam it items pre rest :
  String.eqb (classify_strategy_family it) fam = true -> family_run fam items pre rest ->
  family_run fam (it :: items) (it :: pre) rest.
Proof. intros H (-> & Hp & Hr). apply String.eqb_eq in H. by split_and!; [|constructor|]. Qed.

Lemma family_run_progress it items pre rest :
  family_run (classify_strategy_family it) (it :: items) pre rest ->
  exists pre', pre = it :: pre' /\ (length rest <= length items)%nat.
Proof.
  intros (H & _ & Hr). destruct pre as [|x pre]; simpl in H; subst; [done|].
  injection H as -> ->. exists pre. split; [done|]. rewrite length_app. lia.
Qed.

#[local] Hint Resolve family_run_nil family_run_stop family_run_cons : gates.

Lemma skip_run_spec fam st items st' rest :
  skip_run fam st items = (st', rest) ->
  exists pre, family_run fam items pre rest /\ advanced st st' (Z.of_nat (length pre)) [] /\
    tracker st' = tracker st.
Proof.
  revert st. induction items as [|it items IH]; intros st H; simpl in H.
  - simplify_eq. exists []. eauto with gates.
  - destruct (String.eqb _ _) eqn:Hf; [|simplify_eq; exists []; eauto with gates].
    apply IH in H as (pre & Hr & Ha & Ht). exists (it :: pre). split_and!; [eauto with gates| |done].
    rewrite length_cons, Nat2Z.inj_succ, <- Z.add_1_l.
    exact (advanced_trans _ _ _ _ _ _ _ (advanced_skip_one st) Ha).
Qed.

Definition gate_open (t : FamilyNeedTracker) (it : StrategyItem) : Prop :=
  skip_strategy t it scan_level = false /\ resumed (label it) = false.

Lemma collect_spec fam st items st' its labs rest :
  collect fam st items = (st', its, labs, rest) ->
  exists pre, family_run fam items pre rest /\ its `sublist_of` pre /\
    advanced st st' (Z.of_nat (length pre) - Z.of_nat (length its)) [] /\
    tracker st' = tracker st /\ Forall (gate_open (tracker st)) its /\
    (scan_level = "full" -> (forall l, resumed l = false) -> its = pre).
Proof.
  revert st its labs. induction items as [|it items IH]; intros st its labs H; simpl in H.
  { simplify_eq. exists []. split_and!; eauto using sublist with gates. }
  destruct (String.eqb _ _) eqn:Hf.
  2:{ simplify_eq. exists []. split_and!; eauto using sublist with gates. }
  assert (Hskip : forall its' labs', collect fam (skip_one st) items = (st', its', labs', rest) ->
    exists pre, family_run fam (it :: items) (it :: pre) rest /\ its' `sublist_of` it :: pre /\
      advanced st st' (Z.of_nat (length (it :: pre)) - Z.of_nat (length its')) [] /\
      tracker st' = tracker st /\ Forall (gate_open (tracker st)) its').
  { intros its' labs' Hc. apply IH in Hc as (pre & Hr & Hs & Ha & Ht & Ho & _). exists pre.
    split_and!; [eauto with gates|by constructor| |done..].
    replace (Z.of_nat (length (it :: pre)) - _) with
      (1 + (Z.of_nat (length pre) - Z.of_nat (length its'))) by (simpl; lia).
    exact (advanced_trans _ _ _ _ _ _ _ (advanced_skip_one st) Ha). }
  destruct (resumed (label it)) eqn:Hr; [|destruct (skip_strategy _ _ _) eqn:Hk].
  - destruct (collect fam (skip_one st) items) as [[[st1 its1] labs1] lft1] eqn:E. simplify_eq.
    destruct (Hskip _ _ eq_refl) as (pre & Hpre & Hs & Ha & Ht & Ho). exists (it :: pre).
    split_and!; [done..|]. intros _ Hn. by rewrite Hn in Hr.
  - destruct (Hskip _ _ H) as (pre & Hpre & Hs & Ha & Ht & Ho). exists (it :: pre).
    split_and!; [done..|]. intros Hfull _. unfold skip_strategy in Hk.
    by rewrite Hfull in Hk.
  - destruct (collect fam st items) as [[[st1 its1] labs1] lft1] eqn:E. simplify_eq.
    apply IH in E as (pre & Hpre & Hs & Ha & Ht & Ho & Hfull). exists (it :: pre).
    split_and!; [eauto with gates|by constructor| |done|by constructor|intros; f_equal; auto].
    replace (_ - _) with (Z.of_nat (length pre) - Z.of_nat (length its1)) by (simpl; lia). exact Ha.
Qed.

(** Every result is the outcome of the probe that was made for it. *)
Definition probed (st : gate_state) : Prop :=
  forall i it ok, results st !! i = Some (it, ok) -> ok = test_tcp i it.

Lemma probed_same st st' : results st' = results st -> probed st -> probed st'.
Proof. unfold probed. by intros ->. Qed.

Lemma probed_add st it : probed st -> probed (add_result st it (test_tcp (length (results st)) it)).
Proof.
  intros H i it' ok Hi. simpl in Hi. apply lookup_app_Some in Hi as [Hi|[Hl Hi]]; [by apply H|].
  destruct (i - length (results st))%nat eqn:E; [|done]. simpl in Hi. simplify_eq.
  by replace i with (length (results st)) by lia.
Qed.

Lemma poll_tracker st : tracker (poll st).2 = tracker st /\ results (poll st).2 = results st.
Proof. unfold poll. by destruct stop. Qed.

Lemma run_items_spec fam st items hp st' hp' ret :
  run_items fam st items hp = (st', hp', ret) ->
  exists rs, advanced st st' 0 rs /\ rs.*1 `prefix_of` items /\
    (ret = false -> hp' = hp || existsb snd rs) /\
    (stop = None -> ret = false -> rs.*1 = items) /\
    (ret = true -> scan_level = "single") /\
    (scan_level = "single" -> if ret then exists rs0 it, rs = rs0 ++ [(it, true)] /\ successes rs0 = 0
                              else successes rs = 0) /\
    tracker st' = (if ret then finish_family (tracker st) fam true else tracker st) /\
    (probed st -> probed st').
Proof.
  revert st hp. induction items as [|it items IH]; intros st hp H; simpl in H.
  { simplify_eq. exists []. rewrite orb_false_r. split_and!; try done. apply advanced_refl. }
  pose proof (advanced_poll st) as H1. pose proof (poll_tracker st) as [Ht1 Hr1].
  destruct (poll st) as [stopped st1] eqn:Hp. simpl in H1, Ht1, Hr1.
  destruct stopped.
  { simplify_eq. exists []. rewrite orb_false_r. split_and!; try done.
    - apply prefix_nil.
    - intros Hn. unfold poll in Hp. by rewrite Hn in Hp.
    - by apply probed_same. }
  pose proof (probed_add st1 it) as Hpa.
  remember (test_tcp (length (results st1)) it) as ok eqn:Eok. clear Eok.
  pose proof (advanced_trans _ _ _ _ _ _ _ H1 (advanced_add_result st1 it ok)) as H2.
  destruct (ok && String.eqb scan_level "single") eqn:Hs.
  { apply andb_true_iff in Hs as [Hok Hs]. apply String.eqb_eq in Hs. simplify_eq.
    exists [(it, true)]. split; [|split_and!; try done].
    - exact (advanced_trans _ _ _ _ _ _ _ H2 (advanced_finish _ _ _)).
    - simpl. apply (prefix_app [it] [] items), prefix_nil.
    - intros _. by exists [], it.
    - simpl. by rewrite Ht1.
    - intros Hpr. eapply probed_same; [|apply Hpa, (probed_same st); eauto]. done. }
  match type of H with run_items _ ?s _ _ = _ => set (st2 := s) in H end.
  assert (H3 : advanced st st2 0 [(it, ok)] /\ tracker st2 = tracker st /\ (probed st -> probed st2)).
  { rewrite <- Ht1. unfold st2. destruct (_ =? 0); split_and!; try done;
      try (exact (advanced_trans _ _ _ _ _ _ _ H2 (advanced_report _)));
      intros Hpr; eapply probed_same, Hpa, (probed_same st); eauto. }
  destruct H3 as (H3 & Ht3 & Hp3).
  apply IH in H as (rs & Ha & Hpre & Hhp & Hall & Hret & Hone & Ht & Hprb).
  exists ((it, ok) :: rs). split_and!.
  - exact (advanced_trans _ _ _ _ _ _ _ H3 Ha).
  - simpl. by apply prefix_cons.
  - intros Hf. rewrite (Hhp Hf). simpl. by rewrite orb_assoc.
  - intros Hn Hf. simpl. f_equal. by apply Hall.
  - done.
  - intros Hsingle. assert (ok = false) as -> by (rewrite Hsingle in Hs; by destruct ok).
    specialize (Hone Hsingle). destruct ret; [|exact Hone].
    destruct Hone as (rs0 & it' & -> & H0). by exists ((it, false) :: rs0), it'.
  - by rewrite Ht, Ht3.
  - auto.
Qed.

(** What one round of the outer loop does: it takes the run [pre] of the head's
    family off the work list, probes a sublist of it through open gates, and
    counts every item of the run unless it was stopped. *)
Record round_ok (st st1 : gate_state) (pre : list StrategyItem) (k : Z)
    (rs : list (StrategyItem * bool)) (b returned : bool) : Prop := {
  ro_advanced : advanced st st1 k rs;
  ro_count : 0 <= k /\ k + Z.of_nat (length rs) <= Z.of_nat (length pre);
  ro_complete : stop = None -> returned = false -> k + Z.of_nat (length rs) = Z.of_nat (length pre);
  ro_sublist : rs.*1 `sublist_of` pre;
  ro_open : Forall (gate_open (tracker st)) rs.*1;
  ro_tracker : returned = false -> tracker st1 = tracker st;
  ro_pass : returned = false -> existsb snd rs = true -> b = true;
  ro_full : scan_level = "full" -> stop = None -> (forall l, resumed l = false) -> rs.*1 = pre;
  ro_returned : returned = true -> scan_level = "single";
  ro_single : scan_level = "single" ->
    if returned then exists rs0 it, rs = rs0 ++ [(it, true)] /\ successes rs0 = 0
    else successes rs = 0;
  ro_probed : probed st -> probed st1
}.

Lemma advanced_zero st st' k k' rs : advanced st st' k rs -> k = k' -> advanced st st' k' rs.
Proof. by intros H <-. Qed.

Lemma gates_step fuel st it items st' :
  gates (S fuel) st (it :: items) = Some st' ->
  (stop <> None /\ st' = (poll st).2) \/
  let fam := classify_strategy_family it in
  exists pre rest st1 k rs b returned,
    family_run fam (it :: items) pre rest /\ round_ok st st1 pre k rs b returned /\
    if returned then st' = st1 else gates fuel (finish fam b st1) rest = Some st'.
Proof.
  cbn [gates]. pose proof (advanced_poll st) as H1. pose proof (poll_tracker st) as [Ht1 Hr1].
  destruct (poll st) as [stopped sp] eqn:Hp. simpl in H1, Ht1, Hr1. destruct stopped.
  { intros [= <-]. left. split; [|done]. intros Hn. unfold poll in Hp. by rewrite Hn in Hp. }
  intros H. right. set (fam := classify_strategy_family it) in *.
  destruct (skip_family (tracker sp) fam scan_level) eqn:Hk.
  { destruct (skip_run fam sp (it :: items)) as [s1 rest] eqn:E.
    apply skip_run_spec in E as (pre & Hr & Ha & Ht).
    exists pre, rest, s1, (Z.of_nat (length pre)), [], false, false.
    split_and!; [done| |done]. split; simpl; try done; try lia; try congruence.
    - exact (advanced_trans _ _ _ _ _ _ _ H1 Ha).
    - apply sublist_nil_l.
    - intros Hl. unfold skip_family in Hk. by rewrite Hl in Hk.
    - apply probed_same. destruct Ha as [-> _]. by rewrite app_nil_r. }
  destruct (collect fam sp (it :: items)) as [[[s1 its] labs] rest] eqn:E.
  apply collect_spec in E as (pre & Hr & Hs & Ha & Ht & Ho & Hf). rewrite Ht1 in Ho.
  pose proof (sublist_length _ _ Hs) as Hlen. pose proof (advanced_trans _ _ _ _ _ _ _ H1 Ha) as H2.
  assert (Hpr1 : probed st -> probed s1).
  { apply probed_same. destruct Ha as [-> _]. by rewrite app_nil_r. }
  destruct its as [|i0 its0].
  { eexists pre, rest, s1, (Z.of_nat (length pre)), [], _, false. split_and!; [done| |exact H].
    split; simpl; try done; try lia; try congruence.
    - eapply advanced_zero; [exact H2|]. simpl. lia.
    - intros Hl _ Hn. exact (Hf Hl Hn). }
  set (its := i0 :: its0) in *.
  destruct (run_items fam s1 its false) as [[s2 hp] ret] eqn:E2.
  apply run_items_spec in E2 as (rs & Ha2 & Hpre & Hhp & Hall & Hret & Hone & Ht2 & Hpr2).
  pose proof (prefix_length _ _ Hpre) as Hlen2. rewrite length_fmap in Hlen2.
  exists pre, rest, s2, (Z.of_nat (length pre) - Z.of_nat (length its)), rs, hp, ret.
  split_and!; [done| |by destruct ret; simplify_eq].
  split; try done; try lia.
  - eapply advanced_zero; [exact (advanced_trans _ _ _ _ _ _ _ H2 Ha2)|]. lia.
  - intros Hn Hr0. rewrite <- (Hall Hn Hr0), length_fmap. lia.
  - etrans; [by apply sublist_prefix_of|done] || (destruct Hpre as [t ->]; etrans; [|exact Hs]; by apply sublist_inserts_r).
  - destruct Hpre as [t Hpre]. rewrite Hpre, Forall_app in Ho. apply Ho.
  - intros ->. congruence.
  - intros Hr0. by rewrite (Hhp Hr0).
  - intros Hl Hn Hres. rewrite <- (Hf Hl Hres). apply (Hall Hn). destruct ret; [|done].
    specialize (Hret eq_refl). congruence.
  - auto.
Qed.

(** The scan terminates: one round per item of the list is enough fuel, because
    every round takes a non-empty run off the work list. *)
Theorem family_gates_terminate items : is_Some (run_tcp_with_family_gates items).
Proof.
  unfold run_tcp_with_family_gates.
  rewrite <- (Permutation_length (sort_by_family_perm items)).
  generalize (sort_by_family items) as l. intros l. remember (length l) as n eqn:En.
  assert (Hn : (length l <= n)%nat) by lia. clear En. generalize gate_init as st.
  revert l Hn. induction n as [|n IH]; intros [|it l] Hl st; try (by eexists); [simpl in Hl; lia|].
  cbn [gates]. destruct (poll st) as [[] sp]; [by eexists|]. simpl in Hl.
  destruct (skip_family _ _ _).
  { destruct (skip_run _ _ _) as [s1 rest] eqn:E. apply skip_run_spec in E as (pre & Hr & _).
    apply family_run_progress in Hr as (? & _ & Hle). apply IH. lia. }
  destruct (collect _ _ _) as [[[s1 its] labs] rest] eqn:E.
  apply collect_spec in E as (pre & Hr & _).
  apply family_run_progress in Hr as (? & _ & Hle).
  destruct its; [apply IH; lia|]. destruct (run_items _ _ _ _) as [[s2 hp] []]; [by eexists|]. apply IH. lia.
Qed.

(** The summary of a run over [items]. *)
Record run_ok (st st' : gate_state) (items : list StrategyItem) (k : Z)
    (rs : list (StrategyItem * bool)) : Prop := {
  run_advanced : advanced st st' k rs;
  run_count : 0 <= k /\ k + Z.of_nat (length rs) <= Z.of_nat (length items);
  run_complete : stop = None -> scan_level <> "single" ->
    k + Z.of_nat (length rs) = Z.of_nat (length items);
  run_sublist : rs.*1 `sublist_of` items;
  run_full : scan_level = "full" -> stop = None -> (forall l, resumed l = false) -> rs.*1 = items;
  run_single : scan_level = "single" ->
    successes rs = 0 \/ exists rs0 it, rs = rs0 ++ [(it, true)] /\ successes rs0 = 0;
  run_probed : probed st -> probed st'
}.

Lemma run_ok_trans st st1 b fam st' pre rest k1 k2 rs1 rs2 :
  round_ok st st1 pre k1 rs1 b false -> run_ok (finish fam b st1) st' rest k2 rs2 ->
  run_ok st st' (pre ++ rest) (k1 + k2) (rs1 ++ rs2).
Proof.
  intros H1 H2. pose proof (ro_count _ _ _ _ _ _ _ H1). pose proof (run_count _ _ _ _ _ H2). split.
  - eapply advanced_trans; [apply H1|].
    destruct (run_advanced _ _ _ _ _ H2) as (? & ? & ? & ?). by split_and!.
  - rewrite !length_app. lia.
  - intros Hn Hs. rewrite !length_app.
    pose proof (ro_complete _ _ _ _ _ _ _ H1 Hn eq_refl). pose proof (run_complete _ _ _ _ _ H2 Hn Hs). lia.
  - rewrite fmap_app. apply sublist_app; [apply H1|apply H2].
  - intros Hl Hn Hr. rewrite fmap_app. f_equal; [by apply H1|by apply H2].
  - intros Hs. pose proof (ro_single _ _ _ _ _ _ _ H1 Hs) as Hz. simpl in Hz.
    destruct (run_single _ _ _ _ _ H2 Hs) as [H3|(rs0 & it & -> & H3)].
    + left. rewrite successes_app. lia.
    + right. exists (rs1 ++ rs0), it. rewrite app_assoc, successes_app. split; [done|lia].
  - intros Hp. apply H2. eapply probed_same; [|by apply H1]. done.
Qed.

Lemma gates_run_ok fuel st items st' :
  gates fuel st items = Some st' -> (length items <= fuel)%nat -> exists k rs, run_ok st st' items k rs.
Proof.
  revert st items. induction fuel as [|fuel IH]; intros st [|it items] H Hl; try (simpl in Hl; lia).
  1,2: simpl in H; simplify_eq; exists 0, []; split; simpl; auto using sublist; try lia; apply advanced_refl.
  apply gates_step in H as [[Hn ->]|(pre & rest & st1 & k & rs & b & returned & Hf & Hr & H)].
  - exists 0, []. split; simpl; try done; try lia; [apply advanced_poll|apply sublist_nil_l|auto|].
    apply probed_same, poll_tracker.
  - pose proof (family_run_progress _ _ _ _ Hf) as (pre' & _ & Hle). simpl in Hl.
    destruct Hf as (-> & _ & _). destruct returned.
    + subst st'. exists k, rs. pose proof (ro_returned _ _ _ _ _ _ _ Hr eq_refl) as Hs.
      pose proof (ro_count _ _ _ _ _ _ _ Hr). split; try apply Hr; try congruence.
      * rewrite length_app. lia.
      * apply sublist_inserts_r, Hr.
      * intros _. right. exact (ro_single _ _ _ _ _ _ _ Hr Hs).
    + apply IH in H as (k2 & rs2 & H2); [|lia]. exists (k + k2), (rs ++ rs2).
      eapply run_ok_trans; [exact Hr|exact H2].
Qed.

(** C25. The counters of a scan are exact: done counts the skipped items and the
    results, passed counts the successful results, every result is the outcome of
    the probe of its item, and the results run through a sublist of the items in
    family order; without a stop event a scan that is not "single" handles every item. *)
Theorem family_gates_accounting items st :
  run_tcp_with_family_gates items = Some st ->
  done_ st = skipped st + Z.of_nat (length (results st)) /\
  0 <= skipped st /\ done_ st <= Z.of_nat (length items) /\
  passed st = successes (results st) /\ probed st /\
  (results st).*1 `sublist_of` sort_by_family items /\
  (stop = None -> scan_level <> "single" -> done_ st = Z.of_nat (length items)).
Proof.
  intros H. pose proof (Permutation_length (sort_by_family_perm items)) as Hl.
  apply gates_run_ok in H as (k & rs & H); [|lia].
  destruct (run_advanced _ _ _ _ _ H) as (Hr & Hd & Hk & Hp). simpl in Hr, Hd, Hk, Hp.
  pose proof (run_count _ _ _ _ _ H). rewrite Hr, <- Hl.
  split_and!; try lia; [apply H; by intros i|apply H|].
  intros Hn Hs. pose proof (run_complete _ _ _ _ _ H Hn Hs). lia.
Qed.

(** At the "full" level, with no stop event and nothing to resume, every item
    is probed, in family order. *)
Theorem family_gates_full items st :
  run_tcp_with_family_gates items = Some st -> scan_level = "full" -> stop = None ->
  resume_check = None -> (results st).*1 = sort_by_family items /\ skipped st = 0.
Proof.
  intros H Hl Hn Hr. pose proof (Permutation_length (sort_by_family_perm items)) as Hlen.
  apply gates_run_ok in H as (k & rs & H); [|lia].
  assert (Hf : rs.*1 = sort_by_family items) by (apply H; try done; unfold resumed; by rewrite Hr).
  destruct (run_advanced _ _ _ _ _ H) as (Hrs & _ & Hk & _). simpl in Hrs, Hk.
  pose proof (run_count _ _ _ _ _ H) as Hc. rewrite <- Hf, length_fmap in Hc. rewrite Hrs. split; [done|lia].
Qed.

(** At the "single" level the scan stops at its first success: no result
    before the last one is a success. *)
Theorem family_gates_single items st i it j r :
  run_tcp_with_family_gates items = Some st -> scan_level = "single" ->
  results st !! i = Some (it, true) -> results st !! j = Some r -> (j <= i)%nat /\ (r.2 = true -> j = i).
Proof.
  intros H Hs Hi Hj. pose proof (Permutation_length (sort_by_family_perm items)) as Hlen.
  apply gates_run_ok in H as (k & rs & H); [|lia].
  destruct (run_advanced _ _ _ _ _ H) as (Hrs & _). simpl in Hrs. rewrite Hrs in Hi, Hj.
  assert (Hno : forall rs0 n it0, successes rs0 = 0 -> rs0 !! n = Some (it0, true) -> False).
  { intros rs0 n it0 H0 Hin. apply list_elem_of_lookup_2 in Hin.
    assert (Hm : (it0, true) ∈ filter (fun r : StrategyItem * bool => r.2 = true) rs0) by by apply list_elem_of_filter.
    unfold successes in H0. destruct (filter _ rs0); [by apply not_elem_of_nil in Hm|simpl in H0; lia]. }
  destruct (run_single _ _ _ _ _ H Hs) as [H0|(rs0 & it0 & -> & H0)]; [by destruct (Hno _ _ _ H0 Hi)|].
  assert (Hlast : forall n it1, (rs0 ++ [(it0, true)]) !! n = Some (it1, true) -> n = length rs0).
  { intros n it1 Hin. apply lookup_app_Some in Hin as [Hin|[Hle Hin]]; [by destruct (Hno _ _ _ H0 Hin)|].
    apply list_lookup_singleton_Some in Hin as [? _]. lia. }
  rewrite (Hlast _ _ Hi). apply lookup_lt_Some in Hj as Hb. rewrite length_app in Hb. simpl in Hb.
  split; [lia|]. destruct r as [it1 b]. simpl. intros ->. by apply (Hlast _ it1).
Qed.

(** *** The multisplit gate *)

Definition fam_of := classify_strategy_family.
Definition ms_success (r : StrategyItem * bool) : Prop := fam_of r.1 = "multisplit" /\ r.2 = true.
Definition ms_free (it : StrategyItem) : Prop :=
  contains "multisplit" (strategy it) = false /\ contains "multidisorder" (strategy it) = false.

(** After a success of the multisplit family, every result is one of that family
    or does not use its techniques. *)
Definition ms_ordered (rs : list (StrategyItem * bool)) : Prop :=
  forall i j r1 r2, (i < j)%nat -> rs !! i = Some r1 -> rs !! j = Some r2 ->
    ms_success r1 -> fam_of r2.1 <> "multisplit" -> ms_free r2.1.

Definition ms_inv (st : gate_state) (items : list StrategyItem) : Prop :=
  ms_ordered (results st) /\
  (Exists ms_success (results st) ->
     need_multisplit (tracker st) = 0 /\ Forall (fun it => fam_of it <> "multisplit") items).

Lemma ms_ordered_app rs1 rs2 :
  ms_ordered rs1 -> ms_ordered rs2 ->
  (Exists ms_success rs1 -> Forall (fun r => fam_of r.1 <> "multisplit" -> ms_free r.1) rs2) ->
  ms_ordered (rs1 ++ rs2).
Proof.
  intros H1 H2 H i j r1 r2 Hij Hi Hj Hs Hn.
  apply lookup_app_Some in Hi as [Hi|[Hl Hi]].
  - apply lookup_app_Some in Hj as [Hj|[Hl Hj]]; [by eapply (H1 i j)|].
    assert (He : Exists ms_success rs1) by (apply Exists_exists; eauto using list_elem_of_lookup_2).
    specialize (H He). rewrite Forall_forall in H. apply (H r2); [by eapply list_elem_of_lookup_2|done].
  - apply lookup_app_Some in Hj as [Hj|[Hl' Hj]]; [apply lookup_lt_Some in Hj; lia|].
    eapply (H2 (i - length rs1)%nat (j - length rs1)%nat); eauto. lia.
Qed.

Lemma ms_ordered_family rs : Forall (fun r => fam_of r.1 = "multisplit") rs -> ms_ordered rs.
Proof.
  intros H i j r1 r2 _ _ Hj _ Hn. rewrite Forall_forall in H. destruct Hn.
  apply H. by eapply list_elem_of_lookup_2.
Qed.

Lemma ms_ordered_other rs : Forall (fun r => fam_of r.1 <> "multisplit") rs -> ms_ordered rs.
Proof.
  intros H i j r1 r2 _ Hi _ [Hs _] _. rewrite Forall_forall in H. destruct (H r1); [|done].
  by eapply list_elem_of_lookup_2.
Qed.

Lemma gate_open_ms_free t it :
  scan_level <> "full" -> need_multisplit t = 0 -> gate_open t it -> ms_free it.
Proof.
  intros Hl Hn [Hk _]. unfold skip_strategy in Hk.
  destruct (String.eqb_spec scan_level "full"); [done|]. rewrite Hn in Hk. simpl in Hk.
  apply orb_false_iff in Hk as [Hk _]. apply orb_false_iff in Hk as [Hk _]. by apply orb_false_iff in Hk.
Qed.

(** In a list sorted by rank no multisplit item is left after the run of the
    multisplit family. *)
Lemma no_multisplit_left pre rest it items :
  StronglySorted (fun a b => (family_rank (fam_of a) <= family_rank (fam_of b))%nat) (it :: items) ->
  family_run "multisplit" (it :: items) pre rest -> fam_of it = "multisplit" ->
  Forall (fun it => fam_of it <> "multisplit") rest.
Proof.
  intros Hs (Heq & Hp & Hr) Hit. destruct rest as [|x rest]; [done|].
  rewrite Heq in Hs. apply StronglySorted_app in Hs as (Hle & _ & Hs).
  assert (Hx : (family_rank "multisplit" < family_rank (fam_of x))%nat).
  { destruct pre as [|y pre]; simpl in Heq; simplify_eq.
    assert (family_rank (fam_of y) <= family_rank (fam_of x))%nat.
    { apply Hle; by left. }
    rewrite Hit in *. destruct (decide (family_rank (fam_of x) = family_rank "multisplit")) as [He|]; [|lia].
    destruct Hr. apply family_rank_inj; [|done]. refine (bool_decide_unpack _ _). vm_compute. exact I. }
  inversion Hs as [|? ? _ Hall]; subst. constructor; [by intros Hc; rewrite Hc in Hx; lia|].
  eapply Forall_impl; [exact Hall|]. intros z Hz Hc. cbv beta in Hz. rewrite Hc in Hz. lia.
Qed.

(** The tracker after a round keeps the multisplit flag down, unless the family
    that ends is multisplit itself. *)
Lemma finish_family_ms t fam b :
  fam <> "multisplit" -> need_multisplit (finish_family t fam b) = need_multisplit t.
Proof.
  intros Hf. unfold finish_family. destruct t. destruct (String.eqb_spec fam "multisplit"); [done|].
  by repeat case_match.
Qed.

Lemma finish_family_ms_true t : need_multisplit (finish_family t "multisplit" true) = 0.
Proof. by destruct t. Qed.

Lemma ms_round st st1 pre rest k rs b returned it items :
  scan_level <> "full" -> ms_inv st (it :: items) ->
  StronglySorted (fun a b => (family_rank (fam_of a) <= family_rank (fam_of b))%nat) (it :: items) ->
  family_run (fam_of it) (it :: items) pre rest -> round_ok st st1 pre k rs b returned ->
  ms_ordered (results st1) /\ (returned = false -> ms_inv (finish (fam_of it) b st1) rest).
Proof.
  intros Hl [Ho He] Hs Hf Hr. destruct (ro_advanced _ _ _ _ _ _ _ Hr) as [Hrs _].
  assert (Hfam : Forall (fun r => fam_of r.1 = fam_of it) rs).
  { destruct Hf as (_ & Hp & _). apply Forall_forall. intros r Hx. rewrite Forall_forall in Hp. apply Hp.
    eapply (elem_of_sublist rs.*1); [by apply list_elem_of_fmap_2|]. apply (ro_sublist _ _ _ _ _ _ _ Hr). }
  assert (Hord : ms_ordered (results st1)).
  { rewrite Hrs. destruct (decide (fam_of it = "multisplit")) as [Hm|Hm].
    - apply ms_ordered_app; [done| |intros _].
      + apply ms_ordered_family. eapply Forall_impl; [exact Hfam|]. by intros r ->.
      + eapply Forall_impl; [exact Hfam|]. intros r Hx Hc. by rewrite Hx in Hc.
    - apply ms_ordered_app; [done| |].
      + apply ms_ordered_other. eapply Forall_impl; [exact Hfam|]. by intros r ->.
      + intros Hex. destruct (He Hex) as [Hn _]. pose proof (ro_open _ _ _ _ _ _ _ Hr) as Hop.
        rewrite Forall_fmap in Hop. eapply Forall_impl; [exact Hop|]. intros r Hg _.
        by apply (gate_open_ms_free (tracker st)). }
  split; [done|]. intros Hret. split; [done|]. cbn [finish report set_tracker results tracker].
  rewrite Hrs, Exists_app. rewrite (ro_tracker _ _ _ _ _ _ _ Hr Hret).
  destruct (decide (fam_of it = "multisplit")) as [Hm|Hm].
  - rewrite Hm in *. pose proof (no_multisplit_left _ _ _ _ Hs Hf Hm) as Hleft. intros [Hex|Hex].
    { destruct (He Hex) as [_ Hall]. inversion Hall; subst. done. }
    split; [|done]. rewrite (ro_pass _ _ _ _ _ _ _ Hr Hret); [apply finish_family_ms_true|].
    apply Exists_exists in Hex as (r & Hr1 & _ & Hr2). apply existsb_exists. exists r.
    split; [by apply list_elem_of_In|done].
  - intros [Hex|Hex].
    + destruct (He Hex) as [Hn Hall]. rewrite finish_family_ms by done. split; [done|].
      destruct Hf as (Heq & _). rewrite Heq, Forall_app in Hall. apply Hall.
    + apply Exists_exists in Hex as (r & Hin & Hs1 & _). rewrite Forall_forall in Hfam.
      rewrite (Hfam r Hin) in Hs1. done.
Qed.

Lemma gates_ms fuel st items st' :
  scan_level <> "full" -> gates fuel st items = Some st' -> (length items <= fuel)%nat ->
  StronglySorted (fun a b => (family_rank (fam_of a) <= family_rank (fam_of b))%nat) items ->
  ms_inv st items -> ms_ordered (results st').
Proof.
  intros Hl. revert st items. induction fuel as [|fuel IH]; intros st [|it items] H Hlen Hs Hi;
    try (simpl in Hlen; lia).
  1,2: simpl in H; simplify_eq; apply Hi.
  apply gates_step in H as [[_ ->]|(pre & rest & st1 & k & rs & b & returned & Hf & Hr & H)].
  - destruct (poll_tracker st) as [_ ->]. apply Hi.
  - destruct (ms_round _ _ _ _ _ _ _ _ _ _ Hl Hi Hs Hf Hr) as [Ho Hn].
    destruct returned; [by subst|]. apply IH in H; [done| | |by apply Hn].
    + apply family_run_progress in Hf as (_ & _ & Hle). simpl in Hlen. lia.
    + destruct Hf as (Heq & _). rewrite Heq in Hs. by apply StronglySorted_app in Hs as (_ & _ & Hs).
Qed.

(** Below the "full" level, once an item of the multisplit family has passed, no
    later probe of another family uses the multisplit or multidisorder technique. *)
Theorem multisplit_pass_skips_dependents items st i j r1 r2 :
  run_tcp_with_family_gates items = Some st -> scan_level <> "full" ->
  results st !! i = Some r1 -> results st !! j = Some r2 -> (i < j)%nat ->
  classify_strategy_family r1.1 = "multisplit" -> r1.2 = true ->
  classify_strategy_family r2.1 <> "multisplit" ->
  contains "multisplit" (strategy r2.1) = false /\ contains "multidisorder" (strategy r2.1) = false.
Proof.
  intros H Hl Hi Hj Hij Hm Hs Hn.
  assert (Ho : ms_ordered (results st)).
  { eapply gates_ms; [exact Hl|exact H| |apply sort_by_family_ranks|].
    - by rewrite (Permutation_length (sort_by_family_perm items)).
    - split; [intros ? ? ? ? ? Hc; done|]. intros Hc. by inversion Hc. }
  by apply (Ho i j r1 r2 Hij Hi Hj).
Qed.
End Run.

(** ** Concrete runs *)

Definition ex_ms : StrategyItem := mk_item "std_multisplit_1" "multisplit:pos=1".
Definition ex_fake : StrategyItem := mk_item "std_fake_1" "fake:blob=stun".
Definition ex_fms : StrategyItem := mk_item "std_fms_1" "fake multisplit:pos=1".
Definition ex_items : list StrategyItem := [ex_fms; ex_ms; ex_fake].
Definition all_pass (n : nat) (it : StrategyItem) : bool := true.

Definition get_state (o : option gate_state) : gate_state := default gate_init o.

Lemma family_gates_accounting_witness :
  let st := get_state (run_tcp_with_family_gates "std" all_pass None None None ex_items) in
  done_ st = 3 /\ done_ st = skipped st + Z.of_nat (length (results st)).
Proof.
  split; [vm_compute; reflexivity|].
  refine (proj1 (family_gates_accounting "std" all_pass None None None ex_items _ _)).
  vm_compute. reflexivity.
Defined.

Lemma family_gates_full_witness :
  let st := get_state (run_tcp_with_family_gates "full" all_pass None None None ex_items) in
  (results st).*1 = sort_by_family ex_items /\ skipped st = 0.
Proof.
  apply (family_gates_full "full" all_pass None None None ex_items); [|done..].
  vm_compute. reflexivity.
Defined.

Lemma family_gates_single_witness :
  let st := get_state (run_tcp_with_family_gates "single" all_pass None None None ex_items) in
  (0 <= 0)%nat /\ (true = true -> 0%nat = 0%nat).
Proof.
  apply (family_gates_single "single" all_pass None None None ex_items
           (get_state (run_tcp_with_family_gates "single" all_pass None None None ex_items))
           0 ex_fake 0 (ex_fake, true)); vm_compute; reflexivity.
Defined.

(** The run where multisplit passes first: [ex_fms] is skipped, an item without
    the technique is probed. *)
Definition ex_syn : StrategyItem := mk_item "std_syndata_1" "syndata".

Lemma multisplit_pass_skips_dependents_witness :
  let st := get_state (run_tcp_with_family_gates "std" all_pass None None None [ex_fms; ex_syn; ex_ms]) in
  (results st).*1 = [ex_ms; ex_syn] /\ skipped st = 1 /\
  contains "multisplit" (strategy ex_syn) = false /\ contains "multidisorder" (strategy ex_syn) = false.
Proof.
  split; [vm_compute; reflexivity|]. split; [vm_compute; reflexivity|].
  apply (multisplit_pass_skips_dependents "std" all_pass None None None [ex_fms; ex_syn; ex_ms]
           (get_state (run_tcp_with_family_gates "std" all_pass None None None [ex_fms; ex_syn; ex_ms]))
           0 1 (ex_ms, true) (ex_syn, true)); vm_compute; try reflexivity; try discriminate; lia.
Defined.

(** The fakedsplit gate does not have that property: when every item of the
    fakeddisorder family is skipped because fakedsplit passed, the family ends
    without a pass and raises both flags again. *)
Definition ex_fds : StrategyItem := mk_item "std_fds_1" "fakedsplit:pos=1".
Definition ex_fdd : StrategyItem := mk_item "std_fdd_1" "fakeddisorder:pos=1".
Definition ex_ffds : StrategyItem := mk_item "std_ffds_1" "fake fakedsplit:pos=1".

(** The fakedsplit gate reopens: with a fakeddisorder item in the list, an item
    of fake_fakedsplit is probed although fakedsplit passed; without it the same item
    is skipped. *)
Theorem fakedsplit_gate_reopens :
  let run items := get_state (run_tcp_with_family_gates "std" all_pass None None None items) in
  (results (run [ex_fds; ex_fdd; ex_ffds])).*1 = [ex_fds; ex_ffds] /\
  skipped (run [ex_fds; ex_fdd; ex_ffds]) = 1 /\
  (results (run [ex_fds; ex_ffds])).*1 = [ex_fds] /\ skipped (run [ex_fds; ex_ffds]) = 1.
Proof. vm_compute. by split_and!. Qed.
