(* ===== verification/Triage.v ===== *)
(** * The triage profile: [engine/triage.py]

    [TriageProfile] with its derived flags, its JSON form ([to_dict],
    [from_dict], [to_context]) and the clustering of per-domain reports.

    A [FailPhase] is read back through the member table of the running process:
    [cache] is the set of [http_<code>] members that were created before the
    call ([FailPhase._missing_] adds to it). *)

From stdpp Require Import base numbers list strings sorting.
From Stdlib Require Import ZArith Lia SpecFloat.
From S2P Require Import Prelude PyFloat PyStr PyDict PyJson FailPhase.

#[local] Open Scope Z_scope.

Record TriageProfile : Type := Profile {
  dns_hijacked : bool; dns_sinkhole : bool; unbypassable_l3 : bool; l3_phase : FailPhase;
  handshake_phase : FailPhase; rst_at_sni : bool; silent_drop_after_sni : bool;
  stall_phase : FailPhase; stall_at_bytes : option Z;
  bandwidth_throttled : bool; read_rate_bps : float;
  quic_drop : bool; udp_blocked : bool; voice_ok : bool;
  client_hello_len : Z; is_tls_fingerprint_blocked : bool; requires_postquantum_awareness : bool;
  fingerprint_pass : list (string * json);
  domain_phases : list (string * json);
  domain_reports : list (string * list (string * json));
  viable_foolings : list string; viable_blobs : list string; split_mode : string;
  server_hops : option Z; dpi_hops : option Z; autottl_delta : option Z;
  ech_blocked : option bool; http_blocked : option bool;
  dead_foolings : list string; viable_hosts : list string; dpi_diag : list (string * json)
}.

(** [TriageProfile()] *)
Definition default_profile : TriageProfile :=
  {| dns_hijacked := false; dns_sinkhole := false; unbypassable_l3 := false; l3_phase := UNKNOWN;
     handshake_phase := UNKNOWN; rst_at_sni := false; silent_drop_after_sni := false;
     stall_phase := UNKNOWN; stall_at_bytes := None;
     bandwidth_throttled := false; read_rate_bps := S754_zero false;
     quic_drop := false; udp_blocked := false; voice_ok := false;
     client_hello_len := 0; is_tls_fingerprint_blocked := false;
     requires_postquantum_awareness := false; fingerprint_pass := [];
     domain_phases := []; domain_reports := [];
     viable_foolings := []; viable_blobs := []; split_mode := "";
     server_hops := None; dpi_hops := None; autottl_delta := None;
     ech_blocked := None; http_blocked := None;
     dead_foolings := []; viable_hosts := []; dpi_diag := [] |}.

(** ** Derived flags *)

Definition requires_window_clamp (p : TriageProfile) : bool :=
  bool_decide (stall_phase p ∈ [DATA_STALL_7K; DATA_STALL_16K; DATA_STALL_42K; DATA_STALL_64K_PLUS;
                                DATA_STALL_FIRST_REQ; DATA_STALL_TLS_CERT; ZERO_WINDOW_STALL]).

Definition prefer_quic (p : TriageProfile) : bool :=
  bandwidth_throttled p || (negb (quic_drop p) && negb (udp_blocked p)).

Definition bypassable (p : TriageProfile) : bool := negb (unbypassable_l3 p) && negb (dns_sinkhole p).

Definition l7_impersonate_sufficient (p : TriageProfile) : bool := is_tls_fingerprint_blocked p.

Definition prefer_contextual_split (p : TriageProfile) : bool := requires_postquantum_awareness p.

(** ** JSON *)

(** [self.x.value if self.x else None] *)
Definition phase_json (p : FailPhase) : json :=
  if nonempty (value p) then JStr (value p) else JNull.

(** [value in FailPhase._value2member_map_] *)
Definition known_value (cache : list string) (v : string) : bool :=
  bool_decide (v ∈ value <$> static_members) || bool_decide (v ∈ cache).

Definition _fail_phase (cache : list string) (v : json) : FailPhase :=
  match v with
  | JStr s => if known_value cache s then default UNKNOWN (of_value s) else UNKNOWN
  | _ => UNKNOWN
  end.

Definition json_rate (p : TriageProfile) : float :=
  round1 (if feq (read_rate_bps p) (S754_zero false) then S754_zero false else read_rate_bps p).

Definition to_dict (p : TriageProfile) : list (string * json) :=
  [("dns_hijacked", JBool (dns_hijacked p));
   ("dns_sinkhole", JBool (dns_sinkhole p));
   ("unbypassable_l3", JBool (unbypassable_l3 p));
   ("l3_phase", phase_json (l3_phase p));
   ("handshake_phase", phase_json (handshake_phase p));
   ("rst_at_sni", JBool (rst_at_sni p));
   ("silent_drop_after_sni", JBool (silent_drop_after_sni p));
   ("stall_phase", phase_json (stall_phase p));
   ("stall_at_bytes", j_opt_int (stall_at_bytes p));
   ("bandwidth_throttled", JBool (bandwidth_throttled p));
   ("read_rate_bps", JFloat (json_rate p));
   ("quic_drop", JBool (quic_drop p));
   ("udp_blocked", JBool (udp_blocked p));
   ("voice_ok", JBool (voice_ok p));
   ("client_hello_len", JInt (client_hello_len p));
   ("is_tls_fingerprint_blocked", JBool (is_tls_fingerprint_blocked p));
   ("requires_postquantum_awareness", JBool (requires_postquantum_awareness p));
   ("fingerprint_pass", JDict (fingerprint_pass p));
   ("requires_window_clamp", JBool (requires_window_clamp p));
   ("prefer_quic", JBool (prefer_quic p));
   ("bypassable", JBool (bypassable p));
   ("l7_impersonate_sufficient", JBool (l7_impersonate_sufficient p));
   ("prefer_contextual_split", JBool (prefer_contextual_split p));
   ("domain_phases", JDict (domain_phases p));
   ("domain_reports", JDict ((fun dr => (dr.1, JDict dr.2)) <$> domain_reports p));
   ("viable_foolings", j_strs (viable_foolings p));
   ("viable_blobs", j_strs (viable_blobs p));
   ("split_mode", JStr (split_mode p));
   ("server_hops", j_opt_int (server_hops p));
   ("dpi_hops", j_opt_int (dpi_hops p));
   ("autottl_delta", j_opt_int (autottl_delta p));
   ("ech_blocked", j_opt_bool (ech_blocked p));
   ("http_blocked", j_opt_bool (http_blocked p));
   ("dead_foolings", j_strs (dead_foolings p));
   ("viable_hosts", j_strs (viable_hosts p));
   ("dpi_diag", JDict (dpi_diag p))].

(** [{str(d): dict(r) for d, r in (x or {}).items()}] *)
Fixpoint report_rows (rows : list (string * json)) : outcome (list (string * list (string * json))) :=
  match rows with
  | [] => Ret []
  | (d, r) :: rows =>
      r ← match r with JDict r => Ret r | JList _ => Beyond | JStr "" => Ret [] | _ => Raise end;
      rest ← report_rows rows;
      Ret ((d, r) :: rest)
  end.

Definition reports_or_empty (v : json) : outcome (list (string * list (string * json))) :=
  if truthy v then match v with JDict rows => report_rows rows | _ => Raise end else Ret [].

(** The keyword arguments of [from_dict] are evaluated in the source's order. *)
Definition from_dict (cache : list string) (data : option (list (string * json)))
    : outcome TriageProfile :=
  match data with
  | None | Some [] => Ret default_profile
  | Some d =>
      let phase k := _fail_phase cache (jget k d) in
      stall_at ← opt_int (jget "stall_at_bytes" d);
      rate ← float_or_0 (jget "read_rate_bps" d);
      hello ← int_or_0 (jget "client_hello_len" d);
      fps ← dict_or_empty (jget "fingerprint_pass" d);
      phases ← dict_or_empty (jget "domain_phases" d);
      reports ← reports_or_empty (jget "domain_reports" d);
      fools ← strs_or_empty (jget "viable_foolings" d);
      blobs ← strs_or_empty (jget "viable_blobs" d);
      split ← str_or_empty (jget "split_mode" d);
      server ← opt_int (jget "server_hops" d);
      dpi ← opt_int (jget "dpi_hops" d);
      delta ← opt_int (jget "autottl_delta" d);
      ech ← opt_bool (jget "ech_blocked" d);
      http ← opt_bool (jget "http_blocked" d);
      dead ← strs_or_empty (jget "dead_foolings" d);
      hosts ← strs_or_empty (jget "viable_hosts" d);
      diag ← dict_or_empty (jget "dpi_diag" d);
      Ret {| dns_hijacked := get_bool "dns_hijacked" d; dns_sinkhole := get_bool "dns_sinkhole" d;
             unbypassable_l3 := get_bool "unbypassable_l3" d; l3_phase := phase "l3_phase";
             handshake_phase := phase "handshake_phase"; rst_at_sni := get_bool "rst_at_sni" d;
             silent_drop_after_sni := get_bool "silent_drop_after_sni" d;
             stall_phase := phase "stall_phase"; stall_at_bytes := stall_at;
             bandwidth_throttled := get_bool "bandwidth_throttled" d; read_rate_bps := rate;
             quic_drop := get_bool "quic_drop" d; udp_blocked := get_bool "udp_blocked" d;
             voice_ok := get_bool "voice_ok" d; client_hello_len := hello;
             is_tls_fingerprint_blocked := get_bool "is_tls_fingerprint_blocked" d;
             requires_postquantum_awareness := get_bool "requires_postquantum_awareness" d;
             fingerprint_pass := fps; domain_phases := phases; domain_reports := reports;
             viable_foolings := fools; viable_blobs := blobs; split_mode := split;
             server_hops := server; dpi_hops := dpi; autottl_delta := delta;
             ech_blocked := ech; http_blocked := http;
             dead_foolings := dead; viable_hosts := hosts; dpi_diag := diag |}
  end.

Definition j_int_of_bool (b : bool) : json := JInt (Z.b2z b).

Definition to_context (p : TriageProfile) : list (string * json) :=
  [("dns_hijacked", j_int_of_bool (dns_hijacked p));
   ("dns_sinkhole", j_int_of_bool (dns_sinkhole p));
   ("unbypassable_l3", j_int_of_bool (unbypassable_l3 p));
   ("rst_at_sni", j_int_of_bool (rst_at_sni p));
   ("silent_drop_after_sni", j_int_of_bool (silent_drop_after_sni p));
   ("stall", JStr (if nonempty (value (stall_phase p)) then value (stall_phase p) else ""));
   ("throttled", j_int_of_bool (bandwidth_throttled p));
   ("quic_drop", j_int_of_bool (quic_drop p));
   ("client_hello_len", JInt (client_hello_len p));
   ("fp_blocked", j_int_of_bool (is_tls_fingerprint_blocked p));
   ("pq_aware", j_int_of_bool (requires_postquantum_awareness p));
   ("split_mode", JStr (split_mode p));
   ("n_foolings", JInt (Z.of_nat (length (viable_foolings p))))].

(** [disable_ech_from(args, triage)]; [disable_ech] is the truth of the argument. *)
Definition disable_ech_from (disable_ech : bool) (triage : option TriageProfile) : bool :=
  disable_ech || match triage with Some p => bool_decide (ech_blocked p = Some true) | None => false end.

(** ** Clusters of domains *)

Definition _CLUSTER_KEYS : list string :=
  ["phase"; "l3"; "rst_at_sni"; "silent_drop"; "stall"; "quic_drop"; "ip_blocked"; "prolog_ok"].

(** The hashable scalars, up to Python's equality ([True == 1]). *)
Inductive scalar : Type := SNone | SInt (z : Z) | SStr (s : string).

#[export] Instance scalar_eq_dec : EqDecision scalar.
Proof. solve_decision. Defined.

(** A float is not one of the values that preflight writes; a list or a dict is
    not hashable. *)
Definition scalar_of (v : json) : outcome scalar :=
  match v with
  | JNull => Ret SNone
  | JBool b => Ret (SInt (Z.b2z b))
  | JInt z => Ret (SInt z)
  | JStr s => Ret (SStr s)
  | JFloat _ => Beyond
  | JList _ | JDict _ => Raise
  end.

Fixpoint scalars_of (l : list json) : outcome (list scalar) :=
  match l with
  | [] => Ret []
  | v :: l => x ← scalar_of v; xs ← scalars_of l; Ret (x :: xs)
  end.

Definition _report_fingerprint (row : list (string * json)) : outcome (list scalar) :=
  scalars_of ((fun k => jget k row) <$> _CLUSTER_KEYS).

Abbreviation report := (list (string * json)).

Fixpoint fingerprints_of (reports : list (string * report)) : outcome (list (string * list scalar)) :=
  match reports with
  | [] => Ret []
  | (d, r) :: reports =>
      fp ← _report_fingerprint r; rest ← fingerprints_of reports; Ret ((d, fp) :: rest)
  end.

(** [names_for[fp]]: the domains with fingerprint [fp], sorted. *)
Definition names_for (fps : list (string * list scalar)) (fp : list scalar) : list string :=
  py_sorted str_lt (filter (fun d => d.2 = fp) fps).*1.

(** The comparison of the keys [(-len(names), names[0])]. *)
Definition cluster_lt (a b : list scalar * list string) : bool :=
  (length b.2 <? length a.2)%nat
  || ((length a.2 =? length b.2)%nat && str_lt (default "" (head a.2)) (default "" (head b.2))).

(** The clusters in their order; [fingerprints] is a set, taken in the order of the
    rows here, and the sort key tells any two clusters apart. *)
Definition clusters (fps : list (string * list scalar)) : list (list scalar * list string) :=
  py_sorted cluster_lt ((fun fp => (fp, names_for fps fp)) <$> fromkeys fps.*2).

(** One output row: the joined names and the sample's cluster keys. *)
Definition cluster_row (reports : list (string * report)) (c : list scalar * list string) : report :=
  let sample := default [] (dget (default "" (head c.2)) reports) in
  dict_of (("primary_domain", JStr (join ", " c.2))
    :: omap (fun k => v ← dget k sample; Some (k, v)) _CLUSTER_KEYS).

Definition cluster_domain_reports (reports : list (string * report)) : outcome (list report) :=
  fps ← fingerprints_of reports; Ret (cluster_row reports <$> clusters fps).

Definition clustered_primary_domain (reports : list (string * report)) (fallback : string)
    : outcome string :=
  rows ← cluster_domain_reports reports;
  match rows with
  | [] => Ret fallback
  | row :: _ => match jget "primary_domain" row with JStr s => Ret s | _ => Beyond end
  end.

Example clusters_ex :
  clustered_primary_domain
    [("b.com", [("phase", JStr "pass"); ("l3", JBool true)]); ("c.com", [("phase", JStr "quic_drop")]);
     ("a.com", [("l3", JInt 1); ("phase", JStr "pass"); ("x", JNull)])] "f"
  = Ret "a.com, b.com".
Proof. vm_compute. reflexivity. Qed.

(** Grouping by a key is a partition. *)
Lemma group_perm {A K} `{EqDecision K} (f : A -> K) (ks : list K) (l : list A) :
  NoDup ks -> (forall x, x ∈ l -> f x ∈ ks) ->
  concat ((fun k => filter (fun x => f x = k) l) <$> ks) ≡ₚ l.
Proof.
  intros Hnd. revert l. induction Hnd as [|k ks Hk Hnd IH]; intros l Hl.
  - destruct l as [|x l]; [done|]. specialize (Hl x ltac:(by left)). by apply not_elem_of_nil in Hl.
  - rewrite fmap_cons. cbn [concat].
    transitivity (filter (fun x => f x = k) l ++ filter (fun x => f x <> k) l).
    2:{ apply filter_app_complement. }
    apply Permutation_app_head. etransitivity; [|apply (IH (filter (fun x => f x <> k) l))].
    + erewrite list_fmap_ext; [reflexivity|]. intros i j Hj. cbv beta.
      rewrite list_filter_filter. apply list_elem_of_lookup_2 in Hj.
      apply list_filter_iff. intros x. split; [|tauto]. intros ->. split; [done|]. by intros ->.
    + intros x Hx. apply list_elem_of_filter in Hx as [Hne Hx]. specialize (Hl x Hx).
      apply elem_of_cons in Hl as [?|?]; [done|done].
Qed.

#[export] Instance cluster_lt_swo : StrictWeakOrder cluster_lt.
Proof.
  split; unfold cluster_lt.
  - intros x. by rewrite Nat.ltb_irrefl, (swo_irrefl str_lt), andb_false_r.
  - intros x y. generalize (default "" (head x.2)), (default "" (head y.2)), (length x.2), (length y.2).
    intros hx hy nx ny. rewrite orb_true_iff, orb_false_iff, andb_true_iff, andb_false_iff.
    rewrite !Nat.ltb_lt, !Nat.ltb_ge, !Nat.eqb_eq, !Nat.eqb_neq.
    intros [H|[H1 H2]]; (split; [lia|]); [left; lia|]. right. by apply (swo_asym str_lt).
  - intros x y z. generalize (default "" (head x.2)), (default "" (head y.2)), (default "" (head z.2)).
    generalize (length x.2), (length y.2), (length z.2). intros nx ny nz hx hy hz.
    rewrite !orb_false_iff, !andb_false_iff, !Nat.ltb_ge, !Nat.eqb_neq.
    intros [H1 H1'] [H2 H2']. split; [lia|].
    destruct (decide (nx = nz)) as [->|]; [|by left]. right.
    destruct H1' as [?|H1']; [lia|]. destruct H2' as [?|H2']; [lia|]. by eapply (swo_neg_trans str_lt).
Qed.

Lemma fingerprints_of_keys reports fps : fingerprints_of reports = Ret fps -> fps.*1 = keys reports.
Proof.
  revert fps. induction reports as [|[d r] reports IH]; intros fps H; simpl in H; [by simplify_eq|].
  unfold mbind, outcome_bind in H. destruct (_report_fingerprint r); try done.
  destruct (fingerprints_of reports) as [rest| |] eqn:E; try done. simplify_eq.
  rewrite fmap_cons. unfold keys. rewrite fmap_cons. simpl. f_equal. by apply IH.
Qed.

Lemma elem_of_names_for fps fp d : d ∈ names_for fps fp <-> (d, fp) ∈ fps.
Proof.
  unfold names_for. rewrite elem_of_py_sorted, list_elem_of_fmap. split.
  - intros ([d' fp'] & -> & H). apply list_elem_of_filter in H as [H1 H2]. simpl in *. by subst.
  - intros H. exists (d, fp). split; [done|]. by apply list_elem_of_filter.
Qed.

(** The clusters partition the domains: every domain is listed exactly once over all
    clusters, two domains share a cluster exactly when their fingerprints are equal, and
    no cluster is larger than the first one. *)
Theorem clusters_partition reports fps :
  fingerprints_of reports = Ret fps -> NoDup (keys reports) ->
  concat (clusters fps).*2 ≡ₚ keys reports /\
  (forall c d e fd fe, c ∈ clusters fps -> d ∈ c.2 -> (d, fd) ∈ fps -> (e, fe) ∈ fps ->
     (e ∈ c.2 <-> fd = fe)) /\
  (forall c0 cs c, clusters fps = c0 :: cs -> c ∈ clusters fps -> (length c.2 <= length c0.2)%nat).
Proof.
  intros Hf Hnd. apply fingerprints_of_keys in Hf. rewrite <- Hf in *. split_and!.
  - unfold clusters. rewrite py_sorted_perm, <- list_fmap_compose.
    transitivity (concat ((fun k => filter (fun x : string * list scalar => x.2 = k) fps)
                    <$> fromkeys fps.*2)).*1.
    + generalize (fromkeys fps.*2) as ks.
      induction ks as [|k ks IH]; [done|]. rewrite !fmap_cons. cbn [concat]. rewrite fmap_app.
      apply Permutation_app; [apply py_sorted_perm|exact IH].
    + apply fmap_Permutation, group_perm; [apply NoDup_fromkeys|]. intros x Hx.
      apply elem_of_fromkeys. by apply list_elem_of_fmap_2.
  - intros c d e fd fe Hc Hd Hfd Hfe. unfold clusters in Hc. rewrite elem_of_py_sorted in Hc.
    apply list_elem_of_fmap in Hc as (fp & -> & _). simpl in *.
    apply elem_of_names_for in Hd. rewrite elem_of_names_for.
    assert (Huniq : forall d f1 f2, (d, f1) ∈ fps -> (d, f2) ∈ fps -> f1 = f2).
    { intros x f1 f2 Hx1 Hx2. apply (elem_of_dict x f1 fps Hnd) in Hx1.
      apply (elem_of_dict x f2 fps Hnd) in Hx2. congruence. }
    rewrite (Huniq _ _ _ Hfd Hd). split; [intros He; by eapply Huniq|by intros ->].
  - intros c0 cs c H0 Hc. unfold clusters in Hc. rewrite elem_of_py_sorted in Hc.
    pose proof (py_sorted_head cluster_lt _ _ _ _ H0 Hc) as Hh. unfold cluster_lt in Hh.
    apply orb_false_iff in Hh as [Hh _]. by apply Nat.ltb_ge in Hh.
Qed.

(** ** The round trip *)

(** A phase as a process with member cache [cache] reads it back. *)
Definition phase_seen (cache : list string) (p : FailPhase) : FailPhase :=
  if known_value cache (value p) then p else UNKNOWN.

(** What is left of a profile after it was written and read back. *)
Definition reloaded (cache : list string) (p : TriageProfile) : TriageProfile :=
  {| dns_hijacked := dns_hijacked p; dns_sinkhole := dns_sinkhole p;
     unbypassable_l3 := unbypassable_l3 p; l3_phase := phase_seen cache (l3_phase p);
     handshake_phase := phase_seen cache (handshake_phase p); rst_at_sni := rst_at_sni p;
     silent_drop_after_sni := silent_drop_after_sni p;
     stall_phase := phase_seen cache (stall_phase p); stall_at_bytes := stall_at_bytes p;
     bandwidth_throttled := bandwidth_throttled p;
     read_rate_bps := if feq (json_rate p) (S754_zero false) then S754_zero false else json_rate p;
     quic_drop := quic_drop p; udp_blocked := udp_blocked p; voice_ok := voice_ok p;
     client_hello_len := client_hello_len p;
     is_tls_fingerprint_blocked := is_tls_fingerprint_blocked p;
     requires_postquantum_awareness := requires_postquantum_awareness p;
     fingerprint_pass := fingerprint_pass p; domain_phases := domain_phases p;
     domain_reports := domain_reports p; viable_foolings := viable_foolings p;
     viable_blobs := viable_blobs p; split_mode := split_mode p; server_hops := server_hops p;
     dpi_hops := dpi_hops p; autottl_delta := autottl_delta p; ech_blocked := ech_blocked p;
     http_blocked := http_blocked p; dead_foolings := dead_foolings p;
     viable_hosts := viable_hosts p; dpi_diag := dpi_diag p |}.

Definition phases_valid (p : TriageProfile) : Prop :=
  valid (l3_phase p) /\ valid (handshake_phase p) /\ valid (stall_phase p).

Lemma _fail_phase_json cache p : valid p -> _fail_phase cache (phase_json p) = phase_seen cache p.
Proof.
  intros Hv. unfold phase_json, phase_seen.
  assert (nonempty (value p) = true) as -> by (destruct p; reflexivity).
  unfold _fail_phase. by rewrite of_value_value.
Qed.

Lemma report_rows_roundtrip rs :
  report_rows ((fun dr => (dr.1, JDict dr.2)) <$> rs) = Ret rs.
Proof. induction rs as [|[d r] rs IH]; [done|]. rewrite fmap_cons. cbn [report_rows fst snd]. by rewrite IH. Qed.

Lemma reports_roundtrip rs :
  reports_or_empty (JDict ((fun dr => (dr.1, JDict dr.2)) <$> rs)) = Ret rs.
Proof.
  pose proof (report_rows_roundtrip rs) as H. unfold reports_or_empty. rewrite H. by destruct rs.
Qed.

Lemma float_roundtrip f :
  float_or_0 (JFloat f) = Ret (if feq f (S754_zero false) then S754_zero false else f).
Proof. unfold float_or_0. simpl. by destruct (feq f _). Qed.

(** The keys of [to_dict] are distinct, so each of its rows is what [get] finds. *)
Lemma jget_to_dict k v p : (k, v) ∈ to_dict p -> jget k (to_dict p) = v.
Proof.
  intros H. unfold jget. apply elem_of_dict in H; [by rewrite H|].
  unfold wf. change (keys (to_dict p)) with (keys (to_dict default_profile)).
  refine (bool_decide_unpack _ _). vm_compute. exact I.
Qed.

Ltac to_dict_row :=
  unfold to_dict; repeat first [apply list_elem_of_here | apply list_elem_of_further].

Ltac read_rows :=
  repeat match goal with
  | |- context [jget ?k (to_dict ?p)] => erewrite (jget_to_dict k _ p) by to_dict_row
  end.

Lemma profile_roundtrip_core cache p :
  phases_valid p -> from_dict cache (Some (to_dict p)) = Ret (reloaded cache p).
Proof.
  intros (H1 & H2 & H3).
  remember (to_dict p) as d eqn:Ed. destruct d as [|x d']; [by unfold to_dict in Ed|].
  unfold from_dict. rewrite Ed. clear Ed x d'. cbv zeta. unfold get_bool. read_rows.
  rewrite float_roundtrip, reports_roundtrip, !_fail_phase_json by done.
  autorewrite with pyjson. reflexivity.
Qed.

(** Writing a profile with [to_dict] and reading it back with [from_dict] gives
    the profile, up to the rounding of [read_rate_bps] and the phases that the
    reading process has no member for, which become UNKNOWN. *)
Theorem profile_roundtrip cache p :
  phases_valid p -> from_dict cache (Some (to_dict p)) = Ret (reloaded cache p).
Proof. exact (profile_roundtrip_core cache p). Qed.

(** A profile with some content, for the witnesses. *)
Definition ex_profile : TriageProfile :=
  {| dns_hijacked := true; dns_sinkhole := false; unbypassable_l3 := false; l3_phase := PASS;
     handshake_phase := HTTP 403; rst_at_sni := true; silent_drop_after_sni := false;
     stall_phase := DATA_STALL_16K; stall_at_bytes := Some 16384;
     bandwidth_throttled := false; read_rate_bps := f_lit 1025 10;
     quic_drop := true; udp_blocked := false; voice_ok := true;
     client_hello_len := 517; is_tls_fingerprint_blocked := false;
     requires_postquantum_awareness := false; fingerprint_pass := [("chrome", JBool true)];
     domain_phases := [("a.com", JStr "pass")];
     domain_reports := [("a.com", [("l3", JBool false)]); ("b.com", [])];
     viable_foolings := ["tcp_md5"]; viable_blobs := ["stun"]; split_mode := "sni_marker";
     server_hops := Some 12; dpi_hops := Some 4; autottl_delta := None;
     ech_blocked := None; http_blocked := Some false;
     dead_foolings := ["badsid"]; viable_hosts := []; dpi_diag := [] |}.

Lemma profile_roundtrip_witness : from_dict ["http_403"] (Some (to_dict ex_profile)) = Ret ex_profile.
Proof. rewrite (profile_roundtrip ["http_403"] ex_profile); [vm_compute; reflexivity|]. by vm_compute. Defined.

Lemma phase_seen_http c : 300 <= c <= 599 -> phase_seen [] (HTTP c) = UNKNOWN.
Proof.
  intros Hc. unfold phase_seen, known_value. rewrite bool_decide_eq_false_2; [done|].
  intros Hin. apply list_elem_of_fmap in Hin as (p & Hv & Hp).
  assert (Hs : valid p) by (destruct p; try done; by destruct (static_not_http _ code Hp)).
  assert (H1 : of_value (value (HTTP c)) = Some (HTTP c)) by by apply of_value_value.
  rewrite Hv, of_value_value in H1 by done. simplify_eq. by apply (static_not_http _ c) in Hp.
Qed.

(** An HTTP phase does not survive a new process: written by [to_dict] and read by a
    process that has not met the status code, it becomes UNKNOWN; a process that has met
    it reads it back. *)
Theorem http_phase_lost_on_reload p c :
  phases_valid p -> handshake_phase p = HTTP c ->
  (exists q, from_dict [] (Some (to_dict p)) = Ret q /\ handshake_phase q = UNKNOWN) /\
  (exists q, from_dict [value (HTTP c)] (Some (to_dict p)) = Ret q /\ handshake_phase q = HTTP c).
Proof.
  intros Hv Hc. split; eexists; (split; [by apply profile_roundtrip_core|]); simpl; rewrite Hc.
  - apply phase_seen_http. destruct Hv as (_ & Hv & _). by rewrite Hc in Hv.
  - unfold phase_seen, known_value. destruct (bool_decide (_ ∈ [_])) eqn:E; [by rewrite orb_true_r|].
    apply bool_decide_eq_false in E. destruct E. by apply list_elem_of_singleton.
Qed.

Lemma http_phase_lost_on_reload_witness :
  exists q, from_dict [] (Some (to_dict ex_profile)) = Ret q /\ handshake_phase q = UNKNOWN.
Proof.
  refine (proj1 (http_phase_lost_on_reload ex_profile 403 _ _)); [by vm_compute|reflexivity].
Defined.

Definition ex_reports : list (string * report) :=
  [("b.com", [("phase", JStr "pass")]); ("c.com", [("phase", JStr "quic_drop")]);
   ("a.com", [("phase", JStr "pass"); ("x", JNull)])].

Lemma clusters_partition_witness :
  exists fps, fingerprints_of ex_reports = Ret fps /\
    (clusters fps).*2 = [["a.com"; "b.com"]; ["c.com"]] /\
    concat (clusters fps).*2 ≡ₚ keys ex_reports.
Proof.
  eexists. split; [vm_compute; reflexivity|]. split; [vm_compute; reflexivity|].
  refine (proj1 (clusters_partition ex_reports _ _ _)); [vm_compute; reflexivity|].
  refine (bool_decide_unpack _ _). vm_compute. exact I.
Defined.
