(* ===== verification/TriagePrune.v ===== *)
(** * Pruning the matrix by the triage profile

    [engine/family_registry.py] (tags, families, axis filters, item pruning),
    [engine/blob_filter.py], the split test of [generators/families/_helpers.py]
    and the fooling grid of [checkers/fooling_probe.py]. *)

From stdpp Require Import base numbers list strings gmap.
From Stdlib Require Import ZArith Lia Ascii.
From S2P Require Import Prelude PyStr PyRe PyDict FailPhase FamilyAxes Families Triage.

#[local] Open Scope Z_scope.

(** ** Families of a profile *)

Definition triage_checks : list (string * (TriageProfile -> bool)) :=
  [ ("stall", requires_window_clamp);
    ("silent_drop", silent_drop_after_sni);
    ("rst_at_sni", fun p => rst_at_sni p || bool_decide (handshake_phase p = TLS_RST_AT_SNI));
    ("quic_drop", quic_drop);
    ("udp_blocked", udp_blocked) ].

Definition triage_tags (p : TriageProfile) : list string :=
  (filter (fun c => c.2 p = true) triage_checks).*1.

(** [TRIAGE_TO_FAMILIES[tag]]: every tag of [triage_checks] is a key. *)
Definition tag_families (tag : string) : list string := dget_default tag [] TRIAGE_TO_FAMILIES.

Definition families_for_profile (profile : option TriageProfile) : list string :=
  match profile with
  | None => DEFAULT_FAMILIES
  | Some p =>
      match fromkeys (concat (tag_families <$> triage_tags p)) with
      | [] => DEFAULT_FAMILIES
      | l => l
      end
  end.

(** ** Dead foolings *)

Definition _FOOLING_EQUIV : list (string * list string) :=
  [("tcp_seq", ["tcp_seq"; "badsid"]); ("badsid", ["tcp_seq"; "badsid"])].

Definition FOOL_TOKENS : list string :=
  ["badsum"; "tcp_md5"; "badsid"; "tcp_ts"; "tcp_seq"; "tcp_ack"; "send"].

Definition _FOOL_TOKEN_RE : re :=
  seqs [Group 1 (alts (lit <$> FOOL_TOKENS)); alts [lit "="; lit ":"; Eol]].

Definition _IP_TTL_RE : re := keyed "ip_ttl=" is_digit.

Definition _fooling_key (token : string) : string := before ":" (before "=" token).

Definition fooling_class (key : string) : list string := dget_default key [key] _FOOLING_EQUIV.

Definition dead_fooling_tokens (profile : option TriageProfile) : list string :=
  match profile with
  | None => []
  | Some p => fromkeys (concat ((fun f => fooling_class (_fooling_key f)) <$> dead_foolings p))
  end.

(** A Python set of strings as a list. *)
Definition strategy_fooling_keys (strategy : string) : list string := findall1 _FOOL_TOKEN_RE strategy.

(** [keys & dead] is not empty *)
Definition meets (keys dead : list string) : bool := existsb (fun k => bool_decide (k ∈ dead)) keys.

Definition filter_fooling_values (fools : list string) (profile : option TriageProfile) : list string :=
  let dead := dead_fooling_tokens profile in
  filter (fun f => negb (meets (strategy_fooling_keys (":" +:+ f)) dead) = true) fools.

(** ** TTL and split positions *)

(** The static TTL of a strategy: the number after its first [ip_ttl=]. *)
Definition ttl_of (strategy : string) : option Z :=
  m ← search _IP_TTL_RE strategy; g ← group 1 m; Some (digits_val 0 g).

Definition _ttl_ok (strategy : string) (dpi_hops server_hops : option Z) : bool :=
  match dpi_hops, server_hops with
  | None, None => true
  | _, _ =>
      match ttl_of strategy with
      | None => true
      | Some ttl =>
          if match dpi_hops with Some d => ttl <? d | None => false end then false
          else negb (match server_hops with Some s => s <=? ttl | None => false end)
      end
  end.

(** [int(ttl)] on an axis value; [None] is the caught exception. *)
Definition axis_int (v : axval) : option Z :=
  match v with
  | VInt z => Some z
  | VBool b => Some (Z.b2z b)
  | VStr s => py_int s
  | _ => None
  end.

Definition _ttl_axis_ok (ttl : axval) (dpi server : option Z) : bool :=
  if match ttl with VStr s => negb (isdigit (lstrip_by (Ascii.eqb "-") s)) | _ => false end then true
  else match axis_int ttl with
       | None => true
       | Some n => _ttl_ok ("ip_ttl=" +:+ str_of_Z n) dpi server
       end.

Definition filter_ttl_values (ttls : list axval) (profile : option TriageProfile) (scan_level : string)
    : list axval :=
  match profile with
  | None => ttls
  | Some p =>
      if String.eqb scan_level "full" then ttls
      else match dpi_hops p, server_hops p with
           | None, None => ttls
           | dpi, server => filter (fun t => _ttl_axis_ok t dpi server = true) ttls
           end
  end.

Definition _pos_ok (pos mode : string) : bool :=
  if String.eqb mode "first_byte" then negb (contains "sniext" pos)
  else if String.eqb mode "sni_marker" then negb (String.eqb pos "1") && negb (startswith "1," pos)
  else true.

Definition filter_split_positions (positions : list axval) (profile : option TriageProfile)
    (scan_level : string) : list axval :=
  match profile with
  | None => positions
  | Some p =>
      if String.eqb scan_level "full" || negb (nonempty (split_mode p)) then positions
      else filter (fun x => _pos_ok (py_str x) (split_mode p) = true) positions
  end.

Definition not_colon (c : ascii) : bool := negb (Ascii.eqb c ":").
Definition is_letter (c : ascii) : bool := is_upper c || is_lower c.

Definition _static_numeric_split (strategy : string) : bool :=
  match findall1 (keyed "pos=" not_colon) strategy with
  | [] => false
  | l => forallb (fun v => negb (found (search (Chr is_letter) v))) l
  end.

(** ** Blobs *)

Definition BLOB_CLASS_MAP : list (string * string) :=
  [ ("stun", "stun"); ("stun2", "stun"); ("google", "tls_clienthello");
    ("tls_clienthello", "tls_clienthello"); ("max_ru", "tls_clienthello");
    ("4pda", "tls_clienthello"); ("tls_vk", "tls_clienthello"); ("tls_5ka", "tls_clienthello");
    ("tls_funpay", "tls_clienthello"); ("tls_rzd", "tls_clienthello");
    ("discord_udp", "discord_udp"); ("discord_ipdisc", "discord_udp"); ("game_udp", "game_udp");
    ("quic_google", "quic"); ("quic_initial", "quic"); ("quic_dbank", "quic"); ("quic_4pda", "quic");
    ("quic_vk", "quic"); ("quic_tencent", "quic"); ("quic_steam", "quic"); ("quic_5ka", "quic");
    ("quic_rutube", "quic"); ("quic_funpay", "quic"); ("quic_cloudflare", "quic");
    ("quic_alfabank", "quic"); ("quic_gv_kyber", "quic"); ("quic_gv_kyber_1", "quic");
    ("quic_gv_kyber_2", "quic"); ("quic_gv_rr2", "quic") ].

Definition blob_class (alias : string) : string :=
  match dget alias BLOB_CLASS_MAP with
  | Some c => c
  | None =>
      if startswith "quic_" alias then "quic"
      else if startswith "tls_" alias then "tls_clienthello"
      else "other"
  end.

Definition aliases_for_class (cls : string) : list string :=
  (filter (fun ac => ac.2 = cls \/ ac.1 = cls) BLOB_CLASS_MAP).*1.

(** [BLOB_ALIAS_MAP] of [engine/blob_aliases.py]. *)
Definition BLOB_ALIAS_MAP : list (string * string) :=
  [ ("google", "tls_clienthello_www_google_com.bin");
    ("tls_clienthello", "tls_clienthello_www_google_com.bin");
    ("max_ru", "tls_clienthello_max_ru.bin");
    ("stun", "stun.bin");
    ("stun2", "stun2.bin");
    ("4pda", "tls_clienthello_4pda_to.bin");
    ("p4da", "tls_clienthello_4pda_to.bin");
    ("discord_udp", "discord_udp.bin");
    ("discord_ipdisc", "discord_ipdisc.bin");
    ("quic_google", "quic_initial_www_google_com.bin");
    ("quic_dbank", "quic_initial_dbankcloud_ru.bin");
    ("quic_initial", "quic_initial.bin");
    ("quic_4pda", "quic_4pda.bin");
    ("quic_tencent", "quic_tencent.bin");
    ("quic_steam", "quic_steam.bin");
    ("quic_5ka", "quic_5ka.bin");
    ("quic_rutube", "quic_rutube.bin");
    ("tls_5ka", "tls_5ka.bin");
    ("quic_funpay", "quic_funpay.bin");
    ("quic_cloudflare", "quic_cloudflare.bin");
    ("quic_alfabank", "quic_alfabank.bin");
    ("tls_funpay", "tls_funpay.bin");
    ("tls_rzd", "tls_rzd.bin");
    ("quic_gv_kyber", "quic_gv_kyber_1.bin");
    ("quic_gv_kyber_1", "quic_gv_kyber_1.bin");
    ("quic_gv_kyber_2", "quic_gv_kyber_2.bin");
    ("quic_gv_rr2", "quic_gv_rr2.bin");
    ("tls_vk", "tls_clienthello_vk_com.bin");
    ("quic_vk", "quic_initial_vk_com.bin");
    ("game_udp", "game_udp.bin");
    ("wireguard_init", "wireguard_init.bin");
    ("http_iana", "http_iana.bin") ].

(** [list(BLOB_ALIAS_MAP)] *)
Definition BLOB_ALIASES : list string := Eval vm_compute in keys BLOB_ALIAS_MAP.

Definition UDP_PROTOCOLS : list string := ["udp_voice"; "udp_game"; "quic"].
Definition UDP_BLOB_CLASSES : list string := ["discord_udp"; "game_udp"; "quic"].

Definition blob_allowed (allowed : list string) (protocol a : string) : bool :=
  bool_decide (a ∈ allowed) || bool_decide (blob_class a ∈ allowed)
  || (bool_decide (protocol ∈ UDP_PROTOCOLS) && bool_decide (blob_class a ∈ UDP_BLOB_CLASSES)).

Definition filter_blob_aliases (aliases : option (list string)) (profile : option TriageProfile)
    (protocol : string) : list string :=
  let pool := default BLOB_ALIASES aliases in
  match profile with
  | None => pool
  | Some p =>
      match viable_blobs p with
      | [] => pool
      | allowed => filter (fun a => blob_allowed allowed protocol a = true) pool
      end
  end.

Definition _blob_ok (strategy : string) (p : TriageProfile) (protocol : string) : bool :=
  let aliases := findall1 (keyed "blob=" (fun c => is_alnum c || Ascii.eqb c "_")) strategy in
  match aliases, viable_blobs p with
  | [], _ | _, [] => true
  | _, _ => match filter_blob_aliases (Some aliases) (Some p) protocol with [] => false | _ => true end
  end.

(** ** Pruning *)

Definition _item_survives (item : StrategyItem) (p : TriageProfile) (dead : list string)
    (dpi server : option Z) (contextual : bool) (split_mode : string) : bool :=
  let strat := strategy item in
  if meets (strategy_fooling_keys strat) dead then false
  else if negb (_ttl_ok strat dpi server) then false
  else
    let proto := if nonempty (protocol item) then protocol item else "tcp" in
    if negb (_blob_ok strat p proto) then false
    else if contextual && _static_numeric_split strat then false
    else if String.eqb split_mode "first_byte" && contains "sniext" strat then false
    else negb (String.eqb split_mode "sni_marker"
               && found (search (seqs [lit "pos=1"; alts [lit ","; Eol]]) strat)).

Definition prune_items_by_triage (items : list StrategyItem) (profile : option TriageProfile)
    (scan_level : string) : list StrategyItem :=
  match profile with
  | None => items
  | Some p =>
      if negb (bypassable p) then []
      else
        let dead := dead_fooling_tokens profile in
        let full := String.eqb scan_level "full" in
        let dpi := if full then None else dpi_hops p in
        let server := if full then None else server_hops p in
        let mode := if full then "" else split_mode p in
        filter (fun it => _item_survives it p dead dpi server (prefer_contextual_split p) mode = true) items
  end.

(** ** Custom Lua

    [load_custom_lua_manifest] reads a TOML file: its rows are an argument. *)

Record lua_meta : Type := LuaMeta {
  lua_file : string; included : list string; excluded : list string; description : string;
  requires_triage : list string; blob_classes : list string
}.

Definition _lua_matches (meta : lua_meta) (tags : list string) : bool :=
  match requires_triage meta with [] => true | required => meets tags required end.

Definition lua_entries_for_triage (manifest : list (string * lua_meta)) (profile : option TriageProfile)
    : list (string * lua_meta) :=
  let tags := match profile with Some p => triage_tags p | None => [] end in
  filter (fun e => _lua_matches e.2 tags = true) manifest.

Definition lua_files_for_triage (manifest : list (string * lua_meta)) (profile : option TriageProfile)
    : list string :=
  fromkeys ((fun e => lua_file e.2) <$> lua_entries_for_triage manifest profile).

(** ** The fooling grid of [checkers/fooling_probe.py]: its labels *)

Definition FOOLING_GRID : list (string * string) :=
  [("tcp_ts=-1000", "tcp_ts=-1000"); ("tcp_md5", "tcp_md5"); ("badsum", "badsum");
   ("tcp_seq=1000", "tcp_seq=1000"); ("tcp_ack=-66000:tcp_ts_up", "tcp_ack=-66000:tcp_ts_up")].

Example prune_ex :
  strategy_fooling_keys "fake:blob=stun:tcp_md5:tcp_ack=-66000:tcp_ts_up" = ["tcp_md5"; "tcp_ack"] /\
  ttl_of "fake:ip_ttl=12:x" = Some 12 /\ ttl_of "fake:ip_autottl=-1,3-20" = None /\
  _static_numeric_split "multisplit:pos=1,2" = true /\
  _static_numeric_split "multisplit:pos=1,midsld" = false /\
  _ttl_axis_ok (VStr "3") (Some 4) None = false /\ _ttl_axis_ok (VStr "-1,3-20") (Some 4) None = true /\
  _ttl_axis_ok (VInt 12) (Some 4) (Some 12) = false.
Proof. vm_compute. by split_and!. Qed.

(** ** Theorems *)

Lemma tags_are_keys p t : t ∈ triage_tags p -> t ∈ keys TRIAGE_TO_FAMILIES.
Proof.
  unfold triage_tags. intros (c & -> & Hc)%list_elem_of_fmap.
  apply list_elem_of_filter in Hc as [_ Hc].
  assert (Forall (fun t => t ∈ keys TRIAGE_TO_FAMILIES) triage_checks.*1) as H.
  { refine (bool_decide_unpack _ _). vm_compute. exact I. }
  rewrite Forall_forall in H. apply H. by apply list_elem_of_fmap_2.
Qed.

Lemma tag_families_ne t : t ∈ keys TRIAGE_TO_FAMILIES -> tag_families t <> [].
Proof.
  revert t. apply Forall_forall. refine (bool_decide_unpack _ _). vm_compute. exact I.
Qed.

Lemma tag_families_registered t n : n ∈ tag_families t -> n ∈ registry_names.
Proof.
  unfold tag_families, dget_default. destruct (dget t _) as [fs|] eqn:E; simpl.
  - apply elem_of_dict in E; [by apply triage_families_registered with (1 := E)|].
    refine (bool_decide_unpack _ _). vm_compute. exact I.
  - by intros ?%not_elem_of_nil.
Qed.

Lemma elem_of_concat_fmap {A B} (f : A -> list B) l x :
  x ∈ concat (f <$> l) <-> exists a, a ∈ l /\ x ∈ f a.
Proof.
  induction l as [|a l IH].
  - simpl. split; [by intros ?%not_elem_of_nil|]. by intros (? & ?%not_elem_of_nil & _).
  - rewrite fmap_cons. cbn [concat]. rewrite elem_of_app, IH. set_solver.
Qed.

Lemma families_of_tags p :
  families_for_profile (Some p) =
    match triage_tags p with
    | [] => DEFAULT_FAMILIES
    | _ => fromkeys (concat (tag_families <$> triage_tags p))
    end.
Proof.
  unfold families_for_profile. destruct (triage_tags p) as [|t ts] eqn:E; [done|].
  destruct (fromkeys _) as [|f fs] eqn:Ef; [|done]. exfalso.
  pose proof (tag_families_ne t (tags_are_keys p t ltac:(rewrite E; by left))) as Hne.
  destruct (tag_families t) as [|f fs] eqn:Et; [done|].
  assert (Hin : f ∈ fromkeys (concat (tag_families <$> t :: ts))).
  { apply elem_of_fromkeys, elem_of_concat_fmap. exists t. split; [by left|]. rewrite Et. by left. }
  rewrite Ef in Hin. by apply not_elem_of_nil in Hin.
Qed.

(** The families recommended for a profile are a non-empty list of registered
    families without repetitions; when some triage tag is active they are exactly the
    families of the active tags, otherwise (and with no profile) the default ones. *)
Theorem families_for_profile_spec profile :
  families_for_profile profile <> [] /\ NoDup (families_for_profile profile) /\
  (forall f, f ∈ families_for_profile profile -> f ∈ registry_names) /\
  match profile with
  | None => families_for_profile profile = DEFAULT_FAMILIES
  | Some p =>
      (triage_tags p = [] -> families_for_profile profile = DEFAULT_FAMILIES) /\
      (triage_tags p <> [] -> forall f,
         f ∈ families_for_profile profile <-> exists t, t ∈ triage_tags p /\ f ∈ tag_families t)
  end.
Proof.
  assert (Hd : NoDup DEFAULT_FAMILIES) by (refine (bool_decide_unpack _ _); vm_compute; exact I).
  destruct profile as [p|]; [|by split_and!; [| |apply default_families_registered|]].
  assert (Hin : triage_tags p <> [] -> forall f,
    f ∈ families_for_profile (Some p) <-> exists t, t ∈ triage_tags p /\ f ∈ tag_families t).
  { intros Ht f. rewrite families_of_tags. destruct (triage_tags p) eqn:E; [done|].
    by rewrite elem_of_fromkeys, elem_of_concat_fmap. }
  split_and!; [| | |intros Ht; by rewrite families_of_tags, Ht|exact Hin].
  - unfold families_for_profile. by destruct (fromkeys _).
  - unfold families_for_profile. destruct (fromkeys _) as [|a l] eqn:E; [done|].
    rewrite <- E. apply NoDup_fromkeys.
  - intros f Hf. destruct (decide (triage_tags p = [])) as [Ht|Ht].
    + rewrite families_of_tags, Ht in Hf. by apply default_families_registered.
    + apply Hin in Hf as (t & _ & Hf); [|done]. by eapply tag_families_registered.
Qed.

(** *** Dead foolings *)

Lemma elem_of_dead p t :
  t ∈ dead_fooling_tokens (Some p) <->
  exists f, f ∈ dead_foolings p /\ t ∈ fooling_class (_fooling_key f).
Proof. unfold dead_fooling_tokens. by rewrite elem_of_fromkeys, elem_of_concat_fmap. Qed.

(** The equivalence classes: symmetric, and each key is in its own. *)
Lemma fooling_class_refl k : k ∈ fooling_class k.
Proof.
  unfold fooling_class, dget_default, _FOOLING_EQUIV. simpl.
  repeat case_decide; subst; simpl; set_solver.
Qed.

Lemma fooling_class_pair k : "tcp_seq" ∈ fooling_class k <-> "badsid" ∈ fooling_class k.
Proof.
  unfold fooling_class, dget_default, _FOOLING_EQUIV. simpl.
  repeat case_decide; subst; simpl; [set_solver..|].
  rewrite !list_elem_of_singleton. split; intros <-; done.
Qed.

Lemma meets_spec ks dead : meets ks dead = true <-> exists k, k ∈ ks /\ k ∈ dead.
Proof.
  unfold meets. rewrite existsb_exists. split.
  - intros (k & Hk & Hd%bool_decide_eq_true). exists k. by rewrite list_elem_of_In.
  - intros (k & Hk & Hd). exists k. by rewrite <- list_elem_of_In, bool_decide_eq_true.
Qed.

(** The dead tokens are closed under the sequence-number equivalence (tcp_seq is dead
    exactly when badsid is), and every fooling of the probe grid that was found dead is
    dropped from the axis values. *)
Theorem dead_foolings_dropped p :
  ("tcp_seq" ∈ dead_fooling_tokens (Some p) <-> "badsid" ∈ dead_fooling_tokens (Some p)) /\
  (forall fools, filter_fooling_values fools (Some p) `sublist_of` fools) /\
  (forall f fools, f ∈ FOOLING_GRID.*1 -> f ∈ dead_foolings p ->
     f ∉ filter_fooling_values fools (Some p)).
Proof.
  split_and!.
  - rewrite !elem_of_dead. split; intros (f & Hf & Hk); exists f; split; try done; by apply fooling_class_pair.
  - intros fools. apply sublist_filter.
  - intros f fools Hg Hf Hin. apply list_elem_of_filter in Hin as [Hno _].
    apply negb_true_iff, not_true_iff_false in Hno. apply Hno, meets_spec.
    exists (_fooling_key f). split; [|apply elem_of_dead; exists f; split; [done|apply fooling_class_refl]].
    assert (Forall (fun f => _fooling_key f ∈ strategy_fooling_keys (":" +:+ f)) FOOLING_GRID.*1) as H.
    { refine (bool_decide_unpack _ _). vm_compute. exact I. }
    rewrite Forall_forall in H. by apply H.
Qed.

(** *** TTL *)

Definition hops_allow (n : Z) (dpi server : option Z) : Prop :=
  (forall d, dpi = Some d -> d <= n) /\ (forall s, server = Some s -> n < s).

Lemma ttl_ok_spec strat dpi server :
  _ttl_ok strat dpi server = true <-> forall n, ttl_of strat = Some n -> hops_allow n dpi server.
Proof.
  unfold _ttl_ok, hops_allow.
  assert (Hb : forall n, (if match dpi with Some d => n <? d | None => false end then false
      else negb (match server with Some s => s <=? n | None => false end)) = true <->
      (forall d, dpi = Some d -> d <= n) /\ (forall s, server = Some s -> n < s)).
  { intros n. destruct dpi as [d|], server as [s|]; simpl;
      try destruct (Z.ltb_spec n d); try destruct (Z.leb_spec s n); simpl;
      (split; [intros Hx; try done; split; intros ? [= <-]; lia|intros [Hx Hy]; try done]);
      try specialize (Hx _ eq_refl); try specialize (Hy _ eq_refl); lia. }
  assert (Ht : match ttl_of strat with None => true | Some ttl =>
      if match dpi with Some d => ttl <? d | None => false end then false
      else negb (match server with Some s => s <=? ttl | None => false end) end = true <->
      forall n, ttl_of strat = Some n -> (forall d, dpi = Some d -> d <= n) /\ (forall s, server = Some s -> n < s)).
  { destruct (ttl_of strat) as [n|]; [|by split]. rewrite Hb.
    split; [by intros Hx ? [= <-]|intros Hx; by apply Hx]. }
  destruct dpi, server; try exact Ht. split; [|done]. intros _ n _. by split.
Qed.

Lemma ttl_of_number n s :
  0 <= n -> head_fails is_digit s = true -> ttl_of ("ip_ttl=" +:+ str_of_Z n +:+ s) = Some n.
Proof.
  intros Hn Hs. destruct (str_of_Z_nonneg n Hn) as [H1 H3].
  unfold isdigit in H1. apply andb_true_iff in H1 as [H1 H2].
  unfold ttl_of. destruct (search_keyed_here "ip_ttl=" is_digit (str_of_Z n) s) as (m & Hm & Hg); try done.
  unfold _IP_TTL_RE. rewrite Hm.
  cbv beta iota delta [mbind option_bind]. by rewrite Hg, H3.
Qed.

(** Below the "full" level the static TTL axis keeps exactly the values that reach
    the DPI box and die before the server (as far as the two hop counts are known);
    the auto-TTL strings are kept whatever the hop counts. *)
Theorem filter_ttl_values_spec ttls p level n :
  level <> "full" -> 0 <= n ->
  (VInt n ∈ filter_ttl_values ttls (Some p) level <->
     VInt n ∈ ttls /\ hops_allow n (dpi_hops p) (server_hops p)) /\
  (forall s, isdigit (lstrip_by (Ascii.eqb "-") s) = false ->
     VStr s ∈ filter_ttl_values ttls (Some p) level <-> VStr s ∈ ttls).
Proof.
  intros Hl Hn. unfold filter_ttl_values. destruct (String.eqb_spec level "full"); [done|].
  assert (Hok : forall dpi server, _ttl_axis_ok (VInt n) dpi server = true <-> hops_allow n dpi server).
  { intros dpi server. unfold _ttl_axis_ok. simpl. rewrite ttl_ok_spec.
    pose proof (ttl_of_number n EmptyString Hn eq_refl) as Ht. rewrite append_nil_r in Ht.
    split; [intros H; by apply H|intros H k Hk; rewrite Ht in Hk; by simplify_eq]. }
  assert (Hs : forall s dpi server, isdigit (lstrip_by (Ascii.eqb "-") s) = false ->
    _ttl_axis_ok (VStr s) dpi server = true) by (intros s dpi server H; unfold _ttl_axis_ok; by rewrite H).
  destruct (dpi_hops p) as [d|] eqn:Ed, (server_hops p) as [v|] eqn:Ev; split;
    try (intros s Hd); rewrite ?list_elem_of_filter, ?Hok, ?(Hs _ _ _ Hd); try tauto.
  split; [|by intros [? _]]. intros H. split; [done|]. by split.
Qed.

(** *** Pruning *)

Lemma if_false_iff (a b : bool) : (if a then false else b) = true <-> a = false /\ b = true.
Proof. destruct a; intuition congruence. Qed.

(** A strategy survives the pruning by a profile exactly when the profile is bypassable,
    none of its fooling tokens is dead, one of its blobs is viable, it does not split only
    at numbers under a post-quantum ClientHello and, below the "full" level, its static TTL
    is allowed by the hop counts and its positions fit the split mode. *)
Theorem prune_items_spec items p level it :
  it ∈ prune_items_by_triage items (Some p) level <->
  it ∈ items /\ bypassable p = true /\
  (forall k, k ∈ strategy_fooling_keys (strategy it) -> k ∉ dead_fooling_tokens (Some p)) /\
  _blob_ok (strategy it) p (if nonempty (protocol it) then protocol it else "tcp") = true /\
  (prefer_contextual_split p = true -> _static_numeric_split (strategy it) = false) /\
  (level <> "full" ->
     (forall n, ttl_of (strategy it) = Some n -> hops_allow n (dpi_hops p) (server_hops p)) /\
     (split_mode p = "first_byte" -> contains "sniext" (strategy it) = false) /\
     (split_mode p = "sni_marker" ->
        found (search (seqs [lit "pos=1"; alts [lit ","; Eol]]) (strategy it)) = false)).
Proof.
  assert (Hdead : meets (strategy_fooling_keys (strategy it)) (dead_fooling_tokens (Some p)) = false <->
    (forall k, k ∈ strategy_fooling_keys (strategy it) -> k ∉ dead_fooling_tokens (Some p))).
  { rewrite <- not_true_iff_false, meets_spec. set_solver. }
  unfold prune_items_by_triage. destruct (bypassable p); simpl; [|set_solver].
  rewrite list_elem_of_filter, <- Hdead. unfold _item_survives.
  set (marker := search _ _). clearbody marker.
  destruct (String.eqb_spec level "full") as [Hf|Hf].
  - assert (Ht : _ttl_ok (strategy it) None None = true) by done.
    rewrite Ht, !if_false_iff, !negb_false_iff, andb_false_iff. simpl.
    destruct (prefer_contextual_split p); intuition congruence.
  - rewrite <- ttl_ok_spec, !if_false_iff, !negb_false_iff, negb_true_iff, !andb_false_iff.
    destruct (prefer_contextual_split p), (String.eqb_spec (split_mode p) "first_byte"),
      (String.eqb_spec (split_mode p) "sni_marker"); intuition congruence.
Qed.

Lemma prune_sublist items profile level : prune_items_by_triage items profile level `sublist_of` items.
Proof.
  destruct profile as [p|]; [|done]. unfold prune_items_by_triage.
  destruct (negb _); [apply sublist_nil_l|apply sublist_filter].
Qed.

(** *** Blobs and Lua *)

Lemma elem_of_filter_blobs aliases p protocol a :
  a ∈ filter_blob_aliases (Some aliases) (Some p) protocol <->
  a ∈ aliases /\ (viable_blobs p = [] \/ blob_allowed (viable_blobs p) protocol a = true).
Proof.
  unfold filter_blob_aliases. simpl. destruct (viable_blobs p) eqn:E; [by intuition|].
  rewrite list_elem_of_filter. intuition congruence.
Qed.

(** The blob filter keeps exactly the aliases of a viable name or class; it never drops a
    UDP or QUIC blob of a UDP or QUIC strategy, and the classes agree with
    [aliases_for_class]: naming a class viable keeps every alias listed for it. *)
Theorem filter_blob_aliases_spec aliases p protocol :
  filter_blob_aliases (Some aliases) (Some p) protocol `sublist_of` aliases /\
  (forall a, a ∈ aliases -> protocol ∈ UDP_PROTOCOLS -> blob_class a ∈ UDP_BLOB_CLASSES ->
     a ∈ filter_blob_aliases (Some aliases) (Some p) protocol) /\
  (forall c a, c ∈ viable_blobs p -> a ∈ aliases_for_class c -> a ∈ aliases ->
     a ∈ filter_blob_aliases (Some aliases) (Some p) protocol) /\
  (forall a, viable_blobs p <> [] -> protocol ∉ UDP_PROTOCOLS ->
     a ∈ filter_blob_aliases (Some aliases) (Some p) protocol ->
     a ∈ viable_blobs p \/ blob_class a ∈ viable_blobs p).
Proof.
  split_and!.
  - unfold filter_blob_aliases. simpl. destruct (viable_blobs p); [done|apply sublist_filter].
  - intros a Ha Hp Hc. apply elem_of_filter_blobs. split; [done|]. right. unfold blob_allowed.
    by rewrite (bool_decide_eq_true_2 _ Hp), (bool_decide_eq_true_2 _ Hc), orb_true_r.
  - intros c a Hc Hcls Ha. apply elem_of_filter_blobs. split; [done|]. right.
    apply list_elem_of_fmap in Hcls as ([a' c'] & -> & Hcls).
    apply list_elem_of_filter in Hcls as [Heq Hin]. simpl in *. unfold blob_allowed.
    destruct Heq as [->| ->]; [|by rewrite (bool_decide_eq_true_2 _ Hc)].
    apply elem_of_dict in Hin; [|refine (bool_decide_unpack _ _); vm_compute; exact I].
    unfold blob_class. rewrite Hin, (bool_decide_eq_true_2 _ Hc). by rewrite orb_true_r.
  - intros a Hne Hp Ha. apply elem_of_filter_blobs in Ha as [_ [?|Ha]]; [done|].
    unfold blob_allowed in Ha. rewrite (bool_decide_eq_false_2 _ Hp), orb_false_r in Ha.
    apply orb_true_iff in Ha as [Ha|Ha]; apply bool_decide_eq_true in Ha; tauto.
Qed.

(** The rows of the manifest that need no tag are always loaded; a row that needs one
    is loaded when the profile has it. *)
Lemma elem_of_lua_entries manifest profile e :
  e ∈ lua_entries_for_triage manifest profile <->
  e ∈ manifest /\ (requires_triage e.2 = [] \/
    exists p t, profile = Some p /\ t ∈ triage_tags p /\ t ∈ requires_triage e.2).
Proof.
  unfold lua_entries_for_triage. rewrite list_elem_of_filter. unfold _lua_matches.
  destruct (requires_triage e.2) as [|r rs] eqn:E; [by intuition|]. rewrite meets_spec.
  destruct profile as [p|].
  - split; [intros [(k & H1 & H2) H]; eauto 10|intros [H [?|(q & t & [= <-] & H1 & H2)]]; [done|eauto]].
  - split; [intros [(k & H1 & H2) H]; by apply not_elem_of_nil in H1|by intros [H [?|(q & t & ? & _)]]].
Qed.

(** ** Witnesses *)

Definition ex_prune_item (s : string) : StrategyItem := mk_item "std_fake_1" s.

Lemma filter_ttl_values_spec_witness :
  VInt 5 ∈ filter_ttl_values [VInt 3; VInt 5; VInt 12; VStr "-1,3-20"] (Some ex_profile) "fast" /\
  filter_ttl_values [VInt 3; VInt 5; VInt 12; VStr "-1,3-20"] (Some ex_profile) "fast"
    = [VInt 5; VStr "-1,3-20"].
Proof.
  split; [|vm_compute; reflexivity].
  refine (proj2 (proj1 (filter_ttl_values_spec [VInt 3; VInt 5; VInt 12; VStr "-1,3-20"] ex_profile "fast" 5 _ _)) _);
    [done|lia|]. split; [right; by left|]. split; intros ? [= <-]; lia.
Defined.

Example prune_items_ex :
  prune_items_by_triage
    (ex_prune_item <$> ["fake:blob=stun:tcp_md5"; "fake:blob=stun:tcp_seq=1000"; "fake:blob=google:tcp_md5";
                        "fake:ip_ttl=3"; "fake:ip_ttl=4"; "multisplit:pos=1"; "multisplit:pos=10"])
    (Some ex_profile) "fast"
  = ex_prune_item <$> ["fake:blob=stun:tcp_md5"; "fake:ip_ttl=4"; "multisplit:pos=10"].
Proof. vm_compute. reflexivity. Qed.
