(* ===== verification/Weights.v ===== *)
(** * Strategy genetics: the first half of [engine/adaptive_queue.py]

    Domain clusters, the blob hints and traits read off a strategy string, the
    run metrics and the weight table [ScanWeights]. [lru_cache] does not change
    what a function returns and is left out. *)

From stdpp Require Import base numbers list strings gmap.
From Stdlib Require Import ZArith Lia Ascii SpecFloat.
From S2P Require Import Prelude PyFloat PyStr PyRe PyDict FailPhase FamilyAxes Families Triage TriagePrune.

#[local] Open Scope Z_scope.

(** ** Domain clusters *)

Definition CLUSTER_DISCORD : string := "discord".
Definition CLUSTER_GOOGLE : string := "google".
Definition CLUSTER_YOUTUBE : string := "youtube".
Definition CLUSTER_GENERAL : string := "general".

Definition _DISCORD_RE : re := alts (liti <$> ["discord"; "discordapp"; "discord.gg"; "discord.media"]).
Definition _GOOGLE_RE : re :=
  alts (liti <$> ["google"; "gstatic"; "googleapis"; "ggpht"; "googleusercontent"]).
Definition _YOUTUBE_RE : re := alts (liti <$> ["youtube"; "googlevideo"; "ytimg"; "youtu.be"]).

Definition cluster_domain (domain : string) : string :=
  let d := strip_char "." (before "/" (lower domain)) in
  if found (search _DISCORD_RE d) then CLUSTER_DISCORD
  else if found (search _YOUTUBE_RE d) then CLUSTER_YOUTUBE
  else if found (search _GOOGLE_RE d) then CLUSTER_GOOGLE
  else CLUSTER_GENERAL.

(** [idx[cluster_domain(d)].append(d)] on a [defaultdict(list)] *)
Definition _cluster_domain_index (domains : list string) : list (string * list string) :=
  foldl (fun idx d => let c := cluster_domain d in dset c (dget_default c [] idx ++ [d]) idx) [] domains.

Definition sibling_domains (domain : string) (all_domains : list string)
    (cluster_index : option (list (string * list string))) : list string :=
  let cluster := cluster_domain domain in
  match cluster_index with
  | Some idx => filter (fun d => d <> domain) (dget_default cluster [] idx)
  | None => filter (fun d => d <> domain /\ cluster_domain d = cluster) all_domains
  end.

(** ** Genetics of a strategy string *)

Definition extract_blob_hints (strategy : string) : list string :=
  fromkeys (findall1 (keyed "blob=" (fun c => is_alnum c || Ascii.eqb c "_")) strategy).

Definition one_of (l : list string) : re := Group 1 (alts (lit <$> l)).

Definition ttl_bucket (digits : string) : string :=
  let t := digits_val 0 digits in
  str_of_Z (if t <=? 8 then 1 else if t <=? 32 then 2 else if t <=? 128 then 3 else 4).

(** The [add] calls of the source keep the first occurrence of each trait. *)
Definition strategy_traits (strategy : string) : list string :=
  fromkeys
    ( ((fun g => "r" +:+ g) <$> findall1 (keyed "repeats=" is_digit) strategy)
   ++ ((fun g => "fool:" +:+ g) <$>
         findall1 (one_of ["tcp_ts"; "tcp_md5"; "badsid"; "badseq"; "badsum"; "seqovl"; "ip_ttl";
                           "tcp_seq"; "tcp_ack"]) strategy)
   ++ ((fun g => "ttl" +:+ ttl_bucket g) <$> findall1 (keyed "ttl=" is_digit) strategy)
   ++ ((fun g => "pos:" +:+ g) <$>
         findall1 (keyed "pos=" (fun c => is_word c || Ascii.eqb c ",")) strategy)
   ++ ((fun g => "ipttl" +:+ g) <$> findall1 (keyed "ip_ttl=" is_digit) strategy)
   ++ ((fun g => "tec:" +:+ g) <$>
         findall1 (one_of ["hostfakesplit"; "fakedsplit"; "fakeddisorder"; "multisplit"; "multidisorder";
                           "tlsrec"; "oob"; "syndata"; "pktmod"; "send"; "dupfake"]) strategy)).

Example traits_ex :
  strategy_traits "fake:blob=stun:repeats=6:ip_ttl=127:tcp_md5" = ["r6"; "fool:ip_ttl"; "fool:tcp_md5";
    "ttl3"; "ipttl127"] /\
  strategy_traits "multisplit:pos=1,sniext+1:seqovl=568" = ["fool:seqovl"; "pos:1,sniext"; "tec:multisplit"] /\
  extract_blob_hints "fake:blob=stun:x fake:blob=max_ru blob=stun" = ["stun"; "max_ru"] /\
  cluster_domain "WWW.YouTube.com/watch" = "youtube" /\ cluster_domain "rr1.googlevideo.com" = "youtube" /\
  cluster_domain "Google.com" = "google" /\ cluster_domain "cdn.discordapp.com" = "discord".
Proof. vm_compute. by split_and!. Qed.

(** ** Metrics

    [now] stands for the value [time.monotonic()] returns. *)

Record AdaptiveMetrics : Type := Metrics {
  total_enqueued : Z; jobs_run : Z; jobs_passed : Z; fanout_enqueued : Z; started_at : float;
  first_pass_at : option float; passes_before_half : Z; half_mark_jobs : Z
}.

Definition new_metrics (now : float) : AdaptiveMetrics := Metrics 0 0 0 0 now None 0 0.

Definition record_run (now : float) (passed : bool) (m : AdaptiveMetrics) : AdaptiveMetrics :=
  let run := jobs_run m + 1 in
  if passed then
    Metrics (total_enqueued m) run (jobs_passed m + 1) (fanout_enqueued m) (started_at m)
      (match first_pass_at m with None => Some (fsub now (started_at m)) | Some f => Some f end)
      (if negb (half_mark_jobs m =? 0) && (run <=? half_mark_jobs m)
       then passes_before_half m + 1 else passes_before_half m)
      (half_mark_jobs m)
  else
    Metrics (total_enqueued m) run (jobs_passed m) (fanout_enqueued m) (started_at m)
      (first_pass_at m) (passes_before_half m) (half_mark_jobs m).

Definition set_half_mark (total : Z) (m : AdaptiveMetrics) : AdaptiveMetrics :=
  Metrics (total_enqueued m) (jobs_run m) (jobs_passed m) (fanout_enqueued m) (started_at m)
    (first_pass_at m) (passes_before_half m) (Z.max 1 (total / 2)).

Definition add_enqueued (m : AdaptiveMetrics) : AdaptiveMetrics :=
  Metrics (total_enqueued m + 1) (jobs_run m) (jobs_passed m) (fanout_enqueued m) (started_at m)
    (first_pass_at m) (passes_before_half m) (half_mark_jobs m).

Definition add_fanout (n : Z) (m : AdaptiveMetrics) : AdaptiveMetrics :=
  Metrics (total_enqueued m) (jobs_run m) (jobs_passed m) (fanout_enqueued m + n) (started_at m)
    (first_pass_at m) (passes_before_half m) (half_mark_jobs m).

(** The quotient of two integers below 2^53. *)
Definition pass_rate_before_half (m : AdaptiveMetrics) : float :=
  if half_mark_jobs m =? 0 then S754_zero false
  else f_lit (passes_before_half m) (Z.max 1 (Z.min (jobs_run m) (half_mark_jobs m))).

(** ** The weight table *)

Definition _MAX_WEIGHT : float := f_of_Z 64.

Definition _SPLIT_POS_TRAITS : list (string * string) :=
  [("first_byte", "pos:1"); ("sni_marker", "pos:sniext+1"); ("seqovl", "fool:seqovl")].

Abbreviation wdict := (list (string * float)).

Record ScanWeights : Type := Weights {
  family : wdict; blob : wdict; trait : wdict;
  family_boost : float; blob_boost : float; trait_boost : float;
  _provider_boosted : gset string
}.

Definition new_weights : ScanWeights :=
  Weights [] [] [] (f_of_Z 1) (f_lit 5 10) (f_lit 4 10) ∅.

Definition _TRIAGE_FAMILY_SEED : float := f_of_Z 2.
Definition _TRIAGE_FOOL_SEED : float := f_lit 8 10.
Definition _TRIAGE_BLOB_SEED : float := f_lit 5 10.
Definition _TRIAGE_POS_SEED : float := f_lit 4 10.

(** [if k not in d: d[k] = min(seed, cap) else: d[k] = min(d[k], cap)] *)
Definition seed_key (seed : float) (d : wdict) (k : string) : wdict :=
  match dget k d with
  | None => dset k (fmin seed _MAX_WEIGHT) d
  | Some v => dset k (fmin v _MAX_WEIGHT) d
  end.

Definition seed_keys (seed : float) (ks : list string) (d : wdict) : wdict := foldl (seed_key seed) d ks.

Definition dead_traits (p : TriageProfile) : list string :=
  (fun t => "fool:" +:+ t) <$> dead_fooling_tokens (Some p).
Definition viable_traits (p : TriageProfile) : list string :=
  (fun f => "fool:" +:+ before "=" f) <$> viable_foolings p.
Definition viable_aliases (p : TriageProfile) : list string :=
  concat ((fun b => b :: aliases_for_class b) <$> viable_blobs p).
Definition split_trait (p : TriageProfile) : string :=
  dget_default (split_mode p) ("pos:" +:+ split_mode p) _SPLIT_POS_TRAITS.

Definition seed_trait (p : TriageProfile) (d : wdict) : wdict :=
  let d := foldl (fun d k => dset k (f_lit 1 10) d) d (dead_traits p) in
  let d := seed_keys _TRIAGE_FOOL_SEED (viable_traits p) d in
  if nonempty (split_mode p) then seed_key _TRIAGE_POS_SEED d (split_trait p) else d.

(** The updates of the three tables do not depend on each other. *)
Definition seed_from_triage (profile : option TriageProfile) (w : ScanWeights) : ScanWeights :=
  match profile with
  | None => w
  | Some p =>
      Weights (seed_keys _TRIAGE_FAMILY_SEED (families_for_profile profile) (family w))
        (seed_keys _TRIAGE_BLOB_SEED (viable_aliases p) (blob w))
        (seed_trait p (trait w))
        (family_boost w) (blob_boost w) (trait_boost w) (_provider_boosted w)
  end.

(** [d[k] = min(d.get(k, base) + by, cap)] *)
Definition boost_key (base by_ : float) (d : wdict) (k : string) : wdict :=
  dset k (fmin (fadd (dget_default k base d) by_) _MAX_WEIGHT) d.

Definition f_zero : float := S754_zero false.

Definition boost_pass (fam : string) (blobs traits : list string) (w : ScanWeights) : ScanWeights :=
  Weights (boost_key (f_of_Z 1) (family_boost w) (family w) fam)
    (foldl (boost_key f_zero (blob_boost w)) (blob w) blobs)
    (foldl (boost_key f_zero (trait_boost w)) (trait w) traits)
    (family_boost w) (blob_boost w) (trait_boost w) (_provider_boosted w).

Definition boost_provider_once (strategy_key fam : string) (blobs traits : list string)
    (w : ScanWeights) : bool * ScanWeights :=
  if decide (strategy_key ∈ _provider_boosted w) then (false, w)
  else
    (true, boost_pass fam blobs traits
       (Weights (family w) (blob w) (trait w) (family_boost w) (blob_boost w) (trait_boost w)
          ({[strategy_key]} ∪ _provider_boosted w))).

(** [ScanWeights.get] *)
Definition weight_get (w : ScanWeights) (fam : string) (blobs traits : list string) : float :=
  let score := dget_default fam (f_of_Z 1) (family w) in
  let score := foldl (fun s b => fadd s (dget_default b f_zero (blob w))) score blobs in
  foldl (fun s t => fadd s (dget_default t f_zero (trait w))) score traits.

Definition prefix_rows (p : string) (d : wdict) : list (string * float) :=
  (fun kv => (p +:+ kv.1, kv.2)) <$> d.

Definition to_rows (w : ScanWeights) : list (string * float) :=
  prefix_rows "family:" (family w) ++ prefix_rows "blob:" (blob w) ++ prefix_rows "trait:" (trait w).

Definition add_row (w : ScanWeights) (row : string * float) : ScanWeights :=
  let '(key, val) := row in
  let '(Weights f b t fb bb tb pb) := w in
  if startswith "family:" key then Weights (dset (sdrop 7 key) val f) b t fb bb tb pb
  else if startswith "blob:" key then Weights f (dset (sdrop 5 key) val b) t fb bb tb pb
  else if startswith "trait:" key then Weights f b (dset (sdrop 6 key) val t) fb bb tb pb
  else w.

Definition from_rows (rows : list (string * float)) : ScanWeights := foldl add_row new_weights rows.

(** ** The cluster index is an optimisation *)

Lemma cluster_index_get domains c :
  dget_default c [] (_cluster_domain_index domains) = filter (fun d => cluster_domain d = c) domains.
Proof.
  unfold _cluster_domain_index.
  assert (H : forall idx pre,
    (forall c, dget_default c [] idx = filter (fun d => cluster_domain d = c) pre) ->
    forall c, dget_default c [] (foldl (fun idx d => let c := cluster_domain d in
      dset c (dget_default c [] idx ++ [d]) idx) idx domains)
      = filter (fun d => cluster_domain d = c) (pre ++ domains)).
  { induction domains as [|d ds IH]; intros idx pre Hpre c'; simpl; [by rewrite app_nil_r|].
    rewrite (cons_middle d pre ds), app_assoc. apply IH. intros c0.
    rewrite filter_app, filter_cons, filter_nil, <- Hpre. unfold dget_default. rewrite dget_set.
    destruct (decide (cluster_domain d = c0)) as [->|]; simpl; [done|by rewrite app_nil_r]. }
  apply (H [] []). done.
Qed.

Lemma sibling_domains_index_core domain all :
  sibling_domains domain all (Some (_cluster_domain_index all)) = sibling_domains domain all None.
Proof.
  unfold sibling_domains. rewrite cluster_index_get, list_filter_filter. reflexivity.
Qed.

(** The precomputed cluster index changes nothing: the siblings of a domain are the
    other domains of its cluster, in the order of the domain list. *)
Theorem sibling_domains_index domain all :
  sibling_domains domain all (Some (_cluster_domain_index all)) = sibling_domains domain all None.
Proof. exact (sibling_domains_index_core domain all). Qed.

(** ** Weights *)

(** No weight of the table is above the cap. *)
Definition capped (d : wdict) : Prop := forall k v, dget k d = Some v -> flt _MAX_WEIGHT v = false.
Definition weights_ok (w : ScanWeights) : Prop :=
  capped (family w) /\ capped (blob w) /\ capped (trait w).

Lemma capped_set k v d : capped d -> flt _MAX_WEIGHT v = false -> capped (dset k v d).
Proof. intros Hd Hv k' v'. rewrite dget_set. destruct (decide _); [by intros [= <-]|apply Hd]. Qed.

Lemma capped_seed_key seed d k : capped d -> capped (seed_key seed d k).
Proof. intros H. unfold seed_key. destruct (dget k d); apply capped_set; auto using fmin_not_gt. Qed.

Lemma capped_boost_key base by_ d k : capped d -> capped (boost_key base by_ d k).
Proof. intros H. apply capped_set; auto using fmin_not_gt. Qed.

Lemma capped_fold (f : wdict -> string -> wdict) ks d :
  (forall d k, capped d -> capped (f d k)) -> capped d -> capped (foldl f d ks).
Proof. intros Hf. revert d. induction ks as [|k ks IH]; intros d H; simpl; auto. Qed.

#[export] Hint Resolve capped_set capped_seed_key capped_boost_key capped_fold : weights.

(** The cap of 64 is an invariant: seeding from a triage profile and boosting after a
    pass keep every weight at or below it, and a strategy of a provider is boosted at
    most once. *)
Theorem weights_capped w profile fam blobs traits key :
  weights_ok w ->
  weights_ok (seed_from_triage profile w) /\ weights_ok (boost_pass fam blobs traits w) /\
  weights_ok (boost_provider_once key fam blobs traits w).2 /\
  let w' := (boost_provider_once key fam blobs traits w).2 in
  boost_provider_once key fam blobs traits w' = (false, w').
Proof.
  intros (Hf & Hb & Ht).
  assert (Hboost : forall w, weights_ok w -> weights_ok (boost_pass fam blobs traits w)).
  { intros w0 (H1 & H2 & H3). unfold weights_ok, boost_pass. simpl. split_and!; eauto with weights. }
  split_and!; [|by apply Hboost| |].
  - destruct profile as [p|]; [|done]. unfold weights_ok. simpl.
    assert (Hs : capped (seed_trait p (trait w))).
    { unfold seed_trait, seed_keys. destruct (nonempty _); eauto 10 with weights. }
    unfold seed_keys. split_and!; eauto with weights.
  - unfold boost_provider_once. destruct (decide _); [done|]. by apply Hboost.
  - unfold boost_provider_once. destruct (decide (key ∈ _)) as [H|H]; cbn [snd]; [done|].
    destruct (decide _) as [?|Hn]; [done|]. destruct Hn. simpl. set_solver.
Qed.

Lemma weights_capped_witness :
  weights_ok new_weights /\ weights_ok (boost_pass "fake" ["stun"] ["r6"] new_weights).
Proof.
  assert (H : weights_ok new_weights) by (split_and!; intros k v Hk; done).
  split; [exact H|]. apply (weights_capped new_weights None "fake" ["stun"] ["r6"] "x" H).
Defined.

(** *** Seeding twice *)

Definition stable (d : wdict) (k : string) : Prop :=
  exists v, dget k d = Some v /\ fmin v _MAX_WEIGHT = v.

Lemma seed_key_get seed d k k' :
  dget k' (seed_key seed d k) =
    if decide (k = k') then Some (fmin (dget_default k seed d) _MAX_WEIGHT) else dget k' d.
Proof.
  unfold seed_key, dget_default. destruct (dget k d) eqn:E; rewrite dget_set; simpl;
    by destruct (decide (k = k')).
Qed.

Lemma seed_key_stable seed d k : stable (seed_key seed d k) k.
Proof. eexists. rewrite seed_key_get, decide_True by done. by rewrite fmin_idemp. Qed.

Lemma seed_key_keeps seed d k k' : stable d k' -> stable (seed_key seed d k) k'.
Proof.
  intros Hs. destruct (decide (k = k')) as [->|Hn]; [apply seed_key_stable|].
  destruct Hs as (v & Hv & He). exists v. by rewrite seed_key_get, decide_False.
Qed.

Lemma seed_key_id seed d k : stable d k -> seed_key seed d k = d.
Proof. intros (v & Hv & He). unfold seed_key. rewrite Hv, He. by apply dset_same. Qed.

Lemma seed_keys_keeps seed ks d k : stable d k -> stable (seed_keys seed ks d) k.
Proof.
  unfold seed_keys. revert d. induction ks as [|k0 ks IH]; intros d H; [done|]. apply IH.
  by apply seed_key_keeps.
Qed.

Lemma seed_keys_stable seed ks d k : k ∈ ks -> stable (seed_keys seed ks d) k.
Proof.
  revert d. induction ks as [|k0 ks IH]; intros d H; [by apply not_elem_of_nil in H|].
  apply elem_of_cons in H as [->|H]; [|by apply IH].
  apply (seed_keys_keeps seed ks), seed_key_stable.
Qed.

Lemma seed_keys_id seed ks d : (forall k, k ∈ ks -> stable d k) -> seed_keys seed ks d = d.
Proof.
  unfold seed_keys. induction ks as [|k ks IH]; intros H; [done|]. simpl.
  rewrite seed_key_id by (apply H; by left). apply IH. intros k' Hk. apply H. by right.
Qed.

(** The dead traits have weight 0.1, and the later seeds do not change it. *)
Definition dead_ok (p : TriageProfile) (d : wdict) : Prop :=
  forall k, k ∈ dead_traits p -> dget k d = Some (f_lit 1 10).

Lemma dead_set p d : dead_ok p (foldl (fun d k => dset k (f_lit 1 10) d) d (dead_traits p)).
Proof.
  unfold dead_ok. generalize (dead_traits p) as ks. intros ks.
  assert (H : forall (ks : list string) (d : wdict) (k : string), dget k d = Some (f_lit 1 10) \/ k ∈ ks ->
    dget k (foldl (fun d k => dset k (f_lit 1 10) d) d ks) = Some (f_lit 1 10)).
  { clear. intros ks. induction ks as [|k0 ks IH]; intros d k Hk; simpl.
    - by destruct Hk as [?|?%not_elem_of_nil].
    - apply IH. rewrite dget_set. destruct (decide (k0 = k)); [by left|].
      destruct Hk as [?|Hk]; [by left|]. apply elem_of_cons in Hk as [->|?]; [done|by right]. }
  intros k Hk. apply H. by right.
Qed.

Lemma dead_seed_key p seed d k : dead_ok p d -> dead_ok p (seed_key seed d k).
Proof.
  intros H k' Hk'. rewrite seed_key_get. destruct (decide (k = k')) as [->|]; [|by apply H].
  unfold dget_default. rewrite (H k' Hk'). reflexivity.
Qed.

Lemma dead_seed_keys p seed ks d : dead_ok p d -> dead_ok p (seed_keys seed ks d).
Proof.
  unfold seed_keys. revert d. induction ks as [|k ks IH]; intros d H; [done|].
  apply IH. by apply dead_seed_key.
Qed.

Lemma dead_id p d : dead_ok p d -> foldl (fun d k => dset k (f_lit 1 10) d) d (dead_traits p) = d.
Proof.
  unfold dead_ok. generalize (dead_traits p) as ks. induction ks as [|k ks IH]; intros H; [done|].
  simpl. rewrite dset_same by (apply H; by left). apply IH. intros k' Hk. apply H. by right.
Qed.

Lemma seed_trait_idemp p d : seed_trait p (seed_trait p d) = seed_trait p d.
Proof.
  set (d3 := seed_trait p d).
  assert (Hdead : dead_ok p d3).
  { unfold d3, seed_trait. destruct (nonempty _); [apply dead_seed_key|]; apply dead_seed_keys, dead_set. }
  assert (Hv : forall k, k ∈ viable_traits p -> stable d3 k).
  { intros k Hk. unfold d3, seed_trait. destruct (nonempty _); [apply seed_key_keeps|];
      by apply seed_keys_stable. }
  unfold seed_trait at 1. rewrite (dead_id p d3 Hdead), (seed_keys_id _ _ _ Hv).
  destruct (nonempty (split_mode p)) eqn:E; [|done]. apply seed_key_id.
  unfold d3, seed_trait. rewrite E. apply seed_key_stable.
Qed.

(** Seeding from the same triage profile twice (a resumed run) gives the weights of
    seeding once. *)
Theorem seed_from_triage_idempotent profile w :
  seed_from_triage profile (seed_from_triage profile w) = seed_from_triage profile w.
Proof.
  destruct profile as [p|]; [|done]. unfold seed_from_triage. cbn [family blob trait family_boost
    blob_boost trait_boost _provider_boosted]. f_equal.
  - apply seed_keys_id. intros k Hk. by apply seed_keys_stable.
  - apply seed_keys_id. intros k Hk. by apply seed_keys_stable.
  - apply seed_trait_idemp.
Qed.

(** *** Rows *)

Lemma add_rows_prefix p k (d f b t : wdict) fb bb tb pb :
  (p, k) ∈ [("family:", 0%nat); ("blob:", 1%nat); ("trait:", 2%nat)] ->
  foldl add_row (Weights f b t fb bb tb pb) (prefix_rows p d) =
    match k with
    | 0%nat => Weights (foldl (fun d kv => dset kv.1 kv.2 d) f d) b t fb bb tb pb
    | 1%nat => Weights f (foldl (fun d kv => dset kv.1 kv.2 d) b d) t fb bb tb pb
    | _ => Weights f b (foldl (fun d kv => dset kv.1 kv.2 d) t d) fb bb tb pb
    end.
Proof.
  intros Hp. revert f b t. induction d as [|[x v] d IH]; intros f b t;
    rewrite ?elem_of_cons in Hp; destruct Hp as [Hp|[Hp|[Hp|Hp%not_elem_of_nil]]]; simplify_eq; try done.
  all: unfold prefix_rows; rewrite fmap_cons; cbn [foldl]; rewrite <- IH; reflexivity.
Qed.

(** Persisting the weights as rows and loading them gives the three tables back, with
    the default boosts. *)
Theorem weights_rows_roundtrip w :
  wf (family w) -> wf (blob w) -> wf (trait w) ->
  from_rows (to_rows w) =
    Weights (family w) (blob w) (trait w)
      (family_boost new_weights) (blob_boost new_weights) (trait_boost new_weights) ∅.
Proof.
  intros Hf Hb Ht. unfold from_rows, to_rows, new_weights. rewrite !foldl_app.
  rewrite (add_rows_prefix "family:" 0) by set_solver.
  rewrite (add_rows_prefix "blob:" 1) by set_solver.
  rewrite (add_rows_prefix "trait:" 2) by set_solver.
  cbn [family_boost blob_boost trait_boost].
  f_equal; by apply foldl_dset_id.
Qed.

Definition ex_weights : ScanWeights :=
  boost_pass "multisplit" ["stun"] ["r6"; "fool:tcp_md5"] (seed_from_triage (Some ex_profile) new_weights).

Lemma weights_rows_roundtrip_witness :
  family ex_weights = [("wssize", f_of_Z 2); ("multisplit", f_of_Z 3); ("fakedsplit", f_of_Z 2);
                       ("multidisorder", f_of_Z 2); ("quic_fake", f_of_Z 2); ("quic_ipfrag", f_of_Z 2)] /\
  from_rows (to_rows ex_weights) = ex_weights.
Proof.
  split; [vm_compute; reflexivity|].
  rewrite (weights_rows_roundtrip ex_weights);
    [reflexivity|refine (bool_decide_unpack _ _); vm_compute; exact I..].
Defined.
