(* ===== verification/TcpFanout.v ===== *)
(** * Curl fan-out batches: [engine/tcp_fanout.py]

    Domains whose requests need special curl options run alone; the others are
    grouped into batches of one curl profile. *)

From stdpp Require Import base numbers list strings.
From Stdlib Require Import ZArith Lia Ascii.
From S2P Require Import Prelude PyStr.

#[local] Open Scope Z_scope.

(** [engine/config.py] *)
Definition GOOGLEVIDEO_RANGE_SIZE : Z := 17408.

Definition _SPECIAL_DOMAIN_MARKERS : list string := ["googlevideo"].

(** The double quote. *)
Definition dquote : string := String "034"%char EmptyString.

Record CurlProfile : Type := CurlProf { use_ech : bool; headers_extra : string; special : bool }.

#[export] Instance CurlProfile_eq_dec : EqDecision CurlProfile.
Proof. solve_decision. Defined.

Section Fanout.
Context (protocol : string) (disable_ech : bool).

Definition curl_profile (domain : string) : CurlProfile :=
  let is_http := String.eqb protocol "http" in
  let dom := before "/" (lower domain) in
  let is_gv := negb is_http && existsb (fun m => contains m dom) _SPECIAL_DOMAIN_MARKERS in
  let use_ech := negb is_http && negb disable_ech && negb is_gv in
  let range_end := GOOGLEVIDEO_RANGE_SIZE - 1 in
  let headers_extra :=
    if is_gv then ", " +:+ dquote +:+ "Range" +:+ dquote +:+ ": " +:+ dquote +:+ "bytes=0-"
                    +:+ str_of_Z range_end +:+ dquote
    else "" in
  CurlProf use_ech headers_extra is_gv.

Definition profiles_compatible (a b : CurlProfile) : bool :=
  Bool.eqb (use_ech a) (use_ech b) && String.eqb (headers_extra a) (headers_extra b)
  && Bool.eqb (special a) (special b).

(** The locals of [fanout_batches]. *)
Record fanout_state : Type := Fanout {
  batches : list (list string); bucket : list string; bucket_profile : option CurlProfile
}.

Definition flush (n : nat) (st : fanout_state) : fanout_state :=
  match bucket st with
  | [] => st
  | _ => Fanout (batches st ++ windows n (bucket st)) [] None
  end.

Definition fanout_step (n : nat) (st : fanout_state) (domain : string) : fanout_state :=
  let prof := curl_profile domain in
  if special prof then
    let st := flush n st in Fanout (batches st ++ [[domain]]) (bucket st) (bucket_profile st)
  else
    match bucket_profile st with
    | None => Fanout (batches st) [domain] (Some prof)
    | Some bp =>
        if profiles_compatible bp prof then
          Fanout (batches st) (bucket st ++ [domain]) (bucket_profile st)
        else let st := flush n st in Fanout (batches st) [domain] (Some prof)
    end.

Definition fanout_batches (curl_parallel : Z) (domains : list string) : list (list string) :=
  let n := Z.to_nat (Z.max 1 curl_parallel) in
  if Nat.eqb n 1 then (fun d => [d]) <$> domains
  else batches (flush n (foldl (fanout_step n) (Fanout [] [] None) domains)).

Definition fanout_allowed (curl_parallel : Z) (use_family_gates : bool) (domains : list string)
    : bool * string :=
  if curl_parallel <=? 1 then (false, "curl_parallel<=1")
  else if use_family_gates then (false, "family_gates active (per-domain need_* chain)")
  else
    match filter (fun d => special (curl_profile d) = true) domains with
    | [] => (true, "")
    | specials =>
        (true, "special domains run solo: " +:+ join ", " (take 3 specials)
               +:+ (if Nat.ltb 3 (length specials)
                    then " +" +:+ str_of_Z (Z.of_nat (length specials) - 3) else ""))
    end.

(** ** Batches *)

Lemma profiles_compatible_spec a b : profiles_compatible a b = true <-> a = b.
Proof.
  unfold profiles_compatible. rewrite !andb_true_iff, !eqb_true_iff, String.eqb_eq.
  destruct a, b; simpl. split; [by intros [[-> ->] ->]|by intros [= -> -> ->]].
Qed.

(** A batch that one curl process can run. *)
Definition batch_ok (n : nat) (b : list string) : Prop :=
  (0 < length b <= n)%nat /\
  exists prof, Forall (fun d => curl_profile d = prof) b /\ (special prof = true -> length b = 1%nat).

Definition fanout_inv (n : nat) (done : list string) (st : fanout_state) : Prop :=
  concat (batches st) ++ bucket st = done /\ Forall (batch_ok n) (batches st) /\
  match bucket_profile st with
  | None => bucket st = []
  | Some bp => special bp = false /\ bucket st <> [] /\ Forall (fun d => curl_profile d = bp) (bucket st)
  end.

Lemma flush_inv n done st :
  (0 < n)%nat -> fanout_inv n done st ->
  fanout_inv n done (flush n st) /\ bucket (flush n st) = [] /\ bucket_profile (flush n st) = None.
Proof.
  intros Hn (Hc & Hb & Hp). unfold flush. destruct (bucket st) as [|d ds] eqn:E.
  { destruct (bucket_profile st) eqn:Ep; [by destruct Hp as (_ & ? & _)|].
    split; [|done]. split_and!; [by rewrite E|done|by rewrite Ep]. }
  rewrite <- E in *. split; [|done]. destruct (bucket_profile st) as [bp|]; [|by rewrite E in Hp].
  destruct Hp as (Hs & _ & Hp). split_and!; simpl; [|apply Forall_app; split; [done|]|done].
  - by rewrite concat_app, windows_concat, app_nil_r.
  - apply Forall_forall. intros b Hin. split; [by eapply windows_bounds|]. exists bp.
    split; [|by rewrite Hs]. apply Forall_forall. intros x Hx. rewrite Forall_forall in Hp. apply Hp.
    rewrite <- (windows_concat n (bucket st)) by done.
    apply list_elem_of_In, in_concat. exists b. by rewrite <- !list_elem_of_In.
Qed.

Lemma fanout_step_inv n done st d :
  (0 < n)%nat -> fanout_inv n done st -> fanout_inv n (done ++ [d]) (fanout_step n st d).
Proof.
  intros Hn Hi. pose proof (flush_inv n done st Hn Hi) as (Hf & Hb & Hp).
  unfold fanout_step. destruct (special (curl_profile d)) eqn:Hs.
  - destruct Hf as (Hc & Hok & _). unfold fanout_inv; simpl; rewrite Hb, Hp. split; [|split; [|done]].
    + rewrite Hb, app_nil_r in Hc. by rewrite concat_app, <- Hc, app_nil_r.
    + apply Forall_app. split; [done|]. constructor; [|done]. split; [simpl; lia|].
      exists (curl_profile d). split; [by constructor|done].
  - assert (Hnew : fanout_inv n (done ++ [d])
      (Fanout (batches (flush n st)) [d] (Some (curl_profile d)))).
    { destruct Hf as (Hc & Hok & _). rewrite Hb, app_nil_r in Hc.
      unfold fanout_inv; simpl; split_and!; [by rewrite <- Hc|done..|by constructor]. }
    destruct (bucket_profile st) as [bp|] eqn:Ebp.
    + destruct (profiles_compatible bp (curl_profile d)) eqn:Ec; [|exact Hnew].
      apply profiles_compatible_spec in Ec. destruct Hi as (Hc & Hok & Hbp). rewrite Ebp in Hbp.
      destruct Hbp as (Hsp & Hne & Hall). unfold fanout_inv; simpl.
      split_and!; [by rewrite app_assoc, Hc|done|done|by destruct (bucket st)|].
      apply Forall_app. by split; [|constructor].
    + destruct Hi as (Hc & Hok & Hbp). rewrite Ebp in Hbp. rewrite Hbp, app_nil_r in Hc.
      unfold fanout_inv; simpl; split_and!; [by rewrite <- Hc|done..|by constructor].
Qed.

(** Fan-out batches partition the domains in order; no batch is empty or larger than the
    parallelism, all domains of a batch have one curl profile, and a special domain is
    always alone. *)
Theorem fanout_batches_spec curl_parallel domains :
  concat (fanout_batches curl_parallel domains) = domains /\
  Forall (batch_ok (Z.to_nat (Z.max 1 curl_parallel))) (fanout_batches curl_parallel domains).
Proof.
  unfold fanout_batches. set (n := Z.to_nat (Z.max 1 curl_parallel)).
  assert (Hn : (0 < n)%nat) by lia. clearbody n.
  destruct (Nat.eqb_spec n 1) as [->|_].
  { split.
    - induction domains as [|d ds IH]; [done|]. rewrite fmap_cons. cbn [concat]. by rewrite IH.
    - apply Forall_fmap, Forall_forall. intros d _. split; [simpl; lia|].
      exists (curl_profile d). split; [by constructor|done]. }
  assert (Hi : forall ds pre st, fanout_inv n pre st -> fanout_inv n (pre ++ ds) (foldl (fanout_step n) st ds)).
  { induction ds as [|d ds IH]; intros pre st H; simpl; [by rewrite app_nil_r|].
    rewrite (cons_middle d pre ds), app_assoc. apply IH. by apply fanout_step_inv. }
  destruct (flush_inv n _ _ Hn (Hi domains [] (Fanout [] [] None) ltac:(split_and!; done)))
    as ((Hc & Hok & _) & Hb & _).
  rewrite Hb, app_nil_r in Hc. by split.
Qed.

(** Without special domains and over HTTP every domain has the same profile. *)
Lemma http_profile d e : protocol = "http" -> curl_profile d = curl_profile e.
Proof. intros H. unfold curl_profile. by rewrite H. Qed.
End Fanout.

Example fanout_ex :
  fanout_batches "tls12" false 2 ["a.com"; "b.com"; "rr1.googlevideo.com"; "c.com"; "d.com"; "e.com"]
  = [["a.com"; "b.com"]; ["rr1.googlevideo.com"]; ["c.com"; "d.com"]; ["e.com"]].
Proof. vm_compute. reflexivity. Qed.
