(* ===== verification/AdaptiveQueue.v ===== *)
(** * The adaptive job queue: [AdaptiveJobQueue] of [engine/adaptive_queue.py]

    The queue of (strategy, domain) jobs with its priority heap, epsilon-greedy
    exploration, hard and soft domain exclusion and sibling fan-out.

    - The heap is a list in increasing order of [(neg_priority, seq)]: a sorted
      list is a heap, and since no two entries compare equal the code only ever
      observes its least element. [heappop] on it takes the head.
    - [Rng] is [random.Random]; [RngOk] states what the standard library
      documents of [random] and [randint].
    - [set_order] is the iteration order of a Python set of keys.
    - The loop of [pop] runs on fuel; [AdaptivePop] shows how much is enough. *)

From stdpp Require Import base numbers list strings gmap sorting.
From Stdlib Require Import ZArith Lia SpecFloat.
From S2P Require Import Prelude PyFloat PyStr PyDict Families Weights TcpFanout.

#[local] Open Scope Z_scope.

Class Rng (R : Type) : Type := {
  rng_random : R -> float * R;
  rng_randint : Z -> Z -> R -> Z * R
}.

(** [random()] is in [0, 1), [randint(lo, hi)] in [lo, hi]. *)
Class RngOk (R : Type) `{!Rng R} : Prop := {
  rng_random_range r : fle f_zero (rng_random r).1 = true /\ flt (rng_random r).1 (f_of_Z 1) = true;
  rng_randint_range lo hi r : lo <= hi -> lo <= (rng_randint lo hi r).1 <= hi
}.

(** A job key: (label, domain). *)
Abbreviation jkey := (string * string)%type.

Class SetOrder : Type := set_order : gset jkey -> list jkey.
Class SetOrderOk `{!SetOrder} : Prop := set_order_perm s : set_order s ≡ₚ elements s.

(** ** Jobs *)

(** [_blobs], [_traits] and [_key] are caches of the functions below. *)
Record AdaptiveJob : Type := Job {
  item : StrategyItem; domain : string; job_family : string; fanout : bool
}.

Definition job_key (j : AdaptiveJob) : jkey := (label (item j), domain j).
Definition job_blobs (j : AdaptiveJob) : list string := extract_blob_hints (strategy (item j)).
Definition job_traits (j : AdaptiveJob) : list string := strategy_traits (strategy (item j)).

Definition from_item (it : StrategyItem) (dom : string) (fan : bool) : AdaptiveJob :=
  Job it dom (classify_strategy_family it) fan.

(** ** Heap entries *)

Record _HeapEntry : Type := Entry { neg_priority : float; seq : Z; e_key : jkey }.

(** The comparison of [(neg_priority, seq)]. *)
Definition entry_lt (a b : _HeapEntry) : bool :=
  flt (neg_priority a) (neg_priority b)
  || (feq (neg_priority a) (neg_priority b) && (seq a <? seq b)).

Definition heappush (h : list _HeapEntry) (e : _HeapEntry) : list _HeapEntry := insert_stable entry_lt e h.

(** ** The queue *)

Section Queue.
Context {R : Type} {RG : Rng R} {SO : SetOrder}.

Record AdaptiveJobQueue : Type := Queue {
  weights : ScanWeights; epsilon : float; _rng : R; _seq : Z; _heap : list _HeapEntry;
  _pending : list (jkey * AdaptiveJob); _by_label : gmap string (gset jkey); _done : gset jkey;
  _all_domains : list string; _cluster_index : list (string * list string);
  excluded_domains : gset string; metrics : AdaptiveMetrics;
  _heap_rebuild_every : Z; _heap_rebuild_counter : Z; _rebuild_heap_calls : Z
}.

(** [AdaptiveJobQueue(weights=..., epsilon=..., seed=...)] *)
Definition new_queue (w : option ScanWeights) (eps : float) (rng : R) (now : float) : AdaptiveJobQueue :=
  Queue (default new_weights w) (fmax f_zero (fmin (f_of_Z 1) eps)) rng 0 [] [] ∅ ∅ [] [] ∅
    (new_metrics now) 0 0 0.

(** Field updates. *)
Definition with_heap (h : list _HeapEntry) (q : AdaptiveJobQueue) : AdaptiveJobQueue :=
  Queue (weights q) (epsilon q) (_rng q) (_seq q) h (_pending q) (_by_label q) (_done q)
    (_all_domains q) (_cluster_index q) (excluded_domains q) (metrics q)
    (_heap_rebuild_every q) (_heap_rebuild_counter q) (_rebuild_heap_calls q).
Definition with_rng (r : R) (q : AdaptiveJobQueue) : AdaptiveJobQueue :=
  Queue (weights q) (epsilon q) r (_seq q) (_heap q) (_pending q) (_by_label q) (_done q)
    (_all_domains q) (_cluster_index q) (excluded_domains q) (metrics q)
    (_heap_rebuild_every q) (_heap_rebuild_counter q) (_rebuild_heap_calls q).
Definition with_weights (w : ScanWeights) (q : AdaptiveJobQueue) : AdaptiveJobQueue :=
  Queue w (epsilon q) (_rng q) (_seq q) (_heap q) (_pending q) (_by_label q) (_done q)
    (_all_domains q) (_cluster_index q) (excluded_domains q) (metrics q)
    (_heap_rebuild_every q) (_heap_rebuild_counter q) (_rebuild_heap_calls q).
Definition with_pending (p : list (jkey * AdaptiveJob)) (bl : gmap string (gset jkey))
    (q : AdaptiveJobQueue) : AdaptiveJobQueue :=
  Queue (weights q) (epsilon q) (_rng q) (_seq q) (_heap q) p bl (_done q)
    (_all_domains q) (_cluster_index q) (excluded_domains q) (metrics q)
    (_heap_rebuild_every q) (_heap_rebuild_counter q) (_rebuild_heap_calls q).
Definition add_done (k : jkey) (q : AdaptiveJobQueue) : AdaptiveJobQueue :=
  Queue (weights q) (epsilon q) (_rng q) (_seq q) (_heap q) (_pending q) (_by_label q) ({[k]} ∪ _done q)
    (_all_domains q) (_cluster_index q) (excluded_domains q) (metrics q)
    (_heap_rebuild_every q) (_heap_rebuild_counter q) (_rebuild_heap_calls q).
Definition with_metrics (m : AdaptiveMetrics) (q : AdaptiveJobQueue) : AdaptiveJobQueue :=
  Queue (weights q) (epsilon q) (_rng q) (_seq q) (_heap q) (_pending q) (_by_label q) (_done q)
    (_all_domains q) (_cluster_index q) (excluded_domains q) m
    (_heap_rebuild_every q) (_heap_rebuild_counter q) (_rebuild_heap_calls q).
Definition with_domains (ds : list string) (idx : list (string * list string)) (q : AdaptiveJobQueue)
    : AdaptiveJobQueue :=
  Queue (weights q) (epsilon q) (_rng q) (_seq q) (_heap q) (_pending q) (_by_label q) (_done q)
    ds idx (excluded_domains q) (metrics q)
    (_heap_rebuild_every q) (_heap_rebuild_counter q) (_rebuild_heap_calls q).
(** [q.excluded_domains |= doms], also done by the quarantine while the scan runs. *)
Definition exclude_more (doms : gset string) (q : AdaptiveJobQueue) : AdaptiveJobQueue :=
  Queue (weights q) (epsilon q) (_rng q) (_seq q) (_heap q) (_pending q) (_by_label q) (_done q)
    (_all_domains q) (_cluster_index q) (excluded_domains q ∪ doms) (metrics q)
    (_heap_rebuild_every q) (_heap_rebuild_counter q) (_rebuild_heap_calls q).
Definition with_rebuild (every counter : Z) (q : AdaptiveJobQueue) : AdaptiveJobQueue :=
  Queue (weights q) (epsilon q) (_rng q) (_seq q) (_heap q) (_pending q) (_by_label q) (_done q)
    (_all_domains q) (_cluster_index q) (excluded_domains q) (metrics q)
    every counter (_rebuild_heap_calls q).

Definition queue_len (q : AdaptiveJobQueue) : nat := length (_pending q).

Definition _job_priority (q : AdaptiveJobQueue) (j : AdaptiveJob) : float :=
  weight_get (weights q) (job_family j) (job_blobs j) (job_traits j).

Definition _push_heap (k : jkey) (priority : float) (q : AdaptiveJobQueue) : AdaptiveJobQueue :=
  let s := _seq q + 1 in
  Queue (weights q) (epsilon q) (_rng q) s (heappush (_heap q) (Entry (fneg priority) s k))
    (_pending q) (_by_label q) (_done q)
    (_all_domains q) (_cluster_index q) (excluded_domains q) (metrics q)
    (_heap_rebuild_every q) (_heap_rebuild_counter q) (_rebuild_heap_calls q).

(** [self._by_label[label]] of the [defaultdict(set)] *)
Definition label_keys (l : string) (m : gmap string (gset jkey)) : gset jkey := default ∅ (m !! l).

Definition _drop_pending (k : jkey) (q : AdaptiveJobQueue) : option AdaptiveJob * AdaptiveJobQueue :=
  match dget k (_pending q) with
  | None => (None, q)
  | Some j =>
      let l := label (item j) in
      (Some j, with_pending (ddel k (_pending q))
                 (<[l := label_keys l (_by_label q) ∖ {[k]}]> (_by_label q)) q)
  end.

Definition _entry_stale (q : AdaptiveJobQueue) (e : _HeapEntry) (j : AdaptiveJob) : bool :=
  negb (feq (neg_priority e) (fneg (_job_priority q j))).

Definition _refresh_stale_entry (j : AdaptiveJob) (q : AdaptiveJobQueue) : AdaptiveJobQueue :=
  _push_heap (job_key j) (_job_priority q j) q.

Definition _rebuild_heap (q : AdaptiveJobQueue) : AdaptiveJobQueue :=
  let h := imap (fun i kj => Entry (fneg (_job_priority q kj.2)) (_seq q + Z.of_nat i) kj.1) (_pending q) in
  Queue (weights q) (epsilon q) (_rng q) (_seq q + Z.of_nat (length h)) (py_sorted entry_lt h)
    (_pending q) (_by_label q) (_done q)
    (_all_domains q) (_cluster_index q) (excluded_domains q) (metrics q)
    (_heap_rebuild_every q) (_heap_rebuild_counter q) (_rebuild_heap_calls q + 1).

Definition _maybe_compact_heap (q : AdaptiveJobQueue) : AdaptiveJobQueue :=
  let pending_n := length (_pending q) in
  if negb (Nat.eqb pending_n 0) && (pending_n * 2 + 512 <? length (_heap q))%nat
  then _rebuild_heap q else q.

Definition enqueue (j : AdaptiveJob) (q : AdaptiveJobQueue) : bool * AdaptiveJobQueue :=
  let k := job_key j in
  if bool_decide (is_Some (dget k (_pending q))) || bool_decide (k ∈ _done q) then (false, q)
  else
    let priority := _job_priority q j in
    let l := label (item j) in
    let q := with_pending (dset k j (_pending q))
               (<[l := {[k]} ∪ label_keys l (_by_label q)]> (_by_label q)) q in
    let q := _push_heap k priority q in
    (true, with_metrics (add_enqueued (metrics q)) q).

Fixpoint enqueue_many (jobs : list AdaptiveJob) (q : AdaptiveJobQueue) : Z * AdaptiveJobQueue :=
  match jobs with
  | [] => (0, q)
  | j :: jobs =>
      let '(added, q) := enqueue j q in
      let '(n, q) := enqueue_many jobs q in
      (if added then n + 1 else n, q)
  end.

(** ** Popping *)

(** One pass of the reservoir sampling over the jobs whose domain is not in [skip]. *)
Fixpoint reservoir (skip : gset string) (pending : list (jkey * AdaptiveJob)) (count : Z)
    (chosen : option jkey) (r : R) : Z * option jkey * R :=
  match pending with
  | [] => (count, chosen, r)
  | (k, j) :: pending =>
      if decide (domain j ∈ skip) then reservoir skip pending count chosen r
      else
        let count := count + 1 in
        let '(n, r) := rng_randint 1 count r in
        reservoir skip pending count (if n =? 1 then Some k else chosen) r
  end.

Definition _epsilon_pick_key (exclude : gset string) (q : AdaptiveJobQueue)
    : option jkey * AdaptiveJobQueue :=
  let '(count, chosen, r) := reservoir exclude (_pending q) 0 None (_rng q) in
  if negb (count =? 0) then (chosen, with_rng r q)
  else
    let '(_, chosen, r) := reservoir (excluded_domains q) (_pending q) 0 chosen r in
    (chosen, with_rng r q).

Definition push_entries (es : list _HeapEntry) (q : AdaptiveJobQueue) : AdaptiveJobQueue :=
  with_heap (foldl heappush (_heap q) es) q.

(** The fallback: [heapq.heappop(skipped)] returns the first element of the list. *)
Fixpoint pop_skipped (skipped : list _HeapEntry) (q : AdaptiveJobQueue)
    : option AdaptiveJob * AdaptiveJobQueue :=
  match skipped with
  | [] => (None, q)
  | e :: skipped =>
      match _drop_pending (e_key e) q with
      | (Some j, q) => (Some j, push_entries skipped q)
      | (None, q) => pop_skipped skipped q
      end
  end.

Fixpoint pop_loop (fuel : nat) (exclude : gset string) (skipped : list _HeapEntry)
    (q : AdaptiveJobQueue) : option (option AdaptiveJob * AdaptiveJobQueue) :=
  match _heap q with
  | [] => Some (pop_skipped skipped q)
  | e :: h =>
      match fuel with
      | O => None
      | S fuel =>
          let q := with_heap h q in
          match dget (e_key e) (_pending q) with
          | None => pop_loop fuel exclude skipped q
          | Some j =>
              if _entry_stale q e j then pop_loop fuel exclude skipped (_refresh_stale_entry j q)
              else if decide (domain j ∈ excluded_domains q) then
                pop_loop fuel exclude skipped (_drop_pending (job_key j) (add_done (job_key j) q)).2
              else if decide (domain j ∈ exclude) then pop_loop fuel exclude (skipped ++ [e]) q
              else Some (Some j, push_entries skipped (_drop_pending (job_key j) q).2)
          end
      end
  end.

(** The number of entries and of stale ones bounds the rounds of the loop. *)
Definition pop_fuel (q : AdaptiveJobQueue) : nat := 2 * length (_heap q).

Definition pop (exclude_domains : gset string) (q : AdaptiveJobQueue)
    : option (option AdaptiveJob * AdaptiveJobQueue) :=
  match _pending q with
  | [] => Some (None, q)
  | _ =>
      let exclude := exclude_domains ∪ excluded_domains q in
      let '(explore, q) :=
        if flt f_zero (epsilon q) then
          let '(x, r) := rng_random (_rng q) in
          (flt x (epsilon q) && (1 <? length (_pending q))%nat, with_rng r q)
        else (false, q) in
      if explore then
        match _epsilon_pick_key exclude q with
        | (None, q) => Some (None, q)
        | (Some k, q) => Some (_drop_pending k q)
        end
      else pop_loop (pop_fuel q) exclude [] q
  end.

(** ** Completion and fan-out *)

Definition configure_heap_rebuild (every : Z) (q : AdaptiveJobQueue) : AdaptiveJobQueue :=
  with_rebuild (Z.max 0 every) 0 q.

Definition _maybe_rebuild_heap (q : AdaptiveJobQueue) : AdaptiveJobQueue :=
  if _heap_rebuild_every q <=? 0 then q
  else
    let q := with_rebuild (_heap_rebuild_every q) (_heap_rebuild_counter q + 1) q in
    if _heap_rebuild_every q <=? _heap_rebuild_counter q
    then with_rebuild (_heap_rebuild_every q) 0 (_rebuild_heap q)
    else q.

Definition _cluster_index_for_fanout (q : AdaptiveJobQueue)
    : list (string * list string) * AdaptiveJobQueue :=
  match _cluster_index q, _all_domains q with
  | [], _ :: _ =>
      let idx := _cluster_domain_index (_all_domains q) in (idx, with_domains (_all_domains q) idx q)
  | idx, _ => (idx, q)
  end.

Fixpoint fanout_loop (it : StrategyItem) (doms : list string) (q : AdaptiveJobQueue)
    : Z * AdaptiveJobQueue :=
  match doms with
  | [] => (0, q)
  | dom :: doms =>
      if decide (dom ∈ excluded_domains q) then fanout_loop it doms q
      else
        let '(added, q) := enqueue (from_item it dom true) q in
        let '(n, q) := fanout_loop it doms q in
        (if added then n + 1 else n, q)
  end.

Definition fanout_on_pass (j : AdaptiveJob) (q : AdaptiveJobQueue) : Z * AdaptiveJobQueue :=
  match _all_domains q with
  | [] => (0, q)
  | all =>
      let '(idx, q) := _cluster_index_for_fanout q in
      let '(added, q) := fanout_loop (item j) (sibling_domains (domain j) all (Some idx)) q in
      (added, with_metrics (add_fanout added (metrics q)) q)
  end.

Definition mark_done (now : float) (j : AdaptiveJob) (passed : bool) (q : AdaptiveJobQueue)
    : Z * AdaptiveJobQueue :=
  let q := (_drop_pending (job_key j) (add_done (job_key j) q)).2 in
  let q := with_metrics (record_run now passed (metrics q)) q in
  if negb passed then (0, _maybe_compact_heap q)
  else
    let q := with_weights (boost_pass (job_family j) (job_blobs j) (job_traits j) (weights q)) q in
    fanout_on_pass j (_maybe_compact_heap (_maybe_rebuild_heap q)).

(** ** Building *)

(** The comprehension [for item in items for dom in domains]. *)
Definition matrix {A} (f : StrategyItem -> string -> option A) (items : list StrategyItem)
    (domains : list string) : list A :=
  it ← items; omap (f it) domains.

Definition resume_done (skip_keys : gset jkey) (items : list StrategyItem) (domains : list string)
    : list jkey :=
  matrix (fun it dom => if decide ((label it, dom) ∈ skip_keys) then Some (label it, dom) else None)
    items domains.

Definition seed_jobs (skip_domains : gset string) (skip_keys : gset jkey)
    (items : list StrategyItem) (domains : list string) : list AdaptiveJob :=
  matrix (fun it dom =>
    if decide (dom ∈ skip_domains) then None
    else if decide ((label it, dom) ∈ skip_keys) then None
    else Some (from_item it dom false)) items domains.

Definition build (items : list StrategyItem) (domains : list string) (w : option ScanWeights)
    (eps : float) (rng : R) (now : float) (skip_domains : gset string) (skip_keys : gset jkey)
    : AdaptiveJobQueue :=
  let q := new_queue w eps rng now in
  let q := with_domains domains (_cluster_domain_index domains) q in
  let q := exclude_more skip_domains q in
  let q := foldr add_done q (resume_done skip_keys items domains) in
  let q := (enqueue_many (seed_jobs skip_domains skip_keys items domains) q).2 in
  with_metrics (set_half_mark (total_enqueued (metrics q)) (metrics q)) q.

(** ** Batches of one strategy *)

Definition pending_domains_for_strategy (l : string) (q : AdaptiveJobQueue) : list string :=
  omap (fun k => j ← dget k (_pending q); Some (domain j)) (set_order (label_keys l (_by_label q))).

Fixpoint pop_mates (first : AdaptiveJob) (compatible : string -> bool) (max_size : nat)
    (doms : list string) (batch : list AdaptiveJob) (q : AdaptiveJobQueue)
    : list AdaptiveJob * AdaptiveJobQueue :=
  match doms with
  | [] => (batch, q)
  | dom :: doms =>
      if (max_size <=? length batch)%nat then (batch, q)
      else if String.eqb dom (domain first) then pop_mates first compatible max_size doms batch q
      else if negb (compatible dom) then pop_mates first compatible max_size doms batch q
      else
        match _drop_pending (label (item first), dom) q with
        | (Some j, q) => pop_mates first compatible max_size doms (batch ++ [j]) q
        | (None, q) => pop_mates first compatible max_size doms batch q
        end
  end.

Definition pop_batch (max_size : nat) (protocol : string) (disable_ech : bool) (q : AdaptiveJobQueue)
    : option (list AdaptiveJob * AdaptiveJobQueue) :=
  match pop ∅ q with
  | None => None
  | Some (None, q) => Some ([], q)
  | Some (Some first, q) =>
      if (max_size <=? 1)%nat then Some ([first], q)
      else
        let prof := curl_profile protocol disable_ech (domain first) in
        if special prof then Some ([first], q)
        else
          let compatible dom := profiles_compatible prof (curl_profile protocol disable_ech dom) in
          let '(batch, q) := pop_mates first compatible max_size
            (pending_domains_for_strategy (label (item first)) q) [first] q in
          Some (batch, _maybe_compact_heap q)
  end.

(** ** Resume filter

    The flags are computed in chunks by awaited checks; the queue may have
    changed when they are applied, so the two halves are separate functions. *)

Definition resume_flags (check : AdaptiveJob -> bool) (chunk_size : Z) (q : AdaptiveJobQueue) : list bool :=
  let step := Z.to_nat (Z.max 1 chunk_size) in
  concat (map (map check) (windows step (values (_pending q)))).

Fixpoint resume_drop (rows : list (jkey * bool)) (q : AdaptiveJobQueue) : Z * AdaptiveJobQueue :=
  match rows with
  | [] => (0, q)
  | (k, drop) :: rows =>
      if negb drop then resume_drop rows q
      else if bool_decide (is_Some (dget k (_pending q))) then
        let '(n, q) := resume_drop rows (_drop_pending k (add_done k q)).2 in (n + 1, q)
      else resume_drop rows q
  end.

Definition filter_resume (check : AdaptiveJob -> bool) (chunk_size : Z) (q : AdaptiveJobQueue)
    : Z * AdaptiveJobQueue :=
  match keys (_pending q) with
  | [] => (0, q)
  | ks =>
      let '(skipped, q) := resume_drop (zip ks (resume_flags check chunk_size q)) q in
      (skipped, if skipped =? 0 then q else _maybe_compact_heap q)
  end.
End Queue.

(** ** A concrete environment for the witnesses

    A generator that always draws 0.5 and the lower bound. *)

#[export] Instance unit_rng : Rng unit := {
  rng_random := fun r => (f_lit 1 2, r); rng_randint := fun lo _ r => (lo, r)
}.

#[export] Instance unit_rng_ok : RngOk unit.
Proof. split; [by intros []|]. intros lo hi r H. simpl. lia. Qed.

Definition elements_order : SetOrder := elements.

Definition ex_A : StrategyItem := mk_item "std_fake_1" "fake:blob=stun:repeats=6".
Definition ex_B : StrategyItem := mk_item "std_multisplit_1" "multisplit:pos=1".
Definition ex_domains : list string := ["a.com"; "b.com"; "youtube.com"].
Definition ex_queue : AdaptiveJobQueue (R := unit) :=
  build [ex_A; ex_B] ex_domains None f_zero tt f_zero {["x.com"]} {[("std_fake_1", "b.com")]}.

Example ex_queue_keys :
  keys (_pending ex_queue) = [("std_fake_1", "a.com"); ("std_fake_1", "youtube.com");
    ("std_multisplit_1", "a.com"); ("std_multisplit_1", "b.com"); ("std_multisplit_1", "youtube.com")] /\
  half_mark_jobs (metrics ex_queue) = 2.
Proof. vm_compute. by split. Qed.
