(* ===== verification/AdaptiveInv.v ===== *)
(** * The invariant of the adaptive job queue

    What every operation of [AdaptiveQueue] keeps, and what enqueueing,
    completing, building and filtering do to the pending jobs. *)

From stdpp Require Import base numbers list strings gmap.
From Stdlib Require Import ZArith Lia SpecFloat.
From S2P Require Import Prelude PyFloat PyStr PyDict Families Weights TcpFanout AdaptiveQueue.

#[local] Open Scope Z_scope.

Section Invariant.
Context {R : Type} {RG : Rng R} {SO : SetOrder}.
Notation queue := (AdaptiveJobQueue (R := R)).
Implicit Types (q : queue) (j : AdaptiveJob) (k : jkey) (e : _HeapEntry).

(** The queue is coherent: pending jobs are stored under their keys, none of
    them is done, each has an entry in the heap (or in [extra], the entries that a
    running [pop] holds), and the label index lists exactly the pending keys. *)
Record inv_with (extra : list _HeapEntry) q : Prop := {
  inv_wf : wf (_pending q);
  inv_key k j : dget k (_pending q) = Some j -> job_key j = k;
  inv_done k : k ∈ keys (_pending q) -> k ∉ _done q;
  inv_heap k : k ∈ keys (_pending q) -> exists e, e ∈ _heap q ++ extra /\ e_key e = k;
  inv_label l k : k ∈ label_keys l (_by_label q) <-> k ∈ keys (_pending q) /\ k.1 = l
}.

Definition queue_inv q : Prop := inv_with [] q.

Lemma inv_get_done ex q k j : inv_with ex q -> dget k (_pending q) = Some j -> k ∉ _done q.
Proof. intros H Hk. apply (inv_done _ _ H). by eapply dget_Some_key. Qed.

Lemma label_keys_insert l s m l' :
  label_keys l' (<[l:=s]> m) = if decide (l = l') then s else label_keys l' m.
Proof.
  unfold label_keys. destruct (decide (l = l')) as [->|Hn]; [by rewrite lookup_insert_eq|].
  by rewrite lookup_insert_ne.
Qed.

(** *** Operations that leave the pending jobs alone *)

Lemma inv_same ex q q' :
  _pending q' = _pending q -> _done q' = _done q -> _by_label q' = _by_label q ->
  (forall k, k ∈ keys (_pending q) -> (exists e, e ∈ _heap q ++ ex /\ e_key e = k) ->
     exists e, e ∈ _heap q' ++ ex /\ e_key e = k) ->
  inv_with ex q -> inv_with ex q'.
Proof.
  intros Hp Hd Hl Hh H. split; rewrite ?Hp, ?Hd, ?Hl; try apply H.
  intros k Hk. apply Hh; [done|]. by apply H.
Qed.

Lemma elem_of_heappush h e x : x ∈ heappush h e <-> x = e \/ x ∈ h.
Proof. unfold heappush. by rewrite (insert_stable_perm entry_lt e h), elem_of_cons. Qed.

Lemma inv_push ex q k p : inv_with ex q -> inv_with ex (_push_heap k p q).
Proof.
  apply inv_same; try done. intros k' _ (e & He & Hk). exists e. split; [|done]. simpl.
  apply elem_of_app in He as [He|He]; apply elem_of_app; [left; apply elem_of_heappush; by right|by right].
Qed.

Lemma elem_of_rebuild q k j :
  dget k (_pending q) = Some j -> exists e, e ∈ _heap (_rebuild_heap q) /\ e_key e = k.
Proof.
  intros Hk. simpl. assert (Hin : exists i, _pending q !! i = Some (k, j)).
  { generalize (_pending q) as d, Hk. clear. induction d as [|[k' j'] d IH]; simpl; [done|].
    case_decide as Hc; intros Hg; simplify_eq; [by exists 0%nat|].
    destruct (IH Hg) as [i Hi]. by exists (S i). }
  destruct Hin as [i Hi]. eexists. rewrite elem_of_py_sorted. split.
  - apply list_elem_of_lookup. exists i. rewrite list_lookup_imap, Hi. reflexivity.
  - done.
Qed.

Lemma inv_rebuild ex q : inv_with ex q -> inv_with ex (_rebuild_heap q).
Proof.
  apply inv_same; try done. intros k [j Hj]%elem_of_keys _.
  destruct (elem_of_rebuild q k j Hj) as (e & He & Hk). exists e. split; [|done].
  apply elem_of_app. by left.
Qed.

Lemma inv_compact ex q : inv_with ex q -> inv_with ex (_maybe_compact_heap q).
Proof. unfold _maybe_compact_heap. destruct (_ && _); [apply inv_rebuild|done]. Qed.

Lemma inv_maybe_rebuild ex q : inv_with ex q -> inv_with ex (_maybe_rebuild_heap q).
Proof.
  intros H. unfold _maybe_rebuild_heap. destruct (_ <=? 0); [done|].
  assert (H' : forall a b, inv_with ex (with_rebuild a b q)) by (intros; eapply (inv_same ex q); auto).
  destruct (_ <=? _); [|apply H'].
  refine (inv_same ex (_rebuild_heap (with_rebuild (_heap_rebuild_every q) (_heap_rebuild_counter q + 1) q))
    _ _ _ _ _ (inv_rebuild _ _ (H' _ _))); auto.
Qed.

(** *** Removing a job *)

Lemma drop_pending_spec k q :
  (_drop_pending k q).1 = dget k (_pending q) /\
  _pending (_drop_pending k q).2 = ddel k (_pending q) /\
  _done (_drop_pending k q).2 = _done q /\ _heap (_drop_pending k q).2 = _heap q /\
  weights (_drop_pending k q).2 = weights q /\
  excluded_domains (_drop_pending k q).2 = excluded_domains q.
Proof.
  unfold _drop_pending. destruct (dget k (_pending q)) eqn:E; [done|]. split_and!; try done.
  symmetry. apply ddel_absent. by apply dget_None.
Qed.

Lemma inv_drop ex k q : inv_with ex q -> inv_with ex (_drop_pending k q).2.
Proof.
  intros H. destruct (drop_pending_spec k q) as (_ & Hp & Hd & Hh & _). split.
  - rewrite Hp. apply wf_del, H.
  - intros k' j'. rewrite Hp. destruct (decide (k = k')) as [->|Hn].
    + by rewrite dget_del_eq by apply H.
    + rewrite dget_del_ne by done. apply H.
  - intros k' Hk. rewrite Hp in Hk. rewrite Hd. apply H. by eapply keys_del_subseteq.
  - intros k' Hk. rewrite Hp in Hk. rewrite Hh. apply H. by eapply keys_del_subseteq.
  - intros l k'. rewrite Hp, elem_of_keys_del by apply H.
    transitivity (k' ∈ label_keys l (_by_label q) /\ k' <> k);
      [|rewrite (inv_label _ _ H); tauto]. unfold _drop_pending.
    destruct (dget k (_pending q)) as [j|] eqn:E; simpl.
    + rewrite label_keys_insert. apply (inv_key _ _ H) in E. subst k. unfold job_key.
      destruct (decide _) as [<-|Hn]; [set_solver|]. rewrite (inv_label _ _ H). simpl.
      split; [intros [H1 H2]; split; [done|]|tauto]. intros ->. simpl in H2. congruence.
    + split; [|tauto]. intros Hl. split; [done|]. intros ->. apply (inv_label _ _ H) in Hl as [Hl _].
      apply dget_None in E. done.
Qed.

Lemma inv_add_done ex k q : k ∉ keys (_pending q) -> inv_with ex q -> inv_with ex (add_done k q).
Proof.
  intros Hk H. split; try apply H. intros k' Hk'. simpl.
  pose proof (inv_done _ _ H k' Hk'). simpl in Hk'. set_solver.
Qed.

Lemma drop_add_done k q : (_drop_pending k (add_done k q)).2 = add_done k (_drop_pending k q).2.
Proof. unfold _drop_pending. simpl. by destruct (dget k (_pending q)). Qed.

Lemma inv_discard ex k q : inv_with ex q -> inv_with ex (_drop_pending k (add_done k q)).2.
Proof.
  intros H. rewrite drop_add_done. apply inv_add_done; [|by apply inv_drop].
  destruct (drop_pending_spec k q) as (_ & -> & _). rewrite elem_of_keys_del by apply H. tauto.
Qed.

(** *** Adding a job *)

Definition fresh (q : queue) (k : jkey) : Prop := k ∉ keys (_pending q) /\ k ∉ _done q.

Lemma enqueue_spec j q :
  let '(added, q') := enqueue j q in
  (added = true <-> fresh q (job_key j)) /\
  (forall k, k ∈ keys (_pending q') <-> k ∈ keys (_pending q) \/ (added = true /\ k = job_key j)) /\
  (added = true -> dget (job_key j) (_pending q') = Some j) /\
  (forall k, k <> job_key j \/ added = false -> dget k (_pending q') = dget k (_pending q)) /\
  _done q' = _done q /\ weights q' = weights q /\ excluded_domains q' = excluded_domains q /\
  _all_domains q' = _all_domains q.
Proof.
  unfold enqueue, fresh. pose proof (dget_None (job_key j) (_pending q)) as HN.
  destruct (dget (job_key j) (_pending q)) as [j'|] eqn:E; simpl.
  { split_and!; try done; [split; [done|intros [Hk%HN _]; done]|]. intros k. split; [by left|by intros [?|[? _]]]. }
  destruct (decide (job_key j ∈ _done q)) as [Hd|Hd].
  { rewrite bool_decide_true by done. split_and!; try done; [split; [done|tauto]|].
    intros k. split; [by left|by intros [?|[? _]]]. }
  rewrite bool_decide_false by done. simpl. split_and!; try done.
  - split; [|done]. intros _. split; [by apply HN|done].
  - intros k. rewrite elem_of_keys_set. tauto.
  - intros _. apply dget_set_eq.
  - intros k [Hk|Hk]; [|done]. by rewrite dget_set_ne.
Qed.

Lemma inv_enqueue j q : queue_inv q -> queue_inv (enqueue j q).2.
Proof.
  intros H. pose proof (enqueue_spec j q) as Hs. unfold enqueue in *.
  destruct (bool_decide _ || bool_decide _); [done|]. simpl in Hs.
  destruct Hs as ([Hf _] & Hkeys & Hnew & Hold & _). specialize (Hf eq_refl) as [Hf1 Hf2].
  specialize (Hnew eq_refl). split; simpl.
  - apply wf_set, H.
  - intros k j'. destruct (decide (k = job_key j)) as [->|Hn].
    + rewrite Hnew. congruence.
    + rewrite Hold by by left. apply H.
  - intros k [Hk|[_ ->]]%Hkeys; [by apply H|done].
  - intros k [Hk|[_ ->]]%Hkeys.
    + apply (inv_heap _ _ H) in Hk as (e & He & Hk). exists e. split; [|done].
      rewrite app_nil_r in *. apply elem_of_heappush. by right.
    + eexists. rewrite app_nil_r, elem_of_heappush. split; [by left|done].
  - intros l k. rewrite label_keys_insert, Hkeys. pose proof (inv_label _ _ H l k) as Hl.
    destruct (decide _) as [<-|Hn].
    + rewrite elem_of_union, elem_of_singleton, (inv_label _ _ H). split.
      * intros [->|?]; [by split; [right|]|tauto].
      * intros [[?|[_ ->]] ?]; [by right|by left].
    + rewrite Hl. split; [tauto|]. intros [[?|[_ ->]] Hk]; [done|]. by simpl in Hk.
Qed.

Lemma inv_enqueue_many js q : queue_inv q -> queue_inv (enqueue_many js q).2.
Proof.
  revert q. induction js as [|j js IH]; intros q H; simpl; [done|].
  pose proof (inv_enqueue j q H) as H1. destruct (enqueue j q) as [b q1]. simpl in H1.
  specialize (IH q1 H1). by destruct (enqueue_many js q1).
Qed.

(** What a sequence of enqueues does to the pending jobs. *)
Lemma enqueue_many_spec js q :
  let q' := (enqueue_many js q).2 in
  (forall k, k ∈ keys (_pending q') <->
     k ∈ keys (_pending q) \/ (k ∉ _done q /\ exists j, j ∈ js /\ job_key j = k)) /\
  (forall k j, dget k (_pending q') = Some j -> dget k (_pending q) = Some j \/ j ∈ js) /\
  (forall k j, dget k (_pending q) = Some j -> dget k (_pending q') = Some j) /\
  _done q' = _done q /\ excluded_domains q' = excluded_domains q /\ _all_domains q' = _all_domains q /\
  weights q' = weights q.
Proof.
  revert q. induction js as [|j js IH]; intros q; simpl.
  { split_and!; try done; [|by left]. intros k. split; [by left|].
    intros [?|(_ & j & Hj & _)]; [done|by apply not_elem_of_nil in Hj]. }
  pose proof (enqueue_spec j q) as Hs. destruct (enqueue j q) as [b q1].
  destruct Hs as (Hb & Hk & Hnew & Hold & Hd & Hw & He & Ha). specialize (IH q1).
  destruct (enqueue_many js q1) as [n q2]. simpl in *. destruct IH as (IH1 & IH2 & IH3 & IHd & IHe & IHa & IHw).
  rewrite IHd, IHe, IHa, IHw, Hd, He, Ha, Hw. split_and!; try done.
  - intros k. rewrite IH1, Hk, Hd, elem_of_cons_exists. unfold fresh in Hb.
    destruct (decide (k ∈ keys (_pending q))) as [|Hn]; [tauto|]. split.
    + intros [[?|[-> ->]]|(Hnd & Hx)]; [done| |right; split; [done|by right]].
      destruct Hb as [Hb _]. destruct (Hb eq_refl). right. split; [done|by left].
    + intros [?|(Hnd & [<-|Hx])]; [done| |right; by split].
      left. right. split; [|done]. by apply Hb.
  - intros k j' Hg. apply IH2 in Hg as [Hg|Hg]; [|right; by right].
    destruct (decide (k = job_key j)) as [->|Hn]; [|left; rewrite <- Hg; symmetry; by apply Hold; left].
    destruct b; [|left; rewrite <- Hg; symmetry; by apply Hold; right].
    rewrite Hnew in Hg by done. simplify_eq. right. by left.
  - intros k j' Hg. apply IH3. destruct b; [|rewrite Hold; [done|by right]].
    rewrite Hold; [done|]. left. intros ->. destruct Hb as [Hb _]. destruct (Hb eq_refl) as [Hb1 _].
    apply Hb1. by eapply dget_Some_key.
Qed.

Lemma elem_of_matrix {A} (f : StrategyItem -> string -> option A) items domains x :
  x ∈ matrix f items domains <-> exists it d, it ∈ items /\ d ∈ domains /\ f it d = Some x.
Proof.
  unfold matrix. rewrite list_elem_of_bind. split.
  - intros (it & Hx & Hit). apply list_elem_of_omap in Hx as (d & Hd & Hx). eauto 6.
  - intros (it & d & Hit & Hd & Hx). exists it. split; [|done]. apply list_elem_of_omap. eauto.
Qed.

Lemma add_done_many ks q :
  _done (foldr add_done q ks) = list_to_set ks ∪ _done q /\
  _pending (foldr add_done q ks) = _pending q /\ _heap (foldr add_done q ks) = _heap q /\
  _by_label (foldr add_done q ks) = _by_label q /\
  excluded_domains (foldr add_done q ks) = excluded_domains q /\
  _all_domains (foldr add_done q ks) = _all_domains q /\
  _cluster_index (foldr add_done q ks) = _cluster_index q.
Proof.
  induction ks as [|k ks (IH & IHs)]; simpl; [split_and!; try done; set_solver|].
  rewrite IH. split; [set_solver|exact IHs].
Qed.

(** The cluster index is either not built or the one of the domain list. *)
Definition index_ok q : Prop :=
  _cluster_index q = [] \/ _cluster_index q = _cluster_domain_index (_all_domains q).

Lemma build_spec_core items domains w eps rng now skip_domains skip_keys :
  let q := build items domains w eps rng now skip_domains skip_keys in
  queue_inv q /\ index_ok q /\
  (forall k, k ∈ keys (_pending q) <->
     exists it d, it ∈ items /\ d ∈ domains /\ d ∉ skip_domains /\ k ∉ skip_keys /\ k = (label it, d)) /\
  (forall k j, dget k (_pending q) = Some j -> fanout j = false /\ item j ∈ items) /\
  (forall k, k ∈ _done q <-> k ∈ skip_keys /\ exists it d, it ∈ items /\ d ∈ domains /\ k = (label it, d)) /\
  excluded_domains q = skip_domains /\ _all_domains q = domains.
Proof.
  intros q. unfold build in q.
  set (q0 := exclude_more skip_domains (with_domains domains (_cluster_domain_index domains)
               (new_queue w eps rng now))) in q.
  set (q1 := foldr add_done q0 (resume_done skip_keys items domains)) in q.
  set (js := seed_jobs skip_domains skip_keys items domains) in q.
  destruct (add_done_many (resume_done skip_keys items domains) q0) as (Hd & Hp & Hh & Hb & He & Ha & Hc).
  fold q1 in Hd, Hp, Hh, Hb, He, Ha, Hc. simpl in Hd, Hp, Hh, Hb, He, Ha, Hc.
  assert (Hinv1 : queue_inv q1).
  { split; rewrite ?Hp, ?Hh, ?Hb; simpl; [apply wf_nil|done|..].
    - intros k Hk. by apply not_elem_of_nil in Hk.
    - intros k Hk. by apply not_elem_of_nil in Hk.
    - intros l k. unfold label_keys. rewrite lookup_empty. simpl. split; [set_solver|].
      intros [Hk _]. by apply not_elem_of_nil in Hk. }
  pose proof (enqueue_many_spec js q1) as (Hk & Hj & _ & Hd2 & He2 & Ha2 & _).
  pose proof (inv_enqueue_many js q1 Hinv1) as Hinv2.
  assert (Hc2 : _cluster_index (enqueue_many js q1).2 = _cluster_domain_index domains).
  { rewrite <- Hc. generalize q1 as q'. clear. induction js as [|j js IH]; intros q'; simpl; [done|].
    destruct (enqueue j q') as [b q2] eqn:E. specialize (IH q2).
    destruct (enqueue_many js q2). simpl in *. rewrite IH. unfold enqueue in E.
    by destruct (_ || _); simplify_eq. }
  assert (Hjs : forall j, j ∈ js <-> exists it d, it ∈ items /\ d ∈ domains /\ d ∉ skip_domains /\
    (label it, d) ∉ skip_keys /\ j = from_item it d false).
  { intros j. unfold js, seed_jobs. rewrite elem_of_matrix. split.
    - intros (it & d & Hit & Hdom & Hx). repeat case_decide; simplify_eq. eauto 8.
    - intros (it & d & Hit & Hdom & Hs & Hr & ->). exists it, d. by rewrite !decide_False. }
  split_and!.
  - destruct Hinv2. by split.
  - right. simpl. by rewrite Hc2, Ha2, Ha.
  - intros k. simpl. rewrite Hk, Hp, Hd. simpl. split.
    + intros [Hx|(_ & j & Hx & <-)]; [by apply not_elem_of_nil in Hx|].
      apply Hjs in Hx as (it & d & ? & ? & ? & ? & ->). by exists it, d.
    + intros (it & d & Hit & Hdom & Hs & Hr & ->). right. split.
      * rewrite union_empty_r_L, elem_of_list_to_set. unfold resume_done. rewrite elem_of_matrix.
        intros (it' & d' & _ & _ & Hx). case_decide as Hs'; [|done].
        injection Hx as Hx1 Hx2. rewrite Hx1, Hx2 in Hs'. done.
      * exists (from_item it d false). split; [apply Hjs; eauto 8|done].
  - intros k j Hg. apply Hj in Hg as [Hg|Hg]; [by rewrite Hp in Hg|].
    by apply Hjs in Hg as (it & d & ? & ? & ? & ? & ->).
  - intros k. simpl. rewrite Hd2, Hd, union_empty_r_L, elem_of_list_to_set. unfold resume_done.
    rewrite elem_of_matrix. split.
    + intros (it & d & Hit & Hdom & Hx). case_decide; simplify_eq. eauto 8.
    + intros (Hs & it & d & Hit & Hdom & ->). exists it, d. by rewrite decide_True.
  - simpl. by rewrite He2, He, union_empty_l_L.
  - simpl. by rewrite Ha2, Ha.
Qed.

(** Building the queue gives a coherent queue whose pending jobs are exactly the
    strategy-domain pairs that are neither on a skipped domain nor resumed, each stored
    once, as a job that is not a fan-out; the resumed pairs are done and the skipped
    domains stay excluded. *)
Theorem build_spec items domains w eps rng now skip_domains skip_keys :
  let q := build items domains w eps rng now skip_domains skip_keys in
  queue_inv q /\ index_ok q /\
  (forall k, k ∈ keys (_pending q) <->
     exists it d, it ∈ items /\ d ∈ domains /\ d ∉ skip_domains /\ k ∉ skip_keys /\ k = (label it, d)) /\
  (forall k j, dget k (_pending q) = Some j -> fanout j = false /\ item j ∈ items) /\
  (forall k, k ∈ _done q <-> k ∈ skip_keys /\ exists it d, it ∈ items /\ d ∈ domains /\ k = (label it, d)) /\
  excluded_domains q = skip_domains /\ _all_domains q = domains.
Proof. exact (build_spec_core items domains w eps rng now skip_domains skip_keys). Qed.

(** *** Fan-out *)

Lemma fanout_loop_many it doms q :
  fanout_loop it doms q =
    enqueue_many ((fun d => from_item it d true) <$> filter (fun d => d ∉ excluded_domains q) doms) q.
Proof.
  assert (He : forall q' : queue, excluded_domains q' = excluded_domains q ->
    fanout_loop it doms q' =
    enqueue_many ((fun d => from_item it d true) <$> filter (fun d => d ∉ excluded_domains q) doms) q').
  { induction doms as [|d doms IH]; intros q' Hq; [done|]. cbn [fanout_loop]. rewrite Hq, filter_cons.
    destruct (decide (d ∈ excluded_domains q)) as [Hd|Hd];
      destruct (decide (d ∉ excluded_domains q)); try tauto; [by apply IH|].
    rewrite fmap_cons. cbn [enqueue_many].
    pose proof (enqueue_spec (from_item it d true) q') as Hs.
    destruct (enqueue (from_item it d true) q') as [b q2].
    destruct Hs as (_ & _ & _ & _ & _ & _ & Hx & _). by rewrite (IH q2) by by rewrite Hx, Hq. }
  by apply He.
Qed.

(** The siblings of a job: the other domains of its cluster that are not excluded. *)
Definition sibling q j (d : string) : Prop :=
  d ∈ _all_domains q /\ d <> domain j /\ cluster_domain d = cluster_domain (domain j) /\
  d ∉ excluded_domains q.

Definition fanout_job q j (j' : AdaptiveJob) : Prop :=
  exists d, sibling q j d /\ j' = from_item (item j) d true.

Lemma fanout_on_pass_many j q :
  index_ok q ->
  exists ds q0, (forall d, d ∈ ds <-> sibling q j d) /\
    _pending q0 = _pending q /\ _done q0 = _done q /\ _heap q0 = _heap q /\ _by_label q0 = _by_label q /\
    weights q0 = weights q /\ excluded_domains q0 = excluded_domains q /\
    let r := enqueue_many ((fun d => from_item (item j) d true) <$> ds) q0 in
    fanout_on_pass j q = (r.1, with_metrics (add_fanout r.1 (metrics r.2)) r.2) \/
    (ds = [] /\ fanout_on_pass j q = (0, q)).
Proof.
  intros Hi. unfold fanout_on_pass. destruct (_all_domains q) as [|a all] eqn:Ea.
  { exists [], q. split_and!; try done; [|by right]. intros d. unfold sibling. rewrite Ea.
    split; [by intros ?%not_elem_of_nil|by intros [?%not_elem_of_nil _]]. }
  rewrite <- Ea. destruct (_cluster_index_for_fanout q) as [idx q0] eqn:Eq.
  assert (Hq0 : idx = _cluster_domain_index (_all_domains q) /\
    _pending q0 = _pending q /\ _done q0 = _done q /\ _heap q0 = _heap q /\ _by_label q0 = _by_label q /\
    weights q0 = weights q /\ excluded_domains q0 = excluded_domains q).
  { unfold _cluster_index_for_fanout in Eq. destruct Hi as [Hi|Hi].
    - rewrite Hi, Ea in Eq. simplify_eq. rewrite Ea. done.
    - destruct (_cluster_index q) eqn:Ec; rewrite ?Ea in Eq; simplify_eq; rewrite ?Ea; try done.
      split; [|done]. by rewrite Hi, Ea. }
  destruct Hq0 as (-> & Hp & Hd & Hh & Hb & Hw & He).
  rewrite sibling_domains_index_core, fanout_loop_many.
  exists (filter (fun d => d ∉ excluded_domains q0) (sibling_domains (domain j) (_all_domains q) None)), q0.
  split; [|split_and!; try done].
  - intros d. unfold sibling, sibling_domains. rewrite !list_elem_of_filter, He. tauto.
  - left. by destruct (enqueue_many _ q0).
Qed.

Lemma inv_fanout j q : index_ok q -> queue_inv q -> queue_inv (fanout_on_pass j q).2.
Proof.
  intros Hi H. destruct (fanout_on_pass_many j q Hi) as (ds & q0 & _ & Hp & Hd & Hh & Hb & _ & _ & Hr).
  destruct Hr as [->|[_ ->]]; [|done].
  assert (H0 : queue_inv q0) by (eapply (inv_same [] q); try done; intros k _; by rewrite Hh).
  apply (inv_enqueue_many ((fun d => from_item (item j) d true) <$> ds)) in H0. destruct H0. by split.
Qed.

(** The queue after the bookkeeping of [mark_done], before the fan-out. *)
Lemma mark_done_unfold now j passed q :
  exists q0, mark_done now j passed q = (if passed then fanout_on_pass j q0 else (0, q0)) /\
    _pending q0 = ddel (job_key j) (_pending q) /\ _done q0 = {[job_key j]} ∪ _done q /\
    excluded_domains q0 = excluded_domains q /\ _all_domains q0 = _all_domains q /\
    _cluster_index q0 = _cluster_index q /\
    (passed = true -> weights q0 = boost_pass (job_family j) (job_blobs j) (job_traits j) (weights q)) /\
    (queue_inv q -> queue_inv q0).
Proof.
  set (q1 := with_metrics (record_run now passed (metrics (_drop_pending (job_key j) (add_done (job_key j) q)).2))
               (_drop_pending (job_key j) (add_done (job_key j) q)).2).
  assert (Hq1 : _pending q1 = ddel (job_key j) (_pending q) /\ _done q1 = {[job_key j]} ∪ _done q /\
    excluded_domains q1 = excluded_domains q /\ _all_domains q1 = _all_domains q /\
    _cluster_index q1 = _cluster_index q /\ weights q1 = weights q).
  { unfold q1. rewrite drop_add_done. unfold _drop_pending.
    destruct (dget (job_key j) (_pending q)) eqn:E; simpl; [done|]. split_and!; try done.
    symmetry. apply ddel_absent. by apply dget_None. }
  assert (Hinv1 : queue_inv q -> queue_inv q1).
  { intros H. apply (inv_discard [] (job_key j)) in H. destruct H. by split. }
  assert (Hc : forall q' : queue, _pending (_maybe_compact_heap q') = _pending q' /\
    _done (_maybe_compact_heap q') = _done q' /\
    excluded_domains (_maybe_compact_heap q') = excluded_domains q' /\
    _all_domains (_maybe_compact_heap q') = _all_domains q' /\
    _cluster_index (_maybe_compact_heap q') = _cluster_index q' /\
    weights (_maybe_compact_heap q') = weights q').
  { intros q'. unfold _maybe_compact_heap. by destruct (_ && _). }
  assert (Hm : forall q' : queue, _pending (_maybe_rebuild_heap q') = _pending q' /\
    _done (_maybe_rebuild_heap q') = _done q' /\
    excluded_domains (_maybe_rebuild_heap q') = excluded_domains q' /\
    _all_domains (_maybe_rebuild_heap q') = _all_domains q' /\
    _cluster_index (_maybe_rebuild_heap q') = _cluster_index q' /\
    weights (_maybe_rebuild_heap q') = weights q').
  { intros q'. unfold _maybe_rebuild_heap. destruct (_ <=? 0); [done|]. by destruct (_ <=? _). }
  destruct Hq1 as (H1 & H2 & H3 & H4 & H5 & H6).
  destruct passed.
  - set (q2 := with_weights (boost_pass (job_family j) (job_blobs j) (job_traits j) (weights q1)) q1).
    exists (_maybe_compact_heap (_maybe_rebuild_heap q2)). split; [reflexivity|].
    destruct (Hc (_maybe_rebuild_heap q2)) as (-> & -> & -> & -> & -> & ->).
    destruct (Hm q2) as (-> & -> & -> & -> & -> & ->). unfold q2. simpl. rewrite <- H6.
    split_and!; try done. intros H. apply inv_compact, inv_maybe_rebuild.
    eapply (inv_same [] q1); [done..|auto|by apply Hinv1].
  - exists (_maybe_compact_heap q1). split; [reflexivity|].
    destruct (Hc q1) as (-> & -> & -> & -> & -> & _). split_and!; try done.
    intros H. by apply inv_compact, Hinv1.
Qed.

Lemma mark_done_spec_core now j passed q n q' :
  queue_inv q -> index_ok q -> mark_done now j passed q = (n, q') ->
  queue_inv q' /\ _done q' = {[job_key j]} ∪ _done q /\
  (forall j2, job_key j2 = job_key j -> (enqueue j2 q').1 = false) /\
  (forall k, k ∈ keys (_pending q') <->
     (k ∈ keys (_pending q) /\ k <> job_key j) \/
     (passed = true /\ k ∉ _done q /\ exists j', fanout_job q j j' /\ job_key j' = k)) /\
  (forall k j', dget k (_pending q') = Some j' ->
     dget k (_pending q) = Some j' \/ (passed = true /\ fanout_job q j j')) /\
  (passed = true -> weights q' = boost_pass (job_family j) (job_blobs j) (job_traits j) (weights q)).
Proof.
  intros H Hi Hmd. destruct (mark_done_unfold now j passed q)
    as (q0 & He & Hp & Hd & Hx & Ha & Hc & Hw & Hinv).
  rewrite He in Hmd. clear He. specialize (Hinv H).
  assert (Hi0 : index_ok q0) by (unfold index_ok; by rewrite Hc, Ha).
  assert (Hre : forall q2 : queue, _done q2 = {[job_key j]} ∪ _done q ->
    forall j2, job_key j2 = job_key j -> (enqueue j2 q2).1 = false).
  { intros q2 Hd2 j2 Hk. unfold enqueue. rewrite Hk, (bool_decide_true (_ ∈ _)) by set_solver.
    by rewrite orb_true_r. }
  assert (Hkeys : forall k, k ∈ keys (_pending q0) <-> k ∈ keys (_pending q) /\ k <> job_key j).
  { intros k. rewrite Hp. apply elem_of_keys_del, H. }
  destruct passed.
  2:{ simplify_eq. split_and!; try done; [by apply Hre| |].
      - intros k. rewrite Hkeys. split; [by left|by intros [?|[? _]]].
      - intros k j' Hg. left. rewrite Hp in Hg. destruct (decide (k = job_key j)) as [->|Hn].
        + by rewrite dget_del_eq in Hg by apply H.
        + by rewrite dget_del_ne in Hg. }
  pose proof (inv_fanout j q0 Hi0 Hinv) as Hinv'. rewrite Hmd in Hinv'. simpl in Hinv'.
  destruct (fanout_on_pass_many j q0 Hi0) as (ds & q1 & Hds & Hp1 & Hd1 & _ & _ & Hw1 & _ & Hr).
  set (js := (fun d => from_item (item j) d true) <$> ds) in *.
  assert (Hjs : forall j', j' ∈ js <-> fanout_job q j j').
  { intros j'. unfold js, fanout_job. rewrite list_elem_of_fmap. unfold sibling in *. rewrite Ha, Hx in Hds.
    split.
    - intros (d & -> & Hd'). exists d. split; [by apply Hds|done].
    - intros (d & Hd' & ->). exists d. split; [done|by apply Hds]. }
  pose proof (enqueue_many_spec js q1) as (Hk & Hj & _ & Hd2 & _ & _ & Hw2).
  assert (Hq' : _pending q' = _pending (enqueue_many js q1).2 /\ _done q' = _done (enqueue_many js q1).2 /\
    weights q' = weights (enqueue_many js q1).2).
  { destruct Hr as [Hr|[Hr1 Hr2]].
    - rewrite Hmd in Hr. by simplify_eq.
    - rewrite Hmd in Hr2. simplify_eq. simpl. by rewrite Hp1, Hd1, Hw1. }
  destruct Hq' as (Hp' & Hd' & Hw').
  assert (Hdone : _done q' = {[job_key j]} ∪ _done q) by (by rewrite Hd', Hd2, Hd1, Hd).
  split_and!; [done|done|by apply Hre| | |].
  - intros k. rewrite Hp', Hk, Hp1, Hkeys, Hd1, Hd. split.
    + intros [?|(Hnd & j' & Hin & <-)]; [by left|]. right. split; [done|]. split; [set_solver|].
      exists j'. by rewrite <- Hjs.
    + intros [?|(_ & Hnd & j' & Hin & <-)]; [by left|].
      right. split; [|exists j'; by rewrite Hjs]. rewrite not_elem_of_union, not_elem_of_singleton.
      split; [|done]. destruct Hin as (d & (_ & Hne & _) & ->). unfold job_key. simpl. by intros [= ?].
  - intros k j' Hg. rewrite Hp' in Hg. apply Hj in Hg as [Hg|Hg]; [left|right; split; [done|by apply Hjs]].
    rewrite Hp1, Hp in Hg. destruct (decide (k = job_key j)) as [->|Hn].
    + by rewrite dget_del_eq in Hg by apply H.
    + by rewrite dget_del_ne in Hg.
  - intros _. by rewrite Hw', Hw2, Hw1, Hw.
Qed.

(** Completing a job keeps the queue coherent and makes the job done, so that it can
    never be enqueued again; a failure removes it and adds nothing, a pass boosts the
    weights of its genetics and enqueues the same strategy on exactly the other
    non-excluded domains of its cluster whose pair is neither pending nor done. *)
Theorem mark_done_spec now j passed q n q' :
  queue_inv q -> index_ok q -> mark_done now j passed q = (n, q') ->
  queue_inv q' /\ _done q' = {[job_key j]} ∪ _done q /\
  (forall j2, job_key j2 = job_key j -> (enqueue j2 q').1 = false) /\
  (forall k, k ∈ keys (_pending q') <->
     (k ∈ keys (_pending q) /\ k <> job_key j) \/
     (passed = true /\ k ∉ _done q /\ exists j', fanout_job q j j' /\ job_key j' = k)) /\
  (forall k j', dget k (_pending q') = Some j' ->
     dget k (_pending q) = Some j' \/ (passed = true /\ fanout_job q j j')) /\
  (passed = true -> weights q' = boost_pass (job_family j) (job_blobs j) (job_traits j) (weights q)).
Proof. exact (mark_done_spec_core now j passed q n q'). Qed.

(** *** Resume filter *)

Lemma resume_drop_spec rows q :
  queue_inv q -> NoDup rows.*1 ->
  let '(n, q') := resume_drop rows q in
  queue_inv q' /\
  (forall k, dget k (_pending q') =
     if decide ((k, true) ∈ rows) then None else dget k (_pending q)) /\
  (forall k, k ∈ _done q' <-> k ∈ _done q \/ (k ∈ keys (_pending q) /\ (k, true) ∈ rows)) /\
  (length (_pending q) = Z.to_nat n + length (_pending q'))%nat /\ 0 <= n.
Proof.
  revert q. induction rows as [|[k b] rows IH]; intros q Hq Hnd; simpl in *.
  { split_and!; try done; try lia. intros k. split; [by left|]. by intros [?|[_ ?%not_elem_of_nil]]. }
  apply NoDup_cons in Hnd as [Hk Hnd].
  assert (Hb : forall b', (k, b') ∉ rows) by (intros b' Hin; apply Hk; by apply (list_elem_of_fmap_2 fst) in Hin).
  assert (Hkeep : forall q', queue_inv q' -> (b = false \/ k ∉ keys (_pending q')) ->
    let '(n, q'') := resume_drop rows q' in
    queue_inv q'' /\
    (forall k', dget k' (_pending q'') =
       if decide ((k', true) ∈ (k, b) :: rows) then None else dget k' (_pending q')) /\
    (forall k', k' ∈ _done q'' <-> k' ∈ _done q' \/ (k' ∈ keys (_pending q') /\ (k', true) ∈ (k, b) :: rows)) /\
    (length (_pending q') = Z.to_nat n + length (_pending q''))%nat /\ 0 <= n).
  { intros q' Hq' Hor. specialize (IH q' Hq' Hnd). destruct (resume_drop rows q') as [n q''].
    destruct IH as (H1 & H2 & H3 & H4 & H5). split_and!; try done.
    - intros k'. rewrite H2. destruct (decide ((k', true) ∈ rows)) as [Hr|Hr].
      + rewrite decide_True; [done|by right].
      + destruct (decide ((k', true) ∈ (k, b) :: rows)) as [Hc|]; [|done].
        apply elem_of_cons in Hc as [[= -> <-]|?]; [|done].
        destruct Hor as [?|Hor]; [done|by apply dget_None].
    - intros k'. rewrite H3, elem_of_cons. split; [tauto|].
      intros [?|[Hin [[= -> <-]|?]]]; [by left| |tauto]. by destruct Hor. }
  destruct b; simpl; [|apply Hkeep; tauto].
  destruct (dget k (_pending q)) as [j|] eqn:E.
  2:{ rewrite bool_decide_false by (by intros [? ?]). apply Hkeep; [done|]. right. by apply dget_None. }
  rewrite bool_decide_true by done. rewrite drop_add_done.
  pose proof (inv_discard [] k q Hq) as Hq1. rewrite drop_add_done in Hq1.
  destruct (drop_pending_spec k q) as (_ & Hp & Hd & _).
  specialize (IH _ Hq1 Hnd). destruct (resume_drop rows _) as [n q'].
  destruct IH as (H1 & H2 & H3 & H4 & H5). simpl in *. rewrite Hp in *. rewrite Hd in H3.
  assert (Hin : k ∈ keys (_pending q)) by by eapply dget_Some_key.
  split_and!; try done; try lia.
  - intros k'. rewrite H2. destruct (decide (k = k')) as [<-|Hn].
    + rewrite dget_del_eq by apply Hq. rewrite (decide_True (P := (k, true) ∈ _ :: _)) by (by left).
      by case_decide.
    + rewrite dget_del_ne by done.
      destruct (decide ((k', true) ∈ rows)); [rewrite decide_True; [done|by right]|].
      rewrite decide_False; [done|]. rewrite elem_of_cons. intros [[= ->]|?]; done.
  - intros k'. rewrite H3, elem_of_keys_del, elem_of_union, elem_of_singleton, elem_of_cons by apply Hq.
    destruct (decide (k' = k)) as [->|Hn]; [tauto|]. split; [tauto|].
    intros [?|[? [[= ->]|?]]]; tauto.
  - pose proof (length_del k (_pending q) (inv_wf _ _ Hq) Hin). lia.
Qed.

Lemma resume_flags_map (check : AdaptiveJob -> bool) chunk q :
  resume_flags check chunk q = map check (values (_pending q)).
Proof.
  unfold resume_flags. rewrite <- concat_map. f_equal. apply windows_concat. lia.
Qed.

Lemma length_compact q : _pending (_maybe_compact_heap q) = _pending q /\ _done (_maybe_compact_heap q) = _done q.
Proof. unfold _maybe_compact_heap. by destruct (_ && _). Qed.

Lemma filter_resume_spec_core (check : AdaptiveJob -> bool) chunk q :
  queue_inv q ->
  let '(n, q') := filter_resume check chunk q in
  queue_inv q' /\
  (forall k j, dget k (_pending q') = Some j <-> dget k (_pending q) = Some j /\ check j = false) /\
  (forall k, k ∈ _done q' <-> k ∈ _done q \/ exists j, dget k (_pending q) = Some j /\ check j = true) /\
  (length (_pending q) = Z.to_nat n + length (_pending q'))%nat.
Proof.
  intros Hq. unfold filter_resume. rewrite resume_flags_map.
  assert (Hrows : zip (keys (_pending q)) (map check (values (_pending q)))
    = (fun kj => (kj.1, check kj.2)) <$> _pending q).
  { unfold keys, values. generalize (_pending q) as d. induction d as [|[k j] d IH]; [done|].
    rewrite !fmap_cons. simpl. f_equal. exact IH. }
  destruct (keys (_pending q)) as [|k0 ks] eqn:Ek.
  { assert (Hp : _pending q = []) by (by destruct (_pending q)). rewrite Hp. simpl.
    split_and!; try done; [intros k j; split; [done|by intros [? _]]|]. intros k. split; [by left|].
    by intros [?|(j & ? & _)]. }
  rewrite Hrows. pose proof (resume_drop_spec ((fun kj => (kj.1, check kj.2)) <$> _pending q) q Hq) as Hs.
  rewrite <- list_fmap_compose in Hs. specialize (Hs (inv_wf _ _ Hq)).
  destruct (resume_drop _ q) as [n q1]. destruct Hs as (H1 & H2 & H3 & H4 & _).
  assert (Hin : forall k, (k, true) ∈ (fun kj : jkey * AdaptiveJob => (kj.1, check kj.2)) <$> _pending q <->
    exists j, dget k (_pending q) = Some j /\ check j = true).
  { intros k. rewrite list_elem_of_fmap. split.
    - intros ([k' j] & [= -> Hc] & Hin). exists j. split; [|done]. by apply elem_of_dict; [apply Hq|].
    - intros (j & Hg & Hc). exists (k, j). simpl. rewrite Hc. split; [done|].
      by apply elem_of_dict; [apply Hq|]. }
  assert (Hq' : queue_inv (if n =? 0 then q1 else _maybe_compact_heap q1) /\
    _pending (if n =? 0 then q1 else _maybe_compact_heap q1) = _pending q1 /\
    _done (if n =? 0 then q1 else _maybe_compact_heap q1) = _done q1).
  { destruct (n =? 0); [done|]. destruct (length_compact q1) as [-> ->]. by split; [apply inv_compact|]. }
  destruct Hq' as (Hinv & -> & ->). split_and!; [done| | |done].
  - intros k j. rewrite H2. destruct (decide _) as [Hd|Hd]; rewrite Hin in Hd.
    + split; [done|]. intros [Hg Hc]. destruct Hd as (j' & Hg' & Hc'). congruence.
    + split; [|by intros [? _]]. intros Hg. split; [done|].
      destruct (check j) eqn:E; [|done]. destruct Hd. eauto.
  - intros k. rewrite H3, Hin. split; [tauto|]. intros [?|(j & Hg & Hc)]; [by left|]. right.
    split; [by eapply dget_Some_key|eauto].
Qed.

(** The resume filter removes exactly the pending jobs its check accepts, marks them done,
    and counts them, whatever the chunk size. *)
Theorem filter_resume_spec (check : AdaptiveJob -> bool) chunk q :
  queue_inv q ->
  let '(n, q') := filter_resume check chunk q in
  queue_inv q' /\
  (forall k j, dget k (_pending q') = Some j <-> dget k (_pending q) = Some j /\ check j = false) /\
  (forall k, k ∈ _done q' <-> k ∈ _done q \/ exists j, dget k (_pending q) = Some j /\ check j = true) /\
  (length (_pending q) = Z.to_nat n + length (_pending q'))%nat.
Proof. exact (filter_resume_spec_core check chunk q). Qed.
End Invariant.

(** ** Witnesses *)

Lemma ex_queue_inv : queue_inv ex_queue /\ index_ok ex_queue.
Proof.
  unfold ex_queue. split; [refine (proj1 (build_spec_core _ _ _ _ _ _ _ _))|].
  refine (proj1 (proj2 (build_spec_core _ _ _ _ _ _ _ _))).
Qed.

Definition ex_job : AdaptiveJob := from_item ex_B "a.com" false.
Definition ex_after : Z * AdaptiveJobQueue (R := unit) := mark_done f_zero ex_job true ex_queue.

Lemma mark_done_spec_witness :
  ex_after.1 = 0 /\ queue_inv ex_after.2 /\ _done ex_after.2 = {[job_key ex_job]} ∪ _done ex_queue.
Proof.
  split; [vm_compute; reflexivity|].
  unfold ex_after. destruct (mark_done f_zero ex_job true ex_queue) as [n q'] eqn:E.
  destruct (mark_done_spec _ _ _ _ _ _ (proj1 ex_queue_inv) (proj2 ex_queue_inv) E) as (A & B & _).
  exact (conj A B).
Defined.

Lemma filter_resume_spec_witness :
  let r := filter_resume (fun j => String.eqb (domain j) "a.com") 1 ex_queue in
  r.1 = 2 /\ queue_inv r.2.
Proof.
  split; [vm_compute; reflexivity|].
  pose proof (filter_resume_spec (fun j => String.eqb (domain j) "a.com") 1 ex_queue (proj1 ex_queue_inv)) as H.
  rewrite (surjective_pairing (filter_resume _ 1 ex_queue)) in H. exact (proj1 H).
Defined.
