(* ===== verification/AdaptivePop.v ===== *)
(** * Popping from the adaptive queue

    [pop] terminates when no priority is NaN, keeps the queue coherent, never
    returns a job on a hard-excluded domain, respects the soft exclusion as long
    as it can, and takes the best job when no heap entry is stale. *)

From stdpp Require Import base numbers list strings gmap sorting.
From Stdlib Require Import ZArith Lia SpecFloat.
From S2P Require Import Prelude PyFloat PyStr PyDict Families Weights TcpFanout AdaptiveQueue AdaptiveInv.

#[local] Open Scope Z_scope.

Section Pop.
Context {R : Type} {RG : Rng R} {SO : SetOrder}.
Notation queue := (AdaptiveJobQueue (R := R)).
Implicit Types (q : queue) (j : AdaptiveJob) (k : jkey) (e : _HeapEntry) (sk : list _HeapEntry).

(** ** What a pop does to the queue *)

Record popped q (r : option AdaptiveJob) (q' : queue) : Prop := {
  pd_weights : weights q' = weights q;
  pd_excluded : excluded_domains q' = excluded_domains q;
  pd_domains : _all_domains q' = _all_domains q /\ _cluster_index q' = _cluster_index q;
  pd_sub k j : dget k (_pending q') = Some j -> dget k (_pending q) = Some j;
  pd_kept k j : dget k (_pending q) = Some j ->
    dget k (_pending q') = Some j \/ r = Some j \/ (domain j ∈ excluded_domains q /\ k ∈ _done q');
  pd_done k : k ∈ _done q' <-> k ∈ _done q \/
    exists j, dget k (_pending q) = Some j /\ dget k (_pending q') = None /\ r <> Some j /\
              domain j ∈ excluded_domains q;
  pd_result j : r = Some j ->
    dget (job_key j) (_pending q) = Some j /\ domain j ∉ excluded_domains q /\
    dget (job_key j) (_pending q') = None
}.

(** Steps that change the pending jobs in no way that is seen. *)
Lemma popped_same q q' :
  weights q' = weights q -> excluded_domains q' = excluded_domains q ->
  _all_domains q' = _all_domains q -> _cluster_index q' = _cluster_index q ->
  _pending q' = _pending q -> _done q' = _done q -> popped q None q'.
Proof.
  intros Hw He Ha Hc Hp Hd. split; rewrite ?Hp, ?Hd; try done.
  - intros k j Hg. by left.
  - intros k. split; [by left|]. intros [?|(j & Hg & Hn & _)]; [done|congruence].
Qed.

Lemma popped_trans q q1 q2 r :
  popped q None q1 -> popped q1 r q2 -> popped q r q2.
Proof.
  intros H1 H2. split.
  - by rewrite (pd_weights _ _ _ H2), (pd_weights _ _ _ H1).
  - by rewrite (pd_excluded _ _ _ H2), (pd_excluded _ _ _ H1).
  - destruct (pd_domains _ _ _ H1) as [<- <-]. apply (pd_domains _ _ _ H2).
  - intros k j Hg. by apply (pd_sub _ _ _ H1), (pd_sub _ _ _ H2).
  - intros k j Hg. apply (pd_kept _ _ _ H1) in Hg as [Hg|[?|[Hx Hd]]]; [|done|].
    + rewrite <- (pd_excluded _ _ _ H1). by apply (pd_kept _ _ _ H2).
    + right; right. split; [done|]. apply (pd_done _ _ _ H2). by left.
  - intros k. rewrite (pd_done _ _ _ H2), (pd_done _ _ _ H1), (pd_excluded _ _ _ H1). split.
    + intros [[?|(j & Hg & Hn & _ & Hx)]|(j & Hg & Hn & Hr & Hx)]; [by left| |].
      * right. exists j. split_and!; try done.
        -- destruct (dget k (_pending q2)) eqn:E; [|done]. apply (pd_sub _ _ _ H2) in E. congruence.
        -- intros ->. destruct (pd_result _ _ _ H2 j eq_refl) as (Hg' & Hx' & _).
           rewrite (pd_excluded _ _ _ H1) in Hx'. done.
      * right. exists j. split_and!; try done. by apply (pd_sub _ _ _ H1).
    + intros [?|(j & Hg & Hn & Hr & Hx)]; [by left; left|].
      apply (pd_kept _ _ _ H1) in Hg as Hg'. destruct Hg' as [Hg'|[?|[_ Hd]]]; [|done|].
      * right. by exists j.
      * left. by apply (pd_done _ _ _ H1).
  - intros j Hr. destruct (pd_result _ _ _ H2 j Hr) as (Hg & Hx & Hn).
    rewrite (pd_excluded _ _ _ H1) in Hx. split_and!; try done. by apply (pd_sub _ _ _ H1).
Qed.

(** Taking a job out, and discarding a hard-excluded one. *)
Lemma popped_drop k j q ex :
  inv_with ex q -> dget k (_pending q) = Some j -> domain j ∉ excluded_domains q ->
  popped q (Some j) (_drop_pending k q).2.
Proof.
  intros Hq Hg Hx. destruct (drop_pending_spec k q) as (_ & Hp & Hd & _ & Hw & He).
  pose proof (inv_key _ _ Hq _ _ Hg) as Hk.
  assert (Hget : forall k', dget k' (_pending (_drop_pending k q).2) =
    if decide (k = k') then None else dget k' (_pending q)).
  { intros k'. rewrite Hp. case_decide; [subst; apply dget_del_eq, Hq|by apply dget_del_ne]. }
  split; [done|done| | | | |].
  - unfold _drop_pending. by rewrite Hg.
  - intros k' j' Hj. rewrite Hget in Hj. by case_decide.
  - intros k' j' Hj. rewrite Hget. case_decide as Hc; [|by left]. subst k'. right. left. congruence.
  - intros k'. rewrite Hd. split; [by left|]. intros [?|(j' & Hj & Hn & Hr & _)]; [done|].
    rewrite Hget in Hn. case_decide as Hc; [subst k'|]; congruence.
  - intros j' [= <-]. rewrite Hk, Hget. by rewrite decide_True.
Qed.

Lemma popped_discard k j q ex :
  inv_with ex q -> dget k (_pending q) = Some j -> domain j ∈ excluded_domains q ->
  popped q None (_drop_pending k (add_done k q)).2.
Proof.
  intros Hq Hg Hx. rewrite drop_add_done.
  destruct (drop_pending_spec k q) as (_ & Hp & Hd & _ & Hw & He).
  assert (Hget : forall k', dget k' (_pending (_drop_pending k q).2) =
    if decide (k = k') then None else dget k' (_pending q)).
  { intros k'. rewrite Hp. case_decide; [subst; apply dget_del_eq, Hq|by apply dget_del_ne]. }
  split; simpl; try done.
  - unfold _drop_pending. by rewrite Hg.
  - intros k' j' Hj. rewrite Hget in Hj. by case_decide.
  - intros k' j' Hj. rewrite Hget. case_decide as Hc; [|by left]. subst k'. right. right.
    rewrite Hd. split; [congruence|set_solver].
  - intros k'. rewrite Hd, elem_of_union, elem_of_singleton. setoid_rewrite Hget. split.
    + intros [->|?]; [|by left]. right. exists j. by rewrite decide_True.
    + intros [?|(j' & Hj & Hn & _)]; [by right|]. case_decide as Hc; [by left|congruence].
Qed.

(** ** Entries held outside the heap *)

Lemma inv_extra e sk q :
  inv_with (e :: sk) q ->
  (e_key e ∈ keys (_pending q) -> exists e', e' ∈ _heap q ++ sk /\ e_key e' = e_key e) ->
  inv_with sk q.
Proof.
  intros H He. split; try apply H. intros k Hk. apply (inv_heap _ _ H) in Hk as Hh.
  destruct Hh as (e' & Hin & <-). rewrite elem_of_app, elem_of_cons in Hin.
  destruct Hin as [Hin|[->|Hin]]; [exists e'; set_solver|by apply He|exists e'; set_solver].
Qed.

Lemma inv_take e h sk q : _heap q = e :: h -> inv_with sk q -> inv_with (e :: sk) (with_heap h q).
Proof.
  intros Hh H. split; try apply H. intros k Hk. apply (inv_heap _ _ H) in Hk as (e' & Hin & <-).
  exists e'. rewrite Hh in Hin. simpl. set_solver.
Qed.

Lemma inv_more sk sk' q : (forall e, e ∈ sk -> e ∈ sk') -> inv_with sk q -> inv_with sk' q.
Proof.
  intros Hs H. split; try apply H. intros k Hk. apply (inv_heap _ _ H) in Hk as (e' & Hin & <-).
  exists e'. set_solver.
Qed.

Lemma elem_of_foldl_push es h x : x ∈ foldl heappush h es <-> x ∈ es \/ x ∈ h.
Proof.
  revert h. induction es as [|e es IH]; intros h; simpl; [set_solver|].
  rewrite IH, elem_of_heappush. set_solver.
Qed.

Lemma inv_push_entries sk q : inv_with sk q -> queue_inv (push_entries sk q).
Proof.
  intros H. split; try apply H. intros k Hk. apply (inv_heap _ _ H) in Hk as (e' & Hin & <-).
  exists e'. simpl. rewrite app_nil_r, elem_of_foldl_push. set_solver.
Qed.

(** ** The loop *)

Definition skips_ok (exclude : gset string) sk q : Prop :=
  forall e, e ∈ sk -> exists j, dget (e_key e) (_pending q) = Some j /\
    domain j ∈ exclude /\ domain j ∉ excluded_domains q.

(** What [pop] promises on top of [popped]: a job on a soft-excluded domain is only
    returned when every pending job is excluded, and nothing is returned only when
    every pending job is hard-excluded. *)
Definition pop_promise (exclude : gset string) q (r : option AdaptiveJob) : Prop :=
  match r with
  | Some j => domain j ∈ exclude -> forall k j', dget k (_pending q) = Some j' -> domain j' ∈ exclude
  | None => forall k j', dget k (_pending q) = Some j' -> domain j' ∈ excluded_domains q
  end.

Lemma promise_step exclude q q1 r :
  popped q None q1 -> excluded_domains q ⊆ exclude -> pop_promise exclude q1 r -> pop_promise exclude q r.
Proof.
  intros H1 Hsub Hr. destruct r as [j|]; simpl in *.
  - intros Hj k j' Hg. apply (pd_kept _ _ _ H1) in Hg as [Hg|[?|[Hx _]]]; [by eapply Hr|done|set_solver].
  - intros k j' Hg. apply (pd_kept _ _ _ H1) in Hg as [Hg|[?|[Hx _]]]; [|done|done].
    rewrite <- (pd_excluded _ _ _ H1). by eapply Hr.
Qed.

Lemma pop_skipped_spec exclude sk q r q' :
  _heap q = [] -> inv_with sk q -> skips_ok exclude sk q -> pop_skipped sk q = (r, q') ->
  queue_inv q' /\ popped q r q' /\ pop_promise exclude q r.
Proof.
  intros Hh Hq Hsk H. destruct sk as [|e sk]; simpl in H.
  - simplify_eq. split_and!; [done|by apply popped_same|]. intros k j' Hg.
    apply dget_Some_key, (inv_heap _ _ Hq) in Hg as (e & He & _). rewrite Hh in He.
    by apply not_elem_of_nil in He.
  - destruct (Hsk e ltac:(by left)) as (j & Hg & Hex & Hx).
    pose proof (drop_pending_spec (e_key e) q) as (Hd1 & Hp & _ & Hh' & _).
    pose proof (inv_drop _ (e_key e) _ Hq) as Hq1. pose proof (popped_drop _ _ _ _ Hq Hg Hx) as Hpd.
    destruct (_drop_pending (e_key e) q) as [o q1]. simpl in *. rewrite Hg in Hd1. simplify_eq.
    assert (Hq2 : inv_with sk q1).
    { eapply inv_extra; [exact Hq1|]. rewrite Hp, elem_of_keys_del by apply Hq. tauto. }
    split_and!; [by apply inv_push_entries| |].
    + destruct Hpd. by split.
    + intros _ k j' Hg'. apply dget_Some_key in Hg' as Hk. apply (inv_heap _ _ Hq) in Hk as (e' & He' & <-).
      rewrite Hh in He'. destruct (Hsk e' He') as (j2 & Hj2 & Hd2 & _). congruence.
Qed.

Lemma pop_loop_spec fuel exclude sk q r q' :
  excluded_domains q ⊆ exclude -> inv_with sk q -> skips_ok exclude sk q ->
  pop_loop fuel exclude sk q = Some (r, q') ->
  queue_inv q' /\ popped q r q' /\ pop_promise exclude q r.
Proof.
  revert sk q. induction fuel as [|fuel IH]; intros sk q Hsub Hq Hsk H; simpl in H;
    destruct (_heap q) as [|e h] eqn:Hh; try done.
  1,2: injection H as H; by eapply pop_skipped_spec.
  pose proof (inv_take e h sk q Hh Hq) as Hq1. set (q1 := with_heap h q) in *.
  assert (Hp1 : popped q None q1) by by apply popped_same.
  (* a round that goes on from [q2] *)
  assert (Hnext : forall sk2 q2, popped q None q2 -> inv_with sk2 q2 -> skips_ok exclude sk2 q2 ->
    pop_loop fuel exclude sk2 q2 = Some (r, q') ->
    queue_inv q' /\ popped q r q' /\ pop_promise exclude q r).
  { intros sk2 q2 Hp2 Hq2 Hsk2 H2. apply IH in H2 as (H2 & H3 & H4); try done.
    - split_and!; [done|by eapply popped_trans|by eapply promise_step].
    - by rewrite (pd_excluded _ _ _ Hp2). }
  destruct (dget (e_key e) (_pending q)) as [j|] eqn:Hg.
  2:{ eapply Hnext; [exact Hp1| |exact Hsk|exact H]. eapply inv_extra; [exact Hq1|].
      intros Hk. by apply dget_None in Hg. }
  pose proof (inv_key _ _ Hq _ _ Hg) as Hk. rewrite Hk in H.
  destruct (_entry_stale q1 e j) eqn:Hst.
  { eapply (Hnext sk (_refresh_stale_entry j q1)); [by apply popped_same| |exact Hsk|exact H].
    eapply inv_extra; [by apply inv_push|]. intros _. eexists.
    unfold _refresh_stale_entry. simpl. rewrite elem_of_app, elem_of_heappush.
    split; [by left; left|done]. }
  destruct (decide (domain j ∈ excluded_domains q)) as [Hx|Hx].
  { pose proof (popped_discard (e_key e) j q1 _ Hq1 Hg Hx) as Hpd.
    eapply Hnext; [eapply popped_trans; [exact Hp1|exact Hpd]| | |exact H].
    - eapply inv_extra; [by apply inv_discard|]. rewrite drop_add_done. simpl.
      destruct (drop_pending_spec (e_key e) q1) as (_ & -> & _).
      rewrite elem_of_keys_del by apply Hq1. tauto.
    - intros e' He'. destruct (Hsk e' He') as (j' & Hg' & Hd' & Hx').
      exists j'. rewrite (pd_excluded _ _ _ Hpd). split_and!; try done.
      apply (pd_kept _ _ _ Hpd) in Hg' as [?|[?|[? _]]]; done. }
  destruct (decide (domain j ∈ exclude)) as [Hex|Hex].
  { eapply (Hnext (sk ++ [e]) q1); [exact Hp1| | |exact H].
    - eapply inv_more; [|exact Hq1]. set_solver.
    - intros e' He'. apply elem_of_app in He' as [He'|He']; [by apply Hsk|].
      apply list_elem_of_singleton in He' as ->. by exists j. }
  injection H as <- <-. pose proof (popped_drop (e_key e) j q1 _ Hq1 Hg Hx) as Hpd. split_and!.
  - apply inv_push_entries. eapply inv_extra; [by apply inv_drop|].
    destruct (drop_pending_spec (e_key e) q1) as (_ & -> & _). rewrite elem_of_keys_del by apply Hq1. tauto.
  - apply (popped_trans _ _ _ _ Hp1). destruct Hpd. by split.
  - intros ?. done.
Qed.

(** ** Exploration *)

Context {RO : RngOk R}.

Lemma reservoir_spec skip d count chosen r count' chosen' r' :
  reservoir skip d count chosen r = (count', chosen', r') -> 0 <= count ->
  (count = 0 -> chosen = None) -> (0 < count -> is_Some chosen) ->
  count <= count' /\ (0 < count' -> is_Some chosen') /\
  (forall k, chosen' = Some k -> chosen = Some k \/ exists j, (k, j) ∈ d /\ domain j ∉ skip) /\
  (count' = 0 -> chosen' = None /\ forall k j, (k, j) ∈ d -> domain j ∈ skip).
Proof.
  revert count chosen r. induction d as [|[k j] d IH]; intros count chosen r H Hc H0 H1; simpl in H.
  { simplify_eq. split_and!; [lia|done|by left|]. intros Hz. split; [by apply H0|].
    by intros k j ?%not_elem_of_nil. }
  destruct (decide (domain j ∈ skip)) as [Hs|Hs].
  { apply IH in H as (A & B & C & D); try done. split_and!; try done.
    - intros k' Hk'. destruct (C k' Hk') as [?|(j' & Hj' & Hd)]; [by left|right].
      exists j'. split; [by right|done].
    - intros Hz. destruct (D Hz) as [D1 D2]. split; [done|]. intros k' j' [[= -> ->]|Hin]%elem_of_cons; [done|].
      by eapply D2. }
  pose proof (rng_randint_range 1 (count + 1) r ltac:(lia)) as Hr.
  destruct (rng_randint 1 (count + 1) r) as [n r1]. simpl in Hr.
  assert (Hsome : is_Some (if n =? 1 then Some k else chosen)).
  { destruct (Z.eqb_spec n 1); [done|]. apply H1. lia. }
  apply IH in H as (A & B & C & D); [|lia|lia|intros _; exact Hsome].
  split_and!; [lia|done| |intros Hz; lia].
  intros k' Hk'. destruct (C k' Hk') as [Hch|(j' & Hj' & Hd)].
  - destruct (n =? 1); [|by left]. injection Hch as <-. right. exists j. split; [by left|done].
  - right. exists j'. split; [by right|done].
Qed.

Lemma epsilon_pick_spec exclude q o q' :
  queue_inv q -> excluded_domains q ⊆ exclude -> _epsilon_pick_key exclude q = (o, q') ->
  popped q None q' /\ queue_inv q' /\ _pending q' = _pending q /\
  match o with
  | Some k => exists j, dget k (_pending q) = Some j /\ domain j ∉ excluded_domains q /\
      (domain j ∈ exclude -> forall k' j', dget k' (_pending q) = Some j' -> domain j' ∈ exclude)
  | None => forall k j, dget k (_pending q) = Some j -> domain j ∈ excluded_domains q
  end.
Proof.
  intros Hq Hsub H. unfold _epsilon_pick_key in H.
  assert (Hget : forall k j, (k, j) ∈ _pending q <-> dget k (_pending q) = Some j).
  { intros k j. apply elem_of_dict, Hq. }
  destruct (reservoir exclude (_pending q) 0 None (_rng q)) as [[c1 ch1] r1] eqn:E1.
  apply reservoir_spec in E1 as (A & B & C & D); [|lia|done|lia].
  destruct (Z.eqb_spec c1 0) as [Hz|Hz]; simpl in H.
  2:{ simplify_eq. destruct (B ltac:(lia)) as [k Hk]. rewrite Hk.
      split_and!; [by apply popped_same|destruct Hq; by split|done|].
      destruct (C k Hk) as [?|(j & Hj & Hd)]; [done|]. exists j.
      split_and!; [by apply Hget|set_solver|done]. }
  destruct (D Hz) as [D1 D2]. subst ch1.
  destruct (reservoir (excluded_domains q) (_pending q) 0 None r1) as [[c2 ch2] r2] eqn:E2.
  apply reservoir_spec in E2 as (A2 & B2 & C2 & D3); [|lia|done|lia]. simplify_eq.
  split_and!; [by apply popped_same|destruct Hq; by split|done|].
  destruct o as [k|].
  - destruct (C2 k eq_refl) as [?|(j & Hj & Hd)]; [done|]. exists j.
    split_and!; [by apply Hget|done|]. intros _ k' j' Hg. eapply D2. by apply Hget.
  - intros k j Hg. destruct (Z.eq_dec c2 0) as [Hc|Hc].
    + eapply (proj2 (D3 Hc)). by apply Hget.
    + destruct (B2 ltac:(lia)) as [? ?]. done.
Qed.

(** The part of [pop] that draws the exploration coin. *)
Lemma pop_unfold excl q :
  _pending q <> [] ->
  exists explore q0, popped q None q0 /\ (queue_inv q -> queue_inv q0) /\ _pending q0 = _pending q /\
    _heap q0 = _heap q /\ weights q0 = weights q /\
    (flt f_zero (epsilon q) = false -> explore = false) /\
    pop excl q =
      if explore then
        match _epsilon_pick_key (excl ∪ excluded_domains q) q0 with
        | (None, q) => Some (None, q)
        | (Some k, q) => Some (_drop_pending k q)
        end
      else pop_loop (pop_fuel q0) (excl ∪ excluded_domains q) [] q0.
Proof.
  intros Hne. unfold pop. destruct (_pending q) as [|kj d] eqn:Ep; [done|].
  destruct (flt f_zero (epsilon q)) eqn:Ef.
  - destruct (rng_random (_rng q)) as [x r].
    exists (flt x (epsilon q) && (1 <? length (kj :: d))%nat), (with_rng r q).
    split_and!; try done; [by apply popped_same|intros H; destruct H; by split].
  - exists false, q. split_and!; try done. by apply popped_same.
Qed.

Lemma pop_spec_core excl q r q' :
  queue_inv q -> pop excl q = Some (r, q') ->
  queue_inv q' /\ popped q r q' /\ pop_promise (excl ∪ excluded_domains q) q r.
Proof.
  intros Hq H. destruct (decide (_pending q = [])) as [Hp|Hp].
  { unfold pop in H. rewrite Hp in H. simplify_eq. split_and!; [done|by apply popped_same|].
    intros k j Hg. by rewrite Hp in Hg. }
  destruct (pop_unfold excl q Hp) as (explore & q0 & H0 & Hinv & Hp0 & _ & _ & _ & Hpop).
  rewrite Hpop in H. clear Hpop. set (ex := excl ∪ excluded_domains q) in *.
  assert (Hsub : excluded_domains q ⊆ ex) by set_solver.
  assert (Hsub0 : excluded_domains q0 ⊆ ex) by by rewrite (pd_excluded _ _ _ H0).
  destruct explore.
  - destruct (_epsilon_pick_key ex q0) as [o q1] eqn:E.
    apply epsilon_pick_spec in E as (H1 & Hq1 & Hp1 & Ho); [|by apply Hinv|done].
    assert (H01 : popped q None q1) by by eapply popped_trans.
    rewrite Hp0, (pd_excluded _ _ _ H0) in Ho.
    destruct o as [k|]; [|by simplify_eq; split_and!].
    destruct Ho as (j & Hg & Hx & Hs). injection H as H.
    assert (Hg1 : dget k (_pending q1) = Some j) by by rewrite Hp1, Hp0.
    pose proof (inv_key _ _ Hq1 _ _ Hg1) as Hk.
    destruct (drop_pending_spec k q1) as (Hd & _). pose proof (inv_drop [] k q1 Hq1) as Hq2.
    assert (Hpd : popped q1 (Some j) (_drop_pending k q1).2).
    { eapply popped_drop; [exact Hq1|done|]. by rewrite (pd_excluded _ _ _ H01). }
    rewrite H in Hd, Hq2, Hpd. simpl in *. rewrite Hd, Hg1.
    split_and!; [done|by eapply popped_trans|exact Hs].
  - apply pop_loop_spec in H as (H1 & H2 & H3); [|done|by apply Hinv|by intros ? ?%not_elem_of_nil].
    split_and!; [done|by eapply popped_trans|by eapply promise_step].
Qed.

(** C15. Popping from a coherent queue leaves a coherent queue. What it returns was pending,
    is not any more, and is not on a hard-excluded domain; a job on a soft-excluded domain
    comes only when all pending jobs are excluded, and nothing comes only when all of them
    are hard-excluded; no other pending job is lost except hard-excluded ones, which become
    done. *)
Theorem pop_spec excl q r q' :
  queue_inv q -> pop excl q = Some (r, q') ->
  queue_inv q' /\ popped q r q' /\ pop_promise (excl ∪ excluded_domains q) q r.
Proof. exact (pop_spec_core excl q r q'). Qed.

(** ** Termination *)

(** No pending job has a NaN priority. *)
Definition no_nan q : Prop :=
  forall k j, dget k (_pending q) = Some j -> is_nan (_job_priority q j) = false.

Definition stale_in q e : bool :=
  match dget (e_key e) (_pending q) with Some j => _entry_stale q e j | None => false end.

Definition stale_count q (h : list _HeapEntry) : nat := length (filter (fun e => stale_in q e = true) h).

(** Every round lowers [length heap + number of stale entries]. *)
Definition rounds q : nat := length (_heap q) + stale_count q (_heap q).

Lemma stale_count_perm q h1 h2 : h1 ≡ₚ h2 -> stale_count q h1 = stale_count q h2.
Proof. intros H. unfold stale_count. by rewrite H. Qed.

Lemma stale_count_mono q q1 h :
  (forall e, stale_in q1 e = true -> stale_in q e = true) -> (stale_count q1 h <= stale_count q h)%nat.
Proof.
  intros H. unfold stale_count. induction h as [|e h IH]; [done|]. rewrite !filter_cons.
  destruct (decide (stale_in q1 e = true)) as [H1|H1], (decide (stale_in q e = true)) as [H2|H2];
    simpl; try lia. destruct H2. by apply H.
Qed.

Lemma rounds_fuel q : (rounds q <= pop_fuel q)%nat.
Proof.
  unfold rounds, pop_fuel, stale_count. pose proof (length_filter (fun e => stale_in q e = true) (_heap q)). lia.
Qed.

Lemma pop_loop_total fuel exclude sk q :
  inv_with sk q -> no_nan q -> (rounds q <= fuel)%nat -> is_Some (pop_loop fuel exclude sk q).
Proof.
  revert sk q. induction fuel as [|fuel IH]; intros sk q Hq Hn Hf; simpl;
    destruct (_heap q) as [|e h] eqn:Hh; try by eexists.
  { unfold rounds in Hf. rewrite Hh in Hf. simpl in Hf. lia. }
  pose proof (inv_take e h sk q Hh Hq) as Hq1. set (q1 := with_heap h q) in *.
  assert (Hf' : (S (length h) + ((if stale_in q e then 1 else 0) + stale_count q h) <= S fuel)%nat).
  { unfold rounds, stale_count in *. rewrite Hh, filter_cons in Hf. simpl in Hf.
    destruct (decide (stale_in q e = true)) as [Hs|Hs]; simpl in Hf.
    - rewrite Hs. lia.
    - apply not_true_iff_false in Hs. rewrite Hs. lia. }
  assert (Hr1 : rounds q1 = (length h + stale_count q h)%nat) by reflexivity.
  destruct (dget (e_key e) (_pending q)) as [j|] eqn:Hg.
  2:{ apply IH; [|done|rewrite Hr1; lia]. eapply inv_extra; [exact Hq1|].
      intros Hk. by apply dget_None in Hg. }
  pose proof (inv_key _ _ Hq _ _ Hg) as Hk. rewrite Hk.
  destruct (_entry_stale q1 e j) eqn:Hst.
  - apply IH; [|done|].
    + eapply inv_extra; [by apply inv_push|]. intros _. eexists.
      unfold _refresh_stale_entry. simpl. rewrite elem_of_app, elem_of_heappush. by split; [left; left|].
    + assert (Hs : stale_in q e = true) by (unfold stale_in; by rewrite Hg). rewrite Hs in Hf'.
      set (ne := Entry (fneg (_job_priority q1 j)) (_seq q1 + 1) (job_key j)).
      assert (Hfresh : stale_in q ne = false).
      { unfold stale_in, ne, _entry_stale. simpl. rewrite Hk, Hg. simpl.
        change (_job_priority q1 j) with (_job_priority q j). rewrite feq_refl; [done|].
        rewrite is_nan_fneg. by apply (Hn (e_key e)). }
      assert (Hr : rounds (_refresh_stale_entry j q1) = (S (length h) + stale_count q (heappush h ne))%nat).
      { unfold rounds. f_equal. exact (Permutation_length (insert_stable_perm entry_lt ne h)). }
      rewrite Hr. unfold heappush. rewrite (stale_count_perm q _ _ (insert_stable_perm entry_lt ne h)).
      unfold stale_count at 1. rewrite filter_cons, Hfresh. simpl. fold (stale_count q h). lia.
  - destruct (decide (domain j ∈ excluded_domains q)) as [Hx|Hx].
    + pose proof (popped_discard (e_key e) j q1 _ Hq1 Hg Hx) as Hpd. apply IH.
      * eapply inv_extra; [by apply inv_discard|]. rewrite drop_add_done. simpl.
        destruct (drop_pending_spec (e_key e) q1) as (_ & -> & _).
        rewrite elem_of_keys_del by apply Hq1. tauto.
      * intros k' j' Hg'. apply (pd_sub _ _ _ Hpd) in Hg'. unfold _job_priority.
        rewrite (pd_weights _ _ _ Hpd). by apply (Hn k').
      * set (q2 := (_drop_pending (e_key e) (add_done (e_key e) q1)).2) in *.
        assert (Hh2 : _heap q2 = h).
        { unfold q2. rewrite drop_add_done. simpl. by destruct (drop_pending_spec (e_key e) q1) as (_ & _ & _ & -> & _). }
        unfold rounds. rewrite Hh2.
        assert (stale_count q2 h <= stale_count q h)%nat; [|lia]. apply stale_count_mono.
        intros e'. unfold stale_in. destruct (dget (e_key e') (_pending q2)) as [j'|] eqn:Eg; [|done].
        apply (pd_sub _ _ _ Hpd) in Eg. simpl in Eg. rewrite Eg. unfold _entry_stale, _job_priority.
        by rewrite (pd_weights _ _ _ Hpd).
    + destruct (decide (domain j ∈ exclude)); [|by eexists].
      apply IH; [|done|rewrite Hr1; lia]. eapply inv_more; [|exact Hq1]. set_solver.
Qed.

Lemma pop_total_core excl q :
  queue_inv q -> no_nan q ->
  exists r q', pop excl q = Some (r, q') /\
    ((exists k j, dget k (_pending q) = Some j /\ domain j ∉ excluded_domains q) -> is_Some r).
Proof.
  intros Hq Hn.
  assert (Hsome : is_Some (pop excl q)).
  { destruct (decide (_pending q = [])) as [Hp|Hp].
    { unfold pop. rewrite Hp. by eexists. }
    destruct (pop_unfold excl q Hp) as (explore & q0 & H0 & Hinv & Hp0 & Hh0 & Hw0 & _ & ->).
    destruct explore.
    - destruct (_epsilon_pick_key _ q0) as [[k|] q1]; by eexists.
    - apply pop_loop_total; [by apply Hinv| |apply rounds_fuel].
      intros k j Hg. unfold _job_priority. rewrite Hw0. rewrite Hp0 in Hg. by apply (Hn k). }
  destruct Hsome as [[r q'] H]. exists r, q'. split; [done|].
  intros (k & j & Hg & Hx). apply pop_spec_core in H as (_ & _ & H); [|done].
  destruct r; [done|]. destruct Hx. by eapply H.
Qed.

(** [pop] terminates when no pending job has a NaN priority, and it returns a job
    whenever some pending job is not on a hard-excluded domain. *)
Theorem pop_total excl q :
  queue_inv q -> no_nan q ->
  exists r q', pop excl q = Some (r, q') /\
    ((exists k j, dget k (_pending q) = Some j /\ domain j ∉ excluded_domains q) -> is_Some r).
Proof. exact (pop_total_core excl q). Qed.

(** ** The heap

    Entries without NaN are totally ordered, so the sorted list that models the heap
    stays sorted: its head is the entry that [heapq] returns. *)

Definition entry_ok e : Prop := is_nan (neg_priority e) = false.
Definition entry_le e1 e2 : Prop := entry_lt e2 e1 = false.

Lemma entry_le_key e1 e2 :
  entry_ok e1 -> entry_ok e2 ->
  entry_le e1 e2 <->
  key_lt (fkey (neg_priority e1)) (fkey (neg_priority e2)) \/
  (fkey (neg_priority e1) = fkey (neg_priority e2) /\ seq e1 <= seq e2).
Proof.
  intros H1 H2. unfold entry_le, entry_lt. rewrite orb_false_iff, andb_false_iff, Z.ltb_ge.
  rewrite <- !not_true_iff_false, flt_key, feq_key by done. unfold key_lt.
  destruct (fkey (neg_priority e1)) as [[a b] c], (fkey (neg_priority e2)) as [[a' b'] c']. simpl.
  split.
  - intros [Hn Ho]. destruct (decide ((a', b', c') = (a, b, c))) as [Heq|Hne].
    + right. split; [done|]. by destruct Ho.
    + left. assert (~ (a' = a /\ b' = b /\ c' = c)) by (intros (-> & -> & ->); done). lia.
  - intros [Hl|[[= -> -> ->] Hs]]; [|split; [lia|by right]].
    split; [lia|]. left. intros [= -> -> ->]. lia.
Qed.

Lemma entry_le_trans e1 e2 e3 :
  entry_ok e1 -> entry_ok e2 -> entry_ok e3 -> entry_le e1 e2 -> entry_le e2 e3 -> entry_le e1 e3.
Proof.
  intros H1 H2 H3. rewrite !entry_le_key by done. unfold key_lt.
  destruct (fkey (neg_priority e1)) as [[a b] c], (fkey (neg_priority e2)) as [[a' b'] c'],
    (fkey (neg_priority e3)) as [[a'' b''] c'']. simpl.
  intros [?|[[= -> -> ->] ?]] [?|[[= -> -> ->] ?]]; [left; lia|left; lia|left; lia|right; split; [done|lia]].
Qed.

Lemma entry_le_total e1 e2 : entry_ok e1 -> entry_ok e2 -> entry_le e1 e2 \/ entry_lt e1 e2 = false.
Proof.
  intros H1 H2. destruct (entry_lt e1 e2) eqn:E; [|by right]. left. apply entry_le_key; try done.
  unfold entry_lt in E. apply orb_true_iff in E as [E|E]; [left; by apply flt_key|].
  apply andb_true_iff in E as [E1 E2]. right. split; [by apply feq_key|]. lia.
Qed.

Definition heap_ok (h : list _HeapEntry) : Prop := Forall entry_ok h /\ StronglySorted entry_le h.

Lemma heap_ok_push h e : heap_ok h -> entry_ok e -> heap_ok (heappush h e).
Proof.
  intros [Hok Hs] He. split.
  { apply Forall_forall. intros x Hx. apply elem_of_heappush in Hx as [->|Hx]; [done|].
    rewrite Forall_forall in Hok. by apply Hok. }
  unfold heappush. induction Hs as [|y h Hs IH Hf]; simpl; [by repeat constructor|].
  apply Forall_cons in Hok as [Hy Hok].
  destruct (entry_lt y e) eqn:E.
  - constructor; [by apply IH|]. apply Forall_forall. intros x Hx.
    change (x ∈ heappush h e) in Hx. apply elem_of_heappush in Hx as [->|Hx].
    + destruct (entry_le_total y e) as [?|?]; [done..|congruence].
    + rewrite Forall_forall in Hf. by apply Hf.
  - constructor; [by constructor|]. constructor; [done|]. rewrite Forall_forall in Hf, Hok.
    apply Forall_forall. intros x Hx. eapply (entry_le_trans e y x); auto.
Qed.

Lemma heap_ok_tail e h : heap_ok (e :: h) -> heap_ok h.
Proof. intros [Ho Hs]. inversion Ho; inversion Hs; by split. Qed.

(** *** The best job *)

Definition no_stale q : Prop := forall e, e ∈ _heap q -> stale_in q e = false.

Lemma pop_loop_best fuel exclude sk q j q' :
  excluded_domains q ⊆ exclude -> inv_with sk q -> skips_ok exclude sk q -> no_nan q ->
  heap_ok (_heap q) -> no_stale q -> pop_loop fuel exclude sk q = Some (Some j, q') ->
  domain j ∉ exclude ->
  forall k j', dget k (_pending q) = Some j' -> domain j' ∉ exclude ->
    flt (_job_priority q j) (_job_priority q j') = false.
Proof.
  revert sk q. induction fuel as [|fuel IH]; intros sk q Hsub Hq Hsk Hnan Hh Hst H Hj k j' Hg' Hj';
    simpl in H; destruct (_heap q) as [|e h] eqn:Eh; try done.
  1,2: exfalso; destruct sk as [|e sk]; simpl in H; [done|];
    destruct (Hsk e ltac:(by left)) as (j2 & Hg2 & Hd2 & _);
    pose proof (drop_pending_spec (e_key e) q) as (Hd1 & _);
    destruct (_drop_pending (e_key e) q) as [o q1]; simpl in Hd1; rewrite Hg2 in Hd1; by simplify_eq.
  pose proof (inv_take e h sk q Eh Hq) as Hq1. set (q1 := with_heap h q) in *.
  assert (Hst1 : no_stale q1) by (intros e' He'; apply Hst; rewrite Eh; by right).
  pose proof (heap_ok_tail _ _ Hh) as Hh1.
  destruct (dget (e_key e) (_pending q)) as [je|] eqn:Hg.
  2:{ eapply (IH sk q1); eauto. eapply inv_extra; [exact Hq1|]. intros Hk. by apply dget_None in Hg. }
  pose proof (inv_key _ _ Hq _ _ Hg) as Hk. rewrite Hk in H.
  assert (Hfe : _entry_stale q e je = false).
  { specialize (Hst e ltac:(rewrite Eh; by left)). unfold stale_in in Hst. by rewrite Hg in Hst. }
  change (_entry_stale q1 e je) with (_entry_stale q e je) in H. rewrite Hfe in H.
  destruct (decide (domain je ∈ excluded_domains q)) as [Hx|Hx].
  { pose proof (popped_discard (e_key e) je q1 _ Hq1 Hg Hx) as Hpd.
    set (q2 := (_drop_pending (e_key e) (add_done (e_key e) q1)).2) in *.
    assert (Hh2 : _heap q2 = h).
    { unfold q2. rewrite drop_add_done. simpl. by destruct (drop_pending_spec (e_key e) q1) as (_ & _ & _ & -> & _). }
    assert (Hpr : forall x, _job_priority q2 x = _job_priority q x).
    { intros x. unfold _job_priority. by rewrite (pd_weights _ _ _ Hpd). }
    rewrite <- !Hpr. eapply (IH sk q2); try done.
    - by rewrite (pd_excluded _ _ _ Hpd).
    - eapply inv_extra; [by apply inv_discard|]. unfold q2. rewrite drop_add_done. simpl.
      destruct (drop_pending_spec (e_key e) q1) as (_ & -> & _). rewrite elem_of_keys_del by apply Hq1. tauto.
    - intros e' He'. destruct (Hsk e' He') as (j2 & Hg2 & Hd2 & Hx2). exists j2.
      rewrite (pd_excluded _ _ _ Hpd). split_and!; try done.
      apply (pd_kept _ _ _ Hpd) in Hg2 as [?|[?|[? _]]]; done.
    - intros k2 j2 Hg2. rewrite Hpr. apply (Hnan k2). by apply (pd_sub _ _ _ Hpd) in Hg2.
    - by rewrite Hh2.
    - intros e' He'. rewrite Hh2 in He'. specialize (Hst1 e' He'). unfold stale_in in *.
      destruct (dget (e_key e') (_pending q2)) as [j2|] eqn:E2; [|done].
      apply (pd_sub _ _ _ Hpd) in E2. rewrite E2 in Hst1. unfold _entry_stale in *. by rewrite Hpr.
    - apply (pd_kept _ _ _ Hpd) in Hg' as [Hg'|[?|[Hx' _]]]; [exact Hg'|done|].
      destruct Hj'. by apply Hsub. }
  destruct (decide (domain je ∈ exclude)) as [Hex|Hex].
  { eapply (IH (sk ++ [e]) q1); eauto.
    - eapply inv_more; [|exact Hq1]. set_solver.
    - intros e' He'. apply elem_of_app in He' as [He'|He']; [by apply Hsk|].
      apply list_elem_of_singleton in He' as ->. by exists je. }
  injection H as -> _. apply dget_Some_key in Hg' as Hkey.
  apply (inv_heap _ _ Hq) in Hkey as (e' & He' & <-). rewrite Eh in He'.
  apply elem_of_app in He' as [He'|He'].
  2:{ destruct (Hsk e' He') as (j2 & Hg2 & Hd2 & _). rewrite Hg' in Hg2. by simplify_eq. }
  apply elem_of_cons in He' as [->|He'].
  { rewrite Hg in Hg'. simplify_eq. apply flt_irrefl. }
  assert (Hle : entry_le e e').
  { destruct Hh as [_ Hs]. inversion Hs as [|? ? _ Hf]; subst. rewrite Forall_forall in Hf. by apply Hf. }
  assert (Hfe' : _entry_stale q e' j' = false).
  { specialize (Hst1 e' He'). unfold stale_in in Hst1. simpl in Hst1. by rewrite Hg' in Hst1. }
  unfold entry_le, entry_lt in Hle. apply orb_false_iff in Hle as [Hle _].
  unfold _entry_stale in Hfe, Hfe'. apply negb_false_iff in Hfe, Hfe'.
  pose proof (Hnan _ _ Hg) as Hn1. pose proof (Hnan _ _ Hg') as Hn2.
  rewrite <- flt_fneg. apply not_true_iff_false. intros Hlt. apply not_true_iff_false in Hle. apply Hle.
  pose proof (feq_not_nan _ _ Hfe) as [Ha Hb]. pose proof (feq_not_nan _ _ Hfe') as [Hc Hd].
  apply flt_key in Hlt; [|done..]. apply feq_key in Hfe, Hfe'; try done.
  apply flt_key; [done..|]. by rewrite Hfe, Hfe'.
Qed.

(** Without exploration and with no stale heap entry, [pop] returns a best job: no
    pending job on an admissible domain has a higher priority. *)
Theorem pop_best excl q j q' :
  queue_inv q -> no_nan q -> heap_ok (_heap q) -> no_stale q -> flt f_zero (epsilon q) = false ->
  pop excl q = Some (Some j, q') -> domain j ∉ excl ->
  forall k j', dget k (_pending q) = Some j' -> domain j' ∉ excl -> domain j' ∉ excluded_domains q ->
    flt (_job_priority q j) (_job_priority q j') = false.
Proof.
  intros Hq Hn Hh Hst Heps H Hj k j' Hg Hj' Hx'.
  assert (Hx : domain j ∉ excluded_domains q).
  { apply pop_spec_core in H as (_ & Hpd & _); [|done]. by apply (pd_result _ _ _ Hpd). }
  destruct (decide (_pending q = [])) as [Hp|Hp]; [by rewrite Hp in Hg|].
  destruct (pop_unfold excl q Hp) as (explore & q0 & H0 & Hinv & Hp0 & Hh0 & Hw0 & Hex & Hpop).
  rewrite Hpop, (Hex Heps) in H.
  assert (Hpr : forall x, _job_priority q0 x = _job_priority q x) by (intros x; unfold _job_priority; by rewrite Hw0).
  rewrite <- !Hpr. eapply (pop_loop_best _ _ [] q0); try exact H.
  - rewrite (pd_excluded _ _ _ H0). set_solver.
  - by apply Hinv.
  - by intros ? ?%not_elem_of_nil.
  - intros k2 j2 Hg2. rewrite Hpr. rewrite Hp0 in Hg2. by apply (Hn k2).
  - by rewrite Hh0.
  - intros e He. rewrite Hh0 in He. specialize (Hst e He). unfold stale_in, _entry_stale in *.
    rewrite Hp0. destruct (dget _ _); [|done]. by rewrite Hpr.
  - set_solver.
  - rewrite Hp0. exact Hg.
  - set_solver.
Qed.
End Pop.

(** ** Jobs in flight *)

Section InFlight.
Context {R : Type} {RG : Rng R} {SO : SetOrder} {RO : RngOk R}.
Notation queue := (AdaptiveJobQueue (R := R)).

(** A job that was popped and is still running is neither pending nor done: when the
    same strategy passes on a sibling domain meanwhile, the fan-out enqueues it again. *)
Theorem inflight_job_reenqueued excl (q q1 : queue) j now j2 n q2 :
  queue_inv q -> index_ok q -> pop excl q = Some (Some j, q1) ->
  label (item j2) = label (item j) -> sibling q1 j2 (domain j) ->
  mark_done now j2 true q1 = (n, q2) ->
  job_key j ∈ keys (_pending q2).
Proof.
  intros Hq Hi Hpop Hl Hs Hmd. apply pop_spec_core in Hpop as (Hq1 & Hpd & _); [|done].
  destruct (pd_result _ _ _ Hpd j eq_refl) as (Hg & _ & _).
  assert (Hi1 : index_ok q1).
  { destruct (pd_domains _ _ _ Hpd) as [Ha Hc]. unfold index_ok. by rewrite Ha, Hc. }
  apply (mark_done_spec_core now j2 true q1 n q2 Hq1 Hi1) in Hmd as (_ & _ & _ & Hk & _).
  apply Hk. right. split; [done|]. split.
  - intros Hd. apply (pd_done _ _ _ Hpd) in Hd as [Hd|(j' & Hg' & _ & Hr & _)].
    + by apply (inv_get_done _ _ _ _ Hq Hg).
    + congruence.
  - exists (from_item (item j2) (domain j) true). split; [by exists (domain j)|].
    unfold job_key. simpl. by rewrite Hl.
Qed.
End InFlight.

(** ** Batches of one strategy *)

Section Batch.
Context {R : Type} {RG : Rng R} {SO : SetOrder} {RO : RngOk R}.
Notation queue := (AdaptiveJobQueue (R := R)).

(** The batch so far: jobs of one strategy, under distinct keys, none of them pending. *)
Record batch_inv (first : AdaptiveJob) (compatible : string -> bool) (max_size : nat)
    (batch : list AdaptiveJob) (q : queue) : Prop := {
  bi_queue : queue_inv q;
  bi_head : head batch = Some first;
  bi_size : (length batch <= max 1 max_size)%nat;
  bi_label j : j ∈ batch -> label (item j) = label (item first);
  bi_mates j : j ∈ tail batch -> domain j <> domain first /\ compatible (domain j) = true;
  bi_nodup : NoDup (job_key <$> batch);
  bi_gone j : j ∈ batch -> job_key j ∉ keys (_pending q)
}.

Lemma pop_mates_inv first compatible max_size doms batch q :
  (1 <= max_size)%nat -> batch_inv first compatible max_size batch q ->
  let '(batch', q') := pop_mates first compatible max_size doms batch q in
  batch_inv first compatible max_size batch' q'.
Proof.
  intros Hmax. revert batch q. induction doms as [|d doms IH]; intros batch q Hi; simpl; [done|].
  destruct (Nat.leb_spec max_size (length batch)); [done|].
  destruct (String.eqb_spec d (domain first)) as [->|Hne]; [by apply IH|].
  destruct (compatible d) eqn:Hc; simpl; [|by apply IH].
  set (k := (label (item first), d)). pose proof (drop_pending_spec k q) as (Hd1 & Hp & _).
  pose proof (inv_drop [] k q (bi_queue _ _ _ _ _ Hi)) as Hq1.
  destruct (_drop_pending k q) as [[j|] q1] eqn:E; simpl in *.
  2:{ assert (q1 = q) as -> by (unfold _drop_pending in E; by destruct (dget k (_pending q)); simplify_eq).
      by apply IH. }
  apply IH. symmetry in Hd1. pose proof (inv_key _ _ (bi_queue _ _ _ _ _ Hi) _ _ Hd1) as Hk.
  assert (Hkeys : forall k', k' ∈ keys (_pending q1) <-> k' ∈ keys (_pending q) /\ k' <> k).
  { intros k'. rewrite Hp. apply elem_of_keys_del, Hi. }
  destruct Hi as [H1 H2 H3 H4 H5 H6 H7]. destruct batch as [|b batch]; [done|]. simpl in H2. simplify_eq.
  unfold job_key in Hk. injection Hk as Hk1 Hk2.
  split; [done|done| | | | |].
  - rewrite length_app. simpl in *. lia.
  - intros j' [Hj|Hj%list_elem_of_singleton]%elem_of_app; [by apply H4|by subst].
  - intros j' Hj. change (tail ((first :: batch) ++ [j])) with (batch ++ [j]) in Hj.
    apply elem_of_app in Hj as [Hj|Hj%list_elem_of_singleton]; [by apply H5|subst; by split].
  - rewrite fmap_app. apply NoDup_app. split_and!; [done| |apply NoDup_singleton].
    intros k' Hk' Hin. apply list_elem_of_singleton in Hin as ->.
    apply list_elem_of_fmap in Hk' as (j' & Hj' & Hin). apply (H7 j' Hin). rewrite <- Hj'.
    unfold job_key. rewrite Hk1, Hk2. by eapply dget_Some_key.
  - intros j' Hj Hin. apply Hkeys in Hin as [Hin Hn].
    apply elem_of_app in Hj as [Hj|Hj%list_elem_of_singleton]; [by apply (H7 j' Hj)|].
    rewrite Hj in Hn. apply Hn. unfold job_key. by rewrite Hk1, Hk2.
Qed.

(** A batch popped from a coherent queue has at most [max_size] jobs (at least room for
    one), all of the strategy of its first job, on distinct domains with compatible curl
    profiles, and a special domain is alone; none of its jobs is pending any more. *)
Theorem pop_batch_spec max_size protocol disable_ech (q : queue) batch q' :
  queue_inv q -> pop_batch max_size protocol disable_ech q = Some (batch, q') ->
  queue_inv q' /\ (length batch <= max 1 max_size)%nat /\
  match batch with
  | [] => True
  | first :: mates =>
      Forall (fun j => label (item j) = label (item first) /\ domain j <> domain first /\
        curl_profile protocol disable_ech (domain j) = curl_profile protocol disable_ech (domain first)) mates /\
      NoDup (job_key <$> batch) /\ Forall (fun j => job_key j ∉ keys (_pending q')) batch /\
      (special (curl_profile protocol disable_ech (domain first)) = true -> mates = [])
  end.
Proof.
  intros Hq H. unfold pop_batch in H. destruct (pop ∅ q) as [[[first|] q1]|] eqn:Hpop; try done.
  2:{ simplify_eq. split_and!; [by eapply pop_spec_core|simpl; lia|done]. }
  apply pop_spec_core in Hpop as (Hq1 & Hpd & _); [|done].
  destruct (pd_result _ _ _ Hpd first eq_refl) as (_ & _ & Hgone). apply dget_None in Hgone.
  assert (Hone : queue_inv q1 /\ (length [first] <= max 1 max_size)%nat /\
    Forall (fun j => label (item j) = label (item first) /\ domain j <> domain first /\
      curl_profile protocol disable_ech (domain j) = curl_profile protocol disable_ech (domain first)) [] /\
    NoDup (job_key <$> [first]) /\ Forall (fun j => job_key j ∉ keys (_pending q1)) [first] /\
    (special (curl_profile protocol disable_ech (domain first)) = true -> [] = ([] : list AdaptiveJob))).
  { split_and!; try done; [simpl; lia|apply NoDup_singleton|by constructor]. }
  destruct (Nat.leb_spec max_size 1); [by simplify_eq|].
  destruct (special _) eqn:Hsp; [simplify_eq; by rewrite Hsp|].
  set (compatible := fun dom => profiles_compatible (curl_profile protocol disable_ech (domain first))
    (curl_profile protocol disable_ech dom)) in H.
  assert (Hi : batch_inv first compatible max_size [first] q1).
  { split; try done; [simpl; lia|by intros j ->%list_elem_of_singleton|by intros j ?%not_elem_of_nil|
      apply NoDup_singleton|by intros j ->%list_elem_of_singleton]. }
  apply (pop_mates_inv first compatible max_size
    (pending_domains_for_strategy (label (item first)) q1)) in Hi; [|lia].
  destruct (pop_mates _ _ _ _ _ _) as [b q2]. simplify_eq. destruct Hi as [H1 H2 H3 H4 H5 H6 H7].
  destruct batch as [|b batch]; simpl in H2; [done|]. simplify_eq.
  split_and!; [by apply inv_compact|done| |done| |by rewrite Hsp].
  - apply Forall_forall. intros j Hj. destruct (H5 j Hj) as [Hd Hc].
    split_and!; [apply H4; by right|done|]. unfold compatible in Hc. by apply profiles_compatible_spec in Hc.
  - destruct (length_compact q2) as [-> _]. apply Forall_forall. apply H7.
Qed.
End Batch.

(** ** Concrete runs *)

Definition ex_pop (q : AdaptiveJobQueue (R := unit)) : option AdaptiveJob * AdaptiveJobQueue (R := unit) :=
  default (None, q) (pop ∅ q).

Lemma pop_spec_witness :
  exists j q', pop {["a.com"]} ex_queue = Some (Some j, q') /\ job_key j = ("std_fake_1", "youtube.com") /\
    queue_inv q'.
Proof.
  pose (r := default (None, ex_queue) (pop {["a.com"]} ex_queue)).
  assert (H : pop {["a.com"]} ex_queue = Some (Some (from_item ex_A "youtube.com" false), r.2))
    by (vm_compute; reflexivity).
  exists (from_item ex_A "youtube.com" false), r.2. split; [exact H|]. split; [reflexivity|].
  exact (proj1 (pop_spec {["a.com"]} ex_queue _ _ (proj1 ex_queue_inv) H)).
Defined.

Lemma ex_no_nan : no_nan ex_queue.
Proof.
  assert (H : Forall (fun kj => is_nan (_job_priority ex_queue kj.2) = false) (_pending ex_queue)).
  { refine (bool_decide_unpack _ _). vm_compute. exact I. }
  intros k j Hg. apply elem_of_dict in Hg; [|apply ex_queue_inv]. rewrite Forall_forall in H.
  by apply (H (k, j)).
Qed.

Lemma pop_total_witness :
  exists r q', pop {["a.com"; "b.com"; "youtube.com"]} ex_queue = Some (r, q') /\ is_Some r.
Proof.
  destruct (pop_total {["a.com"; "b.com"; "youtube.com"]} ex_queue (proj1 ex_queue_inv) ex_no_nan)
    as (r & q' & H & Hs).
  exists r, q'. split; [exact H|]. apply Hs. exists ("std_fake_1", "a.com"), (from_item ex_A "a.com" false).
  split; [vm_compute; reflexivity|]. refine (bool_decide_unpack _ _). vm_compute. exact I.
Defined.

Lemma ex_heap_ok : heap_ok (_heap ex_queue) /\ no_stale ex_queue.
Proof.
  split; [split|].
  - unfold entry_ok. refine (bool_decide_unpack _ _). vm_compute. exact I.
  - unfold entry_le. refine (bool_decide_unpack _ _). vm_compute. exact I.
  - assert (H : Forall (fun e => stale_in ex_queue e = false) (_heap ex_queue)).
    { refine (bool_decide_unpack _ _). vm_compute. exact I. }
    by rewrite Forall_forall in H.
Qed.

Lemma pop_best_witness :
  exists j q', pop ∅ ex_queue = Some (Some j, q') /\
    flt (_job_priority ex_queue j) (_job_priority ex_queue (from_item ex_B "b.com" false)) = false.
Proof.
  pose (r := default (None, ex_queue) (pop ∅ ex_queue)).
  assert (H : pop ∅ ex_queue = Some (Some (from_item ex_A "a.com" false), r.2)) by (vm_compute; reflexivity).
  exists (from_item ex_A "a.com" false), r.2. split; [exact H|].
  refine (pop_best ∅ ex_queue _ _ (proj1 ex_queue_inv) ex_no_nan (proj1 ex_heap_ok) (proj2 ex_heap_ok)
            _ H _ ("std_multisplit_1", "b.com") _ _ _ _);
    try (vm_compute; reflexivity); refine (bool_decide_unpack _ _); vm_compute; exact I.
Defined.

(** With a stale entry the best job may have to wait: after a pass of multisplit its
    pending jobs have priority 2.4 or more, and [pop] still returns a job of priority 1. *)
Theorem stale_pop_is_not_best :
  let q := (mark_done f_zero (from_item ex_B "z.com" false) true ex_queue).2 in
  (job_key <$> (ex_pop q).1) = Some ("std_fake_1", "a.com") /\
  flt (_job_priority q (from_item ex_A "a.com" false)) (_job_priority q (from_item ex_B "b.com" false)) = true /\
  ("std_multisplit_1", "b.com") ∈ keys (_pending q).
Proof.
  split; [vm_compute; reflexivity|]. split; [vm_compute; reflexivity|].
  refine (bool_decide_unpack _ _). vm_compute. exact I.
Qed.

Lemma inflight_job_reenqueued_witness :
  let j := from_item ex_A "a.com" false in
  let q1 := (ex_pop ex_queue).2 in
  job_key j ∈ keys (_pending (mark_done f_zero (from_item ex_A "b.com" false) true q1).2).
Proof.
  intros j q1. destruct ex_queue_inv as [H1 H2].
  destruct (mark_done f_zero (from_item ex_A "b.com" false) true q1) as [n q2] eqn:E.
  refine (inflight_job_reenqueued ∅ ex_queue q1 j f_zero (from_item ex_A "b.com" false) n q2
    H1 H2 _ _ _ E).
  - vm_compute. reflexivity.
  - reflexivity.
  - unfold sibling. split_and!; refine (bool_decide_unpack _ _); vm_compute; exact I.
Defined.

Lemma pop_batch_spec_witness :
  exists batch q', @pop_batch unit unit_rng elements_order 3 "tls12" false ex_queue = Some (batch, q') /\
    job_key <$> batch = [("std_fake_1", "a.com"); ("std_fake_1", "youtube.com")] /\
    queue_inv q' /\ (length batch <= 3)%nat.
Proof.
  pose (r := default ([], ex_queue) (@pop_batch unit unit_rng elements_order 3 "tls12" false ex_queue)).
  pose (b := [from_item ex_A "a.com" false; from_item ex_A "youtube.com" false]).
  assert (E : @pop_batch unit unit_rng elements_order 3 "tls12" false ex_queue = Some (b, r.2))
    by (vm_compute; reflexivity).
  exists b, r.2. split; [exact E|]. split; [reflexivity|].
  destruct (@pop_batch_spec unit unit_rng elements_order unit_rng_ok 3 "tls12" false ex_queue b r.2
    (proj1 ex_queue_inv) E) as (H1 & H2 & _). exact (conj H1 H2).
Defined.

(** The mates of a batch are taken from the label index whatever their domain: a job on a
    domain that was hard-excluded after it was enqueued is popped as a mate, although
    [pop] alone would have dropped it. *)
Theorem pop_batch_ignores_exclusion :
  let q := exclude_more {["youtube.com"]} ex_queue in
  "youtube.com" ∈ excluded_domains q /\
  (exists batch q', @pop_batch unit unit_rng elements_order 3 "tls12" false q = Some (batch, q') /\
     domain <$> batch = ["a.com"; "youtube.com"]).
Proof.
  split; [refine (bool_decide_unpack _ _); vm_compute; exact I|].
  eexists _, _. vm_compute. split; reflexivity.
Qed.
