(* ===== verification/Batching.v ===== *)
(** * Bridge batches: [service/batch_scheduler.py]

    [BatchScheduler] cuts strategies and jobs into batches of at most
    [batch_size]; [BatchJobAccumulator] collects the jobs of a bridge worker.
    [batch_max] is the environment setting [DEFAULT_BRIDGE_BATCH_MAX]. *)

From stdpp Require Import base numbers list strings gmap.
From Stdlib Require Import ZArith Lia.
From S2P Require Import Prelude PyStr Families AdaptiveQueue.

#[local] Open Scope Z_scope.

(** [(label, domain, protocol)] *)
Definition batch_job_key (j : AdaptiveJob) : string * string * string :=
  let proto := if nonempty (protocol (item j)) then protocol (item j) else "tls12" in
  (label (item j), domain j, proto).

(** [BatchScheduler(batch_size).batch_size] *)
Definition scheduler_size (batch_max batch_size : Z) : nat := Z.to_nat (Z.max 1 (Z.min batch_size batch_max)).

Lemma scheduler_size_pos m s : (0 < scheduler_size m s)%nat.
Proof. unfold scheduler_size. lia. Qed.

Definition iter_batches (n : nat) (items : list StrategyItem) : list (list StrategyItem) :=
  match items with [] => [] | _ => windows n items end.

(** The locals of [group_jobs_by_domain]. *)
Record group_state : Type := Grouping {
  g_out : list (list AdaptiveJob); g_domain : string; g_cur : list AdaptiveJob; g_labels : gset string
}.

Definition emit (st : group_state) : list (list AdaptiveJob) :=
  match g_cur st with [] => g_out st | cur => g_out st ++ [cur] end.

Definition group_step (n : nat) (st : group_state) (j : AdaptiveJob) : group_state :=
  let st := if String.eqb (domain j) (g_domain st) then st
            else Grouping (emit st) (domain j) [] ∅ in
  if decide (label (item j) ∈ g_labels st) then
    Grouping (emit st) (g_domain st) [j] {[label (item j)]}
  else
    let st := if (n <=? length (g_cur st))%nat
              then Grouping (g_out st ++ [g_cur st]) (g_domain st) [] ∅ else st in
    Grouping (g_out st) (g_domain st) (g_cur st ++ [j]) ({[label (item j)]} ∪ g_labels st).

Definition group_jobs_by_domain (n : nat) (flush_partial : bool) (jobs : list AdaptiveJob)
    : list (list AdaptiveJob) :=
  match jobs with
  | [] => []
  | j0 :: _ =>
      let st := foldl (group_step n) (Grouping [] (domain j0) [] ∅) jobs in
      match g_cur st with
      | [] => g_out st
      | cur => if flush_partial || (n <=? length cur)%nat then g_out st ++ [cur] else g_out st
      end
  end.

(** ** The accumulator *)

Record BatchJobAccumulator : Type := Accum {
  acc_size : nat; acc_jobs : list AdaptiveJob; acc_keys : gset (string * string * string)
}.

Definition new_accumulator (batch_size : Z) : BatchJobAccumulator :=
  Accum (Z.to_nat (Z.max 1 batch_size)) [] ∅.

Definition acc_flush (a : BatchJobAccumulator) : list AdaptiveJob * BatchJobAccumulator :=
  (acc_jobs a, Accum (acc_size a) [] ∅).

Definition can_accept (a : BatchJobAccumulator) (j : AdaptiveJob) : bool :=
  if fanout j then false
  else
    let key := batch_job_key j in
    if decide (key ∈ acc_keys a) then false
    else if match acc_jobs a with
            | [] => false
            | j0 :: _ => negb (String.eqb (batch_job_key j0).2 key.2)
            end
    then false
    else (length (acc_jobs a) <? acc_size a)%nat.

Definition acc_push (a : BatchJobAccumulator) (j : AdaptiveJob) : bool * BatchJobAccumulator :=
  if negb (can_accept a j) then (false, a)
  else (true, Accum (acc_size a) (acc_jobs a ++ [j]) ({[batch_job_key j]} ∪ acc_keys a)).

Definition is_full (a : BatchJobAccumulator) : bool := (acc_size a <=? length (acc_jobs a))%nat.

Definition acc_domain (a : BatchJobAccumulator) : option string := domain <$> head (acc_jobs a).
Definition acc_domains (a : BatchJobAccumulator) : list string := domain <$> acc_jobs a.

(** ** Theorems *)

(** Chunking the strategies loses nothing and keeps their order; every chunk has between
    one and [batch_size] strategies. *)
Theorem iter_batches_spec batch_max batch_size items :
  let n := scheduler_size batch_max batch_size in
  concat (iter_batches n items) = items /\
  Forall (fun b => 0 < length b <= n)%nat (iter_batches n items).
Proof.
  intros n. pose proof (scheduler_size_pos batch_max batch_size) as Hn. fold n in Hn.
  unfold iter_batches. destruct items as [|i items]; [done|]. split; [by apply windows_concat|].
  apply Forall_forall. intros b Hb. by eapply windows_bounds.
Qed.

(** A batch of the grouping: one domain, distinct labels, at most [n] jobs. *)
Definition group_ok (n : nat) (b : list AdaptiveJob) : Prop :=
  (length b <= n)%nat /\ NoDup ((fun j => label (item j)) <$> b) /\
  exists d, Forall (fun j => domain j = d) b.

Record group_inv (n : nat) (seen : list AdaptiveJob) (st : group_state) : Prop := {
  gi_concat : concat (g_out st) ++ g_cur st = seen;
  gi_out : Forall (fun b => b <> [] /\ group_ok n b) (g_out st);
  gi_size : (length (g_cur st) <= n)%nat;
  gi_labels l : l ∈ g_labels st <-> l ∈ (fun j => label (item j)) <$> g_cur st;
  gi_nodup : NoDup ((fun j => label (item j)) <$> g_cur st);
  gi_domain : Forall (fun j => domain j = g_domain st) (g_cur st)
}.

Lemma group_inv_empty n seen out d :
  concat out = seen -> Forall (fun b => b <> [] /\ group_ok n b) out -> group_inv n seen (Grouping out d [] ∅).
Proof.
  intros Hc Ho. split; simpl; [by rewrite app_nil_r|done|lia| |constructor|constructor].
  intros l. split; [by intros ?%not_elem_of_empty|by intros ?%not_elem_of_nil].
Qed.

Lemma emit_spec n seen st :
  group_inv n seen st -> concat (emit st) = seen /\ Forall (fun b => b <> [] /\ group_ok n b) (emit st).
Proof.
  intros [Hc Ho Hs Hl Hn Hd]. unfold emit. destruct (g_cur st) as [|j cur] eqn:E.
  - by rewrite app_nil_r in Hc.
  - rewrite concat_app. simpl. rewrite app_nil_r. split; [done|]. apply Forall_app. split; [done|].
    constructor; [|done]. split; [done|]. split_and!; [done|done|by exists (g_domain st)].
Qed.

Lemma group_step_inv n seen st j :
  (0 < n)%nat -> group_inv n seen st -> group_inv n (seen ++ [j]) (group_step n st j).
Proof.
  intros Hn H.
  assert (H1 : exists st1, group_inv n seen st1 /\ g_domain st1 = domain j /\
    st1 = if String.eqb (domain j) (g_domain st) then st else Grouping (emit st) (domain j) [] ∅).
  { destruct (emit_spec _ _ _ H). destruct (String.eqb_spec (domain j) (g_domain st)); [by exists st|].
    exists (Grouping (emit st) (domain j) [] ∅). split; [|by split]. by apply group_inv_empty. }
  destruct H1 as (st1 & H1 & Hd1 & Est). unfold group_step. rewrite <- Est. clear Est H st.
  destruct (emit_spec _ _ _ H1) as [He1 He2].
  destruct (decide (label (item j) ∈ g_labels st1)) as [Hl|Hl].
  { split; simpl; [by rewrite He1|done|lia| |apply NoDup_singleton|by constructor].
    intros l. by rewrite elem_of_singleton, list_elem_of_singleton. }
  assert (H2 : exists st2, group_inv n seen st2 /\ g_domain st2 = domain j /\ label (item j) ∉ g_labels st2 /\
    (length (g_cur st2) < n)%nat /\
    st2 = if (n <=? length (g_cur st1))%nat
          then Grouping (g_out st1 ++ [g_cur st1]) (g_domain st1) [] ∅ else st1).
  { destruct (Nat.leb_spec n (length (g_cur st1))); [|by exists st1].
    exists (Grouping (g_out st1 ++ [g_cur st1]) (g_domain st1) [] ∅). split; [|by split_and!].
    assert (Hem : emit st1 = g_out st1 ++ [g_cur st1]).
    { unfold emit. destruct (g_cur st1); [simpl in *; lia|done]. }
    rewrite Hem in He1, He2.
    by apply group_inv_empty. }
  destruct H2 as (st2 & [Hc Ho Hs Hlab Hnd Hd] & Hd2 & Hl2 & Hsz & Est2).
  rewrite <- Est2. split; simpl.
  - by rewrite app_assoc, Hc.
  - done.
  - rewrite length_app. simpl. lia.
  - intros l. rewrite fmap_app, elem_of_app, elem_of_union, elem_of_singleton, Hlab.
    cbn [fmap list_fmap]. rewrite list_elem_of_singleton. tauto.
  - rewrite fmap_app. apply NoDup_app. split_and!; [done| |apply NoDup_singleton].
    intros l Hl' Hin. apply list_elem_of_singleton in Hin as ->. by apply Hlab in Hl'.
  - apply Forall_app. split; [done|]. by constructor.
Qed.

(** Grouping by domain loses no job and keeps the order when partial batches are
    flushed; every batch is non-empty, within the size, of one domain and without two jobs
    of the same strategy. Without flushing only a last partial batch is held back. *)
Theorem group_jobs_by_domain_spec batch_max batch_size jobs :
  let n := scheduler_size batch_max batch_size in
  concat (group_jobs_by_domain n true jobs) = jobs /\
  Forall (fun b => b <> [] /\ group_ok n b) (group_jobs_by_domain n true jobs) /\
  exists tl, concat (group_jobs_by_domain n false jobs) ++ tl = jobs /\ (length tl < n)%nat.
Proof.
  intros n. pose proof (scheduler_size_pos batch_max batch_size) as Hn. fold n in Hn. clearbody n.
  unfold group_jobs_by_domain. destruct jobs as [|j0 jobs]; [split_and!; try done; exists []; split; [done|simpl; lia]|].
  assert (Hi : forall js seen st, group_inv n seen st -> group_inv n (seen ++ js) (foldl (group_step n) st js)).
  { induction js as [|j js IH]; intros seen st H; simpl; [by rewrite app_nil_r|].
    rewrite (cons_middle j seen js), app_assoc. apply IH. by apply group_step_inv. }
  specialize (Hi (j0 :: jobs) [] (Grouping [] (domain j0) [] ∅)).
  destruct (foldl _ _ _) as [out d cur labs] eqn:E.
  assert (H0 : group_inv n [] (Grouping [] (domain j0) [] ∅)) by by apply group_inv_empty.
  specialize (Hi H0). destruct (emit_spec _ _ _ Hi) as [He1 He2]. unfold emit in *. simpl in *.
  destruct cur as [|c cur]; simpl.
  - split_and!; [done|done|]. exists []. rewrite app_nil_r. split; [done|simpl; lia].
  - split_and!; [done|done|]. destruct (Nat.leb_spec n (S (length cur))) as [Hl|Hl].
    + exists []. rewrite app_nil_r. split; [done|simpl; lia].
    + exists (c :: cur). split; [|simpl; lia]. exact (gi_concat _ _ _ Hi).
Qed.

(** *** The accumulator's invariant *)

Record acc_inv (a : BatchJobAccumulator) : Prop := {
  ai_size : (1 <= acc_size a)%nat /\ (length (acc_jobs a) <= acc_size a)%nat;
  ai_keys k : k ∈ acc_keys a <-> k ∈ batch_job_key <$> acc_jobs a;
  ai_nodup : NoDup (batch_job_key <$> acc_jobs a);
  ai_fanout : Forall (fun j => fanout j = false) (acc_jobs a);
  ai_protocol : exists pr, Forall (fun j => (batch_job_key j).2 = pr) (acc_jobs a)
}.

Lemma accumulator_inv_core batch_size a j :
  acc_inv (new_accumulator batch_size) /\
  (acc_inv a -> acc_inv (acc_push a j).2 /\ acc_inv (acc_flush a).2 /\
     acc_jobs (acc_push a j).2 = (if (acc_push a j).1 then acc_jobs a ++ [j] else acc_jobs a) /\
     (is_full a = true -> (acc_push a j).1 = false) /\ acc_jobs (acc_flush a).2 = []).
Proof.
  assert (Hnil : forall n, (1 <= n)%nat -> acc_inv (Accum n [] ∅)).
  { intros n Hn. split; simpl; [lia| |constructor|constructor|by exists "tls12"].
    intros k. split; [by intros ?%not_elem_of_empty|by intros ?%not_elem_of_nil]. }
  split; [apply Hnil; unfold new_accumulator; simpl; lia|].
  intros [Hs Hk Hn Hf Hp]. split; [|split_and!].
  - unfold acc_push. destruct (can_accept a j) eqn:Hc; [|by split]. unfold can_accept in Hc. simpl.
    destruct (fanout j) eqn:Hfan; [done|]. destruct (decide (batch_job_key j ∈ acc_keys a)) as [?|Hnk]; [done|].
    destruct (match acc_jobs a with [] => false | j0 :: _ => negb (String.eqb (batch_job_key j0).2 (batch_job_key j).2) end) eqn:Hpr; [done|].
    apply Nat.ltb_lt in Hc. split; simpl.
    + rewrite length_app. simpl. lia.
    + intros k. rewrite fmap_app, elem_of_app, elem_of_union, elem_of_singleton, Hk.
      cbn [fmap list_fmap]. rewrite list_elem_of_singleton. tauto.
    + rewrite fmap_app. apply NoDup_app. split_and!; [done| |apply NoDup_singleton].
      intros k Hin Hx. apply list_elem_of_singleton in Hx as ->. by apply Hk in Hin.
    + apply Forall_app. split; [done|by constructor].
    + exists (batch_job_key j).2. apply Forall_app. split; [|by constructor]. destruct (acc_jobs a) as [|j0 js]; [constructor|].
      apply negb_false_iff, String.eqb_eq in Hpr. destruct Hp as (pr & Hall).
      apply Forall_cons in Hall as Hall'. destruct Hall' as [H0 _]. rewrite <- Hpr, H0. done.
  - apply Hnil. lia.
  - unfold acc_push. by destruct (can_accept a j).
  - intros Hfull. unfold acc_push, can_accept, is_full in *. apply Nat.leb_le in Hfull.
    destruct (fanout j); [done|]. destruct (decide _); [done|].
    destruct (match acc_jobs a with [] => _ | _ => _ end); [done|].
    destruct (Nat.ltb_spec (length (acc_jobs a)) (acc_size a)); [lia|done].
  - done.
Qed.

(** A bridge batch never mixes protocols, never holds a fan-out job or two jobs with one
    key, and never exceeds its size, whatever is pushed; a refused job leaves it unchanged
    and flushing empties it. *)
Theorem accumulator_inv batch_size a j :
  acc_inv (new_accumulator batch_size) /\
  (acc_inv a -> acc_inv (acc_push a j).2 /\ acc_inv (acc_flush a).2 /\
     acc_jobs (acc_push a j).2 = (if (acc_push a j).1 then acc_jobs a ++ [j] else acc_jobs a) /\
     (is_full a = true -> (acc_push a j).1 = false) /\ acc_jobs (acc_flush a).2 = []).
Proof. exact (accumulator_inv_core batch_size a j). Qed.

Lemma accumulator_inv_witness :
  let a := new_accumulator 2 in let j := from_item ex_A "a.com" false in
  acc_inv (acc_push a j).2 /\ acc_jobs (acc_push a j).2 = [j].
Proof.
  intros a j. destruct (accumulator_inv 2 a j) as [H0 H1]. destruct (H1 H0) as (H & _).
  split; [exact H|reflexivity].
Defined.
