(* ===== verification/BridgePool.v ===== *)
(** * The bridge worker pool: [engine/bridge_worker_pool.py] and [engine/results.py]

    Domain isolation between workers, the pairing of a batch of jobs with the
    results of its probe, and what is stored of a domain quarantined on the way.
    The asyncio lock guards sections without a suspension point, so every
    method of the isolation pool is one atomic function of its state. *)

From stdpp Require Import base numbers list strings gmap.
From Stdlib Require Import ZArith Lia.
From S2P Require Import Prelude PyFloat PyStr PyDict Families Weights AdaptiveQueue AdaptiveInv Quarantine.

#[local] Open Scope Z_scope.

(** ** Results *)

(** [bridge_applied] is [None] on the paths that have no lua bridge. *)
Definition campaign_pass (http_ok : bool) (bridge_applied : option bool) : bool :=
  match bridge_applied with
  | Some true => http_ok
  | Some false => false
  | None => http_ok
  end.

Record TcpTestResult : Type := TcpResult {
  r_item : StrategyItem; r_domain : string; success : bool; http_code : Z;
  latency_ms : float; settle_ms : option float; content_length : Z; content_valid : bool;
  throttled : bool; read_rate_bps : float; error : string; used_ip : string; probe_host : string;
  fail_phase : string; rst_in_ttl : Z; bridge_applied : option bool;
  bridge_batch_id : Z; bridge_gen : Z
}.

(** [TcpTestResult(item=..., domain=..., success=..., error=...)] *)
Definition tcp_result (it : StrategyItem) (dom : string) (ok : bool) (err : string) : TcpTestResult :=
  TcpResult it dom ok 0 f_zero None 0 true false f_zero err "" "" "" 0 None 0 0.

Definition result_campaign_pass (r : TcpTestResult) : bool :=
  campaign_pass (success r) (bridge_applied r).

(** A row of [get_working_tcp_details]; [latency_ms] is [None] for a NULL. *)
Record tcp_detail : Type := TcpDetail { td_name : string; td_status : string; td_latency : option float }.

Definition tcp_results_from_details (by_label : list (string * StrategyItem)) (details : list tcp_detail)
    (dom : string) : list TcpTestResult :=
  omap (fun d =>
    it ← dget (td_name d) by_label;
    Some (TcpResult it dom true 0 (default f_zero (td_latency d)) None 0 true
            (String.eqb (td_status d) "THROTTLED") f_zero "" "" "" "" 0 None 0 0)) details.

(** ** Domain isolation *)

Record DomainIsolationPool : Type := Pool { isolated : bool; active_domains : gset string }.

Definition claim_domain (d : string) (p : DomainIsolationPool) : bool * DomainIsolationPool :=
  if negb (isolated p) then (true, p)
  else if decide (d ∈ active_domains p) then (false, p)
  else (true, Pool (isolated p) ({[d]} ∪ active_domains p)).

Definition release_domains (ds : list string) (p : DomainIsolationPool) : DomainIsolationPool :=
  match ds with
  | [] => p
  | _ => if negb (isolated p) then p else Pool (isolated p) (active_domains p ∖ list_to_set ds)
  end.

Definition excluded_snapshot (extra : option (gset string)) (p : DomainIsolationPool) : gset string :=
  active_domains p ∪ default ∅ extra.

(** [active_domains.add(d)] *)
Definition activate (d : string) (p : DomainIsolationPool) : DomainIsolationPool :=
  Pool (isolated p) ({[d]} ∪ active_domains p).

(** ** Jobs of a batch and their results *)

Record BridgeJob : Type := BJob { b_item : StrategyItem; b_domain : string; b_fanout : bool }.

Definition bridge_job (j : AdaptiveJob) : BridgeJob := BJob (item j) (domain j) (fanout j).

Definition STOPPED_BEFORE_PROBE : string := "stopped before probe".

(** The results, padded for the jobs of the tail that were not probed. *)
Definition pad_results (jobs : list BridgeJob) (results : list TcpTestResult) : list TcpTestResult :=
  results ++ ((fun j => tcp_result (b_item j) (b_domain j) false STOPPED_BEFORE_PROBE)
                <$> drop (length results) jobs).

(** [zip(jobs, results, strict=True)]: [None] is the ValueError of more results than jobs,
    raised after the common part has been accounted. *)
Definition pair_results (jobs : list BridgeJob) (results : list TcpTestResult)
    : list (BridgeJob * TcpTestResult) * bool :=
  let results := pad_results jobs results in
  (zip jobs results, Nat.eqb (length jobs) (length results)).

(** What is done with a pair: [account_skipped(job)] or [account_ok(job, ok, result)]. *)
Inductive verdict : Type := Skipped | Probed (ok : bool) (r : TcpTestResult).

Definition verdict_of (r : TcpTestResult) : verdict :=
  if String.eqb (error r) STOPPED_BEFORE_PROBE then Skipped else Probed (result_campaign_pass r) r.

(** ** Quarantine while the scan runs *)

(** [persist_quarantine]: the arguments of [db.quarantine_domain], its effects being those of
    the store: reason and number of failures. *)
Definition persisted_row (quar : DomainQuarantine) (d : string) : string * string * Z :=
  match dget d (quarantined quar) with
  | None => (d, "", 0)
  | Some i => (d, i_reason i, i_failed i)
  end.

(** ** Theorems *)

(** Every job of a batch is paired with exactly one result, in order, whatever prefix of the
    batch was probed, and the jobs without a result are skipped and not failed; only surplus
    results raise. *)
Theorem pair_results_spec jobs results :
  let '(pairs, fine) := pair_results jobs results in
  pairs.*1 = jobs /\
  (fine = true <-> (length results <= length jobs)%nat) /\
  (forall i j r, pairs !! i = Some (j, r) ->
     (results !! i = Some r) \/ ((length results <= i)%nat /\ verdict_of r = Skipped)).
Proof.
  unfold pair_results, pad_results.
  assert (Hlen : length (results ++ ((fun j => tcp_result (b_item j) (b_domain j) false STOPPED_BEFORE_PROBE)
    <$> drop (length results) jobs)) = (length results + (length jobs - length results))%nat).
  { by rewrite length_app, length_fmap, length_drop. }
  split_and!.
  - apply fst_zip. rewrite Hlen. lia.
  - rewrite Nat.eqb_eq, Hlen. lia.
  - intros i j r Hi. rewrite lookup_zip_with in Hi. destruct (jobs !! i) as [j'|]; simpl in Hi; [|done].
    destruct (_ !! i) as [r'|] eqn:Hr; simpl in Hi; simplify_eq.
    apply lookup_app_Some in Hr as [Hr|[Hl Hr]]; [by left|]. right. split; [done|].
    apply list_lookup_fmap_Some in Hr as (j2 & -> & _). done.
Qed.

Lemma elem_of_release d ds p :
  d ∈ active_domains (release_domains ds p) <->
  d ∈ active_domains p /\ (isolated p = false \/ d ∉ ds).
Proof.
  unfold release_domains. destruct ds as [|x ds]; [split; [intros H; split; [done|right; apply not_elem_of_nil]|tauto]|].
  destruct (isolated p) eqn:E; simpl.
  - rewrite elem_of_difference, elem_of_union, elem_of_singleton, elem_of_list_to_set, elem_of_cons. naive_solver.
  - naive_solver.
Qed.

(** Exclusive claims: of two claims of one domain without a release in between only one
    succeeds, a failed claim changes nothing, and releasing makes the domain claimable again;
    with isolation off every claim succeeds and nothing is tracked. *)
Theorem claim_release_spec d ds p :
  let '(ok, p') := claim_domain d p in
  (ok = true <-> isolated p = false \/ d ∉ active_domains p) /\
  (isolated p = true -> (claim_domain d p').1 = false) /\
  (ok = false -> p' = p) /\
  (isolated p = false -> p' = p /\ release_domains ds p = p) /\
  (d ∈ ds -> (claim_domain d (release_domains ds p)).1 = true).
Proof.
  assert (Hrel : forall p, isolated (release_domains ds p) = isolated p).
  { intros p0. unfold release_domains. destruct ds; [done|]. by destruct (isolated p0) eqn:E. }
  assert (Hlast : d ∈ ds -> (claim_domain d (release_domains ds p)).1 = true).
  { intros Hin. unfold claim_domain. rewrite Hrel. destruct (isolated p) eqn:E; simpl; [|done].
    destruct (decide _) as [Hd|]; [|done]. apply elem_of_release in Hd as [_ [Hd|Hd]]; [congruence|done]. }
  unfold claim_domain at 1. destruct (isolated p) eqn:E; simpl.
  - destruct (decide (d ∈ active_domains p)) as [Hd|Hd]; split_and!; try done.
    + split; [done|]. by intros [?|?].
    + intros _. unfold claim_domain. rewrite E. simpl. by destruct (decide (d ∈ active_domains p)).
    + split; [by right|done].
    + intros _. unfold claim_domain. simpl. rewrite decide_True by set_solver. done.
  - split_and!; try done; [split; [by left|done]|]. intros _. split; [done|].
    unfold release_domains. rewrite E. by destruct ds.
Qed.
