(* ===== verification/AdaptiveRunner.v ===== *)
(** * The adaptive scan: [engine/adaptive_runner.py]

    [build_adaptive_queue] prepares the queue; [run_adaptive_tcp_bridge] runs
    workers over it, each an asyncio task on one event loop. Between two
    suspension points a task runs alone, so the scan is a transition system
    whose events are the segments of [_bridge_worker] between awaits that can
    suspend: a turn of the loop, the return of a probe, the accounting of one
    result (the quarantine may write to the store), the release of the domains.
    The lock of the isolation pool guards no suspension point and is never
    contended. [EvStop] sets the stop event at any moment. *)

From stdpp Require Import base numbers list strings gmap.
From Stdlib Require Import ZArith Lia.
From S2P Require Import Prelude PyFloat PyStr PyDict Families Triage Weights AdaptiveQueue AdaptiveInv AdaptivePop Batching Quarantine BridgePool.

#[local] Open Scope Z_scope.

(** ** Weights a provider has already earned *)

(** A row of [pass_strategies]; the fields may be missing. *)
Record provider_row : Type := ProviderRow { pr_domain : option string; pr_strategy : option string }.

Definition apply_provider_row (domain_set : gset string) (acc : Z * ScanWeights) (row : provider_row)
    : Z * ScanWeights :=
  let '(boosted, w) := acc in
  let dom := lower (default "" (pr_domain row)) in
  if nonempty dom && negb (bool_decide (dom ∈ domain_set)) then (boosted, w)
  else
    let strat := default "" (pr_strategy row) in
    if negb (nonempty strat) then (boosted, w)
    else
      let it := mk_item strat strat in
      let '(once, w) := boost_provider_once strat (classify_strategy_family it)
                          (extract_blob_hints strat) (strategy_traits strat) w in
      (if once then boosted + 1 else boosted, w).

Definition _apply_provider_weights (rows : list provider_row) (domains : list string) (w : ScanWeights)
    : Z * ScanWeights :=
  foldl (apply_provider_row (list_to_set (lower <$> domains))) (0, w) rows.

Section Runner.
Context {R : Type} {RG : Rng R}.
Notation queue := (AdaptiveJobQueue (R := R)).

(** [rows]: the persisted weights, when they are loaded; [provider]: the rows of the provider's
    store; [check]: the resume check, a pure function of the job here. *)
Definition build_adaptive_queue (items : list StrategyItem) (domains : list string)
    (rows : list (string * float)) (eps : float) (rng : R) (now : float)
    (provider : list provider_row) (triage : option TriageProfile) (quarantine : option DomainQuarantine)
    (check : option (AdaptiveJob -> bool)) (skip_keys : gset jkey) : queue * Z :=
  let w := match rows with [] => new_weights | _ => from_rows rows end in
  let w := (_apply_provider_weights provider domains w).2 in
  let w := seed_from_triage triage w in
  let skip_domains := match quarantine with Some qr => exclude_domains qr | None => ∅ end in
  let q := build items domains (Some w) eps rng now skip_domains skip_keys in
  let q := match check with Some c => (filter_resume c 512 q).2 | None => q end in
  (q, Z.of_nat (size (_done q))).

(** ** The state of a scan *)

Record _RunStats : Type := RunStats { st_done : Z; st_skipped : Z; st_passed : Z }.

(** What a worker does after a flush or after a single probe. *)
Inductive cont : Type :=
  | CheckStop                   (** [if stop: return], then the next turn *)
  | ToExit                      (** [return] *)
  | ToSingle (j : AdaptiveJob)  (** [run_single(job)] *)
  | ToPush (j : AdaptiveJob).   (** the second [acc.push(job)] *)

Definition cont_keys (k : cont) : list jkey :=
  match k with ToSingle j | ToPush j => [job_key j] | _ => [] end.

Definition bkey (j : BridgeJob) : jkey := (label (b_item j), b_domain j).

(** Where a worker is suspended. *)
Inductive phase : Type :=
  | Start
  | Top
  | Probing (batch : list AdaptiveJob) (k : cont)
  | Accounting (batch : list AdaptiveJob) (todo : list (BridgeJob * TcpTestResult)) (fine : bool) (k : cont)
  | ProbingOne (j : AdaptiveJob)
  | Releasing (j : AdaptiveJob)
  | Exited
  | Crashed (lost : list jkey).   (** an exception ended the task with these jobs in flight *)

Record worker : Type := Worker { w_acc : BatchJobAccumulator; w_phase : phase }.

Record scan_state : Type := Scan {
  s_queue : queue; s_pool : DomainIsolationPool; s_quar : option DomainQuarantine;
  s_stop : bool; s_stats : _RunStats; s_workers : list worker
}.

Definition set_worker (i : nat) (w : worker) (s : scan_state) : scan_state :=
  Scan (s_queue s) (s_pool s) (s_quar s) (s_stop s) (s_stats s) (<[i := w]> (s_workers s)).
Definition set_queue (q : queue) (s : scan_state) : scan_state :=
  Scan q (s_pool s) (s_quar s) (s_stop s) (s_stats s) (s_workers s).
Definition set_pool (p : DomainIsolationPool) (s : scan_state) : scan_state :=
  Scan (s_queue s) p (s_quar s) (s_stop s) (s_stats s) (s_workers s).
Definition set_stats (st : _RunStats) (s : scan_state) : scan_state :=
  Scan (s_queue s) (s_pool s) (s_quar s) (s_stop s) st (s_workers s).
Definition set_quarantine (qr : DomainQuarantine) (s : scan_state) : scan_state :=
  Scan (s_queue s) (s_pool s) (Some qr) (s_stop s) (s_stats s) (s_workers s).
Definition stop_scan (s : scan_state) : scan_state :=
  Scan (s_queue s) (s_pool s) (s_quar s) true (s_stats s) (s_workers s).

(** [run_adaptive_tcp_bridge] before its tasks run. *)
Definition start_scan (q : queue) (isolate : bool) (quarantine : option DomainQuarantine)
    (bridge_batch workers : Z) : scan_state :=
  let active := match quarantine with Some qr => exclude_domains qr | None => ∅ end in
  Scan q (Pool isolate active) quarantine false (RunStats 0 0 0)
    (replicate (Z.to_nat (Z.max 1 workers)) (Worker (new_accumulator bridge_batch) Start)).

(** ** The segments of a worker *)

(** [if stop_event and stop_event.is_set(): return] at the end of a turn. *)
Definition check_stop (stop : bool) (a : BatchJobAccumulator) : worker :=
  Worker a (if stop then Exited else Top).

(** [await flush()], going on with [next] when there is nothing to flush. *)
Definition flush_with (a : BatchJobAccumulator) (k : cont) (next : BatchJobAccumulator -> worker) : worker :=
  match acc_flush a with
  | ([], a) => next a
  | (js, a) => Worker a (Probing js k)
  end.

(** The end of a turn, after the job was pushed. *)
Definition after_push (stop : bool) (a : BatchJobAccumulator) : worker :=
  if is_full a then flush_with a CheckStop (check_stop stop) else check_stop stop a.

Definition resume (stop : bool) (k : cont) (a : BatchJobAccumulator) : worker :=
  match k with
  | CheckStop => check_stop stop a
  | ToExit => Worker a Exited
  | ToSingle j => Worker a (ProbingOne j)
  | ToPush j =>
      let '(ok, a) := acc_push a j in
      if ok then after_push stop a else Worker a (ProbingOne j)
  end.

Definition flush_then (stop : bool) (a : BatchJobAccumulator) (k : cont) : worker :=
  flush_with a k (resume stop k).

(** A turn with the popped job, up to the next suspension. *)
Definition take_job (stop : bool) (a : BatchJobAccumulator) (j : AdaptiveJob) : worker :=
  if fanout j then flush_then stop a (ToSingle j)
  else
    let '(ok, a) := acc_push a j in
    if ok then after_push stop a else flush_then stop a (ToPush j).

Definition pop_isolated (s : scan_state) : option (option AdaptiveJob * scan_state) :=
  let extra := exclude_domains <$> s_quar s in
  match pop (excluded_snapshot extra (s_pool s)) (s_queue s) with
  | None => None
  | Some (None, q) => Some (None, set_queue q s)
  | Some (Some j, q) => Some (Some j, set_pool (activate (domain j) (s_pool s)) (set_queue q s))
  end.

(** [account_with_quarantine] and [record_quarantine_hit]; [pool.excluded_domains] is the
    queue's set. *)
Definition record_quarantine_hit (ts d : string) (ok : bool) (phase err : string) (s : scan_state) : scan_state :=
  match s_quar s with
  | None => s
  | Some qr =>
      match record ts d ok None phase err qr with
      | (qr, None) => set_quarantine qr s
      | (qr, Some newly) => set_quarantine qr (set_queue (exclude_more {[newly]} (s_queue s)) s)
      end
  end.

(** [_account] *)
Definition account (now : float) (ts : string) (j : AdaptiveJob) (ok : bool) (r : TcpTestResult) (s : scan_state)
    : scan_state :=
  let q := (mark_done now j ok (s_queue s)).2 in
  let st := s_stats s in
  let st := RunStats (st_done st + 1) (st_skipped st) (if ok then st_passed st + 1 else st_passed st) in
  record_quarantine_hit ts (domain j) ok (fail_phase r) (error r) (set_stats st (set_queue q s)).

Definition _account_skipped (now : float) (j : AdaptiveJob) (s : scan_state) : scan_state :=
  let st := s_stats s in
  set_stats (RunStats (st_done st + 1) (st_skipped st + 1) (st_passed st))
    (set_queue (mark_done now j false (s_queue s)).2 s).

Definition account_pair (now : float) (ts : string) (j : AdaptiveJob) (r : TcpTestResult) (s : scan_state) : scan_state :=
  match verdict_of r with
  | Skipped => _account_skipped now j s
  | Probed ok r => account now ts j ok r s
  end.

Definition job_by_key (batch : list AdaptiveJob) : list (jkey * AdaptiveJob) :=
  dict_of ((fun j => (job_key j, j)) <$> batch).

Definition release (ds : list string) (s : scan_state) : scan_state := set_pool (release_domains ds (s_pool s)) s.

(** ** Events *)

(** [EvProbed i None] and [EvSingle i None] are exceptions of the probe. *)
Inductive event : Type :=
  | EvStop
  | EvTurn (i : nat)
  | EvProbed (i : nat) (results : option (list TcpTestResult))
  | EvAccount (i : nat) (now : float) (ts : string)
  | EvSingle (i : nat) (result : option TcpTestResult) (now : float) (ts : string)
  | EvRelease (i : nat).

Definition turn (bridge_batch : Z) (i : nat) (s : scan_state) : option scan_state :=
  match s_workers s !! i with
  | Some (Worker a Start) =>
      Some (set_worker i (Worker a Top) (set_queue (configure_heap_rebuild bridge_batch (s_queue s)) s))
  | Some (Worker a Top) =>
      if s_stop s then Some (set_worker i (flush_then (s_stop s) a ToExit) s)
      else
        match pop_isolated s with
        | None => None
        | Some (None, s) => Some (set_worker i (flush_then (s_stop s) a ToExit) s)
        | Some (Some j, s) => Some (set_worker i (take_job (s_stop s) a j) s)
        end
  | _ => None
  end.

(** An exception leaves through the [finally] of the batch, which releases its domains. *)
Definition probe_returns (i : nat) (results : option (list TcpTestResult)) (s : scan_state) : option scan_state :=
  match s_workers s !! i, results with
  | Some (Worker a (Probing batch k)), Some results =>
      let '(todo, fine) := pair_results (bridge_job <$> batch) results in
      Some (set_worker i (Worker a (Accounting batch todo fine k)) s)
  | Some (Worker a (Probing batch k)), None =>
      Some (set_worker i (Worker a (Crashed ((job_key <$> batch) ++ cont_keys k))) (release (domain <$> batch) s))
  | _, _ => None
  end.

(** One pair is accounted; a pair without its job would be a KeyError. *)
Definition account_next (i : nat) (now : float) (ts : string) (s : scan_state) : option scan_state :=
  match s_workers s !! i with
  | Some (Worker a (Accounting batch ((bj, r) :: todo) fine k)) =>
      match dget (bkey bj) (job_by_key batch) with
      | Some j => Some (set_worker i (Worker a (Accounting batch todo fine k)) (account_pair now ts j r s))
      | None => Some (set_worker i (Worker a (Crashed (bkey bj :: (bkey <$> todo.*1) ++ cont_keys k)))
                        (release (domain <$> batch) s))
      end
  | _ => None
  end.

Definition single (i : nat) (result : option TcpTestResult) (now : float) (ts : string) (s : scan_state)
    : option scan_state :=
  match s_workers s !! i, result with
  | Some (Worker a (ProbingOne j)), Some r =>
      Some (set_worker i (Worker a (Releasing j)) (account now ts j (result_campaign_pass r) r s))
  | Some (Worker a (ProbingOne j)), None =>
      Some (set_worker i (Worker a (Crashed [job_key j])) (release [domain j] s))
  | _, _ => None
  end.

(** The domains are released and the worker goes on. *)
Definition release_next (i : nat) (s : scan_state) : option scan_state :=
  match s_workers s !! i with
  | Some (Worker a (Accounting batch [] fine k)) =>
      let s := release (domain <$> batch) s in
      Some (set_worker i (if fine then resume (s_stop s) k a else Worker a (Crashed (cont_keys k))) s)
  | Some (Worker a (Releasing j)) =>
      let s := release [domain j] s in
      Some (set_worker i (resume (s_stop s) CheckStop a) s)
  | _ => None
  end.

Definition exec_event (bridge_batch : Z) (e : event) (s : scan_state) : option scan_state :=
  match e with
  | EvStop => Some (stop_scan s)
  | EvTurn i => turn bridge_batch i s
  | EvProbed i results => probe_returns i results s
  | EvAccount i now ts => account_next i now ts s
  | EvSingle i result now ts => single i result now ts s
  | EvRelease i => release_next i s
  end.

Definition exec (bridge_batch : Z) (es : list event) (s : scan_state) : option scan_state :=
  foldl (fun o e => s ← o; exec_event bridge_batch e s) (Some s) es.

Inductive scan_step (bridge_batch : Z) : scan_state -> scan_state -> Prop :=
  | scan_event e s s' : exec_event bridge_batch e s = Some s' -> scan_step bridge_batch s s'.

(** [AdaptiveRunResult], when every task has returned. *)
Record AdaptiveRunResult : Type := RunResult {
  rr_done : Z; rr_skipped : Z; rr_passed : Z; rr_metrics : AdaptiveMetrics; rr_weights : ScanWeights
}.

Definition run_result (s : scan_state) : AdaptiveRunResult :=
  RunResult (st_done (s_stats s)) (st_skipped (s_stats s)) (st_passed (s_stats s))
    (metrics (s_queue s)) (weights (s_queue s)).

(** [persist_adaptive_weights]: the rows that are saved, if any. *)
Definition persist_adaptive_weights (w : ScanWeights) : option (list (string * float)) :=
  match to_rows w with [] => None | rows => Some rows end.
End Runner.
