(* ===== verification/RunnerInv.v ===== *)
(** * Invariants of the adaptive scan

    What every interleaving of the workers keeps: the queue stays coherent, no
    job gets lost, a quarantined domain is not popped again, the statistics agree
    with the metrics of the queue; a scan that ends by itself has settled every
    job, and every scan ends. *)

From stdpp Require Import base numbers list strings gmap relations.
From Stdlib Require Import ZArith Lia.
From S2P Require Import Prelude PyFloat PyStr PyDict Families Triage Weights AdaptiveQueue AdaptiveInv AdaptivePop Batching Quarantine BridgePool AdaptiveRunner.

#[local] Open Scope Z_scope.

(** ** The jobs a worker holds *)

Definition held (w : worker) : list jkey :=
  (job_key <$> acc_jobs (w_acc w)) ++
  match w_phase w with
  | Probing batch k => (job_key <$> batch) ++ cont_keys k
  | Accounting _ todo _ k => (bkey <$> todo.*1) ++ cont_keys k
  | ProbingOne j => [job_key j]
  | Crashed lost => lost
  | Start | Top | Releasing _ | Exited => []
  end.

Definition batch_clear (w : worker) : Prop := acc_jobs (w_acc w) = [].

(** The accumulator is empty while a batch is out, and an unstopped worker leaves nothing behind. *)
Definition worker_ok (stop : bool) (w : worker) : Prop :=
  acc_inv (w_acc w) /\
  match w_phase w with
  | Top | Crashed _ => True
  | Accounting batch todo _ _ => batch_clear w /\ Forall (fun p => p.1 ∈ bridge_job <$> batch) todo
  | Exited => stop = false -> batch_clear w
  | Start | Probing _ _ | ProbingOne _ | Releasing _ => batch_clear w
  end.

(** A worker that takes no more jobs. *)
Definition draining (w : worker) : bool :=
  match w_phase w with
  | Exited | Probing _ ToExit | Accounting _ _ _ ToExit => true
  | _ => false
  end.

(** The rank goes down in every segment that neither pops nor accounts a job. *)
Definition cont_rank (k : cont) : nat :=
  match k with ToExit => 0 | CheckStop => 4 | ToSingle _ => 6 | ToPush _ => 7 end.
Definition rank (w : worker) : nat :=
  match w_phase w with
  | Exited | Crashed _ => 0
  | Top => 3
  | Start | Releasing _ => 4
  | ProbingOne _ => 5
  | Accounting _ _ _ k => 1 + cont_rank k
  | Probing _ k => 2 + cont_rank k
  end.

(** *** Segments *)

Lemma acc_push_spec a j :
  acc_inv a -> acc_inv (acc_push a j).2 /\
  acc_jobs (acc_push a j).2 = (if (acc_push a j).1 then acc_jobs a ++ [j] else acc_jobs a).
Proof. intros H. by apply (accumulator_inv_core 1 a j) in H as (? & _ & ? & _). Qed.

(** What a segment yields: the worker is well-formed, holds the jobs [ks], and has stopped
    taking jobs only if [ex]. *)
Record segment (stop : bool) (ks : list jkey) (ex : Prop) (bound : nat) (w : worker) : Prop := {
  sg_ok : worker_ok stop w;
  sg_held : held w ≡ₚ ks;
  sg_drain : stop = false -> draining w = true -> ex;
  sg_rank : (rank w <= bound)%nat
}.

Lemma acc_flush_inv a : acc_inv a -> acc_inv (acc_flush a).2 /\ acc_jobs (acc_flush a).2 = [].
Proof.
  intros H. destruct (accumulator_inv_core 1 a (from_item ex_A "" false)) as [_ H2].
  by apply H2 in H as (_ & ? & _ & _ & ?).
Qed.

Lemma check_stop_segment stop a ex :
  acc_inv a -> segment stop (job_key <$> acc_jobs a) ex 3 (check_stop stop a).
Proof.
  intros H. unfold check_stop. split; unfold worker_ok, held, draining, rank; simpl;
    destruct stop; simpl; rewrite ?app_nil_r; try done; lia.
Qed.

Lemma flush_with_segment stop a k next ex b :
  acc_inv a ->
  (acc_jobs a = [] -> segment stop (cont_keys k) ex b (next (acc_flush a).2)) ->
  (k = ToExit -> ex) -> (2 + cont_rank k <= b)%nat ->
  segment stop ((job_key <$> acc_jobs a) ++ cont_keys k) ex b (flush_with a k next).
Proof.
  intros H Hnext Hk Hb. unfold flush_with. destruct (acc_flush_inv a H) as [Hf1 Hf2].
  unfold acc_flush in *. simpl in *. destruct (acc_jobs a) as [|j js] eqn:E; [by apply Hnext|].
  split; unfold worker_ok, held, draining, rank, batch_clear; simpl; try done.
  intros _. by destruct k; auto.
Qed.

Lemma after_push_segment stop a ex :
  acc_inv a -> (acc_jobs a <> []) -> segment stop (job_key <$> acc_jobs a) ex 6 (after_push stop a).
Proof.
  intros H Hne. unfold after_push. destruct (is_full a).
  - rewrite <- (app_nil_r (_ <$> _)). apply (flush_with_segment stop a CheckStop); try done; simpl; lia.
  - destruct (check_stop_segment stop a ex H) as [? ? ? ?]. split; try done. lia.
Qed.

Lemma resume_segment stop k a :
  acc_inv a -> acc_jobs a = [] ->
  segment stop (cont_keys k) (k = ToExit) (cont_rank k) (resume stop k a).
Proof.
  intros H Ha. destruct k as [| |j|j]; simpl.
  - destruct (check_stop_segment stop a (CheckStop = ToExit) H) as [H1 H2 H3 H4]. rewrite Ha in H2. split; [done..|lia].
  - split; unfold worker_ok, held, draining, rank, batch_clear; simpl; rewrite ?Ha; try done. 
  - split; unfold worker_ok, held, draining, rank, batch_clear; simpl; rewrite ?Ha; try done. lia.
  - destruct (acc_push_spec a j H) as [Hp1 Hp2]. destruct (acc_push a j) as [ok a']. simpl in *. rewrite Ha in Hp2.
    destruct ok.
    + assert (Hne : acc_jobs a' <> []) by by rewrite Hp2.
      destruct (after_push_segment stop a' (ToPush j = ToExit) Hp1 Hne) as [H1 H2 H3 H4].
      rewrite Hp2 in H2. split; [done..|lia].
    + split; unfold worker_ok, held, draining, rank, batch_clear; simpl; rewrite ?Hp2; try done. lia.
Qed.

Lemma flush_segment stop a k :
  acc_inv a ->
  segment stop ((job_key <$> acc_jobs a) ++ cont_keys k) (k = ToExit) (2 + cont_rank k) (flush_then stop a k).
Proof.
  intros H. unfold flush_then. apply flush_with_segment; try done. intros _.
  destruct (acc_flush_inv a H) as [Hf1 Hf2].
  destruct (resume_segment stop k (acc_flush a).2 Hf1 Hf2) as [? ? ? ?]. split; [done..|lia].
Qed.

Lemma take_job_segment stop a j :
  acc_inv a ->
  segment stop ((job_key <$> acc_jobs a) ++ [job_key j]) False 9 (take_job stop a j).
Proof.
  intros H. unfold take_job. destruct (fanout j).
  { destruct (flush_segment stop a (ToSingle j) H) as [? ? Hd ?]. split; [done..| |simpl in *; lia].
    intros Hs Hw. by specialize (Hd Hs Hw). }
  destruct (acc_push_spec a j H) as [Hp1 Hp2]. destruct (acc_push a j) as [ok a']. simpl in *. destruct ok.
  - assert (Hne : acc_jobs a' <> []) by (rewrite Hp2; by destruct (acc_jobs a)).
    destruct (after_push_segment stop a' False Hp1 Hne) as [H1 H2 H3 H4].
    rewrite Hp2, fmap_app in H2. split; [done..|lia].
  - rewrite <- Hp2. destruct (flush_segment stop a' (ToPush j) Hp1) as [? ? Hd ?]. split; [done..| |simpl in *; lia].
    intros Hs Hw. by specialize (Hd Hs Hw).
Qed.

Section Scan.
Context {R : Type} {RG : Rng R} {RK : RngOk R}.
Notation queue := (AdaptiveJobQueue (R := R)).
Notation scan := (scan_state (R := R)).
Implicit Types (q : queue) (s : scan) (j : AdaptiveJob) (k : jkey) (w : worker).

(** ** What the segments do to the queue *)

(** *** The counters *)

Definition counts q : Z * Z := (jobs_run (metrics q), jobs_passed (metrics q)).

Lemma counts_drop k q : counts (_drop_pending k q).2 = counts q.
Proof. unfold _drop_pending. by destruct (dget k (_pending q)). Qed.

Lemma counts_compact q : counts (_maybe_compact_heap q) = counts q.
Proof. unfold _maybe_compact_heap. by case_match. Qed.

Lemma counts_rebuild q : counts (_maybe_rebuild_heap q) = counts q.
Proof. unfold _maybe_rebuild_heap. repeat case_match; done. Qed.

Lemma counts_enqueue_many js q : counts (enqueue_many js q).2 = counts q.
Proof.
  revert q. induction js as [|j js IH]; intros q; simpl; [done|].
  assert (H : counts (enqueue j q).2 = counts q) by (unfold enqueue; by case_match).
  destruct (enqueue j q) as [b q1]. specialize (IH q1). destruct (enqueue_many js q1). simpl in *. congruence.
Qed.

Lemma counts_fanout j q : counts (fanout_on_pass j q).2 = counts q.
Proof.
  unfold fanout_on_pass. destruct (_all_domains q) as [|a all] eqn:Ea; [done|].
  destruct (_cluster_index_for_fanout q) as [idx q0] eqn:Ei.
  assert (H0 : counts q0 = counts q).
  { unfold _cluster_index_for_fanout in Ei. destruct (_cluster_index q), (_all_domains q); by simplify_eq. }
  rewrite fanout_loop_many. pose proof (counts_enqueue_many ((fun d => from_item (item j) d true) <$>
    filter (fun d => d ∉ excluded_domains q0) (sibling_domains (domain j) (a :: all) (Some idx))) q0) as H1.
  destruct (enqueue_many _ q0) as [n q1]. simpl in *. rewrite <- H0, <- H1. done.
Qed.

Lemma counts_mark_done now j (passed : bool) q :
  counts (mark_done now j passed q).2 =
    ((counts q).1 + 1, if passed then (counts q).2 + 1 else (counts q).2).
Proof.
  unfold mark_done. set (q1 := (_drop_pending (job_key j) (add_done (job_key j) q)).2).
  assert (H1 : counts q1 = counts q) by apply (counts_drop _ (add_done (job_key j) q)).
  destruct passed; cbn [negb snd].
  - rewrite counts_fanout, counts_compact, counts_rebuild. rewrite <- H1. done.
  - rewrite counts_compact. rewrite <- H1. done.
Qed.

Lemma counts_pop_skipped sk q : counts (pop_skipped sk q).2 = counts q.
Proof.
  revert q. induction sk as [|e sk IH]; intros q; simpl; [done|].
  pose proof (counts_drop (e_key e) q) as H. destruct (_drop_pending (e_key e) q) as [[j|] q1]; simpl in *; [done|].
  by rewrite IH.
Qed.

Lemma counts_pop_loop fuel exclude sk q r q' :
  pop_loop fuel exclude sk q = Some (r, q') -> counts q' = counts q.
Proof.
  revert sk q. induction fuel as [|fuel IH]; intros sk q H; simpl in H; destruct (_heap q) as [|e h].
  1,3: injection H as H; rewrite <- (counts_pop_skipped sk q), H; done.
  { done. }
  destruct (dget (e_key e) (_pending q)) as [j|]; [|by apply IH in H].
  destruct (_entry_stale _ e j); [by apply IH in H|].
  destruct (decide _); [apply IH in H; rewrite H; apply (counts_drop _ (add_done (job_key j) (with_heap h q)))|].
  destruct (decide _); [by apply IH in H|]. simplify_eq. apply (counts_drop _ (with_heap h q)).
Qed.

Lemma counts_pop excl q r q' : pop excl q = Some (r, q') -> counts q' = counts q.
Proof.
  unfold pop. destruct (_pending q); [by intros [= <- <-]|].
  destruct (if flt f_zero (epsilon q) then _ else _) as [explore q1] eqn:E.
  assert (H1 : counts q1 = counts q).
  { destruct (flt f_zero (epsilon q)); [destruct (rng_random (_rng q))|]; by simplify_eq. }
  rewrite <- H1. clear E H1. destruct explore; [|apply counts_pop_loop].
  unfold _epsilon_pick_key. destruct (reservoir _ (_pending q1) 0 None _) as [[c ch] rr].
  destruct (negb (c =? 0)).
  - destruct ch as [k|]; [intros [= H]|by intros [= <- <-]].
    pose proof (counts_drop k (with_rng rr q1)) as Hc. by rewrite H in Hc.
  - destruct (reservoir _ _ _ ch rr) as [[c2 ch2] rr2].
    destruct ch2 as [k|]; [intros [= H]|by intros [= <- <-]].
    pose proof (counts_drop k (with_rng rr2 q1)) as Hc. by rewrite H in Hc.
Qed.

(** *** The parts of the queue an accounting leaves alone *)

Definition frame q q' : Prop :=
  excluded_domains q' = excluded_domains q /\ _all_domains q' = _all_domains q /\ (index_ok q -> index_ok q').

Lemma frame_trans q1 q2 q3 : frame q1 q2 -> frame q2 q3 -> frame q1 q3.
Proof. unfold frame. intros (A & B & C) (A' & B' & C'). split_and!; [congruence|congruence|auto]. Qed.

Lemma index_enqueue_many js q : _cluster_index (enqueue_many js q).2 = _cluster_index q.
Proof.
  revert q. induction js as [|j js IH]; intros q; simpl; [done|].
  assert (H : _cluster_index (enqueue j q).2 = _cluster_index q) by (unfold enqueue; by case_match).
  destruct (enqueue j q) as [b q1]. specialize (IH q1). destruct (enqueue_many js q1). simpl in *. congruence.
Qed.

Lemma frame_fanout j q : frame q (fanout_on_pass j q).2.
Proof.
  unfold fanout_on_pass. destruct (_all_domains q) as [|a all] eqn:Ea; [by unfold frame|].
  destruct (_cluster_index_for_fanout q) as [idx q0] eqn:Ei.
  assert (H0 : frame q q0).
  { unfold _cluster_index_for_fanout in Ei. unfold frame, index_ok.
    destruct (_cluster_index q) eqn:Ec, (_all_domains q) eqn:Ed; simplify_eq; simpl;
      rewrite ?Ec, ?Ed; split_and!; auto. }
  rewrite fanout_loop_many. set (js := _ <$> filter _ _).
  pose proof (enqueue_many_spec js q0) as (_ & _ & _ & _ & H1 & H2 & _).
  pose proof (index_enqueue_many js q0) as H3. destruct (enqueue_many js q0) as [n q1]. simpl in *.
  eapply frame_trans; [exact H0|]. unfold frame, index_ok. simpl. by rewrite H1, H2, H3.
Qed.

Lemma frame_mark_done now j (passed : bool) q : frame q (mark_done now j passed q).2.
Proof.
  destruct (mark_done_unfold now j passed q) as (q0 & -> & _ & _ & Hx & Ha & Hc & _).
  assert (H0 : frame q q0) by (unfold frame, index_ok; by rewrite Hx, Ha, Hc).
  destruct passed; [|done]. eapply frame_trans; [exact H0|apply frame_fanout].
Qed.

Record settles j q q' : Prop := {
  se_inv : queue_inv q';
  se_index : index_ok q';
  se_domains : _all_domains q' = _all_domains q;
  se_done : _done q' = {[job_key j]} ∪ _done q;
  se_excluded : excluded_domains q ⊆ excluded_domains q';
  se_kept k : k ∈ keys (_pending q) -> k <> job_key j -> k ∈ keys (_pending q');
  se_new k : k ∈ keys (_pending q') ->
    (k ∈ keys (_pending q) \/
     (k ∉ _done q /\ k.1 = label (item j) /\ k.2 ∈ _all_domains q /\ k.2 ∉ excluded_domains q)) /\
    k <> job_key j
}.

Lemma mark_done_settles now j (passed : bool) q :
  queue_inv q -> index_ok q -> settles j q (mark_done now j passed q).2.
Proof.
  intros Hq Hi. destruct (frame_mark_done now j passed q) as (Hx & Ha & Hidx).
  destruct (mark_done now j passed q) as [n q'] eqn:E. simpl in *.
  destruct (mark_done_spec_core now j passed q n q' Hq Hi E) as (H1 & H2 & _ & H3 & _ & _).
  split; try done.
  - auto.
  - by rewrite Hx.
  - intros k Hk Hn. apply H3. by left.
  - intros k Hk. apply H3 in Hk as [[Hk Hn]|(_ & Hd & j' & (d & Hs & ->) & <-)]; [split; [by left|done]|].
    unfold job_key. simpl. destruct Hs as (Hs1 & Hs2 & _ & Hs4). split; [right|]; [|congruence].
    by split_and!.
Qed.

Lemma settles_exclude doms j q q' :
  settles j q q' -> settles j q (exclude_more doms q').
Proof.
  intros [H1 H2 H3 H4 H5 H6 H7]. split; try done; [by destruct H1; split|]. simpl. set_solver.
Qed.

Lemma account_settles now ts j ok r s :
  queue_inv (s_queue s) -> index_ok (s_queue s) ->
  settles j (s_queue s) (s_queue (account now ts j ok r s)) /\
  counts (s_queue (account now ts j ok r s)) =
    ((counts (s_queue s)).1 + 1, if ok then (counts (s_queue s)).2 + 1 else (counts (s_queue s)).2).
Proof.
  intros Hq Hi. pose proof (mark_done_settles now j ok _ Hq Hi) as H.
  pose proof (counts_mark_done now j ok (s_queue s)) as Hc. unfold account, record_quarantine_hit.
  destruct (s_quar _) as [qr|]; [|done]. destruct (record _ _ _ _ _ _ _) as [qr' [n|]]; simpl; [|done].
  split; [by apply settles_exclude|]. exact Hc.
Qed.

Lemma account_pair_settles now ts j r s :
  queue_inv (s_queue s) -> index_ok (s_queue s) ->
  settles j (s_queue s) (s_queue (account_pair now ts j r s)) /\
  s_workers (account_pair now ts j r s) = s_workers s /\ s_stop (account_pair now ts j r s) = s_stop s.
Proof.
  intros Hq Hi. unfold account_pair. destruct (verdict_of r) as [|ok r'].
  - split; [by apply mark_done_settles|done].
  - split; [by apply account_settles|]. unfold account, record_quarantine_hit. repeat case_match; done.
Qed.

(** ** What an event does

    The statistics agree with the metrics, and the quarantined domains are excluded. *)

Definition stats_ok s : Prop :=
  counts (s_queue s) = (st_done (s_stats s), st_passed (s_stats s)) /\
  0 <= st_passed (s_stats s) /\ 0 <= st_skipped (s_stats s) /\
  st_passed (s_stats s) + st_skipped (s_stats s) <= st_done (s_stats s).

Definition quar_ok s : Prop :=
  forall qr, s_quar s = Some qr -> exclude_domains qr ⊆ excluded_domains (s_queue s).

Definition kept s s' : Prop := (stats_ok s -> stats_ok s') /\ (quar_ok s -> quar_ok s').

(** The job-related parts of the queue are the same. *)
Record quiet q q' : Prop := {
  qu_pending : _pending q' = _pending q;
  qu_done : _done q' = _done q;
  qu_frame : frame q q';
  qu_inv : queue_inv q -> queue_inv q'
}.

Inductive shape s s' : Prop :=
  | ShMove i w w' :
      s_workers s !! i = Some w -> s_workers s' = <[i := w']> (s_workers s) -> s_stop s' = s_stop s ->
      kept s s' -> quiet (s_queue s) (s_queue s') ->
      worker_ok (s_stop s) w' -> held w' ≡ₚ held w ->
      (s_stop s = false -> draining w' = true -> draining w = true) -> (rank w' < rank w)%nat -> shape s s'
  | ShIdle i w w' :
      s_workers s !! i = Some w -> s_workers s' = <[i := w']> (s_workers s) -> s_stop s' = s_stop s ->
      kept s s' -> queue_inv (s_queue s') -> popped (s_queue s) None (s_queue s') ->
      (forall k j, dget k (_pending (s_queue s)) = Some j -> domain j ∈ excluded_domains (s_queue s)) ->
      worker_ok (s_stop s) w' -> held w' ≡ₚ held w -> (rank w' < rank w)%nat -> shape s s'
  | ShPop i w w' j :
      s_workers s !! i = Some w -> s_workers s' = <[i := w']> (s_workers s) -> s_stop s' = s_stop s ->
      kept s s' -> queue_inv (s_queue s') -> popped (s_queue s) (Some j) (s_queue s') ->
      s_stop s = false -> worker_ok (s_stop s) w' -> held w' ≡ₚ held w ++ [job_key j] ->
      draining w' = false -> shape s s'
  | ShAccount i w w' j :
      s_workers s !! i = Some w -> s_workers s' = <[i := w']> (s_workers s) -> s_stop s' = s_stop s ->
      kept s s' -> settles j (s_queue s) (s_queue s') ->
      worker_ok (s_stop s) w' -> held w ≡ₚ job_key j :: held w' -> draining w' = draining w -> shape s s'.

Lemma quiet_refl q : quiet q q.
Proof. by split. Qed.

(** Parts of the state that the statistics and the quarantine do not see. *)
Lemma kept_same s s' :
  counts (s_queue s') = counts (s_queue s) -> excluded_domains (s_queue s') = excluded_domains (s_queue s) ->
  s_stats s' = s_stats s -> s_quar s' = s_quar s -> kept s s'.
Proof. intros Hc He Hst Hq. unfold kept, stats_ok, quar_ok. by rewrite Hc, He, Hst, Hq. Qed.

Lemma shape_move i w w' ds s :
  s_workers s !! i = Some w -> worker_ok (s_stop s) w' -> held w' ≡ₚ held w ->
  (s_stop s = false -> draining w' = true -> draining w = true) -> (rank w' < rank w)%nat ->
  shape s (set_worker i w' (release ds s)).
Proof. intros Hw Hok Hh Hd Hr. by eapply ShMove. Qed.

Lemma set_worker_move i w w' s :
  s_workers s !! i = Some w -> worker_ok (s_stop s) w' -> held w' ≡ₚ held w ->
  (s_stop s = false -> draining w' = true -> draining w = true) -> (rank w' < rank w)%nat ->
  shape s (set_worker i w' s).
Proof. intros Hw Hok Hh Hd Hr. by eapply ShMove. Qed.

Lemma turn_shape b i s s' :
  queue_inv (s_queue s) -> Forall (worker_ok (s_stop s)) (s_workers s) ->
  turn b i s = Some s' -> shape s s'.
Proof.
  intros Hq Hok H. unfold turn in H. destruct (s_workers s !! i) as [[a p]|] eqn:Hw; [|done].
  pose proof (Forall_lookup_1 _ _ _ _ Hok Hw) as [Ha Hp]. simpl in *.
  destruct p; try done; simplify_eq; simpl in *.
  { eapply ShMove; try exact Hw; try done; [|simpl; unfold rank; simpl; lia].
    split; try done. by destruct 1; split. }
  assert (Hflush : segment (s_stop s) (held (Worker a Top)) True 2 (flush_then (s_stop s) a ToExit)).
  { destruct (flush_segment (s_stop s) a ToExit Ha) as [H1 H2 _ H4].
    unfold held. simpl in *. split; try done. }
  destruct Hflush as [Hf1 Hf2 _ Hf3]. destruct (s_stop s) eqn:Hstop.
  { simplify_eq. eapply set_worker_move; try exact Hw; rewrite ?Hstop; try done. unfold rank at 2. simpl. lia. }
  unfold pop_isolated in H. destruct (pop _ (s_queue s)) as [[[j|] q]|] eqn:Hpop; [| |done]; simplify_eq;
    pose proof (counts_pop _ _ _ _ Hpop) as Hc; apply pop_spec_core in Hpop as (Hq' & Hpd & Hpr); try done.
  - destruct (take_job_segment false a j Ha) as [T1 T2 T3 T4].
    eapply (ShPop _ _ i _ _ j Hw); simpl; rewrite ?Hstop; try done.
    + apply kept_same; try done. apply (pd_excluded _ _ _ Hpd).
    + rewrite T2. unfold held. simpl. by rewrite app_nil_r.
    + destruct (draining (take_job false a j)) eqn:E; [|done]. by destruct (T3 eq_refl eq_refl).
  - eapply (ShIdle _ _ i _ _ Hw); simpl; rewrite ?Hstop; try done.
    + apply kept_same; try done. apply (pd_excluded _ _ _ Hpd).
    + unfold rank at 2. simpl. lia.
Qed.

(** *** The other events *)

Lemma dget_job_by_key (batch : list AdaptiveJob) b :
  b ∈ bridge_job <$> batch -> exists j, dget (bkey b) (job_by_key batch) = Some j /\ job_key j = bkey b.
Proof.
  intros (j & -> & Hj)%list_elem_of_fmap. unfold job_by_key.
  destruct (dict_of_lookup (job_key j) ((fun j => (job_key j, j)) <$> batch)) as (j' & Hd & Hin).
  { apply list_elem_of_fmap. exists (job_key j, j). split; [done|].
    by apply (list_elem_of_fmap_2 (fun j => (job_key j, j))). }
  exists j'. split; [exact Hd|]. apply list_elem_of_fmap in Hin as (j2 & He & _).
  pose proof (f_equal fst He) as H1. pose proof (f_equal snd He) as H2. simpl in H1, H2. subst j'. exact (eq_sym H1).
Qed.

Lemma account_fields now ts j ok r s :
  let s' := account now ts j ok r s in
  let rc := record ts (domain j) ok None (fail_phase r) (error r) in
  s_stats s' = RunStats (st_done (s_stats s) + 1) (st_skipped (s_stats s))
                 (if ok then st_passed (s_stats s) + 1 else st_passed (s_stats s)) /\
  counts (s_queue s') = counts (mark_done now j ok (s_queue s)).2 /\
  s_quar s' = (fun qr => (rc qr).1) <$> s_quar s /\
  excluded_domains (s_queue s') =
    excluded_domains (s_queue s) ∪ match s_quar s with
      | Some qr => match (rc qr).2 with Some n => {[n]} | None => ∅ end | None => ∅ end.
Proof.
  intros s' rc. destruct (frame_mark_done now j ok (s_queue s)) as (Hx & _).
  unfold s', account, record_quarantine_hit. fold rc. set (q := (mark_done now j ok (s_queue s)).2) in *. clearbody q.
  simpl. destruct (s_quar s) as [qr|] eqn:Eq; simpl.
  - destruct (rc qr) as [qr' [n|]]; simpl; rewrite Hx; split_and!; try done. set_solver.
  - rewrite Hx. split_and!; [done|done|done|set_solver].
Qed.

Lemma account_kept now ts j ok r s : kept s (account now ts j ok r s).
Proof.
  destruct (account_fields now ts j ok r s) as (H1 & H2 & H3 & H4).
  unfold kept, stats_ok, quar_ok. rewrite H1, H2, H3, H4, counts_mark_done. split.
  - intros (-> & Hp & Hs & Hd). simpl in *. split; [by destruct ok|destruct ok; lia].
  - intros H qr0 H0. destruct (s_quar s) as [qr|]; [|done]. simpl in H0. injection H0 as <-.
    specialize (H qr eq_refl). intros d Hd.
    apply record_exclude in Hd as [Hd| ->]; [|set_solver]. apply elem_of_union_l, H, Hd.
Qed.

Lemma skipped_kept now j s : kept s (_account_skipped now j s).
Proof.
  pose proof (counts_mark_done now j false (s_queue s)) as Hc.
  destruct (frame_mark_done now j false (s_queue s)) as (Hx & _).
  unfold kept, stats_ok, quar_ok, _account_skipped.
  cbn [s_queue s_stats s_quar set_stats set_queue st_done st_skipped st_passed]. rewrite Hc, Hx. split; [|done].
  intros (-> & H2 & H3 & H4). split; [done|simpl; lia].
Qed.

Lemma bridge_keys (batch : list AdaptiveJob) : bkey <$> (bridge_job <$> batch) = job_key <$> batch.
Proof. rewrite <- list_fmap_compose. done. Qed.

Lemma pair_results_fst jobs results : (pair_results jobs results).1.*1 = jobs.
Proof.
  unfold pair_results, pad_results. simpl. apply fst_zip. rewrite length_app, length_fmap, length_drop. lia.
Qed.

(** Replacing a worker and nothing else that matters. *)
Ltac worker_step Hw :=
  unfold worker_ok, held, draining, rank, batch_clear in *; simpl in *; rewrite ?app_nil_r;
  try done; try lia.

Lemma probed_shape i results s s' :
  Forall (worker_ok (s_stop s)) (s_workers s) -> probe_returns i results s = Some s' -> shape s s'.
Proof.
  intros Hok H. unfold probe_returns in H. destruct (s_workers s !! i) as [[a p]|] eqn:Hw; [|done].
  pose proof (Forall_lookup_1 _ _ _ _ Hok Hw) as [Ha Hp]. cbn [w_acc w_phase] in Ha, Hp.
  destruct p as [| |batch k| | | | |]; try done. destruct results as [rs|].
  - pose proof (pair_results_fst (bridge_job <$> batch) rs) as Hf.
    destruct (pair_results (bridge_job <$> batch) rs) as [todo fine]. simpl in Hf. simplify_eq.
    eapply set_worker_move; [exact Hw|..]; worker_step Hw.
    + split; [done|]. split; [done|]. apply Forall_forall. intros pr Hpr. rewrite <- Hf.
      by apply list_elem_of_fmap_2.
    + by rewrite Hf, bridge_keys.
  - simplify_eq. eapply shape_move; [exact Hw|..]; worker_step Hw.
Qed.

Lemma account_next_shape i now ts s s' :
  queue_inv (s_queue s) -> index_ok (s_queue s) -> Forall (worker_ok (s_stop s)) (s_workers s) ->
  account_next i now ts s = Some s' -> shape s s'.
Proof.
  intros Hq Hi Hok H. unfold account_next in H. destruct (s_workers s !! i) as [[a p]|] eqn:Hw; [|done].
  pose proof (Forall_lookup_1 _ _ _ _ Hok Hw) as [Ha Hp]. simpl in *.
  destruct p as [| | |batch [|[bj r] todo] fine k| | | |]; try done.
  destruct Hp as [Hcl Hb]. apply Forall_cons in Hb as [Hb0 Hb]. simpl in Hb0.
  destruct (dget_job_by_key _ _ Hb0) as (j & Hj & Hk). rewrite Hj in H. simplify_eq.
  destruct (account_pair_settles now ts j r s Hq Hi) as (Hs & Hws & Hst).
  eapply (ShAccount _ _ i _ (Worker a (Accounting batch todo fine k)) j Hw); try done; cbn [set_worker s_workers s_stop].
  - by rewrite Hws.
  - unfold account_pair. destruct (verdict_of r); [apply skipped_kept|apply account_kept].
  - unfold held. simpl. rewrite Hk. by rewrite <- Permutation_middle.
Qed.

Lemma single_shape i result now ts s s' :
  queue_inv (s_queue s) -> index_ok (s_queue s) -> Forall (worker_ok (s_stop s)) (s_workers s) ->
  single i result now ts s = Some s' -> shape s s'.
Proof.
  intros Hq Hi Hok H. unfold single in H. destruct (s_workers s !! i) as [[a p]|] eqn:Hw; [|done].
  pose proof (Forall_lookup_1 _ _ _ _ Hok Hw) as [Ha Hp]. simpl in *.
  destruct p as [| | | |j| | |]; try done. destruct result as [r|]; simplify_eq.
  - destruct (account_settles now ts j (result_campaign_pass r) r s Hq Hi) as (Hs & _).
    eapply (ShAccount _ _ i _ (Worker a (Releasing j)) j Hw); try done; cbn [set_worker s_workers s_stop].
    + unfold account, record_quarantine_hit. by repeat case_match.
    + unfold account, record_quarantine_hit. by repeat case_match.
    + apply account_kept.
    + unfold held. simpl. by rewrite Hp.
  - eapply shape_move; [exact Hw|..]; worker_step Hw.
Qed.

Lemma release_next_shape i s s' :
  Forall (worker_ok (s_stop s)) (s_workers s) -> release_next i s = Some s' -> shape s s'.
Proof.
  intros Hok H. unfold release_next in H. destruct (s_workers s !! i) as [[a p]|] eqn:Hw; [|done].
  pose proof (Forall_lookup_1 _ _ _ _ Hok Hw) as [Ha Hp]. simpl in *.
  destruct p as [| | |batch [|? ?] fine k| |j| |]; try done; simplify_eq.
  - destruct Hp as [Hcl _]. destruct (resume_segment (s_stop s) k a Ha Hcl) as [H1 H2 H3 H4].
    destruct fine; (eapply shape_move; [exact Hw|..]; try exact H1).
    + rewrite H2. unfold held. simpl. unfold batch_clear in Hcl. simpl in Hcl. by rewrite Hcl.
    + intros Hs Hd. rewrite (H3 Hs Hd). done.
    + unfold rank at 2. simpl. lia.
    + worker_step Hw.
    + unfold held. simpl. done.
    + done.
    + worker_step Hw.
  - destruct (resume_segment (s_stop s) CheckStop a Ha Hp) as [H1 H2 H3 H4].
    eapply shape_move; [exact Hw|exact H1|..].
    + rewrite H2. unfold held. simpl. unfold batch_clear in Hp. simpl in Hp. by rewrite Hp.
    + intros Hs Hd. by specialize (H3 Hs Hd).
    + assert (rank (check_stop (s_stop s) a) <= 3)%nat.
      { unfold check_stop, rank. destruct (s_stop s); simpl; lia. } unfold rank at 2. simpl. lia.
Qed.

Lemma exec_shape b e s s' :
  queue_inv (s_queue s) -> index_ok (s_queue s) -> Forall (worker_ok (s_stop s)) (s_workers s) ->
  exec_event b e s = Some s' -> (e = EvStop /\ s' = stop_scan s) \/ shape s s'.
Proof.
  intros Hq Hi Hok H. destruct e; simpl in H; [left; by simplify_eq|right..].
  - by eapply turn_shape.
  - by eapply probed_shape.
  - by eapply account_next_shape.
  - by eapply single_shape.
  - by eapply release_next_shape.
Qed.

(** ** The invariant of a scan over the labels [L] and the domains [D] *)

Definition held_all s : list jkey := concat (held <$> s_workers s).

Lemma held_all_insert i w w' (ws : list worker) :
  ws !! i = Some w -> exists rest,
    concat (held <$> ws) ≡ₚ held w ++ rest /\ concat (held <$> <[i := w']> ws) ≡ₚ held w' ++ rest.
Proof.
  intros Hw. exists (concat (held <$> take i ws) ++ concat (held <$> drop (S i) ws)).
  rewrite insert_take_drop by by eapply lookup_lt_Some.
  rewrite <- (take_drop_middle ws i w Hw) at 1.
  rewrite !fmap_app, !concat_app, !fmap_cons. simpl. split; by rewrite Permutation_app_swap_app.
Qed.

Definition all_draining s : Prop := Forall (fun w => draining w = true) (s_workers s).

Lemma draining_insert i w w' (ws : list worker) :
  ws !! i = Some w -> (draining w' = true -> draining w = true) ->
  Forall (fun w => draining w = true) (<[i := w']> ws) -> Forall (fun w => draining w = true) ws.
Proof.
  intros Hw Hd H. apply Forall_lookup. intros i' x Hx. destruct (decide (i = i')) as [<-|Hn].
  - simplify_eq. apply Hd. eapply (Forall_lookup_1 _ _ i _ H). by apply list_lookup_insert_eq, lookup_lt_Some with w.
  - eapply (Forall_lookup_1 _ _ i' _ H). by rewrite list_lookup_insert_ne.
Qed.

Context (L : gset string) (D : list string).

Record scan_inv s : Prop := {
  si_queue : queue_inv (s_queue s);
  si_index : index_ok (s_queue s);
  si_domains : _all_domains (s_queue s) = D;
  si_workers : Forall (worker_ok (s_stop s)) (s_workers s);
  si_known k : k ∈ keys (_pending (s_queue s)) \/ k ∈ held_all s -> k.1 ∈ L /\ k.2 ∈ D;
  si_all k : k.1 ∈ L -> k.2 ∈ D -> k.2 ∉ excluded_domains (s_queue s) ->
    k ∈ keys (_pending (s_queue s)) \/ k ∈ _done (s_queue s) \/ k ∈ held_all s;
  si_drain : s_stop s = false -> all_draining s -> forall k, k ∈ keys (_pending (s_queue s)) ->
    k.2 ∈ excluded_domains (s_queue s) \/ k ∈ held_all s;
  si_stats : stats_ok s;
  si_quar : quar_ok s
}.

Lemma worker_ok_stop stop w : worker_ok stop w -> worker_ok true w.
Proof. intros [H1 H2]. split; [done|]. by destruct (w_phase w). Qed.

Lemma pending_domain q k j : queue_inv q -> dget k (_pending q) = Some j -> domain j = k.2.
Proof. intros Hq Hg. by rewrite <- (inv_key _ _ Hq _ _ Hg). Qed.

Lemma scan_inv_move s s' i w w' :
  s_workers s !! i = Some w -> s_workers s' = <[i := w']> (s_workers s) -> s_stop s' = s_stop s ->
  kept s s' -> quiet (s_queue s) (s_queue s') -> worker_ok (s_stop s) w' -> held w' ≡ₚ held w ->
  (s_stop s = false -> draining w' = true -> draining w = true) -> scan_inv s -> scan_inv s'.
Proof.
  intros Hw Hws Hst [K1 K2] [Q1 Q2 (Q3 & Q4 & Q5) Q6] Hok Hh Hd [H1 H2 H3 H4 H5 H6 H7 H8 H9].
  destruct (held_all_insert i w w' _ Hw) as (rest & E1 & E2).
  assert (Eh : held_all s' ≡ₚ held_all s) by (unfold held_all; by rewrite Hws, E1, E2, Hh).
  split; rewrite ?Hst, ?Q1, ?Q2, ?Q3, ?Q4; try done; auto.
  - rewrite Hws. by apply Forall_insert.
  - setoid_rewrite Eh. exact H5.
  - setoid_rewrite Eh. exact H6.
  - intros Hs Hall k. rewrite Eh. apply H7; [done|]. unfold all_draining in *. rewrite Hws in Hall.
    eapply draining_insert; [exact Hw| |exact Hall]. auto.
Qed.

Lemma scan_inv_idle s s' i w w' :
  s_workers s !! i = Some w -> s_workers s' = <[i := w']> (s_workers s) -> s_stop s' = s_stop s ->
  kept s s' -> queue_inv (s_queue s') -> popped (s_queue s) None (s_queue s') ->
  (forall k j, dget k (_pending (s_queue s)) = Some j -> domain j ∈ excluded_domains (s_queue s)) ->
  worker_ok (s_stop s) w' -> held w' ≡ₚ held w -> scan_inv s -> scan_inv s'.
Proof.
  intros Hw Hws Hst [K1 K2] Hq' Hp Hex Hok Hh [H1 H2 H3 H4 H5 H6 H7 H8 H9].
  destruct (held_all_insert i w w' _ Hw) as (rest & E1 & E2).
  assert (Eh : held_all s' ≡ₚ held_all s) by (unfold held_all; by rewrite Hws, E1, E2, Hh).
  destruct (pd_domains _ _ _ Hp) as [P1 P2].
  assert (Hsub : forall k, k ∈ keys (_pending (s_queue s')) -> k ∈ keys (_pending (s_queue s))).
  { intros k. rewrite !elem_of_keys. intros [j Hj]. exists j. by apply (pd_sub _ _ _ Hp). }
  split; rewrite ?Hst, ?(pd_excluded _ _ _ Hp), ?P1; try done; auto.
  - unfold index_ok. by rewrite P1, P2.
  - rewrite Hws. by apply Forall_insert.
  - intros k. rewrite Eh. intros [Hk|Hk]; auto.
  - intros k Hl Hd Hx. rewrite Eh. destruct (H6 k Hl Hd Hx) as [Hk|[Hk|Hk]]; [|right; left|auto].
    + apply elem_of_keys in Hk as [j Hj]. apply (pd_kept _ _ _ Hp) in Hj as [Hj|[Hj|[_ Hj]]]; [|done|auto].
      left. apply elem_of_keys. by exists j.
    + apply (pd_done _ _ _ Hp). by left.
  - intros _ _ k Hk. left. apply Hsub, elem_of_keys in Hk as [j Hj].
    rewrite <- (pending_domain _ _ _ H1 Hj). by eapply Hex.
Qed.

Lemma scan_inv_pop s s' i w w' j :
  s_workers s !! i = Some w -> s_workers s' = <[i := w']> (s_workers s) -> s_stop s' = s_stop s ->
  kept s s' -> queue_inv (s_queue s') -> popped (s_queue s) (Some j) (s_queue s') ->
  worker_ok (s_stop s) w' -> held w' ≡ₚ held w ++ [job_key j] -> draining w' = false ->
  scan_inv s -> scan_inv s'.
Proof.
  intros Hw Hws Hst [K1 K2] Hq' Hp Hok Hh Hd [H1 H2 H3 H4 H5 H6 H7 H8 H9].
  destruct (held_all_insert i w w' _ Hw) as (rest & E1 & E2).
  assert (Eh : held_all s' ≡ₚ job_key j :: held_all s).
  { unfold held_all. rewrite Hws, E1, E2, Hh. by rewrite (Permutation_app_comm (held w)), <- app_assoc. }
  destruct (pd_domains _ _ _ Hp) as [P1 P2]. destruct (pd_result _ _ _ Hp j eq_refl) as (R1 & _ & _).
  assert (Hsub : forall k, k ∈ keys (_pending (s_queue s')) -> k ∈ keys (_pending (s_queue s))).
  { intros k. rewrite !elem_of_keys. intros [j' Hj]. exists j'. by apply (pd_sub _ _ _ Hp). }
  split; rewrite ?Hst, ?(pd_excluded _ _ _ Hp), ?P1; try done; auto.
  - unfold index_ok. by rewrite P1, P2.
  - rewrite Hws. by apply Forall_insert.
  - intros k. rewrite Eh, elem_of_cons. intros [Hk|[->|Hk]]; auto.
    apply H5. left. by apply (dget_Some_key _ j).
  - intros k Hl Hx1 Hx. rewrite Eh, elem_of_cons. destruct (H6 k Hl Hx1 Hx) as [Hk|[Hk|Hk]]; [|right; left|auto].
    + apply elem_of_keys in Hk as [j' Hj]. pose proof (inv_key _ _ H1 _ _ Hj) as Hkey.
      apply (pd_kept _ _ _ Hp) in Hj as [Hj|[[= ->]|[_ Hj]]]; auto.
      left. apply elem_of_keys. by exists j'.
    + apply (pd_done _ _ _ Hp). by left.
  - intros _ Hall. exfalso. unfold all_draining in Hall. rewrite Hws in Hall.
    pose proof (Forall_lookup_1 _ _ i w' Hall) as Hf. cbv beta in Hf. rewrite Hd in Hf.
    discriminate Hf. by apply list_lookup_insert_eq, lookup_lt_Some with w.
Qed.

Lemma scan_inv_account s s' i w w' j :
  s_workers s !! i = Some w -> s_workers s' = <[i := w']> (s_workers s) -> s_stop s' = s_stop s ->
  kept s s' -> settles j (s_queue s) (s_queue s') ->
  worker_ok (s_stop s) w' -> held w ≡ₚ job_key j :: held w' -> draining w' = draining w ->
  scan_inv s -> scan_inv s'.
Proof.
  intros Hw Hws Hst [K1 K2] [S1 S2 S3 S4 S5 S6 S7] Hok Hh Hd [H1 H2 H3 H4 H5 H6 H7 H8 H9].
  destruct (held_all_insert i w w' _ Hw) as (rest & E1 & E2).
  assert (Eh : held_all s ≡ₚ job_key j :: held_all s') by (unfold held_all; by rewrite Hws, E1, E2, Hh).
  assert (Hin : forall k, k ∈ held_all s <-> k = job_key j \/ k ∈ held_all s').
  { intros k. rewrite Eh. apply elem_of_cons. }
  assert (Hlab : label (item j) ∈ L) by (apply (H5 (job_key j)); right; apply Hin; by left).
  assert (Hnew : forall k, k ∈ keys (_pending (s_queue s')) ->
    k <> job_key j /\ (k ∈ keys (_pending (s_queue s)) \/ k ∈ held_all s')).
  { intros k Hk. destruct (S7 k Hk) as [[Hk'|(Hnd & Hl & Hdm & Hx)] Hne]; [by auto|]. split; [done|].
    rewrite H3 in Hdm. destruct (H6 k) as [?|[?|Hk2]]; [by rewrite Hl|done|done|by left|done|].
    apply Hin in Hk2 as [?|?]; [done|by right]. }
  split; rewrite ?Hst, ?S3; try done; auto.
  - rewrite Hws. by apply Forall_insert.
  - intros k [Hk|Hk]; [|apply H5; right; apply Hin; by right].
    apply Hnew in Hk as [_ [Hk|Hk]]; apply H5; [by left|right; apply Hin; by right].
  - intros k Hl Hx1 Hx. rewrite S4, elem_of_union, elem_of_singleton.
    destruct (decide (k = job_key j)) as [->|Hne]; [by right; left; left|].
    destruct (H6 k Hl Hx1) as [Hk|[Hk|Hk]]; [by intros ?; apply Hx, S5|left; by apply S6|by right; left; right|].
    apply Hin in Hk as [?|?]; [done|by right; right].
  - intros Hs Hall k Hk. destruct (Hnew k Hk) as [Hne [Hk'|Hk']]; [|by right].
    assert (Hall' : all_draining s).
    { unfold all_draining in *. rewrite Hws in Hall. eapply draining_insert; [exact Hw|by rewrite Hd|exact Hall]. }
    destruct (H7 Hs Hall' k Hk') as [Hx|Hx]; [left; by apply S5|].
    apply Hin in Hx as [?|?]; [done|by right].
Qed.

Lemma scan_inv_step b s s' : scan_step b s s' -> scan_inv s -> scan_inv s'.
Proof.
  intros [e s1 s2 He] Hi. apply exec_shape in He; [|apply Hi..]. destruct He as [[_ ->]|[]].
  - destruct Hi. split; simpl; try done.
    eapply Forall_impl; [done|]. by apply worker_ok_stop.
  - by eapply scan_inv_move.
  - by eapply scan_inv_idle.
  - by eapply scan_inv_pop.
  - by eapply scan_inv_account.
Qed.

(** ** Termination *)

Definition universe : gset jkey := list_to_set (l ← elements L; (fun d => (l, d)) <$> D).

Lemma elem_of_universe k : k.1 ∈ L -> k.2 ∈ D -> k ∈ universe.
Proof.
  intros Hl Hd. unfold universe. rewrite elem_of_list_to_set, list_elem_of_bind.
  exists k.1. split; [|by apply elem_of_elements]. apply list_elem_of_fmap. exists k.2. by destruct k.
Qed.

(** The measures: jobs not done, jobs out that are already done, pending jobs, ranks. *)
Definition undone s : nat := size (universe ∖ _done (s_queue s)).
Definition held_done (dn : gset jkey) (ks : list jkey) : nat := length (filter (fun k => k ∈ dn) ks).
Definition total_rank (ws : list worker) : nat := sum_list_with rank ws.

Lemma held_done_perm dn ks ks' : ks ≡ₚ ks' -> held_done dn ks = held_done dn ks'.
Proof. intros H. unfold held_done. by rewrite H. Qed.

Lemma total_rank_insert i w w' ws :
  ws !! i = Some w -> (rank w' < rank w)%nat -> (total_rank (<[i := w']> ws) < total_rank ws)%nat.
Proof.
  intros Hw Hr. unfold total_rank. rewrite insert_take_drop by by eapply lookup_lt_Some.
  rewrite <- (take_drop_middle ws i w Hw) at 3. rewrite !sum_list_with_app. simpl. lia.
Qed.

(** The jobs that become done were known, so they leave the undone ones. *)
Lemma undone_step s s' :
  _done (s_queue s) ⊆ _done (s_queue s') ->
  (forall k, k ∈ _done (s_queue s') -> k ∈ _done (s_queue s) \/ k ∈ universe) ->
  (undone s' < undone s)%nat \/ (_done (s_queue s') = _done (s_queue s) /\ undone s' = undone s).
Proof.
  intros Hsub Hnew. destruct (decide (_done (s_queue s') = _done (s_queue s))) as [He|Hne].
  { right. split; [done|]. unfold undone. by rewrite He. }
  left. unfold undone. apply subset_size. split; [set_solver|]. intros Hc. apply Hne. apply set_eq. intros k.
  split; [|by apply Hsub]. intros Hk. destruct (Hnew k Hk) as [?|Hu]; [done|].
  destruct (decide (k ∈ _done (s_queue s))) as [?|Hn]; [done|]. set_solver.
Qed.

Lemma popped_known s r q' :
  scan_inv s -> popped (s_queue s) r q' -> forall k, k ∈ _done q' -> k ∈ _done (s_queue s) \/ k ∈ universe.
Proof.
  intros Hi Hp k Hk. apply (pd_done _ _ _ Hp) in Hk as [Hk|(j & Hj & _)]; [by left|right].
  apply dget_Some_key in Hj. destruct (si_known _ Hi k) as [? ?]; [by left|]. by apply elem_of_universe.
Qed.

Lemma popped_pending q r q' :
  queue_inv q -> queue_inv q' -> popped q r q' ->
  (length (_pending q') + (match r with Some _ => 1 | None => 0 end) <= length (_pending q))%nat.
Proof.
  intros Hq Hq' Hp.
  assert (Hsub : forall k, k ∈ keys (_pending q') -> k ∈ keys (_pending q)).
  { intros k. rewrite !elem_of_keys. intros [j Hj]. exists j. by apply (pd_sub _ _ _ Hp). }
  rewrite <- (length_fmap fst (_pending q)), <- (length_fmap fst (_pending q')).
  fold (keys (_pending q)) (keys (_pending q')). destruct r as [j|].
  - destruct (pd_result _ _ _ Hp j eq_refl) as (R1 & _ & R3).
    assert (Hs : job_key j :: keys (_pending q') ⊆+ keys (_pending q)).
    { apply NoDup_submseteq.
      - apply NoDup_cons. split; [by apply dget_None|apply Hq'].
      - intros k [->|Hk]%elem_of_cons; [by eapply dget_Some_key|by apply Hsub]. }
    apply submseteq_length in Hs. simpl in Hs. lia.
  - assert (Hs : keys (_pending q') ⊆+ keys (_pending q)) by (apply NoDup_submseteq; [apply Hq'|done]).
    apply submseteq_length in Hs. lia.
Qed.

(** Everything but the stop event. *)
Definition live_step (b : Z) s s' : Prop := exists e, e <> EvStop /\ exec_event b e s = Some s'.

Lemma live_scan_step b s s' : live_step b s s' -> scan_step b s s'.
Proof. intros (e & _ & He). by apply (scan_event b e). Qed.

Lemma live_step_decreases b s s' :
  scan_inv s -> live_step b s s' ->
  (undone s' < undone s \/ (undone s' = undone s /\
    (held_done (_done (s_queue s')) (held_all s') < held_done (_done (s_queue s)) (held_all s) \/
     (held_done (_done (s_queue s')) (held_all s') = held_done (_done (s_queue s)) (held_all s) /\
      (length (_pending (s_queue s')) < length (_pending (s_queue s)) \/
       (length (_pending (s_queue s')) = length (_pending (s_queue s)) /\
        total_rank (s_workers s') < total_rank (s_workers s)))))))%nat.
Proof.
  intros Hi (e & Hne & He).
  apply exec_shape in He; [|apply Hi..]. destruct He as [[He _]|He]; [done|].
  destruct He as [i w w' Hw Hws _ _ [Q1 Q2 _ _] _ Hh _ Hr|i w w' Hw Hws _ _ Hq' Hp _ _ Hh Hr
    |i w w' j Hw Hws _ _ Hq' Hp _ _ Hh _|i w w' j Hw Hws _ _ Hs _ Hh _];
    destruct (held_all_insert i w w' _ Hw) as (rest & E1 & E2); rewrite <- Hws in E2;
    fold (held_all s') in E2; fold (held_all s) in E1.
  - right. unfold undone. rewrite Q1, Q2, Hws. split; [done|]. right.
    split; [apply held_done_perm; by rewrite E1, E2, Hh|]. right. split; [done|].
    by eapply total_rank_insert.
  - pose proof (popped_pending _ _ _ (si_queue _ Hi) Hq' Hp) as Hlen.
    destruct (undone_step s s') as [Hu|[Hdn Hu]]; [|by eapply popped_known|by left|right; split; [done|right]].
    { intros k Hk. apply (pd_done _ _ _ Hp). by left. }
    rewrite Hdn, Hws. split; [apply held_done_perm; by rewrite E1, E2, Hh|].
    pose proof (total_rank_insert _ _ _ _ Hw Hr). simpl in Hlen. lia.
  - pose proof (popped_pending _ _ _ (si_queue _ Hi) Hq' Hp) as Hlen.
    destruct (undone_step s s') as [Hu|[Hdn Hu]]; [|by eapply popped_known|by left|right; split; [done|right]].
    { intros k Hk. apply (pd_done _ _ _ Hp). by left. }
    destruct (pd_result _ _ _ Hp j eq_refl) as (R1 & _ & _).
    pose proof (inv_get_done _ _ _ _ (si_queue _ Hi) R1) as Hnd.
    split; [|simpl in Hlen; lia]. rewrite Hdn, (held_done_perm _ (held_all s') (job_key j :: held_all s)).
    + unfold held_done. by rewrite filter_cons_False.
    + rewrite E1, E2, Hh. by rewrite (Permutation_app_comm (held w)), <- app_assoc.
  - assert (Eh : held_all s ≡ₚ job_key j :: held_all s') by by rewrite E1, E2, Hh.
    destruct (undone_step s s') as [Hu|[Hdn Hu]]; [|..|by left|right; split; [done|left]].
    { rewrite (se_done _ _ _ Hs). set_solver. }
    { intros k. rewrite (se_done _ _ _ Hs), elem_of_union, elem_of_singleton. intros [->|?]; [right|by left].
      destruct (si_known _ Hi (job_key j)) as [? ?]; [right; rewrite Eh; by left|]. by apply elem_of_universe. }
    assert (Hin : job_key j ∈ _done (s_queue s)) by (rewrite <- Hdn, (se_done _ _ _ Hs); set_solver).
    rewrite Hdn, (held_done_perm _ _ _ Eh). unfold held_done. rewrite filter_cons_True by done. simpl. lia.
Qed.

Lemma scan_sn b s : scan_inv s -> sn (live_step b) s.
Proof.
  apply (lex4_sn _ _ undone (fun s => held_done (_done (s_queue s)) (held_all s))
           (fun s => length (_pending (s_queue s))) (fun s => total_rank (s_workers s))).
  intros x y Hx Hxy. split; [|by eapply live_step_decreases].
  by eapply scan_inv_step; [eapply live_scan_step|].
Qed.
End Scan.
