(* ===== verification/ScanRun.v ===== *)
(** * What an adaptive scan guarantees

    The theorems on [run_adaptive_tcp_bridge] over a queue that
    [build_adaptive_queue] prepared, for every schedule of the workers, every
    outcome of the probes and every moment of a stop. *)

From stdpp Require Import base numbers list strings gmap relations.
From Stdlib Require Import ZArith Lia.
From S2P Require Import Prelude PyFloat PyStr PyDict Families Triage Weights AdaptiveQueue AdaptiveInv AdaptivePop Batching Quarantine BridgePool AdaptiveRunner RunnerInv.

#[local] Open Scope Z_scope.

Section Run.
Context {R : Type} {RG : Rng R} {RK : RngOk R}.
Notation queue := (AdaptiveJobQueue (R := R)).
Notation scan := (scan_state (R := R)).
Implicit Types (q : queue) (s : scan) (k : jkey).

(** ** The queue a scan starts from *)

Lemma resume_drop_frame rows q :
  frame q (resume_drop rows q).2 /\ counts (resume_drop rows q).2 = counts q.
Proof.
  revert q. induction rows as [|[k b] rows IH]; intros q; simpl; [done|].
  destruct (negb b); [apply IH|]. destruct (bool_decide _); [|apply IH].
  set (q1 := (_drop_pending k (add_done k q)).2).
  assert (H1 : frame q q1 /\ counts q1 = counts q).
  { unfold q1. split; [|apply (counts_drop k (add_done k q))].
    unfold frame, _drop_pending, index_ok. by destruct (dget k (_pending (add_done k q))). }
  destruct (IH q1) as [H2 H3]. destruct (resume_drop rows q1) as [n q2]. simpl in *.
  destruct H1 as [H0 H1]. split; [by eapply frame_trans|congruence].
Qed.

Lemma filter_resume_frame (check : AdaptiveJob -> bool) chunk q :
  frame q (filter_resume check chunk q).2 /\ counts (filter_resume check chunk q).2 = counts q.
Proof.
  unfold filter_resume. destruct (keys (_pending q)) as [|k ks]; [done|].
  pose proof (resume_drop_frame (zip (k :: ks) (resume_flags check chunk q)) q) as [H1 H2].
  destruct (resume_drop _ q) as [n q1]. simpl in *. destruct (n =? 0); [done|].
  split; [|by rewrite counts_compact]. eapply frame_trans; [exact H1|].
  unfold _maybe_compact_heap. by case_match.
Qed.

Lemma counts_build items domains w eps rng now skip_domains skip_keys :
  counts (build items domains w eps rng now skip_domains skip_keys : queue) = (0, 0).
Proof.
  unfold build. set (q0 := foldr add_done _ _). set (js := seed_jobs _ _ _ _).
  assert (H0 : counts q0 = (0, 0)).
  { unfold q0. by induction (resume_done skip_keys items domains). }
  rewrite <- H0, <- (counts_enqueue_many js q0). done.
Qed.

(** The arguments of [build_adaptive_queue] and of [run_adaptive_tcp_bridge]. *)
Record setup : Type := Setup {
  su_items : list StrategyItem; su_domains : list string; su_rows : list (string * float);
  su_epsilon : float; su_rng : R; su_now : float; su_provider : list provider_row;
  su_triage : option TriageProfile; su_quarantine : option DomainQuarantine;
  su_check : option (AdaptiveJob -> bool); su_skip_keys : gset jkey;
  su_isolate : bool; su_batch : Z; su_workers : Z
}.

Definition su_queue (u : setup) : queue :=
  (build_adaptive_queue (su_items u) (su_domains u) (su_rows u) (su_epsilon u) (su_rng u) (su_now u)
     (su_provider u) (su_triage u) (su_quarantine u) (su_check u) (su_skip_keys u)).1.

Definition su_start (u : setup) : scan :=
  start_scan (su_queue u) (su_isolate u) (su_quarantine u) (su_batch u) (su_workers u).

Definition reachable (u : setup) s : Prop := rtc (scan_step (su_batch u)) (su_start u) s.

Definition labels (u : setup) : gset string := list_to_set (label <$> su_items u).

Definition excluded0 (u : setup) : gset string :=
  match su_quarantine u with Some qr => exclude_domains qr | None => ∅ end.

Lemma su_queue_spec u :
  let q := su_queue u in
  queue_inv q /\ index_ok q /\ _all_domains q = su_domains u /\ excluded_domains q = excluded0 u /\
  counts q = (0, 0) /\
  (forall k, k ∈ keys (_pending q) -> k.1 ∈ labels u /\ k.2 ∈ su_domains u) /\
  (forall k, k.1 ∈ labels u -> k.2 ∈ su_domains u -> k.2 ∉ excluded0 u ->
     k ∈ keys (_pending q) \/ k ∈ _done q).
Proof.
  unfold su_queue, build_adaptive_queue. fold (excluded0 u). set (w := seed_from_triage _ _). clearbody w.
  pose proof (build_spec_core (su_items u) (su_domains u) (Some w) (su_epsilon u) (su_rng u) (su_now u)
    (excluded0 u) (su_skip_keys u)) as (B1 & B2 & B3 & _ & B5 & B6 & B7).
  pose proof (counts_build (su_items u) (su_domains u) (Some w) (su_epsilon u) (su_rng u) (su_now u)
    (excluded0 u) (su_skip_keys u)) as B8.
  set (q0 := build _ _ _ _ _ _ _ _) in *. clearbody q0.
  assert (Hlab : forall l, l ∈ labels u <-> exists it, it ∈ su_items u /\ l = label it).
  { intros l. unfold labels. rewrite elem_of_list_to_set, list_elem_of_fmap. naive_solver. }
  assert (H0 : forall k, k ∈ keys (_pending q0) -> k.1 ∈ labels u /\ k.2 ∈ su_domains u).
  { intros k Hk. apply B3 in Hk as (it & d & Hit & Hd & _ & _ & ->). simpl. rewrite Hlab. eauto. }
  assert (H1 : forall k, k.1 ∈ labels u -> k.2 ∈ su_domains u -> k.2 ∉ excluded0 u ->
    k ∈ keys (_pending q0) \/ k ∈ _done q0).
  { intros [l d] Hl Hd Hx. simpl in *. apply Hlab in Hl as (it & Hit & ->).
    destruct (decide ((label it, d) ∈ su_skip_keys u)) as [Hs|Hs].
    - right. apply B5. split; [done|]. eauto.
    - left. apply B3. exists it, d. by split_and!. }
  simpl. destruct (su_check u) as [c|]; [|by split_and!].
  pose proof (filter_resume_frame c 512 q0) as [(F1 & F2 & F3) F4].
  pose proof (filter_resume_spec_core c 512 q0 B1) as F.
  destruct (filter_resume c 512 q0) as [n q1]. simpl in *. destruct F as (F5 & F6 & F7 & _).
  split_and!; [done|by apply F3|congruence|congruence|congruence| |].
  - intros k Hk. apply H0. apply elem_of_keys in Hk as [j Hj]. apply F6 in Hj as [Hj _].
    by apply (dget_Some_key _ j).
  - intros k Hl Hd Hx. destruct (H1 k Hl Hd Hx) as [Hk|Hk]; [|right; apply F7; by left].
    apply elem_of_keys in Hk as [j Hj]. destruct (c j) eqn:Ec.
    + right. apply F7. right. by exists j.
    + left. apply elem_of_keys. exists j. by apply F6.
Qed.

Lemma new_accumulator_inv b : acc_inv (new_accumulator b).
Proof. exact (proj1 (accumulator_inv_core b (new_accumulator b) (from_item ex_A "" false))). Qed.

Lemma su_start_inv u : scan_inv (labels u) (su_domains u) (su_start u).
Proof.
  destruct (su_queue_spec u) as (H1 & H2 & H3 & H4 & H5 & H6 & H7).
  set (w0 := Worker (new_accumulator (su_batch u)) Start).
  assert (Hh : held_all (su_start u) = []).
  { unfold held_all, su_start. simpl. generalize (Z.to_nat (Z.max 1 (su_workers u))) as n.
    by induction n. }
  split; simpl; try done.
  - apply Forall_replicate. split; [apply new_accumulator_inv|done].
  - intros k. rewrite Hh. intros [Hk|Hk%not_elem_of_nil]; [by apply H6|done].
  - intros k Hl Hd Hx. rewrite H4 in Hx. destruct (H7 k Hl Hd Hx); auto.
  - intros _ Hall. exfalso. unfold all_draining in Hall. simpl in Hall.
    destruct (Z.to_nat (Z.max 1 (su_workers u))) eqn:E; [lia|]. simpl in Hall.
    apply Forall_cons in Hall as [Hall _]. discriminate Hall.
  - intros qr Hq. change (su_quarantine u = Some qr) in Hq.
    change (exclude_domains qr ⊆ excluded_domains (su_queue u)). rewrite H4. unfold excluded0. by rewrite Hq.
Qed.

Lemma reachable_inv u s : reachable u s -> scan_inv (labels u) (su_domains u) s.
Proof.
  unfold reachable. pose proof (su_start_inv u) as Hi. intros H.
  induction H as [|x y z Hxy _ IH]; [done|]. apply IH. by eapply scan_inv_step.
Qed.

(** ** Theorems *)

Definition finished (w : worker) : Prop :=
  match w_phase w with Exited | Crashed _ => True | _ => False end.
Definition exited (w : worker) : Prop := w_phase w = Exited.

Lemma elem_of_labels u it : it ∈ su_items u -> label it ∈ labels u.
Proof. intros H. unfold labels. apply elem_of_list_to_set. by apply list_elem_of_fmap_2. Qed.

(** C1. Through every schedule, every result and every failure of a probe, and a stop at any
    moment, the queue stays coherent, every pair of a strategy and a domain that was not
    excluded is pending, done or held by a worker, and the statistics are the counts
    of the queue. *)
Theorem scan_loses_no_job u s :
  reachable u s ->
  queue_inv (s_queue s) /\
  (forall it d, it ∈ su_items u -> d ∈ su_domains u ->
     (label it, d) ∈ keys (_pending (s_queue s)) \/ (label it, d) ∈ _done (s_queue s) \/
     (label it, d) ∈ held_all s \/ d ∈ excluded_domains (s_queue s)) /\
  st_done (s_stats s) = jobs_run (metrics (s_queue s)) /\
  st_passed (s_stats s) = jobs_passed (metrics (s_queue s)) /\
  0 <= st_passed (s_stats s) /\ 0 <= st_skipped (s_stats s) /\
  st_passed (s_stats s) + st_skipped (s_stats s) <= st_done (s_stats s).
Proof.
  intros [H1 _ _ _ _ H6 _ [H8 H8'] _]%reachable_inv. unfold counts in H8.
  injection H8 as H8a H8b. split_and!; try tauto; try done.
  intros it d Hit Hd. destruct (decide (d ∈ excluded_domains (s_queue s))) as [?|Hx]; [tauto|].
  destruct (H6 (label it, d)) as [?|[?|?]]; simpl; try tauto. by apply elem_of_labels.
Qed.

(** C2. A scan that ends by itself is complete: when all workers have returned without a stop,
    every pair of a strategy and a domain is done, except on domains that were excluded. *)
Theorem scan_completes u s :
  reachable u s -> s_stop s = false -> Forall exited (s_workers s) ->
  forall it d, it ∈ su_items u -> d ∈ su_domains u ->
    (label it, d) ∈ _done (s_queue s) \/ d ∈ excluded_domains (s_queue s).
Proof.
  intros Hr Hs Hex it d Hit Hd. apply reachable_inv in Hr as [H1 _ _ H4 _ H6 H7 _ _].
  assert (Hh : forall k, k ∉ held_all s).
  { intros k Hk. unfold held_all in Hk. apply list_elem_of_In, in_concat in Hk as (l & Hl & Hk).
    apply list_elem_of_In in Hl, Hk. apply list_elem_of_fmap in Hl as (w & -> & Hw).
    rewrite Forall_forall in H4, Hex. specialize (H4 w Hw) as [_ H4]. specialize (Hex w Hw).
    unfold exited in Hex. rewrite Hex in H4. specialize (H4 Hs). unfold held, batch_clear in *.
    rewrite H4, Hex in Hk. by apply not_elem_of_nil in Hk. }
  destruct (decide (d ∈ excluded_domains (s_queue s))) as [?|Hx]; [by right|].
  destruct (H6 (label it, d)) as [Hk|[?|Hk]]; simpl; try done; [by apply elem_of_labels| |by left|by apply Hh in Hk].
  apply H7 in Hk as [Hk|Hk]; [done|by apply Hh in Hk|done|].
  eapply Forall_impl; [exact Hex|]. intros w Hw. unfold exited, draining in *. by rewrite Hw.
Qed.


(** No worker gets stuck: one that has not returned has a next event, whatever the others
    do, as long as no priority is NaN; so a scan can only end with all workers finished. *)
Theorem scan_progress u s i w :
  reachable u s -> no_nan (s_queue s) -> s_workers s !! i = Some w -> ~ finished w ->
  exists e s', e <> EvStop /\ exec_event (su_batch u) e s = Some s'.
Proof.
  intros Hr Hn Hw Hf. apply reachable_inv in Hr as Hi. destruct w as [a p].
  destruct p as [| |batch k|batch [|[bj r] todo] fine k|j|j| |]; unfold finished in Hf; simpl in Hf; try done.
  - exists (EvTurn i). simpl. unfold turn. rewrite Hw. eauto.
  - exists (EvTurn i). simpl. unfold turn, pop_isolated. rewrite Hw. destruct (s_stop s); [eauto|].
    destruct (pop_total_core (excluded_snapshot (exclude_domains <$> s_quar s) (s_pool s)) (s_queue s)
      (si_queue _ _ _ Hi) Hn) as (o & q & -> & _). destruct o; eauto.
  - exists (EvProbed i None). simpl. unfold probe_returns. rewrite Hw. eauto.
  - exists (EvRelease i). simpl. unfold release_next. rewrite Hw. eauto.
  - exists (EvAccount i f_zero ""). simpl. unfold account_next. rewrite Hw.
    destruct (dget (bkey bj) (job_by_key batch)); eauto.
  - exists (EvSingle i None f_zero ""). simpl. unfold single. rewrite Hw. eauto.
  - exists (EvRelease i). simpl. unfold release_next. rewrite Hw. eauto.
Qed.

(** A job that is taken is on no excluded domain, so on none that the running quarantine has
    condemned by then; it is on a domain that another worker holds only if every pending job
    is on a domain that is held or excluded. *)
Theorem pop_isolated_spec u s j s' :
  reachable u s -> pop_isolated s = Some (Some j, s') ->
  domain j ∉ excluded_domains (s_queue s) /\
  (forall qr, s_quar s = Some qr -> is_quarantined qr (domain j) = false) /\
  domain j ∈ active_domains (s_pool s') /\
  (domain j ∈ active_domains (s_pool s) -> forall k j', dget k (_pending (s_queue s)) = Some j' ->
     domain j' ∈ active_domains (s_pool s) ∪ excluded_domains (s_queue s)).
Proof.
  intros Hr H. apply reachable_inv in Hr as Hi. unfold pop_isolated in H.
  destruct (pop _ (s_queue s)) as [[[j0|] q]|] eqn:Hpop; simplify_eq.
  apply pop_spec_core in Hpop as (_ & Hpd & Hpr); [|apply Hi].
  destruct (pd_result _ _ _ Hpd j eq_refl) as (_ & Hx & _). split_and!; [done| |simpl; set_solver|].
  - intros qr Hq. pose proof (si_quar _ _ _ Hi qr Hq) as Hs. apply not_true_iff_false. intros Hc.
    apply Hx, Hs. unfold exclude_domains, is_quarantined in *. rewrite elem_of_list_to_set, elem_of_keys, is_Some_alt.
    by destruct (dget (domain j) (quarantined qr)).
  - intros Hact k j' Hj'. unfold excluded_snapshot in Hpr. simpl in Hpr.
    assert (Hd : domain j' ∈ (active_domains (s_pool s) ∪ default ∅ (exclude_domains <$> s_quar s))
                             ∪ excluded_domains (s_queue s)) by (eapply Hpr; [set_solver|exact Hj']).
    destruct (s_quar s) as [qr|] eqn:Eq; simpl in Hd; [|set_solver].
    pose proof (si_quar _ _ _ Hi qr Eq). set_solver.
Qed.
End Run.

(** ** Concrete runs *)

Lemma exec_reachable {R} `{!Rng R} b es (s s' : scan_state (R := R)) :
  exec b es s = Some s' -> rtc (scan_step b) s s'.
Proof.
  unfold exec. revert s. induction es as [|e es IH]; intros s H; simpl in H; [simplify_eq; done|].
  destruct (exec_event b e s) as [s1|] eqn:E.
  - apply rtc_l with s1; [by apply (scan_event b e)|by apply IH].
  - exfalso. clear IH E. by induction es.
Qed.

(** The next event of worker [i], whose probes answer [ok]. *)
Definition next_event (ok : bool) (i : nat) (s : scan_state (R := unit)) : list event :=
  match w_phase <$> s_workers s !! i with
  | Some Start | Some Top => [EvTurn i]
  | Some (Probing batch _) =>
      [EvProbed i (Some ((fun j => tcp_result (item j) (domain j) ok "reset") <$> batch))]
  | Some (Accounting _ [] _ _) | Some (Releasing _) => [EvRelease i]
  | Some (Accounting _ _ _ _) => [EvAccount i f_zero "t"]
  | Some (ProbingOne j) => [EvSingle i (Some (tcp_result (item j) (domain j) ok "reset")) f_zero "t"]
  | _ => []
  end.

(** The workers in turn, each taking one event. *)
Fixpoint round_robin (b : Z) (ok : bool) (fuel : nat) (s : scan_state (R := unit)) : list event :=
  match fuel with
  | O => []
  | S fuel =>
      let es := next_event ok (fuel mod length (s_workers s)) s in
      match exec b es s with
      | Some s' => es ++ round_robin b ok fuel s'
      | None => []
      end
  end.

Definition ex_setup (w : Z) : setup (R := unit) :=
  Setup [ex_A; ex_B] ["a.com"; "b.com"; "dead.com"] [] f_zero tt f_zero [] None
    (Some (Quarantine demo_config [] [("dead.com", Info "dead.com" 2 0 2 "t" "seed")])) None ∅ true 2 w.

Definition ex_run (w : Z) : option (scan_state (R := unit)) :=
  exec 2 (round_robin 2 true 200 (su_start (ex_setup w))) (su_start (ex_setup w)).

Definition ex_end (w : Z) : scan_state (R := unit) := default (su_start (ex_setup w)) (ex_run w).

Lemma ex_reachable : reachable (ex_setup 2) (ex_end 2).
Proof.
  unfold reachable. apply (exec_reachable 2 (round_robin 2 true 200 (su_start (ex_setup 2)))).
  vm_compute. reflexivity.
Qed.

Lemma scan_loses_no_job_witness :
  st_done (s_stats (ex_end 2)) = 4 /\ queue_inv (s_queue (ex_end 2)).
Proof. split; [reflexivity|]. exact (proj1 (scan_loses_no_job (ex_setup 2) (ex_end 2) ex_reachable)). Defined.

Lemma scan_completes_witness :
  Forall exited (s_workers (ex_end 2)) /\
  ((label ex_B, "b.com") ∈ _done (s_queue (ex_end 2)) \/ "b.com" ∈ excluded_domains (s_queue (ex_end 2))).
Proof.
  assert (H : Forall exited (s_workers (ex_end 2))) by (vm_compute; repeat constructor).
  split; [exact H|].
  apply (scan_completes (ex_setup 2) (ex_end 2) ex_reachable);
    [reflexivity|exact H|right; left|right; left].
Defined.


Definition ex_begun : scan_state (R := unit) :=
  default (su_start (ex_setup 2)) (exec 2 [EvTurn 0; EvTurn 1] (su_start (ex_setup 2))).

Lemma ex_begun_reachable : reachable (ex_setup 2) ex_begun.
Proof. unfold reachable. apply (exec_reachable 2 [EvTurn 0; EvTurn 1]). vm_compute. reflexivity. Qed.

Lemma ex_begun_no_nan : no_nan (s_queue ex_begun).
Proof.
  assert (H : Forall (fun kj => is_nan (_job_priority (s_queue ex_begun) kj.2) = false) (_pending (s_queue ex_begun))).
  { refine (bool_decide_unpack _ _). vm_compute. exact I. }
  intros k j Hg. apply elem_of_dict in Hg; [|apply (reachable_inv _ _ ex_begun_reachable)].
  rewrite Forall_forall in H. by apply (H (k, j)).
Qed.

Lemma scan_progress_witness :
  exists e s', e <> EvStop /\ exec_event 2 e ex_begun = Some s'.
Proof.
  refine (scan_progress (ex_setup 2) ex_begun 0 (Worker (new_accumulator 2) Top) ex_begun_reachable
            ex_begun_no_nan _ _).
  - reflexivity.
  - intros H. exact H.
Defined.

Lemma pop_isolated_spec_witness :
  exists j s', pop_isolated ex_begun = Some (Some j, s') /\ domain j = "a.com" /\
    domain j ∉ excluded_domains (s_queue ex_begun).
Proof.
  pose (r := default (None, ex_begun) (pop_isolated ex_begun)).
  assert (H : pop_isolated ex_begun = Some (Some (from_item ex_A "a.com" false), r.2)) by (vm_compute; reflexivity).
  exists (from_item ex_A "a.com" false), r.2. split; [exact H|]. split; [reflexivity|].
  exact (proj1 (pop_isolated_spec (ex_setup 2) ex_begun _ _ ex_begun_reachable H)).
Defined.

(** *** Two limits of the runner *)

(** Two workers can probe one domain at once: when only one domain is left, the second
    worker is given a job on it although the first is still probing it. *)
Theorem isolation_not_exclusive :
  let u := Setup [ex_A; ex_B] ["a.com"] [] f_zero tt f_zero [] None None None ∅ true 1 2 in
  exists s, reachable u s /\
    (w_phase <$> s_workers s) =
      [Probing [from_item ex_A "a.com" false] CheckStop; Probing [from_item ex_B "a.com" false] CheckStop].
Proof.
  intros u. pose (es := [EvTurn 0; EvTurn 1; EvTurn 0; EvTurn 1]).
  exists (default (su_start u) (exec 1 es (su_start u))). split; [|vm_compute; reflexivity].
  unfold reachable. apply (exec_reachable 1 es). vm_compute. reflexivity.
Qed.

(** A stop can lose a job without a trace: a worker whose batch was flushed because the next
    job has another protocol pushes that job, sees the stop and returns; the job is neither
    pending nor done nor skipped in the statistics. *)
Theorem stop_loses_pushed_job :
  let b := Item "std_fake_2" "fake:blob=tls" false "tls13" in
  let u := Setup [ex_A; b] ["a.com"] [] f_zero tt f_zero [] None None None ∅ true 3 1 in
  exists s, reachable u s /\ Forall exited (s_workers s) /\
    keys (_pending (s_queue s)) = [] /\ ("std_fake_2", "a.com") ∉ _done (s_queue s) /\
    s_stats s = RunStats 1 1 0 /\ held_all s = [("std_fake_2", "a.com")].
Proof.
  intros b u. pose (es := [EvTurn 0; EvTurn 0; EvTurn 0; EvStop; EvProbed 0 (Some []); EvAccount 0 f_zero "t"; EvRelease 0]).
  exists (default (su_start u) (exec 3 es (su_start u))). split.
  { unfold reachable. apply (exec_reachable 3 es). vm_compute. reflexivity. }
  split; [vm_compute; repeat constructor|]. split; [vm_compute; reflexivity|].
  split; [refine (bool_decide_unpack _ _); vm_compute; exact I|]. split; vm_compute; reflexivity.
Qed.
