(* ===== verification/PyIp.v ===== *)
(** * Python's [ipaddress]

    The part of the standard library's module that the catalogs, the domain lists and the DNS audit rest on:
    reading an address ([ip_address]) and a network ([ip_network(token, strict=False)]), and membership. The
    functions follow [Lib/ipaddress.py] of CPython 3.12; [None] is its [ValueError]. *)

From stdpp Require Import base numbers list strings pretty.
From Stdlib Require Import ZArith Lia Ascii.
From S2P Require Import Prelude PyStr.

#[local] Open Scope string_scope.
#[local] Open Scope Z_scope.

(** ** IPv4 *)

(** [_parse_octet] *)
Definition parse_octet (s : string) : option Z :=
  if negb (isdigit s) then None
  else if (3 <? String.length s)%nat then None
  else if negb (String.eqb s "0") && startswith "0" s then None
  else let n := digits_val 0 s in if 255 <? n then None else Some n.

(** [IPv4Address._ip_int_from_string] *)
Definition parse_v4 (s : string) : option Z :=
  match split_char "." s with
  | [a; b; c; d] =>
      a ← parse_octet a; b ← parse_octet b; c ← parse_octet c; d ← parse_octet d;
      Some (((a * 256 + b) * 256 + c) * 256 + d)
  | _ => None
  end.

(** [str] of an IPv4 address. *)
Definition v4_str (n : Z) : string :=
  join "." [str_of_Z (n / 16777216 mod 256); str_of_Z (n / 65536 mod 256); str_of_Z (n / 256 mod 256); str_of_Z (n mod 256)].

(** ** IPv6 *)

Definition hex_val (c : ascii) : option Z :=
  let c := lower_char c in
  if is_digit c then Some (digit_val c)
  else if andb (N.leb 97 (N_of_ascii c)) (N.leb (N_of_ascii c) 102) then Some (Z.of_N (N_of_ascii c) - 87) else None.
Fixpoint hex_digits (acc : Z) (s : string) : option Z :=
  match s with
  | EmptyString => Some acc
  | String c s => v ← hex_val c; hex_digits (acc * 16 + v) s
  end.

(** [_parse_hextet]: [int] rejects the empty text. *)
Definition parse_hextet (s : string) : option Z :=
  if negb (nonempty s) || (4 <? String.length s)%nat then None else hex_digits 0 s.

Fixpoint parse_hextets (acc : Z) (l : list string) : option Z :=
  match l with
  | [] => Some acc
  | s :: l => h ← parse_hextet s; parse_hextets (acc * 65536 + h) l
  end.

Fixpoint hex_str_fuel (fuel : nat) (n : Z) : string :=
  match fuel with
  | O => EmptyString
  | S fuel =>
      let d := String (hex_char (Z.to_N (n mod 16))) EmptyString in
      if n <? 16 then d else hex_str_fuel fuel (n / 16) +:+ d
  end.
(** ['%x' % n] of a hextet. *)
Definition hextet_str (n : Z) : string := hex_str_fuel 4 n.

(** The indices [1 .. len - 2] at which a part is empty. *)
Definition inner_empty (parts : list string) : list nat :=
  filter (fun i => (0 < i)%nat /\ (S i < length parts)%nat /\ parts !! i = Some EmptyString) (seq 0 (length parts)).

Definition first_empty (parts : list string) : bool := match parts with p :: _ => negb (nonempty p) | [] => true end.
Definition last_empty (parts : list string) : bool := match last parts with Some p => negb (nonempty p) | None => true end.

(** The parts of an IPv6 address, an IPv4 suffix already in two hextets. *)
Definition v6_parts (parts : list string) : option Z :=
  if (9 <? length parts)%nat then None else
  match inner_empty parts with
  | [] =>
      if negb (length parts =? 8)%nat || first_empty parts || last_empty parts then None
      else parse_hextets 0 parts
  | [skip] =>
      let hi := skip in
      let lo := (length parts - skip - 1)%nat in
      if first_empty parts && negb (hi =? 1)%nat then None else
      let hi := if first_empty parts then O else hi in
      if last_empty parts && negb (lo =? 1)%nat then None else
      let lo := if last_empty parts then O else lo in
      if (8 <=? hi + lo)%nat then None else
      high ← parse_hextets 0 (take hi parts);
      parse_hextets (high * 2 ^ (16 * Z.of_nat (8 - (hi + lo)))) (drop (length parts - lo) parts)
  | _ => None
  end.

(** [IPv6Address._ip_int_from_string] *)
Definition parse_v6_int (s : string) : option Z :=
  let parts := split_char ":" s in
  if (length parts <? 3)%nat then None
  else match last parts with
       | Some suffix =>
           if contains "." suffix then
             n ← parse_v4 suffix;
             v6_parts (take (length parts - 1) parts ++ [hextet_str (n / 65536); hextet_str (n mod 65536)])
           else v6_parts parts
       | None => None
       end.

(** The scope after [%], as in [fe80::1%eth0]. *)
Definition parse_v6 (s : string) : option (Z * option string) :=
  match split_char "%" s with
  | [a] => n ← parse_v6_int a; Some (n, None)
  | [a; scope] => if nonempty scope then n ← parse_v6_int a; Some (n, Some scope) else None
  | _ => None
  end.

(** ** Addresses and networks *)

Inductive addr : Type := Addr4 (n : Z) | Addr6 (n : Z) (scope : option string).
#[export] Instance addr_eq_dec : EqDecision addr. Proof. solve_decision. Defined.

Definition ip_address (s : string) : option addr :=
  if contains "/" s then None
  else match parse_v4 s with
       | Some n => Some (Addr4 n)
       | None => '(n, scope) ← parse_v6 s; Some (Addr6 n scope)
       end.

(** A network: its address, already masked, and the length of the prefix. *)
Record net : Type := Net { net_addr : addr; prefixlen : Z }.
#[export] Instance net_eq_dec : EqDecision net. Proof. solve_decision. Defined.

Definition width (a : addr) : Z := match a with Addr4 _ => 32 | Addr6 _ _ => 128 end.
Definition addr_int (a : addr) : Z := match a with Addr4 n => n | Addr6 n _ => n end.
(** The first [p] of [w] bits. *)
Definition high_bits (w p n : Z) : Z := Z.shiftr n (w - p).

(** [_prefix_from_ip_int]: ones, then zeros. *)
Definition prefix_of_mask (mask : Z) : option Z :=
  head (filter (fun p => mask = Z.shiftl (Z.ones p) (32 - p)) (Z.of_nat <$> seq 0 33)).

Definition prefix_from_string (w : Z) (s : string) : option Z :=
  if isdigit s then let p := digits_val 0 s in if p <=? w then Some p else None else None.

(** [IPv4Network._make_netmask]: a length, a netmask or a hostmask. *)
Definition netmask4 (s : string) : option Z :=
  match prefix_from_string 32 s with
  | Some p => Some p
  | None =>
      n ← parse_v4 s;
      match prefix_of_mask n with Some p => Some p | None => prefix_of_mask (Z.lxor n (Z.ones 32)) end
  end.

(** The address with the bits after the prefix cleared; one that needed no clearing keeps its scope. *)
Definition masked (a : addr) (p : Z) : addr :=
  let n := Z.shiftl (high_bits (width a) p (addr_int a)) (width a - p) in
  match a with
  | Addr4 _ => Addr4 n
  | Addr6 m scope => if n =? m then a else Addr6 n None
  end.

(** [ip_network(s, strict=False)] *)
Definition ip_network4 (s : string) : option net :=
  match split_char "/" s with
  | [a] => n ← parse_v4 a; Some (Net (Addr4 n) 32)
  | [a; m] => n ← parse_v4 a; p ← netmask4 m; Some (Net (masked (Addr4 n) p) p)
  | _ => None
  end.
Definition ip_network6 (s : string) : option net :=
  match split_char "/" s with
  | [a] => '(n, scope) ← parse_v6 a; Some (Net (Addr6 n scope) 128)
  | [a; m] => '(n, scope) ← parse_v6 a; p ← prefix_from_string 128 m; Some (Net (masked (Addr6 n scope) p) p)
  | _ => None
  end.
Definition ip_network (s : string) : option net :=
  match ip_network4 s with Some n => Some n | None => ip_network6 s end.

(** [addr in net] *)
Definition in_net (a : addr) (n : net) : bool :=
  match a, net_addr n with
  | Addr4 x, Addr4 y | Addr6 x _, Addr6 y _ =>
      high_bits (width a) (prefixlen n) x =? high_bits (width a) (prefixlen n) y
  | _, _ => false
  end.

(** ** Texts *)

(** The groups of an IPv6 address, and its longest run of zeros, the first of the longest ones. *)
Definition hextets_of (n : Z) : list string :=
  (fun i => hextet_str (n / 2 ^ (16 * Z.of_nat (7 - i)) mod 65536)) <$> seq 0 8.
Fixpoint zeros_run (l : list string) : nat :=
  match l with "0" :: l => S (zeros_run l) | _ => O end.
Fixpoint best_run (i : nat) (l : list string) : nat * nat :=
  match l with
  | [] => (O, O)
  | _ :: l' => let '(j, k) := best_run (S i) l' in if (k <=? zeros_run l)%nat then (i, zeros_run l) else (j, k)
  end.
(** [_compress_hextets] *)
Definition compress_hextets (l : list string) : list string :=
  let '(start, len) := best_run 0 l in
  if (len <=? 1)%nat then l
  else ((if (start =? 0)%nat then [EmptyString] else take start l) ++ [EmptyString]
        ++ (if (start + len =? length l)%nat then [EmptyString] else drop (start + len) l))%list.
Definition v6_str (n : Z) : string := join ":" (compress_hextets (hextets_of n)).

Definition addr_str (a : addr) : string :=
  match a with
  | Addr4 n => v4_str n
  | Addr6 n None => v6_str n
  | Addr6 n (Some scope) => v6_str n +:+ "%" +:+ scope
  end.
Definition net_str (n : net) : string := addr_str (net_addr n) +:+ "/" +:+ str_of_Z (prefixlen n).

(** ** Facts *)

Example ex_addresses :
  ip_address "10.0.0.1" = Some (Addr4 167772161) /\ ip_address "010.0.0.1" = None /\ ip_address "1.2.3" = None /\
  ip_address "::1" = Some (Addr6 1 None) /\ ip_address "1::2::3" = None /\ ip_address "::" = Some (Addr6 0 None) /\
  ip_address "::ffff:1.2.3.4" = Some (Addr6 (65535 * 2 ^ 32 + 16909060) None) /\
  ip_address "fe80::1%eth0" = Some (Addr6 (65152 * 2 ^ 112 + 1) (Some "eth0")) /\ ip_address ":1" = None /\
  ip_address "1:2:3:4:5:6:7::" = Some (Addr6 (18446744082299486211 * 0 + 5192296858534827628530496329220096 * 1 + 2 * 2 ^ 96 + 3 * 2 ^ 80 + 4 * 2 ^ 64 + 5 * 2 ^ 48 + 6 * 2 ^ 32 + 7 * 2 ^ 16) None).
Proof. vm_compute. repeat split. Qed.

Example ex_networks :
  net_str <$> ip_network "10.1.2.3/8" = Some "10.0.0.0/8" /\ net_str <$> ip_network "10.0.0.0/255.0.0.0" = Some "10.0.0.0/8" /\
  net_str <$> ip_network "10.0.0.0/0.255.255.255" = Some "10.0.0.0/8" /\ ip_network "10.0.0.0/33" = None /\
  net_str <$> ip_network "2001:db8:0:1::/32" = Some "2001:db8::/32" /\ net_str <$> ip_network "::/128" = Some "::/128" /\
  net_str <$> ip_network "1:0:0:2:0:0:0:3" = Some "1:0:0:2::3/128" /\ net_str <$> ip_network "8.8.8.8" = Some "8.8.8.8/32".
Proof. vm_compute. repeat split. Qed.

(** A dotted quad is read back. *)
Lemma octets_read :
  Forall (fun n => parse_octet (str_of_Z n) = Some n /\
    sforall (fun c => negb (Ascii.eqb c ".")) (str_of_Z n) = true /\ contains "/" (str_of_Z n) = false) (Z.of_nat <$> seq 0 256).
Proof. apply (bool_decide_unpack _). vm_compute. exact I. Qed.

Lemma octet_read n : 0 <= n < 256 ->
  parse_octet (str_of_Z n) = Some n /\ sforall (fun c => negb (Ascii.eqb c ".")) (str_of_Z n) = true /\
  contains "/" (str_of_Z n) = false.
Proof.
  intros Hn. pose proof octets_read as H. rewrite Forall_forall in H. apply H.
  apply list_elem_of_fmap. exists (Z.to_nat n). split; [lia|]. apply elem_of_seq. lia.
Qed.

Definition quad (a b c d : Z) : string := join "." [str_of_Z a; str_of_Z b; str_of_Z c; str_of_Z d].

Lemma quad_read a b c d : 0 <= a < 256 -> 0 <= b < 256 -> 0 <= c < 256 -> 0 <= d < 256 ->
  parse_v4 (quad a b c d) = Some (((a * 256 + b) * 256 + c) * 256 + d).
Proof.
  intros Ha Hb Hc Hd. destruct (octet_read a Ha) as (Ea & Fa & _), (octet_read b Hb) as (Eb & Fb & _),
    (octet_read c Hc) as (Ec & Fc & _), (octet_read d Hd) as (Ed & Fd & _).
  unfold parse_v4, quad. rewrite split_join_free; [|done|by repeat constructor].
  rewrite Ea. cbn [mbind option_bind]. rewrite Eb. cbn [mbind option_bind]. rewrite Ec. cbn [mbind option_bind].
  by rewrite Ed.
Qed.
