(* ===== verification/PyUrl.v ===== *)
(** * Python's [urllib.parse]

    [urlsplit] and [urlparse] on ASCII text, and the [hostname] of their result, as in [Lib/urllib/parse.py] of
    CPython 3.12. [None] is the [ValueError] of a host in unbalanced or misused brackets. *)

From stdpp Require Import base numbers list strings.
From Stdlib Require Import ZArith Lia Ascii.
From S2P Require Import Prelude PyStr PyRe PyIp.

#[local] Open Scope string_scope.

(** [s.partition(c)]: the parts before and after, the latter when the separator occurs. *)
Fixpoint after_char (c : ascii) (s : string) : option string :=
  match s with
  | EmptyString => None
  | String d s => if Ascii.eqb d c then Some s else after_char c s
  end.
(** [s.rpartition(c)[2]] *)
Definition after_last (c : ascii) (s : string) : string := default EmptyString (last (split_char c s)).

Record split_result : Type := Split { scheme : string; netloc : string; path : string; query : string; fragment : string }.

(** The characters up to the space, which are taken off the left; tabs and line breaks are removed everywhere. *)
Definition is_c0 (c : ascii) : bool := (N_of_ascii c <=? 32)%N.
Definition unsafe_char (c : ascii) : bool := let n := N_of_ascii c in (n =? 9)%N || (n =? 10)%N || (n =? 13)%N.
Fixpoint sfilter (p : ascii -> bool) (s : string) : string :=
  match s with EmptyString => EmptyString | String c s => if p c then String c (sfilter p s) else sfilter p s end.

Definition scheme_char (c : ascii) : bool := is_alnum c || Ascii.eqb c "+" || Ascii.eqb c "-" || Ascii.eqb c ".".
Definition first_alpha (s : string) : bool := match s with String c _ => is_upper c || is_lower c | EmptyString => false end.

(** The scheme and the rest. *)
Definition split_scheme (url : string) : string * string :=
  match after_char ":" url with
  | Some rest =>
      let s := before ":" url in
      if first_alpha s && sforall scheme_char s then (lower s, rest) else (EmptyString, url)
  | None => (EmptyString, url)
  end.

Fixpoint take_until (p : ascii -> bool) (s : string) : string * string :=
  match s with
  | EmptyString => (EmptyString, EmptyString)
  | String c s' => if p c then (EmptyString, s) else let '(a, b) := take_until p s' in (String c a, b)
  end.
(** [_splitnetloc(url, 2)] *)
Definition netloc_end (c : ascii) : bool := Ascii.eqb c "/" || Ascii.eqb c "?" || Ascii.eqb c "#".

(** [_check_bracketed_host] raises nothing. *)
Definition is_hex (c : ascii) : bool :=
  is_digit c || (let n := N_of_ascii (lower_char c) in (97 <=? n)%N && (n <=? 102)%N).
Definition ipvfuture : re := seqs [lit "v"; Plus (Chr is_hex); Chr (Ascii.eqb "."); Plus dot].
Definition bracketed_host_ok (hostname : string) : bool :=
  if startswith "v" hostname then found (fullmatch ipvfuture hostname)
  else match ip_address hostname with Some (Addr6 _ _) => true | _ => false end.
(** [_check_bracketed_netloc] *)
Definition bracketed_netloc_ok (netloc : string) : bool :=
  let hp := after_last "@" netloc in
  match after_char "[" hp with
  | Some bracketed =>
      negb (nonempty (before "[" hp)) &&
      (let port := default EmptyString (after_char "]" bracketed) in negb (nonempty port) || startswith ":" port) &&
      bracketed_host_ok (before "]" bracketed)
  | None => bracketed_host_ok (before ":" hp)
  end.
Definition netloc_ok (netloc : string) : bool :=
  if has_char "[" netloc || has_char "]" netloc
  then has_char "[" netloc && has_char "]" netloc && bracketed_netloc_ok netloc
  else true.

Definition urlsplit (url : string) : option split_result :=
  let url := sfilter (fun c => negb (unsafe_char c)) (lstrip_by is_c0 url) in
  let '(scheme, url) := split_scheme url in
  let '(netloc, url) := if startswith "//" url then take_until netloc_end (sdrop 2 url) else (EmptyString, url) in
  if negb (netloc_ok netloc) then None
  else
    let '(fragment, url) := (default EmptyString (after_char "#" url), before "#" url) in
    let '(query, url) := (default EmptyString (after_char "?" url), before "?" url) in
    Some (Split scheme netloc url query fragment).

(** [hostname], with [""] for [None]. *)
Definition hostname (r : split_result) : string :=
  let hostinfo := after_last "@" (netloc r) in
  let host := match after_char "[" hostinfo with Some b => before "]" b | None => before ":" hostinfo end in
  match after_char "%" host with
  | Some zone => lower (before "%" host) +:+ "%" +:+ zone
  | None => lower host
  end.

(** [urlparse(url).path]: the parameters of the last segment are cut off where the scheme has them. *)
Definition uses_params : list string :=
  [EmptyString; "ftp"; "hdl"; "prospero"; "http"; "https"; "shttp"; "rtsp"; "rtspu"; "sip"; "sips"; "mms"; "sftp"; "tel"].
Definition path_of (r : split_result) : string :=
  if decide (scheme r ∈ uses_params) then
    let segs := split_char "/" (path r) in
    join "/" (take (length segs - 1) segs ++ [before ";" (default EmptyString (last segs))])%list
  else path r.

Example urlsplit_ex :
  (hostname <$> urlsplit "HTTPS://User@Sub.Example.COM:8443/a;b/c;d?x=1#f") = Some "sub.example.com" /\
  (path_of <$> urlsplit "HTTPS://User@Sub.Example.COM:8443/a;b/c;d?x=1#f") = Some "/a;b/c" /\
  (hostname <$> urlsplit "//cdn.example/x") = Some "cdn.example" /\ (hostname <$> urlsplit "/only/a/path") = Some EmptyString /\
  (hostname <$> urlsplit "http://[2001:db8::1]:80/") = Some "2001:db8::1" /\
  urlsplit "https://[bad/" = None /\ urlsplit "https://[1.2.3.4]/" = None /\
  (scheme <$> urlsplit " javascript:x") = Some "javascript".
Proof. vm_compute. repeat split. Qed.

Lemma split_char_not_nil c s : split_char c s <> [].
Proof. destruct s as [|d s]; cbn; [done|]. destruct (Ascii.eqb _ _); [done|]. by destruct (split_char c s). Qed.
