(* ===== verification/TlsCheck.v ===== *)
(** * What a TLS answer proves: [checkers/tcp_tls.py]

    Redirects to foreign hosts, the content of a page, the verdict of one request. The request itself (libcurl) is
    an argument: it fails with a text or it gives a status, a body and a Location. Measured times are arguments. *)

From stdpp Require Import base numbers list strings.
From Stdlib Require Import ZArith Lia Ascii Floats.SpecFloat.
From S2P Require Import Prelude PyFloat PyStr PyRe PyUrl.

#[local] Open Scope string_scope.
#[local] Open Scope Z_scope.

(** ** Hosts *)

Definition MIN_CONTENT_LENGTH : Z := 300.
Definition MIN_BYTES_PER_SEC : float := f_of_Z 400.
Definition SMALL_BODY_STATUSES : list Z := [101; 204; 206; 301; 302; 303; 304; 307; 308].
Definition DPI_FAKE_PATTERNS : list string :=
  ["roskomnadzor"; "rkn.gov.ru"; "blockpage"; "utmblock"; "eais"; "warning.rt.ru"].
Definition REDIRECT_BLOCK_STATUSES : list Z := [301; 302; 303; 307; 308].
Definition _DISCORD_FAMILY_APEXES : list string :=
  ["discord.com"; "discord.gg"; "discordapp.com"; "discordapp.net"; "discordcdn.com"; "discord.media"].
Definition _GOOGLE_FAMILY_APEXES : list string :=
  ["google.com"; "accounts.google.com"; "youtube.com"; "youtu.be"; "googlevideo.com"; "googleapis.com"].

(** [s.rstrip(".")] *)
Definition no_dots (s : string) : string := rstrip_by (Ascii.eqb ".") s.

(** [None] is a [ValueError]. *)
Definition _redirect_hostname (location : string) : option string :=
  let loc := strip location in
  if negb (nonempty loc) then Some EmptyString
  else r ← urlsplit (if contains "://" loc || startswith "//" loc then loc else EmptyString);
       Some (no_dots (lower (hostname r))).

Definition _in_host_family (host : string) (apexes : list string) : bool :=
  let h := no_dots (lower host) in existsb (fun apex => String.eqb h apex || endswith ("." +:+ apex) h) apexes.
Definition _in_discord_family (host : string) : bool := _in_host_family host _DISCORD_FAMILY_APEXES.
Definition _in_google_family (host : string) : bool := _in_host_family host _GOOGLE_FAMILY_APEXES.

Definition _hosts_related (host domain : string) : bool :=
  let h := no_dots (lower host) in
  let d := no_dots (lower domain) in
  if negb (nonempty h && nonempty d) then false
  else if _in_discord_family h && _in_discord_family d then true
  else if _in_google_family h && _in_google_family d then true
  else String.eqb h d || endswith ("." +:+ d) h || endswith ("." +:+ h) d.

(** [domain.lower().split("/")[0].split(":")[0].rstrip(".")] *)
Definition bare_domain (domain : string) : string := no_dots (before ":" (before "/" (lower domain))).

Definition is_suspicious_redirect (domain : string) (status : Z) (location : string) : option bool :=
  if negb (bool_decide (status ∈ REDIRECT_BLOCK_STATUSES)) || negb (nonempty location) then Some false
  else loc_host ← _redirect_hostname location;
       Some (nonempty loc_host && negb (_hosts_related loc_host (bare_domain domain))).

Definition classify_http_status (domain : string) (status : Z) (location : string) : option (option string) :=
  suspicious ← is_suspicious_redirect domain status location;
  Some (if (suspicious : bool) then Some ("suspicious redirect " +:+ str_of_Z status +:+ " to " +:+ stake 80 location)
        else if status =? 400 then Some "http 400 (likely fake packets received)" else None).

(** ** Content *)

(** [f"{f:.0f}"] of a number that is finite and not negative: rounded half to even. *)
Definition fmt0 (f : float) : string :=
  match f with
  | S754_finite _ m e =>
      str_of_Z (if 0 <=? e then Z.pos m * 2 ^ e else div_half_even (Z.pos m) (2 ^ (- e)))
  | _ => "0"
  end.

Definition TLS_PROOF : list Z := [401; 403; 404].

(** The sizes and rates of these statuses say nothing. *)
Definition size_matters (status : Z) : bool :=
  negb (bool_decide (status ∈ SMALL_BODY_STATUSES)) && negb (bool_decide (status ∈ TLS_PROOF)).

Definition _validate_content (data : string) (time_for_read : float) (http_status : Z) : list string :=
  let content_len := Z.of_nat (String.length data) in
  let small := if size_matters http_status && (content_len <? MIN_CONTENT_LENGTH)
               then ["body too small (" +:+ str_of_Z content_len +:+ "B < " +:+ str_of_Z MIN_CONTENT_LENGTH +:+ "B)"] else [] in
  let slow := if flt (f_of_Z 0) time_for_read && size_matters http_status then
                let rate := fdiv (f_of_Z content_len) time_for_read in
                if flt rate MIN_BYTES_PER_SEC then ["slow read (" +:+ fmt0 rate +:+ " B/s < 400.0 B/s)"] else []
              else [] in
  let fake := match find (fun p => contains p (lower (stake 4096 data))) DPI_FAKE_PATTERNS with
              | Some p => ["DPI pattern '" +:+ p +:+ "' found in body"]
              | None => []
              end in
  (small ++ slow ++ fake)%list.

Definition _classify_tls_error (msg : string) (elapsed timeout : float) : string :=
  let low := lower msg in
  if contains "Timeout" msg && flt elapsed (fmul timeout (f_lit 6 10)) then "timeout (DPI window clamp?)"
  else if contains "Timeout" msg then "timeout"
  else if contains "reset" low then "connection reset"
  else if contains "ssl" low || contains "tls" low then "TLS error"
  else if contains "resolve" low then "DNS error"
  else stake 120 msg.

(** ** One request *)

Inductive fetched : Type :=
  | RequestFails (msg : string)       (* RequestsError *)
  | OtherFails (msg : string)
  | Fetched (status : Z) (body location http_version : string).

Record TlsResult : Type := Tls {
  t_domain : string; t_success : bool; http_status : Z; t_latency_ms : float; content_length : Z; t_read_rate : float;
  t_error : option string; t_protocol : string; warnings : list string
}.

Definition ok_status (status : Z) : bool := ((200 <=? status) && (status <? 400)) || bool_decide (status ∈ TLS_PROOF).

(** The times are those of the whole call and of the read; [url_error] is the text of the [ValueError] of a Location. *)
Definition check_tls (domain : string) (timeout : float) (verify_content : bool) (url_error : string)
    (answer : fetched) (read_elapsed elapsed : float) : TlsResult :=
  let latency := fmul elapsed (f_of_Z 1000) in
  let failed status len rate proto msg := Tls domain false status latency len rate (Some msg) proto [] in
  match answer with
  | RequestFails msg => failed 0 0 (f_of_Z 0) EmptyString (_classify_tls_error msg elapsed timeout)
  | OtherFails msg => failed 0 0 (f_of_Z 0) EmptyString (stake 120 msg)
  | Fetched status body location http_version =>
      let len := Z.of_nat (String.length body) in
      let rate := fdiv (f_of_Z len) (fmax read_elapsed (f_lit 1 1000)) in
      let proto := subst_char "_" "/" http_version in
      match classify_http_status domain status location with
      | None => failed status len rate proto (stake 120 url_error)
      | Some (Some err) => failed status len rate proto err
      | Some None =>
          let warn := if verify_content then _validate_content body read_elapsed status else [] in
          Tls domain (ok_status status && bool_decide (warn = [])) status latency len rate None proto warn
      end
  end.

(** ** Sites *)

(** A host as the comparison sees it, the subdomains of a site, and the two brands. *)
Definition canon (host : string) : string := no_dots (lower host).
Definition below (h site : string) : Prop := h = site \/ exists u, h = u +:+ "." +:+ site.
Definition in_family (h : string) (apexes : list string) : Prop := exists apex, apex ∈ apexes /\ below h apex.

Lemma below_bool h site : String.eqb h site || endswith ("." +:+ site) h = true <-> below h site.
Proof. rewrite orb_true_iff, String.eqb_eq, endswith_iff. done. Qed.

Lemma lower_rstrip_by p s : (forall c, p (lower_char c) = p c) -> lower (rstrip_by p s) = rstrip_by p (lower s).
Proof.
  intros Hp. induction s as [|c s IH]; [done|].
  change (lower (String c s)) with (String (lower_char c) (lower s)). cbn [rstrip_by]. rewrite <- IH.
  destruct (rstrip_by p s) as [|d t]; [|done]. change (lower EmptyString) with EmptyString. cbn. rewrite Hp. by destruct (p c).
Qed.

Lemma canon_idemp host : canon (canon host) = canon host.
Proof.
  unfold canon, no_dots. rewrite lower_rstrip_by by (intros []; by repeat match goal with b : bool |- _ => destruct b end).
  by rewrite lower_idemp, rstrip_idemp.
Qed.

Lemma in_host_family_spec host apexes : _in_host_family host apexes = true <-> in_family (canon host) apexes.
Proof.
  unfold _in_host_family, in_family. rewrite existsb_exists. fold (canon host). split; intros (a & H1 & H2); exists a.
  - by rewrite list_elem_of_In, <- below_bool.
  - by rewrite <- list_elem_of_In, below_bool.
Qed.

(** Two names belong to one site: one is below the other, or both belong to the same brand. *)
Definition same_site (h d : string) : Prop :=
  h <> EmptyString /\ d <> EmptyString /\
  ((in_family h _DISCORD_FAMILY_APEXES /\ in_family d _DISCORD_FAMILY_APEXES) \/
   (in_family h _GOOGLE_FAMILY_APEXES /\ in_family d _GOOGLE_FAMILY_APEXES) \/ below h d \/ below d h).

Lemma nonempty_ne s : nonempty s = true <-> s <> EmptyString.
Proof. by destruct s. Qed.

Lemma hosts_related_core host domain : _hosts_related host domain = true <-> same_site (canon host) (canon domain).
Proof.
  unfold _hosts_related, same_site. fold (canon host) (canon domain).
  assert (forall h, _in_discord_family (canon h) = true <-> in_family (canon h) _DISCORD_FAMILY_APEXES) as Hd
    by (intros h; unfold _in_discord_family; by rewrite in_host_family_spec, canon_idemp).
  assert (forall h, _in_google_family (canon h) = true <-> in_family (canon h) _GOOGLE_FAMILY_APEXES) as Hg
    by (intros h; unfold _in_google_family; by rewrite in_host_family_spec, canon_idemp).
  rewrite <- !Hd, <- !Hg, <- !nonempty_ne, <- !below_bool, String.eqb_sym with (x := canon domain).
  destruct (nonempty (canon host)), (nonempty (canon domain)); cbn [andb negb]; try (split; [done|tauto]).
  destruct (_in_discord_family (canon host)), (_in_discord_family (canon domain)),
    (_in_google_family (canon host)), (_in_google_family (canon domain)), (String.eqb (canon host) (canon domain)),
    (endswith ("." +:+ canon domain) (canon host)), (endswith ("." +:+ canon host) (canon domain)); cbn; intuition done.
Qed.

(** The redirect of an answer stays on its site. *)
Definition stays (domain : string) (status : Z) (location : string) : Prop :=
  status ∈ REDIRECT_BLOCK_STATUSES -> location <> EmptyString ->
  exists h, _redirect_hostname location = Some h /\ (h = EmptyString \/ same_site (canon h) (canon (bare_domain domain))).

Lemma suspicious_spec domain status location :
  is_suspicious_redirect domain status location = Some false <-> stays domain status location.
Proof.
  unfold is_suspicious_redirect, stays. destruct (bool_decide (status ∈ REDIRECT_BLOCK_STATUSES)) eqn:Es; cbn [negb orb].
  2: { apply bool_decide_eq_false in Es. split; [by intros|done]. }
  apply bool_decide_eq_true in Es. destruct (nonempty location) eqn:El; cbn [negb].
  2: { destruct location; [|done]. split; [by intros|done]. }
  destruct (_redirect_hostname location) as [h|]; cbn [mbind option_bind].
  - split.
    + intros [= H] _ _. exists h. split; [done|]. apply andb_false_iff in H as [H|H].
      * left. by destruct h.
      * right. apply hosts_related_core. by apply negb_false_iff in H.
    + intros H. destruct (H Es) as (h' & [= <-] & H'); [by apply nonempty_ne|]. f_equal. destruct H' as [->|H']; [done|].
      apply hosts_related_core in H'. rewrite H'. cbn. by rewrite andb_false_r.
  - split; [done|]. intros H. destruct (H Es) as (h' & ? & _); [by apply nonempty_ne|done].
Qed.

(** The content of a page that was not put there by a filter. *)
Definition page_ok (body : string) (time : float) (status : Z) : Prop :=
  (size_matters status = true ->
     MIN_CONTENT_LENGTH <= Z.of_nat (String.length body) /\
     (flt (f_of_Z 0) time = true -> flt (fdiv (f_of_Z (Z.of_nat (String.length body))) time) MIN_BYTES_PER_SEC = false)) /\
  (forall p, p ∈ DPI_FAKE_PATTERNS -> contains p (lower (stake 4096 body)) = false).

Lemma validate_content_spec body time status : _validate_content body time status = [] <-> page_ok body time status.
Proof.
  unfold _validate_content, page_ok. set (text := lower (stake 4096 body)).
  assert (find (fun p => contains p text) DPI_FAKE_PATTERNS = None <-> forall p, p ∈ DPI_FAKE_PATTERNS -> contains p text = false) as Hf.
  { split.
    - intros H p Hp. apply (find_none _ _ H). by apply list_elem_of_In.
    - intros H. destruct (find _ _) eqn:E; [|done]. apply find_some in E as [E1 E2]. rewrite H in E2; [done|by apply list_elem_of_In]. }
  rewrite <- Hf. destruct (size_matters status); cbn [andb].
  - rewrite andb_true_r. destruct (Z.ltb_spec (Z.of_nat (String.length body)) MIN_CONTENT_LENGTH).
    { split; [done|]. intros [H1 _]. destruct (H1 eq_refl). lia. }
    destruct (flt (f_of_Z 0) time); cbn [app].
    + destruct (flt _ MIN_BYTES_PER_SEC); cbn [app].
      * split; [done|]. intros [H1 _]. destruct (H1 eq_refl) as [_ H2]. by specialize (H2 eq_refl).
      * destruct (find _ _); split; try done. by intros [_ ?].
    + destruct (find _ _); split; try done. by intros [_ ?].
  - rewrite andb_false_r. cbn [app]. destruct (find _ _); split; try done. by intros [_ ?].
Qed.

(** C39. A TLS check passes exactly when an answer came, its status is a success, a redirect or one of 401, 403, 404 (which
    prove that TLS reached the site), a redirect stays on the site of the domain or within its brand, and, when the
    content is verified, the page is long and fast enough and shows no page of a filter. A check that passes has no
    error and no warning; the comparison of sites does not depend on the order of its arguments. *)
Theorem check_tls_spec domain timeout verify url_error answer read_elapsed elapsed :
  let r := check_tls domain timeout verify url_error answer read_elapsed elapsed in
  (t_success r = true <->
   exists status body location version, answer = Fetched status body location version /\
     ok_status status = true /\ stays domain status location /\
     (verify = true -> page_ok body read_elapsed status)) /\
  (t_success r = true -> t_error r = None /\ warnings r = []) /\
  (forall a b, _hosts_related a b = _hosts_related b a).
Proof.
  cbv zeta. assert (forall a b, _hosts_related a b = _hosts_related b a) as Hsym.
  { intros a b. apply eq_true_iff_eq. rewrite !hosts_related_core. unfold same_site. tauto. }
  split; [|split; [|done]].
  - destruct answer as [msg|msg|status body location version]; [split; [done|by intros (?&?&?&?&?&_)]..|].
    unfold check_tls, classify_http_status. pose proof (suspicious_spec domain status location) as Hs.
    destruct (is_suspicious_redirect domain status location) as [[]|]; cbn [mbind option_bind].
    + split; [done|]. intros (?&?&?&?&[= <- <- <- <-]&_&H&_). apply Hs in H. done.
    + assert (stays domain status location) as Hst by (by apply Hs). destruct (Z.eqb_spec status 400) as [->|Hne].
      { split; [done|]. intros (?&?&?&?&[= <- <- <- <-]&H&_). done. }
      cbn [t_success]. rewrite andb_true_iff, bool_decide_eq_true. split.
      * intros [H1 H2]. exists status, body, location, version. split; [done|]. split; [done|]. split; [done|].
        intros ->. by apply validate_content_spec.
      * intros (?&?&?&?&[= <- <- <- <-]&H1&_&H2). split; [done|]. destruct verify; [|done]. by apply validate_content_spec, H2.
    + split; [done|]. intros (?&?&?&?&[= <- <- <- <-]&_&H&_). apply Hs in H. done.
  - destruct answer as [msg|msg|status body location version]; [done..|]. unfold check_tls.
    destruct (classify_http_status _ _ _) as [[]|]; cbn; try done. intros [_ H%bool_decide_eq_true]%andb_prop. done.
Qed.

Definition long_body : string := Nat.iter 300 (String "x") EmptyString.

Lemma check_tls_spec_witness :
  t_success (check_tls "www.youtube.com" (f_of_Z 5) true "url" (Fetched 302 EmptyString "https://youtu.be/x" "2") (f_lit 1 2) (f_of_Z 1)) = true /\
  t_success (check_tls "example.com" (f_of_Z 5) true "url" (Fetched 302 EmptyString "https://warning.isp.example/" "2") (f_lit 1 2) (f_of_Z 1)) = false /\
  t_error (check_tls "example.com" (f_of_Z 5) true "url" (Fetched 200 long_body EmptyString "2") (f_lit 1 2) (f_of_Z 1)) = None.
Proof.
  split; [vm_compute; reflexivity|]. split; [vm_compute; reflexivity|].
  apply (check_tls_spec "example.com" (f_of_Z 5) true "url" (Fetched 200 long_body EmptyString "2") (f_lit 1 2) (f_of_Z 1)).
  vm_compute. reflexivity.
Defined.

(** A Location with a lone bracket makes the comparison raise. *)
Example bracket_raises : is_suspicious_redirect "example.com" 302 "https://[x/" = None.
Proof. vm_compute. reflexivity. Qed.
