(* ===== verification/PyExn.v ===== *)
(** * Exceptions and state

    How a piece of Python ends, and the monad of the code that changes a state of type [S] and may raise:
    [try/finally], [try/except Exception], loops, and the weakest preconditions its proofs go through. *)

From stdpp Require Import base numbers list strings.
From S2P Require Import Prelude.

(** How a piece of the service ends: with a value, with an exception and its text, or with a value
    that the model cannot hold. *)
Inductive exn : Type := Error (msg : string) | Cancelled.
Inductive res (A : Type) : Type := Done (a : A) | Exn (e : exn) | Off.
Arguments Done {A} _. Arguments Exn {A} _. Arguments Off {A}.

#[export] Instance res_ret : MRet res := fun A a => Done a.
#[export] Instance res_bind : MBind res := fun A B f x =>
  match x with Done a => f a | Exn e => Exn e | Off => Off end.

(** ** The monad *)

Definition X (S A : Type) : Type := S -> res A * S.

#[export] Instance X_ret S : MRet (X S) := fun A a s => (Done a, s).
#[export] Instance X_bind S : MBind (X S) := fun A B f m s =>
  match m s with
  | (Done a, s) => f a s
  | (Exn e, s) => (Exn e, s)
  | (Off, s) => (Off, s)
  end.

Section Monad.
Context {S : Type}.

Definition raise {A} (e : exn) : X S A := fun s => (Exn e, s).
Definition lift {A} (r : res A) : X S A := fun s => (r, s).
Definition gets {A} (f : S -> A) : X S A := fun s => (Done (f s), s).
Definition modify (f : S -> S) : X S unit := fun s => (Done tt, f s).

(** [try: m finally: fin]. *)
Definition finally {A} (m : X S A) (fin : X S unit) : X S A := fun s =>
  let '(r, s) := m s in
  match r with
  | Off => (Off, s)
  | _ => match fin s with
         | (Done _, s) => (r, s)
         | (Exn e, s) => (Exn e, s)
         | (Off, s) => (Off, s)
         end
  end.

(** [try: m except Exception as e: h(str(e))]; a cancellation is no [Exception]. *)
Definition catch {A} (m : X S A) (h : string -> X S A) : X S A := fun s =>
  match m s with (Exn (Error msg), s) => h msg s | x => x end.

(** [for x in l: body(x)]. *)
Fixpoint for_each {A} (l : list A) (body : A -> X S unit) : X S unit :=
  match l with
  | [] => mret tt
  | x :: l => _ ← body x; for_each l body
  end.

(** ** Weakest preconditions *)

Definition wp {A} (m : X S A) (Q : res A -> S -> Prop) (s : S) : Prop := let '(r, s') := m s in Q r s'.

Lemma wp_run {A} (m : X S A) Q s r s' : wp m Q s -> m s = (r, s') -> Q r s'.
Proof. unfold wp. intros H E. by rewrite E in H. Qed.

Lemma wp_mono {A} (m : X S A) (Q Q' : res A -> S -> Prop) s :
  wp m Q s -> (forall r s', Q r s' -> Q' r s') -> wp m Q' s.
Proof. unfold wp. destruct (m s). auto. Qed.

Lemma wp_and {A} (m : X S A) (Q1 Q2 Q : res A -> S -> Prop) s :
  wp m Q1 s -> wp m Q2 s -> (forall r s', Q1 r s' /\ Q2 r s' -> Q r s') -> wp m Q s.
Proof. unfold wp. destruct (m s). auto. Qed.

Lemma wp_ret {A} (a : A) Q s : Q (Done a) s -> wp (mret a : X S A) Q s.
Proof. done. Qed.

Lemma wp_bind {A B} (m : X S A) (f : A -> X S B) Q s :
  wp m (fun r s' => match r with
                    | Done a => wp (f a) Q s'
                    | Exn e => Q (Exn e) s'
                    | Off => Q Off s'
                    end) s ->
  wp (m ≫= f) Q s.
Proof. unfold wp, mbind, X_bind. by destruct (m s) as [[] s']. Qed.

Lemma wp_raise {A} e (Q : res A -> S -> Prop) s : Q (Exn e) s -> wp (raise e) Q s.
Proof. done. Qed.

Lemma wp_gets {A} (f : S -> A) (Q : res A -> S -> Prop) s : Q (Done (f s)) s -> wp (gets f) Q s.
Proof. done. Qed.

Lemma wp_lift {A} (r : res A) (Q : res A -> S -> Prop) s : Q r s -> wp (lift r) Q s.
Proof. done. Qed.

Lemma wp_modify (f : S -> S) (Q : res unit -> S -> Prop) s : Q (Done tt) (f s) -> wp (modify f) Q s.
Proof. done. Qed.

Lemma wp_finally {A} (m : X S A) fin Q s :
  wp m (fun r s' => match r with
                    | Off => Q Off s'
                    | _ => wp fin (fun r' s'' => match r' with
                                                 | Done _ => Q r s''
                                                 | Exn e => Q (Exn e) s''
                                                 | Off => Q Off s''
                                                 end) s'
                    end) s ->
  wp (finally m fin) Q s.
Proof.
  unfold wp, finally. destruct (m s) as [[a|e|] s']; [| |done]; by destruct (fin s') as [[] s''].
Qed.

Lemma wp_catch {A} (m : X S A) h Q s :
  wp m (fun r s' => match r with Exn (Error msg) => wp (h msg) Q s' | _ => Q r s' end) s ->
  wp (catch m h) Q s.
Proof. unfold wp, catch. by destruct (m s) as [[a|[msg|]|] s']. Qed.

(** A loop keeps an invariant that is indexed by what is done. *)
Lemma wp_for_each {A} (body : A -> X S unit) (I : list A -> S -> Prop) (Q : res unit -> S -> Prop) l :
  forall pre s, I pre s ->
  (forall pre x s, x ∈ l -> I pre s -> wp (body x) (fun r s' => match r with
                                                       | Done _ => I (pre ++ [x])%list s'
                                                       | _ => Q r s'
                                                       end) s) ->
  (forall s, I (pre ++ l)%list s -> Q (Done tt) s) ->
  wp (for_each l body) Q s.
Proof.
  induction l as [|x l IH]; intros pre s Hs Hb Hq; cbn [for_each].
  - apply wp_ret, Hq. by rewrite app_nil_r.
  - apply wp_bind. eapply wp_mono; [apply Hb; [by left|done]|]. intros [[]|e|] s' H; [|done|done].
    eapply IH; [exact H| |].
    + intros pre' y s'' Hy. apply Hb. by right.
    + intros s''. rewrite <- app_assoc. apply Hq.
Qed.
End Monad.

(** Steps through the rules. *)
Ltac wp_steps :=
  repeat match goal with
  | |- wp (_ ≫= _) _ _ => apply wp_bind
  | |- wp (mret _) _ _ => apply wp_ret
  | |- wp (raise _) _ _ => apply wp_raise
  | |- wp (gets _) _ _ => apply wp_gets
  | |- wp (modify _) _ _ => apply wp_modify
  | |- wp (lift _) _ _ => apply wp_lift
  end.
