(* ===== verification/CurlProbe.v ===== *)
(** * The curl probe: [checkers/curl_probe.py]

    One request per attempt, its answer classified as a pass, a throttled pass or a failure, repeats of a probe, the
    stream that measures stalls. Requests to the network are functions of a world [W]; options of a session are a
    record. An answer whose Location cannot be parsed raises, as in [urllib.parse]. *)

From stdpp Require Import base numbers list strings.
From Stdlib Require Import ZArith Lia Ascii.
From S2P Require Import Prelude PyFloat PyExn PyStr PyRe PyDict PyUrl TlsCheck.

#[local] Open Scope string_scope.
#[local] Open Scope Z_scope.

(** ** Settings *)

Definition DEFAULT_IMPERSONATE : string := "chrome124".
(** The argument is the environment variable. *)
Definition impersonate_target (env : string) : string := let val := strip env in if nonempty val then val else DEFAULT_IMPERSONATE.

Definition MIN_READ_RATE_BPS : float := f_of_Z 500.
Definition THROTTLED_MAX_BPS : float := f_of_Z 256000.
Definition GGC_RANGE_SIZE : Z := 1048576.
Definition CURL_SMALL_BODY : list Z := [101; 204; 206; 301; 302; 303; 307; 308].
Definition _TLS_BYPASS_PROOF_STATUSES : list Z := [401; 403; 404].
Definition _BLOCK_PATH_TOKENS : list string := ["block"; "blocked"; "blockpage"; "forbidden"; "stop"; "error"].
Definition _HANDSHAKE_BUDGET_SEC : float := f_of_Z 2.
Definition _THROTTLE_MIN_BODY : Z := 16384.
Definition _GOOGLE_SERVER_HINTS : list string := ["gws"; "scone"; "gvs"; "sffe"; "fife"; "bandaid"].
Definition REDIRECTS : list Z := [301; 302; 303; 307; 308].

(** ** Requests *)

Record CurlProbeRequest : Type := Req {
  domain : string; timeout : float; resolved_ip : option string; resolve_name : option string; curl_url : option string;
  disable_ech : bool; googlevideo : bool; ggc : bool; ytcdn : bool; ytcdn_proxy : bool; ytcdn_bare : bool; protocol : string
}.
Record CurlProbeResult : Type := Res {
  r_resolve_name : string; success : bool; http_code : Z; latency_ms : float; content_len : Z; content_ok : bool;
  throttled : bool; read_rate_bps : float; error : option string
}.
Definition no_result : CurlProbeResult := Res EmptyString false 0 (f_of_Z 0) 0 false false (f_of_Z 0) None.
Definition error_result (msg : string) (latency : float) : CurlProbeResult :=
  Res EmptyString false 0 latency 0 false false (f_of_Z 0) (Some msg).

Definition is_googlevideo_domain (domain : string) : bool := contains "googlevideo" (lower domain).
Definition _YOUTUBE_RE : re :=
  seqs [Alt Bol (lit ".");
        alts (lit <$> ["youtube.com"; "youtu.be"; "googlevideo.com"; "ytimg.com"; "ggpht.com"; "gvt1.com"; "youtubeusercontent.com"; "googleusercontent.com"]);
        Alt (lit ".") Eol].
Definition is_youtube_domain (domain : string) : bool := found (search _YOUTUBE_RE (before "/" (lower domain))).
Definition is_ytcdn_domain (domain : string) : bool :=
  let d := before "/" (lower domain) in
  if negb (is_youtube_domain d) then false
  else negb (contains "googlevideo" d) && negb (contains "youtube.com" d) && negb (String.eqb d "youtu.be").

Definition generic_request (dom : string) (t : float) (ip name url : option string) (ech : bool) (proto : string) : CurlProbeRequest :=
  Req dom t ip name url ech false false false false false proto.

(** [ytcdn_probe_variants]; [socks5_proxy] is the setting. *)
Definition thumb_path (d : string) : string :=
  if endswith ".ytimg.com" d then "/vi/dQw4w9WgXcQ/0.jpg"
  else if endswith ".ggpht.com" d then "/ytc/AAUvw7g0mI5qo0r5vz0uR3sM0Q6P0F0w1Q4mXlLxM.png" else EmptyString.
Definition ytcdn_probe_variants (socks5_proxy dom : string) (t : float) (ip : option string) : list CurlProbeRequest :=
  let d := before "/" (lower dom) in
  let thumb := thumb_path d in
  let bare := "https://" +:+ d +:+ "/" in
  let variant url proxy is_bare := Req dom t ip (Some d) (Some url) true false false true proxy is_bare "tls12" in
  ((if nonempty thumb then [variant ("https://" +:+ d +:+ thumb) false false] else [])
   ++ (if nonempty socks5_proxy then [variant (if nonempty thumb then "https://" +:+ d +:+ thumb else bare) true false] else [])
   ++ [variant bare false true])%list.
Definition prepare_ytcdn_probe (socks5_proxy dom : string) (t : float) (ip : option string) : option CurlProbeRequest :=
  head (ytcdn_probe_variants socks5_proxy dom t ip).

(** ** Answers *)

Record response : Type := Resp { status_code : Z; content : string; header : string -> option string }.
(** [resp.headers.get(a) or resp.headers.get(b) or ""] *)
Definition header_or (a b : string) (r : response) : string :=
  match header r a with
  | Some v => if nonempty v then v else default EmptyString (header r b)
  | None => default EmptyString (header r b)
  end.

Definition _ggc_redirect_is_google (location : string) : option bool :=
  if negb (nonempty location) then Some false
  else r ← urlsplit location;
       let host := lower (hostname r) in
       if negb (nonempty host) then Some false
       else Some (String.eqb host "googlevideo.com" || endswith ".googlevideo.com" host || String.eqb host "google.com" || endswith ".google.com" host).

Definition _googlevideo_follow_request (req : CurlProbeRequest) (location : string) : option (option CurlProbeRequest) :=
  if negb (nonempty location) || negb (contains "googlevideo.com" (lower location)) then Some None
  else
    let target := if startswith "http" location then location else "https://" +:+ location in
    r ← urlsplit target;
    let host := lower (hostname r) in
    Some (if contains "googlevideo" host
          then Some (Req (domain req) (timeout req) (resolved_ip req) (Some host) (Some target) (disable_ech req)
                         true false false false false (protocol req))
          else None).

Definition _location_is_blockpage (location : string) : option bool :=
  let raw := strip location in
  if negb (nonempty raw) then Some false
  else
    let raw := if negb (contains "://" raw) && negb (startswith "//" raw)
               then "https://x" +:+ (if startswith "/" raw then raw else "/" +:+ raw) else raw in
    r ← urlsplit raw;
    let path := lower (path_of r) in
    Some (contains "blockpage" path || existsb (fun seg => nonempty seg && bool_decide (seg ∈ _BLOCK_PATH_TOKENS)) (split_char "/" path)).

Definition _block_redirect_err (status : Z) (location : string) : option (option string) :=
  if negb (bool_decide (status ∈ REDIRECTS)) then Some None
  else b ← _location_is_blockpage location;
       Some (if (b : bool) then Some ("blockpage redirect " +:+ str_of_Z status +:+ " to " +:+ stake 80 location) else None).

(** The rate is fast enough, it is throttled, the rate. *)
Definition _classify_throughput (clen : Z) (elapsed : float) (small_body_ok : bool) : bool * bool * float :=
  let rate := fdiv (f_of_Z clen) (fmax elapsed (f_lit 1 1000)) in
  if small_body_ok then (true, false, rate)
  else if flt rate MIN_READ_RATE_BPS && fle _HANDSHAKE_BUDGET_SEC elapsed then (false, false, rate)
  else if clen <? _THROTTLE_MIN_BODY then (true, false, rate)
  else if flt rate MIN_READ_RATE_BPS then (false, false, rate)
  else (true, flt rate THROTTLED_MAX_BPS, rate).

Definition _stub_body_err (req : CurlProbeRequest) (resp : response) (clen : Z) : option string :=
  if (status_code resp =? 304) && negb (googlevideo req) then Some "http 304 without conditional request (likely stub)"
  else if (googlevideo req || ytcdn req || ggc req) && (status_code resp =? 200) then
    let ctype := lower (default EmptyString (header resp "Content-Type")) in
    if contains "html" ctype || (negb (nonempty ctype) && (clen <? 300)) then Some "text/html or empty content on binary-API probe" else None
  else None.

Definition ms (elapsed : float) : float := fmul elapsed (f_of_Z 1000).
Definition _resp_fail (resp : response) (elapsed : float) (clen : Z) (rate : float) (err : string) : CurlProbeResult :=
  Res EmptyString false (status_code resp) (ms elapsed) clen false false rate (Some err).

Definition any_in (l : list string) (s : string) : bool := existsb (fun p => contains p s) l.

Definition _classify_google_cdn (req : CurlProbeRequest) (resp : response) (clen : Z) (elapsed : float) (loc server_hdr : string)
    : option (option CurlProbeResult) :=
  if negb (ggc req || ytcdn req) then Some None
  else
    let rate := fdiv (f_of_Z clen) elapsed in
    let google_server := any_in _GOOGLE_SERVER_HINTS (lower server_hdr) in
    away ← (if ggc req && bool_decide (status_code resp ∈ REDIRECTS) then negb <$> _ggc_redirect_is_google loc else Some false);
    Some (Some (
      if (away : bool) then _resp_fail resp elapsed clen rate ("tspu redirect to " +:+ stake 80 loc)
      else if negb google_server then _resp_fail resp elapsed clen rate ("non-google server header: " +:+ repr_str (stake 40 server_hdr))
      else let '(_, thr, rate) := _classify_throughput clen elapsed (clen <? 300) in
           Res EmptyString true (status_code resp) (ms elapsed) clen (300 <=? clen) thr rate None)).

Definition status_ok (proto : string) (status : Z) : bool :=
  ((200 <=? status) && (status <? 400)) || (negb (String.eqb proto "http") && bool_decide (status ∈ _TLS_BYPASS_PROOF_STATUSES)).

Definition _classify_generic (req : CurlProbeRequest) (resp : response) (elapsed : float) (clen : Z) (loc : string) (redirect_err : option string)
    : option CurlProbeResult :=
  let rate := fdiv (f_of_Z clen) elapsed in
  let status := status_code resp in
  match redirect_err with
  | Some err => Some (_resp_fail resp elapsed clen rate err)
  | None =>
      block ← _block_redirect_err status loc;
      match block with
      | Some err => Some (_resp_fail resp elapsed clen rate err)
      | None =>
          if status =? 400 then Some (_resp_fail resp elapsed clen rate "http 400 (likely fake packets received)")
          else
            let dpi_fake := any_in DPI_FAKE_PATTERNS (lower (stake 4096 (content resp))) in
            let ok := (300 <=? clen) && negb dpi_fake in
            match _stub_body_err req resp clen with
            | Some err => Some (_resp_fail resp elapsed clen rate err)
            | None =>
                let small_206 := (status =? 206) && (clen <? 300) && negb (googlevideo req) in
                let tls_proof := negb (String.eqb (protocol req) "http") && bool_decide (status ∈ _TLS_BYPASS_PROOF_STATUSES) in
                let small := negb dpi_fake && (bool_decide (status ∈ CURL_SMALL_BODY) || small_206 || tls_proof) in
                let '(succ, thr, rate) :=
                  if status_ok (protocol req) status && (ok || small) && negb dpi_fake then _classify_throughput clen elapsed small
                  else (false, false, rate) in
                Some (Res EmptyString succ status (ms elapsed) clen ok thr rate None)
            end
      end
  end.

(** ** Running a probe *)

(** The options of a session, and how a request ends. *)
Record session : Type := Session {
  s_impersonate : string; s_http1 : bool; s_headers : list (string * string); s_ipv4_only : bool; s_resolve : option string; s_ech_off : bool
}.
Inductive got : Type :=
  | GetRequestFails (msg : string) (elapsed : float)
  | GetFails (msg : string)
  | Got (r : response) (elapsed : float).

Section Probe.
Context {W : Type}.
Context (get : session -> CurlProbeRequest -> string -> float -> option string -> W -> got * W).  (* URL, timeout, proxy *)
Context (env_impersonate socks5_proxy : string) (range_size : Z).
Context (url_error : string).                                (* text of a [ValueError] of [urllib.parse] *)

Definition name_of (req : CurlProbeRequest) : string :=
  before "/" (match resolve_name req with Some n => if nonempty n then n else domain req | None => domain req end).
Definition range_header (size : Z) : string := "bytes=0-" +:+ str_of_Z (size - 1).
Definition googlevideo_range_header : string := range_header range_size.

Definition _open_curl_session (req : CurlProbeRequest) : session :=
  let is_http := String.eqb (protocol req) "http" in
  Session (impersonate_target env_impersonate) is_http
    (("Accept", "text/html") ::
     (if googlevideo req
      then [("Range", if ggc req then range_header GGC_RANGE_SIZE else googlevideo_range_header);
            ("Referer", "https://www.youtube.com/"); ("Origin", "https://www.youtube.com")] else []))
    (googlevideo req)
    (match resolved_ip req with
     | Some ip => if nonempty ip then Some (name_of req +:+ ":" +:+ (if is_http then "80" else "443") +:+ ":" +:+ ip) else None
     | None => None
     end)
    (disable_ech req || googlevideo req).

(** [s.replace("socks5://", "socks5h://")] *)
Definition _curl_proxy_kwargs (req : CurlProbeRequest) : option string :=
  if (googlevideo req || ytcdn_proxy req) && nonempty socks5_proxy
  then Some (join "socks5h://" (split_str "socks5://" socks5_proxy)) else None.

Definition _session_get (s : session) (req : CurlProbeRequest) : W -> got * W :=
  let url := match curl_url req with
             | Some u => if nonempty u then u else (if String.eqb (protocol req) "http" then "http" else "https") +:+ "://" +:+ domain req
             | None => (if String.eqb (protocol req) "http" then "http" else "https") +:+ "://" +:+ domain req
             end in
  get s req url (if googlevideo req then fmin (timeout req) (f_of_Z 8) else timeout req) (_curl_proxy_kwargs req).

Definition _finish_probe (req : CurlProbeRequest) (res : CurlProbeResult) : CurlProbeResult :=
  match resolve_name req with
  | Some n => if negb (nonempty (r_resolve_name res)) && nonempty n
              then Res n (success res) (http_code res) (latency_ms res) (content_len res) (content_ok res) (throttled res) (read_rate_bps res) (error res)
              else res
  | None => res
  end.

(** A [ValueError]. *)
Definition parsed {A} (o : option A) : X W A := match o with Some a => mret a | None => raise (Error url_error) end.

(** [next] probes the request of a redirect between googlevideo hosts; there is none after one hop. *)
Definition follow_of (next : option (CurlProbeRequest -> X W CurlProbeResult)) (req : CurlProbeRequest) (status : Z) (loc : string)
    (redirect_err : option string) : X W (option CurlProbeRequest) :=
  if googlevideo req && found next && bool_decide (status ∈ REDIRECTS) && negb (found redirect_err)
  then parsed (_googlevideo_follow_request req loc) else mret None.

Definition _classify_response (next : option (CurlProbeRequest -> X W CurlProbeResult)) (req : CurlProbeRequest) (resp : response) (elapsed0 : float)
    : X W CurlProbeResult :=
  let elapsed := fmax elapsed0 (f_lit 1 1000) in
  let clen := Z.of_nat (String.length (content resp)) in
  let loc := header_or "Location" "location" resp in
  let server_hdr := header_or "Server" "server" resp in
  cdn ← parsed (_classify_google_cdn req resp clen elapsed loc server_hdr);
  match cdn with
  | Some res => mret res
  | None =>
      let redirect_domain := if googlevideo req then "googlevideo.com" else lower (name_of req) in
      redirect_err ← parsed (classify_http_status redirect_domain (status_code resp) loc);
      follow ← follow_of next req (status_code resp) loc redirect_err;
      match follow, next with
      | Some f, Some next => next f
      | _, _ => parsed (_classify_generic req resp elapsed clen loc redirect_err)
      end
  end.

Definition _probe_with_session (next : option (CurlProbeRequest -> X W CurlProbeResult)) (s : session) (req : CurlProbeRequest)
    : X W CurlProbeResult := fun w =>
  let '(g, w) := _session_get s req w in
  match g with
  | GetRequestFails msg elapsed =>
      (Done (_finish_probe req (error_result (if contains "Timeout" msg then "timeout" else stake 120 msg) (ms elapsed))), w)
  | GetFails msg => (Done (_finish_probe req (error_result (stake 120 msg) (f_of_Z 0))), w)
  | Got resp elapsed => (res ← _classify_response next req resp elapsed; mret (_finish_probe req res) : X W CurlProbeResult) w
  end.

(** [run_curl_probe(req, _gv_hop=1)] and [run_curl_probe(req)]. *)
Definition run_curl_probe_hop (req : CurlProbeRequest) : X W CurlProbeResult := _probe_with_session None (_open_curl_session req) req.
Definition run_curl_probe (req : CurlProbeRequest) : X W CurlProbeResult :=
  _probe_with_session (Some run_curl_probe_hop) (_open_curl_session req) req.

(** ** Repeats *)

Definition MAX_CURL_REPEATS : Z := 10.
Definition clamp_repeats (n : Z) : Z := Z.max 1 (Z.min MAX_CURL_REPEATS n).

(** The loop over the attempts of one session: the first pass and the last result so far. *)
Fixpoint repeat_loop (n : nat) (stable quick_break : bool) (s : session) (req : CurlProbeRequest) (first_pass last0 : option CurlProbeResult)
    : X W (option CurlProbeResult * option CurlProbeResult) :=
  match n with
  | O => mret (first_pass, last0)
  | S n =>
      r ← _probe_with_session (Some run_curl_probe_hop) s req;
      if success r then
        if negb stable then mret (Some r, Some r)
        else repeat_loop n stable quick_break s req (match first_pass with Some p => Some p | None => Some r end) (Some r)
      else if quick_break then mret (first_pass, Some r)
      else repeat_loop n stable quick_break s req first_pass (Some r)
  end.

Definition chosen (first_pass last0 : option CurlProbeResult) : CurlProbeResult :=
  match first_pass with Some p => p | None => default no_result last0 end.

Definition run_sequential (repeats : Z) (stable quick_break : bool) (req : CurlProbeRequest) : X W CurlProbeResult :=
  '(first_pass, last0) ← repeat_loop (Z.to_nat (clamp_repeats repeats)) stable quick_break (_open_curl_session req) req None None;
  mret (chosen first_pass last0).
End Probe.

(** The loop over attempts that ran in threads, in the order in which they completed. An attempt that raised raises here. *)
Fixpoint completed_loop (stable : bool) (done : list (res CurlProbeResult)) (first_pass last0 : option CurlProbeResult)
    : res (option CurlProbeResult * option CurlProbeResult) :=
  match done with
  | [] => Done (first_pass, last0)
  | r :: done =>
      r ← r;
      if success r then
        if negb stable then Done (Some r, Some r)
        else completed_loop stable done (match first_pass with Some p => Some p | None => Some r end) (Some r)
      else completed_loop stable done first_pass (Some r)
  end.
Definition run_parallel (stable : bool) (done : list (res CurlProbeResult)) : res CurlProbeResult :=
  '(first_pass, last0) ← completed_loop stable done None None;
  Done (match first_pass with
        | Some p => p
        | None => default (error_result "all parallel repeats failed" (f_of_Z 0)) last0
        end).

(** The results of a batch by domain, in the order in which the requests completed. *)
Fixpoint run_curl_probe_batch (done : list (string * res CurlProbeResult)) (out : list (string * CurlProbeResult))
    : res (list (string * CurlProbeResult)) :=
  match done with
  | [] => Done out
  | (d, r) :: done => r ← r; run_curl_probe_batch done (dset d r out)
  end.

Definition repeats_from_args (repeats : Z) (parallel : bool) (mode scan_level : string) : Z * bool * string * bool :=
  let mode := if nonempty mode then mode else "fast" in
  let scan_level := if nonempty scan_level then scan_level else "fast" in
  (clamp_repeats (if repeats =? 0 then 1 else repeats), parallel, mode,
   (String.eqb scan_level "single" || String.eqb scan_level "fast") && String.eqb mode "stable").

(** [math.ceil(f)] of a finite number. *)
Definition f_ceil (f : float) : Z := let t := default 0 (f_trunc f) in if flt (f_of_Z t) f then t + 1 else t.
Definition worker_wall_timeout (probe_timeout : float) (repeats n_domains curl_parallel : Z) (parallel_repeats : bool) (settle_slack : float) : float :=
  let r := Z.max 1 repeats in
  let waves := f_ceil (fdiv (f_of_Z (Z.max 1 n_domains)) (f_of_Z (Z.max 1 curl_parallel))) in
  let per_wave := if parallel_repeats && (1 <? r) then probe_timeout else fmul probe_timeout (f_of_Z r) in
  fadd (fmul per_wave (f_of_Z waves)) (fmax (f_lit 1 2) settle_slack).

(** ** Stalls *)

Definition STALL_WINDOWS : list Z := [7 * 1024; 16 * 1024; 42 * 1024; 64 * 1024].
Definition STALL_IDLE_SEC : float := f_lit 3 2.
Definition THROTTLE_PLATEAU_BPS : float := f_of_Z 65536.
Definition STALL_MIN_TOTAL : Z := 2048.

(** The loop over the chunks: a length and the time of its arrival; an empty chunk is skipped. *)
Record stream : Type := Stream {
  total : Z; window_start : float; window_bytes : Z; peak : float; passed : list Z; last_progress : float
}.
Definition pass_windows (total : Z) (passed : list Z) : list Z :=
  foldl (fun p w => if (w <=? total) && negb (bool_decide (w ∈ p)) then (p ++ [w])%list else p) passed STALL_WINDOWS.
Definition stream_step (st : stream) (chunk : Z * float) : stream :=
  let '(n, now) := chunk in
  if n =? 0 then st else
  let total := total st + n in
  let window_bytes := window_bytes st + n in
  let window_elapsed := fsub now (window_start st) in
  let '(peak, window_start, window_bytes) :=
    if fle (f_lit 1 2) window_elapsed then (fmax (peak st) (fdiv (f_of_Z window_bytes) window_elapsed), now, 0)
    else (peak st, window_start st, window_bytes) in
  Stream total window_start window_bytes peak (pass_windows total (passed st)) now.

Record StreamTriageResult : Type := Triage {
  phase : string; tr_http_code : Z; total_bytes : Z; tr_rate : float; stall_at_bytes : option Z; stall_seconds : float;
  plateau_bps : float; tr_error : string
}.

(** [t0] is when the stream began, [t1] and [t2] the clock after it; [err] the text of a [RequestsError]. *)
Definition run_stream_triage_probe (t0 t1 t2 : float) (code : Z) (chunks : list (Z * float)) (err : option string) : StreamTriageResult :=
  let st := foldl stream_step (Stream 0 t0 0 (f_of_Z 0) [] t0) chunks in
  let err := stake 150 (default EmptyString err) in
  let rate := fdiv (f_of_Z (total st)) (fmax (fsub t1 t0) (f_lit 1 1000)) in
  let stall := fsub t2 (last_progress st) in
  let res ph at_ secs := Triage ph code (total st) rate at_ secs (peak st) err in
  if fle STALL_IDLE_SEC stall && (STALL_MIN_TOTAL <=? total st) then
    if decide (64 * 1024 ∈ passed st) then res "data_stall_64k_plus" (Some (64 * 1024)) stall
    else if decide (42 * 1024 ∈ passed st) then res "data_stall_42k" (Some (42 * 1024)) stall
    else if decide (16 * 1024 ∈ passed st) then res "data_stall_16k" (Some (16 * 1024)) stall
    else if decide (7 * 1024 ∈ passed st) then res "data_stall_7k" (Some (7 * 1024)) stall
    else res (if total st <? 7 * 1024 then "data_stall_tls_cert" else "data_stall_first_req") (Some (total st)) stall
  else if nonempty err && contains "timeout" (lower err) && (total st <? STALL_MIN_TOTAL) then res "tls_silent_drop_after_sni" None (f_of_Z 0)
  else if negb (feq (peak st) (f_of_Z 0)) && flt (peak st) THROTTLE_PLATEAU_BPS && (STALL_MIN_TOTAL <=? total st) then res "bandwidth_throttled" None (f_of_Z 0)
  else if 0 <? total st then res "pass" None (f_of_Z 0)
  else res "unknown" None (f_of_Z 0).

(** ** Fingerprints *)

Definition TLS_PROFILES : list (option string) := [Some "chrome124"; Some "firefox_120"; Some "safari_17"; None].
Definition TLS_PROFILE_CH_LEN : list (string * Z) := [("chrome124", 1740); ("firefox_120", 780); ("safari_17", 940); ("bare_curl", 260)].
Record TlsProfileResult : Type := Profiles { profile_pass : list (string * bool); client_hello_len : Z; is_fingerprint_blocked : bool }.
(** One TLS GET; [None] is any exception. *)
Definition _probe_tls_profile (status : option Z) : bool :=
  match status with Some s => bool_decide (s ∈ [200; 204; 301; 302; 307; 308]) | None => false end.
(** [ask p] is the status that profile [p] gets. *)
Definition run_tls_profile_probe (ask : option string -> option Z) : TlsProfileResult :=
  let pass := (fun p => (default "bare_curl" p, _probe_tls_profile (ask p))) <$> TLS_PROFILES in
  let ok p := default false (dget p pass) in
  let len := match find ok ["chrome124"; "safari_17"; "firefox_120"; "bare_curl"] with
             | Some p => dget_default p 0 TLS_PROFILE_CH_LEN
             | None => dget_default "chrome124" 0 TLS_PROFILE_CH_LEN
             end in
  Profiles pass len (negb (ok "chrome124") && (ok "firefox_120" || ok "safari_17" || ok "bare_curl")).
