(* ===== verification/CurlSpec.v ===== *)
(** * What a curl probe proves

    The verdict of [CurlProbe] against what makes an answer genuine; the repeats of a probe, in one session or in
    threads; how often the network is asked; the phases of a stalled stream. *)

From stdpp Require Import base numbers list strings sets.
From Stdlib Require Import ZArith Lia Ascii.
From S2P Require Import Prelude PyFloat PyExn PyStr PyRe PyDict PyUrl TlsCheck CurlProbe.

#[local] Open Scope string_scope.
#[local] Open Scope Z_scope.
#[local] Set Default Proof Using "Type".

(** ** Genuine answers *)

(** The transfer did not stall: it needs a rate only when it took long or carried much. *)
Definition flows (clen : Z) (elapsed : float) : Prop :=
  let rate := fdiv (f_of_Z clen) (fmax elapsed (f_lit 1 1000)) in
  flt rate MIN_READ_RATE_BPS = false \/ (fle _HANDSHAKE_BUDGET_SEC elapsed = false /\ clen < _THROTTLE_MIN_BODY).

Lemma throughput_spec clen elapsed small :
  let '(ok, thr, _) := _classify_throughput clen elapsed small in
  (ok = true <-> small = true \/ flows clen elapsed) /\ (thr = true -> ok = true /\ small = false).
Proof.
  unfold _classify_throughput, flows. destruct small; [by split; [tauto|]|].
  destruct (flt (fdiv _ _) MIN_READ_RATE_BPS); cbn [andb].
  - destruct (fle _ elapsed); [by split; [split; [done|intros [?|[?|[? ?]]]; done]|]|].
    destruct (Z.ltb_spec clen _THROTTLE_MIN_BODY); [by split; [tauto|]|].
    split; [split; [done|intros [?|[?|[? ?]]]; [done|done|lia]]|done].
  - destruct (clen <? _); split; tauto.
Qed.

(** The statuses of a redirect, of an answer without a body, and of a TLS host that refuses the request. *)
Definition bodyless (req : CurlProbeRequest) (status : Z) : Prop :=
  status ∈ CURL_SMALL_BODY \/ (protocol req <> "http" /\ status ∈ _TLS_BYPASS_PROOF_STATUSES).

Record genuine (req : CurlProbeRequest) (resp : response) (elapsed : float) (loc : string) : Prop := {
  g_status : status_ok (protocol req) (status_code resp) = true;
  g_block : status_code resp ∈ REDIRECTS -> _location_is_blockpage loc = Some false;
  g_stub : any_in DPI_FAKE_PATTERNS (lower (stake 4096 (content resp))) = false;
  g_kind : _stub_body_err req resp (Z.of_nat (String.length (content resp))) = None;
  g_body : bodyless req (status_code resp) \/
           (300 <= Z.of_nat (String.length (content resp)) /\ flows (Z.of_nat (String.length (content resp))) elapsed)
}.

Lemma block_err_spec status loc :
  _block_redirect_err status loc = Some None <-> (status ∈ REDIRECTS -> _location_is_blockpage loc = Some false).
Proof.
  unfold _block_redirect_err. destruct (bool_decide (status ∈ REDIRECTS)) eqn:E; cbn [negb].
  - apply bool_decide_eq_true in E. destruct (_location_is_blockpage loc) as [[]|]; cbn; split; try done; intros H; by specialize (H E).
  - apply bool_decide_eq_false in E. by split.
Qed.

Lemma bodyless_spec req status :
  bool_decide (status ∈ CURL_SMALL_BODY) || (negb (String.eqb (protocol req) "http") && bool_decide (status ∈ _TLS_BYPASS_PROOF_STATUSES)) = true
  <-> bodyless req status.
Proof.
  unfold bodyless. rewrite orb_true_iff, andb_true_iff, negb_true_iff, !bool_decide_eq_true, String.eqb_neq. done.
Qed.

(** Status 206 is in the table of small bodies, so the test for a short partial answer adds nothing. *)
Lemma small_206_covered status (b c : bool) : (status =? 206) && b && c = true -> bool_decide (status ∈ CURL_SMALL_BODY) = true.
Proof. intros [[->%Z.eqb_eq _]%andb_prop _]%andb_prop. reflexivity. Qed.

Lemma classify_generic_core req resp elapsed loc r :
  _classify_generic req resp elapsed (Z.of_nat (String.length (content resp))) loc None = Some r ->
  (success r = true <-> genuine req resp elapsed loc) /\ (success r = true -> error r = None) /\
  (throttled r = true -> success r = true) /\ http_code r = status_code resp.
Proof.
  unfold _classify_generic. set (clen := Z.of_nat (String.length (content resp))). set (status := status_code resp).
  destruct (_block_redirect_err status loc) as [[err|]|] eqn:Eb; cbn [mbind option_bind]; [| |done].
  { intros [= <-]. cbn. split; [|done]. split; [done|]. intros [_ H _ _ _]. apply block_err_spec in H. fold status in H. congruence. }
  pose proof (proj1 (block_err_spec _ _) Eb) as Hblk.
  destruct (Z.eqb_spec status 400) as [E4|_].
  { intros [= <-]. cbn. split; [|done]. split; [done|]. intros [H _ _ _ _]. fold status in H. rewrite E4 in H.
    unfold status_ok in H. cbn in H. by destruct (String.eqb _ _). }
  destruct (_stub_body_err req resp clen) as [err|] eqn:Es.
  { intros [= <-]. cbn. split; [|done]. split; [done|]. intros [_ _ _ H _]. fold clen in H. congruence. }
  set (fake := any_in _ _). set (tls := negb (String.eqb (protocol req) "http") && _).
  assert (bool_decide (status ∈ CURL_SMALL_BODY) || (status =? 206) && (clen <? 300) && negb (googlevideo req) || tls
          = bool_decide (status ∈ CURL_SMALL_BODY) || tls) as ->.
  { destruct ((status =? 206) && _ && _) eqn:E; [|by rewrite orb_false_r]. apply small_206_covered in E. by rewrite E. }
  pose proof (bodyless_spec req status) as Hb. fold tls in Hb. destruct (bool_decide (status ∈ CURL_SMALL_BODY) || tls) eqn:Esm.
  - assert (bodyless req status) as Hbl by (by apply Hb).
    destruct (status_ok (protocol req) status) eqn:Eok; cbn [andb].
    2: { intros [= <-]. cbn. split; [|done]. split; [done|]. intros [H _ _ _ _]. fold status in H. congruence. }
    destruct fake eqn:Ef; cbn [negb andb orb].
    { rewrite andb_false_r. intros [= <-]. cbn. split; [|done]. split; [done|]. intros [_ _ H _ _]. fold fake in H. congruence. }
    rewrite orb_true_r. cbn [andb]. intros [= <-]. cbn. split; [|done]. split; [|done]. intros _. by constructor; try left.
  - rewrite andb_false_r, orb_false_r.
    assert (~ bodyless req status) as Hbl by (rewrite <- Hb; done).
    destruct (status_ok (protocol req) status) eqn:Eok; cbn [andb].
    2: { intros [= <-]. cbn. split; [|done]. split; [done|]. intros [H _ _ _ _]. fold status in H. congruence. }
    destruct fake eqn:Ef; cbn [negb].
    { rewrite !andb_false_r. intros [= <-]. cbn. split; [|done]. split; [done|]. intros [_ _ H _ _]. fold fake in H. congruence. }
    rewrite !andb_true_r. destruct (Z.leb_spec 300 clen) as [Hl|Hl].
    + pose proof (throughput_spec clen elapsed false) as Ht. destruct (_classify_throughput clen elapsed false) as [[ok thr] rate].
      destruct Ht as [Ht1 Ht2]. intros [= <-]. cbn. split; [|split; [done|split; [by intros H; apply Ht2|done]]]. rewrite Ht1. split.
      * intros [?|H]; [done|]. constructor; try done. by right.
      * intros [_ _ _ _ [H|[_ H]]]; [done|by right].
    + intros [= <-]. cbn. split; [|done]. split; [done|]. intros [_ _ _ _ [H|[H _]]]; [done|]. fold clen in H. lia.
Qed.

(** An answer of Google's own servers. *)
Record google_answer (req : CurlProbeRequest) (resp : response) : Prop := {
  ga_server : any_in _GOOGLE_SERVER_HINTS (lower (header_or "Server" "server" resp)) = true;
  ga_redirect : ggc req = true -> status_code resp ∈ REDIRECTS -> _ggc_redirect_is_google (header_or "Location" "location" resp) = Some true
}.

Lemma classify_google_core req resp elapsed r :
  _classify_google_cdn req resp (Z.of_nat (String.length (content resp))) elapsed
    (header_or "Location" "location" resp) (header_or "Server" "server" resp) = Some r ->
  match r with
  | None => ggc req || ytcdn req = false
  | Some r => ggc req || ytcdn req = true /\ (success r = true <-> google_answer req resp) /\ (success r = true -> error r = None) /\
              (throttled r = true -> success r = true) /\ http_code r = status_code resp
  end.
Proof.
  unfold _classify_google_cdn. destruct (ggc req || ytcdn req) eqn:Ec; cbn [negb]; [|by intros [= <-]].
  set (loc := header_or "Location" "location" resp). set (srv := header_or "Server" "server" resp).
  destruct (ggc req && bool_decide (status_code resp ∈ REDIRECTS)) eqn:Er.
  - apply andb_prop in Er as [Eg Er%bool_decide_eq_true].
    destruct (_ggc_redirect_is_google loc) as [[]|] eqn:El; cbn [fmap option_fmap option_map mbind option_bind negb]; [| |done].
    + destruct (any_in _ _) eqn:Ea; cbn [negb].
      * destruct (_classify_throughput _ _ _) as [[ok thr] rate]. intros [= <-]. cbn. repeat split; try done.
      * intros [= <-]. cbn. repeat split; try done. intros [H _]. fold srv in H. congruence.
    + intros [= <-]. cbn. repeat split; try done. intros [_ H]. fold loc in H. specialize (H Eg Er). congruence.
  - cbn [mbind option_bind]. assert (ggc req = true -> status_code resp ∈ REDIRECTS -> False) as Hno.
    { intros H1 H2. rewrite H1 in Er. cbn in Er. by apply bool_decide_eq_false in Er. }
    destruct (any_in _ _) eqn:Ea; cbn [negb].
    + destruct (_classify_throughput _ _ _) as [[ok thr] rate]. intros [= <-]. cbn. repeat split; try done.
      intros H1 H2. by destruct (Hno H1 H2).
    + intros [= <-]. cbn. repeat split; try done. intros [H _]. fold srv in H. congruence.
Qed.

(** What the answer to a request has to be for a pass. *)
Definition site_of (req : CurlProbeRequest) : string := if googlevideo req then "googlevideo.com" else lower (name_of req).
Definition passes (req : CurlProbeRequest) (resp : response) (elapsed : float) : Prop :=
  if ggc req || ytcdn req then google_answer req resp
  else stays (site_of req) (status_code resp) (header_or "Location" "location" resp) /\
       genuine req resp (fmax elapsed (f_lit 1 1000)) (header_or "Location" "location" resp).

(** A googlevideo host answers with a redirect to another one: [f] is the request that follows it. *)
Definition target_of (loc : string) : string := if startswith "http" loc then loc else "https://" +:+ loc.
Record leads (req : CurlProbeRequest) (resp : response) (f : CurlProbeRequest) : Prop := {
  l_kind : ggc req || ytcdn req = false;
  l_video : googlevideo req = true;
  l_status : status_code resp ∈ REDIRECTS;
  l_stays : stays "googlevideo.com" (status_code resp) (header_or "Location" "location" resp);
  l_named : contains "googlevideo.com" (lower (header_or "Location" "location" resp)) = true;
  l_target : exists u, urlsplit (target_of (header_or "Location" "location" resp)) = Some u /\
    contains "googlevideo" (lower (hostname u)) = true /\
    f = Req (domain req) (timeout req) (resolved_ip req) (Some (lower (hostname u))) (Some (target_of (header_or "Location" "location" resp)))
            (disable_ech req) true false false false false (protocol req)
}.

Lemma follow_request_spec req loc f :
  _googlevideo_follow_request req loc = Some (Some f) <->
  contains "googlevideo.com" (lower loc) = true /\ exists u, urlsplit (target_of loc) = Some u /\
    contains "googlevideo" (lower (hostname u)) = true /\
    f = Req (domain req) (timeout req) (resolved_ip req) (Some (lower (hostname u))) (Some (target_of loc))
            (disable_ech req) true false false false false (protocol req).
Proof.
  unfold _googlevideo_follow_request, target_of. destruct loc as [|c loc]; [by split; [|intros [? _]]|]. cbn [nonempty negb orb].
  destruct (contains "googlevideo.com" _); cbn [negb]; [|by split; [|intros [? _]]].
  destruct (urlsplit _) as [u|]; cbn [mbind option_bind]; [|split; [done|by intros (_ & u & [=] & _)]].
  destruct (contains "googlevideo" _) eqn:E; split; try done.
  - intros [= <-]. split; [done|]. by exists u.
  - intros (_ & u' & [= <-] & _ & ->). done.
  - intros (_ & u' & [= <-] & H & _). congruence.
Qed.

(** The shape of a result that was read off an answer. *)
Definition coherent (r : CurlProbeResult) : Prop :=
  (success r = true -> error r = None) /\ (throttled r = true -> success r = true).

Section Run.
Context {W : Type} (get : session -> CurlProbeRequest -> string -> float -> option string -> W -> got * W).
Context (env_impersonate socks5_proxy url_error : string) (range_size : Z).

Notation probe_hop := (run_curl_probe_hop get env_impersonate socks5_proxy range_size url_error).
Notation probe := (run_curl_probe get env_impersonate socks5_proxy range_size url_error).
Notation with_session := (_probe_with_session get socks5_proxy url_error).
Notation open_session := (_open_curl_session env_impersonate range_size).
Notation classify := (_classify_response url_error).

Lemma wp_parsed {A} (o : option A) (Q : res A -> W -> Prop) w :
  (forall a, o = Some a -> Q (Done a) w) -> (o = None -> Q (Exn (Error url_error)) w) -> wp (parsed url_error o) Q w.
Proof. intros H1 H2. destruct o as [a|]; [apply wp_ret|apply wp_raise]; auto. Qed.

(** Nothing is followed. *)
Definition final {A} (next : option A) (req : CurlProbeRequest) (resp : response) : Prop := next = None \/ forall f, ~ leads req resp f.

(** Redirects that are followed are those between googlevideo hosts; everything else is the verdict on this answer. *)
Lemma classify_core next req resp elapsed (Q : res CurlProbeResult -> W -> Prop) w :
  (forall r, final next req resp -> (success r = true <-> passes req resp elapsed) -> coherent r -> Q (Done r) w) ->
  (final next req resp -> Q (Exn (Error url_error)) w) ->
  (forall n f, next = Some n -> leads req resp f -> wp (n f) Q w) ->
  wp (classify next req resp elapsed) Q w.
Proof.
  intros Hd He Hn. unfold _classify_response. set (loc := header_or "Location" "location" resp) in *.
  apply wp_bind, wp_parsed; [intros cdn Ecdn; apply classify_google_core in Ecdn; destruct cdn as [r|]|].
  { destruct Ecdn as (Ec & H1 & H2 & H3 & _). apply wp_ret, Hd; [right; intros f []; congruence|unfold passes; by rewrite Ec|by split]. }
  2:{ intros Ecdn. apply He. right. intros f []. unfold _classify_google_cdn in Ecdn. by rewrite l_kind0 in Ecdn. }
  fold (site_of req). pose proof (suspicious_spec (site_of req) (status_code resp) loc) as Hs.
  assert (Site : forall f, leads req resp f -> stays (site_of req) (status_code resp) loc)
    by (intros f []; unfold site_of; by rewrite l_video0).
  apply wp_bind, wp_parsed; unfold classify_http_status; destruct (is_suspicious_redirect _ _ _) as [s|]; cbn [mbind option_bind]; [| |done|].
  2,3: intros E; try done; apply He; right; intros f Hf; by apply Site, Hs in Hf.
  intros redirect_err [= Er]. apply wp_bind.
  assert (Hg : final next req resp ->
    wp (parsed url_error (_classify_generic req resp (fmax elapsed (f_lit 1 1000)) (Z.of_nat (String.length (content resp))) loc redirect_err)) Q w).
  { intros Hf. apply wp_parsed; [|by intros _; apply He]. intros r Eg. unfold passes in *. rewrite Ecdn in *.
    destruct redirect_err as [err|].
    - cbn in Eg. injection Eg as <-. apply Hd; [done| |done]. cbn. split; [done|]. intros [H1 H2]. exfalso. destruct s.
      + apply Hs in H1. done.
      + destruct (Z.eqb_spec (status_code resp) 400) as [E4|]; [|done]. destruct H2 as [H2 _ _ _ _]. rewrite E4 in H2.
        unfold status_ok in H2. cbn in H2. by destruct (String.eqb _ _).
    - destruct s; [done|]. apply classify_generic_core in Eg as (H1 & H2 & H3 & _). apply Hd; [done| |by split].
      rewrite H1. assert (stays (site_of req) (status_code resp) loc) by (by apply Hs). fold loc. tauto. }
  unfold follow_of. destruct (googlevideo req && found next && bool_decide (status_code resp ∈ REDIRECTS) && negb (found redirect_err)) eqn:Ef.
  - apply andb_prop in Ef as [[[Egv _]%andb_prop Hst%bool_decide_eq_true]%andb_prop Hre]. pose proof (follow_request_spec req loc) as Hsp.
    apply wp_parsed.
    + intros [f|] Ef'; [destruct next as [n|]|]; [|by apply Hg; left|].
      * apply (Hn n f eq_refl). apply Hsp in Ef' as [Hc Ht]. split; try done.
        assert (stays (site_of req) (status_code resp) loc) as Hst'; [|unfold site_of in Hst'; by rewrite Egv in Hst'].
        apply Hs. destruct s; [by rewrite <- Er in Hre|done].
      * destruct next; apply Hg; right; intros f []; assert (Some None = Some (Some f)) by (rewrite <- Ef'; apply Hsp; done); done.
    + intros Ef'. apply He. right. intros f []. assert (None = Some (Some f)) by (rewrite <- Ef'; apply Hsp; done). done.
  - apply wp_ret. assert (final next req resp) as Hf; [|by apply Hg in Hf; destruct next]. destruct next; [right|by left].
    intros f Hf. pose proof (Site f Hf) as Hsf. apply Hs in Hsf. injection Hsf as ->. destruct Hf. rewrite l_video0 in Ef.
    rewrite bool_decide_true in Ef by done. cbn in Ef. destruct (Z.eqb_spec (status_code resp) 400) as [E4|]; [|by subst redirect_err].
    assert (bool_decide (400 ∈ REDIRECTS) = false) as N%bool_decide_eq_false by done. by rewrite <- E4 in N.
Qed.

Lemma finish_same req r :
  success (_finish_probe req r) = success r /\ error (_finish_probe req r) = error r /\ throttled (_finish_probe req r) = throttled r.
Proof. unfold _finish_probe. destruct (resolve_name req) as [n|]; [|done]. by destruct (_ && _). Qed.
Lemma finish_coherent req r : coherent r -> coherent (_finish_probe req r).
Proof. unfold coherent. destruct (finish_same req r) as (-> & -> & ->). done. Qed.

(** The network gave this answer to this request at some time. *)
Definition answered (req : CurlProbeRequest) (resp : response) (elapsed : float) : Prop :=
  exists s url t p w, (get s req url t p w).1 = Got resp elapsed.

(** A pass of [req] rests on an answer to it, or to the request that one of its redirects asked for. *)
Definition backed (req : CurlProbeRequest) (r : CurlProbeResult) : Prop :=
  success r = true -> exists req' resp elapsed,
    answered req' resp elapsed /\ passes req' resp elapsed /\
    (req' = req \/ (googlevideo req = true /\ googlevideo req' = true /\ domain req' = domain req /\
                   exists h, resolve_name req' = Some h /\ contains "googlevideo" h = true)).

Definition attempt_ok (req : CurlProbeRequest) (r : res CurlProbeResult) (_ : W) : Prop :=
  match r with Done r => backed req r /\ coherent r | Exn e => e = Error url_error | Off => False end.

Lemma leads_facts req resp f : leads req resp f ->
  googlevideo req = true /\ googlevideo f = true /\ domain f = domain req /\ exists h, resolve_name f = Some h /\ contains "googlevideo" h = true.
Proof. intros [_ ? _ _ _ (u & _ & H & ->)]. repeat split; try done. by exists (lower (hostname u)). Qed.

Lemma attempt_core next s req w :
  (forall n f w, next = Some n -> googlevideo f = true -> wp (n f) (fun r w => attempt_ok f r w /\
     match r with Done r => success r = true -> exists resp elapsed, answered f resp elapsed /\ passes f resp elapsed | _ => True end) w) ->
  wp (with_session next s req) (attempt_ok req) w.
Proof.
  intros Hn. unfold wp at 1, _probe_with_session. destruct (_session_get get socks5_proxy s req w) as [g w1] eqn:Eg.
  assert (forall msg l, attempt_ok req (Done (_finish_probe req (error_result msg l))) w1) as Herr.
  { intros msg l. cbn. unfold backed. destruct (finish_same req (error_result msg l)) as (-> & _). split; [done|].
    by apply finish_coherent. }
  destruct g as [msg e|msg|resp elapsed]; [apply Herr|apply Herr|].
  change (wp (res ← classify next req resp elapsed; mret (_finish_probe req res) : X W CurlProbeResult) (attempt_ok req) w1).
  apply wp_bind, classify_core.
  - intros r _ H1 H2. apply wp_ret. cbn. split; [|by apply finish_coherent]. unfold backed. destruct (finish_same req r) as (-> & _).
    intros Hs. exists req, resp, elapsed. split; [|split; [by apply H1|by left]].
    unfold _session_get in Eg. eexists _, _, _, _, w. by rewrite Eg.
  - done.
  - intros n f Hnx Hf. apply leads_facts in Hf as (Hgv & Hf1 & Hf2 & Hf3). eapply wp_mono; [by apply (Hn n)|].
    intros [r|e|] w2 [H1 H2]; [|done|done]. apply wp_ret. destruct H1 as [_ Hc]. split; [|by apply finish_coherent].
    unfold backed. destruct (finish_same req r) as (-> & _). intros Hs. destruct (H2 Hs) as (resp' & el & Ha & Hp).
    exists f, resp', el. split; [done|]. split; [done|]. right. tauto.
Qed.

(** What a probe answers when the network answers [g] and nothing is followed. *)
Definition verdict (req : CurlProbeRequest) (g : got) (r : res CurlProbeResult) : Prop :=
  match g with
  | Got resp elapsed =>
      match r with
      | Done r => (success r = true <-> passes req resp elapsed) /\ coherent r
      | Exn e => e = Error url_error
      | Off => False
      end
  | _ => exists r', r = Done r' /\ success r' = false /\ is_Some (error r')
  end.

Lemma verdict_finish req req' g r : verdict req g (Done r) -> verdict req g (Done (_finish_probe req' r)).
Proof.
  destruct (finish_same req' r) as (Hs & He & _). destruct g; cbn.
  1,2: intros (r' & [= <-] & H1 & H2); eexists; rewrite Hs, He; by split.
  intros [H1 H2]. rewrite Hs. split; [done|by apply finish_coherent].
Qed.

Lemma error_verdict req g msg l : match g with Got _ _ => False | _ => True end -> verdict req g (Done (_finish_probe req (error_result msg l))).
Proof. destruct g; [| |done]; intros _; apply verdict_finish; eexists; (split; [done|]); (split; [done|by eexists]). Qed.

Lemma session_verdict next s req w (Q : res CurlProbeResult -> W -> Prop) :
  let '(g, w1) := _session_get get socks5_proxy s req w in
  (forall r, match g with Got resp _ => final next req resp | _ => True end -> verdict req g r -> Q r w1) ->
  (forall n f resp elapsed, next = Some n -> g = Got resp elapsed -> leads req resp f ->
   wp (n f) (fun r w' => match r with Done r => Q (Done (_finish_probe req r)) w' | _ => Q r w' end) w1) ->
  wp (with_session next s req) Q w.
Proof.
  unfold wp at 2, _probe_with_session. destruct (_session_get get socks5_proxy s req w) as [g w1]. intros H1 H2.
  destruct g as [msg e|msg|resp elapsed]; [by apply H1, error_verdict..|].
  change (wp (res ← classify next req resp elapsed; mret (_finish_probe req res) : X W CurlProbeResult) Q w1).
  apply wp_bind, classify_core.
  - intros r Hf H3 H4. apply wp_ret, H1; [done|]. by apply verdict_finish.
  - intros Hf. by apply H1.
  - intros n f Hn Hf. eapply wp_mono; [exact (H2 n f resp elapsed Hn eq_refl Hf)|]. intros [r|e|] w2 Hr; done.
Qed.

(** Without a redirect to follow the verdict is exact. *)
Lemma hop_core s req w :
  wp (with_session None s req) (fun r w' => let '(g, w1) := _session_get get socks5_proxy s req w in w' = w1 /\ verdict req g r) w.
Proof.
  pose proof (session_verdict None s req w (fun r w' => let '(g, w1) := _session_get get socks5_proxy s req w in w' = w1 /\ verdict req g r)) as H.
  destruct (_session_get get socks5_proxy s req w) as [g w1]. apply H; [by split|done].
Qed.

Lemma hop_attempt req w :
  wp (probe_hop req) (fun r w => attempt_ok req r w /\
     match r with Done r => success r = true -> exists resp elapsed, answered req resp elapsed /\ passes req resp elapsed | _ => True end) w.
Proof.
  unfold run_curl_probe_hop. eapply wp_and; [apply attempt_core; by intros|apply hop_core|].
  intros r w' [H1 H2]. split; [done|]. destruct r as [r|e|]; [|done|done]. intros Hs.
  destruct (_session_get get socks5_proxy _ req w) as [g w1] eqn:E. destruct H2 as [_ H2]. destruct g as [msg el|msg|resp elapsed].
  - destruct H2 as (r' & [= <-] & H & _). congruence.
  - destruct H2 as (r' & [= <-] & H & _). congruence.
  - destruct H2 as [H _]. exists resp, elapsed. split; [|by apply H]. unfold _session_get in E. eexists _, _, _, _, w. by rewrite E.
Qed.

Lemma probe_attempt s req w : wp (with_session (Some probe_hop) s req) (attempt_ok req) w.
Proof. apply attempt_core. intros n f w' [= <-] _. apply hop_attempt. Qed.


(** ** Repeats *)

(** Attempts in one session, one after the other. *)
Fixpoint attempts (n : nat) (s : session) (req : CurlProbeRequest) : X W (list CurlProbeResult) :=
  match n with
  | O => mret []
  | S n => r ← with_session (Some probe_hop) s req; l ← attempts n s req; mret (r :: l)
  end.

Notation loop := (repeat_loop get env_impersonate socks5_proxy range_size url_error).
Notation run_repeats := (run_sequential get env_impersonate socks5_proxy range_size url_error).

Definition last_or (l0 : option CurlProbeResult) (l : list CurlProbeResult) : option CurlProbeResult :=
  match last l with Some r => Some r | None => l0 end.
Lemma last_or_cons l0 r l : last_or l0 (r :: l) = last_or (Some r) l.
Proof. unfold last_or. rewrite last_cons. by destruct (last l). Qed.

Lemma attempts_S n s req w l w' :
  attempts (S n) s req w = (Done l, w') ->
  exists r l' w1, with_session (Some probe_hop) s req w = (Done r, w1) /\ attempts n s req w1 = (Done l', w') /\ l = r :: l'.
Proof.
  cbn [attempts]. unfold mbind, X_bind. destruct (_probe_with_session _ _ _ _ s req w) as [[r|e|] w1]; [|done|done].
  destruct (attempts n s req w1) as [[l'|e|] w2] eqn:E; [|done|done]. intros [= <- <-]. by exists r, l', w1.
Qed.

Lemma loop_stable n s req : forall w fp l0 l w', attempts n s req w = (Done l, w') ->
  loop n true false s req fp l0 w = (Done (match fp with Some p => Some p | None => find success l end, last_or l0 l), w').
Proof.
  induction n as [|n IH]; intros w fp l0 l w' E.
  { injection E as <- <-. cbn. by destruct fp. }
  apply attempts_S in E as (r & l' & w1 & E1 & E2 & ->). cbn [repeat_loop]. unfold mbind at 1, X_bind at 1. rewrite E1, last_or_cons.
  destruct (success r) eqn:Es; cbn [negb]; rewrite (IH _ _ _ _ _ E2); cbn [find]; rewrite Es; [by destruct fp|done].
Qed.

Lemma loop_fast n s req : forall w l0 l w', attempts n s req w = (Done l, w') ->
  exists w1 lst, loop n false false s req None l0 w = (Done (find success l, lst), w1) /\
                 (find success l = None -> lst = last_or l0 l).
Proof.
  induction n as [|n IH]; intros w l0 l w' E.
  { injection E as <- <-. by exists w, l0. }
  apply attempts_S in E as (r & l' & w1 & E1 & E2 & ->). cbn [repeat_loop]. unfold mbind at 1, X_bind at 1. rewrite E1, last_or_cons.
  cbn [find]. destruct (success r) eqn:Es; cbn [negb]; [by exists w1, (Some r)|]. apply IH with (1 := E2).
Qed.

(** Stopping at the first failure. *)
Lemma loop_break n s req : forall w fp l0 r l w', attempts (S n) s req w = (Done (r :: l), w') ->
  exists w1 fp' lst, loop (S n) true true s req fp l0 w = (Done (fp', lst), w1) /\
     match fp with
     | Some p => fp' = Some p
     | None => if success r then fp' = Some r else fp' = None /\ lst = Some r
     end.
Proof.
  induction n as [|n IH]; intros w fp l0 r l w' E; apply attempts_S in E as (r' & l' & w1 & E1 & E2 & [= <- <-]).
  - cbn [repeat_loop]. unfold mbind at 1, X_bind at 1. rewrite E1. destruct (success r); cbn [negb].
    + exists w1, (match fp with Some p => Some p | None => Some r end), (Some r). split; [done|]. by destruct fp.
    + exists w1, fp, (Some r). split; [done|]. by destruct fp.
  - rename l into l2. destruct l2 as [|r2 l3].
    { apply attempts_S in E2 as (? & ? & ? & _ & _ & ?). done. }
    remember (S n) as m. cbn [repeat_loop]. unfold mbind at 1, X_bind at 1. rewrite E1. destruct (success r) eqn:Es; cbn [negb].
    + destruct (IH w1 (match fp with Some p => Some p | None => Some r end) (Some r) r2 l3 w' E2) as (w2 & fp' & lst & H1 & H2).
      exists w2, fp', lst. split; [done|]. by destruct fp.
    + exists w1, fp, (Some r). split; [done|]. by destruct fp.
Qed.

Lemma loop_quick stable n s req w l0 r l w' : attempts (S n) s req w = (Done (r :: l), w') ->
  exists w1 fp lst, loop (S n) stable true s req None l0 w = (Done (fp, lst), w1) /\ chosen fp lst = r.
Proof.
  intros E. destruct stable.
  - destruct (loop_break n s req w None l0 r l w' E) as (w1 & fp & lst & -> & H). exists w1, fp, lst. split; [done|].
    destruct (success r); [by subst fp|by destruct H as [-> ->]].
  - apply attempts_S in E as (r1 & l1 & w1 & E1 & _ & [= <- <-]). cbn [repeat_loop]. unfold mbind at 1, X_bind at 1. rewrite E1.
    destruct (success r) eqn:Es; cbn [negb]; by eexists w1, _, _.
Qed.

Lemma chosen_success l : success (chosen (find success l) (last l)) = existsb success l.
Proof.
  unfold chosen. destruct (find success l) as [p|] eqn:E.
  - apply find_some in E as [E1 E2]. rewrite E2. symmetry. apply existsb_exists. by exists p.
  - assert (existsb success l = false) as Hx.
    { apply not_true_is_false. intros (x & H1 & H2)%existsb_exists. rewrite (find_none _ _ E x H1) in H2. done. }
    rewrite Hx. destruct (last l) as [r|] eqn:El; [|done]. cbn. apply (find_none _ _ E).
    apply list_elem_of_In, last_Some_elem_of, El.
Qed.

(** In threads. *)
Lemma completed_loop_spec stable l : forall fp l0, exists lst,
  completed_loop stable (Done <$> l) fp l0 =
    Done (if stable then match fp with Some p => Some p | None => find success l end
          else match find success l with Some p => Some p | None => fp end, lst) /\
  ((if stable then fp = None else True) -> find success l = None -> lst = last_or l0 l).
Proof.
  induction l as [|r l IH]; intros fp l0.
  { exists l0. split; [|done]. cbn. destruct stable; [by destruct fp|done]. }
  rewrite fmap_cons. cbn [completed_loop mbind res_bind find]. destruct (success r) eqn:Es.
  - destruct stable; cbn [negb].
    + destruct (IH (match fp with Some p => Some p | None => Some r end) (Some r)) as (lst & H & _). exists lst. rewrite H. split; [|done].
      by destruct fp.
    + exists (Some r). by split.
  - destruct (IH fp (Some r)) as (lst & H1 & H2). exists lst. split; [done|]. rewrite last_or_cons. done.
Qed.

Lemma existsb_perm (l l' : list CurlProbeResult) : l ≡ₚ l' -> existsb success l = existsb success l'.
Proof. induction 1; cbn; [done|by rewrite IHPermutation|by rewrite !orb_assoc, (orb_comm (success x))|congruence]. Qed.

Lemma last_none_nil {A} (l : list A) : last l = None -> l = [].
Proof. by rewrite last_None. Qed.

Lemma run_parallel_core stable l : l <> [] -> exists r, run_parallel stable (Done <$> l) = Done r /\ r ∈ l /\ success r = existsb success l.
Proof.
  intros Hl. unfold run_parallel. destruct (completed_loop_spec stable l None None) as (lst & -> & H). cbn [mbind res_bind].
  assert ((if stable then find success l else match find success l with Some p => Some p | None => None end) = find success l) as Hfs
    by (destruct stable; [done|by destruct (find success l)]).
  rewrite Hfs. pose proof (chosen_success l) as Hc. unfold chosen in Hc. destruct (find success l) as [p|] eqn:E.
  - exists p. split; [done|]. split; [|done]. apply find_some in E as [E _]. by apply list_elem_of_In.
  - rewrite H by (by destruct stable). unfold last_or. destruct (last l) as [r|] eqn:El; [|by apply last_none_nil in El].
    exists r. split; [done|]. split; [by apply last_Some_elem_of|done].
Qed.


(** At the scan levels single and fast, a stable run stops at its first failure: its verdict is that of the first attempt. *)
Theorem stable_is_first_attempt repeats req w r l w' :
  attempts (Z.to_nat (clamp_repeats repeats)) (open_session req) req w = (Done (r :: l), w') ->
  exists w1 r', run_repeats repeats true true req w = (Done r', w1) /\ success r' = success r.
Proof.
  intros E. unfold run_sequential, mbind, X_bind.
  assert (exists n, Z.to_nat (clamp_repeats repeats) = S n) as [n En]
    by (exists (Nat.pred (Z.to_nat (clamp_repeats repeats))); unfold clamp_repeats, MAX_CURL_REPEATS; lia).
  rewrite En in *. destruct (loop_break n _ _ _ None None _ _ _ E) as (w1 & fp & lst & -> & H).
  destruct (success r) eqn:Es; [subst fp; by eexists _, _|]. destruct H as [-> ->]. by eexists _, _.
Qed.

(** ** How often the network is asked *)

Lemma probe_count (cnt : W -> nat) : (forall s req u t p w, (cnt (get s req u t p w).2 <= S (cnt w))%nat) ->
  forall next k s req w, (forall n f w, next = Some n -> (cnt (n f w).2 <= k + cnt w)%nat) ->
  (cnt (with_session next s req w).2 <= S (match next with Some _ => k | None => 0 end + cnt w))%nat.
Proof.
  intros Hg next k s req w Hn. unfold _probe_with_session.
  pose proof (Hg s req (match curl_url req with
             | Some u => if nonempty u then u else (if String.eqb (protocol req) "http" then "http" else "https") +:+ "://" +:+ domain req
             | None => (if String.eqb (protocol req) "http" then "http" else "https") +:+ "://" +:+ domain req
             end) (if googlevideo req then fmin (timeout req) (f_of_Z 8) else timeout req) (_curl_proxy_kwargs socks5_proxy req) w) as H0.
  unfold _session_get. destruct (get _ _ _ _ _ w) as [g w1]. cbn [snd] in H0. destruct g as [msg e|msg|resp elapsed]; cbn [snd]; [lia|lia|].
  assert (wp (res ← classify next req resp elapsed; mret (_finish_probe req res) : X W CurlProbeResult)
            (fun _ w' => (cnt w' <= match next with Some _ => k | None => 0 end + cnt w1)%nat) w1) as Hw.
  { apply wp_bind, classify_core.
    - intros r _ _ _. apply wp_ret. lia.
    - lia.
    - intros n f Hnx _. subst next. specialize (Hn n f w1 eq_refl). unfold wp. destruct (n f w1) as [[r|e|] w2]; cbn in *; lia. }
  unfold wp in Hw. destruct ((res ← classify next req resp elapsed; mret (_finish_probe req res) : X W CurlProbeResult) w1) as [r w2].
  cbn. lia.
Qed.

(** A probe asks the network once, or twice when it follows a redirect; repeats ask it at most twice per attempt, so at
    most twenty times, whatever the number of repeats and the answers are. *)
Theorem requests_bounded (cnt : W -> nat) repeats stable quick_break req w :
  (forall s req u t p w, (cnt (get s req u t p w).2 <= S (cnt w))%nat) ->
  (cnt (probe req w).2 <= 2 + cnt w)%nat /\
  (cnt (run_repeats repeats stable quick_break req w).2 <= 2 * Z.to_nat (clamp_repeats repeats) + cnt w)%nat /\
  (Z.to_nat (clamp_repeats repeats) <= 10)%nat.
Proof.
  intros Hg.
  assert (forall s req w, (cnt (with_session (Some probe_hop) s req w).2 <= 2 + cnt w)%nat) as H2.
  { intros s r w1. apply (probe_count cnt Hg (Some probe_hop) 1). intros n f w2 [= <-].
    apply (probe_count cnt Hg None 0). done. }
  split; [apply H2|]. split; [|unfold clamp_repeats, MAX_CURL_REPEATS; lia].
  unfold run_sequential, mbind, X_bind.
  assert (forall n s fp l0 w, (cnt (loop n stable quick_break s req fp l0 w).2 <= 2 * n + cnt w)%nat) as Hl.
  { induction n as [|n IH]; intros s fp l0 w1; cbn [repeat_loop]; [done|]. unfold mbind, X_bind.
    specialize (H2 s req w1). destruct (_probe_with_session _ _ _ _ s req w1) as [[r|e|] w2]; cbn [snd] in *; [|lia|lia].
    destruct (success r); [destruct (negb stable)|destruct quick_break]; cbn [snd mret X_ret]; try lia;
      (etransitivity; [apply IH|lia]). }
  specialize (Hl (Z.to_nat (clamp_repeats repeats)) (open_session req) None None w).
  destruct (repeat_loop _ _ _ _ _ _ _ _ _ _ _ _ w) as [[[fp lst]|e|] w1]; cbn [snd] in *; done.
Qed.
End Run.

(** ** Stalls *)

Lemma pass_windows_spec t p w : w ∈ pass_windows t p <-> w ∈ p \/ (w ∈ STALL_WINDOWS /\ w <= t).
Proof.
  unfold pass_windows.
  assert (forall l q, w ∈ foldl (fun p w => if (w <=? t) && negb (bool_decide (w ∈ p)) then (p ++ [w])%list else p) q l <-> w ∈ q \/ (w ∈ l /\ w <= t)) as H.
  { induction l as [|x l IH]; intros q; cbn [foldl]; [set_solver|]. rewrite IH. destruct (Z.leb_spec x t); cbn [andb].
    - destruct (bool_decide (x ∈ q)) eqn:E; cbn [negb].
      + apply bool_decide_eq_true in E. set_solver.
      + set_solver.
    - split; [set_solver|]. intros [?|[[->|?]%elem_of_cons ?]]; [by left|lia|by right]. }
  apply H.
Qed.

(** The windows that were passed are those that fit into what came. *)
Definition stream_ok (st : stream) : Prop := 0 <= total st /\ forall w, w ∈ passed st <-> w ∈ STALL_WINDOWS /\ w <= total st.

Lemma stream_step_ok st chunk : 0 <= chunk.1 -> stream_ok st -> stream_ok (stream_step st chunk) /\ total (stream_step st chunk) = total st + chunk.1.
Proof.
  destruct chunk as [n now]. cbn [fst]. intros Hn [H1 H2]. unfold stream_step. destruct (Z.eqb_spec n 0) as [->|]; [split; [done|lia]|].
  destruct (fle _ _); (split; [|done]); (split; [cbn; lia|]); intros w; cbn [passed total]; rewrite pass_windows_spec, H2;
    (split; [intros [[? ?]|?]; [split; [done|lia]|done]|by right]).
Qed.

Definition received (chunks : list (Z * float)) : Z := foldr (fun c acc => c.1 + acc) 0 chunks.

Lemma stream_fold chunks : Forall (fun c => 0 <= c.1) chunks -> forall st, stream_ok st ->
  stream_ok (foldl stream_step st chunks) /\ total (foldl stream_step st chunks) = total st + received chunks.
Proof.
  induction 1 as [|c chunks Hc _ IH]; intros st Hst; cbn [foldl received foldr]; [split; [done|lia]|].
  destruct (stream_step_ok st c Hc Hst) as [H1 H2]. destruct (IH _ H1) as [H3 H4]. split; [done|]. rewrite H4, H2. fold (received chunks). lia.
Qed.

(** The case of one window: the comparisons that are left follow from those that were made. *)
Ltac by_window :=
  split; [done|split; [intros _ _; cbn; repeat (match goal with |- context [?a <=? ?b] => destruct (Z.leb_spec a b); [|] end; try lia); done|done]].

(** A stream that stalls after at least 2 KB is reported at the largest of the windows 7, 16, 42 and 64 KB that fits into
    what was received, and as a stall of the TLS certificate when none does, however the bytes were cut into chunks
    and however their arrival was timed. The phase of a stall at the first request is never reported. *)
Theorem stall_phase_spec t0 t1 t2 code chunks err :
  Forall (fun c => 0 <= c.1) chunks ->
  let st := foldl stream_step (Stream 0 t0 0 (f_of_Z 0) [] t0) chunks in
  let r := run_stream_triage_probe t0 t1 t2 code chunks err in
  total_bytes r = received chunks /\
  (fle STALL_IDLE_SEC (fsub t2 (last_progress st)) = true -> STALL_MIN_TOTAL <= received chunks ->
   (phase r, stall_at_bytes r) =
     if 65536 <=? received chunks then ("data_stall_64k_plus", Some 65536)
     else if 43008 <=? received chunks then ("data_stall_42k", Some 43008)
     else if 16384 <=? received chunks then ("data_stall_16k", Some 16384)
     else if 7168 <=? received chunks then ("data_stall_7k", Some 7168)
     else ("data_stall_tls_cert", Some (received chunks))) /\
  phase r <> "data_stall_first_req".
Proof.
  intros Hc st r.
  assert (stream_ok (Stream 0 t0 0 (f_of_Z 0) [] t0)) as H0.
  { split; [done|]. intros w. cbn. split; [by intros ?%elem_of_nil|]. intros [Hw Hl]. unfold STALL_WINDOWS in Hw.
    rewrite !elem_of_cons in Hw. destruct Hw as [->|[->|[->|[->|?%elem_of_nil]]]]; done. }
  destruct (stream_fold chunks Hc _ H0) as [[Hn Hp] Ht]. fold st in Hn, Hp, Ht. cbn [total] in Ht. rewrite Z.add_0_l in Ht.
  assert (forall w, w ∈ STALL_WINDOWS -> (w ∈ passed st <-> w <= received chunks)) as Hw by (intros w Hi; rewrite Hp, Ht; tauto).
  assert (64 * 1024 ∈ STALL_WINDOWS /\ 42 * 1024 ∈ STALL_WINDOWS /\ 16 * 1024 ∈ STALL_WINDOWS /\ 7 * 1024 ∈ STALL_WINDOWS) as (W1 & W2 & W3 & W4)
    by (unfold STALL_WINDOWS; set_solver).
  unfold r, run_stream_triage_probe. fold st. rewrite Ht.
  destruct (fle STALL_IDLE_SEC (fsub t2 (last_progress st))) eqn:Es; cbn [andb].
  - destruct (Z.leb_spec STALL_MIN_TOTAL (received chunks)) as [Hm|Hm]; cbn [andb].
    + destruct (decide (64 * 1024 ∈ passed st)) as [H|H]; rewrite (Hw _ W1) in H; [by_window|].
      destruct (decide (42 * 1024 ∈ passed st)) as [H'|H']; rewrite (Hw _ W2) in H'; [by_window|].
      destruct (decide (16 * 1024 ∈ passed st)) as [H''|H'']; rewrite (Hw _ W3) in H''; [by_window|].
      destruct (decide (7 * 1024 ∈ passed st)) as [H4|H4]; rewrite (Hw _ W4) in H4; [by_window|].
      destruct (Z.ltb_spec (received chunks) (7 * 1024)) as [H5|H5]; [by_window|lia].
    + destruct (_ && (received chunks <? STALL_MIN_TOTAL)); [split; [done|split; [intros; lia|done]]|].
      rewrite andb_false_r. destruct (0 <? received chunks); (split; [done|split; [intros; lia|done]]).
  - destruct (_ && (received chunks <? STALL_MIN_TOTAL)); [by split|]. destruct (_ && (STALL_MIN_TOTAL <=? received chunks)); [by split|].
    destruct (0 <? received chunks); by split.
Qed.

(** ** A network *)

Section Net.
Context (status : Z) (body : string) (headers : list (string * string)).
Definition one_answer (s : session) (req : CurlProbeRequest) (url : string) (t : float) (proxy : option string) (w : nat) : got * nat :=
  (Got (Resp status body (fun h => dget h headers)) (f_lit 1 2), S w).
End Net.

Definition plain_request : CurlProbeRequest := generic_request "example.com" (f_of_Z 5) None (Some "example.com") None false "tls12".

(** The CDN sends the client on to another of its hosts, where the answer is a page. *)
Definition video_request (host : string) (url : option string) : CurlProbeRequest :=
  Req "r1.googlevideo.com" (f_of_Z 5) None (Some host) url false true false false false false "tls12".
Definition redirecting (s : session) (req : CurlProbeRequest) (url : string) (t : float) (proxy : option string) (w : nat) : got * nat :=
  let next := "https://r2.googlevideo.com/videoplayback" in
  (if bool_decide (url = next) then Got (Resp 206 long_body (fun _ => None)) (f_lit 1 2)
   else Got (Resp 302 EmptyString (fun h => dget h [("Location", next)])) (f_lit 1 2), S w).



Lemma requests_bounded_witness :
  let get := one_answer 503 long_body [] in
  ((run_sequential get EmptyString EmptyString 0 "bad" 50 true false plain_request 0%nat).2 <= 20)%nat.
Proof.
  cbv zeta.
  destruct (requests_bounded (one_answer 503 long_body []) EmptyString EmptyString "bad" 0 (fun w => w) 50 true false plain_request 0%nat) as (_ & H & _).
  { intros. cbn. lia. }
  exact H.
Defined.

Lemma stall_phase_spec_witness :
  let chunks := [(4096, f_of_Z 1); (4096, f_of_Z 2)] in
  phase (run_stream_triage_probe (f_of_Z 0) (f_of_Z 8) (f_of_Z 8) 206 chunks (Some "Timeout")) = "data_stall_7k".
Proof.
  cbv zeta. pose proof (stall_phase_spec (f_of_Z 0) (f_of_Z 8) (f_of_Z 8) 206 [(4096, f_of_Z 1); (4096, f_of_Z 2)] (Some "Timeout")) as H.
  destruct H as (_ & H & _); [by repeat constructor|].
  assert (H1 := H ltac:(vm_compute; reflexivity) ltac:(vm_compute; discriminate)). exact (f_equal fst H1).
Defined.

(** ** Findings *)

(** A Location with a lone bracket raises out of the probe, and one such answer loses the results of a batch. *)
Example bracket_aborts_batch :
  let '(bad, _) := run_curl_probe (one_answer 302 EmptyString [("Location", "https://[x/")]) EmptyString EmptyString 0 "Invalid IPv6 URL" plain_request 0%nat in
  bad = Exn (Error "Invalid IPv6 URL") /\
  run_curl_probe_batch [("good.example", Done no_result); ("example.com", bad)] [] = Exn (Error "Invalid IPv6 URL").
Proof. vm_compute. split; reflexivity. Qed.

(** A host below a YouTube name counts as YouTube, whatever site it belongs to. *)
Example youtube_prefix_counts : is_youtube_domain "youtube.com.evil.example" = true /\ is_ytcdn_domain "ytimg.com.evil.example" = true.
Proof. vm_compute. split; reflexivity. Qed.
