(* ===== verification/BlobAliases.v ===== *)
(** * Blob aliases: [engine/blob_aliases.py]

    From short blob names to files and [--blob] options. The file system is an
    interface ([isfile], [isdir], [listdir]); the directories come from the
    environment ([engine/config.py]). *)

From stdpp Require Import base numbers list strings gmap.
From Stdlib Require Import ZArith Lia Ascii.
From S2P Require Import Prelude PyStr PyRe PyDict TriagePrune.

Class FileSys : Type := {
  isfile : string -> bool;
  isdir : string -> bool;
  listdir : string -> list string
}.

(** The directories of [engine/config.py], and the setting [BLOCKCHECKS_FAKE_FILES]. *)
Record BlobDirs : Type := Dirs {
  BLOB_DIR : string; REPO_BLOBS_DIR : string; PROJECT_DIR : string; ZAPRET2_ROOT : string;
  fake_files : option string
}.

(** [os.path.join(a, b)] *)
Definition path_join (a b : string) : string :=
  if startswith "/" b then b
  else if negb (nonempty a) || endswith "/" a then a +:+ b
  else a +:+ "/" +:+ b.

Definition _BUILTIN_BLOBS : list string := ["fake_default_tls"; "fake_default_http"; "fake_default_quic"].

Definition FAKE_FILES_DIR (e : BlobDirs) : string :=
  default (path_join (path_join (ZAPRET2_ROOT e) "files") "fake") (fake_files e).
Definition _OPT_BLOBS (e : BlobDirs) : string := path_join (ZAPRET2_ROOT e) "blobs".

Definition FLOWSEAL_CORE_ALIASES : list string :=
  ["stun"; "stun2"; "max_ru"; "google"; "4pda"; "quic_google"; "quic_dbank"; "discord_udp"; "game_udp"].

(** ** Names *)

Definition _BLOB_NAME_RE : re :=
  seqs [alts (lit <$> ["blob"; "pattern"; "seqovl_pattern"]); lit "="; Group 1 (Plus (Chr is_word))].

Definition extract_blob_names (strategies : list string) : list string :=
  fromkeys (filter (fun n => n <> "0x00000000") (s ← strategies; findall1 _BLOB_NAME_RE s)).

Definition is_alpha_ (c : ascii) : bool := is_upper c || is_lower c || Ascii.eqb c "_".
Definition _BLOB_SAFE_RE : re := seqs [Bol; Chr is_alpha_; Star (Chr is_word); Eol].

Definition safe_blob_name (name : string) : string :=
  if found (re_match _BLOB_SAFE_RE name) then name else "b" +:+ name.

(** [name[1:]], when [name] is [b] and an alias. *)
Definition unprefixed (name : string) : option string :=
  match name with
  | String c orig =>
      if Ascii.eqb c "b" && bool_decide (is_Some (dget orig BLOB_ALIAS_MAP)) then Some orig else None
  | EmptyString => None
  end.

Section Files.
Context {FS : FileSys} (env : BlobDirs).

Definition _search_bases (blobs_dir : option string) : list string :=
  let primary := match blobs_dir with
                 | Some d => if nonempty d then d else BLOB_DIR env
                 | None => BLOB_DIR env end in
  fromkeys (filter (fun c => nonempty c = true)
    [primary; REPO_BLOBS_DIR env; path_join (PROJECT_DIR env) "blobs"; _OPT_BLOBS env; FAKE_FILES_DIR env]).

(** The first path of [bases] that [f] yields. *)
Definition first_some {A B} (f : A -> option B) (l : list A) : option B := head (omap f l).

Definition exact_or_fuzzy (name base : string) : option string :=
  if negb (isdir base) then None
  else
    let exact := path_join base (name +:+ ".bin") in
    if isfile exact then Some exact
    else
      let known := py_sorted str_lt (filter (fun f => endswith ".bin" f = true) (listdir base)) in
      let candidates := filter (fun f => contains name f = true /\ contains "quic_initial" f = false) known in
      let candidates := match candidates with
                        | [] => filter (fun f => contains name f = true) known | c => c end in
      path_join base <$> head candidates.

(** [s[:-4]] *)
Definition stem (s : string) : string := stake (String.length s - 4) s.

Definition stem_match (name mapped base : string) : option string :=
  if negb (isdir base) then None
  else
    path_join base <$> head (filter (fun f =>
      endswith ".bin" f = true /\ (stem f = stem mapped \/ contains name (stem f) = true)) (listdir base)).

(** The search that is not the alias with a [b] in front. *)
Definition search_blob (name : string) (mapped : option string) (bases : list string) : option string :=
  match first_some (exact_or_fuzzy name) bases with
  | Some p => Some p
  | None => match mapped with Some f => first_some (stem_match name f) bases | None => None end
  end.

(** [resolve_blob_path]: the recursion is on the name without its first letter. *)
Fixpoint resolve_blob_path (blobs_dir : option string) (name : string) : option string :=
  if bool_decide (name ∈ _BUILTIN_BLOBS) || String.eqb name "0x00000000" then None
  else
    let bases := _search_bases blobs_dir in
    let mapped := dget name BLOB_ALIAS_MAP in
    let by_alias := f ← mapped; first_some (fun b =>
      if isfile (path_join b f) then Some (path_join b f) else None) bases in
    match by_alias with
    | Some p => Some p
    | None =>
        match name with
        | String c orig =>
            if Ascii.eqb c "b" && bool_decide (is_Some (dget orig BLOB_ALIAS_MAP))
               && nonempty orig
            then resolve_blob_path blobs_dir orig
            else search_blob name mapped bases
        | EmptyString => search_blob name mapped bases
        end
    end.

Definition blob_cli_line (name : string) (blobs_dir : option string) : option string :=
  if String.eqb name "0x00000000" then None
  else (fun p => "--blob=" +:+ name +:+ ":@" +:+ p) <$> resolve_blob_path blobs_dir name.

(** ** Command lines *)

(** One round of [append_blob_cli_lines] on the lines and the renames. *)
Definition append_blob (blobs_dir : option string) (st : list string * list (string * string)) (name : string)
    : list string * list (string * string) :=
  let '(lines, renames) := st in
  let '(safe, renames) :=
    match dget name renames with
    | Some safe => (safe, renames)
    | None => (safe_blob_name name, dset name (safe_blob_name name) renames)
    end in
  if negb (nonempty safe) then (lines, renames)
  else if existsb (startswith ("--blob=" +:+ safe +:+ ":@")) lines then (lines, renames)
  else
    match blob_cli_line name blobs_dir with
    | Some cli => (lines ++ ["--blob=" +:+ safe +:+ ":@" +:+ default EmptyString (after_first ":@" cli)], renames)
    | None => (lines, dset name EmptyString renames)
    end.

Definition append_blob_cli_lines (lines names : list string) (blobs_dir : option string)
    (rename_map : list (string * string)) : list string * list (string * string) :=
  foldl (append_blob blobs_dir) (lines, rename_map) names.

(** The pattern of one rename; the new name has no backslash. *)
Definition rename_re (orig : string) : re :=
  seqs [Group 1 (Seq (alts (lit <$> ["blob"; "pattern"; "seqovl_pattern"])) (lit "=")); lit orig; WordB].

Definition apply_rename (text : string) (r : string * string) : string :=
  let '(orig, safe) := r in
  if negb (nonempty orig) || negb (nonempty safe) || String.eqb orig safe then text
  else re_sub (rename_re orig) (fun m => default EmptyString (group 1 m) +:+ safe) text.

Definition apply_blob_renames (text : string) (renames : list (string * string)) : string :=
  foldl apply_rename text renames.

(** The lines that are in the list at the end, and the strategy. *)
Definition sanitize_strategy_for_nfqws2 (strategy : string) (lines : list string)
    (blobs_dir : option string) (extra_names : list string) : list string * string :=
  let names := fromkeys (filter (fun n => nonempty n = true) extra_names ++ extract_blob_names [strategy]) in
  let dir := match blobs_dir with
             | Some d => if nonempty d then d else BLOB_DIR env | None => BLOB_DIR env end in
  let '(lines, renames) := append_blob_cli_lines lines names (Some dir) [] in
  (lines, apply_blob_renames strategy renames).

Definition blob_cli_lines (names : list string) (blobs_dir : option string) : list string :=
  (append_blob_cli_lines [] names blobs_dir []).1.
End Files.

(** ** Exported names *)

Definition STOCK_KEENETIC_BLOB_FILES : list string := ["tls_clienthello.bin"; "quic_initial.bin"].

Definition blob_export_filename (name : string) : option string :=
  if bool_decide (name ∈ _BUILTIN_BLOBS) || String.eqb name "0x00000000" then None
  else
    let orig := default name (unprefixed name) in
    match dget orig BLOB_ALIAS_MAP with
    | Some f => Some f
    | None => match dget name BLOB_ALIAS_MAP with Some f => Some f | None => Some (orig +:+ ".bin") end
    end.

Definition blob_export_cli_line (name prefix : string) : option string :=
  fname ← blob_export_filename name;
  let orig := default name (unprefixed name) in
  let ident := if bool_decide (is_Some (dget orig BLOB_ALIAS_MAP)) then safe_blob_name orig else name in
  Some ("--blob=" +:+ ident +:+ ":@" +:+ prefix +:+ "/blobs/" +:+ fname).

(** ** Theorems *)

Definition word_name (n : string) : Prop := nonempty n = true /\ sforall is_word n = true.
Definition starts_with_digit (n : string) : bool :=
  match n with String c _ => is_digit c | EmptyString => false end.

(** What nfqws2 accepts as an identifier. *)
Definition identifier (n : string) : Prop :=
  match n with String c s => is_alpha_ c = true /\ sforall is_word s = true | EmptyString => False end.

Lemma word_alpha_or_digit c : is_word c = true -> is_alpha_ c = negb (is_digit c).
Proof.
  unfold is_word, is_alnum, is_alpha_. destruct c as [b0 b1 b2 b3 b4 b5 b6 b7].
  by destruct b0, b1, b2, b3, b4, b5, b6, b7.
Qed.

Lemma safe_blob_name_word n :
  word_name n -> safe_blob_name n = if starts_with_digit n then "b" +:+ n else n.
Proof.
  intros [Hn Hw]. unfold safe_blob_name. destruct n as [|c s]; [done|]. simpl in Hw.
  apply andb_true_iff in Hw as [Hc Hs]. pose proof (word_alpha_or_digit c Hc) as Ha. simpl.
  assert (Hf : found (re_match _BLOB_SAFE_RE (String c s)) = negb (is_digit c)).
  { unfold re_match, exec_at, _BLOB_SAFE_RE. cbn [seqs exec prev rest]. rewrite Ha.
    destruct (is_digit c); [done|]. cbn [negb].
    set (k := fun (p' : pos) (c' : caps) => if at_end p' then Some (Match (Pos None (String c s)) p' c') else None).
    change (found (star_loop (Chr is_word) k (String.length s) (Pos (Some c) s) []) = true).
    assert (E : star_loop (Chr is_word) k (String.length (s +:+ EmptyString)) (Pos (Some c) (s +:+ EmptyString)) []
      = Some (Match (Pos None (String c s)) (Pos (advance (Some c) s) EmptyString) [])).
    { apply star_loop_run; try done. by rewrite append_nil_r. }
    rewrite append_nil_r in E. by rewrite E. }
  rewrite Hf. by destruct (is_digit c).
Qed.

Lemma extract_blob_names_word ss n : n ∈ extract_blob_names ss -> word_name n.
Proof.
  unfold extract_blob_names, fromkeys. rewrite elem_of_dedup, list_elem_of_filter, list_elem_of_bind.
  intros [[_ (s & Hn & _)] _]. unfold findall1 in Hn. apply list_elem_of_omap in Hn as (m & Hm & Hg).
  apply finditer_sound in Hm as [_ Hd]. unfold _BLOB_NAME_RE in Hd. cbn [seqs] in Hd.
  destruct Hd as (y & _ & z & Hz & w & Hw & Heq).
  apply den_plus_chr in Hw as (h & Hne & Hf & Hc & Hcaps). simpl in Heq. injection Heq as Hend Hc2.
  unfold group in Hg. rewrite Hc2 in Hg. simpl in Hg. injection Hg as <-.
  rewrite (consumes_between _ _ _ Hc). by split.
Qed.

Lemma dget_alias_file n f : dget n BLOB_ALIAS_MAP = Some f ->
  endswith ".bin" f = true /\ n ∉ _BUILTIN_BLOBS /\ n <> "0x00000000".
Proof.
  assert (H : Forall (fun kv => endswith ".bin" kv.2 = true /\ kv.1 ∉ _BUILTIN_BLOBS /\ kv.1 <> "0x00000000") BLOB_ALIAS_MAP).
  { refine (bool_decide_unpack _ _). vm_compute. exact I. }
  intros Hg. assert (Hin : (n, f) ∈ BLOB_ALIAS_MAP).
  { apply elem_of_dict; [|done]. refine (bool_decide_unpack _ _). vm_compute. exact I. }
  rewrite Forall_forall in H. exact (H _ Hin).
Qed.

(** Names taken from a strategy become identifiers that nfqws2 accepts, and only those that
    start with a digit change; the renamed name of an alias resolves to the same file and is
    exported by the same line as the alias. *)
Theorem safe_blob_names `{FS : FileSys} env :
  (forall ss n, n ∈ extract_blob_names ss ->
     identifier (safe_blob_name n) /\ (safe_blob_name n <> n <-> starts_with_digit n = true)) /\
  (forall dir prefix n, n ∈ BLOB_ALIASES ->
     resolve_blob_path env dir (safe_blob_name n) = resolve_blob_path env dir n /\
     blob_export_cli_line (safe_blob_name n) prefix = blob_export_cli_line n prefix).
Proof.
  split.
  - intros ss n Hn. apply extract_blob_names_word in Hn as Hw. rewrite (safe_blob_name_word n Hw).
    destruct Hw as [Hne Hw]. destruct n as [|c s]; [done|]. simpl in *. apply andb_true_iff in Hw as [Hc Hs].
    destruct (is_digit c) eqn:Ed; simpl.
    + split; [split; [done|by rewrite Hc, Hs]|]. split; [done|]. intros _ He.
      apply (f_equal String.length) in He. simpl in He. lia.
    + rewrite (word_alpha_or_digit c Hc), Ed. split; [done|]. split; [done|]. done.
  - intros dir prefix n Hn.
    assert (Hall : Forall (fun n => safe_blob_name n = n \/ n = "4pda") BLOB_ALIASES).
    { refine (bool_decide_unpack _ _). vm_compute. exact I. }
    rewrite Forall_forall in Hall. destruct (Hall n Hn) as [->| ->]; [done|].
    split; [reflexivity|]. vm_compute. reflexivity.
Qed.

(** ** Resolution *)

Section Resolve.
Context {FS : FileSys} (env : BlobDirs).

(** A path the search can return: a [.bin] entry of a search directory. *)
Definition found_in (dir : option string) (p : string) : Prop :=
  exists base f, base ∈ _search_bases env dir /\ p = path_join base f /\ endswith ".bin" f = true /\
    (isfile p = true \/ f ∈ listdir base).

Lemma first_some_elem {A B} (f : A -> option B) l b :
  first_some f l = Some b -> exists a, a ∈ l /\ f a = Some b.
Proof.
  unfold first_some. intros H. assert (Hin : b ∈ omap f l) by (destruct (omap f l); [done|]; simplify_eq/=; by left).
  by apply list_elem_of_omap in Hin.
Qed.

Lemma first_some_app {A B} (f : A -> option B) l1 a l2 b :
  Forall (fun x => f x = None) l1 -> f a = Some b -> first_some f (l1 ++ a :: l2) = Some b.
Proof.
  intros H1 Ha. unfold first_some. rewrite omap_app. induction H1 as [|x l1 Hx _ IH]; simpl; [by rewrite Ha|].
  by rewrite Hx.
Qed.

Lemma head_filter_elem {A} (P : A -> Prop) {PD : forall x, Decision (P x)} l (x : A) :
  head (filter P l) = Some x -> x ∈ l /\ P x.
Proof.
  intros H. assert (Hin : x ∈ filter P l) by (destruct (filter P l); [done|]; simplify_eq/=; by left).
  by apply list_elem_of_filter in Hin as [? ?].
Qed.

Lemma exact_or_fuzzy_found dir name base p :
  base ∈ _search_bases env dir -> exact_or_fuzzy name base = Some p -> found_in dir p.
Proof.
  intros Hb. unfold exact_or_fuzzy. destruct (isdir base); simpl; [|done].
  destruct (isfile _) eqn:Hf.
  { intros [= <-]. exists base, (name +:+ ".bin"). split_and!; [done..|apply endswith_append|by left]. }
  set (known := py_sorted _ _).
  assert (Hk : forall f, f ∈ known -> endswith ".bin" f = true /\ f ∈ listdir base).
  { intros f. unfold known. rewrite elem_of_py_sorted, list_elem_of_filter. done. }
  set (cs := filter _ known). intros H. destruct (head _) as [f|] eqn:Eh in H; simplify_eq/=.
  assert (Hin : f ∈ known).
  { destruct cs as [|c cs'] eqn:Ec.
    - by apply head_filter_elem in Eh as [? _].
    - simplify_eq/=. assert (Hf2 : f ∈ f :: cs') by by left. rewrite <- Ec in Hf2.
      by apply list_elem_of_filter in Hf2 as [_ ?]. }
  destruct (Hk f Hin). exists base, f. split_and!; [done..|by right].
Qed.

Lemma search_blob_found dir name mapped p :
  search_blob name mapped (_search_bases env dir) = Some p -> found_in dir p.
Proof.
  unfold search_blob. destruct (first_some _ _) as [p'|] eqn:E.
  { intros [= <-]. apply first_some_elem in E as (b & Hb & E). by eapply exact_or_fuzzy_found. }
  destruct mapped as [m|]; [|done]. intros H. apply first_some_elem in H as (b & Hb & H).
  unfold stem_match in H. destruct (negb (isdir b)); [done|].
  destruct (head _) as [f|] eqn:Eh; simplify_eq/=. apply head_filter_elem in Eh as [Hf [He _]].
  exists b, f. split_and!; [done..|by right].
Qed.

Lemma resolve_found dir name p : resolve_blob_path env dir name = Some p -> found_in dir p.
Proof.
  induction name as [|c orig IH]; cbn [resolve_blob_path].
  { destruct (_ || _); [done|]. simpl. apply search_blob_found. }
  destruct (_ || _); [done|]. destruct (f ← _; _) as [p'|] eqn:E.
  - intros [= <-]. destruct (dget _ BLOB_ALIAS_MAP) as [f|] eqn:Ef; [|done]. simpl in E.
    apply first_some_elem in E as (b & Hb & E). destruct (isfile _) eqn:Hf; simplify_eq.
    exists b, f. split_and!; [done..|by eapply dget_alias_file|by left].
  - destruct (_ && _); [done|]. apply search_blob_found.
Qed.

(** A resolved blob is a [.bin] entry of one of the search directories; names that nfqws2 has
    built in and the empty blob never resolve; the file of an alias is taken from the first
    search directory that has it, before any file with a similar name. *)
Theorem resolve_blob_path_spec dir name :
  (forall p, resolve_blob_path env dir name = Some p -> found_in dir p) /\
  (name ∈ _BUILTIN_BLOBS \/ name = "0x00000000" -> resolve_blob_path env dir name = None) /\
  (forall f bs b bs', dget name BLOB_ALIAS_MAP = Some f -> _search_bases env dir = bs ++ b :: bs' ->
     Forall (fun b' => isfile (path_join b' f) = false) bs -> isfile (path_join b f) = true ->
     resolve_blob_path env dir name = Some (path_join b f)).
Proof.
  split_and!.
  - apply resolve_found.
  - intros H. assert (Hb : bool_decide (name ∈ _BUILTIN_BLOBS) || String.eqb name "0x00000000" = true).
    { destruct H as [H| ->]; [by rewrite bool_decide_eq_true_2|]. by rewrite String.eqb_refl, orb_true_r. }
    destruct name; cbn [resolve_blob_path]; by rewrite Hb.
  - intros f bs b bs' Hf Hbs Hno Hyes. destruct (dget_alias_file _ _ Hf) as (_ & Hnb & Hnz).
    assert (Hb : bool_decide (name ∈ _BUILTIN_BLOBS) || String.eqb name "0x00000000" = false).
    { rewrite bool_decide_eq_false_2 by done. simpl. by apply String.eqb_neq. }
    assert (Ha : first_some (fun b => if isfile (path_join b f) then Some (path_join b f) else None)
      (_search_bases env dir) = Some (path_join b f)).
    { rewrite Hbs. apply first_some_app; [|by rewrite Hyes]. eapply Forall_impl; [exact Hno|].
      intros b' Hb'. cbv beta in *. by rewrite Hb'. }
    destruct name; cbn [resolve_blob_path]; rewrite Hb, Hf; cbn [mbind option_bind]; by rewrite Ha.
Qed.

(** ** Command lines *)

Definition blob_option (safe p : string) : string := "--blob=" +:+ safe +:+ ":@" +:+ p.

Lemma after_first_skip n s :
  sforall is_word n = true -> after_first ":@" (n +:+ ":@" +:+ s) = Some s.
Proof.
  induction n as [|c n IH]; intros Hn.
  { rewrite append_nil_l. rewrite !append_cons, append_nil_l. reflexivity. }
  simpl in Hn. apply andb_true_iff in Hn as [Hc Hn]. rewrite append_cons. cbn [after_first startswith].
  destruct (Ascii.eqb_spec ":" c) as [<-|_]; [done|]. by apply IH.
Qed.

Lemma after_first_cli n s : sforall is_word n = true -> after_first ":@" (blob_option n s) = Some s.
Proof. intros H. unfold blob_option. rewrite <- (after_first_skip n s H). reflexivity. Qed.

(** What the lines and the renames say of one name. *)
Definition covered (dir : option string) (st : list string * list (string * string)) (n : string) : Prop :=
  (dget n st.2 = Some (safe_blob_name n) /\ exists l, l ∈ st.1 /\ startswith (blob_option (safe_blob_name n) "") l = true)
  \/ (dget n st.2 = Some "" /\ blob_cli_line env n dir = None).

Record lines_inv (dir : option string) (lines names : list string) (st : list string * list (string * string))
    : Prop := {
  li_prefix : exists new, st.1 = lines ++ new /\
    Forall (fun l => exists n p, n ∈ names /\ resolve_blob_path env dir n = Some p /\
                      l = blob_option (safe_blob_name n) p) new;
  li_covered n : n ∈ names -> covered dir st n;
  li_keys n v : dget n st.2 = Some v -> n ∈ names
}.

Lemma blob_option_app n p q : blob_option n (p +:+ q) = blob_option n p +:+ q.
Proof. unfold blob_option. by rewrite !append_assoc. Qed.

Lemma append_blob_inv dir lines names st n :
  word_name n -> lines_inv dir lines names st ->
  lines_inv dir lines (names ++ [n]) (append_blob env dir st n).
Proof.
  intros Hw [(new & Hnew & Hall) Hcov Hkeys].
  assert (Hall' : Forall (fun l => exists m p, m ∈ names ++ [n] /\ resolve_blob_path env dir m = Some p /\
                      l = blob_option (safe_blob_name m) p) new).
  { eapply Forall_impl; [exact Hall|]. intros l (m & p & Hm & Hr & ->). exists m, p. split_and!; try done. set_solver. }
  assert (Hsafe : nonempty (safe_blob_name n) = true).
  { rewrite safe_blob_name_word by done. destruct Hw. by destruct (starts_with_digit n). }
  (* a covered name stays covered when lines are added and the renames of others change *)
  assert (Hmono : forall st' m, covered dir st m -> (forall l, l ∈ st.1 -> l ∈ st'.1) ->
    dget m st'.2 = dget m st.2 -> covered dir st' m).
  { intros st' m [[H1 (l & Hl & H2)]|[H1 H2]] Hsub Hd; [left|right]; rewrite Hd; [split; [done|]|done].
    exists l. split; [by apply Hsub|done]. }
  destruct st as [ls ren]. cbn [fst snd] in *. unfold append_blob.
  destruct (dget n ren) as [v|] eqn:Ed.
  { assert (Hn : n ∈ names) by by eapply Hkeys. destruct (Hcov n Hn) as [[H1 (l & Hl & H2)]|[H1 H2]]; cbn [fst snd] in *.
    - rewrite Ed in H1. injection H1 as ->. rewrite Hsafe. cbn [negb].
      assert (Hex : existsb (startswith ("--blob=" +:+ safe_blob_name n +:+ ":@")) ls = true).
      { apply existsb_exists. exists l. split; [by apply list_elem_of_In|]. exact H2. }
      rewrite Hex. split; [by exists new| |].
      + intros m [Hm|Hm%list_elem_of_singleton]%elem_of_app; subst; by apply Hcov.
      + intros m v Hv. apply elem_of_app. left. by eapply Hkeys.
    - rewrite Ed in H1. injection H1 as ->. cbn [negb nonempty]. split; [by exists new| |].
      + intros m [Hm|Hm%list_elem_of_singleton]%elem_of_app; subst; by apply Hcov.
      + intros m v Hv. apply elem_of_app. left. by eapply Hkeys. }
  rewrite Hsafe. cbn [negb].
  assert (Hne : forall m v, m ∈ names -> dget m (dset n v ren) = dget m ren).
  { intros m v Hm. rewrite dget_set_ne; [done|]. intros <-.
    destruct (Hcov n Hm) as [[H1 _]|[H1 _]]; cbn [fst snd] in H1; congruence. }
  assert (Hk : forall v m u, dget m (dset n v ren) = Some u -> m ∈ names ++ [n]).
  { intros v m u. rewrite dget_set, elem_of_app, list_elem_of_singleton. case_decide; [by right|left; by eapply Hkeys]. }
  destruct (existsb _ ls) eqn:Hex.
  { apply existsb_exists in Hex as (l & Hl%list_elem_of_In & Hs). split; [by exists new| |apply Hk].
    intros m [Hm|Hm%list_elem_of_singleton]%elem_of_app; [eapply Hmono; [by apply Hcov|done|by apply Hne]|subst m].
    left. cbn [fst snd]. split; [apply dget_set_eq|]. exists l. split; [done|exact Hs]. }
  unfold blob_cli_line. destruct Hw as [Hn Hw'].
  destruct (String.eqb n "0x00000000") eqn:Ez; [|destruct (resolve_blob_path env dir n) as [p|] eqn:Er]; cbn [fmap option_fmap option_map].
  2:{ fold (blob_option n p). rewrite after_first_cli by done. cbn [default]. split.
      - exists (new ++ [blob_option (safe_blob_name n) p]). cbn [fst snd]. rewrite Hnew, <- app_assoc. split; [done|].
        apply Forall_app. split; [done|]. constructor; [|done]. exists n, p. split_and!; [set_solver|done|done].
      - intros m [Hm|Hm%list_elem_of_singleton]%elem_of_app; [eapply Hmono; [by apply Hcov|cbn [fst snd]; set_solver|by apply Hne]|subst m].
        left. cbn [fst snd]. split; [apply dget_set_eq|]. exists (blob_option (safe_blob_name n) p). split; [set_solver|].
        apply startswith_spec. exists p. by rewrite <- blob_option_app, append_nil_l.
      - apply Hk. }
  all: split; [by exists new| |intros m u Hm; cbn [fst snd] in Hm; rewrite dget_set in Hm; case_decide; [set_solver|by eapply Hk]].
  all: intros m [Hm|Hm%list_elem_of_singleton]%elem_of_app;
    [eapply Hmono; [by apply Hcov|done|]; cbn [fst snd]; rewrite dget_set_ne; [by apply Hne|]; intros <-;
     destruct (Hcov n Hm) as [[H1 _]|[H1 _]]; cbn [fst snd] in H1; congruence|subst m].
  all: right; cbn [fst snd]; split; [apply dget_set_eq|]; unfold blob_cli_line; by rewrite ?Ez, ?Er.
Qed.

Lemma append_blobs_inv dir lines names :
  Forall word_name names -> lines_inv dir lines names (append_blob_cli_lines env lines names dir []).
Proof.
  unfold append_blob_cli_lines. intros Hw.
  assert (H : forall ns seen st, Forall word_name ns -> lines_inv dir lines seen st ->
    lines_inv dir lines (seen ++ ns) (foldl (append_blob env dir) st ns)).
  { induction ns as [|n ns IH]; intros seen st Hws Hi; simpl; [by rewrite app_nil_r|].
    apply Forall_cons in Hws as [Hn Hws]. rewrite (cons_middle n seen ns), app_assoc.
    apply IH; [done|]. by apply append_blob_inv. }
  apply (H names [] (lines, [])); [done|]. split.
  - exists []. by rewrite app_nil_r.
  - by intros n ?%not_elem_of_nil.
  - done.
Qed.

Lemma apply_renames_id text ren :
  Forall (fun kv => kv.2 = kv.1 \/ kv.2 = EmptyString) ren -> apply_blob_renames text ren = text.
Proof.
  unfold apply_blob_renames. revert text. induction ren as [|[o s] ren IH]; intros text H; [done|].
  apply Forall_cons in H as [H1 H2]. cbn [foldl]. assert (E : apply_rename text (o, s) = text).
  { unfold apply_rename. simpl in H1. destruct H1 as [->| ->].
    - by rewrite String.eqb_refl, orb_true_r.
    - cbn [nonempty negb]. by rewrite orb_true_r. }
  rewrite E. by apply IH.
Qed.

Lemma renames_wf lines names dir : wf (append_blob_cli_lines env lines names dir []).2.
Proof.
  unfold append_blob_cli_lines. assert (H : wf ((lines, []) : list string * list (string * string)).2) by constructor.
  revert H. generalize ((lines, []) : list string * list (string * string)) as st.
  induction names as [|n names IH]; intros st Hst; [done|]. cbn [foldl]. apply IH.
  destruct st as [ls ren]. unfold append_blob. cbn [snd] in Hst.
  destruct (dget n ren) as [v|]; cbn beta iota; repeat (case_match; cbn [snd]); auto using wf_set.
Qed.

Definition blobs_dir_of (blobs_dir : option string) : string :=
  match blobs_dir with Some d => if nonempty d then d else BLOB_DIR env | None => BLOB_DIR env end.

(** Preparing a strategy for nfqws2 keeps the given lines and adds, per missing blob, one
    option that declares its safe name with the file it resolves to; afterwards every blob the
    strategy names is declared or cannot be resolved, and the text only changes when a name
    starts with a digit. *)
Theorem sanitize_strategy_spec strategy lines blobs_dir extra :
  Forall word_name extra ->
  let '(lines', text) := sanitize_strategy_for_nfqws2 env strategy lines blobs_dir extra in
  let dir := Some (blobs_dir_of blobs_dir) in
  (exists new, lines' = lines ++ new /\
     Forall (fun l => exists n p, n ∈ extra ++ extract_blob_names [strategy] /\
               resolve_blob_path env dir n = Some p /\ l = blob_option (safe_blob_name n) p) new) /\
  (forall n, n ∈ extra ++ extract_blob_names [strategy] ->
     (exists l, l ∈ lines' /\ startswith (blob_option (safe_blob_name n) "") l = true) \/
     blob_cli_line env n dir = None) /\
  (Forall (fun n => starts_with_digit n = false) (extra ++ extract_blob_names [strategy]) -> text = strategy).
Proof.
  intros Hex. unfold sanitize_strategy_for_nfqws2. fold (blobs_dir_of blobs_dir).
  set (names := fromkeys _).
  assert (Hin : forall n, n ∈ names <-> n ∈ extra ++ extract_blob_names [strategy]).
  { intros n. unfold names. rewrite elem_of_fromkeys, !elem_of_app, list_elem_of_filter.
    split; [tauto|]. intros [H|H]; [left|by right]. split; [|done]. rewrite Forall_forall in Hex. by apply Hex. }
  assert (Hw : Forall word_name names).
  { apply Forall_forall. intros n [H|H]%Hin%elem_of_app; [by rewrite Forall_forall in Hex; apply Hex|].
    by eapply extract_blob_names_word. }
  pose proof (append_blobs_inv (Some (blobs_dir_of blobs_dir)) lines names Hw) as [H1 H2 H3].
  pose proof (renames_wf lines names (Some (blobs_dir_of blobs_dir))) as Hwf.
  destruct (append_blob_cli_lines _ _ _ _ _) as [ls ren]. cbn [fst snd] in *. split_and!.
  - destruct H1 as (new & -> & Hnew). exists new. split; [done|]. eapply Forall_impl; [exact Hnew|].
    intros l (n & p & Hn & Hp & ->). exists n, p. by rewrite <- Hin.
  - intros n Hn%Hin. destruct (H2 n Hn) as [[_ H]|[_ H]]; [by left|by right].
  - intros Hd. apply apply_renames_id, Forall_forall. intros [n v] Hv.
    apply elem_of_dict in Hv; [|done]. apply H3 in Hv as Hn. cbn [fst snd].
    rewrite Forall_forall in Hd, Hw. destruct (H2 n Hn) as [[H _]|[H _]]; cbn [fst snd] in H; rewrite H in Hv;
      injection Hv as <-; [left|by right].
    rewrite safe_blob_name_word by by apply Hw. rewrite Hd; [done|]. by apply Hin.
Qed.
End Resolve.

(** A file system with two blobs. *)
Definition ex_files : FileSys := {|
  isfile p := bool_decide (p ∈ ["/b/stun.bin"; "/b/tls_clienthello_4pda_to.bin"]);
  isdir p := String.eqb p "/b";
  listdir p := if String.eqb p "/b" then ["stun.bin"; "tls_clienthello_4pda_to.bin"] else []
|}.
Definition ex_dirs : BlobDirs := Dirs "/b" "/repo/blobs" "/repo" "/opt/zapret2" None.

Lemma sanitize_strategy_spec_witness :
  let '(lines', text) := @sanitize_strategy_for_nfqws2 ex_files ex_dirs "fake:blob=4pda:x;fake:blob=stun" [] None [] in
  text = "fake:blob=b4pda:x;fake:blob=stun" /\
  lines' = ["--blob=b4pda:@/b/tls_clienthello_4pda_to.bin"; "--blob=stun:@/b/stun.bin"] /\
  exists new, lines' = [] ++ new.
Proof.
  pose proof (@sanitize_strategy_spec ex_files ex_dirs "fake:blob=4pda:x;fake:blob=stun" [] None [] (Forall_nil_2 _)) as H.
  destruct (@sanitize_strategy_for_nfqws2 _ _ _ _ _ _) as [ls t] eqn:E.
  assert (E2 : (ls, t) = (["--blob=b4pda:@/b/tls_clienthello_4pda_to.bin"; "--blob=stun:@/b/stun.bin"],
    "fake:blob=b4pda:x;fake:blob=stun")) by (rewrite <- E; vm_compute; reflexivity).
  injection E2 as -> ->. split; [reflexivity|]. split; [reflexivity|].
  destruct H as ((new & Hn & _) & _). exists new. exact Hn.
Defined.
