(* ===== verification/Byedpi.v ===== *)
(** * Strategies for byedpi: [engine/byedpi_translator.py]

    Translation of one nfqws2 desync line to the arguments of [ciadpi]. A set of
    Python has no order of its own: the places where the source walks over a
    set take the order as an argument. *)

From stdpp Require Import base numbers list strings gmap sorting.
From Stdlib Require Import ZArith Lia Ascii.
From S2P Require Import Prelude PyStr PyRe PyDict BlobAliases.

Inductive quality_t : Type := TRANSLATION_FULL | TRANSLATION_PARTIAL | TRANSLATION_NONE.

Definition quality_value (q : quality_t) : string :=
  match q with TRANSLATION_FULL => "full" | TRANSLATION_PARTIAL => "partial" | TRANSLATION_NONE => "none" end.

Record Translation : Type := Translated { argv : list string; quality : quality_t; notes : list string }.

Definition _UNMAPPED_FOOLINGS : list string :=
  ["badsum"; "badsid"; "badseq"; "tcp_seq"; "tcp_flags_unset"; "tcp_flags_set"; "ip_autottl"; "ipfrag";
   "tcpseg"; "padencap"; "seqovl"; "seqovl_pattern"; "quic"; "wssize"; "circular"; "dup"; "tcp_ts"].
Definition _UNMAPPED_FOOLING_PREFIXES : list string := ["ip6_"].
Definition _DROPPABLE_FOOLINGS : list string := ["tcp_ack"; "tcp_ts_up"].
Definition _SUPPORTED_FAMILIES : list string :=
  ["fake"; "hostfakesplit"; "fakedsplit"; "fakeddisorder"; "multisplit"; "multidisorder"; "tlsrec"; "oob"; "syndata"].

Definition _POS_MAP : list (string * string) :=
  [("midsld", "0+sm"); ("mid", "0+m"); ("start", "0"); ("end", "-1+e"); ("host", "0+h"); ("hostmid", "0+hm");
   ("1", "1"); ("2", "2"); ("3", "3")].
Definition _POS_FLAG_ORDER : list (string * string) :=
  [("tls_", "+s"); ("sni_", "+s"); ("http_", "+h"); ("host_", "+h")].

(** A character that is none of the given ones. *)
Definition none_of (cs : list ascii) : ascii -> bool := fun c => negb (bool_decide (c ∈ cs)).
Definition _POS_RE : re := Seq (lit "pos=") (Group 1 (Plus (Chr (none_of [":"; "]"; ","]%char)))).
Definition _MULTI_POS_RE : re := Seq (lit "pos=") (Group 1 (Plus (Chr (none_of [":"%char])))).
Definition alnum_ (c : ascii) : bool := is_alnum c || Ascii.eqb c "_".
Definition _BLOB_RE : re := Seq (lit "blob=") (Group 1 (Plus (Chr alnum_))).
Definition _PATTERN_RE : re := Seq (lit "pattern=") (Group 1 (Plus (Chr alnum_))).
Definition _REPEATS_RE : re := Seq (lit "repeats=") (Group 1 (Plus digit)).
Definition urp_re : re := Seq (lit "urp=") (Group 1 (Chr (fun c => bool_decide (c ∈ ["b"; "s"; "m"; "c"]%char)))).

Fixpoint pos_flag (table : list (string * string)) (v : string) : option string :=
  match table with
  | [] => None
  | (prefix, flag) :: table =>
      if startswith prefix v && isdigit (sdrop (String.length prefix) v)
      then Some (sdrop (String.length prefix) v +:+ flag)
      else pos_flag table v
  end.

Definition _pos_to_byedpi (pos_value : string) : string :=
  let v := strip pos_value in
  if isdigit v then v
  else match dget v _POS_MAP with
       | Some p => p
       | None => default v (pos_flag _POS_FLAG_ORDER v)
       end.

Definition _first_match (text : string) (rx : re) : option string := m ← search rx text; group 1 m.

(** [x or y] of an optional text *)
Definition or_text (x : option string) (y : string) : string :=
  match x with Some s => if nonempty s then s else y | None => y end.

(** [seg.split("=", 1)[0]] is the whole text when there is no [=]. *)
Definition segment_name (segment : string) : option string :=
  let seg := lower (strip segment) in
  if nonempty seg then Some (before "=" seg) else None.

Definition row_names (row : string) : list string :=
  let row := strip row in if nonempty row then omap segment_name (split_char ":" row) else [].

Definition _desync_option_names (line : string) : gset string :=
  list_to_set (row ← splitlines line; row_names row).

Definition unmapped_name (name : string) : bool :=
  bool_decide (name ∈ _UNMAPPED_FOOLINGS) || existsb (fun p => startswith p name) _UNMAPPED_FOOLING_PREFIXES.

Definition _has_unmapped_fooling (line : string) : bool :=
  existsb unmapped_name (elements (_desync_option_names line)).

Section Translator.
Context {FS : FileSys} (env : BlobDirs).
(** The orders in which Python walks over [_DROPPABLE_FOOLINGS] and [_SUPPORTED_FAMILIES]. *)
Context (foolings families : list string).

Definition _blob_argv (blob_name : string) : list string :=
  match resolve_blob_path env None blob_name with
  | Some path => if nonempty path && isfile path then ["-l"; path] else []
  | None => []
  end.

Definition _fooling_argv (line : string) : list string * list string :=
  let names := _desync_option_names line in
  (if decide ("tcp_md5" ∈ names) then ["--md5sig"] else [],
   (fun bad => bad +:+ " unsupported — dropped") <$> filter (fun bad => bad ∈ names) foolings).

Definition blob_args (blob : option string) : list string :=
  match blob with Some b => if nonempty b then _blob_argv b else [] | None => [] end.

Definition _translate_fake (line : string) : Translation :=
  let '(fool, ns) := _fooling_argv line in
  Translated (["-f"; "-1"] ++ blob_args (_first_match line _BLOB_RE) ++ fool) TRANSLATION_PARTIAL
    (ns ++ if found (search _REPEATS_RE line) then ["repeats=N has no ciadpi equivalent (single fake send)"] else []).

Definition _translate_hostfakesplit (line : string) : Translation :=
  let '(fool, ns) := _fooling_argv line in
  Translated (["--split"; "1+sm"]
    ++ (if contains "disorder_after" line || contains "disorder" line then ["--disorder"; "1+sm"] else [])
    ++ fool) TRANSLATION_PARTIAL ns.

Definition pattern_or_blob (line : string) : option string :=
  match _first_match line _PATTERN_RE with
  | Some b => if nonempty b then Some b else _first_match line _BLOB_RE
  | None => _first_match line _BLOB_RE
  end.

Definition _translate_fakedsplit (line : string) : Translation :=
  let pos := _pos_to_byedpi (or_text (_first_match line _POS_RE) "1") in
  Translated (["--fake"; pos; "--disorder"; pos] ++ blob_args (pattern_or_blob line)) TRANSLATION_FULL [].

Definition _translate_fakeddisorder (line : string) : Translation :=
  let pos := _pos_to_byedpi (or_text (_first_match line _POS_RE) "1") in
  Translated (["--disorder"; pos; "--fake"; pos] ++ blob_args (pattern_or_blob line)) TRANSLATION_FULL [].

Definition split_positions (line : string) : list string :=
  filter (fun p => nonempty p = true) (strip <$> split_char "," (or_text (_first_match line _MULTI_POS_RE) "1")).

Definition _translate_multisplit (line : string) : Translation :=
  let positions := split_positions line in
  Translated ((p ← positions; ["--split"; _pos_to_byedpi p])
    ++ (match positions with
        | p :: _ => if contains "disorder" line then ["--disorder"; _pos_to_byedpi p] else []
        | [] => [] end))
    TRANSLATION_PARTIAL (if contains "seqovl" line then ["seqovl unsupported — dropped"] else []).

Definition _translate_tlsrec (line : string) : Translation :=
  Translated ["-r"; _pos_to_byedpi (or_text (_first_match line _POS_RE) "1+s")] TRANSLATION_FULL [].

Definition urp_pos : list (string * string) := [("b", "0"); ("s", "0+sm"); ("m", "0+m"); ("c", "-1+e")].
Definition _translate_oob (line : string) : Translation :=
  Translated ["-o"; dget_default (or_text (_first_match line urp_re) "b") "0" urp_pos] TRANSLATION_FULL [].

Definition _translate_syndata (line : string) : Translation :=
  Translated (["-f"; "-1"] ++ if contains "tls_mod" line then ["-Q"; if contains "rnd" line then "rand" else "orig"] else [])
    TRANSLATION_PARTIAL (if found (search _REPEATS_RE line) then ["repeats=N has no ciadpi equivalent"] else []).

Definition _FAMILY_TRANSLATORS : list (string * (string -> Translation)) :=
  [("fake", _translate_fake); ("hostfakesplit", _translate_hostfakesplit); ("fakedsplit", _translate_fakedsplit);
   ("fakeddisorder", _translate_fakeddisorder); ("multisplit", _translate_multisplit);
   ("multidisorder", _translate_multisplit); ("tlsrec", _translate_tlsrec); ("oob", _translate_oob);
   ("syndata", _translate_syndata)].

(** [sorted(..., key=len, reverse=True)] is stable. *)
Definition longer (a b : string) : bool := (String.length b <? String.length a)%nat.
Definition _family_of (line : string) : option string :=
  find (fun family => startswith family line) (py_sorted longer families).

(** [_FAMILY_TRANSLATORS[family]] is a KeyError for a name that is no key. *)
Definition translate (strategy : string) : option Translation :=
  let line := strip strategy in
  if negb (nonempty line) then None
  else if _has_unmapped_fooling line then None
  else family ← _family_of line; tr ← dget family _FAMILY_TRANSLATORS; Some (tr line).

Definition translate_or_skip (strategy : string) : list string :=
  match translate strategy with Some t => argv t | None => [] end.
Definition supported_families : gset string := list_to_set _SUPPORTED_FAMILIES.
Definition is_supported (strategy : string) : bool :=
  match translate strategy with Some _ => true | None => false end.
Definition can_translate (strategy : string) : bool := is_supported strategy.
End Translator.

(** ** Theorems *)

(** The family of a line: the longest supported name it starts with. *)
Definition longest_family (line f : string) : Prop :=
  f ∈ _SUPPORTED_FAMILIES /\ startswith f line = true /\
  forall f', f' ∈ _SUPPORTED_FAMILIES -> startswith f' line = true -> (String.length f' <= String.length f)%nat.

#[export] Instance longer_order : StrictWeakOrder longer.
Proof.
  split; unfold longer; intros *; rewrite ?Nat.ltb_lt, ?Nat.ltb_ge; lia.
Qed.

Lemma find_sorted_first (P : string -> bool) l f :
  StronglySorted (fun a b => longer b a = false) l -> find P l = Some f ->
  f ∈ l /\ P f = true /\ forall f', f' ∈ l -> P f' = true -> (String.length f' <= String.length f)%nat.
Proof.
  induction 1 as [|x l Hs IH Hf]; simpl; [done|]. destruct (P x) eqn:E.
  - intros [= ->]. split_and!; [by left|done|]. intros f' [->|Hin]%elem_of_cons _; [done|].
    rewrite Forall_forall in Hf. specialize (Hf f' Hin). unfold longer in Hf. apply Nat.ltb_ge in Hf. lia.
  - intros H. destruct (IH H) as (H1 & H2 & H3). split_and!; [by right|done|].
    intros f' [->|Hin]%elem_of_cons Hp; [congruence|by apply H3].
Qed.

Lemma same_length_prefix f f' line :
  startswith f line = true -> startswith f' line = true -> String.length f = String.length f' -> f = f'.
Proof.
  intros [t Ht]%startswith_spec [t' Ht']%startswith_spec Hl. rewrite Ht in Ht'.
  by apply (prefix_same_length f f' t t').
Qed.

Lemma family_of_spec families line f :
  families ≡ₚ _SUPPORTED_FAMILIES -> _family_of families line = Some f <-> longest_family line f.
Proof.
  intros Hp. unfold _family_of, longest_family.
  assert (Hin : forall x, x ∈ py_sorted longer families <-> x ∈ _SUPPORTED_FAMILIES).
  { intros x. by rewrite elem_of_py_sorted, Hp. }
  pose proof (py_sorted_sorted longer families) as Hs. split.
  - intros H. destruct (find_sorted_first _ _ _ Hs H) as (H1 & H2 & H3).
    split_and!; [by apply Hin|done|]. intros f' Hf'. by apply H3, Hin.
  - intros (H1 & H2 & H3). destruct (find _ _) as [g|] eqn:E.
    + destruct (find_sorted_first _ _ _ Hs E) as (G1 & G2 & G3). f_equal.
      eapply same_length_prefix; [done|done|]. apply Nat.le_antisymm; [apply H3; [by apply Hin|done]|].
      apply G3; [by apply Hin|done].
    + exfalso. assert (Hf : In f (py_sorted longer families)) by by apply list_elem_of_In, Hin.
      pose proof (find_none _ _ E f Hf). congruence.
Qed.

(** A concrete set order. *)
Definition unmapped (line : string) : Prop := exists n, n ∈ _desync_option_names line /\ unmapped_name n = true.

Lemma has_unmapped_spec line : _has_unmapped_fooling line = true <-> unmapped line.
Proof.
  unfold _has_unmapped_fooling, unmapped. rewrite existsb_exists. split.
  - intros (n & Hn & Hu). exists n. split; [|done]. by apply list_elem_of_In, elem_of_elements in Hn.
  - intros (n & Hn & Hu). exists n. split; [|done]. by apply list_elem_of_In, elem_of_elements.
Qed.

(** The translator is total and deterministic: whatever the order of its sets, a line is
    translated exactly when it is not blank, has no option that byedpi cannot express and starts
    with a supported family, and then by the translator of the longest such family. *)
Theorem translate_spec `{FS : FileSys} env foolings families strategy t :
  families ≡ₚ _SUPPORTED_FAMILIES ->
  translate env foolings families strategy = Some t <->
  nonempty (strip strategy) = true /\ ~ unmapped (strip strategy) /\
  exists f tr, longest_family (strip strategy) f /\ dget f (_FAMILY_TRANSLATORS env foolings) = Some tr /\
    t = tr (strip strategy).
Proof.
  intros Hp. unfold translate. set (line := strip strategy). rewrite <- has_unmapped_spec.
  destruct (nonempty line); simpl; [|split; [done|by intros [? _]]].
  destruct (_has_unmapped_fooling line); [split; [done|by intros (_ & [] & _)]|].
  split.
  - intros (f & Ef & (tr & Et & [= <-])%bind_Some)%bind_Some.
    split_and!; [done|done|]. exists f, tr. by rewrite <- (family_of_spec families).
  - intros (_ & _ & f & tr & Hf & Ht & ->). apply (family_of_spec families) in Hf; [|done].
    apply bind_Some. exists f. split; [done|]. apply bind_Some. by exists tr.
Qed.

(** Every supported family has a translator: no lookup fails. *)
Lemma translators_total `{FS : FileSys} env foolings f :
  f ∈ _SUPPORTED_FAMILIES -> is_Some (dget f (_FAMILY_TRANSLATORS env foolings)).
Proof.
  intros Hf. repeat (apply elem_of_cons in Hf as [->|Hf]; [by eexists|]). by apply not_elem_of_nil in Hf.
Qed.

(** *** The shape of the arguments *)

Inductive option_ok `{FS : FileSys} : list string -> Prop :=
  | OptTtl : option_ok ["-f"; "-1"]
  | OptBlob p : isfile p = true -> option_ok ["-l"; p]
  | OptMd5 : option_ok ["--md5sig"]
  | OptPos flag v : flag ∈ ["--split"; "--disorder"; "--fake"; "-r"; "-o"] -> option_ok [flag; v]
  | OptMod m : m ∈ ["rand"; "orig"] -> option_ok ["-Q"; m].

Definition argv_ok `{FS : FileSys} (args : list string) : Prop :=
  exists opts, args = concat opts /\ Forall option_ok opts.

Section Argv.
Context {FS : FileSys} (env : BlobDirs).

Lemma argv_nil : argv_ok [].
Proof. by exists []. Qed.

Lemma argv_one o : option_ok o -> argv_ok o.
Proof. intros H. exists [o]. simpl. rewrite app_nil_r. split; [done|by constructor]. Qed.

Lemma argv_app a b : argv_ok a -> argv_ok b -> argv_ok (a ++ b).
Proof.
  intros (oa & -> & Ha) (ob & -> & Hb). exists (oa ++ ob). rewrite concat_app. split; [done|by apply Forall_app].
Qed.

Lemma argv_pos flag v : flag ∈ ["--split"; "--disorder"; "--fake"; "-r"; "-o"] -> argv_ok [flag; v].
Proof. intros H. by apply argv_one, OptPos. Qed.

Lemma argv_blob b : argv_ok (blob_args env b).
Proof.
  unfold blob_args, _blob_argv. destruct b as [b|]; [|apply argv_nil]. destruct (nonempty b); [|apply argv_nil].
  destruct (resolve_blob_path _ _ _) as [p|]; [|apply argv_nil]. destruct (nonempty p); [|apply argv_nil].
  destruct (isfile p) eqn:E; [|apply argv_nil]. by apply argv_one, OptBlob.
Qed.

Lemma argv_fooling foolings line : argv_ok (_fooling_argv foolings line).1.
Proof. unfold _fooling_argv. simpl. destruct (decide _); [apply argv_one, OptMd5|apply argv_nil]. Qed.

Lemma argv_splits ps : argv_ok (p ← ps; ["--split"; _pos_to_byedpi p]).
Proof.
  induction ps as [|p ps IH]; [apply argv_nil|].
  change (argv_ok (["--split"; _pos_to_byedpi p] ++ (p ← ps; ["--split"; _pos_to_byedpi p]))).
  apply argv_app; [apply argv_pos; left|exact IH].
Qed.
End Argv.

Create HintDb byedpi.
#[local] Hint Resolve argv_nil argv_one argv_app argv_blob argv_splits OptTtl OptMd5 : byedpi.

Lemma argv_translators `{FS : FileSys} env foolings f tr line :
  dget f (_FAMILY_TRANSLATORS env foolings) = Some tr -> argv_ok (argv (tr line)).
Proof.
  pose proof (argv_fooling foolings line) as Hfool.
  assert (Hpair : forall x y a b, x ∈ ["--split"; "--disorder"; "--fake"; "-r"; "-o"] ->
    y ∈ ["--split"; "--disorder"; "--fake"; "-r"; "-o"] -> argv_ok ([x; a; y; b] : list string)).
  { intros x y a b Hx Hy. apply (argv_app [x; a] [y; b]); by apply argv_pos. }
  assert (Hm : forall v, v ∈ ["rand"; "orig"] -> argv_ok ["-Q"; v]) by (intros v Hv; by apply argv_one, OptMod).
  intros H. assert (Hin : (f, tr) ∈ _FAMILY_TRANSLATORS env foolings).
  { apply elem_of_dict; [|done]. unfold wf, keys. simpl. refine (bool_decide_unpack _ _). vm_compute. exact I. }
  unfold _FAMILY_TRANSLATORS in Hin.
  repeat (apply elem_of_cons in Hin as [Hin|Hin]; [injection Hin as -> ->|]); [..|by apply not_elem_of_nil in Hin].
  - unfold _translate_fake. destruct (_fooling_argv foolings line). simpl. apply (argv_app ["-f"; "-1"]); auto with byedpi.
  - unfold _translate_hostfakesplit. destruct (_fooling_argv foolings line). simpl.
    apply (argv_app ["--split"; "1+sm"]); [apply argv_pos; left|]. apply argv_app; [|done].
    destruct (_ || _); auto with byedpi. apply argv_pos. right. left.
  - apply (argv_app [_; _; _; _]); [apply Hpair; set_solver|apply argv_blob].
  - apply (argv_app [_; _; _; _]); [apply Hpair; set_solver|apply argv_blob].
  - apply argv_app; [apply argv_splits|]. destruct (split_positions line); [apply argv_nil|].
    destruct (contains _ _); [|apply argv_nil]. apply argv_pos. right. left.
  - apply argv_app; [apply argv_splits|]. destruct (split_positions line); [apply argv_nil|].
    destruct (contains _ _); [|apply argv_nil]. apply argv_pos. right. left.
  - apply argv_pos. set_solver.
  - apply argv_pos. set_solver.
  - apply (argv_app ["-f"; "-1"]); [auto with byedpi|]. destruct (contains "tls_mod" line); [|apply argv_nil].
    apply Hm. destruct (contains "rnd" line); set_solver.
Qed.

(** Whatever a strategy says, the arguments handed to ciadpi are a sequence of complete options:
    every flag is one of ciadpi's with its value, and a blob option names an existing file. *)
Theorem translate_argv_ok `{FS : FileSys} env foolings families strategy :
  families ≡ₚ _SUPPORTED_FAMILIES ->
  argv_ok (translate_or_skip env foolings families strategy).
Proof.
  intros Hp. unfold translate_or_skip. destruct (translate _ _ _ _) as [t|] eqn:E; [|apply argv_nil].
  unfold translate in E. destruct (negb _); [done|]. destruct (_has_unmapped_fooling _); [done|].
  apply bind_Some in E as (f & _ & (tr & Et & [= <-])%bind_Some). by eapply argv_translators.
Qed.

Lemma translate_spec_witness :
  is_Some (@translate ex_files ex_dirs _DROPPABLE_FOOLINGS _SUPPORTED_FAMILIES "hostfakesplit:midhost=midsld").
Proof.
  exists (Translated ["--split"; "1+sm"] TRANSLATION_PARTIAL []).
  apply (@translate_spec ex_files); [reflexivity|]. split; [reflexivity|]. split.
  - rewrite <- has_unmapped_spec. vm_compute. discriminate.
  - exists "hostfakesplit", (_translate_hostfakesplit _DROPPABLE_FOOLINGS). split; [|split; [reflexivity|vm_compute; reflexivity]].
    split; [set_solver|]. split; [reflexivity|]. intros f' Hf'.
    repeat (apply elem_of_cons in Hf' as [->|Hf']; [vm_compute; intros; repeat constructor; discriminate|]).
    by apply not_elem_of_nil in Hf'.
Defined.

Lemma translate_argv_ok_witness :
  @translate_or_skip ex_files ex_dirs _DROPPABLE_FOOLINGS _SUPPORTED_FAMILIES "fake:blob=stun:tcp_md5"
    = ["-f"; "-1"; "-l"; "/b/stun.bin"; "--md5sig"] /\
  @argv_ok ex_files (@translate_or_skip ex_files ex_dirs _DROPPABLE_FOOLINGS _SUPPORTED_FAMILIES "fake:blob=stun:tcp_md5").
Proof. split; [vm_compute; reflexivity|]. apply (@translate_argv_ok ex_files). reflexivity. Defined.

(** A fakedsplit or fakeddisorder line is called a full translation although its MD5
    fooling and its repeats are dropped. *)
Theorem full_translation_drops_md5 `{FS : FileSys} env foolings :
  translate env foolings _SUPPORTED_FAMILIES "fakedsplit:pos=2:tcp_md5:repeats=6" =
    Some (Translated ["--fake"; "2"; "--disorder"; "2"] TRANSLATION_FULL []) /\
  translate env foolings _SUPPORTED_FAMILIES "fakeddisorder:pos=2:tcp_md5" =
    Some (Translated ["--disorder"; "2"; "--fake"; "2"] TRANSLATION_FULL []).
Proof. split; vm_compute; reflexivity. Qed.

(** A split without a position is supported, but by no argument at all. *)
Theorem empty_split_translated `{FS : FileSys} env foolings :
  translate env foolings _SUPPORTED_FAMILIES "multisplit:pos=," = Some (Translated [] TRANSLATION_PARTIAL []).
Proof. vm_compute. reflexivity. Qed.

(** [tcp_ack] is dropped, not a reason to skip the line. *)
Theorem tcp_ack_dropped `{FS : FileSys} env :
  translate env _DROPPABLE_FOOLINGS _SUPPORTED_FAMILIES "hostfakesplit:tcp_ack=-66000" =
    Some (Translated ["--split"; "1+sm"] TRANSLATION_PARTIAL ["tcp_ack unsupported — dropped"]).
Proof. vm_compute. reflexivity. Qed.
