(* ===== verification/Blake2s.v ===== *)
(** * BLAKE2s

    [hashlib.blake2s(data, digest_size=n).hexdigest()] without a key: the hash function of the
    language's library (RFC 7693) that [engine/generators/families/_helpers.py] puts into labels.
    Words are integers below [2^32] with the wrap-around written out. *)

From stdpp Require Import base numbers list strings.
From Stdlib Require Import ZArith Lia Ascii.
From S2P Require Import Prelude PyStr.

#[local] Open Scope Z_scope.

Definition word32 (z : Z) : Z := z mod 2 ^ 32.
Definition rotr32 (w : Z) (n : Z) : Z := word32 (Z.lor (Z.shiftr w n) (Z.shiftl w (32 - n))).

Definition IV : list Z :=
  [0x6A09E667; 0xBB67AE85; 0x3C6EF372; 0xA54FF53A; 0x510E527F; 0x9B05688C; 0x1F83D9AB; 0x5BE0CD19].

Definition SIGMA : list (list nat) :=
  [ [0; 1; 2; 3; 4; 5; 6; 7; 8; 9; 10; 11; 12; 13; 14; 15];
    [14; 10; 4; 8; 9; 15; 13; 6; 1; 12; 0; 2; 11; 7; 5; 3];
    [11; 8; 12; 0; 5; 2; 15; 13; 10; 14; 3; 6; 7; 1; 9; 4];
    [7; 9; 3; 1; 13; 12; 11; 14; 2; 6; 5; 10; 4; 0; 15; 8];
    [9; 0; 5; 7; 2; 4; 10; 15; 14; 1; 11; 12; 6; 8; 3; 13];
    [2; 12; 6; 10; 0; 11; 8; 3; 4; 13; 7; 5; 15; 14; 1; 9];
    [12; 5; 1; 15; 14; 13; 4; 10; 0; 7; 6; 3; 9; 2; 8; 11];
    [13; 11; 7; 14; 12; 1; 3; 9; 5; 0; 15; 4; 8; 6; 2; 10];
    [6; 15; 14; 9; 11; 3; 0; 8; 12; 2; 13; 7; 1; 4; 10; 5];
    [10; 2; 8; 4; 7; 6; 1; 5; 15; 11; 9; 14; 3; 12; 13; 0] ]%nat.

Definition at_ (i : nat) (v : list Z) : Z := default 0 (v !! i).

(** The quarter round on the words [a b c d] of the work vector. *)
Definition mix (a b c d : nat) (x y : Z) (v : list Z) : list Z :=
  let va := word32 (at_ a v + at_ b v + x) in
  let vd := rotr32 (Z.lxor (at_ d v) va) 16 in
  let vc := word32 (at_ c v + vd) in
  let vb := rotr32 (Z.lxor (at_ b v) vc) 12 in
  let va := word32 (va + vb + y) in
  let vd := rotr32 (Z.lxor vd va) 8 in
  let vc := word32 (vc + vd) in
  let vb := rotr32 (Z.lxor vb vc) 7 in
  <[a := va]> (<[b := vb]> (<[c := vc]> (<[d := vd]> v))).

(** Columns, then diagonals. *)
Definition lanes : list (nat * nat * nat * nat) :=
  [(0, 4, 8, 12); (1, 5, 9, 13); (2, 6, 10, 14); (3, 7, 11, 15);
   (0, 5, 10, 15); (1, 6, 11, 12); (2, 7, 8, 13); (3, 4, 9, 14)]%nat.

Definition mix_round (m : list Z) (v : list Z) (s : list nat) : list Z :=
  foldl (fun v il =>
    let '(i, (a, b, c, d)) := il in
    mix a b c d (at_ (default 0%nat (s !! (2 * i)%nat)) m) (at_ (default 0%nat (s !! (2 * i + 1)%nat)) m) v)
    v (zip (seq 0 8) lanes).

(** [t] bytes have been absorbed with this block; [last] marks the last block. *)
Definition compress (h m : list Z) (t : Z) (last : bool) : list Z :=
  let v := h ++ IV in
  let v := <[12%nat := Z.lxor (at_ 12 v) (word32 t)]> v in
  let v := <[13%nat := Z.lxor (at_ 13 v) (word32 (Z.shiftr t 32))]> v in
  let v := if last then <[14%nat := Z.lxor (at_ 14 v) (2 ^ 32 - 1)]> v else v in
  let v := foldl (mix_round m) v SIGMA in
  zip_with (fun hi '(a, b) => Z.lxor hi (Z.lxor a b)) h (zip (take 8 v) (drop 8 v)).

Definition byte_of (c : ascii) : Z := Z.of_N (N_of_ascii c).

Fixpoint bytes_of (s : string) : list Z :=
  match s with String c s => byte_of c :: bytes_of s | EmptyString => [] end.

Definition le_word (b : list Z) : Z := foldr (fun x acc => x + 256 * acc) 0 b.

(** The sixteen words of a block, padded with zeros. *)
Definition block_words (b : list Z) : list Z :=
  (fun i => le_word (take 4 (drop (4 * i) b))) <$> seq 0 16.

Definition absorb (nblocks : nat) (st : Z * list Z) (ib : nat * list Z) : Z * list Z :=
  let '(t, h) := st in
  let '(i, b) := ib in
  let t := t + Z.of_nat (length b) in
  (t, compress h (block_words b) t (Nat.eqb (S i) nblocks)).

(** An empty message is one empty block. *)
Definition blocks_of (bytes : list Z) : list (list Z) :=
  match windows 64 bytes with [] => [[]] | bs => bs end.

Definition blake2s_words (digest_size : Z) (bytes : list Z) : list Z :=
  let h := <[0%nat := Z.lxor (at_ 0 IV) (Z.lxor 0x01010000 digest_size)]> IV in
  let bs := blocks_of bytes in
  (foldl (absorb (length bs)) (0, h) (zip (seq 0 (length bs)) bs)).2.

Definition hex_digit (n : Z) : ascii :=
  if n <? 10 then ascii_of_N (Z.to_N (n + 48)) else ascii_of_N (Z.to_N (n + 87)).

Definition hex_byte (b : Z) : string :=
  String (hex_digit (Z.shiftr b 4)) (String (hex_digit (Z.land b 15)) EmptyString).

(** The bytes of the words, the low byte first. *)
Definition digest_bytes (ws : list Z) : list Z :=
  w ← ws; (fun i => Z.land (Z.shiftr w (8 * i)) 255) <$> [0; 1; 2; 3].

Definition blake2s_hex (digest_size : nat) (data : string) : string :=
  join EmptyString (hex_byte <$> take digest_size
    (digest_bytes (blake2s_words (Z.of_nat digest_size) (bytes_of data)))).

Example blake2s_abc :
  blake2s_hex 32 "abc" = "508c5e8c327c14e2e1a72ba34eeb452f37458b209ed63a294d999b4c86675982"%string.
Proof. vm_compute. reflexivity. Qed.

Example blake2s_short :
  blake2s_hex 3 <$> ["abc"; ""; "fake:blob=google:repeats=6:tls_mod=rnd"]%string = ["9d3283"; "ad25c7"; "8a9600"]%string.
Proof. vm_compute. reflexivity. Qed.

(** ** The shape of a digest *)

Lemma length_mix a b c d x y v : length (mix a b c d x y v) = length v.
Proof. unfold mix. by rewrite !length_insert. Qed.

Lemma length_mix_round m v s : length (mix_round m v s) = length v.
Proof.
  unfold mix_round. generalize (zip (seq 0 8) lanes). intros l. revert v.
  induction l as [|[i [[[a b] c] d]] l IH]; intros v; [done|].
  cbn [foldl]. by rewrite IH, length_mix.
Qed.

Lemma length_rounds m l v : length (foldl (mix_round m) v l) = length v.
Proof. revert v. induction l as [|s l IH]; intros v; [done|]. cbn [foldl]. by rewrite IH, length_mix_round. Qed.

Lemma length_compress h m t last : length h = 8%nat -> length (compress h m t last) = 8%nat.
Proof.
  intros Hh. unfold compress. cbv zeta.
  rewrite length_zip_with, length_zip_with, length_take, length_drop, length_rounds.
  assert (Hv : length (h ++ IV) = 16%nat) by by rewrite length_app, Hh.
  destruct last; rewrite !length_insert, Hv; lia.
Qed.

Lemma length_blake2s_words n bytes : length (blake2s_words n bytes) = 8%nat.
Proof.
  unfold blake2s_words. cbv zeta. generalize (zip (seq 0 (length (blocks_of bytes))) (blocks_of bytes)).
  generalize (length (blocks_of bytes)). intros k l.
  set (h := insert 0%nat _ IV).
  assert (H : length h = 8%nat) by done. clearbody h.
  generalize 0 as t. revert h H. induction l as [|[i b] l IH]; intros h H t; [done|].
  cbn [foldl]. apply IH. by apply length_compress.
Qed.

Definition is_hex (c : ascii) : bool := is_digit c || bool_decide (c ∈ ["a"; "b"; "c"; "d"; "e"; "f"]%char).

Lemma hex_digit_ok n : 0 <= n < 16 -> is_hex (hex_digit n) = true.
Proof.
  intros Hn. assert (H : Forall (fun n => is_hex (hex_digit n) = true) (seqZ 0 16)).
  { refine (bool_decide_unpack _ _). vm_compute. exact I. }
  rewrite Forall_forall in H. apply H, elem_of_seqZ. lia.
Qed.

Lemma hex_byte_ok b : 0 <= b < 256 -> String.length (hex_byte b) = 2%nat /\ sforall is_hex (hex_byte b) = true.
Proof.
  intros Hb. split; [done|]. unfold hex_byte. cbn [sforall]. rewrite !hex_digit_ok; [done|..].
  - change 15 with (Z.ones 4). rewrite Z.land_ones by lia. apply Z.mod_pos_bound. lia.
  - rewrite Z.shiftr_div_pow2 by lia. split; [apply Z.div_pos; lia|]. apply Z.div_lt_upper_bound; lia.
Qed.

Lemma digest_bytes_ok ws :
  length (digest_bytes ws) = (4 * length ws)%nat /\ Forall (fun b => 0 <= b < 256) (digest_bytes ws).
Proof.
  induction ws as [|w ws [IH1 IH2]]; [by split|].
  change (digest_bytes (w :: ws)) with (((fun i => Z.land (Z.shiftr w (8 * i)) 255) <$> [0; 1; 2; 3]) ++ digest_bytes ws).
  split; [rewrite length_app, IH1; simpl; lia|]. apply Forall_app. split; [|exact IH2].
  apply Forall_fmap, Forall_forall. intros i _. unfold compose. change 255 with (Z.ones 8).
  rewrite Z.land_ones by lia. apply Z.mod_pos_bound. lia.
Qed.

Lemma join_hex (l : list string) :
  Forall (fun s => String.length s = 2%nat /\ sforall is_hex s = true) l ->
  String.length (join EmptyString l) = (2 * length l)%nat /\ sforall is_hex (join EmptyString l) = true.
Proof.
  intros H. induction H as [|s l [Hs1 Hs2] _ [IH1 IH2]]; [by split|].
  destruct l as [|s' l]; [cbn [join]; split; [simpl; lia|done]|].
  change (join EmptyString (s :: s' :: l)) with (s +:+ EmptyString +:+ join EmptyString (s' :: l)).
  rewrite append_nil_l, length_append, sforall_append, IH1, Hs1, Hs2, IH2. split; [simpl; lia|done].
Qed.

(** A digest of [n] bytes is [2 n] lower-case hexadecimal digits. *)
Lemma blake2s_hex_shape n data :
  (n <= 32)%nat ->
  String.length (blake2s_hex n data) = (2 * n)%nat /\ sforall is_hex (blake2s_hex n data) = true.
Proof.
  intros Hn. unfold blake2s_hex. set (ws := blake2s_words _ _).
  destruct (digest_bytes_ok ws) as [Hl Hb].
  destruct (join_hex (hex_byte <$> take n (digest_bytes ws))) as [H1 H2].
  - apply Forall_fmap. eapply Forall_impl; [by apply Forall_take|]. intros b. apply hex_byte_ok.
  - split; [|done]. rewrite H1, length_fmap, length_take, Hl. subst ws. rewrite length_blake2s_words. lia.
Qed.
