(* ===== verification/GenHelpers.v ===== *)
(** * Shared helpers of the family expanders: [engine/generators/families/_helpers.py]

    Labels, clauses and companions of strategies; products of axes; emission of rows into the
    accumulated items; the typed parameters of a family. A dictionary of axes is an association
    list of [axval]; an exception is [None]. *)

From stdpp Require Import base numbers list strings gmap.
From Stdlib Require Import ZArith Lia Ascii.
From S2P Require Import Prelude PyStr PyDict FamilyAxes Families TriagePrune Blake2s.

#[local] Open Scope string_scope.

(** ** Text *)

(** [s[:k]] and [s[k:]] with Python's negative positions. *)
Definition slice_end (k : Z) (s : string) : nat :=
  Z.to_nat (if (k <? 0)%Z then Z.of_nat (String.length s) + k else k).
Definition py_take (k : Z) (s : string) : string := stake (slice_end k s) s.
Definition py_drop (k : Z) (s : string) : string := sdrop (slice_end k s) s.

(** [s.replace(a, b)] for single characters *)
Definition replace_char (a b : ascii) (s : string) : string :=
  smap (fun c => if Ascii.eqb c a then b else c) s.

Definition newline : string := String (ascii_of_N 10) EmptyString.

(** [a or b] for texts *)
Definition str_or (a b : string) : string := if nonempty a then a else b.

(** [int(v)] raises on what is no number: [axis_int]. *)
Definition zstr (z : Z) : string := str_of_Z z.

(** ** Labels *)

Definition _CMD_LABEL_DIGEST : nat := 3.

Definition cmd_label (prefix cmd : string) : string :=
  prefix +:+ "_" +:+ blake2s_hex _CMD_LABEL_DIGEST cmd.

Definition _PAIR_LABEL_WIDTH : Z := 22.
Definition _PAIR_LABEL_TAIL : Z := 7.

Definition format_pair_label (label : string) (width : Z) : string :=
  if (Z.of_nat (String.length label) <=? width)%Z then label
  else
    let tail_n := Z.min _PAIR_LABEL_TAIL width in
    py_take (width - tail_n) label +:+ py_drop (- tail_n) label.

(** ** Clauses and companions *)

Definition _ttl_clause (ttl_val : axval) : string :=
  if match ttl_val with VNone => true | VStr s => negb (nonempty s) | _ => false end then EmptyString
  else
    let text := py_str ttl_val in
    if contains "-" text && contains "," text then ":ip_autottl=" +:+ text else ":ip_ttl=" +:+ text.

Definition _fooling_clause (fool : string) : string :=
  if nonempty fool then ":" +:+ fool else EmptyString.

Definition required_foolings (fools : list string) : list string :=
  filter (fun f => nonempty f = true) fools.

Definition _with_ack_drop (core : string) : string :=
  core +:+ newline +:+ "--payload=empty --out-range=s1<d1" +:+ newline +:+ "pktmod:ip_ttl=1".

Definition _with_send_md5 (core : string) : string :=
  core +:+ newline +:+ "--payload=empty --out-range=<s1" +:+ newline +:+ "send:tcp_md5".

Definition _with_ip6_send_drop (fool : string) : string := "send:" +:+ fool +:+ newline +:+ "drop".

(** ** Products of axes

    [expand_axes] applies [build] to every combination of the axes, the last axis varying
    fastest; the keys of the Python dictionary are the arguments of [build]. *)

Section Product.
Context {A B C D E F R : Type}.
Implicit Types (xs : list A) (ys : list B) (zs : list C) (us : list D) (vs : list E) (ws : list F).

Definition expand1 xs (build : A -> R) : list R := x ← xs; [build x].
Definition expand2 xs ys (build : A -> B -> R) : list R := x ← xs; y ← ys; [build x y].
Definition expand3 xs ys zs (build : A -> B -> C -> R) : list R := x ← xs; y ← ys; z ← zs; [build x y z].
Definition expand4 xs ys zs us (build : A -> B -> C -> D -> R) : list R :=
  x ← xs; y ← ys; z ← zs; u ← us; [build x y z u].
Definition expand5 xs ys zs us vs (build : A -> B -> C -> D -> E -> R) : list R :=
  x ← xs; y ← ys; z ← zs; u ← us; v ← vs; [build x y z u v].
Definition expand6 xs ys zs us vs ws (build : A -> B -> C -> D -> E -> F -> R) : list R :=
  x ← xs; y ← ys; z ← zs; u ← us; v ← vs; w ← ws; [build x y z u v w].
End Product.

(** The rows of a product whose [build] may raise. *)
Definition rows_or_raise {R} (rows : list (option R)) : option (list R) := mapM id rows.

(** ** Emission *)

(** A row: label and strategy. *)
Abbreviation row := (string * string)%type.

(** The lists [items] and [seen] an expander threads. *)
Record gen : Type := Gen { g_items : list StrategyItem; g_seen : gset string }.
Definition no_items : gen := Gen [] ∅.

(** [StandardGenerator._add]: dedup by strategy string *)
Definition _add (label strategy protocol : string) (st : gen) : gen :=
  let key := strip strategy in
  if decide (key ∈ g_seen st) then st
  else Gen (g_items st ++ [Item label strategy false protocol]) ({[key]} ∪ g_seen st).

(** The state and whether the caller should stop. *)
Fixpoint emit_rows (scan_level protocol : string) (rows : list row) (st : gen) : gen * bool :=
  match rows with
  | [] => (st, false)
  | (label, strat) :: rows =>
      let st := _add label strat protocol st in
      if String.eqb scan_level "single" then (st, true) else emit_rows scan_level protocol rows st
  end.

(** [if emit_rows(...): return items], then the rest. *)
Definition unless_stopped (r : gen * bool) (rest : gen -> option gen) : option gen :=
  if r.2 then Some r.1 else rest r.1.

(** [auto_fmt.format(ttl=t)] is given as a function. *)
Definition ttl_companion_rows (label strat : string) (static : list Z) (auto : list string)
    (auto_fmt : string -> string) : list row :=
  ((fun t => (label +:+ "_ttl" +:+ zstr t, strat +:+ _ttl_clause (VInt t))) <$> static)
  ++ ((fun t => (label +:+ "_" +:+ auto_fmt t, strat +:+ _ttl_clause (VStr t))) <$> auto).

Definition auto_fmt_default (ttl : string) : string := "autottl" +:+ ttl.

(** ** Parameters *)

Record StrategyParams : Type := Params {
  p_protocol : string; p_scan_level : string;
  p_repeats : list Z; p_foolings : list string; p_blobs : list string;
  p_ttl_static : list Z; p_ttl_auto : list string; p_positions : list string; p_tls_mods : list string;
  p_ack_drop : bool; p_send_md5 : bool; p_blob_pairs : list (list string);
  p_pattern_blobs : list string; p_seqovl_blobs : list string; p_seqovl : list Z;
  p_variants : list string; p_fools : list string; p_out_range : list axval;
  p_profiles : list (list string); p_triples : list (list string);
  p_hf_hosts : list string; p_hf_variants : list string
}.

(** [family.get(key, default)] iterated *)
Definition get_iter (key : string) (dflt : list axval) (family : axes) : option (list axval) :=
  match dget key family with Some v => py_iter v | None => Some dflt end.

Definition _ints (family : axes) (key : string) : option (list Z) :=
  vs ← get_iter key [] family; mapM axis_int vs.
Definition _strs (family : axes) (key : string) : option (list string) :=
  vs ← get_iter key [] family; Some (map py_str vs).
Definition _pairs (family : axes) (key : string) : option (list (list string)) :=
  rs ← get_iter key [] family; mapM (fun r => xs ← py_iter r; Some (map py_str xs)) rs.
Definition get_truthy (key : string) (family : axes) : bool :=
  match dget key family with Some v => truthy v | None => false end.

(** [l or dflt] for sequences *)
Definition list_or {A} (l dflt : list A) : list A := match l with [] => dflt | _ => l end.

(** [StrategyParams.from_family(family, scan_level=..., foolings=...)]: the overrides the
    expanders use. *)
Definition from_family (family : axes) (scan_level : string) (foolings : option (list string))
    : option StrategyParams :=
  repeats ← _ints family "repeats";
  fools0 ← _strs family "foolings";
  blobs ← _strs family "blobs";
  ttl_static ← _ints family "ttl_static";
  ttl_auto ← _strs family "ttl_auto";
  positions ← _strs family "positions";
  tls_mods ← _strs family "tls_mods";
  blob_pairs ← _pairs family "blob_pairs";
  pattern_blobs ← _strs family "pattern_blobs";
  seqovl_blobs ← _strs family "seqovl_blobs";
  seqovl ← _ints family "seqovl";
  variants ← _strs family "variants";
  fools ← _strs family "fools";
  out_range ← get_iter "out_range" [] family;
  profiles ← _pairs family "profiles";
  triples ← _pairs family "triples";
  hf_hosts ← _strs family "hf_hosts";
  hf_variants ← _strs family "hf_variants";
  Some (Params "tls12" scan_level (list_or repeats [6%Z]) (default (list_or fools0 [EmptyString]) foolings)
    blobs ttl_static ttl_auto positions tls_mods (get_truthy "ack_drop" family) (get_truthy "send_md5" family)
    blob_pairs pattern_blobs seqovl_blobs seqovl variants fools out_range profiles triples hf_hosts hf_variants).

(** [required_foolings(family.get("foolings", ()))]: an iterable of texts. *)
Definition as_str (v : axval) : option string := match v with VStr s => Some s | _ => None end.
Definition family_foolings (family : axes) : option (list string) :=
  vs ← get_iter "foolings" [] family; fs ← mapM as_str vs; Some (required_foolings fs).
