(* ===== verification/GenFake.v ===== *)
(** * Fake-packet expanders: [engine/generators/families/fake.py] *)

From stdpp Require Import base numbers list strings gmap.
From Stdlib Require Import ZArith Lia Ascii.
From S2P Require Import Prelude PyStr PyDict FamilyAxes Families TriagePrune Blake2s GenHelpers.

#[local] Open Scope string_scope.

(** What every expander is: the items and the seen keys so far, the axes of the family, the scan
    level and the labels known to work. [None] is an exception. *)
Abbreviation expander_fn := (gen -> axes -> string -> gset string -> option gen).

Definition _ACK_BLOBS : list string := ["stun"; "google"; "0x00000000"].

Definition _hf_core (variant fool : string) : string :=
  let f := _fooling_clause fool in
  if String.eqb variant "base" then "hostfakesplit:nofake2" +:+ f +:+ ":repeats=1"
  else if String.eqb variant "disorder" then "hostfakesplit:disorder_after:nofake2" +:+ f +:+ ":repeats=1"
  else "hostfakesplit:" +:+ variant +:+ f +:+ ":repeats=1".

Definition _fake_hf_line (hf fool : string) : string :=
  let f := _fooling_clause fool in
  if String.eqb hf "base" then "hostfakesplit:nofake2" +:+ f +:+ ":repeats=1"
  else "hostfakesplit:" +:+ hf +:+ ":nofake2" +:+ f +:+ ":repeats=1".

(** [f"fake:blob={blob}:repeats={r}{fool}"] *)
Definition fake_line (blob : string) (r : string) (fool : string) : string :=
  "fake:blob=" +:+ blob +:+ ":repeats=" +:+ r +:+ _fooling_clause fool.

(** [fool or 'nofool'] *)
Definition fool_name (fool : string) : string := str_or fool "nofool".

(** The rows of the companions: the labels and strategies of the cores that [ok] accepts. *)
Definition companions {C} (cores : list row) (combos : list C) (ok : C -> bool) (suffix : string)
    (with_ : string -> string) : list row :=
  omap (fun cc => let '((lab, st), c) := cc in
    if ok c then Some (lab +:+ suffix, with_ st) else None) (zip cores combos).

(** The TTL companions of the cores, but not of known labels in a fast scan. *)
Definition ttl_rows (scan_level : string) (known_working : gset string) (cores : list row)
    (static : list Z) (auto : list string) : list row :=
  c ← cores;
  if String.eqb scan_level "fast" && bool_decide (c.1 ∈ known_working) then []
  else ttl_companion_rows c.1 c.2 static auto auto_fmt_default.

(** ** [fake] *)

Definition fake_core (blob : string) (r : Z) (fool : string) : row :=
  ("std_fake_" +:+ blob +:+ "_r" +:+ zstr r +:+ "_" +:+ fool_name fool, fake_line blob (zstr r) fool).

Definition fake_ip6_row (fool : string) (ip6 : axval) (blob : string) : row :=
  ("std_fake_" +:+ blob +:+ "_r6_" +:+ py_str ip6,
   "fake:blob=" +:+ blob +:+ ":repeats=6:" +:+ py_str ip6 +:+ ":" +:+ fool).

Definition fake_tls_row (blob : string) (r : Z) (tmod : string) : row :=
  let cmd := "fake:blob=" +:+ blob +:+ ":repeats=" +:+ zstr r +:+ ":tls_mod=" +:+ tmod in
  (cmd_label ("std_fake_" +:+ blob +:+ "_r" +:+ zstr r +:+ "_tlsmod=" +:+ py_take 20 tmod) cmd, cmd).

(** [_axis_vals] of an axis value: a text is one value. *)
Definition axis_values (v : axval) : option (list axval) :=
  match v with VStr _ => Some [v] | _ => py_iter v end.

Definition fake_companions (p : StrategyParams) (scan_level : string) (known_working : gset string)
    (cores : list row) : list row :=
  let combos := expand3 (p_blobs p) (p_repeats p) (p_foolings p) (fun blob r fool => (blob, fool)) in
  let ack := companions cores combos (fun bf =>
    p_ack_drop p && bool_decide (bf.2 ∈ [""; "tcp_ts=-1000"]) && bool_decide (bf.1 ∈ _ACK_BLOBS))
    "_ackdrop" _with_ack_drop in
  let md5 := companions cores combos (fun bf => p_send_md5 p && contains "tcp_md5" bf.2)
    "_sendmd5" _with_send_md5 in
  let ttl := ttl_rows scan_level known_working cores (p_ttl_static p) (p_ttl_auto p) in
  let tls := expand3 (filter (fun b => b ∈ ["google"; "0x00000000"]) (p_blobs p)) [6; 8]%Z
    (filter (fun t => nonempty t = true) (p_tls_mods p)) fake_tls_row in
  let empty_fool := negb (existsb nonempty (p_foolings p)) || bool_decide ("" ∈ p_foolings p) in
  ack ++ md5 ++ ttl ++ (if empty_fool then tls else []).

Definition _fam_fake : expander_fn := fun st family scan_level known_working =>
  p ← from_family family scan_level None;
  let cores := expand3 (p_blobs p) (p_repeats p) (p_foolings p) fake_core in
  unless_stopped (emit_rows scan_level "tls12" cores st) (fun st =>
    let fool := default "tcp_ts=-1000" (head (required_foolings (p_foolings p))) in
    st ← match dget "ipv6_extra" family with
         | Some ip6 =>
             if truthy ip6 && negb (String.eqb scan_level "single") then
               vals ← axis_values ip6;
               Some (emit_rows "fast" "tls12" (expand2 vals ["stun"; "google"] (fake_ip6_row fool)) st).1
             else Some st
         | None => Some st
         end;
    Some (emit_rows scan_level "tls12" (fake_companions p scan_level known_working cores) st).1).

(** ** [hostfake] *)

Definition hostfake_core (fool variant : string) : row :=
  ("std_hf_" +:+ variant +:+ "_" +:+ fool_name fool, _hf_core variant fool).

Definition hostfake_host_row (host : axval) (fool : string) : row :=
  ("std_hf_host_" +:+ py_str host +:+ "_" +:+ fool_name fool,
   "hostfakesplit:host=" +:+ py_str host +:+ ":nofake2" +:+ _fooling_clause fool +:+ ":repeats=1").

Definition hostfake_companions (p : StrategyParams) (scan_level : string) (known_working : gset string)
    (cores : list row) : list row :=
  let combos := expand2 (p_foolings p) (p_variants p) (fun fool variant => (fool, variant)) in
  let ack := companions cores combos (fun fv =>
    p_ack_drop p && String.eqb fv.1 "tcp_ts=-1000" && String.eqb fv.2 "base") "_ackdrop" _with_ack_drop in
  let md5 := companions cores combos (fun fv =>
    p_send_md5 p && contains "tcp_md5" fv.1 && String.eqb fv.2 "base") "_sendmd5" _with_send_md5 in
  ack ++ md5 ++ ttl_rows scan_level known_working cores (p_ttl_static p) (p_ttl_auto p).

(** [tuple(family.get("hosts") or ())] *)
Definition family_hosts (family : axes) : option (list axval) :=
  match dget "hosts" family with
  | Some v => if truthy v then py_iter v else Some []
  | None => Some []
  end.

Definition _fam_hostfake : expander_fn := fun st family scan_level known_working =>
  fools ← family_foolings family;
  p ← from_family family scan_level (Some fools);
  let cores := expand2 (p_foolings p) (p_variants p) hostfake_core in
  hosts ← family_hosts family;
  let extra := expand2 hosts (list_or (required_foolings (p_foolings p)) ["tcp_ts=-1000"]) hostfake_host_row in
  unless_stopped (match hosts with [] => (st, false) | _ => emit_rows scan_level "tls12" extra st end) (fun st =>
    unless_stopped (emit_rows scan_level "tls12" cores st) (fun st =>
      Some (emit_rows scan_level "tls12" (hostfake_companions p scan_level known_working cores) st).1)).

(** ** Two and three fakes *)

Definition multi_fake_row (pair : list string) (rp : axval) (fool : string) : option row :=
  b0 ← pair !! 0; b1 ← pair !! 1; r0 ← py_index rp 0; r1 ← py_index rp 1;
  Some ("std_multi_" +:+ b0 +:+ "+" +:+ b1 +:+ "_r" +:+ py_str r0 +:+ "+" +:+ py_str r1 +:+ "_" +:+ fool_name fool,
        fake_line b0 (py_str r0) fool +:+ newline +:+ fake_line b1 (py_str r1) fool).

(** [family.get("repeat_pairs", [(r, r) for r in family.get("repeats", [6])])] *)
Definition repeat_pairs (family : axes) : option (list axval) :=
  rs ← get_iter "repeats" [VInt 6] family;
  match dget "repeat_pairs" family with
  | Some v => axis_values v
  | None => Some (map (fun r => VTuple [r; r]) rs)
  end.

Definition _fam_multi_fake : expander_fn := fun st family scan_level _ =>
  p ← from_family family scan_level None;
  rps ← repeat_pairs family;
  rows ← rows_or_raise (expand3 (p_blob_pairs p) rps (p_foolings p) multi_fake_row);
  Some (emit_rows scan_level "tls12" rows st).1.

Definition triple_fake_row (t : list string) (r : Z) (fool : string) : option row :=
  b0 ← t !! 0; b1 ← t !! 1; b2 ← t !! 2;
  Some ("std_triple_" +:+ b0 +:+ "+" +:+ b1 +:+ "+" +:+ b2 +:+ "_r" +:+ zstr r +:+ "_" +:+ fool_name fool,
        join newline (map (fun b => fake_line b (zstr r) fool) t)).

Definition _fam_triple_fake : expander_fn := fun st family scan_level _ =>
  p ← from_family family scan_level None;
  rows ← rows_or_raise (expand3 (p_triples p) (p_repeats p) (p_foolings p) triple_fake_row);
  Some (emit_rows scan_level "tls12" rows st).1.

(** ** Fakes before a split *)

Definition fake_multidisorder_row (blob pos : string) (r : Z) (fool : string) : row :=
  ("std_fmd_" +:+ blob +:+ "_p" +:+ pos +:+ "_r" +:+ zstr r +:+ "_" +:+ fool_name fool,
   fake_line blob (zstr r) fool +:+ newline +:+ "multidisorder:pos=" +:+ pos +:+ _fooling_clause fool).

Definition _fam_fake_multidisorder : expander_fn := fun st family scan_level _ =>
  p ← from_family family scan_level None;
  Some (emit_rows scan_level "tls12"
    (expand4 (p_blobs p) (p_positions p) (p_repeats p) (p_foolings p) fake_multidisorder_row) st).1.

Definition fake_hostfake_row (blob : string) (r : Z) (fool hf : string) : row :=
  ("std_fh_" +:+ blob +:+ "_r" +:+ zstr r +:+ "_" +:+ hf +:+ "_" +:+ fool_name fool,
   fake_line blob (zstr r) fool +:+ newline +:+ _fake_hf_line hf fool).

Definition _fam_fake_hostfake : expander_fn := fun st family scan_level _ =>
  fools ← family_foolings family;
  p ← from_family family scan_level (Some fools);
  Some (emit_rows scan_level "tls12"
    (expand4 (p_blobs p) (p_repeats p) (p_foolings p) (p_hf_variants p) fake_hostfake_row) st).1.

(** ** Geneva families *)

Definition rst_mod_row (m : string) : row :=
  ("std_rst_" +:+ replace_char "=" "_" (replace_char ":" "_" m),
   "--payload=empty --out-range=s1<d1" +:+ newline +:+ m).

Definition rst_fake_row (fake : string) : row :=
  let cmd := "--payload=empty --out-range=s1<d1" +:+ newline +:+ fake in
  let slug := py_take 40 (replace_char "=" "_" (replace_char ":" "_" fake)) in
  (cmd_label ("std_rst_" +:+ default EmptyString (head (split_char ":" fake)) +:+ "_" +:+ slug) cmd, cmd).

(** An axis of texts: [family.get(key, default)]. *)
Definition get_texts (key : string) (dflt : list string) (family : axes) : option (list string) :=
  vs ← get_iter key (VStr <$> dflt) family; mapM as_str vs.

Definition _fam_rst_fake : expander_fn := fun st family scan_level _ =>
  mods ← get_texts "mods" ["rst:badsum"] family;
  fakes ← get_texts "flag_fakes" [] family;
  unless_stopped (emit_rows scan_level "tls12" (expand1 mods rst_mod_row) st) (fun st =>
    Some (emit_rows scan_level "tls12" (expand1 fakes rst_fake_row) st).1).

Definition synack_mode_row (mode : string) : row :=
  ("std_synack_" +:+ mode, "synack_split:mode=" +:+ mode).
Definition synack_fool_row (fool : string) : row :=
  ("std_synack_fool_" +:+ fool_name fool, "synack" +:+ _fooling_clause fool).

Definition _fam_synack : expander_fn := fun st family scan_level _ =>
  p ← from_family family scan_level None;
  modes ← get_texts "modes" ["synack"] family;
  unless_stopped (emit_rows scan_level "tls12" (expand1 (fromkeys modes) synack_mode_row) st) (fun st =>
    let st := _add "std_synack_bare" "synack" "tls12" st in
    Some (emit_rows scan_level "tls12" (expand1 (list_or (p_foolings p) [""]) synack_fool_row) st).1).
