(* ===== verification/GenSplit.v ===== *)
(** * Split expanders: [engine/generators/families/split.py] *)

From stdpp Require Import base numbers list strings gmap.
From Stdlib Require Import ZArith Lia Ascii.
From S2P Require Import Prelude PyStr PyDict FamilyAxes Families TriagePrune GenHelpers GenFake.

#[local] Open Scope string_scope.

(** Zapret2 cancels a disorder seqovl that is not below a numeric position. *)
Definition _disorder_seqovl_ok (pos : string) (seqovl : Z) : bool :=
  let head := strip (before "," pos) in
  if isdigit head then (seqovl <? digits_val 0 head)%Z else true.

Definition is_none (v : axval) : bool := match v with VNone => true | _ => false end.

Definition _ipfrag_opts (kind pos : string) (disorder nxt : axval) : string :=
  "ipfrag_pos_" +:+ kind +:+ "=" +:+ pos
  +:+ (if truthy disorder then ":ipfrag_disorder" else EmptyString)
  +:+ (if is_none nxt then EmptyString else ":ipfrag_next=" +:+ py_str nxt).

Definition _ipfrag_label (prefix pos : string) (disorder nxt : axval) : string :=
  prefix +:+ pos
  +:+ (if truthy disorder then "_disorder" else EmptyString)
  +:+ (if is_none nxt then EmptyString else "_next" +:+ py_str nxt).

Definition _skip_null (blobs : list string) : list string := filter (fun b => b <> "0x00000000") blobs.

(** [if pair[0] != pair[1]] raises on a pair that is too short. *)
Definition different_pairs (pairs : list (list string)) : option (list (list string)) :=
  keep ← mapM (fun pair : list string => b0 ← pair !! 0; b1 ← pair !! 1; Some (negb (String.eqb b0 b1))) pairs;
  Some (fst <$> filter (fun pk => pk.2 = true) (zip pairs keep)).

(** ** [multisplit] *)

Definition multisplit_core (pos : string) (seqovl : Z) (fool blob : string) : row :=
  ("std_split_" +:+ pos +:+ "_s" +:+ zstr seqovl +:+ "_" +:+ blob +:+ "_" +:+ fool_name fool,
   "multisplit:pos=" +:+ pos +:+ ":seqovl=" +:+ zstr seqovl +:+ ":seqovl_pattern=" +:+ blob +:+ _fooling_clause fool).

Definition seqovl_pad_row (tmod : string) : row :=
  ("std_seqovl_pad_" +:+ py_take 12 tmod,
   "fake:blob=google:repeats=6:tls_mod=" +:+ tmod +:+ newline +:+ "multisplit:pos=10,sniext+1:seqovl=1").

Definition all_ttl_rows (cores : list row) (static : list Z) (auto : list string) (auto_fmt : string -> string)
    : list row :=
  c ← cores; ttl_companion_rows c.1 c.2 static auto auto_fmt.

Definition _fam_multisplit : expander_fn := fun st family scan_level _ =>
  p ← from_family family scan_level None;
  let blobs := _skip_null (p_seqovl_blobs p) in
  let cores := expand4 (p_positions p) (p_seqovl p) (p_foolings p) blobs multisplit_core in
  unless_stopped (emit_rows scan_level "tls12" cores st) (fun st =>
    let ttl := all_ttl_rows cores (p_ttl_static p) (p_ttl_auto p) auto_fmt_default in
    let st := (emit_rows scan_level "tls12" ttl st).1 in
    Some (if get_truthy "padencap" family
          then (emit_rows scan_level "tls12" (expand1 ["rnd,dupsid,padencap"; "rnd,dupsid"] seqovl_pad_row) st).1
          else st)).

(** ** [multidisorder] *)

Definition multidisorder_bare (pos fool blob : string) : row :=
  ("std_mdis_" +:+ pos +:+ "_" +:+ blob +:+ "_" +:+ fool_name fool,
   "multidisorder:pos=" +:+ pos +:+ ":seqovl_pattern=" +:+ blob +:+ _fooling_clause fool).

Definition multidisorder_seqovl (pos fool blob : string) (seqovl : Z) : list row :=
  if _disorder_seqovl_ok pos seqovl
  then [("std_mdis_" +:+ pos +:+ "_s" +:+ zstr seqovl +:+ "_" +:+ blob +:+ "_" +:+ fool_name fool,
         "multidisorder:pos=" +:+ pos +:+ ":seqovl=" +:+ zstr seqovl +:+ ":seqovl_pattern=" +:+ blob
           +:+ _fooling_clause fool)]
  else [].

Definition _fam_multidisorder : expander_fn := fun st family scan_level _ =>
  p ← from_family family scan_level None;
  unless_stopped (emit_rows scan_level "tls12"
      (expand3 (p_positions p) (p_foolings p) (p_seqovl_blobs p) multidisorder_bare) st) (fun st =>
    Some (emit_rows scan_level "tls12"
      (concat (expand4 (p_positions p) (p_foolings p) (p_seqovl_blobs p) (p_seqovl p) multidisorder_seqovl)) st).1).

(** ** [fakedsplit] and [fakeddisorder] *)

Definition faked_core (fn prefix pos blob fool : string) (r : Z) : row :=
  (prefix +:+ "_p" +:+ pos +:+ "_" +:+ blob +:+ "_r" +:+ zstr r +:+ "_" +:+ fool_name fool,
   fn +:+ ":pos=" +:+ pos +:+ ":pattern=" +:+ blob +:+ _fooling_clause fool +:+ ":repeats=" +:+ zstr r).

Definition _fam_faked_core (fn prefix : string) : expander_fn := fun st family scan_level _ =>
  fools ← family_foolings family;
  p ← from_family family scan_level (Some fools);
  let blobs := _skip_null (p_pattern_blobs p) in
  let cores := expand4 (p_positions p) blobs (p_foolings p) (p_repeats p) (faked_core fn prefix) in
  unless_stopped (emit_rows scan_level "tls12" cores st) (fun st =>
    let combos := expand4 (p_positions p) blobs (p_foolings p) (p_repeats p) (fun _ _ fool r => (fool, r)) in
    let ack := companions cores combos (fun fr =>
      p_ack_drop p && String.eqb fr.1 "tcp_ts=-1000" && (fr.2 =? 6)%Z) "_ackdrop" _with_ack_drop in
    let md5 := companions cores combos (fun fr =>
      p_send_md5 p && contains "tcp_md5" fr.1 && (fr.2 =? 6)%Z) "_sendmd5" _with_send_md5 in
    Some (emit_rows scan_level "tls12" (ack ++ md5) st).1).

Definition _fam_fakedsplit : expander_fn := _fam_faked_core "fakedsplit" "std_fds".
Definition _fam_fakeddisorder : expander_fn := _fam_faked_core "fakeddisorder" "std_fdd".

(** ** Fakes before a split *)

Definition split_line (pos : string) (seqovl : Z) (pattern fool : string) : string :=
  "multisplit:pos=" +:+ pos +:+ ":seqovl=" +:+ zstr seqovl +:+ ":seqovl_pattern=" +:+ pattern +:+ _fooling_clause fool.

Definition fake_multisplit_row (pair : list string) (pos : string) (seqovl r : Z) (fool : string) : option row :=
  b0 ← pair !! 0; b1 ← pair !! 1;
  Some ("std_fms_" +:+ b0 +:+ "+" +:+ b1 +:+ "_p" +:+ pos +:+ "_s" +:+ zstr seqovl +:+ "_r" +:+ zstr r
          +:+ "_" +:+ fool_name fool,
        fake_line b0 (zstr r) fool +:+ newline +:+ split_line pos seqovl b1 fool).

Definition _fam_fake_multisplit : expander_fn := fun st family scan_level _ =>
  p ← from_family family scan_level None;
  pairs ← different_pairs (p_blob_pairs p);
  rows ← rows_or_raise (expand5 pairs (p_positions p) (p_seqovl p) (p_repeats p) (p_foolings p) fake_multisplit_row);
  Some (emit_rows scan_level "tls12" rows st).1.

Definition fmsh_row (pair : list string) (pos : string) (seqovl r : Z) (fool host : string) : option row :=
  b0 ← pair !! 0; b1 ← pair !! 1;
  Some ("std_fmsh_" +:+ b0 +:+ "+" +:+ b1 +:+ "_p" +:+ pos +:+ "_s" +:+ zstr seqovl +:+ "_h" +:+ before "." host
          +:+ "_r" +:+ zstr r +:+ "_" +:+ fool_name fool,
        fake_line b0 (zstr r) fool +:+ newline +:+ split_line pos seqovl b1 fool +:+ newline
          +:+ "hostfakesplit:host=" +:+ host +:+ ":nofake2" +:+ _fooling_clause fool +:+ ":repeats=1").

Definition _fam_fake_multisplit_hostfake : expander_fn := fun st family scan_level _ =>
  fools ← family_foolings family;
  p ← from_family family scan_level (Some fools);
  pairs ← different_pairs (p_blob_pairs p);
  rows ← rows_or_raise
    (expand6 pairs (p_positions p) (p_seqovl p) (p_repeats p) (p_foolings p) (p_hf_hosts p) fmsh_row);
  Some (emit_rows scan_level "tls12" rows st).1.

Definition fake_fakedsplit_row (blob pattern pos : string) (r : Z) (fool : string) : row :=
  ("std_ffds_" +:+ blob +:+ "+" +:+ pattern +:+ "_p" +:+ pos +:+ "_r" +:+ zstr r +:+ "_" +:+ fool_name fool,
   fake_line blob (zstr r) fool +:+ newline +:+ "fakedsplit:pos=" +:+ pos +:+ ":pattern=" +:+ pattern
     +:+ _fooling_clause fool).

Definition _fam_fake_fakedsplit : expander_fn := fun st family scan_level _ =>
  fools ← family_foolings family;
  p ← from_family family scan_level (Some fools);
  Some (emit_rows scan_level "tls12"
    (expand5 (p_blobs p) (p_pattern_blobs p) (p_positions p) (p_repeats p) (p_foolings p) fake_fakedsplit_row) st).1.

(** ** IP fragments *)

Definition ipfrag_bare (kind prefix pos : string) (dis nxt : axval) : row :=
  (_ipfrag_label prefix pos dis nxt, "send:ipfrag:" +:+ _ipfrag_opts kind pos dis nxt +:+ newline +:+ "drop").

Definition ipfrag_combo (kind pos : string) (blob : axval) (r : Z) (dis : axval) : row :=
  let tag := "std_" +:+ (if String.eqb kind "tcp" then "tcp" else "quic") +:+ "_fake_ipfrag" in
  let mid := if String.eqb kind "tcp" then "_" +:+ py_str blob else EmptyString in
  (_ipfrag_label (tag +:+ mid +:+ "_r" +:+ zstr r +:+ "_pos") pos dis VNone,
   "fake:blob=" +:+ py_str blob +:+ ":repeats=" +:+ zstr r +:+ newline
     +:+ "send:ipfrag:" +:+ _ipfrag_opts kind pos dis VNone +:+ newline +:+ "drop").

Definition _fam_ipfrag (kind proto : string) : expander_fn := fun st family scan_level _ =>
  p ← from_family family scan_level None;
  disorder ← get_iter "disorder" [VBool false] family;
  nxts ← get_iter "ipfrag_next" [VNone] family;
  let prefix := "std_" +:+ (if String.eqb kind "tcp" then "tcp" else "quic") +:+ "_ipfrag_pos" in
  blobs ← get_iter "combo_blobs" [VStr ""] family;
  let combo_blobs := filter (fun b => truthy b = true) blobs in
  let combo_blobs := if String.eqb kind "udp" then list_or combo_blobs [VStr "fake_default_quic"] else combo_blobs in
  unless_stopped (emit_rows scan_level proto (expand3 (p_positions p) disorder nxts (ipfrag_bare kind prefix)) st)
    (fun st =>
      Some (emit_rows scan_level proto
        (expand4 (p_positions p) combo_blobs (p_repeats p) (take 1 disorder) (ipfrag_combo kind)) st).1).

Definition _fam_tcp_ipfrag : expander_fn := _fam_ipfrag "tcp" "tls12".
Definition _fam_quic_ipfrag : expander_fn := _fam_ipfrag "udp" "quic".
