(* ===== verification/GenTamper.v ===== *)
(** * Header and tamper expanders: [engine/generators/families/tamper.py] *)

From stdpp Require Import base numbers list strings gmap.
From Stdlib Require Import ZArith Lia Ascii.
From S2P Require Import Prelude PyStr PyDict FamilyAxes Families TriagePrune GenHelpers GenFake GenSplit.

#[local] Open Scope string_scope.

Definition _FAST_FOOLINGS_IPV6 : list string := ["ip6_hopbyhop"; "ip6_destopt"].

(** ** [syndata] *)

Definition syndata_row (blob tmod : string) (plus : axval) : row :=
  let strat :=
    if nonempty blob
    then "syndata:blob=" +:+ blob +:+ (if nonempty tmod then ":tls_mod=" +:+ tmod else EmptyString)
    else "syndata" in
  let strat := if truthy plus then strat +:+ newline +:+ "multisplit:pos=1,midsld:seqovl=1" else strat in
  ("std_syn_" +:+ str_or blob "bare" +:+ "_" +:+ str_or (py_take 15 tmod) "nomod"
     +:+ (if truthy plus then "_split" else EmptyString), strat).

Definition _fam_syndata : expander_fn := fun st family scan_level _ =>
  p ← from_family family scan_level None;
  plus_split ← get_iter "plus_split" [VBool false] family;
  unless_stopped (emit_rows scan_level "tls12" (expand3 (p_blobs p) (p_tls_mods p) plus_split syndata_row) st)
    (fun st =>
      Some (if get_truthy "plus_hostfake" family
            then _add "std_syn_bare_hf_ts" ("syndata" +:+ newline +:+ "hostfakesplit:nofake2:tcp_ts=-1000") "tls12" st
            else st)).

(** ** [tcpseg], [oob], [geneva_fool], [wssize] *)

Definition tcpseg_row (ip_id : axval) (pos : string) (r : Z) : row :=
  ("std_tcpseg_p" +:+ pos +:+ "_r" +:+ zstr r,
   "tcpseg:pos=" +:+ pos +:+ ":ip_id=" +:+ py_str ip_id +:+ ":repeats=" +:+ zstr r).

Definition _fam_tcpseg : expander_fn := fun st family scan_level _ =>
  p ← from_family family scan_level None;
  let ip_id := dget_default "ip_id" (VStr "rnd") family in
  Some (emit_rows scan_level "tls12" (expand2 (p_positions p) (p_repeats p) (tcpseg_row ip_id)) st).1.

Definition oob_row (in_range urp : axval) : row :=
  ("std_oob_urp" +:+ py_str urp,
   if truthy in_range then "--in-range=" +:+ py_str in_range +:+ newline +:+ "oob:urp=" +:+ py_str urp
   else "oob:urp=" +:+ py_str urp).

Definition _fam_oob : expander_fn := fun st family scan_level _ =>
  let in_range := dget_default "in_range" VNone family in
  urps ← get_iter "urps" [] family;
  Some (emit_rows scan_level "tls12" (expand1 urps (oob_row in_range)) st).1.

Definition geneva_row (fool : string) (r : Z) : row :=
  ("std_gva_" +:+ replace_char ":" "_" (replace_char "=" "_" fool) +:+ "_r" +:+ zstr r,
   "send:" +:+ fool +:+ ":repeats=" +:+ zstr r).

Definition _fam_geneva_fool : expander_fn := fun st family scan_level _ =>
  p ← from_family family scan_level None;
  Some (emit_rows scan_level "tls12" (expand2 (p_fools p) (p_repeats p) geneva_row) st).1.

(** [sizes[0]] raises when there are no sizes. *)
Definition _fam_wssize : expander_fn := fun st family scan_level _ =>
  sizes ← get_texts "sizes" ["wssize:wsize=1:scale=6"] family;
  unless_stopped (emit_rows scan_level "tls12" (map (fun size => ("std_wssize", size)) sizes) st) (fun st =>
    combos ← get_iter "combos" [VBool false] family;
    if existsb truthy combos then
      size ← sizes !! 0;
      Some (_add "std_wssize_multisplit" (size +:+ newline +:+ "multisplit:pos=1:seqovl=1") "tls12" st)
    else Some st).

(** ** HTTP *)

Definition http_simple_row (variant : string) : row := ("std_http_" +:+ replace_char ":" "_" variant, variant).

Definition _fam_http_simple : expander_fn := fun st family scan_level _ =>
  variants ← get_texts "variants" [] family;
  Some (emit_rows scan_level "http" (expand1 variants http_simple_row) st).1.

(** The rows of the families of plain fakes. *)
Definition labelled_fake_row (prefix blob : string) (r : Z) (fool : string) : row :=
  (prefix +:+ blob +:+ "_r" +:+ zstr r +:+ "_" +:+ fool_name fool, fake_line blob (zstr r) fool).

Definition _fam_http_fake : expander_fn := fun st family scan_level _ =>
  p ← from_family family scan_level None;
  Some (emit_rows scan_level "http"
    (expand3 (p_blobs p) (p_repeats p) (p_foolings p) (labelled_fake_row "std_http_fake_")) st).1.

Definition _fam_http_tls_dual : expander_fn := fun st family scan_level _ =>
  p ← from_family family scan_level None;
  blobs ← _strs family "http_blobs";
  Some (emit_rows scan_level "http"
    (expand3 blobs (p_repeats p) (p_foolings p) (labelled_fake_row "std_http_tls_dual_")) st).1.

(** ** QUIC and UDP *)

Definition quic_ip6_row (fool : string) : row :=
  ("std_quic_ip6_" +:+ replace_char ":" "_" fool, "--filter-l3=ipv6" +:+ newline +:+ _with_ip6_send_drop fool).

Definition _fam_quic_fake : expander_fn := fun st family scan_level _ =>
  p ← from_family family scan_level None;
  unless_stopped (emit_rows scan_level "quic"
      (expand3 (p_blobs p) (p_repeats p) (p_foolings p) (labelled_fake_row "std_quic_fake_")) st) (fun st =>
    if get_truthy "ip6_send_drop" family then
      fools ← get_texts "ip6_fools" _FAST_FOOLINGS_IPV6 family;
      Some (emit_rows scan_level "quic" (expand1 fools quic_ip6_row) st).1
    else Some st).

(** The rows of the families of fakes without a fooling. *)
Definition bare_fake_row (prefix blob : string) (r : Z) : row :=
  (prefix +:+ blob +:+ "_r" +:+ zstr r, "fake:blob=" +:+ blob +:+ ":repeats=" +:+ zstr r).

Definition _fam_quic_gv : expander_fn := fun st family scan_level _ =>
  p ← from_family family scan_level None;
  Some (emit_rows scan_level "quic" (expand2 (p_blobs p) (p_repeats p) (bare_fake_row "std_quic_gv_")) st).1.

Definition _fam_udp_discord : expander_fn := fun st family scan_level _ =>
  p ← from_family family scan_level None;
  let cores := expand2 (list_or (p_blobs p) ["discord_udp"]) (p_repeats p) (bare_fake_row "std_udp_") in
  unless_stopped (emit_rows scan_level "udp_voice" cores st) (fun st =>
    let ttl := all_ttl_rows cores (p_ttl_static p) (p_ttl_auto p) (fun _ => "autottl") in
    Some (emit_rows scan_level "udp_voice" ttl st).1).

Definition _fam_udp_quic : expander_fn := fun st family scan_level _ =>
  p ← from_family family scan_level None;
  Some (emit_rows scan_level "quic" (expand2 (p_blobs p) (p_repeats p) (bare_fake_row "std_udp_quic_")) st).1.

Definition udp_game_row (blob : string) (r : Z) (orng : axval) : row :=
  ("std_udp_game_" +:+ blob +:+ "_r" +:+ zstr r +:+ "_" +:+ (if truthy orng then py_str orng else "no"),
   if truthy orng then "--out-range=" +:+ py_str orng +:+ newline +:+ "fake:blob=" +:+ blob +:+ ":repeats=" +:+ zstr r
   else "fake:blob=" +:+ blob +:+ ":repeats=" +:+ zstr r).

Definition _fam_udp_game : expander_fn := fun st family scan_level _ =>
  p ← from_family family scan_level None;
  Some (emit_rows scan_level "udp_game"
    (expand3 (p_blobs p) (p_repeats p) (list_or (p_out_range p) [VNone]) udp_game_row) st).1.

Definition multiblob_row (prof : list string) (r : Z) : option row :=
  b0 ← prof !! 0; b1 ← prof !! 1;
  Some ("std_udp_multiblob_" +:+ b0 +:+ "+" +:+ b1 +:+ "_r" +:+ zstr r,
        "fake:blob=" +:+ b0 +:+ ":repeats=" +:+ zstr r +:+ newline +:+ "fake:blob=" +:+ b1 +:+ ":repeats=" +:+ zstr r).

Definition _fam_udp_multiblob : expander_fn := fun st family scan_level _ =>
  p ← from_family family scan_level None;
  rows ← rows_or_raise (expand2 (p_profiles p) (p_repeats p) multiblob_row);
  Some (emit_rows scan_level "udp_voice" rows st).1.
