(* ===== verification/Standard.v ===== *)
(** * The standard generator: [engine/generators/standard.py]

    Scan-level mutators, the triage of axes, the expansion of families, the round robin under a
    cap and [StandardGenerator.generate]. The set of working labels that the store returns is a
    function of the domain; an exception is [None]. *)

From stdpp Require Import base numbers list strings gmap.
From Stdlib Require Import ZArith Lia Ascii.
From S2P Require Import Prelude PyStr PyDict FamilyAxes Families Triage TriagePrune GenHelpers GenFake GenSplit GenTamper.

#[local] Open Scope string_scope.

Definition _resolve_family_name (n : string) : string := dget_default n n FAMILY_ALIASES.

(** ** Round robin *)

Record rr_state : Type := RR { rr_out : list StrategyItem; rr_seen : gset string; rr_advanced : bool }.

(** The walk over the families at one index; it stops when the cap is reached. *)
Fixpoint rr_walk (cap : Z) (idx : nat) (groups : list (list StrategyItem)) (st : rr_state) : rr_state :=
  match groups with
  | [] => st
  | lst :: groups =>
      match lst !! idx with
      | None => rr_walk cap idx groups st
      | Some it =>
          let st :=
            if decide (strategy it ∈ rr_seen st) then RR (rr_out st) (rr_seen st) true
            else RR (rr_out st ++ [it]) ({[strategy it]} ∪ rr_seen st) true in
          if (cap <=? Z.of_nat (length (rr_out st)))%Z then st else rr_walk cap idx groups st
      end
  end.

(** The [while] loop. Each round that goes on has found an item at [idx], so the longest group
    bounds the rounds. *)
Fixpoint rr_loop (fuel : nat) (cap : Z) (idx : nat) (groups : list (list StrategyItem)) (st : rr_state)
    : option (list StrategyItem) :=
  match fuel with
  | O => None
  | S fuel =>
      if (Z.of_nat (length (rr_out st)) <? cap)%Z then
        let st := rr_walk cap idx groups (RR (rr_out st) (rr_seen st) false) in
        if rr_advanced st then rr_loop fuel cap (S idx) groups st else Some (rr_out st)
      else Some (rr_out st)
  end.

Definition rr_fuel (groups : list (list StrategyItem)) : nat := S (S (max_list (length <$> groups))).

Definition _round_robin (groups : list (string * list StrategyItem)) (cap : Z) : option (list StrategyItem) :=
  rr_loop (rr_fuel (values groups)) cap 0 (values groups) (RR [] ∅ false).

(** ** Mutators of the axes by scan level *)

Definition texts (l : list string) : axval := VList (VStr <$> l).

Definition _mut_full_fake (fam : axes) : option axes :=
  let fam := dset "repeats" (ints (filter (fun r => r ∉ [100; 260]%Z) ALL_REPEATS)) fam in
  let fam := dset "foolings" (texts (ALL_FOOLINGS_TCP ++ ALL_FOOLINGS_IPV6)) fam in
  Some (dset "tls_mods" (texts TLS_MODS) fam).

Definition add_foolings (dflt more : list string) (fam : axes) : option axes :=
  fools ← get_texts "foolings" dflt fam;
  Some (dset "foolings" (texts (fromkeys (fools ++ more))) fam).

Definition _mut_full_tcp_fools (fam : axes) : option axes := add_foolings [] ALL_FOOLINGS_TCP fam.

Definition _mut_full_quic_fake (fam : axes) : option axes :=
  fam ← add_foolings [""] ALL_FOOLINGS_UDP fam; Some (dset "ip6_fools" (texts ALL_FOOLINGS_IPV6) fam).

Definition _mut_full_udp_discord (fam : axes) : option axes :=
  let fam := dset "repeats" (ints [2; 3; 4; 6; 8; 10; 12; 14]%Z) fam in
  let fam := dset "ttl_static" (ints [5; 8]%Z) fam in
  Some (dset "ttl_auto" (texts ["-2,3-20"; "-1,2-10"]) fam).

Definition _mut_fast_fake (fam : axes) : option axes := Some (dset "ipv6_extra" (texts FAST_FOOLINGS_IPV6) fam).

Definition _SCAN_MUTATORS : list (string * list (string * (axes -> option axes))) :=
  [ ("full", [ ("fake", _mut_full_fake); ("hostfake", _mut_full_tcp_fools); ("fakedsplit", _mut_full_tcp_fools);
               ("fakeddisorder", _mut_full_tcp_fools); ("fake_hostfake", _mut_full_tcp_fools);
               ("http_fake", _mut_full_tcp_fools); ("quic_fake", _mut_full_quic_fake);
               ("udp_discord", _mut_full_udp_discord) ]);
    ("fast", [ ("fake", _mut_fast_fake) ]) ].

Definition mutate (scan_level stype : string) (fam : axes) : option axes :=
  match dget stype (dget_default scan_level [] _SCAN_MUTATORS) with
  | Some mut => mut fam
  | None => Some fam
  end.

(** ** Triage of the axes *)

(** [fam[key] = f(fam[key])], when the axis is there and not [None]. *)
Definition update_axis (key : string) (f : list axval -> option (list axval)) (fam : axes) : option axes :=
  match dget key fam with
  | None | Some VNone => Some fam
  | Some v => vs ← py_iter v; vs ← f vs; Some (dset key (VList vs) fam)
  end.

Definition on_texts (f : list string -> list string) (vs : list axval) : option (list axval) :=
  ss ← mapM as_str vs; Some (map VStr (f ss)).

Definition _apply_triage_axes (fam : axes) (triage : TriageProfile) (scan_level protocol : string) : option axes :=
  fam ← update_axis "foolings" (on_texts (fun l => filter_fooling_values l (Some triage))) fam;
  fam ← update_axis "blobs" (on_texts (fun l => filter_blob_aliases (Some l) (Some triage) protocol)) fam;
  fam ← update_axis "ttl_static" (fun l => Some (filter_ttl_values l (Some triage) scan_level)) fam;
  fam ← update_axis "positions" (fun l => Some (filter_split_positions l (Some triage) scan_level)) fam;
  let fam := match viable_hosts triage with
             | [] => fam | hosts => dset "hosts" (texts (take 8 (fromkeys hosts))) fam end in
  match autottl_delta triage with
  | Some d => update_axis "ttl_auto" (on_texts (fun l => fromkeys (str_of_Z d :: l))) fam
  | None => Some fam
  end.

(** ** The generator *)

(** The expander methods of the mixins, by attribute name. *)
Definition methods : list (string * expander_fn) :=
  [ ("_fam_fake", _fam_fake); ("_fam_rst_fake", _fam_rst_fake); ("_fam_synack", _fam_synack);
    ("_fam_geneva_fool", _fam_geneva_fool); ("_fam_wssize", _fam_wssize); ("_fam_hostfake", _fam_hostfake);
    ("_fam_multisplit", _fam_multisplit); ("_fam_multidisorder", _fam_multidisorder);
    ("_fam_syndata", _fam_syndata); ("_fam_tcpseg", _fam_tcpseg); ("_fam_oob", _fam_oob);
    ("_fam_multi_fake", _fam_multi_fake); ("_fam_triple_fake", _fam_triple_fake);
    ("_fam_fake_multisplit", _fam_fake_multisplit); ("_fam_fake_multidisorder", _fam_fake_multidisorder);
    ("_fam_fake_multisplit_hostfake", _fam_fake_multisplit_hostfake); ("_fam_fake_hostfake", _fam_fake_hostfake);
    ("_fam_fakedsplit", _fam_fakedsplit); ("_fam_fakeddisorder", _fam_fakeddisorder);
    ("_fam_fake_fakedsplit", _fam_fake_fakedsplit); ("_fam_tcp_ipfrag", _fam_tcp_ipfrag);
    ("_fam_http_simple", _fam_http_simple); ("_fam_http_fake", _fam_http_fake);
    ("_fam_http_tls_dual", _fam_http_tls_dual); ("_fam_udp_discord", _fam_udp_discord);
    ("_fam_udp_multiblob", _fam_udp_multiblob); ("_fam_quic_fake", _fam_quic_fake); ("_fam_quic_gv", _fam_quic_gv);
    ("_fam_quic_ipfrag", _fam_quic_ipfrag); ("_fam_udp_quic", _fam_udp_quic); ("_fam_udp_game", _fam_udp_game) ].

Definition _expand_family (stype : string) (family : axes) (scan_level : string) (known_working : gset string)
    : option (list StrategyItem) :=
  match dget (_resolve_family_name stype) FAMILY_EXPANDERS with
  | None => Some []
  | Some expander_name =>
      method ← dget expander_name methods;
      st ← method no_items family scan_level known_working;
      Some (g_items st)
  end.

(** [StandardGenerator(strategy_types)]: the types, or a [ValueError] *)
Definition known_type (t : string) : bool :=
  bool_decide (is_Some (dget (_resolve_family_name t) BY_NAME)) || String.eqb t "all".
Definition StandardGenerator (strategy_types : option (list string)) : option (list string) :=
  let types := default TCP_FAMILIES strategy_types in
  if forallb known_type types then Some types else None.

(** The families a call expands, in order. *)
Definition selected_types (strategy_types : list string) (protocol scan_level : string)
    (triage : option TriageProfile) : list string :=
  let raw := if decide ("all" ∈ strategy_types) then keys BY_NAME else strategy_types in
  let allowed := dget_default protocol TCP_FAMILIES FAMILIES_BY_PROTOCOL in
  let types := fromkeys (filter (fun t => t ∈ allowed) (_resolve_family_name <$> raw)) in
  match triage with
  | Some p =>
      if String.eqb scan_level "full" then types
      else list_or (filter (fun t => t ∈ families_for_profile (Some p)) types) types
  | None => types
  end.

Definition prepare (protocol scan_level : string) (triage : option TriageProfile) (stype : string) : option axes :=
  fam ← mutate scan_level stype (axes_for stype);
  match triage with
  | Some p => _apply_triage_axes fam p scan_level protocol
  | None => Some fam
  end.

Section Generate.
(** [state_db.get_working_tcp], when there is a store *)
Context (state_db : option (string -> list string)).

Definition known_working (domain : string) (run_set : list string) : gset string :=
  match state_db, run_set with
  | Some get_working_tcp, [] => if nonempty domain then list_to_set (get_working_tcp domain) else ∅
  | _, _ => list_to_set run_set
  end.

(** [expanded]: the items of each family *)
Definition expand_types (types : list string) (protocol scan_level : string) (triage : option TriageProfile)
    (known : gset string) : option (list (string * list StrategyItem)) :=
  mapM (fun t => fam ← prepare protocol scan_level triage t; its ← _expand_family t fam scan_level known; Some (t, its))
    (filter (fun t => is_Some (dget t BY_NAME)) types).

Definition generate (strategy_types : list string) (protocol domain scan_level : string) (max_count : Z)
    (run_set : list string) (triage : option TriageProfile) : option (list StrategyItem) :=
  if match triage with Some p => negb (bypassable p) | None => false end then Some []
  else
    let types := selected_types strategy_types protocol scan_level triage in
    expanded ← expand_types types protocol scan_level triage (known_working domain run_set);
    let flat := concat (values expanded) in
    if (max_count <? Z.of_nat (length flat))%Z then
      items ← _round_robin expanded max_count;
      Some (prune_items_by_triage items triage scan_level)
    else Some (prune_items_by_triage (take (Z.to_nat max_count) flat) triage scan_level).

(** ** Delegates *)

Definition _std_families (types : list string) (protocol domain scan_level : string) (max_count : Z)
    (run_set : list string) (triage : option TriageProfile) : option (list StrategyItem) :=
  types ← StandardGenerator (Some types);
  generate types protocol domain scan_level max_count run_set triage.

Definition FakeTcpGenerator := _std_families ["fake"].
Definition HostfakeTcpGenerator := _std_families ["hostfake"].
Definition FakedTcpGenerator := _std_families ["fakedsplit"; "fakeddisorder"].
Definition FakeMultiGenerator := _std_families ["multi_fake"].
Definition FakeSplitComboGenerator := _std_families ["fake_fakedsplit"].
End Generate.
