(* ===== verification/GenFacts.v ===== *)
(** * What every expander does

    An expander only adds rows ([adds]), each with a label of its family ([family_row]); so the
    items of a family have distinct strategies and are classified back into that family. *)

From stdpp Require Import base numbers list strings gmap.
From Stdlib Require Import ZArith Lia Ascii.
From S2P Require Import Prelude PyStr PyDict FamilyAxes Families Triage TriagePrune Blake2s GenHelpers GenFake GenSplit GenTamper Standard.

#[local] Open Scope string_scope.

(** ** Adding rows *)

Section Adds.
Context (P : string -> string -> string -> Prop).

(** [st'] is [st] after some rows with [P label strategy protocol] were added. *)
Inductive adds : gen -> gen -> Prop :=
  | adds_refl st : adds st st
  | adds_row st l s p st' : P l s p -> adds (_add l s p st) st' -> adds st st'.

Lemma adds_trans st1 st2 st3 : adds st1 st2 -> adds st2 st3 -> adds st1 st3.
Proof. induction 1 as [|st l s p st' HP _ IH]; [done|]. intros H. eapply adds_row; [done|by apply IH]. Qed.

Lemma adds_one st l s p : P l s p -> adds st (_add l s p st).
Proof. intros H. eapply adds_row; [done|constructor]. Qed.

Lemma adds_emit level p rows st :
  Forall (fun r => P r.1 r.2 p) rows -> adds st (emit_rows level p rows st).1.
Proof.
  intros H. revert st. induction H as [|[l s] rows Hr _ IH]; intros st; [constructor|].
  cbn [emit_rows]. destruct (String.eqb level "single"); [by apply adds_one|].
  eapply adds_row; [exact Hr|apply IH].
Qed.

Lemma adds_unless st (r : gen * bool) k st' :
  adds st r.1 -> unless_stopped r k = Some st' -> (forall st1, k st1 = Some st' -> adds st1 st') -> adds st st'.
Proof.
  unfold unless_stopped. intros H. destruct r.2; [by intros [= <-]|].
  intros Hk Hrest. eapply adds_trans; [done|by apply Hrest].
Qed.
End Adds.

(** An invariant of the items: every added row keeps it. *)
Lemma adds_inv P (I : gen -> Prop) st st' :
  adds P st st' -> (forall l s p st, P l s p -> I st -> I (_add l s p st)) -> I st -> I st'.
Proof. intros H Hadd. induction H as [|st l s p st' HP _ IH]; [done|]. intros Hi. apply IH. by apply Hadd. Qed.

(** ** Rows of products *)

Section Expand.
Context {A B C D E F R : Type} (Q : R -> Prop).

Lemma Forall_bind {X Y} (P : Y -> Prop) (l : list X) (f : X -> list Y) :
  (forall x, x ∈ l -> Forall P (f x)) -> Forall P (x ← l; f x).
Proof.
  intros H. apply Forall_forall. intros y (x & Hy & Hx)%list_elem_of_bind.
  specialize (H x Hx). rewrite Forall_forall in H. by apply H.
Qed.

Lemma Forall_expand1 (xs : list A) build : (forall x, x ∈ xs -> Q (build x)) -> Forall Q (expand1 xs build).
Proof. intros H. apply Forall_bind. intros x Hx. apply Forall_singleton. by apply H. Qed.

Lemma Forall_expand2 (xs : list A) (ys : list B) build :
  (forall x y, x ∈ xs -> y ∈ ys -> Q (build x y)) -> Forall Q (expand2 xs ys build).
Proof. intros H. do 2 (apply Forall_bind; intros ? ?). apply Forall_singleton. by apply H. Qed.

Lemma Forall_expand3 (xs : list A) (ys : list B) (zs : list C) build :
  (forall x y z, x ∈ xs -> y ∈ ys -> Q (build x y z)) -> Forall Q (expand3 xs ys zs build).
Proof. intros H. do 3 (apply Forall_bind; intros ? ?). apply Forall_singleton. by apply H. Qed.

Lemma Forall_expand4 (xs : list A) (ys : list B) (zs : list C) (us : list D) build :
  (forall x y z u, Q (build x y z u)) -> Forall Q (expand4 xs ys zs us build).
Proof. intros H. do 4 (apply Forall_bind; intros ? ?). apply Forall_singleton. by apply H. Qed.

Lemma Forall_expand5 (xs : list A) (ys : list B) (zs : list C) (us : list D) (vs : list E) build :
  (forall x y z u v, x ∈ xs -> Q (build x y z u v)) -> Forall Q (expand5 xs ys zs us vs build).
Proof. intros H. do 5 (apply Forall_bind; intros ? ?). apply Forall_singleton. by apply H. Qed.

Lemma Forall_expand6 (xs : list A) (ys : list B) (zs : list C) (us : list D) (vs : list E) (ws : list F) build :
  (forall x y z u v w, x ∈ xs -> Q (build x y z u v w)) -> Forall Q (expand6 xs ys zs us vs ws build).
Proof. intros H. do 6 (apply Forall_bind; intros ? ?). apply Forall_singleton. by apply H. Qed.
End Expand.

Lemma Forall_rows_or_raise {R} (Q : R -> Prop) (l : list (option R)) rows :
  rows_or_raise l = Some rows -> Forall (fun o => forall r, o = Some r -> Q r) l -> Forall Q rows.
Proof.
  unfold rows_or_raise. intros H%mapM_Some Hl. revert Hl. induction H as [|o r l rows Ho _ IH]; [constructor|].
  intros [H1 H2]%Forall_cons. constructor; [by apply H1|by apply IH].
Qed.

Lemma Forall_ttl_companions (Q : row -> Prop) l s static auto fmt :
  (forall suffix s', Q (l +:+ "_" +:+ suffix, s +:+ s')) -> Forall Q (ttl_companion_rows l s static auto fmt).
Proof.
  intros H. unfold ttl_companion_rows. apply Forall_app. split; apply Forall_fmap, Forall_forall; intros t _.
  - apply (H ("ttl" +:+ zstr t)).
  - apply H.
Qed.

(** A property of rows that longer labels and other strategies keep. *)
Definition label_closed (Q : row -> Prop) : Prop := forall l s suffix s', Q (l, s) -> Q (l +:+ suffix, s').

Lemma Forall_companions {C} Q cores (combos : list C) ok suffix with_ :
  label_closed Q -> Forall Q cores -> Forall Q (companions cores combos ok suffix with_).
Proof.
  intros HQ H. apply Forall_forall. intros [l s] ([[l0 s0] c] & Hin & Heq)%list_elem_of_omap.
  destruct (ok c); [|done]. injection Heq as <- <-. eapply HQ.
  rewrite Forall_forall in H. apply H. by apply elem_of_zip_l in Hin.
Qed.

Lemma Forall_ttl_rows Q level known cores static auto :
  label_closed Q -> Forall Q cores -> Forall Q (ttl_rows level known cores static auto).
Proof.
  intros HQ H. apply Forall_bind. intros [l s] Hin. rewrite Forall_forall in H. specialize (H _ Hin).
  destruct (_ && _); [constructor|]. apply Forall_ttl_companions. intros suffix s'. by eapply HQ.
Qed.

Lemma Forall_all_ttl_rows Q cores static auto fmt :
  label_closed Q -> Forall Q cores -> Forall Q (all_ttl_rows cores static auto fmt).
Proof.
  intros HQ H. apply Forall_bind. intros [l s] Hin. rewrite Forall_forall in H. specialize (H _ Hin).
  apply Forall_ttl_companions. intros suffix s'. by eapply HQ.
Qed.

(** ** The labels of each family *)

(** A row of a family: its protocol, and a label with one of its prefixes. *)
Definition labelled (prefixes : list string) (proto : string) (l s p : string) : Prop :=
  p = proto /\ existsb (fun pre => startswith pre l) prefixes = true.

Lemma labelled_app prefixes proto l s p suffix s' :
  labelled prefixes proto l s p -> labelled prefixes proto (l +:+ suffix) s' p.
Proof.
  intros [-> H]. split; [done|]. apply existsb_exists in H as (pre & Hin & Hs). apply existsb_exists.
  exists pre. split; [done|]. by apply startswith_app_r.
Qed.

Lemma labelled_closed prefixes proto p : label_closed (fun r => labelled prefixes proto r.1 r.2 p).
Proof. intros l s suffix s'. apply labelled_app. Qed.

Definition expands (P : string -> string -> string -> Prop) (f : expander_fn) : Prop :=
  forall st fam level known st', f st fam level known = Some st' -> adds P st st'.

Create HintDb rows.
#[export] Hint Resolve labelled_closed Forall_nil_2 Forall_companions Forall_ttl_rows Forall_all_ttl_rows : rows.
#[export] Hint Extern 1 (Forall _ (_ ++ _)) => apply Forall_app; split : rows.
#[export] Hint Extern 1 (Forall _ (expand1 _ _)) => apply Forall_expand1; intros : rows.
#[export] Hint Extern 1 (Forall _ (expand2 _ _ _)) => apply Forall_expand2; intros : rows.
#[export] Hint Extern 1 (Forall _ (expand3 _ _ _ _)) => apply Forall_expand3; intros : rows.
#[export] Hint Extern 1 (Forall _ (expand4 _ _ _ _ _)) => apply Forall_expand4; intros : rows.
#[export] Hint Extern 1 (Forall _ (expand5 _ _ _ _ _ _)) => apply Forall_expand5; intros : rows.
#[export] Hint Extern 1 (Forall _ (expand6 _ _ _ _ _ _ _)) => apply Forall_expand6; intros : rows.
#[export] Hint Extern 2 (labelled _ _ _ _ _) => split; reflexivity : rows.

(** Take an expander apart: its parameters, its emissions, the rows of each. *)
Ltac expander_step :=
  lazymatch goal with
  | |- adds _ _ (emit_rows _ _ _ _).1 => apply adds_emit
  | |- adds _ _ (_add _ _ _ _) => apply adds_one
  | |- adds _ ?st ?st => apply adds_refl
  | H : (_ ≫= _) = Some _ |- _ => apply bind_Some in H as (? & ? & H)
  | H : unless_stopped _ _ = Some _ |- _ => eapply adds_unless; [|exact H|clear H; intros ? H; cbv beta zeta in H]
  | H : Some _ = Some _ |- _ => injection H as H; try subst
  | H : (if ?b then _ else _) = Some _ |- _ => destruct b
  end.
Ltac expander f := intros st fam level known st' H; unfold f in H; cbv zeta in H; repeat expander_step; auto 8 with rows.

Lemma rst_fake_rows : expands (labelled ["std_rst_"] "tls12") _fam_rst_fake.
Proof. expander _fam_rst_fake. Qed.

Lemma hostfake_rows : expands (labelled ["std_hf_"] "tls12") _fam_hostfake.
Proof.
  expander _fam_hostfake.
  - destruct x1; [apply adds_refl|apply adds_emit; auto with rows].
  - unfold hostfake_companions. auto 8 with rows.
Qed.

(** Rows whose text may raise. *)
Ltac raising_row :=
  lazymatch goal with
  | E : _ = Some ?r |- labelled _ _ _ _ _ =>
      repeat (apply bind_Some in E as (? & ? & E)); injection E as <-; split; reflexivity
  end.
Ltac expander_rows f :=
  expander f; eapply Forall_rows_or_raise; [eassumption|];
  lazymatch goal with
  | |- Forall _ (expand2 _ _ _) => apply Forall_expand2
  | |- Forall _ (expand3 _ _ _ _) => apply Forall_expand3
  | |- Forall _ (expand5 _ _ _ _ _ _) => apply Forall_expand5
  | |- Forall _ (expand6 _ _ _ _ _ _ _) => apply Forall_expand6
  end;
  intros; unfold multi_fake_row, triple_fake_row, fake_multisplit_row, fmsh_row, multiblob_row in *; raising_row.

Lemma synack_rows : expands (labelled ["std_synack"] "tls12") _fam_synack.
Proof. expander _fam_synack. apply (adds_row _ _ "std_synack_bare" "synack" "tls12"); [split; reflexivity|]. apply adds_emit. auto with rows. Qed.
Lemma geneva_fool_rows : expands (labelled ["std_gva_"] "tls12") _fam_geneva_fool.
Proof. expander _fam_geneva_fool. Qed.
Lemma wssize_rows : expands (labelled ["std_wssize"] "tls12") _fam_wssize.
Proof. expander _fam_wssize. apply Forall_fmap, Forall_forall. intros ? _. split; reflexivity. Qed.
Lemma multidisorder_rows : expands (labelled ["std_mdis_"] "tls12") _fam_multidisorder.
Proof.
  expander _fam_multidisorder. apply Forall_concat. apply Forall_expand4. intros.
  unfold multidisorder_seqovl. destruct (_disorder_seqovl_ok _ _); auto with rows.
Qed.
Lemma syndata_rows : expands (labelled ["std_syn_"] "tls12") _fam_syndata.
Proof. expander _fam_syndata. destruct (get_truthy _ _); [apply adds_one; auto with rows|apply adds_refl]. Qed.
Lemma tcpseg_rows : expands (labelled ["std_tcpseg_"] "tls12") _fam_tcpseg.
Proof. expander _fam_tcpseg. Qed.
Lemma oob_rows : expands (labelled ["std_oob_"] "tls12") _fam_oob.
Proof. expander _fam_oob. Qed.
Lemma multi_fake_rows : expands (labelled ["std_multi_"] "tls12") _fam_multi_fake.
Proof. expander_rows _fam_multi_fake. Qed.
Lemma triple_fake_rows : expands (labelled ["std_triple_"] "tls12") _fam_triple_fake.
Proof. expander_rows _fam_triple_fake. Qed.
Lemma fake_multisplit_rows : expands (labelled ["std_fms_"] "tls12") _fam_fake_multisplit.
Proof. expander_rows _fam_fake_multisplit. Qed.
Lemma fmsh_rows : expands (labelled ["std_fmsh_"] "tls12") _fam_fake_multisplit_hostfake.
Proof. expander_rows _fam_fake_multisplit_hostfake. Qed.
Lemma fmd_rows : expands (labelled ["std_fmd_"] "tls12") _fam_fake_multidisorder.
Proof. expander _fam_fake_multidisorder. Qed.
Lemma fake_hostfake_rows : expands (labelled ["std_fh_"] "tls12") _fam_fake_hostfake.
Proof. expander _fam_fake_hostfake. Qed.
Lemma faked_core_rows fn prefix : expands (labelled [prefix +:+ "_"] "tls12") (_fam_faked_core fn prefix).
Proof.
  assert (Hl : forall t s, labelled [prefix +:+ "_"] "tls12" (prefix +:+ "_" +:+ t) s "tls12").
  { intros t s. split; [done|]. cbn [existsb]. by rewrite <- append_assoc, startswith_app. }
  expander _fam_faked_core; repeat apply Forall_app_2; try apply Forall_companions; auto with rows;
    apply Forall_expand4; intros pos blob fool r;
    apply (Hl ("p" +:+ pos +:+ "_" +:+ blob +:+ "_r" +:+ zstr r +:+ "_" +:+ fool_name fool)).
Qed.
Lemma fakedsplit_rows : expands (labelled ["std_fds_"] "tls12") _fam_fakedsplit.
Proof. apply faked_core_rows. Qed.
Lemma fakeddisorder_rows : expands (labelled ["std_fdd_"] "tls12") _fam_fakeddisorder.
Proof. apply faked_core_rows. Qed.
Lemma fake_fakedsplit_rows : expands (labelled ["std_ffds_"] "tls12") _fam_fake_fakedsplit.
Proof. expander _fam_fake_fakedsplit. Qed.
Lemma tcp_ipfrag_rows : expands (labelled ["std_tcp_ipfrag_"; "std_tcp_fake_ipfrag_"] "tls12") _fam_tcp_ipfrag.
Proof. unfold _fam_tcp_ipfrag. expander _fam_ipfrag. Qed.
Lemma quic_ipfrag_rows : expands (labelled ["std_quic_ipfrag_"; "std_quic_fake_ipfrag_"] "quic") _fam_quic_ipfrag.
Proof. unfold _fam_quic_ipfrag. expander _fam_ipfrag. Qed.

Lemma http_simple_rows : expands (labelled ["std_http_"] "http") _fam_http_simple.
Proof. expander _fam_http_simple. Qed.
Lemma http_fake_rows : expands (labelled ["std_http_fake_"] "http") _fam_http_fake.
Proof. expander _fam_http_fake. Qed.
Lemma http_tls_dual_rows : expands (labelled ["std_http_tls_dual_"] "http") _fam_http_tls_dual.
Proof. expander _fam_http_tls_dual. Qed.
Lemma quic_fake_rows : expands (labelled ["std_quic_fake_"; "std_quic_ip6_"] "quic") _fam_quic_fake.
Proof. expander _fam_quic_fake. Qed.
Lemma quic_gv_rows : expands (labelled ["std_quic_gv_"] "quic") _fam_quic_gv.
Proof. expander _fam_quic_gv. Qed.
Lemma udp_discord_rows : expands (labelled ["std_udp_"] "udp_voice") _fam_udp_discord.
Proof. expander _fam_udp_discord. Qed.
Lemma udp_quic_rows : expands (labelled ["std_udp_quic_"] "quic") _fam_udp_quic.
Proof. expander _fam_udp_quic. Qed.
Lemma udp_game_rows : expands (labelled ["std_udp_game_"] "udp_game") _fam_udp_game.
Proof. expander _fam_udp_game. Qed.
Lemma udp_multiblob_rows : expands (labelled ["std_udp_multiblob_"] "udp_voice") _fam_udp_multiblob.
Proof. expander_rows _fam_udp_multiblob. Qed.

(** The padded rows of [multisplit] have a label of their own. *)
Definition pad_rows : list row := seqovl_pad_row <$> ["rnd,dupsid,padencap"; "rnd,dupsid"].
Definition multisplit_row (l s p : string) : Prop :=
  labelled ["std_split_"] "tls12" l s p \/ p = "tls12" /\ (l, s) ∈ pad_rows.

Lemma adds_impl (P P' : string -> string -> string -> Prop) st st' :
  (forall l s p, P l s p -> P' l s p) -> adds P st st' -> adds P' st st'.
Proof. intros H. induction 1; [constructor|]. eapply adds_row; [by apply H|done]. Qed.

Lemma multisplit_rows : expands multisplit_row _fam_multisplit.
Proof.
  intros st fam level known st' H. unfold _fam_multisplit in H. cbv zeta in H. expander_step.
  eapply adds_unless; [|exact H|].
  - apply (adds_impl (labelled ["std_split_"] "tls12")); [by left|]. apply adds_emit. auto with rows.
  - clear H. intros st1 H2. apply (inj Some) in H2. subst st'. set (st2 := (emit_rows level "tls12" (all_ttl_rows _ _ _ _) st1).1).
    apply (adds_trans _ _ st2).
    + apply (adds_impl (labelled ["std_split_"] "tls12")); [by left|]. apply adds_emit. auto with rows.
    + destruct (get_truthy _ _); [|apply adds_refl]. apply adds_emit, Forall_expand1. intros t Ht. right.
      split; [done|]. apply list_elem_of_fmap. exists t. split; [by destruct (seqovl_pad_row t)|done].
Qed.

(** A label of [fake] whose blob does not start with an [h]. *)
Definition plain_blob (b : string) : Prop :=
  match b with String c _ => lower_char c <> "h"%char | EmptyString => False end.
Definition fake_row (l s p : string) : Prop :=
  p = "tls12" /\ exists b t, plain_blob b /\ l = "std_fake_" +:+ b +:+ t.

Lemma fake_row_closed : label_closed (fun r => fake_row r.1 r.2 "tls12").
Proof.
  intros l s suffix s' (_ & b & t & Hb & Hl). cbn [fst] in Hl. subst l. split; [done|].
  exists b, (t +:+ suffix). split; [done|]. cbn [fst]. by rewrite !append_assoc.
Qed.

Lemma fake_rows st fam level known st' p :
  from_family fam level None = Some p -> Forall plain_blob (p_blobs p) ->
  _fam_fake st fam level known = Some st' -> adds fake_row st st'.
Proof.
  intros Hp Hb H. unfold _fam_fake in H. rewrite Hp in H. cbn [mbind option_bind] in H. cbv zeta in H.
  rewrite Forall_forall in Hb.
  set (cores := expand3 _ _ _ fake_core) in *.
  assert (Hcores : Forall (fun r => fake_row r.1 r.2 "tls12") cores).
  { apply Forall_expand3. intros b r fool Hin _. split; [done|]. eexists b, _. split; [by apply Hb|done]. }
  eapply adds_unless; [by apply adds_emit|exact H|]. clear H. intros st1 (st2 & H1 & [= <-])%bind_Some.
  apply (adds_trans _ _ st2).
  - destruct (dget "ipv6_extra" fam) as [ip6|]; [|injection H1 as <-; constructor].
    destruct (_ && _); [|injection H1 as <-; constructor].
    apply bind_Some in H1 as (vals & _ & [= <-]). apply adds_emit, Forall_expand2. intros ip b _ Hin.
    split; [done|]. eexists b, _. split; [|reflexivity].
    repeat (apply elem_of_cons in Hin as [->|Hin]; [vm_compute; discriminate|]). by apply not_elem_of_nil in Hin.
  - apply adds_emit. unfold fake_companions. cbv zeta. pose proof fake_row_closed. apply Forall_app_2; [auto with rows|].
    apply Forall_app_2; [auto with rows|]. apply Forall_app_2; [auto with rows|].
    destruct (_ || _); [|constructor]. apply Forall_expand3. intros b r t Hin _. split; [done|].
    unfold fake_tls_row. cbn [fst]. unfold cmd_label. eexists b, _. apply list_elem_of_filter in Hin as [_ Hin].
    split; [by apply Hb|]. rewrite !append_assoc. reflexivity.
Qed.
