(* ===== verification/RoundRobin.v ===== *)
(** * The round robin of the standard generator

    [_round_robin] against a reference: read the families column by column, keep the first item
    of each strategy, cut at the cap. *)

From stdpp Require Import base numbers list strings gmap.
From Stdlib Require Import ZArith Lia.
From S2P Require Import Prelude PyStr PyDict Families Standard.

(** The items of all families at one index. *)
Definition column (idx : nat) (groups : list (list StrategyItem)) : list StrategyItem :=
  omap (fun lst => lst !! idx) groups.

(** The first item of each strategy. *)
Fixpoint first_of_strategy (seen : gset string) (l : list StrategyItem) : list StrategyItem :=
  match l with
  | [] => []
  | it :: l =>
      if decide (strategy it ∈ seen) then first_of_strategy seen l
      else it :: first_of_strategy ({[strategy it]} ∪ seen) l
  end.

(** Column after column. *)
Definition interleave_from (idx n : nat) (groups : list (list StrategyItem)) : list StrategyItem :=
  concat ((fun i => column i groups) <$> seq idx n).
Definition longest (groups : list (list StrategyItem)) : nat := max_list (length <$> groups).
Definition interleave (groups : list (list StrategyItem)) : list StrategyItem :=
  interleave_from 0 (longest groups) groups.

Lemma first_of_strategy_app seen a b :
  first_of_strategy seen (a ++ b) =
  first_of_strategy seen a ++ first_of_strategy (list_to_set (strategy <$> a) ∪ seen) b.
Proof.
  revert seen. induction a as [|it a IH]; intros seen; cbn [first_of_strategy app fmap list_fmap list_to_set].
  - f_equal. set_solver.
  - case_decide as Hs.
    + rewrite IH. do 2 f_equal. set_solver.
    + rewrite IH. cbn [app]. do 3 f_equal. set_solver.
Qed.

Lemma elem_of_first seen l it : it ∈ first_of_strategy seen l -> it ∈ l /\ strategy it ∉ seen.
Proof.
  revert seen. induction l as [|x l IH]; intros seen; cbn [first_of_strategy]; [by intros ?%not_elem_of_nil|].
  case_decide; [intros [? ?]%IH; split; [by right|done]|].
  intros [->|Hin]%elem_of_cons; [split; [by left|done]|]. apply IH in Hin as [H1 H2]. split; [by right|set_solver].
Qed.

Lemma first_distinct seen l : NoDup (strategy <$> first_of_strategy seen l).
Proof.
  revert seen. induction l as [|x l IH]; intros seen; cbn [first_of_strategy]; [constructor|].
  case_decide; [done|]. cbn. constructor; [|apply IH].
  intros (y & Hy & Hin)%list_elem_of_fmap. apply elem_of_first in Hin as [_ Hn]. set_solver.
Qed.

Lemma first_complete seen l it :
  it ∈ l -> strategy it ∈ seen \/ strategy it ∈ strategy <$> first_of_strategy seen l.
Proof.
  revert seen. induction l as [|x l IH]; intros seen; [by intros ?%not_elem_of_nil|].
  cbn [first_of_strategy]. intros [->|Hin]%elem_of_cons.
  - case_decide; [by left|right; left].
  - case_decide; [by apply IH|]. destruct (IH ({[strategy x]} ∪ seen) Hin) as [Hs|Hs].
    + apply elem_of_union in Hs as [Hs|Hs]; [|by left]. apply elem_of_singleton in Hs. rewrite Hs. right. left.
    + right. by right.
Qed.

(** ** One round *)

Lemma column_cons idx lst groups :
  column idx (lst :: groups) =
  match lst !! idx with Some it => it :: column idx groups | None => column idx groups end.
Proof. unfold column. cbn. by destruct (lst !! idx). Qed.

Lemma rr_walk_spec cap idx groups st :
  (Z.of_nat (length (rr_out st)) < cap)%Z ->
  let new := first_of_strategy (rr_seen st) (column idx groups) in
  let room := (Z.to_nat cap - length (rr_out st))%nat in
  let st' := rr_walk cap idx groups st in
  rr_out st' = rr_out st ++ take room new /\
  rr_advanced st' = (rr_advanced st || negb (bool_decide (column idx groups = []))) /\
  ((length new < room)%nat -> rr_seen st' = list_to_set (strategy <$> column idx groups) ∪ rr_seen st).
Proof.
  revert st. induction groups as [|lst groups IH]; intros st Hcap; cbn zeta.
  { cbn. rewrite take_nil, app_nil_r, orb_false_r. split_and!; [done..|]. intros _. set_solver. }
  rewrite column_cons. cbn [rr_walk]. destruct (lst !! idx) as [it|] eqn:E; [|by apply IH].
  change (bool_decide (it :: column idx groups = [])) with false.
  cbn [negb first_of_strategy fmap list_fmap list_to_set]. rewrite orb_true_r.
  case_decide as Hs.
  - cbn [rr_out]. rewrite (proj2 (Z.leb_gt cap _)) by lia.
    destruct (IH (RR (rr_out st) (rr_seen st) true)) as (H1 & H2 & H3); [done|]. cbn [rr_out rr_seen rr_advanced] in *.
    split_and!; [done|by rewrite H2|]. intros Hl. rewrite H3 by done. set_solver.
  - cbn [rr_out]. set (room := (Z.to_nat cap - length (rr_out st))%nat).
    assert (Hr : room = S (room - 1)) by (unfold room; lia).
    destruct (Z.leb_spec cap (Z.of_nat (length (rr_out st ++ [it])))) as [Hle|Hlt]; rewrite length_app in *; simpl in *.
    + assert (room = 1%nat) as -> by (unfold room; lia). cbn. split_and!; [done..|]. lia.
    + destruct (IH (RR (rr_out st ++ [it]) ({[strategy it]} ∪ rr_seen st) true)) as (H1 & H2 & H3).
      { cbn [rr_out]. rewrite length_app. simpl. lia. }
      cbn [rr_out rr_seen rr_advanced] in *. rewrite length_app in H1, H3. simpl in H1, H3.
      replace (Z.to_nat cap - (length (rr_out st) + 1))%nat with (room - 1)%nat in H1, H3 by (unfold room; lia).
      split_and!.
      * rewrite H1, Hr. cbn [take]. by rewrite Nat.sub_1_r, <- app_assoc.
      * by rewrite H2.
      * intros Hl. rewrite H3 by lia. set_solver.
Qed.

(** ** The loop *)

Lemma column_nil idx groups : column idx groups = [] <-> (longest groups <= idx)%nat.
Proof.
  unfold longest. induction groups as [|lst groups IH]; [split; [intros _; simpl; lia|done]|].
  rewrite column_cons.
  change (max_list (length <$> lst :: groups)) with (length lst `max` max_list (length <$> groups))%nat.
  destruct (lst !! idx) as [it|] eqn:E.
  - split; [done|]. apply lookup_lt_Some in E. lia.
  - rewrite IH. apply lookup_ge_None in E. lia.
Qed.

Lemma interleave_from_S idx n groups :
  interleave_from idx (S n) groups = column idx groups ++ interleave_from (S idx) n groups.
Proof. done. Qed.

Lemma rr_loop_spec fuel cap idx groups st :
  (longest groups - idx + 2 <= fuel)%nat ->
  rr_loop fuel cap idx groups st =
  Some (rr_out st ++ take (Z.to_nat cap - length (rr_out st))
          (first_of_strategy (rr_seen st) (interleave_from idx (longest groups - idx) groups))).
Proof.
  revert idx st. induction fuel as [|fuel IH]; intros idx st Hf; [lia|]. cbn [rr_loop].
  destruct (Z.ltb_spec (Z.of_nat (length (rr_out st))) cap) as [Hlt|Hge]; cycle 1.
  { replace (Z.to_nat cap - length (rr_out st))%nat with 0%nat by lia. by rewrite take_0, app_nil_r. }
  destruct (rr_walk_spec cap idx groups (RR (rr_out st) (rr_seen st) false)) as (H1 & H2 & H3); [done|].
  cbn [rr_out rr_seen rr_advanced orb] in H1, H2, H3. rewrite H2.
  set (w := rr_walk cap idx groups _) in *. set (new := first_of_strategy _ (column idx groups)) in *.
  set (room := (Z.to_nat cap - length (rr_out st))%nat) in *.
  case_bool_decide as Hc; cbn [negb].
  - rewrite H1. subst new. rewrite Hc. apply column_nil in Hc.
    replace (longest groups - idx)%nat with 0%nat by lia. done.
  - assert (Hi : (idx < longest groups)%nat) by (rewrite column_nil in Hc; lia).
    rewrite IH by lia. replace (longest groups - idx)%nat with (S (longest groups - S idx)) by lia.
    rewrite interleave_from_S, first_of_strategy_app. fold new. rewrite H1, <- app_assoc, length_app, length_take.
    destruct (Nat.lt_ge_cases (length new) room) as [Hn|Hn].
    + rewrite H3 by done. rewrite (take_ge new) by lia. rewrite take_app, (take_ge new room) by lia.
      replace (Z.to_nat cap - (length (rr_out st) + room `min` length new))%nat with (room - length new)%nat
        by (unfold room in *; lia). done.
    + rewrite (take_app_le new) by done. f_equal. f_equal.
      replace (Z.to_nat cap - (length (rr_out st) + room `min` length new))%nat with 0%nat by (unfold room in *; lia).
      by rewrite take_0, app_nil_r.
Qed.

(** The round robin ends within its fuel and is the reference: the first [cap] items, column by
    column, of distinct strategies. *)
Lemma round_robin_reference groups cap :
  _round_robin groups cap = Some (take (Z.to_nat cap) (first_of_strategy ∅ (interleave (values groups)))).
Proof.
  unfold _round_robin, rr_fuel, interleave. rewrite rr_loop_spec by (unfold longest; lia). cbn [rr_out rr_seen length].
  by rewrite app_nil_l, !Nat.sub_0_r.
Qed.

Lemma elem_of_interleave groups it : it ∈ interleave groups -> exists lst, lst ∈ groups /\ it ∈ lst.
Proof.
  unfold interleave, interleave_from. intros (col & Hcol & Hit)%list_elem_of_In%in_concat.
  apply list_elem_of_In in Hit, Hcol. apply list_elem_of_fmap in Hcol as (i & -> & _).
  apply list_elem_of_omap in Hit as (lst & Hl & Hi). exists lst. split; [done|]. by eapply list_elem_of_lookup_2.
Qed.

Lemma interleave_elem groups lst it : lst ∈ groups -> it ∈ lst -> it ∈ interleave groups.
Proof.
  intros Hl Hit. apply list_elem_of_lookup_1 in Hit as [i Hi]. unfold interleave, interleave_from.
  apply list_elem_of_In, in_concat. exists (column i groups). split.
  - apply list_elem_of_In, list_elem_of_fmap. exists i. split; [done|]. apply elem_of_seq. split; [lia|].
    apply lookup_lt_Some in Hi. assert (length lst <= longest groups)%nat; [|lia].
    unfold longest. apply max_list_elem_of_le, list_elem_of_fmap. eauto.
  - apply list_elem_of_In, list_elem_of_omap. eauto.
Qed.

(** The round robin ends and equals its reference: the families are read column by column, one
    item per family, later copies of a strategy are left out, and the cap cuts the list. So no
    strategy comes twice, and when the cap is not reached every strategy of every family is there. *)
Theorem round_robin_spec groups cap :
  exists out, _round_robin groups cap = Some out /\
    out = take (Z.to_nat cap) (first_of_strategy ∅ (interleave (values groups))) /\
    NoDup (strategy <$> out) /\ (length out <= Z.to_nat cap)%nat /\
    ((Z.of_nat (length out) < cap)%Z -> forall t lst it, (t, lst) ∈ groups -> it ∈ lst ->
       strategy it ∈ strategy <$> out).
Proof.
  rewrite round_robin_reference. set (ref := first_of_strategy ∅ (interleave (values groups))).
  exists (take (Z.to_nat cap) ref). split_and!; [done|done| | |].
  - rewrite <- (take_drop (Z.to_nat cap) ref) in *. pose proof (first_distinct ∅ (interleave (values groups))) as H.
    fold ref in H. rewrite <- (take_drop (Z.to_nat cap) ref), fmap_app in H. rewrite take_drop. by apply NoDup_app in H as (? & _).
  - rewrite length_take. lia.
  - rewrite length_take. intros Hl t lst it Hin Hit. rewrite take_ge by lia.
    destruct (first_complete ∅ (interleave (values groups)) it) as [Hs|Hs]; [|set_solver|done].
    eapply interleave_elem; [|done]. apply list_elem_of_fmap. by exists (t, lst).
Qed.
