(* ===== verification/GenTyped.v ===== *)
(** * Types of the axes

    The axes of a family have the types that [StrategyParams] and the expanders expect
    ([axes_typed]). The tables are typed, the mutators and the triage keep the types, and an
    expander that gets typed axes does not raise. *)

From stdpp Require Import base numbers list strings gmap.
From Stdlib Require Import ZArith Lia Ascii.
From S2P Require Import Prelude PyStr PyDict FamilyAxes Families Triage TriagePrune GenHelpers GenFake GenSplit GenTamper Standard GenFacts.

#[local] Open Scope string_scope.

Inductive kind : Type :=
  | KInts  (* a list of integers *)
  | KTexts (* a list of texts *)
  | KSeq   (* a list of anything *)
  | KSizes (* a list of texts that is not empty *)
  | KTuples (n : nat). (* a list of sequences of at least [n] values *)

Definition is_int (v : axval) : bool := match v with VInt _ => true | _ => false end.
Definition is_text (v : axval) : bool := match v with VStr _ => true | _ => false end.
Definition has_items (n : nat) (v : axval) : bool :=
  match v with VList l | VTuple l => (n <=? length l)%nat | _ => false end.

Definition has_kind (k : kind) (v : axval) : bool :=
  match v with
  | VList l | VTuple l =>
      match k with
      | KInts => forallb is_int l
      | KTexts => forallb is_text l
      | KSeq => true
      | KSizes => forallb is_text l && (1 <=? length l)%nat
      | KTuples n => forallb (has_items n) l
      end
  | _ => false
  end.

(** The types of the axes the expanders read. *)
Definition axis_kinds : list (string * kind) :=
  [ ("repeats", KInts); ("foolings", KTexts); ("blobs", KTexts); ("ttl_static", KInts); ("ttl_auto", KTexts);
    ("positions", KSeq); ("tls_mods", KSeq); ("blob_pairs", KTuples 2); ("pattern_blobs", KSeq);
    ("seqovl_blobs", KSeq); ("seqovl", KInts); ("variants", KTexts); ("fools", KSeq); ("out_range", KSeq);
    ("profiles", KTuples 2); ("triples", KTuples 3); ("hf_hosts", KSeq); ("hf_variants", KSeq);
    ("ipv6_extra", KSeq); ("hosts", KSeq); ("repeat_pairs", KTuples 2); ("mods", KTexts); ("flag_fakes", KTexts);
    ("modes", KTexts); ("disorder", KSeq); ("ipfrag_next", KSeq); ("combo_blobs", KSeq); ("plus_split", KSeq);
    ("urps", KSeq); ("sizes", KSizes); ("combos", KSeq); ("http_blobs", KSeq); ("ip6_fools", KTexts) ].

Definition axes_typed (fam : axes) : Prop :=
  forall key k v, (key, k) ∈ axis_kinds -> dget key fam = Some v -> has_kind k v = true.

Definition check_axes (fam : axes) : bool :=
  forallb (fun kk => match dget kk.1 fam with Some v => has_kind kk.2 v | None => true end) axis_kinds.

Lemma check_axes_typed fam : check_axes fam = true -> axes_typed fam.
Proof.
  unfold check_axes. rewrite forallb_forall. intros H key k v Hin Hg.
  specialize (H (key, k) (proj1 (list_elem_of_In _ _) Hin)). cbn [fst snd] in H. by rewrite Hg in H.
Qed.

(** Every axis table of the registry is typed. *)
Lemma registry_typed t : axes_typed (axes_for t).
Proof.
  apply check_axes_typed. unfold axes_for. destruct (dget t BY_NAME) as [s|] eqn:E; [|reflexivity].
  assert (H : forallb (fun ts => check_axes (spec_axes ts.2)) BY_NAME = true) by (vm_compute; reflexivity).
  rewrite forallb_forall in H. apply (H (t, s)). apply list_elem_of_In, elem_of_dict; [|done].
  apply wf_dict_of.
Qed.

Lemma axes_typed_set fam key v :
  axes_typed fam -> (forall k, (key, k) ∈ axis_kinds -> has_kind k v = true) -> axes_typed (dset key v fam).
Proof.
  intros H Hv key' k v' Hin. rewrite dget_set. case_decide as E; [|by apply H].
  subst. intros [= <-]. by apply Hv.
Qed.

(** The kind of a key is the one of the table. *)
Lemma kind_of key k k' : dget key axis_kinds = Some k -> (key, k') ∈ axis_kinds -> k' = k.
Proof.
  intros H Hin. apply elem_of_dict in Hin; [congruence|].
  unfold wf, keys. refine (bool_decide_unpack _ _). vm_compute. exact I.
Qed.

Lemma axes_typed_set_kind fam key k v :
  axes_typed fam -> dget key axis_kinds = Some k -> has_kind k v = true -> axes_typed (dset key v fam).
Proof. intros H Hk Hv. apply axes_typed_set; [done|]. intros k' Hin. by rewrite (kind_of _ _ _ Hk Hin). Qed.

Lemma typed_get fam key k v :
  axes_typed fam -> dget key axis_kinds = Some k -> dget key fam = Some v -> has_kind k v = true.
Proof.
  intros H Hk Hv. eapply H; [|done]. apply elem_of_dict; [|done].
  unfold wf, keys. refine (bool_decide_unpack _ _). vm_compute. exact I.
Qed.

(** ** Values of a kind *)

Lemma kind_iter k v : has_kind k v = true -> exists l, py_iter v = Some l /\ has_kind k (VList l) = true.
Proof. destruct v; try done; intros H; eexists; split; done. Qed.

Lemma texts_as_str l : has_kind KTexts (VList l) = true <-> exists ss, mapM as_str l = Some ss /\ l = VStr <$> ss.
Proof.
  cbn. rewrite forallb_forall. split.
  - intros H. induction l as [|v l IH]; [by exists []|].
    destruct IH as (ss & Hs & ->); [intros x Hx; apply H; by right|].
    specialize (H v (or_introl eq_refl)). destruct v; try done. exists (s :: ss). cbn. rewrite Hs. done.
  - intros (ss & _ & ->) v Hv. apply list_elem_of_In, list_elem_of_fmap in Hv as (s & -> & _). done.
Qed.

Lemma ints_axis_int l : has_kind KInts (VList l) = true -> is_Some (mapM axis_int l).
Proof.
  cbn. rewrite forallb_forall. intros H. apply mapM_is_Some, Forall_forall. intros v Hv.
  specialize (H v (proj1 (list_elem_of_In _ _) Hv)). destruct v; try done. by eexists.
Qed.

Lemma has_kind_texts ss : has_kind KTexts (VList (VStr <$> ss)) = true.
Proof. apply texts_as_str. exists ss. split; [|done]. apply mapM_Some. induction ss; constructor; done. Qed.

Lemma has_kind_filter (P : axval -> Prop) {PD : forall x, Decision (P x)} k l :
  k <> KSizes -> has_kind k (VList l) = true -> has_kind k (VList (filter P l)) = true.
Proof.
  intros Hk. destruct k; try done; cbn; rewrite ?forallb_forall; 
    intros H x Hx; apply H; apply list_elem_of_In in Hx; apply list_elem_of_filter in Hx as [_ Hx];
    by apply list_elem_of_In.
Qed.

(** ** The mutators and the triage keep the types *)

#[local] Ltac keep_kind k := apply (axes_typed_set_kind _ _ k); [|reflexivity|].

Lemma get_texts_typed fam key dflt :
  axes_typed fam -> dget key axis_kinds = Some KTexts -> is_Some (get_texts key dflt fam).
Proof.
  intros H Hk. unfold get_texts, get_iter. destruct (dget key fam) as [v|] eqn:E; cbn [mbind option_bind].
  - destruct (kind_iter KTexts v (typed_get _ _ _ _ H Hk E)) as (l & -> & Hl).
    apply texts_as_str in Hl as (ss & Hs & _). cbn [mbind option_bind]. by exists ss.
  - exists dflt. apply mapM_Some. induction dflt; constructor; done.
Qed.

Lemma mutate_typed level t fam :
  axes_typed fam -> exists fam', mutate level t fam = Some fam' /\ axes_typed fam'.
Proof.
  intros H. unfold mutate.
  assert (Hadd : forall dflt more, exists fam', add_foolings dflt more fam = Some fam' /\ axes_typed fam').
  { intros dflt more. unfold add_foolings. destruct (get_texts_typed fam "foolings" dflt H eq_refl) as [fs ->].
    cbn [mbind option_bind]. eexists. split; [done|]. keep_kind KTexts; [done|apply has_kind_texts]. }
  destruct (dget t _) as [mut|] eqn:E; [|by exists fam].
  assert (Hm : mut ∈ [_mut_full_fake; _mut_full_tcp_fools; _mut_full_quic_fake; _mut_full_udp_discord; _mut_fast_fake]).
  { apply dget_elem in E. unfold dget_default in E. destruct (dget level _SCAN_MUTATORS) as [d|] eqn:El;
      [|by apply not_elem_of_nil in E].
    apply dget_elem in El. revert E. unfold _SCAN_MUTATORS in El.
    repeat (apply elem_of_cons in El as [[= -> ->]|El]); [..|by apply not_elem_of_nil in El];
      intros E; repeat (apply elem_of_cons in E as [E|E]; [injection E as -> ->; set_solver|]); by apply not_elem_of_nil in E. }
  repeat (apply elem_of_cons in Hm as [->|Hm]); [..|by apply not_elem_of_nil in Hm].
  - eexists. split; [reflexivity|]. keep_kind KSeq; [|reflexivity]. keep_kind KTexts; [|reflexivity].
    by keep_kind KInts.
  - apply Hadd.
  - unfold _mut_full_quic_fake. destruct (Hadd [""] ALL_FOOLINGS_UDP) as (f & -> & Hf). cbn [mbind option_bind].
    eexists. split; [done|]. by keep_kind KTexts.
  - eexists. split; [reflexivity|]. keep_kind KTexts; [|reflexivity]. keep_kind KInts; [|reflexivity].
    by keep_kind KInts.
  - eexists. split; [reflexivity|]. by keep_kind KSeq.
Qed.

(** An update by a function that keeps the kind. *)
Lemma update_typed fam key k f :
  axes_typed fam -> dget key axis_kinds = Some k ->
  (forall l, has_kind k (VList l) = true -> exists l', f l = Some l' /\ has_kind k (VList l') = true) ->
  exists fam', update_axis key f fam = Some fam' /\ axes_typed fam'.
Proof.
  intros H Hk Hf. unfold update_axis. destruct (dget key fam) as [v|] eqn:E; [|by exists fam].
  pose proof (typed_get _ _ _ _ H Hk E) as Hv. destruct (kind_iter _ _ Hv) as (l & Hi & Hl).
  destruct (Hf l Hl) as (l' & Hl' & Hk'). exists (dset key (VList l') fam).
  split; [|by apply (axes_typed_set_kind _ _ k)]. destruct v; try done; rewrite Hi; cbn [mbind option_bind]; by rewrite Hl'.
Qed.

Lemma on_texts_typed f l :
  has_kind KTexts (VList l) = true -> exists l', on_texts f l = Some l' /\ has_kind KTexts (VList l') = true.
Proof.
  intros H. apply texts_as_str in H as (ss & Hs & _). unfold on_texts. rewrite Hs. cbn [mbind option_bind].
  eexists. split; [done|apply has_kind_texts].
Qed.

Lemma triage_axes_typed fam p level proto :
  axes_typed fam -> exists fam', _apply_triage_axes fam p level proto = Some fam' /\ axes_typed fam'.
Proof.
  intros H. unfold _apply_triage_axes.
  destruct (update_typed fam "foolings" KTexts (on_texts (fun l => filter_fooling_values l (Some p))) H) as (f1 & -> & H1);
    [done|apply on_texts_typed|]. cbn [mbind option_bind].
  destruct (update_typed f1 "blobs" KTexts (on_texts (fun l => filter_blob_aliases (Some l) (Some p) proto)) H1)
    as (f2 & -> & H2); [done|apply on_texts_typed|]. cbn [mbind option_bind].
  destruct (update_typed f2 "ttl_static" KInts (fun l => Some (filter_ttl_values l (Some p) level)) H2)
    as (f3 & -> & H3); [done| |].
  { intros l Hl. eexists. split; [done|]. unfold filter_ttl_values. repeat case_match; try done; by apply has_kind_filter. }
  cbn [mbind option_bind].
  destruct (update_typed f3 "positions" KSeq (fun l => Some (filter_split_positions l (Some p) level)) H3)
    as (f4 & -> & H4); [done|by eexists|]. cbn [mbind option_bind].
  set (f5 := match viable_hosts p with [] => f4 | _ => _ end).
  assert (H5 : axes_typed f5).
  { unfold f5. destruct (viable_hosts p); [done|]. by keep_kind KSeq. }
  destruct (autottl_delta p); [|by exists f5].
  eapply update_typed; [done|done|apply on_texts_typed].
Qed.

(** ** Typed axes do not raise *)

Section Typed.
Context (fam : axes) (Hfam : axes_typed fam).

Lemma get_iter_typed key k dflt :
  dget key axis_kinds = Some k ->
  exists l, get_iter key dflt fam = Some l /\ (dget key fam <> None -> has_kind k (VList l) = true) /\
    (dget key fam = None -> l = dflt).
Proof.
  intros Hk. unfold get_iter. destruct (dget key fam) as [v|] eqn:E; [|by exists dflt].
  destruct (kind_iter k v (typed_get _ _ _ _ Hfam Hk E)) as (l & -> & Hl). by exists l.
Qed.

Lemma get_iter_some key k dflt : dget key axis_kinds = Some k -> is_Some (get_iter key dflt fam).
Proof. intros Hk. destruct (get_iter_typed key k dflt Hk) as (l & -> & _). by eexists. Qed.

Lemma ints_typed key : dget key axis_kinds = Some KInts -> is_Some (_ints fam key).
Proof.
  intros Hk. unfold _ints. destruct (get_iter_typed key KInts [] Hk) as (l & -> & H1 & H2). cbn [mbind option_bind].
  destruct (dget key fam); [by apply ints_axis_int, H1|]. rewrite H2 by done. by exists [].
Qed.

Lemma strs_typed key k : dget key axis_kinds = Some k -> is_Some (_strs fam key).
Proof. intros Hk. unfold _strs. destruct (get_iter_some key k [] Hk) as [l ->]. by eexists. Qed.

Lemma has_items_iter n v : has_items n v = true -> exists l, py_iter v = Some l /\ (n <= length l)%nat.
Proof. destruct v; try done; intros H; eexists; (split; [done|]); by apply Nat.leb_le. Qed.

Lemma pairs_typed key n :
  dget key axis_kinds = Some (KTuples n) ->
  exists ps, _pairs fam key = Some ps /\ Forall (fun ss => (n <= length ss)%nat) ps.
Proof.
  intros Hk. unfold _pairs. destruct (get_iter_typed key _ [] Hk) as (l & -> & H1 & H2). cbn [mbind option_bind].
  destruct (dget key fam); [|rewrite H2 by done; by exists []].
  assert (H : forallb (has_items n) l = true) by by apply H1. clear H1 H2. rewrite forallb_forall in H.
  induction l as [|v l IH]; [by exists []|]. destruct IH as (ps & Hps & Hf); [intros x Hx; apply H; by right|].
  destruct (has_items_iter n v (H v (or_introl eq_refl))) as (xs & Hxs & Hn).
  exists ((py_str <$> xs) :: ps). split; [|by constructor; [rewrite length_fmap|]].
  cbn. rewrite Hxs. cbn [mbind option_bind]. cbn in Hps. rewrite Hps. done.
Qed.

Lemma texts_typed key dflt : dget key axis_kinds = Some KTexts -> is_Some (get_texts key dflt fam).
Proof. by apply get_texts_typed. Qed.

Lemma family_foolings_typed : is_Some (family_foolings fam).
Proof.
  pose proof (texts_typed "foolings" [] eq_refl) as [ss H]. unfold get_texts in H. unfold family_foolings.
  cbn [fmap list_fmap] in H. apply bind_Some in H as (l & -> & Hl). cbn [mbind option_bind]. rewrite Hl. by eexists.
Qed.

Lemma from_family_typed level fools :
  exists p, from_family fam level fools = Some p /\
    Forall (fun ss => (2 <= length ss)%nat) (p_blob_pairs p) /\
    Forall (fun ss => (2 <= length ss)%nat) (p_profiles p) /\
    Forall (fun ss => (3 <= length ss)%nat) (p_triples p).
Proof.
  unfold from_family.
  destruct (ints_typed "repeats" eq_refl) as [? ->], (strs_typed "foolings" _ eq_refl) as [? ->],
    (strs_typed "blobs" _ eq_refl) as [? ->], (ints_typed "ttl_static" eq_refl) as [? ->],
    (strs_typed "ttl_auto" _ eq_refl) as [? ->], (strs_typed "positions" _ eq_refl) as [? ->],
    (strs_typed "tls_mods" _ eq_refl) as [? ->], (pairs_typed "blob_pairs" 2 eq_refl) as (? & -> & ?),
    (strs_typed "pattern_blobs" _ eq_refl) as [? ->], (strs_typed "seqovl_blobs" _ eq_refl) as [? ->],
    (ints_typed "seqovl" eq_refl) as [? ->], (strs_typed "variants" _ eq_refl) as [? ->],
    (strs_typed "fools" _ eq_refl) as [? ->], (get_iter_some "out_range" _ [] eq_refl) as [? ->],
    (pairs_typed "profiles" 2 eq_refl) as (? & -> & ?), (pairs_typed "triples" 3 eq_refl) as (? & -> & ?),
    (strs_typed "hf_hosts" _ eq_refl) as [? ->], (strs_typed "hf_variants" _ eq_refl) as [? ->].
  eexists. split; [reflexivity|]. done.
Qed.

Lemma family_hosts_typed : is_Some (family_hosts fam).
Proof.
  unfold family_hosts. destruct (dget "hosts" fam) as [v|] eqn:E; [|by eexists].
  destruct (truthy v); [|by eexists].
  destruct (kind_iter KSeq v (typed_get fam "hosts" _ _ Hfam eq_refl E)) as (l & -> & _). by eexists.
Qed.
End Typed.

Lemma bind_total {A B} (m : option A) (f : A -> option B) :
  is_Some m -> (forall x, m = Some x -> is_Some (f x)) -> is_Some (m ≫= f).
Proof. intros [x Hx] H. rewrite Hx. cbn [mbind option_bind]. by apply H. Qed.

Lemma unless_total (r : gen * bool) k : (forall st, is_Some (k st)) -> is_Some (unless_stopped r k).
Proof. intros H. unfold unless_stopped. destruct r.2; [by eexists|apply H]. Qed.

Lemma rows_total {R} (l : list (option R)) : Forall is_Some l -> is_Some (rows_or_raise l).
Proof. intros H. by apply mapM_is_Some. Qed.

Lemma axis_values_typed k v : has_kind k v = true -> is_Some (axis_values v).
Proof. destruct v; try done; by eexists. Qed.

Lemma different_pairs_total ps :
  Forall (fun ss : list string => (2 <= length ss)%nat) ps ->
  exists ps', different_pairs ps = Some ps' /\ Forall (fun ss : list string => (2 <= length ss)%nat) ps'.
Proof.
  intros H. unfold different_pairs.
  assert (Hm : is_Some (mapM (fun pair : list string => b0 ← pair !! 0; b1 ← pair !! 1; Some (negb (String.eqb b0 b1))) ps)).
  { apply mapM_is_Some. eapply Forall_impl; [exact H|]. intros ss Hss. destruct ss as [|a [|b ss]]; simpl in Hss; try lia. by eexists. }
  destruct Hm as [keep Hk]. rewrite Hk. cbn [mbind option_bind]. eexists. split; [done|].
  apply Forall_fmap, Forall_forall. intros [ss b] Hin. apply list_elem_of_filter in Hin as [_ Hin].
  rewrite Forall_forall in H. apply H. by apply elem_of_zip_l in Hin.
Qed.

Definition total (f : expander_fn) : Prop :=
  forall st fam level known, axes_typed fam -> is_Some (f st fam level known).

Lemma repeat_pairs_typed fam :
  axes_typed fam -> exists rps, repeat_pairs fam = Some rps /\ Forall (fun v => has_items 2 v = true) rps.
Proof.
  intros H. unfold repeat_pairs. destruct (get_iter_some fam H "repeats" _ [VInt 6] eq_refl) as [rs ->].
  cbn [mbind option_bind]. destruct (dget "repeat_pairs" fam) as [v|] eqn:E; cycle 1.
  { eexists. split; [done|]. apply Forall_fmap, Forall_forall. done. }
  pose proof (typed_get fam "repeat_pairs" _ _ H eq_refl E) as Hv.
  assert (Hr : forall l, forallb (has_items 2) l = true -> Forall (fun v => has_items 2 v = true) l).
  { intros l Hl. rewrite forallb_forall in Hl. apply Forall_forall. intros x Hx. apply Hl. by apply list_elem_of_In. }
  destruct v; try done; eexists; (split; [done|by apply Hr]).
Qed.

(** Two values of a pair, three of a triple *)
Lemma pair_items {A} (ss : list A) : (2 <= length ss)%nat -> exists a b rest, ss = a :: b :: rest.
Proof. destruct ss as [|a [|b ss]]; simpl; try lia. by eexists _, _, _. Qed.
Lemma triple_items {A} (ss : list A) : (3 <= length ss)%nat -> exists a b c rest, ss = a :: b :: c :: rest.
Proof. destruct ss as [|a [|b [|c ss]]]; simpl; try lia. by eexists _, _, _, _. Qed.

Lemma pair_of {A} (ps : list (list A)) ss :
  ss ∈ ps -> Forall (fun ss => (2 <= length ss)%nat) ps -> exists a b rest, ss = a :: b :: rest.
Proof. intros Hin H. rewrite Forall_forall in H. by apply pair_items, H. Qed.
Lemma triple_of {A} (ps : list (list A)) ss :
  ss ∈ ps -> Forall (fun ss => (3 <= length ss)%nat) ps -> exists a b c rest, ss = a :: b :: c :: rest.
Proof. intros Hin H. rewrite Forall_forall in H. by apply triple_items, H. Qed.

Ltac total_step :=
  lazymatch goal with
  | H : axes_typed ?fam |- is_Some (from_family ?fam ?l ?fs ≫= _) =>
      let p := fresh "p" in let E := fresh "Ep" in
      destruct (from_family_typed fam H l fs) as (p & E & ? & ? & ?); rewrite E; cbn [mbind option_bind]
  | |- is_Some (Some _) => eexists; reflexivity
  | |- is_Some (unless_stopped _ _) => apply unless_total; intros ?
  | |- is_Some (_ ≫= _) => apply bind_total; [|intros ? ?]
  | H : axes_typed ?fam |- is_Some (family_foolings ?fam) => exact (family_foolings_typed fam H)
  | H : axes_typed ?fam |- is_Some (family_hosts ?fam) => exact (family_hosts_typed fam H)
  | H : axes_typed ?fam |- is_Some (get_iter _ _ ?fam) => eapply (get_iter_some fam H); reflexivity
  | H : axes_typed ?fam |- is_Some (get_texts _ _ ?fam) => apply (texts_typed fam H); reflexivity
  | H : axes_typed ?fam |- is_Some (_strs ?fam _) => eapply (strs_typed fam H); reflexivity
  | |- is_Some (if ?b then _ else _) => destruct b
  end.
Ltac total f := intros st fam level known H; unfold f; cbv zeta; repeat total_step.

Lemma fake_total : total _fam_fake.
Proof.
  total _fam_fake. destruct (dget "ipv6_extra" fam) as [v|] eqn:E; [|by eexists]. destruct (_ && _); [|by eexists].
  apply bind_total; [|by eexists]. eapply axis_values_typed, (typed_get fam "ipv6_extra"); [done|reflexivity|done].
Qed.

Lemma multi_fake_total : total _fam_multi_fake.
Proof.
  intros st fam level known H. unfold _fam_multi_fake. total_step.
  destruct (repeat_pairs_typed fam H) as (rps & -> & Hr). cbn [mbind option_bind]. apply bind_total; [|by eexists].
  apply rows_total, Forall_expand3. intros pair rp fool Hp Hrp.
  rewrite Forall_forall in Hr. specialize (Hr _ Hrp). destruct (has_items_iter 2 rp Hr) as (l & Hl & Hn).
  destruct (pair_items l Hn) as (? & ? & ? & ->).
  destruct (pair_of _ _ Hp) as (? & ? & ? & ->); [done|].
  unfold multi_fake_row, py_index. rewrite Hl. by eexists.
Qed.

Lemma triple_fake_total : total _fam_triple_fake.
Proof.
  total _fam_triple_fake. apply rows_total, Forall_expand3. intros t r fool Ht _.
  destruct (triple_of _ _ Ht) as (? & ? & ? & ? & ->); [done|]. by eexists.
Qed.

Lemma fake_multisplit_total : total _fam_fake_multisplit.
Proof.
  intros st fam level known H. unfold _fam_fake_multisplit. total_step.
  destruct (different_pairs_total (p_blob_pairs p)) as (ps & -> & Hps); [done|]. cbn [mbind option_bind].
  apply bind_total; [|by eexists]. apply rows_total, Forall_expand5. intros pair ? ? ? ? Hp.
  destruct (pair_of _ _ Hp) as (? & ? & ? & ->); [done|]. by eexists.
Qed.

Lemma fmsh_total : total _fam_fake_multisplit_hostfake.
Proof.
  intros st fam level known H. unfold _fam_fake_multisplit_hostfake.
  apply bind_total; [total_step|intros fools _]. total_step.
  destruct (different_pairs_total (p_blob_pairs p)) as (ps & -> & Hps); [done|]. cbn [mbind option_bind].
  apply bind_total; [|by eexists]. apply rows_total, Forall_expand6. intros pair ? ? ? ? ? Hp.
  destruct (pair_of _ _ Hp) as (? & ? & ? & ->); [done|]. by eexists.
Qed.

Lemma udp_multiblob_total : total _fam_udp_multiblob.
Proof.
  total _fam_udp_multiblob. apply rows_total, Forall_expand2. intros prof r Hp _.
  destruct (pair_of _ _ Hp) as (? & ? & ? & ->); [done|]. by eexists.
Qed.

Lemma sizes_typed fam d : axes_typed fam -> exists size rest, get_texts "sizes" [d] fam = Some (size :: rest).
Proof.
  intros H. unfold get_texts, get_iter. destruct (dget "sizes" fam) as [v|] eqn:E; [|by eexists _, _].
  destruct (kind_iter _ _ (typed_get fam "sizes" _ _ H eq_refl E)) as (l & -> & Hk). cbn [mbind option_bind].
  apply andb_true_iff in Hk as [Ht Hl]. apply (texts_as_str l) in Ht as (ss & -> & ->).
  destruct ss as [|s ss]; [done|]. by eexists _, _.
Qed.

Lemma wssize_total : total _fam_wssize.
Proof.
  intros st fam level known H. unfold _fam_wssize. destruct (sizes_typed fam "wssize:wsize=1:scale=6" H) as (s & ss & ->).
  cbn [mbind option_bind]. repeat total_step. by eexists.
Qed.

(** Every expander of the generator is total on typed axes. *)
Lemma methods_total : Forall (fun nf => total nf.2) methods.
Proof.
  unfold methods. repeat (apply Forall_cons; split); cbn [snd]; [..|apply Forall_nil_2].
  all: first [exact fake_total | exact multi_fake_total | exact triple_fake_total | exact fake_multisplit_total
    | exact fmsh_total | exact udp_multiblob_total | exact wssize_total | idtac].
  all: intros st fam level known H;
    unfold _fam_rst_fake, _fam_synack, _fam_geneva_fool, _fam_hostfake, _fam_multisplit, _fam_multidisorder,
      _fam_syndata, _fam_tcpseg, _fam_oob, _fam_fake_multidisorder, _fam_fake_hostfake, _fam_fakedsplit,
      _fam_fakeddisorder, _fam_faked_core, _fam_fake_fakedsplit, _fam_tcp_ipfrag, _fam_quic_ipfrag, _fam_ipfrag, _fam_http_simple,
      _fam_http_fake, _fam_http_tls_dual, _fam_udp_discord, _fam_quic_fake, _fam_quic_gv,
      _fam_udp_quic, _fam_udp_game; cbv zeta; repeat total_step.
Qed.

(** ** The generator does not raise *)

Lemma prepare_typed proto level triage t :
  exists fam, prepare proto level triage t = Some fam /\ axes_typed fam.
Proof.
  unfold prepare. destruct (mutate_typed level t _ (registry_typed t)) as (fam & -> & H). cbn [mbind option_bind].
  destruct triage; [by apply triage_axes_typed|by exists fam].
Qed.

Lemma expand_family_total t fam level known : axes_typed fam -> is_Some (_expand_family t fam level known).
Proof.
  intros H. unfold _expand_family. destruct (dget _ FAMILY_EXPANDERS) as [n|] eqn:E; [|by eexists].
  destruct (dget n methods) as [f|] eqn:Ef; cycle 1.
  - exfalso. apply dget_elem in E.
    assert (Hn : Forall (fun te => te.2 ∈ keys methods) FAMILY_EXPANDERS).
    { assert (Hk : keys methods = (fun n => "_fam_" +:+ n) <$> registry_names) by reflexivity.
      rewrite Hk. refine (bool_decide_unpack _ _). vm_compute. exact I. }
    rewrite Forall_forall in Hn. apply Hn in E. by apply dget_None in Ef.
  - cbn [mbind option_bind]. apply dget_elem in Ef. pose proof methods_total as Hm. rewrite Forall_forall in Hm.
    destruct (Hm _ Ef no_items fam level known H) as [st Hst]. cbn [snd] in Hst. rewrite Hst. by eexists.
Qed.
