(* ===== verification/GenProps.v ===== *)
(** * Theorems about the standard generator

    What [StandardGenerator.generate] returns: always a list, within its bound, of items that the
    triage lets through, with distinct strategies in each family, and classified by the family
    gates into the families they were generated for. *)

From stdpp Require Import base numbers list strings gmap.
From Stdlib Require Import ZArith Lia Ascii.
From S2P Require Import Prelude PyStr PyDict FailPhase FamilyAxes Families Triage TriagePrune GenHelpers GenFake GenSplit GenTamper Standard GenFacts RoundRobin GenTyped.

#[local] Open Scope string_scope.

(** ** Distinct strategies *)

(** [seen] holds the stripped strategies of the items, which are distinct. *)
Definition gen_ok (st : gen) : Prop :=
  g_seen st = list_to_set (strip ∘ strategy <$> g_items st) /\
  NoDup (strip ∘ strategy <$> g_items st) /\ Forall (fun it => is_config it = false) (g_items st).

Lemma gen_ok_add l s p st : gen_ok st -> gen_ok (_add l s p st).
Proof.
  intros (Hs & Hn & Hc). unfold _add. case_decide as Hin; [done|]. unfold gen_ok. cbn [g_items g_seen].
  rewrite fmap_app, list_to_set_app_L, Hs. split_and!.
  - cbn. set_solver.
  - apply NoDup_app. split_and!; [done| |apply NoDup_singleton].
    intros x Hx [->|Hx']%elem_of_cons; [|by apply not_elem_of_nil in Hx'].
    apply Hin. rewrite Hs. by apply elem_of_list_to_set.
  - apply Forall_app. split; [done|]. by apply Forall_singleton.
Qed.

Lemma gen_ok_adds P st st' : adds P st st' -> gen_ok st -> gen_ok st'.
Proof. intros H. apply (adds_inv P gen_ok _ _ H). intros. by apply gen_ok_add. Qed.

Lemma adds_items P st st' :
  adds P st st' -> Forall (fun it => P (label it) (strategy it) (protocol it)) (g_items st) ->
  Forall (fun it => P (label it) (strategy it) (protocol it)) (g_items st').
Proof.
  intros H. apply (adds_inv P (fun st => Forall _ (g_items st)) _ _ H).
  intros l s p st0 HP Hi. unfold _add. case_decide; [done|]. cbn [g_items].
  apply Forall_app. split; [done|]. by apply Forall_singleton.
Qed.

Definition any_row : string -> string -> string -> Prop := fun _ _ _ => True.

Lemma fake_any : expands any_row _fam_fake.
Proof.
  intros st fam level known st' H. unfold _fam_fake in H. cbv zeta in H. expander_step.
  eapply adds_unless; [|exact H|]; [apply adds_emit, Forall_forall; done|]. clear H.
  intros st1 (st2 & H1 & [= <-])%bind_Some. apply (adds_trans _ _ st2); [|apply adds_emit, Forall_forall; done].
  destruct (dget "ipv6_extra" fam); [|injection H1 as <-; constructor].
  destruct (_ && _); [|injection H1 as <-; constructor].
  apply bind_Some in H1 as (? & _ & [= <-]). apply adds_emit, Forall_forall; done.
Qed.

Lemma expands_any P f : expands P f -> expands any_row f.
Proof. intros H st fam level known st' Hf. eapply (adds_impl P); [done|by eapply H]. Qed.

(** Every expander only adds rows. *)
Lemma methods_add : Forall (fun nf => expands any_row nf.2) methods.
Proof.
  unfold methods. repeat (apply Forall_cons; split); cbn [snd]; [..|apply Forall_nil_2].
  all: first [exact fake_any | eapply expands_any;
    first [exact rst_fake_rows | exact synack_rows | exact geneva_fool_rows | exact wssize_rows | exact hostfake_rows
      | exact multisplit_rows | exact multidisorder_rows | exact syndata_rows | exact tcpseg_rows | exact oob_rows
      | exact multi_fake_rows | exact triple_fake_rows | exact fake_multisplit_rows | exact fmd_rows
      | exact fmsh_rows | exact fake_hostfake_rows | exact fakedsplit_rows | exact fakeddisorder_rows
      | exact fake_fakedsplit_rows | exact tcp_ipfrag_rows | exact http_simple_rows | exact http_fake_rows
      | exact http_tls_dual_rows | exact udp_discord_rows | exact udp_multiblob_rows | exact quic_fake_rows
      | exact quic_gv_rows | exact quic_ipfrag_rows | exact udp_quic_rows | exact udp_game_rows]].
Qed.

Lemma no_items_ok : gen_ok no_items.
Proof. unfold gen_ok. cbn. split_and!; [done|constructor|constructor]. Qed.

Lemma expand_family_ok t fam level known its :
  _expand_family t fam level known = Some its ->
  NoDup (strip ∘ strategy <$> its) /\ Forall (fun it => is_config it = false) its.
Proof.
  unfold _expand_family. destruct (dget _ FAMILY_EXPANDERS) as [n|]; [|intros [= <-]; by split; constructor].
  intros (f & Hf & (st & Hst & [= <-])%bind_Some)%bind_Some. apply dget_elem in Hf.
  pose proof methods_add as Hm. rewrite Forall_forall in Hm. apply (Hm _ Hf), gen_ok_adds in Hst; [|apply no_items_ok].
  by destruct Hst as (_ & H1 & H2).
Qed.

(** Whatever the axes, the items of one family have pairwise distinct strategies, also up to
    surrounding blanks, and none is a configuration. *)
Theorem expand_family_distinct t fam level known its :
  _expand_family t fam level known = Some its ->
  NoDup (strip ∘ strategy <$> its) /\ NoDup (strategy <$> its) /\ Forall (fun it => is_config it = false) its.
Proof.
  intros H. destruct (expand_family_ok _ _ _ _ _ H) as [H1 H2]. split_and!; [done| |done].
  clear H H2. induction its as [|it its IH]; [constructor|]. cbn in H1. apply NoDup_cons in H1 as [Hn H1].
  cbn. constructor; [|by apply IH]. intros (x & Hx & Hin)%list_elem_of_fmap. apply Hn, list_elem_of_fmap.
  exists x. split; [|done]. unfold compose. by rewrite Hx.
Qed.

(** ** The labels name their families *)

(** A prefix of the table that no prefix of another family extends. *)
Definition owns (f pre : string) : bool :=
  bool_decide ((pre, f) ∈ table_prefixes) && String.eqb (lower pre) pre &&
  forallb (fun qg => negb (String.length pre <? String.length qg.1)%nat || negb (startswith pre qg.1)
                     || String.eqb qg.2 f) table_prefixes.

Lemma classify_labelled f prefixes l s p :
  forallb (owns f) prefixes = true -> labelled prefixes "tls12" l s p ->
  classify_strategy_family (Item l s false p) = f.
Proof.
  intros Hown [_ Hpre]. apply existsb_exists in Hpre as (pre & Hin & Hs). rewrite forallb_forall in Hown.
  specialize (Hown _ Hin). unfold owns in Hown. rewrite !andb_true_iff, bool_decide_eq_true, String.eqb_eq in Hown.
  destruct Hown as [[Ht Hl] Hext]. rewrite forallb_forall in Hext.
  apply (classify_by_prefix _ pre); [done| |].
  - cbn [label]. rewrite <- Hl. by apply startswith_lower.
  - intros q g Hq _ Hlen Hpq. specialize (Hext (q, g) (proj1 (list_elem_of_In _ _) Hq)). cbn [fst snd] in Hext.
    rewrite Hpq, (proj2 (Nat.ltb_lt _ _) Hlen) in Hext. by apply String.eqb_eq in Hext.
Qed.

Lemma classify_fake l s p : fake_row l s p -> classify_strategy_family (Item l s false p) = "fake".
Proof.
  intros (_ & b & t & Hb & ->). destruct b as [|c b]; [done|]. cbn [plain_blob] in Hb.
  apply (classify_by_prefix _ "std_fake_"); [by apply (bool_decide_unpack _); vm_compute|reflexivity|].
  intros q g Hq Hs Hlen Hpre.
  assert (Hq' : (q, g) ∈ filter (fun qg => (String.length "std_fake_" < String.length qg.1)%nat /\
    startswith "std_fake_" qg.1 = true) table_prefixes) by by apply list_elem_of_filter.
  assert (Hlist : filter (fun qg => (String.length "std_fake_" < String.length qg.1)%nat /\
    startswith "std_fake_" qg.1 = true) table_prefixes = [("std_fake_hostfake_", "fake_hostfake")])
    by (vm_compute; reflexivity).
  rewrite Hlist in Hq'. apply list_elem_of_singleton in Hq' as [= -> ->]. exfalso. apply Hb.
  clear -Hs. cbn [label] in Hs.
  change (startswith "std_fake_hostfake_" ("std_fake_" +:+ lower (String c b +:+ t)) = true) in Hs.
  change ("std_fake_hostfake_") with ("std_fake_" +:+ "hostfake_") in Hs.
  change (startswith "hostfake_" (String (lower_char c) (lower (b +:+ t))) = true) in Hs.
  cbn [startswith] in Hs. apply andb_true_iff in Hs as [Hs _]. apply Ascii.eqb_eq in Hs. congruence.
Qed.

Lemma classify_multisplit l s p :
  multisplit_row l s p -> classify_strategy_family (Item l s false p) = "multisplit".
Proof.
  intros [H|[-> H]].
  - by apply (classify_labelled "multisplit" ["std_split_"]) in H; [|vm_compute].
  - unfold pad_rows in H. cbn [fmap list_fmap] in H.
    repeat (apply elem_of_cons in H as [H|H]; [injection H as -> ->; vm_compute; reflexivity|]).
    by apply not_elem_of_nil in H.
Qed.

(** The blobs of the registered [fake] family, whatever the level and the triage. *)
Definition plain_axis (fam : axes) : Prop :=
  forall l, get_iter "blobs" [] fam = Some l -> Forall (fun v => plain_blob (py_str v)) l.

Lemma plain_set fam key v : key <> "blobs" -> plain_axis fam -> plain_axis (dset key v fam).
Proof. intros Hk H l. unfold get_iter. rewrite dget_set_ne by done. apply H. Qed.

Lemma plain_update fam fam' key f : key <> "blobs" -> update_axis key f fam = Some fam' -> plain_axis fam -> plain_axis fam'.
Proof.
  intros Hk H Hp. unfold update_axis in H. destruct (dget key fam) as [v|]; [|by injection H as <-].
  destruct v; try (by injection H as <-); apply bind_Some in H as (vs & _ & (vs' & _ & [= <-])%bind_Some); by apply plain_set.
Qed.

Lemma mapM_as_str l ss : mapM as_str l = Some ss -> l = VStr <$> ss.
Proof.
  intros H%mapM_Some. induction H as [|v s l ss Hv _ IH]; [done|]. destruct v; try done. injection Hv as ->.
  cbn. by rewrite IH.
Qed.

Lemma plain_update_blobs fam fam' f :
  (forall l, f l ⊆ l) -> update_axis "blobs" (on_texts f) fam = Some fam' -> plain_axis fam -> plain_axis fam'.
Proof.
  intros Hsub H Hp. unfold update_axis in H. unfold plain_axis, get_iter in Hp.
  destruct (dget "blobs" fam) as [v|] eqn:E; [|injection H as <-; unfold plain_axis, get_iter; by rewrite E].
  assert (Hv : v = VNone \/ exists l l', py_iter v = Some l /\ on_texts f l = Some l' /\ fam' = dset "blobs" (VList l') fam).
  { destruct v; try (by left); right; apply bind_Some in H as (vs & Hl & (vs' & Hl' & [= <-])%bind_Some); eauto. }
  destruct Hv as [->|(l & l' & Hl & Hl' & ->)].
  { injection H as <-. unfold plain_axis, get_iter. by rewrite E. }
  specialize (Hp l Hl). unfold on_texts in Hl'. apply bind_Some in Hl' as (ss & Hss & [= <-]).
  apply mapM_as_str in Hss as ->. intros l2. unfold get_iter. rewrite dget_set_eq. intros [= <-].
  apply Forall_fmap, Forall_forall. intros s Hs. apply Hsub in Hs. rewrite Forall_fmap, Forall_forall in Hp. by apply Hp.
Qed.

Lemma filter_blobs_sub l p proto : filter_blob_aliases (Some l) (Some p) proto ⊆ l.
Proof.
  unfold filter_blob_aliases. cbn [default]. destruct (viable_blobs p); [done|].
  intros x Hx. by apply list_elem_of_filter in Hx as [_ Hx].
Qed.

Lemma triage_plain fam p level proto fam' :
  _apply_triage_axes fam p level proto = Some fam' -> plain_axis fam -> plain_axis fam'.
Proof.
  unfold _apply_triage_axes.
  intros (f1 & E1 & (f2 & E2 & (f3 & E3 & (f4 & E4 & H)%bind_Some)%bind_Some)%bind_Some)%bind_Some Hp.
  apply (plain_update _ f1) in E1; [|done..]. eapply plain_update_blobs in E2; [|intros; apply filter_blobs_sub|done].
  apply (plain_update _ f3) in E3; [|done..]. apply (plain_update _ f4) in E4; [|done..]. cbv zeta in H.
  assert (H5 : plain_axis (match viable_hosts p with [] => f4 | hosts => dset "hosts" (texts (take 8 (fromkeys hosts))) f4 end)).
  { destruct (viable_hosts p); [done|]. by apply plain_set. }
  destruct (autottl_delta p); [|by injection H as <-]. by eapply plain_update in H.
Qed.

Lemma mutate_fake_plain level fam fam' : mutate level "fake" fam = Some fam' -> plain_axis fam -> plain_axis fam'.
Proof.
  unfold mutate, dget_default, _SCAN_MUTATORS. intros H Hp. revert H. cbn [dget]. repeat case_decide; try done; cbn;
    intros [= <-]; repeat (apply plain_set; [done|]); done.
Qed.

Lemma fake_axes_plain : plain_axis (axes_for "fake").
Proof.
  assert (H : get_iter "blobs" [] (axes_for "fake") = Some (VStr <$> ALL_BLOBS_TCP)) by reflexivity.
  intros l Hl. rewrite H in Hl. apply (inj Some) in Hl as <-. apply Forall_fmap. unfold compose. cbn [py_str].
  unfold ALL_BLOBS_TCP. repeat (apply Forall_cons; split); [vm_compute; discriminate..|constructor].
Qed.

Lemma prepare_fake_plain proto level triage fam :
  prepare proto level triage "fake" = Some fam -> plain_axis fam.
Proof.
  unfold prepare. intros (f & Hf & H)%bind_Some. apply mutate_fake_plain in Hf; [|apply fake_axes_plain].
  destruct triage; [by eapply triage_plain|by injection H as <-].
Qed.

Lemma from_family_blobs fam level fools p :
  from_family fam level fools = Some p -> _strs fam "blobs" = Some (p_blobs p).
Proof.
  unfold from_family.
  intros (? & _ & (? & _ & (b & Hb & H)%bind_Some)%bind_Some)%bind_Some.
  repeat (apply bind_Some in H as (? & _ & H)). by injection H as <-.
Qed.

Lemma plain_params fam level p :
  plain_axis fam -> from_family fam level None = Some p -> Forall plain_blob (p_blobs p).
Proof.
  intros Hp Hf. apply from_family_blobs in Hf. unfold _strs in Hf. apply bind_Some in Hf as (l & Hl & [= <-]).
  apply Forall_fmap. by apply Hp.
Qed.

Lemma expand_method t n f fam level known its :
  dget (_resolve_family_name t) FAMILY_EXPANDERS = Some n -> dget n methods = Some f ->
  _expand_family t fam level known = Some its -> exists st, f no_items fam level known = Some st /\ its = g_items st.
Proof.
  intros He Hm H. unfold _expand_family in H. rewrite He, Hm in H. cbn [mbind option_bind] in H.
  apply bind_Some in H as (st & Hst & [= <-]). by exists st.
Qed.

Lemma expand_rows P t n f fam level known its :
  dget (_resolve_family_name t) FAMILY_EXPANDERS = Some n -> dget n methods = Some f -> expands P f ->
  _expand_family t fam level known = Some its ->
  Forall (fun it => P (label it) (strategy it) (protocol it)) its.
Proof.
  intros He Hm HP H. destruct (expand_method _ _ _ _ _ _ _ He Hm H) as (st & Hst & ->).
  apply HP in Hst. by apply (adds_items P no_items).
Qed.

Lemma Forall_classified P t its :
  (forall l s p, P l s p -> classify_strategy_family (Item l s false p) = t) ->
  Forall (fun it => P (label it) (strategy it) (protocol it)) its ->
  Forall (fun it => classify_strategy_family it = t) its.
Proof. intros H Hf. eapply Forall_impl; [exact Hf|]. intros [l s c p] HP. apply (H l s p HP). Qed.

(** The families of the TCP registry whose labels are their own, with their label prefixes. *)
Definition own_labels : list (string * list string * expander_fn) :=
  [ ("rst_fake", ["std_rst_"], _fam_rst_fake); ("synack", ["std_synack"], _fam_synack);
    ("geneva_fool", ["std_gva_"], _fam_geneva_fool); ("wssize", ["std_wssize"], _fam_wssize);
    ("hostfake", ["std_hf_"], _fam_hostfake); ("multidisorder", ["std_mdis_"], _fam_multidisorder);
    ("syndata", ["std_syn_"], _fam_syndata); ("tcpseg", ["std_tcpseg_"], _fam_tcpseg); ("oob", ["std_oob_"], _fam_oob);
    ("multi_fake", ["std_multi_"], _fam_multi_fake); ("triple_fake", ["std_triple_"], _fam_triple_fake);
    ("fake_multisplit", ["std_fms_"], _fam_fake_multisplit); ("fake_multidisorder", ["std_fmd_"], _fam_fake_multidisorder);
    ("fake_multisplit_hostfake", ["std_fmsh_"], _fam_fake_multisplit_hostfake);
    ("fake_hostfake", ["std_fh_"], _fam_fake_hostfake); ("fakedsplit", ["std_fds_"], _fam_fakedsplit);
    ("fakeddisorder", ["std_fdd_"], _fam_fakeddisorder); ("fake_fakedsplit", ["std_ffds_"], _fam_fake_fakedsplit);
    ("tcp_ipfrag", ["std_tcp_ipfrag_"; "std_tcp_fake_ipfrag_"], _fam_tcp_ipfrag) ].

Lemma own_labels_expand : Forall (fun '(_, prefixes, f) => expands (labelled prefixes "tls12") f) own_labels.
Proof.
  unfold own_labels. repeat (apply Forall_cons; split); [..|apply Forall_nil_2].
  all: first [exact rst_fake_rows | exact synack_rows | exact geneva_fool_rows | exact wssize_rows | exact hostfake_rows
      | exact multidisorder_rows | exact syndata_rows | exact tcpseg_rows | exact oob_rows | exact multi_fake_rows
      | exact triple_fake_rows | exact fake_multisplit_rows | exact fmd_rows | exact fmsh_rows | exact fake_hostfake_rows
      | exact fakedsplit_rows | exact fakeddisorder_rows | exact fake_fakedsplit_rows | exact tcp_ipfrag_rows].
Qed.

Lemma own_labels_table :
  Forall (fun '(t, prefixes, f) => exists n, dget (_resolve_family_name t) FAMILY_EXPANDERS = Some n /\
    dget n methods = Some f /\ forallb (owns t) prefixes = true) own_labels.
Proof.
  unfold own_labels. repeat (apply Forall_cons; split); [..|apply Forall_nil_2].
  all: eexists; split; [reflexivity|]; split; [reflexivity|vm_compute; reflexivity].
Qed.

Lemma expand_classified t proto level triage fam known its :
  t ∈ TCP_FAMILIES -> prepare proto level triage t = Some fam -> _expand_family t fam level known = Some its ->
  Forall (fun it => classify_strategy_family it = t) its.
Proof.
  intros Ht Hprep H.
  assert (Hcase : t = "fake" \/ t = "multisplit" \/ exists prefixes f, (t, prefixes, f) ∈ own_labels).
  { assert (Hsub : Forall (fun t => t ∈ (["fake"; "multisplit"] ++ own_labels.*1.*1)%list) TCP_FAMILIES).
    { change (own_labels.*1.*1) with ["rst_fake"; "synack"; "geneva_fool"; "wssize"; "hostfake"; "multidisorder";
        "syndata"; "tcpseg"; "oob"; "multi_fake"; "triple_fake"; "fake_multisplit"; "fake_multidisorder";
        "fake_multisplit_hostfake"; "fake_hostfake"; "fakedsplit"; "fakeddisorder"; "fake_fakedsplit"; "tcp_ipfrag"].
      refine (bool_decide_unpack _ _). vm_compute. exact I. }
    rewrite Forall_forall in Hsub. specialize (Hsub t Ht). apply elem_of_app in Hsub as [Hs|Hs].
    - apply elem_of_cons in Hs as [->|Hs]; [by left|]. apply list_elem_of_singleton in Hs as ->. right. by left.
    - right. right. apply list_elem_of_fmap in Hs as ([t' ps] & -> & Hs).
      apply list_elem_of_fmap in Hs as ([[t'' ps'] f] & [= -> ->] & Hs). by exists ps', f. }
  destruct Hcase as [->|[->|(prefixes & f & Hin)]].
  - destruct (expand_method "fake" "_fam_fake" _fam_fake _ _ _ _ eq_refl eq_refl H) as (st & Hst & ->).
    apply (Forall_classified fake_row); [apply classify_fake|].
    destruct (from_family fam level None) as [p|] eqn:Ep.
    + eapply (fake_rows _ _ _ _ _ _ Ep) in Hst; [by apply (adds_items fake_row no_items)|].
      eapply plain_params; [|done]. by eapply prepare_fake_plain.
    + unfold _fam_fake in Hst. by rewrite Ep in Hst.
  - apply (Forall_classified multisplit_row); [apply classify_multisplit|].
    eapply (expand_rows multisplit_row "multisplit"); [reflexivity|reflexivity|exact multisplit_rows|exact H].
  - pose proof own_labels_expand as He. rewrite Forall_forall in He. specialize (He _ Hin). cbn in He.
    pose proof own_labels_table as Hn. rewrite Forall_forall in Hn. specialize (Hn _ Hin). cbn in Hn.
    destruct Hn as (n & Hn & Hf & Hown).
    apply (Forall_classified (labelled prefixes "tls12")); [intros l s p; by apply classify_labelled|].
    eapply (expand_rows (labelled prefixes "tls12") t n f); [exact Hn|exact Hf|exact He|exact H].
Qed.

(** ** [generate] *)

Section Generate.
Context (state_db : option (string -> list string)).

Lemma selected_NoDup types protocol level triage : NoDup (selected_types types protocol level triage).
Proof.
  unfold selected_types. cbv zeta. set (ts := fromkeys _). assert (Hts : NoDup ts) by apply NoDup_fromkeys.
  destruct triage as [p|]; [|done]. destruct (String.eqb level "full"); [done|]. unfold list_or.
  case_match eqn:E; [done|]. rewrite <- E. by apply NoDup_filter.
Qed.

Lemma selected_allowed types protocol level triage t :
  t ∈ selected_types types protocol level triage -> t ∈ dget_default protocol TCP_FAMILIES FAMILIES_BY_PROTOCOL.
Proof.
  unfold selected_types. cbv zeta. set (allowed := dget_default _ _ _). set (ts := fromkeys _).
  assert (Hts : forall t, t ∈ ts -> t ∈ allowed).
  { intros x Hx. apply elem_of_fromkeys, list_elem_of_filter in Hx. by destruct Hx. }
  destruct triage as [p|]; [|apply Hts]. destruct (String.eqb level "full"); [apply Hts|]. unfold list_or.
  case_match eqn:E; [apply Hts|]. rewrite <- E. intros [_ Ht]%list_elem_of_filter. by apply Hts.
Qed.

Lemma expand_types_total types protocol level triage known :
  is_Some (expand_types types protocol level triage known).
Proof.
  apply mapM_is_Some, Forall_forall. intros t _. unfold compose.
  destruct (prepare_typed protocol level triage t) as (fam & -> & Hf). cbn [mbind option_bind].
  destruct (expand_family_total t fam level known Hf) as [its ->]. by eexists.
Qed.

(** The expansion of the selected types: their items, in order. *)
Definition expansion_of types protocol level triage known (exp : list (string * list StrategyItem)) : Prop :=
  exp.*1 = filter (fun t => is_Some (dget t BY_NAME)) types /\
  forall t its, (t, its) ∈ exp ->
    exists fam, prepare protocol level triage t = Some fam /\ _expand_family t fam level known = Some its.

Lemma expand_types_spec types protocol level triage known exp :
  expand_types types protocol level triage known = Some exp -> expansion_of types protocol level triage known exp.
Proof.
  unfold expand_types. intros H%mapM_Some. unfold expansion_of. set (ts := filter _ types) in *. clearbody ts.
  induction H as [|t [t' its] ts exp Ht _ [IH1 IH2]].
  - split; [done|]. by intros ? ? ?%not_elem_of_nil.
  - apply bind_Some in Ht as (fam & Hf & (its' & Hi & [= <- <-])%bind_Some). split; [cbn; by rewrite IH1|].
    intros u iu [[= -> ->]|Hin]%elem_of_cons; [by exists fam|by apply IH2].
Qed.

(** The items before the pruning: all of them when they fit, the round robin otherwise. *)
Definition capped (exp : list (string * list StrategyItem)) (max_count : Z) : list StrategyItem :=
  let flat := concat (values exp) in
  if (max_count <? Z.of_nat (length flat))%Z
  then take (Z.to_nat max_count) (first_of_strategy ∅ (interleave (values exp)))
  else flat.

Lemma capped_length exp n : (length (capped exp n) <= Z.to_nat n)%nat.
Proof.
  unfold capped. cbv zeta. destruct (Z.ltb_spec n (Z.of_nat (length (concat (values exp))))); [|lia].
  rewrite length_take. lia.
Qed.

Lemma capped_elem exp n it : it ∈ capped exp n -> exists t its, (t, its) ∈ exp /\ it ∈ its.
Proof.
  assert (Hv : forall its, its ∈ values exp -> it ∈ its -> exists t its, (t, its) ∈ exp /\ it ∈ its).
  { intros its Hin Hit. apply list_elem_of_fmap in Hin as ([t its'] & -> & Hin). by exists t, its'. }
  unfold capped. cbv zeta. destruct (n <? _)%Z; intros Hin.
  - apply elem_of_take in Hin as (i & Hi & _). apply list_elem_of_lookup_2, elem_of_first in Hi as [Hi _].
    apply elem_of_interleave in Hi as (its & H1 & H2). by eapply Hv.
  - apply list_elem_of_In, in_concat in Hin as (its & H1 & H2). apply list_elem_of_In in H1, H2. by eapply Hv.
Qed.

(** [generate] is the pruned, capped expansion. *)
Lemma generate_core types protocol domain level n run_set triage :
  match triage with Some p => bypassable p | None => true end = true ->
  exists exp,
    expansion_of (selected_types types protocol level triage) protocol level triage
      (known_working state_db domain run_set) exp /\
    generate state_db types protocol domain level n run_set triage =
      Some (prune_items_by_triage (capped exp n) triage level).
Proof.
  intros Hb. destruct (expand_types_total (selected_types types protocol level triage) protocol level triage
    (known_working state_db domain run_set)) as [exp Hexp].
  exists exp. split; [by apply expand_types_spec|]. unfold generate, capped. cbv zeta.
  replace (match triage with Some p => negb (bypassable p) | None => false end) with false
    by (destruct triage; [by rewrite Hb|done]).
  rewrite Hexp. cbn [mbind option_bind].
  destruct (Z.ltb_spec n (Z.of_nat (length (concat (values exp))))) as [Hlt|Hge].
  - by rewrite round_robin_reference.
  - do 2 f_equal. apply take_ge. lia.
Qed.

(** C34. [generate] never raises: whatever the types, protocol, level, bound, working labels and
    triage, the axes of every family stay well typed and every expander accepts them. An
    unbypassable block gives no items. *)
Theorem generate_never_raises types protocol domain level n run_set triage :
  (forall t, t ∈ keys BY_NAME ->
     exists fam, prepare protocol level triage t = Some fam /\ axes_typed fam) /\
  exists out, generate state_db types protocol domain level n run_set triage = Some out /\
    (match triage with Some p => bypassable p | None => true end = false -> out = []).
Proof.
  split; [intros t _; apply prepare_typed|].
  destruct (match triage with Some p => bypassable p | None => true end) eqn:E.
  - destruct (generate_core types protocol domain level n run_set triage E) as (exp & _ & ->). by eexists.
  - exists []. split; [|done]. unfold generate. destruct triage as [p|]; [|done]. by rewrite E.
Qed.

Lemma prune_elem items triage level it :
  it ∈ prune_items_by_triage items triage level -> it ∈ items /\ prune_items_by_triage [it] triage level = [it].
Proof.
  unfold prune_items_by_triage. destruct triage as [p|]; [|done].
  destruct (negb (bypassable p)); [by intros ?%not_elem_of_nil|].
  intros [Hs Hin]%list_elem_of_filter. split; [done|]. by rewrite filter_cons_True.
Qed.

(** An item of the result: its pruning, and the family it was generated for. *)
Lemma generated_from types protocol domain level n run_set triage out :
  generate state_db types protocol domain level n run_set triage = Some out ->
  (length out <= Z.to_nat n)%nat /\
  forall it, it ∈ out ->
    prune_items_by_triage [it] triage level = [it] /\
    exists t fam its, t ∈ selected_types types protocol level triage /\
      prepare protocol level triage t = Some fam /\
      _expand_family t fam level (known_working state_db domain run_set) = Some its /\ it ∈ its.
Proof.
  intros H. destruct (match triage with Some p => bypassable p | None => true end) eqn:E; cycle 1.
  { unfold generate in H. destruct triage as [p|]; [|done]. rewrite E in H. injection H as <-.
    split; [simpl; lia|]. by intros ? ?%not_elem_of_nil. }
  destruct (generate_core types protocol domain level n run_set triage E) as (exp & [Hkeys Hexp] & Hg).
  rewrite Hg in H. injection H as <-. split.
  { etrans; [apply sublist_length, prune_sublist|apply capped_length]. }
  intros it [Hit Hs]%prune_elem. split; [done|].
  destruct (capped_elem _ _ _ Hit) as (t & its & Hin & Hits). destruct (Hexp _ _ Hin) as (fam & Hp & Hf).
  exists t, fam, its. split_and!; [|done..].
  assert (Ht : t ∈ exp.*1) by (apply list_elem_of_fmap; by exists (t, its)).
  rewrite Hkeys in Ht. by apply list_elem_of_filter in Ht as [_ Ht].
Qed.

(** C33. What [generate] returns is never longer than the bound, every item comes from a selected
    family, none is a configuration, and each one survives the triage. *)
Theorem generate_spec types protocol domain level n run_set triage out :
  generate state_db types protocol domain level n run_set triage = Some out ->
  (length out <= Z.to_nat n)%nat /\
  forall it, it ∈ out ->
    is_config it = false /\ prune_items_by_triage [it] triage level = [it] /\
    exists t fam its, t ∈ selected_types types protocol level triage /\
      prepare protocol level triage t = Some fam /\
      _expand_family t fam level (known_working state_db domain run_set) = Some its /\ it ∈ its.
Proof.
  intros H. destruct (generated_from _ _ _ _ _ _ _ _ H) as [Hlen Hall]. split; [done|].
  intros it Hit. destruct (Hall it Hit) as (Hs & t & fam & its & Ht & Hp & Hf & Hits). split_and!; [|done|by exists t, fam, its].
  destruct (expand_family_ok _ _ _ _ _ Hf) as [_ Hc]. rewrite Forall_forall in Hc. by apply Hc.
Qed.

(** The generator and the family gates agree: for a TCP protocol, every generated item is
    classified, by its label or its strategy, into the family it was generated for, so the gated
    scan groups the items exactly by the selected families. *)
Theorem generated_items_classified types protocol domain level n run_set triage out it :
  dget protocol FAMILIES_BY_PROTOCOL = None ->
  generate state_db types protocol domain level n run_set triage = Some out -> it ∈ out ->
  classify_strategy_family it ∈ selected_types types protocol level triage /\
  exists fam its, prepare protocol level triage (classify_strategy_family it) = Some fam /\
    _expand_family (classify_strategy_family it) fam level (known_working state_db domain run_set) = Some its /\
    it ∈ its.
Proof.
  intros Hproto H Hit. destruct (generated_from _ _ _ _ _ _ _ _ H) as [_ Hall].
  destruct (Hall it Hit) as (_ & t & fam & its & Ht & Hp & Hf & Hits).
  assert (Hc : classify_strategy_family it = t).
  { pose proof (expand_classified t protocol level triage fam) as Hcl. unfold dget_default in *.
    apply selected_allowed in Ht as Hal. unfold dget_default in Hal. rewrite Hproto in Hal.
    specialize (Hcl _ its Hal Hp Hf). rewrite Forall_forall in Hcl. by apply Hcl. }
  rewrite Hc. split; [done|]. by exists fam, its.
Qed.
End Generate.

(** ** Concrete runs *)

Lemma expand_family_distinct_witness :
  exists its, _expand_family "synack" (axes_for "synack") "fast" ∅ = Some its /\
    label <$> its = ["std_synack_synack"; "std_synack_acksyn"; "std_synack_bare"] /\ NoDup (strip ∘ strategy <$> its).
Proof.
  eexists. split; [vm_compute; reflexivity|]. split; [reflexivity|].
  apply (expand_family_distinct "synack" (axes_for "synack") "fast" ∅). vm_compute. reflexivity.
Defined.

Definition ex_generate : option (list StrategyItem) :=
  generate None ["synack"; "oob"; "ipfrag_tcp"] "tls12" "a.com" "fast" 4 [] None.

Lemma generate_spec_witness :
  exists out, ex_generate = Some out /\
    label <$> out = ["std_synack_synack"; "std_oob_urpb"; "std_tcp_ipfrag_pos8"; "std_synack_acksyn"] /\
    (length out <= 4)%nat.
Proof.
  eexists. split; [vm_compute; reflexivity|]. split; [reflexivity|].
  refine (proj1 (generate_spec None ["synack"; "oob"; "ipfrag_tcp"] "tls12" "a.com" "fast" 4 [] None _ _)).
  vm_compute. reflexivity.
Defined.

Lemma generated_items_classified_witness :
  classify_strategy_family (Item "std_oob_urpb" ("--in-range=-s1" +:+ newline +:+ "oob:urp=b") false "tls12")
    ∈ ["synack"; "oob"; "tcp_ipfrag"].
Proof.
  refine (proj1 (generated_items_classified None ["synack"; "oob"; "ipfrag_tcp"] "tls12" "a.com" "fast" 4 [] None
    (default [] ex_generate) _ _ _ _)).
  - reflexivity.
  - vm_compute. reflexivity.
  - refine (bool_decide_unpack _ _). vm_compute. exact I.
Defined.

(** Below the bound nothing removes a strategy that two families share: six of the 43 HTTP items
    repeat a strategy, while the same call with a bound of 42 returns distinct ones. *)
Theorem shared_strategies_repeat :
  (fun its => (length its, length (fromkeys (strategy <$> its)))) <$>
    generate None ["all"] "http" "" "fast" 500 [] None = Some (43, 37)%nat /\
  (fun its => (length its, length (fromkeys (strategy <$> its)))) <$>
    generate None ["all"] "http" "" "fast" 42 [] None = Some (37, 37)%nat.
Proof. split; vm_compute; reflexivity. Qed.

(** At the full level two different strategies of [udp_discord] have one label. *)
Theorem discord_labels_collide :
  exists its a b, generate None ["udp_discord"] "udp_voice" "" "full" 500 [] None = Some its /\
    a ∈ its /\ b ∈ its /\ label a = label b /\ strategy a <> strategy b.
Proof.
  eexists _, (Item "std_udp_discord_udp_r2_autottl" "fake:blob=discord_udp:repeats=2:ip_autottl=-2,3-20" false "udp_voice"),
    (Item "std_udp_discord_udp_r2_autottl" "fake:blob=discord_udp:repeats=2:ip_autottl=-1,2-10" false "udp_voice").
  split; [vm_compute; reflexivity|].
  split; [refine (bool_decide_unpack _ _); vm_compute; exact I|].
  split; [refine (bool_decide_unpack _ _); vm_compute; exact I|]. done.
Qed.

(** The TTL delta of the triage is written as a static TTL. *)
Theorem autottl_delta_is_static :
  exists fam, prepare "udp_voice" "fast"
      (Some {| dns_hijacked := false; dns_sinkhole := false; unbypassable_l3 := false; l3_phase := UNKNOWN;
     handshake_phase := UNKNOWN; rst_at_sni := false; silent_drop_after_sni := false;
     stall_phase := UNKNOWN; stall_at_bytes := None;
     bandwidth_throttled := false; read_rate_bps := read_rate_bps default_profile;
     quic_drop := false; udp_blocked := false; voice_ok := false;
     client_hello_len := 0; is_tls_fingerprint_blocked := false;
     requires_postquantum_awareness := false; fingerprint_pass := [];
     domain_phases := []; domain_reports := [];
     viable_foolings := []; viable_blobs := []; split_mode := "";
     server_hops := Some 12%Z; dpi_hops := Some 7%Z; autottl_delta := Some 7%Z;
     ech_blocked := None; http_blocked := None;
     dead_foolings := []; viable_hosts := []; dpi_diag := [] |}) "udp_discord" = Some fam /\
    exists its, _expand_family "udp_discord" fam "fast" ∅ = Some its /\
    Item "std_udp_discord_udp_r6_autottl" "fake:blob=discord_udp:repeats=6:ip_ttl=7" false "udp_voice" ∈ its.
Proof.
  eexists. split; [vm_compute; reflexivity|]. eexists. split; [vm_compute; reflexivity|].
  refine (bool_decide_unpack _ _); vm_compute; exact I.
Qed.
