(* ===== verification/ConfBuilder.v ===== *)
(** * Building nfqws2 configurations: [engine/conf_builder.py]

    Which parts of a strategy are exported and how they are escaped, the checks of custom Lua
    parameters, and the texts of the Keenetic and of the raw configuration. Reading a [.conf]
    file, the Lua manifest, the environment settings and the clock are arguments
    ([ConfEnv]); logging is left out. *)

From stdpp Require Import base numbers list strings gmap.
From Stdlib Require Import ZArith Lia Ascii.
From S2P Require Import Prelude PyStr PyRe PyDict Triage TriagePrune BlobAliases.

#[local] Open Scope string_scope.

Record ConfEnv : Type := {
  lua_manifest : list (string * lua_meta); (* load_custom_lua_manifest() *)
  lua_source : string -> string;           (* _abs_or_str(Path(LUA_CUSTOM_DIR) / file) *)
  lua_path : string -> string;             (* str(Path(LUA_CUSTOM_DIR) / file) *)
  read_conf : string -> option string;     (* Path(path).read_text(): None is an OSError *)
  lua_init_scripts : list string;          (* get_lua_init_scripts() *)
  path_exists : string -> bool;            (* os.path.exists *)
  NFQUEUE_TCP : Z; NFQUEUE_UDP : Z; VOICE_UDP_FILTER : string;
  timestamp : string                       (* time.strftime(...) *)
}.

Definition newline : string := String (ascii_of_N 10) EmptyString.
Definition quote_char : ascii := ascii_of_N 34.
Definition quote : string := String quote_char EmptyString.

Definition DEFAULT_KEENETIC_PREFIX : string := "/opt/etc/nfqws2".
Definition CIRCULAR_TCP : string := "circular:fails=2:time=300:retrans=3:nld=2".
Definition CIRCULAR_UDP : string := "circular:fails=2:time=300:retrans=3:nld=2".
Definition DEFAULT_UDP_FILTER : string := "590-600,1400,3478-3481,5349,19294-19344,49152-65535".
Definition DEFAULT_UDP_PORTS : string := "443,590:600,1400,3478:3481,5349,19294:19344,49152:65535".
Definition STOCK_LUA_NAMES : list string := ["zapret-lib.lua"; "zapret-antidpi.lua"; "zapret-auto.lua"].
Definition DEFAULT_UDP_L7 : string := "wireguard,stun,discord,mtproto,unknown".
Definition DEFAULT_UDP_PAYLOAD : string :=
  "wireguard_initiation,wireguard_response,wireguard_cookie,stun,discord_ip_discovery,mtproto_initial,unknown".

(** ** Patterns *)

Definition is_hex_digit (c : ascii) : bool :=
  is_digit c || bool_decide (c ∈ ["a"; "b"; "c"; "d"; "e"; "f"; "A"; "B"; "C"; "D"; "E"; "F"]%char).
Definition colon_or (c : ascii) : bool := Ascii.eqb c ":" || is_space c.

Definition _STRATEGY_N_RE : re := seqs [lit ":strategy="; Plus digit; Star space; Eol].
Definition _LUA_FN_RE : re := seqs [Bol; Chr is_alpha_; Star (Chr is_word); Eol].
Definition _HEX_BLOB_RE : re := seqs [Bol; lit "0x"; Plus (Chr is_hex_digit); Eol].
Definition _BLOB_EXPORT_RE : re :=
  seqs [alts (lit <$> ["blob"; "pattern"; "seqovl_pattern"]); lit "="; Group 1 (Plus (Chr (fun c => negb (colon_or c))))].
Definition signed_digits : re := Seq (Opt (lit "-")) (Plus digit).
Definition _TTL_PARAM_RE : re :=
  seqs [Alt Bol (lit ":"); alts [lit "ip_ttl"; lit "ip6_ttl"]; lit "="; Group 1 signed_digits; Alt (lit ":") Eol].
Definition custom_fn_re (fn : string) : re := seqs [alts [Bol; lit ":"; lit "="]; lit fn; lit ":"].
Definition strategy_n_re : re := seqs [lit ":strategy="; Plus digit; WordB].
(** The lookbehind for a character that is no word character is [\b] before a letter. *)
Definition param_re : re :=
  seqs [WordB; Group 1 (Seq (Chr is_alpha_) (Star (Chr is_word))); lit "=";
        Group 2 (Plus (Chr (fun c => negb (colon_or c))))].

(** ** Parts of a strategy *)

Definition without_strategy_n (text : string) : string := re_sub _STRATEGY_N_RE (fun _ => EmptyString) (strip text).

Definition looks_like_conf_path (text : string) : bool :=
  let head := without_strategy_n text in endswith ".conf" head && contains "/" head.

Definition is_lua_function_core (text : string) : bool :=
  if negb (nonempty text) || startswith "/" text || startswith "--" text then false
  else found (re_match _LUA_FN_RE (strip (before ":" text))).

Definition LUA_DESYNC : string := "--lua-desync=".
Definition desync_core (line : string) : string := sdrop (String.length LUA_DESYNC) line.

Definition split_cli_args (raw_line : string) : list string :=
  omap (fun arg =>
    let arg := strip arg in
    if negb (nonempty arg) then None
    else Some (if startswith "--" arg then arg else "--" +:+ arg)) (split_str " --" raw_line).

Section Conf.
Context {FS : FileSys} (dirs : BlobDirs) (env : ConfEnv).

Definition lua_desync_cores_from_conf (path : string) : list string :=
  match read_conf env (without_strategy_n path) with
  | None => []
  | Some text =>
      filter (fun c => is_lua_function_core c = true)
        ((fun raw => strip (desync_core raw)) <$>
          filter (fun raw => startswith LUA_DESYNC raw = true) (strip <$> splitlines text))
  end.

Definition _export_part (part : string) : list string :=
  if looks_like_conf_path part then lua_desync_cores_from_conf part
  else if startswith LUA_DESYNC part then
    let core := strip (desync_core part) in
    if is_lua_function_core core then [core] else []
  else if startswith "--" part then
    let cores := omap (fun tok =>
      if startswith LUA_DESYNC tok && is_lua_function_core (desync_core tok) then Some (desync_core tok) else None)
      (split_cli_args part) in
    match cores with
    | [] => if contains "/" part then [] else [part]
    | _ => cores
    end
  else if is_lua_function_core part then [part] else [].

Definition strategy_parts_for_export (strat : string) : list string :=
  let text := strip strat in
  if negb (nonempty text) then []
  else if looks_like_conf_path text then lua_desync_cores_from_conf text
  else raw ← split_char (ascii_of_N 10) text;
       let part := strip raw in if nonempty part then _export_part part else [].

Definition is_core (p : string) : bool := negb (startswith "--" p).

Definition flatten_export_strategies (strategies : list string) : list string :=
  s ← strategies; filter (fun p => is_core p = true) (strategy_parts_for_export s).

(** ** Filtering of exported strategies *)

Definition ttl_in_range (m : match_) : bool :=
  match g ← group 1 m; py_int g with Some n => (0 <=? n)%Z && (n <=? 255)%Z | None => false end.
Definition core_ttl_ok (core : string) : bool := forallb ttl_in_range (finditer _TTL_PARAM_RE core).

Definition _blob_export_ok (n : string) : bool :=
  forallb (fun p => negb (nonempty p) || found (re_match _LUA_FN_RE p) || found (re_match _HEX_BLOB_RE p))
    (split_char "+" n).

Definition export_renames (strat : string) : list (string * string) :=
  omap (fun name =>
    if negb (String.eqb name (safe_blob_name name)) && negb (found (re_match _HEX_BLOB_RE name))
    then Some (name, safe_blob_name name) else None) (extract_blob_names [strat]).
Definition _rename_export_blobs (strat : string) : string := apply_blob_renames strat (export_renames strat).

Definition _keep_export_strategy (strat : string) : option string :=
  match strategy_parts_for_export strat with
  | [] => None
  | parts =>
      let cores := filter (fun p => is_core p = true) parts in
      if existsb (fun c => negb (core_ttl_ok c)) cores then None
      else if existsb (fun n => negb (_blob_export_ok n)) (c ← cores; findall1 _BLOB_EXPORT_RE c) then None
      else Some strat
  end.

Definition filter_export_strategies (strategies : list string) : list string :=
  omap (fun s => kept ← _keep_export_strategy (_rename_export_blobs s); if nonempty kept then Some kept else None)
    strategies.

(** ** Command lines *)

Definition escape_conf_lt (cli : string) : string := subst_char "<" "\<" cli.
Definition sanitize_arg_for_conf (cli : string) : string := escape_conf_lt cli.

Definition _ensure_strategy_n (strategy : string) (n : Z) : string :=
  let s := strip strategy in
  if found (search strategy_n_re s) then s else s +:+ ":strategy=" +:+ str_of_Z n.

Definition desync_cli_line (i : Z) (part : string) : string :=
  if startswith "--" part then sanitize_arg_for_conf part
  else LUA_DESYNC +:+ sanitize_arg_for_conf (_ensure_strategy_n part i).

Fixpoint desync_cli_lines_from (i : Z) (strategies : list string) : list string :=
  match strategies with
  | [] => []
  | strat :: rest => map (desync_cli_line i) (strategy_parts_for_export strat) ++ desync_cli_lines_from (i + 1) rest
  end.
Definition desync_cli_lines (strategies : list string) : list string := desync_cli_lines_from 1 strategies.

Definition add_blobs_from_strategy (lines : list string) (strategy : string) : list string * string :=
  let '(lines, renames) := append_blob_cli_lines dirs lines (extract_blob_names [strategy]) (Some (BLOB_DIR dirs)) [] in
  (lines, apply_blob_renames strategy renames).

(** ** Custom Lua *)

Definition custom_lua_copy_comments (strategy prefix : string) : list string :=
  let low := lower strategy in
  omap (fun fm =>
    if found (search (custom_fn_re fm.1) low)
    then Some ("# COPY lua: " +:+ lua_source env (lua_file fm.2) +:+ " -> " +:+ prefix +:+ "/lua/" +:+ lua_file fm.2)
    else None) (lua_manifest env).

Definition custom_lua_files_for (strategies : list string) : list string :=
  let blob := lower (join newline strategies) in
  fromkeys (omap (fun fm => if found (search (custom_fn_re fm.1) blob) then Some (lua_file fm.2) else None)
    (lua_manifest env)).

(** The first value of each key, in order. *)
Definition add_param (params : list (string * string)) (m : match_) : list (string * string) :=
  match group 1 m, group 2 m with
  | Some key, Some val => if bool_decide (key ∈ keys params) then params else (params ++ [(key, val)])%list
  | _, _ => params
  end.
Definition _strategy_params (strategy : string) : list (string * string) :=
  foldl add_param [] (part ← split_pair "\" "n" strategy; finditer param_re part).

Definition param_issue (fn : string) (meta : lua_meta) (key : string) : option string :=
  if bool_decide (key ∈ excluded meta) then
    Some (fn +:+ ": param '" +:+ key +:+ "' is excluded (custom Lua " +:+ lua_file meta +:+ " does not support it)")
  else if negb (bool_decide (key ∈ included meta)) && negb (String.eqb key "optional") then
    Some (fn +:+ ": param '" +:+ key +:+ "' undocumented for " +:+ lua_file meta
          +:+ " (add to included/excluded in lua/custom/manifest.toml)")
  else None.

(** Only the first function of the manifest that the strategy uses is checked. *)
Fixpoint lua_issues (manifest : list (string * lua_meta)) (strategy : string) : list string :=
  match manifest with
  | [] => []
  | (fn, meta) :: rest =>
      if found (search (custom_fn_re fn) (lower strategy))
      then omap (param_issue fn meta) (keys (_strategy_params strategy))
      else lua_issues rest strategy
  end.
Definition validate_custom_lua_params (strategy : string) : list string := lua_issues (lua_manifest env) strategy.

(** ** Blobs of an export *)

Definition blob_copy_comment (name prefix : string) : option string :=
  fname ← blob_export_filename name;
  if negb (nonempty fname) || bool_decide (fname ∈ STOCK_KEENETIC_BLOB_FILES) then None
  else
    let dest := prefix +:+ "/blobs/" +:+ fname in
    Some (match resolve_blob_path dirs None name with
          | Some src => "# COPY blob: " +:+ src +:+ " -> " +:+ dest
          | None => "# COPY blob: <missing " +:+ name +:+ "> -> " +:+ dest end).

Definition ipset_export_path (prefix : string) : string := prefix +:+ "/lists/user.ipset".

Definition blob_copy_comments (names : list string) (prefix : string) : list string :=
  fromkeys (omap (fun n => blob_copy_comment n prefix) names).

Definition _export_blob_names (groups : list (list string)) : list string :=
  extract_blob_names (flatten_export_strategies (concat groups)).

(** ** Lines of a configuration *)

Definition num_line (flag : string) (n : Z) : string := flag +:+ str_of_Z n.

Definition build_filter_lines (protocol : string) : list string :=
  if String.eqb protocol "http" then
    [num_line "--qnum=" (NFQUEUE_TCP env); "--filter-tcp=80"; "--filter-l3=ipv4"; "--filter-l7=http";
     "--ipcache-lifetime=0"; "--bind-fix4"; "--payload=http_req"]
  else if String.eqb protocol "quic" then
    [num_line "--qnum=" (NFQUEUE_UDP env); "--filter-udp=443"; "--filter-l3=ipv4"; "--filter-l7=quic";
     "--ipcache-lifetime=0"; "--bind-fix4"; "--payload=quic_initial"]
  else if String.eqb protocol "udp_voice" then
    [num_line "--qnum=" (NFQUEUE_UDP env); "--filter-udp=" +:+ VOICE_UDP_FILTER env; "--filter-l3=ipv4";
     "--filter-l7=discord,stun"; "--ipcache-lifetime=0"; "--bind-fix4"; "--payload=discord_ip_discovery,stun,unknown"]
  else if String.eqb protocol "udp_game" then
    [num_line "--qnum=" (NFQUEUE_UDP env); "--filter-udp=1024-65535"; "--filter-l3=ipv4"; "--filter-l7=" +:+ DEFAULT_UDP_L7;
     "--ipcache-lifetime=0"; "--bind-fix4"; "--payload=unknown"]
  else
    [num_line "--qnum=" (NFQUEUE_TCP env); "--filter-tcp=443"; "--filter-l3=ipv4"; "--filter-l7=tls";
     "--ipcache-lifetime=0"; "--bind-fix4"; "--payload=tls_client_hello"].

Definition _hash_comment (text : string) : string :=
  "# " +:+ smap (fun c => if Ascii.eqb c "(" then "["%char else if Ascii.eqb c ")" then "]"%char else c)
    (lstrip_by (fun c => Ascii.eqb c "#" || Ascii.eqb c " ") text).

Definition _quote_multiline (value : string) : string :=
  quote +:+ subst_char quote_char ("\" +:+ quote) (subst_char "\" "\\" value) +:+ quote.

Definition _lua_init_lines (prefix : string) (extra : list string) : list string :=
  map (fun n => "--lua-init=@" +:+ prefix +:+ "/lua/" +:+ n) (STOCK_LUA_NAMES ++ extra)%list.

Definition truthy_text (o : option string) : option string :=
  match o with Some s => if nonempty s then Some s else None | None => None end.

Definition _keenetic_copy_header (tcp udp quic : list string) (prefix : string) (ipset_file : option string)
    : list string :=
  let cores := flatten_export_strategies (tcp ++ udp ++ quic)%list in
  let names := _export_blob_names [tcp; udp; quic] in
  (["# Uncommented paths: " +:+ prefix +:+ "/{blobs,lua,lists} only.";
    "# --filter-l7 is the flow protocol; --payload is packet type (sticky until the next --payload=)."]
   ++ custom_lua_copy_comments (join newline cores) prefix
   ++ blob_copy_comments names prefix
   ++ match truthy_text ipset_file with
      | Some f => ["# COPY ipset: " +:+ f +:+ " -> " +:+ ipset_export_path prefix]
      | None => [] end)%list.

(** [f"# domains ({len(domains)}): ..."] *)
Definition domains_header (domains : list string) : list string :=
  match domains with
  | [] => []
  | _ => ["# domains (" +:+ str_of_Z (Z.of_nat (length domains)) +:+ "): " +:+ join "," (take 8 domains)
          +:+ (if (8 <? length domains)%nat then "..." else EmptyString)]
  end.

Definition quic_default (quic : option (list string)) : list string :=
  match quic with Some (_ :: _ as l) => l | _ => ["fake:blob=quic_initial:repeats=11"] end.

Definition ipset_args (file_line : string -> string) (ipset_ips : list string) (ipset_file : option string) : list string :=
  match truthy_text ipset_file with
  | Some f => [file_line f]
  | None => match ipset_ips with [] => [] | _ => ["--ipset-ip=" +:+ join "," ipset_ips] end
  end.

Definition mode_variable (mode : string) : string :=
  dget_default (lower mode) "$MODE_AUTO" [("auto", "$MODE_AUTO"); ("list", "$MODE_LIST"); ("all", "$MODE_ALL")].

(** The four argument blocks of the Keenetic configuration. *)
Record keenetic_args : Type := KArgs { base_args : string; tcp_args : string; quic_args : string; udp_args : string }.

Definition arg_lines (l : list string) : string := join (newline +:+ " ") l.

Definition keenetic_blocks (tcp udp quic : list string) (prefix : string) (ipset_part : list string) : keenetic_args :=
  let extra_lua := custom_lua_files_for (flatten_export_strategies (tcp ++ udp ++ quic)%list) in
  let blob_parts := omap (fun n => blob_export_cli_line n prefix) (_export_blob_names [tcp; udp; quic]) in
  let tcp_circular :=
    match flatten_export_strategies tcp with
    | [] => []
    | _ => ["--out-range=-s34228"; "--in-range=-s5556 --lua-desync=" +:+ CIRCULAR_TCP; "--in-range=x"] end in
  let udp_circular :=
    match flatten_export_strategies udp with [] => [] | _ => ["--lua-desync=" +:+ CIRCULAR_UDP] end in
  KArgs (arg_lines (_lua_init_lines prefix extra_lua ++ blob_parts ++ ipset_part)%list)
    (arg_lines (["--filter-tcp=443,80,1984,5222"; "--filter-l7=http,tls,mtproto";
                 "--payload=tls_client_hello,mtproto_initial"] ++ tcp_circular ++ desync_cli_lines tcp
                ++ ["--payload=http_req"; "--lua-desync=http_methodeol:badsum"])%list)
    (arg_lines (["--filter-udp=443"; "--filter-l7=quic"; "--payload=quic_initial"] ++ desync_cli_lines quic)%list)
    (arg_lines (["--filter-udp=" +:+ DEFAULT_UDP_FILTER; "--filter-l7=" +:+ DEFAULT_UDP_L7; "--out-range=<n2";
                 "--payload=" +:+ DEFAULT_UDP_PAYLOAD] ++ udp_circular ++ desync_cli_lines udp)%list).

Definition keenetic_body (isp_interface mode : string) (a : keenetic_args) : string :=
  join newline
    ["# Provider network interface"; "ISP_INTERFACE=" +:+ _quote_multiline isp_interface; "";
     "# Startup arguments"; "NFQWS_BASE_ARGS=" +:+ _quote_multiline (base_args a); "";
     "# HTTP(S) strategy"; "NFQWS_ARGS=" +:+ _quote_multiline (tcp_args a); "";
     "# QUIC strategy"; "NFQWS_ARGS_QUIC=" +:+ _quote_multiline (quic_args a); "";
     "# UDP strategy (doesn't use lists from NFQWS_EXTRA_ARGS)"; "NFQWS_ARGS_UDP=" +:+ _quote_multiline (udp_args a); "";
     "# $MODE_AUTO / $MODE_LIST / $MODE_ALL — defined by keenetic init scripts";
     "NFQWS_EXTRA_ARGS=" +:+ quote +:+ mode_variable mode +:+ quote; "";
     "# UDP ports for iptables rules"; "UDP_PORTS=" +:+ DEFAULT_UDP_PORTS; ""].

Definition build_keenetic_conf (tcp_strategies udp_strategies : list string) (quic_strategies : option (list string))
    (isp_interface prefix mode : string) (domains : list string) (comment : string) (ipset_ips : list string)
    (ipset_file : option string) : string :=
  let quic := filter_export_strategies (quic_default quic_strategies) in
  let tcp := filter_export_strategies tcp_strategies in
  let udp := filter_export_strategies udp_strategies in
  let ipset_part := ipset_args (fun _ => "--ipset=@" +:+ ipset_export_path prefix) ipset_ips ipset_file in
  let hdr := (["# Generated by blockcheckS nfconf at " +:+ timestamp env]
    ++ (if nonempty comment then ["# " +:+ comment] else [])
    ++ _keenetic_copy_header tcp udp quic prefix ipset_file
    ++ domains_header domains
    ++ ["# Format: nfqws2-keenetic etc/nfqws2/nfqws2.conf"; ""])%list in
  join newline hdr +:+ keenetic_body isp_interface mode (keenetic_blocks tcp udp quic prefix ipset_part).

Definition build_raw_conf (tcp_strategies udp_strategies : list string) (quic_strategies : option (list string))
    (blobs_dir : string) (qnum_tcp : Z) (comment : string) (domains ipset_ips : list string)
    (ipset_file : option string) : string :=
  let tcp := filter_export_strategies tcp_strategies in
  let udp := filter_export_strategies udp_strategies in
  let quic := filter_export_strategies (default [] quic_strategies) in
  let cores := flatten_export_strategies (tcp ++ udp ++ quic)%list in
  let extra_lua := custom_lua_files_for cores in
  let lua_inits := (map (fun p => "--lua-init=@" +:+ p) (filter (fun p => path_exists env p = true) (lua_init_scripts env))
    ++ map (fun f => "--lua-init=@" +:+ lua_path env f) (filter (fun f => isfile (lua_path env f) = true) extra_lua))%list in
  let hostlist_line := match domains with [] => [] | _ => ["--hostlist-domains=" +:+ join "," domains] end in
  let profile_shared := (ipset_args (fun f => "--ipset=@" +:+ f) ipset_ips ipset_file ++ hostlist_line)%list in
  let lines := ([_hash_comment ("blockcheckS raw nfqws2 conf host-oriented " +:+ timestamp env)]
    ++ (if nonempty comment then [_hash_comment comment] else [])
    ++ custom_lua_copy_comments (join newline cores) DEFAULT_KEENETIC_PREFIX
    ++ [num_line "--qnum=" qnum_tcp; "--ipcache-lifetime=0"; "--bind-fix4"]
    ++ lua_inits
    ++ blob_cli_lines dirs (extract_blob_names cores) (Some blobs_dir)
    ++ profile_shared
    ++ ["--filter-tcp=443"; "--filter-l3=ipv4"; "--filter-l7=tls"; "--payload=tls_client_hello"]
    ++ desync_cli_lines tcp)%list in
  let quic_lines := match quic with
    | [] => []
    | _ => (["--new=quic"] ++ profile_shared ++ ["--filter-udp=443"; "--filter-l7=quic"; "--payload=quic_initial"]
            ++ desync_cli_lines quic)%list end in
  let udp_lines := match udp with
    | [] => []
    | _ => (["--new=voice"] ++ profile_shared ++ ["--filter-udp=50000-50100"; "--filter-l3=ipv4";
             "--filter-l7=discord,stun"; "--payload=discord_ip_discovery,stun,unknown"] ++ desync_cli_lines udp)%list end in
  join newline (lines ++ quic_lines ++ udp_lines)%list +:+ newline.

(** The text that [write_user_list] writes. *)
Definition user_list_text (domains : list string) : string :=
  join EmptyString (omap (fun d => let d := strip d in
    if nonempty d && negb (startswith "#" d) then Some (d +:+ newline) else None) domains).
End Conf.

(** ** Theorems *)

(** *** Quoting *)

(** How a double-quoted shell word is read: a backslash takes the next backslash or quote. *)
Fixpoint unquote_body (s : string) : option string :=
  match s with
  | EmptyString => None
  | String c s' =>
      if Ascii.eqb c quote_char then (if nonempty s' then None else Some EmptyString)
      else if Ascii.eqb c "\" then
        match s' with
        | String d s'' =>
            if Ascii.eqb d "\" || Ascii.eqb d quote_char then String d <$> unquote_body s''
            else String c <$> unquote_body s'
        | EmptyString => None
        end
      else String c <$> unquote_body s'
  end.
Definition unquote (s : string) : option string :=
  match s with String c s => if Ascii.eqb c quote_char then unquote_body s else None | EmptyString => None end.

(** How [_quote_multiline] writes a character. *)
Definition quoted_char (c : ascii) : string :=
  if Ascii.eqb c "\" then "\\" else if Ascii.eqb c quote_char then "\" +:+ quote else String c EmptyString.

Lemma quote_body_char c s :
  subst_char quote_char ("\" +:+ quote) (subst_char "\" "\\" (String c s)) =
  quoted_char c +:+ subst_char quote_char ("\" +:+ quote) (subst_char "\" "\\" s).
Proof.
  unfold quoted_char. cbn [subst_char]. destruct (Ascii.eqb_spec c "\") as [->|Hc]; [reflexivity|].
  rewrite append_cons, append_nil_l. reflexivity.
Qed.

Lemma unquote_quote t : unquote (quote +:+ t) = unquote_body t.
Proof. reflexivity. Qed.

Lemma unquote_char c t : unquote_body (quoted_char c +:+ t) = String c <$> unquote_body t.
Proof.
  unfold quoted_char. destruct (Ascii.eqb_spec c "\") as [->|Hb]; [reflexivity|].
  destruct (Ascii.eqb_spec c quote_char) as [->|Hq]; [reflexivity|].
  rewrite append_cons, append_nil_l. apply Ascii.eqb_neq in Hb, Hq. cbn [unquote_body]. by rewrite Hq, Hb.
Qed.

(** A value that [_quote_multiline] quotes is read back unchanged, whatever backslashes, quotes
    and line breaks it has. *)
Theorem quote_roundtrip v : unquote (_quote_multiline v) = Some v.
Proof.
  unfold _quote_multiline. rewrite unquote_quote. induction v as [|c v IH]; [reflexivity|].
  by rewrite quote_body_char, append_assoc, unquote_char, IH.
Qed.

(** *** Escaping *)

(** No [<] without a backslash before it. *)
Fixpoint escaped_after (prev : ascii) (s : string) : bool :=
  match s with
  | EmptyString => true
  | String c s => negb (Ascii.eqb c "<" && negb (Ascii.eqb prev "\")) && escaped_after c s
  end.
Definition no_bare_lt (s : string) : bool := escaped_after " " s.

Lemma escape_no_bare prev s : escaped_after prev (escape_conf_lt s) = true.
Proof.
  unfold escape_conf_lt. revert prev. induction s as [|c s IH]; intros prev; [done|].
  cbn [subst_char]. destruct (Ascii.eqb c "<") eqn:Hc.
  - rewrite !append_cons, append_nil_l. cbn [escaped_after]. rewrite IH. by destruct (Ascii.eqb prev "\").
  - rewrite append_cons, append_nil_l. cbn [escaped_after]. by rewrite IH, Hc.
Qed.

Lemma escaped_app prev s t :
  escaped_after prev s = true -> (forall p, escaped_after p t = true) -> escaped_after prev (s +:+ t) = true.
Proof.
  revert prev. induction s as [|c s IH]; intros prev Hs Ht; [apply Ht|].
  cbn [escaped_after] in Hs. apply andb_true_iff in Hs as [Hc Hs].
  rewrite append_cons. cbn [escaped_after]. by rewrite Hc, IH.
Qed.

Lemma escape_app s t : escape_conf_lt (s +:+ t) = escape_conf_lt s +:+ escape_conf_lt t.
Proof.
  unfold escape_conf_lt. induction s as [|c s IH]; [done|].
  rewrite append_cons. cbn [subst_char]. by rewrite IH, append_assoc.
Qed.

Lemma escape_id s : sforall (fun c => negb (Ascii.eqb c "<")) s = true -> escape_conf_lt s = s.
Proof.
  unfold escape_conf_lt. induction s as [|c s IH]; [done|].
  cbn [sforall subst_char]. intros [Hc Hs]%andb_true_iff. apply negb_true_iff in Hc.
  by rewrite Hc, append_cons, append_nil_l, IH.
Qed.

(** A prefix without [<] and backslash is a prefix of the escaped text only if it was one before. *)
Lemma startswith_escape w s :
  sforall (fun c => negb (Ascii.eqb c "<" || Ascii.eqb c "\")) w = true ->
  startswith w (escape_conf_lt s) = startswith w s.
Proof.
  unfold escape_conf_lt. revert s. induction w as [|a w IH]; intros s; [by destruct s|].
  cbn [sforall]. intros [Ha Hw]%andb_true_iff. apply negb_true_iff, orb_false_iff in Ha as [Ha Hb].
  destruct s as [|c s]; [done|]. cbn [subst_char]. destruct (Ascii.eqb_spec c "<") as [->|Hc].
  - rewrite !append_cons. cbn [startswith]. by rewrite Ha, Hb.
  - rewrite append_cons, append_nil_l. cbn [startswith]. by rewrite IH.
Qed.

Lemma sforall_escape (f : ascii -> bool) s :
  f "\"%char = true -> sforall f s = true -> sforall f (escape_conf_lt s) = true.
Proof.
  intros Hb. unfold escape_conf_lt. induction s as [|c s IH]; [done|].
  cbn [sforall subst_char]. intros [Hc Hs]%andb_true_iff. rewrite sforall_append, IH by done.
  destruct (Ascii.eqb_spec c "<") as [->|_]; cbn [sforall]; by rewrite ?Hb, Hc.
Qed.

(** *** The strategy marker *)

(** [:strategy=N] with the number complete. *)
Definition marked (s : string) : Prop :=
  exists u ds t, s = u +:+ ":strategy=" +:+ ds +:+ t /\ isdigit ds = true /\ word_opt (first_char t) = false.

Lemma is_digit_word c : is_digit c = true -> is_word c = true.
Proof. unfold is_word, is_alnum. intros ->. by rewrite !orb_true_r. Qed.

Lemma advance_word pr w : isdigit w = true -> word_opt (advance pr w) = true.
Proof.
  unfold isdigit. intros [Hn Hw]%andb_true_iff. destruct w as [|c w]; [done|]. clear Hn.
  cbn [advance sforall] in *. revert c Hw. induction w as [|d w IH]; intros c [Hc Hw]%andb_true_iff.
  - by apply is_digit_word.
  - cbn [advance]. by apply IH.
Qed.

Lemma search_marker s : found (search strategy_n_re s) = true <-> marked s.
Proof.
  rewrite search_found. split.
  - intros (p & q & d & [u Hu]%pos_of_rest & z & [[Hl _] _]%den_lit & y & Hds & Hb & _).
    apply den_plus_chr in Hds as (ds & Hn & Hds & [Hc Hp] & _). cbn [fst] in *.
    exists u, ds, (rest y.1). assert (isdigit ds = true) by (unfold isdigit; by rewrite Hn).
    split_and!; [by rewrite Hu, Hl, Hc|done|]. unfold at_word_boundary in Hb.
    rewrite Hp, advance_word in Hb by done. by destruct (word_opt _).
  - intros (u & ds & t & -> & Hds & Ht). pose proof Hds as [Hn Hd]%andb_true_iff.
    set (p := Pos (advance None u) (":strategy=" +:+ ds +:+ t)).
    set (z := Pos (advance (advance None u) ":strategy=") (ds +:+ t)).
    set (q := Pos (advance (advance (advance None u) ":strategy=") ds) t).
    exists p, q, []. split; [apply pos_of_intro|]. exists (z, []). split; [by apply den_lit|].
    exists (q, []). split; [apply den_plus_chr; by exists ds|]. split; [|done].
    unfold at_word_boundary, q. cbn [fst prev rest]. by rewrite advance_word, Ht by done.
Qed.

Lemma marked_prefix w s : marked s -> marked (w +:+ s).
Proof. intros (u & ds & t & -> & H). exists (w +:+ u), ds, t. by rewrite append_assoc. Qed.

Lemma marked_escape s : marked s -> marked (escape_conf_lt s).
Proof.
  intros (u & ds & t & -> & Hds & Ht). exists (escape_conf_lt u), ds, (escape_conf_lt t).
  rewrite !escape_app. split_and!; [|done|].
  - do 2 f_equal. f_equal. apply escape_id. apply andb_true_iff in Hds as [_ Hd].
    eapply sforall_impl; [|exact Hd]. intros c Hc. destruct (Ascii.eqb_spec c "<") as [->|]; done.
  - destruct t as [|c t]; [done|]. unfold escape_conf_lt. cbn [subst_char].
    destruct (Ascii.eqb_spec c "<") as [->|_]; [done|]. by rewrite append_cons.
Qed.

Lemma ensure_marked s n : (0 <= n)%Z -> marked (_ensure_strategy_n s n).
Proof.
  intros Hn. unfold _ensure_strategy_n. cbv zeta. destruct (found _) eqn:E; [by apply search_marker|].
  exists (strip s), (str_of_Z n), EmptyString. rewrite append_nil_r. split_and!; [done| |done].
  by apply str_of_Z_nonneg.
Qed.

(** Numbering a strategy again changes nothing. *)
Lemma strip_ensure s n : (0 <= n)%Z -> strip (_ensure_strategy_n s n) = _ensure_strategy_n s n.
Proof.
  intros Hn. unfold _ensure_strategy_n. cbv zeta. destruct (found _); [apply strip_idemp|].
  destruct (str_of_Z_nonneg n Hn) as [[Hne Hd]%andb_true_iff _].
  destruct (string_last (str_of_Z n) Hne) as (u & c & Hu). rewrite Hu in *.
  rewrite sforall_append in Hd. apply andb_true_iff in Hd as [_ Hc]. cbn [sforall] in Hc.
  rewrite andb_true_r in Hc.
  assert (Hsp : is_space c = false) by (destruct c as [[] [] [] [] [] [] [] []]; done).
  destruct (strip s) as [|a w] eqn:E.
  - rewrite append_nil_l. by apply (strip_fix ":" ("strategy=" +:+ u)).
  - rewrite append_cons, <- !append_assoc, !(append_assoc w). rewrite <- append_assoc.
    apply strip_fix; [|done]. pose proof (lstrip_head is_space s) as Hh. unfold strip, strip_by in E.
    destruct (lstrip_by is_space s) as [|b v]; [done|].
    destruct (rstrip_cons_head is_space b v Hh) as [v' Hv]. rewrite Hv in E. by injection E as <- _.
Qed.

Lemma ensure_idemp s n m : (0 <= n)%Z -> _ensure_strategy_n (_ensure_strategy_n s n) m = _ensure_strategy_n s n.
Proof.
  intros Hn. unfold _ensure_strategy_n at 1. cbv zeta. rewrite strip_ensure by done.
  by rewrite (proj2 (search_marker _) (ensure_marked s n Hn)).
Qed.

(** *** The exported parts *)

Definition one_line (s : string) : bool := sforall (fun c => negb (Ascii.eqb c (ascii_of_N 10))) s.

(** What may be exported: a Lua function call, or an option without a path, on one line. *)
Definition exportable (p : string) : Prop :=
  one_line p = true /\
  (is_lua_function_core p = true \/
   startswith "--" p = true /\ startswith LUA_DESYNC p = false /\ contains "/" p = false).

Lemma one_line_cli s tok : one_line s = true -> tok ∈ split_cli_args s -> one_line tok = true.
Proof.
  intros Hs (arg & Harg & Htok)%list_elem_of_omap.
  pose proof (sforall_split_str _ " --" 0 s Hs) as HF. rewrite Forall_forall in HF.
  pose proof (sforall_strip _ _ (HF _ Harg)) as Hone. cbv zeta in Htok.
  destruct (negb (nonempty _)); [done|]. apply (inj Some) in Htok as <-.
  destruct (startswith _ _); [done|]. unfold one_line. by rewrite sforall_append, Hone.
Qed.

Section Exported.
Context {FS : FileSys} (dirs : BlobDirs) (env : ConfEnv).

Lemma conf_cores_exportable path p : p ∈ lua_desync_cores_from_conf env path -> exportable p.
Proof.
  unfold lua_desync_cores_from_conf. destruct (read_conf env _) as [text|]; [|by intros ?%not_elem_of_nil].
  intros [Hp (raw & -> & [_ Hin]%list_elem_of_filter)%list_elem_of_fmap]%list_elem_of_filter.
  split; [|by left]. apply list_elem_of_fmap in Hin as (line & -> & Hline).
  pose proof (splitlines_free EmptyString text eq_refl) as HF. rewrite Forall_forall in HF.
  apply sforall_strip, sforall_sdrop, sforall_strip. eapply sforall_impl; [|exact (HF _ Hline)].
  intros c. destruct (Ascii.eqb_spec c (ascii_of_N 10)) as [->|]; done.
Qed.

Lemma export_part_ok part p : one_line part = true -> p ∈ _export_part env part -> exportable p.
Proof.
  intros Hl. unfold _export_part. destruct (looks_like_conf_path part); [apply conf_cores_exportable|].
  destruct (startswith LUA_DESYNC part) eqn:El.
  { cbv zeta. destruct (is_lua_function_core _) eqn:E; [|by intros ?%not_elem_of_nil].
    intros ->%list_elem_of_singleton. split; [by apply sforall_strip, sforall_sdrop|by left]. }
  destruct (startswith "--" part) eqn:Ed; cycle 1.
  { destruct (is_lua_function_core part) eqn:E; [|by intros ?%not_elem_of_nil].
    intros ->%list_elem_of_singleton. split; [done|by left]. }
  cbv zeta. set (cores := omap _ (split_cli_args part)).
  assert (Hc : forall p, p ∈ cores -> exportable p).
  { intros q (tok & Htok & Hq)%list_elem_of_omap. destruct (_ && _) eqn:E; [|done]. injection Hq as <-.
    apply andb_true_iff in E as [_ E]. split; [|by left]. apply sforall_sdrop. by eapply one_line_cli. }
  destruct cores; [|apply Hc]. destruct (contains "/" part) eqn:E; [by intros ?%not_elem_of_nil|].
  intros ->%list_elem_of_singleton. split; [done|by right].
Qed.

Lemma export_parts strat p : p ∈ strategy_parts_for_export env strat -> exportable p.
Proof.
  unfold strategy_parts_for_export. cbv zeta. destruct (negb _); [by intros ?%not_elem_of_nil|].
  destruct (looks_like_conf_path _); [apply conf_cores_exportable|].
  intros (raw & Hp & Hraw)%list_elem_of_bind.
  destruct (nonempty (strip raw)); [|by apply not_elem_of_nil in Hp].
  eapply export_part_ok; [|exact Hp]. apply sforall_strip.
  pose proof (split_char_free (ascii_of_N 10) (strip strat)) as HF. rewrite Forall_forall in HF. by apply HF.
Qed.

(** A line of the configuration for the part [p] of a strategy. *)
Lemma elem_of_desync_lines strategies i line :
  line ∈ desync_cli_lines_from env i strategies ->
  exists strat p n, strat ∈ strategies /\ p ∈ strategy_parts_for_export env strat /\ line = desync_cli_line n p /\
    (i <= n < i + Z.of_nat (length strategies))%Z.
Proof.
  revert i. induction strategies as [|s l IH]; intros i; cbn [desync_cli_lines_from]; [by intros ?%not_elem_of_nil|].
  intros [Hin|Hin]%elem_of_app.
  - apply list_elem_of_fmap in Hin as (p & -> & Hp). exists s, p, i. split_and!; [by left|done|done|simpl; lia..].
  - destruct (IH _ Hin) as (strat & p & n & H1 & H2 & H3 & H4). exists strat, p, n.
    split_and!; [by right|done|done|lia|simpl; lia].
Qed.

Lemma one_line_digits ds : isdigit ds = true -> one_line ds = true.
Proof.
  intros [_ H]%andb_true_iff. eapply sforall_impl; [|exact H].
  intros c. by destruct c as [[] [] [] [] [] [] [] []].
Qed.

(** A line of the file: one option on one line, with every [<] escaped. *)
Definition conf_line (line : string) : Prop :=
  startswith "--" line = true /\ one_line line = true /\ no_bare_lt line = true /\
  (startswith LUA_DESYNC line = true -> marked line).

Lemma conf_line_part n p : (0 <= n)%Z -> exportable p -> conf_line (desync_cli_line n p).
Proof.
  intros Hn [Hone Hp]. unfold desync_cli_line, conf_line, no_bare_lt, sanitize_arg_for_conf.
  destruct (startswith "--" p) eqn:Ed.
  - assert (Hf : startswith LUA_DESYNC p = false).
    { destruct Hp as [Hp|(_ & ? & _)]; [|done]. unfold is_lua_function_core in Hp.
      by rewrite Ed, orb_true_r in Hp. }
    rewrite !startswith_escape by done. rewrite escape_no_bare, Ed, Hf.
    split_and!; [done| |done|done]. by apply sforall_escape.
  - split_and!.
    + by apply (startswith_app_r "--" LUA_DESYNC).
    + unfold one_line. rewrite sforall_append. apply andb_true_iff. split; [done|].
      apply sforall_escape; [done|]. unfold _ensure_strategy_n. cbv zeta.
      pose proof (sforall_strip _ _ Hone) as Hs. destruct (found _); [done|].
      rewrite !sforall_append, Hs. cbn [andb]. apply andb_true_iff. split; [done|].
      by apply one_line_digits, str_of_Z_nonneg.
    + apply escaped_app; [done|]. intros q. apply escape_no_bare.
    + intros _. by apply marked_prefix, marked_escape, ensure_marked.
Qed.

(** Whatever the strategies are (options, Lua calls, [.conf] files), each line that
    [desync_cli_lines] exports is one option on one line without an unescaped [<], and each Lua
    desync line carries a complete [:strategy=N] marker: no strategy text can add an option of its
    own line to the configuration. *)
Theorem desync_lines_spec strategies line :
  line ∈ desync_cli_lines env strategies -> conf_line line.
Proof.
  intros (strat & p & n & _ & Hp & -> & Hn)%elem_of_desync_lines.
  apply conf_line_part; [lia|]. by eapply export_parts.
Qed.
End Exported.

(** *** Examples *)

Definition ex_conf_env : ConfEnv := {|
  lua_manifest := []; lua_source f := f; lua_path f := f;
  read_conf path := if String.eqb path "/etc/a.conf"
    then Some (join newline ["--qnum=200"; "--lua-desync=fake:blob=stun"; "--lua-desync=/bad"]) else None;
  lua_init_scripts := []; path_exists _ := false; NFQUEUE_TCP := 200%Z; NFQUEUE_UDP := 201%Z;
  VOICE_UDP_FILTER := "50000-50100"; timestamp := "now" |}.

Example desync_lines_ex :
  desync_cli_lines ex_conf_env
    [join newline ["multisplit:pos=2"; "--out-range=<n2"]; "/etc/a.conf"; "--lua-desync=drop:strategy=9"] =
  ["--lua-desync=multisplit:pos=2:strategy=1"; "--out-range=\<n2"; "--lua-desync=fake:blob=stun:strategy=2";
   "--lua-desync=drop:strategy=9"].
Proof. reflexivity. Qed.

Lemma desync_lines_spec_witness :
  conf_line "--out-range=\<n2".
Proof.
  apply (desync_lines_spec ex_conf_env [join newline ["multisplit:pos=2"; "--out-range=<n2"]]).
  refine (bool_decide_unpack _ _). vm_compute. exact I.
Defined.

(** [_TTL_PARAM_RE] consumes the colon after a value, so that the parameter right after it is
    not seen: a TTL out of range is exported when it follows another TTL. *)
Theorem ttl_check_skips_adjacent :
  core_ttl_ok "fake:ip6_ttl=999" = false /\ core_ttl_ok "fake:ip_ttl=5:ip6_ttl=999" = true.
Proof. split; reflexivity. Qed.
