(* ===== verification/StaticValidator.v ===== *)
(** * Offline checks of strategies: [engine/static_validator.py]

    The validator as it is written: the issues in the order in which they are appended. A [str] of
    8-bit characters has no broken encoding, so that [_is_well_formed] is about line breaks and
    quotes. [int] has no limit on the number of digits here (Python raises above 4300). *)

From stdpp Require Import base numbers list strings gmap.
From Stdlib Require Import ZArith Lia Ascii.
From S2P Require Import Prelude PyStr PyRe PyDict FamilyAxes TriagePrune BlobAliases ConfBuilder.

#[local] Open Scope string_scope.

Inductive Severity : Type := error | warning | info.
#[export] Instance severity_eq_dec : EqDecision Severity.
Proof. solve_decision. Defined.

Record ValidationIssue : Type := Issue { code : string; message : string; severity : Severity }.
Record StrategyValidationResult : Type := Result { strategy : string; issues : list ValidationIssue }.

Definition errors (r : StrategyValidationResult) : list ValidationIssue :=
  filter (fun i => severity i = error) (issues r).
Definition is_valid (r : StrategyValidationResult) : bool :=
  negb (existsb (fun i => bool_decide (severity i = error)) (issues r)).

Definition _SPLIT_FAMILIES : list string :=
  ["split2"; "multisplit"; "nmultisplit"; "fakedsplit"; "nfakedsplit"; "fakeddisorder"; "multidisorder";
   "hostfakesplit"; "nhostfakesplit"; "fake_fakedsplit"; "fake_multisplit"; "fake_multisplit_hostfake";
   "fake_fakeddisorder"; "fake_multidisorder"].
Definition _FAKE_MARKERS : list string := ["fake"; "dupfake"; "multi_fake"; "multifake"; "fake_default"].

Definition _BLOB_RE : re :=
  seqs [alts (lit <$> ["blob"; "pattern"; "seqovl_pattern"]); lit "="; Group 1 (Plus (Chr is_word))].
Definition _POS_RE : re :=
  seqs [lit "pos="; Group 1 (Plus (Chr (fun c => is_word c || Ascii.eqb c "," || Ascii.eqb c ":")))].
Definition num_keys : list string := ["tcp_ts"; "tcp_ack"; "tcp_seq"; "ip_ttl"; "ttl"].
Definition value_char (c : ascii) : bool := negb (colon_or c).
Definition _NUM_PARAM : re :=
  seqs [Alt Bol (lit ":"); Group 1 (alts (lit <$> num_keys)); lit "="; Group 2 (Plus (Chr value_char))].
Definition hex_literal_re : re := seqs [lit "0x"; Plus (Chr is_hex_digit)].
Definition repeats_re : re := seqs [lit "repeats="; Group 1 signed_digits].

(** [s.split()] *)
Fixpoint split_ws_from (cur s : string) : list string :=
  match s with
  | EmptyString => if nonempty cur then [cur] else []
  | String c s =>
      if is_space c then (if nonempty cur then [cur] else []) ++ split_ws_from EmptyString s
      else split_ws_from (cur +:+ String c EmptyString) s
  end.
Definition split_ws (s : string) : list string := split_ws_from EmptyString s.

Definition _extract_blobs (s : string) : list string := fromkeys (findall1 _BLOB_RE s).

(** [token.lower() or None] *)
Definition _leading_family (s : string) : option string :=
  let token := lower (strip (before ":" (strip s))) in if nonempty token then Some token else None.

Definition _is_fake_family (s : string) : bool :=
  match _leading_family s with Some fam => bool_decide (fam ∈ _FAKE_MARKERS) | None => false end.

Definition _is_split_family (s : string) : bool :=
  match _leading_family s with Some fam => bool_decide (fam ∈ _SPLIT_FAMILIES) | None => false end
  || existsb (fun name => contains name (lower s) && negb (String.eqb name "hostfakesplit")) _SPLIT_FAMILIES.

Definition is_break (c : ascii) : bool := Ascii.eqb c (ascii_of_N 10) || Ascii.eqb c (ascii_of_N 13).
Definition _is_well_formed (s : string) : bool :=
  if negb (sforall (fun c => negb (is_break c)) s) then false else Nat.even (count_char double_quote s).

Definition is_hex_literal (name : string) : bool := found (fullmatch hex_literal_re name).
Definition first_is_digit (name : string) : bool :=
  match name with String c _ => is_digit c | EmptyString => false end.

Definition _warn_digit_blob_ids (blobs : list string) : list ValidationIssue :=
  omap (fun name =>
    if first_is_digit name && negb (is_hex_literal name) then
      Some (Issue "digit_blob_id"
        ("blob/pattern '" +:+ name +:+ "' starts with a digit (nfqws2 fatal identifier); runtime/export uses '"
         +:+ safe_blob_name name +:+ "'") warning)
    else None) blobs.

(** [_NUM_PARAM.findall(raw)]: the pairs of the two groups. *)
Definition num_params (raw : string) : list (string * string) :=
  omap (fun m => match group 1 m, group 2 m with Some k, Some v => Some (k, v) | _, _ => None end)
    (finditer _NUM_PARAM raw).

Definition in_range (lo v hi : Z) : bool := ((lo <=? v) && (v <=? hi))%Z.

Definition num_issue (kv : string * string) : list ValidationIssue :=
  let '(param, value) := kv in
  if bool_decide (param ∈ ["ip_ttl"; "ttl"]) then
    match py_int value with
    | None => [Issue "non_numeric_param" (param +:+ " is not a valid integer: " +:+ repr_str value) error]
    | Some v =>
        if in_range 0 v 255 then []
        else [Issue ("invalid_" +:+ param) (param +:+ "=" +:+ str_of_Z v +:+ " out of range 0..255") error]
    end
  else if bool_decide (param ∈ ["tcp_ts"; "tcp_ack"; "tcp_seq"]) then
    match py_int value with
    | None => [Issue "non_numeric_param" (param +:+ " is not a valid integer: " +:+ repr_str value) error]
    | Some v =>
        if in_range (- Z.shiftl 1 31) v (Z.shiftl 1 31 - 1) then []
        else [Issue ("invalid_" +:+ param) (param +:+ "=" +:+ str_of_Z v +:+ " outside int32 range") error]
    end
  else [].

(** The pattern gives an optional sign and digits, which [int] reads. *)
Definition repeats_issue (m : match_) : list ValidationIssue :=
  match g ← group 1 m; py_int g with
  | Some r =>
      if in_range 1 r 20 then []
      else [Issue "repeats_range" ("repeats=" +:+ str_of_Z r +:+ " outside 1..20")
              (if (r <? 1)%Z then error else warning)]
  | None => []
  end.

Definition lt_issue (raw : string) : list ValidationIssue :=
  if contains "<" raw && negb (existsb (startswith (String double_quote EmptyString)) (split_ws (strip raw)))
  then [Issue "unescaped_lt" "Unescaped '<' in strategy; escape as \< for @conf files" info] else [].

Definition lua_issue (msg : string) : ValidationIssue :=
  if contains "is excluded" msg then Issue "custom_lua_excluded" msg error
  else Issue "custom_lua_undocumented" msg warning.

Section Validate.
Context {FS : FileSys} (dirs : BlobDirs) (env : ConfEnv).

Definition blob_known (blobs_dir : option string) (name : string) : bool :=
  String.eqb name "0x00000000" || bool_decide (name ∈ _BUILTIN_BLOBS) || is_hex_literal name
  || bool_decide (is_Some (dget name BLOB_ALIAS_MAP))
  || match resolve_blob_path dirs blobs_dir name with Some p => nonempty p | None => false end.

Definition unknown_blob_issue (blobs_dir : option string) (name : string) : option ValidationIssue :=
  if blob_known blobs_dir name then None
  else Some (Issue "unknown_blob"
    ("blob/pattern '" +:+ name +:+ "' not found in blobs dirs and not a known alias") error).

Definition _validate_single (raw : string) (blobs_dir : option string) : StrategyValidationResult :=
  let blobs := _extract_blobs raw in
  Result raw
    (_warn_digit_blob_ids blobs
     ++ (if _is_fake_family raw && bool_decide (blobs = []) then
           [Issue "fake_without_blob" "Fake desync specified without blob=/pattern= source" error] else [])
     ++ omap (unknown_blob_issue blobs_dir) blobs
     ++ (if _is_split_family raw && negb (found (search _POS_RE raw)) then
           [Issue "split_without_pos" "Split-family desync selected without specifying pos= offset" warning] else [])
     ++ (kv ← num_params raw; num_issue kv)
     ++ (m ← finditer repeats_re raw; repeats_issue m)
     ++ lt_issue raw
     ++ (lua_issue <$> validate_custom_lua_params env raw))%list.

Definition validate_strategy (strategy : string) (blobs_dir : option string) : StrategyValidationResult :=
  if negb (nonempty (strip strategy)) then
    Result strategy [Issue "empty_strategy" "Strategy string is empty" error]
  else if negb (_is_well_formed strategy) then
    Result strategy [Issue "malformed"
      "Strategy contains broken encoding, unbalanced quotes, or a raw newline" error]
  else
    let parts := if contains "\n" strategy then split_pair "\" "n" strategy else [strategy] in
    Result strategy (part ← parts; let seg := strip part in
      if nonempty seg then issues (_validate_single seg blobs_dir) else []).

Definition validate_strategies (strategies : list string) (blobs_dir : option string)
    : list StrategyValidationResult :=
  (fun s => validate_strategy s blobs_dir) <$> strategies.
End Validate.

(** ** Theorems *)

Lemma is_valid_errors r : is_valid r = true <-> errors r = [].
Proof.
  unfold is_valid, errors. rewrite negb_true_iff. induction (issues r) as [|i l IH]; [done|].
  cbn [existsb]. rewrite filter_cons. case_decide as E.
  - rewrite bool_decide_true by done. split; [done|]. by intros [=].
  - by rewrite bool_decide_false by done.
Qed.

(** *** Numeric fields *)

(** [raw] has the colon field [key=v], with the value complete. *)
Definition has_field (key v raw : string) : Prop :=
  exists t, nonempty v = true /\ sforall value_char v = true /\ head_fails value_char t = true /\
    (raw = key +:+ "=" +:+ v +:+ t \/ exists u, raw = u +:+ ":" +:+ key +:+ "=" +:+ v +:+ t).

Definition captures (p : pos) (key v : string) : Prop :=
  exists m, exec_at _NUM_PARAM p = Some m /\ group 1 m = Some key /\ group 2 m = Some v.

(** No key of a numeric field is the beginning of another. *)
Lemma keys_apart key w v : key ∈ num_keys -> v ∈ num_keys -> v <> key -> startswith v (key +:+ "=" +:+ w) = false.
Proof.
  unfold num_keys. intros Hkey Hv Hne.
  repeat (apply elem_of_cons in Hkey as [->|Hkey]); [..|by apply not_elem_of_nil in Hkey];
  (repeat (apply elem_of_cons in Hv as [->|Hv]); [first [done|reflexivity]..|by apply not_elem_of_nil in Hv]).
Qed.

(** The matcher behind the colon of a field, or at the start of the text. *)
Lemma exec_field key v t pr {A} c (k : pos -> caps -> option A) x :
  key ∈ num_keys -> nonempty v = true -> sforall value_char v = true -> head_fails value_char t = true ->
  k (Pos (advance (advance (advance pr key) "=") v) t) ((2%nat, v) :: (1%nat, key) :: c) = Some x ->
  exec (seqs [Group 1 (alts (lit <$> num_keys)); lit "="; Group 2 (Plus (Chr value_char))])
    (Pos pr (key +:+ "=" +:+ v +:+ t)) c k = Some x.
Proof.
  intros Hkey Hn Hv Ht Hk. cbn [seqs]. change (exec (Seq ?a ?b) ?p ?c ?k) with (exec a p c (fun p' c' => exec b p' c' k)).
  change (exec (Group 1 ?a) ?p ?c ?k) with (exec a p c (fun p' c' => k p' ((1%nat, between p p') :: c'))).
  apply exec_alts_lit; [done|intros v'; by apply keys_apart|]. rewrite (consumes_between _ key) by (by split).
  change (exec (Seq ?a ?b) ?p ?c ?k) with (exec a p c (fun p' c' => exec b p' c' k)).
  rewrite exec_lit.
  change (exec (Group 2 ?a) ?p ?c ?k) with (exec a p c (fun p' c' => k p' ((2%nat, between p p') :: c'))).
  apply exec_plus_run; try done. rewrite <- Hk. do 3 f_equal. by apply consumes_between.
Qed.

Section Field.
Context (key v t : string) (Hkey : key ∈ num_keys) (Hn : nonempty v = true)
  (Hv : sforall value_char v = true) (Ht : head_fails value_char t = true).
Let field : string := key +:+ "=" +:+ v +:+ t.

Lemma captures_start : captures (Pos None field) key v.
Proof.
  eexists. split; [|split]; [unfold exec_at, _NUM_PARAM; cbn [seqs]|shelve..].
  change (exec (Seq ?a ?b) ?p ?c ?k) with (exec a p c (fun p' c' => exec b p' c' k)).
  change (exec (Alt Bol ?a) (Pos None ?s) ?c ?k) with
    (match k (Pos None s) c with Some x => Some x | None => exec a (Pos None s) c k end).
  cbv beta. erewrite (exec_field key v t None []); try done. Unshelve. all: reflexivity.
Qed.

Lemma captures_colon pr : captures (Pos pr (":" +:+ field)) key v.
Proof.
  eexists. split; [|split]; [unfold exec_at, _NUM_PARAM; cbn [seqs]|shelve..].
  change (exec (Seq ?a ?b) ?p ?c ?k) with (exec a p c (fun p' c' => exec b p' c' k)).
  change (exec (Alt Bol ?a) (Pos ?o ?s) ?c ?k) with
    (match match o with None => k (Pos o s) c | Some _ => None end with
     | Some x => Some x | None => exec a (Pos o s) c k end).
  rewrite exec_lit. cbv beta. erewrite (exec_field key v t (advance pr ":") []); try done.
  by destruct pr. Unshelve. all: reflexivity.
Qed.

Lemma field_captured raw :
  raw = field \/ (exists u, raw = u +:+ ":" +:+ field) ->
  exists p, pos_of None raw p /\ captures p key v /\ (prev p = None \/ first_char (rest p) = Some ":"%char).
Proof.
  intros [->|[u ->]].
  - exists (Pos None field). split_and!; [exact (pos_of_refl (Pos None field))|apply captures_start|by left].
  - exists (Pos (advance None u) (":" +:+ field)). split_and!; [apply pos_of_intro|apply captures_colon|by right].
Qed.
End Field.

Definition no_colon (c : ascii) : bool := negb (Ascii.eqb c ":").

Lemma num_key_no_colon key : key ∈ num_keys -> sforall no_colon key = true.
Proof.
  unfold num_keys. intros H. repeat (apply elem_of_cons in H as [->|H]; [done|]). by apply not_elem_of_nil in H.
Qed.

Lemma den_alts_lit l x y :
  den (alts (lit <$> l)) x y -> exists w, w ∈ l /\ consumes x.1 w y.1 /\ y.2 = x.2.
Proof.
  induction l as [|w l IH]; cbn [fmap list_fmap alts]; [by intros [[] _]; exists x|].
  destruct l as [|v l].
  - intros [Hc Hy]%den_lit. exists w. split; [by left|done].
  - intros [[Hc Hy]%den_lit|(u & Hu & H)%IH]; [exists w; split; [by left|done]|exists u; split; [by right|done]].
Qed.

(** What a numeric parameter consumes, a colon at its start at most, and what it captures. *)
Lemma den_num_param x y :
  den _NUM_PARAM x y -> exists sep key v, consumes x.1 (sep +:+ key +:+ "=" +:+ v) y.1 /\
    (sep = EmptyString \/ sep = ":") /\ sforall no_colon (key +:+ "=" +:+ v) = true /\
    key ∈ num_keys /\ y.2 = (2%nat, v) :: (1%nat, key) :: x.2.
Proof.
  intros (z1 & Hsep & z2 & (z & Hkey & ->) & z3 & [Heq He]%den_lit & (z' & Hval & ->)). cbn [fst snd] in *.
  apply den_alts_lit in Hkey as (key & Hin & Hc & Hk2). apply den_plus_chr in Hval as (v & _ & Hv & Hc' & Hv2).
  assert (Hw : consumes z1.1 (key +:+ "=" +:+ v) z'.1).
  { eapply consumes_trans; [exact Hc|]. by eapply consumes_trans. }
  assert (Hz1 : z1.2 = x.2) by (by destruct Hsep as [[_ ->]|[_ ?]%den_lit]).
  assert (Hcaps : (2%nat, between z3.1 z'.1) :: z'.2 = (2%nat, v) :: (1%nat, key) :: x.2).
  { rewrite Hv2, He, Hk2, Hz1. by rewrite (consumes_between _ _ _ Hc), (consumes_between _ _ _ Hc'). }
  assert (sforall no_colon (key +:+ "=" +:+ v) = true).
  { rewrite !sforall_append, num_key_no_colon by done. cbn [andb]. apply andb_true_iff. split; [done|].
    eapply sforall_impl; [|exact Hv]. intros c. unfold value_char, colon_or, no_colon.
    intros ?%negb_true_iff. apply negb_true_iff. by apply orb_false_iff in H as [? _]. }
  destruct Hsep as [[_ ->]|[Hsep _]%den_lit].
  - exists EmptyString, key, v. split_and!; [by rewrite append_nil_l|by left|done..].
  - exists ":", key, v. split_and!; [by eapply consumes_trans|by right|done..].
Qed.

(** A text without a colon reaches no colon of the string. *)
Lemma no_colon_before w u r e :
  w +:+ e = u +:+ String ":" r -> (String.length e < S (String.length r))%nat -> sforall no_colon w = true -> False.
Proof.
  intros Heq Hl Hw. pose proof (f_equal String.length Heq) as Hlen. rewrite !length_append in Hlen.
  cbn [String.length] in Hlen. change (String ":" r) with (":" +:+ r) in Heq. rewrite <- append_assoc in Heq.
  destruct (append_prefix w (u +:+ ":") e r Heq) as [w' ->].
  - rewrite length_append. cbn [String.length]. lia.
  - rewrite append_assoc in Hw. by apply sforall_elem in Hw.
Qed.

(** No field is missed, and each is seen with its whole value. *)
Lemma num_params_field key v raw :
  key ∈ num_keys -> has_field key v raw -> (key, v) ∈ num_params raw.
Proof.
  intros Hkey (t & Hn & Hv & Ht & Hraw).
  destruct (field_captured key v t Hkey Hn Hv Ht raw) as (p & Hp & (m & Hm & Hg1 & Hg2) & Hat); [exact Hraw|].
  destruct (exec_at_sound _ _ _ Hm) as [_ Hden].
  destruct (finditer_complete _ _ _ _ _ Hp Hden) as (m' & Hin & [u Hu] & Hend).
  assert (Hsame : p = m_start m').
  { destruct u as [|a u]; [apply consumes_nil in Hu; by destruct (m_start m')|].
    destruct Hend as [|Hend%Nat.ltb_lt]; [done|]. destruct Hu as [Hu1 Hu2]. cbn [prev rest advance] in Hu1, Hu2.
    destruct (finditer_sound _ _ _ Hin) as [_ (sep & key' & v' & [Hc _] & Hsep & Hw & _)%den_num_param]. cbn [fst] in Hc.
    rewrite Hu1 in Hc. set (w := key' +:+ _) in *. destruct Hat as [Hat|Hat].
    { exfalso. rewrite Hu2 in Hat. clear -Hat. revert a Hat. induction u as [|b u IH]; intros a; [done|apply IH]. }
    destruct (rest p) as [|b r]; [done|]. apply (inj Some) in Hat as ->. exfalso. cbn [String.length] in Hend.
    destruct Hsep as [-> | ->].
    - rewrite append_nil_l in Hc. by eapply (no_colon_before _ (String a u)).
    - rewrite append_cons, append_assoc, !append_cons, append_nil_l in Hc. injection Hc as -> Hc.
      by eapply (no_colon_before _ u). }
  apply list_elem_of_omap. exists m'. split; [done|]. pose proof (finditer_exec _ _ _ _ Hin) as He.
  rewrite <- Hsame, Hm in He. injection He as <-. by rewrite Hg1, Hg2.
Qed.

(** *** Cores *)

Lemma split_pair_none s : contains "\n" s = false -> split_pair "\" "n" s = [s].
Proof.
  induction s as [|c s IH]; [done|]. intros Hc.
  assert (Hs : contains "\n" s = false) by (cbn [contains] in Hc; by apply orb_false_iff in Hc as [_ ?]).
  destruct s as [|d s]; [done|].
  change (match (if Ascii.eqb c "\" && Ascii.eqb d "n" then EmptyString :: split_pair "\" "n" s
    else match split_pair "\" "n" (String d s) with w :: ws => String c w :: ws | [] => [String c EmptyString] end)
    with x => x end = [String c (String d s)]).
  rewrite IH by done. destruct (_ && _) eqn:E; [|done]. exfalso.
  apply andb_true_iff in E as [->%Ascii.eqb_eq ->%Ascii.eqb_eq]. done.
Qed.

Definition no_backslash (s : string) : bool := sforall (fun c => negb (Ascii.eqb c "\")) s.

Lemma split_pair_app s t : no_backslash s = true -> split_pair "\" "n" (s +:+ "\n" +:+ t) = s :: split_pair "\" "n" t.
Proof.
  unfold no_backslash. induction s as [|c s IH]; [reflexivity|]. cbn [sforall]. intros [Hc Hs]%andb_true_iff.
  apply negb_true_iff in Hc. specialize (IH Hs). rewrite append_cons.
  destruct (s +:+ "\n" +:+ t) as [|d u] eqn:E; [by destruct s|].
  change (split_pair "\" "n" (String c (String d u))) with
    (if Ascii.eqb c "\" && Ascii.eqb d "n" then EmptyString :: split_pair "\" "n" u
     else match split_pair "\" "n" (String d u) with w :: ws => String c w :: ws | [] => [String c EmptyString] end).
  by rewrite Hc, IH.
Qed.

Lemma split_pair_plain s : no_backslash s = true -> split_pair "\" "n" s = [s].
Proof.
  intros Hs. apply split_pair_none, not_true_iff_false. rewrite contains_spec. intros (u & t & ->).
  by apply sforall_elem in Hs.
Qed.

Lemma split_pair_join cores : cores <> [] -> Forall (fun c => no_backslash c = true) cores ->
  split_pair "\" "n" (join "\n" cores) = cores.
Proof.
  intros Hne. induction 1 as [|c l Hc Hl IH]; [done|]. destruct l as [|d l]; [by apply split_pair_plain|].
  change (join "\n" (c :: d :: l)) with (c +:+ "\n" +:+ join "\n" (d :: l)). by rewrite split_pair_app, IH.
Qed.

(** The cores that are validated. *)
Definition cores_of (s : string) : list string :=
  filter (fun c => nonempty c = true) (strip <$> split_pair "\" "n" s).

Section Valid.
Context {FS : FileSys} (dirs : BlobDirs) (env : ConfEnv) (blobs_dir : option string).
Notation core_issues c := (issues (_validate_single dirs env c blobs_dir)).
Notation validate s := (validate_strategy dirs env s blobs_dir).

Lemma validate_well_formed s : nonempty (strip s) = true -> _is_well_formed s = true ->
  issues (validate s) = c ← cores_of s; core_issues c.
Proof.
  intros Hs Hw. unfold validate_strategy. rewrite Hs, Hw. cbn [negb issues].
  assert (forall l : list string,
    (part ← l; let seg := strip part in if nonempty seg then core_issues seg else []) =
    c ← filter (fun c => nonempty c = true) (strip <$> l); core_issues c) as Hl.
  { induction l as [|a l IH]; [done|]. rewrite fmap_cons, filter_cons. cbn [mbind list_bind]. cbv zeta.
    case_decide as E; [cbn [mbind list_bind]; rewrite E|apply not_true_iff_false in E; rewrite E]; by f_equal. }
  rewrite Hl. unfold cores_of. by destruct (contains "\n" s) eqn:E; [|rewrite split_pair_none].
Qed.

(** What the numbers of a strategy have to be. *)
Definition num_ok (kv : string * string) : Prop :=
  exists v, py_int kv.2 = Some v /\
    (if bool_decide (kv.1 ∈ ["ip_ttl"; "ttl"]) then 0 <= v <= 255 else - 2 ^ 31 <= v <= 2 ^ 31 - 1)%Z.

(** What a core has to be for no error to be reported. *)
Record core_ok (raw : string) : Prop := CoreOk {
  fake_has_blob : _is_fake_family raw = true -> _extract_blobs raw <> [];
  blobs_known : Forall (fun n => blob_known dirs blobs_dir n = true) (_extract_blobs raw);
  numbers_ok : Forall num_ok (num_params raw);
  repeats_ok : Forall (fun m => forall r, (g ← group 1 m; py_int g) = Some r -> 1 <= r)%Z (finditer repeats_re raw);
  lua_ok : Forall (fun msg => contains "is excluded" msg = false) (validate_custom_lua_params env raw)
}.

Definition no_error (l : list ValidationIssue) : Prop := Forall (fun i => severity i <> error) l.

Lemma no_error_iff r : is_valid r = true <-> no_error (issues r).
Proof.
  unfold is_valid, no_error. rewrite negb_true_iff. induction (issues r) as [|i l IH]; [done|].
  cbn [existsb]. rewrite orb_false_iff, bool_decide_eq_false, IH, Forall_cons. done.
Qed.

Lemma no_error_app l k : no_error (l ++ k) <-> no_error l /\ no_error k.
Proof. apply Forall_app. Qed.

Lemma no_error_bind {A} (f : A -> list ValidationIssue) l : no_error (l ≫= f) <-> Forall (fun a => no_error (f a)) l.
Proof.
  induction l as [|a l IH]; cbn [mbind list_bind]; [split; constructor|].
  by rewrite no_error_app, IH, Forall_cons.
Qed.

Lemma no_error_omap {A} (f : A -> option ValidationIssue) l :
  no_error (omap f l) <-> Forall (fun a => forall i, f a = Some i -> severity i <> error) l.
Proof.
  unfold no_error. rewrite !Forall_forall. setoid_rewrite list_elem_of_omap. naive_solver.
Qed.
Lemma num_params_keys raw kv : kv ∈ num_params raw -> kv.1 ∈ num_keys.
Proof.
  intros (m & Hm & Hkv)%list_elem_of_omap.
  destruct (finditer_sound _ _ _ Hm) as [_ (sep & key & v & _ & _ & _ & Hkey & Hcaps)%den_num_param].
  cbn [snd] in Hcaps. unfold group in Hkv. rewrite Hcaps in Hkv. cbn in Hkv. by apply (inj Some) in Hkv as <-.
Qed.

Lemma num_issue_ok kv : kv.1 ∈ num_keys -> no_error (num_issue kv) <-> num_ok kv.
Proof.
  destruct kv as [k v]. cbn [fst]. intros Hk. unfold num_issue, num_ok, no_error, in_range. cbn [fst snd].
  destruct (bool_decide (k ∈ ["ip_ttl"; "ttl"])) eqn:E1.
  - destruct (py_int v) as [n|]; [|split; [by intros [? _]%Forall_cons|by intros (? & ? & _)]].
    destruct (_ && _) eqn:E.
    + split; [|by constructor]. intros _. exists n. split; [done|lia].
    + split; [by intros [? _]%Forall_cons|]. intros (? & [= <-] & ?). lia.
  - assert (bool_decide (k ∈ ["tcp_ts"; "tcp_ack"; "tcp_seq"]) = true) as ->.
    { apply bool_decide_eq_false in E1. apply bool_decide_eq_true. unfold num_keys in Hk. set_solver. }
    destruct (py_int v) as [n|]; [|split; [by intros [? _]%Forall_cons|by intros (? & ? & _)]].
    change (Z.shiftl 1 31) with 2147483648%Z. change (2 ^ 31)%Z with 2147483648%Z. destruct (_ && _) eqn:E.
    + split; [|by constructor]. intros _. exists n. split; [done|lia].
    + split; [by intros [? _]%Forall_cons|]. intros (? & [= <-] & ?). lia.
Qed.

Lemma repeats_issue_ok m :
  no_error (repeats_issue m) <-> forall r, (g ← group 1 m; py_int g) = Some r -> (1 <= r)%Z.
Proof.
  unfold repeats_issue, no_error, in_range. destruct (g ← group 1 m; py_int g) as [r|]; [|split; [done|constructor]].
  destruct (_ && _) eqn:E; [split; [intros _ ? [= <-]; lia|by constructor]|].
  rewrite Forall_cons. cbn [severity]. destruct (r <? 1)%Z eqn:E'.
  - split; [by intros [? _]|]. intros H. specialize (H r eq_refl). lia.
  - split; [intros _ ? [= <-]; lia|]. by repeat constructor.
Qed.

Lemma no_error_cond (b : bool) i : no_error (if b then [i] else []) <-> (b = true -> severity i <> error).
Proof.
  destruct b; unfold no_error; [rewrite Forall_cons; naive_solver|]. split; [done|constructor].
Qed.

Lemma core_ok_iff raw : no_error (core_issues raw) <-> core_ok raw.
Proof.
  unfold _validate_single. cbn [issues]. rewrite !no_error_app, !no_error_bind, !no_error_omap, !no_error_cond.
  assert (Hnum : Forall (fun kv => no_error (num_issue kv)) (num_params raw) <-> Forall num_ok (num_params raw)).
  { rewrite !Forall_forall. split; intros H kv Hkv; apply num_issue_ok; auto; by eapply num_params_keys. }
  assert (Hrep : Forall (fun m => no_error (repeats_issue m)) (finditer repeats_re raw) <->
    Forall (fun m => forall r, (g ← group 1 m; py_int g) = Some r -> 1 <= r)%Z (finditer repeats_re raw)).
  { rewrite !Forall_forall. by setoid_rewrite repeats_issue_ok. }
  rewrite Hnum, Hrep. unfold lt_issue. rewrite no_error_cond. split.
  - intros (_ & Hf & Hb & _ & Hn & Hr & _ & Hl). split; [| |done|done|].
    + intros Hfake Hnil. by apply Hf; [rewrite Hfake, Hnil|].
    + eapply Forall_impl; [exact Hb|]. intros n H. unfold unknown_blob_issue in H.
      destruct (blob_known _ _ n); [done|]. by specialize (H _ eq_refl).
    + unfold no_error in Hl. rewrite Forall_fmap in Hl. eapply Forall_impl; [exact Hl|]. intros msg H.
      cbn in H. unfold lua_issue in H. by destruct (contains _ msg).
  - intros [Hf Hb Hn Hr Hl]. split_and!; [| | |done|done|done|done|].
    + apply no_error_omap, Forall_forall. intros n _ i Hi. destruct (_ && _); [|done]. by apply (inj Some) in Hi as <-.
    + intros [H1 H2%bool_decide_eq_true]%andb_true_iff. by destruct (Hf H1).
    + eapply Forall_impl; [exact Hb|]. intros n H i. unfold unknown_blob_issue. by rewrite H.
    + unfold no_error. rewrite Forall_fmap. eapply Forall_impl; [exact Hl|]. intros msg H.
      cbn. unfold lua_issue. by rewrite H.
Qed.

Lemma valid_iff s :
  is_valid (validate s) = true <->
  nonempty (strip s) = true /\ _is_well_formed s = true /\ Forall core_ok (cores_of s).
Proof.
  destruct (nonempty (strip s)) eqn:Hs; cycle 1.
  { unfold validate_strategy. rewrite Hs. split; [done|by intros [? _]]. }
  destruct (_is_well_formed s) eqn:Hw; cycle 1.
  { unfold validate_strategy. rewrite Hs, Hw. split; [done|by intros (_ & ? & _)]. }
  rewrite no_error_iff, validate_well_formed, no_error_bind by done.
  rewrite !Forall_forall. setoid_rewrite core_ok_iff. naive_solver.
Qed.

(** A strategy is valid exactly when it is not blank, is one line with balanced quotes, and every
    core between the literal separators is in order: a fake has a blob, every blob is known, the
    numeric parameters are integers in their ranges, no repeat count is below 1, and no parameter of
    a custom Lua function is excluded. Warnings and infos do not matter. *)
Theorem validate_strategy_spec s :
  is_valid (validate s) = true <->
  nonempty (strip s) = true /\ _is_well_formed s = true /\ Forall core_ok (cores_of s).
Proof. apply valid_iff. Qed.

(** No numeric field escapes the check: in a valid strategy the value of every complete field
    [ip_ttl=], [ttl=] of a core is an integer from 0 to 255, and that of every [tcp_ts=], [tcp_ack=],
    [tcp_seq=] a 32-bit integer, wherever the field stands between the colons. *)
Theorem valid_fields_in_range s core key v :
  is_valid (validate s) = true -> core ∈ cores_of s -> key ∈ num_keys -> has_field key v core ->
  num_ok (key, v).
Proof.
  intros Hv Hc Hkey Hf. assert (Hok : no_error (core_issues core)).
  { destruct (nonempty (strip s)) eqn:Hs; [|unfold validate_strategy in Hv; by rewrite Hs in Hv].
    destruct (_is_well_formed s) eqn:Hw; [|unfold validate_strategy in Hv; by rewrite Hs, Hw in Hv].
    apply no_error_iff in Hv. rewrite validate_well_formed in Hv by done.
    apply no_error_bind in Hv. rewrite Forall_forall in Hv. by apply Hv. }
  apply core_ok_iff in Hok as [_ _ Hn _ _]. rewrite Forall_forall in Hn. by apply Hn, num_params_field.
Qed.
(** A core that can be joined with others. *)
Definition plain_core (c : string) : Prop :=
  nonempty (strip c) = true /\ _is_well_formed c = true /\ no_backslash c = true.

Lemma well_formed_join cores :
  Forall (fun c => _is_well_formed c = true) cores -> _is_well_formed (join "\n" cores) = true.
Proof.
  unfold _is_well_formed. intros H.
  assert (Hb : Forall (fun c => sforall (fun x => negb (is_break x)) c = true) cores).
  { eapply Forall_impl; [exact H|]. intros c. cbn. by destruct (sforall _ c). }
  rewrite sforall_join by done. cbn [negb].
  induction H as [|c l Hc Hl IH]; [done|]. apply Forall_cons in Hb as [Hbc Hb]. specialize (IH Hb).
  rewrite Hbc in Hc. cbn [negb] in Hc. destruct l as [|d l]; [done|].
  change (join "\n" (c :: d :: l)) with (c +:+ "\n" +:+ join "\n" (d :: l)).
  rewrite !count_char_append, Nat.add_assoc, !Nat.even_add, Hc, IH. done.
Qed.

Lemma cores_of_plain c : no_backslash c = true -> nonempty (strip c) = true -> cores_of c = [strip c].
Proof.
  intros Hb Hs. unfold cores_of. rewrite split_pair_plain by done. rewrite fmap_cons, filter_cons.
  by rewrite decide_True.
Qed.

(** A strategy of several cores has exactly the issues of its cores, in their order: the
    separator neither hides an issue nor adds one. *)
Theorem validate_cores cores :
  cores <> [] -> Forall plain_core cores ->
  issues (validate (join "\n" cores)) = c ← cores; issues (validate c).
Proof.
  intros Hne Hc.
  assert (Hbs : Forall (fun c => no_backslash c = true) cores) by (eapply Forall_impl; [exact Hc|]; by intros ? (_ & _ & ?)).
  rewrite validate_well_formed.
  - unfold cores_of. rewrite split_pair_join by done. clear Hne Hbs. induction Hc as [|c l (Hs & Hw & Hb) _ IH]; [done|].
    rewrite fmap_cons, filter_cons, decide_True by done. cbn [mbind list_bind]. f_equal; [|done].
    rewrite validate_well_formed, cores_of_plain by done. cbn [mbind list_bind]. by rewrite app_nil_r.
  - rewrite nonempty_strip. destruct Hc as [|c l (Hs & _) _]; [done|].
    rewrite nonempty_strip in Hs. destruct l; [done|]. cbn [join]. rewrite sforall_append.
    apply negb_true_iff in Hs. by rewrite Hs.
  - apply well_formed_join. eapply Forall_impl; [exact Hc|]. by intros ? (_ & ? & _).
Qed.
End Valid.

(** *** Examples *)

#[local] Instance no_files : FileSys := {| isfile _ := false; isdir _ := false; listdir _ := [] |}.
Definition ex_dirs : BlobDirs := Dirs "/b" "/r" "/p" "/z" None.
Definition codes (s : string) : list string := code <$> issues (validate_strategy ex_dirs ex_conf_env s None).

Example validate_ex : codes "fake:repeats=0:ip_ttl=300:tcp_ts=x\nmultisplit:blob=nope" =
  ["fake_without_blob"; "invalid_ip_ttl"; "non_numeric_param"; "repeats_range"; "unknown_blob"; "split_without_pos"].
Proof. reflexivity. Qed.
Example validate_ex2 : (codes "fake:blob=stun:ip_ttl=5:ttl=7", codes "fake:blob=4pda:x<y", codes " ") =
  ([], ["digit_blob_id"; "unescaped_lt"], ["empty_strategy"]).
Proof. reflexivity. Qed.

Lemma valid_fields_in_range_witness : num_ok ("ttl", "7").
Proof.
  apply (valid_fields_in_range ex_dirs ex_conf_env None "drop\nfake:blob=stun:ip_ttl=5:ttl=7"
    "fake:blob=stun:ip_ttl=5:ttl=7" "ttl" "7").
  - reflexivity.
  - unfold cores_of. cbn. apply elem_of_cons. right. apply elem_of_cons. by left.
  - unfold num_keys. set_solver.
  - exists EmptyString. split_and!; [done..|]. right. by exists "fake:blob=stun:ip_ttl=5".
Defined.

Lemma validate_cores_witness :
  issues (validate_strategy ex_dirs ex_conf_env "fake:ttl=7\nfake:ttl=300" None) =
  c ← ["fake:ttl=7"; "fake:ttl=300"]; issues (validate_strategy ex_dirs ex_conf_env c None).
Proof.
  apply (validate_cores ex_dirs ex_conf_env None ["fake:ttl=7"; "fake:ttl=300"]); [done|].
  repeat constructor.
Defined.
