(* ===== verification/BridgeIpc.v ===== *)
(** * The file protocol of the Lua bridge: [service/lua_bridge_ipc.py], [lua/blockchecks/*.lua]

    Python publishes a strategy number and a generation as files that it replaces one by one; the
    Lua scripts inside nfqws2 read them, run the strategy and append events to a log that Python
    drains. Both sides are modelled: the commit order of [publish], the reads of
    [bs_read_strategy_ipc] with steps of the publisher between them, the events that [scan_pick]
    writes and the filter of [drain_events]. The contents of files are texts, read back as the
    programs read them. Permissions, [sudo] and [setfacl] are left out; a publish can stop after any
    of its steps. *)

From stdpp Require Import base numbers list strings gmap relations.
From Stdlib Require Import ZArith Lia Ascii.
From S2P Require Import Prelude PyStr PyDict PyJson JsonParse.

#[local] Open Scope string_scope.

Definition newline : string := String (ascii_of_N 10) EmptyString.

(** ** Files *)

Notation files := (gmap string string).
Definition fop : Type := string * string. (* os.replace or write_text: a file and its new content *)

Definition ID : string := "strategy.id".
Definition GEN : string := "strategy.gen".
Definition CMD : string := "strategy.cmd".
Definition READY : string := "strategy.ready".

Definition apply_op (op : fop) (fs : files) : files := <[op.1 := op.2]> fs.
Definition apply_ops (ops : list fop) (fs : files) : files := foldl (fun fs op => apply_op op fs) fs ops.

Definition number_line (z : Z) : string := str_of_Z z +:+ newline.

Definition cmd_op (cmd : option string) : list fop :=
  match cmd with
  | Some c => if nonempty c then [(CMD, rstrip_by is_space c +:+ newline)] else []
  | None => []
  end.

(** The replacements of [_publish_impl], in the order of the loop, the fence last. *)
Definition publish_ops (strategy_id gen : Z) (cmd : option string) : list fop :=
  ((GEN, number_line gen) :: cmd_op cmd ++ [(ID, number_line strategy_id); (READY, number_line gen)])%list.

(** [_init_strategy_ipc] *)
Definition init_ops : list fop := [(ID, EmptyString); (GEN, EmptyString); (READY, EmptyString); (CMD, EmptyString)].

(** [tonumber(f:read("*l"))] on what the publisher writes: a decimal number on the first line, or an
    empty file. *)
Definition lua_number (content : string) : option Z :=
  let w := before (ascii_of_N 10) content in
  if startswith "-" w then (if isdigit (sdrop 1 w) then Some (- digits_val 0 (sdrop 1 w))%Z else None)
  else if isdigit w then Some (digits_val 0 w) else None.
Definition read_number (name : string) (fs : files) : option Z := content ← fs !! name; lua_number content.

(** [bs_read_strategy_ipc], when nothing is replaced between its reads. The callers ignore a
    generation without an id. *)
Definition bs_read_strategy_ipc (fs : files) : option (Z * Z) :=
  ready_gen ← read_number READY fs;
  gen ← read_number GEN fs;
  if negb (Z.eqb gen ready_gen) then None else (fun id => (id, gen)) <$> read_number ID fs.

(** ** Events *)

Record BridgeEvent : Type := Event {
  e_event : string; e_gen : Z; e_id : Z; e_reason : string; e_ttl : Z; e_matched : Z
}.

(** [int(v)] *)
Definition int_of (v : json) : outcome Z :=
  match v with
  | JBool b => Ret (Z.b2z b)
  | JInt z => Ret z
  | JFloat f => match PyFloat.f_trunc f with Some z => Ret z | None => Raise end
  | JStr s => match py_int s with Some z => Ret z | None => Raise end
  | _ => Raise
  end.

Definition event_of_dict (data : list (string * json)) : outcome BridgeEvent :=
  ev ← str_or_empty (jget "event" data);
  g ← int_or_0 (jget "gen" data);
  i ← int_or_0 (jget "id" data);
  r ← str_or_empty (jget "reason" data);
  t ← int_or_0 (jget "ttl" data);
  m ← match dget "matched" data with Some v => int_of v | None => Ret (-1)%Z end;
  Ret (Event ev g i r t m).

(** [BridgeEvent.from_line]: a line that is no JSON object gives no event, a field that [int]
    refuses raises. *)
Definition from_line (line : string) : outcome (option BridgeEvent) :=
  let line := strip line in
  if negb (nonempty line) then Ret None
  else match json_loads line with
       | Raise => Ret None
       | Beyond => Beyond
       | Ret (JDict d) => e ← event_of_dict d; Ret (Some e)
       | Ret _ => Ret None
       end.

Definition is_rst_in (e : BridgeEvent) : bool := String.eqb (e_event e) "STRATEGY_FAIL" && String.eqb (e_reason e) "rst_in".
Definition is_applied (e : BridgeEvent) : bool := String.eqb (e_event e) "APPLIED" && negb (Z.eqb (e_matched e) 0).
Definition event_to_dict (e : BridgeEvent) : list (string * json) :=
  [("event", JStr (e_event e)); ("gen", JInt (e_gen e)); ("id", JInt (e_id e)); ("reason", JStr (e_reason e));
   ("ttl", JInt (e_ttl e)); ("matched", JInt (e_matched e))].

Definition accepted (since_gen : Z) (expect_id : option Z) (g i : Z) : bool :=
  (since_gen <=? g)%Z || match expect_id with Some x => Z.eqb i x | None => false end.

Fixpoint drain_lines (since_gen : Z) (expect_id : option Z) (lines : list string) : outcome (list BridgeEvent) :=
  match lines with
  | [] => Ret []
  | line :: lines =>
      ev ← from_line line;
      rest ← drain_lines since_gen expect_id lines;
      Ret match ev with
          | Some e => if accepted since_gen expect_id (e_gen e) (e_id e) then e :: rest else rest
          | None => rest
          end
  end.

(** [drain_events], on the content of [events.ndjson] when there is one. *)
Definition drain_events (log : option string) (since_gen : Z) (expect_id : option Z) : outcome (list BridgeEvent) :=
  match log with None => Ret [] | Some text => drain_lines since_gen expect_id (splitlines text) end.

(** [_drain_with_poll]: the log as the first drain and each of the five retries find it. *)
Fixpoint drain_with_poll (logs : list (option string)) (since_gen expect_id : Z) : outcome (list BridgeEvent) :=
  match logs with
  | [] => Ret []
  | log :: logs =>
      evs ← drain_events log since_gen (Some expect_id);
      match evs, logs with
      | [], _ :: _ => drain_with_poll logs since_gen expect_id
      | _, _ => Ret evs
      end
  end.

Definition bridge_applied (events : list BridgeEvent) : bool := existsb is_applied events.
(** [max((e.ttl for e in rst_in), default=0)] *)
Definition bridge_rst_in (events : list BridgeEvent) : bool * Z :=
  match filter (fun e => is_rst_in e = true) events with
  | [] => (false, 0%Z)
  | e :: l => (true, foldl (fun m e => Z.max m (e_ttl e)) (e_ttl e) l)
  end.

(** ** What Lua writes *)

Inductive lua_val : Type := LNum (z : Z) | LBool (b : bool) | LStr (s : string).

(** The three [gsub] calls, in their order. *)
Definition bs_json_escape (s : string) : string :=
  subst_char (ascii_of_N 10) "\n" (subst_char dquote ("\" +:+ String dquote EmptyString) (subst_char "\" "\\" s)).

(** [tostring] of a whole number is its decimal text (below 10^14 in LuaJIT). *)
Definition lua_part (kv : string * lua_val) : string :=
  q kv.1 +:+ ":" +:+
  match kv.2 with
  | LNum z => str_of_Z z
  | LBool b => if b then "true" else "false"
  | LStr s => q (bs_json_escape s)
  end.

(** The line of [bs_write_ipc] for the fields in the order in which [pairs] yields them. *)
Definition bs_write_ipc (fields : list (string * lua_val)) : string :=
  "{" +:+ join "," (lua_part <$> fields) +:+ "}" +:+ newline.

Definition applied_fields (id gen matched : Z) : list (string * lua_val) :=
  [("event", LStr "APPLIED"); ("id", LNum id); ("gen", LNum gen); ("matched", LNum matched)].
Definition rst_fields (id gen ttl : Z) : list (string * lua_val) :=
  [("event", LStr "STRATEGY_FAIL"); ("reason", LStr "rst_in"); ("id", LNum id); ("gen", LNum gen); ("ttl", LNum ttl)].

(** The instances of the plan that run for strategy [id]: those that carry its number. *)
Definition scan_matched (id : Z) (plan : list (option Z)) : Z :=
  Z.of_nat (length (filter (fun strat => strat = Some id) plan)).

(** ** The fence under interleaving

    The publisher and the reader of one namespace. Each replacement is one step, each of the three
    reads of [bs_read_strategy_ipc] is one step, and a publish or a reset can break off (the
    directory can lose its permissions, the device its space). Generations come from
    [_next_probe_gen], a counter that only grows. *)

Inductive reading : Type :=
  | Away                              (* not inside bs_read_strategy_ipc *)
  | GotReady (ready_gen : Z)          (* strategy.ready read *)
  | GotGen (g : Z)                    (* strategy.gen read, equal to the fence *)
  | Returned (r : option (Z * Z)).    (* what the call returned *)

Record ipc : Type := Ipc {
  fs : files;
  todo : list fop;                    (* replacements of the running publish or setup still to come *)
  pubs : list (Z * Z);                (* publishes begun: id and generation *)
  lua : reading;
  active : Z * Z;                     (* _G.bs_active_id, _G.bs_active_gen *)
  events : list (Z * Z)               (* id and generation of the events in the log *)
}.

Definition ipc_start : ipc := Ipc ∅ [] [] Away (1, 0)%Z [].

Inductive ipc_step : ipc -> ipc -> Prop :=
  | SPublish s i g cmd : todo s = [] -> (0 <= i)%Z -> (0 < g)%Z -> Forall (fun p => p.2 < g)%Z (pubs s) ->
      ipc_step s (Ipc (fs s) (publish_ops i g cmd) (pubs s ++ [(i, g)]) (lua s) (active s) (events s))
  | SSetup s : todo s = [] ->
      ipc_step s (Ipc (fs s) init_ops (pubs s) (lua s) (active s) (events s))
  | SReplace s op rest : todo s = op :: rest ->
      ipc_step s (Ipc (apply_op op (fs s)) rest (pubs s) (lua s) (active s) (events s))
  | SBreak s :
      ipc_step s (Ipc (fs s) [] (pubs s) (lua s) (active s) (events s))
  | SReadReady s : lua s = Away ->
      ipc_step s (Ipc (fs s) (todo s) (pubs s)
        match read_number READY (fs s) with Some r => GotReady r | None => Returned None end (active s) (events s))
  | SReadGen s r : lua s = GotReady r ->
      ipc_step s (Ipc (fs s) (todo s) (pubs s)
        (if bool_decide (read_number GEN (fs s) = Some r) then GotGen r else Returned None) (active s) (events s))
  | SReadId s g : lua s = GotGen g ->
      ipc_step s (Ipc (fs s) (todo s) (pubs s)
        (Returned ((fun i => (i, g)) <$> read_number ID (fs s))) (active s) (events s))
  | SAdopt s r : lua s = Returned r ->
      ipc_step s (Ipc (fs s) (todo s) (pubs s) Away (default (active s) r) (events s))
  | SEvent s :
      ipc_step s (Ipc (fs s) (todo s) (pubs s) (lua s) (active s) (events s ++ [active s]))
  | STruncate s :
      ipc_step s (Ipc (fs s) (todo s) (pubs s) (lua s) (active s) [])
  | SReboot s :
      ipc_step s (Ipc (fs s) (todo s) (pubs s) Away (1, 0)%Z (events s)).

Definition ipc_reachable (s : ipc) : Prop := rtc ipc_step ipc_start s.

(** *** Numbers in files *)

Lemma digits_no_break w : isdigit w = true -> sforall (fun x => negb (Ascii.eqb x (ascii_of_N 10))) w = true.
Proof.
  intros [_ H]%andb_true_iff. eapply sforall_impl; [|exact H]. intros c. by destruct c as [[] [] [] [] [] [] [] []].
Qed.

Lemma lua_number_line z : (0 <= z)%Z -> lua_number (number_line z) = Some z.
Proof.
  intros Hz. destruct (str_of_Z_nonneg z Hz) as [Hd Hv]. unfold lua_number, number_line, newline.
  rewrite before_app by by apply digits_no_break. cbv zeta. rewrite Hd, Hv.
  destruct (startswith "-" (str_of_Z z)) eqn:E; [|done]. exfalso.
  apply startswith_spec in E as [w Hw]. rewrite Hw, append_cons in Hd. done.
Qed.

Lemma read_put name text f n :
  read_number n (apply_op (name, text) f) = if bool_decide (name = n) then lua_number text else read_number n f.
Proof.
  unfold read_number, apply_op. cbn [fst snd]. case_bool_decide as E; [subst; rewrite lookup_insert_eq; reflexivity|].
  by rewrite lookup_insert_ne.
Qed.

(** *** What a publish leaves *)

Lemma read_cmd_ops cmd f n : n <> CMD -> read_number n (apply_ops (cmd_op cmd) f) = read_number n f.
Proof.
  intros Hn. destruct cmd as [c|]; [|done]. cbn [cmd_op]. destruct (nonempty c); [|done].
  unfold apply_ops. cbn [foldl]. rewrite read_put. by rewrite bool_decide_false.
Qed.

Lemma apply_ops_app a b f : apply_ops (a ++ b) f = apply_ops b (apply_ops a f).
Proof. apply foldl_app. Qed.

Lemma bs_read_all f r g i :
  read_number READY f = Some r -> read_number GEN f = Some r -> read_number ID f = Some i -> g = r ->
  bs_read_strategy_ipc f = Some (i, g).
Proof. unfold bs_read_strategy_ipc. intros -> -> -> ->. cbn. by rewrite Z.eqb_refl. Qed.

(** A finished publish is read back: the reader gets exactly the id and the generation that were
    published, whatever the directory held before. *)
Theorem publish_read i g cmd f :
  (0 <= i)%Z -> (0 <= g)%Z -> bs_read_strategy_ipc (apply_ops (publish_ops i g cmd) f) = Some (i, g).
Proof.
  intros Hi Hg. unfold publish_ops. change (?x :: ?a ++ ?b)%list with ([x] ++ a ++ b)%list.
  rewrite !apply_ops_app.
  assert (Hgen : read_number GEN (apply_ops (cmd_op cmd) (apply_ops [(GEN, number_line g)] f)) = Some g).
  { rewrite read_cmd_ops by done. unfold apply_ops. cbn [foldl]. rewrite read_put. by apply lua_number_line. }
  set (f' := apply_ops (cmd_op cmd) _) in *. apply (bs_read_all _ g); [..|done]; unfold apply_ops; cbn [foldl]; rewrite !read_put.
  - rewrite bool_decide_true by done. by apply lua_number_line.
  - by rewrite !bool_decide_false.
  - rewrite bool_decide_false, bool_decide_true by done. by apply lua_number_line.
Qed.

(** Between its first and its last replacement a publish is invisible: a reader that runs
    there gets nothing and keeps its previous strategy, for no part of the new one can be combined
    with the old fence. *)
Theorem publish_intermediate i g cmd f k :
  (0 <= g)%Z -> read_number READY f <> Some g ->
  (0 < k < length (publish_ops i g cmd))%nat ->
  bs_read_strategy_ipc (apply_ops (take k (publish_ops i g cmd)) f) = None.
Proof.
  intros Hg Hr Hk.
  assert (Hstate : read_number GEN (apply_ops (take k (publish_ops i g cmd)) f) = Some g /\
    read_number READY (apply_ops (take k (publish_ops i g cmd)) f) = read_number READY f).
  { destruct k as [|k]; [lia|]. unfold publish_ops in *. cbn [take length] in *. rewrite length_app in Hk.
    cbn [length] in Hk.
    change (apply_ops (?x :: ?l) f) with (apply_ops l (apply_op x f)). set (f1 := apply_op _ f).
    assert (H1 : read_number GEN f1 = Some g /\ read_number READY f1 = read_number READY f).
    { unfold f1. rewrite !read_put. rewrite bool_decide_true, bool_decide_false by done. by rewrite lua_number_line. }
    rewrite take_app.
    assert (Hcmd : forall n m, n <> CMD -> read_number n (apply_ops (take m (cmd_op cmd)) f1) = read_number n f1).
    { intros n m Hn. destruct m; [done|]. destruct cmd as [c|]; [|done]. cbn [cmd_op]. destruct (nonempty c); [|done].
      cbn [take]. rewrite take_nil. unfold apply_ops. cbn [foldl]. rewrite read_put. by rewrite bool_decide_false. }
    rewrite !apply_ops_app. set (f2 := apply_ops (take k (cmd_op cmd)) f1).
    assert (H2 : read_number GEN f2 = Some g /\ read_number READY f2 = read_number READY f).
    { unfold f2. by rewrite !Hcmd. }
    assert (k - length (cmd_op cmd) <= 1)%nat as Hle by lia.
    destruct (k - length (cmd_op cmd))%nat as [|[|?]]; [done| |lia].
    unfold apply_ops. cbn [take foldl]. rewrite !read_put. by rewrite !bool_decide_false. }
  destruct Hstate as [H1 H2]. unfold bs_read_strategy_ipc. rewrite H1, H2.
  destruct (read_number READY f) as [r|]; [|done]. cbn. destruct (Z.eqb_spec g r); [congruence|done].
Qed.

(** *** Invariant *)

Definition pinned (l : reading) (g : Z) : Prop := l = GotReady g \/ l = GotGen g.
Definition known (ps : list (Z * Z)) (g : Z) : Prop := exists i, (i, g) ∈ ps.
Definition latest (ps : list (Z * Z)) (i g : Z) : Prop := (i, g) ∈ ps /\ Forall (fun p => p.2 <= g)%Z ps.

(** The id is that of the generation or of a later one. *)
Definition not_older (ps : list (Z * Z)) (x : Z * Z) : Prop :=
  known ps x.2 /\ exists g, (x.1, g) ∈ ps /\ (x.2 <= g)%Z.
(** What the daemon may hold: that, or its start. *)
Definition good (ps : list (Z * Z)) (x : Z * Z) : Prop := x = (1, 0)%Z \/ not_older ps x.

Inductive phase (f : files) (ps : list (Z * Z)) : list fop -> Prop :=
  | PhClear ops : Forall (fun op => op.2 = EmptyString) ops -> phase f ps ops
  | PhBegin i g cmd : (0 <= i)%Z -> (0 < g)%Z -> latest ps i g -> phase f ps (publish_ops i g cmd)
  | PhGen i g ops : (0 <= i)%Z -> (0 < g)%Z -> latest ps i g -> read_number GEN f = Some g ->
      Forall (fun op => op.1 = CMD) ops ->
      phase f ps (ops ++ [(ID, number_line i); (READY, number_line g)])
  | PhId i g : (0 < g)%Z -> latest ps i g -> read_number GEN f = Some g -> read_number ID f = Some i ->
      phase f ps [(READY, number_line g)].

(** The id file is that of some publish, between the fence, or what the reader saw of it, and the
    generation file. *)
Definition id_between (f : files) (ps : list (Z * Z)) (l : reading) : Prop :=
  forall i, read_number ID f = Some i -> exists g, (i, g) ∈ ps /\
    (forall r, read_number READY f = Some r -> r <= g)%Z /\
    (forall g', read_number GEN f = Some g' -> g <= g')%Z /\
    (forall g0, pinned l g0 -> g0 <= g)%Z.

Record files_inv (f : files) (ps : list (Z * Z)) (l : reading) : Prop := FilesInv {
  gen_known : forall g, read_number GEN f = Some g -> known ps g;
  ready_known : forall r, read_number READY f = Some r -> known ps r;
  pin_known : forall g0, pinned l g0 -> known ps g0;
  id_known : id_between f ps l
}.

Record ipc_inv (s : ipc) : Prop := IpcInv {
  gens_pos : Forall (fun p => 0 < p.2)%Z (pubs s);
  gens_sorted : forall ps p, pubs s = (ps ++ [p])%list -> Forall (fun x => x.2 < p.2)%Z ps;
  gens_unique : forall i j g, (i, g) ∈ pubs s -> (j, g) ∈ pubs s -> i = j;
  in_phase : phase (fs s) (pubs s) (todo s);
  in_files : files_inv (fs s) (pubs s) (lua s);
  ret_good : forall x, lua s = Returned (Some x) -> not_older (pubs s) x;
  active_good : good (pubs s) (active s);
  events_good : Forall (good (pubs s)) (events s)
}.

Lemma known_app ps p g : known ps g -> known (ps ++ [p]) g.
Proof. intros [i Hi]. exists i. apply elem_of_app. by left. Qed.

Lemma not_older_app ps p x : not_older ps x -> not_older (ps ++ [p]) x.
Proof.
  intros (Hk & g & Hg & Hle). split; [by apply known_app|]. exists g. split; [apply elem_of_app; by left|done].
Qed.

Lemma good_app ps p x : good ps x -> good (ps ++ [p]) x.
Proof. intros [->|H]; [by left|right; by apply not_older_app]. Qed.

Lemma known_le ps i g g' : latest ps i g -> known ps g' -> (g' <= g)%Z.
Proof. intros [_ Hm] [j Hj]. rewrite Forall_forall in Hm. by apply (Hm (j, g')). Qed.

Lemma read_empty name f n :
  read_number n (apply_op (name, EmptyString) f) = if bool_decide (name = n) then None else read_number n f.
Proof. rewrite read_put. by case_bool_decide. Qed.

Lemma files_inv_clear name f ps l : files_inv f ps l -> files_inv (apply_op (name, EmptyString) f) ps l.
Proof.
  intros [Hg Hr Hp Hi]. split; [..|done|].
  - intros g. rewrite read_empty. case_bool_decide; [done|apply Hg].
  - intros g. rewrite read_empty. case_bool_decide; [done|apply Hr].
  - intros i. rewrite read_empty. case_bool_decide; [done|]. intros (g & Hin & H1 & H2 & H3)%Hi.
    exists g. split_and!; [done|..|done]; intros x; rewrite read_empty; (case_bool_decide; [done|auto]).
Qed.

Lemma files_inv_gen i g f ps l :
  (0 < g)%Z -> latest ps i g -> files_inv f ps l -> files_inv (apply_op (GEN, number_line g) f) ps l.
Proof.
  intros Hg0 Hl [Hg Hr Hp Hi].
  assert (Hread : forall n, n <> GEN -> read_number n (apply_op (GEN, number_line g) f) = read_number n f).
  { intros n Hn. rewrite read_put. by rewrite bool_decide_false. }
  split; [|by rewrite Hread|done|].
  - intros g'. rewrite read_put, bool_decide_true, lua_number_line by (done || lia). intros [= <-].
    exists i. apply Hl.
  - intros j. rewrite Hread by done. intros (g1 & Hin & H1 & H2 & H3)%Hi. exists g1.
    rewrite Hread by done. split_and!; [done|done| |done]. intros g'.
    rewrite read_put, bool_decide_true, lua_number_line by (done || lia). intros [= <-].
    eapply known_le; [exact Hl|by exists j].
Qed.

Lemma files_inv_cmd text f ps l : files_inv f ps l -> files_inv (apply_op (CMD, text) f) ps l.
Proof.
  assert (Hread : forall n, n <> CMD -> read_number n (apply_op (CMD, text) f) = read_number n f).
  { intros n Hn. rewrite read_put. by rewrite bool_decide_false. }
  intros [Hg Hr Hp Hi]. split; unfold id_between; by rewrite ?Hread.
Qed.

Lemma files_inv_id i g f ps l :
  (0 <= i)%Z -> latest ps i g -> read_number GEN f = Some g -> files_inv f ps l ->
  files_inv (apply_op (ID, number_line i) f) ps l.
Proof.
  intros Hi0 Hl Hgen [Hg Hr Hp Hi].
  assert (Hread : forall n, n <> ID -> read_number n (apply_op (ID, number_line i) f) = read_number n f).
  { intros n Hn. rewrite read_put. by rewrite bool_decide_false. }
  split; [by rewrite Hread|by rewrite Hread|done|].
  intros j. rewrite read_put, bool_decide_true, lua_number_line by done. intros [= <-].
  exists g. rewrite !Hread by done. split_and!; [apply Hl|..].
  - intros r H%Hr. by eapply known_le.
  - intros g'. rewrite Hgen. intros [= <-]. lia.
  - intros g0 H%Hp. by eapply known_le.
Qed.

Lemma files_inv_ready i g f ps l :
  (0 < g)%Z -> latest ps i g -> read_number GEN f = Some g -> read_number ID f = Some i -> files_inv f ps l ->
  files_inv (apply_op (READY, number_line g) f) ps l.
Proof.
  intros Hg0 Hl Hgen Hid [Hg Hr Hp Hi].
  assert (Hread : forall n, n <> READY -> read_number n (apply_op (READY, number_line g) f) = read_number n f).
  { intros n Hn. rewrite read_put. by rewrite bool_decide_false. }
  assert (Hready : read_number READY (apply_op (READY, number_line g) f) = Some g).
  { rewrite read_put, bool_decide_true by done. apply lua_number_line. lia. }
  split; [by rewrite Hread| |done|].
  - intros r. rewrite Hready. intros [= <-]. exists i. apply Hl.
  - intros j. rewrite Hread by done. rewrite Hid. intros [= <-]. exists g.
    rewrite Hready, Hread by done. split_and!; [apply Hl|by intros ? [= <-]|rewrite Hgen; by intros ? [= <-]|].
    intros g0 H%Hp. by eapply known_le.
Qed.

(** One replacement. *)
Lemma replace_inv f ps l op rest :
  phase f ps (op :: rest) -> files_inv f ps l ->
  phase (apply_op op f) ps rest /\ files_inv (apply_op op f) ps l.
Proof.
  intros Hph Hf. inversion Hph as [ops Hops|i g cmd Hi Hg Hl Heq|i g ops Hi Hg Hl Hgen Hops Heq|i g Hg Hl Hgen Hid Heq]; subst.
  - apply Forall_cons in Hops as [Hop Hops]. destruct op as [name text]. cbn [snd] in Hop. subst text.
    split; [by apply PhClear|by apply files_inv_clear].
  - split; [|by eapply files_inv_gen].
    eapply PhGen; [done|done|done|rewrite read_put, bool_decide_true by done; apply lua_number_line; lia|].
    destruct cmd as [c|]; cbn [cmd_op]; [destruct (nonempty c)|]; by repeat constructor.
  - destruct ops as [|op' ops].
    + injection Heq as <- <-. split; [|by eapply files_inv_id].
      eapply PhId; [done|exact Hl| |]; rewrite read_put; [by rewrite bool_decide_false|].
      rewrite bool_decide_true by done. by apply lua_number_line.
    + injection Heq as <- <-. apply Forall_cons in Hops as [Hop Hops]. destruct op' as [name text].
      cbn [fst] in Hop. subst name. split; [|by apply files_inv_cmd].
      eapply PhGen; [done|done|exact Hl| |done]. rewrite read_put. by rewrite bool_decide_false.
  - split; [by apply PhClear|by eapply files_inv_ready].
Qed.

(** A new publish: nothing of the old state refers to it. *)
Lemma files_inv_pub p f ps l : files_inv f ps l -> files_inv f (ps ++ [p]) l.
Proof.
  intros [Hg Hr Hp Hi]. split; [intros; apply known_app; auto..|].
  intros j (g & Hin & H)%Hi. exists g. split; [apply elem_of_app; by left|done].
Qed.

(** The reader moves; what it has pinned was read from the fence. *)
Lemma files_inv_read f ps l l' :
  (forall g0, pinned l' g0 -> pinned l g0 \/ read_number READY f = Some g0) ->
  files_inv f ps l -> files_inv f ps l'.
Proof.
  intros Hpin [Hg Hr Hp Hi]. split; [done|done| |].
  - intros g0 [H|H]%Hpin; auto.
  - intros j (g & Hin & H1 & H2 & H3)%Hi. exists g. split_and!; [done..|].
    intros g0 [H|H]%Hpin; auto.
Qed.

Lemma publish_inv s i g cmd :
  ipc_inv s -> (0 <= i)%Z -> (0 < g)%Z -> Forall (fun p => p.2 < g)%Z (pubs s) ->
  ipc_inv (Ipc (fs s) (publish_ops i g cmd) (pubs s ++ [(i, g)]) (lua s) (active s) (events s)).
Proof.
  intros [Hpos Hsort Huniq Hph Hf Hret Hact Hev] Hi Hg Hlt. pose proof Hlt as Hall. rewrite Forall_forall in Hlt.
  split; cbn [fs todo pubs lua active events].
  - apply Forall_app. split; [done|]. by constructor.
  - intros ps p H. apply app_inj_tail in H as [<- <-]. exact Hall.
  - intros a b g' [Ha|Ha%list_elem_of_singleton]%elem_of_app [Hb|Hb%list_elem_of_singleton]%elem_of_app; [eauto|..].
    + injection Hb as -> ->. specialize (Hlt _ Ha). cbn in Hlt. lia.
    + injection Ha as -> ->. specialize (Hlt _ Hb). cbn in Hlt. lia.
    + congruence.
  - apply PhBegin; [done..|]. split; [apply elem_of_app; right; by apply list_elem_of_singleton|].
    apply Forall_app. split; [|by repeat constructor]. apply Forall_forall. intros p Hp.
    specialize (Hlt _ Hp). lia.
  - by apply files_inv_pub.
  - intros x Hx. apply not_older_app. auto.
  - by apply good_app.
  - eapply Forall_impl; [exact Hev|]. intros x. apply good_app.
Qed.

Lemma ipc_inv_step s s' : ipc_inv s -> ipc_step s s' -> ipc_inv s'.
Proof.
  intros Hinv Hstep. pose proof Hinv as [Hpos Hsort Huniq Hph Hf Hret Hact Hev].
  destruct Hstep as [s i g cmd Ht Hi Hg Hlt|s Ht|s op rest Ht|s|s Hl|s r Hl|s g Hl|s r Hl|s|s|s].
  - by apply publish_inv.
  - split; cbn; try done. apply PhClear. by repeat constructor.
  - rewrite Ht in Hph. destruct (replace_inv _ _ _ _ _ Hph Hf). by split.
  - split; cbn; try done. by apply PhClear.
  - split; cbn; try done.
    + eapply files_inv_read; [|exact Hf]. intros g0. destruct (read_number READY (fs s)); [|by intros [?|?]].
      intros [[= ->]|?]; [by right|done].
    + intros x. by destruct (read_number READY (fs s)).
  - split; cbn; try done.
    + eapply files_inv_read; [|exact Hf]. intros g0. case_bool_decide; [|by intros [?|?]].
      intros [?|[= ->]]; [done|]. left. by left.
    + intros x. by case_bool_decide.
  - split; cbn; try done.
    + eapply files_inv_read; [|exact Hf]. by intros g0 [?|?].
    + intros x Hx. injection Hx as Hx. destruct (read_number ID (fs s)) as [i|] eqn:E; [|done].
      injection Hx as <-. destruct Hf as [_ _ Hpin Hid]. destruct (Hid _ E) as (g' & Hin & _ & _ & H3).
      assert (Hp : pinned (lua s) g) by by right. split; [by apply Hpin|]. exists g'. auto.
  - split; cbn; try done.
    + eapply files_inv_read; [|exact Hf]. by intros g0 [?|?].
    + destruct r as [x|]; [right; by apply Hret|done].
  - split; cbn; try done. apply Forall_app. split; [done|]. by constructor.
  - split; cbn; try done.
  - split; cbn; try done; [|by left]. eapply files_inv_read; [|exact Hf]. by intros g0 [?|?].
Qed.

Lemma ipc_inv_start : ipc_inv ipc_start.
Proof.
  split; cbn; [constructor|by intros [|]|by intros ? ? ? ?%not_elem_of_nil|by apply PhClear| |done|by left|constructor].
  split; try done. intros g0 [?|?]; done.
Qed.

Lemma ipc_reachable_inv s : ipc_reachable s -> ipc_inv s.
Proof.
  intros H. cut (forall a b, rtc ipc_step a b -> ipc_inv a -> ipc_inv b).
  - intros Hc. eapply Hc; [exact H|apply ipc_inv_start].
  - induction 1; eauto using ipc_inv_step.
Qed.

(** *** What the protocol guarantees *)

(** C12. However the reads of [bs_read_strategy_ipc] interleave with publishes, broken-off publishes
    and resets, the id it returns is never older than the generation it returns: the generation was
    published, and the id belongs to that publish or to a later one. *)
Theorem fence_never_stale s i g :
  ipc_reachable s -> lua s = Returned (Some (i, g)) ->
  known (pubs s) g /\ exists g', (i, g') ∈ pubs s /\ (g <= g')%Z.
Proof. intros [_ _ _ _ _ Hret _ _]%ipc_reachable_inv Hl. apply (Hret _ Hl). Qed.

(** When the generation file still holds the generation that the reader has seen, the id it
    reads is the one that was published with it: only a publish that commits between the last two
    reads can make them differ. *)
Theorem fence_exact s i g :
  ipc_reachable s -> lua s = GotGen g -> read_number GEN (fs s) = Some g -> read_number ID (fs s) = Some i ->
  (i, g) ∈ pubs s.
Proof.
  intros [_ _ _ _ Hf _ _ _]%ipc_reachable_inv Hl Hgen Hid. destruct Hf as [_ _ _ Hi].
  destruct (Hi _ Hid) as (g' & Hin & _ & H2 & H3).
  assert (g' = g) as ->; [|done]. specialize (H2 _ Hgen). specialize (H3 g). rewrite Hl in H3.
  assert (g <= g')%Z by (apply H3; by right). lia.
Qed.

(** The filter of [drain_events] is sound: while the publish of strategy [i] with generation [g]
    is the last one, every event in the log that is accepted for it carries the id [i], also when
    the reader was overtaken by the publisher. *)
Theorem drain_sound s ps i g e :
  ipc_reachable s -> pubs s = (ps ++ [(i, g)])%list ->
  e ∈ events s -> accepted g (Some i) e.2 e.1 = true -> e.1 = i.
Proof.
  intros [Hpos Hsort Huniq _ _ _ _ Hev]%ipc_reachable_inv Hps He Hacc. pose proof (Hsort _ _ Hps) as Hlt. unfold accepted in Hacc.
  apply orb_true_iff in Hacc as [Hge%Z.leb_le|Hid%Z.eqb_eq]; [|done].
  rewrite Forall_forall in Hev, Hpos. assert (Hi : (i, g) ∈ pubs s).
  { rewrite Hps. apply elem_of_app. right. by apply list_elem_of_singleton. }
  destruct (Hev _ He) as [->|(Hk & g' & Hg' & Hle)].
  - specialize (Hpos _ Hi). cbn in *. lia.
  - assert (g' = g) as ->; [|by eapply Huniq]. rewrite Hps in Hg'.
    apply elem_of_app in Hg' as [Hin|Hin%list_elem_of_singleton]; [|by injection Hin].
    rewrite Forall_forall in Hlt. specialize (Hlt _ Hin). cbn in Hlt. lia.
Qed.

(** *** Executions *)

Inductive move : Type :=
  | MPublish (i g : Z) | MSetup | MReplace | MReadReady | MReadGen | MReadId | MAdopt | MEvent.

Definition exec_move (m : move) (s : ipc) : option ipc :=
  match m with
  | MPublish i g =>
      if bool_decide (todo s = [] /\ 0 <= i /\ 0 < g /\ Forall (fun p => p.2 < g) (pubs s))%Z
      then Some (Ipc (fs s) (publish_ops i g None) (pubs s ++ [(i, g)]) (lua s) (active s) (events s)) else None
  | MSetup => if bool_decide (todo s = []) then Some (Ipc (fs s) init_ops (pubs s) (lua s) (active s) (events s)) else None
  | MReplace =>
      match todo s with
      | op :: rest => Some (Ipc (apply_op op (fs s)) rest (pubs s) (lua s) (active s) (events s)) | [] => None end
  | MReadReady =>
      match lua s with
      | Away => Some (Ipc (fs s) (todo s) (pubs s)
          match read_number READY (fs s) with Some r => GotReady r | None => Returned None end (active s) (events s))
      | _ => None end
  | MReadGen =>
      match lua s with
      | GotReady r => Some (Ipc (fs s) (todo s) (pubs s)
          (if bool_decide (read_number GEN (fs s) = Some r) then GotGen r else Returned None) (active s) (events s))
      | _ => None end
  | MReadId =>
      match lua s with
      | GotGen g => Some (Ipc (fs s) (todo s) (pubs s)
          (Returned ((fun i => (i, g)) <$> read_number ID (fs s))) (active s) (events s))
      | _ => None end
  | MAdopt =>
      match lua s with
      | Returned r => Some (Ipc (fs s) (todo s) (pubs s) Away (default (active s) r) (events s)) | _ => None end
  | MEvent => Some (Ipc (fs s) (todo s) (pubs s) (lua s) (active s) (events s ++ [active s]))
  end.

Fixpoint exec_moves (ms : list move) (s : ipc) : option ipc :=
  match ms with [] => Some s | m :: ms => s ← exec_move m s; exec_moves ms s end.

Lemma exec_move_step m s s' : exec_move m s = Some s' -> ipc_step s s'.
Proof.
  destruct m; cbn [exec_move]; intros H.
  - case_bool_decide as Hc; [|done]. injection H as <-. destruct Hc as (? & ? & ? & ?). by constructor.
  - case_bool_decide; [|done]. injection H as <-. by constructor.
  - destruct (todo s) as [|op rest] eqn:E; [done|]. injection H as <-. by constructor.
  - destruct (lua s) eqn:E; try done. injection H as <-. by constructor.
  - destruct (lua s) eqn:E; try done. injection H as <-. by constructor.
  - destruct (lua s) eqn:E; try done. injection H as <-. by constructor.
  - destruct (lua s) eqn:E; try done. injection H as <-. by constructor.
  - injection H as <-. constructor.
Qed.

Lemma exec_moves_reachable ms s s' : ipc_reachable s -> exec_moves ms s = Some s' -> ipc_reachable s'.
Proof.
  revert s. induction ms as [|m ms IH]; intros s Hs; cbn [exec_moves]; [by intros [= <-]|].
  intros (s1 & H1 & H2)%bind_Some. eapply IH; [|exact H2]. eapply rtc_r; [exact Hs|]. by eapply exec_move_step.
Qed.

(** The publisher overtakes the reader between its last two reads. *)
Definition overtaken : list move :=
  [MPublish 1 1; MReplace; MReplace; MReplace; MReadReady; MReadGen;
   MPublish 2 2; MReplace; MReplace; MReadId].

(** The fence does not exclude split reads: a reader that was overtaken returns the new id with
    the old generation, and the next event carries both. *)
Theorem split_read_possible : exists s, ipc_reachable s /\ pubs s = [(1, 1); (2, 2)]%Z /\
  lua s = Returned (Some (2, 1)%Z).
Proof.
  destruct (exec_moves overtaken ipc_start) as [s|] eqn:E; [|by vm_compute in E].
  exists s. split; [eapply exec_moves_reachable; [apply rtc_refl|exact E]|].
  vm_compute in E. injection E as <-. done.
Qed.

(** ** From Lua to Python *)

Definition escaped_char (c : ascii) : string :=
  if Ascii.eqb c "\" then "\\" else if Ascii.eqb c dquote then "\" +:+ String dquote EmptyString
  else if Ascii.eqb c (ascii_of_N 10) then "\n" else String c EmptyString.

Lemma json_escape_cons c s : bs_json_escape (String c s) = escaped_char c +:+ bs_json_escape s.
Proof.
  unfold bs_json_escape, escaped_char. cbn [subst_char].
  destruct (Ascii.eqb_spec c "\") as [->|Hb]; [reflexivity|]. rewrite (append_cons c), append_nil_l. cbn [subst_char].
  destruct (Ascii.eqb_spec c dquote) as [->|Hq]; [reflexivity|]. rewrite (append_cons c), append_nil_l. reflexivity.
Qed.

(** The texts that [bs_json_escape] is enough for: no control character except line breaks. *)
Definition lua_char (c : ascii) : bool := (32 <=? N_of_ascii c)%N || Ascii.eqb c (ascii_of_N 10).

Lemma str_body_escaped s rest :
  sforall lua_char s = true -> str_body (bs_json_escape s +:+ String dquote rest) = Ret (s, rest).
Proof.
  induction s as [|c s IH]; [reflexivity|]. cbn [sforall]. intros [Hc Hs]%andb_true_iff.
  rewrite json_escape_cons, append_assoc. unfold escaped_char.
  destruct (Ascii.eqb_spec c "\") as [->|Hb].
  { transitivity (push "\" (str_body (bs_json_escape s +:+ String dquote rest))); [reflexivity|]. by rewrite IH. }
  destruct (Ascii.eqb_spec c dquote) as [->|Hq].
  { transitivity (push dquote (str_body (bs_json_escape s +:+ String dquote rest))); [reflexivity|]. by rewrite IH. }
  destruct (Ascii.eqb_spec c (ascii_of_N 10)) as [->|Hn].
  { transitivity (push (ascii_of_N 10) (str_body (bs_json_escape s +:+ String dquote rest))); [reflexivity|]. by rewrite IH. }
  rewrite append_cons, append_nil_l. cbn [str_body]. apply Ascii.eqb_neq in Hb, Hq, Hn. rewrite Hq, Hb.
  unfold lua_char in Hc. rewrite Hn, orb_false_r in Hc.
  assert ((N_of_ascii c <? 32)%N = false) as -> by (apply N.ltb_ge; by apply N.leb_le). by rewrite IH.
Qed.

Definition lua_json (v : lua_val) : json :=
  match v with LNum z => JInt z | LBool b => JBool b | LStr s => JStr s end.
Definition lua_text (v : lua_val) : string :=
  match v with LNum z => str_of_Z z | LBool b => if b then "true" else "false" | LStr s => q (bs_json_escape s) end.
Definition writable (kv : string * lua_val) : Prop :=
  sforall plain_char kv.1 = true /\
  match kv.2 with LNum z => (0 <= z)%Z | LBool _ => True | LStr s => sforall lua_char s = true end.

Definition lua_field (kv : string * lua_val) : field := (kv.1, (lua_text kv.2, lua_json kv.2)).
Definition lua_dict (fields : list (string * lua_val)) : list (string * json) := prod_map id lua_json <$> fields.

Lemma lua_field_ok kv : writable kv -> field_ok (lua_field kv).
Proof.
  destruct kv as [k v]. intros [Hk Hv]. split; [done|]. cbn [lua_field fst snd] in *. destruct v as [z|b|s].
  - by apply prints_nat.
  - apply prints_bool.
  - apply prints_string. intros rest. by apply str_body_escaped.
Qed.

(** The line without its break. *)
Definition ipc_body (fields : list (string * lua_val)) : string :=
  "{" +:+ join "," (field_text <$> (lua_field <$> fields)) +:+ "}".

Lemma bs_write_body fields : bs_write_ipc fields = ipc_body fields +:+ newline.
Proof.
  unfold bs_write_ipc, ipc_body. rewrite !append_assoc. do 2 f_equal.
  rewrite <- list_fmap_compose. reflexivity.
Qed.

Lemma loads_body fields : fields <> [] -> Forall writable fields -> NoDup fields.*1 ->
  json_loads (ipc_body fields) = Ret (JDict (lua_dict fields)).
Proof.
  intros Hne Hw Hnd. unfold ipc_body. rewrite loads_object.
  - do 2 f_equal. unfold lua_dict. rewrite <- list_fmap_compose. apply list_fmap_ext. by intros ? [k v] _.
  - by destruct fields.
  - apply Forall_fmap. eapply Forall_impl; [exact Hw|]. intros kv. apply lua_field_ok.
  - rewrite <- list_fmap_compose. erewrite list_fmap_ext; [exact Hnd|]. by intros ? [k v] _.
Qed.

Lemma strip_body fields : strip (ipc_body fields) = ipc_body fields /\ nonempty (ipc_body fields) = true.
Proof.
  unfold ipc_body. rewrite append_cons, append_nil_l. split; [|done]. by apply strip_fix.
Qed.

Lemma from_line_body fields : fields <> [] -> Forall writable fields -> NoDup fields.*1 ->
  from_line (ipc_body fields) = (e ← event_of_dict (lua_dict fields); Ret (Some e)).
Proof.
  intros Hne Hw Hnd. destruct (strip_body fields) as [Hs Hn]. unfold from_line. cbv zeta.
  rewrite Hs, Hn. cbn [negb]. by rewrite loads_body.
Qed.

(** A lookup does not depend on the order in which [pairs] yields the fields. *)
Lemma dget_perm {V} (d d' : list (string * V)) k : NoDup d.*1 -> d ≡ₚ d' -> dget k d = dget k d'.
Proof.
  intros Hnd Hp. assert (Hnd' : NoDup d'.*1) by (by rewrite <- Hp).
  apply option_eq. intros v. rewrite <- !elem_of_dict by done. by rewrite Hp.
Qed.

Lemma event_of_perm fields fields' : NoDup fields.*1 -> fields ≡ₚ fields' ->
  event_of_dict (lua_dict fields) = event_of_dict (lua_dict fields').
Proof.
  intros Hnd Hp.
  assert (Hd : forall k, dget k (lua_dict fields) = dget k (lua_dict fields')).
  { intros k. apply dget_perm; [|unfold lua_dict; by rewrite Hp].
    unfold lua_dict. rewrite <- list_fmap_compose. erewrite list_fmap_ext; [exact Hnd|]. by intros ? [? ?] _. }
  unfold event_of_dict, jget. by rewrite !Hd.
Qed.

Lemma event_of_applied i g m :
  event_of_dict (lua_dict (applied_fields i g m)) = Ret (Event "APPLIED" g i EmptyString 0 m).
Proof.
  unfold event_of_dict. set (d := lua_dict _).
  change (jget "event" d) with (JStr "APPLIED"). change (jget "gen" d) with (JInt g).
  change (jget "id" d) with (JInt i). change (jget "reason" d) with JNull. change (jget "ttl" d) with JNull.
  change (dget "matched" d) with (Some (JInt m)). by rewrite !int_roundtrip.
Qed.

(** The event that [scan_pick] writes is the event that Python reads, field by field, in
    whatever order [pairs] yields the fields: [APPLIED] with its id, its generation and its count. *)
Theorem applied_roundtrip fields i g m :
  (0 <= i)%Z -> (0 <= g)%Z -> (0 <= m)%Z -> fields ≡ₚ applied_fields i g m ->
  from_line (bs_write_ipc fields) = Ret (Some (Event "APPLIED" g i EmptyString 0 m)).
Proof.
  intros Hi Hg Hm Hp. pose proof (Permutation_sym Hp) as Hp'.
  assert (Hnd : NoDup (applied_fields i g m).*1) by (refine (bool_decide_unpack _ _); by vm_compute).
  assert (Hnd' : NoDup fields.*1) by (by rewrite Hp).
  assert (Hw : Forall writable fields) by (rewrite Hp; by repeat constructor).
  assert (Hne : fields <> []) by (intros ->; by apply Permutation_nil in Hp).
  assert (Hl : from_line (bs_write_ipc fields) = from_line (ipc_body fields)).
  { rewrite bs_write_body. unfold from_line. destruct (strip_body fields) as [Hs _].
    pose proof (strip_app_blank (ipc_body fields) newline eq_refl) as Ha. rewrite Hs in Ha. by rewrite Ha, Hs. }
  rewrite Hl, from_line_body by done. rewrite (event_of_perm _ _ Hnd' Hp).
  by rewrite event_of_applied.
Qed.

(** The lines of the log are the events that were written, one each. *)
Lemma splitlines_line w rest :
  sforall (fun c => negb (line_end c)) w = true -> splitlines (w +:+ newline +:+ rest) = w :: splitlines rest.
Proof.
  intros Hw. unfold splitlines.
  assert (H : forall cur, splitlines_from cur (w +:+ newline +:+ rest) = (cur +:+ w) :: splitlines_from EmptyString rest).
  { induction w as [|c w IH]; intros cur.
    - rewrite append_nil_l, append_nil_r. unfold newline. rewrite append_cons, append_nil_l. cbn [splitlines_from].
      change (line_end (ascii_of_N 10)) with true. cbv iota. destruct rest as [|d r]; [done|].
      change (Ascii.eqb (ascii_of_N 10) "013") with false. done.
    - cbn [sforall] in Hw. apply andb_true_iff in Hw as [Hc Hw]. apply negb_true_iff in Hc.
      rewrite append_cons. cbn [splitlines_from]. rewrite Hc, IH by done.
      by rewrite append_assoc, append_cons, append_nil_l. }
  by rewrite H, append_nil_l.
Qed.

Definition applied_event (x : Z * Z * Z) : BridgeEvent :=
  let '(i, g, m) := x in Event "APPLIED" g i EmptyString 0 m.

Lemma applied_no_break i g m : (0 <= i)%Z -> (0 <= g)%Z -> (0 <= m)%Z ->
  sforall (fun c => negb (line_end c)) (ipc_body (applied_fields i g m)) = true.
Proof.
  intros Hi Hg Hm.
  assert (Hnum : forall z, (0 <= z)%Z -> sforall (fun c => negb (line_end c)) (str_of_Z z) = true).
  { intros z Hz. destruct (str_of_Z_nonneg z Hz) as [Hd _]. apply andb_true_iff in Hd as [_ Hd].
    eapply sforall_impl; [|exact Hd]. intros c. by destruct c as [[] [] [] [] [] [] [] []]. }
  unfold ipc_body, applied_fields. cbn [fmap list_fmap join]. unfold lua_field, field_text. cbn [fst snd lua_text].
  rewrite !sforall_append, !Hnum by done. reflexivity.
Qed.


(** ** Witnesses *)

Lemma publish_read_witness : bs_read_strategy_ipc (apply_ops (publish_ops 3 7 (Some "x ")) ∅) = Some (3, 7)%Z.
Proof. apply publish_read; lia. Defined.

Lemma publish_intermediate_witness :
  bs_read_strategy_ipc (apply_ops (take 2 (publish_ops 4 8 None)) (apply_ops (publish_ops 3 7 None) ∅)) = None.
Proof.
  apply publish_intermediate; [lia| |cbn; lia].
  assert (read_number READY (apply_ops (publish_ops 3 7 None) ∅) = Some 7%Z) as -> by reflexivity. done.
Defined.

Lemma reachable_exec ms s : exec_moves ms ipc_start = Some s -> ipc_reachable s.
Proof. apply exec_moves_reachable, rtc_refl. Qed.

(** The state after some moves; the start when a move is not possible. *)
Definition after (ms : list move) : ipc := default ipc_start (exec_moves ms ipc_start).

Lemma after_reachable ms : ipc_reachable (after ms).
Proof.
  unfold after. destruct (exec_moves ms ipc_start) as [s|] eqn:E; [by apply reachable_exec in E|apply rtc_refl].
Qed.

Lemma fence_never_stale_witness :
  known (pubs (after overtaken)) 1 /\ exists g', (2, g')%Z ∈ pubs (after overtaken) /\ (1 <= g')%Z.
Proof.
  apply (fence_never_stale _ 2 1); [apply after_reachable|]. vm_compute. reflexivity.
Defined.

Definition seen : list move := [MPublish 1 1; MReplace; MReplace; MReplace; MReadReady; MReadGen].

Lemma fence_exact_witness : (1, 1)%Z ∈ pubs (after seen).
Proof. apply fence_exact; [apply after_reachable|vm_compute; reflexivity..]. Defined.

Lemma drain_sound_witness : (2, 1)%Z.1 = 2%Z.
Proof.
  apply (drain_sound (after (overtaken ++ [MAdopt; MEvent])) [(1, 1)%Z] 2 2 (2, 1)%Z);
    [apply after_reachable|vm_compute; reflexivity| |done].
  assert (events (after (overtaken ++ [MAdopt; MEvent])) = [(2, 1)%Z]) as -> by (vm_compute; reflexivity).
  by left.
Defined.

Lemma applied_roundtrip_witness :
  from_line (bs_write_ipc [("matched", LNum 2); ("gen", LNum 5); ("id", LNum 1); ("event", LStr "APPLIED")]) =
  Ret (Some (Event "APPLIED" 5 1 EmptyString 0 2)).
Proof.
  apply applied_roundtrip; [lia..|]. symmetry. exact (Permutation_rev (applied_fields 1 5 2)).
Defined.

