(* ===== verification/LuaConf.v ===== *)
(** * The configuration of a bridge batch: [service/lua_conf.py]

    The options of the daemon that [scan_pick] drives: the strategies of a batch, each with the
    number under which the bridge publishes it. Copying the Lua scripts is left out: [staged] are the
    paths that [stage_blockchecks_lua] returns. How nfqws2 reads the arguments of an instance is not
    code of the program; what the bridge relies on is stated in [ReadsStrategy]. *)

From stdpp Require Import base numbers list strings gmap.
From Stdlib Require Import ZArith Lia Ascii.
From S2P Require Import Prelude PyStr PyRe PyDict PyJson BlobAliases ConfBuilder BridgeIpc.

#[local] Open Scope string_scope.

(** ** Lines *)

Definition strategy_tag (n : Z) : string := ":strategy=" +:+ str_of_Z n.

(** What [_append_strategy_desyncs] appends for one line of a strategy. *)
Definition raw_line_options (n : Z) (raw : string) : list string :=
  let raw := strip raw in
  if negb (nonempty raw) then []
  else if startswith "--" raw then sanitize_arg_for_conf <$> split_cli_args raw
  else [LUA_DESYNC +:+ escape_conf_lt (if contains ":strategy=" raw then raw else raw +:+ strategy_tag n)].

Definition _append_strategy_desyncs (strategy : string) (n : Z) : list string :=
  raw ← split_char (ascii_of_N 10) strategy; raw_line_options n raw.

Fixpoint number_strategies (i : Z) (strategies : list string) : list string :=
  match strategies with
  | [] => []
  | s :: l => (_append_strategy_desyncs s i ++ number_strategies (i + 1) l)%list
  end.

Section Bridge.
Context {FS : FileSys} (dirs : BlobDirs) (env : ConfEnv).

Definition orchestrators : list string :=
  String.append LUA_DESYNC <$> ["bs_poll_strategy"; "smart_fallback"; "scan_pick"].

(** The lines of the configuration before those of the strategies, and the renamed blobs. *)
Definition bridge_head (strategies : list string) (ipc_dir protocol : string) (staged : list string)
    : list string * list (string * string) :=
  let lines := (["--writable=" +:+ ipc_dir]
    ++ (String.append "--lua-init=@" <$> filter (fun l => isfile l = true) (lua_init_scripts env))
    ++ (String.append "--lua-init=@" <$> staged)
    ++ build_filter_lines env protocol
    ++ orchestrators)%list in
  append_blob_cli_lines dirs lines (s ← strategies; extract_blob_names [s]) (Some (BLOB_DIR dirs)) [].

Definition build_bridge_conf (strategies : list string) (ipc_dir protocol : string) (staged : list string) : string :=
  let '(lines, renames) := bridge_head strategies ipc_dir protocol staged in
  join newline (lines ++ number_strategies 1 ((fun s => apply_blob_renames s renames) <$> strategies))%list +:+ newline.
End Bridge.

(** ** Which instances run for an id *)

(** The cores of a strategy: its lines that are not options. *)
Definition cores (strategy : string) : list string :=
  filter (fun c => nonempty c = true) (strip <$> split_char (ascii_of_N 10) strategy).

(** A strategy of cores that leave the number to the bridge. *)
Definition unnumbered (strategy : string) : Prop :=
  Forall (fun c => startswith "--" c = false /\ contains ":strategy=" c = false) (cores strategy).

(** What the bridge relies on: nfqws2 gives an instance the argument [strategy] that ends its core,
    as a number. *)
Class ReadsStrategy (arg_strategy : string -> option Z) : Prop :=
  reads_strategy core n : contains ":strategy=" core = false -> (0 <= n)%Z ->
    arg_strategy (escape_conf_lt (core +:+ strategy_tag n)) = Some n.

(** The instances of the plan: the Lua desync options, by the text after the option. *)
Definition plan_of (lines : list string) : list string :=
  desync_core <$> filter (fun l => startswith LUA_DESYNC l = true) lines.

Lemma options_cores n strategy : unnumbered strategy ->
  _append_strategy_desyncs strategy n = (fun c => LUA_DESYNC +:+ escape_conf_lt (c +:+ strategy_tag n)) <$> cores strategy.
Proof.
  unfold unnumbered, _append_strategy_desyncs, cores. induction (split_char _ strategy) as [|raw l IH]; [done|].
  rewrite fmap_cons, filter_cons. cbn [mbind list_bind]. unfold raw_line_options at 1. cbv zeta.
  case_decide as E.
  - rewrite E. cbn [negb]. intros [[Hd Hm] Hl]%Forall_cons. rewrite Hd, Hm, fmap_cons, IH by done. done.
  - apply not_true_iff_false in E. rewrite E. cbn [negb]. intros Hl. by rewrite IH.
Qed.

Lemma plan_app a b : plan_of (a ++ b) = (plan_of a ++ plan_of b)%list.
Proof. unfold plan_of. by rewrite filter_app, fmap_app. Qed.

Lemma plan_options n strategy : unnumbered strategy ->
  plan_of (_append_strategy_desyncs strategy n) = (fun c => escape_conf_lt (c +:+ strategy_tag n)) <$> cores strategy.
Proof.
  intros Hu. rewrite options_cores by done. unfold plan_of. induction (cores strategy) as [|c l IH]; [done|].
  rewrite !fmap_cons, filter_cons, decide_True, fmap_cons by apply startswith_app. f_equal. exact IH.
Qed.

Section Numbers.
Context (arg_strategy : string -> option Z) {HR : ReadsStrategy arg_strategy}.

Lemma matched_app i a b :
  (scan_matched i (a ++ b) = scan_matched i a + scan_matched i b)%Z.
Proof. unfold scan_matched. rewrite filter_app, length_app. lia. Qed.

Lemma matched_strategy i n strategy : (0 <= n)%Z -> unnumbered strategy ->
  scan_matched i (arg_strategy <$> plan_of (_append_strategy_desyncs strategy n)) =
  if Z.eqb i n then Z.of_nat (length (cores strategy)) else 0%Z.
Proof.
  intros Hn Hu. rewrite plan_options by done. rewrite <- list_fmap_compose.
  unfold unnumbered in Hu. unfold scan_matched. induction Hu as [|c l [_ Hc] _ IH]; [by destruct (Z.eqb i n)|].
  rewrite fmap_cons, filter_cons. pose proof (reads_strategy c n Hc Hn) as Hr.
  destruct (Z.eqb_spec i n) as [->|Hne].
  - rewrite decide_True by done. cbn [length]. lia.
  - rewrite decide_False; [done|]. unfold compose. rewrite Hr. congruence.
Qed.

Lemma matched_below strategies i k :
  (i < k)%Z -> (0 <= k)%Z -> Forall unnumbered strategies ->
  scan_matched i (arg_strategy <$> plan_of (number_strategies k strategies)) = 0%Z.
Proof.
  intros Hi Hk Hu. revert k Hi Hk. induction Hu as [|s l Hs _ IH]; intros k Hi Hk; [done|].
  cbn [number_strategies]. rewrite plan_app, fmap_app, matched_app, matched_strategy, IH by (done || lia).
  destruct (Z.eqb_spec i k); lia.
Qed.

Lemma matched_numbered strategies i k :
  (0 <= k)%Z -> Forall unnumbered strategies ->
  scan_matched (k + Z.of_nat i) (arg_strategy <$> plan_of (number_strategies k strategies)) =
  match strategies !! i with Some s => Z.of_nat (length (cores s)) | None => 0%Z end.
Proof.
  intros Hk Hu. revert i k Hk. induction Hu as [|s l Hs Hl IH]; intros i k Hk; [done|].
  cbn [number_strategies]. rewrite plan_app, fmap_app, matched_app, matched_strategy by done.
  destruct i as [|i].
  - rewrite Z.add_0_r, Z.eqb_refl, matched_below by (done || lia). cbn [lookup list_lookup]. lia.
  - replace (k + Z.of_nat (S i))%Z with (k + 1 + Z.of_nat i)%Z by lia. rewrite IH by lia.
    destruct (Z.eqb_spec (k + 1 + Z.of_nat i) k); [lia|done].
Qed.

(** The id that the bridge publishes selects exactly the strategy of that position: for
    strategies that carry no number of their own, the instances of the batch that run for the id
    [i + 1] are as many as the cores of the strategy at index [i], and an id beyond the batch runs
    nothing. *)
Theorem bridge_runs_published strategies i :
  Forall unnumbered strategies ->
  scan_matched (1 + Z.of_nat i) (arg_strategy <$> plan_of (number_strategies 1 strategies)) =
  match strategies !! i with Some s => Z.of_nat (length (cores s)) | None => 0%Z end.
Proof. by apply matched_numbered. Qed.
End Numbers.

(** ** A reader of the argument *)

(** The number after the last [:strategy=] of the text. *)
Fixpoint last_number (s : string) : option Z :=
  match s with
  | EmptyString => None
  | String _ s' =>
      match last_number s' with
      | Some n => Some n
      | None => if startswith ":strategy=" s && isdigit (sdrop 10 s) then Some (digits_val 0 (sdrop 10 s)) else None
      end
  end.

Lemma last_number_digits ds : sforall is_digit ds = true -> last_number ds = None.
Proof.
  induction ds as [|c ds IH]; [done|]. cbn [sforall]. intros [Hc Hd]%andb_true_iff. cbn [last_number].
  rewrite IH by done. destruct c as [[] [] [] [] [] [] [] []]; done.
Qed.

Lemma last_number_tag n : (0 <= n)%Z -> last_number (strategy_tag n) = Some n.
Proof.
  intros Hn. destruct (str_of_Z_nonneg n Hn) as [Hd Hv]. pose proof Hd as [_ Hdig]%andb_true_iff.
  unfold strategy_tag. rewrite !append_cons, append_nil_l. cbn -[str_of_Z is_digit isdigit].
  rewrite last_number_digits by done. cbn -[str_of_Z isdigit]. by rewrite Hd, Hv.
Qed.

Lemma last_number_app u s n : last_number s = Some n -> last_number (u +:+ s) = Some n.
Proof. intros H. induction u as [|c u IH]; [done|]. rewrite append_cons. cbn [last_number]. by rewrite IH. Qed.

#[export] Instance last_number_reads : ReadsStrategy last_number.
Proof.
  intros core n _ Hn. rewrite escape_app. apply last_number_app. rewrite escape_id; [by apply last_number_tag|].
  unfold strategy_tag. rewrite sforall_append. destruct (str_of_Z_nonneg n Hn) as [[_ Hd]%andb_true_iff _].
  apply andb_true_iff. split; [done|]. eapply sforall_impl; [|exact Hd]. intros c.
  by destruct c as [[] [] [] [] [] [] [] []].
Qed.

Lemma bridge_runs_published_witness :
  scan_matched 2 (last_number <$> plan_of (number_strategies 1 ["drop"; join newline ["fake:x"; "send"]])) = 2%Z.
Proof. apply (bridge_runs_published last_number ["drop"; join newline ["fake:x"; "send"]] 1). repeat constructor. Defined.

(** A core that brings its own number, as the exported configurations have them, keeps it: it does
    not run for the id of its strategy, but for another one. *)
Lemma own_number_kept :
  plan_of (number_strategies 1 ["drop"; "fake:x:strategy=1"]) = ["drop:strategy=1"; "fake:x:strategy=1"] /\
  scan_matched 2 (last_number <$> plan_of (number_strategies 1 ["drop"; "fake:x:strategy=1"])) = 0%Z /\
  scan_matched 1 (last_number <$> plan_of (number_strategies 1 ["drop"; "fake:x:strategy=1"])) = 2%Z.
Proof. split_and!; reflexivity. Qed.
