(* ===== verification/ProbeResult.v ===== *)
(** * Results of probes: [engine/probe_executors.py], [engine/probe_result_logger.py]

    The result that is built from the data of a curl probe, the row that is logged of it, and the
    interface [ResultMaker] against which the batch service is proved. *)

From stdpp Require Import base numbers list strings.
From Stdlib Require Import ZArith.
From S2P Require Import Prelude PyExn PyFloat PyStr PyDict PyJson FailPhase Families Weights BridgePool.

#[local] Open Scope string_scope.

(** A dict that a probe returns. *)
Definition data : Type := list (string * json).

(** What builds a result from the data of a probe: the result is about the item and the domain. *)
Class ResultMaker : Type := {
  tcp_result_from_data : StrategyItem -> string -> data -> res TcpTestResult;
  result_about it dom d r : tcp_result_from_data it dom d = Done r -> r_item r = it /\ r_domain r = dom
}.

(** ** Reading the fields *)

(** [data.get(k, default)], kept as it comes; the model holds the annotated type only. *)
Definition bool_field (k : string) (v : bool) (d : data) : res bool :=
  match dget k d with None => Done v | Some (JBool b) => Done b | Some _ => Off end.
Definition int_field (k : string) (v : Z) (d : data) : res Z :=
  match dget k d with None => Done v | Some (JInt z) => Done z | Some _ => Off end.
(** An integer is kept as the float that is equal to it. *)
Definition float_field (k : string) (d : data) : res float :=
  match dget k d with None => Done f_zero | Some (JInt z) => Done (f_of_Z z) | Some (JFloat f) => Done f | Some _ => Off end.
(** [data.get(k) or ""] *)
Definition str_field (k : string) (d : data) : res string :=
  let v := jget k d in if truthy v then match v with JStr s => Done s | _ => Off end else Done EmptyString.

(** The data of a probe that was not made. *)
Definition fail_data (error : string) (batch_id : Z) : data :=
  [("success", JBool false); ("error", JStr error); ("batch_id", JInt batch_id)].

Section Executor.
(** The text of the exception of a conversion that fails. *)
Context (conversion_error : data -> string).

Definition raised (d : data) {A} (o : outcome A) : res A :=
  match o with Ret a => Done a | Raise => Exn (Error (conversion_error d)) | Beyond => Off end.

Definition result_phase (d : data) (ok : bool) (err : string) (code : Z) : res string :=
  if get_bool "bridge_rst_in" d && negb ok then Done (value TLS_RST_AT_SNI)
  else if nonempty err && negb ok then
    match classify_fail_phase err code with
    | Some p => Done (value p)
    | None => Exn (Error (conversion_error d))
    end
  else Done EmptyString.

Definition result_from_data (it : StrategyItem) (dom : string) (d : data) : res TcpTestResult :=
  ok ← bool_field "success" false d;
  code ← int_field "http_code" 0 d;
  latency ← float_field "latency_ms" d;
  len ← int_field "content_len" 0 d;
  valid ← bool_field "content_ok" true d;
  throttled ← bool_field "throttled" false d;
  rate ← float_field "read_rate_bps" d;
  err ← str_field "error" d;
  ip ← str_field "used_ip" d;
  host ← str_field "resolve_name" d;
  ttl ← raised d (int_or_0 (jget "bridge_rst_in_ttl" d));
  let applied := match jget "bridge_applied" d with JNull => None | v => Some (truthy v) end in
  batch ← raised d (int_or_0 (jget "batch_id" d));
  gen ← raised d (int_or_0 (jget "bridge_gen" d));
  phase ← result_phase d ok err code;
  mret (TcpResult it dom ok code latency None len valid throttled rate err ip host phase ttl applied batch gen).

Lemma result_from_data_inv it dom d r :
  result_from_data it dom d = Done r ->
  r_item r = it /\ r_domain r = dom /\ str_field "error" d = Done (error r) /\
  bool_field "success" false d = Done (success r) /\
  bridge_applied r = match jget "bridge_applied" d with JNull => None | v => Some (truthy v) end /\
  raised d (int_or_0 (jget "batch_id" d)) = Done (bridge_batch_id r) /\
  result_phase d (success r) (error r) (http_code r) = Done (fail_phase r).
Proof.
  unfold result_from_data. intros H.
  repeat match type of H with
  | mbind _ ?x = Done _ => let E := fresh "E" in destruct x eqn:E; cbn [mbind res_bind] in H; [|done|done]
  | (let v := _ in _) = Done _ => cbv zeta in H
  end.
  injection H as <-. by split_and!.
Qed.

(** Without a value there is a conversion that failed, never a cancellation. *)
Lemma bind_no_cancel {A B} (x : res A) (f : A -> res B) :
  x <> Exn Cancelled -> (forall a, f a <> Exn Cancelled) -> x ≫= f <> Exn Cancelled.
Proof. intros Hx Hf. destruct x as [a|e|]; cbn; [apply Hf|by intros [= ->]|done]. Qed.

Lemma bool_field_no_cancel k v d : bool_field k v d <> Exn Cancelled.
Proof. unfold bool_field. by destruct (dget k d) as [[]|]. Qed.
Lemma int_field_no_cancel k v d : int_field k v d <> Exn Cancelled.
Proof. unfold int_field. by destruct (dget k d) as [[]|]. Qed.
Lemma float_field_no_cancel k d : float_field k d <> Exn Cancelled.
Proof. unfold float_field. by destruct (dget k d) as [[]|]. Qed.
Lemma str_field_no_cancel k d : str_field k d <> Exn Cancelled.
Proof. unfold str_field. cbv zeta. destruct (truthy _); [by destruct (jget k d)|done]. Qed.
Lemma raised_no_cancel d {A} (o : outcome A) : raised d o <> Exn Cancelled.
Proof. by destruct o. Qed.
Lemma phase_no_cancel d ok err code : result_phase d ok err code <> Exn Cancelled.
Proof.
  unfold result_phase. destruct (_ && _); [done|]. destruct (_ && _); [|done]. by destruct (classify_fail_phase err code).
Qed.
#[local] Hint Resolve bool_field_no_cancel int_field_no_cancel float_field_no_cancel str_field_no_cancel
  raised_no_cancel phase_no_cancel : core.

Lemma result_no_cancel it dom d : result_from_data it dom d <> Exn Cancelled.
Proof. unfold result_from_data. cbv zeta. repeat (apply bind_no_cancel; [auto|intros ?]). done. Qed.

(** An error text has a phase. *)
Lemma classify_error_some err code : nonempty err = true -> exists p, classify_fail_phase err code = Some p.
Proof.
  intros H. unfold classify_fail_phase. rewrite H. cbn [negb].
  destruct (first_pattern err _PHASE_PATTERNS); eauto.
Qed.

Definition fail_result (it : StrategyItem) (dom : string) (error : string) (id : Z) : TcpTestResult :=
  TcpResult it dom false 0 f_zero None 0 true false f_zero error EmptyString EmptyString
    (if nonempty error then from_option value EmptyString (classify_fail_phase error 0) else EmptyString) 0 None id 0.

(** The data of a probe that was not made are always converted: a failure with its error, its phase and
    the batch. *)
Lemma fail_data_result it dom error id :
  result_from_data it dom (fail_data error id) = Done (fail_result it dom error id).
Proof.
  assert (He : str_field "error" (fail_data error id) = Done error).
  { unfold str_field, jget. cbn. by destruct error. }
  assert (Hid : raised (fail_data error id) (int_or_0 (jget "batch_id" (fail_data error id))) = Done id).
  { by destruct id. }
  assert (Hp : result_phase (fail_data error id) false error 0 =
    Done (if nonempty error then from_option value EmptyString (classify_fail_phase error 0) else EmptyString)).
  { unfold result_phase. cbn [get_bool jget dget]. cbn. destruct (nonempty error) eqn:En; cbn; [|done].
    by destruct (classify_error_some error 0 En) as [p ->]. }
  unfold result_from_data. rewrite He, Hid.
  transitivity (phase ← result_phase (fail_data error id) false error 0;
    Done (TcpResult it dom false 0 f_zero None 0 true false f_zero error EmptyString EmptyString phase 0 None id 0));
    [done|by rewrite Hp].
Qed.

#[export, program] Instance executor : ResultMaker := {| tcp_result_from_data := result_from_data |}.
Next Obligation. intros it dom d r H. by apply result_from_data_inv in H as (? & ? & _). Qed.
End Executor.

(** ** Rows *)

Definition NS_POOL_EXHAUSTED : string := "ns pool exhausted".
Definition PROBE_SKIP_ERRORS : list string := [STOPPED_BEFORE_PROBE; NS_POOL_EXHAUSTED].

Definition tcp_row_status (r : TcpTestResult) : string :=
  if bool_decide (error r ∈ PROBE_SKIP_ERRORS) then "SKIPPED"
  else if throttled r then "THROTTLED"
  else if success r then "PASS"
  else "FAIL".

Definition resolved_ip_for_log (used_ip : string) (resolved_ip : option string) : string :=
  if nonempty used_ip then used_ip else default EmptyString resolved_ip.

(** A result that no namespace was found for is logged as a skipped row, but accounted by the pool
    of workers as a probe that failed. *)
Lemma exhausted_is_accounted it dom :
  let r := tcp_result it dom false NS_POOL_EXHAUSTED in
  tcp_row_status r = "SKIPPED" /\ verdict_of r = Probed false r.
Proof. split; vm_compute; reflexivity. Qed.
