(* ===== verification/BatchService.v ===== *)
(** * The batch service: [service/batch_service.py], [service/batch_models.py]

    One batch of probes: a namespace is acquired, the daemon is booted and probed item by item with
    reboots on the way, the results are padded and logged, the namespace is released. The code runs
    in a monad of a world, a trace of its effects and exceptions; what the service only calls (the
    pool, the daemon, the curl worker, the store, the clock of the stop event) are functions of the
    world in [Deps], each free to fail. Timings, memory thresholds and log lines are left out. *)

From stdpp Require Import base numbers list strings gmap.
From Stdlib Require Import ZArith Lia.
From S2P Require Import Prelude PyExn PyFloat PyStr PyDict PyJson FailPhase Families Weights BridgePool ProbeResult.

#[local] Open Scope string_scope.

(** ** The monad *)

Definition dns_meta : Type := option string * string * string. (* ip, verdict, server *)

Inductive effect : Type :=
  | EAcquired (ns : string) | EReleased (ns : string)
  | EBoot | EShutdown
  | EProbe (idx : Z) (gen : Z) (it : StrategyItem) (dom : string)
  | ELog (it : StrategyItem) (dom : string) (r : TcpTestResult) (dns : dns_meta)
  | ELeft (rest : list effect).  (* the thread is left to itself: [rest] is what it still does, mixed with what follows *)

(** When a cancellation meets the batch that awaits its thread: never, before an executor has started the thread, or
    when the thread has had so many of its effects. *)
Inductive cancellation : Type := Undisturbed | Unstarted | Amid (k : nat).

Definition M (W : Type) : Type -> Type := X (W * list effect).

Definition call {W A} (f : W -> res A * W) : M W A := fun '(w, tr) => let '(r, w) := f w in (r, (w, tr)).
Definition ask {W A} (f : W -> A * W) : M W A := fun '(w, tr) => let '(a, w) := f w in (Done a, (w, tr)).
Definition emit {W} (e : effect) : M W unit := fun '(w, tr) => (Done tt, (w, tr ++ [e])%list).

(** ** Contexts *)

Record BatchContext : Type := Ctx {
  ctx_items : list StrategyItem; ctx_domain : string; ctx_batch_id : Z; ctx_protocol : string;
  ctx_domains : option (list string)
}.

Definition item_domains (c : BatchContext) : res (list string) :=
  match ctx_domains c with
  | Some ds => if Nat.eqb (length ds) (length (ctx_items c)) then Done ds
               else Exn (Error "domains length != items length")
  | None => Done (replicate (length (ctx_items c)) (ctx_domain c))
  end.

Record BatchProbeResult : Type := BatchResult { br_results : list TcpTestResult; br_backend : string }.

Record Deps (W : Type) : Type := {
  acquire_ns : W -> option (res string) * W;               (* None: TimeoutError of wait_for *)
  release_ns : string -> W -> res unit * W;
  resolve_domain_dns : string -> W -> res dns_meta * W;
  resolve_domain_ips : string -> W -> res (list string) * W;
  stop_is_set : W -> bool * W;                             (* stop_event is not None and stop_event.is_set() *)
  log_tcp_result : StrategyItem -> string -> TcpTestResult -> dns_meta -> W -> res unit * W;
  next_probe_gen : W -> Z * W;
  secure_dns : bool;
  cancel_arrives : W -> cancellation * W;                  (* a cancellation while the thread is awaited *)
  strategy_text : StrategyItem -> W -> res string * W;     (* strategy_text_from_item *)
  boot : W -> res unit * W;
  shutdown : W -> res unit * W;
  wait_heartbeat : W -> bool * W;
  heartbeat_age : W -> option (option float) * W;          (* None: OSError *)
  debug_env : W -> string * W;
  has_monitor : bool;
  recycle_candidates : W -> list Z * W;                    (* after a sample, the pids that are cleared *)
  record_mem : W -> unit * W;
  run_tcp_check : Z -> Z -> StrategyItem -> string -> option string -> list string -> W -> res data * W
}.
Arguments acquire_ns {W} _ _. Arguments release_ns {W} _ _ _. Arguments resolve_domain_dns {W} _ _ _.
Arguments resolve_domain_ips {W} _ _ _. Arguments stop_is_set {W} _ _. Arguments log_tcp_result {W} _ _ _ _ _ _.
Arguments next_probe_gen {W} _ _. Arguments secure_dns {W} _. Arguments cancel_arrives {W} _ _.
Arguments strategy_text {W} _ _ _. Arguments boot {W} _ _. Arguments shutdown {W} _ _. Arguments wait_heartbeat {W} _ _.
Arguments heartbeat_age {W} _ _. Arguments debug_env {W} _ _. Arguments has_monitor {W} _.
Arguments recycle_candidates {W} _ _. Arguments record_mem {W} _ _. Arguments run_tcp_check {W} _ _ _ _ _ _ _ _.

(** ** Results of batches that are not probed *)

Definition skipped_results (error : string) (items : list StrategyItem) (doms : list string) : list TcpTestResult :=
  zip_with (fun it dom => tcp_result it dom false error) items doms.

Definition with_phase (p : string) (r : TcpTestResult) : TcpTestResult :=
  TcpResult (r_item r) (r_domain r) (success r) (http_code r) (latency_ms r) (settle_ms r) (content_length r)
    (content_valid r) (throttled r) (read_rate_bps r) (error r) (used_ip r) (probe_host r) p (rst_in_ttl r)
    (bridge_applied r) (bridge_batch_id r) (bridge_gen r).

Definition dns_nodata_results (items : list StrategyItem) (doms : list string) : list TcpTestResult :=
  with_phase (value DNS_RESOLVE) <$> skipped_results DNS_NODATA_SKIP items doms.

(** [_pad_unprobed_results] *)
Definition pad_unprobed (items : list StrategyItem) (doms : list string) (results : list TcpTestResult)
    : list TcpTestResult :=
  if (length items <=? length results)%nat then results
  else (results ++ skipped_results STOPPED_BEFORE_PROBE (drop (length results) items) (drop (length results) doms))%list.

(** [_bridge_silent] *)
Definition bridge_silent (d : data) : bool :=
  if get_bool "bridge_applied" d then false
  else if get_bool "bridge_events" d || get_bool "bridge_rst_in" d then false
  else bool_decide (is_Some (dget "bridge_applied" d)).

(** [HEARTBEAT_LUA_PERIOD_S * 15] *)
Definition HEARTBEAT_STALE_MIN_AGE_S : float := fmul (f_lit 2 10) (f_of_Z 15).

Definition has_ip (m : dns_meta) : bool := match m.1.1 with Some ip => nonempty ip | None => false end.

(** ** The service *)

Section Service.
Context {W : Type} {RM : ResultMaker} (deps : Deps W).
Notation m := (M W).

Definition do_boot : m unit := _ ← emit EBoot; call (boot deps).
(** [_reboot_daemon] *)
Definition reboot_daemon : m unit := _ ← do_boot; _ ← ask (wait_heartbeat deps); mret tt.

(** [_daemon_heartbeat_stale] *)
Definition daemon_heartbeat_stale : m bool :=
  age ← ask (heartbeat_age deps);
  mret match age with
       | None | Some None => true
       | Some (Some a) => flt HEARTBEAT_STALE_MIN_AGE_S a
       end.

Definition bridge_ready_fence : m unit :=
  fresh ← ask (wait_heartbeat deps);
  if fresh : bool then mret tt
  else _ ← reboot_daemon; _ ← daemon_heartbeat_stale; mret tt.

Definition record_daemon_mem : m unit := if has_monitor deps then ask (record_mem deps) else mret tt.

Definition maybe_recycle : m bool :=
  if negb (has_monitor deps) then mret false
  else
    _ ← record_daemon_mem;
    candidates ← ask (recycle_candidates deps);
    match candidates with
    | [] => mret false
    | _ => _ ← reboot_daemon; _ ← record_daemon_mem; mret true
    end.

(** What happens to the daemon before an item: the value of [boot_debug] afterwards. *)
Definition before_item (boot_debug : string) : m string :=
  recycled ← maybe_recycle;
  if recycled : bool then ask (debug_env deps)
  else
    now ← ask (debug_env deps);
    if negb (String.eqb now boot_debug) then _ ← reboot_daemon; ask (debug_env deps)
    else
      stale ← daemon_heartbeat_stale;
      if stale : bool then _ ← reboot_daemon; mret boot_debug else mret boot_debug.

Section Batch.
Context (ctx : BatchContext) (resolved : list (string * dns_meta)) (ip_lists : list (string * list string)).

Definition tcp_check (idx : Z) (it : StrategyItem) (dom : string) (ip : option string) : m data :=
  gen ← ask (next_probe_gen deps);
  _ ← emit (EProbe idx gen it dom);
  call (run_tcp_check deps idx gen it dom ip (dget_default dom [] ip_lists)).

(** The probe of one item, repeated once after a reboot when the bridge was silent. The first
    generation is taken before the test for an address. *)
Definition probe_item (idx : Z) (it : StrategyItem) (dom : string) : m TcpTestResult :=
  gen ← ask (next_probe_gen deps);
  let meta := dget_default dom (None, EmptyString, EmptyString) resolved in
  if secure_dns deps && negb (has_ip meta) then
    lift (tcp_result_from_data it dom (fail_data DNS_NODATA_SKIP (ctx_batch_id ctx)))
  else
    _ ← emit (EProbe idx gen it dom);
    d ← call (run_tcp_check deps idx gen it dom meta.1.1 (dget_default dom [] ip_lists));
    d ← (if bridge_silent d then _ ← reboot_daemon; tcp_check idx it dom meta.1.1 else mret d);
    lift (tcp_result_from_data it dom (dset "batch_id" (JInt (ctx_batch_id ctx)) d)).

Fixpoint probe_loop (idx : Z) (boot_debug : string) (jobs : list (StrategyItem * string)) : m (list TcpTestResult) :=
  match jobs with
  | [] => mret []
  | (it, dom) :: jobs =>
      stop ← ask (stop_is_set deps);
      if stop : bool then mret []
      else
        boot_debug ← before_item boot_debug;
        r ← probe_item idx it dom;
        rest ← probe_loop (idx + 1) boot_debug jobs;
        mret (r :: rest)
  end.

Fixpoint strategy_texts (items : list StrategyItem) : m unit :=
  match items with [] => mret tt | it :: l => _ ← call (strategy_text deps it); strategy_texts l end.

(** [_run_lua_bridge_batch] *)
Definition run_lua_bridge_batch (doms : list string) : m BatchProbeResult :=
  _ ← strategy_texts (ctx_items ctx);
  results ← finally
    (_ ← do_boot;
     _ ← bridge_ready_fence;
     boot_debug ← ask (debug_env deps);
     _ ← record_daemon_mem;
     probe_loop 1 boot_debug (zip (ctx_items ctx) doms))
    (_ ← emit EShutdown; call (shutdown deps));
  mret (BatchResult results "lua_bridge").
End Batch.

(** The loop of [_finalize_batch] over the items, the domains and the padded results. *)
Fixpoint log_all (resolved : list (string * dns_meta)) (jobs : list (StrategyItem * string))
    (results : list TcpTestResult) : m unit :=
  match jobs, results with
  | [], [] => mret tt
  | (it, dom) :: jobs, r :: results =>
      let meta := dget_default dom (None, EmptyString, EmptyString) resolved in
      _ ← emit (ELog it dom r meta);
      _ ← call (log_tcp_result deps it dom r meta);
      log_all resolved jobs results
  | _, _ => raise (Error "zip() arguments have different lengths")
  end.

Definition finalize_batch (ctx : BatchContext) (doms : list string) (resolved : list (string * dns_meta))
    (r : BatchProbeResult) : m BatchProbeResult :=
  let results := pad_unprobed (ctx_items ctx) doms (br_results r) in
  _ ← log_all resolved (zip (ctx_items ctx) doms) results;
  mret (BatchResult results (br_backend r)).

Fixpoint resolve_all (doms : list string) : m (list (string * dns_meta) * list (string * list string)) :=
  match doms with
  | [] => mret ([], [])
  | d :: doms =>
      meta ← call (resolve_domain_dns deps d);
      ips ← call (resolve_domain_ips deps d);
      rest ← resolve_all doms;
      mret ((d, meta) :: rest.1, (d, ips) :: rest.2)
  end.

Fixpoint fail_results (error : string) (batch_id : Z) (jobs : list (StrategyItem * string)) : m (list TcpTestResult) :=
  match jobs with
  | [] => mret []
  | (it, dom) :: jobs =>
      r ← lift (tcp_result_from_data it dom (fail_data error batch_id));
      rest ← fail_results error batch_id jobs;
      mret (r :: rest)
  end.

(** The batch stops waiting for its thread, which goes on. *)
Definition abandon (k : nat) (run : m BatchProbeResult) : m BatchProbeResult := fun '(w, tr) =>
  let '(r, (w, es)) := run (w, []) in
  match r with
  | Off => (Off, (w, tr))
  | _ => (Exn Cancelled, (w, (tr ++ take k es ++ [ELeft (drop k es)])%list))
  end.

(** [await sync_task] and its handler of [CancelledError]. Cancelling a task cancels the task it awaits: when the
    handler runs, [sync_task] is cancelled, so that [sync_task.done()] holds, nothing is waited for, and the exception
    goes on. The thread behind [to_thread] cannot be cancelled. *)
Definition await_sync (run : m BatchProbeResult) : m BatchProbeResult :=
  c ← ask (cancel_arrives deps);
  match c with
  | Undisturbed => run
  | Unstarted => raise Cancelled
  | Amid k => abandon k run
  end.

(** What is done with the namespace. *)
Definition with_ns (ctx : BatchContext) (doms : list string) : m BatchProbeResult :=
  maps ← resolve_all (fromkeys doms);
  let '(resolved, ip_lists) := maps in
  stop ← ask (stop_is_set deps);
  if stop : bool then
    finalize_batch ctx doms resolved (BatchResult (skipped_results STOPPED_BEFORE_PROBE (ctx_items ctx) doms) EmptyString)
  else if secure_dns deps && negb (bool_decide (resolved = [])) && forallb (fun kv => negb (has_ip kv.2)) resolved then
    finalize_batch ctx doms resolved (BatchResult (dns_nodata_results (ctx_items ctx) doms) "lua_bridge")
  else
    r ← catch (await_sync (run_lua_bridge_batch ctx resolved ip_lists doms)) (fun msg =>
          failed ← fail_results msg (ctx_batch_id ctx) (zip (ctx_items ctx) doms);
          mret (BatchResult failed "lua_bridge"));
    finalize_batch ctx doms resolved r.

Definition run_batch (ctx : BatchContext) : m BatchProbeResult :=
  stop ← ask (stop_is_set deps);
  if stop : bool then
    doms ← lift (item_domains ctx);
    finalize_batch ctx doms [] (BatchResult (skipped_results STOPPED_BEFORE_PROBE (ctx_items ctx) doms) EmptyString)
  else
    ns ← ask (acquire_ns deps);
    match ns with
    | None =>
        doms ← lift (item_domains ctx);
        finalize_batch ctx doms [] (BatchResult (skipped_results NS_POOL_EXHAUSTED (ctx_items ctx) doms) EmptyString)
    | Some ns =>
        ns ← lift ns;
        _ ← emit (EAcquired ns);
        finally (doms ← lift (item_domains ctx); with_ns ctx doms)
          (_ ← emit (EReleased ns); call (release_ns deps ns))
    end.
End Service.

(** ** What a piece of the code does *)

(** Every outcome that the model follows, with the effects it adds. *)
Definition spec {W A} (c : M W A) (Q : res A -> list effect -> Prop) : Prop :=
  forall w tr r w' tr', c (w, tr) = (r, (w', tr')) -> r <> Off -> exists new, tr' = (tr ++ new)%list /\ Q r new.

Section Rules.
Context {W : Type}.

Lemma spec_ret {A} (a : A) (Q : res A -> list effect -> Prop) : Q (Done a) [] -> spec (mret a : M W A) Q.
Proof. intros HQ w tr r w' tr' [= <- <- <-] _. exists []. by rewrite app_nil_r. Qed.

Lemma spec_bind {A B} (c : M W A) (f : A -> M W B) (R : res A -> list effect -> Prop) (Q : res B -> list effect -> Prop) :
  spec c R ->
  (forall a new, R (Done a) new -> spec (f a) (fun r new' => Q r (new ++ new')%list)) ->
  (forall e new, R (Exn e) new -> Q (Exn e) new) ->
  spec (c ≫= f) Q.
Proof.
  intros Hc Hf He w tr r w' tr' H Hr. unfold mbind, X_bind in H.
  destruct (c (w, tr)) as [[a|e|] [w1 tr1]] eqn:E.
  - destruct (Hc _ _ _ _ _ E) as (new & -> & HR); [done|].
    destruct (Hf a new HR _ _ _ _ _ H Hr) as (new' & -> & HQ). exists (new ++ new')%list. by rewrite app_assoc.
  - injection H as <- <- <-. destruct (Hc _ _ _ _ _ E) as (new & -> & HR); [done|]. exists new. auto.
  - injection H as <- <- <-. done.
Qed.

Lemma spec_weaken {A} (c : M W A) (R Q : res A -> list effect -> Prop) :
  spec c R -> (forall r new, r <> Off -> R r new -> Q r new) -> spec c Q.
Proof. intros Hc HRQ w tr r w' tr' H Hr. destruct (Hc _ _ _ _ _ H Hr) as (new & -> & HR). eauto. Qed.

Lemma spec_call {A} (f : W -> res A * W) (Q : res A -> list effect -> Prop) :
  (forall r, r <> Off -> Q r []) -> spec (call f) Q.
Proof.
  intros HQ w tr r w' tr' H Hr. unfold call in H. destruct (f w) as [r1 w1]. injection H as <- <- <-.
  exists []. rewrite app_nil_r. auto.
Qed.

Lemma spec_ask {A} (f : W -> A * W) (Q : res A -> list effect -> Prop) :
  (forall a, Q (Done a) []) -> spec (ask f) Q.
Proof.
  intros HQ w tr r w' tr' H Hr. unfold ask in H. destruct (f w) as [r1 w1]. injection H as <- <- <-.
  exists []. by rewrite app_nil_r.
Qed.

Lemma spec_lift {A} (x : res A) (Q : res A -> list effect -> Prop) : (x <> Off -> Q x []) -> spec (lift x : M W A) Q.
Proof. intros HQ w tr r w' tr' [= <- <- <-] Hr. exists []. rewrite app_nil_r. auto. Qed.

Lemma spec_raise {A} e (Q : res A -> list effect -> Prop) : Q (Exn e) [] -> spec (raise e : M W A) Q.
Proof. intros HQ w tr r w' tr' [= <- <- <-] Hr. exists []. by rewrite app_nil_r. Qed.

Lemma spec_emit e (Q : res unit -> list effect -> Prop) : Q (Done tt) [e] -> spec (emit e : M W unit) Q.
Proof. intros HQ w tr r w' tr' [= <- <- <-] Hr. by exists [e]. Qed.

Lemma spec_finally {A} (c : M W A) (fin : M W unit) (R : res A -> list effect -> Prop)
    (F : res unit -> list effect -> Prop) (Q : res A -> list effect -> Prop) :
  spec c R -> spec fin F ->
  (forall r new new', r <> Off -> R r new -> F (Done tt) new' -> Q r (new ++ new')%list) ->
  (forall r e new new', r <> Off -> R r new -> F (Exn e) new' -> Q (Exn e) (new ++ new')%list) ->
  spec (finally c fin) Q.
Proof.
  intros Hc Hfin Hd He w tr r w' tr' H Hr. unfold finally in H.
  destruct (c (w, tr)) as [r1 [w1 tr1]] eqn:E. assert (Ho : r1 <> Off).
  { intros ->. by injection H as <- <- <-. }
  destruct (Hc _ _ _ _ _ E Ho) as (new & -> & HR).
  assert (Hf : match fin (w1, (tr ++ new)%list) with
               | (Done _, s) => (r1, s) | (Exn e, s) => (Exn e, s) | (Off, s) => (Off, s) end = (r, (w', tr'))).
  { destruct r1; [exact H|exact H|done]. }
  destruct (fin (w1, (tr ++ new)%list)) as [[[]|e|] [w2 tr2]] eqn:E2; [| |by injection Hf as <- <- <-].
  - injection Hf as <- <- <-. destruct (Hfin _ _ _ _ _ E2) as (new' & -> & HF); [done|].
    exists (new ++ new')%list. rewrite app_assoc. eauto.
  - injection Hf as <- <- <-. destruct (Hfin _ _ _ _ _ E2) as (new' & -> & HF); [done|].
    exists (new ++ new')%list. rewrite app_assoc. eauto.
Qed.

Lemma spec_catch {A} (c : M W A) h (R Q : res A -> list effect -> Prop) :
  spec c R ->
  (forall r new, R r new -> (forall msg, r <> Exn (Error msg)) -> Q r new) ->
  (forall msg new, R (Exn (Error msg)) new -> spec (h msg) (fun r new' => Q r (new ++ new')%list)) ->
  spec (catch c h) Q.
Proof.
  intros Hc Hok Hh w tr r w' tr' H Hr. unfold catch in H.
  destruct (c (w, tr)) as [r1 [w1 tr1]] eqn:E. assert (Ho : r1 <> Off).
  { intros ->. by injection H as <- <- <-. }
  destruct (Hc _ _ _ _ _ E Ho) as (new & -> & HR). destruct r1 as [a|[msg|]|]; [| | |done].
  - injection H as <- <- <-. exists new. split; [done|]. by apply Hok.
  - destruct (Hh msg new HR _ _ _ _ _ H Hr) as (new' & -> & HQ). exists (new ++ new')%list. by rewrite app_assoc.
  - injection H as <- <- <-. exists new. split; [done|]. by apply Hok.
Qed.
End Rules.

(** A property of single effects passes through a sequence. *)
Lemma spec_bind_Forall {W A B} (P : effect -> Prop) (c : M W A) (f : A -> M W B) :
  spec c (fun _ new => Forall P new) -> (forall a, spec (f a) (fun _ new => Forall P new)) ->
  spec (c ≫= f) (fun _ new => Forall P new).
Proof.
  intros Hc Hf. eapply spec_bind; [exact Hc| |done]. intros a new Hnew.
  eapply spec_weaken; [apply Hf|]. intros r new' _ Hnew'. by apply Forall_app.
Qed.

(** The specifications of the pieces, for [effects]. *)
Create HintDb batch.

(** Sequences of calls and tests that only have effects with [P]. *)
Ltac effects :=
  repeat match goal with
  | |- spec _ (fun _ new => Forall _ new) => solve [auto with batch nocore]
  | |- spec (_ ≫= _) (fun _ new => Forall _ new) => apply spec_bind_Forall; [|intros ?]
  | |- spec (mret _) _ => apply spec_ret
  | |- spec (call _) _ => apply spec_call; intros ? _
  | |- spec (ask _) _ => apply spec_ask; intros ?
  | |- spec (lift _) _ => apply spec_lift; intros _
  | |- spec (emit _) _ => apply spec_emit
  | |- spec (raise _) _ => apply spec_raise
  | |- spec (if ?b then _ else _) _ => destruct b
  | |- spec (match ?x with _ => _ end) _ => destruct x
  | |- Forall _ [] => constructor
  | |- Forall _ [_] => repeat constructor
  end.

(** ** The daemon and the probes *)

Definition about (r : TcpTestResult) : StrategyItem * string := (r_item r, r_domain r).

Definition is_boot (e : effect) : Prop := e = EBoot.
Definition is_log (e : effect) : bool := match e with ELog _ _ _ _ => true | _ => false end.
Definition probes_of (i : Z) (e : effect) : bool := match e with EProbe j _ _ _ => Z.eqb i j | _ => false end.
Definition probe_count (i : Z) (l : list effect) : nat := length (filter (fun e => probes_of i e = true) l).

(** A probe of the job at its position, the first position being [idx]; or a boot. *)
Definition job_effect (idx : Z) (jobs : list (StrategyItem * string)) (e : effect) : Prop :=
  e = EBoot \/ exists (k : nat) gen it dom, e = EProbe (idx + Z.of_nat k) gen it dom /\ jobs !! k = Some (it, dom).

(** No job is probed more than twice. *)
Definition session_effects (idx : Z) (jobs : list (StrategyItem * string)) (l : list effect) : Prop :=
  Forall (job_effect idx jobs) l /\ forall i, (probe_count i l <= 2)%nat.

Lemma probe_count_app i a b : probe_count i (a ++ b) = (probe_count i a + probe_count i b)%nat.
Proof. unfold probe_count. by rewrite filter_app, length_app. Qed.

Lemma probe_count_boots i l : Forall is_boot l -> probe_count i l = 0%nat.
Proof. unfold probe_count. induction 1 as [|e l He _ IH]; [done|]. rewrite filter_cons. unfold is_boot in He. by subst e. Qed.

Lemma probe_count_low i idx jobs l : Forall (job_effect idx jobs) l -> (i < idx)%Z -> probe_count i l = 0%nat.
Proof.
  intros H Hi. unfold probe_count. induction H as [|e l He _ IH]; [done|]. rewrite filter_cons.
  destruct He as [->|(k & gen & it & dom & -> & _)]; cbn [probes_of]; [done|].
  destruct (Z.eqb_spec i (idx + Z.of_nat k)); [lia|done].
Qed.

(** What is true of the value, when there is one. *)
Definition returns {A} (P : A -> Prop) (r : res A) : Prop := forall x, r = Done x -> P x.

Lemma boots_job idx jobs l : Forall is_boot l -> Forall (job_effect idx jobs) l.
Proof. intros H. eapply Forall_impl; [exact H|]. intros e ->. by left. Qed.

Section Specs.
Context {W : Type} {RM : ResultMaker} (deps : Deps W).

Lemma boot_effects : spec (do_boot deps) (fun _ new => Forall is_boot new).
Proof. unfold do_boot. effects. Qed.
#[local] Hint Resolve boot_effects : batch.

Lemma reboot_effects : spec (reboot_daemon deps) (fun _ new => Forall is_boot new).
Proof. unfold reboot_daemon. effects. Qed.
#[local] Hint Resolve reboot_effects : batch.

Lemma stale_effects : spec (daemon_heartbeat_stale deps) (fun _ new => Forall is_boot new).
Proof. unfold daemon_heartbeat_stale. effects. Qed.
#[local] Hint Resolve stale_effects : batch.

Lemma mem_effects : spec (record_daemon_mem deps) (fun _ new => Forall is_boot new).
Proof. unfold record_daemon_mem. effects. Qed.
#[local] Hint Resolve mem_effects : batch.

Lemma fence_effects : spec (bridge_ready_fence deps) (fun _ new => Forall is_boot new).
Proof. unfold bridge_ready_fence. effects. Qed.
#[local] Hint Resolve fence_effects : batch.

Lemma recycle_effects : spec (maybe_recycle deps) (fun _ new => Forall is_boot new).
Proof. unfold maybe_recycle. effects. Qed.
#[local] Hint Resolve recycle_effects : batch.

Lemma before_effects d : spec (before_item deps d) (fun _ new => Forall is_boot new).
Proof. unfold before_item. effects. Qed.
#[local] Hint Resolve before_effects : batch.

Context (ctx : BatchContext) (resolved : list (string * dns_meta)) (ip_lists : list (string * list string)).

(** Boots and at most [n] probes of one item. *)
Definition probing (idx : Z) (it : StrategyItem) (dom : string) (n : nat) (new : list effect) : Prop :=
  Forall (fun e => e = EBoot \/ exists gen, e = EProbe idx gen it dom) new /\ (probe_count idx new <= n)%nat.

Lemma probing_boots idx it dom n new : Forall is_boot new -> probing idx it dom n new.
Proof.
  intros H. split; [|rewrite probe_count_boots by done; lia].
  eapply Forall_impl; [exact H|]. intros e ->. by left.
Qed.

Lemma probing_app idx it dom n k a b :
  probing idx it dom n a -> probing idx it dom k b -> probing idx it dom (n + k) (a ++ b).
Proof. intros [Ha1 Ha2] [Hb1 Hb2]. split; [by apply Forall_app|]. rewrite probe_count_app. lia. Qed.

Lemma probing_probe idx gen it dom : probing idx it dom 1 [EProbe idx gen it dom].
Proof.
  split; [apply Forall_singleton; right; by exists gen|].
  unfold probe_count. rewrite filter_cons. cbn [probes_of]. by rewrite Z.eqb_refl, decide_True.
Qed.

Lemma spec_bind_probing {A B} idx it dom n k (P : B -> Prop) (c : M W A) (f : A -> M W B) :
  spec c (fun _ new => probing idx it dom n new) ->
  (forall a, spec (f a) (fun r new => probing idx it dom k new /\ returns P r)) ->
  spec (c ≫= f) (fun r new => probing idx it dom (n + k) new /\ returns P r).
Proof.
  intros Hc Hf. eapply spec_bind; [exact Hc| |].
  - intros a new Hnew. eapply spec_weaken; [apply Hf|]. intros r new' _ [Hnew' Hr].
    split; [by apply probing_app|done].
  - intros e new [H1 H2]. split; [split; [done|lia]|by intros x [=]].
Qed.

Lemma result_item_spec idx it dom d :
  spec (lift (tcp_result_from_data it dom d) : M W _)
    (fun r new => probing idx it dom 0 new /\ returns (fun x => about x = (it, dom)) r).
Proof.
  apply spec_lift. intros _. split; [by apply probing_boots|]. intros x Hx. by apply result_about in Hx as [<- <-].
Qed.

(** One item: boots, at most two probes of it, and a result about it. *)
Lemma probe_item_spec idx it dom :
  spec (probe_item deps ctx resolved ip_lists idx it dom)
    (fun r new => probing idx it dom 2 new /\ returns (fun x => about x = (it, dom)) r).
Proof.
  unfold probe_item. cbv zeta.
  apply (spec_bind_probing idx it dom 0 2); [apply spec_ask; intros _; by apply probing_boots|intros gen].
  destruct (secure_dns deps && _).
  { eapply spec_weaken; [apply result_item_spec|]. intros r new _ [[H1 H2] H3]. split; [split; [done|lia]|done]. }
  apply (spec_bind_probing idx it dom 1 1); [apply spec_emit, probing_probe|intros _].
  apply (spec_bind_probing idx it dom 0 1); [apply spec_call; intros; by apply probing_boots|intros d].
  apply (spec_bind_probing idx it dom 1 0); [|intros d'; apply result_item_spec].
  destruct (bridge_silent d); [|apply spec_ret; by apply probing_boots].
  eapply spec_weaken; [apply (spec_bind_probing idx it dom 0 1 (fun _ => True))|by intros r new _ [H _]].
  { eapply spec_weaken; [apply reboot_effects|]. intros; by apply probing_boots. }
  intros _. unfold tcp_check.
  apply (spec_bind_probing idx it dom 0 1); [apply spec_ask; intros _; by apply probing_boots|intros gen'].
  apply (spec_bind_probing idx it dom 1 0); [apply spec_emit, probing_probe|intros _].
  apply spec_call. intros r _. split; [by apply probing_boots|done].
Qed.

(** The loop: a session over the jobs, and results about a beginning of them. *)
Definition answers (jobs : list (StrategyItem * string)) (rs : list TcpTestResult) : Prop :=
  (about <$> rs) = take (length rs) jobs.

Lemma session_nil idx jobs : session_effects idx jobs [].
Proof. split; [constructor|cbn; lia]. Qed.

Lemma session_cons idx it dom jobs b p l :
  Forall is_boot b -> probing idx it dom 2 p -> session_effects (idx + 1) jobs l ->
  session_effects idx ((it, dom) :: jobs) (b ++ p ++ l).
Proof.
  intros Hb [Hp Hc] [Hl Hn]. split.
  - apply Forall_app; split; [by apply boots_job|apply Forall_app; split].
    + eapply Forall_impl; [exact Hp|]. intros e [->|[gen ->]]; [by left|]. right.
      exists 0%nat, gen, it, dom. split; [f_equal; lia|done].
    + eapply Forall_impl; [exact Hl|]. intros e [->|(k & gen & it' & dom' & -> & Hk)]; [by left|]. right.
      exists (S k), gen, it', dom'. split; [f_equal; lia|done].
  - intros i. rewrite !probe_count_app, (probe_count_boots i b) by done.
    destruct (decide (i = idx)) as [->|Hi].
    + rewrite (probe_count_low idx (idx + 1) jobs l) by (done || lia). lia.
    + specialize (Hn i). enough (probe_count i p = 0%nat) by lia. unfold probe_count.
      clear -Hp Hi. induction Hp as [|e p [->|[gen ->]] _ IH]; [done|done|]. rewrite filter_cons. cbn [probes_of].
      destruct (Z.eqb_spec i idx); done.
Qed.

Lemma probe_loop_spec jobs : forall idx d,
  spec (probe_loop deps ctx resolved ip_lists idx d jobs)
    (fun r new => session_effects idx jobs new /\ returns (answers jobs) r).
Proof.
  induction jobs as [|[it dom] jobs IH]; intros idx d; cbn [probe_loop].
  { apply spec_ret. split; [apply session_nil|]. by intros x [= <-]. }
  eapply (spec_bind _ _ (fun _ new => new = [])); [by apply spec_ask| |by intros e new ->; split; [apply session_nil|]].
  intros stop new ->. destruct stop.
  { apply spec_ret. split; [apply session_nil|]. by intros x [= <-]. }
  eapply spec_bind; [apply before_effects| |].
  2:{ intros e b Hb. split; [|done]. rewrite <- (app_nil_r b).
      apply (session_cons _ _ _ _ b [] []); [done|by apply probing_boots|apply session_nil]. }
  intros d' b Hb. cbn beta in Hb. eapply spec_bind; [apply probe_item_spec| |].
  2:{ intros e p [Hp _]. split; [|done]. rewrite <- (app_nil_r p). by apply (session_cons _ _ _ _ b p []); [| |apply session_nil]. }
  intros x p [Hp Hx]. specialize (Hx x eq_refl). eapply spec_bind; [apply IH| |].
  2:{ intros e l [Hl _]. split; [by apply (session_cons _ _ _ _ b p l)|done]. }
  intros rs l [Hl Hrs]. specialize (Hrs rs eq_refl). apply spec_ret. rewrite app_nil_r.
  split; [by apply (session_cons _ _ _ _ b p l)|]. intros y [= <-]. unfold answers in *. cbn. by rewrite Hx, Hrs.
Qed.

Lemma texts_effects items : spec (strategy_texts deps items) (fun _ new => new = []).
Proof.
  induction items as [|it items IH]; cbn [strategy_texts]; [by apply spec_ret|].
  eapply (spec_bind _ _ (fun _ new => new = [])); [by apply spec_call| |done]. intros _ new ->. exact IH.
Qed.

(** Boots before a session belong to it. *)
Lemma spec_bind_session {A} jobs (P : list TcpTestResult -> Prop) (c : M W A) (f : A -> M W _) :
  spec c (fun _ new => Forall is_boot new) ->
  (forall a, spec (f a) (fun r new => session_effects 1 jobs new /\ returns P r)) ->
  spec (c ≫= f) (fun r new => session_effects 1 jobs new /\ returns P r).
Proof.
  assert (Hb : forall b l, Forall is_boot b -> session_effects 1 jobs l -> session_effects 1 jobs (b ++ l)).
  { intros b l Hb [Hl Hn]. split; [apply Forall_app; split; [by apply boots_job|done]|].
    intros i. rewrite probe_count_app, (probe_count_boots i b) by done. apply Hn. }
  intros Hc Hf. eapply spec_bind; [exact Hc| |].
  - intros a b Hnew. eapply spec_weaken; [apply Hf|]. intros r l _ [Hl Hr]. split; [by apply Hb|done].
  - intros e b Hnew. split; [|by intros x [=]]. rewrite <- (app_nil_r b). apply Hb; [exact Hnew|apply session_nil].
Qed.

(** The whole session: nothing, when a strategy has no text; else the first boot, the session of the
    items, the shutdown. *)
Definition daemon_session (jobs : list (StrategyItem * string)) (new : list effect) : Prop :=
  exists l, new = (EBoot :: l ++ [EShutdown])%list /\ session_effects 1 jobs l.

Lemma bridge_batch_spec doms :
  spec (run_lua_bridge_batch deps ctx resolved ip_lists doms)
    (fun r new => (new = [] \/ daemon_session (zip (ctx_items ctx) doms) new) /\
                  returns (fun b => answers (zip (ctx_items ctx) doms) (br_results b)) r).
Proof.
  unfold run_lua_bridge_batch. eapply spec_bind; [apply texts_effects| |by intros e new ->; split; [left|]].
  intros _ new ->. set (jobs := zip (ctx_items ctx) doms).
  assert (Hsession : spec (_ ← do_boot deps; _ ← bridge_ready_fence deps; boot_debug ← ask (debug_env deps);
             _ ← record_daemon_mem deps; probe_loop deps ctx resolved ip_lists 1 boot_debug jobs)
           (fun r new => (exists l, new = EBoot :: l /\ session_effects 1 jobs l) /\ returns (answers jobs) r)).
  { eapply (spec_bind _ _ (fun _ new => new = [EBoot])).
    - unfold do_boot. eapply (spec_bind _ _ (fun _ new => new = [EBoot])); [by apply spec_emit| |by intros e new ->].
      intros _ new ->. by apply spec_call.
    - intros _ new ->.
      eapply spec_weaken; [apply (spec_bind_session jobs (answers jobs) _ _ (fence_effects)); intros _|].
      + apply spec_bind_session; [apply spec_ask; constructor|intros d].
        apply spec_bind_session; [apply mem_effects|intros _]. apply probe_loop_spec.
      + intros r l _ [Hl Hr]. split; [by exists l|done].
    - intros e new ->. split; [|by intros x [=]]. exists []. split; [done|apply session_nil]. }
  eapply spec_bind.
  { eapply (spec_finally _ _ _ (fun _ new => new = [EShutdown]) (fun r new => daemon_session jobs new /\ returns (answers jobs) r));
      [exact Hsession| | |].
    - eapply (spec_bind _ _ (fun _ new => new = [EShutdown])); [by apply spec_emit| |by intros e new ->].
      intros _ new ->. by apply spec_call.
    - intros r new new' _ [(l & -> & Hl) Hr] ->. split; [by exists l|done].
    - intros r e new new' _ [(l & -> & Hl) Hr] ->. split; [by exists l|by intros x [=]]. }
  - intros rs new [Hd Hr]. apply spec_ret. rewrite app_nil_r. split; [by right|]. intros x [= <-]. by apply Hr.
  - intros e new [Hd Hr]. split; [by right|by intros x [=]].
Qed.
End Specs.

(** ** Logging *)

(** The rows that are logged of the results of the jobs. *)
Definition logs (resolved : list (string * dns_meta)) (jobs : list (StrategyItem * string))
    (rs : list TcpTestResult) : list effect :=
  zip_with (fun job r => ELog job.1 job.2 r (dget_default job.2 (None, EmptyString, EmptyString) resolved)) jobs rs.

Lemma answers_length jobs rs : answers jobs rs -> (length rs <= length jobs)%nat.
Proof. intros H%(f_equal length). rewrite length_fmap, length_take in H. lia. Qed.

Lemma skipped_about error items doms : about <$> skipped_results error items doms = zip items doms.
Proof.
  unfold skipped_results. revert doms. induction items as [|it items IH]; intros [|dom doms]; [done|done|done|].
  cbn. f_equal. apply IH.
Qed.

Lemma phase_about p (rs : list TcpTestResult) : about <$> (with_phase p <$> rs) = about <$> rs.
Proof. rewrite <- list_fmap_compose. by apply list_fmap_ext. Qed.

(** A full list of answers answers the jobs. *)
Lemma full_answers jobs rs : (about <$> rs) = jobs -> answers jobs rs.
Proof. intros <-. unfold answers. by rewrite <- (length_fmap about rs), take_ge by lia. Qed.

Lemma pad_about items doms rs :
  length doms = length items -> answers (zip items doms) rs ->
  about <$> pad_unprobed items doms rs = zip items doms.
Proof.
  intros Hd Ha. pose proof (answers_length _ _ Ha) as Hl. unfold answers in Ha.
  rewrite length_zip_with in Hl. unfold pad_unprobed.
  destruct (Nat.leb_spec (length items) (length rs)) as [H|H].
  - rewrite Ha, take_ge; [done|rewrite length_zip_with; lia].
  - rewrite fmap_app, skipped_about, Ha, <- zip_with_drop. apply take_drop.
Qed.

Definition logging (e : effect) : Prop := is_log e = true.

Section Runs.
Context {W : Type} {RM : ResultMaker} (deps : Deps W).

(** Only rows are logged; when the function returns, a row for each job. *)
Lemma log_all_spec resolved jobs : forall rs,
  spec (log_all deps resolved jobs rs)
    (fun r new => Forall logging new /\ returns (fun _ => length rs = length jobs /\ new = logs resolved jobs rs) r).
Proof.
  induction jobs as [|[it dom] jobs IH]; intros [|x rs]; cbn [log_all].
  - by apply spec_ret.
  - apply spec_raise. by split.
  - apply spec_raise. by split.
  - eapply (spec_bind _ _ (fun _ new => new = [ELog it dom x (dget_default dom (None, EmptyString, EmptyString) resolved)]));
      [by apply spec_emit| |].
    2:{ intros e new ->. by split; [repeat constructor|]. }
    intros _ new ->. eapply (spec_bind _ _ (fun _ new => new = [])); [by apply spec_call| |].
    2:{ intros e new ->. by split; [repeat constructor|]. }
    intros _ new ->. eapply spec_weaken; [apply IH|]. intros r new _ [Hl Hr]. split; [by repeat constructor|].
    intros u Hu. destruct (Hr u Hu) as [Hn ->]. split; [cbn; by rewrite Hn|done].
Qed.

Lemma finalize_spec ctx doms resolved b :
  length doms = length (ctx_items ctx) -> answers (zip (ctx_items ctx) doms) (br_results b) ->
  spec (finalize_batch deps ctx doms resolved b)
    (fun r new => Forall logging new /\
       returns (fun b' => about <$> br_results b' = zip (ctx_items ctx) doms /\
                          new = logs resolved (zip (ctx_items ctx) doms) (br_results b')) r).
Proof.
  intros Hd Ha. unfold finalize_batch. cbv zeta. eapply spec_bind; [apply log_all_spec| |].
  - intros u new [Hl Hr]. destruct (Hr u eq_refl) as [_ ->]. apply spec_ret. rewrite app_nil_r. split; [done|].
    intros b' [= <-]. cbn [br_results]. split; [by apply pad_about|done].
  - intros e new [Hl _]. split; [done|by intros x [=]].
Qed.

Lemma fail_results_spec error id jobs :
  spec (fail_results error id jobs : M W _) (fun r new => new = [] /\ returns (fun rs => about <$> rs = jobs) r).
Proof.
  induction jobs as [|[it dom] jobs IH]; cbn [fail_results].
  { apply spec_ret. split; [done|]. by intros x [= <-]. }
  eapply (spec_bind _ _ (fun r new => new = [] /\ returns (fun x => about x = (it, dom)) r)).
  - apply spec_lift. intros _. split; [done|]. intros x Hx. by apply result_about in Hx as [<- <-].
  - intros x new [-> Hx]. eapply spec_bind; [apply IH| |].
    + intros rs new [-> Hrs]. apply spec_ret. split; [done|]. intros y [= <-]. cbn. by rewrite (Hx x eq_refl), (Hrs rs eq_refl).
    + intros e new [-> _]. split; [done|by intros y [=]].
  - intros e new [-> _]. split; [done|by intros y [=]].
Qed.

Lemma resolve_all_spec doms : spec (resolve_all deps doms) (fun _ new => new = []).
Proof.
  induction doms as [|d doms IH]; cbn [resolve_all]; [by apply spec_ret|].
  eapply (spec_bind _ _ (fun _ new => new = [])); [by apply spec_call|intros meta new ->|done].
  eapply (spec_bind _ _ (fun _ new => new = [])); [by apply spec_call|intros ips new ->|done].
  eapply (spec_bind _ _ (fun _ new => new = [])); [apply IH|intros rest new ->|done]. by apply spec_ret.
Qed.

(** A thread that was abandoned: what it had done, and what it still does, make a session. *)
Definition left_running (jobs : list (StrategyItem * string)) (s : list effect) : Prop :=
  exists before rest, s = (before ++ [ELeft rest])%list /\
    ((before ++ rest)%list = [] \/ daemon_session jobs (before ++ rest)%list).

(** What [with_ns] does to the daemon and to the log: at most one session, then rows; when it returns, the
    results and the rows of all the jobs. *)
Definition batch_effects (jobs : list (StrategyItem * string)) (r : res BatchProbeResult) (new : list effect) : Prop :=
  exists s l, new = (s ++ l)%list /\
    (s = [] \/ daemon_session jobs s \/ (left_running jobs s /\ l = [] /\ forall b, r <> Done b)) /\ Forall logging l /\
    returns (fun b => about <$> br_results b = jobs /\ exists resolved, l = logs resolved jobs (br_results b)) r.

Lemma finalize_effects ctx doms resolved b s :
  length doms = length (ctx_items ctx) -> answers (zip (ctx_items ctx) doms) (br_results b) ->
  s = [] \/ daemon_session (zip (ctx_items ctx) doms) s ->
  spec (finalize_batch deps ctx doms resolved b)
    (fun r new => batch_effects (zip (ctx_items ctx) doms) r (s ++ new)).
Proof.
  intros Hd Ha Hs. eapply spec_weaken; [by apply finalize_spec|]. intros r l _ [Hl Hr].
  exists s, l. split_and!; [done|tauto|done|]. intros x Hx. destruct (Hr x Hx) as [H1 H2]. split; [done|by exists resolved].
Qed.

(** The session, or the failures that stand for it. *)
Definition ran (jobs : list (StrategyItem * string)) (r : res BatchProbeResult) (new : list effect) : Prop :=
  (new = [] \/ daemon_session jobs new \/ (r = Exn Cancelled /\ left_running jobs new)) /\
  returns (fun b => answers jobs (br_results b)) r.

Lemma abandon_spec jobs k (c : M W BatchProbeResult) :
  spec c (fun _ new => new = [] \/ daemon_session jobs new) -> spec (abandon k c) (ran jobs).
Proof.
  intros Hc w tr r w' tr' H Hr. unfold abandon in H. destruct (c (w, [])) as [r1 [w1 es]] eqn:E.
  assert (D : r1 <> Off) by (intros ->; by injection H as <- _ _).
  destruct (Hc _ _ _ _ _ E D) as (new & -> & Hs). cbn [app] in H.
  assert (T : tr' = (tr ++ take k new ++ [ELeft (drop k new)])%list /\ r = Exn Cancelled) by (destruct r1; [| |done]; by injection H as <- _ <-).
  destruct T as [-> ->]. eexists. split; [reflexivity|]. split; [|done]. right; right. split; [done|].
  exists (take k new), (drop k new). by rewrite take_drop.
Qed.

Lemma ran_spec ctx resolved ip_lists doms :
  spec (catch (await_sync deps (run_lua_bridge_batch deps ctx resolved ip_lists doms)) (fun msg =>
          failed ← fail_results msg (ctx_batch_id ctx) (zip (ctx_items ctx) doms);
          mret (BatchResult failed "lua_bridge")))
    (ran (zip (ctx_items ctx) doms)).
Proof.
  set (jobs := zip (ctx_items ctx) doms). apply (spec_catch _ _ (ran jobs)).
  - unfold await_sync.
    eapply (spec_bind _ _ (fun _ new => new = [])); [by apply spec_ask| |by intros e new ->; split; [left|]].
    intros c new ->. destruct c as [| |k].
    + eapply spec_weaken; [apply bridge_batch_spec|]. intros r new _ [Hs Ha]. split; [tauto|done].
    + apply spec_raise. split; [by left|done].
    + apply abandon_spec. eapply spec_weaken; [apply bridge_batch_spec|]. by intros r new _ [Hs _].
  - done.
  - intros msg s [Hs _]. assert (Hs' : s = [] \/ daemon_session jobs s) by (destruct Hs as [?|[?|[[=] _]]]; auto). eapply spec_bind; [apply fail_results_spec| |].
    + intros rs new [-> Hr]. apply spec_ret. rewrite app_nil_r. split; [tauto|].
      intros x [= <-]. by apply full_answers, Hr.
    + intros e new [-> _]. rewrite app_nil_r. split; [tauto|by intros x [=]].
Qed.

Lemma with_ns_spec ctx doms :
  length doms = length (ctx_items ctx) ->
  spec (with_ns deps ctx doms) (batch_effects (zip (ctx_items ctx) doms)).
Proof.
  intros Hd. unfold with_ns. set (jobs := zip (ctx_items ctx) doms).
  assert (Hnone : forall e, batch_effects jobs (Exn e) []).
  { intros e. exists [], []. split_and!; [done|by left|constructor|by intros x [=]]. }
  eapply spec_bind; [apply resolve_all_spec| |by intros e new ->]. intros [resolved ip_lists] new ->.
  eapply (spec_bind _ _ (fun _ new => new = [])); [by apply spec_ask| |by intros e new ->]. intros stop new ->.
  destruct stop.
  { apply finalize_effects; [done|apply full_answers, skipped_about|by left]. }
  destruct (_ && _).
  { apply finalize_effects; [done| |by left]. apply full_answers. unfold dns_nodata_results. cbn [br_results].
    by rewrite phase_about, skipped_about. }
  eapply (spec_bind _ _ (ran jobs)); [apply ran_spec| |].
  - intros b s [Hs Hb]. apply finalize_effects; [done|by apply Hb|]. destruct Hs as [?|[?|[[=] _]]]; auto.
  - intros e s [Hs _]. exists s, []. rewrite app_nil_r. split_and!; [done| |constructor|by intros x [=]].
    destruct Hs as [?|[?|[_ ?]]]; auto 6.
Qed.

Lemma item_domains_length ctx doms : item_domains ctx = Done doms -> length doms = length (ctx_items ctx).
Proof.
  unfold item_domains. destruct (ctx_domains ctx) as [ds|]; [|intros [= <-]; apply length_replicate].
  destruct (Nat.eqb_spec (length ds) (length (ctx_items ctx))); [|done]. by intros [= <-].
Qed.

(** What is done for the items, or the exception that comes first. *)
Definition served (ctx : BatchContext) (r : res BatchProbeResult) (mid : list effect) : Prop :=
  (exists e, r = Exn e /\ mid = []) \/
  exists doms, item_domains ctx = Done doms /\ batch_effects (zip (ctx_items ctx) doms) r mid.

(** Without a namespace only rows are logged; with one, the lease is around all of it. *)
Definition leased (ctx : BatchContext) (r : res BatchProbeResult) (new : list effect) : Prop :=
  served ctx r new /\ Forall logging new \/
  exists ns mid, new = (EAcquired ns :: mid ++ [EReleased ns])%list /\ served ctx r mid.

Lemma served_exn ctx r e mid : served ctx r mid -> served ctx (Exn e) mid.
Proof.
  intros [(e' & -> & ->)|(doms & Hd & s & l & -> & Hs & Hl & _)]; [left; by exists e|].
  right. exists doms. split; [done|]. exists s, l. split_and!; [done| |done|by intros x [=]].
  destruct Hs as [?|[?|(? & ? & _)]]; auto 6.
Qed.

Lemma unserved_spec ctx error backend :
  spec (doms ← lift (item_domains ctx);
        finalize_batch deps ctx doms [] (BatchResult (skipped_results error (ctx_items ctx) doms) backend))
    (leased ctx).
Proof.
  eapply (spec_bind _ _ (fun r new => new = [] /\ returns (fun d => item_domains ctx = Done d) r)).
  - apply spec_lift. intros _. split; [done|]. by intros d.
  - intros doms new [-> Hd]. specialize (Hd doms eq_refl). pose proof (item_domains_length _ _ Hd) as Hn.
    assert (Ha := full_answers _ _ (skipped_about error (ctx_items ctx) doms)).
    eapply spec_weaken; [by apply finalize_spec|]. intros r l _ [Hl Hr]. left. split; [|done].
    right. exists doms. split; [done|]. exists [], l. split_and!; [done|by left|done|].
    intros b Hb. destruct (Hr b Hb) as [H1 H2]. split; [done|by exists []].
  - intros e new [-> _]. left. split; [left; by exists e|constructor].
Qed.

Lemma run_batch_spec ctx : spec (run_batch deps ctx) (leased ctx).
Proof.
  unfold run_batch.
  assert (Hnone : forall e, leased ctx (Exn e) []).
  { intros e. left. split; [left; by exists e|constructor]. }
  eapply (spec_bind _ _ (fun _ new => new = [])); [by apply spec_ask| |by intros e new ->]. intros stop new ->.
  destruct stop; [apply unserved_spec|].
  eapply (spec_bind _ _ (fun _ new => new = [])); [by apply spec_ask| |by intros e new ->]. intros [ns|] new ->; [|apply unserved_spec].
  eapply (spec_bind _ _ (fun _ new => new = [])); [by apply spec_lift| |by intros e new ->]. clear ns. intros ns new ->.
  eapply (spec_bind _ _ (fun r new => r = Done tt /\ new = [EAcquired ns])); [by apply spec_emit| |by intros e new [[=] _]].
  intros _ new [_ ->].
  apply (spec_finally _ _ (served ctx) (fun _ new => new = [EReleased ns])).
  - eapply (spec_bind _ _ (fun r new => new = [] /\ returns (fun d => item_domains ctx = Done d) r)).
    + apply spec_lift. intros _. split; [done|]. by intros d.
    + intros doms new [-> Hd]. specialize (Hd doms eq_refl).
      eapply spec_weaken; [apply with_ns_spec, item_domains_length, Hd|]. intros r mid _ Hb. right. by exists doms.
    + intros e new [-> _]. left. by exists e.
  - eapply (spec_bind _ _ (fun _ new => new = [EReleased ns])); [by apply spec_emit| |by intros e new ->].
    intros _ new ->. by apply spec_call.
  - intros r mid new' _ Hm ->. right. by exists ns, mid.
  - intros r e mid new' _ Hm ->. right. exists ns, mid. split; [done|by eapply served_exn].
Qed.
End Runs.

(** ** A batch is never lost *)

(** Every exception of the code has [P]. *)
Definition raises {W A} (P : exn -> Prop) (c : M W A) : Prop := spec c (fun r _ => forall e, r = Exn e -> P e).

Lemma raises_bind {W A B} P (c : M W A) (f : A -> M W B) :
  raises P c -> (forall a, raises P (f a)) -> raises P (c ≫= f).
Proof.
  intros Hc Hf. eapply spec_bind; [exact Hc| |].
  - intros a new _. eapply spec_weaken; [apply Hf|]. by intros r new' _ H.
  - intros e new He e' [= <-]. by apply He.
Qed.

Lemma raises_finally {W A} P (c : M W A) fin : raises P c -> raises P fin -> raises P (finally c fin).
Proof.
  intros Hc Hf. eapply spec_finally; [exact Hc|exact Hf| |].
  - intros r new new' _ H _. exact H.
  - intros r e new new' _ _ He e' [= <-]. by apply He.
Qed.

Lemma spec_and {W A} (c : M W A) (Q1 Q2 : res A -> list effect -> Prop) :
  spec c Q1 -> spec c Q2 -> spec c (fun r new => Q1 r new /\ Q2 r new).
Proof.
  intros H1 H2 w tr r w' tr' H Hr. destruct (H1 _ _ _ _ _ H Hr) as (new & -> & HQ1).
  destruct (H2 _ _ _ _ _ H Hr) as (new2 & E & HQ2). apply app_inv_head in E as <-. eauto.
Qed.

(** What only raises errors is caught. *)
Lemma raises_catch {W A} P (c : M W A) h :
  raises (fun e => e <> Cancelled) c -> (forall msg, raises P (h msg)) -> raises P (catch c h).
Proof.
  intros Hc Hh. eapply spec_catch; [exact Hc| |].
  - intros r new He Hno e ->. specialize (He e eq_refl). destruct e as [msg|]; [by destruct (Hno msg)|done].
  - intros msg new _. eapply spec_weaken; [apply Hh|]. by intros r new' _ H.
Qed.

(** The calls of the event loop do not fail, no cancellation arrives, and a failed batch has its results;
    what runs in the thread may raise any error. *)
Class Reliable {W} {RM : ResultMaker} (deps : Deps W) : Prop := {
  dns_ok d w e : (resolve_domain_dns deps d w).1 <> Exn e;
  ips_ok d w e : (resolve_domain_ips deps d w).1 <> Exn e;
  log_ok it dom r dns w e : (log_tcp_result deps it dom r dns w).1 <> Exn e;
  acquire_ok w e : (acquire_ns deps w).1 <> Some (Exn e);
  release_ok ns w e : (release_ns deps ns w).1 <> Exn e;
  no_cancel w : (cancel_arrives deps w).1 = Undisturbed;
  fail_ok it dom error id e : tcp_result_from_data it dom (fail_data error id) <> Exn e;
  result_error it dom d : tcp_result_from_data it dom d <> Exn Cancelled;
  text_error it w : (strategy_text deps it w).1 <> Exn Cancelled;
  boot_error w : (boot deps w).1 <> Exn Cancelled;
  shutdown_error w : (shutdown deps w).1 <> Exn Cancelled;
  check_error idx gen it dom ip ips w : (run_tcp_check deps idx gen it dom ip ips w).1 <> Exn Cancelled
}.

Lemma raises_call {W A} (P : exn -> Prop) (f : W -> res A * W) :
  (forall w e, (f w).1 = Exn e -> P e) -> raises P (call f).
Proof.
  intros Hf w tr r w' tr' H Hr. unfold call in H. destruct (f w) as [r1 w1] eqn:E. injection H as <- <- <-.
  exists []. rewrite app_nil_r. split; [done|]. intros e ->. apply (Hf w). by rewrite E.
Qed.

Lemma raises_ask {W A B} (P : exn -> Prop) (g : W -> A * W) (f : A -> M W B) :
  (forall w, raises P (f (g w).1)) -> raises P (ask g ≫= f).
Proof.
  intros Hf w tr r w' tr' H Hr. unfold ask, mbind, X_bind in H. specialize (Hf w).
  destruct (g w) as [a w1]. exact (Hf _ _ _ _ _ H Hr).
Qed.

Create HintDb lost.

(** The exceptions of a sequence, with those of its calls in the context or in [lost]. *)
Ltac raising :=
  repeat match goal with
  | |- raises _ _ => solve [auto with lost nocore]
  | |- raises _ (_ ≫= _) => apply raises_bind; [|intros ?]
  | |- raises _ (mret _) => by apply spec_ret
  | |- raises _ (emit _) => by apply spec_emit
  | |- raises _ (ask _) => by apply spec_ask
  | |- raises _ (finally _ _) => apply raises_finally
  | |- raises _ (if ?b then _ else _) => destruct b
  | |- raises _ (match ?x with _ => _ end) => destruct x
  end.

Section Never.
Context {W : Type} {RM : ResultMaker} (deps : Deps W) {R : Reliable deps}.
Notation thread := (raises (fun e => e <> Cancelled)).
Notation safe := (raises (fun _ => False)).

Lemma thread_boot : thread (call (boot deps)).
Proof. apply raises_call. intros w e He ->. by destruct (boot_error w). Qed.
Lemma thread_shutdown : thread (call (shutdown deps)).
Proof. apply raises_call. intros w e He ->. by destruct (shutdown_error w). Qed.
Lemma thread_text it : thread (call (strategy_text deps it)).
Proof. apply raises_call. intros w e He ->. by destruct (text_error it w). Qed.
Lemma thread_check idx gen it dom ip ips : thread (call (run_tcp_check deps idx gen it dom ip ips)).
Proof. apply raises_call. intros w e He ->. by destruct (check_error idx gen it dom ip ips w). Qed.
Lemma thread_result it dom d : thread (lift (tcp_result_from_data it dom d) : M W _).
Proof. apply spec_lift. intros _ e He ->. by destruct (result_error (deps := deps) it dom d). Qed.
#[local] Hint Resolve thread_boot thread_shutdown thread_text thread_check thread_result : lost.

Lemma thread_reboot : thread (reboot_daemon deps).
Proof. unfold reboot_daemon, do_boot. raising. Qed.
#[local] Hint Resolve thread_reboot : lost.

Lemma thread_before d : thread (before_item deps d).
Proof. unfold before_item, maybe_recycle, record_daemon_mem, daemon_heartbeat_stale. raising. Qed.

Lemma thread_item ctx resolved ip_lists idx it dom : thread (probe_item deps ctx resolved ip_lists idx it dom).
Proof. unfold probe_item, tcp_check. cbv zeta. raising. Qed.
#[local] Hint Resolve thread_before thread_item : lost.

Lemma thread_loop ctx resolved ip_lists jobs : forall idx d, thread (probe_loop deps ctx resolved ip_lists idx d jobs).
Proof. induction jobs as [|[it dom] jobs IH]; intros idx d; cbn [probe_loop]; raising. Qed.

Lemma thread_texts items : thread (strategy_texts deps items).
Proof. induction items as [|it items IH]; cbn [strategy_texts]; raising. Qed.
#[local] Hint Resolve thread_loop thread_texts : lost.

Lemma thread_batch ctx resolved ip_lists doms : thread (run_lua_bridge_batch deps ctx resolved ip_lists doms).
Proof.
  unfold run_lua_bridge_batch, do_boot, bridge_ready_fence, record_daemon_mem, daemon_heartbeat_stale. raising.
Qed.
#[local] Hint Resolve thread_batch : lost.

Lemma safe_fail error id jobs : safe (fail_results error id jobs : M W _).
Proof.
  induction jobs as [|[it dom] jobs IH]; cbn [fail_results]; raising.
  apply spec_lift. intros _ e He. by destruct (fail_ok (deps := deps) it dom error id e).
Qed.

Lemma safe_resolve doms : safe (resolve_all deps doms).
Proof.
  induction doms as [|d doms IH]; cbn [resolve_all]; raising; apply raises_call; intros w e He.
  - by destruct (dns_ok (deps := deps) d w e).
  - by destruct (ips_ok (deps := deps) d w e).
Qed.

Lemma safe_log resolved jobs : forall rs, length rs = length jobs -> safe (log_all deps resolved jobs rs).
Proof.
  induction jobs as [|[it dom] jobs IH]; intros rs Hl; destruct rs as [|x rs]; [by apply spec_ret|done|done|].
  cbn [log_all]. cbv zeta. injection Hl as Hl.
  - apply raises_bind; [by apply spec_emit|intros _]. apply raises_bind; [|intros _; by apply IH].
    apply raises_call. intros w e He. by destruct (log_ok (deps := deps) it dom x _ w e He).
Qed.

Lemma safe_finalize ctx doms resolved b :
  length doms = length (ctx_items ctx) -> answers (zip (ctx_items ctx) doms) (br_results b) ->
  safe (finalize_batch deps ctx doms resolved b).
Proof.
  intros Hd Ha. unfold finalize_batch. cbv zeta. apply raises_bind; [|intros _; by apply spec_ret].
  apply safe_log. by rewrite <- (length_fmap about), pad_about.
Qed.

Lemma safe_with_ns ctx doms : length doms = length (ctx_items ctx) -> safe (with_ns deps ctx doms).
Proof.
  intros Hd. unfold with_ns. apply raises_bind; [apply safe_resolve|]. intros [resolved ip_lists].
  apply raises_bind; [by apply spec_ask|]. intros stop. destruct stop.
  { apply safe_finalize; [done|apply full_answers, skipped_about]. }
  destruct (_ && _).
  { apply safe_finalize; [done|]. apply full_answers. unfold dns_nodata_results. cbn [br_results].
    by rewrite phase_about, skipped_about. }
  eapply spec_bind; [apply spec_and; [apply ran_spec|]| |].
  - apply (raises_catch (fun _ => False)).
    + apply raises_ask. intros w. rewrite no_cancel. apply thread_batch.
    + intros msg. apply raises_bind; [apply safe_fail|]. intros rs. by apply spec_ret.
  - intros b s [[_ Hb] _]. eapply spec_weaken; [by apply safe_finalize; [|apply Hb]|]. by intros r new _ H.
  - intros e s [_ He]. by destruct (He e eq_refl).
Qed.

Lemma safe_domains ctx doms f : item_domains ctx = Done doms -> safe (f doms) -> safe (lift (item_domains ctx) ≫= f : M W BatchProbeResult).
Proof. intros -> H. exact H. Qed.

Lemma safe_unserved ctx doms error backend :
  item_domains ctx = Done doms ->
  safe (doms ← lift (item_domains ctx);
        finalize_batch deps ctx doms [] (BatchResult (skipped_results error (ctx_items ctx) doms) backend)).
Proof.
  intros Hd. eapply safe_domains; [exact Hd|]. pose proof (item_domains_length _ _ Hd).
  apply safe_finalize; [done|apply full_answers, skipped_about].
Qed.

Lemma safe_run ctx doms : item_domains ctx = Done doms -> safe (run_batch deps ctx).
Proof.
  intros Hd. pose proof (item_domains_length _ _ Hd) as Hn. unfold run_batch.
  apply raises_bind; [by apply spec_ask|]. intros stop. destruct stop; [by eapply safe_unserved|].
  apply raises_ask. intros w. pose proof (acquire_ok w) as Hok.
  destruct ((acquire_ns deps w).1) as [ns|]; [|by eapply safe_unserved].
  destruct ns as [ns|e|]; [|by destruct (Hok e)|by intros ????? [= <- <- <-]].
  apply (raises_bind _ (emit (EAcquired ns))); [by apply spec_emit|intros _]. apply raises_finally.
  - eapply safe_domains; [exact Hd|]. by apply safe_with_ns.
  - apply raises_bind; [by apply spec_emit|intros _]. apply raises_call. intros w' e He.
    by destruct (release_ok ns w' e).
Qed.
End Never.

(** ** The contract of a batch *)

Lemma session_silent jobs s : s = [] \/ daemon_session jobs s -> filter logging s = [].
Proof.
  intros [->|(l & -> & [Hl _])]; [done|]. rewrite filter_cons, decide_False, filter_app by done.
  rewrite (filter_cons_False _ EShutdown), filter_nil, app_nil_r by done.
  induction Hl as [|e l [->|(k & gen & it & dom & -> & _)] _ IH]; [done|by rewrite filter_cons_False..].
Qed.

Lemma filter_logs l : Forall logging l -> filter logging l = l.
Proof. induction 1 as [|e l He _ IH]; [done|]. by rewrite filter_cons_True, IH. Qed.

Section Contract.
Context {W : Type} {RM : ResultMaker} (deps : Deps W).

(** C3. A batch that returns answers its items one by one: the results are about the items and their
    domains, in order and without a gap, and exactly one row per item is logged, with its result, in the
    same order, whatever was stopped, skipped, not probed or failed on the way. *)
Theorem run_batch_answers ctx w tr b w' tr' :
  run_batch deps ctx (w, tr) = (Done b, (w', tr')) ->
  exists doms resolved new, item_domains ctx = Done doms /\ tr' = (tr ++ new)%list /\
    about <$> br_results b = zip (ctx_items ctx) doms /\
    filter logging new = logs resolved (zip (ctx_items ctx) doms) (br_results b).
Proof.
  intros H. destruct (run_batch_spec deps ctx _ _ _ _ _ H) as (new & -> & Hn); [done|].
  assert (Hs : exists mid, served ctx (Done b) mid /\ filter logging new = filter logging mid).
  { destruct Hn as [[Hs _]|(ns & mid & -> & Hs)]; [by exists new|]. exists mid. split; [done|].
    by rewrite filter_cons_False, filter_app, (filter_cons_False _ (EReleased ns)), filter_nil, app_nil_r. }
  destruct Hs as (mid & [(e & [=] & _)|(doms & Hd & s & l & -> & Hs & Hl & Hb)] & Hf).
  destruct (Hb b eq_refl) as [Ha [resolved Hlog]]. exists doms, resolved, new. split_and!; [done|done|done|].
  assert (Hs' : s = [] \/ daemon_session (zip (ctx_items ctx) doms) s) by (destruct Hs as [?|[?|(_ & _ & Hd')]]; [auto|auto|by destruct (Hd' b)]).
  by rewrite Hf, filter_app, (session_silent _ _ Hs'), app_nil_l, filter_logs.
Qed.


(** C22. A batch is never lost: whatever error the daemon, a probe or the reading of its data raises in the
    thread, the batch returns results, as long as the calls of the event loop succeed and the batch is not
    cancelled. *)
Theorem run_batch_never_lost ctx doms w tr r w' tr' :
  Reliable deps -> item_domains ctx = Done doms ->
  run_batch deps ctx (w, tr) = (r, (w', tr')) -> r <> Off -> exists b, r = Done b.
Proof.
  intros Hrel Hd H Hr. destruct (safe_run deps ctx doms Hd _ _ _ _ _ H Hr) as (new & _ & He).
  destruct r as [b|e|]; [by exists b|by destruct (He e)|done].
Qed.
End Contract.

(** ** Examples *)

(** A world of nothing: every call succeeds, and the first boot fails when [broken]. *)
Definition ex_deps_at (cancel : cancellation) (broken : bool) : Deps unit := {|
  acquire_ns w := (Some (Done "bc1"), w); release_ns _ w := (Done tt, w);
  resolve_domain_dns _ w := (Done (Some "1.2.3.4", "ok", "doh"), w); resolve_domain_ips _ w := (Done ["1.2.3.4"], w);
  stop_is_set w := (false, w); log_tcp_result _ _ _ _ w := (Done tt, w); next_probe_gen w := (7%Z, w);
  secure_dns := true; cancel_arrives w := (cancel, w); strategy_text _ w := (Done "fake", w);
  boot w := (if broken then Exn (Error "boot failed") else Done tt, w); shutdown w := (Done tt, w);
  wait_heartbeat w := (true, w); heartbeat_age w := (Some (Some f_zero), w); debug_env w := (EmptyString, w);
  has_monitor := false; recycle_candidates w := ([], w); record_mem w := (tt, w);
  run_tcp_check _ _ _ _ _ _ w := (Done [("success", JBool true); ("bridge_applied", JBool false)], w)
|}.

Definition ex_deps : bool -> Deps unit := ex_deps_at Undisturbed.

Definition ex_executor : ResultMaker := executor (fun _ => "invalid literal").
#[local] Existing Instance ex_executor.

Definition ex_ctx : BatchContext :=
  Ctx [mk_item "a" "fake"; mk_item "b" "multisplit:pos=1"] "a.com" 3 "tls12" None.

Definition ex_run (broken : bool) := run_batch (ex_deps broken) ex_ctx (tt, []).

(** A silent bridge: each item is probed twice, with a reboot between. *)
Example ex_trace :
  filter (fun e => is_log e = false) (ex_run false).2.2 =
  [EAcquired "bc1"; EBoot;
   EProbe 1 7 (mk_item "a" "fake") "a.com"; EBoot; EProbe 1 7 (mk_item "a" "fake") "a.com";
   EProbe 2 7 (mk_item "b" "multisplit:pos=1") "a.com"; EBoot; EProbe 2 7 (mk_item "b" "multisplit:pos=1") "a.com";
   EShutdown; EReleased "bc1"].
Proof. vm_compute. reflexivity. Qed.

(** A cancellation in the middle of the first probe: the namespace is released while the thread still has to probe. *)
Example cancel_releases_early :
  run_batch (ex_deps_at (Amid 2) false) ex_ctx (tt, []) =
  (Exn Cancelled, (tt,
   [EAcquired "bc1"; EBoot; EProbe 1 7 (mk_item "a" "fake") "a.com";
    ELeft [EBoot; EProbe 1 7 (mk_item "a" "fake") "a.com";
           EProbe 2 7 (mk_item "b" "multisplit:pos=1") "a.com"; EBoot; EProbe 2 7 (mk_item "b" "multisplit:pos=1") "a.com"; EShutdown];
    EReleased "bc1"])).
Proof. vm_compute. reflexivity. Qed.

Definition ex_answer (broken : bool) : BatchProbeResult :=
  match (ex_run broken).1 with Done b => b | _ => BatchResult [] EmptyString end.

Lemma ex_run_eq broken : ex_run broken = (Done (ex_answer broken), (tt, (ex_run broken).2.2)).
Proof. by destruct broken; vm_compute. Qed.

Example run_batch_answers_witness :
  exists doms resolved new, item_domains ex_ctx = Done doms /\ (ex_run true).2.2 = ([] ++ new)%list /\
    about <$> br_results (ex_answer true) = zip (ctx_items ex_ctx) doms /\
    filter logging new = logs resolved (zip (ctx_items ex_ctx) doms) (br_results (ex_answer true)).
Proof. exact (run_batch_answers (ex_deps true) ex_ctx tt [] _ tt _ (ex_run_eq true)). Defined.


#[local] Instance ex_reliable : Reliable (ex_deps true).
Proof.
  split; try done.
  - intros it dom error id e. cbn [tcp_result_from_data ex_executor executor]. by rewrite fail_data_result.
  - intros it dom d. apply result_no_cancel.
Qed.

Example run_batch_never_lost_witness : exists b, (ex_run true).1 = Done b.
Proof.
  refine (run_batch_never_lost (ex_deps true) ex_ctx ["a.com"; "a.com"] tt [] _ tt _ ex_reliable eq_refl (ex_run_eq true) _).
  discriminate.
Defined.
