(* ===== verification/Sha256.v ===== *)
(** * SHA-256

    [hashlib.sha256(data).hexdigest()] (FIPS 180-4), which [engine/store/sqlite_store.py] takes of the
    text of a strategy matrix. Words are integers below [2^32] with the wrap-around written out. *)

From stdpp Require Import base numbers list strings.
From Stdlib Require Import ZArith Lia Ascii.
From S2P Require Import Prelude PyStr Blake2s.

#[local] Open Scope Z_scope.

(** The constants, as the standard derives them: the first 32 bits of the fractional parts of the square
    roots of the first 8 primes and of the cube roots of the first 64 primes. *)
Definition is_prime (n : Z) : bool := forallb (fun d => negb (n mod Z.of_nat d =? 0)) (seq 2 (Z.to_nat (Z.sqrt n) - 1)).
Definition primes_64 : list Z := filter (fun n => is_prime n = true) (Z.of_nat <$> seq 2 310).

(** The integer cube root, bit by bit from bit [b - 1] of [acc] on. *)
Fixpoint cbrt_from (b : nat) (acc n : Z) : Z :=
  match b with
  | O => acc
  | S b => let r := acc + 2 ^ Z.of_nat b in cbrt_from b (if r * r * r <=? n then r else acc) n
  end.

Definition sha_H : list Z := Eval vm_compute in
  (fun p => Z.sqrt (p * 2 ^ 64) mod 2 ^ 32) <$> take 8 primes_64.
Definition sha_K : list Z := Eval vm_compute in
  (fun p => cbrt_from 36 0 (p * 2 ^ 96) mod 2 ^ 32) <$> primes_64.

Definition sha_ch (x y z : Z) : Z := Z.lxor (Z.land x y) (Z.land (Z.lxor x (2 ^ 32 - 1)) z).
Definition sha_maj (x y z : Z) : Z := Z.lxor (Z.land x y) (Z.lxor (Z.land x z) (Z.land y z)).
Definition sha_S0 (x : Z) : Z := Z.lxor (rotr32 x 2) (Z.lxor (rotr32 x 13) (rotr32 x 22)).
Definition sha_S1 (x : Z) : Z := Z.lxor (rotr32 x 6) (Z.lxor (rotr32 x 11) (rotr32 x 25)).
Definition sha_s0 (x : Z) : Z := Z.lxor (rotr32 x 7) (Z.lxor (rotr32 x 18) (Z.shiftr x 3)).
Definition sha_s1 (x : Z) : Z := Z.lxor (rotr32 x 17) (Z.lxor (rotr32 x 19) (Z.shiftr x 10)).

(** The message schedule: [n] more words after those of [w], the latest first. *)
Fixpoint sha_schedule (n : nat) (w : list Z) : list Z :=
  match n with
  | O => w
  | S n =>
      let x := word32 (sha_s1 (at_ 1 w) + at_ 6 w + sha_s0 (at_ 14 w) + at_ 15 w) in
      sha_schedule n (x :: w)
  end.

(** One round on the working variables [a..h]. *)
Definition sha_round (v : list Z) (kw : Z * Z) : list Z :=
  match v with
  | [a; b; c; d; e; f; g; h] =>
      let t1 := word32 (h + sha_S1 e + sha_ch e f g + kw.1 + kw.2) in
      let t2 := word32 (sha_S0 a + sha_maj a b c) in
      [word32 (t1 + t2); a; b; c; word32 (d + t1); e; f; g]
  | _ => v
  end.

(** The big-endian words of a block. *)
Definition be_word (b : list Z) : Z := foldl (fun acc x => 256 * acc + x) 0 b.
Definition be_words (b : list Z) : list Z := (fun i => be_word (take 4 (drop (4 * i) b))) <$> seq 0 16.

Definition sha_compress (h : list Z) (block : list Z) : list Z :=
  let w := rev (sha_schedule 48 (rev (be_words block))) in
  zip_with (fun a b => word32 (a + b)) h (foldl sha_round h (zip sha_K w)).

(** The length in bits, in eight bytes. *)
Definition be_bytes (n : nat) (z : Z) : list Z := (fun i => Z.land (Z.shiftr z (8 * Z.of_nat (n - 1 - i))) 255) <$> seq 0 n.

Definition sha_pad (bytes : list Z) : list Z :=
  let n := length bytes in
  bytes ++ [0x80] ++ replicate ((119 - n mod 64) mod 64) 0 ++ be_bytes 8 (8 * Z.of_nat n).

Definition sha256 (bytes : list Z) : list Z := foldl sha_compress sha_H (windows 64 (sha_pad bytes)).

Definition sha256_hex (data : string) : string :=
  join EmptyString (hex_byte <$> (w ← sha256 (bytes_of data); be_bytes 4 w)).

Example sha256_empty :
  sha256_hex EmptyString = "e3b0c44298fc1c149afbf4c8996fb92427ae41e4649b934ca495991b7852b855"%string.
Proof. vm_compute. reflexivity. Qed.

Example sha256_abc :
  sha256_hex "abc" = "ba7816bf8f01cfea414140de5dae2223b00361a396177a9cb410ff61f20015ad"%string.
Proof. vm_compute. reflexivity. Qed.

(** Two blocks. *)
Example sha256_two_blocks :
  sha256_hex "abcdbcdecdefdefgefghfghighijhijkijkljklmklmnlmnomnopnopq" =
  "248d6a61d20638b8e5c026930c3e6039a33ce45964ff2167f6ecedd419db06c1"%string.
Proof. vm_compute. reflexivity. Qed.
