(* ===== verification/RunStore.v ===== *)
(** * The run state store: [engine/store/sqlite_store.py], [engine/store/schema.py]

    The tables, the writes and the campaign runs of the store. A table is its rows with their ROWIDs and
    the counter of AUTOINCREMENT; SQLite itself is the class [Sqlite]: which larger ROWID comes next, and
    in which order rows come that no ORDER BY sorts. Pragmas, indexes, checkpoints of the write-ahead log
    and file ownership are left out; a NaN, which SQLite would store as NULL, is only followed where a
    column refuses it. *)

From stdpp Require Import base numbers list strings sorting.
From Stdlib Require Import ZArith Lia Ascii.
From S2P Require Import Prelude PyFloat PyStr PyDict Weights Blake2s Sha256.

#[local] Open Scope string_scope.

(** ** SQLite *)

Class Sqlite : Type := {
  next_rowid : Z -> Z;                       (* the ROWID after the largest one so far *)
  after_conflict : Z -> Z;                   (* an upsert that updates may use a ROWID up *)
  row_order : forall {A}, list A -> list A;  (* rows as a query without ORDER BY returns them *)
  next_rowid_above n : (n < next_rowid n)%Z;
  after_conflict_above n : (n <= after_conflict n)%Z;
  row_order_perm {A} (l : list A) : row_order l ≡ₚ l
}.

#[export, program] Instance plain_sqlite : Sqlite := {|
  next_rowid n := (n + 1)%Z; after_conflict n := n; row_order A l := l
|}.
Next Obligation. intros n. cbn. lia. Qed.
Next Obligation. intros n. cbn. lia. Qed.
Next Obligation. done. Qed.

Record table (A : Type) : Type := Table { rows : list (Z * A); counter : Z }.
Arguments Table {A} _ _. Arguments rows {A} _. Arguments counter {A} _.

Definition empty {A} : table A := Table [] 0.

Definition insert {A} `{Sqlite} (r : A) (t : table A) : Z * table A :=
  let id := next_rowid (counter t) in (id, Table (rows t ++ [(id, r)]) id).

(** ** Rows *)

Record Run : Type := RunRow {
  started_at : string; code_version : string; args_hash : string; fingerprint : string;
  impersonate : string; nfqws2_version : string
}.
Record StrategyRow : Type := Strategy { s_name : string; s_proto : string; s_config : string; s_first_seen : string }.

(** The data columns of a TCP result; the bridge verdict is a boolean in memory, an integer in the table. *)
Record tcp_data (B : Type) : Type := TcpData {
  d_domain : string; d_status : string; d_http : Z; d_latency : float; d_gateway : float; d_valid : Z;
  d_error : string; d_time : string; d_rate : float; d_ip : string; d_verdict : string; d_doh : string;
  d_phase : string; d_applied : option B; d_batch : Z; d_gen : Z; d_host : string; d_epoch : Z;
  d_settle : option float; d_len : option Z
}.
Arguments TcpData {B} _ _ _ _ _ _ _ _ _ _ _ _ _ _ _ _ _ _ _ _.
Arguments d_domain {B} _. Arguments d_status {B} _. Arguments d_http {B} _. Arguments d_latency {B} _.
Arguments d_gateway {B} _. Arguments d_valid {B} _. Arguments d_error {B} _. Arguments d_time {B} _.
Arguments d_rate {B} _. Arguments d_ip {B} _. Arguments d_verdict {B} _. Arguments d_doh {B} _.
Arguments d_phase {B} _. Arguments d_applied {B} _. Arguments d_batch {B} _. Arguments d_gen {B} _.
Arguments d_host {B} _. Arguments d_epoch {B} _. Arguments d_settle {B} _. Arguments d_len {B} _.

(** [t_run] is NULL in rows of databases before the runs table. *)
Record TcpRow : Type := TcpResultRow { t_run : option Z; t_strategy : Z; t_data : tcp_data Z }.
Record UdpRow : Type := UdpResultRow {
  u_run : option Z; u_strategy : Z; u_target : string; u_status : string; u_latency : float; u_error : string;
  u_time : string; u_epoch : Z
}.
Record PairRow : Type := PairResultRow {
  p_tcp : string; p_udp : string; p_domain : string; p_tcp_ok : Z; p_gateway_ok : Z; p_udp_ok : Z;
  p_tcp_ms : float; p_gateway_ms : float; p_udp_ms : float; p_overall : string; p_time : string
}.
Record Checkpoint : Type := CheckpointRow {
  tcp_idx : Z; udp_idx : Z; c_time : string; c_note : string; c_fingerprint : string; tcp_label : string; udp_label : string
}.
Record DnsAuditRow : Type := DnsAudit {
  a_domain : string; a_udp_ips : string; a_doh_ips : string; a_verdict : string; a_doh : string; a_time : string
}.

Record db : Type := Db {
  runs : table Run; strategies : table StrategyRow; tcp_results : table TcpRow; udp_results : table UdpRow;
  pair_results : table PairRow; checkpoints : table Checkpoint; dns_audit_results : table DnsAuditRow;
  quarantined : list (string * (string * Z * string));   (* domain; reason, failed, created *)
  scan_weights : list (string * (float * string));       (* key; weight, updated_at *)
  triage_snapshots : table (string * string * string)    (* domain, payload_json, created_at *)
}.

Definition new_db : db := Db empty empty empty empty empty empty empty [] [] empty.

Definition set_runs t d := Db t (strategies d) (tcp_results d) (udp_results d) (pair_results d) (checkpoints d)
  (dns_audit_results d) (quarantined d) (scan_weights d) (triage_snapshots d).
Definition set_strategies t d := Db (runs d) t (tcp_results d) (udp_results d) (pair_results d) (checkpoints d)
  (dns_audit_results d) (quarantined d) (scan_weights d) (triage_snapshots d).
Definition set_tcp t d := Db (runs d) (strategies d) t (udp_results d) (pair_results d) (checkpoints d)
  (dns_audit_results d) (quarantined d) (scan_weights d) (triage_snapshots d).
Definition set_udp t d := Db (runs d) (strategies d) (tcp_results d) t (pair_results d) (checkpoints d)
  (dns_audit_results d) (quarantined d) (scan_weights d) (triage_snapshots d).
Definition set_pairs t d := Db (runs d) (strategies d) (tcp_results d) (udp_results d) t (checkpoints d)
  (dns_audit_results d) (quarantined d) (scan_weights d) (triage_snapshots d).
Definition set_checkpoints t d := Db (runs d) (strategies d) (tcp_results d) (udp_results d) (pair_results d) t
  (dns_audit_results d) (quarantined d) (scan_weights d) (triage_snapshots d).
Definition set_audits t d := Db (runs d) (strategies d) (tcp_results d) (udp_results d) (pair_results d) (checkpoints d)
  t (quarantined d) (scan_weights d) (triage_snapshots d).
Definition set_quarantined q d := Db (runs d) (strategies d) (tcp_results d) (udp_results d) (pair_results d)
  (checkpoints d) (dns_audit_results d) q (scan_weights d) (triage_snapshots d).
Definition set_weights w d := Db (runs d) (strategies d) (tcp_results d) (udp_results d) (pair_results d)
  (checkpoints d) (dns_audit_results d) (quarantined d) w (triage_snapshots d).
Definition set_snapshots t d := Db (runs d) (strategies d) (tcp_results d) (udp_results d) (pair_results d)
  (checkpoints d) (dns_audit_results d) (quarantined d) (scan_weights d) t.

(** ** The store object *)

(** What [log_tcp] and [log_udp] buffer. *)
Record tcp_entry : Type := TcpEntry { e_strategy : string; e_proto : string; e_config : string; e_data : tcp_data bool }.
Record udp_entry : Type := UdpEntry {
  ue_strategy : string; ue_config : string; ue_target : string; ue_status : string; ue_latency : float;
  ue_error : string; ue_time : string; ue_epoch : Z
}.

Record store : Type := Store {
  st_db : db; st_run : option Z; batch_size : Z; st_resume : bool;
  tcp_pending : list tcp_entry; udp_pending : list udp_entry
}.

(** [SqliteRunStore(path, batch_size, resume=resume)] on the database of the file. *)
Definition open_store (d : db) (batch : Z) (resume : bool) : store := Store d None (Z.max 0 batch) resume [] [].

Definition set_db d s := Store d (st_run s) (batch_size s) (st_resume s) (tcp_pending s) (udp_pending s).
Definition set_run r s := Store (st_db s) (Some r) (batch_size s) (st_resume s) (tcp_pending s) (udp_pending s).
Definition set_pending ts us s := Store (st_db s) (st_run s) (batch_size s) (st_resume s) ts us.

(** ** Fingerprints *)

Definition newline : string := String (ascii_of_N 10) EmptyString.

Definition matrix_text (tcp udp : list string) (scan_level : string) (max_count : Z) : string :=
  join newline (py_sorted str_lt tcp ++ ["|"] ++ py_sorted str_lt udp
                ++ ["level=" +:+ scan_level; "max=" +:+ str_of_Z max_count]).

Definition matrix_fingerprint (tcp udp : list string) (scan_level : string) (max_count : Z) : string :=
  String.substring 0 16 (sha256_hex (matrix_text tcp udp scan_level max_count)).

Definition fingerprint_mismatch (checkpoint_fp : option string) (current_fp : string) : bool :=
  match checkpoint_fp with Some fp => nonempty fp && negb (String.eqb fp current_fp) | None => false end.

(** ** Retries *)

(** What an operation raises: an [OperationalError] with its text, or anything else. *)
Inductive sql_error : Type := Operational (msg : string) | OtherError.

Definition _SQLITE_RETRYABLE : list string := ["disk i/o"; "locked"; "busy"].
Definition _SQLITE_RETRY_ATTEMPTS : nat := 3.

Definition _retryable_sqlite (e : sql_error) : bool :=
  match e with
  | Operational msg => existsb (fun tok => contains tok (lower msg)) _SQLITE_RETRYABLE
  | OtherError => false
  end.

(** The attempts of [_sqlite_retry]: [n] is how many remain after this one. *)
Fixpoint sqlite_retry {W A} (op : W -> (A + sql_error) * W) (n : nat) (w : W) : (A + sql_error) * W :=
  match op w with
  | (inl a, w) => (inl a, w)
  | (inr e, w) =>
      match n with
      | S n => if _retryable_sqlite e then sqlite_retry op n w else (inr e, w)
      | O => (inr e, w)
      end
  end.

Definition _sqlite_retry {W A} (op : W -> (A + sql_error) * W) (w : W) : (A + sql_error) * W :=
  sqlite_retry op (_SQLITE_RETRY_ATTEMPTS - 1) w.

Section Writes.
Context {SQL : Sqlite}.

(** ** Runs *)

(** [SELECT id FROM runs WHERE fingerprint=? ORDER BY id DESC LIMIT 1] *)
Definition find_run (fp : string) (d : db) : option Z :=
  foldr (fun r best => if String.eqb (fingerprint r.2) fp
                       then Some (match best with Some b => Z.max r.1 b | None => r.1 end) else best)
    None (rows (runs d)).

Definition begin_run_on_db (use_resume : bool) (r : Run) (s : store) : Z * store :=
  match (if use_resume && nonempty (fingerprint r) then find_run (fingerprint r) (st_db s) else None) with
  | Some id => (id, set_run id s)
  | None =>
      let '(id, t) := insert r (runs (st_db s)) in
      (id, set_run id (set_db (set_runs t (st_db s)) s))
  end.

(** [begin_run]; [resume] is the argument, [r] the row with the versions and the time filled in. *)
Definition begin_run (resume : option bool) (r : Run) (s : store) : Z * store :=
  begin_run_on_db (default (st_resume s) resume) r s.

(** [_ensure_run_id_on_db]: without a run, a row with an empty fingerprint is begun. *)
Definition blank_run (r : Run) : Run :=
  RunRow (started_at r) (code_version r) EmptyString EmptyString (impersonate r) (nfqws2_version r).
Definition ensure_run_id (r : Run) (s : store) : Z * store :=
  match st_run s with Some id => (id, s) | None => begin_run_on_db false (blank_run r) s end.

(** ** Strategies *)

Definition is_strategy (name proto : string) (r : Z * StrategyRow) : bool :=
  String.eqb (s_name r.2) name && String.eqb (s_proto r.2) proto.

(** [ON CONFLICT(name, proto) DO UPDATE SET config_path=CASE ...] *)
Definition update_config (name proto config : string) (r : Z * StrategyRow) : Z * StrategyRow :=
  if is_strategy name proto r && nonempty config
  then (r.1, Strategy (s_name r.2) (s_proto r.2) config (s_first_seen r.2)) else r.

Definition ensure_strategy (name proto config ts : string) (d : db) : Z * db :=
  match find (is_strategy name proto) (rows (strategies d)) with
  | Some (id, _) =>
      (id, set_strategies (Table (update_config name proto config <$> rows (strategies d))
                                 (after_conflict (counter (strategies d)))) d)
  | None =>
      let '(id, t) := insert (Strategy name proto config ts) (strategies d) in (id, set_strategies t d)
  end.

(** ** Results *)

(** [_tcp_row_values] *)
Definition tcp_row_values (run sid : Z) (e : tcp_data bool) : TcpRow :=
  TcpResultRow (Some run) sid
    (TcpData (d_domain e) (d_status e) (d_http e) (d_latency e) (d_gateway e) (d_valid e) (d_error e) (d_time e)
       (d_rate e) (d_ip e) (d_verdict e) (d_doh e) (d_phase e) (Z.b2z <$> d_applied e) (d_batch e) (d_gen e)
       (d_host e) (d_epoch e) (d_settle e) (d_len e)).

Definition udp_row_values (run sid : Z) (e : udp_entry) : UdpRow :=
  UdpResultRow (Some run) sid (ue_target e) (ue_status e) (ue_latency e) (ue_error e) (ue_time e) (ue_epoch e).

Definition insert_tcp (r : TcpRow) (d : db) : db := set_tcp (insert r (tcp_results d)).2 d.
Definition insert_udp (r : UdpRow) (d : db) : db := set_udp (insert r (udp_results d)).2 d.

(** The arguments of [log_tcp] that it passes on, with the clock: the entry that both modes store. *)
Definition tcp_entry_of (strategy config proto : string) (content_valid : bool) (rate : float) (v : tcp_data bool) : tcp_entry :=
  TcpEntry strategy proto (if nonempty config then config else strategy)
    (TcpData (d_domain v) (d_status v) (d_http v) (d_latency v) (d_gateway v) (Z.b2z content_valid) (d_error v)
       (d_time v) (if feq rate f_zero then f_zero else rate) (d_ip v) (d_verdict v) (d_doh v) (d_phase v)
       (d_applied v) (d_batch v) (d_gen v) (d_host v) (d_epoch v) (d_settle v) (d_len v)).

(** [log_tcp] and [log_udp] without buffering: the row is written and committed at once. *)
Definition log_tcp_now (now : Run) (e : tcp_entry) (s : store) : store :=
  let '(run, s) := ensure_run_id now s in
  let '(sid, d) := ensure_strategy (e_strategy e) (e_proto e) (e_config e) (started_at now) (st_db s) in
  set_db (insert_tcp (tcp_row_values run sid (e_data e)) d) s.

Definition log_udp_now (now : Run) (e : udp_entry) (s : store) : store :=
  let '(run, s) := ensure_run_id now s in
  let '(sid, d) := ensure_strategy (ue_strategy e) "udp" (ue_config e) (started_at now) (st_db s) in
  set_db (insert_udp (udp_row_values run sid e) d) s.

(** [_ensure_strategy_cached] *)
Definition ensure_strategy_cached (ts name proto config : string) (cd : list ((string * string) * Z) * db)
    : Z * (list ((string * string) * Z) * db) :=
  let '(cache, d) := cd in
  match dget (name, proto) cache with
  | Some sid => (sid, (cache, d))
  | None => let '(sid, d) := ensure_strategy name proto config ts d in (sid, (dset (name, proto) sid cache, d))
  end.

Fixpoint tcp_rows_of (ts : string) (run : Z) (batch : list tcp_entry) (cd : list ((string * string) * Z) * db)
    : list TcpRow * (list ((string * string) * Z) * db) :=
  match batch with
  | [] => ([], cd)
  | e :: batch =>
      let '(sid, cd) := ensure_strategy_cached ts (e_strategy e) (e_proto e) (e_config e) cd in
      let '(rs, cd) := tcp_rows_of ts run batch cd in
      (tcp_row_values run sid (e_data e) :: rs, cd)
  end.

Fixpoint udp_rows_of (ts : string) (run : Z) (batch : list udp_entry) (cd : list ((string * string) * Z) * db)
    : list UdpRow * (list ((string * string) * Z) * db) :=
  match batch with
  | [] => ([], cd)
  | e :: batch =>
      let '(sid, cd) := ensure_strategy_cached ts (ue_strategy e) "udp" (ue_config e) cd in
      let '(rs, cd) := udp_rows_of ts run batch cd in
      (udp_row_values run sid e :: rs, cd)
  end.

(** The transaction of [flush]: strategies and rows of the TCP batch, then those of the UDP batch, with
    one cache. *)
Definition flush_tx (ts : string) (run : Z) (tcp : list tcp_entry) (udp : list udp_entry) (d : db) : db :=
  let '(trs, (cache, d)) := tcp_rows_of ts run tcp ([], d) in
  let d := foldl (fun d r => insert_tcp r d) d trs in
  let '(urs, (_, d)) := udp_rows_of ts run udp (cache, d) in
  foldl (fun d r => insert_udp r d) d urs.

(** ** The other tables *)

Definition log_pair (r : PairRow) (d : db) : db := set_pairs (insert r (pair_results d)).2 d.
Definition save_checkpoint (c : Checkpoint) (d : db) : db := set_checkpoints (insert c (checkpoints d)).2 d.
Definition write_dns_audit_log (r : DnsAuditRow) (d : db) : db := set_audits (insert r (dns_audit_results d)).2 d.
Definition save_triage_snapshot (r : string * string * string) (d : db) : db :=
  set_snapshots (insert r (triage_snapshots d)).2 d.

Definition quarantine_domain (domain reason : string) (failed : Z) (ts : string) (d : db) : db :=
  let created := match dget domain (quarantined d) with Some (_, _, c) => c | None => ts end in
  set_quarantined (dset domain (reason, failed, created) (quarantined d)) d.

(** The loop of [save_scan_weights]: a NaN is NULL to SQLite, which the column refuses. The rows before
    it stay in the transaction. *)
Fixpoint save_scan_weights (weights : list (string * float)) (ts : string) (d : db) : bool * db :=
  match weights with
  | [] => (true, d)
  | (k, w) :: weights =>
      if negb (feq w w) then (false, d)
      else save_scan_weights weights ts (set_weights (dset k (w, ts) (scan_weights d)) d)
  end.
End Writes.

(** ** Well-formed databases *)

Definition ids {A} (t : table A) : list Z := (rows t).*1.

(** ROWIDs grow and stay at or below the counter. *)
Definition table_ok {A} (t : table A) : Prop :=
  StronglySorted Z.lt (ids t) /\ Forall (fun i => (i <= counter t)%Z) (ids t).

Definition strategy_key (r : Z * StrategyRow) : string * string := (s_name r.2, s_proto r.2).

Record db_ok (d : db) : Prop := DbOk {
  ok_runs : table_ok (runs d);
  ok_strategies : table_ok (strategies d);
  ok_tcp : table_ok (tcp_results d);
  ok_udp : table_ok (udp_results d);
  ok_unique : NoDup (strategy_key <$> rows (strategies d));
  ok_refs : Forall (fun t => t_strategy t.2 ∈ ids (strategies d)) (rows (tcp_results d));
  ok_urefs : Forall (fun u => u_strategy u.2 ∈ ids (strategies d)) (rows (udp_results d))
}.

(** ROWIDs with the names they stand for. *)
Definition strategy_names (d : db) : list (Z * (string * string)) := prod_map id (fun s => (s_name s, s_proto s)) <$> rows (strategies d).
Definition name_of (d : db) (sid : Z) : option (string * string) := dget sid (strategy_names d).

Section Tables.
Context {SQL : Sqlite}.

Lemma insert_ids {A} (r : A) (t : table A) : ids (insert r t).2 = (ids t ++ [(insert r t).1])%list.
Proof. unfold ids, insert. cbn. by rewrite fmap_app. Qed.

Lemma insert_above {A} (r : A) (t : table A) i : table_ok t -> i ∈ ids t -> (i < (insert r t).1)%Z.
Proof.
  intros [_ Hle] Hi. cbn. rewrite Forall_forall in Hle. pose proof (Hle i Hi). pose proof (next_rowid_above (counter t)).
  lia.
Qed.

Lemma sorted_snoc l x : StronglySorted Z.lt l -> (forall y, y ∈ l -> (y < x)%Z) -> StronglySorted Z.lt (l ++ [x]).
Proof.
  induction 1 as [|y l Hs IH Hf]; intros Hx; [repeat constructor|]. cbn. constructor.
  - apply IH. intros z Hz. apply Hx. by right.
  - apply Forall_app. split; [done|]. repeat constructor. apply Hx. by left.
Qed.

Lemma insert_ok {A} (r : A) (t : table A) : table_ok t -> table_ok (insert r t).2.
Proof.
  intros Ht. split; rewrite insert_ids.
  - apply sorted_snoc; [apply Ht|]. intros y Hy. by apply insert_above.
  - apply Forall_app. split; [|repeat constructor; cbn; lia].
    eapply Forall_impl; [apply Ht|]. intros i Hi. cbn in Hi |- *. pose proof (next_rowid_above (counter t)). lia.
Qed.

Lemma ids_inj {A} (t : table A) a b : table_ok t -> a ∈ rows t -> b ∈ rows t -> a.1 = b.1 -> a = b.
Proof.
  intros [Hs _]. unfold ids in Hs. induction (rows t) as [|r l IH]; intros Ha Hb He; [by apply elem_of_nil in Ha|].
  cbn in Hs. inversion Hs as [|? ? Hs' Hf]; subst. rewrite Forall_forall in Hf.
  apply elem_of_cons in Ha as [->|Ha], Hb as [->|Hb]; [done| | |by apply IH].
  - specialize (Hf b.1 (list_elem_of_fmap_2 _ _ _ Hb)). lia.
  - specialize (Hf a.1 (list_elem_of_fmap_2 _ _ _ Ha)). lia.
Qed.

Lemma is_strategy_true name proto r : is_strategy name proto r = true <-> strategy_key r = (name, proto).
Proof.
  unfold is_strategy, strategy_key. rewrite andb_true_iff, !String.eqb_eq. split; [by intros [-> ->]|by intros [= -> ->]].
Qed.

Lemma update_config_id name proto config r : (update_config name proto config r).1 = r.1.
Proof. unfold update_config. by destruct (_ && _). Qed.
Lemma update_config_key name proto config r : strategy_key (update_config name proto config r) = strategy_key r.
Proof. unfold update_config. by destruct (_ && _). Qed.

(** ** Ensuring a strategy *)

(** The strategies of [d'] are those of [d], perhaps with other configurations, and maybe new ones. *)
Record grown (d d' : db) : Prop := Grown {
  grown_keys : strategy_names d `prefix_of` strategy_names d';
  grown_tcp : tcp_results d' = tcp_results d;
  grown_udp : udp_results d' = udp_results d;
  grown_runs : runs d' = runs d
}.

#[export] Instance grown_po : PreOrder grown.
Proof.
  split; [by intros d|]. intros a b c [H1 H2 H3 H4] [H5 H6 H7 H8].
  constructor; [by etrans|congruence..].
Qed.

Lemma names_lookup d r : db_ok d -> r ∈ rows (strategies d) -> name_of d r.1 = Some (strategy_key r).
Proof.
  intros Hok Hr. unfold name_of. apply elem_of_dict.
  - unfold wf, keys, strategy_names. rewrite <- list_fmap_compose. cbn.
    pose proof (proj1 (ok_strategies _ Hok)) as Hs. unfold ids in Hs.
    change (NoDup (rows (strategies d)).*1). clear Hr. induction Hs as [|i l _ IH Hf]; constructor; [|done].
    intros Hi. rewrite Forall_forall in Hf. specialize (Hf _ Hi). lia.
  - unfold strategy_names. apply list_elem_of_fmap. by exists r.
Qed.

Lemma name_of_grown d d' sid k : grown d d' -> name_of d sid = Some k -> name_of d' sid = Some k.
Proof.
  intros [[l Hl] _ _ _]. unfold name_of. rewrite Hl. generalize (strategy_names d). intros a.
  induction a as [|[i v] a IH]; [done|]. cbn. by case_decide.
Qed.


Lemma ensure_strategy_spec name proto config ts d sid d' :
  db_ok d -> ensure_strategy name proto config ts d = (sid, d') ->
  db_ok d' /\ grown d d' /\ name_of d' sid = Some (name, proto).
Proof.
  intros Hok. unfold ensure_strategy. destruct (find _ _) as [[id s]|] eqn:E.
  - intros [= <- <-]. apply find_some in E as [Hin Hk]. apply is_strategy_true in Hk. apply list_elem_of_In in Hin.
    assert (Hids : ids (Table (update_config name proto config <$> rows (strategies d)) (after_conflict (counter (strategies d))))
                   = ids (strategies d)).
    { unfold ids. cbn. rewrite <- list_fmap_compose. apply list_fmap_ext. intros i r _. apply update_config_id. }
    destruct Hok as [H1 [H2 H2'] H3 H4 H5 H6 H7]. split_and!.
    + constructor; cbn; try done.
      * split; rewrite Hids; [done|]. eapply Forall_impl; [exact H2'|]. intros i Hi. cbn in Hi |- *.
        pose proof (after_conflict_above (counter (strategies d))). lia.
      * rewrite <- list_fmap_compose. erewrite list_fmap_ext; [exact H5|]. intros i r _. apply update_config_key.
      * unfold ids in Hids. cbn in Hids. by rewrite Hids.
      * unfold ids in Hids. cbn in Hids. by rewrite Hids.
    + constructor; cbn; try done. exists []. unfold strategy_names. cbn. rewrite app_nil_r, <- list_fmap_compose. symmetry. apply list_fmap_ext.
      intros i r _. cbn. unfold update_config. by destruct (_ && _).
    + assert (Hn : strategy_names (set_strategies (Table (update_config name proto config <$> rows (strategies d))
                     (after_conflict (counter (strategies d)))) d) = strategy_names d).
      { unfold strategy_names. cbn. rewrite <- list_fmap_compose. apply list_fmap_ext.
        intros i r _. cbn. unfold update_config. by destruct (_ && _). }
      unfold name_of. rewrite Hn, <- Hk. apply (names_lookup d (id, s)); [by constructor|done].
  - intros [= <- <-]. destruct Hok as [H1 H2 H3 H4 H5 H6 H7].
    pose proof (insert_ids (Strategy name proto config ts) (strategies d)) as Hids. cbn in Hids.
    assert (Hnew : (name, proto) ∉ strategy_key <$> rows (strategies d)).
    { intros (r & Hr & Hin)%list_elem_of_fmap. apply list_elem_of_In in Hin.
      assert (is_strategy name proto r = false) by (by apply (find_none _ _ E)).
      pose proof (proj2 (is_strategy_true name proto r) (eq_sym Hr)). congruence. }
    assert (Hok : db_ok (set_strategies (insert (Strategy name proto config ts) (strategies d)).2 d)).
    { constructor; cbn; try done.
        - by apply (insert_ok (Strategy name proto config ts)).
        - rewrite fmap_app. apply NoDup_app. split_and!; [done| |apply NoDup_singleton].
          intros k Hk Hk'%list_elem_of_singleton. cbn in Hk'. by subst k.
        - rewrite Hids. eapply Forall_impl; [exact H6|]. intros t Ht. apply elem_of_app. by left.
        - rewrite Hids. eapply Forall_impl; [exact H7|]. intros t Ht. apply elem_of_app. by left. }
    split; [done|split].
    + constructor; cbn; try done. unfold strategy_names. cbn. rewrite fmap_app. by eexists.
    + apply (names_lookup _ (next_rowid (counter (strategies d)), Strategy name proto config ts)); [done|].
        cbn. apply elem_of_app. right. by left.
Qed.
End Tables.

(** ** Fingerprints and retries *)

Lemma py_sorted_str_perm l k : l ≡ₚ k -> py_sorted str_lt l = py_sorted str_lt k.
Proof.
  intros H. apply (StronglySorted_unique_strong (fun a b => str_lt b a = false)).
  - intros a b _ _ Hab Hba. by apply str_lt_eq.
  - apply py_sorted_sorted, _.
  - apply py_sorted_sorted, _.
  - by rewrite !py_sorted_perm.
Qed.

(** The fingerprint depends on which strategies there are and how often, not on their order. *)
Lemma fingerprint_order_free tcp tcp' udp udp' level n :
  tcp ≡ₚ tcp' -> udp ≡ₚ udp' -> matrix_fingerprint tcp udp level n = matrix_fingerprint tcp' udp' level n.
Proof.
  intros Ht Hu. unfold matrix_fingerprint, matrix_text.
  by rewrite (py_sorted_str_perm _ _ Ht), (py_sorted_str_perm _ _ Hu).
Qed.

(** A strategy of two lines and two strategies of one line have one fingerprint. *)
Lemma fingerprint_merges_lines level n :
  matrix_fingerprint ["fake" +:+ newline +:+ "multisplit"] [] level n = matrix_fingerprint ["fake"; "multisplit"] [] level n.
Proof. reflexivity. Qed.

(** An operation is tried at least once and at most three times. *)
Definition counting {W A} (op : W -> (A + sql_error) * W) (wk : W * nat) : (A + sql_error) * (W * nat) :=
  let '(r, w) := op wk.1 in (r, (w, S wk.2)).

Lemma sqlite_retry_calls {W A} (op : W -> (A + sql_error) * W) n : forall w k, exists k',
  sqlite_retry (counting op) n (w, k) =
    ((sqlite_retry op n w).1, ((sqlite_retry op n w).2, k')) /\ (k < k' <= k + S n)%nat.
Proof.
  induction n as [|n IH]; intros w k; cbn [sqlite_retry]; unfold counting at 1; cbn [fst snd];
    destruct (op w) as [[a|e] w'] eqn:E.
  - exists (S k). split; [done|lia].
  - exists (S k). split; [done|lia].
  - exists (S k). split; [done|lia].
  - destruct (_retryable_sqlite e); [|exists (S k); split; [done|lia]].
    destruct (IH w' (S k)) as (k' & Hr & Hk). exists k'. split; [done|lia].
Qed.
