(* ===== verification/StoreLog.v ===== *)
(** * What the run state store stores: a log of named results

    The abstract state of [RunStore]: the results in the order in which they were written, with the run,
    the name and the protocol of the strategy instead of ROWIDs. Every write appends to it, the buffered
    writes of [flush] as well as the immediate ones. *)

From stdpp Require Import base numbers list strings sorting.
From Stdlib Require Import ZArith Lia Ascii.
From S2P Require Import Prelude PyFloat PyStr PyDict Weights RunStore.

#[local] Open Scope string_scope.

(** ** The log *)

Record named : Type := Named { n_run : option Z; n_name : string; n_proto : string; n_data : tcp_data Z }.
Record unamed : Type := UNamed {
  un_run : option Z; un_name : string; un_proto : string;
  un_row : string * string * float * string * string * Z   (* target, status, latency, error, time, epoch *)
}.

Definition named_row (d : db) (t : Z * TcpRow) : option named :=
  k ← name_of d (t_strategy t.2); Some (Named (t_run t.2) k.1 k.2 (t_data t.2)).
Definition unamed_row (d : db) (u : Z * UdpRow) : option unamed :=
  k ← name_of d (u_strategy u.2);
  Some (UNamed (u_run u.2) k.1 k.2
          (u_target u.2, u_status u.2, u_latency u.2, u_error u.2, u_time u.2, u_epoch u.2)).

Definition view (d : db) : list named := omap (named_row d) (rows (tcp_results d)).
Definition uview (d : db) : list unamed := omap (unamed_row d) (rows (udp_results d)).

(** The entry that a logged result adds in a run. *)
Definition entry_named (run : Z) (e : tcp_entry) : named :=
  Named (Some run) (e_strategy e) (e_proto e) (t_data (tcp_row_values run 0 (e_data e))).
Definition entry_unamed (run : Z) (e : udp_entry) : unamed :=
  UNamed (Some run) (ue_strategy e) "udp"
    (ue_target e, ue_status e, ue_latency e, ue_error e, ue_time e, ue_epoch e).

Section Log.
Context {SQL : Sqlite}.

(** ** Growing databases keep their log *)

Lemma name_of_ids d sid : sid ∈ ids (strategies d) -> is_Some (name_of d sid).
Proof.
  intros H. apply elem_of_keys. unfold keys, strategy_names. by rewrite <- list_fmap_compose.
Qed.

Lemma ids_name_of d sid k : name_of d sid = Some k -> sid ∈ ids (strategies d).
Proof.
  intros H%dget_Some_key. unfold keys, strategy_names in H. by rewrite <- list_fmap_compose in H.
Qed.

Lemma omap_ext_in {A B} (f g : A -> option B) (l : list A) : (forall x, x ∈ l -> f x = g x) -> omap f l = omap g l.
Proof.
  induction l as [|x l IH]; intros H; [done|]. cbn. rewrite (H x) by (by left). rewrite IH; [done|].
  intros y Hy. apply H. by right.
Qed.

Lemma view_grown d d' : db_ok d -> grown d d' -> view d' = view d.
Proof.
  intros Hok Hg. unfold view. rewrite (grown_tcp _ _ Hg). apply omap_ext_in. intros t Ht. unfold named_row.
  pose proof (ok_refs _ Hok) as Hr. rewrite Forall_forall in Hr. destruct (name_of_ids _ _ (Hr t Ht)) as [k Hk].
  by rewrite Hk, (name_of_grown _ _ _ _ Hg Hk).
Qed.

Lemma uview_grown d d' : db_ok d -> grown d d' -> uview d' = uview d.
Proof.
  intros Hok Hg. unfold uview. rewrite (grown_udp _ _ Hg). apply omap_ext_in. intros t Ht. unfold unamed_row.
  pose proof (ok_urefs _ Hok) as Hr. rewrite Forall_forall in Hr. destruct (name_of_ids _ _ (Hr t Ht)) as [k Hk].
  by rewrite Hk, (name_of_grown _ _ _ _ Hg Hk).
Qed.

(** ** Inserting rows *)

Lemma insert_tcp_ok r d : db_ok d -> t_strategy r ∈ ids (strategies d) -> db_ok (insert_tcp r d).
Proof.
  intros [H1 H2 H3 H4 H5 H6 H7] Hr. constructor; cbn; try done.
  - by apply (insert_ok r).
  - apply Forall_app. split; [done|]. by repeat constructor.
Qed.

Lemma insert_udp_ok r d : db_ok d -> u_strategy r ∈ ids (strategies d) -> db_ok (insert_udp r d).
Proof.
  intros [H1 H2 H3 H4 H5 H6 H7] Hr. constructor; cbn; try done.
  - by apply (insert_ok r).
  - apply Forall_app. split; [done|]. by repeat constructor.
Qed.

Lemma view_insert_tcp r d k :
  name_of d (t_strategy r) = Some k ->
  view (insert_tcp r d) = (view d ++ [Named (t_run r) k.1 k.2 (t_data r)])%list.
Proof.
  intros Hk. unfold view. cbn. rewrite omap_app. f_equal. cbn. unfold named_row. cbn.
  change (name_of (insert_tcp r d) (t_strategy r)) with (name_of d (t_strategy r)). by rewrite Hk.
Qed.

Lemma uview_insert_udp r d k :
  name_of d (u_strategy r) = Some k ->
  uview (insert_udp r d) =
  (uview d ++ [UNamed (u_run r) k.1 k.2 (u_target r, u_status r, u_latency r, u_error r, u_time r, u_epoch r)])%list.
Proof.
  intros Hk. unfold uview. cbn. rewrite omap_app. f_equal. cbn. unfold unamed_row. cbn.
  change (name_of (insert_udp r d) (u_strategy r)) with (name_of d (u_strategy r)). by rewrite Hk.
Qed.

(** ** Runs *)

Lemma set_runs_ok t d : table_ok t -> db_ok d -> db_ok (set_runs t d).
Proof. intros Ht [H1 H2 H3 H4 H5 H6 H7]. by constructor. Qed.

Lemma begin_run_db_ok b r s : db_ok (st_db s) -> db_ok (st_db (begin_run_on_db b r s).2).
Proof.
  intros Hok. unfold begin_run_on_db. case_match; [done|]. cbn.
  apply set_runs_ok; [apply (insert_ok r), Hok|done].
Qed.

Lemma begin_run_frame b r s :
  let s' := (begin_run_on_db b r s).2 in
  st_run s' = Some (begin_run_on_db b r s).1 /\ view (st_db s') = view (st_db s) /\ uview (st_db s') = uview (st_db s) /\
  strategies (st_db s') = strategies (st_db s) /\
  tcp_pending s' = tcp_pending s /\ udp_pending s' = udp_pending s /\ batch_size s' = batch_size s.
Proof. unfold begin_run_on_db. cbv zeta. by repeat case_match. Qed.

Lemma ensure_run_frame r s run s' :
  ensure_run_id r s = (run, s') -> db_ok (st_db s) ->
  db_ok (st_db s') /\ st_run s' = Some run /\ view (st_db s') = view (st_db s) /\ uview (st_db s') = uview (st_db s) /\
  tcp_pending s' = tcp_pending s /\ udp_pending s' = udp_pending s.
Proof.
  unfold ensure_run_id. destruct (st_run s) as [id|] eqn:E.
  - by intros [= <- <-] Hok.
  - intros H Hok. pose proof (begin_run_db_ok false (blank_run r) s Hok) as Hok'.
    pose proof (begin_run_frame false (blank_run r) s) as (H1 & H2 & H3 & _ & H4 & H5 & _). rewrite H in *. by split_and!.
Qed.

(** ** Immediate writes *)

Lemma log_tcp_now_spec now e s run s1 :
  db_ok (st_db s) -> ensure_run_id now s = (run, s1) ->
  let s' := log_tcp_now now e s in
  db_ok (st_db s') /\ st_run s' = Some run /\ view (st_db s') = (view (st_db s) ++ [entry_named run e])%list /\
  uview (st_db s') = uview (st_db s) /\ tcp_pending s' = tcp_pending s.
Proof.
  intros Hok Hr. unfold log_tcp_now. rewrite Hr. destruct (ensure_run_frame _ _ _ _ Hr Hok) as (Hok1 & Hrun & Hv & Hu & Hp & _).
  destruct (ensure_strategy _ _ _ _ _) as [sid d] eqn:E.
  cbn [st_db set_db st_run tcp_pending udp_pending].
  destruct (ensure_strategy_spec _ _ _ _ _ _ _ Hok1 E) as (Hok2 & Hg & Hn). split_and!.
  - apply insert_tcp_ok; [done|]. by eapply ids_name_of.
  - done.
  - rewrite (view_insert_tcp (tcp_row_values run sid (e_data e)) d _ Hn), (view_grown _ _ Hok1 Hg), Hv. done.
  - change (uview (insert_tcp _ d)) with (uview d). by rewrite (uview_grown _ _ Hok1 Hg).
  - done.
Qed.

Lemma log_udp_now_spec now e s run s1 :
  db_ok (st_db s) -> ensure_run_id now s = (run, s1) ->
  let s' := log_udp_now now e s in
  db_ok (st_db s') /\ st_run s' = Some run /\ uview (st_db s') = (uview (st_db s) ++ [entry_unamed run e])%list /\
  view (st_db s') = view (st_db s).
Proof.
  intros Hok Hr. unfold log_udp_now. rewrite Hr. destruct (ensure_run_frame _ _ _ _ Hr Hok) as (Hok1 & Hrun & Hv & Hu & _).
  destruct (ensure_strategy _ _ _ _ _) as [sid d] eqn:E.
  cbn [st_db set_db st_run tcp_pending udp_pending].
  destruct (ensure_strategy_spec _ _ _ _ _ _ _ Hok1 E) as (Hok2 & Hg & Hn). split_and!.
  - apply insert_udp_ok; [done|]. by eapply ids_name_of.
  - done.
  - rewrite (uview_insert_udp (udp_row_values run sid e) d _ Hn), (uview_grown _ _ Hok1 Hg), Hu. done.
  - change (view (insert_udp _ d)) with (view d). by rewrite (view_grown _ _ Hok1 Hg).
Qed.

(** ** The transaction of a flush *)

Definition cache_ok (cd : list ((string * string) * Z) * db) : Prop :=
  db_ok cd.2 /\ forall k sid, dget k cd.1 = Some sid -> name_of cd.2 sid = Some k.

Lemma cached_spec ts name proto config cd sid cd' :
  cache_ok cd -> ensure_strategy_cached ts name proto config cd = (sid, cd') ->
  cache_ok cd' /\ grown cd.2 cd'.2 /\ name_of cd'.2 sid = Some (name, proto).
Proof.
  destruct cd as [cache d]. intros [Hok Hc]. unfold ensure_strategy_cached. destruct (dget _ _) as [id|] eqn:E.
  - intros [= <- <-]. split_and!; [done|reflexivity|by apply Hc].
  - destruct (ensure_strategy _ _ _ _ _) as [id d'] eqn:Es. intros [= <- <-].
    destruct (ensure_strategy_spec _ _ _ _ _ _ _ Hok Es) as (Hok' & Hg & Hn). split_and!; [split; [done|]|done|done].
    intros k i. cbn. rewrite dget_set. case_decide as Hk; [by intros [= <-]; subst|].
    intros Hi. eapply name_of_grown; [exact Hg|by apply Hc].
Qed.

Lemma tcp_rows_of_spec ts run batch : forall cd rs cd',
  cache_ok cd -> tcp_rows_of ts run batch cd = (rs, cd') ->
  cache_ok cd' /\ grown cd.2 cd'.2 /\
  Forall2 (fun e r => name_of cd'.2 (t_strategy r) = Some (e_strategy e, e_proto e) /\
                      r = tcp_row_values run (t_strategy r) (e_data e)) batch rs.
Proof.
  induction batch as [|e batch IH]; intros cd rs cd' Hc; cbn [tcp_rows_of].
  - intros [= <- <-]. split_and!; [done|reflexivity|constructor].
  - destruct (ensure_strategy_cached _ _ _ _ _) as [sid cd1] eqn:E1. destruct (tcp_rows_of _ _ _ _) as [rs1 cd2] eqn:E2.
    intros [= <- <-]. destruct (cached_spec _ _ _ _ _ _ _ Hc E1) as (Hc1 & Hg1 & Hn).
    destruct (IH _ _ _ Hc1 E2) as (Hc2 & Hg2 & HF). split_and!; [done|by etrans|]. constructor; [|done].
    split; [by eapply name_of_grown|done].
Qed.

Lemma udp_rows_of_spec ts run batch : forall cd rs cd',
  cache_ok cd -> udp_rows_of ts run batch cd = (rs, cd') ->
  cache_ok cd' /\ grown cd.2 cd'.2 /\
  Forall2 (fun e r => name_of cd'.2 (u_strategy r) = Some (ue_strategy e, "udp") /\
                      r = udp_row_values run (u_strategy r) e) batch rs.
Proof.
  induction batch as [|e batch IH]; intros cd rs cd' Hc; cbn [udp_rows_of].
  - intros [= <- <-]. split_and!; [done|reflexivity|constructor].
  - destruct (ensure_strategy_cached _ _ _ _ _) as [sid cd1] eqn:E1. destruct (udp_rows_of _ _ _ _) as [rs1 cd2] eqn:E2.
    intros [= <- <-]. destruct (cached_spec _ _ _ _ _ _ _ Hc E1) as (Hc1 & Hg1 & Hn).
    destruct (IH _ _ _ Hc1 E2) as (Hc2 & Hg2 & HF). split_and!; [done|by etrans|]. constructor; [|done].
    split; [by eapply name_of_grown|done].
Qed.

Lemma insert_all_tcp run batch rs : forall d,
  db_ok d ->
  Forall2 (fun e r => name_of d (t_strategy r) = Some (e_strategy e, e_proto e) /\
                      r = tcp_row_values run (t_strategy r) (e_data e)) batch rs ->
  let d' := foldl (fun d r => insert_tcp r d) d rs in
  db_ok d' /\ view d' = (view d ++ (entry_named run <$> batch))%list /\ uview d' = uview d /\ strategies d' = strategies d /\
  udp_results d' = udp_results d.
Proof.
  revert rs. induction batch as [|e batch IH]; intros rs d Hok HF; inversion HF as [|? r ? rs' [Hn Hr] HF']; subst; cbn.
  - by rewrite app_nil_r.
  - destruct (IH rs' (insert_tcp r d)) as (Hok' & Hv & Hu & Hs & Hup).
    + apply insert_tcp_ok; [done|]. by eapply ids_name_of.
    + exact HF'.
    + rewrite Hv, (view_insert_tcp _ _ _ Hn), <- app_assoc. cbn. split_and!; [done| |done|done|done].
      do 2 f_equal. rewrite Hr. done.
Qed.

Lemma insert_all_udp run batch rs : forall d,
  db_ok d ->
  Forall2 (fun e r => name_of d (u_strategy r) = Some (ue_strategy e, "udp") /\
                      r = udp_row_values run (u_strategy r) e) batch rs ->
  let d' := foldl (fun d r => insert_udp r d) d rs in
  db_ok d' /\ uview d' = (uview d ++ (entry_unamed run <$> batch))%list /\ view d' = view d.
Proof.
  revert rs. induction batch as [|e batch IH]; intros rs d Hok HF; inversion HF as [|? r ? rs' [Hn Hr] HF']; subst; cbn.
  - by rewrite app_nil_r.
  - destruct (IH rs' (insert_udp r d)) as (Hok' & Hv & Hu).
    + apply insert_udp_ok; [done|]. by eapply ids_name_of.
    + exact HF'.
    + rewrite Hv, (uview_insert_udp _ _ _ Hn), <- app_assoc. cbn. split_and!; [done| |done].
      do 2 f_equal. rewrite Hr. done.
Qed.

Lemma flush_tx_spec ts run tcp udp d :
  db_ok d ->
  let d' := flush_tx ts run tcp udp d in
  db_ok d' /\ view d' = (view d ++ (entry_named run <$> tcp))%list /\
  uview d' = (uview d ++ (entry_unamed run <$> udp))%list.
Proof.
  intros Hok. unfold flush_tx. destruct (tcp_rows_of _ _ _ _) as [trs [cache d1]] eqn:E1.
  assert (Hc0 : cache_ok ([], d)) by done.
  destruct (tcp_rows_of_spec _ _ _ _ _ _ Hc0 E1) as (Hc1 & Hg1 & HF1). cbn in *.
  destruct (insert_all_tcp run tcp trs d1) as (Hok2 & Hv2 & Hu2 & Hs2 & Hup2); [apply Hc1|done|].
  set (d2 := foldl _ _ _) in *. destruct (udp_rows_of _ _ _ _) as [urs [cache3 d3]] eqn:E3.
  assert (Hc2 : cache_ok (cache, d2)).
  { split; [done|]. intros k sid Hk. cbn. unfold name_of, strategy_names. rewrite Hs2. by apply Hc1. }
  destruct (udp_rows_of_spec _ _ _ _ _ _ Hc2 E3) as (Hc3 & Hg3 & HF3). cbn in *.
  destruct (insert_all_udp run udp urs d3) as (Hok4 & Hu4 & Hv4); [apply Hc3|done|].
  split_and!; [done| |].
  - rewrite Hv4, (view_grown _ _ Hok2 Hg3), Hv2. by rewrite (view_grown _ _ Hok Hg1).
  - rewrite Hu4, (uview_grown _ _ Hok2 Hg3), Hu2. by rewrite (uview_grown _ _ Hok Hg1).
Qed.
End Log.

(** ** Example data *)

Lemma new_db_ok : db_ok new_db.
Proof. repeat constructor. Qed.

Definition ex_data (dom status : string) : tcp_data bool :=
  TcpData dom status 200 f_zero f_zero 1 "" "t" f_zero "" "" "" "" None 0 0 "" 0 None None.
Definition ex_entry (name config dom status : string) : tcp_entry := TcpEntry name "tcp" config (ex_data dom status).
Definition ex_row : Run := RunRow "t" "1" "" "fp" "" "".
