(* ===== verification/StoreQueries.v ===== *)
(** * The queries of the run state store: [engine/store/sqlite_store.py]

    The SELECTs of the store over the tables of [RunStore], each with its join, its latest-row subquery
    and its tests, and what they mean on the log of [StoreLog]: the latest row of a strategy and a domain
    is the last entry of the log about them. The averages of SQLite are an argument; an ORDER BY sorts
    whatever order the rows come in. *)

From stdpp Require Import base numbers list strings sorting gmap.
From Stdlib Require Import ZArith Lia Ascii.
From S2P Require Import Prelude PyFloat PyStr PyDict Weights FailPhase BridgePool RunStore StoreLog.

#[local] Open Scope string_scope.

(** ** Joins and latest rows *)

Definition joined : Type := (Z * StrategyRow) * (Z * TcpRow).

(** [tcp_results t JOIN strategies s ON t.strategy_id = s.id] *)
Definition join_tcp (d : db) : list joined :=
  t ← rows (tcp_results d); s ← filter (fun s => s.1 = t_strategy t.2) (rows (strategies d)); [(s, t)].

Definition j_name (j : joined) : string := s_name j.1.2.
Definition j_proto (j : joined) : string := s_proto j.1.2.
Definition j_data (j : joined) : tcp_data Z := t_data j.2.2.
Definition j_domain (j : joined) : string := d_domain (j_data j).

(** [t.run_id=?], when the query has it *)
Definition in_run (run : option Z) (t : TcpRow) : bool :=
  match run with Some r => bool_decide (t_run t = Some r) | None => true end.

(** [ORDER BY id DESC LIMIT 1] *)
Definition max_id {A} (l : list (Z * A)) : option Z :=
  foldr (fun r best => Some match best with Some b => Z.max r.1 b | None => r.1 end) None l.

Definition same_pair (run : option Z) (sid : Z) (dom : string) (t : Z * TcpRow) : bool :=
  bool_decide (t_strategy t.2 = sid) && String.eqb (d_domain (t_data t.2)) dom && in_run run t.2.

(** [t.id = (SELECT t2.id ... ORDER BY t2.id DESC LIMIT 1)] *)
Definition is_latest (run : option Z) (d : db) (t : Z * TcpRow) : bool :=
  bool_decide (max_id (filter (fun t2 => same_pair run (t_strategy t.2) (d_domain (t_data t.2)) t2 = true)
                         (rows (tcp_results d))) = Some t.1).

Definition working_status (s : string) : bool := String.eqb s "PASS" || String.eqb s "THROTTLED".
(** [_CAMPAIGN_PASS_TCP] *)
Definition applied_or_null (v : tcp_data Z) : bool :=
  match d_applied v with None => true | Some a => Z.eqb a 1 end.
Definition working (v : tcp_data Z) : bool := working_status (d_status v) && applied_or_null v.

Section Queries.
Context {SQL : Sqlite}.

(** [LIMIT ?]: a negative limit is none. *)
Definition sql_limit {A} (n : Z) (l : list A) : list A := if (n <? 0)%Z then l else take (Z.to_nat n) l.

(** ** Resume *)

Definition completed_rows (proto : string) (run : Z) (d : db) : list joined :=
  filter (fun j => (String.eqb (j_proto j) proto && in_run (Some run) j.2.2 && is_latest (Some run) d j.2
                    && working (j_data j)) = true) (join_tcp d).

Definition key_of (j : joined) : string * string := (j_name j, j_domain j).

Definition get_completed_tcp_keys (proto : string) (s : store) : gset (string * string) :=
  match st_run s with
  | None => ∅
  | Some run => list_to_set (key_of <$> row_order (completed_rows proto run (st_db s)))
  end.

Definition has_tcp_result (now : Run) (name dom proto : string) (s : store) : bool * store :=
  let '(run, s) := ensure_run_id now s in
  (existsb (fun j => String.eqb (j_name j) name && String.eqb (j_proto j) proto && String.eqb (j_domain j) dom
                     && in_run (Some run) j.2.2) (join_tcp (st_db s)), s).

(** [_count_infra_fail_rows] *)
Definition count_infra_fail_rows (name dom proto : string) (run : Z) (d : db) : Z :=
  Z.of_nat (length (filter (fun j => is_infra_fail_phase (d_phase (j_data j)) (d_error (j_data j)) = true)
    (filter (fun j => (String.eqb (j_name j) name && String.eqb (j_proto j) proto && String.eqb (j_domain j) dom
                       && in_run (Some run) j.2.2 && String.eqb (d_status (j_data j)) "FAIL") = true) (join_tcp d)))).

Definition latest_fails (proto : string) (run : Z) (d : db) : list joined :=
  filter (fun j => (String.eqb (j_proto j) proto && in_run (Some run) j.2.2 && is_latest (Some run) d j.2
                    && String.eqb (d_status (j_data j)) "FAIL") = true) (join_tcp d).

(** What the loop over the latest failures adds to [skip_fail] for one row. *)
Definition skip_fail (proto : string) (reprobe_failed run : Z) (d : db) (working : gset (string * string)) (j : joined)
    : gset (string * string) :=
  if decide (key_of j ∈ working) then ∅
  else if is_infra_fail_phase (d_phase (j_data j)) (d_error (j_data j))
          && (count_infra_fail_rows (j_name j) (j_domain j) proto run d <? reprobe_failed)%Z then ∅
  else {[ key_of j ]}.

Definition get_resume_skip_tcp_keys (proto : string) (reprobe_failed : Z) (s : store) : gset (string * string) :=
  let working := get_completed_tcp_keys proto s in
  if (reprobe_failed <=? 0)%Z then working
  else match st_run s with
       | None => working
       | Some run =>
           working ∪ ⋃ (skip_fail proto reprobe_failed run (st_db s) working
                          <$> row_order (latest_fails proto run (st_db s)))
       end.

Definition get_completed_pair_keys (dom : string) (d : db) : gset (string * string) :=
  list_to_set ((fun p => (p_tcp p.2, p_udp p.2)) <$> filter (fun p => p_domain p.2 = dom) (rows (pair_results d))).

(** ** Working strategies *)

Definition working_rows (dom proto : string) (d : db) : list joined :=
  filter (fun j => (String.eqb (j_proto j) proto && String.eqb (j_domain j) dom && is_latest None d j.2
                    && working (j_data j)) = true) (join_tcp d).

Definition get_working_proto_details (dom proto : string) (d : db) : list tcp_detail :=
  (fun j => TcpDetail (j_name j) (d_status (j_data j)) (Some (d_latency (j_data j))))
    <$> row_order (working_rows dom proto d).

Definition get_working_proto (dom proto : string) (d : db) : list string :=
  td_name <$> get_working_proto_details dom proto d.

(** name, latency, HTTP code, time, host *)
Definition best_row : Type := string * float * Z * string * string.
Definition get_best (dom proto : string) (limit : Z) (d : db) : list best_row :=
  (fun j => (j_name j, d_latency (j_data j), d_http (j_data j), d_time (j_data j), d_host (j_data j)))
    <$> sql_limit limit (py_sorted (fun a b => flt (d_latency (j_data a)) (d_latency (j_data b)))
                           (row_order (working_rows dom proto d))).

Definition get_best_pairs (dom : string) (limit : Z) (d : db) : list PairRow :=
  let latest p := bool_decide (max_id (filter (fun p2 => p_tcp p2.2 = p_tcp p.2 /\ p_udp p2.2 = p_udp p.2 /\
                    p_domain p2.2 = p_domain p.2) (rows (pair_results d))) = Some p.1) in
  snd <$> sql_limit limit (py_sorted (fun a b => flt (fadd (p_tcp_ms a.2) (p_udp_ms a.2)) (fadd (p_tcp_ms b.2) (p_udp_ms b.2)))
    (row_order (filter (fun p => (String.eqb (p_domain p.2) dom && working_status (p_overall p.2) && latest p) = true)
                  (rows (pair_results d))))).

(** ** Counts *)

Definition domain_pass_stats (dom : string) (protos : list string) (d : db) : Z * Z :=
  match protos with
  | [] => (0, 0)%Z
  | _ =>
    let rs := filter (fun j => (String.eqb (j_domain j) dom && bool_decide (j_proto j ∈ protos) && is_latest None d j.2) = true)
                (join_tcp d) in
    (Z.of_nat (length rs), Z.of_nat (length (filter (fun j => working (j_data j) = true) rs)))
  end.

Definition count_tcp_passes (dom : option string) (d : db) : Z :=
  match dom with
  | Some dom =>
      if nonempty dom then (domain_pass_stats dom ["tcp"] d).2
      else Z.of_nat (length (filter (fun j => (working (j_data j) && String.eqb (j_proto j) "tcp" && is_latest None d j.2) = true)
                       (join_tcp d)))
  | None => Z.of_nat (length (filter (fun j => (working (j_data j) && String.eqb (j_proto j) "tcp" && is_latest None d j.2) = true)
                       (join_tcp d)))
  end.

(** [... FROM tcp_results GROUP BY domain]: the number of rows and of those that the test counts. *)
Definition by_domain (counted : tcp_data Z -> bool) (d : db) : list (string * Z * Z) :=
  row_order ((fun dom =>
    let rs := filter (fun t => d_domain (t_data t.2) = dom) (rows (tcp_results d)) in
    (dom, Z.of_nat (length (filter (fun t => counted (t_data t.2) = true) rs)),
     Z.of_nat (length (filter (fun t => working (t_data t.2) = true) rs))))
    <$> fromkeys ((fun t => d_domain (t_data t.2)) <$> rows (tcp_results d))).

Definition domain_pass_rows (d : db) : list (string * Z * Z) := by_domain (fun _ => true) d.
Definition domain_dns_resolve_fail_rows (d : db) : list (string * Z * Z) :=
  by_domain (fun v => String.eqb (d_phase v) "dns_resolve") d.

(** [ROUND(AVG(...), 1)] is SQLite's own arithmetic. *)
Definition get_common_tcp (round_avg : list float -> float) (domains : list string) (limit : Z) (d : db)
    : list (string * Z * float) :=
  if (length domains <? 2)%nat then []
  else
    let rs := filter (fun j => (String.eqb (j_proto j) "tcp" && bool_decide (j_domain j ∈ domains) && working (j_data j)
                                && is_latest None d j.2) = true) (join_tcp d) in
    let groups := (fun name =>
      let g := filter (fun j => j_name j = name) rs in
      (name, Z.of_nat (length (fromkeys (j_domain <$> g))), round_avg ((fun j => d_latency (j_data j)) <$> g)))
      <$> fromkeys (j_name <$> rs) in
    sql_limit limit (py_sorted (fun a b => flt a.2 b.2)
      (row_order (filter (fun g => g.1.2 = Z.of_nat (length domains)) groups))).

(** ** The other tables *)

Definition get_strategy_config (name proto : string) (d : db) : option string :=
  (fun r => s_config r.2) <$> find (is_strategy name proto) (rows (strategies d)).

Definition load_scan_weights (d : db) : list (string * float) :=
  prod_map id fst <$> py_sorted (fun a b => str_lt a.1 b.1) (scan_weights d).

Definition get_quarantined (d : db) : list (string * (string * Z * string)) :=
  py_sorted (fun a b => str_lt a.2.2 b.2.2) (row_order (quarantined d)).

(** [ORDER BY id DESC LIMIT 1] *)
Definition latest_checkpoint (d : db) : option Checkpoint :=
  snd <$> last (py_sorted (fun a b => (a.1 <? b.1)%Z) (rows (checkpoints d))).
End Queries.

(** ** The latest row is the last entry *)

(** The entries of the log about a strategy and a domain [in a run]. *)
Definition entry_about (run : option Z) (name proto dom : string) (x : named) : bool :=
  String.eqb (n_name x) name && String.eqb (n_proto x) proto && String.eqb (d_domain (n_data x)) dom
  && match run with Some r => bool_decide (n_run x = Some r) | None => true end.

Definition entries (run : option Z) (name proto dom : string) (log : list named) : list named :=
  filter (fun x => entry_about run name proto dom x = true) log.

Definition last_entry (run : option Z) (name proto dom : string) (log : list named) : option named :=
  last (entries run name proto dom log).

Lemma max_id_last {A} (l : list (Z * A)) : StronglySorted Z.lt l.*1 -> max_id l = fst <$> last l.
Proof.
  induction l as [|r l IH]; [done|]. intros Hs. cbn in Hs. inversion Hs as [|? ? Hs' Hf]; subst.
  cbn [max_id foldr]. fold (max_id l). rewrite (IH Hs'). destruct l as [|r' l]; [done|].
  change (last (r :: r' :: l)) with (last (r' :: l)).
  destruct (last (r' :: l)) as [x|] eqn:E; [|by apply last_None in E]. cbn. f_equal.
  rewrite Forall_forall in Hf. apply last_Some_elem_of in E.
  specialize (Hf x.1 (list_elem_of_fmap_2 fst _ _ E)). lia.
Qed.

Lemma sorted_filter {A} (P : Z * A -> Prop) `{!forall x, Decision (P x)} l :
  StronglySorted Z.lt l.*1 -> StronglySorted Z.lt (filter P l).*1.
Proof.
  induction l as [|r l IH]; [done|]. intros Hs. cbn in Hs. inversion Hs as [|? ? Hs' Hf]; subst.
  rewrite filter_cons. case_decide; [|by apply IH]. cbn. constructor; [by apply IH|].
  rewrite Forall_forall in Hf |- *. intros i (x & -> & Hx)%list_elem_of_fmap. apply list_elem_of_filter in Hx as [_ Hx].
  apply Hf. by apply list_elem_of_fmap_2.
Qed.

Lemma omap_filter {A B} (f : A -> option B) (P : B -> bool) (Q : A -> bool) (l : list A) :
  (forall a b, a ∈ l -> f a = Some b -> P b = Q a) -> (forall a, a ∈ l -> is_Some (f a)) ->
  filter (fun b => P b = true) (omap f l) = omap f (filter (fun a => Q a = true) l).
Proof.
  induction l as [|a l IH]; intros HPQ Hs; [done|]. cbn. destruct (Hs a) as [b Hb]; [by left|]. rewrite Hb.
  rewrite !filter_cons, (HPQ a b) by (by left || done).
  assert (IH' : filter (fun b => P b = true) (omap f l) = omap f (filter (fun a => Q a = true) l)).
  { apply IH; intros; [apply HPQ|apply Hs]; by try right. }
  case_decide; cbn; [by rewrite Hb, IH'|exact IH'].
Qed.

Lemma last_omap {A B} (f : A -> option B) (l : list A) :
  (forall a, a ∈ l -> is_Some (f a)) -> last (omap f l) = last l ≫= f.
Proof.
  induction l as [|a l IH] using rev_ind; intros Hs; [done|]. rewrite omap_app, last_snoc.
  destruct (Hs a) as [b Hb]; [set_solver|]. cbn. by rewrite Hb, last_snoc.
Qed.

Section Specs.
Context {SQL : Sqlite} (d : db) (Hok : db_ok d).

Lemma name_of_inj i j k : name_of d i = Some k -> name_of d j = Some k -> i = j.
Proof.
  unfold name_of. intros Hi%dget_elem Hj%dget_elem. unfold strategy_names in *.
  apply list_elem_of_fmap in Hi as ([i' r] & [= -> ->] & Hi), Hj as ([j' r'] & [= -> Hn Hp] & Hj).
  apply list_elem_of_lookup in Hi as [a Ha], Hj as [b Hb].
  enough (a = b) as -> by congruence.
  eapply NoDup_lookup; [apply (ok_unique d Hok)|..]; rewrite list_lookup_fmap; [by rewrite Ha|].
  rewrite Hb. unfold strategy_key. cbn in *. by rewrite Hn, Hp.
Qed.

Lemma row_name t : t ∈ rows (tcp_results d) -> is_Some (name_of d (t_strategy t.2)).
Proof. intros Ht. apply name_of_ids. pose proof (ok_refs d Hok) as H. rewrite Forall_forall in H. by apply H. Qed.

Lemma row_named t : t ∈ rows (tcp_results d) -> is_Some (named_row d t).
Proof. intros [k Hk]%row_name. unfold named_row. rewrite Hk. by eexists. Qed.

Lemma elem_of_join j :
  j ∈ join_tcp d <-> j.2 ∈ rows (tcp_results d) /\ name_of d (t_strategy j.2.2) = Some (j_name j, j_proto j) /\
                     j.1 ∈ rows (strategies d) /\ j.1.1 = t_strategy j.2.2.
Proof.
  unfold join_tcp. rewrite list_elem_of_bind. split.
  - intros (t & (s & Hj & Hs)%list_elem_of_bind & Ht). apply list_elem_of_singleton in Hj as ->.
    apply list_elem_of_filter in Hs as [Hid Hs]. cbn. split_and!; [done| |done|done]. rewrite <- Hid.
    rewrite (names_lookup d s Hok Hs). done.
  - destruct j as [s t]. intros (Ht & _ & Hs & Hid). exists t. split; [|done]. apply list_elem_of_bind. exists s.
    split; [by left|]. by apply list_elem_of_filter.
Qed.

(** Rows and entries about the same strategy and domain. *)
Lemma entries_rows run sid name proto dom :
  name_of d sid = Some (name, proto) ->
  entries run name proto dom (view d) = omap (named_row d) (filter (fun t => same_pair run sid dom t = true) (rows (tcp_results d))).
Proof.
  intros Hsid. unfold entries, view. apply omap_filter; [|intros; by apply row_named].
  intros t x Ht. unfold named_row. destruct (row_name t Ht) as [[n p] Hk]. rewrite Hk. cbn. intros [= <-].
  unfold entry_about, same_pair, in_run. cbn. f_equal. f_equal. case_bool_decide as Hs.
  - subst sid. rewrite Hk in Hsid. injection Hsid as -> ->. by rewrite !String.eqb_refl.
  - apply andb_false_iff. destruct (String.eqb_spec n name) as [->|]; [|by left].
    destruct (String.eqb_spec p proto) as [->|]; [|by right]. exfalso. apply Hs. by eapply name_of_inj.
Qed.

(** The row that the subquery selects holds the last entry. *)
Lemma latest_is_last j run :
  j ∈ join_tcp d -> in_run run j.2.2 = true -> is_latest run d j.2 = true ->
  last_entry run (j_name j) (j_proto j) (j_domain j) (view d) = Some (Named (t_run j.2.2) (j_name j) (j_proto j) (j_data j)).
Proof.
  intros (Ht & Hn & _ & _)%elem_of_join Hr Hl. unfold last_entry.
  rewrite (entries_rows run _ _ _ _ Hn), last_omap by (intros t [_ H]%list_elem_of_filter; by apply row_named).
  unfold is_latest in Hl. apply bool_decide_eq_true in Hl. rewrite max_id_last in Hl by apply sorted_filter, (ok_tcp d Hok).
  change (d_domain (t_data j.2.2)) with (j_domain j) in Hl. destruct (last _) as [t|] eqn:E; [|done].
  cbn in Hl. injection Hl as Hl. apply last_Some_elem_of, list_elem_of_filter in E as [_ E].
  assert (t = j.2) as -> by (by apply (ids_inj (tcp_results d)); [apply (ok_tcp d Hok)| | |]).
  cbn. unfold named_row. by rewrite Hn.
Qed.

(** Every last entry is in such a row. *)
Lemma last_is_latest run name proto dom x :
  last_entry run name proto dom (view d) = Some x ->
  exists j, j ∈ join_tcp d /\ in_run run j.2.2 = true /\ is_latest run d j.2 = true /\
    j_name j = name /\ j_proto j = proto /\ j_domain j = dom /\ x = Named (t_run j.2.2) name proto (j_data j).
Proof.
  intros Hx. assert (Hin : x ∈ entries run name proto dom (view d)) by by apply last_Some_elem_of.
  apply list_elem_of_filter in Hin as [Ha Hin]. apply list_elem_of_omap in Hin as (t0 & Ht0 & Hx0).
  assert (exists sid, name_of d sid = Some (name, proto)) as [sid Hsid].
  { unfold named_row in Hx0. destruct (row_name t0 Ht0) as [[n p] Hk]. exists (t_strategy t0.2). rewrite Hk in Hx0 |- *.
    injection Hx0 as <-. unfold entry_about in Ha. cbn in Ha. breflect. apply String.eqb_eq in H, H3. by subst. }
  unfold last_entry in Hx. rewrite (entries_rows run _ _ _ _ Hsid), last_omap in Hx
    by (intros t [_ H]%list_elem_of_filter; by apply row_named).
  destruct (last _) as [t|] eqn:E; [|done]. cbn in Hx.
  assert (Hl : max_id (filter (fun t => same_pair run sid dom t = true) (rows (tcp_results d))) = Some t.1).
  { rewrite max_id_last by apply sorted_filter, (ok_tcp d Hok). by rewrite E. }
  apply last_Some_elem_of, list_elem_of_filter in E as [Hp Ht]. unfold same_pair in Hp.
  apply andb_true_iff in Hp as [[Hs%bool_decide_eq_true Hd%String.eqb_eq]%andb_true_iff Hr]. subst sid dom.
  pose proof (ids_name_of _ _ _ Hsid) as Hi. apply list_elem_of_fmap in Hi as (s & Hs & Hi).
  pose proof (names_lookup d s Hok Hi) as Hk. rewrite <- Hs, Hsid in Hk. injection Hk as -> ->.
  exists (s, t). unfold named_row in Hx. rewrite Hsid in Hx. cbn in Hx. injection Hx as <-.
  split_and!; [|done| |done..].
  - apply elem_of_join. by split_and!.
  - unfold is_latest. by apply bool_decide_eq_true.
Qed.

(** A test of the latest row is a test of the last entry. *)
Lemma latest_iff run name proto dom (P : tcp_data Z -> Prop) :
  (exists j, j ∈ join_tcp d /\ in_run run j.2.2 = true /\ is_latest run d j.2 = true /\
     j_name j = name /\ j_proto j = proto /\ j_domain j = dom /\ P (j_data j)) <->
  exists x, last_entry run name proto dom (view d) = Some x /\ P (n_data x).
Proof.
  split.
  - intros (j & Hj & Hr & Hl & <- & <- & <- & HP). eexists. split; [by apply latest_is_last|done].
  - intros (x & Hx & HP). apply last_is_latest in Hx as (j & Hj & Hr & Hl & Hn & Hp & Hd & ->). by exists j.
Qed.
End Specs.
