(* ===== verification/StoreSpec.v ===== *)
(** * What the run state store promises

    The resume queries and the working lists on the abstract log of [StoreLog], the equivalence of buffered
    and immediate writes, and a campaign that is resumed by a new process. *)

From stdpp Require Import base numbers list strings sorting gmap.
From Stdlib Require Import ZArith Lia Ascii.
From S2P Require Import Prelude PyFloat PyStr PyDict Weights FailPhase BridgePool RunStore StoreLog StoreQueries.

#[local] Open Scope string_scope.

(** ** The join is the log *)

Definition j_named (j : joined) : named := Named (t_run j.2.2) (j_name j) (j_proto j) (j_data j).

Definition infra_fail (v : tcp_data Z) : bool :=
  String.eqb (d_status v) "FAIL" && is_infra_fail_phase (d_phase v) (d_error v).

Lemma filter_none {A} (P : A -> Prop) `{!forall x, Decision (P x)} (l : list A) :
  (forall x, x ∈ l -> ~ P x) -> filter P l = [].
Proof.
  induction l as [|x l IH]; intros Hno; [done|]. rewrite filter_cons_False by (apply Hno; by left).
  apply IH. intros y Hy. apply Hno. by right.
Qed.

Section Join.
Context {SQL : Sqlite} (d : db) (Hok : db_ok d).

Lemma strategy_of t :
  t ∈ rows (tcp_results d) -> exists s, filter (fun s => s.1 = t_strategy t.2) (rows (strategies d)) = [s] /\
    name_of d (t_strategy t.2) = Some (strategy_key s).
Proof.
  intros Ht. destruct (row_name d Hok t Ht) as [k Hk]. pose proof (ids_name_of _ _ _ Hk) as Hi.
  apply list_elem_of_fmap in Hi as (s & Hs & Hi). exists s. split.
  - pose proof (ok_strategies d Hok) as [Hsort _]. unfold ids in Hsort. rewrite Hs. clear -Hsort Hi.
    induction (rows (strategies d)) as [|r l IH]; [by apply elem_of_nil in Hi|].
    cbn in Hsort. inversion Hsort as [|? ? Hsort' Hf]; subst. rewrite Forall_forall in Hf.
    apply elem_of_cons in Hi as [<-|Hi].
    + rewrite filter_cons_True by done. f_equal. apply filter_none. intros x Hx Heq.
      specialize (Hf x.1 (list_elem_of_fmap_2 fst _ _ Hx)). lia.
    + rewrite filter_cons_False; [by apply IH|]. specialize (Hf s.1 (list_elem_of_fmap_2 fst _ _ Hi)). lia.
  - rewrite Hs. by apply names_lookup.
Qed.

Lemma join_omap {B} (f : joined -> B) (g : Z * TcpRow -> option B) :
  (forall s t, t ∈ rows (tcp_results d) -> name_of d (t_strategy t.2) = Some (strategy_key s) -> g t = Some (f (s, t))) ->
  f <$> join_tcp d = omap g (rows (tcp_results d)).
Proof.
  intros Hg. unfold join_tcp.
  assert (H : forall l, l ⊆ rows (tcp_results d) ->
    f <$> (t ← l; s ← filter (fun s => s.1 = t_strategy t.2) (rows (strategies d)); [(s, t)]) = omap g l).
  { induction l as [|t l IH]; intros Hl; [done|]. cbn. rewrite fmap_app.
    assert (Ht : t ∈ rows (tcp_results d)) by (apply Hl; by left).
    rewrite IH by (intros x Hx; apply Hl; by right).
    destruct (strategy_of t Ht) as (s & -> & Hn). cbn. by rewrite (Hg s t Ht Hn). }
  by apply H.
Qed.

Lemma join_view : j_named <$> join_tcp d = view d.
Proof.
  apply join_omap. intros s t _ Hn. unfold named_row. by rewrite Hn.
Qed.

Lemma join_snd : snd <$> join_tcp d = rows (tcp_results d).
Proof.
  etrans; [apply (join_omap snd Some); done|]. induction (rows (tcp_results d)) as [|t l IH]; [done|]. cbn. by rewrite IH.
Qed.

Lemma join_NoDup : NoDup (join_tcp d).
Proof.
  apply (NoDup_fmap_1 snd). rewrite join_snd. apply (NoDup_fmap_1 fst). pose proof (proj1 (ok_tcp d Hok)) as Hs.
  unfold ids in Hs. induction Hs as [|i l _ IH Hf]; constructor; [|done].
  intros Hi. rewrite Forall_forall in Hf. specialize (Hf _ Hi). lia.
Qed.

(** Counting joined rows is counting entries. *)
Lemma filter_join (P : joined -> bool) (Q : named -> bool) :
  (forall j, j ∈ join_tcp d -> Q (j_named j) = P j) ->
  j_named <$> filter (fun j => P j = true) (join_tcp d) = filter (fun x => Q x = true) (view d).
Proof.
  intros HPQ. rewrite <- join_view. induction (join_tcp d) as [|j l IH]; [done|].
  rewrite fmap_cons, !filter_cons, (HPQ j) by (by left). rewrite <- IH by (intros; apply HPQ; by right). by case_decide.
Qed.

Lemma count_infra_entries name dom proto run :
  count_infra_fail_rows name dom proto run d =
  Z.of_nat (length (filter (fun x => infra_fail (n_data x) = true) (entries (Some run) name proto dom (view d)))).
Proof.
  unfold count_infra_fail_rows, entries. rewrite !list_filter_filter. f_equal.
  rewrite <- (length_fmap j_named).
  erewrite (list_filter_iff _ (fun j => (is_infra_fail_phase (d_phase (j_data j)) (d_error (j_data j)) &&
      (String.eqb (j_name j) name && String.eqb (j_proto j) proto && String.eqb (j_domain j) dom
       && in_run (Some run) j.2.2 && String.eqb (d_status (j_data j)) "FAIL")) = true)) by (intros j; symmetry; apply andb_true_iff).
  rewrite (filter_join _ (fun x => infra_fail (n_data x) && entry_about (Some run) name proto dom x)).
  - f_equal. apply list_filter_iff. intros x. apply andb_true_iff.
  - intros j _. unfold infra_fail, entry_about, in_run, j_domain. cbn.
    destruct (is_infra_fail_phase _ _), (String.eqb (d_status _) _), (String.eqb (j_name j) _), (String.eqb (j_proto j) _),
      (String.eqb (d_domain _) _), (bool_decide _); done.
Qed.
End Join.

(** ** The resume sets *)

Section Resume.
Context {SQL : Sqlite}.

Lemma completed_spec proto run s name dom :
  db_ok (st_db s) -> st_run s = Some run ->
  (name, dom) ∈ get_completed_tcp_keys proto s <->
  exists x, last_entry (Some run) name proto dom (view (st_db s)) = Some x /\ working (n_data x) = true.
Proof.
  intros Hok Hrun. unfold get_completed_tcp_keys. rewrite Hrun, elem_of_list_to_set, row_order_perm.
  rewrite <- (latest_iff _ Hok (Some run) name proto dom (fun v => working v = true)).
  unfold completed_rows. rewrite list_elem_of_fmap. split.
  - intros (j & [= -> ->] & [Hp Hj]%list_elem_of_filter). exists j.
    apply andb_true_iff in Hp as [[[Hp%String.eqb_eq Hr]%andb_true_iff Hl]%andb_true_iff Hw]. by split_and!.
  - intros (j & Hj & Hr & Hl & <- & <- & <- & Hw). exists j. split; [done|]. apply list_elem_of_filter.
    split; [|done]. by rewrite String.eqb_refl, Hr, Hl, Hw.
Qed.

Lemma latest_fails_spec proto run d name dom (P : joined -> Prop) :
  db_ok d ->
  (exists j, j ∈ row_order (latest_fails proto run d) /\ key_of j = (name, dom) /\ P j) <->
  exists j, j ∈ join_tcp d /\ in_run (Some run) j.2.2 = true /\ is_latest (Some run) d j.2 = true /\
     j_name j = name /\ j_proto j = proto /\ j_domain j = dom /\ d_status (j_data j) = "FAIL" /\ P j.
Proof.
  intros Hok. unfold latest_fails. setoid_rewrite row_order_perm. split.
  - intros (j & [Hp Hj]%list_elem_of_filter & [= <- <-] & HP). exists j.
    apply andb_true_iff in Hp as [[[Hp%String.eqb_eq Hr]%andb_true_iff Hl]%andb_true_iff Hw%String.eqb_eq]. by split_and!.
  - intros (j & Hj & Hr & Hl & <- & <- & <- & Hs & HP). exists j. split_and!; [|done|done].
    apply list_elem_of_filter. split; [|done]. by rewrite String.eqb_refl, Hr, Hl, Hs.
Qed.

Lemma elem_of_skip_fail proto n run d w j key :
  key ∈ skip_fail proto n run d w j <->
  key = key_of j /\ key_of j ∉ w /\
  (is_infra_fail_phase (d_phase (j_data j)) (d_error (j_data j)) = false \/
   (n <= count_infra_fail_rows (j_name j) (j_domain j) proto run d)%Z).
Proof.
  unfold skip_fail. case_decide; [set_solver|]. destruct (is_infra_fail_phase _ _); cbn.
  - destruct (Z.ltb_spec (count_infra_fail_rows (j_name j) (j_domain j) proto run d) n); rewrite ?elem_of_singleton.
    + split; [by intros ?%elem_of_empty|]. intros (_ & _ & [?|?]); [done|lia].
    + split; [by intros ->; auto|by intros [-> _]].
  - rewrite elem_of_singleton. split; [by intros ->; auto|by intros [-> _]].
Qed.

(** The keys that a resumed campaign skips are those whose last logged result of the run works, and,
    when [reprobe_failed] is positive, those whose last result is a failure that either is shaped by the
    censor or has happened for infrastructure reasons at least that many times in the run; every other
    pair is probed again. *)
Theorem resume_skip_spec proto n s name dom :
  db_ok (st_db s) ->
  (name, dom) ∈ get_resume_skip_tcp_keys proto n s <->
  exists run x, st_run s = Some run /\ last_entry (Some run) name proto dom (view (st_db s)) = Some x /\
    (working (n_data x) = true \/
     (0 < n)%Z /\ d_status (n_data x) = "FAIL" /\
     (infra_fail (n_data x) = false \/
      (n <= Z.of_nat (length (filter (fun y => infra_fail (n_data y) = true)
              (entries (Some run) name proto dom (view (st_db s))))))%Z)).
Proof.
  intros Hok. unfold get_resume_skip_tcp_keys. destruct (st_run s) as [run|] eqn:Hrun.
  2:{ assert (Hn : get_completed_tcp_keys proto s = ∅) by (unfold get_completed_tcp_keys; by rewrite Hrun).
      rewrite Hn. destruct (n <=? 0)%Z; split; try (by intros ?%elem_of_empty); by intros (? & ? & [=] & _). }
  pose proof (completed_spec proto run s name dom Hok Hrun) as Hw.
  destruct (Z.leb_spec n 0) as [Hn|Hn].
  { rewrite Hw. split.
    - intros (x & Hx & Hwx). exists run, x. auto.
    - intros (run' & x & [= <-] & Hx & [Hwx|[? _]]); [by exists x|lia]. }
  rewrite elem_of_union, elem_of_union_list. split.
  - intros [(x & Hx & Hwx)%Hw|(X & HX & Hk)]; [exists run, x; auto|].
    apply list_elem_of_fmap in HX as (j & -> & Hj). apply elem_of_skip_fail in Hk as (Hk & _ & Hc).
    destruct (proj1 (latest_fails_spec proto run (st_db s) name dom (fun j' => j' = j) Hok)) as (j' & Hj' & Hr & Hl & <- & <- & <- & Hs & ->).
    { by exists j. }
    eexists run, _. split; [done|]. split; [by apply latest_is_last|]. right. split_and!; [done|done|].
    cbn. unfold infra_fail. rewrite Hs. cbn. rewrite (count_infra_entries _ Hok) in Hc. exact Hc.
  - intros (run' & x & [= <-] & Hx & [Hwx|(_ & Hs & Hc)]); [left; apply Hw; by exists x|].
    destruct (decide ((name, dom) ∈ get_completed_tcp_keys proto s)) as [|Hnot]; [by left|right].
    destruct (last_is_latest _ Hok _ _ _ _ _ Hx) as (j & Hj & Hr & Hl & Hjn & Hjp & Hjd & ->).
    destruct (proj2 (latest_fails_spec proto run (st_db s) name dom (fun j' => j' = j) Hok)) as (j' & Hj' & Hk & ->).
    { exists j. by split_and!. }
    eexists. split; [apply list_elem_of_fmap; by exists j|]. apply elem_of_skip_fail. rewrite Hk. split_and!; [done|done|].
    cbn in Hs, Hc. unfold infra_fail in Hc. rewrite Hs in Hc. cbn in Hc. rewrite (count_infra_entries _ Hok).
    subst. exact Hc.
Qed.
End Resume.

(** ** Working strategies *)

Section Working.
Context {SQL : Sqlite}.

Lemma elem_of_working_rows dom proto d j :
  j ∈ working_rows dom proto d <->
  j ∈ join_tcp d /\ j_proto j = proto /\ j_domain j = dom /\ is_latest None d j.2 = true /\ working (j_data j) = true.
Proof.
  unfold working_rows. rewrite list_elem_of_filter, !andb_true_iff, !String.eqb_eq. tauto.
Qed.

(** The working list of a domain names every strategy at most once, and exactly those whose last logged
    result about the domain, of any run, passed or was throttled and was not a bridge pass without the
    strategy applied; each with the status and the latency of that result. *)
Theorem working_details_spec dom proto d :
  db_ok d ->
  NoDup (get_working_proto dom proto d) /\
  forall r, r ∈ get_working_proto_details dom proto d <->
    exists x, last_entry None (td_name r) proto dom (view d) = Some x /\ working (n_data x) = true /\
      td_status r = d_status (n_data x) /\ td_latency r = Some (d_latency (n_data x)).
Proof.
  intros Hok. split.
  - unfold get_working_proto, get_working_proto_details. rewrite <- list_fmap_compose, row_order_perm.
    apply NoDup_fmap_2_strong; [|by apply NoDup_filter, join_NoDup].
    intros j1 j2 (H1 & Hp1 & Hd1 & Hl1 & _)%elem_of_working_rows (H2 & Hp2 & Hd2 & Hl2 & _)%elem_of_working_rows Hn.
    cbn in Hn. apply (elem_of_join d Hok) in H1 as (Ht1 & Hk1 & Hs1 & Hi1), H2 as (Ht2 & Hk2 & Hs2 & Hi2).
    assert (Hs : t_strategy j1.2.2 = t_strategy j2.2.2).
    { apply (name_of_inj d Hok _ _ (j_name j1, proto)); [by rewrite Hk1, Hp1|by rewrite Hk2, Hn, Hp2]. }
    assert (H2eq : j1.2 = j2.2).
    { apply (ids_inj (tcp_results d)); [apply Hok|done|done|]. unfold is_latest in Hl1, Hl2.
      apply bool_decide_eq_true in Hl1, Hl2. unfold j_domain, j_data in *. rewrite Hs, Hd1, <- Hd2, Hl2 in Hl1. congruence. }
    assert (H1eq : j1.1 = j2.1).
    { apply (ids_inj (strategies d)); [apply Hok|done|done|congruence]. }
    destruct j1, j2. cbn in *. by subst.
  - intros r. unfold get_working_proto_details. rewrite list_elem_of_fmap. setoid_rewrite row_order_perm.
    setoid_rewrite elem_of_working_rows.
    rewrite <- (latest_iff d Hok None (td_name r) proto dom (fun v => working v = true /\
       td_status r = d_status v /\ td_latency r = Some (d_latency v))).
    split.
    + intros (j & -> & Hj & Hp & Hd & Hl & Hw). exists j. by split_and!.
    + intros (j & Hj & _ & Hl & Hn & Hp & Hd & Hw & Hs & Hlat). exists j. split; [|done].
      destruct r as [rn rs rl]. cbn in *. by subst.
Qed.

(** Buffering does not change what is stored: the transaction of a flush and the immediate writes of the
    same results, in the same order and run, leave the same log. *)
Theorem flush_is_immediate now ts run tcp s :
  db_ok (st_db s) -> st_run s = Some run ->
  view (flush_tx ts run tcp [] (st_db s)) = view (st_db (foldl (fun s e => log_tcp_now now e s) s tcp)) /\
  uview (flush_tx ts run tcp [] (st_db s)) = uview (st_db (foldl (fun s e => log_tcp_now now e s) s tcp)).
Proof.
  intros Hok Hrun. destruct (flush_tx_spec ts run tcp [] (st_db s) Hok) as (_ & -> & ->).
  assert (Himm : let s' := foldl (fun s e => log_tcp_now now e s) s tcp in
    view (st_db s') = (view (st_db s) ++ (entry_named run <$> tcp))%list /\ uview (st_db s') = uview (st_db s)).
  { clear ts. revert s Hok Hrun. induction tcp as [|e tcp IH]; intros s Hok Hrun; [by rewrite app_nil_r|].
    cbn [foldl]. assert (Hr : ensure_run_id now s = (run, s)) by (unfold ensure_run_id; by rewrite Hrun).
    destruct (log_tcp_now_spec now e s run s Hok Hr) as (Hok' & Hrun' & Hv & Hu & _).
    destruct (IH _ Hok' Hrun') as [IHv IHu]. cbv zeta. rewrite IHv, IHu, Hv, Hu, <- app_assoc. done. }
  destruct Himm as [-> ->]. by rewrite app_nil_r.
Qed.
End Working.

(** ** Runs *)

Section Restart.
Context {SQL : Sqlite}.

Lemma find_run_spec fp d i :
  find_run fp d = Some i <->
  i ∈ (filter (fun r => fingerprint r.2 = fp) (rows (runs d))).*1 /\
  forall j, j ∈ (filter (fun r => fingerprint r.2 = fp) (rows (runs d))).*1 -> (j <= i)%Z.
Proof.
  unfold find_run. revert i. induction (rows (runs d)) as [|r l IH]; intros i.
  - split; [done|]. intros [H%elem_of_nil _]. done.
  - cbn [foldr]. rewrite filter_cons. destruct (String.eqb_spec (fingerprint r.2) fp) as [E|E].
    2:{ by rewrite decide_False. }
    rewrite decide_True by done. rewrite fmap_cons. setoid_rewrite elem_of_cons.
    destruct (foldr _ None l) as [b|] eqn:Eb.
    + destruct (proj1 (IH b) eq_refl) as [Hin Hle]. split.
      * intros [= <-]. split.
        -- destruct (Z.max_spec r.1 b) as [[? ->]|[? ->]]; [by right|by left].
        -- intros j [->|Hj]; [lia|]. specialize (Hle j Hj). lia.
      * intros [[->|Hi] Hmax]; f_equal.
        -- specialize (Hmax b (or_intror Hin)). lia.
        -- pose proof (Hle i Hi). pose proof (Hmax b (or_intror Hin)). pose proof (Hmax r.1 (or_introl eq_refl)). lia.
    + assert (Hempty : (filter (fun r => fingerprint r.2 = fp) l).*1 = []).
      { destruct (filter _ l).*1 as [|x xs] eqn:Ex; [done|]. exfalso.
        assert (exists i, i ∈ x :: xs /\ forall j, j ∈ x :: xs -> (j <= i)%Z) as (i0 & Hi0).
        { clear. revert x. induction xs as [|y ys IHs]; intros x; [exists x; split; [by left|]; by intros j ->%list_elem_of_singleton|].
          destruct (IHs y) as (i & Hi & Hmax). exists (Z.max x i). split.
          - destruct (Z.max_spec x i) as [[? ->]|[? ->]]; [by right|by left].
          - intros j [->|Hj]%elem_of_cons; [lia|]. specialize (Hmax j Hj). lia. }
        by apply (IH i0) in Hi0. }
      rewrite Hempty. split.
      * intros [= <-]. split; [by left|]. intros j [->|Hj%elem_of_nil]; [lia|done].
      * intros [[->|Hi%elem_of_nil] _]; done.
Qed.

(** After a run has begun, its row is the latest one with the fingerprint. *)
Lemma begin_run_found resume r s :
  db_ok (st_db s) -> nonempty (fingerprint r) = true ->
  find_run (fingerprint r) (st_db (begin_run resume r s).2) = Some (begin_run resume r s).1.
Proof.
  intros Hok Hfp. unfold begin_run, begin_run_on_db. rewrite Hfp, andb_true_r.
  destruct (default _ _) eqn:Eb; [destruct (find_run (fingerprint r) (st_db s)) as [id|] eqn:E; [done|]|].
  all: apply find_run_spec; cbn; rewrite filter_app, fmap_app, filter_cons_True, filter_nil by done; cbn.
  all: split; [apply elem_of_app; right; by left|].
  all: intros j [Hj|Hj%list_elem_of_singleton]%elem_of_app; [|lia].
  all: apply list_elem_of_fmap in Hj as (x & -> & [_ Hx]%list_elem_of_filter).
  all: pose proof (insert_above r _ x.1 (ok_runs _ Hok) (list_elem_of_fmap_2 fst _ _ Hx)) as Ha; cbn in Ha; lia.
Qed.

Lemma flush_runs ts run tcp udp d : db_ok d -> runs (flush_tx ts run tcp udp d) = runs d.
Proof.
  intros Hok. unfold flush_tx. destruct (tcp_rows_of _ _ _ _) as [trs [cache d1]] eqn:E1.
  assert (Hc0 : cache_ok ([], d)) by done.
  destruct (tcp_rows_of_spec _ _ _ _ _ _ Hc0 E1) as (Hc1 & Hg1 & HF1). cbn in *.
  assert (Ht : forall rs d, runs (foldl (fun d r => insert_tcp r d) d rs) = runs d).
  { induction rs as [|r rs IH]; intros d'; [done|]. cbn. by rewrite IH. }
  assert (Hu : forall rs d, runs (foldl (fun d r => insert_udp r d) d rs) = runs d).
  { induction rs as [|r rs IH]; intros d'; [done|]. cbn. by rewrite IH. }
  destruct (insert_all_tcp run tcp trs d1) as (Hok2 & _ & _ & Hs2 & _); [apply Hc1|done|].
  destruct (udp_rows_of _ _ _ _) as [urs [cache3 d3]] eqn:E3.
  assert (Hc2 : cache_ok (cache, foldl (fun d r => insert_tcp r d) d1 trs)).
  { split; [done|]. intros k sid Hk. cbn. unfold name_of, strategy_names. rewrite Hs2. by apply Hc1. }
  destruct (udp_rows_of_spec _ _ _ _ _ _ Hc2 E3) as (_ & Hg3 & _). cbn in *.
  rewrite Hu, (grown_runs _ _ Hg3), Ht. by rewrite (grown_runs _ _ Hg1).
Qed.

(** C14. A campaign that a new process resumes with the same fingerprint continues the run of the old one, and
    what it takes as done are the pairs whose last result committed in that run works, those of this process
    and of the earlier ones that ran under it. *)
Theorem resume_after_restart d resume r r' batch ts es us proto name dom :
  db_ok d -> nonempty (fingerprint r) = true -> fingerprint r' = fingerprint r ->
  let '(run, s) := begin_run (Some resume) r (open_store d batch resume) in
  let d1 := flush_tx ts run es us (st_db s) in
  let '(run', s') := begin_run (Some true) r' (open_store d1 batch true) in
  run' = run /\
  ((name, dom) ∈ get_completed_tcp_keys proto s' <->
   exists x, last_entry (Some run) name proto dom (view d ++ (entry_named run <$> es)) = Some x /\ working (n_data x) = true).
Proof.
  intros Hok Hfp Hfp'. destruct (begin_run (Some resume) r _) as [run s] eqn:E.
  assert (Hs : db_ok (st_db s) /\ view (st_db s) = view d /\ find_run (fingerprint r) (st_db s) = Some run).
  { pose proof (begin_run_db_ok resume r (open_store d batch resume) Hok) as H1.
    pose proof (begin_run_frame resume r (open_store d batch resume)) as (_ & H2 & _).
    pose proof (begin_run_found (Some resume) r (open_store d batch resume) Hok Hfp) as H3.
    unfold begin_run in E, H3. cbn in E, H3. rewrite E in *. done. }
  destruct Hs as (Hok1 & Hv & Hf). cbv zeta. pose proof (flush_tx_spec ts run es us _ Hok1) as (Hok2 & Hv2 & _).
  assert (Hf2 : find_run (fingerprint r) (flush_tx ts run es us (st_db s)) = Some run).
  { unfold find_run. by rewrite (flush_runs _ _ _ _ _ Hok1). }
  unfold begin_run. cbn [default]. unfold begin_run_on_db. rewrite Hfp', Hfp. cbn [andb st_db open_store]. rewrite Hf2.
  split; [done|]. rewrite (completed_spec proto run _ name dom); [|done|done]. cbn [st_db set_run open_store].
  by rewrite Hv2, Hv.
Qed.
End Restart.

(** ** Examples *)

(** Two strategies and a domain: a failure of the censor, then a pass; and an infrastructure failure. *)
Definition ex_timeout : tcp_entry :=
  TcpEntry "b" "tcp" "multisplit"
    (TcpData "x.com" "FAIL" 0 f_zero f_zero 1 "ns pool exhausted" "t" f_zero "" "" "" "" None 0 0 "" 0 None None).
Definition ex_log : list tcp_entry :=
  [ex_entry "a" "fake" "x.com" "FAIL"; ex_entry "a" "fake" "x.com" "PASS"; ex_timeout].

Definition ex_begun : Z * store := begin_run (Some false) ex_row (open_store new_db 500 false).
Definition ex_flushed : db := flush_tx "t" 1 ex_log [] (st_db ex_begun.2).
Definition ex_store : store := set_db ex_flushed ex_begun.2.

Lemma ex_begun_ok : db_ok (st_db ex_begun.2).
Proof. apply begin_run_db_ok, new_db_ok. Qed.

Lemma ex_flushed_ok : db_ok ex_flushed.
Proof. apply flush_tx_spec, ex_begun_ok. Qed.

(** The pair that passed is skipped; the infrastructure failure is probed again until it has happened as
    often as asked. *)
Example ex_skip :
  (fun n => (bool_decide (("a", "x.com") ∈ get_resume_skip_tcp_keys "tcp" n ex_store),
             bool_decide (("b", "x.com") ∈ get_resume_skip_tcp_keys "tcp" n ex_store))) <$> [0; 1; 2]%Z =
  [(true, false); (true, true); (true, false)].
Proof. vm_compute. reflexivity. Qed.

Example resume_skip_spec_witness :
  ("b", "x.com") ∈ get_resume_skip_tcp_keys "tcp" 1 ex_store <->
  exists run x, st_run ex_store = Some run /\ last_entry (Some run) "b" "tcp" "x.com" (view (st_db ex_store)) = Some x /\
    (working (n_data x) = true \/
     (0 < 1)%Z /\ d_status (n_data x) = "FAIL" /\
     (infra_fail (n_data x) = false \/
      (1 <= Z.of_nat (length (filter (fun y => infra_fail (n_data y) = true)
              (entries (Some run) "b" "tcp" "x.com" (view (st_db ex_store))))))%Z)).
Proof. exact (resume_skip_spec "tcp" 1 ex_store "b" "x.com" ex_flushed_ok). Defined.

Example working_details_spec_witness :
  NoDup (get_working_proto "x.com" "tcp" ex_flushed) /\
  forall r, r ∈ get_working_proto_details "x.com" "tcp" ex_flushed <->
    exists x, last_entry None (td_name r) "tcp" "x.com" (view ex_flushed) = Some x /\ working (n_data x) = true /\
      td_status r = d_status (n_data x) /\ td_latency r = Some (d_latency (n_data x)).
Proof. exact (working_details_spec "x.com" "tcp" ex_flushed ex_flushed_ok). Defined.

Example flush_is_immediate_witness :
  view (flush_tx "t" 1 ex_log [] (st_db ex_begun.2)) =
    view (st_db (foldl (fun s e => log_tcp_now ex_row e s) ex_begun.2 ex_log)) /\
  uview (flush_tx "t" 1 ex_log [] (st_db ex_begun.2)) =
    uview (st_db (foldl (fun s e => log_tcp_now ex_row e s) ex_begun.2 ex_log)).
Proof. exact (flush_is_immediate ex_row "t" 1 ex_log ex_begun.2 ex_begun_ok eq_refl). Defined.

Example resume_after_restart_witness :
  let '(run, s) := begin_run (Some false) ex_row (open_store new_db 500 false) in
  let d1 := flush_tx "t" run ex_log [] (st_db s) in
  let '(run', s') := begin_run (Some true) ex_row (open_store d1 500 true) in
  run' = run /\
  (("a", "x.com") ∈ get_completed_tcp_keys "tcp" s' <->
   exists x, last_entry (Some run) "a" "tcp" "x.com" (view new_db ++ (entry_named run <$> ex_log)) = Some x /\
     working (n_data x) = true).
Proof. exact (resume_after_restart new_db false ex_row ex_row 500 "t" ex_log [] "tcp" "a" "x.com" new_db_ok eq_refl eq_refl). Defined.
