(* ===== verification/StoreFlush.v ===== *)
(** * The buffered writes of the run state store: [engine/store/sqlite_store.py]

    [log_tcp], [log_udp] and [flush] of a store that buffers, first as operations, then as steps of a
    transition system in which other tasks run while a flush holds its batch: what is logged is committed,
    held or pending, in order, whatever fails. *)

From stdpp Require Import base numbers list strings relations sorting.
From Stdlib Require Import ZArith Lia Ascii.
From S2P Require Import Prelude PyFloat PyStr PyDict Weights RunStore StoreLog.

#[local] Open Scope string_scope.

(** ** Operations *)

(** How one attempt of the transaction ends; a failed one is rolled back. *)
Inductive attempt : Type := Committed | Locked | Failed.

(** The loop over five attempts: whether one commits; else the error of the last one is raised. *)
Fixpoint commits (n : nat) (outs : list attempt) : bool :=
  match n, outs with
  | O, _ | _, [] => false
  | S n, o :: outs => match o with Committed => true | Locked => commits n outs | Failed => false end
  end.

Section Operations.
Context {SQL : Sqlite}.

(** [flush]: [false] when it raises, the rows being pending again. *)
Definition flush (now : Run) (outs : list attempt) (s : store) : bool * store :=
  match tcp_pending s, udp_pending s with
  | [], [] => (true, s)
  | tcp, udp =>
      let '(run, s) := ensure_run_id now s in
      if commits 5 outs
      then (true, set_pending [] [] (set_db (flush_tx (started_at now) run tcp udp (st_db s)) s))
      else (false, s)
  end.

(** [log_tcp]; [aged] is whether the oldest pending row is older than the flush interval. *)
Definition log_tcp (now : Run) (outs : list attempt) (aged : bool) (e : tcp_entry) (s : store) : bool * store :=
  if (0 <? batch_size s)%Z then
    let s := set_pending (tcp_pending s ++ [e]) (udp_pending s) s in
    if (batch_size s <=? Z.of_nat (length (tcp_pending s)))%Z || aged then flush now outs s else (true, s)
  else (true, log_tcp_now now e s).

Definition log_udp (now : Run) (outs : list attempt) (aged : bool) (e : udp_entry) (s : store) : bool * store :=
  if (0 <? batch_size s)%Z then
    let s := set_pending (tcp_pending s) (udp_pending s ++ [e]) s in
    if (batch_size s <=? Z.of_nat (length (udp_pending s)))%Z || aged then flush now outs s else (true, s)
  else (true, log_udp_now now e s).

(** ** Flushing while other tasks log *)

(** The store, the batch that the running flush has taken, and all that was ever logged. *)
Record flushing : Type := Flushing {
  f_store : store; f_batch : option (list tcp_entry * list udp_entry);
  f_logged : list tcp_entry; f_ulogged : list udp_entry
}.

Definition held (s : flushing) : list tcp_entry := match f_batch s with Some b => b.1 | None => [] end.
Definition uheld (s : flushing) : list udp_entry := match f_batch s with Some b => b.2 | None => [] end.

(** Tables that results do not depend on. *)
Definition same_results (d d' : db) : Prop :=
  runs d' = runs d /\ strategies d' = strategies d /\ tcp_results d' = tcp_results d /\ udp_results d' = udp_results d.

Inductive flush_step : flushing -> flushing -> Prop :=
  | FLogTcp s e :
      flush_step s (Flushing (set_pending (tcp_pending (f_store s) ++ [e]) (udp_pending (f_store s)) (f_store s))
                      (f_batch s) (f_logged s ++ [e]) (f_ulogged s))
  | FLogUdp s e :
      flush_step s (Flushing (set_pending (tcp_pending (f_store s)) (udp_pending (f_store s) ++ [e]) (f_store s))
                      (f_batch s) (f_logged s) (f_ulogged s ++ [e]))
  | FDrain s :
      f_batch s = None ->
      flush_step s (Flushing (set_pending [] [] (f_store s)) (Some (tcp_pending (f_store s), udp_pending (f_store s)))
                      (f_logged s) (f_ulogged s))
  | FEnsureRun s now :
      flush_step s (Flushing (ensure_run_id now (f_store s)).2 (f_batch s) (f_logged s) (f_ulogged s))
  | FBeginRun s resume r :
      flush_step s (Flushing (begin_run resume r (f_store s)).2 (f_batch s) (f_logged s) (f_ulogged s))
  | FOther s d :
      same_results (st_db (f_store s)) d ->
      flush_step s (Flushing (set_db d (f_store s)) (f_batch s) (f_logged s) (f_ulogged s))
  | FCommit s ts run tcp udp :
      f_batch s = Some (tcp, udp) -> st_run (f_store s) = Some run ->
      flush_step s (Flushing (set_db (flush_tx ts run tcp udp (st_db (f_store s))) (f_store s)) None
                      (f_logged s) (f_ulogged s))
  | FFail s tcp udp :
      f_batch s = Some (tcp, udp) ->
      flush_step s (Flushing (set_pending (tcp ++ tcp_pending (f_store s)) (udp ++ udp_pending (f_store s)) (f_store s))
                      None (f_logged s) (f_ulogged s)).

(** A cancellation is no [Exception]: the batch is not pending again. *)
Inductive cancel_step : flushing -> flushing -> Prop :=
  | FCancel s b : f_batch s = Some b ->
      cancel_step s (Flushing (f_store s) None (f_logged s) (f_ulogged s)).

Definition flush_start (d : db) (batch : Z) : flushing := Flushing (open_store d batch false) None [] [].

(** ** Nothing is lost *)

Record flush_inv (d : db) (s : flushing) : Prop := FlushInv {
  fi_ok : db_ok (st_db (f_store s));
  fi_tcp : exists committed : list (Z * tcp_entry),
    view (st_db (f_store s)) = (view d ++ (uncurry entry_named <$> committed))%list /\
    (committed.*2 ++ held s ++ tcp_pending (f_store s) = f_logged s)%list;
  fi_udp : exists committed : list (Z * udp_entry),
    uview (st_db (f_store s)) = (uview d ++ (uncurry entry_unamed <$> committed))%list /\
    (committed.*2 ++ uheld s ++ udp_pending (f_store s) = f_ulogged s)%list
}.

Lemma same_results_ok d d' : same_results d d' -> db_ok d -> db_ok d' /\ view d' = view d /\ uview d' = uview d.
Proof.
  intros (H1 & H2 & H3 & H4) [K1 K2 K3 K4 K5 K6 K7]. split; [|split].
  - constructor; by rewrite ?H1, ?H2, ?H3, ?H4.
  - unfold view, named_row, name_of, strategy_names. by rewrite H2, H3.
  - unfold uview, unamed_row, name_of, strategy_names. by rewrite H2, H4.
Qed.

(** A step of the store that keeps its log and what is pending. *)
Lemma flush_inv_store d s st :
  flush_inv d s -> db_ok (st_db st) -> view (st_db st) = view (st_db (f_store s)) ->
  uview (st_db st) = uview (st_db (f_store s)) ->
  tcp_pending st = tcp_pending (f_store s) -> udp_pending st = udp_pending (f_store s) ->
  flush_inv d (Flushing st (f_batch s) (f_logged s) (f_ulogged s)).
Proof.
  intros [Hok Ht Hu] Hst Hv Huv Hp Hup. constructor; cbn.
  - exact Hst.
  - rewrite Hv, Hp. exact Ht.
  - rewrite Huv, Hup. exact Hu.
Qed.

(** A commit adds the whole batch to what is committed. *)
Lemma commit_log {E N} (named_of : Z -> E -> N) run v0 v v' (logged batch pending : list E) :
  (exists c : list (Z * E), v = (v0 ++ (uncurry named_of <$> c))%list /\ (c.*2 ++ batch ++ pending = logged)%list) ->
  v' = (v ++ (named_of run <$> batch))%list ->
  exists c : list (Z * E), v' = (v0 ++ (uncurry named_of <$> c))%list /\ (c.*2 ++ [] ++ pending = logged)%list.
Proof.
  intros (c & -> & Hc) ->. exists (c ++ (pair run <$> batch))%list. split.
  - rewrite fmap_app, app_assoc. f_equal. rewrite <- list_fmap_compose. done.
  - rewrite fmap_app, <- list_fmap_compose. cbn. rewrite <- Hc, <- app_assoc. f_equal. f_equal.
    change ((λ x, x) <$> batch = batch). apply list_fmap_id.
Qed.

Lemma flush_inv_step d s s' : flush_inv d s -> flush_step s s' -> flush_inv d s'.
Proof.
  intros Hinv Hstep. destruct Hstep as [s e|s e|s Hb|s now|s resume r|s d' Hd|s ts run tcp udp Hb Hrun|s tcp udp Hb].
  - destruct Hinv as [Hok (c & Hv & Hc) Hu]. constructor; cbn; [done| |exact Hu].
    exists c. split; [done|]. by rewrite <- Hc, <- !app_assoc.
  - destruct Hinv as [Hok Ht (c & Hv & Hc)]. constructor; cbn; [done|exact Ht|].
    exists c. split; [done|]. by rewrite <- Hc, <- !app_assoc.
  - destruct Hinv as [Hok (c & Hv & Hc) (cu & Hvu & Hcu)]. unfold held, uheld in *. rewrite Hb in *.
    constructor; cbn in *; [done|exists c|exists cu]; by rewrite app_nil_r.
  - destruct (ensure_run_id now (f_store s)) as [run st] eqn:E.
    destruct (ensure_run_frame _ _ _ _ E (fi_ok _ _ Hinv)) as (H1 & _ & H2 & H3 & H4 & H5). by apply flush_inv_store.
  - pose proof (begin_run_db_ok (default (st_resume (f_store s)) resume) r _ (fi_ok _ _ Hinv)) as H1.
    pose proof (begin_run_frame (default (st_resume (f_store s)) resume) r (f_store s)) as (_ & H2 & H3 & _ & H4 & H5 & _).
    by apply flush_inv_store.
  - destruct (same_results_ok _ _ Hd (fi_ok _ _ Hinv)) as (H1 & H2 & H3). by apply flush_inv_store.
  - destruct Hinv as [Hok Ht Hu]. destruct (flush_tx_spec ts run tcp udp _ Hok) as (Hok' & Hv & Huv).
    unfold held, uheld in *. rewrite Hb in *. constructor; cbn in *; [done| |].
    + eapply commit_log; [exact Ht|exact Hv].
    + eapply commit_log; [exact Hu|exact Huv].
  - destruct Hinv as [Hok (c & Hv & Hc) (cu & Hvu & Hcu)]. unfold held, uheld in *. rewrite Hb in *.
    constructor; cbn in *; [done|by exists c|by exists cu].
Qed.


(** A flush that is cancelled, by the timeout of [close] or with the timer task, loses its batch. *)
Lemma cancel_loses_rows e :
  exists s s', rtc flush_step (flush_start new_db 500) s /\ cancel_step s s' /\
    f_logged s' = [e] /\ view (st_db (f_store s')) = [] /\ held s' = [] /\ tcp_pending (f_store s') = [].
Proof.
  eexists _, _. split; [|split].
  - eapply rtc_l; [apply (FLogTcp _ e)|]. eapply rtc_l; [by apply FDrain|]. reflexivity.
  - by eapply FCancel.
  - by split_and!.
Qed.

End Operations.

(** In one flush the first configuration of a strategy is stored, written at once the last one. *)
Definition configs (d : db) : list string := (fun r => s_config r.2) <$> rows (strategies d).

Lemma batch_keeps_first_config :
  let es := [ex_entry "a" "fake" "x.com" "FAIL"; ex_entry "a" "multisplit" "y.com" "PASS"] in
  configs (flush_tx "t" 1 es [] new_db) = ["fake"] /\
  configs (st_db (foldl (fun s e => log_tcp_now ex_row e s) (open_store new_db 0 false) es)) = ["multisplit"].
Proof. split; vm_compute; reflexivity. Qed.

(** ** Examples *)

Definition ex_steps : flushing :=
  Flushing (set_db (flush_tx "t" 1 [ex_entry "a" "fake" "x.com" "FAIL"] [] (set_runs (insert (blank_run ex_row) empty).2 new_db))
              (set_pending [ex_entry "b" "fake" "x.com" "PASS"] [] (set_run 1 (open_store new_db 500 false))))
    None [ex_entry "a" "fake" "x.com" "FAIL"; ex_entry "b" "fake" "x.com" "PASS"] [].

Lemma ex_steps_reachable : rtc flush_step (flush_start new_db 500) ex_steps.
Proof.
  eapply rtc_l; [apply (FLogTcp _ (ex_entry "a" "fake" "x.com" "FAIL"))|].
  eapply rtc_l; [by apply FDrain|].
  eapply rtc_l; [apply (FLogTcp _ (ex_entry "b" "fake" "x.com" "PASS"))|].
  eapply rtc_l; [apply (FEnsureRun _ ex_row)|].
  eapply rtc_l; [by apply (FCommit _ "t" 1)|]. reflexivity.
Qed.

