(* ===== verification/StoreWeights.v ===== *)
(** * Learned weights across restarts

    The composition of [ScanWeights.to_rows] and [from_rows] with the upserts and the ordered query of the
    run state store: what a campaign learned is what the next one starts with. *)

From stdpp Require Import base numbers list strings sorting.
From Stdlib Require Import ZArith Lia Ascii.
From S2P Require Import Prelude PyFloat PyStr PyDict Weights RunStore StoreQueries.

#[local] Open Scope string_scope.

(** ** Rows and tables *)

(** The prefixes of the three tables. *)
Definition table_prefix (n : nat) : string := match n with O => "family:" | 1%nat => "blob:" | _ => "trait:" end.
Definition table_of (n : nat) (w : ScanWeights) : list (string * float) :=
  match n with O => family w | 1%nat => blob w | _ => trait w end.

(** One row changes its own entry of its own table. *)
Lemma add_row_lookup n k w row :
  dget k (table_of n (add_row w row)) =
  if decide (row.1 = table_prefix n +:+ k) then Some row.2 else dget k (table_of n w).
Proof.
  destruct row as [key v], w as [f b t fb bb tb pb]. unfold add_row. cbn [fst snd].
  assert (Hp : forall p, startswith p key = true -> key = p +:+ sdrop (String.length p) key).
  { intros p [s ->]%startswith_spec. by rewrite sdrop_append. }
  assert (Hother : forall p s, key = p +:+ s -> startswith p key = true) by (intros p s ->; apply startswith_app).
  destruct (startswith "family:" key) eqn:E1; [|destruct (startswith "blob:" key) eqn:E2;
    [|destruct (startswith "trait:" key) eqn:E3]].
  - apply Hp in E1. cbn [String.length] in E1. set (s := sdrop 7 key) in *. clearbody s. subst key.
    destruct n as [|[|n]]; cbn [table_of table_prefix family blob trait].
    + rewrite dget_set. repeat case_decide; try done; exfalso; [subst; done|]. by apply append_inj_l in H0.
    + by rewrite decide_False by (intros [=]).
    + by rewrite decide_False by (intros [=]).
  - apply Hp in E2. cbn [String.length] in E2. set (s := sdrop 5 key) in *. clearbody s. subst key.
    destruct n as [|[|n]]; cbn [table_of table_prefix family blob trait].
    + by rewrite decide_False by (intros [=]).
    + rewrite dget_set. repeat case_decide; try done; exfalso; [subst; done|]. by apply append_inj_l in H0.
    + by rewrite decide_False by (intros [=]).
  - apply Hp in E3. cbn [String.length] in E3. set (s := sdrop 6 key) in *. clearbody s. subst key.
    destruct n as [|[|n]]; cbn [table_of table_prefix family blob trait].
    + by rewrite decide_False by (intros [=]).
    + by rewrite decide_False by (intros [=]).
    + rewrite dget_set. repeat case_decide; try done; exfalso; [subst; done|]. by apply append_inj_l in H0.
  - rewrite decide_False; [by destruct n as [|[|n]]|]. intros H.
    destruct n as [|[|n]]; cbn [table_prefix] in H; apply Hother in H; congruence.
Qed.

Lemma from_rows_lookup n k rows :
  NoDup rows.*1 -> dget k (table_of n (from_rows rows)) =
    match dget (table_prefix n +:+ k) rows with Some v => Some v | None => dget k (table_of n new_weights) end.
Proof.
  unfold from_rows. generalize new_weights. induction rows as [|row rows IH]; intros w Hnd; [done|].
  rewrite fmap_cons in Hnd. apply NoDup_cons in Hnd as [Hnew Hnd]. cbn [foldl]. rewrite (IH _ Hnd), add_row_lookup.
  destruct row as [key v]. cbn [dget fst snd]. destruct (decide (key = table_prefix n +:+ k)) as [->|Hne].
  - rewrite decide_True by done. cbn in Hnew. by rewrite (proj2 (dget_None _ _) Hnew).
  - by rewrite decide_False.
Qed.

Lemma prefix_rows_lookup p k d : dget (p +:+ k) (prefix_rows p d) = dget k d.
Proof.
  induction d as [|[x v] d IH]; [done|]. cbn. repeat case_decide; try done; [by apply append_inj_l in H|by subst].
Qed.

Lemma dget_app {V} (k : string) (a b : list (string * V)) : dget k (a ++ b) = match dget k a with Some v => Some v | None => dget k b end.
Proof. induction a as [|[x v] a IH]; [done|]. cbn. by case_decide. Qed.

Lemma prefix_rows_other p q k d : (forall s, q +:+ k <> p +:+ s) -> dget (q +:+ k) (prefix_rows p d) = None.
Proof. intros H. induction d as [|[x v] d IH]; [done|]. cbn. case_decide; [by destruct (H x)|done]. Qed.

Lemma to_rows_lookup n k w : dget (table_prefix n +:+ k) (to_rows w) = dget k (table_of n w).
Proof.
  unfold to_rows. rewrite !dget_app.
  destruct n as [|[|n]]; cbn [table_prefix table_of]; rewrite ?prefix_rows_lookup;
    rewrite ?prefix_rows_other by (intros s [=]); [|by destruct (dget k _)|done].
  by destruct (dget k _).
Qed.

Lemma prefix_rows_keys p d : wf d -> NoDup (prefix_rows p d).*1.
Proof.
  intros Hd. assert (Hk : (prefix_rows p d).*1 = String.append p <$> d.*1).
  { unfold prefix_rows. by rewrite <- !list_fmap_compose. }
  rewrite Hk. apply NoDup_fmap_2; [intros a b; apply append_inj_l|exact Hd].
Qed.

Lemma to_rows_keys w : wf (family w) -> wf (blob w) -> wf (trait w) -> NoDup (to_rows w).*1.
Proof.
  intros Hf Hb Ht. unfold to_rows. rewrite !fmap_app. apply NoDup_app. split_and!; [by apply prefix_rows_keys| |].
  - intros k (x & -> & Hx)%list_elem_of_fmap [Hk|Hk]%elem_of_app.
    all: apply list_elem_of_fmap in Hx as (? & -> & _); apply list_elem_of_fmap in Hk as (? & Hk & Hy).
    all: apply list_elem_of_fmap in Hy as (? & -> & _); discriminate Hk.
  - apply NoDup_app. split_and!; [by apply prefix_rows_keys| |by apply prefix_rows_keys].
    intros k (x & -> & Hx)%list_elem_of_fmap Hk.
    apply list_elem_of_fmap in Hx as (? & -> & _); apply list_elem_of_fmap in Hk as (? & Hk & Hy).
    apply list_elem_of_fmap in Hy as (? & -> & _); discriminate Hk.
Qed.

(** ** The table of weights *)

Lemma save_weights_spec ts rows : forall d,
  Forall (fun r => feq r.2 r.2 = true) rows -> NoDup rows.*1 -> wf (scan_weights d) ->
  exists d', save_scan_weights rows ts d = (true, d') /\ wf (scan_weights d') /\
    forall k, dget k (scan_weights d') = match dget k rows with Some w => Some (w, ts) | None => dget k (scan_weights d) end.
Proof.
  induction rows as [|[k v] rows IH]; intros d Hn Hnd Hwf; [by exists d|].
  inversion Hn as [|? ? Hv Hn']; subst. rewrite fmap_cons in Hnd. apply NoDup_cons in Hnd as [Hnew Hnd].
  cbn [save_scan_weights]. cbn in Hv. rewrite Hv. cbn [negb].
  destruct (IH (set_weights (dset k (v, ts) (scan_weights d)) d) Hn' Hnd) as (d' & Hd & Hw & Hget).
  { cbn. by apply wf_set. }
  exists d'. split_and!; [done|done|]. intros x. rewrite Hget. cbn [dget scan_weights set_weights].
  destruct (decide (k = x)) as [->|Hne].
  - cbn in Hnew. rewrite (proj2 (dget_None _ _) Hnew). rewrite dget_set_eq. by rewrite decide_True.
  - rewrite dget_set_ne by done. by case_decide.
Qed.

Lemma load_lookup d k : wf (scan_weights d) -> dget k (load_scan_weights d) = fst <$> dget k (scan_weights d).
Proof.
  intros Hwf. unfold load_scan_weights. set (l := py_sorted _ _).
  assert (Hl : l ≡ₚ scan_weights d) by apply py_sorted_perm.
  assert (Hwl : wf l) by (unfold wf, keys; rewrite Hl; exact Hwf).
  assert (Hget : dget k l = dget k (scan_weights d)).
  { apply option_eq. intros v. rewrite <- (elem_of_dict k v _ Hwl), <- (elem_of_dict k v _ Hwf). by rewrite Hl. }
  rewrite <- Hget. clear. induction l as [|[x [v t]] l IH]; [done|]. cbn. by case_decide.
Qed.

Lemma load_keys d : wf (scan_weights d) -> NoDup (load_scan_weights d).*1.
Proof.
  intros Hwf. unfold load_scan_weights. rewrite <- list_fmap_compose. cbn.
  change (NoDup (fst <$> py_sorted (fun a b : string * (float * string) => str_lt a.1 b.1) (scan_weights d))).
  rewrite py_sorted_perm. exact Hwf.
Qed.

(** What a campaign learned survives a restart: weights without a NaN are saved, and the weights that the
    next campaign loads have every family, blob and trait of the saved ones with its weight; a name that was
    not saved keeps the weight stored before, or is absent. *)
Theorem weights_survive w ts d :
  wf (family w) -> wf (blob w) -> wf (trait w) -> Forall (fun r => feq r.2 r.2 = true) (to_rows w) ->
  wf (scan_weights d) ->
  exists d', save_scan_weights (to_rows w) ts d = (true, d') /\
    forall n k, dget k (table_of n (from_rows (load_scan_weights d'))) =
      match dget k (table_of n w) with
      | Some v => Some v
      | None => dget k (table_of n (from_rows (load_scan_weights d)))
      end.
Proof.
  intros Hf Hb Ht Hn Hwf.
  destruct (save_weights_spec ts (to_rows w) d Hn (to_rows_keys w Hf Hb Ht) Hwf) as (d' & Hd & Hwf' & Hget).
  exists d'. split; [done|]. intros n k. rewrite !from_rows_lookup by by apply load_keys.
  rewrite !load_lookup by done. rewrite Hget, to_rows_lookup. by destruct (dget k (table_of n w)).
Qed.

Example weights_survive_witness :
  exists d', save_scan_weights (to_rows ex_weights) "t" new_db = (true, d') /\
    forall n k, dget k (table_of n (from_rows (load_scan_weights d'))) =
      match dget k (table_of n ex_weights) with
      | Some v => Some v
      | None => dget k (table_of n (from_rows (load_scan_weights new_db)))
      end.
Proof.
  apply (weights_survive ex_weights "t" new_db); [refine (bool_decide_unpack _ _); vm_compute; exact I..| |constructor].
  refine (bool_decide_unpack _ _). vm_compute. exact I.
Defined.
