(* ===== verification/NetnsPool.v ===== *)
(** * The pool of network namespaces: [service/netns_pool.py]

    Namespaces are created and destroyed by commands of the host, which the model only calls ([Host]:
    every command may fail, time out or raise). What the code itself keeps is modelled: the names and
    the queue of a pool, the process-wide count of live namespaces and the saved value of
    [net.ipv4.ip_forward]. The signal and exit hooks call [destroy_all] on the live pools and are left
    out, and so are log lines and the pause of a tenth of a second. *)

From stdpp Require Import base numbers list strings.
From Stdlib Require Import ZArith Lia Ascii.
From S2P Require Import Prelude PyExn PyStr PyRe Blake2s.

#[local] Open Scope string_scope.
#[local] Open Scope Z_scope.

(** ** Processes and the host *)

Record Proc : Type := Completed { returncode : Z; stdout : string; stderr : string }.
Inductive spawned : Type := Ran (p : Proc) | TimeoutExpired | Failed (msg : string).

(** What the pool calls: [None] is a call that returns, [Some msg] one that raises. *)
Record Host (H : Type) : Type := {
  subprocess_run : list string -> string -> H -> spawned * H;      (* argv and input *)
  read_proc : H -> option string * H;                              (* /proc/sys/net/ipv4/ip_forward; None: OSError *)
  write_marker : string -> H -> H;                                 (* STATE_DIR/ip_forward.restore *)
  clear_marker : H -> H;
  release_curl_probe_worker : string -> H -> option string * H;
  pkill_nfqws2_in_ns : string -> H -> option string * H;
  drop_ns_firewall : string -> H -> option string * H;
  bump_ns_epoch : string -> H -> option string * H;
  bridge_teardown : string -> H -> option string * H;              (* LuaBridge(ns).teardown() *)
  first_udp_nameserver : string
}.
Arguments subprocess_run {H}. Arguments read_proc {H}. Arguments write_marker {H}. Arguments clear_marker {H}.
Arguments release_curl_probe_worker {H}. Arguments pkill_nfqws2_in_ns {H}. Arguments drop_ns_firewall {H}.
Arguments bump_ns_epoch {H}. Arguments bridge_teardown {H}. Arguments first_udp_nameserver {H}.

(** ** State *)

Record NetNsPool : Type := Pool {
  size : Z; base : string; queue : option (list string); created : bool; names : list string; iface : string
}.

Record world (H : Type) : Type := World {
  ip_forward_restore : option string;          (* _IP_FORWARD_RESTORE *)
  active_ns_count : Z;                         (* _ACTIVE_NS_COUNT *)
  pool : NetNsPool;
  host : H
}.
Arguments World {H}. Arguments ip_forward_restore {H}. Arguments active_ns_count {H}. Arguments pool {H}.
Arguments host {H}.

Definition BASE_CIDR : Z := 20.
Definition _NETNS_BASE_RE : re := Plus (Chr (fun c => is_alnum c || Ascii.eqb c "_" || Ascii.eqb c "-")).
Definition _IFNAMSIZ : Z := 15.
Definition _SUDO_AUTH_MARKERS : list string := ["password is required"; "a terminal is required"].

(** [NetNsPool(size, base)]; [$] also matches before a final line break. *)
Definition new_pool (size : Z) (base : string) : res NetNsPool :=
  if found (re_match (Seq _NETNS_BASE_RE Eol) base) then Done (Pool size base None false [] EmptyString)
  else Exn (Error ("invalid netns base " +:+ repr_str base +:+ ": must match ^[A-Za-z0-9_-]+$")).

Definition ns_name (base : string) (idx : Z) : string := base +:+ "-" +:+ str_of_Z idx.

Definition _veth_names (name : string) : res (string * string) :=
  let digest := blake2s_hex 4 name in
  let host := "vh-" +:+ digest in
  let peer := "vn-" +:+ digest in
  if (Z.of_nat (String.length host) >? _IFNAMSIZ) || (Z.of_nat (String.length peer) >? _IFNAMSIZ)
  then Exn (Error ("veth name too long for " +:+ repr_str name))
  else Done (host, peer).

Definition _nat_subnet (idx : Z) : string := "10.200." +:+ str_of_Z (BASE_CIDR + idx) +:+ ".0/30".

(** The interface that the listing of [ip -br link show] gives, the first one that is up and is neither
    [lo] nor one end of a pair. *)
Definition pair_end (name : string) : bool :=
  contains "@" name || startswith "veth" name || startswith "vh-" name || startswith "vn-" name.
Fixpoint pick_iface (lines : list string) : option string :=
  match lines with
  | [] => None
  | line :: lines =>
      match split_ws line with
      | name :: state :: _ =>
          if negb (bool_decide (state = "UP")) || bool_decide (name = "lo") || pair_end name
          then pick_iface lines else Some name
      | _ => pick_iface lines
      end
  end.

(** The stale interface that a line of [ip -o -4 addr show to <ip>] names. *)
Definition stale_iface (line : string) : option string :=
  match split_ws line with
  | _ :: old :: _ => if startswith "vh-" old || startswith "vn-" old || startswith "veth" old then Some old else None
  | _ => None
  end.

Section Pool.
Context {H : Type} (hs : Host H).

Definition N (A : Type) : Type := X (world H) A.

Definition set_host (h : H) (w : world H) : world H := World (ip_forward_restore w) (active_ns_count w) (pool w) h.
Definition set_pool (p : NetNsPool) (w : world H) : world H := World (ip_forward_restore w) (active_ns_count w) p (host w).
Definition set_restore (r : option string) (w : world H) : world H := World r (active_ns_count w) (pool w) (host w).
Definition set_count (c : Z) (w : world H) : world H := World (ip_forward_restore w) c (pool w) (host w).

Definition set_names (ns : list string) (w : world H) : world H :=
  let p := pool w in set_pool (Pool (size p) (base p) (queue p) (created p) ns (iface p)) w.
Definition set_created (b : bool) (w : world H) : world H :=
  let p := pool w in set_pool (Pool (size p) (base p) (queue p) b (names p) (iface p)) w.
Definition set_iface (i : string) (w : world H) : world H :=
  let p := pool w in set_pool (Pool (size p) (base p) (queue p) (created p) (names p) i) w.

Definition look {A} (f : world H -> A) : N A := gets f.

(** A call of the host that may raise. *)
Definition external (f : H -> option string * H) : N unit := fun w =>
  let '(e, h) := f (host w) in
  (match e with None => Done tt | Some msg => Exn (Error msg) end, set_host h w).
Definition spawn (argv : list string) (input : string) : N spawned := fun w =>
  let '(r, h) := subprocess_run hs argv input (host w) in (Done r, set_host h w).

Definition _raise_if_sudo_auth_failed (r : Proc) (args : list string) : N unit :=
  if returncode r =? 0 then mret tt
  else if existsb (fun m => contains m (lower (stderr r))) _SUDO_AUTH_MARKERS
  then raise (Error ("passwordless sudo required for netns pool (sudo -n failed on " +:+ join " " args
                     +:+ "). Configure NOPASSWD for this user."))
  else mret tt.

(** [_run], with the list of its arguments. *)
Definition _run (args : list string) (check : bool) : N Proc :=
  r ← spawn ("sudo" :: "-n" :: args) EmptyString;
  p ← match r with
      | Ran p => mret p
      | TimeoutExpired => mret (Completed (-1) EmptyString ("timeout after 15s: " +:+ join " " args))
      | Failed msg => raise (Error msg)
      end;
  _ ← _raise_if_sudo_auth_failed p args;
  if check && negb (returncode p =? 0)
  then raise (Error ("cmd failed: " +:+ join " " args +:+ " → " +:+ repr_str (stake 200 (stderr p))))
  else mret p.

Definition _run_destroy (args : list string) : N Z := p ← _run args false; mret (returncode p).

(** The output of a command that is run without sudo. *)
Definition output_of (argv : list string) : N string :=
  r ← spawn argv EmptyString;
  match r with
  | Ran p => mret (stdout p)
  | TimeoutExpired => raise (Error "timed out")
  | Failed msg => raise (Error msg)
  end.

(** ** [net.ipv4.ip_forward] *)

Definition _read_ip_forward : N (option string) := fun w =>
  let '(v, h) := read_proc hs (host w) in (Done (strip <$> v), set_host h w).
Definition _write_ip_forward_restore (value : string) : N unit := modify (fun w => set_host (write_marker hs value (host w)) w).
Definition _clear_ip_forward_restore_marker : N unit := modify (fun w => set_host (clear_marker hs (host w)) w).

Definition sysctl_forward (value : string) : list string := ["sysctl"; "-w"; "net.ipv4.ip_forward=" +:+ value].

Definition _enable_ip_forward_locked : N unit :=
  current ← _read_ip_forward;
  match current with
  | None => mret tt
  | Some current =>
      if bool_decide (current = "1") then mret tt else
      saved ← look ip_forward_restore;
      _ ← (match saved with
           | None => _ ← modify (set_restore (Some current)); _write_ip_forward_restore current
           | Some _ => mret tt
           end);
      _ ← _run (sysctl_forward "1") false;
      mret tt
  end.

(** The part of [_restore_ip_forward_if_idle] under the lock: what is left to do after it. *)
Definition take_restore : N (option string) :=
  count ← look active_ns_count;
  if count >? 0 then mret None else
  restore ← look ip_forward_restore;
  match restore with
  | None => _ ← _clear_ip_forward_restore_marker; mret None
  | Some v => _ ← modify (set_restore None); mret (Some v)
  end.
Definition put_back (restore : option string) : N unit :=
  match restore with
  | None => mret tt
  | Some v => _ ← _run (sysctl_forward v) false; _clear_ip_forward_restore_marker
  end.
Definition _restore_ip_forward_if_idle : N unit := r ← take_restore; put_back r.

Definition _track_ns_created : N unit :=
  count ← look active_ns_count;
  _ ← (if count =? 0 then _enable_ip_forward_locked else mret tt);
  modify (fun w => set_count (active_ns_count w + 1) w).

Definition count_down : N unit := modify (fun w => set_count (Z.max 0 (active_ns_count w - 1)) w).
Definition _track_ns_destroyed : N unit := _ ← count_down; _restore_ip_forward_if_idle.

(** ** One namespace *)

Definition _get_iface : N string :=
  cached ← look (fun w => iface (pool w));
  if nonempty cached then mret cached else
  out ← output_of ["ip"; "-br"; "link"; "show"];
  let name := default "eth0" (pick_iface (splitlines out)) in
  _ ← modify (set_iface name);
  mret name.

(** Runs a command and drops its result. *)
Definition run_ (args : list string) (check : bool) : N unit := _ ← _run args check; mret tt.

(** [try: m except Exception: log]. *)
Definition quietly (m : N unit) : N unit := catch m (fun _ => mret tt).

Definition in_ns (name : string) (args : list string) : list string := "ip" :: "netns" :: "exec" :: name :: args.

Definition clean_stale (host_ip : string) : N unit :=
  out ← output_of ["ip"; "-o"; "-4"; "addr"; "show"; "to"; host_ip];
  for_each (splitlines out) (fun line =>
    match stale_iface line with
    | Some old => run_ ["ip"; "link"; "delete"; old] false
    | None => mret tt
    end).

Definition link_commands (name veth_h veth_n host_ip ns_ip : string) : list (list string) :=
  [["ip"; "netns"; "add"; name];
   ["ip"; "link"; "add"; veth_h; "type"; "veth"; "peer"; "name"; veth_n];
   ["ip"; "link"; "set"; veth_n; "netns"; name];
   ["ip"; "addr"; "add"; host_ip +:+ "/30"; "dev"; veth_h];
   ["ip"; "link"; "set"; veth_h; "up"];
   in_ns name ["ip"; "addr"; "add"; ns_ip +:+ "/30"; "dev"; veth_n];
   in_ns name ["ip"; "link"; "set"; veth_n; "up"];
   in_ns name ["ip"; "link"; "set"; "lo"; "up"]].

Definition ipv6_off (name veth_n : string) : list (list string) :=
  (fun i => in_ns name ["sysctl"; "-w"; "net.ipv6.conf." +:+ i +:+ ".disable_ipv6=1"]) <$> ["all"; "default"; veth_n].

Definition nat_args (nat_subnet out_iface : string) : list string :=
  ["-s"; nat_subnet; "-o"; out_iface; "-j"; "MASQUERADE"].
Definition forward_rule (op dir veth_h : string) : list string :=
  ["iptables"; op; "FORWARD"; dir; veth_h; "-j"; "ACCEPT"].

Definition masquerade (nat : list string) : N unit :=
  chk ← _run (["iptables"; "-t"; "nat"; "-C"; "POSTROUTING"] ++ nat)%list false;
  if returncode chk =? 0 then mret tt
  else run_ (["iptables"; "-t"; "nat"; "-I"; "POSTROUTING"; "1"] ++ nat)%list true.

Definition write_resolv (resolv : string) : N unit :=
  r ← spawn ["sudo"; "-n"; "tee"; resolv] ("nameserver " +:+ first_udp_nameserver hs +:+ String "010" EmptyString);
  match r with
  | Ran p =>
      _ ← _raise_if_sudo_auth_failed p ["tee"; resolv];
      if returncode p =? 0 then mret tt else raise (Error ("tee resolv.conf failed: " +:+ stake 200 (stderr p)))
  | TimeoutExpired => raise (Error "timed out")
  | Failed msg => raise (Error msg)
  end.

(** The commands of [_create_one], up to the point where the name is recorded. *)
Definition build_ns (idx : Z) (name veth_h veth_n out_iface : string) : N unit :=
  let subnet := BASE_CIDR + idx in
  let host_ip := "10.200." +:+ str_of_Z subnet +:+ ".1" in
  let ns_ip := "10.200." +:+ str_of_Z subnet +:+ ".2" in
  let nat := nat_args (_nat_subnet idx) out_iface in
  _ ← run_ ["ip"; "netns"; "delete"; name] false;
  _ ← run_ ["ip"; "link"; "delete"; veth_h] false;
  _ ← quietly (clean_stale host_ip);
  _ ← for_each (link_commands name veth_h veth_n host_ip ns_ip) (fun c => run_ c true);
  _ ← for_each (ipv6_off name veth_n) (fun c => run_ c false);
  _ ← run_ (in_ns name ["ip"; "route"; "add"; "default"; "via"; host_ip]) true;
  _ ← run_ (forward_rule "-A" "-i" veth_h) false;
  _ ← run_ (forward_rule "-A" "-o" veth_h) false;
  _ ← masquerade nat;
  let dns_dir := "/etc/netns/" +:+ name in
  _ ← run_ ["mkdir"; "-p"; dns_dir] true;
  _ ← write_resolv (dns_dir +:+ "/resolv.conf");
  external (bump_ns_epoch hs name).

Definition _create_one (idx : Z) : N string :=
  name ← look (fun w => ns_name (base (pool w)) idx);
  '(veth_h, veth_n) ← lift (_veth_names name);
  out_iface ← _get_iface;
  _ ← build_ns idx name veth_h veth_n out_iface;
  _ ← modify (fun w => set_names (names (pool w) ++ [name])%list w);
  _ ← _track_ns_created;
  mret name.

(** [int(name.rsplit("-", 1)[-1]) if "-" in name else 0] *)
Definition name_index (name : string) : res Z :=
  if contains "-" name then
    let tail := default EmptyString (last (split_char "-" name)) in
    match py_int tail with
    | Some i => Done i
    | None => Exn (Error ("invalid literal for int() with base 10: " +:+ repr_str tail))
    end
  else Done 0.

Definition _destroy_one (name : string) (track_lifecycle : bool) : N bool :=
  idx ← lift (name_index name);
  '(veth_h, _) ← lift (_veth_names name);
  out_iface ← _get_iface;
  finally
    (_ ← external (release_curl_probe_worker hs name);
     _ ← external (pkill_nfqws2_in_ns hs name);
     _ ← external (drop_ns_firewall hs name);
     netns_rc ← _run_destroy ["ip"; "netns"; "delete"; name];
     _ ← _run_destroy ["ip"; "link"; "delete"; veth_h];
     _ ← _run_destroy (forward_rule "-D" "-i" veth_h);
     _ ← _run_destroy (forward_rule "-D" "-o" veth_h);
     _ ← _run_destroy (["iptables"; "-t"; "nat"; "-D"; "POSTROUTING"] ++ nat_args (_nat_subnet idx) out_iface)%list;
     _ ← _run_destroy ["rm"; "-rf"; "/etc/netns/" +:+ name];
     mret (netns_rc =? 0))
    (if track_lifecycle then _track_ns_destroyed else mret tt).

Definition _cleanup_ns (name : string) : N unit :=
  _ ← external (pkill_nfqws2_in_ns hs name);
  external (bridge_teardown hs name).

(** ** The whole pool *)

(** The text of the exception of [m], when it raises one. *)
Definition attempt {A} (m : N A) : N (option string) :=
  catch (_ ← m; mret None) (fun msg => mret (Some msg)).

(** The [try] block of [create_all]: the names that were begun, and the exception that ended it. *)
Fixpoint create_loop (todo : list Z) (begun : list string) : N (list string * option string) :=
  match todo with
  | [] => _ ← modify (set_created true); mret (begun, None)
  | i :: todo =>
      name ← look (fun w => ns_name (base (pool w)) i);
      e ← attempt (_create_one i);
      match e with
      | None => create_loop todo (begun ++ [name])%list
      | Some msg => mret ((begun ++ [name])%list, Some msg)
      end
  end.

Definition roll_back (begun : list string) : N unit :=
  _ ← for_each begun (fun name =>
        tracked ← look (fun w => bool_decide (name ∈ names (pool w)));
        quietly (_ ← _destroy_one name tracked; mret tt));
  modify (set_names []).

Definition create_all : N unit :=
  already ← look (fun w => created (pool w));
  if (already : bool) then mret tt else
  n ← look (fun w => size (pool w));
  '(begun, e) ← create_loop (Z.of_nat <$> seq 0 (Z.to_nat n)) [];
  match e with
  | None => mret tt
  | Some msg => _ ← roll_back begun; raise (Error msg)
  end.

(** [destroy_all]: its two parts under the lock, and the destruction between them. *)
Definition destroy_begin : N (option (list string)) :=
  p ← look pool;
  if negb (created p) && bool_decide (names p = []) then mret None
  else _ ← modify (set_created false); mret (Some (names p)).
Definition destroy_each (l : list string) : N unit :=
  for_each l (fun name => quietly (_ ← _destroy_one name true; mret tt)).
Definition destroy_end : N unit := modify (set_names []).
Definition destroy_all : N unit :=
  l ← destroy_begin;
  match l with
  | None => mret tt
  | Some l => _ ← destroy_each l; destroy_end
  end.

(** ** The queue

    [asyncio.Queue(size)]: [None] is a coroutine that blocks. *)
Definition with_queue (q : list string) (p : NetNsPool) : NetNsPool :=
  Pool (size p) (base p) (Some q) (created p) (names p) (iface p).
Definition queued (p : NetNsPool) : list string := default [] (queue p).

Definition put (name : string) (p : NetNsPool) : option NetNsPool :=
  if (0 <? size p) && (size p <=? Z.of_nat (length (queued p))) then None
  else Some (with_queue (queued p ++ [name])%list p).

(** [seed]: the pool when it ends or blocks, and the names it has not put. *)
Fixpoint seed_names (l : list string) (p : NetNsPool) : NetNsPool * list string :=
  match l with
  | [] => (p, [])
  | name :: l' => match put name p with Some p => seed_names l' p | None => (p, l) end
  end.
Definition seed (p : NetNsPool) : NetNsPool * list string := seed_names (names p) (with_queue (queued p) p).

Definition drain (p : NetNsPool) : NetNsPool := match queue p with None => p | Some _ => with_queue [] p end.

Definition acquire (p : NetNsPool) : option (string * NetNsPool) :=
  match queued p with [] => None | name :: q => Some (name, with_queue q p) end.

(** [release]: the namespace is cleaned and put back, whether the cleaning raises or not. *)
Definition release (name : string) (w : world H) : option (res unit * world H) :=
  let '(r, w) := _cleanup_ns name w in
  match put name (pool w) with Some p => Some (r, set_pool p w) | None => None end.
End Pool.
