(* ===== verification/NetnsInv.v ===== *)
(** * Invariants of the namespace pool

    Frame rules for the commands of [NetnsPool]; what the creation and the destruction of a pool do to
    its names and to the count of live namespaces; the life of [net.ipv4.ip_forward] through any
    sequence of creations and destructions; the leases of the queue. *)

From stdpp Require Import base numbers list strings.
From Stdlib Require Import ZArith Lia Ascii.
From S2P Require Import Prelude PyExn PyStr PyRe Blake2s NetnsPool.

#[local] Open Scope string_scope.
#[local] Open Scope Z_scope.

Create HintDb netns.

(** ** Names *)

Lemma veth_names_ok name : exists p, _veth_names name = Done p.
Proof.
  unfold _veth_names. destruct (blake2s_hex_shape 4 name) as [Hl _]; [lia|].
  replace (Z.of_nat (String.length ("vh-" +:+ blake2s_hex 4 name))) with 11 by (rewrite length_append, Hl; done).
  replace (Z.of_nat (String.length ("vn-" +:+ blake2s_hex 4 name))) with 11 by (rewrite length_append, Hl; done).
  by eexists.
Qed.

Lemma digits_no_dash s : sforall is_digit s = true -> sforall (fun c => negb (Ascii.eqb c "-")) s = true.
Proof. apply sforall_impl. intros c. by destruct c as [[] [] [] [] [] [] [] []]. Qed.

Lemma ns_name_index b i : 0 <= i -> name_index (ns_name b i) = Done i.
Proof.
  intros Hi. unfold name_index, ns_name. destruct (str_of_Z_nonneg i Hi) as [Hd _].
  unfold isdigit in Hd. apply andb_prop in Hd as [_ Hd].
  assert (contains "-" (b +:+ "-" +:+ str_of_Z i) = true) as ->.
  { apply contains_spec. by exists b, (str_of_Z i). }
  change (b +:+ "-" +:+ str_of_Z i) with (b +:+ String "-" (str_of_Z i)).
  rewrite split_char_snoc by by apply digits_no_dash.
  rewrite last_snoc. cbv [default from_option id]. by rewrite py_int_str_of_Z.
Qed.

#[export] Instance ns_name_inj b : Inj (=) (=) (ns_name b).
Proof.
  intros i j Hij. unfold ns_name in Hij. apply append_inj_l in Hij.
  apply append_inj_l in Hij. by apply (inj str_of_Z).
Qed.

(** The names of a pool of size [n]. *)
Definition ns_names (b : string) (n : Z) : list string := (fun i => ns_name b (Z.of_nat i)) <$> seq 0 (Z.to_nat n).

Lemma ns_names_NoDup b n : NoDup (ns_names b n).
Proof.
  apply NoDup_fmap_2_strong; [|apply NoDup_seq]. intros i j _ _ Hij. apply (inj (ns_name b)) in Hij. lia.
Qed.

Lemma ns_names_length b n : length (ns_names b n) = Z.to_nat n.
Proof. unfold ns_names. by rewrite length_fmap, length_seq. Qed.

(** ** Frames *)

(** It returns or raises an [Exception]. *)
Definition settled {A} (r : res A) : Prop := match r with Done _ | Exn (Error _) => True | _ => False end.

(** Names are added at the end; nothing else changes but the interface, which is chosen once. *)
Definition grown (l : list string) (p p' : NetNsPool) : Prop :=
  exists i, p' = Pool (size p) (base p) (queue p) (created p) (names p ++ l) i /\
    (iface p <> EmptyString -> i = iface p).

Lemma grown_refl p : grown [] p p.
Proof. exists (iface p). split; [|done]. rewrite app_nil_r. by destruct p. Qed.

Lemma grown_trans l1 l2 p1 p2 p3 : grown l1 p1 p2 -> grown l2 p2 p3 -> grown (l1 ++ l2) p1 p3.
Proof.
  intros (i & -> & Hi) (j & -> & Hj). exists j. cbn in *. rewrite app_assoc. split; [done|].
  intros Hn. rewrite (Hi Hn) in Hj. auto.
Qed.

(** The commands that write [net.ipv4.ip_forward], and those that make and delete namespaces. *)
Definition sysctl_op (args : list string) : Prop := exists v, args = sysctl_forward v.
Definition netns_add (n : string) : list string := ["ip"; "netns"; "add"; n].
Definition netns_delete (n : string) : list string := ["ip"; "netns"; "delete"; n].
Definition netns_op (args : list string) : Prop := exists n, args = netns_add n \/ args = netns_delete n.

(** The commands that a frame is not about are among these. *)
Class Exempt (free : list string -> Prop) : Prop := exempt args : free args -> sysctl_op args \/ netns_op args.
#[export] Instance sysctl_exempt : Exempt sysctl_op. Proof. by left. Qed.
#[export] Instance netns_exempt : Exempt netns_op. Proof. by right. Qed.

Section Frame.
Context {H : Type} (hs : Host H) (K : H -> H -> Prop) (free : list string -> Prop) `{!PreOrder K}.

(** What every call of the host respects, other than the commands that are free. *)
Class HostFrame : Prop := {
  K_run argv input h : (forall args, argv = "sudo" :: "-n" :: args -> ~ free args) -> K h (subprocess_run hs argv input h).2;
  K_read h : K h (read_proc hs h).2;
  K_marker v h : K h (write_marker hs v h);
  K_clear h : K h (clear_marker hs h);
  K_worker n h : K h (release_curl_probe_worker hs n h).2;
  K_pkill n h : K h (pkill_nfqws2_in_ns hs n h).2;
  K_firewall n h : K h (drop_ns_firewall hs n h).2;
  K_epoch n h : K h (bump_ns_epoch hs n h).2
}.
Context {HF : HostFrame}.

(** Nothing changes but the host and the interface. *)
Definition calm (w w' : world H) : Prop :=
  ip_forward_restore w' = ip_forward_restore w /\ active_ns_count w' = active_ns_count w /\
  grown [] (pool w) (pool w') /\ K (host w) (host w').

#[export] Instance calm_po : PreOrder calm.
Proof.
  split.
  - intros w. split; [done|]. split; [done|]. split; [apply grown_refl|done].
  - intros w1 w2 w3 (H1 & H2 & H3 & H4) (G1 & G2 & G3 & G4).
    split; [congruence|]. split; [congruence|]. split; [exact (grown_trans [] [] _ _ _ H3 G3)|by etrans].
Qed.

Definition framed {A} (m : N (H := H) A) : Prop := forall w, wp m (fun r w' => settled r /\ calm w w') w.

Lemma framed_ret {A} (a : A) : framed (mret a).
Proof. intros w. by apply wp_ret. Qed.

Lemma framed_raise {A} msg : framed (raise (A := A) (Error msg)).
Proof. intros w. by apply wp_raise. Qed.

Lemma framed_look {A} (f : world H -> A) : framed (look f).
Proof. intros w. by apply wp_gets. Qed.

Lemma framed_bind {A B} (m : N A) (f : A -> N B) : framed m -> (forall a, framed (f a)) -> framed (m ≫= f).
Proof.
  intros Hm Hf w. apply wp_bind. eapply wp_mono; [apply Hm|]. intros [a|e|] w' [Hs Hc]; [|done|done].
  eapply wp_mono; [apply Hf|]. intros r w'' [Hs' Hc']. split; [done|]. by etrans.
Qed.

Lemma framed_catch {A} (m : N A) h : framed m -> (forall msg, framed (h msg)) -> framed (catch m h).
Proof.
  intros Hm Hh w. apply wp_catch. eapply wp_mono; [apply Hm|]. intros [a|[msg|]|] w' [Hs Hc]; try done.
  eapply wp_mono; [apply Hh|]. intros r w'' [Hs' Hc']. split; [done|]. by etrans.
Qed.

Lemma framed_finally {A} (m : N A) fin : framed m -> framed fin -> framed (finally m fin).
Proof.
  intros Hm Hfin w. apply wp_finally. eapply wp_mono; [apply Hm|]. intros [a|e|] w' [Hs Hc]; [| |done].
  all: eapply wp_mono; [apply Hfin|]; intros [u|e'|] w'' [Hs' Hc']; (split; [done|]); by etrans.
Qed.

Lemma framed_for_each {A} (l : list A) body : Forall (fun x => framed (body x)) l -> framed (for_each l body).
Proof.
  induction 1 as [|x l Hx _ IH]; cbn [for_each]; [apply framed_ret|]. by apply framed_bind.
Qed.

(** Steps of the host. *)
Lemma framed_host {A} (f : H -> res A * H) :
  (forall h, settled (f h).1 /\ K h (f h).2) ->
  framed (fun w => let '(r, h) := f (host w) in (r, set_host h w)).
Proof.
  intros Hf w. unfold wp. destruct (Hf (host w)) as [Hs Hk]. destruct (f (host w)) as [r h]. split; [done|].
  split; [done|]. split; [done|]. split; [apply grown_refl|done].
Qed.

Lemma framed_spawn argv input :
  (forall args, argv = "sudo" :: "-n" :: args -> ~ free args) -> framed (spawn hs argv input).
Proof.
  intros Ha. pose proof (framed_host (fun h => (Done (subprocess_run hs argv input h).1, (subprocess_run hs argv input h).2))) as F.
  intros w. specialize (F (fun h => conj I (K_run argv input h Ha)) w).
  unfold wp, spawn in *. by destruct (subprocess_run hs argv input (host w)).
Qed.

Lemma framed_external f : (forall h, K h (f h).2) -> framed (external f).
Proof.
  intros Hf w. pose proof (framed_host (fun h => (match (f h).1 with None => Done tt | Some msg => Exn (Error msg) end, (f h).2))) as F.
  specialize (F (fun h => conj (match (f h).1 as o return settled (match o with None => Done tt | Some msg => Exn (Error msg) end)
                                with None => I | Some _ => I end) (Hf h)) w).
  unfold wp, external in *. by destruct (f (host w)).
Qed.

Lemma framed_read : framed (_read_ip_forward hs).
Proof.
  intros w. pose proof (framed_host (fun h => (Done (strip <$> (read_proc hs h).1), (read_proc hs h).2))) as F.
  specialize (F (fun h => conj I (K_read h)) w).
  unfold wp, _read_ip_forward in *. by destruct (read_proc hs (host w)).
Qed.

Lemma framed_clear : framed (_clear_ip_forward_restore_marker hs).
Proof.
  intros w. apply wp_modify. split; [done|]. split; [done|]. split; [done|]. split; [apply grown_refl|apply K_clear].
Qed.

Lemma framed_marker v : framed (_write_ip_forward_restore hs v).
Proof.
  intros w. apply wp_modify. split; [done|]. split; [done|]. split; [done|]. split; [apply grown_refl|apply K_marker].
Qed.
End Frame.

#[export] Hint Resolve framed_ret framed_raise framed_look framed_read framed_clear framed_marker : netns.

(** Goes through a sequence of commands. *)
Ltac framed_steps :=
  repeat (intros; cbn beta; match goal with
  | |- framed _ (_ ≫= _) => apply (framed_bind _)
  | |- framed _ (catch _ _) => apply (framed_catch _)
  | |- framed _ (for_each _ _) => apply (framed_for_each _)
  | |- framed _ (if ?b then _ else _) => destruct b
  | |- framed _ (match ?x with _ => _ end) => destruct x
  | |- _ => solve [auto with netns typeclass_instances]
  end).

Lemma split_ws_nonempty s : forall cur w, w ∈ split_ws_from cur s -> w <> EmptyString.
Proof.
  induction s as [|c s IH]; intros cur w; cbn [split_ws_from].
  - destruct cur; cbn [nonempty]; [by intros ?%elem_of_nil|]. by intros ->%list_elem_of_singleton.
  - destruct (is_space c); [|apply IH]. destruct cur; cbn [nonempty]; [apply IH|].
    intros [->|Hw]%elem_of_cons; [done|by apply IH in Hw].
Qed.

Lemma pick_nonempty lines n : pick_iface lines = Some n -> n <> EmptyString.
Proof.
  induction lines as [|line lines IH]; [done|]. cbn [pick_iface].
  destruct (split_ws line) as [|name [|state ws]] eqn:E; [done|done|].
  destruct (_ || _); [done|]. intros [= <-]. apply (split_ws_nonempty line EmptyString).
  unfold split_ws in E. rewrite E. by left.
Qed.

Section Commands.
Context {H : Type} (hs : Host H) (K : H -> H -> Prop) (free : list string -> Prop).
Context `{!PreOrder K} {EX : Exempt free} {HF : HostFrame hs K free}.
Notation framed := (framed K).

Definition plain (args : list string) : Prop := ~ free args.

(** A command of another shape is none of the free ones. *)
Ltac other := let F := fresh in intros F; destruct (exempt _ F) as [[? [=]]|[? [[=]|[=]]]].

Lemma framed_sudo_auth r args : framed (_raise_if_sudo_auth_failed (H := H) r args).
Proof. unfold _raise_if_sudo_auth_failed. framed_steps. Qed.

Lemma framed_run args check : plain args -> framed (_run hs args check).
Proof.
  intros Ha. unfold _run. apply framed_bind; [done| |].
  - apply (framed_spawn hs K free). by intros args' [= <-].
  - intros r. apply framed_bind; [done|framed_steps|]. intros p. apply framed_bind; [done|apply framed_sudo_auth|].
    framed_steps.
Qed.

Lemma framed_run_ args check : plain args -> framed (run_ hs args check).
Proof. intros Ha. unfold run_. apply framed_bind; [done|by apply framed_run|]. framed_steps. Qed.

Lemma framed_run_destroy args : plain args -> framed (_run_destroy hs args).
Proof. intros Ha. unfold _run_destroy. apply framed_bind; [done|by apply framed_run|]. framed_steps. Qed.

Lemma framed_output argv : head argv <> Some "sudo" -> framed (output_of hs argv).
Proof.
  intros Ha. unfold output_of. apply framed_bind; [done|apply (framed_spawn hs K free)|framed_steps].
  intros args ->. by destruct Ha.
Qed.

Lemma framed_iface : framed (_get_iface hs).
Proof.
  intros w. unfold _get_iface. wp_steps. unfold look. wp_steps. destruct (nonempty (iface (pool w))) eqn:E.
  { apply wp_ret. by split. }
  apply wp_bind. eapply wp_mono; [by apply framed_output|]. intros [out|e|] w' [Hs Hc]; [|done|done].
  wp_steps. split; [done|]. destruct Hc as (H1 & H2 & (i & H3 & _) & H5).
  split; [done|]. split; [done|]. split; [|done]. unfold set_iface, set_pool. cbn [pool]. rewrite H3.
  eexists. split; [reflexivity|]. by destruct (iface (pool w)).
Qed.

(** Afterwards the interface is known. *)
Lemma iface_known w : wp (_get_iface hs) (fun r w' => match r with Done _ => iface (pool w') <> EmptyString | _ => True end) w.
Proof.
  unfold _get_iface. wp_steps. unfold look. wp_steps. destruct (iface (pool w)) as [|c i] eqn:E; cbn [nonempty].
  - apply wp_bind. unfold wp. destruct (output_of hs _ w) as [[out|e|] w']; [|done|done]. cbn.
    destruct (pick_iface (splitlines out)) as [n|] eqn:En; [|done]. cbn.
    intros Hi. exact (pick_nonempty _ _ En Hi).
  - apply wp_ret. by rewrite E.
Qed.

Lemma framed_clean ip : framed (clean_stale hs ip).
Proof.
  unfold clean_stale. apply framed_bind; [done|by apply framed_output|]. intros out. apply framed_for_each; [done|].
  apply Forall_true. intros line. destruct (stale_iface line); [apply framed_run_; other|framed_steps].
Qed.

Lemma framed_commands l check : Forall plain l -> framed (for_each l (fun c => run_ hs c check)).
Proof. intros Hl. apply framed_for_each; [done|]. eapply Forall_impl; [exact Hl|]. intros c. apply framed_run_. Qed.

Lemma framed_lift {A} (r : res A) : settled r -> framed (lift (S := world H) r).
Proof. intros Hr w. by split. Qed.

Lemma framed_masquerade nat : framed (masquerade hs nat).
Proof.
  unfold masquerade. apply framed_bind; [done|apply framed_run; other|]. intros chk.
  destruct (returncode chk =? 0); [framed_steps|apply framed_run_; other].
Qed.

Lemma framed_resolv r : framed (write_resolv hs r).
Proof.
  unfold write_resolv. apply framed_bind; [done|apply (framed_spawn hs K free)|].
  { intros args [= <-]. other. }
  intros [p| |msg]; [|framed_steps..].
  apply framed_bind; [done|apply framed_sudo_auth|]. framed_steps.
Qed.

Lemma framed_quietly m : framed m -> framed (quietly m).
Proof. intros Hm. unfold quietly. apply framed_catch; [done|done|]. framed_steps. Qed.

(** The commands that build a namespace, after it was added. *)
Definition link_up (name veth_h veth_n host_ip ns_ip : string) : list (list string) := tl (link_commands name veth_h veth_n host_ip ns_ip).

Lemma plain_link_up name veth_h veth_n host_ip ns_ip : Forall plain (link_up name veth_h veth_n host_ip ns_ip).
Proof. unfold link_up, link_commands. cbn [tl]. repeat (constructor; [other|]). constructor. Qed.

Lemma plain_ipv6_off name veth_n : Forall plain (ipv6_off name veth_n).
Proof. unfold ipv6_off. apply Forall_fmap, Forall_true. intros i. cbn. other. Qed.

(** What follows the commands that make the links. *)
Definition finish_ns (idx : Z) (name veth_h veth_n out_iface host_ip : string) : N (H := H) unit :=
  _ ← for_each (ipv6_off name veth_n) (fun c => run_ hs c false);
  _ ← run_ hs (in_ns name ["ip"; "route"; "add"; "default"; "via"; host_ip]) true;
  _ ← run_ hs (forward_rule "-A" "-i" veth_h) false;
  _ ← run_ hs (forward_rule "-A" "-o" veth_h) false;
  _ ← masquerade hs (nat_args (_nat_subnet idx) out_iface);
  let dns_dir := "/etc/netns/" +:+ name in
  _ ← run_ hs ["mkdir"; "-p"; dns_dir] true;
  _ ← write_resolv hs (dns_dir +:+ "/resolv.conf");
  external (bump_ns_epoch hs name).

Lemma framed_finish idx name veth_h veth_n out_iface host_ip : framed (finish_ns idx name veth_h veth_n out_iface host_ip).
Proof.
  unfold finish_ns. apply (framed_bind _); [apply framed_commands, plain_ipv6_off|intros _].
  repeat (cbv zeta; cbn beta iota; first
    [ apply framed_run_; cbn; other | apply framed_masquerade | apply framed_resolv | apply (framed_bind _); [|intros ?] ]).
  apply framed_external. intros h. apply (K_epoch hs K free).
Qed.

Lemma framed_build idx name veth_h veth_n out_iface :
  plain (netns_add name) -> plain (netns_delete name) -> framed (build_ns hs idx name veth_h veth_n out_iface).
Proof.
  intros Ha Hd. unfold build_ns. cbv zeta. apply (framed_bind _); [by apply framed_run_|intros _].
  apply (framed_bind _); [apply framed_run_; other|intros _]. apply (framed_bind _); [apply framed_quietly, framed_clean|intros _].
  apply (framed_bind _); [|intros _; apply (framed_finish idx name veth_h veth_n out_iface)].
  apply framed_commands. constructor; [exact Ha|apply plain_link_up].
Qed.

(** The destruction of a namespace up to its bookkeeping. *)
Lemma framed_teardown name veth_h nat : plain (netns_delete name) ->
  framed (_ ← external (release_curl_probe_worker hs name);
          _ ← external (pkill_nfqws2_in_ns hs name);
          _ ← external (drop_ns_firewall hs name);
          netns_rc ← _run_destroy hs ["ip"; "netns"; "delete"; name];
          _ ← _run_destroy hs ["ip"; "link"; "delete"; veth_h];
          _ ← _run_destroy hs (forward_rule "-D" "-i" veth_h);
          _ ← _run_destroy hs (forward_rule "-D" "-o" veth_h);
          _ ← _run_destroy hs (["iptables"; "-t"; "nat"; "-D"; "POSTROUTING"] ++ nat)%list;
          _ ← _run_destroy hs ["rm"; "-rf"; "/etc/netns/" +:+ name];
          mret (netns_rc =? 0)).
Proof.
  intros Hd. repeat first
    [ apply framed_run_destroy; first [exact Hd|cbn; other]
    | apply framed_external; intros ?; first [apply (K_worker hs K free)|apply (K_pkill hs K free)|apply (K_firewall hs K free)]
    | apply framed_ret; done
    | apply (framed_bind _); [|intros ?] ].
Qed.
End Commands.

(** [_run] runs its command once; when it checks and returns, the command ended with status 0. *)
Lemma run_host {H} (hs : Host H) args check (w : world H) :
  let out := subprocess_run hs ("sudo" :: "-n" :: args) EmptyString (host w) in
  wp (_run hs args check) (fun r w' => settled r /\ w' = set_host out.2 w /\
    (forall p, check = true -> r = Done p -> out.1 = Ran p /\ returncode p = 0) /\
    (forall p, out.1 = Ran p -> returncode p = 0 -> r = Done p)) w.
Proof.
  intros out. unfold _run. wp_steps. unfold spawn. unfold wp at 1. fold out. destruct out as [o h]. cbn [fst snd].
  destruct o as [p| |msg]; wp_steps; [| |done]; unfold _raise_if_sudo_auth_failed.
  - destruct (Z.eqb_spec (returncode p) 0) as [E|E].
    + wp_steps. rewrite andb_false_r. wp_steps. split; [done|]. split; [done|]. split; [by intros p' _ [= <-]|by intros p' [= <-]].
    + assert (N : forall (r : res Proc) p', Ran p = Ran p' -> returncode p' = 0 -> r = Done p') by (by intros r p' [= <-]).
      destruct (existsb _ _); wp_steps; [by split_and!; [..|apply N]|].
      rewrite andb_true_r. destruct check; wp_steps; (split; [done|]); (split; [done|]); by split; [|apply N].
  - cbn [returncode]. change (-1 =? 0) with false. cbn [negb]. rewrite andb_true_r.
    destruct (existsb _ _); wp_steps; [done|]. by destruct check; wp_steps.
Qed.

(** A command that only the setting is written by, or only the namespaces. *)
Ltac plain_op := let F := fresh in intros F; first [destruct F as [? [=]]|destruct F as [? [[=]|[=]]]].

(** ** The names and the count *)

Definition anything {H} (_ _ : H) : Prop := True.
#[export] Instance anything_po H : PreOrder (anything (H := H)).
Proof. done. Qed.
#[export] Instance anything_frame {H} (hs : Host H) free : HostFrame hs anything free.
Proof. done. Qed.

Section Books.
Context {H : Type} (hs : Host H).
Implicit Types w : world H.
Notation framed := (framed anything).

(** The pool and the count, after code that settles and is not about them. *)
Definition still w {A} (r : res A) w' : Prop :=
  settled r /\ active_ns_count w' = active_ns_count w /\ grown [] (pool w) (pool w').

Lemma framed_still {A} (m : N A) w : framed m -> wp m (still w) w.
Proof. intros Hm. eapply wp_mono; [apply Hm|]. intros r w' (Hs & _ & Hc & Hg & _). done. Qed.

Lemma still_bind {A B} (m : N A) (f : A -> N B) w :
  wp m (still w) w -> (forall a w', wp (f a) (still w') w') -> wp (m ≫= f) (still w) w.
Proof.
  intros Hm Hf. apply wp_bind. eapply wp_mono; [exact Hm|]. intros [a|e|] w' (Hs & Hc & Hg); [|done|done].
  eapply wp_mono; [apply Hf|]. intros r w'' (Hs' & Hc' & Hg'). split; [done|]. split; [congruence|].
  exact (grown_trans [] [] _ _ _ Hg Hg').
Qed.

Lemma still_set_restore v w : wp (modify (set_restore v)) (still w) w.
Proof. apply wp_modify. split; [done|]. split; [done|apply grown_refl]. Qed.

Lemma still_sysctl v w : wp (_run hs (sysctl_forward v) false) (still w) w.
Proof.
  unfold _run. apply still_bind.
  { unfold wp, spawn. destruct (subprocess_run hs _ _ _). split; [done|]. split; [done|apply grown_refl]. }
  intros r w1. apply still_bind; [destruct r; apply framed_still; framed_steps|].
  intros p w2. apply still_bind; [apply framed_still, framed_sudo_auth; exact _|].
  intros _ w3. apply framed_still. framed_steps.
Qed.

Lemma still_enable w : wp (_enable_ip_forward_locked hs) (still w) w.
Proof.
  apply still_bind; [apply framed_still, (framed_read hs anything sysctl_op); exact _|]. intros [cur|] w1; [|by apply framed_still, framed_ret].
  destruct (bool_decide (cur = "1")); [by apply framed_still, framed_ret|].
  apply still_bind; [by apply framed_still, framed_look|]. intros saved w2. apply still_bind.
  { destruct saved; [by apply framed_still, framed_ret|]. apply still_bind; [apply still_set_restore|].
    intros _ w3. apply framed_still, (framed_marker hs anything sysctl_op); exact _. }
  intros _ w3. apply still_bind; [apply still_sysctl|]. intros _ w4. by apply framed_still, framed_ret.
Qed.

Lemma still_restore w : wp (_restore_ip_forward_if_idle hs) (still w) w.
Proof.
  apply still_bind.
  - apply still_bind; [by apply framed_still, framed_look|]. intros c w1.
    destruct (c >? 0); [by apply framed_still, framed_ret|].
    apply still_bind; [by apply framed_still, framed_look|]. intros [v|] w2.
    + apply still_bind; [apply still_set_restore|]. intros _ w3. by apply framed_still, framed_ret.
    + apply still_bind; [apply framed_still, (framed_clear hs anything sysctl_op); exact _|]. intros _ w3. by apply framed_still, framed_ret.
  - intros [v|] w1; [|by apply framed_still, framed_ret]. apply still_bind; [apply still_sysctl|].
    intros _ w2. apply framed_still, (framed_clear hs anything sysctl_op); exact _.
Qed.

(** A namespace that is counted raises the count by one; when counting it raises, the count was zero. *)
Lemma track_created w :
  wp (_track_ns_created hs) (fun r w' => settled r /\ grown [] (pool w) (pool w') /\
    match r with
    | Done _ => active_ns_count w' = active_ns_count w + 1
    | _ => active_ns_count w' = active_ns_count w /\ active_ns_count w = 0
    end) w.
Proof.
  unfold _track_ns_created. wp_steps. unfold look. wp_steps. destruct (Z.eqb_spec (active_ns_count w) 0) as [E|E].
  - eapply wp_mono; [apply still_enable|]. intros [[]|e|] w' (Hs & Hc & Hg); [|done|done].
    wp_steps. cbn [set_count active_ns_count pool]. rewrite Hc. done.
  - wp_steps. split; [done|]. split; [apply grown_refl|done].
Qed.

Lemma track_destroyed w :
  wp (_track_ns_destroyed hs) (fun r w' => settled r /\ grown [] (pool w) (pool w') /\
    active_ns_count w' = Z.max 0 (active_ns_count w - 1)) w.
Proof.
  unfold _track_ns_destroyed, count_down. wp_steps.
  eapply wp_mono; [apply still_restore|]. intros r w' (Hs & Hc & Hg). done.
Qed.

(** One namespace is created and counted, or the count is as before; a name that is recorded without being
    counted leaves the count at zero. *)
Lemma create_one_books i w :
  let name := ns_name (base (pool w)) i in
  wp (_create_one hs i) (fun r w' =>
    match r with
    | Done n => n = name /\ grown [name] (pool w) (pool w') /\ active_ns_count w' = active_ns_count w + 1 /\
                iface (pool w') <> EmptyString
    | Exn (Error _) =>
        active_ns_count w' = active_ns_count w /\
        (grown [] (pool w) (pool w') \/
         grown [name] (pool w) (pool w') /\ active_ns_count w = 0 /\ iface (pool w') <> EmptyString)
    | _ => False
    end) w.
Proof.
  intros name. unfold _create_one. wp_steps. unfold look. wp_steps. fold name.
  destruct (veth_names_ok name) as [[vh vn] ->]. wp_steps.
  eapply wp_and; [apply (framed_iface hs anything sysctl_op)|apply iface_known|].
  intros [out|[msg|]|] w1 [(Hs & _ & Hc & Hg & _) Hk]; try done; [|by split; [|left]].
  apply wp_bind. eapply wp_mono; [apply framed_still, (framed_build hs anything sysctl_op); plain_op|].
  intros [u|[msg|]|] w2 (Hs2 & Hc2 & Hg2); try done.
  2:{ split; [congruence|]. left. exact (grown_trans [] [] _ _ _ Hg Hg2). }
  assert (Hi2 : iface (pool w2) <> EmptyString).
  { destruct Hg2 as (i2 & -> & Hi). cbn. by rewrite (Hi Hk). }
  wp_steps. set (w3 := set_names _ w2).
  assert (Hg3 : grown [name] (pool w2) (pool w3)) by (by exists (iface (pool w2))).
  eapply wp_mono; [apply track_created|]. intros r w4 (Hs4 & Hg4 & Hr).
  assert (Hi4 : iface (pool w4) <> EmptyString).
  { destruct Hg4 as (i4 & -> & Hi). cbn. by rewrite (Hi Hi2). }
  assert (Hg' : grown [name] (pool w) (pool w4)).
  { exact (grown_trans [] [name] _ _ _ Hg (grown_trans [] [name] _ _ _ Hg2 (grown_trans [name] [] _ _ _ Hg3 Hg4))). }
  change (active_ns_count w3) with (active_ns_count w2) in Hr.
  destruct r as [u'|[msg|]|]; [| |done|done].
  - wp_steps. repeat split; try done. congruence.
  - destruct Hr as [-> Hz]. split; [congruence|]. right. repeat split; try done. congruence.
Qed.

Lemma destroy_one_books b i tracked w :
  0 <= i -> (tracked = true -> iface (pool w) <> EmptyString) ->
  wp (_destroy_one hs (ns_name b i) tracked) (fun r w' => settled r /\ grown [] (pool w) (pool w') /\
    active_ns_count w' = (if tracked then Z.max 0 (active_ns_count w - 1) else active_ns_count w)) w.
Proof.
  intros Hi Ht. unfold _destroy_one. rewrite (ns_name_index _ _ Hi). destruct (veth_names_ok (ns_name b i)) as [[vh vn] ->].
  wp_steps. destruct tracked.
  - unfold _get_iface. wp_steps. unfold look. wp_steps. destruct (iface (pool w)) as [|c s] eqn:E; [by specialize (Ht eq_refl)|].
    cbn [nonempty]. wp_steps. apply wp_finally. eapply wp_mono; [apply framed_still, (framed_teardown hs anything sysctl_op); plain_op|].
    intros [u|[msg|]|] w1 (Hs1 & Hc1 & Hg1); try done.
    all: eapply wp_mono; [apply track_destroyed|]; intros r w2 (Hs2 & Hg2 & Hc2); rewrite Hc1 in Hc2.
    all: destruct r as [v|[msg'|]|]; try done; (split; [done|]); (split; [exact (grown_trans [] [] _ _ _ Hg1 Hg2)|done]).
  - eapply wp_mono; [apply framed_still, (framed_iface hs anything sysctl_op)|]. intros [out|[msg|]|] w1 (Hs1 & Hc1 & Hg1); try done.
    apply wp_finally. eapply wp_mono; [apply framed_still, (framed_teardown hs anything sysctl_op); plain_op|].
    intros [u|[msg|]|] w2 (Hs2 & Hc2 & Hg2); try done; apply wp_ret.
    all: (split; [done|]); (split; [exact (grown_trans [] [] _ _ _ Hg1 Hg2)|congruence]).
Qed.

Definition with_created (b : bool) (p : NetNsPool) : NetNsPool :=
  Pool (size p) (base p) (queue p) b (names p) (iface p).

Lemma grown_base l p p' : grown l p p' -> base p' = base p.
Proof. by intros (i & -> & _). Qed.

Lemma grown_iface l p p' : grown l p p' -> iface p <> EmptyString -> iface p' <> EmptyString.
Proof. intros (i & -> & Hi) Hn. cbn. by rewrite Hi. Qed.

(** The names that were begun: all of them, or those up to one that failed, which may have been recorded. *)
Lemma create_loop_books p0 c0 todo : forall begun w,
  grown begun p0 (pool w) -> active_ns_count w = c0 + Z.of_nat (length begun) ->
  (begun <> [] -> iface (pool w) <> EmptyString) ->
  let all := (begun ++ (ns_name (base p0) <$> todo))%list in
  wp (create_loop hs todo begun) (fun r w' =>
    match r with
    | Done (l, None) => l = all /\ active_ns_count w' = c0 + Z.of_nat (length l) /\
        (exists p1, grown l p0 p1 /\ pool w' = with_created true p1) /\ (l <> [] -> iface (pool w') <> EmptyString)
    | Done (l, Some _) => exists ok name, l = (ok ++ [name])%list /\ l `prefix_of` all /\
        active_ns_count w' = c0 + Z.of_nat (length ok) /\
        (grown ok p0 (pool w') /\ (ok <> [] -> iface (pool w') <> EmptyString) \/
         grown l p0 (pool w') /\ iface (pool w') <> EmptyString /\ active_ns_count w' = 0)
    | _ => False
    end) w.
Proof.
  induction todo as [|i todo IH]; intros begun w Hg Hc Hi all; cbn [create_loop].
  - wp_steps. subst all. cbn. rewrite app_nil_r. repeat split; try done. by exists (pool w).
  - wp_steps. unfold look. wp_steps. rewrite (grown_base _ _ _ Hg). unfold attempt. apply wp_catch. wp_steps.
    pose proof (create_one_books i w) as H1. cbv zeta in H1. rewrite (grown_base _ _ _ Hg) in H1.
    eapply wp_mono; [exact H1|]. intros [n|[msg|]|] w1 H2; [| |done|done].
    + destruct H2 as (_ & Hg1 & Hc1 & Hi1). wp_steps. subst all.
      eapply wp_mono; [apply IH|].
      * exact (grown_trans begun [_] _ _ _ Hg Hg1).
      * rewrite length_app. cbn [length]. lia.
      * done.
      * cbv zeta. by rewrite <- app_assoc.
    + destruct H2 as [Hc1 Hg1]. wp_steps. exists begun, (ns_name (base p0) i). split; [done|].
      split. { subst all. rewrite fmap_cons. exists (ns_name (base p0) <$> todo). by rewrite <- app_assoc. }
      split; [lia|]. destruct Hg1 as [Hg1|(Hg1 & Hz & Hi1)]; [left|right].
      * pose proof (grown_trans begun [] _ _ _ Hg Hg1) as Hg2. rewrite app_nil_r in Hg2. split; [done|].
        intros Hn. eapply grown_iface; [exact Hg1|auto].
      * split; [exact (grown_trans begun [_] _ _ _ Hg Hg1)|]. split; [done|]. lia.
Qed.

Lemma destroy_quietly b i tracked w :
  0 <= i -> (tracked = true -> iface (pool w) <> EmptyString) ->
  wp (quietly (_ ← _destroy_one hs (ns_name b i) tracked; mret tt)) (fun r w' => r = Done tt /\
    grown [] (pool w) (pool w') /\
    active_ns_count w' = (if tracked then Z.max 0 (active_ns_count w - 1) else active_ns_count w)) w.
Proof.
  intros Hi Ht. unfold quietly. apply wp_catch. wp_steps.
  eapply wp_mono; [by apply destroy_one_books|]. intros [v|[msg|]|] w' (Hs & Hg & Hc); try done; by wp_steps.
Qed.

(** What a series of destructions does to the count. *)
Definition tracked_of (ns l : list string) : nat := length (filter (fun n => n ∈ ns) l).

Lemma tracked_snoc ns pre x :
  tracked_of ns (pre ++ [x]) = (tracked_of ns pre + if bool_decide (x ∈ ns) then 1 else 0)%nat.
Proof.
  unfold tracked_of. rewrite filter_app, filter_cons, filter_nil, length_app.
  case_bool_decide; [by rewrite decide_True|by rewrite decide_False].
Qed.

Lemma tracked_all ns l : (forall n, n ∈ l -> n ∈ ns) -> tracked_of ns l = length l.
Proof.
  intros Hl. unfold tracked_of. f_equal. induction l as [|x l IH]; [done|].
  rewrite filter_cons, decide_True by (apply Hl; by left). f_equal. apply IH. intros n Hn. apply Hl. by right.
Qed.

Definition named (n : string) : Prop := exists b i, n = ns_name b i /\ 0 <= i.

Lemma roll_back_books l w :
  0 <= active_ns_count w ->
  (forall n, n ∈ l -> named n) ->
  (forall n, n ∈ l -> n ∈ names (pool w) -> iface (pool w) <> EmptyString) ->
  wp (roll_back hs l) (fun r w' => r = Done tt /\
    active_ns_count w' = Z.max 0 (active_ns_count w - Z.of_nat (tracked_of (names (pool w)) l)) /\
    exists j, pool w' = Pool (size (pool w)) (base (pool w)) (queue (pool w)) (created (pool w)) [] j) w.
Proof.
  intros H0 Hn Hi. unfold roll_back. wp_steps.
  apply (wp_for_each _ (fun pre s => grown [] (pool w) (pool s) /\
    active_ns_count s = Z.max 0 (active_ns_count w - Z.of_nat (tracked_of (names (pool w)) pre)))) with (pre := []).
  - split; [apply grown_refl|]. unfold tracked_of. cbn. lia.
  - intros pre x s Hx [Hg Hc]. wp_steps. unfold look. wp_steps.
    assert (names (pool s) = names (pool w)) as -> by (destruct Hg as (j & -> & _); apply app_nil_r).
    destruct (Hn x Hx) as (b & i & -> & Hi0). eapply wp_mono; [apply destroy_quietly; [done|]|].
    + intros Hb%bool_decide_eq_true. eapply grown_iface; [exact Hg|]. by apply (Hi (ns_name b i)).
    + intros r w' (-> & Hg' & Hc'). split; [exact (grown_trans [] [] _ _ _ Hg Hg')|].
      rewrite tracked_snoc, Hc', Hc. case_bool_decide; lia.
  - intros s [Hg Hc]. wp_steps. split; [done|]. split; [exact Hc|]. destruct Hg as (j & E & _).
    exists j. unfold set_names, set_pool. cbn [pool]. by rewrite E.
Qed.

Lemma destroy_each_books l w :
  0 <= active_ns_count w -> (forall n, n ∈ l -> named n) -> (l <> [] -> iface (pool w) <> EmptyString) ->
  wp (destroy_each hs l) (fun r w' => r = Done tt /\ grown [] (pool w) (pool w') /\
    active_ns_count w' = Z.max 0 (active_ns_count w - Z.of_nat (length l))) w.
Proof.
  intros H0 Hn Hi. unfold destroy_each.
  apply (wp_for_each _ (fun pre s => grown [] (pool w) (pool s) /\
    active_ns_count s = Z.max 0 (active_ns_count w - Z.of_nat (length pre)))) with (pre := []).
  - split; [apply grown_refl|]. cbn. lia.
  - intros pre x s Hx [Hg Hc]. destruct (Hn x Hx) as (b & i & -> & Hi0).
    eapply wp_mono; [apply destroy_quietly; [done|]|].
    + intros _. eapply grown_iface; [exact Hg|]. apply Hi. by intros ->; apply elem_of_nil in Hx.
    + intros r w' (-> & Hg' & Hc'). split; [exact (grown_trans [] [] _ _ _ Hg Hg')|].
      rewrite Hc', Hc, length_app. cbn [length]. lia.
  - done.
Qed.

(** ** Pools *)

(** A pool that is not created holds no name, a created one holds all of its names. *)
Definition pool_ok (p : NetNsPool) : Prop :=
  names p = (if created p then ns_names (base p) (size p) else []) /\ (names p <> [] -> iface p <> EmptyString).

Definition same_pool (p p' : NetNsPool) : Prop := size p' = size p /\ base p' = base p /\ queue p' = queue p.

Definition n_names (p : NetNsPool) : Z := Z.of_nat (length (names p)).

Lemma ns_names_named b n x : x ∈ ns_names b n -> named x.
Proof. intros (i & -> & _)%list_elem_of_fmap. exists b, (Z.of_nat i). split; [done|lia]. Qed.

Lemma create_all_core w :
  pool_ok (pool w) -> 0 <= active_ns_count w ->
  wp (create_all hs) (fun r w' => pool_ok (pool w') /\ same_pool (pool w) (pool w') /\
    active_ns_count w' - n_names (pool w') = active_ns_count w - n_names (pool w) /\
    match r with
    | Done _ => created (pool w') = true
    | Exn (Error _) => created (pool w') = false
    | _ => False
    end) w.
Proof.
  intros [Hn Hi] H0. unfold create_all. wp_steps. unfold look. wp_steps. destruct (created (pool w)) eqn:Ec.
  { wp_steps. rewrite Ec. repeat split; by try rewrite Ec. }
  wp_steps. set (n := Z.to_nat (size (pool w))).
  eapply wp_mono; [apply (create_loop_books (pool w) (active_ns_count w)); [apply grown_refl|cbn; lia|done]|].
  cbv zeta. rewrite app_nil_l.
  assert (Ea : ns_name (base (pool w)) <$> (Z.of_nat <$> seq 0 n) = ns_names (base (pool w)) (size (pool w))).
  { unfold ns_names. by rewrite <- list_fmap_compose. }
  rewrite Ea. intros [[l [msg|]]|e|] w1 Hl; [| |done|done].
  - destruct Hl as (ok & name & El & Hpre & Hc & Hg).
    assert (Hl : forall x, x ∈ l -> named x).
    { intros x Hx. eapply ns_names_named. by eapply elem_of_prefix. }
    assert (Hnd : NoDup l).
    { destruct Hpre as [k Ek]. pose proof (ns_names_NoDup (base (pool w)) (size (pool w))) as Hnd.
      rewrite Ek in Hnd. by apply NoDup_app in Hnd as [Hnd _]. }
    apply wp_bind. eapply wp_mono; [apply roll_back_books; [|done|]|].
    + lia.
    + intros x _ Hx. destruct Hg as [[Hg Hi1]|(_ & Hi1 & _)]; [|done]. apply Hi1. intros ->.
      destruct Hg as (j & Ew & _). rewrite Ew in Hx. cbn in Hx. rewrite Hn in Hx. by apply elem_of_nil in Hx.
    + intros r w2 (-> & Hc2 & j & Ep). apply wp_raise.
      assert (Hsame : exists ns, grown ns (pool w) (pool w1)) by (destruct Hg as [[Hg _]|[Hg _]]; eauto).
      destruct Hsame as (ns & k & Ew & _).
      assert (Hzero : active_ns_count w2 = active_ns_count w).
      { rewrite Hc2. destruct Hg as [[(k' & Ew' & _) _]|(_ & _ & Hz)]; [|lia].
        rewrite Ew'. cbn [names]. rewrite Hn, app_nil_l, El, tracked_snoc, (tracked_all ok ok) by done.
        rewrite bool_decide_false; [lia|]. intros Hin. rewrite El in Hnd.
        apply NoDup_app in Hnd as (_ & Hnd & _). apply (Hnd _ Hin). by left. }
      unfold pool_ok, same_pool, n_names. rewrite Ep, Ew, Hn, Hzero. cbn. by rewrite Ec.
  - destruct Hl as (El & Hc & (p1 & (k & -> & Hk) & Ep) & Hi1). wp_steps.
    unfold pool_ok, same_pool, n_names in *. rewrite Ep in *. cbn in *. rewrite Hn, El in *. cbn in *.
    repeat split; auto. lia.
Qed.

Lemma destroy_all_core w :
  pool_ok (pool w) -> n_names (pool w) <= active_ns_count w ->
  wp (destroy_all hs) (fun r w' => r = Done tt /\ pool_ok (pool w') /\ same_pool (pool w) (pool w') /\
    created (pool w') = false /\ active_ns_count w' = active_ns_count w - n_names (pool w)) w.
Proof.
  intros [Hn Hi] H0. unfold destroy_all, destroy_begin. wp_steps. unfold look. wp_steps.
  destruct (negb (created (pool w)) && bool_decide (names (pool w) = [])) eqn:E.
  { wp_steps. apply andb_prop in E as [Ec%negb_true_iff En%bool_decide_eq_true]. unfold n_names. rewrite En.
    cbn. repeat split; try done; try lia; by rewrite Ec. }
  wp_steps. unfold n_names in *. eapply wp_mono; [apply destroy_each_books|].
  - cbn. lia.
  - intros x Hx. cbn in Hx. rewrite Hn in Hx. destruct (created (pool w)); [by eapply ns_names_named|by apply elem_of_nil in Hx].
  - done.
  - intros r w1 (-> & (k & Ep & Hk) & Hc). cbn in Ep, Hc, Hk. unfold destroy_end. wp_steps.
    unfold set_names, set_pool, pool_ok, same_pool. cbn. rewrite Ep. cbn. repeat split; try done; lia.
Qed.
End Books.

(** ** [net.ipv4.ip_forward]

    The setting has a value that only [sysctl -w] changes: with exit status 0 it has set it. [good h] tells of the
    state [h] of a host that in the run that led to it every file and command that reads or writes the setting worked. *)
Class Forwarding {H} (hs : Host H) (fwd : H -> string) (good : H -> Prop) : Prop := {
  fwd_strip h : strip (fwd h) = fwd h;
  fwd_read h raw : (read_proc hs h).1 = Some raw -> strip raw = fwd h;
  fwd_set v h p : strip v = v ->
    (subprocess_run hs ("sudo" :: "-n" :: sysctl_forward v) EmptyString h).1 = Ran p -> returncode p = 0 ->
    fwd (subprocess_run hs ("sudo" :: "-n" :: sysctl_forward v) EmptyString h).2 = v;
  fwd_frame :: HostFrame hs (fun h h' => fwd h' = fwd h /\ (good h' -> good h)) sysctl_op;
  good_read h : good (read_proc hs h).2 -> is_Some (read_proc hs h).1;
  good_set v h : good (subprocess_run hs ("sudo" :: "-n" :: sysctl_forward v) EmptyString h).2 ->
    good h /\ exists p, (subprocess_run hs ("sudo" :: "-n" :: sysctl_forward v) EmptyString h).1 = Ran p /\ returncode p = 0
}.

#[export] Instance fwd_po {H} (fwd : H -> string) (good : H -> Prop) : PreOrder (fun h h' : H => fwd h' = fwd h /\ (good h' -> good h)).
Proof. split; [done|]. intros x y z [-> Hg] [-> Hg']. auto. Qed.

Section Forward.
Context {H : Type} (hs : Host H) (fwd : H -> string) (good : H -> Prop) {FO : Forwarding hs fwd good} (orig : string).
Context (Horig : strip orig = orig).
Implicit Types w : world H.

Notation K := (fun h h' => fwd h' = fwd h /\ (good h' -> good h)).
Notation framed := (framed K).

(** While a value is saved the setting is on and namespaces are alive; otherwise it is what it was; as long as every
    access to it has worked. *)
Definition forwards w : Prop :=
  0 <= active_ns_count w /\
  (good (host w) ->
   match ip_forward_restore w with
   | Some v => v = orig /\ orig <> "1" /\ 0 < active_ns_count w /\ fwd (host w) = "1"
   | None => fwd (host w) = orig /\ (0 < active_ns_count w -> orig = "1")
   end).

Definition keeps {A} (m : N A) : Prop := forall w, forwards w -> wp m (fun _ w' => forwards w') w.

Lemma calm_forwards w w' : calm K w w' -> forwards w -> forwards w'.
Proof.
  intros (H1 & H2 & _ & H4 & H5) [Hc Hg]. split; [by rewrite H2|]. intros G. rewrite H1, H2, H4. exact (Hg (H5 G)).
Qed.

Lemma framed_keeps {A} (m : N A) : framed m -> keeps m.
Proof. intros Hm w Hw. eapply wp_mono; [apply Hm|]. intros r w' [_ Hc]. by eapply calm_forwards. Qed.

Lemma keeps_bind {A B} (m : N A) (f : A -> N B) : keeps m -> (forall a, keeps (f a)) -> keeps (m ≫= f).
Proof.
  intros Hm Hf w Hw. apply wp_bind. eapply wp_mono; [by apply Hm|]. intros [a|e|] w' Hw'; [|done|done]. by apply Hf.
Qed.

Lemma keeps_catch {A} (m : N A) h : keeps m -> (forall msg, keeps (h msg)) -> keeps (catch m h).
Proof.
  intros Hm Hh w Hw. apply wp_catch. eapply wp_mono; [by apply Hm|]. intros [a|[msg|]|] w' Hw'; try done. by apply Hh.
Qed.

Lemma keeps_finally {A} (m : N A) fin : keeps m -> keeps fin -> keeps (finally m fin).
Proof.
  intros Hm Hfin w Hw. apply wp_finally. eapply wp_mono; [by apply Hm|]. intros [a|e|] w' Hw'; [| |done].
  all: eapply wp_mono; [by apply Hfin|]; by intros [].
Qed.

Lemma keeps_for_each {A} (l : list A) body : (forall x, keeps (body x)) -> keeps (for_each l body).
Proof.
  intros Hb. induction l as [|x l IH]; cbn [for_each]; [by intros w Hw|]. by apply keeps_bind.
Qed.

Lemma keeps_pool f : keeps (modify (fun w => set_pool (f (pool w)) w)).
Proof. intros w Hw. by apply wp_modify. Qed.

Lemma keeps_pure {A} (r : res A) : keeps (lift r).
Proof. intros w Hw. by apply wp_lift. Qed.

Lemma keeps_look {A} (f : world H -> A) : keeps (look f).
Proof. intros w Hw. by apply wp_gets. Qed.

(** Writing the setting: when the host is good afterwards, it was before, and the value is set. *)
Lemma run_sysctl v w :
  wp (_run hs (sysctl_forward v) false) (fun r w' =>
    match r with Done _ => True | _ => ~ good (host w') end /\
    ip_forward_restore w' = ip_forward_restore w /\ active_ns_count w' = active_ns_count w /\ pool w' = pool w /\
    (good (host w') -> good (host w) /\ (strip v = v -> fwd (host w') = v))) w.
Proof.
  pose proof (good_set v (host w)) as G. pose proof (fun p Hv => fwd_set v (host w) p Hv) as F.
  eapply wp_mono; [apply run_host|]. intros r w' (Hs & -> & _ & D). destruct (subprocess_run hs _ _ (host w)) as [o h].
  cbn [fst snd host set_host ip_forward_restore active_ns_count pool] in *.
  split; [destruct r; [done|intros Hg; destruct (G Hg) as (_ & p & -> & Hp); by specialize (D p eq_refl Hp)..]|].
  split; [done|]. split; [done|]. split; [done|]. intros Hg. destruct (G Hg) as (Hg' & p & -> & Hp). eauto.
Qed.

(** Turning the setting on, when no namespace is alive. *)
Lemma enable_forwards w :
  forwards w -> active_ns_count w = 0 ->
  wp (_enable_ip_forward_locked hs) (fun r w' => active_ns_count w' = 0 /\
    (good (host w') ->
     match ip_forward_restore w' with
     | Some v => v = orig /\ orig <> "1" /\ fwd (host w') = "1"
     | None => fwd (host w') = orig /\ orig = "1"
     end) /\ match r with Done _ => True | _ => ~ good (host w') end) w.
Proof.
  intros [_ Hw] Hz. unfold _enable_ip_forward_locked. wp_steps. unfold _read_ip_forward. unfold wp at 1.
  pose proof (fwd_read (host w)) as Hr. pose proof (K_read hs K sysctl_op (host w)) as [Hk Hg].
  pose proof (good_read (host w)) as Hs. destruct (read_proc hs (host w)) as [o h]. cbn [fst snd] in *.
  assert (Old : good h -> ip_forward_restore w = None /\ fwd h = orig).
  { intros G. specialize (Hw (Hg G)). destruct (ip_forward_restore w); [lia|]. destruct Hw as [Hw _]. split; [done|congruence]. }
  destruct o as [raw|]; cbn [fmap option_fmap option_map].
  2:{ apply wp_ret. cbn. split; [done|]. split; [|done]. intros G. by destruct (Hs G). }
  specialize (Hr raw eq_refl). rewrite Hr, <- Hk. case_bool_decide as E.
  { wp_steps. cbn. split; [done|]. split; [|done]. intros G. destruct (Old G) as [-> Ho]. split; congruence. }
  wp_steps. unfold look. wp_steps. cbn [ip_forward_restore set_host].
  assert (Save : wp (match ip_forward_restore w with
                     | Some _ => mret tt
                     | None => _ ← modify (set_restore (Some (fwd h))); _write_ip_forward_restore hs (fwd h)
                     end)
    (fun r w' => r = Done tt /\ active_ns_count w' = 0 /\
                 (good (host w') -> good h /\ ip_forward_restore w' = Some (fwd h))) (set_host h w)).
  { destruct (ip_forward_restore w) as [v|] eqn:Er; wp_steps.
    - split; [done|]. split; [done|]. cbn. intros G. destruct (Old G) as [[=] _].
    - unfold _write_ip_forward_restore. wp_steps. cbn. split; [done|]. split; [done|]. intros G.
      destruct (K_marker hs K sysctl_op (fwd h) h) as [_ M]. auto. }
  eapply wp_mono; [exact Save|]. intros r w1 (-> & H1 & H2). wp_steps.
  eapply wp_mono; [apply run_sysctl|]. intros r w2 (R0 & R1 & R2 & _ & R3).
  assert (C : active_ns_count w2 = 0 /\
    (good (host w2) -> match ip_forward_restore w2 with
      | Some v => v = orig /\ orig <> "1" /\ fwd (host w2) = "1" | None => fwd (host w2) = orig /\ orig = "1" end)).
  { split; [congruence|]. intros G. destruct (R3 G) as [G1 Hf]. rewrite (Hf eq_refl). destruct (H2 G1) as [Gh R]. rewrite R1, R.
    destruct (Old Gh) as [_ Ho]. split; [done|]. split; [congruence|done]. }
  destruct r as [p|e|]; [wp_steps|..]; (split; [apply C|]); (split; [apply C|done]).
Qed.

Lemma keeps_created : keeps (_track_ns_created hs).
Proof.
  intros w Hw. unfold _track_ns_created. wp_steps. unfold look. wp_steps. destruct (Z.eqb_spec (active_ns_count w) 0) as [E|E].
  - eapply wp_mono; [by apply enable_forwards|]. intros [u|e|] w' (Hz & Hr & Hd); [|split; [lia|done]..].
    wp_steps. split; [cbn; lia|]. cbn. intros G. specialize (Hr G). destruct (ip_forward_restore w'); [|by destruct Hr].
    destruct Hr as (? & ? & ?). repeat split; try done. lia.
  - wp_steps. destruct Hw as [H0 Hw]. split; [cbn; lia|]. cbn. intros G. specialize (Hw G). destruct (ip_forward_restore w).
    + destruct Hw as (? & ? & ? & ?). repeat split; try done. lia.
    + destruct Hw as [? Hp]. split; [done|]. intros _. apply Hp. lia.
Qed.

Lemma keeps_destroyed : keeps (_track_ns_destroyed hs).
Proof.
  intros w [H0 Hw]. unfold _track_ns_destroyed, count_down, _restore_ip_forward_if_idle, take_restore. wp_steps.
  unfold look. wp_steps. cbn [set_count active_ns_count]. destruct (Z.gtb_spec (Z.max 0 (active_ns_count w - 1)) 0) as [E|E].
  - wp_steps. unfold put_back. wp_steps. split; [cbn; lia|]. cbn. intros G. specialize (Hw G). destruct (ip_forward_restore w).
    + destruct Hw as (? & ? & ? & ?). repeat split; try done; lia.
    + destruct Hw as [? Hp]. split; [done|]. intros _. apply Hp. lia.
  - wp_steps. cbn [set_count ip_forward_restore]. destruct (ip_forward_restore w) as [v|] eqn:Er.
    + wp_steps. unfold put_back. wp_steps.
      assert (Hc : forall h, let h' := clear_marker hs h in fwd h' = fwd h /\ (good h' -> good h)) by (intros h; apply (K_clear hs K sysctl_op)).
      destruct (decide (strip v = v)) as [Hv|Hv].
      * eapply wp_mono; [apply run_sysctl|]. intros r w' (R0 & R1 & R2 & _ & R3). cbn in R1, R2, R3.
        assert (F : forall h, (good h -> good (host w')) -> fwd h = fwd (host w') -> forwards (set_host h w')).
        { intros h Gh Fh. split; [cbn; lia|]. cbn. intros G. destruct (R3 (Gh G)) as [G' Hf]. rewrite R1, Fh, (Hf Hv), R2.
          destruct (Hw G') as (-> & _). split; [done|lia]. }
        assert (F0 : forwards w') by (replace w' with (set_host (host w') w') by (by destruct w'); by apply F).
        destruct r; [|done..]. unfold _clear_ip_forward_restore_marker. wp_steps. destruct (Hc (host w')). by apply F.
      * eapply wp_mono; [apply (run_sysctl v)|]. intros r w' (_ & R1 & R2 & _ & R3). cbn in R1, R2, R3.
        assert (B : ~ good (host w')) by (intros G; apply Hv; destruct (R3 G) as [G' _]; by destruct (Hw G') as (-> & _)).
        destruct r; [|split; [cbn; lia|done]..]. unfold _clear_ip_forward_restore_marker. wp_steps. split; [cbn; lia|]. cbn.
        intros G. destruct (Hc (host w')) as [_ Hg]. by destruct (B (Hg G)).
    + wp_steps. unfold _clear_ip_forward_restore_marker. wp_steps. unfold put_back. wp_steps.
      split; [cbn; lia|]. cbn. rewrite Er. destruct (K_clear hs K sysctl_op (host w)) as [Hk Hg]. intros G.
      rewrite Hk. destruct (Hw (Hg G)) as [Hf Hp]. split; [done|lia].
Qed.

Lemma keeps_create_one i : keeps (_create_one hs i).
Proof.
  unfold _create_one. apply keeps_bind; [apply keeps_look|]. intros name.
  apply keeps_bind; [apply keeps_pure|]. intros [vh vn]. apply keeps_bind; [apply framed_keeps, (framed_iface hs K sysctl_op)|].
  intros out. apply keeps_bind; [apply framed_keeps, (framed_build hs K sysctl_op); plain_op|]. intros _.
  apply keeps_bind; [intros w Hw; by apply wp_modify|]. intros _. apply keeps_bind; [apply keeps_created|].
  intros _. apply (keeps_pure (Done name)).
Qed.

Lemma keeps_destroy_one name tracked : keeps (_destroy_one hs name tracked).
Proof.
  unfold _destroy_one. apply keeps_bind; [apply keeps_pure|]. intros idx.
  apply keeps_bind; [apply keeps_pure|]. intros [vh vn]. apply keeps_bind; [apply framed_keeps, (framed_iface hs K sysctl_op)|].
  intros out. apply keeps_finally; [apply framed_keeps, (framed_teardown hs K sysctl_op); plain_op|].
  destruct tracked; [apply keeps_destroyed|apply (keeps_pure (Done tt))].
Qed.

Lemma keeps_quietly m : keeps m -> keeps (quietly m).
Proof. intros Hm. apply keeps_catch; [done|]. intros _. apply (keeps_pure (Done tt)). Qed.

Lemma keeps_destroy name tracked : keeps (quietly (_ ← _destroy_one hs name tracked; mret tt)).
Proof. apply keeps_quietly, keeps_bind; [apply keeps_destroy_one|]. intros _. apply (keeps_pure (Done tt)). Qed.

Lemma keeps_create_loop todo : forall begun, keeps (create_loop hs todo begun).
Proof.
  induction todo as [|i todo IH]; intros begun; cbn [create_loop].
  - apply keeps_bind; [intros w Hw; by apply wp_modify|]. intros _. apply (keeps_pure (Done (begun, None))).
  - apply keeps_bind; [apply keeps_look|]. intros name. apply keeps_bind.
    + apply keeps_catch; [|intros msg; apply (keeps_pure (Done (Some msg)))].
      apply keeps_bind; [apply keeps_create_one|]. intros _. apply (keeps_pure (Done None)).
    + intros [msg|]; [apply (keeps_pure (Done (_, Some msg)))|apply IH].
Qed.

Lemma keeps_create_all : keeps (create_all hs).
Proof.
  unfold create_all. apply keeps_bind; [apply keeps_look|]. intros [|]; [apply (keeps_pure (Done tt))|].
  apply keeps_bind; [apply keeps_look|]. intros n. apply keeps_bind; [apply keeps_create_loop|].
  intros [begun [msg|]]; [|apply (keeps_pure (Done tt))]. apply keeps_bind; [|intros _; apply (keeps_pure (Exn _))].
  unfold roll_back. apply keeps_bind; [|intros _ w Hw; by apply wp_modify]. apply keeps_for_each. intros name.
  apply keeps_bind; [apply keeps_look|]. intros tracked. apply keeps_destroy.
Qed.

Lemma keeps_destroy_all : keeps (destroy_all hs).
Proof.
  unfold destroy_all. apply keeps_bind.
  - unfold destroy_begin. apply keeps_bind; [apply keeps_look|]. intros p.
    destruct (_ && _); [apply (keeps_pure (Done None))|]. apply keeps_bind; [intros w Hw; by apply wp_modify|].
    intros _. apply (keeps_pure (Done (Some (names p)))).
  - intros [l|]; [|apply (keeps_pure (Done tt))]. apply keeps_bind; [|intros _ w Hw; by apply wp_modify].
    apply keeps_for_each. intros name. apply keeps_destroy.
Qed.
End Forward.

(** ** A process with several pools *)

Inductive pool_op : Type := CreateAll (k : nat) | DestroyAll (k : nat).

Record process (H : Type) : Type := Process {
  p_restore : option string; p_active : Z; p_pools : list NetNsPool; p_host : H
}.
Arguments Process {H}. Arguments p_restore {H}. Arguments p_active {H}. Arguments p_pools {H}. Arguments p_host {H}.

Section Process.
Context {H : Type} (hs : Host H).

Definition op_pool (o : pool_op) : nat := match o with CreateAll k | DestroyAll k => k end.
Definition op_code (o : pool_op) : N (H := H) unit :=
  match o with CreateAll _ => create_all hs | DestroyAll _ => destroy_all hs end.

(** One call of a method of one of the pools; the exception it may raise goes to its caller. *)
Definition run_op (s : process H) (o : pool_op) : process H :=
  match p_pools s !! op_pool o with
  | None => s
  | Some p =>
      let w := (op_code o (World (p_restore s) (p_active s) p (p_host s))).2 in
      Process (ip_forward_restore w) (active_ns_count w) (<[op_pool o := pool w]> (p_pools s)) (host w)
  end.

Definition live_names (l : list NetNsPool) : Z := Z.of_nat (length (concat (names <$> l))).

(** A process whose pools are all new. *)
Definition fresh_process (s : process H) : Prop :=
  p_restore s = None /\ p_active s = 0 /\ Forall (fun p => created p = false /\ names p = []) (p_pools s).

(** The books of a process: its pools are in order, and every name they hold is counted. *)
Definition process_ok (s : process H) : Prop :=
  Forall pool_ok (p_pools s) /\ p_active s = live_names (p_pools s).

Lemma live_names_insert l k p p' :
  l !! k = Some p -> live_names (<[k := p']> l) = live_names l - n_names p + n_names p'.
Proof.
  intros Hk. unfold live_names, n_names. rewrite insert_take_drop by by eapply lookup_lt_Some.
  rewrite <- (take_drop_middle l k p Hk) at 3. rewrite !fmap_app, !fmap_cons, !concat_app, !length_app. cbn [concat].
  rewrite !length_app. lia.
Qed.

Lemma live_names_ge l k p : l !! k = Some p -> n_names p <= live_names l.
Proof.
  intros Hk. pose proof (live_names_insert l k p p Hk) as E. unfold live_names, n_names.
  rewrite <- (take_drop_middle l k p Hk) at 1. rewrite fmap_app, fmap_cons, concat_app. cbn [concat]. rewrite !length_app. lia.
Qed.

Lemma run_op_ok s o : process_ok s -> process_ok (run_op s o).
Proof.
  intros (Hp & Ha). unfold run_op. destruct (p_pools s !! op_pool o) as [p|] eqn:Hk; [|done].
  set (w := World (p_restore s) (p_active s) p (p_host s)).
  assert (Hpk : pool_ok p) by (eapply Forall_lookup_1; [exact Hp|exact Hk]).
  assert (H1 : wp (op_code o) (fun _ w' => pool_ok (pool w') /\
             active_ns_count w' - n_names (pool w') = active_ns_count w - n_names (pool w)) w).
  { pose proof (live_names_ge _ _ _ Hk) as Hge. destruct o; cbn [op_code].
    - eapply wp_mono; [apply create_all_core; [done|]|by intros r w' (? & _ & ? & _)].
      cbn. unfold n_names in Hge. lia.
    - eapply wp_mono; [apply destroy_all_core; [done|cbn; lia]|]. intros r w' (_ & Hw' & _ & Hc & ->).
      split; [done|]. destruct Hw' as [Hn _]. rewrite Hc in Hn. assert (n_names (pool w') = 0) as -> by (unfold n_names; by rewrite Hn). lia. }
  unfold wp in H1. destruct (op_code o w) as [r w'] eqn:E. cbn [snd]. destruct H1 as [Hok Hc].
  split; [by apply Forall_insert|]. cbn. rewrite (live_names_insert _ _ _ _ Hk). cbn in Hc. lia.
Qed.

Lemma run_ops_ok l : forall s, process_ok s -> process_ok (foldl run_op s l).
Proof. induction l as [|o l IH]; intros s Hs; [done|]. cbn [foldl]. by apply IH, run_op_ok. Qed.

Context (fwd : H -> string) (good : H -> Prop) {FO : Forwarding hs fwd good} (orig : string).
Context (Horig : strip orig = orig).

(** The setting, as any of the pools sees it. *)
Definition process_forwards (s : process H) : Prop :=
  forall p, forwards fwd good orig (World (p_restore s) (p_active s) p (p_host s)).

Lemma run_op_forwards s o : process_forwards s -> process_forwards (run_op s o).
Proof.
  intros Hf. unfold run_op. destruct (p_pools s !! op_pool o) as [p|] eqn:Hk; [|done].
  set (w := World (p_restore s) (p_active s) p (p_host s)).
  assert (H2 : wp (op_code o) (fun _ w' => forwards fwd good orig w') w).
  { destruct o; [apply (keeps_create_all hs fwd good orig Horig)|apply (keeps_destroy_all hs fwd good orig Horig)]; apply Hf. }
  unfold wp in H2. destruct (op_code o w) as [r w'] eqn:E. cbn [snd]. by intros p'.
Qed.

Lemma run_ops_forwards l : forall s, process_forwards s -> process_forwards (foldl run_op s l).
Proof. induction l as [|o l IH]; intros s Hs; [done|]. cbn [foldl]. by apply IH, run_op_forwards. Qed.
End Process.
