(* ===== verification/NetnsSpec.v ===== *)
(** * What the namespace pool promises

    Creation is all or nothing; [net.ipv4.ip_forward] follows the life of the pools; a namespace has one
    holder at a time. Two interleavings of threads in which the process-wide state goes wrong close the file. *)

From stdpp Require Import base numbers list strings sets gmap.
From Stdlib Require Import ZArith Lia Ascii.
From S2P Require Import Prelude PyExn PyStr PyRe Blake2s NetnsPool NetnsInv.

#[local] Open Scope string_scope.
#[local] Open Scope Z_scope.

(** ** Leases *)

Inductive lease_event : Type := Acquire | Release (name : string).

Section Leases.
Context {H : Type} (hs : Host H).

(** The pool and the namespaces that its clients hold; a client gives back only what it holds. *)
Definition lease_state : Type := world H * list string.

Definition lease_step (st : lease_state) (e : lease_event) : option lease_state :=
  let '(w, held) := st in
  match e with
  | Acquire => '(name, p) ← acquire (pool w); Some (set_pool p w, name :: held)
  | Release name =>
      if bool_decide (name ∈ held)
      then '(_, w) ← release hs name w; Some (w, filter (fun n => n <> name) held)
      else None
  end.

Definition lease_run (st : lease_state) (es : list lease_event) : option lease_state := foldl (fun o e => o ≫= fun st => lease_step st e) (Some st) es.

(** Every name of the pool is in the queue or held, once. *)
Definition leased_ok (all : list string) (st : lease_state) : Prop :=
  let '(w, held) := st in
  size (pool w) = Z.of_nat (length all) /\ queued (pool w) ++ held ≡ₚ all.

Lemma filter_absent (l : list string) x : x ∉ l -> filter (fun n => n <> x) l = l.
Proof.
  induction l as [|y l IH]; [done|]. intros Hx. rewrite filter_cons, decide_True by set_solver. f_equal.
  apply IH. set_solver.
Qed.

Lemma perm_remove (l : list string) x : NoDup l -> x ∈ l -> x :: filter (fun n => n <> x) l ≡ₚ l.
Proof.
  induction 1 as [|y l Hy Hnd IH]; [by intros ?%elem_of_nil|]. intros [<-|Hx]%elem_of_cons; rewrite filter_cons.
  - rewrite decide_False by naive_solver. by rewrite filter_absent.
  - rewrite decide_True by (intros ->; done). rewrite Permutation_swap. f_equiv. by apply IH.
Qed.

Lemma cleanup_pool name w : exists r h, _cleanup_ns hs name w = (r, set_host h w) /\ settled r.
Proof.
  unfold _cleanup_ns, mbind, X_bind, external. destruct (pkill_nfqws2_in_ns hs name (host w)) as [[msg|] h].
  - by eexists _, _.
  - cbn [set_host host]. destruct (bridge_teardown hs name h) as [[msg|] h']; by eexists _, _.
Qed.

(** A queue that misses a name has room. *)
Lemma put_room all p held name :
  size p = Z.of_nat (length all) -> queued p ++ held ≡ₚ all -> held <> [] ->
  put name p = Some (with_queue (queued p ++ [name])%list p).
Proof.
  intros Hs Hp Hne. unfold put. apply Permutation_length in Hp. rewrite length_app in Hp.
  destruct held; [done|]. cbn in Hp. by rewrite (proj2 (Z.leb_gt _ _)), andb_false_r by lia.
Qed.

Lemma lease_step_ok all st e st' :
  NoDup all -> leased_ok all st -> lease_step st e = Some st' -> leased_ok all st'.
Proof.
  destruct st as [w held]. intros Hnd [Hs Hp]. destruct e as [|name]; cbn [lease_step].
  - unfold acquire. destruct (queued (pool w)) as [|n q] eqn:Eq; [done|]. cbn. intros [= <-]. cbn. split; [done|].
    cbn. rewrite <- Hp. symmetry. apply Permutation_cons_app. done.
  - case_bool_decide as Hin; [|done]. unfold release. destruct (cleanup_pool name w) as (r & h & -> & _).
    cbn [pool set_host]. rewrite (put_room all _ held) by (done || by intros ->; apply elem_of_nil in Hin).
    cbn. intros [= <-]. split; [done|]. cbn. rewrite <- Hp, <- app_assoc. f_equiv. cbn. apply perm_remove; [|done].
    rewrite <- Hp in Hnd. by apply NoDup_app in Hnd as (_ & _ & Hnd).
Qed.

Lemma lease_run_snoc st es e : lease_run st (es ++ [e]) = (lease_run st es ≫= fun st => lease_step st e).
Proof. unfold lease_run. by rewrite foldl_app. Qed.

Lemma lease_run_ok all es : forall st st',
  NoDup all -> leased_ok all st -> lease_run st es = Some st' -> leased_ok all st'.
Proof.
  induction es as [|e es IH] using rev_ind; intros st st' Hnd Hok; [by intros [= <-]|].
  rewrite lease_run_snoc. destruct (lease_run st es) as [st1|] eqn:E; [|done]. cbn.
  apply lease_step_ok; [done|]. by eapply IH.
Qed.

Lemma seed_names_ok l : forall p, 
  size p = Z.of_nat (length (queued p) + length l) ->
  seed_names l p = (match l with [] => p | _ => with_queue (queued p ++ l)%list p end, []).
Proof.
  induction l as [|n l IH]; intros p Hs; [done|]. cbn [seed_names]. unfold put.
  rewrite (proj2 (Z.leb_gt _ _)), andb_false_r by (cbn in Hs; lia).
  rewrite IH; [|cbn; rewrite length_app; cbn in *; lia]. cbn. destruct l; [done|]. unfold with_queue. cbn.
  by rewrite <- app_assoc.
Qed.
End Leases.

(** ** The namespaces of the host

    [live h] are the namespaces of a host in state [h]; only [ip netns add] and [ip netns delete] change them, and an
    [add] that ends with status 0 has made its namespace. [good h] tells that in the run that led to [h] no deletion left
    its namespace behind, and none of the calls that the code makes before it deletes one raised. *)
Definition same_ns {H} (live : H -> gset string) (good : H -> Prop) (h h' : H) : Prop := live h' = live h /\ (good h' -> good h).

#[export] Instance same_ns_po {H} (live : H -> gset string) (good : H -> Prop) : PreOrder (same_ns live good).
Proof. split; [done|]. intros x y z [E Hg] [E' Hg']. split; [congruence|auto]. Qed.

Class Namespaces {H} (hs : Host H) (live : H -> gset string) (good : H -> Prop) : Prop := {
  add_bounds n input h : let h' := (subprocess_run hs ("sudo" :: "-n" :: netns_add n) input h).2 in
    live h ⊆ live h' /\ live h' ⊆ {[n]} ∪ live h /\ (good h' -> good h);
  add_works n input h p : (subprocess_run hs ("sudo" :: "-n" :: netns_add n) input h).1 = Ran p -> returncode p = 0 ->
    n ∈ live (subprocess_run hs ("sudo" :: "-n" :: netns_add n) input h).2;
  delete_bounds n input h : let h' := (subprocess_run hs ("sudo" :: "-n" :: netns_delete n) input h).2 in
    live h' ⊆ live h /\ live h ⊆ {[n]} ∪ live h' /\ (good h' -> good h /\ n ∉ live h');
  good_worker n h : good (release_curl_probe_worker hs n h).2 -> (release_curl_probe_worker hs n h).1 = None;
  good_pkill n h : good (pkill_nfqws2_in_ns hs n h).2 -> (pkill_nfqws2_in_ns hs n h).1 = None;
  good_firewall n h : good (drop_ns_firewall hs n h).2 -> (drop_ns_firewall hs n h).1 = None;
  live_frame :: HostFrame hs (same_ns live good) netns_op
}.

Section Live.
Context {H : Type} (hs : Host H) (live : H -> gset string) (good : H -> Prop) {NS : Namespaces hs live good}.
Implicit Types w : world H.
Notation K := (same_ns live good).
Notation lw w := (live (host w)).

(** Code that does not change the namespaces, whatever it does to the pool and to the count. *)
Definition inert {A} (m : N (H := H) A) : Prop := forall w, wp m (fun _ w' => K (host w) (host w')) w.

Lemma inert_framed {A} (m : N A) : framed K m -> inert m.
Proof. intros F w. eapply wp_mono; [apply F|]. by intros r w' (_ & _ & _ & _ & Hk). Qed.

Lemma inert_ret {A} (a : A) : inert (mret a).
Proof. intros w. by apply wp_ret. Qed.

Lemma inert_look {A} (f : world H -> A) : inert (look f).
Proof. intros w. by apply wp_gets. Qed.

Lemma inert_bind {A B} (m : N A) (f : A -> N B) : inert m -> (forall a, inert (f a)) -> inert (m ≫= f).
Proof.
  intros Hm Hf w. apply wp_bind. eapply wp_mono; [apply Hm|]. intros [a|e|] w' Hw'; [|done|done].
  eapply wp_mono; [apply Hf|]. intros r w'' Hw''. by etrans.
Qed.

Lemma inert_modify f : (forall w, host (f w) = host w) -> inert (modify f).
Proof. intros E w. apply wp_modify. by rewrite E. Qed.

Lemma inert_run args check : ~ netns_op args -> inert (_run hs args check).
Proof. intros F. by apply inert_framed, (framed_run hs K netns_op). Qed.

Lemma inert_enable : inert (_enable_ip_forward_locked hs).
Proof.
  apply inert_bind; [apply inert_framed, (framed_read hs K netns_op)|]. intros [cur|]; [|apply inert_ret].
  destruct (bool_decide (cur = "1")); [apply inert_ret|].
  apply inert_bind; [apply inert_look|]. intros saved. apply inert_bind.
  { destruct saved; [apply inert_ret|]. apply inert_bind; [by apply inert_modify|].
    intros _. apply inert_framed, (framed_marker hs K netns_op). }
  intros _. apply inert_bind; [apply inert_run; plain_op|]. intros _. apply inert_ret.
Qed.

Lemma inert_created : inert (_track_ns_created hs).
Proof.
  apply inert_bind; [apply inert_look|]. intros c. apply inert_bind; [|intros _; by apply inert_modify].
  destruct (c =? 0); [apply inert_enable|apply inert_ret].
Qed.

Lemma inert_destroyed : inert (_track_ns_destroyed hs).
Proof.
  apply inert_bind; [by apply inert_modify|]. intros _. apply inert_bind.
  - apply inert_bind; [apply inert_look|]. intros c. destruct (c >? 0); [apply inert_ret|].
    apply inert_bind; [apply inert_look|]. intros [v|].
    + apply inert_bind; [by apply inert_modify|]. intros _. apply inert_ret.
    + apply inert_bind; [apply inert_framed, (framed_clear hs K netns_op)|]. intros _. apply inert_ret.
  - intros [v|]; [|apply inert_ret]. apply inert_bind; [apply inert_run; plain_op|].
    intros _. apply inert_framed, (framed_clear hs K netns_op).
Qed.

(** At most the names in [S] have come or gone. *)
Definition near (S : gset string) (h h' : H) : Prop := live h' ⊆ S ∪ live h /\ live h ⊆ S ∪ live h' /\ (good h' -> good h).

#[export] Instance near_po S : PreOrder (near S).
Proof.
  unfold near. split; [intros x; split_and!; [set_solver|set_solver|done]|].
  intros x y z (A & B & C) (A' & B' & C'). split_and!; [set_solver|set_solver|auto].
Qed.

Lemma near_inert S h h' : K h h' -> near S h h'.
Proof. intros [E G]. unfold near. split_and!; [rewrite E; set_solver|rewrite E; set_solver|done]. Qed.

Lemma near_weaken S S' h h' : S ⊆ S' -> near S h h' -> near S' h h'.
Proof. intros Hs (A & B & C). unfold near. split_and!; [set_solver|set_solver|done]. Qed.

Lemma near_step {A} S (m : N A) (Q : res A -> world H -> Prop) h0 w :
  inert m -> near S h0 (host w) -> (forall r w', near S h0 (host w') -> lw w' = lw w -> Q r w') -> wp m Q w.
Proof.
  intros Hm Hn Hq. eapply wp_mono; [apply Hm|]. intros r w' Hk. apply Hq; [|by destruct Hk].
  etrans; [exact Hn|by apply near_inert].
Qed.

(** The name is there when the code returns. *)
Definition made {A} (name : string) (r : res A) (h : H) : Prop := forall a, r = Done a -> name ∈ live h.

(** A command that is not framed runs once. *)
Lemma run_free args check w : wp (run_ hs args check) (fun r w' => settled r /\
  host w' = (subprocess_run hs ("sudo" :: "-n" :: args) EmptyString (host w)).2 /\
  (check = true -> r = Done tt ->
   exists p, (subprocess_run hs ("sudo" :: "-n" :: args) EmptyString (host w)).1 = Ran p /\ returncode p = 0)) w.
Proof.
  unfold run_. apply wp_bind. eapply wp_mono; [apply run_host|]. intros [p|e|] w' (Hs & -> & Hd & _); wp_steps.
  all: (split; [done|]); (split; [done|]); intros Hc Hr; try done.
  exists p. by apply Hd.
Qed.

(** A namespace is built. *)
Lemma build_live idx name vh vn out w :
  wp (build_ns hs idx name vh vn out) (fun r w' => near {[name]} (host w) (host w') /\ made name r (host w')) w.
Proof.
  unfold build_ns. cbv zeta. apply wp_bind. eapply wp_mono; [apply (run_free (netns_delete name))|].
  intros r w1 (Hr & E1 & _). destruct (delete_bounds name EmptyString (host w)) as (D1 & D2 & D3). rewrite <- E1 in D1, D2, D3.
  assert (N1 : near {[name]} (host w) (host w1)) by (unfold near; split_and!; [set_solver|done|intros G; by apply D3]).
  destruct r as [[]|e|]; [|by split..]. apply wp_bind.
  apply (near_step {[name]} _ _ (host w)); [apply inert_framed, (framed_run_ hs K netns_op); plain_op|done|].
  intros [[]|e|] w2 N2 _; [|by split..]. apply wp_bind.
  apply (near_step {[name]} _ _ (host w)); [apply inert_framed, (framed_quietly K), (framed_clean hs K netns_op)|done|].
  intros [[]|e|] w3 N3 _; [|by split..]. apply wp_bind.
  change (link_commands name vh vn ?a ?b) with (netns_add name :: link_up name vh vn a b). cbn [for_each].
  apply wp_bind. eapply wp_mono; [apply (run_free (netns_add name))|].
  intros r w4 (Hr4 & E4 & D4). destruct (add_bounds name EmptyString (host w3)) as (A1 & A2 & A3). rewrite <- E4 in A1, A2, A3.
  assert (N4 : near {[name]} (host w) (host w4)) by (etrans; [exact N3|]; unfold near; split_and!; [done|set_solver|done]).
  destruct r as [[]|e|]; [|by split..].
  assert (Hin : name ∈ lw w4) by (destruct (D4 eq_refl eq_refl) as (p & Hp & H0); rewrite E4; by apply (add_works _ _ _ p)).
  eapply wp_mono; [apply (inert_framed (for_each _ _)), (framed_commands hs K netns_op), plain_link_up; exact _|].
  intros [[]|e|] w5 [L5 G5]; [|split; [etrans; [exact N4|by apply near_inert]|done]..].
  eapply wp_mono; [apply inert_framed, (framed_finish hs K netns_op idx name vh vn out)|].
  intros r w6 [L6 G6]. split; [|intros a _; by rewrite L6, L5].
  etrans; [exact N4|]. apply near_inert. split; [congruence|auto].
Qed.

Lemma create_one_live i w : let name := ns_name (base (pool w)) i in
  wp (_create_one hs i) (fun r w' => near {[name]} (host w) (host w') /\ made name r (host w') /\
    (iface (pool w') = EmptyString -> lw w' = lw w)) w.
Proof.
  intros name. unfold _create_one. wp_steps. unfold look. wp_steps. fold name.
  destruct (veth_names_ok name) as [[vh vn] ->]. wp_steps.
  eapply wp_and; [apply (framed_iface hs K netns_op)|apply iface_known|].
  intros [out|e|] w1 [(_ & _ & _ & _ & Hk) Hi]; [|by split; [apply near_inert|split; [done|by destruct Hk]]..].
  apply wp_bind. eapply wp_and; [apply build_live|apply framed_still, (framed_build hs anything sysctl_op); plain_op|].
  intros r w2 [[N2 M2] (_ & _ & Hg)].
  assert (I2 : iface (pool w2) <> EmptyString) by (by eapply grown_iface).
  assert (N2' : near {[name]} (host w) (host w2)) by (etrans; [by apply near_inert|done]).
  destruct r as [[]|e|]; [|by split_and!..]. wp_steps. set (w3 := set_names _ w2).
  assert (I3 : iface (pool w3) <> EmptyString) by done.
  eapply wp_and; [apply inert_created|apply track_created|]. intros r w4 [Hk4 (_ & Hg4 & _)].
  assert (I4 : iface (pool w4) <> EmptyString) by (by eapply grown_iface).
  assert (N4 : near {[name]} (host w) (host w4)) by (etrans; [exact N2'|by apply near_inert]).
  destruct r as [[]|e|]; wp_steps; (split; [done|]); (split; [|done]); [|done..].
  intros a _. destruct Hk4 as [-> _]. exact (M2 tt eq_refl).
Qed.

(** All that begins is there when it ends well; what is left when it does not is in the list of what was begun. *)
Lemma create_loop_live (B : gset string) b todo : forall begun w,
  base (pool w) = b -> lw w ⊆ B ∪ list_to_set begun -> list_to_set begun ⊆ lw w -> (begun <> [] -> iface (pool w) <> EmptyString) ->
  wp (create_loop hs todo begun) (fun r w' => near (list_to_set (ns_name b <$> todo)) (host w) (host w') /\ match r with
    | Done (l, None) => l = (begun ++ (ns_name b <$> todo))%list /\ list_to_set l ⊆ lw w'
    | Done (l, Some _) => lw w' ⊆ B ∪ list_to_set l /\ (iface (pool w') <> EmptyString \/ lw w' ⊆ B)
    | _ => False
    end) w.
Proof.
  induction todo as [|i todo IH]; intros begun w Hb Hl Hin Hi; cbn [create_loop].
  - wp_steps. split; [done|]. cbn. by rewrite app_nil_r.
  - wp_steps. unfold look. wp_steps. rewrite Hb. unfold attempt. apply wp_catch. wp_steps.
    eapply wp_and; [apply create_one_live|apply create_one_books|]. rewrite Hb. intros r w1 [(N1 & M1 & S1) Bk].
    assert (N0 : near (list_to_set (ns_name b <$> i :: todo)) (host w) (host w1)) by (eapply near_weaken; [|exact N1]; set_solver).
    pose proof N1 as (N2 & N3 & _). destruct r as [n|[msg|]|]; [| |done|done]; wp_steps.
    + destruct Bk as (_ & Hg & _ & I1). specialize (M1 n eq_refl).
      eapply wp_mono; [apply IH|]; [by rewrite (grown_base _ _ _ Hg)|set_solver|set_solver|done|].
      intros r w2 [N4 Hr]. split; [etrans; [exact N0|]; eapply near_weaken; [|exact N4]; set_solver|].
      destruct r as [[l [msg|]]|e|]; [done| |done..]. by rewrite fmap_cons, cons_middle, (assoc_L app).
    + split; [exact N0|]. split; [set_solver|]. destruct (decide (iface (pool w1) = EmptyString)) as [E|]; [right|by left].
      rewrite (S1 E). assert (begun = []) as ->; [|set_solver]. destruct begun as [|x l]; [done|]. exfalso.
      assert (Hg : exists k, grown k (pool w) (pool w1)) by (destruct Bk as (_ & [?|(? & _)]); eauto).
      destruct Hg as [k Hg]. by apply (grown_iface _ _ _ Hg); [apply Hi|].
Qed.

(** A known interface is not looked up again. *)
Lemma iface_at_once w : wp (_get_iface hs) (fun r _ => iface (pool w) <> EmptyString -> exists out, r = Done out) w.
Proof.
  unfold _get_iface. wp_steps. unfold look. wp_steps. destruct (iface (pool w)) as [|c s]; cbn [nonempty].
  - apply (wp_mono _ (fun _ _ => True)); [|done]. unfold wp. case_match; done.
  - wp_steps. eauto.
Qed.

(** Nothing but [name] goes. *)
Definition fewer (name : string) (h h' : H) : Prop := live h' ⊆ live h /\ live h ⊆ {[name]} ∪ live h' /\ (good h' -> good h).

Lemma fewer_inert name h h' : K h h' -> fewer name h h'.
Proof. intros [E G]. unfold fewer. rewrite E. split_and!; [done|set_solver|done]. Qed.

#[export] Instance fewer_po name : PreOrder (fewer name).
Proof.
  unfold fewer. split; [intros x; split_and!; [done|set_solver|done]|].
  intros x y z (A & B & C) (A' & B' & C'). split_and!; [set_solver|set_solver|auto].
Qed.

(** A call before the deletion. *)
Lemma external_live f w : K (host w) (f (host w)).2 -> (good (f (host w)).2 -> (f (host w)).1 = None) ->
  wp (external f) (fun r w' => K (host w) (host w') /\ match r with Done _ => True | _ => ~ good (host w') end) w.
Proof.
  intros Hk Hg. unfold wp, external. destruct (f (host w)) as [[msg|] h]; (split; [done|]); [|done].
  intros G. by discriminate (Hg G).
Qed.

(** The namespace is gone, unless something went wrong. *)
Definition gone (name : string) (h h' : H) : Prop := fewer name h h' /\ (good h' -> name ∉ live h').

Lemma gone_inert name h h' h'' : gone name h h' -> K h' h'' -> gone name h h''.
Proof.
  intros [F G] Hk. split; [etrans; [exact F|by apply fewer_inert]|]. destruct Hk as [-> Hk]. auto.
Qed.

Lemma early_exit name h h' h'' : K h h' -> ~ good h' -> K h' h'' -> gone name h h''.
Proof. intros Hk Hg [E G]. split; [etrans; [by apply fewer_inert|]; by apply fewer_inert|]. intros G'. by destruct Hg; auto. Qed.

Lemma call_first {A} name f (m : unit -> N A) w :
  (forall h, K h (f h).2) -> (forall h, good (f h).2 -> (f h).1 = None) ->
  (forall w', wp (m tt) (fun _ w'' => gone name (host w') (host w'')) w') ->
  wp (external f ≫= m) (fun _ w' => gone name (host w) (host w')) w.
Proof.
  intros Hk Hg Hm. apply wp_bind. eapply wp_mono; [apply external_live; [apply Hk|apply Hg]|]. intros [[]|e|] w' [Hk' Hr].
  2,3: eapply early_exit; [exact Hk'|exact Hr|done].
  eapply wp_mono; [apply Hm|]. intros r w'' [F G]. split; [|done]. etrans; [by apply fewer_inert|exact F].
Qed.

Lemma teardown_live name vh nat w :
  wp (_ ← external (release_curl_probe_worker hs name);
      _ ← external (pkill_nfqws2_in_ns hs name);
      _ ← external (drop_ns_firewall hs name);
      netns_rc ← _run_destroy hs ["ip"; "netns"; "delete"; name];
      _ ← _run_destroy hs ["ip"; "link"; "delete"; vh];
      _ ← _run_destroy hs (forward_rule "-D" "-i" vh);
      _ ← _run_destroy hs (forward_rule "-D" "-o" vh);
      _ ← _run_destroy hs (["iptables"; "-t"; "nat"; "-D"; "POSTROUTING"] ++ nat)%list;
      _ ← _run_destroy hs ["rm"; "-rf"; "/etc/netns/" +:+ name];
      mret (netns_rc =? 0)) (fun _ w' => gone name (host w) (host w')) w.
Proof.
  apply call_first; [apply (K_worker hs K netns_op)|apply good_worker|]. clear w. intros w.
  apply call_first; [apply (K_pkill hs K netns_op)|apply good_pkill|]. clear w. intros w.
  apply call_first; [apply (K_firewall hs K netns_op)|apply good_firewall|]. clear w. intros w.
  apply wp_bind. unfold _run_destroy at 1. apply wp_bind. eapply wp_mono; [apply run_host|]. intros r w1 (_ & -> & _).
  destruct (delete_bounds name EmptyString (host w)) as (D1 & D2 & D3). fold (netns_delete name).
  set (w1 := set_host _ w).
  assert (G1 : gone name (host w) (host w1)).
  { unfold gone, fewer. split_and!; [done|done|intros G; by apply D3..]. }
  destruct r as [p|e|]; [|done..]. apply wp_ret. cbn beta iota. clearbody w1. clear D1 D2 D3.
  eapply (wp_mono _ (fun _ w2 => K (host w1) (host w2))); [|intros r w2 Hk; exact (gone_inert _ _ _ _ G1 Hk)].
  clear G1.
  apply inert_framed. repeat first
    [ apply (framed_ret K) | apply (framed_run_destroy hs K netns_op); cbn; plain_op | apply (framed_bind K); [|intros ?] ].
Qed.

Lemma destroy_one_live b i tracked w : 0 <= i -> let name := ns_name b i in
  wp (quietly (_ ← _destroy_one hs name tracked; mret tt)) (fun _ w' => fewer name (host w) (host w') /\
    (iface (pool w) <> EmptyString -> good (host w') -> name ∉ lw w')) w.
Proof.
  intros Hi name. unfold quietly. apply wp_catch. wp_steps. eapply (wp_mono _ (fun _ w' => fewer name (host w) (host w') /\
    (iface (pool w) <> EmptyString -> good (host w') -> name ∉ lw w'))).
  2:{ intros [u|[msg|]|] w' Hw; by wp_steps. }
  unfold _destroy_one. subst name. rewrite (ns_name_index _ _ Hi). destruct (veth_names_ok (ns_name b i)) as [[vh vn] ->].
  set (name := ns_name b i). wp_steps.
  eapply wp_and; [apply (framed_iface hs K netns_op)|apply iface_at_once|].
  intros [out|e|] w1 [(_ & _ & _ & _ & Hk) Hi']; [|split; [by apply fewer_inert|intros Hn; by destruct (Hi' Hn)]..].
  apply wp_finally. eapply wp_mono; [apply teardown_live|]. intros r w2 [F G].
  assert (F2 : fewer name (host w) (host w2)) by (etrans; [by apply fewer_inert|exact F]).
  assert (Fin : inert (if tracked then _track_ns_destroyed hs else mret tt)) by (destruct tracked; [apply inert_destroyed|apply inert_ret]).
  destruct r as [v|e|]; [| |by split].
  all: eapply wp_mono; [apply Fin|]; intros r' w3 [E K3].
  all: assert (Q : fewer name (host w) (host w3) /\ (iface (pool w) <> EmptyString -> good (host w3) -> name ∉ lw w3)) by
    (split; [etrans; [exact F2|]; by apply fewer_inert|rewrite E; auto]); by destruct r'.
Qed.

(** What a failed creation leaves is destroyed. *)
Lemma roll_back_live (B : gset string) l w :
  (forall n, n ∈ l -> named n) -> (names (pool w) <> [] -> iface (pool w) <> EmptyString) ->
  lw w ⊆ B ∪ list_to_set l -> iface (pool w) <> EmptyString \/ lw w ⊆ B ->
  wp (roll_back hs l) (fun r w' => near (list_to_set l) (host w) (host w') /\ (good (host w') -> lw w' ⊆ B)) w.
Proof.
  intros Hn Hi Hl Hc. unfold roll_back. wp_steps.
  apply (wp_for_each _ (fun pre s => near (list_to_set l) (host w) (host s) /\ grown [] (pool w) (pool s) /\ lw s ⊆ lw w /\
    (iface (pool w) <> EmptyString -> good (host s) -> forall n, n ∈ pre -> n ∉ lw s))) with (pre := []).
  - split; [done|]. split; [apply grown_refl|]. split; [done|]. by intros _ _ n Hn'%elem_of_nil.
  - intros pre x s Hx (N & Hg & Hs & Hd). wp_steps. unfold look. wp_steps. destruct (Hn x Hx) as (b & i & -> & Hi0).
    assert (names (pool s) = names (pool w)) as -> by (destruct Hg as (j & -> & _); apply app_nil_r).
    eapply wp_and; [by apply destroy_one_live|apply destroy_quietly; [done|]|].
    { intros Hb%bool_decide_eq_true. eapply grown_iface; [exact Hg|]. apply Hi. intros E. rewrite E in Hb. by apply elem_of_nil in Hb. }
    intros r w' [[(F1 & F2 & F3) G] (-> & Hg' & _)]. split.
    { etrans; [exact N|]. unfold near. split_and!; [set_solver|set_solver|done]. }
    split; [exact (grown_trans [] [] _ _ _ Hg Hg')|]. split; [by etrans|]. intros Hn' Hgood n [Hin|E]%elem_of_app.
    + intros Hl'. apply (Hd Hn' (F3 Hgood) n Hin). by apply F1.
    + apply list_elem_of_singleton in E as ->. apply G; [|done]. by eapply grown_iface.
  - intros s (N & _ & Hs & Hd). wp_steps. split; [exact N|]. intros Hgood. cbn. destruct Hc as [Hn'|Hc]; [|by etrans].
    intros n Hin. specialize (Hd Hn' Hgood n). apply Hs in Hin as Hin'. apply Hl in Hin'. set_solver.
Qed.

Lemma create_all_live w : created (pool w) = false -> names (pool w) = [] -> 0 <= active_ns_count w ->
  let ns := ns_names (base (pool w)) (size (pool w)) in
  wp (create_all hs) (fun r w' => near (list_to_set ns) (host w) (host w') /\ match r with
    | Done _ => list_to_set ns ⊆ lw w'
    | _ => good (host w') -> lw w' ⊆ lw w
    end) w.
Proof.
  intros Hc Hn H0 ns. unfold create_all. wp_steps. unfold look. wp_steps. rewrite Hc. wp_steps.
  assert (E : ns_name (base (pool w)) <$> (Z.of_nat <$> seq 0 (Z.to_nat (size (pool w)))) = ns).
  { unfold ns, ns_names. by rewrite <- list_fmap_compose. }
  eapply wp_and; [apply (create_loop_live (lw w) (base (pool w))); [done|set_solver|set_solver|done]|
    apply (create_loop_books hs (pool w) (active_ns_count w)); [apply grown_refl|cbn; lia|done]|].
  cbv zeta. rewrite E, app_nil_l. intros [[l [msg|]]|e|] w1 [[N Hl] Bk]; [| |done|done].
  - destruct Bk as (ok & name & El & Hpre & _ & Hg). apply wp_bind.
    eapply wp_mono; [apply (roll_back_live (lw w)); [| |apply Hl|apply Hl]|].
    + intros x Hx. eapply ns_names_named. by eapply elem_of_prefix.
    + destruct Hg as [[(j & Ew & _) Hi]|(_ & Hi & _)]; [|done]. intros Hne. apply Hi. intros ->. apply Hne. by rewrite Ew, Hn.
    + assert (Hs : list_to_set l ⊆@{gset string} list_to_set ns) by (destruct Hpre as [k ->]; set_solver).
      intros r w2 [N2 G]. assert (N3 : near (list_to_set ns) (host w) (host w2)).
      { etrans; [exact N|]. by eapply near_weaken. }
      destruct r; wp_steps; by split.
  - destruct Hl as [-> Hl]. wp_steps. by split.
Qed.
End Live.

Definition ex_pool (base : string) (n : Z) : NetNsPool := Pool n base None false [] EmptyString.



(** C24. After a pool was created and seeded, at every point of any run of its clients every namespace is in
    the queue or held, by one client; giving one back never blocks, whether its cleaning raises or not; and
    taking one blocks only when all of them are held. *)
Theorem leases_are_exclusive {H} (hs : Host H) (w w1 : world H) es w2 held :
  created (pool w) = false -> names (pool w) = [] -> queue (pool w) = None -> 0 <= active_ns_count w ->
  0 <= size (pool w) ->
  create_all hs w = (Done tt, w1) ->
  lease_run hs (set_pool (seed (pool w1)).1 w1, []) es = Some (w2, held) ->
  NoDup held /\ queued (pool w2) ++ held ≡ₚ ns_names (base (pool w)) (size (pool w)) /\
  (forall name, name ∈ held -> is_Some (lease_step hs (w2, held) (Release name))) /\
  (is_Some (lease_step hs (w2, held) Acquire) <-> Z.of_nat (length held) < size (pool w)).
Proof.
  intros Hc Hn Hq H0 Hsz E Hrun. assert (Hok : pool_ok (pool w)) by (split; rewrite ?Hc, Hn; done).
  destruct (wp_run _ _ _ _ _ (create_all_core hs w Hok H0) E) as ((Hn' & _) & (Hs & Hb & Hq') & _ & Hc').
  rewrite Hc', Hb, Hs in Hn'. set (all := ns_names (base (pool w)) (size (pool w))) in *.
  assert (Hnd : NoDup all) by apply ns_names_NoDup.
  assert (Hl : size (pool w) = Z.of_nat (length all)) by (unfold all; rewrite ns_names_length; lia).
  assert (Hseed : (seed (pool w1)).1 = with_queue all (pool w1)).
  { unfold seed. rewrite seed_names_ok; [|cbn; unfold queued; rewrite Hq', Hq, Hn', Hs; cbn; lia].
    unfold queued. cbn. rewrite Hq', Hq, Hn'. cbn. by destruct all. }
  rewrite Hseed in Hrun.
  assert (Hstart : leased_ok all (set_pool (with_queue all (pool w1)) w1, [])).
  { split; cbn; [by rewrite Hs|]. unfold queued. cbn. by rewrite app_nil_r. }
  destruct (lease_run_ok hs all es _ _ Hnd Hstart Hrun) as [Hs2 Hp2].
  assert (Hnd2 : NoDup held).
  { rewrite <- Hp2 in Hnd. by apply NoDup_app in Hnd as (_ & _ & Hnd). }
  repeat split; try done.
  - intros name Hin. cbn. rewrite bool_decide_true by done. unfold release.
    destruct (cleanup_pool hs name w2) as (r & h & -> & _). cbn [pool set_host].
    rewrite (put_room all _ held) by (done || by intros ->; apply elem_of_nil in Hin). by eexists.
  - intros [st Hst]. cbn in Hst. unfold acquire in Hst. apply Permutation_length in Hp2. rewrite length_app in Hp2.
    destruct (queued (pool w2)); [done|]. cbn in Hp2. lia.
  - intros Hlt. apply Permutation_length in Hp2. rewrite length_app in Hp2. cbn. unfold acquire.
    destruct (queued (pool w2)); [cbn in Hp2; lia|]. by eexists.
Qed.

(** ** A host, and runs on it *)

(** The state is the value of the setting and the namespaces; every command works but [bad]. *)
Definition ex_state : Type := string * gset string.

Definition ex_run (bad argv : list string) (h : ex_state) : spawned * ex_state :=
  let ok := Ran (Completed 0 EmptyString EmptyString) in
  if bool_decide (argv = bad) then (Ran (Completed 1 EmptyString "no"), h)
  else if bool_decide (take 4 argv = ["sudo"; "-n"; "sysctl"; "-w"]) then
    match drop 4 argv with
    | [kv] => (ok, if startswith "net.ipv4.ip_forward=" kv then (sdrop 20 kv, h.2) else h)
    | _ => (ok, h)
    end
  else if bool_decide (take 4 argv = ["sudo"; "-n"; "ip"; "netns"]) then
    match drop 4 argv with
    | [op; n] => (ok, if bool_decide (op = "add") then (h.1, {[n]} ∪ h.2)
                      else if bool_decide (op = "delete") then (h.1, h.2 ∖ {[n]}) else h)
    | _ => (ok, h)
    end
  else (ok, h).

Definition ex_host (bad : list string) : Host ex_state := {|
  subprocess_run argv _ h := ex_run bad argv h;
  read_proc h := (Some (h.1 +:+ String "010" EmptyString), h);
  write_marker _ h := h; clear_marker h := h;
  release_curl_probe_worker _ h := (None, h); pkill_nfqws2_in_ns _ h := (None, h);
  drop_ns_firewall _ h := (None, h); bump_ns_epoch _ h := (None, h); bridge_teardown _ h := (None, h);
  first_udp_nameserver := "1.1.1.1"
|}.

Definition ex_bad : list string := ["sudo"; "-n"; "ip"; "netns"; "add"; "bs-1"].

Lemma strip_newline h : strip (h +:+ String "010" EmptyString) = strip h.
Proof.
  unfold strip, strip_by. induction h as [|c h IH]; [reflexivity|]. rewrite append_cons. cbn [lstrip_by].
  destruct (is_space c); [exact IH|]. change (String c (h +:+ ?t)) with (String c h +:+ t).
  by apply rstrip_app.
Qed.

Definition ex_good (_ : ex_state) : Prop := True.

(** What a command that is not exempt does to the state. *)
Lemma ex_run_setting bad argv h : (forall args, argv = "sudo" :: "-n" :: args -> ~ sysctl_op args) -> (ex_run bad argv h).2.1 = h.1.
Proof.
  intros Ha. unfold ex_run. case_bool_decide; [done|]. case_bool_decide as Et.
  - destruct (drop 4 argv) as [|kv [|]] eqn:Ed; try done. destruct (startswith "net.ipv4.ip_forward=" kv) eqn:Es; [|done].
    apply startswith_spec in Es as [v ->]. exfalso. apply (Ha (sysctl_forward v)); [|by exists v].
    by rewrite <- (take_drop 4 argv), Et, Ed.
  - case_bool_decide; [|done]. destruct (drop 4 argv) as [|op [|n [|]]]; try done. by repeat case_bool_decide.
Qed.

Lemma ex_run_live bad argv h : (forall args, argv = "sudo" :: "-n" :: args -> ~ netns_op args) -> (ex_run bad argv h).2.2 = h.2.
Proof.
  intros Ha. unfold ex_run. case_bool_decide; [done|]. case_bool_decide.
  { destruct (drop 4 argv) as [|kv [|]]; try done. by destruct (startswith _ kv). }
  case_bool_decide as Et; [|done]. destruct (drop 4 argv) as [|op [|n [|]]] eqn:Ed; try done.
  assert (E : argv = "sudo" :: "-n" :: ["ip"; "netns"; op; n]) by (by rewrite <- (take_drop 4 argv), Et, Ed).
  case_bool_decide; [|case_bool_decide; [|done]]; subst op; destruct (Ha _ E); exists n; [by left|by right].
Qed.

#[export] Instance ex_forwarding : Forwarding (ex_host ex_bad) (fun h => strip h.1) ex_good.
Proof.
  split.
  - intros h. apply strip_idemp.
  - intros h raw [= <-]. apply strip_newline.
  - intros v h p Hv _ _. cbn [subprocess_run ex_host]. unfold ex_run. rewrite bool_decide_false by done.
    rewrite bool_decide_true by done. unfold sysctl_forward. cbn [drop]. rewrite startswith_app.
    change 20%nat with (String.length "net.ipv4.ip_forward="). cbn [snd fst]. by rewrite sdrop_append.
  - split; try done. intros argv input h Ha. cbn [subprocess_run ex_host]. by rewrite ex_run_setting.
  - done.
  - intros v h _. split; [done|]. cbn [subprocess_run ex_host]. unfold ex_run. rewrite bool_decide_false by done.
    rewrite bool_decide_true by done. by eexists.
Qed.

#[export] Instance ex_namespaces : Namespaces (ex_host ex_bad) snd ex_good.
Proof.
  split; try done.
  - intros n input h. cbn. unfold ex_run. case_bool_decide; [set_solver|]. cbn. set_solver.
  - intros n input h p. cbn. unfold ex_run. case_bool_decide; [by intros [= <-]|]. cbn. set_solver.
  - intros n input h. cbn. unfold ex_run. rewrite bool_decide_false by done. cbn. split; [set_solver|].
    split; [|set_solver]. intros x Hx. destruct (decide (x = n)); set_solver.
  - split; try done. intros argv input h Ha. cbn [subprocess_run ex_host]. split; [|done]. by apply ex_run_live.
Qed.

Definition ex_world : world ex_state := World None 0 (ex_pool "bs" 2) ("0", {["old"]}).

(** The second namespace cannot be added: the first one is destroyed again and forwarding is off. *)
Example ex_create_fails :
  let '(r, w) := create_all (ex_host ex_bad) ex_world in
  r = Exn (Error ("cmd failed: ip netns add bs-1 → " +:+ repr_str "no")) /\
  names (pool w) = [] /\ active_ns_count w = 0 /\ ip_forward_restore w = None /\ strip (host w).1 = "0" /\ (host w).2 = {["old"]}.
Proof. vm_compute. repeat split. Qed.


Definition ex_process : process ex_state := Process None 0 [ex_pool "bs" 2; ex_pool "bt" 3] ("0", ∅).
Definition ex_ops : list pool_op := [CreateAll 0; CreateAll 1; DestroyAll 1].


Definition ex_host_ok : Host ex_state := ex_host [].
Definition ex_created : world ex_state := (create_all ex_host_ok ex_world).2.
Definition ex_events : list lease_event := [Acquire; Acquire; Release "bs-0"; Acquire; Release "bs-1"].

Lemma leases_are_exclusive_witness :
  exists w2 held, lease_run ex_host_ok (set_pool (seed (pool ex_created)).1 ex_created, []) ex_events = Some (w2, held) /\
  NoDup held /\ queued (pool w2) ++ held ≡ₚ ns_names "bs" 2 /\
  (forall name, name ∈ held -> is_Some (lease_step ex_host_ok (w2, held) (Release name))) /\
  (is_Some (lease_step ex_host_ok (w2, held) Acquire) <-> Z.of_nat (length held) < 2).
Proof.
  eexists _, ["bs-0"]. split; [vm_compute; reflexivity|].
  refine (leases_are_exclusive ex_host_ok ex_world ex_created ex_events _ _ eq_refl eq_refl eq_refl (Z.le_refl 0) _ _ _).
  - discriminate.
  - vm_compute. reflexivity.
  - vm_compute. reflexivity.
Defined.

(** ** Interleavings of two threads *)

Definition ex_two : process ex_state := foldl (run_op ex_host_ok) (Process None 0 [ex_pool "bs" 1; ex_pool "bt" 1] ("0", ∅)) [CreateAll 0; CreateAll 1].

(** [destroy_all] of one pool, entered by a second thread (the signal handler) before the first one has
    cleared the names: each counts the namespace down, and forwarding is off while the other pool is alive. *)
Definition destroy_twice {H} (hs : Host H) : N (H := H) unit :=
  l1 ← destroy_begin; l2 ← destroy_begin;
  _ ← destroy_each hs (default [] l1); _ ← destroy_each hs (default [] l2);
  _ ← destroy_end; destroy_end.

Example destroy_twice_undercounts :
  let w := World (p_restore ex_two) (p_active ex_two) (default (ex_pool "bs" 1) (p_pools ex_two !! 0%nat)) (p_host ex_two) in
  let '(_, w') := destroy_twice ex_host_ok w in
  active_ns_count w = 2 /\ active_ns_count w' = 0 /\ strip (host w').1 = "0".
Proof. vm_compute. repeat split. Qed.

(** The last namespace of one pool goes while another thread creates one: the value to restore is taken
    under the lock, but written after the new namespace was counted. *)
Definition restore_overtaken {H} (hs : Host H) : N (H := H) unit :=
  _ ← count_down; v ← take_restore hs;
  _ ← _track_ns_created hs;
  put_back hs v.

Example restore_overtakes_creation :
  let w := World (Some "0") 1 (ex_pool "bs" 1) ("1", ∅) in
  let '(_, w') := restore_overtaken ex_host_ok w in
  active_ns_count w' = 1 /\ ip_forward_restore w' = None /\ strip (host w').1 = "0".
Proof. vm_compute. repeat split. Qed.
