(* ===== verification/Custom.v ===== *)
(** * Strategies from files: [engine/generators/custom.py], [engine/strategy_loader.py]

    The custom lists, the directory of ready configurations and the user's matrix. A file is its decoded
    text, a directory the names in it ([Sources]); log lines are left out. *)

From stdpp Require Import base numbers list strings sorting.
From Stdlib Require Import ZArith Lia Ascii.
From S2P Require Import Prelude PyExn PyStr PyRe PyDict FamilyAxes Families BlobAliases GenHelpers ConfBuilder StaticValidator.

#[local] Open Scope string_scope.

(** ** Files *)

(** The text of a file, [None] when there is none, and the names in a directory. *)
Record Sources : Type := { read_text : string -> option string; listdir_of : string -> option (list string) }.

(** The lines of a file that is read in text mode: [\n], [\r] and [\r\n] end one. *)
Fixpoint text_lines_from (cur s : string) : list string :=
  match s with
  | EmptyString => if nonempty cur then [cur] else []
  | String c s' =>
      if Ascii.eqb c "010" then cur :: text_lines_from EmptyString s'
      else if Ascii.eqb c "013" then
        cur :: match s' with
               | String d s'' => if Ascii.eqb d "010" then text_lines_from EmptyString s'' else text_lines_from EmptyString s'
               | EmptyString => []
               end
      else text_lines_from (cur +:+ String c EmptyString) s'
  end.
Definition text_lines (s : string) : list string := text_lines_from EmptyString s.

(** [os.path.join] of a directory that does not end with a slash and a file name. *)
Definition join_path (dir name : string) : string := dir +:+ "/" +:+ name.

(** [line.replace("\\n", "\n")]: the two characters become a line break. *)
Definition unescape (line : string) : string := join newline (split_pair "\" "n" line).

Definition is_comment (line : string) : bool := startswith "#" line.

(** ** Labels *)

Definition _LABEL_PREFIX_LEN : nat := 40.

Definition _cmd_human_label (cmd : string) : string :=
  let first := before "010" cmd in
  cmd_label (stake _LABEL_PREFIX_LEN (replace_char ":" "_" (replace_char " " "_" first))) cmd.

(** ** The custom lists *)

Definition FILE_MAP : list (string * string) :=
  [("http", "list_http.txt"); ("tls12", "list_https_tls12.txt"); ("tls13", "list_https_tls13.txt");
   ("quic", "list_quic.txt"); ("udp_voice", "list_udp_voice.txt")].

Definition list_protocol (protocol : string) : string :=
  dget_default protocol "tls12" [("http", "http"); ("quic", "quic"); ("tls13", "tls13"); ("udp_voice", "udp_voice")].

(** The loop over the lines; with [single] it stops after the first item. *)
Fixpoint list_items (protocol : string) (single : bool) (lines : list string) : list StrategyItem :=
  match lines with
  | [] => []
  | line :: lines =>
      let line := strip line in
      if negb (nonempty line) || is_comment line then list_items protocol single lines
      else Item (_cmd_human_label line) line false (list_protocol protocol)
             :: (if single then [] else list_items protocol single lines)
  end.

Section Generators.
Context (src : Sources).

Definition custom_generate (base_dir protocol scan_level : string) (max_count : Z) : list StrategyItem :=
  match dget protocol FILE_MAP with
  | None => []
  | Some filename =>
      if nonempty filename then
        match read_text src (join_path base_dir filename) with
        | None => []
        | Some text => first_n max_count (list_items protocol (String.eqb scan_level "single") (text_lines text))
        end
      else []
  end.

(** ** Ready configurations *)

Definition desync_arg : string := "--lua-desync=".

(** The payloads, joined by the two characters that separate strategies on one line. *)
Definition desync_payloads (text : string) : list string :=
  omap (fun raw => let line := strip raw in
                   if startswith desync_arg line then Some (sdrop (String.length desync_arg) line) else None)
       (text_lines text).
Definition _desync_text (text : string) : string := join "\n" (desync_payloads text).

Context {FS : FileSys} (dirs : BlobDirs) (env : ConfEnv).

Definition _validate_or_skip (text : string) : bool :=
  let t := _desync_text text in
  if negb (nonempty t) then true
  else bool_decide (filter (fun i => severity i = error) (issues (validate_strategy dirs env t None)) = []).

(** [fname.replace(".conf", "")] *)
Definition conf_label (fname : string) : string := join EmptyString (split_str ".conf" fname).

Definition wanted_conf (protocol fname : string) : bool :=
  endswith ".conf" fname &&
  (if String.eqb protocol "udp_voice" then contains "udp_voice" fname else negb (contains "udp_voice" fname)).

Fixpoint config_items (config_dir protocol : string) (single : bool) (names : list string) : list StrategyItem :=
  match names with
  | [] => []
  | fname :: names =>
      if negb (wanted_conf protocol fname) then config_items config_dir protocol single names
      else
        let path := join_path config_dir fname in
        if _validate_or_skip (default EmptyString (read_text src path))
        then Item (conf_label fname) path true "tls12"
               :: (if single then [] else config_items config_dir protocol single names)
        else config_items config_dir protocol single names
  end.

Definition config_generate (config_dir protocol scan_level : string) (max_count : Z) : list StrategyItem :=
  match listdir_of src config_dir with
  | None => []
  | Some names => first_n max_count (config_items config_dir protocol (String.eqb scan_level "single") (py_sorted str_lt names))
  end.

(** ** The user's matrix *)

Definition _UDP_SKIP_TCP_CLI : list string := ["--filter-tcp"; "--qnum=200"].
Definition _UDP_SKIP_ON_TCP : list string :=
  ["--filter-udp"; "--qnum=201"; "filter-udp"; "blob=discord_udp"; "discord_ip_discovery"].
Definition _TCP_ONLY_FOOLING : list string := ["tcp_ack"; "tcp_ts_up"; "tls_client_hello"; "--filter-l7=tls"].
Definition _SECTION_RE : re :=
  seqs [Chr (Ascii.eqb "#"); Star space; Plus (Chr (Ascii.eqb "-")); Star space;
        Group 1 (alts [liti "TCP"; liti "UDP"; liti "QUIC"]); WordB].
Definition _PROTO_LANE : list (string * string) := [("udp_voice", "udp"); ("udp_game", "udp"); ("quic", "quic")].
Definition lane_of (protocol : string) : string := dget_default protocol "tcp" _PROTO_LANE.

Definition _parse_matrix_section (line : string) : option string :=
  m ← re_match _SECTION_RE line; g ← group 1 m; Some (lower g).

Definition has_any (toks : list string) (low : string) : bool := existsb (fun tok => contains tok low) toks.

Definition _keep_matrix_line (protocol strategy : string) (section : option string) : bool :=
  let lane := lane_of protocol in
  let low := lower strategy in
  if match section with Some s => negb (String.eqb s lane) | None => false end then false
  else if bool_decide (section = Some lane) then true
  else if negb (String.eqb lane "udp") then negb (has_any _UDP_SKIP_ON_TCP low)
  else negb (has_any (_UDP_SKIP_TCP_CLI ++ _TCP_ONLY_FOOLING)%list low).

Fixpoint _iter_user_matrix_items (section : option string) (lines : list string) (protocol : string) (single : bool)
    : list StrategyItem :=
  match lines with
  | [] => []
  | raw :: lines =>
      let line := strip raw in
      if negb (nonempty line) || String.eqb line "---" then _iter_user_matrix_items section lines protocol single
      else match _parse_matrix_section line with
           | Some sec => _iter_user_matrix_items (Some sec) lines protocol single
           | None =>
               if is_comment line then _iter_user_matrix_items section lines protocol single
               else
                 let strategy := unescape line in
                 if negb (_keep_matrix_line protocol strategy section)
                 then _iter_user_matrix_items section lines protocol single
                 else Item (_cmd_human_label strategy) strategy false protocol
                        :: (if single then [] else _iter_user_matrix_items section lines protocol single)
           end
  end.

(** [stdin] is what the standard input holds. *)
Definition user_generate (stdin filepath protocol scan_level : string) (max_count : Z) : list StrategyItem :=
  let text := if String.eqb filepath "-" then Some stdin else read_text src filepath in
  match text with
  | None => []
  | Some text => first_n max_count
      (_iter_user_matrix_items None (splitlines text) protocol (String.eqb scan_level "single"))
  end.

(** ** [StrategyLoader] *)

Definition from_string (strategy : string) : list string :=
  let s := strip strategy in if nonempty s then [s] else [].

Definition from_file_lines (lines : list string) : list string :=
  omap (fun line => let line := strip line in
                    if negb (nonempty line) || is_comment line then None else Some (unescape line)) lines.
Definition not_found (what path : string) : exn := Error (what +:+ path).
Definition from_file (path : string) : res (list string) :=
  match read_text src path with
  | None => Exn (not_found "No such file or directory: " path)
  | Some text => Done (from_file_lines (text_lines text))
  end.

Definition from_config_dir (config_dir : string) : list string :=
  join_path config_dir <$> py_sorted str_lt (filter (fun n => endswith ".conf" n = true) (default [] (listdir_of src config_dir))).

(** The path and the issues that are logged. *)
Definition config_errors (text : string) : list ValidationIssue :=
  raw ← splitlines text;
  let line := strip raw in
  if startswith desync_arg line then
    let desync := strip (sdrop (String.length desync_arg) line) in
    if nonempty desync then filter (fun i => severity i = error) (issues (validate_strategy dirs env desync None)) else []
  else [].
Definition from_config (path : string) : res (list string * list ValidationIssue) :=
  match read_text src path with
  | None => Exn (not_found "Config not found: " path)
  | Some text => Done ([path], if nonempty (strip text) then config_errors text else [])
  end.

Definition from_custom_dir (test_dir protocol : string) : res (list string) :=
  match dget protocol FILE_MAP with
  | None => Exn (Error ("Unknown protocol: " +:+ protocol))
  | Some filename =>
      let filepath := join_path (join_path test_dir "custom") filename in
      match read_text src filepath with
      | None => Exn (not_found "Strategy file not found: " filepath)
      | Some _ => from_file filepath
      end
  end.
End Generators.

(** ** The user's matrix, by lines *)

(** A line that holds a strategy. *)
Definition strategy_line (raw : string) : bool :=
  let line := strip raw in
  nonempty line && negb (String.eqb line "---") && negb (found (_parse_matrix_section line)) && negb (is_comment line).

Definition section_line (raw : string) : option string :=
  let line := strip raw in
  if negb (nonempty line) || String.eqb line "---" then None else _parse_matrix_section line.

(** The section in force after some lines: the last header. *)
Definition section_after (start : option string) (lines : list string) : option string :=
  match last (omap section_line lines) with Some s => Some s | None => start end.

(** A strategy belongs to the lane of the protocol: under a header when it is the one of the lane; without
    a header when it carries no marker of the other side. *)
Definition in_lane (protocol : string) (section : option string) (strategy : string) : Prop :=
  match section with
  | Some s => s = lane_of protocol
  | None =>
      forall tok, tok ∈ (if String.eqb (lane_of protocol) "udp" then _UDP_SKIP_TCP_CLI ++ _TCP_ONLY_FOOLING else _UDP_SKIP_ON_TCP)%list ->
      contains tok (lower strategy) = false
  end.

Lemma has_any_none toks low : has_any toks low = false <-> forall tok, tok ∈ toks -> contains tok low = false.
Proof.
  unfold has_any. induction toks as [|t toks IH]; cbn [existsb].
  - split; [by intros _ tok ?%elem_of_nil|done].
  - rewrite orb_false_iff, IH. split.
    + intros [Ht Hs] tok [->|Htok]%elem_of_cons; auto.
    + intros Hs. split; [apply Hs; by left|]. intros tok Htok. apply Hs. by right.
Qed.

Lemma keep_in_lane protocol strategy section :
  _keep_matrix_line protocol strategy section = true <-> in_lane protocol section strategy.
Proof.
  unfold _keep_matrix_line, in_lane. destruct section as [s|].
  - destruct (String.eqb_spec s (lane_of protocol)) as [->|Hn]; cbn [negb].
    + by rewrite bool_decide_true.
    + by split.
  - rewrite bool_decide_false by done. destruct (String.eqb (lane_of protocol) "udp"); cbn [negb];
      by rewrite negb_true_iff, has_any_none.
Qed.

Lemma section_after_cons start raw lines :
  section_after start (raw :: lines) =
  section_after (match section_line raw with Some s => Some s | None => start end) lines.
Proof.
  unfold section_after. cbn [omap list_omap]. destruct (section_line raw) as [s|]; [|done].
  rewrite last_cons. by destruct (last (omap section_line lines)).
Qed.

(** One line of the loop. *)
Lemma iter_step sec raw lines protocol single :
  _iter_user_matrix_items sec (raw :: lines) protocol single =
  let s := unescape (strip raw) in
  let sec' := match section_line raw with Some s => Some s | None => sec end in
  if strategy_line raw && _keep_matrix_line protocol s sec
  then Item (_cmd_human_label s) s false protocol :: (if single then [] else _iter_user_matrix_items sec lines protocol single)
  else _iter_user_matrix_items sec' lines protocol single.
Proof.
  cbn [_iter_user_matrix_items]. unfold strategy_line, section_line. cbv zeta.
  destruct (nonempty (strip raw)); cbn [negb orb andb]; [|done].
  destruct (String.eqb (strip raw) "---"); cbn [negb orb andb]; [done|].
  destruct (_parse_matrix_section (strip raw)); cbn [found negb andb]; [done|].
  destruct (is_comment (strip raw)); cbn [negb andb]; [done|]. by destruct (_keep_matrix_line _ _ _).
Qed.

Lemma strategy_line_section raw : strategy_line raw = true -> section_line raw = None.
Proof.
  unfold strategy_line, section_line. cbv zeta. destruct (nonempty (strip raw)); [|done].
  destruct (String.eqb _ _); [done|]. by destruct (_parse_matrix_section _).
Qed.

Lemma iter_items lines protocol : forall sec it,
  it ∈ _iter_user_matrix_items sec lines protocol false <->
  exists pre raw post, lines = (pre ++ raw :: post)%list /\ strategy_line raw = true /\
    in_lane protocol (section_after sec pre) (unescape (strip raw)) /\
    it = Item (_cmd_human_label (unescape (strip raw))) (unescape (strip raw)) false protocol.
Proof.
  induction lines as [|raw lines IH]; intros sec it.
  - split; [by intros ?%elem_of_nil|]. by intros ([] & ? & ? & ? & _).
  - set (here := strategy_line raw = true /\ in_lane protocol sec (unescape (strip raw)) /\
                 it = Item (_cmd_human_label (unescape (strip raw))) (unescape (strip raw)) false protocol).
    assert (Hsplit : (exists pre raw' post, (raw :: lines = pre ++ raw' :: post)%list /\ strategy_line raw' = true /\
        in_lane protocol (section_after sec pre) (unescape (strip raw')) /\
        it = Item (_cmd_human_label (unescape (strip raw'))) (unescape (strip raw')) false protocol) <->
      here \/ it ∈ _iter_user_matrix_items (match section_line raw with Some s => Some s | None => sec end) lines protocol false).
    { rewrite IH. split.
      - intros ([|x pre] & raw' & post & E & H); injection E as <- ->; [by left|]. right.
        exists pre, raw', post. by rewrite section_after_cons in H.
      - intros [H|(pre & raw' & post & -> & H)]; [by exists [], raw, lines|].
        exists (raw :: pre), raw', post. by rewrite section_after_cons. }
    rewrite Hsplit, iter_step. cbv zeta. subst here. destruct (strategy_line raw) eqn:Es; cbn [andb].
    + rewrite (strategy_line_section _ Es).
      destruct (_keep_matrix_line protocol (unescape (strip raw)) sec) eqn:Ek.
      * apply keep_in_lane in Ek. rewrite elem_of_cons. naive_solver.
      * assert (~ in_lane protocol sec (unescape (strip raw))) by (rewrite <- keep_in_lane; congruence). naive_solver.
    + naive_solver.
Qed.

Lemma iter_single lines protocol : forall sec,
  _iter_user_matrix_items sec lines protocol true = take 1 (_iter_user_matrix_items sec lines protocol false).
Proof.
  induction lines as [|raw lines IH]; intros sec; [done|]. rewrite !iter_step. cbv zeta.
  destruct (_ && _); [done|apply IH].
Qed.

(** A matrix line reaches exactly the runs it is meant for: in file order, the strategies of a run are
    the lines that are neither blank, rules, headers nor comments and that belong to the lane of the protocol,
    where the last header before a line decides alone and a line before any header is judged by its own text;
    a scan of level single takes the first of them, and the limit cuts the list. *)
Theorem user_matrix_lanes src stdin filepath protocol scan_level max_count text :
  (if String.eqb filepath "-" then Some stdin else read_text src filepath) = Some text ->
  exists all,
    user_generate src stdin filepath protocol scan_level max_count =
      first_n max_count (if String.eqb scan_level "single" then take 1 all else all) /\
    (forall it, it ∈ all <-> exists pre raw post, splitlines text = (pre ++ raw :: post)%list /\
       strategy_line raw = true /\ in_lane protocol (section_after None pre) (unescape (strip raw)) /\
       it = Item (_cmd_human_label (unescape (strip raw))) (unescape (strip raw)) false protocol).
Proof.
  intros Ht. exists (_iter_user_matrix_items None (splitlines text) protocol false). split.
  - unfold user_generate. rewrite Ht. by destruct (String.eqb scan_level "single"); [rewrite iter_single|].
  - intros it. apply iter_items.
Qed.

Definition ex_matrix : string :=
  "# --- UDP ---" +:+ newline +:+ "fake:blob=stun:tcp_ack=-1" +:+ newline +:+ "# note" +:+ newline
  +:+ "#--tcp" +:+ newline +:+ "fake:blob=tls\nmultisplit:pos=1" +:+ newline.
Definition ex_sources : Sources :=
  {| read_text p := if String.eqb p "/m.txt" then Some ex_matrix
                    else if String.eqb p "/c/a.conf" then Some ("--qnum=200" +:+ newline +:+ "--lua-desync=multisplit:pos=1")
                    else if String.eqb p "/c/b.conf" then Some ("--lua-desync=fake:blob=nosuchblob" +:+ newline) else None;
     listdir_of d := if String.eqb d "/c" then Some ["b.conf"; "a.conf"; "readme"] else None |}.

Example ex_user_tcp :
  Families.strategy <$> user_generate ex_sources EmptyString "/m.txt" "tls12" "fast" 100 = ["fake:blob=tls" +:+ newline +:+ "multisplit:pos=1"]
  /\ Families.strategy <$> user_generate ex_sources EmptyString "/m.txt" "udp_voice" "fast" 100 = ["fake:blob=stun:tcp_ack=-1"]
  /\ user_generate ex_sources EmptyString "/m.txt" "quic" "fast" 100 = [].
Proof. vm_compute. done. Qed.

Lemma user_matrix_lanes_witness :
  exists all,
    user_generate ex_sources EmptyString "/m.txt" "udp_voice" "fast" 100 =
      first_n 100 (if String.eqb "fast" "single" then take 1 all else all) /\
    (forall it, it ∈ all <-> exists pre raw post, splitlines ex_matrix = (pre ++ raw :: post)%list /\
       strategy_line raw = true /\ in_lane "udp_voice" (section_after None pre) (unescape (strip raw)) /\
       it = Item (_cmd_human_label (unescape (strip raw))) (unescape (strip raw)) false "udp_voice").
Proof. exact (user_matrix_lanes ex_sources EmptyString "/m.txt" "udp_voice" "fast" 100 ex_matrix eq_refl). Defined.

(** ** Ready configurations that reach the matrix *)

Section Configs.
Context (src : Sources) {FS : FileSys} (dirs : BlobDirs) (env : ConfEnv).

(** What [_validate_or_skip] lets through. *)
Definition sound_conf (text : string) : Prop :=
  let t := _desync_text text in
  t = EmptyString \/
  (nonempty (strip t) = true /\ _is_well_formed t = true /\ Forall (core_ok dirs env None) (cores_of t)).

Lemma validate_or_skip_sound text : _validate_or_skip dirs env text = true <-> sound_conf text.
Proof.
  unfold _validate_or_skip, sound_conf. cbv zeta. set (t := _desync_text text).
  destruct t as [|c t'] eqn:Et; cbn [nonempty negb]; [naive_solver|]. rewrite <- Et in *.
  rewrite bool_decide_eq_true. change (filter _ (issues ?r)) with (errors r).
  rewrite <- is_valid_errors, valid_iff. split; [by right|]. intros [E|H]; [by rewrite Et in E|done].
Qed.

#[export] Instance sound_conf_dec text : Decision (sound_conf text).
Proof.
  destruct (_validate_or_skip dirs env text) eqn:E; [left|right]; rewrite <- validate_or_skip_sound; [done|congruence].
Defined.

Definition conf_path (config_dir fname : string) : string := join_path config_dir fname.
Definition conf_text (path : string) : string := default EmptyString (read_text src path).
Definition conf_item (config_dir fname : string) : StrategyItem :=
  Item (conf_label fname) (conf_path config_dir fname) true "tls12".

Lemma config_step config_dir protocol single fname names :
  config_items src dirs env config_dir protocol single (fname :: names) =
  if wanted_conf protocol fname && _validate_or_skip dirs env (conf_text (conf_path config_dir fname))
  then conf_item config_dir fname :: (if single then [] else config_items src dirs env config_dir protocol single names)
  else config_items src dirs env config_dir protocol single names.
Proof. cbn [config_items]. by destruct (wanted_conf protocol fname). Qed.

Lemma config_single config_dir protocol names :
  config_items src dirs env config_dir protocol true names =
  take 1 (config_items src dirs env config_dir protocol false names).
Proof.
  induction names as [|n names IH]; [done|]. rewrite !config_step. destruct (_ && _); [done|apply IH].
Qed.

Lemma config_items_all config_dir protocol names :
  config_items src dirs env config_dir protocol false names =
  conf_item config_dir <$> filter (fun n => wanted_conf protocol n = true /\ sound_conf (conf_text (conf_path config_dir n)))
                                  names.
Proof.
  induction names as [|n names IH]; [done|]. rewrite config_step, filter_cons.
  destruct (wanted_conf protocol n && _) eqn:E.
  - apply andb_prop in E as [Hw Hs%validate_or_skip_sound]. rewrite decide_True by done. by rewrite fmap_cons, IH.
  - rewrite decide_False; [done|]. intros [Hw Hs%validate_or_skip_sound]. by rewrite Hw, Hs in E.
Qed.

(** Exactly the configurations that pass the static checks reach the matrix: the items are, in the order
    of their names, the [.conf] files for the protocol whose desync payloads are absent or all in order; a
    scan of level single takes the first of them, and the limit cuts the list. *)
Theorem config_generate_spec config_dir protocol scan_level max_count names :
  listdir_of src config_dir = Some names ->
  let ok n := endswith ".conf" n = true /\
              contains "udp_voice" n = String.eqb protocol "udp_voice" /\
              sound_conf (conf_text (conf_path config_dir n)) in
  exists kept,
    (forall n, n ∈ kept <-> n ∈ names /\ ok n) /\ StronglySorted (fun a b => str_lt b a = false) kept /\
    config_generate src dirs env config_dir protocol scan_level max_count =
      first_n max_count (conf_item config_dir <$> (if String.eqb scan_level "single" then take 1 kept else kept)).
Proof.
  intros Hl ok. set (P n := wanted_conf protocol n = true /\ sound_conf (conf_text (conf_path config_dir n))).
  assert (HP : forall n, P n <-> ok n).
  { intros n. unfold P, ok, wanted_conf. rewrite andb_true_iff.
    destruct (String.eqb protocol "udp_voice"), (contains "udp_voice" n); cbn [negb]; naive_solver. }
  exists (filter P (py_sorted str_lt names)). split; [|split].
  - intros n. rewrite list_elem_of_filter, elem_of_py_sorted, HP. naive_solver.
  - apply StronglySorted_filter, py_sorted_sorted, _.
  - unfold config_generate. rewrite Hl. f_equal. destruct (String.eqb scan_level "single").
    + rewrite config_single, config_items_all. by rewrite <- firstn_map.
    + by rewrite config_items_all.
Qed.

(** The payloads of a sound configuration are valid one by one. *)
Lemma sound_conf_payloads text :
  desync_payloads text <> [] -> Forall (fun p => no_backslash p = true) (desync_payloads text) ->
  _desync_text text <> EmptyString -> sound_conf text ->
  Forall (fun p => nonempty (strip p) = true -> core_ok dirs env None (strip p)) (desync_payloads text).
Proof.
  intros Hne Hb Hn [He|(_ & _ & Hc)]; [done|]. unfold cores_of, _desync_text in Hc.
  rewrite split_pair_join in Hc by done. apply Forall_forall. intros p Hp Hs. rewrite Forall_forall in Hc.
  apply Hc. apply list_elem_of_filter. split; [done|]. by apply list_elem_of_fmap_2.
Qed.
End Configs.

#[local] Instance no_blob_files : FileSys := {| isfile _ := false; isdir _ := false; listdir _ := [] |}.

Example ex_configs :
  config_generate ex_sources StaticValidator.ex_dirs ex_conf_env "/c" "tls12" "fast" 10 = [Item "a" "/c/a.conf" true "tls12"].
Proof. vm_compute. reflexivity. Qed.

Lemma config_generate_spec_witness :
  let ok n := endswith ".conf" n = true /\ contains "udp_voice" n = String.eqb "tls12" "udp_voice" /\
              sound_conf StaticValidator.ex_dirs ex_conf_env (conf_text ex_sources (conf_path "/c" n)) in
  exists kept,
    (forall n, n ∈ kept <-> n ∈ ["b.conf"; "a.conf"; "readme"] /\ ok n) /\
    StronglySorted (fun a b => str_lt b a = false) kept /\
    config_generate ex_sources StaticValidator.ex_dirs ex_conf_env "/c" "tls12" "fast" 10 =
      first_n 10 (conf_item "/c" <$> (if String.eqb "fast" "single" then take 1 kept else kept)).
Proof.
  exact (config_generate_spec ex_sources StaticValidator.ex_dirs ex_conf_env "/c" "tls12" "fast" 10 _ eq_refl).
Defined.
