(* ===== verification/Flowseal.v ===== *)
(** * Flowseal patterns: [engine/generators/flowseal.py]

    The generator of Flowseal-like strategies. An iterator of pairs is the list of what it yields;
    [_take] reads it up to the limit. *)

From stdpp Require Import base numbers list strings sets sorting.
From Stdlib Require Import ZArith Lia Ascii.
From S2P Require Import Prelude PyStr PyDict FamilyAxes Families Triage TriagePrune BlobAliases GenHelpers.

#[local] Open Scope string_scope.
#[local] Open Scope Z_scope.

Definition REPEATS : list Z := [3; 4; 6; 8; 11; 12].
Definition FOOLINGS : list string := ["tcp_ts=-1000"; "tcp_md5"; "tcp_seq"].
Definition FOOLINGS_TS_MD5 : list string := ["tcp_ts=-1000"; "tcp_md5"; "tcp_ts=-1000:tcp_md5"].
Definition SPLIT_POS : list string := ["1"; "2"; "midsld"; "sniext+1"; "1,midsld"; "2,sniext+1"].
Definition SEQOVL : list Z := [480; 568; 652; 664; 679; 681].
Definition BADSEQ_INCREMENTS : list Z := [2; 1000; 10000000].
Definition HOSTS : list string := ["www.google.com"; "ya.ru"; "ozon.ru"].
Definition SNI_LIST : list string := ["www.google.com"; "fonts.google.com"; "ya.ru"].

Definition _TCP_PREFERRED : list string :=
  ["stun"; "stun2"; "max_ru"; "google"; "4pda"; "tls_vk"; "tls_5ka"; "tls_funpay"; "tls_rzd"].
Definition _QUIC_PREFERRED : list string :=
  ["quic_google"; "quic_dbank"; "quic_initial"; "quic_4pda"; "quic_vk"; "quic_tencent"; "quic_steam"; "quic_5ka";
   "quic_rutube"; "quic_funpay"; "quic_cloudflare"; "quic_alfabank"].
Definition _UDP_PREFERRED : list string := ["discord_udp"; "game_udp"; "quic_dbank"; "stun"].

(** An f-string: its pieces one after the other. *)
Definition fs (l : list string) : string := foldr String.append EmptyString l.

Section Flowseal.
(** [resolve_blob_path(n)] is a path that is not empty. *)
Context (resolves : string -> bool).

Definition _available_aliases (preferred : list string) : list string :=
  list_or (filter (fun n => bool_decide (is_Some (dget n BLOB_ALIAS_MAP)) && resolves n = true) preferred) (take 3 preferred).
Definition _tcp_blobs : list string := _available_aliases _TCP_PREFERRED.
Definition _quic_blobs : list string :=
  list_or (filter (fun n => resolves n = true) _QUIC_PREFERRED) ["quic_google"; "quic_dbank"].
Definition _udp_blobs : list string :=
  list_or (filter (fun n => resolves n = true) _UDP_PREFERRED) ["discord_udp"; "stun"].
Definition _pattern_blobs (blobs : list string) : list string :=
  filter (fun b => resolves b || bool_decide (b ∈ blobs) = true) (fromkeys (blobs ++ ["stun2"])).

Context (triage : option TriageProfile).

Definition _viable_blobs (aliases : list string) (protocol : string) : list string :=
  list_or (filter_blob_aliases (Some aliases) triage protocol) aliases.
Definition _fools (src : list string) : list string := filter_fooling_values (list_or src FOOLINGS) triage.

Notation z := str_of_Z.
Definition fake (blob : string) (r : Z) (tail : string) : string := fs ["fake:blob="; blob; ":repeats="; z r; tail].

(** [a] before [b]: the pairs of different positions in order. *)
Fixpoint pairs_of (l : list string) : list (string * string) :=
  match l with [] => [] | a :: l => ((fun b => (a, b)) <$> l) ++ pairs_of l end.
Fixpoint triples_of (l : list string) : list (string * string * string) :=
  match l with [] => [] | a :: l => ((fun bc => (a, bc.1, bc.2)) <$> pairs_of l) ++ triples_of l end.

Definition _expand_multi (blobs : list string) : list row :=
  ('(b1, b2) ← pairs_of blobs; r ← REPEATS; fool ← _fools FOOLINGS;
    [(fs ["flw_multi_"; b1; "+"; b2; "_r"; z r; "_"; fool],
      fs [fake b1 r (":" +:+ fool); newline; fake b2 r (":" +:+ fool)])])
  ++ ('(b1, b2) ← pairs_of blobs; inc ← BADSEQ_INCREMENTS; r ← [6; 8];
    [(fs ["flw_multi_"; b1; "+"; b2; "_r"; z r; "_badseq"; z inc],
      fs [fake b1 r (":tcp_seq=" +:+ z inc); newline; fake b2 r (":tcp_seq=" +:+ z inc)])])
  ++ (if (3 <=? length blobs)%nat then
        '(b1, b2, b3) ← triples_of blobs; r ← [6; 4; 8]; fool ← _fools ["tcp_ts=-1000"; "tcp_seq"];
        [(fs ["flw_triple_"; b1; "+"; b2; "+"; b3; "_r"; z r; "_"; fool],
          fs [fake b1 r (":" +:+ fool); newline; fake b2 r (":" +:+ fool); newline; fake b3 r (":" +:+ fool)])]
      else []).

Definition split_core (pos : string) (seqovl : Z) (pat : string) : string :=
  fs ["multisplit:pos="; pos; ":seqovl="; z seqovl; ":seqovl_pattern="; pat].

Definition _expand_multisplit (blobs pats : list string) : list row :=
  pos ← SPLIT_POS; seqovl ← SEQOVL; pat ← pats;
  (fs ["flw_split_p"; pos; "_s"; z seqovl; "_"; pat], split_core pos seqovl pat)
  :: (blob ← take 4 blobs; r ← [6; 8; 4]; fool ← _fools ["tcp_ts=-1000"; "tcp_seq"];
      [(fs ["flw_fake_split_"; blob; "_r"; z r; "_p"; pos; "_s"; z seqovl; "_"; pat; "_"; fool],
        fs [fake blob r (":" +:+ fool); newline; split_core pos seqovl pat])]).

Definition _expand_fakedsplit (blobs : list string) : list row :=
  pat ← "0x00000000" :: take 3 blobs; fool ← _fools FOOLINGS;
  let core := fs ["fakedsplit:pos=1:pattern="; pat; ":"; fool; ":repeats=1"] in
  (fs ["flw_fds_p1_"; pat; "_"; fool], core)
  :: (blob ← take 3 blobs; r ← [6; 8];
      [(fs ["flw_fake_fds_"; blob; "_r"; z r; "_"; pat; "_"; fool], fs [fake blob r (":" +:+ fool); newline; core])]).

Definition hostfake_rows (blobs : list string) (host fool : string) (disorder : bool) : list row :=
  let core := if disorder then fs ["hostfakesplit:disorder_after:host="; host; ":"; fool; ":repeats=1"]
              else fs ["hostfakesplit:host="; host; ":"; fool; ":repeats=1"] in
  let tag := if disorder then "hf_disorder" else "hf" in
  (fs ["flw_"; tag; "_"; host; "_"; fool], core)
  :: (blob ← take 3 blobs; r ← [6; 8];
      [(fs ["flw_fake_"; tag; "_"; blob; "_r"; z r; "_"; host; "_"; fool], fs [fake blob r (":" +:+ fool); newline; core])]).

Definition _expand_hostfake (blobs : list string) : list row :=
  (host ← HOSTS; fool ← _fools FOOLINGS_TS_MD5; disorder ← [false; true]; hostfake_rows blobs host fool disorder)
  ++ (host ← take 2 HOSTS; md ← ["altorder=1"; EmptyString]; r ← [6; 8];
      let core := fs ["hostfakesplit:host="; host; ":tcp_ts=-1000"; if nonempty md then ":" +:+ md else EmptyString] in
      [(fs ["flw_fake_hf_alt3_"; before "." host; "_"; str_or md "plain"; "_r"; z r],
        fs [fake "stun" r ":tcp_ts=-1000"; newline; core])]).

Definition _expand_multidisorder (blobs : list string) : list row :=
  pos ← ["1"; "midsld"; "1,midsld"]; fool ← _fools ["tcp_seq"; "tcp_ts=-1000"]; sni ← SNI_LIST; r ← [11; 8; 6];
  blob ← "0x00000000" :: take 2 blobs;
  [(fs ["flw_md_"; blob; "_r"; z r; "_p"; pos; "_"; fool; "_sni="; sni],
    fs [fake blob r (fs [":"; fool; ":tls_mod=rnd,dupsid,sni="; sni]); newline; "multidisorder:pos="; pos])].

Definition single_rows (blob : string) : list row :=
  (r ← REPEATS;
     ((fool ← _fools FOOLINGS; [(fs ["flw_fake_"; blob; "_r"; z r; "_"; fool], fake blob r (":" +:+ fool))])
      ++ (sni ← SNI_LIST; r2 ← [6; 8];
          [(fs ["flw_tlsmod_"; blob; "_sni="; sni; "_r"; z r2],
            fake blob r2 (":tcp_ts=-1000:tls_mod=rnd,dupsid,sni=" +:+ sni))]))%list)
  ++ (inc ← BADSEQ_INCREMENTS; r ← [6; 8];
      [(fs ["flw_fake_"; blob; "_r"; z r; "_badseq"; z inc], fake blob r (":tcp_seq=" +:+ z inc))])
  ++ (r ← [6; 8]; [(fs ["flw_tlsmod_none_"; blob; "_r"; z r], fake blob r ":tcp_ts=-1000:tls_mod=none")])
  ++ (r ← [6; 8]; [(fs ["flw_ipid_"; blob; "_r"; z r], fake blob r ":tcp_ts=-1000:ip_id=zero")]).

Definition _expand_singles (blobs : list string) : list row :=
  (blob ← blobs; single_rows blob)
  ++ (r ← [6; 11; 12]; fool ← _fools FOOLINGS;
      [(fs ["flw_null_r"; z r; "_"; fool], fake "0x00000000" r (":" +:+ fool));
       (fs ["flw_blind_r"; z r; "_"; fool], fs ["fake:repeats="; z r; ":"; fool])])
  ++ [("flw_syndata_mdis", fs ["syndata"; newline; "multidisorder:pos=1,midsld:seqovl=1"])]
  ++ (blob ← take 3 blobs; inc ← [1000; 2];
      [(fs ["flw_fake_msplit_"; blob; "_r6_badseq"; z inc], fs [fake blob 6 (":tcp_seq=" +:+ z inc); newline; "multisplit"])])
  ++ (blob ← take 2 blobs;
      [(fs ["flw_fake_msplit_"; blob; "_pos2sniext"],
        fs [fake blob 8 ":tcp_ts=-1000"; newline; "multisplit:pos=2,sniext+1:seqovl=679"])]).

(** The seeds of [_iter_tcp]: one of each technique. *)
Definition tcp_seeds (b0 b1 pat0 : string) : list row :=
  [("flw_multi_seed", fs [fake b0 6 ":tcp_ts=-1000"; newline; fake b1 6 ":tcp_ts=-1000"]);
   ("flw_split_seed", "multisplit:pos=1:seqovl=568:seqovl_pattern=" +:+ pat0);
   ("flw_exp_seqovl480", "multisplit:pos=1:seqovl=480:seqovl_pattern=" +:+ pat0);
   ("flw_fds_seed", "fakedsplit:pos=1:pattern=0x00000000:tcp_ts=-1000:repeats=1");
   ("flw_hf_seed", "hostfakesplit:host=ozon.ru:tcp_ts=-1000:tcp_md5:repeats=1");
   ("flw_md_seed",
     fs ["fake:blob=0x00000000:repeats=11:"; str_or (default "tcp_ts=-1000" (head (_fools FOOLINGS))) "tcp_ts=-1000";
         ":tls_mod=rnd,dupsid,sni=www.google.com"; newline; "multidisorder:pos=1,midsld"]);
   ("flw_syndata", "syndata");
   ("flw_syndata_md", fs ["syndata"; newline; "multidisorder:pos=1,midsld"]);
   ("flw_fake_seed", fake b0 6 ":tcp_ts=-1000");
   ("flw_tlsmod_seed", fake b0 6 ":tcp_ts=-1000:tls_mod=rnd,dupsid,sni=www.google.com");
   ("flw_ipid_seed", fake b0 6 ":tcp_ts=-1000:ip_id=zero");
   ("flw_null_seed", "fake:blob=0x00000000:repeats=6:tcp_ts=-1000");
   ("flw_blind_seed", "fake:repeats=6:tcp_ts=-1000")].

(** [None]: the [IndexError] of [blobs[0]] or [pats[0]]. *)
Definition _iter_tcp : option (list row) :=
  let blobs := _viable_blobs _tcp_blobs "tcp" in
  let pats := _pattern_blobs blobs in
  b0 ← head blobs;
  let b1 := default b0 (blobs !! 1%nat) in
  pat0 ← head pats;
  Some (tcp_seeds b0 b1 pat0 ++ _expand_multi blobs ++ _expand_multisplit blobs pats ++ _expand_fakedsplit blobs
        ++ _expand_hostfake blobs ++ _expand_multidisorder blobs ++ _expand_singles blobs)%list.

Definition _iter_quic : list row :=
  blob ← _quic_blobs; r ← [1; 2; 5; 6; 10; 11; 20];
  [(fs ["flw_quic_"; blob; "_r"; z r], fake blob r EmptyString);
   (fs ["flw_quic_"; blob; "_r"; z r; "_badsum"], fake blob r ":badsum")].
Definition _iter_udp : list row :=
  blob ← _udp_blobs; r ← [3; 4; 6; 10; 12; 14];
  [(fs ["flw_udp_"; blob; "_r"; z r], fake blob r EmptyString);
   (fs ["flw_udp_"; blob; "_r"; z r; "_ttl5"], fake blob r ":ip_ttl=5")].
Definition _iter_http : list row :=
  let named := filter (fun b => resolves b = true) ["max_ru"; "google"] in
  blob ← (_viable_blobs named "http" ++ ["0x00000000"])%list; r ← [6; 8; 11]; fool ← _fools FOOLINGS;
  [(fs ["flw_http_"; blob; "_r"; z r; "_"; fool], fake blob r (":" +:+ fool))].

(** The loop of [_take] over what the iterator yields; [n] items are already there. *)
Fixpoint take_loop (seen : list string) (n : Z) (it : list row) (scan_level : string) (max_count : Z) (protocol : string)
    : list StrategyItem :=
  match it with
  | [] => []
  | (label, strategy) :: it =>
      if decide (strategy ∈ seen) then take_loop seen n it scan_level max_count protocol
      else
        let seen := strategy :: seen in
        let item := Item label strategy false protocol in
        match prune_items_by_triage [item] triage scan_level with
        | [] => take_loop seen n it scan_level max_count protocol
        | _ =>
            if String.eqb scan_level "single" || (max_count <=? n + 1) then [item]
            else item :: take_loop seen (n + 1) it scan_level max_count protocol
        end
  end.
Definition _take (it : list row) (scan_level : string) (max_count : Z) (protocol : string) : list StrategyItem :=
  take_loop [] 0 it scan_level max_count protocol.

Definition flowseal_generate (protocol scan_level : string) (max_count : Z) : option (list StrategyItem) :=
  items ← (if String.eqb protocol "quic" then Some (_take _iter_quic scan_level max_count "quic")
           else if String.eqb protocol "udp_voice" then Some (_take _iter_udp scan_level max_count "udp_voice")
           else if String.eqb protocol "http" then Some (_take _iter_http scan_level max_count "http")
           else it ← _iter_tcp; Some (_take it scan_level max_count "tls12"));
  Some (prune_items_by_triage items triage scan_level).
End Flowseal.

(** ** What the generator yields *)

Section Spec.
Context (triage : option TriageProfile) (scan_level : string).

Definition survives (it : StrategyItem) : Prop := prune_items_by_triage [it] triage scan_level = [it].
#[export] Instance survives_dec it : Decision (survives it).
Proof. unfold survives. apply _. Defined.

Lemma prune_single it : survives it \/ prune_items_by_triage [it] triage scan_level = [].
Proof.
  unfold survives, prune_items_by_triage. destruct triage as [p|]; [|by left]. destruct (negb (bypassable p)); [by right|].
  cbv zeta. rewrite filter_cons, filter_nil. case_decide; auto.
Qed.

Lemma prune_filter l : prune_items_by_triage l triage scan_level = filter survives l.
Proof.
  induction l as [|it l IH].
  { unfold prune_items_by_triage. destruct triage as [p|]; [|done]. by destruct (negb (bypassable p)). }
  assert (prune_items_by_triage (it :: l) triage scan_level =
          (prune_items_by_triage [it] triage scan_level ++ prune_items_by_triage l triage scan_level)%list) as ->.
  { unfold prune_items_by_triage. destruct triage as [p|]; [|done]. destruct (negb (bypassable p)); [done|].
    cbv zeta. rewrite !filter_cons, filter_nil. by case_decide. }
  rewrite IH, filter_cons. case_decide as Hs; [by rewrite Hs|].
  destruct (prune_single it) as [?| E]; [done|]. by rewrite E.
Qed.

(** The items of the rows whose strategy is new. *)
Fixpoint fresh_items (protocol : string) (seen : list string) (it : list row) : list StrategyItem :=
  match it with
  | [] => []
  | (label, strategy) :: it =>
      if decide (strategy ∈ seen) then fresh_items protocol seen it
      else Item label strategy false protocol :: fresh_items protocol (strategy :: seen) it
  end.

Lemma take_loop_spec protocol max_count it : forall seen n,
  take_loop triage seen n it scan_level max_count protocol =
  take (if String.eqb scan_level "single" then 1 else Nat.max 1 (Z.to_nat (max_count - n)))
       (prune_items_by_triage (fresh_items protocol seen it) triage scan_level).
Proof.
  induction it as [|[label strategy] it IH]; intros seen n; cbn [take_loop fresh_items].
  { rewrite prune_filter, filter_nil. by rewrite take_nil. }
  destruct (decide (strategy ∈ seen)); [apply IH|]. set (item := Item label strategy false protocol).
  destruct (prune_single item) as [Hs|Hs].
  - pose proof Hs as Hs'. unfold survives in Hs'. rewrite Hs', prune_filter, filter_cons, decide_True by done. destruct (String.eqb scan_level "single") eqn:E; cbn [orb].
    + done.
    + destruct (Z.leb_spec max_count (n + 1)).
      * replace (Nat.max 1 (Z.to_nat (max_count - n))) with 1%nat by lia. by destruct (filter _ _).
      * rewrite IH, prune_filter. replace (Nat.max 1 (Z.to_nat (max_count - n))) with
          (S (Nat.max 1 (Z.to_nat (max_count - (n + 1))))) by lia. done.
  - rewrite Hs, IH, !prune_filter, filter_cons, decide_False; [done|]. unfold survives. by rewrite Hs.
Qed.
End Spec.

Section Total.
Context (resolves : string -> bool) (triage : option TriageProfile).

Lemma list_or_ne {A} (l d : list A) : d <> [] -> list_or l d <> [].
Proof. by destruct l. Qed.

Lemma viable_ne l protocol : l <> [] -> _viable_blobs triage l protocol <> [].
Proof. apply list_or_ne. Qed.

Lemma pattern_ne blobs : blobs <> [] -> _pattern_blobs resolves blobs <> [].
Proof.
  intros Hne. destruct blobs as [|b l]; [done|]. intros He. unfold _pattern_blobs in He.
  assert (Hin : b ∈ filter (fun x => resolves x || bool_decide (x ∈ b :: l) = true) (fromkeys ((b :: l) ++ ["stun2"])%list)).
  { apply list_elem_of_filter. split; [by rewrite bool_decide_true, orb_true_r by by left|].
    apply elem_of_fromkeys. by left. }
  rewrite He in Hin. by apply elem_of_nil in Hin.
Qed.

(** The rows of a protocol. *)
Definition rows_of (protocol : string) : option (list row) :=
  if String.eqb protocol "quic" then Some (_iter_quic resolves)
  else if String.eqb protocol "udp_voice" then Some (_iter_udp resolves)
  else if String.eqb protocol "http" then Some (_iter_http resolves triage)
  else _iter_tcp resolves triage.
Definition item_protocol (protocol : string) : string :=
  if bool_decide (protocol ∈ ["quic"; "udp_voice"; "http"]) then protocol else "tls12".

Lemma matrix_rows_total protocol : exists rows, rows_of protocol = Some rows.
Proof.
  unfold rows_of. repeat case_match; try by eexists. unfold _iter_tcp.
  assert (Hb : _viable_blobs triage (_tcp_blobs resolves) "tcp" <> []) by (apply viable_ne; by apply list_or_ne).
  pose proof (pattern_ne _ Hb) as Hp. destruct (_viable_blobs _ _ _) as [|b0 l]; [done|].
  cbn [head mbind option_bind]. destruct (_pattern_blobs _ _); [done|]. cbn [head]. by eexists.
Qed.

Lemma flowseal_core protocol scan_level max_count :
  exists rows, rows_of protocol = Some rows /\
  flowseal_generate resolves triage protocol scan_level max_count =
  Some (take (if String.eqb scan_level "single" then 1 else Nat.max 1 (Z.to_nat max_count))
             (prune_items_by_triage (fresh_items (item_protocol protocol) [] rows) triage scan_level)).
Proof.
  destruct (matrix_rows_total protocol) as [rows Hrows]. exists rows. split; [done|].
  assert (E : flowseal_generate resolves triage protocol scan_level max_count =
              Some (prune_items_by_triage (_take triage rows scan_level max_count (item_protocol protocol)) triage scan_level)).
  { unfold flowseal_generate, rows_of, item_protocol in *.
    destruct (String.eqb_spec protocol "quic") as [->|H1]; [by injection Hrows as ->|].
    destruct (String.eqb_spec protocol "udp_voice") as [->|H2]; [by injection Hrows as ->|].
    destruct (String.eqb_spec protocol "http") as [->|H3]; [by injection Hrows as ->|].
    rewrite Hrows. rewrite bool_decide_false by set_solver. done. }
  rewrite E. f_equal. unfold _take. rewrite take_loop_spec, Z.sub_0_r.
  set (k := if String.eqb scan_level "single" then 1%nat else Nat.max 1 (Z.to_nat max_count)).
  rewrite !prune_filter. set (l := fresh_items (item_protocol protocol) [] rows). apply filter_id.
  apply Forall_take, Forall_forall. by intros it [Hs _]%list_elem_of_filter.
Qed.

(** The Flowseal generator never fails, and reading its iterator lazily loses nothing: for every protocol
    the items are the first ones, up to the limit and at least one, of those that are left when repeated
    strategies and then what the triage rules out are removed from all the rows. *)
Theorem flowseal_spec protocol scan_level max_count :
  exists rows, rows_of protocol = Some rows /\
  flowseal_generate resolves triage protocol scan_level max_count =
  Some (take (if String.eqb scan_level "single" then 1 else Nat.max 1 (Z.to_nat max_count))
             (prune_items_by_triage (fresh_items (item_protocol protocol) [] rows) triage scan_level)).
Proof. apply flowseal_core. Qed.
End Total.

Example ex_flowseal :
  let all := default [] (flowseal_generate (fun _ => true) None "quic" "fast" 3) in
  (fun it => (label it, strategy it)) <$> all =
  [("flw_quic_quic_google_r1", "fake:blob=quic_google:repeats=1");
   ("flw_quic_quic_google_r1_badsum", "fake:blob=quic_google:repeats=1:badsum");
   ("flw_quic_quic_google_r2", "fake:blob=quic_google:repeats=2")].
Proof. vm_compute. reflexivity. Qed.
