(* ===== verification/MatrixGen.v ===== *)
(** * The strategy matrix: [engine/matrix_generator.py], [engine/byedpi_matrix_generator.py]

    The sources of strategies behind one interface, and the lists that a campaign probes: their outputs
    joined, without repetitions, cut and pruned. A generator that raises is [None]. *)

From stdpp Require Import base numbers list strings sets sorting.
From Stdlib Require Import ZArith Lia Ascii.
From S2P Require Import Prelude PyStr PyDict FamilyAxes Families Triage TriagePrune BlobAliases Byedpi GenHelpers Standard GenProps ConfBuilder StaticValidator Custom Flowseal.

#[local] Open Scope string_scope.

Notation strategy := Families.strategy.

(** ** byedpi *)

Definition NATIVE_BYEDPI : list string :=
  ["-o1 -a1"; "-o1 -a1 -r-5+se"; "-q1 -a1"; "-q1 -s1 -a1";
   "-n {sni} -Qr -f-1 -r1+s -a1"; "-n {sni} -f-1 -t8 -a1";
   "--fake -1 --ttl 8 --split 1+s --disorder 3+s -a1"; "--fake -1 --split 1+s --disorder 1+s -a1"; "-s1+s -d3+s -a1";
   "-s0+sm -d0+sm -a1"; "-r3+s -a1"; "-r-5+se -a1"; "-f-1 -S -a1"; "-f-1 -S --split 1+s -a1"; "-M h -a1"; "-M h,d -a1";
   "-Qr -f-1 -a1"; "-Qr -f-1 -r1+s -a1"].
Definition NATIVE_HTTP_ONLY : list string := ["-M h -a1"; "-M h,d -a1"].
Definition TRANSLATED_SEEDS : list string :=
  ["fake:blob=stun:repeats=6"; "fake:blob=max_ru:repeats=6"; "fake:blob=google:repeats=6"; "fake:blob=4pda:repeats=6";
   "hostfakesplit:nofake2"; "hostfakesplit:disorder_after:nofake2:tcp_ack=-66000:tcp_ts_up";
   "fakedsplit:pos=1:pattern=stun:repeats=1"; "fakedsplit:pos=midsld:pattern=google:repeats=1";
   "fakeddisorder:pos=1:pattern=google"; "multisplit:pos=1,midsld"; "multisplit:pos=1:repeats=6"; "tlsrec:pos=3+s";
   "oob:urp=b"; "oob:urp=s"; "syndata:tls_mod=rnd"].

(** [shlex.quote] and [shlex.join] *)
Definition shell_safe (c : ascii) : bool :=
  is_word c || bool_decide (c ∈ ["@"; "%"; "+"; "="; ":"; ","; "."; "/"; "-"]%char).
Definition shlex_quote (s : string) : string :=
  if negb (nonempty s) then String single_quote (String single_quote EmptyString)
  else if sforall shell_safe s then s
  else String single_quote
    (join (fs [String single_quote (String double_quote EmptyString); String single_quote EmptyString;
               String double_quote (String single_quote EmptyString)])
       (split_char single_quote s) +:+ String single_quote EmptyString).
Definition shlex_join (argv : list string) : string := join " " (shlex_quote <$> argv).

(** First occurrences of each strategy: the loop of [_dedupe] and of the byedpi generator. *)
Fixpoint dedupe_items (seen : list string) (items : list StrategyItem) : list StrategyItem :=
  match items with
  | [] => []
  | it :: items =>
      if decide (strategy it ∈ seen) then dedupe_items seen items
      else it :: dedupe_items (strategy it :: seen) items
  end.
Definition _dedupe (items : list StrategyItem) (max_count : Z) : list StrategyItem :=
  first_n max_count (dedupe_items [] items).

Section Byedpi.
(** The translator, with the orders in which it walks its two sets. *)
Context (translate_seed : string -> option Translation).

Definition native_items (http_mode : bool) : list StrategyItem :=
  line ← NATIVE_BYEDPI;
  let http_only := bool_decide (line ∈ NATIVE_HTTP_ONLY) in
  if http_only && negb http_mode then []
  else [Item ("byedpi_native:" +:+ line) line false (if http_only then "http" else "tls12")].
Definition translated_items (http_mode : bool) : list StrategyItem :=
  seed ← TRANSLATED_SEEDS;
  if negb (contains "tcp" (lower seed)) && http_mode then []
  else match translate_seed seed with
       | None => []
       | Some tr => [Item ("byedpi:" +:+ replace_char "010" "|" seed) (shlex_join (argv tr)) false "tls12"]
       end.
Definition byedpi_generate (protocol : string) (max_count : Z) : list StrategyItem :=
  let http_mode := String.eqb protocol "http" in
  _dedupe (native_items http_mode ++ translated_items http_mode) max_count.
End Byedpi.

(** ** Generators by name *)

(** [generate(protocol, domain, scan_level, max_count, run_set, triage)]; [_call_generate] drops the
    arguments that a generator does not take. *)
Definition generator : Type :=
  string -> string -> string -> Z -> list string -> option TriageProfile -> option (list StrategyItem).

Record Setup : Type := {
  su_sources : Sources;                             (* files and directories *)
  su_files : FileSys; su_dirs : BlobDirs; su_conf_env : ConfEnv;
  su_custom_dir : string; su_configs_dir : string;
  su_resolves : string -> bool;                     (* resolve_blob_path gives a path *)
  su_translate : string -> option Translation;
  su_state_db : option (string -> list string)      (* state_db.get_working_tcp *)
}.

Section Matrix.
Context (su : Setup).

Definition std (types : list string) : generator := fun protocol domain scan_level max_count run_set triage =>
  _std_families (su_state_db su) types protocol domain scan_level max_count run_set triage.

Definition REGISTRY : list (string * generator) :=
  [("custom", fun p _ lvl n _ _ => Some (custom_generate (su_sources su) (su_custom_dir su) p lvl n));
   ("flowseal", fun p _ lvl n _ tri => flowseal_generate (su_resolves su) tri p lvl n);
   ("byedpi", fun p _ _ n _ _ => Some (byedpi_generate (su_translate su) p n));
   ("standard", std TCP_FAMILIES);
   ("standard_udp", std UDP_VOICE_FAMILIES);
   ("standard_udp_game", std ["udp_game"]);
   ("standard_quic", std QUIC_HTTP3_FAMILIES);
   ("standard_http", std HTTP_FAMILIES);
   ("configs", fun p _ lvl n _ _ =>
      Some (@config_generate (su_sources su) (su_files su) (su_dirs su) (su_conf_env su) (su_configs_dir su) p lvl n));
   ("fake", FakeTcpGenerator (su_state_db su));
   ("faked", FakedTcpGenerator (su_state_db su));
   ("hostfake", HostfakeTcpGenerator (su_state_db su));
   ("fake_multi", FakeMultiGenerator (su_state_db su));
   ("fake_faked", FakeSplitComboGenerator (su_state_db su))].

(** A registered generator: one of the registry, or the user's matrix. Only the latter has an effect: the
    file name [-] reads the standard input to its end, and a second reading finds nothing. *)
Inductive source : Type := Gen (g : generator) | UserMatrix (filepath : string).

(** [self._generators], and what is left on the standard input. *)
Record gens : Type := Gens { registered : list (string * source); stdin : string }.

Definition call_generate (s : source) (protocol domain scan_level : string) (max_count : Z) (run_set : list string)
    (triage : option TriageProfile) (stdin : string) : option (list StrategyItem * string) :=
  match s with
  | Gen g => items ← g protocol domain scan_level max_count run_set triage; Some (items, stdin)
  | UserMatrix filepath =>
      Some (user_generate (su_sources su) stdin filepath protocol scan_level max_count,
            if String.eqb filepath "-" then EmptyString else stdin)
  end.

Definition register (name : string) (s : source) (st : gens) : gens := Gens (dset name s (registered st)) (stdin st).
Definition _ensure_registered (name : string) (st : gens) : gens :=
  match dget name (registered st), dget name REGISTRY with
  | None, Some g => register name (Gen g) st
  | _, _ => st
  end.

(** [max_count // len(sources) or max_count] *)
Definition quota (max_count : Z) (sources : list string) : Z :=
  let q := (max_count / Z.of_nat (length sources))%Z in if (q =? 0)%Z then max_count else q.

(** The loop over the sources; [proto] is the protocol a source is asked for. *)
Fixpoint collect_from (proto : string -> string) (domain scan_level : string) (n : Z) (run_set : list string)
    (triage : option TriageProfile) (sources : list string) (st : gens) : option (list StrategyItem * gens) :=
  match sources with
  | [] => Some ([], st)
  | src_name :: sources =>
      let st := _ensure_registered src_name st in
      match dget src_name (registered st) with
      | None => collect_from proto domain scan_level n run_set triage sources st
      | Some gen =>
          '(items, rest_in) ← call_generate gen (proto src_name) domain scan_level n run_set triage (stdin st);
          let st := Gens (registered st) rest_in in
          '(rest, st) ← collect_from proto domain scan_level n run_set triage sources st;
          Some ((items ++ rest)%list, st)
      end
  end.

Definition _finalize_generated (items : list StrategyItem) (max_count : Z) (triage : option TriageProfile)
    (scan_level user_matrix : string) : list StrategyItem :=
  let deduped := _dedupe items max_count in
  if nonempty user_matrix then deduped else prune_items_by_triage deduped triage scan_level.

(** The sources a call uses: those given or the default ones, or the user's matrix alone. *)
Definition with_user (user_matrix : string) (sources dflt : list string) (st : gens) : list string * gens :=
  if nonempty user_matrix then (["user"], register "user" (UserMatrix user_matrix) st)
  else (list_or sources dflt, st).

Definition generate_tcp (sources : list string) (domain scan_level : string) (max_count : Z) (protocol user_matrix : string)
    (run_set : list string) (triage : option TriageProfile) (st : gens) : option (list StrategyItem * gens) :=
  let '(sources, st) := with_user user_matrix sources ["custom"; "configs"; "standard"] st in
  '(all_items, st) ← collect_from (fun _ => protocol) domain scan_level (quota max_count sources) run_set triage sources st;
  Some (_finalize_generated all_items max_count triage scan_level user_matrix, st).

Definition generate_http (sources : list string) (domain scan_level : string) (max_count : Z) (user_matrix : string)
    (run_set : list string) (triage : option TriageProfile) (st : gens) : option (list StrategyItem * gens) :=
  if match triage with Some p => bool_decide (http_blocked p = Some false) | None => false end then Some ([], st)
  else generate_tcp (list_or sources ["custom"; "standard_http"]) domain scan_level max_count "http" user_matrix run_set triage st.

Definition remap (s : string) : string :=
  dget_default s s [("standard", "standard_udp"); ("game", "standard_udp_game")].
Definition udp_proto (src_name : string) : string := dget_default src_name "udp_voice" [("standard_udp_game", "udp_game")].
Definition _udp_preserve : list string := ["udp_voice"; "udp_game"; "quic"].
Definition coerce_udp (it : StrategyItem) : StrategyItem :=
  if decide (protocol it ∈ _udp_preserve) then it else Item (label it) (strategy it) (is_config it) "udp_voice".

Definition generate_udp (sources : list string) (domain scan_level : string) (max_count : Z) (user_matrix : string)
    (triage : option TriageProfile) (st : gens) : option (list StrategyItem * gens) :=
  if match triage with Some p => voice_ok p && negb (udp_blocked p) | None => false end && negb (nonempty user_matrix)
  then Some ([], st)
  else
    let '(sources, st) := with_user user_matrix sources ["custom"; "standard_udp"] st in
    let sources := remap <$> sources in
    '(all_items, st) ← collect_from udp_proto domain scan_level (quota max_count sources) [] triage sources st;
    Some (_finalize_generated (coerce_udp <$> all_items) max_count triage scan_level user_matrix, st).

Definition as_quic (it : StrategyItem) : StrategyItem :=
  if String.eqb (protocol it) "quic" then it else Item (label it) (strategy it) (is_config it) "quic".
Definition generate_quic (sources : list string) (domain scan_level : string) (max_count : Z) (user_matrix : string)
    (run_set : list string) (triage : option TriageProfile) (st : gens) : option (list StrategyItem * gens) :=
  let '(sources, st) := with_user user_matrix sources ["custom"; "standard_quic"] st in
  '(all_items, st) ← collect_from (fun _ => "quic") domain scan_level (quota max_count sources) run_set triage sources st;
  Some (_finalize_generated (as_quic <$> all_items) max_count triage scan_level user_matrix, st).

(** ** Pairs *)

Record StrategyPair : Type := Pair { p_tcp : StrategyItem; p_udp : StrategyItem }.

(** The order of [(0 if working else 1, tcp label, udp label)]. *)
Definition pair_rank (known : list string) (p : StrategyPair) : nat := if decide (label (p_tcp p) ∈ known) then 0 else 1.
Definition pair_lt (known : list string) : StrategyPair -> StrategyPair -> bool :=
  lex (by_key (pair_rank known) Nat.ltb)
      (lex (by_key (fun p => label (p_tcp p)) str_lt) (by_key (fun p => label (p_udp p)) str_lt)).

Definition generate_pairs (tcp_sources udp_sources : list string) (domain scan_level : string) (max_tcp max_udp : Z)
    (user_matrix : string) (triage : option TriageProfile) (st : gens) : option (list StrategyPair * gens) :=
  '(tcp_items, st) ← generate_tcp tcp_sources domain scan_level max_tcp "tls12" user_matrix [] triage st;
  '(udp_items, st) ← generate_udp udp_sources domain scan_level max_udp user_matrix triage st;
  let known_tcp := match su_state_db su with Some get_working_tcp => get_working_tcp domain | None => [] end in
  Some (py_sorted (pair_lt known_tcp) (tcp ← tcp_items; udp ← udp_items; [Pair tcp udp]), st).
End Matrix.

(** ** Joining the sources *)

Lemma dedupe_spec items : forall seen,
  NoDup (strategy <$> dedupe_items seen items) /\
  (forall s, s ∈ strategy <$> dedupe_items seen items <-> s ∈ strategy <$> items /\ s ∉ seen) /\
  (forall it, it ∈ dedupe_items seen items -> it ∈ items).
Proof.
  induction items as [|it items IH]; intros seen; cbn [dedupe_items].
  - split; [constructor|]. split; [|done]. intros s. cbn. set_solver.
  - destruct (decide (strategy it ∈ seen)) as [Hin|Hin].
    + destruct (IH seen) as (H1 & H2 & H3). split; [done|]. split.
      * intros s. rewrite H2, fmap_cons, elem_of_cons. set_solver.
      * intros x Hx. right. by apply H3.
    + destruct (IH (strategy it :: seen)) as (H1 & H2 & H3). split; [|split].
      * rewrite fmap_cons. constructor; [|done]. rewrite H2. set_solver.
      * intros s. rewrite !fmap_cons, !elem_of_cons, H2, elem_of_cons.
        destruct (decide (s = strategy it)) as [->|]; set_solver.
      * intros x. rewrite !elem_of_cons. intros [->|Hx]; [by left|]. right. by apply H3.
Qed.

Lemma NoDup_prefix {A} (l k : list A) : l `prefix_of` k -> NoDup k -> NoDup l.
Proof. intros [m ->] Hnd. by apply NoDup_app in Hnd as [? _]. Qed.

Lemma fmap_prefix {A B} (f : A -> B) l k : l `prefix_of` k -> f <$> l `prefix_of` f <$> k.
Proof. intros [m ->]. exists (f <$> m). by rewrite fmap_app. Qed.

Lemma NoDup_fmap_filter {A B} (f : A -> B) (P : A -> Prop) `{!forall x, Decision (P x)} l :
  NoDup (f <$> l) -> NoDup (f <$> filter P l).
Proof.
  induction l as [|x l IH]; [done|]. rewrite fmap_cons, filter_cons. intros [Hx Hnd]%NoDup_cons.
  case_decide; [|by apply IH]. rewrite fmap_cons. constructor; [|by apply IH].
  intros (y & E & [_ Hy]%list_elem_of_filter)%list_elem_of_fmap. apply Hx. rewrite E. by apply list_elem_of_fmap_2.
Qed.

Section Finalize.
Context (items : list StrategyItem) (max_count : Z) (triage : option TriageProfile) (scan_level user_matrix : string).
Notation out := (_finalize_generated items max_count triage scan_level user_matrix).

Lemma finalize_nodup : NoDup (strategy <$> out).
Proof.
  assert (Hd : NoDup (strategy <$> _dedupe items max_count)).
  { eapply NoDup_prefix; [apply fmap_prefix, first_n_prefix|apply (dedupe_spec items [])]. }
  unfold _finalize_generated. destruct (nonempty user_matrix); [done|]. rewrite prune_filter. by apply NoDup_fmap_filter.
Qed.

Lemma finalize_length : (0 <= max_count)%Z -> (Z.of_nat (length out) <= max_count)%Z.
Proof.
  intros H0. assert (Hd : (Z.of_nat (length (_dedupe items max_count)) <= max_count)%Z) by by apply length_first_n.
  unfold _finalize_generated. destruct (nonempty user_matrix); [done|]. rewrite prune_filter.
  pose proof (length_filter (survives triage scan_level) (_dedupe items max_count)). lia.
Qed.

Lemma finalize_elem it : it ∈ out -> it ∈ items /\ (user_matrix = EmptyString -> prune_items_by_triage [it] triage scan_level = [it]).
Proof.
  intros Hit. unfold _finalize_generated in Hit. assert (Hd : it ∈ _dedupe items max_count /\
    (user_matrix = EmptyString -> prune_items_by_triage [it] triage scan_level = [it])).
  { destruct user_matrix as [|c u]; cbn [nonempty] in Hit; [|by split].
    rewrite prune_filter in Hit. apply list_elem_of_filter in Hit as [Hs Hd]. by split. }
  destruct Hd as [Hd Hp]. split; [|done]. by apply elem_of_first_n, (dedupe_spec items []) in Hd.
Qed.
End Finalize.

Section Spec.
Context (su : Setup).

Definition total (g : generator) : Prop := forall p d l n r t, is_Some (g p d l n r t).
Definition total_source (s : source) : Prop := match s with Gen g => total g | UserMatrix _ => True end.
Definition gens_total (st : gens) : Prop := forall name s, dget name (registered st) = Some s -> total_source s.

Lemma generate_total types p d l n r t : is_Some (generate (su_state_db su) types p d l n r t).
Proof.
  destruct (match t with Some pr => bypassable pr | None => true end) eqn:E.
  - destruct (generate_core (su_state_db su) types p d l n r t E) as (exp & _ & ->). by eexists.
  - unfold generate. destruct t as [pr|]; [|done]. rewrite E. by eexists.
Qed.

Lemma std_total types : StandardGenerator (Some types) = Some types -> total (std su types).
Proof. intros E p d l n r t. unfold std, _std_families. rewrite E. apply generate_total. Qed.

Lemma flowseal_total p l n t : is_Some (flowseal_generate (su_resolves su) t p l n).
Proof. destruct (flowseal_core (su_resolves su) t p l n) as (rows & _ & ->). by eexists. Qed.

Lemma registry_total name g : dget name (REGISTRY su) = Some g -> total g.
Proof.
  intros H. assert (Hall : Forall (fun kv => total kv.2) (REGISTRY su)).
  { repeat constructor; cbn [snd]; try (by intros p d l n r t; eexists); try (by apply std_total; vm_compute).
    intros p d l n r t. apply flowseal_total. }
  rewrite Forall_forall in Hall. apply dget_elem in H. apply (Hall _ H).
Qed.

Lemma call_total s p d l n r t rest_in : total_source s -> is_Some (call_generate su s p d l n r t rest_in).
Proof.
  destruct s as [g|filepath]; cbn [total_source call_generate]; [|by eexists].
  intros Hg. destruct (Hg p d l n r t) as [items ->]. by eexists.
Qed.

Lemma register_total name s st : total_source s -> gens_total st -> gens_total (register name s st).
Proof.
  intros Hs Hst name' s' H. unfold register in H. cbn [registered] in H. destruct (decide (name = name')) as [<-|Hn].
  - rewrite dget_set_eq in H. by injection H as <-.
  - rewrite dget_set_ne in H by done. by eapply Hst.
Qed.

Lemma ensure_total name st : gens_total st -> gens_total (_ensure_registered su name st).
Proof.
  intros Hst. unfold _ensure_registered. destruct (dget name (registered st)); [done|].
  destruct (dget name (REGISTRY su)) eqn:E; [|done]. apply register_total; [|done]. by eapply registry_total.
Qed.

(** A generator that was registered stays, and what a later look-up finds is the same. *)
Lemma ensure_keeps name name' s st :
  dget name' (registered st) = Some s -> dget name' (registered (_ensure_registered su name st)) = Some s.
Proof.
  intros H. unfold _ensure_registered. destruct (dget name (registered st)) eqn:E; [done|].
  destruct (dget name (REGISTRY su)); [|done]. unfold register. cbn [registered]. rewrite dget_set_ne; [done|].
  intros ->. congruence.
Qed.

(** Where an item comes from: a source of the call, asked with its protocol and its share of the limit. *)
Definition comes_from (proto : string -> string) (domain scan_level : string) (n : Z) (run_set : list string)
    (triage : option TriageProfile) (sources : list string) (st : gens) (it : StrategyItem) : Prop :=
  exists src_name s items given rest_in, src_name ∈ sources /\ dget src_name (registered st) = Some s /\
    call_generate su s (proto src_name) domain scan_level n run_set triage given = Some (items, rest_in) /\ it ∈ items.

Lemma comes_from_cons proto domain scan_level n run_set triage s sources st it :
  comes_from proto domain scan_level n run_set triage sources st it ->
  comes_from proto domain scan_level n run_set triage (s :: sources) st it.
Proof. intros (s' & g & items & given & rest_in & Hs & H). exists s', g, items, given, rest_in. split; [by right|done]. Qed.

Lemma collect_total proto domain scan_level n run_set triage sources : forall st,
  gens_total st ->
  exists all st', collect_from su proto domain scan_level n run_set triage sources st = Some (all, st') /\
    gens_total st' /\ (forall name g, dget name (registered st) = Some g -> dget name (registered st') = Some g) /\
    forall it, it ∈ all -> comes_from proto domain scan_level n run_set triage sources st' it.
Proof.
  induction sources as [|s sources IH]; intros st Hst; cbn [collect_from].
  { exists [], st. repeat split; try done. by intros it ?%elem_of_nil. }
  pose proof (ensure_total s st Hst) as Hst1. set (st1 := _ensure_registered su s st) in *.
  destruct (dget s (registered st1)) as [g|] eqn:Eg.
  - destruct (call_total g (proto s) domain scan_level n run_set triage (stdin st1) (Hst1 s g Eg)) as [[items rest_in] Ei].
    rewrite Ei. cbn [mbind option_bind].
    destruct (IH (Gens (registered st1) rest_in) Hst1) as (rest & st' & -> & Ht & Hk & Hr). cbn [mbind option_bind].
    exists (items ++ rest)%list, st'. split; [done|]. split; [done|]. split.
    { intros name g' H. apply Hk. by apply ensure_keeps. }
    intros it [Hit|Hit]%elem_of_app; [|by apply comes_from_cons, Hr].
    exists s, g, items, (stdin st1), rest_in. split; [by left|]. split; [by apply Hk|done].
  - destruct (IH st1 Hst1) as (rest & st' & -> & Ht & Hk & Hr). exists rest, st'. split; [done|]. split; [done|]. split.
    { intros name g' H. apply Hk. by apply ensure_keeps. }
    intros it Hit. by apply comes_from_cons, Hr.
Qed.

Lemma with_user_total user_matrix sources dflt st :
  gens_total st -> gens_total (with_user user_matrix sources dflt st).2.
Proof.
  intros Hst. unfold with_user. destruct (nonempty user_matrix); [|done]. by apply register_total.
Qed.

(** What holds of every list that is probed. *)
Record probed_list (max_count : Z) (triage : option TriageProfile) (scan_level user_matrix : string) (out : list StrategyItem)
  : Prop := {
  pl_distinct : NoDup (strategy <$> out);
  pl_bounded : (0 <= max_count)%Z -> (Z.of_nat (length out) <= max_count)%Z;
  pl_pruned it : it ∈ out -> user_matrix = EmptyString -> prune_items_by_triage [it] triage scan_level = [it]
}.

Lemma finalize_probed items max_count triage scan_level user_matrix :
  probed_list max_count triage scan_level user_matrix (_finalize_generated items max_count triage scan_level user_matrix).
Proof.
  split; [apply finalize_nodup|apply finalize_length|]. intros it Hit. by apply finalize_elem in Hit as [_ H].
Qed.

(** The sources of a TCP call. *)
Definition used_sources (user_matrix : string) (sources dflt : list string) : list string :=
  if nonempty user_matrix then ["user"] else list_or sources dflt.

Lemma with_user_sources user_matrix sources dflt st :
  (with_user user_matrix sources dflt st).1 = used_sources user_matrix sources dflt.
Proof. unfold with_user, used_sources. by destruct (nonempty user_matrix). Qed.

Lemma generate_tcp_core sources domain scan_level max_count protocol user_matrix run_set triage st :
  gens_total st ->
  let used := used_sources user_matrix sources ["custom"; "configs"; "standard"] in
  exists out st', generate_tcp su sources domain scan_level max_count protocol user_matrix run_set triage st = Some (out, st') /\
    gens_total st' /\ probed_list max_count triage scan_level user_matrix out /\
    forall it, it ∈ out -> comes_from (fun _ => protocol) domain scan_level (quota max_count used) run_set triage used st' it.
Proof.
  intros Hst used. unfold generate_tcp. pose proof (with_user_total user_matrix sources ["custom"; "configs"; "standard"] st Hst) as H1.
  pose proof (with_user_sources user_matrix sources ["custom"; "configs"; "standard"] st) as H2. fold used in H2.
  destruct (with_user user_matrix sources _ st) as [srcs st1]. cbn [fst snd] in H1, H2. subst srcs.
  destruct (collect_total (fun _ => protocol) domain scan_level (quota max_count used) run_set triage used st1 H1)
    as (all & st' & E & Ht & _ & Hfrom). rewrite E. cbn [mbind option_bind].
  eexists _, st'. split; [done|]. split; [done|]. split; [apply finalize_probed|].
  intros it Hit. apply Hfrom. by apply finalize_elem in Hit as [? _].
Qed.

Lemma generate_udp_core sources domain scan_level max_count user_matrix triage st :
  gens_total st ->
  exists out st', generate_udp su sources domain scan_level max_count user_matrix triage st = Some (out, st') /\
    gens_total st' /\ probed_list max_count triage scan_level user_matrix out /\ forall it, it ∈ out -> protocol it ∈ _udp_preserve.
Proof.
  intros Hst. unfold generate_udp.
  destruct ((match triage with Some p => voice_ok p && negb (udp_blocked p) | None => false end) && negb (nonempty user_matrix)).
  { exists [], st. split; [done|]. split; [done|]. split; [|by intros it ?%elem_of_nil]. split; [constructor|done|].
    by intros it ?%elem_of_nil. }
  pose proof (with_user_total user_matrix sources ["custom"; "standard_udp"] st Hst) as H1.
  destruct (with_user user_matrix sources _ st) as [srcs st1]. cbn [snd] in H1. cbv zeta.
  destruct (collect_total udp_proto domain scan_level (quota max_count (remap <$> srcs)) [] triage (remap <$> srcs) st1 H1)
    as (all & st' & E & Ht & _ & _). rewrite E. cbn [mbind option_bind].
  eexists _, st'. split; [done|]. split; [done|]. split; [apply finalize_probed|].
  intros it Hit. apply finalize_elem in Hit as [(x & -> & _)%list_elem_of_fmap _]. unfold coerce_udp.
  destruct (decide (protocol x ∈ _udp_preserve)); [done|]. by left.
Qed.

Lemma generate_quic_core sources domain scan_level max_count user_matrix run_set triage st :
  gens_total st ->
  exists out st', generate_quic su sources domain scan_level max_count user_matrix run_set triage st = Some (out, st') /\
    gens_total st' /\ probed_list max_count triage scan_level user_matrix out /\ forall it, it ∈ out -> protocol it = "quic".
Proof.
  intros Hst. unfold generate_quic. pose proof (with_user_total user_matrix sources ["custom"; "standard_quic"] st Hst) as H1.
  destruct (with_user user_matrix sources _ st) as [srcs st1]. cbn [snd] in H1.
  destruct (collect_total (fun _ => "quic") domain scan_level (quota max_count srcs) run_set triage srcs st1 H1)
    as (all & st' & E & Ht & _ & _). rewrite E. cbn [mbind option_bind].
  eexists _, st'. split; [done|]. split; [done|]. split; [apply finalize_probed|].
  intros it Hit. apply finalize_elem in Hit as [(x & -> & _)%list_elem_of_fmap _]. unfold as_quic.
  by destruct (String.eqb_spec (protocol x) "quic").
Qed.

(** The TCP matrix never fails, whatever the sources and the triage: no strategy occurs twice, the limit
    holds, every item passes the triage on its own unless the user gave the matrix, and comes from one of the
    sources of the call, which was asked for its share of the limit. With a user's matrix it is the only
    source. *)
Theorem generate_tcp_spec sources domain scan_level max_count protocol user_matrix run_set triage st :
  gens_total st ->
  let used := used_sources user_matrix sources ["custom"; "configs"; "standard"] in
  exists out st', generate_tcp su sources domain scan_level max_count protocol user_matrix run_set triage st = Some (out, st') /\
    gens_total st' /\ probed_list max_count triage scan_level user_matrix out /\
    forall it, it ∈ out -> comes_from (fun _ => protocol) domain scan_level (quota max_count used) run_set triage used st' it.
Proof. apply generate_tcp_core. Qed.

(** The UDP and the QUIC list never fail and stay in their lanes: whatever protocol a source gives its
    items, those of the first have one of the UDP protocols and those of the second [quic], without a
    repeated strategy and within the limit. *)
Theorem lanes_are_kept sources domain scan_level max_count user_matrix run_set triage st :
  gens_total st ->
  (exists out st', generate_udp su sources domain scan_level max_count user_matrix triage st = Some (out, st') /\
     probed_list max_count triage scan_level user_matrix out /\ forall it, it ∈ out -> protocol it ∈ _udp_preserve) /\
  (exists out st', generate_quic su sources domain scan_level max_count user_matrix run_set triage st = Some (out, st') /\
     probed_list max_count triage scan_level user_matrix out /\ forall it, it ∈ out -> protocol it = "quic").
Proof.
  intros Hst. split.
  - destruct (generate_udp_core sources domain scan_level max_count user_matrix triage st Hst) as (out & st' & E & _ & H & Hp).
    by exists out, st'.
  - destruct (generate_quic_core sources domain scan_level max_count user_matrix run_set triage st Hst) as (out & st' & E & _ & H & Hp).
    by exists out, st'.
Qed.
End Spec.

(** ** Pairs *)

Section Pairs.
Context (su : Setup).

Lemma pair_lt_rank known a b : pair_lt known b a = false -> (pair_rank known a <= pair_rank known b)%nat.
Proof. unfold pair_lt, lex at 1. intros [H _]%orb_false_iff. unfold by_key in H. by apply Nat.ltb_ge in H. Qed.

(** The pairs of a campaign are exactly the products of its TCP and its UDP list, and those whose TCP
    strategy is known to work come first. *)
Theorem generate_pairs_spec tcp_sources udp_sources domain scan_level max_tcp max_udp user_matrix triage st :
  gens_total st ->
  let known := match su_state_db su with Some get_working_tcp => get_working_tcp domain | None => [] end in
  exists tcp st1 udp st2 pairs,
    generate_tcp su tcp_sources domain scan_level max_tcp "tls12" user_matrix [] triage st = Some (tcp, st1) /\
    generate_udp su udp_sources domain scan_level max_udp user_matrix triage st1 = Some (udp, st2) /\
    generate_pairs su tcp_sources udp_sources domain scan_level max_tcp max_udp user_matrix triage st = Some (pairs, st2) /\
    pairs ≡ₚ (t ← tcp; u ← udp; [Pair t u]) /\
    forall i j p q, pairs !! i = Some p -> pairs !! j = Some q ->
      label (p_tcp p) ∉ known -> label (p_tcp q) ∈ known -> (j < i)%nat.
Proof.
  intros Hst known.
  destruct (generate_tcp_core su tcp_sources domain scan_level max_tcp "tls12" user_matrix [] triage st Hst)
    as (tcp & st1 & E1 & Hst1 & _).
  destruct (generate_udp_core su udp_sources domain scan_level max_udp user_matrix triage st1 Hst1) as (udp & st2 & E2 & _ & _).
  eexists tcp, st1, udp, st2, _. split; [done|]. split; [done|]. split.
  { unfold generate_pairs. rewrite E1. cbn [mbind option_bind]. rewrite E2. reflexivity. }
  split; [apply py_sorted_perm|]. intros i j p q Hi Hj Hp Hq. destruct (decide (j < i)%nat) as [|Hn]; [done|exfalso].
  fold known in Hi, Hj. set (l := py_sorted _ _) in *.
  assert (Hs : StronglySorted (fun a b => pair_lt known b a = false) l) by (apply py_sorted_sorted; apply _).
  destruct (decide (i = j)) as [->|Hij]; [rewrite Hi in Hj; injection Hj as ->; done|].
  assert (Hle : pair_lt known q p = false) by (exact (StronglySorted_lookup _ _ Hs i j p q Hi Hj ltac:(lia))).
  apply pair_lt_rank in Hle. unfold pair_rank in Hle. rewrite decide_False, decide_True in Hle by done. lia.
Qed.
End Pairs.

(** ** Runs *)

Definition ex_setup : Setup := {|
  su_sources := ex_sources;
  su_files := {| isfile _ := false; isdir _ := false; listdir _ := [] |};
  su_dirs := StaticValidator.ex_dirs; su_conf_env := ex_conf_env;
  su_custom_dir := "/z"; su_configs_dir := "/c"; su_resolves _ := true;
  su_translate _ := None; su_state_db := Some (fun _ => ["flw_syndata"])
|}.

Definition fresh (piped : string) : gens := Gens [] piped.

Lemma no_gens : gens_total (fresh EmptyString).
Proof. by intros name g H. Qed.

Example ex_matrix_tcp :
  fst <$> generate_tcp ex_setup ["configs"; "flowseal"; "nosuch"] "d" "fast" 6 "tls12" EmptyString [] None (fresh EmptyString) =
  Some [Item "a" "/c/a.conf" true "tls12";
        Item "flw_multi_seed" (fs ["fake:blob=stun:repeats=6:tcp_ts=-1000"; newline; "fake:blob=stun2:repeats=6:tcp_ts=-1000"]) false "tls12";
        Item "flw_split_seed" "multisplit:pos=1:seqovl=568:seqovl_pattern=stun" false "tls12"].
Proof. vm_compute. reflexivity. Qed.

(** A matrix that is piped in feeds the first list only: the TCP list reads the standard input to its end, so
    the UDP list is empty, and so are the pairs, while the same text in a file gives both. *)
Example piped_matrix_is_read_once :
  (length ∘ fst <$> generate_pairs ex_setup [] [] "d" "fast" 9 9 "-" None (fresh ex_matrix) = Some 0)%nat /\
  (length ∘ fst <$> generate_pairs ex_setup [] [] "d" "fast" 9 9 "/m.txt" None (fresh EmptyString) = Some 1)%nat.
Proof. vm_compute. split; reflexivity. Qed.

Lemma generate_tcp_spec_witness :
  gens_total (fresh EmptyString) /\
  let used := used_sources EmptyString ["configs"; "flowseal"] ["custom"; "configs"; "standard"] in
  exists out st', generate_tcp ex_setup ["configs"; "flowseal"] "d" "fast" 6 "tls12" EmptyString [] None (fresh EmptyString) = Some (out, st') /\
    gens_total st' /\ probed_list 6 None "fast" EmptyString out /\
    forall it, it ∈ out -> comes_from ex_setup (fun _ => "tls12") "d" "fast" (quota 6 used) [] None used st' it.
Proof.
  split; [exact no_gens|].
  exact (generate_tcp_spec ex_setup ["configs"; "flowseal"] "d" "fast" 6 "tls12" EmptyString [] None (fresh EmptyString) no_gens).
Defined.

Lemma lanes_are_kept_witness :
  gens_total (fresh EmptyString) /\
  (exists out st', generate_udp ex_setup ["standard"] "d" "fast" 4 EmptyString None (fresh EmptyString) = Some (out, st') /\
     probed_list 4 None "fast" EmptyString out /\ forall it, it ∈ out -> protocol it ∈ _udp_preserve) /\
  (exists out st', generate_quic ex_setup ["standard"] "d" "fast" 4 EmptyString [] None (fresh EmptyString) = Some (out, st') /\
     probed_list 4 None "fast" EmptyString out /\ forall it, it ∈ out -> protocol it = "quic").
Proof. split; [exact no_gens|]. exact (lanes_are_kept ex_setup ["standard"] "d" "fast" 4 EmptyString [] None (fresh EmptyString) no_gens). Defined.

Lemma generate_pairs_spec_witness :
  gens_total (fresh EmptyString) /\
  exists tcp st1 udp st2 pairs,
    generate_tcp ex_setup ["flowseal"] "d" "fast" 9 "tls12" EmptyString [] None (fresh EmptyString) = Some (tcp, st1) /\
    generate_udp ex_setup [] "d" "fast" 2 EmptyString None st1 = Some (udp, st2) /\
    generate_pairs ex_setup ["flowseal"] [] "d" "fast" 9 2 EmptyString None (fresh EmptyString) = Some (pairs, st2) /\
    pairs ≡ₚ (t ← tcp; u ← udp; [Pair t u]) /\
    forall i j p q, pairs !! i = Some p -> pairs !! j = Some q ->
      label (p_tcp p) ∉ ["flw_syndata"] -> label (p_tcp q) ∈ ["flw_syndata"] -> (j < i)%nat.
Proof.
  split; [exact no_gens|]. exact (generate_pairs_spec ex_setup ["flowseal"] [] "d" "fast" 9 2 EmptyString None (fresh EmptyString) no_gens).
Defined.
