(* ===== verification/PresetPaths.v ===== *)
(** * Preset names and their jail: [engine/preset_paths.py]

    A preset is named by the user or by an MCP client and read from one of two directories. The name is
    reduced to a plain token, the file is looked for in the user's directory and then in the bundled one, and
    what is found has to lie under that directory after every symbolic link is resolved. *)

From stdpp Require Import base numbers list strings sorting.
From Stdlib Require Import ZArith Lia Ascii.
From S2P Require Import Prelude PyStr PyRe BlobAliases Custom.

#[local] Open Scope string_scope.

(** A path, a [PresetPathError] or a [FileNotFoundError]. *)
Inductive preset (A : Type) : Type := Found (a : A) | Refused (msg : string) | Absent (name : string).
Arguments Found {A} _. Arguments Refused {A} _. Arguments Absent {A} _.

Definition RESERVED_DOMAIN_FILES : list string := ["denylist.txt"].

Definition name_char (c : ascii) : bool := is_alnum c || Ascii.eqb c "." || Ascii.eqb c "_" || Ascii.eqb c "-".
Definition _PRESET_NAME_RE : re := Seq (Chr is_alnum) (Seq (RepRange 0 127 (Chr name_char)) Eol).

(** ** Names *)

(** The first of the suffixes that the name has is cut off. *)
Fixpoint strip_suffix (suffixes : list string) (base : string) : string :=
  match suffixes with
  | [] => base
  | suf :: suffixes =>
      if endswith suf base then stake (String.length base - String.length suf) base else strip_suffix suffixes base
  end.

(** [Path(raw).name] of a text without a slash: the path [.] has no name. *)
Definition path_name (raw : string) : string := if String.eqb raw "." then EmptyString else raw.

Definition normalize_preset_name (name : string) (strip_suffixes : list string) : preset string :=
  let raw := strip name in
  if negb (nonempty raw) then Refused "empty preset name"
  else if startswith "/" raw || startswith "~" raw || contains "://" raw
  then Refused ("preset name must not be an absolute path: " +:+ repr_str name)
  else if has_char "/" raw then Refused ("preset name must not contain path components: " +:+ repr_str name)
  else
    let base := path_name raw in
    if negb (String.eqb base (default EmptyString (last (split_char "/" (subst_char "\" "/" raw)))))
    then Refused ("preset name must not contain path components: " +:+ repr_str name)
    else
      let base := strip_suffix strip_suffixes base in
      if negb (nonempty base) || String.eqb base "." || String.eqb base ".." || negb (found (re_match _PRESET_NAME_RE base))
      then Refused ("invalid preset name: " +:+ repr_str name)
      else Found base.

(** ** Files *)

(** The directories, and [Path.resolve]. *)
Record PresetDirs : Type := {
  user_domains : string; bundled_domains : string; user_strategies : string; bundled_strategies : string;
  user_ipset : string; bundled_ipset : string
}.

(** [candidate.relative_to(root)] does not raise. *)
Definition under (root candidate : string) : bool :=
  String.eqb candidate root || startswith (if String.eqb root "/" then root else root +:+ "/") candidate.

Section Presets.
Context {fs : FileSys} (realpath : string -> string) (dirs : PresetDirs).

(** [None] when there is no such file. *)
Definition _resolve_under (root filename : string) : preset (option string) :=
  let root := realpath root in
  let candidate := realpath (join_path root filename) in
  if negb (under root candidate) then Refused ("path escapes preset jail: " +:+ repr_str filename)
  else Found (if isfile candidate then Some candidate else None).

(** The loop over the file names in one directory. *)
Fixpoint hit_in (root : string) (filenames : list string) : preset (option string) :=
  match filenames with
  | [] => Found None
  | f :: filenames =>
      match _resolve_under root f with Found None => hit_in root filenames | r => r end
  end.
(** The loop over the directories; one that is missing is skipped. *)
Fixpoint first_hit (roots filenames : list string) (absent : string) : preset string :=
  match roots with
  | [] => Absent absent
  | root :: roots =>
      if negb (isdir root) then first_hit roots filenames absent
      else match hit_in root filenames with
           | Found (Some p) => Found p
           | Found None => first_hit roots filenames absent
           | Refused msg => Refused msg
           | Absent name => Absent name
           end
  end.

Definition resolve_domain_preset (name : string) : preset string :=
  match normalize_preset_name name [".txt"] with
  | Found base =>
      let filename := base +:+ ".txt" in
      if decide (filename ∈ RESERVED_DOMAIN_FILES) then Refused ("reserved domain preset: " +:+ repr_str base)
      else first_hit [user_domains dirs; bundled_domains dirs] [filename] filename
  | r => r
  end.

Definition _STRATEGY_EXTS : list string := [".tls"; ".txt"; ".http"; ".quic"; ".udp"].
Definition resolve_strategy_preset (name : string) : preset string :=
  match normalize_preset_name name _STRATEGY_EXTS with
  | Found base =>
      first_hit [user_strategies dirs; bundled_strategies dirs] ((fun ext => base +:+ ext) <$> _STRATEGY_EXTS) base
  | r => r
  end.

Definition resolve_ipset_file (name : string) : preset string :=
  match normalize_preset_name name [".txt"] with
  | Found base =>
      let filename := base +:+ ".txt" in first_hit [user_ipset dirs; bundled_ipset dirs] [filename] filename
  | r => r
  end.

(** [sorted(root.glob("*.txt"))] *)
Definition glob_txt (root : string) : list string := py_sorted str_lt (filter (fun n => endswith ".txt" n = true) (listdir root)).

(** The loop body of [iter_ipset_files]: the names seen and the paths so far. *)
Fixpoint overlay (prefix root : string) (names seen : list string) : list string * list string :=
  match names with
  | [] => (seen, [])
  | n :: names =>
      if nonempty prefix && negb (startswith prefix n) then overlay prefix root names seen
      else if decide (n ∈ seen) then overlay prefix root names seen
      else let '(seen, out) := overlay prefix root names (n :: seen) in (seen, join_path root n :: out)
  end.
Definition overlay_dir (prefix root : string) (seen : list string) : list string * list string :=
  if isdir root then overlay prefix root (glob_txt root) seen else (seen, []).
Definition iter_ipset_files (prefix : string) : list string :=
  let '(seen, out) := overlay_dir prefix (user_ipset dirs) [] in
  (out ++ (overlay_dir prefix (bundled_ipset dirs) seen).2)%list.

(** ** The jail *)

Lemma sforall_stake p n s : sforall p s = true -> sforall p (stake n s) = true.
Proof.
  revert n. induction s as [|c s IH]; intros [|n] Hs; try done. cbn [sforall stake] in *.
  apply andb_prop in Hs as [-> Hs]. by rewrite IH.
Qed.

Lemma sforall_strip_suffix p suffixes base : sforall p base = true -> sforall p (strip_suffix suffixes base) = true.
Proof.
  intros Hb. induction suffixes as [|suf l IH]; cbn [strip_suffix]; [done|].
  destruct (endswith suf base); [by apply sforall_stake|done].
Qed.

(** A name that is accepted: one path component that begins with a letter or a digit. *)
Definition safe_name (base : string) : Prop :=
  has_char "/" base = false /\ exists c s, base = String c s /\ is_alnum c = true.

Lemma normalize_safe name suffixes base : normalize_preset_name name suffixes = Found base -> safe_name base.
Proof.
  unfold normalize_preset_name. destruct (negb (nonempty (strip name))); [done|].
  destruct (startswith "/" (strip name) || startswith "~" (strip name) || contains "://" (strip name)); [done|].
  destruct (has_char "/" (strip name)) eqn:Es; [done|]. destruct (negb (String.eqb _ _)); [done|].
  set (b := strip_suffix suffixes (path_name (strip name))). destruct (negb (nonempty b) || _ || _ || _) eqn:E; [done|].
  intros [= <-]. split.
  - unfold has_char in *. apply negb_false_iff in Es. apply negb_false_iff. apply sforall_strip_suffix.
    unfold path_name. destruct (String.eqb (strip name) "."); [reflexivity|exact Es].
  - apply orb_false_iff in E as [_ E]. apply negb_false_iff, re_match_found in E as (q & d & Hd).
    unfold _PRESET_NAME_RE in Hd. apply den_chr_seq in Hd as (c & s & Hr & Hc & _). by exists c, s.
Qed.

(** Where a file comes from that a look-up finds. *)
Definition jailed (root filename p : string) : Prop :=
  isdir root = true /\ p = realpath (join_path (realpath root) filename) /\
  under (realpath root) p = true /\ isfile p = true.

Lemma hit_jailed root filenames p : isdir root = true ->
  hit_in root filenames = Found (Some p) -> exists f, f ∈ filenames /\ jailed root f p.
Proof.
  intros Hd. induction filenames as [|f l IH]; cbn [hit_in]; [done|]. unfold _resolve_under.
  destruct (negb (under _ _)) eqn:Eu; [done|]. destruct (isfile _) eqn:Ef.
  - intros [= <-]. exists f. split; [by left|]. apply negb_false_iff in Eu. done.
  - intros (g & Hg & H)%IH. exists g. split; [by right|done].
Qed.

Lemma first_hit_jailed roots filenames absent p :
  first_hit roots filenames absent = Found p -> exists root f, root ∈ roots /\ f ∈ filenames /\ jailed root f p.
Proof.
  induction roots as [|root roots IH]; cbn [first_hit]; [done|]. destruct (isdir root) eqn:Ed; cbn [negb].
  - destruct (hit_in root filenames) as [[q|]| |] eqn:E; try done.
    + intros [= <-]. apply hit_jailed in E as (f & Hf & Hj); [|done]. exists root, f. split; [by left|done].
    + intros (r & f & Hr & H)%IH. exists r, f. split; [by right|done].
  - intros (r & f & Hr & H)%IH. exists r, f. split; [by right|done].
Qed.

(** C32. Whatever name a user or a client gives, a preset that is found is a file that lies, after its links are
    resolved, under one of the two directories of its kind, and is looked up there by one path component that
    begins with a letter or a digit; the deny list is never a domain preset. *)
Theorem presets_are_jailed name p :
  (resolve_domain_preset name = Found p -> exists root base, root ∈ [user_domains dirs; bundled_domains dirs] /\
     safe_name base /\ base +:+ ".txt" ∉ RESERVED_DOMAIN_FILES /\ jailed root (base +:+ ".txt") p) /\
  (resolve_strategy_preset name = Found p -> exists root base ext, root ∈ [user_strategies dirs; bundled_strategies dirs] /\
     safe_name base /\ ext ∈ _STRATEGY_EXTS /\ jailed root (base +:+ ext) p) /\
  (resolve_ipset_file name = Found p -> exists root base, root ∈ [user_ipset dirs; bundled_ipset dirs] /\
     safe_name base /\ jailed root (base +:+ ".txt") p).
Proof.
  unfold resolve_domain_preset, resolve_strategy_preset, resolve_ipset_file. split; [|split].
  - destruct (normalize_preset_name name [".txt"]) as [base| |] eqn:E; [|done..]. apply normalize_safe in E.
    destruct (decide _) as [|Hn]; [done|]. intros (root & f & Hr & ->%list_elem_of_singleton & Hj)%first_hit_jailed.
    by exists root, base.
  - destruct (normalize_preset_name name _STRATEGY_EXTS) as [base| |] eqn:E; [|done..]. apply normalize_safe in E.
    intros (root & f & Hr & (ext & -> & He)%list_elem_of_fmap & Hj)%first_hit_jailed. by exists root, base, ext.
  - destruct (normalize_preset_name name [".txt"]) as [base| |] eqn:E; [|done..]. apply normalize_safe in E.
    intros (root & f & Hr & ->%list_elem_of_singleton & Hj)%first_hit_jailed. by exists root, base.
Qed.
End Presets.

(** ** Runs *)

(** A file system with one user preset, a bundled one, and a link out of the user's directory. *)
Definition ex_preset_fs : FileSys := {|
  isfile p := bool_decide (p ∈ ["/b/domains/coverage.txt"; "/u/domains/mine.txt"; "/etc/passwd"]);
  isdir p := bool_decide (p ∈ ["/b/domains"; "/u/domains"; "/b/ipset"]);
  listdir p := if String.eqb p "/b/ipset" then ["sinkhole.txt"; "cdn-b.txt"; "cdn-a.txt"; "README"] else []
|}.
Definition ex_realpath (p : string) : string := if String.eqb p "/u/domains/evil.txt" then "/etc/passwd" else p.
Definition ex_preset_dirs : PresetDirs := {|
  user_domains := "/u/domains"; bundled_domains := "/b/domains"; user_strategies := "/u/strategies";
  bundled_strategies := "/b/strategies"; user_ipset := "/u/ipset"; bundled_ipset := "/b/ipset"
|}.

Example ex_presets :
  let resolve := @resolve_domain_preset ex_preset_fs ex_realpath ex_preset_dirs in
  resolve " coverage.txt " = Found "/b/domains/coverage.txt" /\ resolve "mine" = Found "/u/domains/mine.txt" /\
  resolve "../../etc/passwd" = Refused "preset name must not contain path components: '../../etc/passwd'" /\
  resolve "evil" = Refused "path escapes preset jail: 'evil.txt'" /\ resolve "denylist" = Refused "reserved domain preset: 'denylist'" /\
  resolve "nosuch" = Absent "nosuch.txt" /\ @iter_ipset_files ex_preset_fs ex_preset_dirs "cdn-" = ["/b/ipset/cdn-a.txt"; "/b/ipset/cdn-b.txt"].
Proof. vm_compute. repeat split. Qed.

Lemma presets_are_jailed_witness :
  @resolve_domain_preset ex_preset_fs ex_realpath ex_preset_dirs "coverage" = Found "/b/domains/coverage.txt" /\
  exists root base, root ∈ ["/u/domains"; "/b/domains"] /\ safe_name base /\ base +:+ ".txt" ∉ RESERVED_DOMAIN_FILES /\
    @jailed ex_preset_fs ex_realpath root (base +:+ ".txt") "/b/domains/coverage.txt".
Proof.
  assert (E : @resolve_domain_preset ex_preset_fs ex_realpath ex_preset_dirs "coverage" = Found "/b/domains/coverage.txt")
    by (vm_compute; reflexivity).
  split; [exact E|].
  exact (proj1 (@presets_are_jailed ex_preset_fs ex_realpath ex_preset_dirs "coverage" "/b/domains/coverage.txt") E).
Defined.
