(* ===== verification/IpsetCatalog.v ===== *)
(** * Catalogs of networks: [engine/ipset_catalog.py]

    The sinkhole, CGNAT, CDN and expected networks and the fallback endpoints, each read from a preset file with
    a built-in replacement. A definition is one load: the caches of the module keep its result until they are
    cleared. The section [ipset] of [config.toml] is its parsed value. *)

From stdpp Require Import base numbers list strings.
From Stdlib Require Import ZArith Lia Ascii.
From S2P Require Import Prelude PyStr PyRe PyDict PyJson PyIp BlobAliases GenHelpers Custom PresetPaths.

#[local] Open Scope string_scope.

Definition _FALLBACK_KEY_RE : re := seqs [Chr (fun c => is_upper c || is_lower c); Star (Chr is_word); Eol].

Definition _BAKED_SINKHOLE : list string :=
  ["0.0.0.0/8"; "127.0.0.0/8"; "169.254.0.0/16"; "192.0.2.0/24"; "198.18.0.0/15"; "198.51.100.0/24"; "203.0.113.0/24";
   "240.0.0.0/4"; "10.0.0.0/8"; "172.16.0.0/12"; "192.168.0.0/16"; "::1/128"; "::/128"; "2001:db8::/32"; "fc00::/7"].
Definition _BAKED_CGNAT : list string := ["100.64.0.0/10"].

Record FallbackEndpoint : Type := Endpoint { ip : string; port : option Z }.
Definition _BAKED_FALLBACKS : list (string * FallbackEndpoint) :=
  [("voice", Endpoint "35.217.5.42" (Some 50006%Z)); ("voice_preflight", Endpoint "35.217.42.214" (Some 50004%Z));
   ("ggc", Endpoint "64.233.161.198" None)].
Definition _CDN_DEFAULTS : list string :=
  ["cdn-cloudflare.txt"; "cdn-google.txt"; "cdn-fastly.txt"; "cdn-akamai.txt"; "cdn-amazon.txt"; "cdn-discord.txt"].

(** ** Tokens *)

Definition line_text (raw_line : string) : string := strip (before "#" raw_line).
Definition lines_of (raw : string) : list string := filter (fun l => nonempty l = true) (line_text <$> splitlines raw).
Definition tokens (line : string) : list string := split_ws (subst_char "," " " line).

Definition _parse_network (token : string) : option net := ip_network token.

(** The networks of some tokens, each once: the key is the text of the network. *)
Fixpoint nets_of_tokens (seen toks : list string) : list net :=
  match toks with
  | [] => []
  | t :: toks =>
      match _parse_network t with
      | None => nets_of_tokens seen toks
      | Some n => if decide (net_str n ∈ seen) then nets_of_tokens seen toks else n :: nets_of_tokens (net_str n :: seen) toks
      end
  end.
Definition _nets_from_tokens (toks : list string) : list net := omap ip_network toks.

(** [str.rpartition(":")]: what is before and after the last colon. *)
Definition rpartition_colon (s : string) : string * string :=
  let parts := split_char ":" s in
  (join ":" (take (length parts - 1) parts), default EmptyString (last parts)).

Definition _parse_endpoint (value : string) : option FallbackEndpoint :=
  let '(host, port_s) := rpartition_colon value in
  if nonempty host && isdigit port_s then
    _ ← ip_address host; Some (Endpoint host (Some (digits_val 0 port_s)))
  else match ip_address value with
       | Some _ => Some (Endpoint value None)
       | None => n ← _parse_network value; Some (Endpoint (addr_str (net_addr n)) None)
       end.

(** [ip.strip() in nets] *)
Definition ip_in_nets (ip : string) (nets : list net) : bool :=
  match ip_address (strip ip) with Some a => existsb (in_net a) nets | None => false end.

(** [Path(s).stem] *)
Definition path_stem (s : string) : string :=
  let name := default EmptyString (last (filter (fun p => nonempty p && negb (String.eqb p ".") = true) (split_char "/" s))) in
  let parts := split_char "." name in
  let head := join "." (take (length parts - 1) parts) in
  if (1 <? length parts)%nat && nonempty head && nonempty (default EmptyString (last parts)) then head else name.

Definition removesuffix (suf s : string) : string :=
  if endswith suf s then stake (String.length s - String.length suf) s else s.
Definition removeprefix (pre s : string) : string := if startswith pre s then sdrop (String.length pre) s else s.

(** ** Catalogs *)

Section Catalog.
Context (src : Sources) {fs : FileSys} (realpath : string -> string) (dirs : PresetDirs).
(** [_ipset_toml()] *)
Context (toml : list (string * json)).

Definition file_lines (path : string) : list string :=
  match read_text src path with Some raw => lines_of raw | None => [] end.
Definition _nets_from_path (path : string) : list net := nets_of_tokens [] (line ← file_lines path; tokens line).

Definition _resolve (name : string) : option string :=
  let name := match dget name toml with
              | Some (JStr s) => if nonempty (strip s) then path_stem (strip s) else name
              | _ => name
              end in
  match resolve_ipset_file realpath dirs name with Found p => Some p | _ => None end.

Definition nets_or (name : string) (baked : list string) : list net :=
  match _resolve name with
  | None => _nets_from_tokens baked
  | Some path => match _nets_from_path path with [] => _nets_from_tokens baked | nets => nets end
  end.
Definition sinkhole_nets : list net := nets_or "sinkhole" _BAKED_SINKHOLE.
Definition cgnat_nets : list net := nets_or "cgnat" _BAKED_CGNAT.

(** The items of the setting [cdn] are texts here; [str] of another TOML value is not modelled. *)
Definition _settings_cdn_files : list string :=
  match dget "cdn" toml with
  | Some (JList l) =>
      item ← l;
      match item with
      | JStr s => let text := strip s in
                  if negb (nonempty text) then [] else [if endswith ".txt" text then text else text +:+ ".txt"]
      | _ => []
      end
  | _ => []
  end.
Definition file_name (path : string) : string := default EmptyString (last (split_char "/" path)).
Definition _cdn_filenames : list string :=
  match _settings_cdn_files with
  | [] => match file_name <$> iter_ipset_files dirs "cdn-" with [] => _CDN_DEFAULTS | l => l end
  | extra => extra
  end.
Definition cdn_family_of (filename : string) : list (string * list net) :=
  let stem := removesuffix ".txt" filename in
  match _resolve stem with
  | None => []
  | Some path => match _nets_from_path path with [] => [] | nets => [(removeprefix "cdn-" stem, nets)] end
  end.
Definition cdn_families : list (string * list net) := filename ← _cdn_filenames; cdn_family_of filename.

Definition cdn_family (ip : string) : option string :=
  match ip_address (strip ip) with
  | None => None
  | Some a => fst <$> head (filter (fun f => existsb (in_net a) f.2 = true) cdn_families)
  end.

(** [expect_families]: the networks of a domain, with the keys seen so far. *)
Definition expect_step (grouped : list (string * list net)) (line : string) : list (string * list net) :=
  match tokens line with
  | t :: ((_ :: _) as rest) =>
      if has_char "." t then
        let domain := lower t in
        let bucket := default [] (dget domain grouped) in
        dset domain (bucket ++ nets_of_tokens (net_str <$> bucket) rest)%list grouped
      else grouped
  | _ => grouped
  end.
Definition expect_families : list (string * list net) :=
  match _resolve "expect" with
  | None => []
  | Some path => filter (fun kv => kv.2 <> []) (foldl expect_step [] (file_lines path))
  end.

Definition fallback_step (parsed : list (string * FallbackEndpoint)) (line : string) : list (string * FallbackEndpoint) :=
  match split_ws line with
  | key :: value :: _ =>
      if found (re_match _FALLBACK_KEY_RE key) then
        match _parse_endpoint value with Some ep => dset key ep parsed | None => parsed end
      else parsed
  | _ => parsed
  end.
(** [{**baked, **parsed}] *)
Definition dict_union (a b : list (string * FallbackEndpoint)) : list (string * FallbackEndpoint) :=
  foldl (fun d kv => dset kv.1 kv.2 d) a b.
Definition fallbacks : list (string * FallbackEndpoint) :=
  match _resolve "fallbacks" with
  | None => _BAKED_FALLBACKS
  | Some path =>
      match foldl fallback_step [] (file_lines path) with
      | [] => _BAKED_FALLBACKS
      | parsed => dict_union _BAKED_FALLBACKS parsed
      end
  end.
(** [None] is the [KeyError]. *)
Definition fallback_endpoint (name : string) : option FallbackEndpoint :=
  match dget name fallbacks with Some ep => Some ep | None => dget name _BAKED_FALLBACKS end.
End Catalog.

(** ** What the catalogs hold *)

Lemma nets_of_tokens_spec toks : forall seen,
  NoDup (net_str <$> nets_of_tokens seen toks) /\
  (forall n, n ∈ nets_of_tokens seen toks -> net_str n ∉ seen /\ exists t, t ∈ toks /\ ip_network t = Some n) /\
  (forall t n, t ∈ toks -> ip_network t = Some n -> net_str n ∈ seen \/ net_str n ∈ net_str <$> nets_of_tokens seen toks).
Proof.
  induction toks as [|t toks IH]; intros seen; cbn [nets_of_tokens].
  { split; [constructor|]. split; [by intros n ?%elem_of_nil|by intros t n ?%elem_of_nil]. }
  unfold _parse_network. destruct (ip_network t) as [n|] eqn:Et; [destruct (decide (net_str n ∈ seen)) as [Hs|Hs]|].
  - destruct (IH seen) as (H1 & H2 & H3). split; [done|]. split.
    + intros m Hm. destruct (H2 m Hm) as (Hk & t' & Ht & E). split; [done|]. exists t'. split; [by right|done].
    + intros t' m [->|Ht]%elem_of_cons E; [|by apply (H3 t')]. left. congruence.
  - destruct (IH (net_str n :: seen)) as (H1 & H2 & H3). split; [|split].
    + rewrite fmap_cons. constructor; [|done]. intros (m & E & Hm)%list_elem_of_fmap.
      destruct (H2 m Hm) as [Hk _]. apply Hk. rewrite <- E. by left.
    + intros m [->|Hm]%elem_of_cons; [split; [done|]; exists t; split; [by left|done]|].
      destruct (H2 m Hm) as (Hk & t' & Ht & E). split; [intros ?; apply Hk; by right|]. exists t'. split; [by right|done].
    + intros t' m [->|Ht]%elem_of_cons E.
      * right. assert (m = n) as -> by congruence. rewrite fmap_cons. by left.
      * destruct (H3 t' m Ht E) as [[->|?]%elem_of_cons|?]; [right; rewrite fmap_cons; by left|by left|right].
        rewrite fmap_cons. by right.
  - destruct (IH seen) as (H1 & H2 & H3). split; [done|]. split.
    + intros m Hm. destruct (H2 m Hm) as (Hk & t' & Ht & E). split; [done|]. exists t'. split; [by right|done].
    + intros t' m [->|Ht]%elem_of_cons E; [congruence|by apply (H3 t')].
Qed.

Section Facts.
Context (src : Sources) {fs : FileSys} (realpath : string -> string) (dirs : PresetDirs) (toml : list (string * json)).

(** The networks that a catalog file names. *)
Definition named_in (path : string) (n : net) : Prop :=
  exists line t, line ∈ file_lines src path /\ t ∈ tokens line /\ ip_network t = Some n.

Lemma nets_from_path_spec path :
  NoDup (net_str <$> _nets_from_path src path) /\
  (forall n, n ∈ _nets_from_path src path -> named_in path n) /\
  (forall n, named_in path n -> net_str n ∈ net_str <$> _nets_from_path src path).
Proof.
  destruct (nets_of_tokens_spec (line ← file_lines src path; tokens line) []) as (H1 & H2 & H3). split; [done|]. split.
  - intros n Hn. destruct (H2 n Hn) as (_ & t & (line & Ht & Hl)%list_elem_of_bind & E). by exists line, t.
  - intros n (line & t & Hl & Ht & E). destruct (H3 t n) as [?%elem_of_nil|?]; [|done..|done].
    apply list_elem_of_bind. by exists line.
Qed.

Lemma nets_or_ne name baked :
  _nets_from_tokens baked <> [] -> nets_or src realpath dirs toml name baked <> [].
Proof.
  intros Hb. unfold nets_or. destruct (_resolve realpath dirs toml name) as [path|]; [|done].
  by destruct (_nets_from_path src path).
Qed.

Lemma fallback_defined name : name ∈ keys _BAKED_FALLBACKS -> is_Some (fallback_endpoint src realpath dirs toml name).
Proof.
  intros [ep E]%elem_of_keys. unfold fallback_endpoint. destruct (dget name (fallbacks _ _ _ _)); [by eexists|]. rewrite E. by eexists.
Qed.

(** The catalogs can always be used: whatever is in the preset directories, the files and the settings, the
    sinkhole and CGNAT lists are not empty, a CDN family that is listed has networks, and the endpoints the
    program falls back on exist. A catalog file gives exactly the networks it names, each once. *)
Theorem catalogs_usable :
  sinkhole_nets src realpath dirs toml <> [] /\ cgnat_nets src realpath dirs toml <> [] /\
  (forall family nets, (family, nets) ∈ cdn_families src realpath dirs toml -> nets <> []) /\
  (forall name, name ∈ ["voice"; "voice_preflight"; "ggc"] -> is_Some (fallback_endpoint src realpath dirs toml name)) /\
  (forall path, NoDup (net_str <$> _nets_from_path src path) /\
     (forall n, n ∈ _nets_from_path src path -> named_in path n) /\
     (forall n, named_in path n -> net_str n ∈ net_str <$> _nets_from_path src path)).
Proof.
  split; [apply nets_or_ne; by vm_compute|]. split; [apply nets_or_ne; by vm_compute|]. split; [|split].
  - intros family nets (filename & Hf & _)%list_elem_of_bind. unfold cdn_family_of in Hf.
    destruct (_resolve _ _ _ _) as [path|]; [|by apply elem_of_nil in Hf].
    destruct (_nets_from_path src path) as [|n l]; [by apply elem_of_nil in Hf|].
    apply list_elem_of_singleton in Hf. by injection Hf as _ ->.
  - intros name Hn. by apply fallback_defined.
  - apply nets_from_path_spec.
Qed.
End Facts.

(** ** Runs *)

Definition ex_catalog_fs : FileSys := {|
  isfile p := bool_decide (p ∈ ["/b/ipset/cdn-a.txt"; "/b/ipset/fallbacks.txt"; "/b/ipset/expect.txt"]);
  isdir p := bool_decide (p ∈ ["/b/ipset"]); listdir p := ["cdn-a.txt"; "fallbacks.txt"; "expect.txt"]
|}.
Definition ex_catalog_src : Sources := {|
  read_text p :=
    if String.eqb p "/b/ipset/cdn-a.txt" then Some ("1.1.1.1/24, 1.1.1.0/24 # same" +:+ newline +:+ "junk 2606:4700::/32")
    else if String.eqb p "/b/ipset/fallbacks.txt" then Some ("voice 9.9.9.9:443" +:+ newline +:+ "ggc 10.0.0.7/8" +:+ newline +:+ "3x 1.1.1.1")
    else if String.eqb p "/b/ipset/expect.txt" then Some ("Example.ORG 8.8.8.0/24 8.8.8.1/24" +:+ newline +:+ "example.org 9.0.0.0/8")
    else None;
  listdir_of _ := None
|}.

Definition shown (f : string * list net) : string * list string := (f.1, net_str <$> f.2).

Example ex_catalog :
  let fams := @cdn_families ex_catalog_src ex_catalog_fs (fun p => p) ex_preset_dirs [] in
  (shown <$> fams = [("a", ["1.1.1.0/24"; "2606:4700::/32"])]) /\
  @cdn_family ex_catalog_src ex_catalog_fs (fun p => p) ex_preset_dirs [] " 1.1.1.77 " = Some "a" /\
  @fallbacks ex_catalog_src ex_catalog_fs (fun p => p) ex_preset_dirs [] =
    [("voice", Endpoint "9.9.9.9" (Some 443%Z)); ("voice_preflight", Endpoint "35.217.42.214" (Some 50004%Z));
     ("ggc", Endpoint "10.0.0.0" None)] /\
  shown <$> @expect_families ex_catalog_src ex_catalog_fs (fun p => p) ex_preset_dirs [] =
    [("example.org", ["8.8.8.0/24"; "9.0.0.0/8"])] /\
  (forall x, x ∈ ["127.0.0.1"; "0.0.0.0"; "10.11.12.13"; "192.168.1.1"; "::1"; "fd00::1"] ->
     ip_in_nets x (@sinkhole_nets ex_catalog_src ex_catalog_fs (fun p => p) ex_preset_dirs []) = true) /\
  ip_in_nets "8.8.8.8" (@sinkhole_nets ex_catalog_src ex_catalog_fs (fun p => p) ex_preset_dirs []) = false.
Proof.
  cbv zeta. split; [vm_compute; reflexivity|]. split; [vm_compute; reflexivity|]. split; [vm_compute; reflexivity|].
  split; [vm_compute; reflexivity|]. split; [|vm_compute; reflexivity].
  apply Forall_forall. repeat (constructor; [vm_compute; reflexivity|]). constructor.
Qed.
