(* ===== verification/Domains.v ===== *)
(** * Domain lists and IP pins: [engine/domain_loader.py], [checkers/ip_pin.py]

    Which names are probed: the canonical form of a host name, preset files, the deny list. And the hosts file
    of pinned addresses. Files are decoded texts; log lines are left out. *)

From stdpp Require Import base numbers list sets gmap strings sorting.
From Stdlib Require Import ZArith Lia Ascii.
From S2P Require Import Prelude PyStr PyRe PyDict PyIp Quarantine GenHelpers Custom.

#[local] Open Scope string_scope.

(** ** Host names *)

Definition host_edge (c : ascii) : bool := is_lower c || is_digit c.
Definition host_char (c : ascii) : bool := host_edge c || Ascii.eqb c "-".
(** One label: [[a-z0-9]([a-z0-9-]{0,61}[a-z0-9])?] *)
Definition label_re : re := Seq (Chr host_edge) (Opt (Seq (RepRange 0 61 (Chr host_char)) (Chr host_edge))).
Definition _FQDN_RE : re := Seq (Seq label_re (Plus (Seq (Chr (Ascii.eqb ".")) label_re))) Eol.

Definition _is_literal_ip (token : string) : bool := match ip_address token with Some _ => true | None => false end.

(** The name with nothing or with a note, or nothing with the reason. *)
Definition canonicalize_probe_domain (raw : string) : option string * option string :=
  let s := strip raw in
  if negb (nonempty s) then (None, Some "empty")
  else if contains "://" s || has_char "*" s || negb (sforall (fun c => negb (is_space c)) s)
  then (None, Some ("not a hostname (" +:+ repr_str raw +:+ ")"))
  else if _is_literal_ip s then (None, Some ("IP address " +:+ s))
  else
    let s := if endswith "/" s then rstrip_by (Ascii.eqb "/") s else s in
    let folded := rstrip_by (Ascii.eqb ".") (lower s) in
    if negb (found (re_match _FQDN_RE folded)) then (None, Some ("not an FQDN (" +:+ repr_str raw +:+ ")"))
    else (Some folded,
          if String.eqb folded (strip raw) then None else Some ("normalized " +:+ repr_str raw +:+ " → " +:+ folded)).

Fixpoint filter_from (seen domains : list string) : list string :=
  match domains with
  | [] => []
  | raw :: domains =>
      match (canonicalize_probe_domain raw).1 with
      | None => filter_from seen domains
      | Some fqdn => if decide (fqdn ∈ seen) then filter_from seen domains else fqdn :: filter_from (fqdn :: seen) domains
      end
  end.
Definition filter_probe_domains (domains : list string) : list string := filter_from [] domains.

(** The environment after the call. *)
Definition auto_enable_gv_ggc (domains : list string) (environ : list (string * string)) : list (string * string) :=
  if negb (existsb (fun d => contains "googlevideo" (lower d)) domains) then environ
  else if decide (lower (strip (dget_default "BLOCKCHECKS_GV_GGC" EmptyString environ)) ∈ ["0"; "false"; "off"; "no"]) then environ
  else setdefault "BLOCKCHECKS_GV_GGC" "1" environ.

(** ** Preset files and the deny list *)

Record DenylistEntry : Type := Denied { d_domain : string; category : string }.
Record DomainLoadResult : Type := Loaded {
  l_domains : list string; l_source : string; l_skipped : list DenylistEntry; denylist_applied : bool
}.

Definition domain_line (line : string) : list string :=
  let line := strip line in
  if negb (nonempty line) || startswith "#" line then []
  else let dom := strip (before "#" line) in if nonempty dom then [dom] else [].
Definition read_domain_lines (text : string) : list string := line ← text_lines text; domain_line line.

(** [raw.split("#", 1)[1]]: what follows the first [#]. *)
Definition after_hash (raw : string) : string := default EmptyString (after_first "#" raw).

Definition denylist_line (raw : string) : list DenylistEntry :=
  let raw := strip raw in
  if negb (nonempty raw) || startswith "#" raw then []
  else
    let '(domain, category) :=
      if has_char "#" raw then (lower (strip (before "#" raw)), strip (after_hash raw)) else (lower raw, EmptyString) in
    if nonempty domain then [Denied domain category] else [].
(** [None] is a file that does not exist. *)
Definition _parse_denylist_file (text : option string) : list DenylistEntry :=
  match text with None => [] | Some text => raw ← text_lines text; denylist_line raw end.

Definition merge_entries (l : list DenylistEntry) (merged : list (string * DenylistEntry)) : list (string * DenylistEntry) :=
  foldl (fun d e => dset (d_domain e) e d) merged l.
(** The bundled list with the user's entries over it. *)
Definition load_denylist (bundled user : option string) : list DenylistEntry :=
  values (merge_entries (_parse_denylist_file user) (merge_entries (_parse_denylist_file bundled) [])).

(** [dom.lower().split("/")[0]] *)
Definition deny_key (dom : string) : string := before "/" (lower dom).

Fixpoint split_denied (deny_map : list (string * DenylistEntry)) (domains : list string) : list string * list DenylistEntry :=
  match domains with
  | [] => ([], [])
  | dom :: domains =>
      let '(kept, skipped) := split_denied deny_map domains in
      match dget (deny_key dom) deny_map with
      | Some e => (kept, e :: skipped)
      | None => (dom :: kept, skipped)
      end
  end.
Definition apply_denylist (domains : list string) (denylist : list DenylistEntry) (allow_unsafe : bool)
    : list string * list DenylistEntry :=
  if allow_unsafe || bool_decide (domains = []) || bool_decide (denylist = []) then (domains, [])
  else split_denied (merge_entries denylist []) domains.

(** [None] is the [FileNotFoundError]; the deny list is the given file, or the bundled and the user's one. *)
Definition load_domains (path : string) (text : option string) (allow_unsafe : bool) (denylist : list DenylistEntry)
    : option DomainLoadResult :=
  text ← text;
  let '(domains, skipped) := apply_denylist (read_domain_lines text) denylist allow_unsafe in
  Some (Loaded domains path skipped (negb allow_unsafe && negb (bool_decide (skipped = [])))).

Definition skip_part (e : DenylistEntry) : string :=
  if nonempty (category e) then d_domain e +:+ " (" +:+ category e +:+ ")" else d_domain e.
Definition format_skip_summary (skipped : list DenylistEntry) (max_show : Z) : string :=
  if bool_decide (skipped = []) then EmptyString else
  let extra := (Z.of_nat (length skipped) - max_show)%Z in
  "skipped " +:+ str_of_Z (Z.of_nat (length skipped)) +:+ ": " +:+ join ", " (skip_part <$> first_n max_show skipped)
  +:+ (if (0 <? extra)%Z then ", +" +:+ str_of_Z extra +:+ " more" else EmptyString).

(** The counts of a domain are [domain_pass_stats] of the store: all results and those that passed. *)
Definition warn_zero_pass_domains (stats : string -> Z * Z) (domains : list string) (min_results : Z) : list string :=
  if (min_results <=? 0)%Z then []
  else filter (fun d => (min_results <= (stats d).1)%Z /\ (stats d).2 = 0%Z) domains.

(** ** IP pins *)

Definition _HEADERS : list string :=
  ["# Generated by blockcheckS — verified DoH records (anti-hijack).";
   "# Copy to C:\Windows\System32\drivers\etc\hosts on Windows.";
   "# Auto-refreshed by blockcheckS IP pinning; hand-editable."].

(** [_is_ip] of both modules is the same function. *)
Definition pin_of_line (raw : string) : option (string * string) :=
  let line := strip raw in
  if negb (nonempty line) || startswith "#" line then None
  else match split_ws line with
       | a :: b :: _ => if _is_literal_ip a then Some (b, a) else if _is_literal_ip b then Some (a, b) else None
       | _ => None
       end.
Definition pin_step (pins : list (string * string)) (raw : string) : list (string * string) :=
  match pin_of_line raw with Some (domain, ip) => dset domain ip pins | None => pins end.
Definition parse_pins (text : string) : list (string * string) := foldl pin_step [] (splitlines text).
Definition load_pins (text : option string) : list (string * string) :=
  match text with Some text => parse_pins text | None => [] end.

Definition tab : string := String (ascii_of_N 9) EmptyString.
Definition pin_line (pins : list (string * string)) (domain : string) : string :=
  dget_default domain EmptyString pins +:+ tab +:+ domain.
Definition dump_pins (pins : list (string * string)) : string :=
  join newline (_HEADERS ++ (pin_line pins <$> py_sorted str_lt (keys pins)))%list +:+ newline.

Definition merge_pins (current updates : list (string * string)) : list (string * string) :=
  foldl (fun d kv => if nonempty kv.2 then dset kv.1 kv.2 d else d) current updates.
Definition pin_domains (pins : list (string * string)) (domains : list string) : list string :=
  filter (fun d => d ∈ domains) (keys pins).

Example ex_canonical :
  canonicalize_probe_domain " WWW.Example.com./ " = (Some "www.example.com", Some "normalized ' WWW.Example.com./ ' → www.example.com") /\
  canonicalize_probe_domain "a.b" = (Some "a.b", None) /\ canonicalize_probe_domain "localhost" = (None, Some "not an FQDN ('localhost')") /\
  canonicalize_probe_domain "https://x.y" = (None, Some "not a hostname ('https://x.y')") /\
  canonicalize_probe_domain "1.2.3.4" = (None, Some "IP address 1.2.3.4") /\
  canonicalize_probe_domain "-a.b" = (None, Some "not an FQDN ('-a.b')").
Proof. vm_compute. repeat split. Qed.

(** An address with a slash or a dot after it is taken for a host name. *)
Example address_becomes_name : canonicalize_probe_domain "1.2.3.4/" = (Some "1.2.3.4", Some "normalized '1.2.3.4/' → 1.2.3.4").
Proof. vm_compute. reflexivity. Qed.

(** ** The names that are accepted *)

Definition first_is (f : ascii -> bool) (w : string) : bool := match w with String a _ => f a | EmptyString => false end.
Fixpoint last_is (f : ascii -> bool) (w : string) : bool :=
  match w with EmptyString => false | String a EmptyString => f a | String _ w => last_is f w end.

Lemma last_is_snoc f w a : last_is f (w +:+ String a EmptyString) = f a.
Proof.
  induction w as [|b w IH]; [done|]. rewrite append_cons. cbn [last_is]. rewrite IH.
  destruct w as [|c w]; [done|]. by rewrite append_cons.
Qed.

(** A label of a host name, and a fully qualified name in lower case. *)
Definition is_label (w : string) : Prop :=
  String.length w <= 63 /\ sforall host_char w = true /\ first_is host_edge w = true /\ last_is host_edge w = true.
Definition is_fqdn (s : string) : Prop := exists l, 2 <= length l /\ Forall is_label l /\ s = join "." l.

Lemma edge_char a : host_edge a = true -> host_char a = true.
Proof. unfold host_char. by intros ->. Qed.

Lemma lang_label : lang label_re is_label.
Proof.
  eapply lang_iff.
  { apply lang_seq; [apply lang_chr|]. apply lang_opt, lang_seq; [apply lang_range; lia|apply lang_chr]. }
  intros w. split.
  - intros (u & v & -> & (a & -> & Ha) & [(m & z & -> & [[_ Hm] Fm] & b & -> & Hb)| ->]); rewrite append_cons, append_nil_l.
    + unfold is_label. cbn [String.length sforall first_is]. rewrite sforall_append, length_append, Fm, (edge_char a Ha).
      cbn [sforall String.length]. rewrite (edge_char b Hb). split; [lia|]. split; [done|]. split; [done|].
      change (last_is host_edge (String a m +:+ String b EmptyString) = true). by rewrite last_is_snoc.
    + unfold is_label. cbn. rewrite (edge_char a Ha), Ha. split; [lia|done].
  - destruct w as [|a w]; [by intros (_ & _ & ? & _)|]. intros (Hn & Hw & Ha & Hl). cbn [first_is] in Ha.
    exists (String a EmptyString), w. split; [done|]. split; [by exists a|].
    destruct w as [|b w]; [by right|]. left. destruct (string_last (String b w) eq_refl) as (m & z & E). rewrite E in *.
    change (String a (m +:+ String z EmptyString)) with (String a m +:+ String z EmptyString) in Hn, Hw, Hl.
    rewrite last_is_snoc in Hl. rewrite length_append in Hn. rewrite sforall_append in Hw. cbn [String.length] in Hn.
    apply andb_prop in Hw as [[_ Hm]%andb_prop _]. exists m, (String z EmptyString). split; [done|].
    split; [split; [lia|done]|by exists z].
Qed.

Definition dotted (w : string) : Prop := exists v, w = "." +:+ v /\ is_label v.

Lemma lang_dotted : lang (Seq (Chr (Ascii.eqb ".")) label_re) dotted.
Proof.
  eapply lang_iff; [apply lang_seq; [apply lang_chr|apply lang_label]|]. intros w. split.
  - intros (u & v & -> & (a & -> & <-%Ascii.eqb_eq) & Hv). by exists v.
  - intros (v & -> & Hv). exists ".", v. split; [done|]. split; [by exists "."%char|done].
Qed.

Lemma join_sconcat u l :
  u +:+ sconcat ((fun v => "." +:+ v) <$> l) = join "." (u :: l).
Proof.
  revert u. induction l as [|v l IH]; intros u; [apply append_nil_r|].
  rewrite fmap_cons. change (sconcat (("." +:+ v) :: ((fun v => "." +:+ v) <$> l)))
    with (("." +:+ v) +:+ sconcat ((fun v => "." +:+ v) <$> l)).
  rewrite append_assoc, IH. done.
Qed.

Lemma dotted_list l : Forall dotted l <-> exists k, l = (fun v => "." +:+ v) <$> k /\ Forall is_label k.
Proof.
  split.
  - induction 1 as [|w l (v & -> & Hv) _ (k & -> & Hk)]; [by exists []|]. exists (v :: k). split; [done|by constructor].
  - intros (k & -> & Hk). apply Forall_fmap. eapply Forall_impl; [exact Hk|]. intros v Hv. by exists v.
Qed.

(** The pattern accepts exactly those names, up to a final line break. *)
Lemma fqdn_re_spec s :
  found (re_match _FQDN_RE s) = true <-> exists w, is_fqdn w /\ (s = w \/ s = w +:+ String "010" EmptyString).
Proof.
  apply match_to_end. eapply lang_iff.
  { apply lang_seq; [apply lang_label|]. apply lang_plus; [apply lang_dotted|]. by intros w (v & -> & _). }
  intros w. split.
  - intros (u & v & -> & Hu & l & Hne & -> & (k & -> & Hk)%dotted_list). exists (u :: k). split.
    { destruct k; [done|]. cbn. lia. }
    split; [by constructor|apply join_sconcat].
  - intros ([|u l] & Hn & Hl & ->); [cbn in Hn; lia|]. apply Forall_cons in Hl as [Hu Hl].
    exists u, (sconcat ((fun v => "." +:+ v) <$> l)). split; [by rewrite join_sconcat|]. split; [done|].
    exists ((fun v => "." +:+ v) <$> l). split; [by destruct l; cbn in *; [lia|]|]. split; [done|].
    apply dotted_list. by exists l.
Qed.

Definition name_char (c : ascii) : bool := host_char c || Ascii.eqb c ".".

Lemma last_is_app f u v : nonempty v = true -> last_is f (u +:+ v) = last_is f v.
Proof.
  intros Hv. induction u as [|a u IH]; [done|]. rewrite append_cons. cbn [last_is]. rewrite IH.
  destruct u as [|b u]; [by destruct v|]. by rewrite append_cons.
Qed.

Lemma nonempty_join_label u l : is_label u -> nonempty (join "." (u :: l)) = true.
Proof. intros (_ & _ & Hu & _). destruct u as [|a u]; [done|]. by destruct l. Qed.

Lemma fqdn_chars d : is_fqdn d -> sforall name_char d = true /\ exists u c, d = u +:+ String c EmptyString /\ host_edge c = true.
Proof.
  intros (l & Hn & Hl & ->). split.
  - apply sforall_join; [done|]. eapply Forall_impl; [exact Hl|]. intros w (_ & Hw & _).
    eapply sforall_impl; [|exact Hw]. intros c Hc. unfold name_char. by rewrite Hc.
  - assert (H : l <> [] -> last_is host_edge (join "." l) = true).
    { clear Hn. induction Hl as [|u l Hu Hl IH]; [done|]. intros _. destruct l as [|v l]; [apply Hu|].
      change (join "." (u :: v :: l)) with (u +:+ ("." +:+ join "." (v :: l))).
      apply Forall_cons in Hl as [Hv Hl]. rewrite !last_is_app; [by apply IH| |done].
      by apply nonempty_join_label. }
    destruct l as [|u l]; [cbn in Hn; lia|]. specialize (H ltac:(done)).
    apply Forall_cons in Hl as [Hu _]. destruct (string_last _ (nonempty_join_label u l Hu)) as (v & c & E).
    rewrite E in H. rewrite last_is_snoc in H. by exists v, c.
Qed.

Lemma smap_id f s : sforall (fun c => Ascii.eqb (f c) c) s = true -> smap f s = s.
Proof. induction s as [|c s IH]; [done|]. cbn. intros [->%Ascii.eqb_eq Hs]%andb_prop. by rewrite IH. Qed.

Lemma sforall_lower p s : (forall c, p (lower_char c) = p c) -> sforall p (lower s) = sforall p s.
Proof. intros H. induction s as [|c s IH]; [done|]. cbn. by rewrite H, <- IH. Qed.

Lemma space_lower c : is_space (lower_char c) = is_space c.
Proof. by destruct c as [[] [] [] [] [] [] [] []]. Qed.

Lemma name_char_facts c : name_char c = true ->
  negb (is_space c) = true /\ Ascii.eqb (lower_char c) c = true /\ negb (Ascii.eqb c "*") = true /\ Ascii.eqb c ":" = false /\
  Ascii.eqb c "/" = false.
Proof. destruct c as [[] [] [] [] [] [] [] []]; vm_compute; by repeat split. Qed.

(** A name of the language is its own canonical form, unless it is an address. *)
Lemma canonical_fixed d : is_fqdn d ->
  canonicalize_probe_domain d = if _is_literal_ip d then (None, Some ("IP address " +:+ d)) else (Some d, None).
Proof.
  intros Hd. destruct (fqdn_chars d Hd) as (Hc & u & c & Hu & He).
  assert (Hs : sforall (fun c => negb (is_space c)) d = true) by (eapply sforall_impl; [|exact Hc]; intros; by apply name_char_facts).
  unfold canonicalize_probe_domain. assert (strip d = d) as -> by (by apply strip_none).
  replace (nonempty d) with true by (rewrite Hu; by destruct u). cbn [negb].
  assert (contains "://" d = false) as ->.
  { apply not_true_iff_false. intros (a & t & E)%contains_spec. rewrite E in Hc. change ("://" +:+ t) with (String ":" ("//" +:+ t)) in Hc.
    apply sforall_elem in Hc. done. }
  assert (has_char "*" d = false) as ->.
  { unfold has_char. apply negb_false_iff. eapply sforall_impl; [|exact Hc]. intros; by apply name_char_facts. }
  rewrite Hs. cbn [orb negb]. destruct (_is_literal_ip d); [done|].
  assert (endswith "/" d = false) as ->.
  { apply not_true_iff_false. intros (a & E)%endswith_spec. rewrite E in Hc. by apply sforall_elem in Hc. }
  assert (rstrip_by (Ascii.eqb ".") (lower d) = d) as ->.
  { unfold lower. rewrite smap_id; [|eapply sforall_impl; [|exact Hc]; intros; by apply name_char_facts].
    rewrite Hu. apply rstrip_last. destruct (Ascii.eqb_spec "." c) as [<-|]; done. }
  assert (found (re_match _FQDN_RE d) = true) as -> by (apply fqdn_re_spec; exists d; split; [done|by left]).
  cbn [negb]. by rewrite String.eqb_refl.
Qed.

(** The name that a probe gets is a fully qualified host name in lower case, of at least two labels of one to
    63 letters, digits and inner hyphens; a note is given exactly when the text was changed, and every other text
    is refused with a reason. The name is its own canonical form, unless it reads as an IP address. *)
Theorem probe_domain_canonical raw :
  match canonicalize_probe_domain raw with
  | (Some d, note) =>
      is_fqdn d /\ (note = None <-> d = strip raw) /\
      canonicalize_probe_domain d = if _is_literal_ip d then (None, Some ("IP address " +:+ d)) else (Some d, None)
  | (None, reason) => is_Some reason
  end.
Proof.
  unfold canonicalize_probe_domain at 1. destruct (negb (nonempty (strip raw))); [by eexists|].
  destruct (_ || _) eqn:Ej; [by eexists|]. destruct (_is_literal_ip (strip raw)); [by eexists|].
  set (s := if endswith "/" (strip raw) then _ else _). set (d := rstrip_by (Ascii.eqb ".") (lower s)).
  destruct (found (re_match _FQDN_RE d)) eqn:Er; cbn [negb]; [|by eexists].
  assert (Hd : is_fqdn d).
  { apply fqdn_re_spec in Er as (w & Hw & [E|E]); [by rewrite E|]. exfalso.
    apply orb_false_iff in Ej as [_ Hns]. apply negb_false_iff in Hns.
    assert (sforall (fun c => negb (is_space c)) d = true) as H.
    { apply sforall_rstrip. rewrite (sforall_lower (fun c => negb (is_space c))) by (intros; by rewrite space_lower). unfold s.
      destruct (endswith "/" (strip raw)); [by apply sforall_rstrip|done]. }
    rewrite E in H. by apply sforall_elem in H. }
  split; [done|]. split; [|by apply canonical_fixed].
  destruct (String.eqb_spec d (strip raw)) as [E|E]; [done|]. done.
Qed.

Lemma filter_from_spec domains : forall seen,
  filter_from seen domains = dedup seen (omap (fun raw => (canonicalize_probe_domain raw).1) domains).
Proof.
  induction domains as [|raw l IH]; intros seen; [done|]. cbn [filter_from omap list_omap].
  destruct (canonicalize_probe_domain raw).1 as [d|]; cbn [dedup]; [|by rewrite IH].
  destruct (decide (d ∈ seen)); by rewrite IH.
Qed.

(** ** The deny list *)

Lemma rstrip_split p s : exists t, s = rstrip_by p s +:+ t /\ sforall p t = true.
Proof.
  induction s as [|c s (t & E & Ht)]; [by exists EmptyString|]. cbn [rstrip_by].
  destruct (rstrip_by p s) as [|d u] eqn:Er.
  - rewrite append_nil_l in E. subst t. destruct (p c) eqn:Ec; [exists (String c s)|exists s]; (split; [done|]); [|done].
    cbn [sforall]. by rewrite Ec.
  - exists t. split; [|done]. by rewrite append_cons, <- E.
Qed.

Lemma before_free c s : sforall (fun x => negb (Ascii.eqb x c)) s = true -> before c s = s.
Proof. induction s as [|a s IH]; [done|]. cbn. intros [Ha Hs]%andb_prop. apply negb_true_iff in Ha. by rewrite Ha, IH. Qed.

Lemma before_app_cases c a b :
  before c (a +:+ b) = if sforall (fun x => negb (Ascii.eqb x c)) a then a +:+ before c b else before c a.
Proof.
  induction a as [|x a IH]; [done|]. rewrite append_cons. cbn [before sforall]. destruct (Ascii.eqb x c); [done|].
  cbn [negb andb]. rewrite IH. by destruct (sforall _ a).
Qed.

Lemma before_lstrip p c s : p c = false -> before c (lstrip_by p s) = lstrip_by p (before c s).
Proof.
  intros Hp. induction s as [|a s IH]; [done|]. cbn [lstrip_by before]. destruct (Ascii.eqb_spec a c) as [->|Hn].
  - rewrite Hp. cbn [before]. by rewrite Ascii.eqb_refl.
  - cbn [lstrip_by]. destruct (p a); [done|]. cbn [before]. by destruct (Ascii.eqb_spec a c).
Qed.

Lemma before_rstrip p c s : p c = false -> rstrip_by p (before c (rstrip_by p s)) = rstrip_by p (before c s).
Proof.
  intros Hp. destruct (rstrip_split p s) as (t & E & Ht). rewrite E at 2. rewrite before_app_cases.
  destruct (sforall (fun x => negb (Ascii.eqb x c)) (rstrip_by p s)) eqn:Ef; [|done].
  assert (sforall p (before c t) = true) by (rewrite before_free; [done|]; eapply sforall_impl; [|exact Ht];
    intros a Ha; destruct (Ascii.eqb_spec a c) as [->|]; [congruence|done]).
  rewrite rstrip_app by done. by rewrite before_free.
Qed.

Lemma lstrip_strip p s : lstrip_by p (strip_by p s) = strip_by p s.
Proof.
  unfold strip_by. pose proof (lstrip_head p s) as Hh. destruct (lstrip_by p s) as [|c u]; [done|].
  destruct (rstrip_cons_head p c u Hh) as [v ->]. by apply lstrip_fix.
Qed.

(** Stripping a line first does not change what is left before its comment. *)
Lemma strip_before s : strip (before "#" (strip s)) = strip (before "#" s).
Proof.
  unfold strip, strip_by at 1. rewrite <- before_lstrip, lstrip_strip by done. unfold strip_by.
  rewrite before_rstrip, before_lstrip by done. done.
Qed.

(** The deny list that a text holds: the tokens of its lines. *)
Definition deny_tokens (lines : list string) : list string := filter (fun t => nonempty t = true) (line_token <$> lines).

Lemma deny_tokens_app a b : deny_tokens (a ++ b) = (deny_tokens a ++ deny_tokens b)%list.
Proof. unfold deny_tokens. by rewrite fmap_app, filter_app. Qed.

Lemma deny_tokens_cons line l :
  deny_tokens (line :: l) = ((if nonempty (line_token line) then [line_token line] else []) ++ deny_tokens l)%list.
Proof. unfold deny_tokens. rewrite fmap_cons, filter_cons. by destruct (nonempty (line_token line)). Qed.

Lemma has_char_false c s : has_char c s = false -> before c s = s.
Proof. unfold has_char. intros H%negb_false_iff. by apply before_free. Qed.

Lemma denylist_line_token raw : d_domain <$> denylist_line raw = if nonempty (line_token raw) then [line_token raw] else [].
Proof.
  unfold denylist_line, line_token. rewrite <- (strip_before raw). set (r := strip raw).
  destruct (nonempty r) eqn:En; cbn [negb orb].
  - destruct (startswith "#" r) eqn:Es.
    + apply startswith_spec in Es as (t & ->). done.
    + destruct (has_char "#" r) eqn:Eh.
      * by destruct (nonempty (lower (strip (before "#" r)))).
      * rewrite (has_char_false "#" r Eh). assert (strip r = r) as -> by apply strip_idemp. by destruct (nonempty (lower r)).
  - by destruct r.
Qed.

Lemma parse_denylist_tokens text : d_domain <$> _parse_denylist_file (Some text) = deny_tokens (text_lines text).
Proof.
  cbn [_parse_denylist_file]. induction (text_lines text) as [|line l IH]; [done|].
  rewrite deny_tokens_cons, bind_cons, fmap_app, denylist_line_token. by rewrite IH.
Qed.

Definition glued (cur : string) (l : list string) : list string :=
  match l with w :: ws => (cur +:+ w) :: ws | [] => [] end.

(** The lines that the quarantine reads have the same tokens. *)
Lemma tokens_agree_from n : forall s cur, String.length s <= n ->
  deny_tokens (text_lines_from cur s) = deny_tokens (glued cur (split_char "010" (Quarantine.read_text s))).
Proof.
  induction n as [|n IH]; intros [|c s] cur Hn; cbn [String.length] in Hn; try lia; cbn [text_lines_from];
    [change (Quarantine.read_text EmptyString) with EmptyString; cbn [split_char glued]; rewrite append_nil_r; by destruct cur..|].
  change (Quarantine.read_text (String c s)) with
    (String (if Ascii.eqb c "013" then Quarantine.newline else c) (Quarantine.read_text s)).
  assert (Hg : forall t, glued EmptyString (split_char "010" t) = split_char "010" t).
  { intros t. pose proof (split_char_ne "010" t). by destruct (split_char "010" t). }
  destruct (Ascii.eqb_spec c "010") as [->|Hc]; [|destruct (Ascii.eqb_spec c "013") as [->|Hr]].
  - cbn [Ascii.eqb Bool.eqb]. cbn [split_char Ascii.eqb Bool.eqb glued]. rewrite !deny_tokens_cons, append_nil_r. f_equal.
    rewrite (IH s EmptyString) by lia. by rewrite Hg.
  - cbn [split_char Quarantine.newline Ascii.eqb Bool.eqb glued]. rewrite !deny_tokens_cons, append_nil_r. f_equal.
    destruct s as [|d s]; [done|]. cbn [String.length] in Hn. destruct (Ascii.eqb_spec d "010") as [->|Hd].
    + rewrite (IH s EmptyString) by lia. rewrite Hg. done.
    + rewrite (IH (String d s) EmptyString) by (cbn [String.length]; lia). by rewrite Hg.
  - rewrite (IH s) by lia. cbn [split_char]. destruct (Ascii.eqb_spec c "010") as [|_]; [done|].
    pose proof (split_char_ne "010" (Quarantine.read_text s)) as Hne. destruct (split_char "010" (Quarantine.read_text s)) as [|w ws]; [done|].
    cbn [glued]. by rewrite append_assoc.
Qed.

Lemma tokens_agree text : deny_tokens (text_lines text) = deny_tokens (Quarantine.file_lines (Some text)).
Proof.
  unfold text_lines, Quarantine.file_lines, Quarantine.newline. change (default EmptyString (Some text)) with text. rewrite (tokens_agree_from (String.length text)) by done.
  pose proof (split_char_ne "010" (Quarantine.read_text text)). by destruct (split_char "010" (Quarantine.read_text text)).
Qed.

(** A text that is empty or ends with a line break. *)
Definition ends_line (text : string) : Prop := text = EmptyString \/ exists s, text = s +:+ nl.
Definition no_break (s : string) : Prop := sforall (fun c => negb (Ascii.eqb c "010" || Ascii.eqb c "013")) s = true.

(** Lines that are appended to such a text are added to its tokens. *)
Lemma split_append sep a b : split_char sep (a +:+ String sep b) = (split_char sep a ++ split_char sep b)%list.
Proof.
  induction a as [|c a IH]; [rewrite append_nil_l; cbn [split_char]; by rewrite Ascii.eqb_refl|].
  rewrite append_cons. cbn [split_char]. rewrite IH. destruct (Ascii.eqb c sep); [done|].
  pose proof (split_char_ne sep a). by destruct (split_char sep a).
Qed.

Lemma tokens_append text added : ends_line text ->
  deny_tokens (text_lines (text +:+ added)) = (deny_tokens (text_lines text) ++ deny_tokens (text_lines added))%list.
Proof.
  assert (Hr : forall a b, Quarantine.read_text (a +:+ b) = Quarantine.read_text a +:+ Quarantine.read_text b)
    by (intros; apply smap_append).
  intros [->|(s & ->)]; [done|]. rewrite !tokens_agree. unfold Quarantine.file_lines, Quarantine.newline, from_option, id.
  rewrite append_assoc, !Hr. change (Quarantine.read_text nl) with nl.
  change (nl +:+ Quarantine.read_text added) with (String "010" (Quarantine.read_text added)).
  cbn [default]. rewrite split_append, deny_tokens_app. f_equal. change nl with (String "010" EmptyString).
  rewrite split_append, deny_tokens_app. by rewrite app_nil_r.
Qed.

(** What the quarantine records: a name without a comment sign, texts without line breaks. *)
Definition plain_entry (e : deny_entry) : Prop :=
  has_char "#" (e_domain e) = false /\ no_break (e_domain e) /\ no_break (e_ts e) /\ no_break (e_reason e).
Definition entry_name (e : deny_entry) : string := lower (strip (e_domain e)).

Lemma no_break_append a b : no_break (a +:+ b) <-> no_break a /\ no_break b.
Proof. unfold no_break. rewrite sforall_append. apply andb_true_iff. Qed.

Lemma tokens_of_line l : no_break l -> deny_tokens (text_lines (l +:+ nl)) = if nonempty (line_token l) then [line_token l] else [].
Proof.
  intros Hl. rewrite tokens_agree. unfold Quarantine.file_lines, Quarantine.newline, from_option, id.
  assert (Quarantine.read_text (l +:+ nl) = l +:+ nl) as ->.
  { unfold Quarantine.read_text. rewrite smap_append. rewrite smap_id; [done|]. eapply sforall_impl; [|exact Hl].
    intros c Hc. destruct (Ascii.eqb_spec c "013") as [->|]; [done|]. apply Ascii.eqb_refl. }
  change nl with (String "010" EmptyString). rewrite split_append. rewrite split_char_alone.
  - cbn [app split_char]. rewrite !deny_tokens_cons. apply app_nil_r.
  - eapply sforall_impl; [|exact Hl]. intros c Hc. apply negb_true_iff, orb_false_iff in Hc as [-> _]. done.
Qed.

Lemma entry_name_plain e : plain_entry e ->
  has_char "#" (entry_name e) = false /\ no_break (entry_name e) /\ strip (entry_name e) = entry_name e.
Proof.
  intros (Hh & Hb & _). unfold entry_name. split; [|split].
  - unfold has_char in *. apply negb_false_iff. rewrite (sforall_lower (fun c => negb (Ascii.eqb c "#"))).
    + apply sforall_strip. by apply negb_false_iff in Hh.
    + intros c. destruct c as [[] [] [] [] [] [] [] []]; vm_compute; reflexivity.
  - unfold no_break. rewrite (sforall_lower (fun c => negb (Ascii.eqb c "010" || Ascii.eqb c "013"))); [by apply sforall_strip|].
    intros c. destruct c as [[] [] [] [] [] [] [] []]; vm_compute; reflexivity.
  - assert (H : forall s, strip (lower s) = lower (strip s)).
    { assert (Hl : forall s, lstrip_by is_space (lower s) = lower (lstrip_by is_space s)).
      { induction s as [|c s IH]; [done|]. change (lower (String c s)) with (String (lower_char c) (lower s)).
        cbn [lstrip_by]. rewrite space_lower. by destruct (is_space c). }
      assert (Hr : forall s, rstrip_by is_space (lower s) = lower (rstrip_by is_space s)).
      { induction s as [|c s IH]; [done|]. change (lower (String c s)) with (String (lower_char c) (lower s)).
        cbn [rstrip_by]. rewrite space_lower, IH. destruct (rstrip_by is_space s); [by destruct (is_space c)|done]. }
      intros s. unfold strip, strip_by. by rewrite Hl, Hr. }
    by rewrite H, strip_idemp.
Qed.

Lemma deny_line_tokens e : plain_entry e ->
  deny_tokens (text_lines (deny_line (entry_name e) e)) = if nonempty (entry_name e) then [entry_name e] else [].
Proof.
  intros He. destruct (entry_name_plain e He) as (Hh & Hb & Hi). destruct He as (_ & _ & Ht & Hr). unfold deny_line.
  set (l := entry_name e +:+ "  # auto-quarantine " +:+ e_ts e +:+ " (" +:+ e_reason e +:+ ")").
  assert (line_token l = entry_name e) as El.
  { unfold line_token, l. change ("  # auto-quarantine " +:+ e_ts e +:+ " (" +:+ e_reason e +:+ ")")
      with ("  " +:+ String "#" (" auto-quarantine " +:+ e_ts e +:+ " (" +:+ e_reason e +:+ ")")).
    rewrite <- append_assoc, before_app.
    - rewrite <- Hi. rewrite strip_app_blank, Hi by done. unfold entry_name. apply lower_idemp.
    - rewrite sforall_append. unfold has_char in Hh. apply negb_false_iff in Hh. by rewrite Hh. }
  replace (entry_name e +:+ "  # auto-quarantine " +:+ e_ts e +:+ " (" +:+ e_reason e +:+ ")" +:+ nl) with (l +:+ nl)
    by (unfold l; by rewrite !append_assoc).
  rewrite tokens_of_line, El; [done|]. unfold l. by rewrite !no_break_append.
Qed.

Lemma deny_line_ends e : ends_line (deny_line (entry_name e) e).
Proof.
  right. exists (entry_name e +:+ "  # auto-quarantine " +:+ e_ts e +:+ " (" +:+ e_reason e +:+ ")").
  unfold deny_line. by rewrite !append_assoc.
Qed.

Lemma append_entries_tokens entries : forall existing, Forall plain_entry entries ->
  let '(added, written) := append_entries existing entries in
  deny_tokens (text_lines added) = written /\
  forall e, e ∈ entries -> nonempty (entry_name e) = true -> entry_name e ∈ existing \/ entry_name e ∈ written.
Proof.
  induction entries as [|e l IH]; intros existing Hall; cbn [append_entries].
  { split; [done|]. by intros e ?%elem_of_nil. }
  apply Forall_cons in Hall as [He Hl]. fold (entry_name e). destruct (negb (nonempty (entry_name e)) || _) eqn:Eb.
  - specialize (IH existing Hl). destruct (append_entries existing l) as [added written]. destruct IH as [H1 H2].
    split; [done|]. intros e' [->|He']%elem_of_cons Hn; [|by apply H2].
    rewrite Hn in Eb. cbn [negb orb] in Eb. apply bool_decide_eq_true in Eb. by left.
  - specialize (IH ({[entry_name e]} ∪ existing) Hl). destruct (append_entries _ l) as [added written]. destruct IH as [H1 H2].
    apply orb_false_iff in Eb as [Hn _]. apply negb_false_iff in Hn.
    rewrite tokens_append by apply deny_line_ends. rewrite deny_line_tokens, Hn, H1 by done. split; [done|].
    intros e' [->|He']%elem_of_cons Hn'; [right; by left|].
    destruct (H2 e' He' Hn') as [[->%elem_of_singleton|?]%elem_of_union|?]; [right; by left|by left|right; by right].
Qed.

(** ** Filtering by the list *)

Lemma dget_merge l : forall d k, is_Some (dget k (merge_entries l d)) <-> k ∈ d_domain <$> l \/ is_Some (dget k d).
Proof.
  induction l as [|e l IH]; intros d k; [cbn; split; [by right|by intros [?%elem_of_nil|?]]|].
  change (merge_entries (e :: l) d) with (merge_entries l (dset (d_domain e) e d)).
  rewrite IH, fmap_cons, elem_of_cons, dget_set. destruct (decide (d_domain e = k)) as [<-|Hn].
  - split; [intros _; left; by left|intros _; right; by eexists].
  - split; intros H; [destruct H as [?|?]; [left; by right|by right]|destruct H as [[?|?]|?]; [congruence|by left|by right]].
Qed.

Lemma merge_wf l : forall d, PyDict.wf d -> PyDict.wf (merge_entries l d).
Proof. induction l as [|e l IH]; intros d Hd; [done|]. by apply IH, wf_set. Qed.

Lemma merge_keyed l : forall d, (forall k e, dget k d = Some e -> d_domain e = k) ->
  forall k e, dget k (merge_entries l d) = Some e -> d_domain e = k.
Proof.
  induction l as [|e l IH]; intros d Hd; [done|]. apply IH. intros k e'. rewrite dget_set.
  destruct (decide (d_domain e = k)) as [<-|]; [by intros [= <-]|apply Hd].
Qed.

Lemma load_denylist_domains bundled user k :
  k ∈ d_domain <$> load_denylist bundled user <->
  k ∈ d_domain <$> _parse_denylist_file bundled \/ k ∈ d_domain <$> _parse_denylist_file user.
Proof.
  set (m := merge_entries (_parse_denylist_file user) (merge_entries (_parse_denylist_file bundled) [])).
  assert (Hm : is_Some (dget k m) <-> k ∈ d_domain <$> load_denylist bundled user).
  { unfold load_denylist. fold m. assert (Hw : PyDict.wf m) by (apply merge_wf, merge_wf, wf_nil).
    assert (Hk : forall k e, dget k m = Some e -> d_domain e = k) by (apply merge_keyed, merge_keyed; done). split.
    - intros [e E]. apply list_elem_of_fmap. exists e. split; [symmetry; by apply Hk|]. apply elem_of_values; [done|by exists k].
    - intros (e & -> & (k' & E)%elem_of_values)%list_elem_of_fmap; [|done]. rewrite (Hk k' e E). by exists e. }
  rewrite <- Hm. unfold m. rewrite !dget_merge. split; [intros [?|[?|[? ?]]]; [by right|by left|done]|intros [?|?]; [right; by left|by left]].
Qed.

Lemma split_denied_spec m domains :
  (split_denied m domains).1 = filter (fun d => dget (deny_key d) m = None) domains /\
  Forall2 (fun d e => dget (deny_key d) m = Some e) (filter (fun d => dget (deny_key d) m <> None) domains) (split_denied m domains).2.
Proof.
  induction domains as [|d l [H1 H2]]; [by split|]. cbn [split_denied]. rewrite !filter_cons.
  destruct (split_denied m l) as [kept skipped]. cbn [fst snd] in *. subst kept. destruct (dget (deny_key d) m) as [e|] eqn:E.
  - rewrite decide_False by done. rewrite decide_True by done. split; [done|by constructor].
  - rewrite decide_True by done. rewrite decide_False by naive_solver. by split.
Qed.

Lemma filter_iff {A} (P Q : A -> Prop) `{!forall x, Decision (P x), !forall x, Decision (Q x)} (l : list A) :
  (forall x, x ∈ l -> P x <-> Q x) -> filter P l = filter Q l.
Proof.
  induction l as [|x l IH]; intros Heq; [done|]. rewrite !filter_cons.
  rewrite IH by (intros y Hy; apply Heq; by right). pose proof (Heq x (list_elem_of_here _ _)) as Hx.
  by repeat case_decide; naive_solver.
Qed.

Lemma apply_denylist_core domains denylist :
  let '(kept, skipped) := apply_denylist domains denylist false in
  kept = filter (fun d => deny_key d ∉ d_domain <$> denylist) domains /\
  d_domain <$> skipped = deny_key <$> filter (fun d => deny_key d ∈ d_domain <$> denylist) domains.
Proof.
  unfold apply_denylist. cbn [orb]. destruct (bool_decide (domains = [])) eqn:E1.
  { apply bool_decide_eq_true in E1 as ->. by split. }
  destruct (bool_decide (denylist = [])) eqn:E2; cbn [orb].
  { apply bool_decide_eq_true in E2 as ->. split.
    - symmetry. apply filter_id, Forall_forall. intros d _ H. by apply elem_of_nil in H.
    - induction domains as [|d l IH]; [done|]. clear. induction (d :: l) as [|x k IH]; [done|].
      rewrite filter_cons, decide_False; [done|]. cbn. by intros ?%elem_of_nil. }
  clear E1 E2. set (m := merge_entries denylist []).
  assert (Hm : forall d, is_Some (dget (deny_key d) m) <-> deny_key d ∈ d_domain <$> denylist).
  { intros d. unfold m. rewrite dget_merge. split; [intros [?|[? ?]]; done|by left]. }
  destruct (split_denied_spec m domains) as [H1 H2]. destruct (split_denied m domains) as [kept skipped]. cbn [fst snd] in *. split.
  - rewrite H1. apply filter_iff. intros d _. rewrite <- Hm. by rewrite <- eq_None_not_Some.
  - assert (E : filter (fun d => dget (deny_key d) m <> None) domains = filter (fun d => deny_key d ∈ d_domain <$> denylist) domains).
    { apply filter_iff. intros d _. rewrite <- Hm. by rewrite <- not_eq_None_Some. }
    rewrite <- E. clear E H1. induction H2 as [|d e l k Hd _ IH]; [done|]. rewrite !fmap_cons, IH. f_equal.
    eapply (merge_keyed denylist []); [done|exact Hd].
Qed.

(** C31. What the quarantine writes, the loader obeys: after [append_denylist] on a deny list that is empty or ends
    with a line break, every quarantined name is in the list that is loaded, wherever the bundled list is, and
    no probe list keeps a name that is written like it, in whatever case or with a path after it; the names that are
    kept are those that no entry denies, in their order. *)
Theorem quarantined_stays_out text entries bundled domains :
  ends_line text -> Forall plain_entry entries ->
  let user := (append_denylist (Some text) entries).1 in
  let denylist := load_denylist bundled (Some user) in
  let '(kept, skipped) := apply_denylist domains denylist false in
  (forall e d, e ∈ entries -> nonempty (entry_name e) = true -> before "/" (lower d) = entry_name e -> d ∉ kept) /\
  kept = filter (fun d => before "/" (lower d) ∉ d_domain <$> denylist) domains /\
  d_domain <$> skipped = deny_key <$> filter (fun d => before "/" (lower d) ∈ d_domain <$> denylist) domains.
Proof.
  intros Ht He user denylist. pose proof (apply_denylist_core domains denylist) as H.
  destruct (apply_denylist domains denylist false) as [kept skipped]. destruct H as [Hk Hs].
  split; [|done]. intros e d Hin Hn Hd Hkept. rewrite Hk in Hkept. apply list_elem_of_filter in Hkept as [Hdeny _]. apply Hdeny.
  unfold deny_key. rewrite Hd. unfold denylist. apply load_denylist_domains. right. unfold user. rewrite parse_denylist_tokens.
  unfold append_denylist. pose proof (append_entries_tokens entries (existing_tokens (Some text)) He) as Ha.
  destruct (append_entries _ entries) as [added written]. destruct Ha as [Hw Ha]. cbn [fst].
  change (default EmptyString (Some text)) with text. rewrite tokens_append, Hw by done. apply elem_of_app.
  destruct (Ha e Hin Hn) as [Hx|Hx]; [left|by right]. rewrite tokens_agree. unfold existing_tokens in Hx.
  by apply elem_of_list_to_set in Hx.
Qed.

(** A user's list that does not end with a line break takes the first new name into its last line. *)
Example denylist_glued :
  let user := (append_denylist (Some "a.org") [DenyEntry "b.org" "now" "dead"]).1 in
  (d_domain <$> _parse_denylist_file (Some user)) = ["a.orgb.org"] /\
  (apply_denylist ["b.org"; "a.org"] (load_denylist None (Some user)) false).1 = ["b.org"; "a.org"].
Proof. vm_compute. split; reflexivity. Qed.

Definition ex_entries : list deny_entry := [DenyEntry " B.Org " "2026-01-01" "dead: 12/12"].

Lemma quarantined_stays_out_witness :
  ends_line ("# list" +:+ nl) /\ Forall plain_entry ex_entries /\
  let denylist := load_denylist (Some "c.org # ads") (Some (append_denylist (Some ("# list" +:+ nl)) ex_entries).1) in
  let '(kept, skipped) := apply_denylist ["B.ORG/x"; "c.org"; "d.org"] denylist false in
  (forall e d, e ∈ ex_entries -> nonempty (entry_name e) = true -> before "/" (lower d) = entry_name e -> d ∉ kept) /\
  kept = filter (fun d => before "/" (lower d) ∉ d_domain <$> denylist) ["B.ORG/x"; "c.org"; "d.org"] /\
  d_domain <$> skipped = deny_key <$> filter (fun d => before "/" (lower d) ∈ d_domain <$> denylist) ["B.ORG/x"; "c.org"; "d.org"].
Proof.
  assert (H1 : ends_line ("# list" +:+ nl)) by (right; by exists "# list").
  assert (H2 : Forall plain_entry ex_entries) by (repeat constructor; vm_compute; reflexivity).
  split; [exact H1|]. split; [exact H2|].
  exact (quarantined_stays_out ("# list" +:+ nl) ex_entries (Some "c.org # ads") ["B.ORG/x"; "c.org"; "d.org"] H1 H2).
Defined.

Example ex_denied :
  apply_denylist ["B.ORG/x"; "c.org"; "d.org"]
    (load_denylist (Some "c.org # ads") (Some (append_denylist (Some ("# list" +:+ nl)) ex_entries).1)) false =
  (["d.org"], [Denied "b.org" "auto-quarantine 2026-01-01 (dead: 12/12)"; Denied "c.org" "ads"]).
Proof. vm_compute. reflexivity. Qed.

(** ** Writing and reading pins *)

Definition word_char (c : ascii) : bool := negb (is_space c).
Definition is_word_text (w : string) : Prop := nonempty w = true /\ sforall word_char w = true.

Lemma split_ws_word w : forall cur rest, sforall word_char w = true ->
  split_ws_from cur (w +:+ rest) = split_ws_from (cur +:+ w) rest.
Proof.
  induction w as [|c w IH]; intros cur rest Hw; [by rewrite append_nil_r|]. cbn [sforall] in Hw. apply andb_prop in Hw as [Hc Hw].
  rewrite append_cons. cbn [split_ws_from]. unfold word_char in Hc. apply negb_true_iff in Hc. rewrite Hc, IH by done.
  by rewrite append_assoc.
Qed.

Lemma split_ws_two a b : is_word_text a -> is_word_text b -> split_ws (a +:+ tab +:+ b) = [a; b].
Proof.
  intros [Ha Fa] [Hb Fb]. unfold split_ws. rewrite split_ws_word by done. change (EmptyString +:+ a) with a.
  change (tab +:+ b) with (String "009" b). cbn [split_ws_from]. change (is_space "009") with true. rewrite Ha. f_equal.
  rewrite <- (append_nil_r b), split_ws_word by done. change (EmptyString +:+ b) with b. cbn [split_ws_from]. by rewrite Hb, append_nil_r.
Qed.

Lemma strip_edges w : first_is word_char w = true -> last_is word_char w = true -> strip w = w.
Proof.
  intros Hf Hl. destruct w as [|a w]; [done|]. cbn [first_is] in Hf. unfold word_char in Hf. apply negb_true_iff in Hf.
  unfold strip, strip_by. rewrite lstrip_fix by done. destruct (string_last (String a w) eq_refl) as (u & c & E). rewrite E in *.
  rewrite last_is_snoc in Hl. apply rstrip_last. by apply negb_true_iff in Hl.
Qed.

Lemma word_edges w : is_word_text w -> first_is word_char w = true /\ last_is word_char w = true.
Proof.
  intros [Hn Hw]. split; [destruct w; [done|]; cbn in *; by apply andb_prop in Hw as [? _]|].
  destruct (string_last w Hn) as (u & c & ->). rewrite last_is_snoc. by apply sforall_elem in Hw.
Qed.

(** A pin that a line can hold. *)
Definition pin_ok (kv : string * string) : Prop :=
  is_word_text kv.1 /\ is_word_text kv.2 /\ _is_literal_ip kv.2 = true /\ startswith "#" kv.2 = false.

Lemma pin_line_read d i : pin_ok (d, i) -> pin_of_line (i +:+ tab +:+ d) = Some (d, i).
Proof.
  intros (Hd & Hi & Hip & Hh). cbn [fst snd] in *. destruct (word_edges d Hd) as [_ Ld], (word_edges i Hi) as [Fi _].
  unfold pin_of_line. rewrite strip_edges.
  - rewrite split_ws_two by done. rewrite Hip. destruct i as [|a i]; [done|]. rewrite append_cons. cbn [nonempty negb].
    cbn [startswith] in Hh |- *. destruct (Ascii.eqb "#" a); [|done]. by destruct i.
  - destruct i as [|a i]; [done|]. by rewrite append_cons.
  - rewrite <- append_assoc, last_is_app; [done|by destruct Hd].
Qed.

Lemma splitlines_first w rest : forall cur, sforall (fun c => negb (line_end c)) w = true ->
  splitlines_from cur (w +:+ newline +:+ rest) = (cur +:+ w) :: splitlines rest.
Proof.
  induction w as [|c w IH]; intros cur Hw.
  - rewrite append_nil_r, append_nil_l. change (newline +:+ rest) with (String "010" rest). cbn [splitlines_from].
    change (line_end "010") with true. cbn iota. f_equal. by destruct rest.
  - cbn [sforall] in Hw. apply andb_prop in Hw as [Hc Hw]. rewrite append_cons. cbn [splitlines_from].
    apply negb_true_iff in Hc. rewrite Hc, IH by done. by rewrite append_assoc.
Qed.

Lemma splitlines_join l : Forall (fun w => sforall (fun c => negb (line_end c)) w = true) l -> l <> [] ->
  splitlines (join newline l +:+ newline) = l.
Proof.
  induction 1 as [|w l Hw Hl IH]; [done|]. intros _. destruct l as [|v l].
  - cbn [join]. rewrite <- (append_nil_r newline). unfold splitlines. by rewrite splitlines_first.
  - change (join newline (w :: v :: l)) with (w +:+ newline +:+ join newline (v :: l)). rewrite !append_assoc.
    unfold splitlines at 1. rewrite splitlines_first by done. f_equal. by apply IH.
Qed.

Lemma word_no_end w : sforall word_char w = true -> sforall (fun c => negb (line_end c)) w = true.
Proof. apply sforall_impl. intros c. by destruct c as [[] [] [] [] [] [] [] []]. Qed.

Section Pins.
Context (pins : list (string * string)).
Hypothesis pins_wf : PyDict.wf pins.
Hypothesis pins_ok : Forall pin_ok pins.

Definition sorted_pins : list (string * string) :=
  (fun d => (d, dget_default d EmptyString pins)) <$> py_sorted str_lt (keys pins).

Lemma sorted_pin d : d ∈ py_sorted str_lt (keys pins) -> pin_ok (d, dget_default d EmptyString pins).
Proof.
  intros [v E]%elem_of_py_sorted%elem_of_keys. unfold dget_default. rewrite E. cbn [default].
  rewrite Forall_forall in pins_ok. apply pins_ok. by apply dget_elem.
Qed.

Lemma pin_lines_read l d : (forall x, x ∈ l -> pin_ok (x, dget_default x EmptyString pins)) ->
  foldl pin_step d (pin_line pins <$> l) = foldl (fun d kv => dset kv.1 kv.2 d) d ((fun x => (x, dget_default x EmptyString pins)) <$> l).
Proof.
  revert d. induction l as [|x l IH]; intros d Hl; [done|]. rewrite !fmap_cons. cbn [foldl]. unfold pin_step at 2, pin_line at 1.
  rewrite (pin_line_read x _ (Hl x (list_elem_of_here _ _))). apply IH. intros y Hy. apply Hl. by right.
Qed.

Lemma parse_dump_core : parse_pins (dump_pins pins) = sorted_pins.
Proof.
  unfold parse_pins, dump_pins. rewrite splitlines_join; [|apply Forall_app; split|by intros [? ?]%app_nil].
  - rewrite foldl_app. change (foldl pin_step [] _HEADERS) with (@nil (string * string)).
    rewrite pin_lines_read by apply sorted_pin. apply foldl_dset_id. unfold PyDict.wf, keys, sorted_pins.
    rewrite <- list_fmap_compose. rewrite (list_fmap_ext _ id) by done. rewrite list_fmap_id.
    rewrite py_sorted_perm. exact pins_wf.
  - repeat (constructor; [vm_compute; reflexivity|]). constructor.
  - apply Forall_fmap, Forall_forall. intros d Hd. destruct (sorted_pin d Hd) as ([_ Fd] & [_ Fi] & _). cbn [fst snd] in *.
    cbn [compose]. unfold pin_line. rewrite !sforall_append, (word_no_end _ Fi), (word_no_end _ Fd). done.
Qed.
End Pins.

(** Pins survive the file: what [save_pins] writes is read back as the same map, in the order of the names, as
    long as names and addresses hold no blank and the addresses are IP addresses. *)
Theorem pins_roundtrip pins :
  PyDict.wf pins -> Forall pin_ok pins ->
  parse_pins (dump_pins pins) = sorted_pins pins /\ (forall d, dget d (parse_pins (dump_pins pins)) = dget d pins).
Proof.
  intros Hw Ho. rewrite parse_dump_core by done. split; [done|]. intros d.
  assert (Hs : PyDict.wf (sorted_pins pins)).
  { unfold PyDict.wf, keys, sorted_pins. rewrite <- list_fmap_compose. rewrite (list_fmap_ext _ id) by done.
    by rewrite list_fmap_id, py_sorted_perm. }
  destruct (dget d pins) as [v|] eqn:E.
  - apply elem_of_dict; [done|]. apply list_elem_of_fmap. exists d. unfold dget_default. rewrite E. split; [done|].
    apply elem_of_py_sorted, elem_of_keys. by exists v.
  - apply dget_None. intros (x & -> & (k & -> & Hk)%list_elem_of_fmap)%list_elem_of_fmap. cbn [fst] in *.
    apply elem_of_py_sorted, elem_of_keys in Hk as [v Ev]. congruence.
Qed.

Definition ex_pins : list (string * string) := [("www.youtube.com", "142.250.1.93"); ("discord.com", "2606:4700::1")].

Lemma pins_roundtrip_witness :
  PyDict.wf ex_pins /\ Forall pin_ok ex_pins /\ parse_pins (dump_pins ex_pins) = sorted_pins ex_pins /\
  (forall d, dget d (parse_pins (dump_pins ex_pins)) = dget d ex_pins).
Proof.
  assert (H1 : PyDict.wf ex_pins) by (refine (bool_decide_unpack _ _); vm_compute; exact I).
  assert (H2 : Forall pin_ok ex_pins) by (repeat constructor; vm_compute; reflexivity).
  split; [exact H1|]. split; [exact H2|]. exact (pins_roundtrip ex_pins H1 H2).
Defined.
