(* ===== verification/DnsWire.v ===== *)
(** * DNS messages: the wire part of [checkers/dns_secure.py]

    The query that is sent and the answer that is parsed, byte by byte ([Z] from 0 to 255), against RFC 1035:
    names as labels or compression pointers, questions and resource records are encoded by the specification
    below and read by the program. *)

From stdpp Require Import base numbers list strings.
From Stdlib Require Import ZArith Lia Ascii.
From S2P Require Import Prelude PyStr PyIp.

#[local] Open Scope string_scope.
#[local] Open Scope Z_scope.

(** ** Bytes and [struct] *)

Definition is_byte (b : Z) : Prop := 0 <= b < 256.
Notation bytes := (list Z).

(** [struct.pack("!H", n)] and the like: [w] bytes, most significant first. *)
Fixpoint be (w : nat) (n : Z) : bytes :=
  match w with O => [] | S w => (be w (n / 256) ++ [n mod 256])%list end.
(** [struct.unpack]. *)
Definition be_val (l : bytes) : Z := foldl (fun acc b => acc * 256 + b) 0 l.

(** [data[a:b]] of indices that are not negative, and [data[a]] inside the data. *)
Definition slice (a b : Z) (data : bytes) : bytes := take (Z.to_nat (b - a)) (drop (Z.to_nat a) data).
Definition byte_at (data : bytes) (i : Z) : Z := default 0 (data !! Z.to_nat i).
Definition len (data : bytes) : Z := Z.of_nat (length data).

(** ** The query *)

Definition is_ascii (s : string) : bool := sforall (fun c => (N_of_ascii c <? 128)%N) s.
Definition ascii_bytes (s : string) : bytes := (fun c => Z.of_N (N_of_ascii c)) <$> String.list_ascii_of_string s.

Section Query.
(** [text.encode("idna")] of a text outside ASCII: [None] is a [UnicodeError]. *)
Context (to_ascii : string -> option string).

(** [text.encode("idna").decode("ascii")]: an ASCII text is checked, not changed. *)
Definition idna (text : string) : option string :=
  if is_ascii text then
    let labels := split_char "." text in
    let short := forallb (fun l => (0 <? String.length l)%nat && (String.length l <? 64)%nat) (take (length labels - 1) labels) in
    if short && (String.length (default EmptyString (last labels)) <? 64)%nat then Some text else None
  else to_ascii text.

(** [None] is the [UnicodeEncodeError] of the second attempt. *)
Definition _domain_to_dns_ascii (domain : string) : option string :=
  let text := rstrip_by (Ascii.eqb ".") (strip domain) in
  if negb (nonempty text) then Some text
  else match idna text with
       | Some t => Some t
       | None => if is_ascii text then Some text else None
       end.

(** [bytes([len(label)]) + label]: [None] is the [ValueError] of a length above 255. *)
Definition label_wire (part : string) : option bytes :=
  let label := ascii_bytes part in
  if 255 <? len label then None else Some (len label :: label).
Fixpoint labels_wire (parts : list string) : option bytes :=
  match parts with
  | [] => Some []
  | part :: parts =>
      if negb (nonempty part) then labels_wire parts
      else l ← label_wire part; rest ← labels_wire parts; Some (l ++ rest)%list
  end.

Definition query_header : bytes := (be 2 16962 ++ be 2 256 ++ be 2 1 ++ be 2 0 ++ be 2 0 ++ be 2 0)%list.
Definition _build_dns_query (domain : string) (qtype : Z) : option bytes :=
  text ← _domain_to_dns_ascii domain;
  qname ← labels_wire (split_char "." text);
  Some (query_header ++ (qname ++ [0]) ++ (be 2 qtype ++ be 2 1))%list.
End Query.

(** ** The answer *)

(** [range(128)] steps over labels. *)
Fixpoint skip_name (fuel : nat) (data : bytes) (offset : Z) : Z :=
  match fuel with
  | O => offset
  | S fuel =>
      if len data <=? offset then offset
      else
        let label := byte_at data offset in
        if label =? 0 then offset + 1
        else if Z.land label 192 =? 192 then offset + 2
        else skip_name fuel data (offset + (1 + Z.land label 63))
  end.
Definition _skip_dns_name (data : bytes) (offset : Z) : Z := skip_name 128 data offset.

(** [".".join(str(b) for b in data[offset : offset + 4])] *)
Definition dotted_quad (l : bytes) : string := join "." (str_of_Z <$> l).

(** The two loops, over what skips a name. *)
Section Walk.
Context (skip : bytes -> Z -> Z).

Fixpoint skip_questions (n : nat) (data : bytes) (offset : Z) : Z :=
  match n with O => offset | S n => skip_questions n data (skip data offset + 4) end.

(** The loop over the records. *)
Fixpoint walk_answers (n : nat) (data : bytes) (offset : Z) : list string :=
  match n with
  | O => []
  | S n =>
      let offset := skip data offset in
      if len data <? offset + 10 then []
      else
        let rtype := be_val (slice offset (offset + 2) data) in
        let rdlength := be_val (slice (offset + 8) (offset + 10) data) in
        let offset := offset + 10 in
        ((if (rtype =? 1) && (rdlength =? 4) && (offset + 4 <=? len data)
          then [dotted_quad (slice offset (offset + 4) data)] else [])
         ++ walk_answers n data (offset + rdlength))%list
  end.
End Walk.

Definition _parse_dns_response (data : bytes) : list string :=
  if len data <? 12 then []
  else
    let qdcount := be_val (slice 4 6 data) in
    let ancount := be_val (slice 6 8 data) in
    if ancount =? 0 then []
    else walk_answers _skip_dns_name (Z.to_nat (Z.min ancount 20)) data (skip_questions _skip_dns_name (Z.to_nat qdcount) data 12).

(** ** RFC 1035 *)

(** An encoded name of at most [n] labels: labels of one to 63 bytes, then the root or a pointer. *)
Inductive name_wire : nat -> bytes -> Prop :=
  | wire_root n : name_wire n [0]
  | wire_pointer n hi lo : 192 <= hi < 256 -> is_byte lo -> name_wire n [hi; lo]
  | wire_label n label rest : 1 <= len label <= 63 -> Forall is_byte label -> name_wire n rest ->
      name_wire (S n) (len label :: label ++ rest)%list.

Record resource : Type := Rr { r_name : bytes; r_type : Z; r_class : Z; r_ttl : Z; r_data : bytes }.
Definition record_ok (r : resource) : Prop :=
  name_wire 127 (r_name r) /\ 0 <= r_type r < 65536 /\ len (r_data r) < 65536 /\ Forall is_byte (r_data r).
Definition record_wire (r : resource) : bytes :=
  (r_name r ++ be 2 (r_type r) ++ be 2 (r_class r) ++ be 4 (r_ttl r) ++ be 2 (len (r_data r)) ++ r_data r)%list.

(** A question: its encoded name, its type and its class. *)
Definition question : Type := (bytes * Z * Z)%type.
Definition question_ok (q : question) : Prop := name_wire 127 q.1.1.
Definition question_wire (q : question) : bytes := (q.1.1 ++ be 2 q.1.2 ++ be 2 q.2)%list.

(** A message: identifier and flags, the questions, the answers, and the other sections. *)
Record message : Type := Msg {
  m_id : Z; m_flags : Z; m_questions : list question; m_answers : list resource; m_ns : Z; m_ar : Z; m_more : bytes
}.
Definition message_ok (m : message) : Prop :=
  Z.of_nat (length (m_questions m)) < 65536 /\ Z.of_nat (length (m_answers m)) < 65536 /\
  Forall question_ok (m_questions m) /\ Forall record_ok (m_answers m).
Definition message_wire (m : message) : bytes :=
  (be 2 (m_id m) ++ be 2 (m_flags m) ++ be 2 (Z.of_nat (length (m_questions m))) ++ be 2 (Z.of_nat (length (m_answers m)))
   ++ be 2 (m_ns m) ++ be 2 (m_ar m) ++ concat (question_wire <$> m_questions m) ++ concat (record_wire <$> m_answers m)
   ++ m_more m)%list.

(** The addresses that a record gives. *)
Definition a_record (r : resource) : list string :=
  if (r_type r =? 1) && (len (r_data r) =? 4) then [dotted_quad (r_data r)] else [].

(** ** Reading what was packed *)

Lemma length_be w n : length (be w n) = w.
Proof. revert n. induction w as [|w IH]; intros n; [done|]. cbn [be]. rewrite length_app, IH. cbn. lia. Qed.

Lemma be_val_app l b : be_val (l ++ [b]) = be_val l * 256 + b.
Proof. unfold be_val. by rewrite foldl_app. Qed.

Lemma be_val_be w : forall n, 0 <= n < 256 ^ Z.of_nat w -> be_val (be w n) = n.
Proof.
  induction w as [|w IH]; intros n Hn; [cbn in *; lia|]. cbn [be]. rewrite be_val_app.
  rewrite Nat2Z.inj_succ, Z.pow_succ_r in Hn by lia. rewrite IH.
  - pose proof (Z.div_mod n 256 ltac:(lia)). lia.
  - split; [apply Z.div_pos; lia|]. apply Z.div_lt_upper_bound; lia.
Qed.

Lemma len_app a b : len (a ++ b) = len a + len b.
Proof. unfold len. rewrite length_app. lia. Qed.
Lemma len_cons x a : len (x :: a) = 1 + len a.
Proof. unfold len. cbn [length]. lia. Qed.
Lemma len_be w n : len (be w n) = Z.of_nat w.
Proof. unfold len. by rewrite length_be. Qed.
Lemma len_nonneg a : 0 <= len a.
Proof. unfold len. lia. Qed.

(** A piece of the data at an offset. *)
Lemma slice_at pre mid post a b : a = len pre -> b = len pre + len mid -> slice a b (pre ++ mid ++ post) = mid.
Proof.
  intros -> ->. unfold slice, len. replace (Z.to_nat (Z.of_nat (length pre))) with (length pre) by lia.
  rewrite drop_app_length. replace (Z.to_nat _) with (length mid) by lia. apply take_app_length.
Qed.

Lemma at_app pre x post i : i = len pre -> byte_at (pre ++ x :: post) i = x.
Proof. intros ->. unfold byte_at, len. rewrite Nat2Z.id, list_lookup_middle; done. Qed.

Lemma land_label b : 0 < b <= 63 -> (b =? 0) = false /\ (Z.land b 192 =? 192) = false /\ Z.land b 63 = b.
Proof.
  intros Hb. split; [lia|].
  assert (H : Forall (fun b => (Z.land b 192 =? 192) = false /\ Z.land b 63 = b) (Z.of_nat <$> seq 1 63))
    by (apply (bool_decide_unpack _); vm_compute; exact I).
  rewrite Forall_forall in H. apply H. apply list_elem_of_fmap. exists (Z.to_nat b). split; [lia|]. apply elem_of_seq. lia.
Qed.

Lemma land_pointer b : 192 <= b < 256 -> (b =? 0) = false /\ (Z.land b 192 =? 192) = true.
Proof.
  intros Hb. split; [lia|].
  assert (H : Forall (fun b => (Z.land b 192 =? 192) = true) (Z.of_nat <$> seq 192 64))
    by (apply (bool_decide_unpack _); vm_compute; exact I).
  rewrite Forall_forall in H. apply H. apply list_elem_of_fmap. exists (Z.to_nat b). split; [lia|]. apply elem_of_seq. lia.
Qed.

(** A name is skipped exactly, whatever follows it. *)
Lemma skip_name_wire n name : name_wire n name -> forall fuel pre post, (n < fuel)%nat ->
  skip_name fuel (pre ++ name ++ post) (len pre) = len pre + len name.
Proof.
  induction 1 as [n|n hi lo Hhi Hlo|n label rest Hl Hb Hr IH]; intros [|fuel] pre post Hf; try lia; cbn [skip_name app].
  - rewrite at_app by done. rewrite !len_app, !len_cons. destruct (Z.leb_spec (len pre + (1 + len post)) (len pre)).
    { pose proof (len_nonneg post). lia. }
    cbn. done.
  - rewrite at_app by done. rewrite !len_app, !len_cons. destruct (Z.leb_spec (len pre + (1 + (1 + len post))) (len pre)).
    { pose proof (len_nonneg post). lia. }
    destruct (land_pointer hi Hhi) as [-> ->]. cbn. done.
  - rewrite at_app by done. destruct (land_label (len label)) as (-> & -> & ->); [lia|].
    destruct (Z.leb_spec (len (pre ++ len label :: (label ++ rest) ++ post)) (len pre)) as [H|_].
    { rewrite len_app, len_cons in H. pose proof (len_nonneg ((label ++ rest) ++ post)). lia. }
    specialize (IH fuel (pre ++ len label :: label)%list post ltac:(lia)).
    rewrite len_app, len_cons in IH. rewrite <- !app_assoc in *. cbn [app] in IH.
    rewrite len_cons, len_app. rewrite IH. lia.
Qed.

Lemma skip_dns_name_wire name pre post : name_wire 127 name ->
  _skip_dns_name (pre ++ name ++ post) (len pre) = len pre + len name.
Proof. intros H. eapply skip_name_wire; [exact H|lia]. Qed.

Section Walks.
Context (skip : bytes -> Z -> Z).
Hypothesis skip_wire : forall name pre post, name_wire 127 name -> skip (pre ++ name ++ post) (len pre) = len pre + len name.

Lemma question_wires name t c qs :
  concat (question_wire <$> (name, t, c) :: qs) = (name ++ (be 2 t ++ be 2 c) ++ concat (question_wire <$> qs))%list.
Proof. rewrite fmap_cons. cbn [concat]. unfold question_wire at 1. cbn [fst snd]. by rewrite <- !app_assoc. Qed.

Lemma skip_questions_wire qs : forall pre post, Forall question_ok qs ->
  skip_questions skip (length qs) (pre ++ concat (question_wire <$> qs) ++ post) (len pre) =
  len pre + len (concat (question_wire <$> qs)).
Proof.
  induction qs as [|[[name t] c] qs IH]; intros pre post Hq.
  { unfold len. cbn [length skip_questions concat fmap list_fmap]. lia. }
  apply Forall_cons in Hq as [Hn Hq]. cbn [length]. cbn [skip_questions]. rewrite question_wires. rewrite <- !(app_assoc name).
  rewrite (skip_wire name) by exact Hn. specialize (IH (pre ++ name ++ be 2 t ++ be 2 c)%list post Hq).
  rewrite <- !app_assoc in *. replace (len pre + len name + 4) with (len (pre ++ name ++ be 2 t ++ be 2 c)) by (rewrite !len_app, !len_be; lia).
  rewrite IH, !len_app. lia.
Qed.

(** The fields of a record that begins at [off]. *)
Lemma record_fields (pre name ty cl ttl rdlen rdata tail : bytes) (off : Z) :
  off = len pre + len name -> len ty = 2 -> len cl = 2 -> len ttl = 4 -> len rdlen = 2 ->
  let data := (pre ++ name ++ ty ++ cl ++ ttl ++ rdlen ++ rdata ++ tail)%list in
  slice off (off + 2) data = ty /\ slice (off + 8) (off + 10) data = rdlen /\
  slice (off + 10) (off + 10 + len rdata) data = rdata /\ off + 10 + len rdata <= len data.
Proof.
  intros -> H1 H2 H3 H4 data. split; [|split; [|split]].
  - replace data with ((pre ++ name) ++ ty ++ (cl ++ ttl ++ rdlen ++ rdata ++ tail))%list by (unfold data; by rewrite <- !app_assoc).
    apply slice_at; rewrite len_app; lia.
  - replace data with ((pre ++ name ++ ty ++ cl ++ ttl) ++ rdlen ++ (rdata ++ tail))%list by (unfold data; by rewrite <- !app_assoc).
    apply slice_at; rewrite !len_app; lia.
  - replace data with ((pre ++ name ++ ty ++ cl ++ ttl ++ rdlen) ++ rdata ++ tail)%list by (unfold data; by rewrite <- !app_assoc).
    apply slice_at; rewrite !len_app; lia.
  - unfold data. rewrite !len_app. pose proof (len_nonneg tail). lia.
Qed.

Lemma answers_wire rs : forall n pre post, Forall record_ok rs -> (n <= length rs)%nat ->
  walk_answers skip n (pre ++ concat (record_wire <$> rs) ++ post) (len pre) = (take n rs ≫= a_record).
Proof.
  induction rs as [|r rs IH]; intros [|n] pre post Hr Hn; try done; [cbn in Hn; lia|].
  apply Forall_cons in Hr as [(Hname & Ht & Hd & Hb) Hr]. cbn [take walk_answers]. rewrite bind_cons, fmap_cons. cbn [concat].
  set (tail := (concat (record_wire <$> rs) ++ post)%list). rewrite <- !app_assoc. fold tail.
  assert (Ew : (pre ++ record_wire r ++ tail)%list =
    (pre ++ r_name r ++ be 2 (r_type r) ++ be 2 (r_class r) ++ be 4 (r_ttl r) ++ be 2 (len (r_data r)) ++ r_data r ++ tail)%list)
    by (unfold record_wire; by rewrite <- !app_assoc).
  rewrite Ew, (skip_wire (r_name r)) by done. set (data := (pre ++ r_name r ++ _)%list) in *. set (off := len pre + len (r_name r)).
  destruct (record_fields pre (r_name r) (be 2 (r_type r)) (be 2 (r_class r)) (be 4 (r_ttl r)) (be 2 (len (r_data r))) (r_data r) tail off
    eq_refl (len_be _ _) (len_be _ _) (len_be _ _) (len_be _ _)) as (S1 & S2 & S3 & Hlen). fold data in S1, S2, S3, Hlen.
  pose proof (len_nonneg (r_data r)). destruct (Z.ltb_spec (len data) (off + 10)) as [|_]; [lia|].
  rewrite S1, S2, !be_val_be by (cbn; lia). f_equal.
  - unfold a_record. destruct (r_type r =? 1); [|done]. destruct (Z.eqb_spec (len (r_data r)) 4) as [E4|]; [|done].
    rewrite E4 in S3, Hlen. destruct (Z.leb_spec (off + 10 + 4) (len data)); [|lia]. cbn [andb]. by rewrite S3.
  - specialize (IH n (pre ++ record_wire r)%list post Hr ltac:(cbn in Hn; lia)). rewrite <- IH. rewrite <- !app_assoc. fold tail. rewrite Ew.
    f_equal. rewrite len_app. unfold record_wire, off. rewrite !len_app, !len_be. lia.
Qed.
End Walks.

(** C29. An answer is read as RFC 1035 writes it: for every message with encoded names of at most 127 labels,
    compressed or not, whatever questions it has and whatever follows the answers, the result is the addresses of
    the A records among its first 20 answers, in their order; other records are skipped over. *)
Theorem parse_dns_response_spec m : message_ok m ->
  _parse_dns_response (message_wire m) = (take 20 (m_answers m) ≫= a_record).
Proof.
  intros (Hq & Ha & Fq & Fa). unfold _parse_dns_response.
  set (pre := (be 2 (m_id m) ++ be 2 (m_flags m) ++ be 2 (Z.of_nat (length (m_questions m))) ++ be 2 (Z.of_nat (length (m_answers m)))
    ++ be 2 (m_ns m) ++ be 2 (m_ar m))%list).
  assert (Ew : message_wire m = (pre ++ concat (question_wire <$> m_questions m) ++ concat (record_wire <$> m_answers m) ++ m_more m)%list)
    by (unfold message_wire, pre; by rewrite <- !app_assoc).
  assert (Hp : len pre = 12) by (unfold pre; rewrite !len_app, !len_be; done).
  assert (S1 : slice 4 6 (message_wire m) = be 2 (Z.of_nat (length (m_questions m)))).
  { unfold message_wire. rewrite (app_assoc (be 2 (m_id m))). apply slice_at; rewrite !len_app, !len_be; done. }
  assert (S2 : slice 6 8 (message_wire m) = be 2 (Z.of_nat (length (m_answers m)))).
  { unfold message_wire. rewrite (app_assoc (be 2 (m_id m))), (app_assoc (be 2 (m_id m) ++ _)).
    apply slice_at; rewrite !len_app, !len_be; done. }
  rewrite S1, S2, !be_val_be by (cbn; lia). rewrite Ew.
  destruct (Z.ltb_spec (len (pre ++ concat (question_wire <$> m_questions m) ++ concat (record_wire <$> m_answers m) ++ m_more m)) 12) as [H|_].
  { rewrite len_app, Hp in H. pose proof (len_nonneg (concat (question_wire <$> m_questions m) ++ concat (record_wire <$> m_answers m) ++ m_more m)). lia. }
  destruct (Z.eqb_spec (Z.of_nat (length (m_answers m))) 0) as [E0|_].
  { destruct (m_answers m); [done|]. cbn in E0. lia. }
  rewrite Nat2Z.id, <- Hp, (skip_questions_wire _ skip_dns_name_wire), <- len_app by done. rewrite app_assoc.
  replace (Z.to_nat (Z.min (Z.of_nat (length (m_answers m))) 20)) with (Nat.min (length (m_answers m)) 20) by lia.
  rewrite (answers_wire _ skip_dns_name_wire) by (done || lia).
  destruct (Nat.le_ge_cases (length (m_answers m)) 20).
  - rewrite Nat.min_l by done. by rewrite !take_ge.
  - by rewrite Nat.min_r.
Qed.

(** Whatever bytes arrive, the result is at most 20 IPv4 addresses. *)
Lemma quad_is_address l : length l = 4%nat -> Forall is_byte l -> exists n, parse_v4 (dotted_quad l) = Some n.
Proof.
  intros Hl Hb. destruct l as [|a [|b [|c [|d [|]]]]]; try done. rewrite !Forall_cons in Hb. destruct Hb as (Ha & Hb & Hc & Hd & _).
  eexists. by apply quad_read.
Qed.

Lemma slice_bytes a b data : Forall is_byte data -> Forall is_byte (slice a b data).
Proof. intros H. unfold slice. by apply Forall_take, Forall_drop. Qed.

Lemma length_slice a b data : 0 <= a -> 0 <= b - a -> b <= len data -> length (slice a b data) = Z.to_nat (b - a).
Proof. intros. unfold slice, len in *. rewrite length_take, length_drop. lia. Qed.

Lemma skip_name_nonneg fuel data : forall offset, 0 <= offset -> 0 <= skip_name fuel data offset.
Proof.
  induction fuel as [|fuel IH]; intros offset Ho; cbn [skip_name]; [done|].
  destruct (_ <=? _); [done|]. destruct (_ =? 0); [lia|]. destruct (_ =? 192); [lia|]. apply IH.
  enough (0 <= Z.land (byte_at data offset) 63) by lia. apply Z.land_nonneg. by right.
Qed.

Lemma be_val_nonneg l : Forall is_byte l -> 0 <= be_val l.
Proof.
  induction l as [|b l IH] using rev_ind; [done|]. rewrite be_val_app. intros [Hl Hb]%Forall_app.
  apply Forall_cons in Hb as [Hb _]. unfold is_byte in Hb. specialize (IH Hl). lia.
Qed.

Section Safe.
Context (skip : bytes -> Z -> Z).
Hypothesis skip_nonneg : forall data offset, 0 <= offset -> 0 <= skip data offset.

Lemma answers_safe n data : forall offset, 0 <= offset -> Forall is_byte data ->
  (length (walk_answers skip n data offset) <= n)%nat /\
  Forall (fun ip => exists a, parse_v4 ip = Some a) (walk_answers skip n data offset).
Proof.
  induction n as [|n IH]; intros offset Ho Hd; cbn [walk_answers]; [by split|].
  set (off := skip data offset). assert (0 <= off) by by apply skip_nonneg.
  destruct (len data <? off + 10); [split; [cbn; lia|done]|].
  pose proof (be_val_nonneg _ (slice_bytes (off + 8) (off + 10) data Hd)) as Hl.
  destruct (IH (off + 10 + be_val (slice (off + 8) (off + 10) data)) ltac:(lia) Hd) as [H1 H2].
  rewrite length_app, Forall_app. destruct (_ && _) eqn:E; [|cbn; split; [lia|by split]].
  apply andb_prop in E as [_ E]. apply Z.leb_le in E. split; [cbn; lia|]. split; [|done]. apply Forall_singleton.
  apply quad_is_address; [|by apply slice_bytes]. rewrite length_slice by lia. by replace (off + 10 + 4 - (off + 10)) with 4 by lia.
Qed.
End Safe.

Lemma skip_questions_nonneg skip n data : (forall data offset, 0 <= offset -> 0 <= skip data offset) ->
  forall offset, 0 <= offset -> 0 <= skip_questions skip n data offset.
Proof.
  intros Hs. induction n as [|n IH]; intros offset Ho; cbn [skip_questions]; [done|]. apply IH. pose proof (Hs data offset Ho). lia.
Qed.


(** ** The query against RFC 1035 *)

(** The encoding of a list of labels. *)
Fixpoint plain_name (labels : list bytes) : bytes :=
  match labels with [] => [0] | l :: labels => (len l :: l ++ plain_name labels)%list end.

Lemma len_ascii s : len (ascii_bytes s) = Z.of_nat (String.length s).
Proof.
  unfold len, ascii_bytes. rewrite length_fmap. f_equal. induction s as [|c s IH]; [done|]. cbn. by rewrite IH.
Qed.

Lemma ascii_bytes_ok s : Forall is_byte (ascii_bytes s).
Proof.
  apply Forall_fmap, Forall_forall. intros c _. unfold compose, is_byte. pose proof (N_ascii_bounded c). lia.
Qed.

Lemma plain_name_wire n labels : (length labels <= n)%nat ->
  Forall (fun l => 1 <= len l <= 63 /\ Forall is_byte l) labels -> name_wire n (plain_name labels).
Proof.
  intros Hn Hl. revert n Hn. induction Hl as [|l labels [H1 H2] _ IH]; intros n Hn; cbn [plain_name]; [constructor|].
  cbn [length] in Hn. destruct n as [|n]; [lia|]. constructor; [done..|]. apply IH. lia.
Qed.

Definition name_labels (text : string) : list string := filter (fun l => nonempty l = true) (split_char "." text).

Lemma labels_wire_spec parts :
  labels_wire parts =
  if forallb (fun l => (String.length l <=? 255)%nat) (filter (fun l => nonempty l = true) parts)
  then Some (removelast (plain_name (ascii_bytes <$> filter (fun l => nonempty l = true) parts))) else None.
Proof.
  assert (Hne : forall ls, plain_name ls <> []) by (by intros []).
  induction parts as [|p parts IH]; [done|]. cbn [labels_wire]. rewrite filter_cons, IH. destruct (nonempty p) eqn:En; cbn [negb]; [|done].
  rewrite decide_True by done. cbn [forallb]. unfold label_wire. rewrite len_ascii. rewrite fmap_cons. cbn [plain_name]. rewrite len_ascii.
  destruct (Z.ltb_spec 255 (Z.of_nat (String.length p))) as [Hl|Hl].
  - destruct (Nat.leb_spec (String.length p) 255); [lia|done].
  - destruct (Nat.leb_spec (String.length p) 255); [|lia]. cbn [andb mbind option_bind].
    destruct (forallb _ _); [|done]. f_equal.
    change (Z.of_nat (String.length p) :: ascii_bytes p ++ plain_name (ascii_bytes <$> filter (fun l => nonempty l = true) parts))
      with ((Z.of_nat (String.length p) :: ascii_bytes p) ++ plain_name (ascii_bytes <$> filter (fun l => nonempty l = true) parts))%list.
    by rewrite removelast_app.
Qed.

Lemma plain_name_last ls : (removelast (plain_name ls) ++ [0])%list = plain_name ls.
Proof.
  induction ls as [|l ls IH]; [done|]. cbn [plain_name].
  change (len l :: l ++ plain_name ls) with ((len l :: l) ++ plain_name ls)%list.
  rewrite removelast_app by (by destruct ls). by rewrite <- app_assoc, IH.
Qed.

(** A query asks for the name it is given: the labels between the dots, the empty ones left out, follow the header
    in the encoding of RFC 1035, then the type and the class IN, and the program's own reader finds the end of the
    name. Only a label of more than 255 bytes is refused (by an exception); one of 64 to 255 bytes, which the RFC does
    not allow, goes out as it is. *)
Theorem build_dns_query_spec to_ascii domain qtype text :
  _domain_to_dns_ascii to_ascii domain = Some text ->
  let labels := name_labels text in
  _build_dns_query to_ascii domain qtype =
    (if forallb (fun l => (String.length l <=? 255)%nat) labels
     then Some (query_header ++ plain_name (ascii_bytes <$> labels) ++ be 2 qtype ++ be 2 1)%list else None) /\
  (Forall (fun l => (String.length l <= 63)%nat) labels -> (length labels <= 127)%nat ->
   forall tail, _skip_dns_name (query_header ++ plain_name (ascii_bytes <$> labels) ++ tail) 12 =
     12 + len (plain_name (ascii_bytes <$> labels))).
Proof.
  intros Ht labels. split.
  - unfold _build_dns_query. rewrite Ht. cbn [mbind option_bind]. rewrite labels_wire_spec. fold (name_labels text). fold labels.
    destruct (forallb _ labels); [|done]. cbn [mbind option_bind]. by rewrite plain_name_last.
  - intros Hl Hn tail. change 12 with (len query_header). apply skip_dns_name_wire, plain_name_wire; [by rewrite length_fmap|].
    apply Forall_fmap. apply Forall_forall. intros l Hin. rewrite Forall_forall in Hl. specialize (Hl l Hin).
    unfold labels, name_labels in Hin. apply list_elem_of_filter in Hin as [Hne _]. cbn [compose]. unfold compose. rewrite len_ascii.
    split; [|apply ascii_bytes_ok]. split; [|lia]. destruct l; [done|]. cbn. lia.
Qed.

(** ** Runs *)

Definition no_idna (_ : string) : option string := None.

Example ex_query :
  _build_dns_query no_idna " a.bc. " 1 =
  Some [66; 66; 1; 0; 0; 1; 0; 0; 0; 0; 0; 0; 1; 97; 2; 98; 99; 0; 0; 1; 0; 1].
Proof. vm_compute. reflexivity. Qed.

(** A label of 200 bytes is sent with a length byte that reads as a compression pointer, so that the reader stops after
    two bytes; one of 256 bytes raises. *)
Definition letters (n : nat) : string := Nat.iter n (String "a") EmptyString.
Example long_label_is_sent :
  match _build_dns_query no_idna (letters 200) 1 with
  | Some query => byte_at query 12 = 200 /\ _skip_dns_name query 12 = 14 /\ len query = 218
  | None => False
  end /\ _build_dns_query no_idna (letters 256) 1 = None.
Proof. vm_compute. repeat split. Qed.

(** One question, and as answers an alias and two addresses, the names compressed. *)
Definition ex_message : message := {|
  m_id := 16962; m_flags := 33152; m_questions := [(plain_name (ascii_bytes <$> ["a"; "bc"]), 1, 1)];
  m_answers := [Rr [192; 12] 5 1 60 (plain_name (ascii_bytes <$> ["x"; "bc"])); Rr [192; 40] 1 1 60 [93; 184; 216; 34];
                Rr [192; 40] 1 1 60 [1; 1; 1; 1]];
  m_ns := 0; m_ar := 0; m_more := [255]
|}.

Lemma ex_message_ok : message_ok ex_message.
Proof.
  assert (Hn : forall l, (length l <= 127)%nat -> Forall (fun l => 1 <= len l <= 63 /\ Forall is_byte l) l -> name_wire 127 (plain_name l))
    by (intros; by apply plain_name_wire).
  unfold message_ok, ex_message, record_ok, question_ok. cbn [m_questions m_answers length].
  split; [lia|]. split; [lia|]. split.
  - constructor; [|constructor]. apply Hn; [cbn; lia|]. repeat constructor; vm_compute; done.
  - repeat (constructor; [split; [apply wire_pointer; vm_compute; done|split; [cbn; lia|split; [vm_compute; done|repeat constructor; vm_compute; done]]]|]).
    constructor.
Qed.

Lemma parse_dns_response_spec_witness :
  message_ok ex_message /\ _parse_dns_response (message_wire ex_message) = (take 20 (m_answers ex_message) ≫= a_record) /\
  (take 20 (m_answers ex_message) ≫= a_record) = ["93.184.216.34"; "1.1.1.1"].
Proof.
  split; [exact ex_message_ok|]. split; [exact (parse_dns_response_spec ex_message ex_message_ok)|vm_compute; reflexivity].
Defined.

Definition ex_junk : bytes := [0; 0; 0; 0; 0; 0; 255; 255; 0; 0; 0; 0; 192; 12; 0; 1; 0; 1; 0; 0; 0; 0; 0; 4; 9].


Lemma build_dns_query_spec_witness :
  _domain_to_dns_ascii no_idna " a.bc. " = Some "a.bc" /\
  _build_dns_query no_idna " a.bc. " 1 =
    (if forallb (fun l => (String.length l <=? 255)%nat) (name_labels "a.bc")
     then Some (query_header ++ plain_name (ascii_bytes <$> name_labels "a.bc") ++ be 2 1 ++ be 2 1)%list else None) /\
  (Forall (fun l => (String.length l <= 63)%nat) (name_labels "a.bc") -> (length (name_labels "a.bc") <= 127)%nat ->
   forall tail, _skip_dns_name (query_header ++ plain_name (ascii_bytes <$> name_labels "a.bc") ++ tail) 12 =
     12 + len (plain_name (ascii_bytes <$> name_labels "a.bc"))).
Proof.
  assert (H : _domain_to_dns_ascii no_idna " a.bc. " = Some "a.bc") by (vm_compute; reflexivity).
  split; [exact H|]. exact (build_dns_query_spec no_idna " a.bc. " 1 "a.bc" H).
Defined.
