(* ===== verification/SecureDns.v ===== *)
(** * The DNS audit and the cache of a run: [checkers/dns_secure.py]

    Plain UDP answers are compared with those of a trusted DoH resolver; a cache keeps what DoH said, puts pinned
    addresses first and falls back on other resolvers and on records of earlier runs. The network, the clock and
    the stored records are functions of a world [W] that they change; latencies and log lines are left out. *)

From stdpp Require Import base numbers list strings.
From Stdlib Require Import ZArith Lia Ascii.
From S2P Require Import Prelude PyFloat PyExn PyStr PyDict PyJson PyIp IpsetCatalog DnsWire.

#[local] Open Scope string_scope.

(** ** Settings *)

Definition DOH_SERVERS : list (string * string) :=
  [("https://cloudflare-dns.com/dns-query", "Cloudflare"); ("https://dns.google/dns-query", "Google");
   ("https://dns.quad9.net/dns-query", "Quad9"); ("https://dns.adguard-dns.com/dns-query", "AdGuard");
   ("https://dns.yandex.ru/dns-query", "Yandex")].
Definition UNTRUSTED_DOH_URLS : list string := ["https://dns.yandex.ru/dns-query"].
Definition DOH_BOOTSTRAP : list (string * string) :=
  [("cloudflare-dns.com", "1.1.1.1"); ("dns.google", "8.8.8.8"); ("dns.quad9.net", "9.9.9.9");
   ("dns.adguard-dns.com", "94.140.14.14"); ("dns.yandex.ru", "77.88.8.8")].
Definition UDP_DNS_SERVERS : list (string * string) :=
  [("8.8.8.8", "Google"); ("1.1.1.1", "Cloudflare"); ("9.9.9.9", "Quad9")].

(** ** Host names of URLs *)

(** What follows the first [//] of a URL with a scheme, up to the path. *)
Definition url_netloc (url : string) : string :=
  match after_first "://" url with
  | Some rest => before "#" (before "?" (before "/" rest))
  | None => EmptyString
  end.
(** [(urlsplit(url).hostname or "").lower()] of a URL whose host is a name or an IPv4 address. *)
Definition url_host (url : string) : string :=
  lower (before ":" (default EmptyString (last (split_char "@" (url_netloc url))))).

Definition doh_bootstrap_ip (doh_url : string) : option string := dget (url_host doh_url) DOH_BOOTSTRAP.

(** ** Replies *)

(** A DoH request fails with the text of an exception, or it has a status and a body. *)
Inductive json_reply : Type := JsonFails (msg : string) | JsonBody (status : Z) (body : json).
Inductive wire_reply : Type := WireFails (msg : string) | WireBody (status : Z) (body : bytes).
Inductive udp_reply : Type := UdpData (data : bytes) | UdpTimeout | UdpFails (msg : string).

Definition type_name (v : json) : string :=
  match v with
  | JNull => "NoneType" | JBool _ => "bool" | JInt _ => "int" | JFloat _ => "float" | JStr _ => "str" | JList _ => "list"
  | JDict _ => "dict"
  end.
(** [v == n] *)
Definition eq_int (n : Z) (v : json) : bool :=
  match v with
  | JInt z => (z =? n)%Z
  | JBool b => ((if b then 1 else 0) =? n)%Z
  | JFloat f => feq f (f_of_Z n)
  | _ => false
  end.

(** [a["data"] for a in answer if a.get("type") == 1]: an address or the text of the exception. An address that is
    no text is outside the model. *)
Definition answer_ip (a : json) : res (list string) :=
  match a with
  | JDict d =>
      if eq_int 1 (jget "type" d) then
        match dget "data" d with
        | Some (JStr ip) => Done [ip]
        | Some _ => Off
        | None => Exn (Error "'data'")
        end
      else Done []
  | v => Exn (Error ("'" +:+ type_name v +:+ "' object has no attribute 'get'"))
  end.
Fixpoint answer_ips (l : list json) : res (list string) :=
  match l with
  | [] => Done []
  | a :: l => ips ← answer_ip a; rest ← answer_ips l; Done (ips ++ rest)%list
  end.
(** The elements that a [for] takes from a value. *)
Definition elements (v : json) : res (list json) :=
  match v with
  | JList l => Done l
  | JStr s => Done (JStr <$> chars s)
  | JDict d => Done (JStr <$> keys d)
  | v => Exn (Error ("'" +:+ type_name v +:+ "' object is not iterable"))
  end.

Section Dns.
Context {W : Type}.
Context (json_get : string -> string -> W -> json_reply * W).   (* host, URL *)
Context (wire_post : bytes -> string -> W -> wire_reply * W).   (* query, URL *)
Context (udp_exchange : string -> bytes -> W -> udp_reply * W). (* server, query *)
Context (clock : W -> float * W).                               (* time.time() *)
Context (provider_records : W -> option (list (string * list string))).
Context (to_ascii : string -> option string).                   (* encode("idna") outside ASCII *)
Context (codec_error : string -> string).                       (* text of a failed encode *)
Context (py_str : json -> string).
(** [DEFAULT_DOH_SERVER] and the URLs that the settings do not trust. *)
Context (default_doh : string) (untrusted_urls : list string).
(** The sinkhole networks and the family of an address: see [IpsetCatalog]. *)
Context (sinkhole : list net) (cdn_family : string -> option string).

(** The exception of a query that cannot be built. *)
Definition query_error (domain : string) : string :=
  match _domain_to_dns_ascii to_ascii domain with None => codec_error domain | Some _ => "bytes must be in range(0, 256)" end.

Definition udp_resolve (domain server : string) : X W (list string * string) := fun w =>
  match _build_dns_query to_ascii domain 1 with
  | None => (Exn (Error (query_error domain)), w)
  | Some query =>
      let '(r, w) := udp_exchange server query w in
      (Done match r with
            | UdpData data => (_parse_dns_response data, EmptyString)
            | UdpTimeout => ([], "timeout")
            | UdpFails msg => ([], msg)
            end, w)
  end.

(** The body of a JSON answer. *)
Definition json_ips (body : json) : res (list string * string) :=
  match body with
  | JDict d =>
      let dns_status := jget "Status" d in
      if negb (eq_int 0 dns_status) then Done ([], "dns-json status " +:+ py_str dns_status)
      else
        l ← elements (default (JList []) (dget "Answer" d));
        ips ← answer_ips l;
        Done (if decide (ips = []) then ([], "no A records in dns-json") else (ips, EmptyString))
  | v => Exn (Error ("'" +:+ type_name v +:+ "' object has no attribute 'get'"))
  end.

(** An error text of an exception is cut to 80 characters. *)
Definition failed (msg : string) : list string * string := ([], stake 80 msg).

Definition _doh_json_query (domain doh_url : string) : X W (list string * string) := fun w =>
  match _domain_to_dns_ascii to_ascii domain with
  | None => (Done (failed (codec_error domain)), w)
  | Some name =>
      let '(r, w) := json_get name doh_url w in
      (match r with
       | JsonFails msg => Done (failed msg)
       | JsonBody status body =>
           if negb (status =? 200)%Z then Done ([], "http " +:+ str_of_Z status)
           else match json_ips body with
                | Exn (Error msg) => Done (failed msg)
                | r => r
                end
       end, w)
  end.

Definition _doh_wire_query (domain doh_url : string) : X W (list string * string) := fun w =>
  match _build_dns_query to_ascii domain 1 with
  | None => (Done (failed (query_error domain)), w)
  | Some query =>
      let '(r, w) := wire_post query doh_url w in
      (Done match r with
            | WireFails msg => failed msg
            | WireBody status body =>
                if negb (status =? 200)%Z then ([], "http " +:+ str_of_Z status)
                else
                  let rcode := Z.land (be_val (slice 2 4 body)) 15 in
                  if (4 <=? len body)%Z && negb (rcode =? 0)%Z then ([], "dns-wire rcode " +:+ str_of_Z rcode)
                  else match _parse_dns_response body with
                       | [] => ([], "no A records in dns-wire")
                       | ips => (ips, EmptyString)
                       end
            end, w)
  end.

Definition or_else (a b : string) : string := if nonempty a then a else b.

Definition doh_query (domain doh_url : string) : X W (list string * string) :=
  '(ips, err) ← _doh_json_query domain doh_url;
  if decide (ips <> []) then mret (ips, EmptyString) else
  '(ips2, err2) ← _doh_wire_query domain doh_url;
  if decide (ips2 <> []) then mret (ips2, EmptyString) else mret ([], or_else err err2).

(** ** Resolvers *)

Definition doh_is_trusted (url : string) : bool :=
  let u := rstrip_by (Ascii.eqb "/") url in
  bool_decide (u ∉ untrusted_urls) && bool_decide (url_host u ∉ url_host <$> untrusted_urls).
Definition trusted_doh_servers : list (string * string) := filter (fun s => doh_is_trusted s.1 = true) DOH_SERVERS.
Definition untrusted_doh_servers : list (string * string) := filter (fun s => doh_is_trusted s.1 = false) DOH_SERVERS.

(** [candidates.extend(url for url, _ in pool if url not in candidates)] *)
Definition doh_candidates : list string :=
  let first := if nonempty default_doh && doh_is_trusted default_doh then [default_doh] else [] in
  (first ++ dedup first (fst <$> trusted_doh_servers))%list.
Fixpoint first_working (candidates : list string) : X W (option string) :=
  match candidates with
  | [] => mret None
  | url :: candidates =>
      '(ips, err) ← doh_query "cloudflare.com" url;
      if decide (ips <> [] /\ err = EmptyString) then mret (Some url) else first_working candidates
  end.
Definition pick_working_doh : X W (option string) := first_working doh_candidates.
(** [doh_url or pick_working_doh() or ""] *)
Definition url_or_pick (doh_url : string) : X W string :=
  if nonempty doh_url then mret doh_url else u ← pick_working_doh; mret (default EmptyString u).

(** ** The audit *)

Record DnsAuditResult : Type := Audit {
  a_domain : string; udp_ips : list string; doh_ips : list string; tampering_detected : bool; verdict : string;
  description : string; a_doh_server : string; udp_server : string; udp_name : string;
  udp_error : option string; doh_error : option string; untrusted_doh : list (string * list string)
}.

Definition _sinkhole_ip (ips : list string) : list string := strip <$> filter (fun raw => ip_in_nets raw sinkhole = true) ips.

(** The address as a number when it is an IPv4 address. *)
Definition _same_slash16 (a b : string) : bool :=
  match ip_address (strip a), ip_address (strip b) with
  | Some (Addr4 x), Some (Addr4 y) => (Z.shiftr x 16 =? Z.shiftr y 16)%Z
  | _, _ => false
  end.
(** [{f for ip in ips if (f := _cdn_family(ip))}] *)
Definition families_of (ips : list string) : list string := filter (fun f => nonempty f = true) (omap cdn_family ips).
Definition _anycast_equivalent (udp_ips doh_ips : list string) : bool :=
  if bool_decide (udp_ips = []) || bool_decide (doh_ips = []) then false
  else existsb (fun f => bool_decide (f ∈ families_of doh_ips)) (families_of udp_ips)
       || existsb (fun u => existsb (_same_slash16 u) doh_ips) udp_ips.

(** The verdict on the two answers: tampering, verdict, description. *)
Definition audit_verdict (udp_ips doh_ips : list string) : bool * string * string :=
  let bad_udp := _sinkhole_ip udp_ips in
  let bad_doh := _sinkhole_ip doh_ips in
  if negb (bool_decide (bad_udp = [])) || negb (bool_decide (bad_doh = [])) then
    (true, "sinkhole", "Sinkhole/bogon DNS answer: " +:+ join ", " (if decide (bad_udp = []) then bad_doh else bad_udp))
  else match udp_ips, doh_ips with
       | [], [] => (false, "no_resolution", "No DNS resolution via UDP or DoH")
       | _, [] => (false, "doh_blocked", "DoH blocked — cannot verify DNS integrity")
       | [], _ => (false, "udp_blocked", "UDP DNS blocked")
       | _, _ =>
           if existsb (fun ip => bool_decide (ip ∈ doh_ips)) udp_ips then (false, "ok", "UDP and DoH overlap — no hijack")
           else if _anycast_equivalent udp_ips doh_ips then (false, "ok", "UDP and DoH differ (CDN/anycast)")
           else (true, "tampered", "UDP " +:+ join ", " (take 3 udp_ips) +:+ " vs DoH " +:+ join ", " (take 3 doh_ips))
       end.

(** The loop over the UDP servers: the last server asked, the addresses, the last error. *)
Fixpoint udp_loop (domain : string) (servers : list (string * string)) (last : string * string) (err0 : option string)
    : X W (list string * (string * string) * option string) :=
  match servers with
  | [] => mret ([], last, err0)
  | (server, name) :: servers =>
      '(ips, err) ← udp_resolve domain server;
      if decide (ips <> [] /\ err = EmptyString) then mret (ips, (server, name), err0)
      else udp_loop domain servers (server, name) (if nonempty err then Some err else err0)
  end.

(** [doh_url or pick_working_doh()], asked again when the choice is not trusted. *)
Definition choose_doh (doh_url : string) : X W string :=
  doh ← url_or_pick doh_url;
  if nonempty doh && doh_is_trusted doh then mret doh else url_or_pick EmptyString.

Fixpoint ask_untrusted (domain : string) (servers : list (string * string)) : X W (list (string * list string)) :=
  match servers with
  | [] => mret []
  | (url, name) :: servers =>
      '(ips, _) ← doh_query domain url;
      rest ← ask_untrusted domain servers;
      mret ((name, ips) :: rest)
  end.

Definition audit_domain (domain doh_url : string) : X W DnsAuditResult :=
  '(udp, last, uerr) ← udp_loop domain UDP_DNS_SERVERS (EmptyString, EmptyString) None;
  doh ← choose_doh doh_url;
  '(ips, err) ← (if nonempty doh then doh_query domain doh else mret ([], "no working DoH"));
  untrusted ← ask_untrusted domain untrusted_doh_servers;
  let '(tampered, v, descr) := audit_verdict udp ips in
  mret (Audit domain udp ips tampered v descr doh last.1 last.2 uerr (if nonempty err then Some err else None) (dict_of untrusted)).

Fixpoint audit_each (domains : list string) (doh_url : string) : X W (list DnsAuditResult) :=
  match domains with
  | [] => mret []
  | d :: domains => r ← audit_domain d doh_url; rest ← audit_each domains doh_url; mret (r :: rest)
  end.
Definition audit_domains (domains : list string) (doh_url : string) : X W (list DnsAuditResult) :=
  doh ← url_or_pick doh_url; audit_each domains doh.

Definition has_dns_hijack (results : list DnsAuditResult) : bool := existsb tampering_detected results.
Definition has_dns_sinkhole (results : list DnsAuditResult) : bool := existsb (fun r => String.eqb (verdict r) "sinkhole") results.

(** ** The cache *)

Record DnsRunCache : Type := Cache {
  ttl_sec : float; doh_server : string; entries : list (string * (list string * float)); pins_ : list (string * string)
}.
Definition new_cache (ttl : float) (server : string) : DnsRunCache := Cache ttl server [] [].

Definition set_entries (e : list (string * (list string * float))) (c : DnsRunCache) : DnsRunCache :=
  Cache (ttl_sec c) (doh_server c) e (pins_ c).
Definition set_server (s : string) (c : DnsRunCache) : DnsRunCache := Cache (ttl_sec c) s (entries c) (pins_ c).

(** [get]: an entry that is too old is deleted. *)
Definition cache_get (domain : string) (c : DnsRunCache) (w : W) : option (list string) * DnsRunCache * W :=
  match dget domain (entries c) with
  | None => (None, c, w)
  | Some (ips, ts) =>
      let '(now, w) := clock w in
      if flt (ttl_sec c) (fsub now ts) then (None, set_entries (ddel domain (entries c)) c, w) else (Some ips, c, w)
  end.
Definition cache_set (domain : string) (ips : list string) (c : DnsRunCache) (w : W) : DnsRunCache * W :=
  let '(now, w) := clock w in (set_entries (dset domain (ips, now) (entries c)) c, w).

Definition set_pins (pins : list (string * string)) (c : DnsRunCache) : DnsRunCache :=
  Cache (ttl_sec c) (doh_server c) (entries c) (filter (fun kv => nonempty kv.2 = true) pins).
Definition add_pin (domain ip : string) (c : DnsRunCache) : DnsRunCache :=
  if nonempty ip then Cache (ttl_sec c) (doh_server c) (entries c) (dset domain ip (pins_ c)) else c.
Definition pinned_ip (domain : string) (c : DnsRunCache) : option string := dget domain (pins_ c).
Definition cached_domains (c : DnsRunCache) : list string := keys (entries c).
Definition clear (c : DnsRunCache) : DnsRunCache := set_entries [] c.

Definition _pinned_first (domain : string) (ips : list string) (c : DnsRunCache) : list string :=
  match dget domain (pins_ c) with
  | Some pin =>
      if negb (nonempty pin) then ips
      else if decide (pin ∉ ips) then pin :: ips
      else if negb (bool_decide (head ips = Some pin)) then pin :: filter (fun i => i <> pin) ips
      else ips
  | None => ips
  end.

Definition _data_block_dns_ips (domain : string) (w : W) : list string :=
  match provider_records w with Some recs => default [] (dget domain recs) | None => [] end.

(** The state of the methods that ask the network: the cache and the world. *)
Definition C (A : Type) : Type := X (DnsRunCache * W) A.
Definition net_ {A} (m : X W A) : C A := fun s => let '(r, w) := m s.2 in (r, (s.1, w)).
Definition get (domain : string) : C (option (list string)) := fun s =>
  let '(r, c, w) := cache_get domain s.1 s.2 in (Done r, (c, w)).
Definition put_entry (domain : string) (ips : list string) : C unit := fun s => (Done tt, cache_set domain ips s.1 s.2).
Definition pinned_list (domain : string) (ips : list string) : C (list string) := gets (fun s => _pinned_first domain ips s.1).

(** The loop over the other resolvers. *)
Fixpoint rotate (domain url : string) (servers : list (string * string)) : C (option (list string)) :=
  match servers with
  | [] => mret None
  | (alt, _) :: servers =>
      if String.eqb alt url then rotate domain url servers else
      '(ips2, err2) ← net_ (doh_query domain alt);
      if decide (ips2 <> [] /\ err2 = EmptyString) then
        _ ← modify (fun s => (set_server alt s.1, s.2));
        _ ← put_entry domain ips2;
        mret (Some ips2)
      else rotate domain url servers
  end.

(** What is done when the cache holds nothing: the addresses before the pin is put first. *)
Definition resolve_live (domain url : string) : C (list string) :=
  '(ips, err) ← net_ (doh_query domain url);
  if decide (ips <> [] /\ err = EmptyString) then _ ← put_entry domain ips; mret ips else
  alt ← rotate domain url trusted_doh_servers;
  match alt with
  | Some ips2 => mret ips2
  | None =>
      cached_ips ← gets (fun s => _data_block_dns_ips domain s.2);
      if decide (cached_ips <> []) then _ ← put_entry domain cached_ips; mret cached_ips else mret ips
  end.

Definition pick_url (doh_url : string) : C string :=
  server ← gets (fun s => doh_server s.1);
  url ← net_ (url_or_pick (or_else doh_url server));
  _ ← (if nonempty url && negb (nonempty server) then modify (fun s => (set_server url s.1, s.2)) else mret tt);
  mret url.

Definition resolve (domain doh_url : string) : C (list string) :=
  cached ← get domain;
  match cached with
  | Some ((_ :: _) as ips) => pinned_list domain ips
  | _ =>
      url ← pick_url doh_url;
      if negb (nonempty url) then pinned_list domain []
      else ips ← resolve_live domain url; pinned_list domain ips
  end.

Definition primary_ip (domain doh_url : string) : C (option string) := ips ← resolve domain doh_url; mret (head ips).

Definition candidates (domain : string) : C (list string) :=
  cached ← get domain;
  match cached with
  | Some ((_ :: _) as ips) => mret ips
  | _ => catch (resolve domain EmptyString) (fun _ => mret [])
  end.

Definition prime (domains : list string) (doh_url : string) : C unit :=
  url ← net_ (url_or_pick doh_url);
  _ ← (if nonempty url then modify (fun s => (set_server url s.1, s.2)) else mret tt);
  for_each domains (fun domain => _ ← resolve domain url; mret tt).

(** ** A run *)

(** What a method returns, and the cache after it. *)
Definition with_cache {A} (c : DnsRunCache) (m : C A) : X W (A * DnsRunCache) := fun w =>
  let '(r, (c, w)) := m (c, w) in (a ← r; Done (a, c), w).

(** The cache, the audits, the exit code. *)
Definition prepare_dns_for_run (ttl : float) (domains : list string) (secure_dns skip_audit allow_hijack : bool) (doh_server_ : string)
    : X W (option DnsRunCache * list DnsAuditResult * Z) :=
  if negb secure_dns then mret (None, [], 0%Z) else
  url ← url_or_pick doh_server_;
  results ← (if skip_audit then mret [] else audit_domains domains url);
  if has_dns_sinkhole results && negb allow_hijack then mret (Some (new_cache ttl url), results, 1%Z)
  else c ← with_cache (new_cache ttl url) (prime domains url); mret (Some c.2, results, 0%Z).

(** The loop of [filter_resolvable_domains]: the domains that are kept and those that are dropped. *)
Fixpoint split_resolvable (domains : list string) : C (list string * list string) :=
  match domains with
  | [] => mret ([], [])
  | domain :: domains =>
      pin ← gets (fun s => pinned_ip domain s.1);
      keep ← (if match pin with Some p => nonempty p | None => false end then mret true
              else ip ← primary_ip domain EmptyString; mret (match ip with Some i => nonempty i | None => false end));
      '(kept, dropped) ← split_resolvable domains;
      mret (if (keep : bool) then (domain :: kept, dropped) else (kept, domain :: dropped))
  end.
Definition filter_resolvable_domains (domains : list string) (cache : option DnsRunCache)
    : X W (list string * list string * option DnsRunCache) :=
  match cache with
  | None => mret (domains, [], None)
  | Some c => r ← with_cache c (split_resolvable domains); mret (r.1, Some r.2)
  end.
End Dns.
