(* ===== verification/DnsSpec.v ===== *)
(** * What the audit and the cache promise

    The verdict of an audit is that of its two answers and only a trusted resolver takes part in it; the cache
    puts a pin first, keeps only answers and changes nothing but the entry that is asked for; a run is refused
    exactly on a sinkhole. *)

From stdpp Require Import base numbers list strings.
From Stdlib Require Import ZArith Lia Ascii.
From S2P Require Import Prelude PyFloat PyExn PyStr PyDict PyJson PyIp IpsetCatalog DnsWire SecureDns.

#[local] Open Scope string_scope.

(** ** The verdict *)

#[local] Set Default Proof Using "Type".

Section Verdict.
Context (sinkhole : list net) (cdn_family : string -> option string).

Definition sunk (ips : list string) : Prop := exists ip, ip ∈ ips /\ ip_in_nets ip sinkhole = true.
Definition agreeing (udp doh : list string) : Prop :=
  (exists ip, ip ∈ udp /\ ip ∈ doh) \/ _anycast_equivalent cdn_family udp doh = true.

Lemma sinkhole_ip_ne ips : _sinkhole_ip sinkhole ips <> [] <-> sunk ips.
Proof.
  unfold _sinkhole_ip. split.
  - intros Hn. destruct (filter (fun raw => ip_in_nets raw sinkhole = true) ips) as [|ip l] eqn:E; [done|].
    exists ip. assert (ip ∈ filter (fun raw => ip_in_nets raw sinkhole = true) ips) as [H1 H2]%list_elem_of_filter
      by (rewrite E; by left). done.
  - intros (ip & Hi & Hs) E%fmap_nil_inv. assert (ip ∈ filter (fun raw => ip_in_nets raw sinkhole = true) ips) as Hin
      by (by apply list_elem_of_filter). rewrite E in Hin. by apply elem_of_nil in Hin.
Qed.

(** What each verdict means. *)
Definition verdict_means (udp doh : list string) (v : string) : Prop :=
  (v = "sinkhole" /\ (sunk udp \/ sunk doh)) \/
  (~ sunk udp /\ ~ sunk doh /\
   ((v = "no_resolution" /\ udp = [] /\ doh = []) \/ (v = "doh_blocked" /\ udp <> [] /\ doh = []) \/
    (v = "udp_blocked" /\ udp = [] /\ doh <> []) \/
    (udp <> [] /\ doh <> [] /\ ((v = "ok" /\ agreeing udp doh) \/ (v = "tampered" /\ ~ agreeing udp doh))))).

Lemma overlap_spec (udp doh : list string) : existsb (fun ip => bool_decide (ip ∈ doh)) udp = true <-> exists ip, ip ∈ udp /\ ip ∈ doh.
Proof.
  rewrite existsb_exists. split; intros (ip & H1 & H2); exists ip.
  - apply bool_decide_eq_true in H2. by rewrite list_elem_of_In.
  - rewrite <- list_elem_of_In. split; [done|by apply bool_decide_eq_true].
Qed.

Lemma audit_verdict_core udp doh :
  let '(tampered, v, _) := audit_verdict sinkhole cdn_family udp doh in
  verdict_means udp doh v /\ (tampered = true <-> v ∈ ["sinkhole"; "tampered"]).
Proof.
  unfold audit_verdict, verdict_means. pose proof (sinkhole_ip_ne udp) as Hu. pose proof (sinkhole_ip_ne doh) as Hd.
  destruct (negb (bool_decide (_sinkhole_ip sinkhole udp = [])) || negb (bool_decide (_sinkhole_ip sinkhole doh = []))) eqn:E.
  - split; [left; split; [done|]|split; [intros _; by left|done]].
    apply orb_prop in E as [E|E]; apply negb_true_iff, bool_decide_eq_false in E; [left|right]; tauto.
  - apply orb_false_iff in E as [E1 E2]. apply negb_false_iff, bool_decide_eq_true in E1, E2.
    assert (~ sunk udp) by tauto. assert (~ sunk doh) by tauto.
    assert (Hx : forall v, v ∈ ["sinkhole"; "tampered"] <-> v = "sinkhole" \/ v = "tampered").
    { intros v. rewrite !elem_of_cons, elem_of_nil. tauto. }
    destruct udp as [|u ul], doh as [|d dl]; try (rewrite Hx; split; [right; naive_solver|split; [done|by intros [?|?]]]).
    pose proof (overlap_spec (u :: ul) (d :: dl)) as Ho. destruct (existsb _ (u :: ul)) eqn:Eo.
    { rewrite Hx. split; [|split; [done|by intros [?|?]]]. right. split; [done|]. split; [done|]. right; right; right.
      split; [done|]. split; [done|]. left. split; [done|]. left. by apply Ho. }
    destruct (_anycast_equivalent cdn_family (u :: ul) (d :: dl)) eqn:Ea; rewrite Hx.
    + split; [|split; [done|by intros [?|?]]]. right. split; [done|]. split; [done|]. right; right; right.
      split; [done|]. split; [done|]. left. split; [done|]. by right.
    + split; [|split; [by right|done]]. right. split; [done|]. split; [done|]. right; right; right.
      split; [done|]. split; [done|]. right. split; [done|]. intros [H1|H1]; [apply Ho in H1|]; congruence.
Qed.
End Verdict.

(** ** The resolvers *)

Section Run.
Context {W : Type}.
Context (json_get : string -> string -> W -> json_reply * W) (wire_post : bytes -> string -> W -> wire_reply * W).
Context (udp_exchange : string -> bytes -> W -> udp_reply * W) (clock : W -> float * W).
Context (provider_records : W -> option (list (string * list string))).
Context (to_ascii : string -> option string) (codec_error : string -> string) (py_str : json -> string).
Context (default_doh : string) (untrusted_urls : list string).
Context (sinkhole : list net) (cdn_family : string -> option string).

Notation doh_query := (doh_query json_get wire_post to_ascii codec_error py_str).
Notation pick_working_doh := (pick_working_doh json_get wire_post to_ascii codec_error py_str default_doh untrusted_urls).
Notation url_or_pick := (url_or_pick json_get wire_post to_ascii codec_error py_str default_doh untrusted_urls).
Notation choose_doh := (choose_doh json_get wire_post to_ascii codec_error py_str default_doh untrusted_urls).
Notation trusted := (doh_is_trusted untrusted_urls).

(** Nothing but an [Error] comes out of reading a reply. *)
Definition no_cancel {A} (r : res A) : Prop := match r with Exn Cancelled => False | _ => True end.

Lemma answer_ips_no_cancel l : no_cancel (answer_ips l).
Proof.
  induction l as [|a l IH]; [done|]. cbn [answer_ips]. unfold mbind, res_bind.
  assert (no_cancel (answer_ip a)) as Ha.
  { destruct a; try done. cbn [answer_ip]. destruct (eq_int 1 _); [|done]. by destruct (dget "data" _) as [[]|]. }
  destruct (answer_ip a) as [ips|[]|]; try done. by destruct (answer_ips l) as [?|[]|].
Qed.

Lemma json_ips_no_cancel body : no_cancel (json_ips py_str body).
Proof.
  destruct body; try done. cbn [json_ips]. destruct (negb _); [done|]. unfold mbind, res_bind.
  destruct (elements _) as [l|e|] eqn:E.
  - pose proof (answer_ips_no_cancel l) as H. destruct (answer_ips l) as [ips|[]|]; try done.
  - destruct (default _ _); cbn [elements] in E; try done; by simplify_eq.
  - done.
Qed.

(** A DoH question never raises. *)
Lemma json_query_never_raises domain url (s : W) :
  wp (_doh_json_query json_get to_ascii codec_error py_str domain url) (fun r _ => match r with Exn _ => False | _ => True end) s.
Proof.
  unfold wp, _doh_json_query. destruct (_domain_to_dns_ascii _ _); [|done].
  destruct (json_get _ _ _) as [[msg|status body] w]; [done|]. destruct (negb _); [done|].
  pose proof (json_ips_no_cancel body). by destruct (json_ips _ _) as [?|[]|].
Qed.
Lemma wire_query_never_raises domain url (s : W) :
  wp (_doh_wire_query wire_post to_ascii codec_error domain url) (fun r _ => exists a, r = Done a) s.
Proof.
  unfold wp, _doh_wire_query. destruct (_build_dns_query _ _ _); [|by eexists].
  destruct (wire_post _ _ _); by eexists.
Qed.

Definition clean_answer (a : list string * string) : Prop := a.1 = [] \/ a.2 = EmptyString.
Definition returns {S A} (P : A -> Prop) (r : res A) (_ : S) : Prop :=
  match r with Done a => P a | Exn _ => False | Off => True end.

Lemma doh_query_spec domain url (s : W) : wp (doh_query domain url) (returns clean_answer) s.
Proof.
  unfold SecureDns.doh_query. wp_steps. eapply wp_mono; [apply json_query_never_raises|].
  intros [[ips err]|e|] s'; [|done|done]. intros _. destruct (decide _) as [Hi|Hi]; [apply wp_ret; by right|].
  wp_steps. eapply wp_mono; [apply wire_query_never_raises|]. intros r s'' [[ips2 err2] ->].
  destruct (decide _); apply wp_ret; [by right|by left].
Qed.

(** Only a trusted resolver is picked. *)
Definition trusted_or_none (u : string) : Prop := u = EmptyString \/ trusted u = true.

Lemma candidates_trusted : Forall (fun u => trusted u = true) (doh_candidates default_doh untrusted_urls).
Proof.
  unfold doh_candidates. apply Forall_app. split.
  - destruct (nonempty default_doh); cbn [andb]; [|done]. destruct (trusted default_doh) eqn:E; [|done]. by constructor.
  - apply Forall_forall. intros u Hu. apply elem_of_dedup in Hu as [Hu _]. apply list_elem_of_fmap in Hu as (p & -> & Hp).
    by apply list_elem_of_filter in Hp as [Hp _].
Qed.

Lemma first_working_spec urls : Forall (fun u => trusted u = true) urls -> forall s : W,
  wp (first_working json_get wire_post to_ascii codec_error py_str urls)
     (returns (fun u => trusted_or_none (default EmptyString u))) s.
Proof.
  induction 1 as [|u urls Hu _ IH]; intros s; cbn [first_working]; [apply wp_ret; by left|].
  wp_steps. eapply wp_mono; [apply doh_query_spec|]. intros [[ips err]|e|] s'; [|done|done]. intros _.
  destruct (decide _); [|apply IH]. apply wp_ret. by right.
Qed.

Lemma url_or_pick_spec url (s : W) :
  wp (url_or_pick url) (returns (fun u => if nonempty url then u = url else trusted_or_none u)) s.
Proof.
  unfold SecureDns.url_or_pick. destruct (nonempty url); [by apply wp_ret|]. wp_steps.
  eapply wp_mono; [apply first_working_spec, candidates_trusted|]. by intros [u|e|] s'.
Qed.

Lemma choose_doh_spec url (s : W) : wp (choose_doh url) (returns trusted_or_none) s.
Proof.
  unfold SecureDns.choose_doh. wp_steps. eapply wp_mono; [apply url_or_pick_spec|].
  intros [doh|e|] s'; [|done|done]. intros _. destruct (nonempty doh && trusted doh) eqn:E.
  - apply wp_ret. right. by apply andb_prop in E as [_ E].
  - apply (url_or_pick_spec EmptyString).
Qed.

Lemma udp_loop_spec domain servers : forall last0 err0 (s : W),
  wp (udp_loop udp_exchange to_ascii codec_error domain servers last0 err0)
     (fun r _ => match r with
                 | Done (ips, asked, _) => (ips <> [] -> asked ∈ servers) /\ (ips = [] -> asked = default last0 (last servers))
                 | Exn _ => _build_dns_query to_ascii domain 1 = None
                 | Off => False
                 end) s.
Proof.
  induction servers as [|[server name] servers IH]; intros last0 err0 s; cbn [udp_loop].
  { apply wp_ret. split; [done|]. done. }
  wp_steps. unfold wp at 1, udp_resolve. destruct (_build_dns_query to_ascii domain 1) as [q|] eqn:Eq; [|done].
  destruct (udp_exchange server q s) as [r s']. destruct (match r with UdpData _ => _ | UdpTimeout => _ | UdpFails _ => _ end) as [ips err].
  cbn beta iota. destruct (decide _) as [[Hi He]|Hn].
  - apply wp_ret. split; [intros _; by left|done].
  - eapply wp_mono; [apply IH|]. intros [[[ips' asked] e]|e|] s'' H; [|done|done].
    destruct H as [H1 H2]. split; [intros Hi; right; by apply H1|]. intros Hi. rewrite (H2 Hi).
    rewrite last_cons. by destruct (last servers).
Qed.

Lemma ask_untrusted_spec domain servers (s : W) :
  wp (ask_untrusted json_get wire_post to_ascii codec_error py_str domain servers) (returns (fun l => l.*1 = servers.*2)) s.
Proof.
  revert s. induction servers as [|[url name] servers IH]; intros s; cbn [ask_untrusted]; [by apply wp_ret|].
  wp_steps. eapply wp_mono; [apply doh_query_spec|]. intros [[ips err]|e|] s'; [|done|done]. intros _.
  wp_steps. eapply wp_mono; [apply IH|]. intros [l|e|] s''; [|done|done]. intros H. apply wp_ret. cbn. by f_equal.
Qed.

(** What an audit says. *)
Definition audit_sound (domain : string) (a : DnsAuditResult) : Prop :=
  a_domain a = domain /\
  verdict_means sinkhole cdn_family (udp_ips a) (doh_ips a) (verdict a) /\
  (tampering_detected a = true <-> verdict a ∈ ["sinkhole"; "tampered"]) /\
  trusted_or_none (a_doh_server a) /\
  (doh_ips a <> [] -> a_doh_server a <> EmptyString /\ doh_error a = None) /\
  (udp_server a, udp_name a) ∈ UDP_DNS_SERVERS.

Notation audit_domain := (audit_domain json_get wire_post udp_exchange to_ascii codec_error py_str default_doh untrusted_urls sinkhole cdn_family).
Notation audit_domains := (audit_domains json_get wire_post udp_exchange to_ascii codec_error py_str default_doh untrusted_urls sinkhole cdn_family).

(** An audit ends with a sound result, or the query of its domain cannot be built. *)
Definition audited {A} (domains : list string) (P : A -> Prop) (r : res A) (_ : W) : Prop :=
  match r with
  | Done a => P a
  | Exn _ => exists d, d ∈ domains /\ _build_dns_query to_ascii d 1 = None
  | Off => True
  end.

Lemma audit_domain_core domain url (s : W) : wp (audit_domain domain url) (audited [domain] (audit_sound domain)) s.
Proof.
  unfold SecureDns.audit_domain. wp_steps. eapply wp_mono; [apply udp_loop_spec|].
  intros [[[udp asked] uerr]|e|] s1 H1; [|exists domain; split; [by left|done]|done]. destruct H1 as [H1 H1'].
  assert (asked ∈ UDP_DNS_SERVERS) as Hasked.
  { destruct udp; [rewrite (H1' eq_refl)|by apply H1]. apply list_elem_of_In. right; right; left. reflexivity. }
  wp_steps. eapply wp_mono; [apply choose_doh_spec|]. intros [doh|e|] s2 H2; [|done|done].
  wp_steps. eapply (wp_mono _ (returns (fun a => clean_answer a /\ (a.1 <> [] -> doh <> EmptyString)))).
  { destruct (nonempty doh) eqn:Ed; [|by apply wp_ret; split; [left|]].
    eapply wp_mono; [apply doh_query_spec|]. intros [[ips err]|e|] s3; [|done|done]. intros Hc. split; [done|].
    intros _ ->. done. }
  intros [[ips err]|e|] s3 H3; [|done|done]. destruct H3 as [Hclean Hdoh].
  wp_steps. eapply wp_mono; [apply ask_untrusted_spec|]. intros [un|e|] s4 H4; [|done|done].
  pose proof (audit_verdict_core sinkhole cdn_family udp ips) as Hv. destruct (audit_verdict _ _ udp ips) as [[t v] descr].
  apply wp_ret. destruct Hv as [Hv Ht]. repeat split; cbn; try done; try apply Ht; try by destruct asked.
  - by apply Hdoh.
  - destruct Hclean as [Hc|Hc]; cbn in Hc; by subst.
Qed.

Lemma audit_each_core url domains (s : W) :
  wp (audit_each json_get wire_post udp_exchange to_ascii codec_error py_str default_doh untrusted_urls sinkhole cdn_family domains url)
     (audited domains (Forall2 audit_sound domains)) s.
Proof.
  revert s. induction domains as [|d domains IH]; intros s; cbn [audit_each]; [apply wp_ret; constructor|].
  wp_steps. eapply wp_mono; [apply audit_domain_core|].
  intros [a|e|] s1 H1; [|destruct H1 as (d' & ->%list_elem_of_singleton & H1); exists d; split; [by left|done]|done].
  wp_steps. eapply wp_mono; [apply IH|].
  intros [l|e|] s2 H2; [|destruct H2 as (d' & Hd & H2); exists d'; split; [by right|done]|done].
  apply wp_ret. by constructor.
Qed.

Lemma audit_domains_core url domains (s : W) : wp (audit_domains domains url) (audited domains (Forall2 audit_sound domains)) s.
Proof.
  unfold SecureDns.audit_domains. wp_steps. eapply wp_mono; [apply url_or_pick_spec|].
  intros [u|e|] s1 H1; [|done|done]. apply audit_each_core.
Qed.


(** ** The cache *)

Notation cache_state := (DnsRunCache * W)%type.
Notation resolve := (resolve json_get wire_post clock provider_records to_ascii codec_error py_str default_doh untrusted_urls).

(** One entry per domain, none empty; no empty pin. *)
Definition cache_ok (c : DnsRunCache) : Prop :=
  wf (entries c) /\ wf (pins_ c) /\
  (forall d ips ts, dget d (entries c) = Some (ips, ts) -> ips <> []) /\
  (forall d pin, dget d (pins_ c) = Some pin -> pin <> EmptyString).

(** What a call on one domain keeps of the cache [c]. *)
Definition only_entry (domain : string) (c c' : DnsRunCache) : Prop :=
  cache_ok c' /\ pins_ c' = pins_ c /\ ttl_sec c' = ttl_sec c /\
  (forall d, d <> domain -> dget d (entries c') = dget d (entries c)).

Lemma only_entry_refl domain c : cache_ok c -> only_entry domain c c.
Proof. by split. Qed.
Lemma only_entry_trans domain c1 c2 c3 : only_entry domain c1 c2 -> only_entry domain c2 c3 -> only_entry domain c1 c3.
Proof.
  intros (_ & Hp1 & Ht1 & H1) (Hc & Hp2 & Ht2 & H2).
  split; [done|]. split; [congruence|]. split; [congruence|]. intros d Hd. rewrite (H2 d Hd). by apply H1.
Qed.
Lemma only_entry_server domain u c : cache_ok c -> only_entry domain c (set_server u c).
Proof. by split. Qed.
Lemma only_entry_set domain ips ts c : cache_ok c -> ips <> [] -> only_entry domain c (set_entries (dset domain (ips, ts) (entries c)) c).
Proof.
  intros (H1 & H2 & H3 & H4) Hi. split; [|split; [done|split; [done|]]].
  - split; [by apply wf_set|]. split; [done|]. split; [|done]. cbn [entries set_entries]. intros d ips' ts'.
    rewrite dget_set. case_decide; [by intros [= <- <-]|apply H3].
  - intros d Hd. by apply dget_set_ne.
Qed.
Lemma only_entry_del domain c : cache_ok c -> only_entry domain c (set_entries (ddel domain (entries c)) c).
Proof.
  intros (H1 & H2 & H3 & H4). split; [|split; [done|split; [done|]]].
  - split; [by apply wf_del|]. split; [done|]. split; [|done]. cbn [entries set_entries]. intros d ips' ts' E.
    destruct (decide (domain = d)) as [->|Hd]; [by rewrite dget_del_eq in E|]. rewrite dget_del_ne in E by done. by eapply H3.
  - intros d Hd. by apply dget_del_ne.
Qed.

Lemma pinned_first_core domain ips c : cache_ok c ->
  match dget domain (pins_ c) with
  | None => _pinned_first domain ips c = ips
  | Some pin => head (_pinned_first domain ips c) = Some pin /\ (forall ip, ip ∈ _pinned_first domain ips c <-> ip = pin \/ ip ∈ ips)
  end.
Proof.
  intros (_ & _ & _ & Hp). unfold _pinned_first. destruct (dget domain (pins_ c)) as [pin|] eqn:E; [|done].
  apply Hp in E. assert (nonempty pin = true) as -> by (by destruct pin). cbn [negb].
  case_decide as Hin; [split; [done|]; intros ip; by rewrite elem_of_cons|].
  destruct (bool_decide (head ips = Some pin)) eqn:Eh; cbn [negb].
  - apply bool_decide_eq_true in Eh. split; [done|]. intros ip. split; [by right|by intros [->|]].
  - split; [done|]. intros ip. rewrite elem_of_cons, list_elem_of_filter. destruct (decide (ip = pin)) as [->|Hn]; [by split; left|].
    split; (intros [Hi|Hi]; [done|right]); [apply Hi|by split].
Qed.

(** What is raw about an answer: the entry of its domain, or nothing at all. *)
Definition backed (domain : string) (c : DnsRunCache) (raw : list string) : Prop :=
  raw = [] \/ exists ts, dget domain (entries c) = Some (raw, ts).

Lemma store_spec domain ips (s : cache_state) : cache_ok s.1 -> ips <> [] ->
  wp (put_entry clock domain ips)
     (fun r s' => r = Done tt /\ only_entry domain s.1 s'.1 /\ doh_server s'.1 = doh_server s.1 /\ backed domain s'.1 ips) s.
Proof.
  intros Hc Hi. unfold wp, put_entry, cache_set. destruct (clock s.2) as [now w]. cbn.
  split; [done|]. split; [by apply only_entry_set|]. split; [done|]. right. exists now. apply dget_set_eq.
Qed.

Lemma get_spec domain (s : cache_state) : cache_ok s.1 ->
  wp (get clock domain)
     (fun r s' => match r with
                  | Done cached => only_entry domain s.1 s'.1 /\ doh_server s'.1 = doh_server s.1 /\
                      (forall ips, cached = Some ips -> s'.1 = s.1 /\ ips <> [] /\ backed domain s'.1 ips)
                  | _ => False
                  end) s.
Proof.
  intros Hc. unfold wp, get, cache_get. destruct (dget domain (entries s.1)) as [[ips ts]|] eqn:E.
  - destruct (clock s.2) as [now w]. destruct (flt _ _); cbn.
    + split; [by apply only_entry_del|done].
    + split; [by apply only_entry_refl|]. split; [done|]. intros ips' [= <-]. split; [done|].
      split; [by eapply Hc|]. right. by exists ts.
  - cbn. split; [by apply only_entry_refl|done].
Qed.

Lemma wp_net {A} (m : X W A) (Q : res A -> cache_state -> Prop) (s : cache_state) :
  wp m (fun r w => Q r (s.1, w)) s.2 -> wp (net_ m) Q s.
Proof. unfold wp, net_. by destruct (m s.2). Qed.

(** The resolver a call leaves in the cache: the one it had, the one it was asked for, or a trusted one. *)
Definition server_from (url : string) (c c' : DnsRunCache) : Prop :=
  doh_server c' = doh_server c \/ doh_server c' = url \/ trusted (doh_server c') = true.

Lemma rotate_spec domain url servers (s : cache_state) :
  Forall (fun sv => trusted sv.1 = true) servers -> cache_ok s.1 ->
  wp (rotate json_get wire_post clock to_ascii codec_error py_str domain url servers)
     (fun r s' => match r with
                  | Done got => only_entry domain s.1 s'.1 /\ server_from url s.1 s'.1 /\
                      match got with Some ips => ips <> [] /\ backed domain s'.1 ips | None => s'.1 = s.1 end
                  | Exn _ => False
                  | Off => True
                  end) s.
Proof.
  intros Ht. revert s. induction Ht as [|[alt name] servers Ha _ IH]; intros s Hc; cbn [rotate].
  { apply wp_ret. split; [by apply only_entry_refl|]. split; [by left|done]. }
  destruct (String.eqb alt url); [by apply IH|]. wp_steps. apply wp_net. eapply wp_mono; [apply doh_query_spec|].
  intros [[ips err]|e|] w; [|done|done]. intros _. destruct (decide _) as [[Hi He]|Hn]; [|by apply (IH (s.1, w))].
  wp_steps. eapply wp_mono; [apply store_spec; [|done]; by cbn|]. intros r s' (-> & H1 & H2 & H3). apply wp_ret.
  split; [eapply only_entry_trans; [by apply only_entry_server|done]|].
  split; [right; right; by rewrite H2|done].
Qed.

Lemma trusted_servers_trusted : Forall (fun sv => trusted sv.1 = true) (trusted_doh_servers untrusted_urls).
Proof. apply Forall_forall. intros sv Hsv. by apply list_elem_of_filter in Hsv as [Hsv _]. Qed.

(** A call that ends without an exception. *)
Definition ends {S A} (P : A -> S -> Prop) (r : res A) (s : S) : Prop :=
  match r with Done a => P a s | Exn _ => False | Off => True end.

Lemma resolve_live_spec domain url (s : cache_state) : cache_ok s.1 ->
  wp (resolve_live json_get wire_post clock provider_records to_ascii codec_error py_str untrusted_urls domain url)
     (ends (fun raw s' => only_entry domain s.1 s'.1 /\ server_from url s.1 s'.1 /\ backed domain s'.1 raw)) s.
Proof.
  intros Hc. unfold resolve_live. wp_steps. apply wp_net. eapply wp_mono; [apply doh_query_spec|].
  intros [[ips err]|e|] w; [|done|done]. intros Hclean. destruct (decide _) as [[Hi He]|Hn].
  - wp_steps. eapply wp_mono; [apply store_spec; [|done]; by cbn|]. intros r s' (-> & H1 & H2 & H3). apply wp_ret.
    split; [done|]. split; [by left|done].
  - wp_steps. eapply wp_mono; [apply rotate_spec; [apply trusted_servers_trusted|]; by cbn|].
    intros [got|e|] s1 H1; [|done|done]. destruct H1 as (H1 & H2 & H3). destruct got as [ips2|].
    { apply wp_ret. split; [done|]. split; [done|apply H3]. }
    wp_steps. destruct (decide _) as [Hr|Hr].
    + wp_steps. eapply wp_mono; [apply store_spec; [by apply H1|done]|]. intros r s' (-> & H4 & H5 & H6). apply wp_ret.
      split; [by eapply only_entry_trans|]. split; [|done]. unfold server_from in *. by rewrite H5.
    + apply wp_ret. split; [done|]. split; [done|]. left. destruct Hclean as [Hc'|Hc']; [done|].
      destruct (decide (ips = [])) as [|Hne]; [done|]. by destruct Hn.
Qed.

Lemma pick_url_spec url (s : cache_state) :
  wp (pick_url json_get wire_post to_ascii codec_error py_str default_doh untrusted_urls url)
     (ends (fun u s' => (s'.1 = s.1 \/ s'.1 = set_server u s.1) /\
                        (u = url \/ u = doh_server s.1 \/ trusted_or_none u) /\ server_from url s.1 s'.1)) s.
Proof.
  unfold pick_url. wp_steps. apply wp_net. eapply wp_mono; [apply url_or_pick_spec|].
  intros [u|e|] w; [|done|done]. intros Hu. cbn [returns] in Hu.
  assert (u = url \/ u = doh_server s.1 \/ trusted_or_none u) as Hu'.
  { destruct (nonempty (or_else url (doh_server s.1))); [|by right; right]. subst u. unfold or_else.
    destruct (nonempty url); [by left|by right; left]. }
  wp_steps. destruct (nonempty u && negb (nonempty (doh_server s.1))) eqn:E.
  - wp_steps. split; [by right|]. split; [done|]. apply andb_prop in E as [E1 E2]. unfold server_from. cbn.
    destruct Hu' as [->|[->|[->|Ht]]]; [by right; left|by left|done|by right; right].
  - wp_steps. split; [by left|]. split; [done|]. by left.
Qed.

(** What a resolution answers: the entry of its domain with the pin in front. *)
Definition resolved (domain url : string) (c : DnsRunCache) (ips : list string) (c' : DnsRunCache) : Prop :=
  only_entry domain c c' /\ server_from url c c' /\
  exists raw, ips = _pinned_first domain raw c' /\ backed domain c' raw.

Lemma resolve_core domain url (s : cache_state) : cache_ok s.1 ->
  wp (resolve domain url) (ends (fun ips s' => resolved domain url s.1 ips s'.1)) s.
Proof.
  intros Hc. unfold SecureDns.resolve. wp_steps. eapply wp_mono; [by apply get_spec|].
  intros [cached|e|] s1 H1; [|done|done]. destruct H1 as (H1 & H2 & H3).
  assert (cache_ok s1.1) as Hc1 by apply H1.
  assert (wp (url' ← pick_url json_get wire_post to_ascii codec_error py_str default_doh untrusted_urls url;
              if negb (nonempty url') then pinned_list domain []
              else ips ← resolve_live json_get wire_post clock provider_records to_ascii codec_error py_str untrusted_urls domain url'; pinned_list domain ips)
             (ends (fun ips s' => resolved domain url s.1 ips s'.1)) s1) as Hlive.
  { wp_steps. eapply wp_mono; [apply pick_url_spec|]. intros [u|e|] s2 H4; [|done|done]. destruct H4 as (H4 & H5 & H6).
    assert (only_entry domain s.1 s2.1) as H7.
    { destruct H4 as [->| ->]; [done|]. eapply only_entry_trans; [exact H1|]. by apply only_entry_server. }
    assert (server_from url s.1 s2.1) as H8 by (unfold server_from in *; by rewrite H2 in H6).
    destruct (negb (nonempty u)) eqn:Eu.
    - apply wp_gets. split; [done|]. split; [done|]. exists []. split; [done|by left].
    - wp_steps. eapply wp_mono; [apply resolve_live_spec, H7|]. intros [raw|e|] s3 H9; [|done|done].
      destruct H9 as (H9 & H10 & H11). apply wp_gets. split; [by eapply only_entry_trans|]. split; [|by exists raw].
      unfold server_from in *. destruct H10 as [->|[->|H10]]; [done| |by right; right].
      destruct H5 as [->|[->|[->|H5]]]; [by right; left|rewrite <- H2; by left|done|by right; right]. }
  destruct cached as [[|ip l]|]; [exact Hlive| |exact Hlive].
  apply wp_gets. destruct (H3 _ eq_refl) as (H4 & H5 & H6). split; [done|]. split; [by left|]. exists (ip :: l). by split.
Qed.

(** A resolution never raises and keeps the cache well formed: at most one entry per domain and none empty. It
    leaves the pins and the entries of the other domains alone; the addresses it gives are those it leaves in
    the cache for the domain (or none at all) with the pinned address, when there is one, in front; the resolver
    it leaves in the cache is the one it had, the one it was asked for, or a trusted one. An entry that is not
    too old is answered without the network. *)
Theorem resolve_spec domain url c (w w' : W) c' r :
  cache_ok c -> resolve domain url (c, w) = (r, (c', w')) ->
  ends (fun ips c' => resolved domain url c ips c' /\
                      match dget domain (pins_ c) with
                      | Some pin => head ips = Some pin /\
                          (forall ip, ip ∈ ips -> ip = pin \/ exists e, dget domain (entries c') = Some e /\ ip ∈ e.1)
                      | None => ips = [] \/ exists ts, dget domain (entries c') = Some (ips, ts)
                      end) r c' /\
  (forall old ts now w1, dget domain (entries c) = Some (old, ts) -> clock w = (now, w1) ->
     flt (ttl_sec c) (fsub now ts) = false -> r = Done (_pinned_first domain old c) /\ c' = c /\ w' = w1).
Proof.
  intros Hc E. split.
  - pose proof (wp_run _ _ _ _ _ (resolve_core domain url (c, w) Hc) E) as H. destruct r as [ips|e|]; [cbn [ends fst] in *|done|done].
    split; [done|]. destruct H as ((Hok & Hp & _ & _) & _ & raw & -> & Hb).
    pose proof (pinned_first_core domain raw c' Hok) as Hf. rewrite Hp in Hf. destruct (dget domain (pins_ c)) as [pin|].
    + destruct Hf as [Hf1 Hf2]. split; [done|]. intros ip [->|Hi]%Hf2; [by left|].
      destruct Hb as [->|[ts Hb]]; [by apply elem_of_nil in Hi|]. right. by exists (raw, ts).
    + by rewrite Hf.
  - intros old ts now w1 Ho Hk Hl. destruct Hc as (_ & _ & Hne & _). pose proof (Hne _ _ _ Ho) as Hne'.
    revert E. unfold SecureDns.resolve, mbind, X_bind, get, cache_get. cbn [fst snd]. rewrite Ho, Hk, Hl.
    destruct old as [|ip old]; [done|]. unfold pinned_list, gets. by intros [= <- <- <-].
Qed.

(** The cache of a run holds entries of the run's domains only. *)
Definition within (domains : list string) (c c' : DnsRunCache) : Prop :=
  cache_ok c' /\ pins_ c' = pins_ c /\ ttl_sec c' = ttl_sec c /\
  (forall d, d ∉ domains -> dget d (entries c') = dget d (entries c)).

Lemma within_step domains domain c1 c2 c3 : domain ∈ domains -> within domains c1 c2 -> only_entry domain c2 c3 -> within domains c1 c3.
Proof.
  intros Hd (_ & Hp1 & Ht1 & H1) (Hc & Hp2 & Ht2 & H2). split; [done|]. split; [congruence|]. split; [congruence|].
  intros d Hn. rewrite H2; [by apply H1|]. by intros ->.
Qed.

Lemma prime_spec domains url (s : cache_state) : cache_ok s.1 ->
  wp (prime json_get wire_post clock provider_records to_ascii codec_error py_str default_doh untrusted_urls domains url)
     (ends (fun _ s' => within domains s.1 s'.1)) s.
Proof.
  intros Hc. unfold prime. wp_steps. apply wp_net. eapply wp_mono; [apply url_or_pick_spec|].
  intros [u|e|] w; [|done|done]. intros _. wp_steps.
  eapply (wp_mono _ (fun r s' => r = Done tt /\ within domains s.1 s'.1)).
  { destruct (nonempty u); [apply wp_modify|apply wp_ret]; done. }
  intros r s1 [-> H1]. eapply (wp_for_each _ (fun _ s' => within domains s.1 s'.1) _ _ []); [done| |done].
  intros _ d s2 Hd H2. wp_steps. eapply wp_mono; [apply resolve_core, H2|]. intros [ips|e|] s3 H3; [|done|done].
  apply wp_ret. eapply within_step; [exact Hd|exact H2|apply H3].
Qed.

Lemma prepare_core ttl domains secure skip allow server (s : W) :
  wp (prepare_dns_for_run json_get wire_post udp_exchange clock provider_records to_ascii codec_error py_str default_doh
        untrusted_urls sinkhole cdn_family ttl domains secure skip allow server)
     (audited domains (fun '(cache, results, code) =>
        if secure then
          (if skip then results = [] else Forall2 audit_sound domains results) /\
          (code = 1%Z <-> allow = false /\ exists a, a ∈ results /\ verdict a = "sinkhole") /\
          (exists c, cache = Some c /\ cache_ok c /\ pins_ c = [] /\
             (code = 1%Z -> entries c = []) /\ (forall d, d ∈ keys (entries c) -> d ∈ domains))
        else cache = None /\ results = [] /\ code = 0%Z)) s.
Proof.
  unfold prepare_dns_for_run. destruct secure; cbn [negb]; [|by apply wp_ret]. wp_steps.
  eapply wp_mono; [apply url_or_pick_spec|]. intros [u|e|] s1; [|done|done]. intros _. wp_steps.
  eapply (wp_mono _ (audited domains (fun results => if skip then results = [] else Forall2 audit_sound domains results))).
  { destruct skip; [by apply wp_ret|apply audit_domains_core]. }
  intros [results|e|] s2 H2; [|done|done].
  assert (has_dns_sinkhole results = true <-> exists a, a ∈ results /\ verdict a = "sinkhole") as Hs.
  { unfold has_dns_sinkhole. rewrite existsb_exists. setoid_rewrite list_elem_of_In.
    split; intros (a & H1 & H3); exists a; (split; [done|]); by apply String.eqb_eq in H3 || apply String.eqb_eq. }
  assert (cache_ok (new_cache ttl u)) as Hnew by (split; [apply wf_nil|]; split; [apply wf_nil|done]).
  destruct (has_dns_sinkhole results && negb allow) eqn:E.
  - apply wp_ret. apply andb_prop in E as [E1 E2%negb_true_iff]. split; [exact H2|]. split; [split; [|done]|].
    { intros _. split; [done|]. by apply Hs. }
    exists (new_cache ttl u). split; [done|]. split; [done|]. split; [done|]. split; [done|]. intros d Hd. by apply elem_of_nil in Hd.
  - wp_steps. unfold wp, with_cache. pose proof (prime_spec domains u (new_cache ttl u, s2) Hnew) as Hp. unfold wp in Hp.
    destruct (prime _ _ _ _ _ _ _ _ _ domains u (new_cache ttl u, s2)) as [[a|e|] [c s3]]; [|done|done].
    cbn in Hp. destruct Hp as (Hok & Hpins & _ & He). cbn. split; [exact H2|]. split.
    + split; [done|]. intros [-> Hx]. apply Hs in Hx. by rewrite Hx in E.
    + exists c. split; [done|]. split; [done|]. split; [done|]. split; [done|]. intros d Hd.
      destruct (decide (d ∈ domains)) as [|Hn]; [done|]. apply He in Hn. apply elem_of_keys in Hd as [x Hx]. by rewrite Hn in Hx.
Qed.

(** Before a run, with the audit on, the domains are compared one by one; the run is refused (code 1) exactly when
    some domain resolves to a sinkhole and that is not allowed, and then nothing has been cached; otherwise the
    cache is well formed, holds domains of the run only and no pins. Without secure DNS nothing is asked. The
    preparation raises only on a domain whose query cannot be built. *)
Theorem prepare_dns_spec ttl domains secure skip allow server (w w' : W) r :
  prepare_dns_for_run json_get wire_post udp_exchange clock provider_records to_ascii codec_error py_str default_doh
    untrusted_urls sinkhole cdn_family ttl domains secure skip allow server w = (r, w') ->
  audited domains (fun '(cache, results, code) =>
    if secure then
      (if skip then results = [] else Forall2 audit_sound domains results) /\
      (code = 1%Z <-> allow = false /\ exists a, a ∈ results /\ verdict a = "sinkhole") /\
      (exists c, cache = Some c /\ cache_ok c /\ pins_ c = [] /\
         (code = 1%Z -> entries c = []) /\ (forall d, d ∈ keys (entries c) -> d ∈ domains))
    else cache = None /\ results = [] /\ code = 0%Z) r w'.
Proof. intros E. exact (wp_run _ _ _ _ _ (prepare_core ttl domains secure skip allow server w) E). Qed.

Lemma within_trans ds1 ds2 c1 c2 c3 : within ds1 c1 c2 -> within ds2 c2 c3 -> within (ds1 ++ ds2) c1 c3.
Proof.
  intros (_ & Hp1 & Ht1 & H1) (Hc & Hp2 & Ht2 & H2). split; [done|]. split; [congruence|]. split; [congruence|].
  intros d [Hd1 Hd2]%not_elem_of_app. rewrite H2 by done. by apply H1.
Qed.

Lemma within_one domain c1 c2 : only_entry domain c1 c2 -> within [domain] c1 c2.
Proof.
  intros (Hc & Hp & Ht & H). split; [done|]. split; [done|]. split; [done|]. intros d Hd. apply H. intros ->.
  apply Hd. by left.
Qed.

(** One domain of the filter: kept when it is pinned or it has an address. *)
Lemma keep_spec domain (s : cache_state) : cache_ok s.1 ->
  wp (if match pinned_ip domain s.1 with Some p => nonempty p | None => false end then mret true
      else ip ← primary_ip json_get wire_post clock provider_records to_ascii codec_error py_str default_doh untrusted_urls domain EmptyString;
           mret (match ip with Some i => nonempty i | None => false end))
     (ends (fun (keep : bool) s' => within [domain] s.1 s'.1 /\
              (keep = true -> is_Some (dget domain (pins_ s.1)) \/ is_Some (dget domain (entries s'.1))) /\
              (keep = false -> dget domain (pins_ s.1) = None))) s.
Proof.
  intros Hc. unfold pinned_ip. destruct (dget domain (pins_ s.1)) as [pin|] eqn:E.
  { assert (nonempty pin = true) as -> by (apply Hc in E; by destruct pin). apply wp_ret. split; [|split; [intros _; left; by eexists|done]].
    by apply within_one, only_entry_refl. }
  wp_steps. unfold primary_ip. wp_steps. eapply wp_mono; [by apply resolve_core|]. intros [ips|e|] s1 H1; [|done|done].
  destruct H1 as (H1 & _ & raw & -> & Hb). wp_steps. split; [by apply within_one|]. split; [|done].
  intros Hk. right. pose proof (pinned_first_core domain raw s1.1 ltac:(apply H1)) as Hf.
  assert (pins_ s1.1 = pins_ s.1) as Hp by apply H1. rewrite Hp, E in Hf. rewrite Hf in Hk.
  destruct Hb as [->|[ts Hb]]; [done|by eexists].
Qed.

Lemma split_resolvable_spec domains (s : cache_state) : cache_ok s.1 ->
  wp (split_resolvable json_get wire_post clock provider_records to_ascii codec_error py_str default_doh untrusted_urls domains)
     (ends (fun '(kept, dropped) s' => within domains s.1 s'.1 /\ kept ++ dropped ≡ₚ domains /\
              kept `sublist_of` domains /\ dropped `sublist_of` domains /\
              (forall d, d ∈ dropped -> dget d (pins_ s.1) = None) /\
              (NoDup domains -> forall d, d ∈ kept -> is_Some (dget d (pins_ s.1)) \/ is_Some (dget d (entries s'.1))))) s.
Proof.
  revert s. induction domains as [|domain domains IH]; intros s Hc; cbn [split_resolvable].
  { apply wp_ret. split; [by split|]. split; [done|]. split; [done|]. split; [done|].
    split; [intros d Hd; by apply elem_of_nil in Hd|intros _ d Hd; by apply elem_of_nil in Hd]. }
  wp_steps. eapply wp_mono; [by apply keep_spec|]. intros [keep|e|] s1 H1; [|done|done]. destruct H1 as (Hw1 & Hk1 & Hk2).
  wp_steps. eapply wp_mono; [apply IH, Hw1|]. intros [[kept dropped]|e|] s2 H2; [|done|done].
  destruct H2 as (Hw2 & Hperm & Hs1 & Hs2 & Hd & Hk). apply wp_ret.
  assert (pins_ s1.1 = pins_ s.1) as Hp by apply Hw1. rewrite Hp in Hd, Hk.
  assert (within (domain :: domains) s.1 s2.1) as Hw by exact (within_trans _ _ _ _ _ Hw1 Hw2).
  destruct keep; (split; [exact Hw|]).
  - split; [by apply Permutation_skip|]. split; [by constructor|]. split; [by constructor|]. split; [done|].
    intros [Hn Hnd]%NoDup_cons d [->|Hi]%elem_of_cons; [|by apply Hk]. destruct (Hk1 eq_refl) as [H|H]; [by left|right].
    destruct Hw2 as (_ & _ & _ & He). by rewrite (He domain Hn).
  - split; [by rewrite <- Permutation_middle, Hperm|]. split; [by constructor|]. split; [by constructor|].
    split; [intros d [->|Hi]%elem_of_cons; [by apply Hk2|by apply Hd]|]. intros [_ Hnd]%NoDup_cons d Hi. by apply Hk.
Qed.

(** Filtering the domains of a run never raises and keeps the cache well formed. Every domain is kept or dropped,
    in the order of the run; a dropped domain has no pin, and when no domain is listed twice a kept one has a
    pin or an entry in the cache. Without a cache every domain is kept. *)
Theorem filter_resolvable_spec domains cache (w w' : W) r :
  (forall c, cache = Some c -> cache_ok c) ->
  filter_resolvable_domains json_get wire_post clock provider_records to_ascii codec_error py_str default_doh untrusted_urls
    domains cache w = (r, w') ->
  match r with
  | Done (kept, dropped, cache') =>
      kept ++ dropped ≡ₚ domains /\ kept `sublist_of` domains /\ dropped `sublist_of` domains /\
      match cache, cache' with
      | Some c, Some c' =>
          within domains c c' /\ (forall d, d ∈ dropped -> dget d (pins_ c) = None) /\
          (NoDup domains -> forall d, d ∈ kept -> is_Some (dget d (pins_ c)) \/ is_Some (dget d (entries c')))
      | None, None => dropped = []
      | _, _ => False
      end
  | Exn _ => False
  | Off => True
  end.
Proof.
  intros Hc. unfold filter_resolvable_domains. destruct cache as [c|].
  - pose proof (split_resolvable_spec domains (c, w) (Hc c eq_refl)) as H. unfold wp in H. unfold with_cache, mbind, X_bind.
    destruct (split_resolvable _ _ _ _ _ _ _ _ _ domains (c, w)) as [[[kept dropped]|e|] [c' w1]]; cbn; intros [= <- <-]; [|done|done].
    destruct H as (H1 & H2 & H3 & H4 & H5 & H6). exact (conj H2 (conj H3 (conj H4 (conj H1 (conj H5 H6))))). 
  - intros [= <- <-]. rewrite app_nil_r. split; [done|]. split; [done|]. split; [apply sublist_nil_l|done].
Qed.

(** The addresses a pin is tried on: without an entry the pin comes first, though it is asked for the addresses
    without it. *)
Theorem candidates_without_entry domain c (w w' : W) c' ips :
  cache_ok c -> dget domain (entries c) = None ->
  candidates json_get wire_post clock provider_records to_ascii codec_error py_str default_doh untrusted_urls domain (c, w) = (Done ips, (c', w')) ->
  forall pin, dget domain (pins_ c) = Some pin -> head ips = Some pin.
Proof.
  intros Hc Hn. unfold candidates. unfold mbind at 1, X_bind at 1, get, cache_get. cbn [fst snd]. rewrite Hn. unfold catch.
  pose proof (resolve_core domain EmptyString (c, w) Hc) as H. unfold wp in H.
  destruct (resolve domain EmptyString (c, w)) as [[raw|[]|] [c1 w1]]; try done. intros [= -> -> ->] pin Hp.
  destruct H as (H1 & _ & raw & -> & _). pose proof (pinned_first_core domain raw c' ltac:(apply H1)) as Hf.
  assert (pins_ c' = pins_ c) as Hpp by apply H1. rewrite Hpp, Hp in Hf. apply Hf.
Qed.
End Run.

(** ** A world of the network *)

Definition no_idna (s : string) : option string := None.
Definition error_text (s : string) : string := "codec".
Definition json_text (v : json) : string := "value".

(** The JSON reply with the given addresses. *)
Definition reply_of (ips : list string) : json :=
  JDict [("Status", JInt 0); ("Answer", JList ((fun ip => JDict [("type", JInt 1); ("data", JStr ip)]) <$> ips))].

(** One resolver answers, a second apart on the clock, and the plain queries time out. *)
Section World.
Context (answering : string) (zone : list (string * list string)).
Definition net_json (name url : string) (w : Z) : json_reply * Z :=
  if String.eqb url answering then (JsonBody 200 (reply_of (default [] (dget name zone))), w) else (JsonFails "blocked", w).
Definition net_wire (q : bytes) (url : string) (w : Z) : wire_reply * Z := (WireFails "blocked", w).
Definition net_udp (server : string) (q : bytes) (w : Z) : udp_reply * Z := (UdpTimeout, w).
Definition net_clock (w : Z) : float * Z := (f_of_Z w, (w + 1)%Z).
Definition no_records (w : Z) : option (list (string * list string)) := None.
End World.

Definition cloudflare : string := "https://cloudflare-dns.com/dns-query".
Definition yandex : string := "https://dns.yandex.ru/dns-query".
Definition a_zone : list (string * list string) :=
  [("cloudflare.com", ["104.16.132.229"]); ("example.com", ["93.184.215.14"]); ("sunk.example", ["198.18.0.7"])].
Definition reserved : list net := omap ip_network ["198.18.0.0/15"].
Definition no_family (ip : string) : option string := None.

Definition a_cache : DnsRunCache := Cache (f_of_Z 300) EmptyString [] [("example.com", "93.184.0.1")].

Lemma a_cache_ok : cache_ok a_cache.
Proof.
  split; [constructor|]. split; [repeat constructor; by intros H%elem_of_nil|]. split; [done|].
  intros d pin. cbn. destruct (decide _); [by intros [= <-]|done].
Qed.

(** [projections] of an outcome, to state it without its text. *)
Definition verdicts (r : res (list DnsAuditResult)) : list string := match r with Done l => verdict <$> l | _ => [] end.


Lemma resolve_spec_witness :
  let '(r, (c', w)) := resolve (net_json cloudflare a_zone) net_wire net_clock no_records no_idna error_text json_text cloudflare
                   UNTRUSTED_DOH_URLS "example.com" EmptyString (a_cache, 0%Z) in
  r = Done ["93.184.0.1"; "93.184.215.14"] /\ doh_server c' = cloudflare /\
  ends (fun ips c' => resolved UNTRUSTED_DOH_URLS "example.com" EmptyString a_cache ips c' /\ head ips = Some "93.184.0.1") r c'.
Proof.
  destruct (resolve _ _ _ _ _ _ _ _ _ _ _ _) as [r [c' w]] eqn:E.
  pose proof E as H. eapply resolve_spec in H; [|exact a_cache_ok]. destruct H as [H _].
  assert ((r, (c', w)).1 = Done ["93.184.0.1"; "93.184.215.14"] /\ doh_server (r, (c', w)).2.1 = cloudflare) as [H1 H2]
    by (rewrite <- E; vm_compute; split; reflexivity).
  cbn [fst snd] in H1, H2. rewrite H1 in H |- *. split; [reflexivity|]. split; [exact H2|]. split; [apply H|apply H].
Defined.

Lemma prepare_dns_spec_witness :
  let '(r, w) := prepare_dns_for_run (net_json cloudflare a_zone) net_wire net_udp net_clock no_records no_idna error_text json_text
                   cloudflare UNTRUSTED_DOH_URLS reserved no_family (f_of_Z 300) ["example.com"; "sunk.example"] true false false EmptyString 0%Z in
  exists c results, r = Done (Some c, results, 1%Z) /\ entries c = [] /\ exists a, a ∈ results /\ verdict a = "sinkhole".
Proof.
  destruct (prepare_dns_for_run _ _ _ _ _ _ _ _ _ _ _ _ _ _ _ _ _ _ _) as [r w] eqn:E.
  pose proof E as H. eapply prepare_dns_spec in H. cbn beta iota in H.
  assert (match (r, w).1 with Done (_, _, code) => code = 1%Z | _ => False end) as H1 by (rewrite <- E; vm_compute; reflexivity).
  cbn in H1. destruct r as [[[cache results] code]|e|]; [|done|done]. subst code. destruct H as (_ & Hc & c & -> & _ & _ & He & _).
  exists c, results. split; [reflexivity|]. split; [by apply He|]. by apply Hc.
Defined.

Lemma filter_resolvable_spec_witness :
  let '(r, w) := filter_resolvable_domains (net_json cloudflare a_zone) net_wire net_clock no_records no_idna error_text json_text
                   cloudflare UNTRUSTED_DOH_URLS ["example.com"; "gone.example"] (Some a_cache) 0%Z in
  exists c', r = Done (["example.com"], ["gone.example"], Some c') /\ dget "gone.example" (pins_ a_cache) = None.
Proof.
  destruct (filter_resolvable_domains _ _ _ _ _ _ _ _ _ _ _ _) as [r w] eqn:E.
  assert (forall c, Some a_cache = Some c -> cache_ok c) as Hc by (intros c [= <-]; exact a_cache_ok).
  pose proof E as H. eapply filter_resolvable_spec in H; [|exact Hc].
  assert (match (r, w).1 with Done (k, d, _) => k = ["example.com"] /\ d = ["gone.example"] | _ => False end) as H1
    by (rewrite <- E; vm_compute; split; reflexivity).
  cbn in H1. destruct r as [[[k d] [c'|]]|e|]; [|tauto|done|done]. destruct H1 as [-> ->].
  exists c'. split; [reflexivity|]. apply H. by left.
Defined.

(** A resolver that is not trusted, named on the command line, fills the cache of the run with its answers. *)
Example untrusted_server_primes_cache :
  let '(r, w) := prepare_dns_for_run (net_json yandex a_zone) net_wire net_udp net_clock no_records no_idna error_text json_text
                   cloudflare UNTRUSTED_DOH_URLS reserved no_family (f_of_Z 300) ["example.com"] true false false yandex 0%Z in
  doh_is_trusted UNTRUSTED_DOH_URLS yandex = false /\
  match r with
  | Done (Some c, results, code) => code = 0%Z /\ (fst <$> dget "example.com" (entries c)) = Some ["93.184.215.14"] /\ doh_server c = yandex
  | _ => False
  end.
Proof. vm_compute. repeat split; reflexivity. Qed.
