(* ===== verification/PairRunner.v ===== *)
(** * The pair matrix: [engine/pair_matrix_runner.py]

    Each passed TCP strategy against each UDP strategy, a task per pair, as many at a time as the pool has
    namespaces. Between two suspension points a task runs alone, so the matrix is a transition system whose events
    are the segments of [run_pair]; an event carries what the call it ends with returned. The probes, the store and
    the data block are the arguments of the events; output is left out. *)

From stdpp Require Import base numbers list strings.
From Stdlib Require Import ZArith Lia.
From S2P Require Import Prelude PyFloat PyStr Families BridgePool.

#[local] Open Scope string_scope.

(** ** What a pair is *)

Record PairResult : Type := Pair {
  tcp_item : StrategyItem; udp_item : StrategyItem; tcp_ok : bool; udp_ok : bool; tcp_ms : float; udp_ms : float; overall : string
}.
(** What [_run_udp_check] returns. *)
Record udp_data : Type := UdpData { d_ok : bool; d_ms : float; d_detail : string }.

Record task : Type := Task { tcp_i : Z; tcp_r : TcpTestResult; udp_ord : Z; udp_s : StrategyItem }.

Definition pair_overall (tcp : TcpTestResult) (ok : bool) : string :=
  if throttled tcp && ok then "THROTTLED"
  else if success tcp && ok then "PASS"
  else if success tcp && negb ok then "PARTIAL"
  else "FAIL".
Definition pair_of (t : task) (d : udp_data) : PairResult :=
  Pair (r_item (tcp_r t)) (udp_s t) (success (tcp_r t)) (d_ok d) (latency_ms (tcp_r t)) (d_ms d) (pair_overall (tcp_r t) (d_ok d)).

(** The arguments of a run. *)
Record Env : Type := {
  e_domain : string; voice_ip : string; voice_port : Z; pair_domain : option string; e_fingerprint : string; has_db : bool
}.

(** The rows that the store is given for a pair. *)
Inductive db_row : Type :=
  | LogUdp (name target status : string) (ms : float) (detail config : string)
  | LogPair (tcp udp dom : string) (tcp_ok udp_ok : bool) (tcp_ms udp_ms : float) (verdict : string)
  | SaveCheckpoint (tcp_idx udp_idx : Z) (note fingerprint tcp_label udp_label : string).

Definition target_of (env : Env) : string := voice_ip env +:+ ":" +:+ str_of_Z (voice_port env).
Definition log_domain (env : Env) : string :=
  match pair_domain env with Some d => if nonempty d then d else e_domain env | None => e_domain env end.
Definition rows_of (env : Env) (t : task) (d : udp_data) : list db_row :=
  let tl := label (r_item (tcp_r t)) in
  let ul := label (udp_s t) in
  [LogUdp ul (target_of env) (if d_ok d then "PASS" else "FAIL") (d_ms d) (d_detail d) (strategy (udp_s t));
   LogPair tl ul (log_domain env) (success (tcp_r t)) (d_ok d) (latency_ms (tcp_r t)) (d_ms d) (pair_overall (tcp_r t) (d_ok d));
   SaveCheckpoint (tcp_i t) (udp_ord t) (tl +:+ "+" +:+ ul +:+ "@" +:+ target_of env) (e_fingerprint env) tl ul].

(** ** The tasks *)

Definition enumerate {A} (l : list A) : list (Z * A) := imap (fun i x => (Z.of_nat i, x)) l.
Definition working (udp_bypass : bool) (tcp_results : list TcpTestResult) : list (Z * TcpTestResult) :=
  if udp_bypass then enumerate tcp_results else filter (fun ir => success ir.2 = true) (enumerate tcp_results).
Definition tasks_of (udp_bypass : bool) (tcp_results : list TcpTestResult) (udp_strategies : list StrategyItem) : list task :=
  '(i, r) ← working udp_bypass tcp_results; '(j, u) ← enumerate udp_strategies; [Task i r j u].

(** ** The transition system *)

Inductive outcome : Type := Skipped | Completed | Raised.
Inductive phase : Type :=
  | Waiting                              (* not begun, or waiting for the semaphore *)
  | InSem                                (* waiting for a namespace *)
  | Leased (ns : string)                 (* the TCP check runs *)
  | TcpRun (ns : string)                 (* the UDP check runs *)
  | Probed (ns : string) (d : udp_data)  (* the strategy is being saved *)
  | Stored (ns : string) (d : udp_data)  (* waiting for the lock of the store *)
  | Writing (ns : string) (d : udp_data) (k : nat)  (* k rows are written *)
  | Leaving (ns : string) (failed : bool)           (* the namespace is being released *)
  | Finished (o : outcome).

Record state : Type := St {
  free : list string; sem : nat; lock : option nat; phases : list phase; log : list (nat * db_row); results : list (nat * PairResult)
}.

Inductive event : Type :=
  | Enter (t : nat) | Lease (t : nat) | TcpEnds (t : nat) (ok : bool) | UdpEnds (t : nat) (o : option udp_data)
  | SaveEnds (t : nat) (ok : bool) | Lock (t : nat) | WriteEnds (t : nat) (ok : bool) | ReleaseEnds (t : nat) (ok : bool).

Section Matrix.
Context (env : Env) (tasks : list task) (completed : list (string * string)).

Definition is_completed (t : task) : bool := bool_decide ((label (r_item (tcp_r t)), label (udp_s t)) ∈ completed).
Definition start (names : list string) : state := St names (length names) None ((fun _ => Waiting) <$> tasks) [] [].
Definition goto (t : nat) (p : phase) (s : state) : state := St (free s) (sem s) (lock s) (<[t := p]> (phases s)) (log s) (results s).
(** What follows when the strategy is saved, or need not be. *)
Definition after_save (ns : string) (d : udp_data) : phase := if has_db env then Stored ns d else Leaving ns false.

Definition exec_event (e : event) (s : state) : option state :=
  match e with
  | Enter t =>
      p ← phases s !! t; tk ← tasks !! t;
      match p with
      | Waiting =>
          if is_completed tk then Some (goto t (Finished Skipped) s)
          else match sem s with
               | O => None
               | S n => Some (St (free s) n (lock s) (<[t := InSem]> (phases s)) (log s) (results s))
               end
      | _ => None
      end
  | Lease t =>
      p ← phases s !! t;
      match p, free s with
      | InSem, ns :: rest => Some (St rest (sem s) (lock s) (<[t := Leased ns]> (phases s)) (log s) (results s))
      | _, _ => None
      end
  | TcpEnds t ok =>
      p ← phases s !! t;
      match p with Leased ns => Some (goto t (if ok then TcpRun ns else Leaving ns true) s) | _ => None end
  | UdpEnds t o =>
      p ← phases s !! t; tk ← tasks !! t;
      match p, o with
      | TcpRun ns, Some d =>
          Some (St (free s) (sem s) (lock s) (<[t := if d_ok d then Probed ns d else after_save ns d]> (phases s)) (log s)
                   (results s ++ [(t, pair_of tk d)])%list)
      | TcpRun ns, None => Some (goto t (Leaving ns true) s)
      | _, _ => None
      end
  | SaveEnds t ok =>
      p ← phases s !! t;
      match p with Probed ns d => Some (goto t (if ok then after_save ns d else Leaving ns true) s) | _ => None end
  | Lock t =>
      p ← phases s !! t;
      match p, lock s with
      | Stored ns d, None => Some (St (free s) (sem s) (Some t) (<[t := Writing ns d 0]> (phases s)) (log s) (results s))
      | _, _ => None
      end
  | WriteEnds t ok =>
      p ← phases s !! t; tk ← tasks !! t;
      match p with
      | Writing ns d k =>
          if (ok : bool) then
            row ← rows_of env tk d !! k;
            let last_row := (k =? 2)%nat in
            Some (St (free s) (sem s) (if last_row then None else lock s)
                     (<[t := if last_row then Leaving ns false else Writing ns d (S k)]> (phases s)) (log s ++ [(t, row)])%list (results s))
          else Some (St (free s) (sem s) None (<[t := Leaving ns true]> (phases s)) (log s) (results s))
      | _ => None
      end
  | ReleaseEnds t ok =>
      p ← phases s !! t;
      match p with
      | Leaving ns failed =>
          Some (St (free s ++ [ns])%list (S (sem s)) (lock s)
                   (<[t := Finished (if failed || negb ok then Raised else Completed)]> (phases s)) (log s) (results s))
      | _ => None
      end
  end.

Fixpoint exec (es : list event) (s : state) : option state :=
  match es with [] => Some s | e :: es => s ← exec_event e s; exec es s end.

(** What [run] returns: an error of a task is only logged. *)
Definition returned (s : state) : list PairResult := (results s).*2.
End Matrix.
