(* ===== verification/PairSpec.v ===== *)
(** * What the pair matrix keeps: the namespaces, the lock of the store, one result per pair

    The invariant of [PairRunner], and that every run ends: each event lowers the rank of one task, and while a task
    is unfinished some event is enabled. *)

From stdpp Require Import base numbers list strings.
From Stdlib Require Import ZArith Lia.
From S2P Require Import Prelude PyFloat PyStr Families Weights BridgePool PairRunner.

#[local] Open Scope string_scope.
#[local] Open Scope list_scope.
#[local] Set Default Proof Using "Type".

(** ** What a phase holds *)

Definition holds (p : phase) : list string :=
  match p with
  | Leased ns | TcpRun ns | Probed ns _ | Stored ns _ | Writing ns _ _ | Leaving ns _ => [ns]
  | Waiting | InSem | Finished _ => []
  end.
Definition slots (p : phase) : nat := match p with Waiting | Finished _ => 0 | _ => 1 end.
Definition writes (p : phase) : bool := match p with Writing _ _ _ => true | _ => false end.
(** How many events a task is away from its end, at most. *)
Definition rank (p : phase) : nat :=
  match p with
  | Waiting => 10 | InSem => 9 | Leased _ => 8 | TcpRun _ => 7 | Probed _ _ => 6 | Stored _ _ => 5
  | Writing _ _ k => 4 - k | Leaving _ _ => 1 | Finished _ => 0
  end.
Definition is_finished (p : phase) : bool := match p with Finished _ => true | _ => false end.

Section Inv.
Context (env : Env) (tasks : list task) (completed : list (string * string)) (names : list string).

(** The rows of one task, in the log: together, in their order. *)
Definition block (t : nat) (m : nat) (tk : task) (d : udp_data) (lg post : list (nat * db_row)) : Prop :=
  exists pre, lg = pre ++ ((fun r => (t, r)) <$> take m (rows_of env tk d)) ++ post /\ t ∉ pre.*1 /\ t ∉ post.*1.

(** What a task has left behind in its phase. *)
Definition history (s : state) (t : nat) (tk : task) (p : phase) : Prop :=
  match p with
  | Waiting => t ∉ (results s).*1 /\ t ∉ (log s).*1
  | InSem | Leased _ | TcpRun _ => is_completed completed tk = false /\ t ∉ (results s).*1 /\ t ∉ (log s).*1
  | Finished Skipped => is_completed completed tk = true /\ t ∉ (results s).*1 /\ t ∉ (log s).*1
  | Probed _ d => is_completed completed tk = false /\ (t, pair_of tk d) ∈ results s /\ t ∉ (log s).*1
  | Stored _ d => is_completed completed tk = false /\ (t, pair_of tk d) ∈ results s /\ t ∉ (log s).*1 /\ has_db env = true
  | Writing _ d k =>
      is_completed completed tk = false /\ (t, pair_of tk d) ∈ results s /\ has_db env = true /\ k < 3 /\ block t k tk d (log s) []
  | Leaving _ false | Finished Completed =>
      is_completed completed tk = false
      /\ exists d post, (t, pair_of tk d) ∈ results s /\ block t (if has_db env then 3 else 0) tk d (log s) post
  | Leaving _ true | Finished Raised => is_completed completed tk = false
  end.

Record Inv (s : state) : Prop := {
  inv_names : free s ++ (phases s ≫= holds) ≡ₚ names;
  inv_sem : sem s + sum_list_with slots (phases s) = length names;
  inv_len : length (phases s) = length tasks;
  inv_lock : forall t, lock s = Some t <-> exists p, phases s !! t = Some p /\ writes p = true;
  inv_once : NoDup (results s).*1;
  inv_pairs : forall t pr, (t, pr) ∈ results s -> exists tk d, tasks !! t = Some tk /\ pr = pair_of tk d;
  inv_tasks : forall t tk p, tasks !! t = Some tk -> phases s !! t = Some p -> history s t tk p
}.

Lemma phases_split (l : list phase) t p : l !! t = Some p ->
  exists l1 l2, l = l1 ++ p :: l2 /\ length l1 = t /\ forall q, <[t := q]> l = l1 ++ q :: l2.
Proof.
  intros E. exists (take t l), (drop (S t) l).
  pose proof (lookup_lt_Some _ _ _ E) as L.
  split; [symmetry; by apply take_drop_middle|]. split; [rewrite length_take; lia|].
  intros q. by rewrite insert_take_drop.
Qed.

(** The part of the invariant that counts, when the phase of one task changes. *)
Lemma counts_step s s' t p q : Inv s -> phases s !! t = Some p -> phases s' = <[t := q]> (phases s) ->
  free s' ++ holds q ≡ₚ free s ++ holds p -> sem s' + slots q = sem s + slots p ->
  free s' ++ (phases s' ≫= holds) ≡ₚ names /\ sem s' + sum_list_with slots (phases s') = length names /\ length (phases s') = length tasks.
Proof.
  intros I E P F S. destruct (phases_split _ _ _ E) as (l1 & l2 & E1 & _ & E2). rewrite P, E2.
  pose proof (inv_names _ I) as N. pose proof (inv_sem _ I) as M. pose proof (inv_len _ I) as L. rewrite E1 in N, M, L.
  rewrite !bind_app, !bind_cons in N |- *. rewrite !sum_list_with_app in M |- *. cbn in M |- *.
  rewrite length_app in L |- *. cbn in L |- *. split; [|lia].
  rewrite <- N. rewrite (Permutation_app_swap_app (l1 ≫= holds)), (Permutation_app_swap_app (l1 ≫= holds) (holds p)).
  rewrite !(assoc_L (++)). by rewrite F.
Qed.

Lemma lock_step s s' t p q : Inv s -> phases s !! t = Some p -> phases s' = <[t := q]> (phases s) ->
  lock s' = (if writes q then Some t else if writes p then None else lock s) ->
  (writes q = true -> writes p = true \/ lock s = None) ->
  forall t', lock s' = Some t' <-> exists p', phases s' !! t' = Some p' /\ writes p' = true.
Proof.
  intros I E P L W t'. pose proof (inv_lock _ I) as K. pose proof (lookup_lt_Some _ _ _ E) as B. rewrite P.
  assert (N : forall t' , lock s = Some t' -> writes p = true -> t' = t).
  { intros u Hu Hp. assert (lock s = Some t) by (apply K; eauto). congruence. }
  destruct (decide (t' = t)) as [->|Ne].
  - rewrite list_lookup_insert_eq by done. destruct (writes q) eqn:Q; rewrite L.
    + split; [eauto|done].
    + split; [|intros (p' & ? & ?); congruence]. destruct (writes p) eqn:Pw; [done|].
      intros H. apply K in H as (p' & ? & ?). congruence.
  - rewrite list_lookup_insert_ne by done. rewrite <- K, L. destruct (writes q) eqn:Q.
    + split; [congruence|]. intros H. destruct (W eq_refl) as [Hp|Hn]; [by rewrite (N _ H Hp) in Ne|congruence].
    + destruct (writes p) eqn:Pw; [|done]. split; [done|]. intros H. by rewrite (N _ H eq_refl) in Ne.
Qed.

Lemma history_frame s s' t t' tk p rs ls : t' <> t ->
  results s' = results s ++ rs -> Forall (fun x => x.1 = t) rs -> log s' = log s ++ ls -> Forall (fun x => x.1 = t) ls ->
  ls = [] \/ writes p = false -> history s t' tk p -> history s' t' tk p.
Proof.
  intros Ne R FR L FL W H.
  assert (NR : t' ∉ rs.*1) by (intros ((i & x) & -> & Hi)%list_elem_of_fmap; rewrite Forall_forall in FR; by apply FR in Hi).
  assert (NL : t' ∉ ls.*1) by (intros ((i & x) & -> & Hi)%list_elem_of_fmap; rewrite Forall_forall in FL; by apply FL in Hi).
  assert (KR : t' ∉ (results s).*1 -> t' ∉ (results s').*1) by (rewrite R, fmap_app, not_elem_of_app; tauto).
  assert (KL : t' ∉ (log s).*1 -> t' ∉ (log s').*1) by (rewrite L, fmap_app, not_elem_of_app; tauto).
  assert (IR : forall x, x ∈ results s -> x ∈ results s') by (intros x Hx; rewrite R, elem_of_app; by left).
  assert (KB : forall m d post, block t' m tk d (log s) post -> block t' m tk d (log s') (post ++ ls)).
  { intros m d post (pre & E & P1 & P2). exists pre. rewrite L, E, <- !(assoc_L (++)). split; [done|].
    split; [done|]. rewrite fmap_app, not_elem_of_app. tauto. }
  destruct p as [ | | ns | ns | ns d | ns d | ns d k | ns [] | [] ]; cbn -[block] in *; try done;
    try (destruct_and!; split_and!; by auto).
  - destruct W as [->|]; [|done]. rewrite L, app_nil_r. destruct_and!; split_and!; by auto.
  - destruct H as (? & d & post & ? & ?). split; [done|]. exists d, (post ++ ls). auto.
  - destruct H as (? & d & post & ? & ?). split; [done|]. exists d, (post ++ ls). auto.
Qed.

(** An event changes the phase of its task, and may add one result and rows of that task. *)
Lemma inv_step s s' t tk p q rs ls : Inv s -> phases s !! t = Some p -> tasks !! t = Some tk ->
  phases s' = <[t := q]> (phases s) ->
  free s' ++ holds q ≡ₚ free s ++ holds p -> sem s' + slots q = sem s + slots p ->
  lock s' = (if writes q then Some t else if writes p then None else lock s) ->
  (writes q = true -> writes p = true \/ lock s = None) ->
  results s' = results s ++ rs -> rs = [] \/ (exists d, rs = [(t, pair_of tk d)] /\ t ∉ (results s).*1) ->
  log s' = log s ++ ls -> ls = [] \/ (Forall (fun x => x.1 = t) ls /\ lock s = Some t) ->
  history s' t tk q -> Inv s'.
Proof.
  intros I E T P F S L W R RS G LS H.
  assert (FR : Forall (fun x => x.1 = t) rs) by (destruct RS as [->|(d & -> & _)]; repeat constructor).
  assert (FL : Forall (fun x => x.1 = t) ls) by (destruct LS as [->|[? _]]; [constructor|done]).
  destruct (counts_step _ _ _ _ _ I E P F S) as (C1 & C2 & C3). split; try done.
  - by eapply lock_step.
  - rewrite R, fmap_app. apply NoDup_app. split; [apply (inv_once _ I)|].
    destruct RS as [->|(d & -> & N)]; cbn; [split; [intros ? _ ?%elem_of_nil|constructor]; done|].
    split; [|apply NoDup_singleton]. intros x Hx ->%list_elem_of_singleton. done.
  - intros u pr. rewrite R, elem_of_app. intros [Hu|Hu]; [by eapply inv_pairs|].
    destruct RS as [->|(d & -> & N)]; [by apply elem_of_nil in Hu|]. apply list_elem_of_singleton in Hu. simplify_eq. eauto.
  - intros u tk' p' Tu. rewrite P. destruct (decide (u = t)) as [->|Ne].
    + rewrite list_lookup_insert_eq by (by eapply lookup_lt_Some). intros ?. by simplify_eq.
    + rewrite list_lookup_insert_ne by done. intros Hu. eapply history_frame; eauto; [|by eapply inv_tasks].
      destruct LS as [->|[_ K]]; [by left|right]. destruct (writes p') eqn:Wp; [|done].
      assert (lock s = Some u) by (apply (inv_lock _ I); eauto). congruence.
Qed.

Lemma task_there s t p : Inv s -> phases s !! t = Some p -> exists tk, tasks !! t = Some tk.
Proof. intros I E%lookup_lt_Some. rewrite (inv_len _ I) in E. by apply lookup_lt_is_Some_2. Qed.

(** An event that only moves its task, and gives back or takes what the phases hold. *)
Lemma inv_move s s' t tk p q : Inv s -> phases s !! t = Some p -> tasks !! t = Some tk ->
  phases s' = <[t := q]> (phases s) -> results s' = results s -> log s' = log s ->
  free s' ++ holds q ≡ₚ free s ++ holds p -> sem s' + slots q = sem s + slots p ->
  lock s' = (if writes q then Some t else if writes p then None else lock s) ->
  (writes q = true -> writes p = true \/ lock s = None) -> history s' t tk q -> Inv s'.
Proof.
  intros I E T P R L F S K W H.
  apply (inv_step s s' t tk p q [] []); rewrite ?app_nil_r; auto.
Qed.

Lemma block_none t tk d lg : t ∉ lg.*1 -> block t 0 tk d lg [].
Proof. intros N. exists lg. cbn. rewrite app_nil_r. split_and!; [done|done|apply not_elem_of_nil]. Qed.

Lemma inv_udp s s' t d : Inv s -> exec_event env tasks completed (UdpEnds t (Some d)) s = Some s' -> Inv s'.
Proof.
  intros I X. cbn in X. destruct (phases s !! t) as [p|] eqn:E; [|done]. cbn in X.
  destruct (tasks !! t) as [tk|] eqn:T; [|done]. cbn in X. destruct p; try done. injection X as <-.
  pose proof (inv_tasks _ I _ _ _ T E) as (H1 & H2 & H3).
  assert (HR : (t, pair_of tk d) ∈ results s ++ [(t, pair_of tk d)]) by (apply elem_of_app; right; by left).
  pose proof (block_none _ tk d _ H3) as HB.
  eapply (inv_step s _ t tk _ _ [(t, pair_of tk d)] [] I E T); cbn; rewrite ?app_nil_r; eauto.
  - by destruct (d_ok d); [|unfold after_save; destruct (has_db env)].
  - by destruct (d_ok d); [|unfold after_save; destruct (has_db env)].
  - by destruct (d_ok d); [|unfold after_save; destruct (has_db env)].
  - by destruct (d_ok d); [|unfold after_save; destruct (has_db env)].
  - destruct (d_ok d); [done|]. unfold after_save. destruct (has_db env) eqn:D; cbn -[block]; [done|]. rewrite D. eauto.
Qed.

(** The blocks of the log, as rows are added. *)
Lemma block_grows t k tk d lg row : rows_of env tk d !! k = Some row ->
  block t k tk d lg [] -> block t (S k) tk d (lg ++ [(t, row)]) [].
Proof.
  intros R (pre & E & P1 & P2). exists pre. rewrite E, app_nil_r, app_nil_r.
  rewrite (take_S_r _ _ _ R), fmap_app. cbn. by rewrite (assoc_L (++)).
Qed.

Lemma inv_write s s' t ok : Inv s -> exec_event env tasks completed (WriteEnds t ok) s = Some s' -> Inv s'.
Proof.
  intros I X. cbn in X. destruct (phases s !! t) as [p|] eqn:E; [|done]. cbn in X.
  destruct (tasks !! t) as [tk|] eqn:T; [|done]. cbn in X. destruct p as [ | | | | | |ns d k| | ]; try done.
  pose proof (inv_tasks _ I _ _ _ T E) as (H1 & H2 & H3 & H4 & H5).
  assert (K : lock s = Some t) by (apply (inv_lock _ I); eauto). destruct ok.
  - destruct (rows_of env tk d !! k) as [row|] eqn:R; [|done]. cbn in X. injection X as <-.
    pose proof (block_grows _ _ _ _ _ _ R H5) as HB.
    eapply (inv_step s _ t tk _ _ [] [(t, row)] I E T); cbn; rewrite ?app_nil_r; eauto;
      try (by destruct k as [|[|[|k]]]); try (right; split; [by repeat constructor|done]).
    destruct k as [|[|[|k]]]; cbn -[block]; [| | |lia]; [split_and!; eauto; lia..|].
    split; [done|]. exists d, []. rewrite H3. done.
  - injection X as <-. by eapply (inv_move s _ t tk _ _ I E T).
Qed.

Lemma inv_start : NoDup names -> Inv (start tasks names).
Proof.
  intros ND. split; cbn.
  - assert (E : ((fun _ : task => Waiting) <$> tasks) ≫= holds = []) by (induction tasks; cbn; auto). rewrite E. by rewrite app_nil_r.
  - assert (E : sum_list_with slots ((fun _ : task => Waiting) <$> tasks) = 0) by (induction tasks; cbn; auto). rewrite E. lia.
  - by rewrite length_fmap.
  - intros t. split; [done|]. intros (p & (tk & -> & _)%list_lookup_fmap_Some & W). done.
  - constructor.
  - intros t pr []%elem_of_nil.
  - intros t tk p T (tk' & -> & _)%list_lookup_fmap_Some. cbn. split; apply not_elem_of_nil.
Qed.

#[local] Ltac move_task I E T :=
  eapply (inv_move _ _ _ _ _ _ I E T); cbn -[block]; auto; cbn -[block]; auto.

Lemma inv_event s s' e : Inv s -> exec_event env tasks completed e s = Some s' -> Inv s'.
Proof.
  intros I X. destruct e as [t|t|t ok|t [d|]|t ok|t|t ok|t ok]; try (by eapply inv_udp); try (by eapply inv_write);
    cbn in X; destruct (phases s !! t) as [p|] eqn:E; try done; cbn in X;
    destruct (task_there _ _ _ I E) as (tk & T); rewrite ?T in X; cbn in X;
    pose proof (inv_tasks _ I _ _ _ T E) as H; destruct p; try done; cbn in H; destruct_and?.
  - destruct (is_completed completed tk) eqn:C; [|destruct (sem s) as [|n] eqn:S; [done|]];
      injection X as <-; move_task I E T; try lia.
  - destruct (free s) as [|ns rest] eqn:F; [done|]. injection X as <-. move_task I E T.
    by rewrite F, app_nil_r, Permutation_app_comm.
  - injection X as <-. destruct ok; move_task I E T.
  - injection X as <-. move_task I E T.
  - injection X as <-. unfold after_save. destruct ok, (has_db env) eqn:D; move_task I E T; rewrite ?D.
    split; [done|]. exists d, []. split; [done|]. by apply block_none.
  - destruct (lock s) eqn:K; [done|]. injection X as <-. move_task I E T.
    split_and!; auto using block_none.
  - injection X as <-. destruct failed, ok; move_task I E T; try (by rewrite app_nil_r); try lia; by destruct H.
Qed.

Lemma inv_exec es : forall s s', Inv s -> exec env tasks completed es s = Some s' -> Inv s'.
Proof.
  induction es as [|e es IH]; intros s s' I X; cbn in X; [by simplify_eq|].
  destruct (exec_event env tasks completed e s) as [s1|] eqn:X1; [|done]. cbn in X. eapply IH; [|done]. by eapply inv_event.
Qed.

(** ** Every run ends *)

Definition left_of (s : state) : nat := sum_list_with rank (phases s).

Lemma rank_step s s' e : Inv s -> exec_event env tasks completed e s = Some s' ->
  exists t p q, phases s !! t = Some p /\ phases s' = <[t := q]> (phases s) /\ rank q < rank p.
Proof.
  intros I X. destruct e as [t|t|t ok|t o|t ok|t|t ok|t ok]; cbn in X;
    destruct (phases s !! t) as [p|] eqn:E; try done; cbn in X.
  - destruct (tasks !! t); [|done]. cbn in X. destruct p; try done. destruct (is_completed _ _); [|destruct (sem s); [done|]];
      injection X as <-; eexists t, _, _; cbn; (split_and!; [done|done|cbn; lia]).
  - destruct p, (free s); try done. injection X as <-. eexists t, _, _. cbn. split_and!; [done|done|cbn; lia].
  - destruct p; try done. injection X as <-. eexists t, _, _. split_and!; [done|done|]. destruct ok; cbn; lia.
  - destruct (tasks !! t); [|done]. cbn in X. destruct p, o; try done; injection X as <-; eexists t, _, _;
      (split_and!; [done|done|]); [|cbn; lia]. unfold after_save. destruct (d_ok _), (has_db env); cbn; lia.
  - destruct p; try done. injection X as <-. eexists t, _, _. split_and!; [done|done|].
    unfold after_save. destruct ok, (has_db env); cbn; lia.
  - destruct p, (lock s); try done. injection X as <-. eexists t, _, _. split_and!; [done|done|cbn; lia].
  - destruct (tasks !! t) as [tk|] eqn:T; [|done]. cbn in X. destruct p as [ | | | | | |ns d k| | ]; try done.
    pose proof (inv_tasks _ I _ _ _ T E) as (_ & _ & _ & K & _).
    destruct ok; [destruct k as [|[|[|k]]]; try done|]; injection X as <-;
      eexists t, _, _; (split_and!; [done|done|cbn; lia]).
  - destruct p; try done. injection X as <-. eexists t, _, _. split_and!; [done|done|cbn; lia].
Qed.

Lemma left_step s s' e : Inv s -> exec_event env tasks completed e s = Some s' -> left_of s' < left_of s.
Proof.
  intros I (t & p & q & E & P & R)%rank_step; [|done]. destruct (phases_split _ _ _ E) as (l1 & l2 & E1 & _ & E2).
  unfold left_of. rewrite P, E2, E1, !sum_list_with_app. cbn. lia.
Qed.

Lemma left_exec es : forall s s', Inv s -> exec env tasks completed es s = Some s' -> length es + left_of s' <= left_of s.
Proof.
  induction es as [|e es IH]; intros s s' I X; cbn in X |- *; [simplify_eq; lia|].
  destruct (exec_event env tasks completed e s) as [s1|] eqn:X1; [|done]. cbn in X.
  pose proof (left_step _ _ _ I X1). specialize (IH s1 s' (inv_event _ _ _ I X1) X). lia.
Qed.

Lemma left_start : left_of (start tasks names) = 10 * length tasks.
Proof. unfold left_of, start. cbn [phases]. induction tasks as [|tk l IH]; [done|]. cbn [fmap list_fmap sum_list_with length]. cbn in *. lia. Qed.

Lemma some_or_none (f : phase -> bool) (l : list phase) :
  (exists t p, l !! t = Some p /\ f p = true) \/ Forall (fun p => f p = false) l.
Proof.
  induction l as [|p l [(t & q & E & F)|IH]]; [by right|left; by exists (S t), q|].
  destruct (f p) eqn:F; [left; by exists 0, p|right; by constructor].
Qed.

(** A task that holds a namespace, and does not wait for the lock, can always go on. *)
Definition busy (p : phase) : bool :=
  match p with Leased _ | TcpRun _ | Probed _ _ | Writing _ _ _ | Leaving _ _ => true | _ => false end.
Definition stored (p : phase) : bool := match p with Stored _ _ => true | _ => false end.
Definition insem (p : phase) : bool := match p with InSem => true | _ => false end.

Lemma busy_moves s t p : Inv s -> phases s !! t = Some p -> busy p = true -> exists e s', exec_event env tasks completed e s = Some s'.
Proof.
  intros I E B. destruct (task_there _ _ _ I E) as (tk & T). destruct p as [ | |ns|ns|ns d| |ns d k|ns f| ]; try done.
  - exists (TcpEnds t true). cbn. rewrite E. by eexists.
  - exists (UdpEnds t None). cbn. rewrite E, T. by eexists.
  - exists (SaveEnds t true). cbn. rewrite E. by eexists.
  - exists (WriteEnds t false). cbn. rewrite E, T. by eexists.
  - exists (ReleaseEnds t true). cbn. rewrite E. by eexists.
Qed.

Lemma quiet_holds l : Forall (fun p => busy p = false) l -> Forall (fun p => stored p = false) l -> l ≫= holds = [].
Proof. induction l as [|p l IH]; intros H1 H2; inv H1; inv H2; [done|]. destruct p; try done; by apply IH. Qed.

Lemma quiet_slots l : Forall (fun p => busy p = false) l -> Forall (fun p => stored p = false) l -> Forall (fun p => insem p = false) l ->
  sum_list_with slots l = 0.
Proof. induction l as [|p l IH]; intros H1 H2 H3; inv H1; inv H2; inv H3; [done|]. destruct p; try done; by apply IH. Qed.

Lemma progress_core s : Inv s -> names <> [] -> (exists t p, phases s !! t = Some p /\ is_finished p = false) ->
  exists e s', exec_event env tasks completed e s = Some s'.
Proof.
  intros I N (t & p & E & F). destruct (some_or_none busy (phases s)) as [(u & q & Eu & B)|B]; [by eapply busy_moves|].
  destruct (some_or_none stored (phases s)) as [(u & q & Eu & Q)|Q].
  { destruct q; try done. exists (Lock u). cbn. rewrite Eu. destruct (lock s) as [v|] eqn:K; [|by eexists]. exfalso.
    apply (inv_lock _ I) in K as (r & Er & Wr). destruct r; try done.
    by pose proof (proj1 (Forall_lookup _ _) B _ _ Er). }
  pose proof (inv_names _ I) as A. rewrite (quiet_holds _ B Q), app_nil_r in A.
  destruct (some_or_none insem (phases s)) as [(u & q & Eu & M)|M].
  { destruct q; try done. exists (Lease u). cbn. rewrite Eu. destruct (free s); [|by eexists].
    by apply Permutation_nil_l in A. }
  destruct (task_there _ _ _ I E) as (tk & T). pose proof (inv_sem _ I) as S. rewrite (quiet_slots _ B Q M) in S.
  pose proof (proj1 (Forall_lookup _ _) B _ _ E). pose proof (proj1 (Forall_lookup _ _) Q _ _ E).
  pose proof (proj1 (Forall_lookup _ _) M _ _ E). destruct p; try done.
  exists (Enter t). cbn. rewrite E, T. cbn. destruct (is_completed _ _); [by eexists|].
  destruct (sem s) eqn:S'; [|by eexists]. destruct names; cbn in S; [done|lia].
Qed.
End Inv.

(** ** The tasks are the pairs *)

Lemma elem_of_enumerate {A} (l : list A) i x : (i, x) ∈ enumerate l <-> exists n, i = Z.of_nat n /\ l !! n = Some x.
Proof.
  unfold enumerate. rewrite list_elem_of_lookup. split.
  - intros (n & E). rewrite list_lookup_imap in E. destruct (l !! n) as [y|] eqn:L; cbn in E; simplify_eq. eauto.
  - intros (n & -> & L). exists n. by rewrite list_lookup_imap, L.
Qed.

Lemma elem_of_tasks b tcp udp i r j u :
  Task i r j u ∈ tasks_of b tcp udp
  <-> (exists n, i = Z.of_nat n /\ tcp !! n = Some r) /\ (exists m, j = Z.of_nat m /\ udp !! m = Some u) /\ (b = true \/ success r = true).
Proof.
  unfold tasks_of. rewrite list_elem_of_bind.
  assert (W : (i, r) ∈ working b tcp <-> (exists n, i = Z.of_nat n /\ tcp !! n = Some r) /\ (b = true \/ success r = true)).
  { unfold working. destruct b; rewrite ?list_elem_of_filter, elem_of_enumerate; cbn; intuition congruence. }
  split.
  - intros ((i' & r') & H & Hw). apply list_elem_of_bind in H as ((j' & u') & H & Hu).
    apply list_elem_of_singleton in H. simplify_eq. apply W in Hw. apply elem_of_enumerate in Hu. tauto.
  - intros (Hi & Hj & Hb). exists (i, r). split; [|by apply W]. apply list_elem_of_bind. exists (j, u).
    split; [by apply list_elem_of_singleton|by apply elem_of_enumerate].
Qed.

(** C9. (safety) Whatever the probes, the store and the data block answer and in whatever order the tasks go on: each
    namespace of the pool is free or held by exactly one task, and no more tasks are inside the semaphore than there
    are namespaces; at most one task writes into the store at a time, and it is the one that holds the lock; no
    task is counted twice in the results; and each result is the pair of its task. *)
Theorem pairs_run_once env tasks completed names es s : NoDup names ->
  exec env tasks completed es (start tasks names) = Some s ->
  free s ++ (phases s ≫= holds) ≡ₚ names
  /\ NoDup (phases s ≫= holds)
  /\ sum_list_with slots (phases s) <= length names
  /\ (forall t p, phases s !! t = Some p -> writes p = true -> lock s = Some t)
  /\ NoDup (results s).*1
  /\ (forall t pr, (t, pr) ∈ results s -> exists tk d, tasks !! t = Some tk /\ is_completed completed tk = false /\ pr = pair_of tk d).
Proof.
  intros ND X. pose proof (inv_exec _ _ _ _ es _ _ (inv_start env tasks completed names ND) X) as I.
  pose proof (inv_names _ _ _ _ _ I) as N. pose proof (inv_sem _ _ _ _ _ I) as S. split_and!.
  - exact N.
  - rewrite <- N in ND. by apply NoDup_app in ND as (_ & _ & ?).
  - lia.
  - intros t p E W. apply (inv_lock _ _ _ _ _ I). eauto.
  - apply (inv_once _ _ _ _ _ I).
  - intros t pr H. destruct (inv_pairs _ _ _ _ _ I _ _ H) as (tk & d & T & ->). exists tk, d. split_and!; [done| |done].
    pose proof (lookup_lt_Some _ _ _ T) as L. rewrite <- (inv_len _ _ _ _ _ I) in L. apply lookup_lt_is_Some_2 in L as (p & E).
    pose proof (inv_tasks _ _ _ _ _ I _ _ _ T E) as Hy.
    assert (t ∈ (results s).*1) by (apply list_elem_of_fmap; by exists (t, pair_of tk d)).
    destruct p as [ | | | | | | |ns []|[]]; cbn -[block] in Hy; destruct_and?; done.
Qed.

(** C8. (liveness) The matrix ends, with a result for every pair: no run is longer than ten events a pair; while a task is
    unfinished some event can happen (with a pool that is not empty); and when all are finished, every namespace is
    back in the pool, the semaphore and the lock are free, and a passed TCP strategy and a UDP strategy whose pair
    is not in the store already have a result, with its three rows one after the other in the store, unless an
    error ended their task. *)
Theorem matrix_finishes env bypass tcp udp completed names es s : NoDup names -> names <> [] ->
  let tasks := tasks_of bypass tcp udp in
  exec env tasks completed es (start tasks names) = Some s ->
  length es <= 10 * length tasks
  /\ ((exists t p, phases s !! t = Some p /\ is_finished p = false) -> exists e s', exec_event env tasks completed e s = Some s')
  /\ (Forall (fun p => is_finished p = true) (phases s) ->
      free s ≡ₚ names /\ sem s = length names /\ lock s = None
      /\ forall n r m u, tcp !! n = Some r -> udp !! m = Some u -> (bypass = true \/ success r = true) ->
         (label (r_item r), label u) ∉ completed ->
         exists t, let tk := Task (Z.of_nat n) r (Z.of_nat m) u in
           tasks !! t = Some tk
           /\ (phases s !! t = Some (Finished Raised)
               \/ exists d post, (t, pair_of tk d) ∈ results s /\ block env t (if has_db env then 3 else 0) tk d (log s) post)).
Proof.
  intros ND NE tasks X. pose proof (inv_start env tasks completed names ND) as I0.
  pose proof (left_exec _ _ _ _ es _ _ I0 X) as L. rewrite left_start in L.
  pose proof (inv_exec _ _ _ _ es _ _ I0 X) as I. split_and!.
  - lia.
  - by apply (progress_core _ _ _ _ s I).
  - intros F. pose proof (inv_names _ _ _ _ _ I) as N. pose proof (inv_sem _ _ _ _ _ I) as S.
    assert (H0 : phases s ≫= holds = [] /\ sum_list_with slots (phases s) = 0).
    { clear -F. induction F as [|p l Hp F [IH1 IH2]]; [done|]. by destruct p. }
    destruct H0 as [H1 H2]. rewrite H1, app_nil_r in N. rewrite H2 in S. split_and!; [done|lia| |].
    + destruct (lock s) as [t|] eqn:K; [|done]. apply (inv_lock _ _ _ _ _ I) in K as (p & E & W).
      pose proof (proj1 (Forall_lookup _ _) F _ _ E). by destruct p.
    + intros n r m u Hn Hm Hb Hc. assert (HT : Task (Z.of_nat n) r (Z.of_nat m) u ∈ tasks) by (apply elem_of_tasks; split_and!; [by exists n|by exists m|done]).
      apply list_elem_of_lookup in HT as (t & T). exists t. cbn zeta. split; [done|].
      pose proof (lookup_lt_Some _ _ _ T) as B. rewrite <- (inv_len _ _ _ _ _ I) in B. apply lookup_lt_is_Some_2 in B as (p & E).
      pose proof (proj1 (Forall_lookup _ _) F _ _ E) as Fp. pose proof (inv_tasks _ _ _ _ _ I _ _ _ T E) as Hy.
      destruct p as [ | | | | | | | |[]]; try done; cbn -[block] in Hy; [|right; tauto|by left].
      destruct Hy as (Hy & _). apply bool_decide_eq_true in Hy. by destruct Hc.
Qed.

(** Two namespaces, the pairs of one passed and one failed TCP strategy with two UDP strategies. *)
Definition env_ex : Env := {| e_domain := "d"; voice_ip := "1.2.3.4"; voice_port := 50004; pair_domain := None; e_fingerprint := "f"; has_db := true |}.
Definition item_ex (l : string) : StrategyItem := Item l "s" false "tcp".
Definition tcp_ex : list TcpTestResult := [tcp_result (item_ex "bad") "d" false "no"; tcp_result (item_ex "t") "d" true ""].
Definition udp_ex : list StrategyItem := [item_ex "u"; item_ex "v"].
Definition good : udp_data := UdpData true f_zero "".
Definition bad : udp_data := UdpData false f_zero "timeout".
Definition events_ex : list event :=
  [Enter 0; Enter 1; Lease 1; Lease 0; TcpEnds 0 true; TcpEnds 1 true; UdpEnds 1 (Some bad); UdpEnds 0 (Some good); Lock 1;
   WriteEnds 1 true; SaveEnds 0 true; WriteEnds 1 true; WriteEnds 1 true; Lock 0; ReleaseEnds 1 true; WriteEnds 0 true;
   WriteEnds 0 true; WriteEnds 0 true; ReleaseEnds 0 true].
Definition names_ex : list string := ["bc-0"; "bc-1"].
Definition run_ex : option state := exec env_ex (tasks_of false tcp_ex udp_ex) [] events_ex (start (tasks_of false tcp_ex udp_ex) names_ex).

Example run_ex_ends : (overall <$> from_option returned [] run_ex) = ["PARTIAL"; "PASS"] /\ ((fun s => phases s) <$> run_ex) = Some [Finished Completed; Finished Completed].
Proof. vm_compute. done. Qed.

Lemma names_ex_NoDup : NoDup names_ex.
Proof. by apply (bool_decide_unpack _). Qed.

Example pairs_run_once_witness : exists s, run_ex = Some s /\ NoDup (results s).*1.
Proof. eexists. split; [vm_compute; reflexivity|]. refine (proj1 (proj2 (proj2 (proj2 (proj2 (pairs_run_once env_ex (tasks_of false tcp_ex udp_ex) [] names_ex events_ex _ names_ex_NoDup _)))))).
  vm_compute. reflexivity.
Defined.

Example matrix_finishes_witness : exists s, run_ex = Some s /\ free s ≡ₚ names_ex.
Proof.
  eexists. split; [vm_compute; reflexivity|].
  refine (proj1 (proj2 (proj2 (matrix_finishes env_ex false tcp_ex udp_ex [] names_ex events_ex _ names_ex_NoDup _ _)) _)); [done|vm_compute; reflexivity|].
  repeat constructor.
Defined.
