(* ===== verification/QuicRaw.v ===== *)
(** * The raw QUIC probe: [checkers/quic_raw.py]

    An Initial packet is sent to UDP port 443, and what comes back decides: a long-header reply, an ICMP error, or
    silence. Random bytes, the files, the sockets and the clock are arguments: a round of the receive loop is what
    the two sockets gave, and the rounds are those that began before the deadline. *)

From stdpp Require Import base numbers list strings.
From Stdlib Require Import ZArith Lia.
From S2P Require Import Prelude PyFloat PyStr FailPhase DnsWire.

#[local] Open Scope string_scope.
#[local] Open Scope Z_scope.
#[local] Set Default Proof Using "Type".

(** ** The packet *)

(** [None] is an exception: [ValueError] of a negative byte, [OverflowError] beyond eight bytes. *)
Definition _quic_varint (n : Z) : option bytes :=
  if n <? 64 then (if n <? 0 then None else Some [n])
  else if n <? 16384 then Some (be 2 (Z.lor 16384 n))
  else if n <? 1073741824 then Some (be 4 (Z.lor 2147483648 n))
  else let m := Z.lor 13835058055282163712 n in if m <? 18446744073709551616 then Some (be 8 m) else None.

(** Over the three draws of [os.urandom]: the connection id, the packet number and the payload of a length. *)
Definition _synthetic_rfc9000_initial (dcid pn : bytes) (payload : Z -> bytes) : option bytes :=
  let pn_len := 1 in
  let first := Z.lor 192 (pn_len - 1) in
  let scid := [] in
  let token := [] in
  token_len ← _quic_varint (len token);
  let prefix := ([first] ++ be 4 1 ++ [len dcid] ++ dcid ++ [len scid] ++ scid ++ token_len ++ token)%list in
  let payload_len := 1200 - len prefix - 2 - pn_len in
  length_field ← _quic_varint (pn_len + payload_len);
  Some (prefix ++ length_field ++ pn ++ payload payload_len)%list.

(** ** What is received *)

Definition bytes_eqb (a b : bytes) : bool := bool_decide (a = b).

Definition _is_quic_long_header_response (data sent : bytes) : bool :=
  if len data <? 5 then false
  else if (0 <? len sent) && bytes_eqb data sent then false
  else if negb (Z.land (byte_at data 0) 192 =? 192) then false
  else
    let version := be_val (slice 1 5 data) in
    if version =? 0 then 7 <=? len data else version =? 1.

(** [None] stands for [(None, None)]. *)
Definition _parse_icmp (pkt : bytes) : option (Z * Z) :=
  if len pkt <? 8 then None
  else
    let pkt := if (Z.shiftr (byte_at pkt 0) 4 =? 4) && (20 <=? len pkt) then drop (Z.to_nat (Z.land (byte_at pkt 0) 15 * 4)) pkt else pkt in
    if len pkt <? 4 then None else Some (byte_at pkt 0, byte_at pkt 1).

Definition _ICMP_DEST_UNREACH : Z := 3.
Definition _ICMP_PORT_UNREACH : Z := 3.
Definition _ICMP_ADMIN_PROHIBIT : Z := 13.
Definition unreachable_code (pkt : bytes) : option Z :=
  match _parse_icmp pkt with
  | Some (ty, code) =>
      if (ty =? _ICMP_DEST_UNREACH) && ((code =? _ICMP_PORT_UNREACH) || (code =? _ICMP_ADMIN_PROHIBIT)) then Some code else None
  | None => None
  end.

(** ** The probe *)

Record QuicRawResult : Type := RawResult {
  q_ip : string; q_port : Z; q_phase : FailPhase; response_received : bool; icmp_port_unreachable : bool;
  blob_used : string; q_latency : float; q_error : string
}.

(** A call of a socket: a packet, [TimeoutError], another [OSError] and its text. *)
Inductive received : Type := Packet (data : bytes) | Timed_out | Os_error (msg : string).
Record round : Type := Round { on_udp : received; on_icmp : received }.

Inductive verdict : Type := Replied | Unreachable (code : Z) | Failed (msg : string).

(** One round; [None] goes on. *)
Definition round_verdict (packet : bytes) (has_icmp : bool) (r : round) : option verdict :=
  let icmp :=
    if has_icmp then
      match on_icmp r with
      | Packet pkt => Unreachable <$> unreachable_code pkt
      | Timed_out => None
      | Os_error msg => Some (Failed msg)
      end
    else None in
  match on_udp r with
  | Packet data => if _is_quic_long_header_response data packet then Some Replied else icmp
  | Timed_out => icmp
  | Os_error msg => Some (Failed msg)
  end.

Fixpoint receive_loop (packet : bytes) (has_icmp : bool) (rounds : list round) : option verdict :=
  match rounds with
  | [] => None
  | r :: rounds => match round_verdict packet has_icmp r with Some v => Some v | None => receive_loop packet has_icmp rounds end
  end.

Section Probe.
(** The files of [_QUIC_BLOB_CANDIDATES] in their order, [None] where there is none; the packet made up. *)
Context (candidates : list (string * option bytes)) (synthetic : bytes).

Fixpoint first_blob (l : list (string * option bytes)) : option (bytes * string) :=
  match l with
  | [] => None
  | (name, Some data) :: l => if 40 <=? len data then Some (data, name) else first_blob l
  | (_, None) :: l => first_blob l
  end.
Definition load_quic_initial : bytes * string := default (synthetic, "synthetic_rfc9000") (first_blob candidates).

(** [sent]: the text of the [OSError] of [sendto]; [elapsed]: the milliseconds since the start, at the return. *)
Definition probe_quic_initial (ip : string) (port : Z) (blob : option bytes) (blob_name : string)
    (sent : option string) (has_icmp : bool) (rounds : list round) (elapsed : float) : QuicRawResult :=
  let '(packet, used) :=
    match blob with Some (b :: bs) => (b :: bs, blob_name) | _ => load_quic_initial end in
  let failed msg := RawResult ip port UDP_BLOCKED false false used elapsed (String.substring 0 120 msg) in
  match sent with
  | Some msg => failed msg
  | None =>
      match receive_loop packet has_icmp rounds with
      | Some Replied => RawResult ip port PASS true false used elapsed ""
      | Some (Unreachable code) =>
          RawResult ip port UDP_BLOCKED false true used elapsed ("ICMP dest-unreachable code " +:+ str_of_Z code)
      | Some (Failed msg) => failed msg
      | None => RawResult ip port QUIC_DROP false false used elapsed "QUIC Initial sent, no response (dropped)"
      end
  end.
End Probe.

(** ** RFC 9000, section 16 and 17.2.2: variable-length integers and the Initial packet *)

Definition varint_decode (data : bytes) : option (Z * bytes) :=
  match data with
  | [] => None
  | b :: _ =>
      let w := Z.shiftl 1 (Z.shiftr b 6) in
      if len data <? w then None
      else Some (be_val (take (Z.to_nat w) data) mod 2 ^ (8 * w - 2), drop (Z.to_nat w) data)
  end.

Record initial : Type := Initial { i_first : Z; i_version : Z; i_dcid : bytes; i_scid : bytes; i_token : bytes; i_payload : bytes }.

Definition parse_field (n : Z) (data : bytes) : option (bytes * bytes) :=
  if len data <? n then None else Some (take (Z.to_nat n) data, drop (Z.to_nat n) data).
Definition parse_sized (data : bytes) : option (bytes * bytes) :=
  match data with [] => None | n :: data => parse_field n data end.
Definition parse_initial (data : bytes) : option initial :=
  match data with
  | [] => None
  | first :: data =>
      '(version, data) ← parse_field 4 data; '(dcid, data) ← parse_sized data; '(scid, data) ← parse_sized data;
      '(n, data) ← varint_decode data; '(token, data) ← parse_field n data;
      '(n, data) ← varint_decode data;
      if len data =? n then Some (Initial first (be_val version) dcid scid token data) else None
  end.

Lemma be_head w : forall m, be (S w) m = (m / 256 ^ Z.of_nat w) mod 256 :: be w m.
Proof.
  induction w as [|w IH]; intros m; [by rewrite Z.div_1_r|].
  change (be (S (S w)) m) with (be (S w) (m / 256) ++ [m mod 256])%list. rewrite IH.
  change (be (S w) m) with (be w (m / 256) ++ [m mod 256])%list. cbn [app]. f_equal. f_equal.
  rewrite Z.div_div by lia. f_equal. rewrite <- Z.pow_succ_r by lia. f_equal. lia.
Qed.

Lemma lor_disjoint a k n : 0 <= k -> 0 <= n < 2 ^ k -> Z.lor (a * 2 ^ k) n = a * 2 ^ k + n.
Proof.
  intros Hk Hn. assert (D : Z.land (a * 2 ^ k) n = 0).
  { apply Z.bits_inj'. intros i Hi. rewrite Z.land_spec, Z.bits_0. destruct (Z.lt_ge_cases i k) as [L|L].
    - by rewrite Z.mul_pow2_bits_low by lia.
    - rewrite <- (Z.mod_small n (2 ^ k)) by lia. rewrite (Z.mod_pow2_bits_high n k i) by lia. apply andb_false_r. }
  by rewrite Z.add_nocarry_lxor, Z.lxor_lor.
Qed.

(** The two high bits of the first byte give the length, the others the number. *)
Lemma varint_decode_be w a n rest : 0 <= a < 4 -> 2 ^ a = Z.of_nat (S w) -> 0 <= n < 64 * 256 ^ Z.of_nat w ->
  varint_decode (be (S w) (a * (64 * 256 ^ Z.of_nat w) + n) ++ rest) = Some (n, rest).
Proof.
  intros Ha Hw Hn. set (K := 256 ^ Z.of_nat w) in *. assert (0 < K) by (apply Z.pow_pos_nonneg; lia).
  set (m := a * (64 * K) + n). assert (B : (m / K) mod 256 / 64 = a).
  { unfold m. replace (a * (64 * K) + n) with (n + a * 64 * K) by ring. rewrite Z.div_add by lia.
    assert (0 <= n / K < 64) by (split; [apply Z.div_pos; lia|apply Z.div_lt_upper_bound; lia]).
    rewrite Z.mod_small by lia. rewrite Z.div_add by lia. rewrite Z.div_small by lia. lia. }
  assert (V : be_val (be (S w) m) = m).
  { apply be_val_be. rewrite Nat2Z.inj_succ, Z.pow_succ_r by lia. fold K. unfold m. split; nia. }
  unfold varint_decode. rewrite be_head at 1. cbn [app].
  replace (Z.shiftl 1 (Z.shiftr ((m / 256 ^ Z.of_nat w) mod 256) 6)) with (Z.of_nat (S w)).
  2:{ rewrite Z.shiftr_div_pow2 by lia. change (2 ^ 6) with 64. fold K. rewrite B, Z.shiftl_1_l. by rewrite Hw. }
  rewrite len_app, len_be, Nat2Z.id. pose proof (len_nonneg rest).
  destruct (_ <? _) eqn:L; [apply Z.ltb_lt in L; lia|]. rewrite take_app_length', drop_app_length' by (by rewrite length_be).
  rewrite V. f_equal. f_equal. replace (8 * Z.of_nat (S w) - 2) with (8 * Z.of_nat w + 6) by lia.
  rewrite Z.pow_add_r, Z.pow_mul_r by lia. change (2 ^ 8) with 256. fold K. change (2 ^ 6) with 64.
  unfold m. rewrite Z.add_comm, (Z.mul_comm 64 K), Z.mod_add by lia. apply Z.mod_small. lia.
Qed.

Lemma varint_core n rest : 0 <= n < 2 ^ 62 -> exists e, _quic_varint n = Some e /\ varint_decode (e ++ rest) = Some (n, rest)
  /\ len e = if n <? 64 then 1 else if n <? 16384 then 2 else if n <? 1073741824 then 4 else 8.
Proof.
  intros Hn. unfold _quic_varint.
  pose proof (varint_decode_be 0 0 n rest) as D0. pose proof (varint_decode_be 1 1 n rest) as D1.
  pose proof (varint_decode_be 3 2 n rest) as D3. pose proof (varint_decode_be 7 3 n rest) as D7.
  change (256 ^ Z.of_nat 0) with 1 in D0. change (256 ^ Z.of_nat 1) with 256 in D1.
  change (256 ^ Z.of_nat 3) with 16777216 in D3. change (256 ^ Z.of_nat 7) with 72057594037927936 in D7.
  change (2 ^ 62) with 4611686018427387904 in Hn.
  destruct (Z.ltb_spec n 64); [|destruct (Z.ltb_spec n 16384); [|destruct (Z.ltb_spec n 1073741824)]].
  - destruct (Z.ltb_spec n 0); [lia|]. exists [n]. split; [done|]. split; [|done].
    change (be 1 (0 * (64 * 1) + n)) with [n mod 256] in D0. rewrite Z.mod_small in D0 by lia. by apply D0; lia.
  - change 16384 with (1 * 2 ^ 14). rewrite lor_disjoint by (change (2 ^ 14) with 16384; lia). eexists. split; [done|].
    split; [by apply D1; lia|by rewrite len_be].
  - change 2147483648 with (2 * 2 ^ 30). rewrite lor_disjoint by (change (2 ^ 30) with 1073741824; lia). eexists. split; [done|].
    split; [by apply D3; lia|by rewrite len_be].
  - change 13835058055282163712 with (3 * 2 ^ 62).
    rewrite lor_disjoint by (change (2 ^ 62) with 4611686018427387904; lia). cbv zeta.
    destruct (Z.ltb_spec (3 * 2 ^ 62 + n) 18446744073709551616); [|change (2 ^ 62) with 4611686018427387904 in *; lia].
    eexists. split; [done|]. split; [by apply D7; lia|by rewrite len_be].
Qed.

Lemma parse_field_app a b n : n = len a -> parse_field n (a ++ b) = Some (a, b).
Proof.
  intros ->. unfold parse_field. rewrite len_app. pose proof (len_nonneg b). destruct (Z.ltb_spec (len a + len b) (len a)); [lia|].
  unfold len. rewrite Nat2Z.id. by rewrite take_app_length, drop_app_length.
Qed.

(** (roundtrip) The number that [_quic_varint] writes is what RFC 9000 reads back, in the shortest form, for every
    number of 62 bits, whatever follows it. *)
Theorem quic_varint_roundtrip n rest : 0 <= n < 2 ^ 62 ->
  exists e, _quic_varint n = Some e /\ varint_decode (e ++ rest) = Some (n, rest)
  /\ len e = if n <? 64 then 1 else if n <? 16384 then 2 else if n <? 1073741824 then 4 else 8.
Proof. apply varint_core. Qed.

Example quic_varint_roundtrip_witness : exists e, _quic_varint 1183 = Some e /\ len e = 2.
Proof. destruct (quic_varint_roundtrip 1183 [7]) as (e & E & _ & L); [lia|]. exists e. split; [exact E|exact L]. Defined.

(** Beyond 62 bits the number runs into the length bits: it is written, and read back as another one. *)
Example quic_varint_wraps : (_quic_varint (2 ^ 62 + 5) ≫= varint_decode) = Some (5, []).
Proof. vm_compute. reflexivity. Qed.

(** (functional) The packet that is made up is a datagram of 1200 bytes, and an Initial packet of version 1 for
    RFC 9000, with the connection id drawn, no token, and a Length field that counts exactly the packet number and
    the payload that follow. *)
Theorem synthetic_initial_spec dcid pn payload : len dcid = 8 -> len pn = 1 -> (forall n, 0 <= n -> len (payload n) = n) ->
  exists p, _synthetic_rfc9000_initial dcid pn payload = Some p /\ len p = 1200
  /\ parse_initial p = Some (Initial 192 1 dcid [] [] (pn ++ payload 1181))
  /\ len (pn ++ payload 1181) = 1182 /\ _is_quic_long_header_response p [] = true.
Proof.
  intros Hd Hp Hy. unfold _synthetic_rfc9000_initial. cbv zeta.
  assert (T : _quic_varint 0 = Some [0]) by done. change (len (@nil Z)) with 0. rewrite T. cbn [mbind option_bind].
  set (prefix := ([Z.lor 192 (1 - 1)] ++ be 4 1 ++ [len dcid] ++ dcid ++ [0] ++ [] ++ [0] ++ [])%list).
  assert (Lp : len prefix = 16) by (unfold prefix; rewrite !len_app, len_be, Hd; done).
  rewrite Lp. change (1200 - 16 - 2 - 1) with 1181. set (y := payload 1181). assert (Ly : len y = 1181) by (by apply Hy).
  assert (Lq : len (pn ++ y) = 1182) by (rewrite len_app; lia).
  destruct (varint_core 0 (be 2 17566 ++ pn ++ y)) as (t & T0 & D0 & _); [lia|].
  destruct (varint_core 1182 (pn ++ y)) as (u & U & D1 & Lu); [lia|].
  assert (t = [0]) as -> by congruence. assert (u = be 2 17566) as -> by (vm_compute in U |- *; congruence).
  change (_quic_varint (1 + 1181)) with (_quic_varint 1182). rewrite U. cbn [mbind option_bind]. eexists. split; [done|].
  split; [|split; [|split; [done|]]].
  - rewrite !len_app, Lp, len_be. rewrite len_app in Lq. lia.
  - unfold prefix. rewrite <- !(assoc_L (++)%list). cbn [app]. unfold parse_initial.
    rewrite (parse_field_app (be 4 1)) by by rewrite len_be. cbn [mbind option_bind parse_sized].
    rewrite (parse_field_app dcid) by done. cbn [mbind option_bind parse_sized].
    rewrite (parse_field_app [] (0 :: be 2 17566 ++ pn ++ y)) by done. cbn [mbind option_bind].
    cbn [app] in D0. rewrite D0. cbn [mbind option_bind]. rewrite (parse_field_app [] (be 2 17566 ++ pn ++ y)) by done. cbn [mbind option_bind].
    rewrite D1. cbn [mbind option_bind]. rewrite Lq. done.
  - unfold prefix. rewrite <- !(assoc_L (++)%list).
    assert (E : exists tail, ([Z.lor 192 (1 - 1)] ++ be 4 1 ++ [len dcid] ++ dcid ++ [0] ++ [] ++ [0] ++ [] ++ be 2 17566 ++ pn ++ y)%list = 192 :: 0 :: 0 :: 0 :: 1 :: tail) by (by eexists).
    destruct E as (tail & ->). unfold _is_quic_long_header_response. rewrite !len_cons. pose proof (len_nonneg tail).
    destruct (Z.ltb_spec (1 + (1 + (1 + (1 + (1 + len tail))))) 5); [lia|]. done.
Qed.

(** ** What the probe concludes *)

Lemma be_be_val l : Forall is_byte l -> be (length l) (be_val l) = l.
Proof.
  induction l as [|b l IH] using rev_ind; [done|]. intros [Hl Hb]%Forall_app. apply Forall_cons_1 in Hb as [Hb _].
  rewrite length_app, be_val_app. cbn [length]. rewrite Nat.add_1_r. cbn [be]. unfold is_byte in Hb.
  rewrite Z.div_add_l, (Z.div_small b), Z.add_0_r by lia. rewrite IH by done.
  by rewrite (Z.add_comm _ b), Z.mod_add, Z.mod_small by lia.
Qed.
Lemma be_val_lt l : Forall is_byte l -> be_val l < 256 ^ len l.
Proof.
  induction l as [|b l IH] using rev_ind; [done|]. intros [Hl Hb]%Forall_app. apply Forall_cons_1 in Hb as [Hb _]. unfold is_byte in Hb.
  rewrite be_val_app, len_app, Z.pow_add_r by apply len_nonneg. specialize (IH Hl). change (256 ^ len [b]) with 256. lia.
Qed.

Lemma long_bits first : 0 <= first < 256 -> (Z.land first 192 =? 192) = (192 <=? first).
Proof.
  intros H. assert (A : forallb (fun n => Bool.eqb (Z.land (Z.of_nat n) 192 =? 192) (192 <=? Z.of_nat n)) (seq 0 256) = true) by by vm_compute.
  rewrite forallb_forall in A. specialize (A (Z.to_nat first)). rewrite Z2Nat.id in A by lia.
  apply Bool.eqb_prop, A, in_seq. lia.
Qed.

(** A reply of a QUIC server: a long header with the fixed bit, version 1 or a version negotiation with its two lengths, and
    not the packet that was sent. *)
Definition is_reply (data sent : bytes) : Prop :=
  (sent = [] \/ data <> sent)
  /\ exists first v rest, data = first :: (be 4 v ++ rest)%list /\ 192 <= first < 256 /\ (v = 1 \/ v = 0 /\ 2 <= len rest).

Lemma long_header_core data sent : Forall is_byte data -> _is_quic_long_header_response data sent = true <-> is_reply data sent.
Proof.
  intros B. unfold _is_quic_long_header_response, is_reply, bytes_eqb.
  assert (S : (0 <? len sent) && bool_decide (data = sent) = false <-> (sent = [] \/ data <> sent)).
  { destruct sent as [|b sent]; [cbn; tauto|]. rewrite len_cons. pose proof (len_nonneg sent).
    destruct (Z.ltb_spec 0 (1 + len sent)); [|lia]. cbn [andb]. rewrite bool_decide_eq_false. intuition congruence. }
  destruct (Z.ltb_spec (len data) 5) as [L|L].
  { split; [done|]. intros (_ & f & v & rest & -> & _). rewrite len_cons, len_app, len_be in L. pose proof (len_nonneg rest). lia. }
  destruct data as [|f data]; [by cbn in L|]. rewrite len_cons in L.
  assert (E : exists v, drop 4 data = drop 4 data /\ take 4 data = be 4 v /\ 0 <= v < 2 ^ 32 /\ be_val (slice 1 5 (f :: data)) = v).
  { exists (be_val (take 4 data)). inv B. pose proof (Forall_take _ 4 _ H2) as H4.
    assert (L4 : length (take 4 data) = 4%nat) by (rewrite length_take; unfold len in L; lia). split_and!; [done| |by apply be_val_nonneg| |done].
    - rewrite <- L4 at 2. by rewrite be_be_val.
    - pose proof (be_val_lt _ H4) as W. unfold len in W. rewrite L4 in W. exact W. }
  destruct E as (v & _ & T & V & ->). destruct (_ && _) eqn:E; [split; [done|]; intros [H _]; apply S in H; congruence|].
  inv B. change (byte_at (f :: data) 0) with f. rewrite long_bits by done.
  pose proof (take_drop 4 data) as TD. rewrite T in TD. rewrite len_cons, <- TD, len_app, len_be.
  assert (U : forall f' v' rest', f :: be 4 v ++ drop 4 data = f' :: be 4 v' ++ rest' -> f = f' /\ be 4 v = be 4 v' /\ drop 4 data = rest').
  { intros f' v' rest' HH. apply (app_inj_1 [f] [f']) in HH as [E1 E2]; [|done]. apply app_inj_1 in E2; [|by rewrite !length_be]. split; [congruence|done]. }
  assert (VE : forall v', v' = 1 \/ v' = 0 -> be 4 v = be 4 v' -> v = v').
  { intros v' Hv' HE. rewrite <- (be_val_be 4 v), <- (be_val_be 4 v') by (change (256 ^ Z.of_nat 4) with (2 ^ 32); lia). by rewrite HE. }
  pose proof (proj1 S eq_refl) as Es. rewrite <- TD in Es. destruct (Z.leb_spec 192 f) as [F|F]; cbn [negb].
  2:{ split; [done|]. intros (_ & f' & v' & rest' & (-> & _)%U & ? & _). lia. }
  cbv zeta. unfold is_byte in H1. destruct (Z.eqb_spec v 0) as [->|Nz]; [|destruct (Z.eqb_spec v 1) as [->|N1]].
  - rewrite Z.leb_le. split.
    + intros G. split; [done|]. exists f, 0, (drop 4 data). split_and!; [done|lia..|]. right. split; [done|lia].
    + intros (_ & f' & v' & rest' & (_ & HE & <-)%U & _ & [->|[-> Lr]]); [by apply VE in HE; [|left]|lia].
  - split; [|done]. intros _. split; [done|]. exists f, 1, (drop 4 data). split_and!; [done|lia..|]. by left.
  - split; [done|]. intros (_ & f' & v' & rest' & (_ & HE & _)%U & _ & Hv). apply VE in HE; [|tauto]. destruct Hv; lia.
Qed.

Definition bytes_only (r : received) : Prop := match r with Packet d => Forall is_byte d | _ => True end.

Lemma long_header_sound data sent : Forall is_byte data -> _is_quic_long_header_response data sent = true -> is_reply data sent.
Proof. intros B. by apply long_header_core. Qed.

(** A round that decides nothing: no reply, no error, no ICMP error that counts. *)
Definition silent (packet : bytes) (has_icmp : bool) (r : round) : Prop :=
  match on_udp r with Packet d => ~ is_reply d packet | Timed_out => True | Os_error _ => False end
  /\ (has_icmp = true -> match on_icmp r with Packet p => unreachable_code p = None | Timed_out => True | Os_error _ => False end).
(** A round in which the server replies. *)
Definition replied (packet : bytes) (r : round) : Prop := exists d, on_udp r = Packet d /\ is_reply d packet.
(** A round without a reply, in which an ICMP error of the code comes. *)
Definition refused (packet : bytes) (has_icmp : bool) (code : Z) (r : round) : Prop :=
  match on_udp r with Packet d => ~ is_reply d packet | Timed_out => True | Os_error _ => False end
  /\ has_icmp = true /\ exists p, on_icmp r = Packet p /\ unreachable_code p = Some code.

Lemma round_cases packet has_icmp r : bytes_only (on_udp r) ->
  match round_verdict packet has_icmp r with
  | None => silent packet has_icmp r
  | Some Replied => replied packet r
  | Some (Unreachable code) => refused packet has_icmp code r
  | Some (Failed msg) => on_udp r = Os_error msg \/ (~ replied packet r /\ has_icmp = true /\ on_icmp r = Os_error msg)
  end.
Proof.
  intros B. unfold round_verdict, silent, replied, refused. destruct (on_udp r) as [d| |msg]; cbn in B; [| |by left].
  - destruct (_is_quic_long_header_response d packet) eqn:E; [exists d; split; [done|by apply long_header_core]|].
    assert (N : ~ is_reply d packet) by (intros H; apply long_header_core in H; congruence).
    destruct has_icmp; [|done]. destruct (on_icmp r) as [p| |msg]; cbn.
    + destruct (unreachable_code p) eqn:U; cbn; [split_and!; eauto|done].
    + done.
    + right. split_and!; [|done|done]. intros (d' & [= <-] & ?). done.
  - destruct has_icmp; [|done]. destruct (on_icmp r) as [p| |msg]; cbn.
    + destruct (unreachable_code p) eqn:U; cbn; [split_and!; eauto|done].
    + done.
    + right. split_and!; [|done|done]. by intros (d' & ? & ?).
Qed.

Lemma receive_loop_cases packet has_icmp rounds : Forall (fun r => bytes_only (on_udp r)) rounds ->
  match receive_loop packet has_icmp rounds with
  | None => Forall (silent packet has_icmp) rounds
  | Some v => exists pre r post, rounds = (pre ++ r :: post)%list /\ Forall (silent packet has_icmp) pre /\ round_verdict packet has_icmp r = Some v /\ bytes_only (on_udp r)
  end.
Proof.
  induction 1 as [|r rounds B F IH]; [by constructor|]. cbn. pose proof (round_cases packet has_icmp r B) as C.
  destruct (round_verdict packet has_icmp r) as [v|] eqn:E; [by exists [], r, rounds|].
  destruct (receive_loop packet has_icmp rounds) as [v|]; [|by constructor].
  destruct IH as (pre & r' & post & -> & ? & ? & ?). exists (r :: pre), r', post. split_and!; [done|by constructor|done|done].
Qed.

Section Outcome.
Context (candidates : list (string * option bytes)) (synthetic : bytes).

End Outcome.


Example synthetic_initial_spec_witness :
  exists p, _synthetic_rfc9000_initial (replicate 8 7) [9] (fun n => replicate (Z.to_nat n) 0) = Some p /\ len p = 1200.
Proof.
  destruct (synthetic_initial_spec (replicate 8 7) [9] (fun n => replicate (Z.to_nat n) 0)) as (p & E & L & _); [done|done| |].
  - intros n Hn. unfold len. rewrite length_replicate. lia.
  - exists p. split; [exact E|exact L].
Defined.
