(* ===== verification/VoiceUdp.v ===== *)
(** * Discord voice probes: [checkers/udp_voice.py]

    Is UDP to a voice server open: STUN, then the IP Discovery of Discord, then a burst of media packets. What a
    socket does with a datagram is an argument; a probe gives its result and the datagrams that it gave to
    [sendto]. *)

From stdpp Require Import base numbers list strings.
From Stdlib Require Import ZArith Lia Ascii.
From S2P Require Import Prelude PyFloat PyStr DnsWire QuicRaw.

#[local] Open Scope string_scope.
#[local] Open Scope Z_scope.
#[local] Set Default Proof Using "Type".

(** ** IP Discovery *)

Definition IP_DISCOVERY_BODY_LEN : Z := 70.
Definition IP_DISCOVERY_TOTAL : Z := 74.

Definition build_ip_discovery_request (ssrc : Z) : bytes :=
  (be 2 1 ++ be 2 IP_DISCOVERY_BODY_LEN ++ be 4 (Z.land ssrc 4294967295) ++ replicate 64 0 ++ be 2 0)%list.

(** [decode("ascii", errors="replace")]: U+FFFD for a byte above 127. *)
Definition ascii_of_byte (b : Z) : ascii := ascii_of_N (Z.to_N b).
Definition replacement : string := String (ascii_of_N 239) (String (ascii_of_N 191) (String (ascii_of_N 189) "")).
Fixpoint decode_ascii (l : bytes) : string :=
  match l with [] => "" | b :: l => if b <? 128 then String (ascii_of_byte b) (decode_ascii l) else replacement +:+ decode_ascii l end.
(** [split(b"\x00", 1)[0]] *)
Fixpoint until_nul (l : bytes) : bytes := match l with [] => [] | b :: l => if b =? 0 then [] else b :: until_nul l end.
(** [struct.unpack("<H", ...)] of two bytes. *)
Definition le_val (l : bytes) : Z := be_val (rev l).

Record discovery : Type := Discovery { d_ssrc : Z; mapped_ip : string; mapped_port : Z; raw_len : Z }.

Definition parse_ip_discovery_response (data : bytes) : option discovery :=
  if len data <? 8 then None
  else if negb (be_val (slice 0 2 data) =? 2) then None
  else if be_val (slice 2 4 data) <? 6 then None
  else
    let ssrc := be_val (slice 4 8 data) in
    if 74 <=? len data then Some (Discovery ssrc (decode_ascii (until_nul (slice 8 72 data))) (le_val (slice 72 74 data)) (len data))
    else Some (Discovery ssrc "" 0 (len data)).

(** ** The probes *)

(** What a datagram brings: an answer and its address, [TimeoutError], another [OSError]. *)
Inductive reply : Type := Answer (data : bytes) (host : string) (port : Z) | Nothing | Socket_error (msg : string).
(** [(ok, latency, detail)] and the datagrams given to [sendto]. *)
Record probe_result : Type := Probe { p_ok : bool; p_ms : float; p_detail : string; p_sent : list bytes }.

Definition address (host : string) (port : Z) : string := host +:+ ":" +:+ str_of_Z port.
Definition size (data : bytes) : string := str_of_Z (len data) +:+ "B".
Definition stun_request (tid : bytes) : bytes := (be 2 1 ++ be 2 0 ++ be 4 554869826 ++ tid)%list.

(** [recvfrom(512)] cuts a datagram. *)
Definition received_512 (r : reply) : reply := match r with Answer d h p => Answer (take 512 d) h p | _ => r end.

Definition is_binding_success (tid data : bytes) : bool :=
  (20 <=? len data) && (be_val (slice 0 2 data) =? 257) && (be_val (slice 4 8 data) =? 554869826) && bytes_eqb (slice 8 20 data) tid.

(** The answers of the sockets: [ask] of a datagram; the clock at the end of a probe. *)
Section Probes.
Context (ask : bytes -> reply) (elapsed : float).

Definition stun_probe (tid : bytes) : probe_result :=
  let msg := stun_request tid in
  match received_512 (ask msg) with
  | Answer data host port =>
      if is_binding_success tid data then Probe true elapsed (size data +:+ " STUN from " +:+ address host port) [msg]
      else Probe false elapsed ("invalid STUN response (" +:+ size data +:+ ")") [msg]
  | Nothing => Probe false elapsed "timeout" [msg]
  | Socket_error e => Probe false elapsed (String.substring 0 100 e) [msg]
  end.

Definition ip_discovery_probe (ssrc : Z) : probe_result :=
  let msg := build_ip_discovery_request ssrc in
  match received_512 (ask msg) with
  | Answer data host port =>
      match parse_ip_discovery_response data with
      | Some parsed =>
          let extra := if nonempty (mapped_ip parsed) then " mapped=" +:+ address (mapped_ip parsed) (mapped_port parsed) else "" in
          Probe true elapsed (str_of_Z (raw_len parsed) +:+ "B IP-discovery from " +:+ address host port +:+ extra) [msg]
      | None => Probe false elapsed ("invalid IP-discovery response (" +:+ size data +:+ ")") [msg]
      end
  | Nothing => Probe false elapsed "timeout" [msg]
  | Socket_error e => Probe false elapsed (String.substring 0 100 e) [msg]
  end.
End Probes.

(** ** The burst *)

(** [bytes((i * 7 + 3) & 0xFF for i in range(packet_size))] *)
Definition media_payload (packet_size : Z) : bytes :=
  (fun i => Z.land (Z.of_nat i * 7 + 3) 255) <$> seq 0 (Z.to_nat packet_size).
Definition rtp_header (ssrc : Z) : bytes := ([128; 120] ++ be 2 0 ++ be 4 (Z.land ssrc 4294967295) ++ be 4 0)%list.
Definition chunk (ssrc packet_size sent : Z) : bytes :=
  let payload := media_payload packet_size in if 0 <? sent then payload else (rtp_header ssrc ++ drop 12 payload)%list.

(** [while sent < burst_bytes]; [None]: the fuel is out. *)
Fixpoint burst_loop (fuel : nat) (ssrc packet_size burst_bytes sent : Z) : option (list bytes) :=
  if sent <? burst_bytes then
    match fuel with
    | O => None
    | S fuel =>
        let c := chunk ssrc packet_size sent in
        rest ← burst_loop fuel ssrc packet_size burst_bytes (sent + len c); Some (c :: rest)
    end
  else Some [].
Definition burst (ssrc packet_size burst_bytes : Z) : option (list bytes) :=
  burst_loop (Z.to_nat burst_bytes) ssrc packet_size burst_bytes 0.

(** [send_error]: the datagram of the burst that cannot be sent, and the exception; [after_burst]: what comes back for the
    burst; [after_stun]: for the STUN request that follows a silent burst. *)
Definition voice_burst_probe (send_error : option (nat * reply)) (after_burst after_stun : reply) (elapsed : float)
    (packets : list bytes) (tid : bytes) (burst_bytes : Z) : probe_result :=
  let failed r sent :=
    match r with
    | Socket_error e => Probe false elapsed (String.substring 0 100 e) sent
    | _ => Probe false elapsed ("timeout after " +:+ str_of_Z burst_bytes +:+ "B burst") sent
    end in
  match send_error with
  | Some (n, r) => failed r (take (S n) packets)
  | None =>
      match received_512 after_burst with
      | Answer data host port =>
          Probe true elapsed (size data +:+ " UDP reply to " +:+ str_of_Z burst_bytes +:+ "B burst from " +:+ address host port) packets
      | Nothing =>
          let sent := (packets ++ [stun_request tid])%list in
          match received_512 after_stun with
          | Answer data host port =>
              Probe true elapsed
                (size data +:+ " STUN after RTP burst (unauthenticated RTP dropped, UDP open) from " +:+ address host port) sent
          | r => failed r sent
          end
      | r => failed r packets
      end
  end.

(** ** The order of the probes *)

Record voice_result : Type := Voice { v_ok : bool; v_ms : float; v_detail : string; v_method : string; v_sent : list bytes }.

(** Over what the three probes give, each made only when it is reached. *)
Definition voice_udp_probe (stun discovery burst : unit -> probe_result) (try_burst : bool) : voice_result :=
  let r1 := stun tt in
  if p_ok r1 then Voice true (p_ms r1) (p_detail r1) "rfc5389" (p_sent r1)
  else
    let r2 := discovery tt in
    let sent2 := (p_sent r1 ++ p_sent r2)%list in
    if p_ok r2 then Voice true (p_ms r2) (p_detail r2) "ip_discovery" sent2
    else
      let informative sent :=
        if negb (String.eqb (p_detail r2) "timeout") then Voice false (p_ms r2) (p_detail r2) "" sent
        else Voice false (p_ms r1) (p_detail r1) "" sent in
      if try_burst then
        let r3 := burst tt in
        let sent3 := (sent2 ++ p_sent r3)%list in
        if p_ok r3 then Voice true (p_ms r3) (p_detail r3) "burst" sent3
        else if negb (String.eqb (p_detail r3) "timeout") then Voice false (p_ms r3) (p_detail r3) "" sent3
        else informative sent3
      else informative sent2.

(** ** IP Discovery reads its own layout *)

(** The answer of a voice server as the program reads it: the port is little-endian. *)
Definition discovery_wire (ssrc : Z) (host : string) (port : Z) : bytes :=
  (be 2 2 ++ be 2 70 ++ be 4 ssrc ++ (ascii_bytes host ++ replicate (64 - String.length host) 0) ++ rev (be 2 port))%list.

Definition plain_text (s : string) : bool := sforall (fun c => (0 <? N_of_ascii c)%N && (N_of_ascii c <? 128)%N) s.

Lemma until_nul_text s k : plain_text s = true -> until_nul (ascii_bytes s ++ replicate k 0) = ascii_bytes s.
Proof.
  unfold ascii_bytes. induction s as [|c s IH]; intros H; [by destruct k|].
  apply andb_prop in H as [Hc Hs]. apply andb_prop in Hc as [Hc _]. apply N.ltb_lt in Hc.
  cbn [String.list_ascii_of_string fmap list_fmap app until_nul]. destruct (Z.eqb_spec (Z.of_N (N_of_ascii c)) 0); [lia|]. f_equal. by apply IH.
Qed.

Lemma decode_text s : plain_text s = true -> decode_ascii (ascii_bytes s) = s.
Proof.
  unfold ascii_bytes. induction s as [|c s IH]; intros H; [done|].
  apply andb_prop in H as [Hc Hs]. apply andb_prop in Hc as [_ Hc]. apply N.ltb_lt in Hc.
  cbn [String.list_ascii_of_string fmap list_fmap decode_ascii]. destruct (Z.ltb_spec (Z.of_N (N_of_ascii c)) 128); [|lia].
  unfold ascii_of_byte. rewrite N2Z.id, ascii_N_embedding. f_equal. by apply IH.
Qed.

Lemma length_ascii_bytes s : length (ascii_bytes s) = String.length s.
Proof. unfold ascii_bytes. rewrite length_fmap. induction s as [|c s IH]; cbn; [done|by rewrite IH]. Qed.

Lemma discovery_core ssrc host port : 0 <= ssrc < 2 ^ 32 -> 0 <= port < 2 ^ 16 -> plain_text host = true -> (String.length host <= 64)%nat ->
  len (discovery_wire ssrc host port) = 74
  /\ parse_ip_discovery_response (discovery_wire ssrc host port) = Some (Discovery ssrc host port 74).
Proof.
  intros Hs Hp Ht Hl. set (a := (ascii_bytes host ++ replicate (64 - String.length host) 0)%list).
  assert (La : len a = 64) by (unfold a, len; rewrite length_app, length_ascii_bytes, length_replicate; lia).
  assert (Lr : len (rev (be 2 port)) = 2) by (unfold len; by rewrite length_rev, length_be).
  assert (L : len (discovery_wire ssrc host port) = 74) by (unfold discovery_wire; fold a; rewrite !len_app, !len_be, La, Lr; done).
  set (W := discovery_wire ssrc host port) in *.
  assert (SL : forall pre mid post x y, W = (pre ++ mid ++ post)%list -> x = len pre -> y = len pre + len mid -> slice x y W = mid).
  { intros pre mid post x y -> -> ->. by apply slice_at. }
  assert (S1 : slice 0 2 W = be 2 2) by (eapply (SL []); [reflexivity|done|by rewrite len_be]).
  assert (S2 : slice 2 4 W = be 2 70) by (eapply (SL (be 2 2)); [reflexivity|done|by rewrite !len_be]).
  assert (S3 : slice 4 8 W = be 4 ssrc) by (eapply (SL (be 2 2 ++ be 2 70)%list); [reflexivity|done|by rewrite len_be]).
  assert (S4 : slice 8 72 W = a) by (eapply (SL (be 2 2 ++ be 2 70 ++ be 4 ssrc)%list); [reflexivity|done|by rewrite La]).
  assert (S5 : slice 72 74 W = rev (be 2 port)).
  { eapply (SL (be 2 2 ++ be 2 70 ++ be 4 ssrc ++ a)%list _ []); rewrite ?len_app, ?len_be, ?La, ?Lr; [|done..].
    unfold W, discovery_wire. fold a. by rewrite app_nil_r, <- !(assoc_L (++)%list). }
  split; [done|]. unfold parse_ip_discovery_response, le_val. rewrite L, S1, S2, S3, S4, S5, rev_involutive, !be_val_be by done.
  unfold a. rewrite until_nul_text, decode_text by done. done.
Qed.

(** (roundtrip) IP Discovery: the request is the 74 bytes of the documentation with the SSRC as its unsigned 32 bits, and
    the answer of a server - type 2, body of 70 bytes, SSRC, address padded with zeros, port - is read back field by
    field. Every other message, of another type, or of a body below 6, or shorter than 8 bytes, is refused. *)
Theorem ip_discovery_roundtrip ssrc host port : 0 <= ssrc < 2 ^ 32 -> 0 <= port < 2 ^ 16 -> plain_text host = true ->
  (String.length host <= 64)%nat ->
  parse_ip_discovery_response (discovery_wire ssrc host port) = Some (Discovery ssrc host port 74)
  /\ len (build_ip_discovery_request ssrc) = IP_DISCOVERY_TOTAL
  /\ be_val (slice 4 8 (build_ip_discovery_request ssrc)) = ssrc
  /\ forall data, (be_val (slice 0 2 data) <> 2 \/ be_val (slice 2 4 data) < 6 \/ len data < 8) -> parse_ip_discovery_response data = None.
Proof.
  intros Hs Hp Ht Hl. split; [by apply discovery_core|]. unfold build_ip_discovery_request.
  change 4294967295 with (Z.ones 32). rewrite Z.land_ones, Z.mod_small by done. split_and!.
  - rewrite !len_app, !len_be. done.
  - rewrite (assoc_L (++)%list (be 2 1)), (slice_at (be 2 1 ++ be 2 IP_DISCOVERY_BODY_LEN) (be 4 ssrc)) by (rewrite ?len_app, ?len_be; done).
    by rewrite be_val_be by done.
  - intros data H. unfold parse_ip_discovery_response. destruct (Z.ltb_spec (len data) 8); [done|].
    destruct (Z.eqb_spec (be_val (slice 0 2 data)) 2); [|done]. cbn [negb].
    destruct (Z.ltb_spec (be_val (slice 2 4 data)) 6); [done|]. destruct H as [?|[?|?]]; [done|lia|lia].
Qed.

Example ip_discovery_roundtrip_witness :
  parse_ip_discovery_response (discovery_wire 1 "1.2.3.4" 50001) = Some (Discovery 1 "1.2.3.4" 50001 74).
Proof. refine (proj1 (ip_discovery_roundtrip 1 "1.2.3.4" 50001 _ _ _ _)); [lia|lia|reflexivity|cbn; lia]. Defined.

(** ** The burst *)

Definition total (l : list bytes) : Z := len (concat l).

Lemma len_payload n : 0 <= n -> len (media_payload n) = n.
Proof. intros H. unfold media_payload, len. rewrite length_fmap, length_seq. lia. Qed.

Lemma len_chunk ssrc n sent : 0 <= n -> len (chunk ssrc n sent) = if 0 <? sent then n else Z.max 12 n.
Proof.
  intros H. unfold chunk, rtp_header. destruct (0 <? sent); [by apply len_payload|].
  rewrite !len_app, !len_be. change (len [128; 120]) with 2. unfold len. rewrite length_drop. pose proof (len_payload n H) as L. unfold len in L. lia.
Qed.

Lemma burst_loop_total ssrc n b : 0 < n -> forall fuel sent, 0 <= sent -> b - sent <= Z.of_nat fuel ->
  exists l, burst_loop fuel ssrc n b sent = Some l /\ b <= sent + total l
  /\ (l = [] \/ sent + total l < b + Z.max 12 n) /\ Forall (fun p => 0 < len p <= Z.max 12 n) l /\ (length l <= fuel)%nat.
Proof.
  intros Hn. induction fuel as [|fuel IH]; intros sent Hs Hf; cbn [burst_loop]; destruct (Z.ltb_spec sent b) as [Lt|Ge].
  - lia.
  - exists []. change (total []) with 0. split_and!; [done|lia|by left|constructor|cbn; lia].
  - pose proof (len_chunk ssrc n sent ltac:(lia)) as LC. set (c := chunk ssrc n sent) in *.
    assert (B : 0 < len c <= Z.max 12 n) by (destruct (0 <? sent); lia).
    destruct (IH (sent + len c)) as (l & -> & T1 & T2 & F & N); [lia|lia|]. cbn [mbind option_bind]. exists (c :: l).
    assert (T : total (c :: l) = len c + total l) by (unfold total; cbn; by rewrite len_app).
    rewrite T. split_and!; [done|lia| |by constructor|cbn; lia]. right. destruct T2 as [->|T2]; [|lia]. change (total []) with 0. lia.
  - exists []. change (total []) with 0. split_and!; [done|lia|by left|constructor|cbn; lia].
Qed.

(** (termination) The loop of the burst ends for every packet size above 0, after no more rounds than bytes asked for:
    what it sends is at least the bytes asked for and less than one packet more, in packets that are never empty nor
    above the size (or the 12 bytes of the RTP header). With a packet size of 0 no number of rounds is enough, once more
    is asked for than the 12 bytes of the first packet. *)
Theorem burst_terminates ssrc packet_size burst_bytes : 0 < packet_size -> 0 < burst_bytes ->
  (exists l, burst ssrc packet_size burst_bytes = Some l
    /\ burst_bytes <= total l < burst_bytes + Z.max 12 packet_size
    /\ Forall (fun p => 0 < len p <= Z.max 12 packet_size) l
    /\ Z.of_nat (length l) <= burst_bytes)
  /\ (12 < burst_bytes -> forall fuel, burst_loop fuel ssrc 0 burst_bytes 0 = None).
Proof.
  intros Hn Hb. split.
  - destruct (burst_loop_total ssrc packet_size burst_bytes Hn (Z.to_nat burst_bytes) 0) as (l & E & T1 & T2 & F & N); [lia|lia|].
    exists l. unfold burst. split_and!; [done|lia|destruct T2 as [->|]; [change (total []) with 0 in T1; lia|lia]|done|lia].
  - intros Hb12. assert (Z0 : forall fuel sent, 0 < sent < burst_bytes -> burst_loop fuel ssrc 0 burst_bytes sent = None).
    { induction fuel as [|fuel IH]; intros sent Hs; cbn [burst_loop]; destruct (Z.ltb_spec sent burst_bytes); try lia; [done|].
      pose proof (len_chunk ssrc 0 sent ltac:(lia)) as L. destruct (Z.ltb_spec 0 sent); [|lia]. rewrite L, IH by lia. done. }
    intros [|fuel]; cbn [burst_loop]; destruct (Z.ltb_spec 0 burst_bytes); try lia; [done|].
    rewrite Z0; [done|]. rewrite (len_chunk ssrc 0 0) by lia. cbn. lia.
Qed.

Example burst_terminates_witness : exists l, burst 0 1400 17408 = Some l /\ 16384 < total l < 18808.
Proof.
  destruct (proj1 (burst_terminates 0 1400 17408 ltac:(lia) ltac:(lia))) as (l & E & T & _).
  exists l. split; [exact E|lia].
Defined.

(** ** The whole probe *)

Section Voice.
Context (ask : bytes -> reply) (tid : bytes) (ssrc burst_bytes : Z) (packets : list bytes).
Context (send_error : option (nat * reply)) (after_burst after_stun : reply) (e1 e2 e3 : float).

(** The three probes as [voice_udp_probe] makes them. *)
Definition probes_of (try_burst : bool) : voice_result :=
  voice_udp_probe (fun _ => stun_probe ask e1 tid) (fun _ => ip_discovery_probe ask e2 ssrc)
    (fun _ => voice_burst_probe send_error after_burst after_stun e3 packets tid burst_bytes) try_burst.

(** A binding success (RFC 5389) for our request, in the 512 bytes that are read. *)
Definition stun_answered : Prop :=
  exists d h p, ask (stun_request tid) = Answer d h p /\ 20 <= len (take 512 d)
    /\ be_val (slice 0 2 (take 512 d)) = 257 /\ be_val (slice 4 8 (take 512 d)) = 554869826 /\ slice 8 20 (take 512 d) = tid.
Definition discovery_answered : Prop :=
  exists d h p r, ask (build_ip_discovery_request ssrc) = Answer d h p /\ parse_ip_discovery_response (take 512 d) = Some r.
Definition is_answer (r : reply) : Prop := match r with Answer _ _ _ => True | _ => False end.
Definition burst_answered : Prop :=
  send_error = None /\ (is_answer after_burst \/ after_burst = Nothing /\ is_answer after_stun).

Lemma stun_ok : p_ok (stun_probe ask e1 tid) = true <-> stun_answered.
Proof.
  unfold stun_probe, stun_answered. destruct (ask (stun_request tid)) as [d h p| |e]; cbn [received_512];
    [|split; [done|by intros (? & ? & ? & ? & _)]..].
  assert (E : is_binding_success tid (take 512 d) = true <-> 20 <= len (take 512 d) /\ be_val (slice 0 2 (take 512 d)) = 257
    /\ be_val (slice 4 8 (take 512 d)) = 554869826 /\ slice 8 20 (take 512 d) = tid).
  { unfold is_binding_success, bytes_eqb. rewrite !andb_true_iff, bool_decide_eq_true, !Z.eqb_eq, Z.leb_le. tauto. }
  destruct (is_binding_success tid (take 512 d)); cbn.
  - split; [|done]. intros _. exists d, h, p. split; [done|]. by apply E.
  - split; [done|]. intros (d' & h' & p' & [= <- <- <-] & H). by apply E in H.
Qed.

Lemma discovery_ok : p_ok (ip_discovery_probe ask e2 ssrc) = true <-> discovery_answered.
Proof.
  unfold ip_discovery_probe, discovery_answered. destruct (ask (build_ip_discovery_request ssrc)) as [d h p| |e]; cbn [received_512];
    [|split; [done|by intros (? & ? & ? & ? & ? & _)]..].
  destruct (parse_ip_discovery_response (take 512 d)) as [r|] eqn:E; cbn.
  - split; [|done]. eauto 8.
  - split; [done|]. intros (d' & h' & p' & r & [= <- <- <-] & H). congruence.
Qed.

Lemma burst_ok : p_ok (voice_burst_probe send_error after_burst after_stun e3 packets tid burst_bytes) = true <-> burst_answered.
Proof.
  clear ask. unfold voice_burst_probe, burst_answered. destruct send_error as [[n r]|].
  { split; [by destruct r|]. by intros [? _]. }
  destruct after_burst as [d h p| |e]; cbn.
  - tauto.
  - destruct after_stun as [d h p| |e]; cbn; intuition done.
  - split; [done|]. by intros (_ & [[]|[? _]]).
Qed.

Lemma sent_first : p_sent (stun_probe ask e1 tid) = [stun_request tid] /\ p_sent (ip_discovery_probe ask e2 ssrc) = [build_ip_discovery_request ssrc].
Proof.
  unfold stun_probe, ip_discovery_probe. split.
  - destruct (ask _); cbn [received_512]; try done. by destruct (is_binding_success _ _).
  - destruct (ask _); cbn [received_512]; try done. by destruct (parse_ip_discovery_response _).
Qed.

(** C37. (functional) The voice probe: it succeeds exactly when STUN is answered with a binding success for its own
    transaction, or else IP Discovery with a message that parses, or else - only if the burst is allowed - something
    answers the burst or the STUN request after it; the method names the first that answered and is empty on failure;
    and nothing of a later probe is sent once an earlier one has succeeded, nor a burst that was not asked for. *)
Theorem voice_udp_probe_spec try_burst :
  let r := probes_of try_burst in
  (v_ok r = true <-> stun_answered \/ discovery_answered \/ (try_burst = true /\ burst_answered))
  /\ (v_method r = "rfc5389" <-> stun_answered)
  /\ (v_method r = "ip_discovery" <-> ~ stun_answered /\ discovery_answered)
  /\ (v_method r = "burst" <-> ~ stun_answered /\ ~ discovery_answered /\ try_burst = true /\ burst_answered)
  /\ (v_method r = "" <-> v_ok r = false)
  /\ (stun_answered -> v_sent r = [stun_request tid])
  /\ (~ stun_answered -> discovery_answered \/ try_burst = false -> v_sent r = [stun_request tid; build_ip_discovery_request ssrc]).
Proof.
  cbv zeta. destruct sent_first as [F1 F2]. unfold probes_of, voice_udp_probe. rewrite <- stun_ok, <- discovery_ok, <- burst_ok, F1, F2.
  destruct (p_ok (stun_probe ask e1 tid)); [cbn; intuition done|].
  destruct (p_ok (ip_discovery_probe ask e2 ssrc)); [cbn; intuition done|].
  destruct try_burst; [|destruct (String.eqb _ _); cbn; intuition done].
  destruct (p_ok (voice_burst_probe _ _ _ _ _ _ _)); [cbn; intuition done|].
  destruct (String.eqb _ _); [destruct (String.eqb _ _)|]; cbn; intuition done.
Qed.

(** The more informative failure is never preferred to a burst that timed out: its text is not ["timeout"]. *)
Theorem burst_hides_failure : send_error = None -> after_burst = Nothing -> after_stun = Nothing -> v_ok (probes_of true) = false ->
  v_detail (probes_of true) = "timeout after " +:+ str_of_Z burst_bytes +:+ "B burst".
Proof.
  intros Es Eb Et. unfold probes_of, voice_udp_probe.
  destruct (p_ok (stun_probe ask e1 tid)); [done|]. destruct (p_ok (ip_discovery_probe ask e2 ssrc)); [done|].
  unfold voice_burst_probe. rewrite Es, Eb, Et. done.
Qed.
End Voice.

(** A server that only knows IP Discovery. *)
Definition ask_ex (msg : bytes) : reply :=
  if len msg =? 74 then Answer (discovery_wire 0 "9.9.9.9" 50000) "35.217.2.2" 50000 else Nothing.

Example voice_udp_probe_spec_witness :
  let r := probes_of ask_ex (replicate 12 5) 0 17408 [] None Nothing Nothing (f_of_Z 1) (f_of_Z 2) (f_of_Z 3) true in
  v_ok r = true /\ v_method r = "ip_discovery" /\ discovery_answered ask_ex 0.
Proof.
  cbv zeta. pose proof (voice_udp_probe_spec ask_ex (replicate 12 5) 0 17408 [] None Nothing Nothing (f_of_Z 1) (f_of_Z 2) (f_of_Z 3) true) as H.
  cbv zeta in H. destruct H as (_ & _ & D & _ & _ & _ & _). split; [vm_compute; reflexivity|]. split; [vm_compute; reflexivity|].
  apply D. vm_compute. reflexivity.
Defined.
