(* ===== verification/NsFirewall.v ===== *)
(** * NFQUEUE rules of a namespace: [service/ns_firewall.py]

    A tracker adds rules to the OUTPUT chain of one namespace (or of the host) with [iptables -A] and remembers the
    [-D] that takes each back. [iptables] is a parameter, with what its manual says of [-A], [-C] and [-D] as laws:
    any command may fail, or time out with or without its effect. *)

From stdpp Require Import base numbers list strings.
From Stdlib Require Import ZArith Lia.
From S2P Require Import Prelude PyStr PyDict.

#[local] Open Scope string_scope.
#[local] Open Scope Z_scope.
#[local] Set Default Proof Using "Type".

(** ** Commands *)

(** How [subprocess.run] ends: with a return code and its output, with [TimeoutExpired], with an [OSError]. *)
Inductive spawned : Type := Ran (returncode : Z) (detail : string) | Expired | Os_failed (msg : string).
(** What the code raises: [IptablesError] is a [RuntimeError], neither is an [OSError]. *)
Inductive exn : Type := RuntimeError (msg : string) | IptablesError (msg : string) | OSError (msg : string).

Record _RuleSpec : Type := Rule { proto : string; dport : string; queue : Z; multiport : bool; bypass : bool; dst_ip : option string }.
#[export] Instance RuleSpec_eq_dec : EqDecision _RuleSpec.
Proof. solve_decision. Defined.

Definition _rule_body (spec : _RuleSpec) : list string :=
  (["OUTPUT"; "-p"; proto spec]
   ++ match dst_ip spec with Some ip => if nonempty ip then ["-d"; ip] else [] | None => [] end
   ++ (if multiport spec then ["-m"; "multiport"; "--dports"; dport spec] else ["--dport"; dport spec])
   ++ ["-j"; "NFQUEUE"; "--queue-num"; str_of_Z (queue spec)]
   ++ (if bypass spec then ["--queue-bypass"] else []))%list.

(** The two prefixes: [NsFirewall] and [HostFirewall]. *)
Definition ns_prefix (ns_name : string) : list string := ["sudo"; "-n"; "ip"; "netns"; "exec"; ns_name; "iptables"].
Definition host_prefix : list string := ["sudo"; "-n"; "iptables"].

(** ** A tracker *)

Record tracker : Type := Tracker { _rules : list (_RuleSpec * list string); _dirty : bool }.
Definition fresh_tracker : tracker := Tracker [] false.

Class Iptables (K : Type) : Type := {
  subprocess_run : list string -> K -> spawned * K;
  (** The OUTPUT chain that the commands of a prefix see: the bodies of its rules. *)
  chain : list string -> K -> list (list string)
}.

Section Tracker.
Context {K : Type} `{!Iptables K} (prefix : list string).

Definition world : Type := tracker * K.
Definition M (A : Type) : Type := world -> (exn + A) * world.
#[global] Instance M_ret : MRet M := fun A a w => (inr a, w).
#[global] Instance M_bind : MBind M := fun A B f m w => match m w with (inr a, w) => f a w | (inl e, w) => (inl e, w) end.
Definition raise {A} (e : exn) : M A := fun w => (inl e, w).
Definition get : M tracker := fun w => (inr w.1, w).
Definition set_rules (r : list (_RuleSpec * list string)) : M unit := fun w => (inr tt, (Tracker r (_dirty w.1), w.2)).
Definition set_dirty (b : bool) : M unit := fun w => (inr tt, (Tracker (_rules w.1) b, w.2)).
(** [except (OSError, subprocess.SubprocessError)]: the warning is left out. *)
Definition except_os (m : M unit) : M unit := fun w => match m w with (inl (OSError _), w) => (inr tt, w) | x => x end.

Definition _run (args : list string) (check : bool) : M Z := fun w =>
  let '(r, k) := subprocess_run (prefix ++ args)%list w.2 in
  let w := (w.1, k) in
  match r with
  | Expired => (inl (RuntimeError ("iptables timeout: " +:+ join " " args)), w)
  | Os_failed msg => (inl (OSError msg), w)
  | Ran rc detail =>
      if check && negb (rc =? 0) then
        (inl (IptablesError ("iptables " +:+ join " " args +:+ " failed rc=" +:+ str_of_Z rc
              +:+ (if nonempty detail then " (" +:+ String.substring 0 200 detail +:+ ")" else ""))), w)
      else (inr rc, w)
  end.

Fixpoint delete_each (l : list (list string)) : M unit :=
  match l with
  | [] => mret tt
  | args :: l => _ ← except_os (_ ← _run args false; mret tt); delete_each l
  end.
Definition detach : M unit :=
  t ← get;
  _ ← delete_each (reverse (values (_rules t)));
  set_rules [].

Definition is_attached (spec : _RuleSpec) (t : tracker) : bool := bool_decide (spec ∈ keys (_rules t)).
Definition mark_dirty : M unit := set_dirty true.

Definition attach (spec : _RuleSpec) : M unit :=
  t ← get;
  _ ← (if _dirty t then _ ← detach; set_dirty false else mret tt);
  t ← get;
  if is_attached spec t then mret tt
  else
    let body := _rule_body spec in
    _ ← _run ("-A" :: body) true;
    _ ← set_rules (dset spec ("-D" :: body) (_rules t));
    rc ← _run ("-C" :: body) false;
    if negb (rc =? 0) then
      t ← get;
      _ ← set_rules (ddel spec (_rules t));
      raise (IptablesError ("iptables -C NFQUEUE/" +:+ str_of_Z (queue spec) +:+ " failed after -A"))
    else mret tt.

Definition detach_one (spec : _RuleSpec) : M unit :=
  t ← get;
  match dget spec (_rules t) with
  | None => mret tt
  | Some delete_args =>
      _ ← set_rules (ddel spec (_rules t));
      except_os (_ ← _run delete_args false; mret tt)
  end.
End Tracker.

Definition prepare_tcp {K} `{!Iptables K} (port qnum : Z) (ip : option string) : M (K := K) unit :=
  attach host_prefix (Rule "tcp" (str_of_Z port) qnum false true ip).
Definition prepare_udp {K} `{!Iptables K} (ports : string) (qnum : Z) (voice_port : option Z) : M (K := K) unit :=
  attach host_prefix (Rule "udp" (match voice_port with Some p => str_of_Z p | None => ports end) qnum false true None).

(** ** The registry *)

Section Registry.
Context {K : Type} `{!Iptables K}.
Definition registry : Type := list (string * tracker).
Definition R (A : Type) : Type := registry * K -> (exn + A) * (registry * K).

(** An operation of the tracker of a name, made on first use: the object in the registry changes. *)
Definition use_ns_firewall {A} (ns_name : string) (op : list string -> M (K := K) A) : R A := fun w =>
  let '(r, (t, k)) := op (ns_prefix ns_name) (default fresh_tracker (dget ns_name w.1), w.2) in
  (r, (dset ns_name t w.1, k)).
Definition mark_ns_dirty (ns_name : string) : R unit := fun w =>
  match dget ns_name w.1 with
  | Some t => (inr tt, (dset ns_name (Tracker (_rules t) true) w.1, w.2))
  | None => (inr tt, w)
  end.
Definition drop_ns_firewall (ns_name : string) : R unit := fun w =>
  match dget ns_name w.1 with
  | None => (inr tt, w)
  | Some t => let '(r, (_, k)) := detach (ns_prefix ns_name) (t, w.2) in (r, (ddel ns_name w.1, k))
  end.
End Registry.

(** ** What [iptables] does *)

#[local] Open Scope list_scope.

Definition is_prefix (p : list string) : Prop := p = host_prefix \/ exists n, p = ns_prefix n.

(** The commands are those of the two prefixes; a command of one prefix leaves the chains of the others alone. *)
Class IptablesLaws (K : Type) `{!Iptables K} : Prop := {
  law_append p body k : is_prefix p ->
    match subprocess_run (p ++ "-A" :: body)%list k with
    | (Ran 0 _, k') => chain p k' = (chain p k ++ [body])%list
    | (Expired, k') => chain p k' = chain p k \/ chain p k' = (chain p k ++ [body])%list
    | (_, k') => chain p k' = chain p k
    end;
  law_delete p body k : is_prefix p ->
    match subprocess_run (p ++ "-D" :: body)%list k with
    | (Ran 0 _, k') => chain p k ≡ₚ body :: chain p k'
    | (Expired, k') => chain p k' = chain p k \/ chain p k ≡ₚ body :: chain p k'
    | (_, k') => chain p k' = chain p k
    end;
  law_check p body k : is_prefix p -> let '(r, k') := subprocess_run (p ++ "-C" :: body)%list k in
    chain p k' = chain p k /\ (match r with Ran 0 _ => body ∈ chain p k | _ => True end);
  law_frame p p' args k : is_prefix p -> is_prefix p' -> p <> p' -> chain p' (subprocess_run (p ++ args)%list k).2 = chain p' k
}.

(** No command times out. *)
Definition prompt (K : Type) `{!Iptables K} : Prop := forall argv k, (subprocess_run argv k).1 <> Expired.
(** Every command that can succeed does. *)
Definition healthy (K : Type) `{!Iptables K} : Prop := forall p body k, is_prefix p ->
  (exists d, (subprocess_run (p ++ "-A" :: body)%list k).1 = Ran 0 d)
  /\ (body ∈ chain p k -> exists d, (subprocess_run (p ++ "-D" :: body)%list k).1 = Ran 0 d)
  /\ (body ∈ chain p k -> exists d, (subprocess_run (p ++ "-C" :: body)%list k).1 = Ran 0 d).

Definition bodies (t : tracker) : list (list string) := _rule_body <$> keys (_rules t).

Section Laws.
Context {K : Type} `{!Iptables K, !IptablesLaws K} (prefix : list string) (Hx : is_prefix prefix) (Hp : prompt K).

(** The chain: what was there, what was left behind, and what is tracked. *)
Record Inv (foreign left_over : list (list string)) (w : world (K := K)) : Prop := {
  inv_wf : NoDup (keys (_rules w.1));
  inv_args : forall s a, (s, a) ∈ _rules w.1 -> a = "-D" :: _rule_body s;
  inv_chain : chain prefix w.2 ≡ₚ (foreign ++ left_over) ++ bodies w.1
}.

(** A [-A] that is checked, a [-D] whose errors are caught, and a [-C]. *)
Lemma run_append body w : exists r k', _run prefix ("-A" :: body) true w = (r, (w.1, k'))
  /\ (chain prefix k' = chain prefix w.2 /\ (exists e, r = inl e /\ forall m, e <> RuntimeError m)
      \/ chain prefix k' = (chain prefix w.2 ++ [body])%list /\ exists rc, r = inr rc).
Proof using All.
  unfold _run. pose proof (law_append prefix body w.2 Hx) as L. pose proof (Hp (prefix ++ "-A" :: body)%list w.2) as P.
  destruct (subprocess_run (prefix ++ "-A" :: body)%list w.2) as [[rc d| |m] k']; [|done|].
  - destruct (Z.eqb_spec rc 0) as [->|N]; cbn; [eexists _, k'; split; [done|]; right; eauto|].
    eexists _, k'. split; [done|]. left. split; [by destruct rc|eauto].
  - eexists _, k'. split; [done|]. left. split; [done|]. eauto.
Qed.

Lemma run_delete body w : exists k',
  except_os (_ ← _run prefix ("-D" :: body) false; mret tt) w = (inr tt, (w.1, k'))
  /\ (chain prefix k' = chain prefix w.2 /\ ~ (healthy K /\ body ∈ chain prefix w.2) \/ chain prefix w.2 ≡ₚ body :: chain prefix k').
Proof using All.
  unfold except_os, _run, mbind, M_bind. cbn. pose proof (law_delete prefix body w.2 Hx) as L.
  pose proof (Hp (prefix ++ "-D" :: body)%list w.2) as P.
  assert (HH : healthy K /\ body ∈ chain prefix w.2 -> exists d, (subprocess_run (prefix ++ "-D" :: body)%list w.2).1 = Ran 0 d).
  { intros [H B]. by apply (H prefix body w.2 Hx). }
  destruct (subprocess_run (prefix ++ "-D" :: body)%list w.2) as [[rc d| |m] k'] eqn:E; [|done|]; cbn in HH.
  - eexists k'. split; [done|]. destruct (Z.eqb_spec rc 0) as [->|N]; [by right|]. left. split; [by destruct rc|].
    intros (d' & ?)%HH. congruence.
  - eexists k'. split; [done|]. left. split; [done|]. intros (d' & ?)%HH. congruence.
Qed.

Lemma run_check body w : exists r k', _run prefix ("-C" :: body) false w = (r, (w.1, k')) /\ chain prefix k' = chain prefix w.2
  /\ (r = inr 0 -> body ∈ chain prefix w.2) /\ (healthy K -> body ∈ chain prefix w.2 -> r = inr 0) /\ (forall m, r <> inl (RuntimeError m)).
Proof using All.
  unfold _run. pose proof (law_check prefix body w.2 Hx) as L. pose proof (Hp (prefix ++ "-C" :: body)%list w.2) as P.
  assert (HH : healthy K -> body ∈ chain prefix w.2 -> exists d, (subprocess_run (prefix ++ "-C" :: body)%list w.2).1 = Ran 0 d).
  { intros H B. by apply (H prefix body w.2 Hx). }
  destruct (subprocess_run (prefix ++ "-C" :: body)%list w.2) as [[rc d| |m] k']; [|done|]; cbn in HH; destruct L as [L1 L2];
    eexists _, k'; (split; [done|]); split_and!; try done.
  - intros [= ->]. done.
  - intros H B. destruct (HH H B) as (d' & [= -> _]). done.
  - intros H B. destruct (HH H B) as (d' & ?). congruence.
Qed.

Lemma delete_each_inv foreign l : forall left w, chain prefix w.2 ≡ₚ (foreign ++ left) ++ l ->
  exists left' k', delete_each prefix (cons "-D" <$> l) w = (inr tt, (w.1, k'))
    /\ chain prefix k' ≡ₚ foreign ++ left' /\ (healthy K -> left' = left).
Proof using All.
  induction l as [|b l IH]; intros left w Hc.
  - exists left, w.2. rewrite app_nil_r in Hc. destruct w. by split_and!.
  - destruct (run_delete b w) as (k' & E & D). cbn [fmap list_fmap delete_each].
    unfold mbind at 1, M_bind at 1. rewrite E.
    destruct D as [[C NH]|C].
    + destruct (IH (b :: left) (w.1, k')) as (left' & k2 & E2 & C2 & H2); [cbn [snd]; rewrite C, Hc; solve_Permutation|].
      exists left', k2. split_and!; [exact E2|done|]. intros H. exfalso. apply NH. split; [done|]. rewrite Hc, !elem_of_app. right. by left.
    + destruct (IH left (w.1, k')) as (left' & k2 & E2 & C2 & H2); [|by exists left', k2; split_and!].
      cbn [snd]. rewrite Hc in C. apply (Permutation_cons_inv (a := b)). rewrite <- C. solve_Permutation.
Qed.

Lemma tracked_values foreign left w : Inv foreign left w -> values (_rules w.1) = cons "-D" <$> bodies w.1.
Proof using All.
  intros I. pose proof (inv_args _ _ _ I) as A. unfold bodies, values, keys. clear I.
  induction (_rules w.1) as [|[s a] l IH]; [done|]. cbn. rewrite (A s a) by by left. f_equal. apply IH. intros s' a' H. apply A. by right.
Qed.

Lemma detach_inv foreign left w : Inv foreign left w -> exists left' k',
  detach prefix w = (inr tt, (Tracker [] (_dirty w.1), k')) /\ Inv foreign left' (Tracker [] (_dirty w.1), k') /\ (healthy K -> left' = left).
Proof using All.
  intros I. unfold detach, get, mbind, M_bind. cbn. rewrite (tracked_values _ _ _ I).
  destruct (delete_each_inv foreign (reverse (bodies w.1)) left w) as (left' & k' & E & C & H).
  { rewrite (inv_chain _ _ _ I). f_equiv. symmetry. apply reverse_Permutation. }
  rewrite fmap_reverse in E. unfold mbind, M_bind in E. rewrite E. exists left', k'. split; [done|]. split; [|done].
  split; cbn; [constructor|by intros s a []%elem_of_nil|by rewrite app_nil_r].
Qed.

Lemma bodies_set s v d b : s ∉ keys d -> bodies (Tracker (dset s v d) b) = bodies (Tracker d b) ++ [_rule_body s].
Proof. intros N. unfold bodies. cbn [_rules]. rewrite (dset_new s v d N). by rewrite keys_app, fmap_app. Qed.

Lemma bodies_del s d b : NoDup (keys d) -> s ∈ keys d -> bodies (Tracker d b) ≡ₚ _rule_body s :: bodies (Tracker (ddel s d) b).
Proof.
  unfold bodies. cbn. induction d as [|[s' v] d IH]; [by intros _ ?%elem_of_nil|]. cbn. intros [N W]%NoDup_cons. rewrite elem_of_cons.
  case_decide as D; [by subst|]. intros [->|H]; [done|]. cbn. rewrite IH by done. apply Permutation_swap.
Qed.

(** The part of [attach] after the re-synchronisation. *)
Definition attach_clean (spec : _RuleSpec) : M (K := K) unit :=
  t ← get;
  if is_attached spec t then mret tt
  else
    let body := _rule_body spec in
    _ ← _run prefix ("-A" :: body) true;
    _ ← set_rules (dset spec ("-D" :: body) (_rules t));
    rc ← _run prefix ("-C" :: body) false;
    if negb (rc =? 0)%Z then
      t ← get;
      _ ← set_rules (ddel spec (_rules t));
      raise (IptablesError ("iptables -C NFQUEUE/" +:+ str_of_Z (queue spec) +:+ " failed after -A"))
    else mret tt.

(** How it ends: the rule is tracked and there, or an error that is no time-out. *)
Definition attached (spec : _RuleSpec) (r : exn + unit) (w : world (K := K)) : Prop :=
  match r with
  | inr tt => spec ∈ keys (_rules w.1) /\ _rule_body spec ∈ chain prefix w.2
  | inl e => forall m, e <> RuntimeError m
  end.

Lemma tracked_there foreign left w spec : Inv foreign left w -> spec ∈ keys (_rules w.1) -> _rule_body spec ∈ chain prefix w.2.
Proof using All. intros I H. rewrite (inv_chain _ _ _ I), elem_of_app. right. by apply list_elem_of_fmap_2. Qed.

Lemma inv_track foreign left t k k' spec : Inv foreign left (t, k) -> spec ∉ keys (_rules t) ->
  chain prefix k' = chain prefix k ++ [_rule_body spec] ->
  Inv foreign left (Tracker (dset spec ("-D" :: _rule_body spec) (_rules t)) (_dirty t), k').
Proof using All.
  intros I N C. split; cbn [fst snd].
  - by apply wf_set, (inv_wf _ _ _ I).
  - intros s' a. cbn [_rules]. rewrite dset_new by done. rewrite elem_of_app, list_elem_of_singleton. intros [H|H]; [by apply (inv_args _ _ _ I)|congruence].
  - rewrite C, (inv_chain _ _ _ I), bodies_set by done. destruct t. by rewrite (assoc_L (++)).
Qed.

Lemma inv_untrack foreign left t k spec : Inv foreign left (t, k) -> spec ∈ keys (_rules t) ->
  Inv foreign (_rule_body spec :: left) (Tracker (ddel spec (_rules t)) (_dirty t), k).
Proof using All.
  intros I N. pose proof (inv_wf _ _ _ I) as W. split; cbn [fst snd _rules].
  - by apply wf_del.
  - intros s' a H. apply (inv_args _ _ _ I). cbn. apply elem_of_dict; [done|]. apply elem_of_dict in H; [|by apply wf_del].
    assert (s' <> spec) by (intros ->; rewrite dget_del_eq in H; done). by rewrite dget_del_ne in H.
  - rewrite (inv_chain _ _ _ I). cbn [fst]. destruct t as [d b]. rewrite (bodies_del spec d b) by done. cbn. solve_Permutation.
Qed.

Lemma attach_clean_inv foreign left w spec : Inv foreign left w -> exists r w' left',
  attach_clean spec w = (r, w') /\ Inv foreign left' w' /\ attached spec r w' /\ (healthy K -> left' = left /\ r = inr tt)
  /\ _dirty w'.1 = _dirty w.1.
Proof using All.
  intros I. unfold attach_clean, is_attached. unfold mbind at 1, M_bind at 1. cbn [get].
  destruct (bool_decide_reflect (spec ∈ keys (_rules w.1))) as [T|T].
  { exists (inr tt), w, left. split_and!; try done. split; [done|by eapply tracked_there]. }
  cbv zeta. unfold mbind at 1, M_bind at 1. destruct (run_append (_rule_body spec) w) as (r & k1 & E1 & [[C1 (e & -> & Ne)]|[C1 (rc & ->)]]); rewrite E1.
  { exists (inl e), (w.1, k1), left. split_and!; [done| |done| |done].
    - destruct I as [I1 I2 I3]. split; cbn [fst snd]; [done|done|by rewrite C1].
    - intros H. destruct (H prefix (_rule_body spec) w.2 Hx) as [(d & Hd) _]. revert E1. unfold _run.
      destruct (subprocess_run _ _) as [r k]. cbn in Hd. subst r. by intros [= ]. }
  unfold mbind at 1, M_bind at 1. cbn [set_rules fst snd].
  assert (I1 : Inv foreign left (Tracker (dset spec ("-D" :: _rule_body spec) (_rules w.1)) (_dirty w.1), k1)).
  { apply (inv_track _ _ _ w.2); [by destruct w|done|done]. }
  set (w1 := (Tracker (dset spec ("-D" :: _rule_body spec) (_rules w.1)) (_dirty w.1), k1)) in *.
  assert (T1 : spec ∈ keys (_rules w1.1)) by (apply elem_of_keys_set; by left).
  unfold mbind at 1, M_bind at 1. destruct (run_check (_rule_body spec) w1) as (r & k2 & E2 & C2 & R2 & HH & Nr). rewrite E2.
  assert (I2 : Inv foreign left (w1.1, k2)) by (destruct I1 as [? ? ?]; split; cbn [fst snd]; [done|done|by rewrite C2]).
  pose proof (tracked_there _ _ _ _ I1 T1) as There.
  destruct r as [e|rc2].
  { exists (inl e), (w1.1, k2), left. split_and!; [done|done|by intros m ->; apply (Nr m)|intros H; by specialize (HH H There)|done]. }
  destruct (Z.eqb_spec rc2 0) as [->|N2]; cbn [negb].
  - exists (inr tt), (w1.1, k2), left. split_and!; try done. split; [done|by eapply tracked_there].
  - eexists _, _, _. split; [reflexivity|]. split; [by apply inv_untrack|]. split; [done|].
    split; [|done]. intros H. specialize (HH H There). congruence.
Qed.

Lemma attach_dirty w w1 spec : _dirty w.1 = true -> detach prefix w = (inr tt, w1) ->
  attach prefix spec w = attach_clean spec (Tracker (_rules w1.1) false, w1.2).
Proof using All.
  intros D E. unfold attach, attach_clean, get, set_dirty. unfold mbind, M_bind. cbv beta iota. rewrite D.
  unfold mbind, M_bind. cbv beta iota. rewrite E. reflexivity.
Qed.

Lemma attach_inv foreign left w spec : Inv foreign left w -> exists r w' left',
  attach prefix spec w = (r, w') /\ Inv foreign left' w' /\ attached spec r w' /\ (healthy K -> left' = left /\ r = inr tt)
  /\ _dirty w'.1 = false.
Proof using All.
  intros I. destruct (_dirty w.1) eqn:D.
  - destruct (detach_inv _ _ _ I) as (l1 & k1 & E1 & I1 & H1).
    assert (I1' : Inv foreign l1 (Tracker [] false, k1)) by (destruct I1 as [? ? ?]; by split).
    destruct (attach_clean_inv foreign l1 (Tracker [] false, k1) spec I1') as (r & w' & l' & E & I' & A & H & Dw).
    exists r, w', l'. split_and!; try done.
    + rewrite <- E. by apply (attach_dirty _ _ _ D E1).
    + intros Hh. destruct (H Hh) as [-> ->]. by rewrite (H1 Hh).
  - destruct (attach_clean_inv foreign left w spec I) as (r & w' & l' & E & I' & A & H & Dw).
    exists r, w', l'. split_and!; try done; [|congruence].
    rewrite <- E. unfold attach, attach_clean. unfold mbind at 1, M_bind at 1. cbn [get]. rewrite D. done.
Qed.

Lemma detach_one_inv foreign left w spec : Inv foreign left w -> exists w' left',
  detach_one prefix spec w = (inr tt, w') /\ Inv foreign left' w' /\ (healthy K -> left' = left)
  /\ keys (_rules w'.1) = keys (ddel spec (_rules w.1)) /\ _dirty w'.1 = _dirty w.1.
Proof using All.
  intros I. destruct w as [t k]. unfold detach_one. unfold mbind at 1, M_bind at 1. cbn [get fst].
  destruct (dget spec (_rules t)) as [args|] eqn:G.
  - pose proof (inv_args _ _ _ I spec args (dget_elem _ _ _ G)) as ->. pose proof (dget_Some_key _ _ _ G) as T.
    unfold mbind at 1, M_bind at 1. cbn [set_rules fst snd].
    pose proof (inv_untrack _ _ _ _ _ I T) as I1. destruct (run_delete (_rule_body spec) (Tracker (ddel spec (_rules t)) (_dirty t), k)) as (k' & E & C).
    rewrite E. destruct C as [[C N]|C]; cbn [fst snd] in *.
    + exists (Tracker (ddel spec (_rules t)) (_dirty t), k'), (_rule_body spec :: left). split_and!; try done.
      * destruct I1 as [? ? I3]. split; cbn [fst snd] in *; [done|done|by rewrite C].
      * intros H. exfalso. apply N. split; [done|]. by apply (tracked_there _ _ _ _ I).
    + exists (Tracker (ddel spec (_rules t)) (_dirty t), k'), left. split_and!; try done.
      destruct I1 as [? ? I3]. split; cbn [fst snd] in *; [done|done|].
      apply (Permutation_cons_inv (a := _rule_body spec)). rewrite <- C, I3. solve_Permutation.
  - exists (t, k), left. split_and!; try done. cbn [fst]. rewrite ddel_absent; [done|]. by apply dget_None.
Qed.

(** ** The life of a tracker *)

Inductive op : Type := Attach (spec : _RuleSpec) | DetachOne (spec : _RuleSpec) | Detach | MarkDirty.
Definition run_op (o : op) : M (K := K) unit :=
  match o with Attach spec => attach prefix spec | DetachOne spec => detach_one prefix spec | Detach => detach prefix | MarkDirty => mark_dirty end.
(** One after the other, whatever each of them raises. *)
Fixpoint run_ops (os : list op) (w : world (K := K)) : world (K := K) :=
  match os with [] => w | o :: os => run_ops os (run_op o w).2 end.

Lemma run_op_inv foreign left o w : Inv foreign left w -> exists left', Inv foreign left' (run_op o w).2 /\ (healthy K -> left' = left).
Proof using All.
  intros I. destruct o as [spec|spec| |]; cbn [run_op].
  - destruct (attach_inv _ _ _ spec I) as (r & w' & l' & E & I' & _ & H & _). rewrite E. exists l'. split; [done|]. intros Hh. by apply H.
  - destruct (detach_one_inv _ _ _ spec I) as (w' & l' & E & I' & H & _). rewrite E. by exists l'.
  - destruct (detach_inv _ _ _ I) as (l' & k' & E & I' & H). rewrite E. by exists l'.
  - exists left. split; [|done]. destruct I as [? ? ?]. by split.
Qed.

Lemma run_ops_inv foreign os : forall left w, Inv foreign left w -> exists left', Inv foreign left' (run_ops os w) /\ (healthy K -> left' = left).
Proof using All.
  induction os as [|o os IH]; intros left w I; [by exists left|].
  destruct (run_op_inv _ _ o _ I) as (l1 & I1 & H1). destruct (IH _ _ I1) as (l2 & I2 & H2). exists l2. split; [done|].
  intros Hh. rewrite H2, H1; done.
Qed.

Lemma inv_new k : Inv (chain prefix k) [] (fresh_tracker, k).
Proof using All. split; cbn; [constructor|by intros s a []%elem_of_nil|by rewrite !app_nil_r]. Qed.

(** *** The other chains *)

Definition framed {A} (m : M (K := K) A) : Prop := forall w p', is_prefix p' -> prefix <> p' -> chain p' (m w).2.2 = chain p' w.2.

Lemma fw_bind {A B} (m : M A) (f : A -> M B) : framed m -> (forall a, framed (f a)) -> framed (m ≫= f).
Proof using All.
  intros Hm Hf w p' X N. unfold mbind, M_bind. specialize (Hm w p' X N). destruct (m w) as [[e|a] w1]; [done|].
  cbn in Hm. rewrite <- Hm. by apply Hf.
Qed.
Lemma framed_pure {A} (m : M A) : (forall w, (m w).2.2 = w.2) -> framed m.
Proof using All. intros H w p' _ _. by rewrite H. Qed.
Lemma fw_run args check : framed (_run prefix args check).
Proof using All.
  intros w p' X N. unfold _run. pose proof (law_frame prefix p' args w.2 Hx X N) as F. destruct (subprocess_run _ _) as [r k]. cbn in F.
  destruct r; try done. by destruct (_ && _).
Qed.
Lemma framed_except m : framed m -> framed (except_os m).
Proof using All. intros H w p' X N. unfold except_os. specialize (H w p' X N). by destruct (m w) as [[[]|] ?]. Qed.

#[local] Hint Resolve fw_bind fw_run framed_except : framed.
#[local] Hint Extern 3 (framed _) => apply framed_pure; reflexivity : framed.

Lemma framed_detach : framed (detach prefix).
Proof using All.
  apply fw_bind; [auto with framed|]. intros t. apply fw_bind; [|auto with framed].
  induction (reverse _) as [|args l IH]; cbn [delete_each]; auto with framed.
Qed.
Lemma framed_op o : framed (run_op o).
Proof using All.
  destruct o as [spec|spec| |]; cbn [run_op]; [| |by apply framed_detach|auto with framed].
  - apply fw_bind; [auto with framed|]. intros t. apply fw_bind.
    { destruct (_dirty t); [apply fw_bind; [apply framed_detach|auto with framed]|auto with framed]. }
    intros _. apply fw_bind; [auto with framed|]. intros t'. destruct (is_attached _ _); [auto with framed|]. cbv zeta.
    repeat (apply fw_bind; [by auto with framed|intros ?]). destruct (negb _); auto with framed.
  - apply fw_bind; [auto with framed|]. intros t. destruct (dget _ _); auto with framed.
Qed.
Lemma framed_ops os : forall w p', is_prefix p' -> prefix <> p' -> chain p' (run_ops os w).2 = chain p' w.2.
Proof using All. induction os as [|o os IH]; intros w p' X N; cbn; [done|]. rewrite IH by done. by apply framed_op. Qed.

(** C10. (safety) A tracker only takes back what it added. Whatever it does from its start, as long as no command times out,
    and whichever of them fail: the rules that were in the chain are still there, with every rule that is tracked, once
    each, so that no probe of a tracked rule bypasses the queue. When [attach] returns, its rule is tracked and in the
    chain; when it raises, it is not for a time-out. [detach] never raises, and leaves nothing tracked. If every
    command that can succeed does, the chain is exactly what was there and the tracked rules, and [detach] brings
    back the chain as it was. The chains of the other namespaces and of the host are never touched. *)
Theorem tracker_takes_back_its_own k os :
  let w := run_ops os (fresh_tracker, k) in
  chain prefix k ⊆+ chain prefix w.2 /\ bodies w.1 ⊆+ chain prefix w.2 /\ NoDup (keys (_rules w.1))
  /\ (forall spec, attached spec (attach prefix spec w).1 (attach prefix spec w).2)
  /\ (exists k', detach prefix w = (inr tt, (Tracker [] (_dirty w.1), k')) /\ chain prefix k ⊆+ chain prefix k'
        /\ (healthy K -> chain prefix k' ≡ₚ chain prefix k))
  /\ (healthy K -> chain prefix w.2 ≡ₚ chain prefix k ++ bodies w.1 /\ forall spec, (attach prefix spec w).1 = inr tt)
  /\ (forall p', is_prefix p' -> prefix <> p' -> chain p' w.2 = chain p' k).
Proof using All.
  cbv zeta. destruct (run_ops_inv _ os _ _ (inv_new k)) as (left & I & H). set (w := run_ops os (fresh_tracker, k)) in *.
  pose proof (inv_chain _ _ _ I) as C. split_and!.
  - rewrite C, <- (assoc_L (++)). by apply submseteq_inserts_r.
  - rewrite C. by apply submseteq_inserts_l.
  - apply (inv_wf _ _ _ I).
  - intros spec. destruct (attach_inv _ _ _ spec I) as (r & w' & l' & E & _ & A & _). by rewrite E.
  - destruct (detach_inv _ _ _ I) as (l' & k' & E & I' & Hl). exists k'. split; [done|].
    pose proof (inv_chain _ _ _ I') as C'. cbn [fst snd] in C'. change (bodies (Tracker [] (_dirty w.1))) with (@nil (list string)) in C'.
    rewrite app_nil_r in C'. split; [rewrite C'; by apply submseteq_inserts_r|].
    intros Hh. rewrite C', Hl, H by done. by rewrite app_nil_r.
  - intros Hh. split; [rewrite C, (H Hh); by rewrite app_nil_r|]. intros spec.
    destruct (attach_inv _ _ _ spec I) as (r & w' & l' & E & _ & _ & Hr & _). rewrite E. by apply Hr.
  - intros p' X N. by apply (framed_ops os (fresh_tracker, k)).
Qed.
End Laws.

(** ** An [iptables] that keeps its laws *)

(** A chain per prefix, and what is to become of the next commands: [None] is a command that works. *)
Inductive fault : Type := Refused | Late (effect : bool).
Record kernel : Type := Kernel { faults : list (option fault); chains : list string -> list (list string) }.
Definition upd (p : list string) (c : list (list string)) (f : list string -> list (list string)) : list string -> list (list string) :=
  fun p' => if decide (p' = p) then c else f p'.

(** The prefix, the verb and the body of a command. *)
Definition parse_argv (argv : list string) : option (list string * string * list string) :=
  match argv with
  | "sudo" :: "-n" :: "iptables" :: verb :: body => Some (host_prefix, verb, body)
  | "sudo" :: "-n" :: "ip" :: "netns" :: "exec" :: n :: "iptables" :: verb :: body => Some (ns_prefix n, verb, body)
  | _ => None
  end.
Fixpoint remove_first (b : list string) (c : list (list string)) : list (list string) :=
  match c with [] => [] | x :: c => if decide (x = b) then c else x :: remove_first b c end.
Definition effect (verb : string) (body : list string) (c : list (list string)) : option (list (list string)) :=
  if String.eqb verb "-A" then Some (c ++ [body])
  else if String.eqb verb "-D" then (if decide (body ∈ c) then Some (remove_first body c) else None)
  else if String.eqb verb "-C" then (if decide (body ∈ c) then Some c else None)
  else None.
Definition run_kernel (argv : list string) (k : kernel) : spawned * kernel :=
  match parse_argv argv with
  | None => (Ran 2 "", k)
  | Some (p, verb, body) =>
      let rest := tail (faults k) in
      let keep := Kernel rest (chains k) in
      match effect verb body (chains k p) with
      | None => (Ran 1 "", keep)
      | Some c =>
          let done := Kernel rest (upd p c (chains k)) in
          match default None (head (faults k)) with
          | None => (Ran 0 "", done)
          | Some Refused => (Ran 4 "", keep)
          | Some (Late b) => (Expired, if b then done else keep)
          end
      end
  end.

#[global] Instance kernel_iptables : Iptables kernel := {| subprocess_run := run_kernel; chain := fun p k => chains k p |}.
(** The same without faults. *)
Definition tables : Type := list string -> list (list string).
#[global] Instance tables_iptables : Iptables tables := {|
  subprocess_run argv k := let '(r, k') := run_kernel argv (Kernel [] k) in (r, chains k');
  chain := fun p k => k p
|}.

Lemma remove_first_perm b c : b ∈ c -> c ≡ₚ b :: remove_first b c.
Proof.
  induction c as [|x c IH]; [by intros ?%elem_of_nil|]. cbn. intros [->|H]%elem_of_cons; [by rewrite decide_True|].
  case_decide as D; [by subst|]. rewrite (IH H) at 1. apply Permutation_swap.
Qed.

Lemma parse_prefix p verb body : is_prefix p -> parse_argv (p ++ verb :: body) = Some (p, verb, body).
Proof. by intros [->|[n ->]]. Qed.

Lemma upd_same p c f : upd p c f p = c.
Proof. unfold upd. by rewrite decide_True. Qed.

#[global] Instance tables_laws : IptablesLaws tables.
Proof.
  split; cbn [subprocess_run chain tables_iptables]; unfold run_kernel.
  - intros p body k X. rewrite parse_prefix by done. cbn. by rewrite upd_same.
  - intros p body k X. rewrite parse_prefix by done. cbn. case_decide as D; cbn; [|done]. rewrite upd_same. by apply remove_first_perm.
  - intros p body k X. rewrite parse_prefix by done. cbn. case_decide as D; cbn; [|done]. by rewrite upd_same.
  - intros p p' args k X X' N. destruct args as [|verb body].
    + rewrite app_nil_r. by destruct X as [->|[n ->]].
    + rewrite parse_prefix by done. cbn. destruct (effect verb body (k p)); cbn; [|done]. unfold upd. by rewrite decide_False.
Qed.

Lemma tables_prompt : prompt tables.
Proof. intros argv k. cbn. unfold run_kernel. destruct (parse_argv argv) as [[[p v] b]|]; [|done]. cbn. by destruct (effect v b (k p)). Qed.

Lemma tables_healthy : healthy tables.
Proof.
  intros p body k X. cbn. unfold run_kernel. rewrite !parse_prefix by done. cbn.
  split_and!; [by eexists|intros H; rewrite decide_True by done; by eexists..].
Qed.

Definition tcp443 : _RuleSpec := Rule "tcp" "443" 200 false true None.
Definition udp443 : _RuleSpec := Rule "udp" "443" 201 false true None.
Definition foreign_ex : tables := fun _ => [["OUTPUT"; "-j"; "ACCEPT"]; _rule_body tcp443].
Definition ops_ex : list op := [Attach tcp443; Attach udp443; Attach tcp443; DetachOne udp443].

Example tracker_takes_back_its_own_witness :
  let w := run_ops (ns_prefix "bs-p0") ops_ex (fresh_tracker, foreign_ex) in
  keys (_rules w.1) = [tcp443] /\ chain (ns_prefix "bs-p0") w.2 ≡ₚ chain (ns_prefix "bs-p0") foreign_ex ++ bodies w.1.
Proof.
  pose proof (tracker_takes_back_its_own (K := tables) (ns_prefix "bs-p0") ltac:(right; by exists "bs-p0") tables_prompt foreign_ex ops_ex) as H.
  cbv zeta in H |- *. destruct H as (_ & _ & _ & _ & _ & H & _). split; [vm_compute; reflexivity|]. exact (proj1 (H tables_healthy)).
Defined.

(** ** Time-outs *)

(** A time-out leaves [_run] as a [RuntimeError], which the handlers of [detach] do not catch: it ends half-way,
    with everything still tracked, and the next [detach] takes a rule that somebody else added. *)
Example expired_detach_takes_foreign :
  let p := ns_prefix "bs-p0" in
  let theirs := _rule_body udp443 in
  let w0 : tracker * kernel := (fresh_tracker, Kernel [None; None; None; None; None; Some (Late false)] (fun _ => [theirs])) in
  let w1 := run_ops p [Attach tcp443; Attach udp443] w0 in
  let w2 := (detach p w1).2 in
  let w3 := (detach p w2).2 in
  (detach p w1).1 = inl (RuntimeError ("iptables timeout: " +:+ join " " ("-D" :: _rule_body tcp443)))
  /\ keys (_rules w2.1) = [tcp443; udp443]
  /\ (detach p w2).1 = inr tt /\ chain p w3.2 = [].
Proof. vm_compute. done. Qed.

(** When a namespace is dropped, such a time-out also loses track of the rules that are left. *)
Example expired_drop_leaves_rules :
  let w0 : registry * kernel := ([], Kernel [None; None; Some (Late false)] (fun _ => [])) in
  let w1 := (use_ns_firewall "bs-p0" (fun p => attach p tcp443) w0).2 in
  let '(r, (reg, k)) := drop_ns_firewall "bs-p0" w1 in
  r = inl (RuntimeError ("iptables timeout: " +:+ join " " ("-D" :: _rule_body tcp443)))
  /\ reg = [] /\ chain (ns_prefix "bs-p0") k = [_rule_body tcp443].
Proof. vm_compute. done. Qed.

(** A [-C] that is refused although the rule is there: the rule stays in the chain, and is not tracked any more. *)
Example refused_check_leaks :
  let w0 : tracker * kernel := (fresh_tracker, Kernel [None; Some Refused] (fun _ => [])) in
  let w1 := (attach (ns_prefix "bs-p0") tcp443 w0).2 in
  _rules w1.1 = [] /\ chain (ns_prefix "bs-p0") w1.2 = [_rule_body tcp443].
Proof. vm_compute. done. Qed.

(** [mark_dirty]: the next [attach] takes back every tracked rule and adds its own only. *)
Example dirty_forgets_the_others :
  let w0 : tracker * tables := (fresh_tracker, fun _ => []) in
  let w1 := run_ops (ns_prefix "bs-p0") [Attach tcp443; MarkDirty; Attach udp443] w0 in
  keys (_rules w1.1) = [udp443] /\ chain (ns_prefix "bs-p0") w1.2 = [_rule_body udp443].
Proof. vm_compute. done. Qed.
