(* ===== verification/RunLock.v ===== *)
(** * The lock of a campaign: [service/run_control.py]

    [run.lock] names the process that runs a campaign. First the functions, as one process runs them on the file;
    then several processes that register at the same time, with one step per access to the file. The signals, the
    process table and the clock are arguments: a loop that waits is the list of what it saw before its deadline. *)

From stdpp Require Import base numbers list strings.
From Stdlib Require Import ZArith Lia.
From S2P Require Import Prelude PyFloat PyStr PyDict PyJson.

#[local] Open Scope string_scope.
#[local] Open Scope Z_scope.
#[local] Set Default Proof Using "Type".

(** ** What the file says *)

Record ActiveRunInfo : Type := Info {
  pid : Z; command : string; started_at : string; db_path : option string; cwd : option string; argv : list string
}.

(** [int(v)] of a decoded value: [Raise] is [TypeError] or [ValueError]. *)
Definition int_value (v : json) : outcome Z :=
  match v with
  | JInt z => Ret z
  | JBool b => Ret (if b then 1 else 0)
  | JStr s => match py_int s with Some z => Ret z | None => Raise end
  | JFloat _ => Beyond
  | _ => Raise
  end.
Definition str_or (other : string) (v : json) : outcome string :=
  if truthy v then match v with JStr s => Ret s | _ => Beyond end else Ret other.
Definition str_or_none (v : json) : outcome (option string) :=
  if truthy v then match v with JStr s => Ret (Some s) | _ => Beyond end else Ret None.

(** [data["pid"]] of anything but a dict is a [TypeError], a missing key a [KeyError]. *)
Definition from_dict (v : json) : outcome ActiveRunInfo :=
  match v with
  | JDict data =>
      p ← match dget "pid" data with Some v => int_value v | None => Raise end;
      c ← str_or "unknown" (jget "command" data);
      s ← str_or "" (jget "started_at" data);
      db ← str_or_none (jget "db_path" data);
      wd ← str_or_none (jget "cwd" data);
      args ← strs_or_empty (jget "argv" data);
      Ret (Info p c s db wd args)
  | _ => Raise
  end.

Definition opt_str (o : option string) : json := match o with Some s => if nonempty s then JStr s else JNull | None => JNull end.
(** What [register_active_run] writes. *)
Definition payload (me : Z) (command started_at : string) (db_path : option string) (cwd : string) (argv : list string) : json :=
  JDict [("pid", JInt me); ("command", JStr command); ("started_at", JStr started_at); ("db_path", opt_str db_path);
         ("cwd", JStr cwd); ("argv", j_strs argv)].

(** ** One process *)

(** No file, a text that [json.loads] refuses, or a value. *)
Definition lock_file : Type := option (option json).
Inductive kill_result : Type := Sent | ProcessLookupError | PermissionError.

Section Host.
(** [os.kill(pid, 0)], [/proc/<pid>/cmdline] with blanks for its zero bytes ([None] for an [OSError]), and whether
    [unlink] is allowed. *)
Context (kill0 : Z -> kill_result) (cmdline : Z -> option string) (can_unlink : bool) (me : Z).

Definition is_pid_alive (pid : Z) : bool :=
  if pid <=? 0 then false else match kill0 pid with Sent => true | ProcessLookupError => false | PermissionError => true end.

Definition _cmdline_looks_like_campaign (pid : Z) : bool :=
  match cmdline pid with
  | None => true
  | Some text => if negb (nonempty text) then true else contains "blockchecks" text || contains "bin/bs" text
  end.

Definition clear_active_run (f : lock_file) : lock_file := if can_unlink then None else f.

Definition is_stale (info : ActiveRunInfo) : bool :=
  negb (pid info =? me) && (negb (is_pid_alive (pid info)) || negb (_cmdline_looks_like_campaign (pid info))).

Definition read_active_run (f : lock_file) : outcome (option ActiveRunInfo * lock_file) :=
  match f with
  | Some (Some v) =>
      match from_dict v with
      | Ret info => if is_stale info then Ret (None, clear_active_run f) else Ret (Some info, f)
      | Raise => Ret (None, f)
      | Beyond => Beyond
      end
  | _ => Ret (None, f)
  end.

(** [None] is [FileExistsError]. *)
Definition _write_run_lock_exclusive (p : json) (f : lock_file) : option lock_file :=
  match f with None => Some (Some (Some p)) | Some _ => None end.

Inductive registration : Type := Registered | SystemExit (msg : string).
Definition failed_to_acquire : string := "ERROR: failed to acquire run.lock (concurrent campaign started?)".
Definition already_registered (info : ActiveRunInfo) : string :=
  "ERROR: active run already registered (pid " +:+ str_of_Z (pid info) +:+ ", " +:+ command info +:+ "). Stop with: bs stop".

Definition write_or_exit (p : json) (f : lock_file) : registration * lock_file :=
  match _write_run_lock_exclusive p f with Some f => (Registered, f) | None => (SystemExit failed_to_acquire, f) end.

Definition register_active_run (p : json) (f : lock_file) : outcome (registration * lock_file) :=
  match _write_run_lock_exclusive p f with
  | Some f => Ret (Registered, f)
  | None =>
      '(existing, f) ← read_active_run f;
      match existing with
      | None => Ret (write_or_exit p f)
      | Some info =>
          if pid info =? me then Ret (write_or_exit p (clear_active_run f))
          else if is_pid_alive (pid info) then Ret (SystemExit (already_registered info), f)
          else Ret (write_or_exit p (clear_active_run f))
      end
  end.

(** [run_session]: the body gives its value or its exception; the bridge files of this process are removed outside. *)
Definition run_session {A} (p : json) (body : A) (f : lock_file) : outcome ((string + A) * lock_file) :=
  '(r, f) ← register_active_run p f;
  match r with SystemExit msg => Ret (inl msg, f) | Registered => Ret (inr body, clear_active_run f) end.

(** [term], [kill9]: how the signals end; [polls], [kill_polls]: what [is_pid_alive] said in the turns of the two
    loops; [wait_text]: [f"{wait_sec:.0f}"]. *)
Definition request_graceful_stop (force : bool) (wait_text : string) (term kill9 : kill_result) (polls kill_polls : list bool)
    (f : lock_file) : outcome ((Z * string) * lock_file) :=
  '(found, f) ← read_active_run f;
  match found with
  | None => Ret ((2, "No active blockcheckS run (missing or stale run.lock)"), f)
  | Some info =>
      let p := str_of_Z (pid info) in
      if pid info =? me then Ret ((2, "Refusing to stop: this process is the active run (use Ctrl+C)"), f)
      else match term with
      | ProcessLookupError => Ret ((2, "Stale run lock (pid " +:+ p +:+ " not running)"), clear_active_run f)
      | PermissionError => Ret ((2, "Permission denied signaling pid " +:+ p +:+ ". If the run was started with sudo, use: sudo bs stop"), f)
      | Sent =>
          if existsb negb polls then
            Ret ((0, "Stopped pid " +:+ p +:+ " (" +:+ command info
                     +:+ ") — DB flush/export should have completed on graceful shutdown"), clear_active_run f)
          else if force then
            match kill9 with
            | ProcessLookupError => Ret ((0, "Process " +:+ p +:+ " already exited"), clear_active_run f)
            | PermissionError => Ret ((2, "Permission denied killing pid " +:+ p +:+ " (try sudo)"), f)
            | Sent =>
                if existsb negb kill_polls then Ret ((0, "Force-killed pid " +:+ p +:+ " (" +:+ command info +:+ ")"), clear_active_run f)
                else Ret ((1, "Force kill sent but pid " +:+ p +:+ " still alive"), f)
            end
          else Ret ((1, "Timed out after " +:+ wait_text +:+ "s waiting for pid " +:+ p +:+ " (" +:+ command info
                        +:+ "). Retry with: bs stop --force"), f)
      end
  end.
End Host.

(** *** What registering does *)

Lemma payload_read me command started db cwd argv : command <> "" -> 
  from_dict (payload me command started db cwd argv)
  = Ret (Info me command started (match db with Some s => if nonempty s then Some s else None | None => None end)
              (if nonempty cwd then Some cwd else None) argv).
Proof.
  intros Hc. unfold payload, from_dict.
  change (dget "pid" _) with (Some (JInt me)). change (jget "command" _) with (JStr command). change (jget "started_at" _) with (JStr started).
  change (jget "db_path" _) with (opt_str db). change (jget "cwd" _) with (JStr cwd). change (jget "argv" _) with (j_strs argv).
  cbn [int_value mbind outcome_bind]. unfold str_or, str_or_none. rewrite strs_roundtrip.
  assert (T : forall s, truthy (JStr s) = nonempty s) by done. rewrite !T.
  assert (N : nonempty command = true) by (by destruct command). rewrite N.
  destruct started, cwd, db as [[|]|]; done.
Qed.

Section Registering.
Context (kill0 : Z -> kill_result) (cmdline : Z -> option string) (me : Z).
#[local] Notation enrol := (register_active_run kill0 cmdline true me).
#[local] Notation read := (read_active_run kill0 cmdline true me).

(** What a file means for the process that registers. *)
Inductive standing : Type := Free | Unreadable | Mine | Active (info : ActiveRunInfo) | Stale.
Definition standing_of (f : lock_file) : outcome standing :=
  match f with
  | None => Ret Free
  | Some None => Ret Unreadable
  | Some (Some v) =>
      match from_dict v with
      | Raise => Ret Unreadable
      | Beyond => Beyond
      | Ret info =>
          if pid info =? me then Ret Mine
          else if is_pid_alive kill0 (pid info) && _cmdline_looks_like_campaign cmdline (pid info) then Ret (Active info) else Ret Stale
      end
  end.

(** (error) Registering, alone: without a file, with the file of this process, or of a process that is dead or is no
    campaign, the process is registered and the file is its own; with the file of a running campaign it exits, and
    the file is not touched. With a file that cannot be read - cut short, empty, or not the record of a run - it exits
    too, and the file stays, and [bs stop] leaves it too. After a registration the file reads back as this run. *)
Theorem register_active_run_spec f command started db cwd argv st : command <> "" -> standing_of f = Ret st ->
  let p := payload me command started db cwd argv in
  enrol p f = Ret (match st with
                      | Free | Mine | Stale => (Registered, Some (Some p))
                      | Active info => (SystemExit (already_registered info), f)
                      | Unreadable => (SystemExit failed_to_acquire, f)
                      end)
  /\ (exists info, read (Some (Some p)) = Ret (Some info, Some (Some p)) /\ pid info = me /\ RunLock.command info = command)
  /\ (st = Unreadable -> read f = Ret (None, f) /\ forall term kill9 force wait polls kps,
        request_graceful_stop kill0 cmdline true me force wait term kill9 polls kps f
        = Ret ((2, "No active blockcheckS run (missing or stale run.lock)"), f)).
Proof.
  intros Hc Hs. cbv zeta. split; [|split].
  - unfold register_active_run, _write_run_lock_exclusive, read_active_run, is_stale. destruct f as [[v|]|]; cbn in Hs; [| |by simplify_eq].
    + destruct (from_dict v) as [info| |] eqn:E; [|by simplify_eq; cbn|done]. destruct (pid info =? me) eqn:M; cbn [negb andb].
      { simplify_eq. cbn. by rewrite M. }
      destruct (is_pid_alive kill0 (pid info)) eqn:A, (_cmdline_looks_like_campaign cmdline (pid info)) eqn:L; cbn in Hs |- *; simplify_eq; cbn;
        rewrite ?M, ?A; done.
    + by simplify_eq.
  - eexists. unfold read_active_run. rewrite payload_read by done. unfold is_stale. cbn [pid]. rewrite Z.eqb_refl. cbn. split_and!; done.
  - intros ->. assert (R : read f = Ret (None, f)).
    { unfold read_active_run. destruct f as [[v|]|]; cbn in Hs; [|done..]. destruct (from_dict v); [|done..].
      repeat case_match; simplify_eq. }
    split; [done|]. intros. unfold request_graceful_stop. rewrite R. done.
Qed.
End Registering.

Example register_active_run_spec_witness :
  register_active_run (fun _ => Sent) (fun _ => None) true 7 (payload 7 "full" "t" None "/" []) (Some None)
  = Ret (SystemExit failed_to_acquire, Some None).
Proof.
  refine (proj1 (register_active_run_spec (fun _ => Sent) (fun _ => None) 7 (Some None) "full" "t" None "/" [] Unreadable _ _)); [done|reflexivity].
Defined.

(** ** Several processes *)

(** Where a process is: the accesses to the file are the steps, and so are the looks at the process table. *)
Inductive pc : Type :=
  | Starting | Reading | Judging (info : ActiveRunInfo) | Clearing | Checking (info : ActiveRunInfo) | Replacing | Retrying
  | Writing (inode : nat) | Held | Refused | Gone.

(** A file is an inode: what is written into one that was unlinked is lost. [None] is the empty file just created. *)
Record shared : Type := Shared { lock : option (nat * option json); next_inode : nat; procs : list pc }.

Section Processes.
(** The process ids and the records of the processes; which other ids are alive, and which of them look like a campaign. *)
Context (pid_of : nat -> Z) (record_of : nat -> json) (others_alive others_look : Z -> bool).

Definition index_of (s : shared) (p : Z) : option nat := (list_find (fun i => pid_of i = p) (seq 0 (length (procs s)))) ≫= fun x => Some x.2.
Definition alive (s : shared) (p : Z) : bool :=
  match index_of s p with
  | Some i => match procs s !! i with Some Gone | None => false | Some _ => true end
  | None => others_alive p
  end.
Definition looks (s : shared) (p : Z) : bool := match index_of s p with Some _ => true | None => others_look p end.

Definition kill0_of (s : shared) (p : Z) : kill_result := if alive s p then Sent else ProcessLookupError.
Definition cmdline_of (s : shared) (p : Z) : option string := Some (if looks s p then "blockchecks" else "other").

Definition move (i : nat) (p : pc) (s : shared) : shared := Shared (lock s) (next_inode s) (<[i := p]> (procs s)).
Definition unlink (s : shared) : shared := Shared None (next_inode s) (procs s).
(** [O_CREAT | O_EXCL] *)
Definition create (i : nat) (otherwise : pc) (s : shared) : shared :=
  match lock s with
  | None => Shared (Some (next_inode s, None)) (S (next_inode s)) (<[i := Writing (next_inode s)]> (procs s))
  | Some _ => move i otherwise s
  end.

Definition step (i : nat) (s : shared) : option shared :=
  p ← procs s !! i;
  match p with
  | Starting => Some (create i Reading s)
  | Reading =>
      match lock s with
      | Some (_, Some v) =>
          match from_dict v with Ret info => Some (move i (Judging info) s) | Raise => Some (move i Retrying s) | Beyond => None end
      | _ => Some (move i Retrying s)
      end
  | Judging info =>
      Some (move i (if is_stale (kill0_of s) (cmdline_of s) (pid_of i) info then Clearing
                    else if pid info =? pid_of i then Replacing else Checking info) s)
  | Clearing | Replacing => Some (move i Retrying (unlink s))
  | Checking info => Some (move i (if is_pid_alive (kill0_of s) (pid info) then Refused else Replacing) s)
  | Retrying => Some (create i Refused s)
  | Writing n =>
      let s' := match lock s with Some (m, _) => if (m =? n)%nat then Shared (Some (n, Some (record_of i))) (next_inode s) (procs s) else s | None => s end in
      Some (move i Held s')
  | Held | Refused | Gone => None
  end.

(** A step; the end of a session, that removes the file; a process that is killed. *)
Inductive event : Type := Step (i : nat) | Leave (i : nat) | Killed (i : nat).
Definition exec_event (e : event) (s : shared) : option shared :=
  match e with
  | Step i => step i s
  | Leave i => p ← procs s !! i; match p with Held => Some (move i Gone (unlink s)) | _ => None end
  | Killed i => p ← procs s !! i; match p with Gone => None | _ => Some (move i Gone s) end
  end.
Fixpoint exec (es : list event) (s : shared) : option shared :=
  match es with [] => Some s | e :: es => s ← exec_event e s; exec es s end.

Definition holds (p : pc) : bool := match p with Writing _ | Held => true | _ => false end.
Definition holders (s : shared) : list nat := filter (fun i => (holds <$> procs s !! i) = Some true) (seq 0 (length (procs s))).
Definition file_of (s : shared) : lock_file := snd <$> lock s.
End Processes.

(** *** The races *)

Definition pid_ex (i : nat) : Z := Z.of_nat i + 100.
Definition record_ex (i : nat) : json := payload (pid_ex i) "full" "t" None "/" [].
Definition run_ex (es : list event) (s : shared) : option (list nat) := holders <$> exec pid_ex record_ex (fun _ => false) (fun _ => false) es s.
Definition dead_lock : option (nat * option json) := Some (0%nat, Some (payload 7 "full" "t" None "/" [])).

(** The lock of a dead process, and two that start: both find it stale, and the second to remove it removes the fresh lock
    of the first. *)
Example stale_lock_two_winners :
  run_ex ([Step 0; Step 0; Step 1; Step 1; Step 0; Step 1] ++ [Step 0; Step 0; Step 0] ++ [Step 1; Step 1; Step 1])
         (Shared dead_lock 1 [Starting; Starting]) = Some [0%nat; 1%nat].
Proof. vm_compute. reflexivity. Qed.

(** A session that ends while another process has read its record: that process removes the lock of a third. *)
Example leaving_race_two_winners :
  run_ex ([Step 0; Step 0] ++ [Step 1; Step 1] ++ [Leave 0] ++ [Step 2; Step 2] ++ [Step 1; Step 1; Step 1; Step 1])
         (Shared None 0 [Starting; Starting; Starting]) = Some [1%nat; 2%nat].
Proof. vm_compute. reflexivity. Qed.

(** *** Starting at the same time is safe *)

Section Starters.
Context (pid_of : nat -> Z) (record_of : nat -> json) (others_alive others_look : Z -> bool).
Context (Hpos : forall i, 0 < pid_of i) (Hinj : forall i j, pid_of i = pid_of j -> i = j).
Context (Hrec : forall i, exists info, from_dict (record_of i) = Ret info /\ pid info = pid_of i).
#[local] Notation step := (step pid_of record_of others_alive others_look).

(** A record that no process takes for stale, among [n] processes of which none is gone. *)
Definition live (n : nat) (p : Z) : Prop := (exists i, (i < n)%nat /\ p = pid_of i) \/ 0 < p /\ others_alive p = true /\ others_look p = true.

Definition waits (n : nat) (i : nat) (p : pc) : Prop :=
  match p with
  | Clearing | Replacing | Gone => False
  | Judging info | Checking info => live n (pid info) /\ pid info <> pid_of i
  | _ => True
  end.

(** Who holds the file: one of the processes, or one outside. *)
Definition owned (s : shared) (owner : option nat) : Prop :=
  match lock s with
  | None => owner = None /\ forall i p, procs s !! i = Some p -> p = Starting
  | Some (n, c) =>
      (forall i p, procs s !! i = Some p -> holds p = true -> owner = Some i)
      /\ match owner with Some j => procs s !! j = Some (match c with None => Writing n | Some _ => Held end) | None => c <> None end
      /\ forall v, c = Some v -> exists info, from_dict v = Ret info /\ live (length (procs s)) (pid info)
           /\ forall i p, procs s !! i = Some p -> holds p = false -> pid info <> pid_of i
  end.

Record Inv (owner : option nat) (s : shared) : Prop := {
  inv_waits : forall i p, procs s !! i = Some p -> waits (length (procs s)) i p;
  inv_owned : owned s owner
}.

Lemma index_of_Some s p i : index_of pid_of s p = Some i -> (i < length (procs s))%nat /\ pid_of i = p.
Proof.
  unfold index_of. destruct (list_find _ _) as [[k x]|] eqn:E; [|done]. cbn. intros [= ->].
  apply list_find_Some in E as (H & <- & _). apply lookup_seq in H. split; [lia|done].
Qed.
Lemma index_of_pid s i : (i < length (procs s))%nat -> index_of pid_of s (pid_of i) = Some i.
Proof using Hinj.
  intros H. destruct (index_of pid_of s (pid_of i)) as [j|] eqn:E.
  - apply index_of_Some in E as [_ E]. by rewrite (Hinj _ _ E).
  - unfold index_of in E. destruct (list_find _ _) as [[k x]|] eqn:F; [done|]. apply list_find_None in F.
    rewrite Forall_forall in F. exfalso. apply (F i); [|done]. apply elem_of_seq. lia.
Qed.

Lemma live_not_stale owner s info : Inv owner s -> live (length (procs s)) (pid info) ->
  is_pid_alive (kill0_of pid_of others_alive s) (pid info) = true
  /\ _cmdline_looks_like_campaign (cmdline_of pid_of others_look s) (pid info) = true.
Proof using All.
  intros I L. unfold is_pid_alive, kill0_of, alive, _cmdline_looks_like_campaign, cmdline_of, looks.
  destruct L as [(j & Hj & ->)|(P & A & B)].
  - rewrite index_of_pid by done. apply lookup_lt_is_Some_2 in Hj as [p Hj]. rewrite Hj. pose proof (inv_waits _ _ I _ _ Hj) as W.
    destruct (Z.leb_spec (pid_of j) 0); [specialize (Hpos j); lia|]. by destruct p.
  - destruct (Z.leb_spec (pid info) 0); [lia|]. destruct (index_of pid_of s (pid info)) as [j|] eqn:E.
    + apply index_of_Some in E as [Hj _]. apply lookup_lt_is_Some_2 in Hj as [p Hj]. rewrite Hj. pose proof (inv_waits _ _ I _ _ Hj) as W. by destruct p.
    + rewrite A, B. done.
Qed.

Lemma lock_move owner s i p q : Inv owner s -> lock s <> None -> procs s !! i = Some p -> holds p = false -> holds q = false ->
  waits (length (procs s)) i q -> Inv owner (move i q s).
Proof using All.
  intros I L E Hp Hq W. pose proof (lookup_lt_Some _ _ _ E) as B. split.
  - intros j r. cbn. rewrite length_insert. destruct (decide (j = i)) as [->|N]; [rewrite list_lookup_insert_eq by done; by intros [= <-]|].
    rewrite list_lookup_insert_ne by done. apply (inv_waits _ _ I).
  - pose proof (inv_owned _ _ I) as O. unfold owned in *. cbn. destruct (lock s) as [[n c]|]; [|done]. rewrite length_insert.
    destruct O as (O1 & O2 & O3). split_and!.
    + intros j r. destruct (decide (j = i)) as [->|N]; [rewrite list_lookup_insert_eq by done; intros [= <-]; congruence|].
      rewrite list_lookup_insert_ne by done. apply O1.
    + destruct owner as [j|]; [|done]. rewrite list_lookup_insert_ne; [done|]. intros ->. rewrite E in O2. injection O2 as ->. by destruct c.
    + intros v Hv. destruct (O3 v Hv) as (info & F & Lv & Ot). exists info. split_and!; [done|done|]. intros j r.
      destruct (decide (j = i)) as [->|N]; [intros _ _; by apply (Ot i p)|]. rewrite list_lookup_insert_ne by done. apply Ot.
Qed.

Lemma inv_create s i : Inv None s -> lock s = None -> procs s !! i = Some Starting ->
  Inv (Some i) (Shared (Some (next_inode s, None)) (S (next_inode s)) (<[i := Writing (next_inode s)]> (procs s))).
Proof using All.
  intros I L E. pose proof (lookup_lt_Some _ _ _ E) as B. pose proof (inv_owned _ _ I) as O. unfold owned in O. rewrite L in O. destruct O as [_ O].
  split.
  - intros j r. cbn. rewrite length_insert. destruct (decide (j = i)) as [->|N]; [rewrite list_lookup_insert_eq by done; by intros [= <-]|].
    rewrite list_lookup_insert_ne by done. intros H. by rewrite (O _ _ H).
  - unfold owned. cbn. split_and!; [|by rewrite list_lookup_insert_eq|done]. intros j r.
    destruct (decide (j = i)) as [->|N]; [done|]. rewrite list_lookup_insert_ne by done. intros H. by rewrite (O _ _ H).
Qed.

Lemma lock_write s i n : Inv (Some i) s -> lock s = Some (n, None) -> procs s !! i = Some (Writing n) ->
  Inv (Some i) (Shared (Some (n, Some (record_of i))) (next_inode s) (<[i := Held]> (procs s))).
Proof using All.
  intros I L E. pose proof (lookup_lt_Some _ _ _ E) as B. pose proof (inv_owned _ _ I) as O. unfold owned in O. rewrite L in O. destruct O as (O1 & O2 & _).
  split.
  - intros j r. cbn. rewrite length_insert. destruct (decide (j = i)) as [->|N]; [rewrite list_lookup_insert_eq by done; by intros [= <-]|].
    rewrite list_lookup_insert_ne by done. apply (inv_waits _ _ I).
  - unfold owned. cbn. rewrite length_insert. split_and!.
    + intros j r. destruct (decide (j = i)) as [->|N]; [done|]. rewrite list_lookup_insert_ne by done. apply O1.
    + by rewrite list_lookup_insert_eq.
    + intros v [= <-]. destruct (Hrec i) as (info & F & P). exists info. split_and!; [done|left; by exists i|].
      intros j r. destruct (decide (j = i)) as [->|N]; [rewrite list_lookup_insert_eq by done; by intros [= <-] [=]|].
      intros _ _ Q. apply N, Hinj. congruence.
Qed.

Lemma lock_step_inv owner s i s' : Inv owner s -> step i s = Some s' -> exists owner', Inv owner' s' /\ lock s' <> None
  /\ ((lock s <> None /\ owner' = owner /\ (owner = None -> lock s' = lock s)) \/ (lock s = None /\ owner' <> None)).
Proof using All.
  intros I X. unfold RunLock.step in X. destruct (procs s !! i) as [p|] eqn:E; [|done]. cbn in X.
  pose proof (inv_waits _ _ I _ _ E) as W. pose proof (inv_owned _ _ I) as O. unfold owned in O.
  destruct (lock s) as [[n c]|] eqn:L.
  - assert (NL : lock s <> None) by congruence. destruct O as (O1 & O2 & O3).
    assert (mv : forall q, holds p = false -> holds q = false -> waits (length (procs s)) i q -> s' = move i q s ->
      exists owner', Inv owner' s' /\ lock s' <> None
        /\ ((Some (n, c) <> None /\ owner' = owner /\ (owner = None -> lock s' = Some (n, c))) \/ (Some (n, c) = None /\ owner' <> None))).
    { intros q Hp Hq Wq ->. exists owner. split_and!; [by eapply lock_move|cbn; congruence|left; by split_and!]. }
    destruct p; try done; unfold create in X; rewrite ?L in X.
    + injection X as <-. by apply (mv Reading).
    + destruct c as [v|]; [|injection X as <-; by apply (mv Retrying)]. destruct (O3 v eq_refl) as (info & F & Lv & Ot). rewrite F in X.
      injection X as <-. apply (mv (Judging info)); try done. split; [done|]. by apply (Ot i Reading).
    + destruct W as [Lv Ne]. destruct (live_not_stale _ _ _ I Lv) as [A B].
      unfold is_stale in X. rewrite A, B, andb_false_r in X. destruct (Z.eqb_spec (pid info) (pid_of i)); [done|].
      injection X as <-. by apply (mv (Checking info)).
    + destruct W as [Lv Ne]. destruct (live_not_stale _ _ _ I Lv) as [A B]. rewrite A in X. injection X as <-. by apply (mv Refused).
    + injection X as <-. by apply (mv Refused).
    + pose proof (O1 i _ E eq_refl) as ->. rewrite E in O2. destruct c as [v|]; [done|]. injection O2 as ->. rewrite Nat.eqb_refl in X.
      injection X as <-. exists (Some i). split_and!; [by apply (lock_write s i n)|done|left; by split_and!].
  - destruct O as [-> O]. pose proof (O _ _ E) as ->. unfold create in X. rewrite L in X. injection X as <-.
    exists (Some i). split_and!; [by apply inv_create|done|by right].
Qed.

Definition rank (p : pc) : nat :=
  match p with Starting => 4 | Reading => 3 | Judging _ | Retrying => 2 | Checking _ | Writing _ => 1 | _ => 0 end.
Definition todo (s : shared) : nat := sum_list_with rank (procs s).

Lemma rank_insert l i p q : l !! i = Some p -> (rank q < rank p)%nat -> (sum_list_with rank (<[i := q]> l) < sum_list_with rank l)%nat.
Proof.
  revert i. induction l as [|x l IH]; intros [|i] E R; cbn in *; [done|done| |].
  - injection E as ->. lia.
  - apply Nat.add_lt_mono_l. by apply IH.
Qed.

Lemma step_todo owner s i s' : Inv owner s -> step i s = Some s' -> (todo s' < todo s)%nat /\ length (procs s') = length (procs s).
Proof using All.
  intros I X. unfold RunLock.step in X. destruct (procs s !! i) as [p|] eqn:E; [|done]. cbn in X. pose proof (inv_waits _ _ I _ _ E) as W.
  assert (mv : forall q, procs s' = <[i := q]> (procs s) -> (rank q < rank p)%nat -> (todo s' < todo s)%nat /\ length (procs s') = length (procs s)).
  { intros q P R. unfold todo. rewrite P, length_insert. split; [by apply (rank_insert _ _ p)|done]. }
  destruct p as [| |info| |info| | |n| | |]; try done; unfold create in X.
  - destruct (lock s); injection X as <-; (eapply mv; [reflexivity|cbn; lia]).
  - repeat case_match; simplify_eq; (eapply mv; [reflexivity|cbn; lia]).
  - destruct W as [Lv Ne]. destruct (live_not_stale _ _ _ I Lv) as [A B]. unfold is_stale in X. rewrite A, B, andb_false_r in X.
    destruct (Z.eqb_spec (pid info) (pid_of i)); [done|]. injection X as <-. eapply mv; [reflexivity|cbn; lia].
  - destruct W as [Lv Ne]. destruct (live_not_stale _ _ _ I Lv) as [A B]. rewrite A in X. injection X as <-. eapply mv; [reflexivity|cbn; lia].
  - destruct (lock s); injection X as <-; (eapply mv; [reflexivity|cbn; lia]).
  - injection X as <-. eapply (mv Held); [|cbn; lia]. destruct (lock s) as [[m c]|]; [|done]. by destruct (m =? n)%nat.
Qed.

Lemma exec_inv lis : forall owner s s', Inv owner s -> exec pid_of record_of others_alive others_look (Step <$> lis) s = Some s' ->
  exists owner', Inv owner' s' /\ (length lis + todo s' <= todo s)%nat /\ length (procs s') = length (procs s)
  /\ (lock s <> None -> owner' = owner /\ (owner = None -> lock s' = lock s)) /\ (lock s = None -> s' = s \/ owner' <> None /\ lock s' <> None).
Proof using All.
  induction lis as [|i lis IH]; intros owner s s' I X; cbn in X.
  - simplify_eq. exists owner. split_and!; try done; by left.
  - destruct (step i s) as [s1|] eqn:X1; [|done]. cbn in X. destruct (lock_step_inv _ _ _ _ I X1) as (o1 & I1 & L1 & C1).
    destruct (step_todo _ _ _ _ I X1) as [T1 N1]. destruct (IH _ _ _ I1 X) as (o2 & I2 & T2 & N2 & K2 & _). destruct (K2 L1) as [-> K3].
    exists o1. split_and!; try done; [cbn; lia|congruence| |].
    + intros L. destruct C1 as [(_ & -> & K1)|[? _]]; [|done]. split; [done|]. intros Ho. rewrite (K3 Ho). by apply K1.
    + intros L. destruct C1 as [(? & _)|[_ No]]; [done|]. right. split; [done|]. intros H. pose proof (inv_owned _ _ I2) as O.
      unfold owned in O. rewrite H in O. by destruct O as [-> _].
Qed.

(** A lock that no process of ours holds or takes for stale. *)
Definition held_outside (lk : option (nat * option json)) : Prop :=
  exists v info, lk = Some (0%nat, Some v) /\ from_dict v = Ret info /\ 0 < pid info /\ others_alive (pid info) = true
    /\ others_look (pid info) = true /\ forall i, pid info <> pid_of i.

Lemma inv_begin n lk : lk = None \/ held_outside lk -> Inv None (Shared lk 1 (replicate n Starting)).
Proof using All.
  assert (R : forall i p, replicate n Starting !! i = Some p -> p = Starting) by (by intros i p [-> _]%lookup_replicate).
  intros H. split; cbn [procs].
  - intros i p ->%R. done.
  - unfold owned. cbn. destruct H as [->|(v & info & -> & F & P & A & B & Ne)]; [done|]. split_and!; [|done|].
    + intros i p ->%R. done.
    + intros v' [= <-]. exists info. split_and!; [done|by right|by intros].
Qed.

Lemma holders_owner owner s : Inv owner s -> lock s <> None -> holders s = match owner with Some j => [j] | None => [] end.
Proof using All.
  intros I L. pose proof (inv_owned _ _ I) as O. unfold owned in O. destruct (lock s) as [[n c]|]; [|done]. destruct O as (O1 & O2 & _).
  assert (M : forall i, i ∈ holders s <-> owner = Some i).
  { intros i. unfold holders. rewrite list_elem_of_filter. split.
    - intros [H _]. destruct (procs s !! i) as [p|] eqn:E; [|done]. cbn in H. injection H as H. by apply (O1 i p).
    - intros ->. rewrite O2. split; [by destruct c|]. apply elem_of_seq. apply lookup_lt_Some in O2. lia. }
  assert (ND : NoDup (holders s)) by (apply NoDup_filter, NoDup_seq).
  destruct owner as [j|].
  - apply Permutation_singleton_r, NoDup_Permutation; [done|apply NoDup_singleton|]. intros i. rewrite M, list_elem_of_singleton. split; congruence.
  - destruct (holders s) as [|i l]; [done|]. by assert (None = Some i) by (apply M; by left).
Qed.

Lemma stuck_is_done owner s i p : Inv owner s -> lock s <> None -> procs s !! i = Some p -> step i s = None -> p = Held \/ p = Refused.
Proof using All.
  intros I L E X. unfold RunLock.step in X. rewrite E in X. cbn in X. pose proof (inv_waits _ _ I _ _ E) as W.
  destruct p; try done; try (by left); try (by right). pose proof (inv_owned _ _ I) as O. unfold owned in O.
  destruct (lock s) as [[n [v|]]|]; [|done|done]. destruct O as (_ & _ & O3). destruct (O3 v eq_refl) as (info & F & _). by rewrite F in X.
Qed.

End Starters.

Lemma record_ex_reads i : exists info, from_dict (record_ex i) = Ret info /\ pid info = pid_ex i.
Proof. eexists. split; [by apply payload_read|done]. Qed.

Definition pair_ex : option shared :=
  exec pid_ex record_ex (fun _ => false) (fun _ => false) (Step <$> [0; 1; 1; 0; 1]%nat) (Shared None 1 [Starting; Starting]).


(** *** A process alone *)

Section Solo.
Context (pid_of : nat -> Z) (record_of : nat -> json) (others_alive others_look : Z -> bool) (i : nat).
#[local] Notation step := (step pid_of record_of others_alive others_look).

(** The process [i] goes on alone, from one state to another. *)
Inductive solo : shared -> shared -> Prop :=
  | solo_stop s : solo s s
  | solo_step s s1 s2 : step i s = Some s1 -> solo s1 s2 -> solo s s2.

Definition at_pc (p : pc) (s : shared) : Prop := procs s !! i = Some p.

Lemma at_move p q s : at_pc p s -> at_pc q (move i q s).
Proof. intros H. unfold at_pc. cbn. apply list_lookup_insert_eq. by eapply lookup_lt_Some. Qed.

(** What a process sees of the others does not depend on where it is itself. *)
Definition same_view (s s' : shared) : Prop :=
  (forall p, kill0_of pid_of others_alive s' p = kill0_of pid_of others_alive s p)
  /\ (forall p, cmdline_of pid_of others_look s' p = cmdline_of pid_of others_look s p).

Lemma view_procs s s' p q : at_pc p s -> p <> Gone -> q <> Gone -> procs s' = <[i := q]> (procs s) -> same_view s s'.
Proof.
  intros E Hp Hq P. unfold at_pc in E. assert (X : forall x, index_of pid_of s' x = index_of pid_of s x) by (intros x; unfold index_of; by rewrite P, length_insert).
  split; intros x; unfold kill0_of, cmdline_of, alive, looks; rewrite X; [|done].
  destruct (index_of pid_of s x) as [j|]; [|done]. rewrite P. destruct (decide (j = i)) as [->|N].
  - rewrite list_lookup_insert_eq by (by eapply lookup_lt_Some). rewrite E. by destruct p, q.
  - by rewrite list_lookup_insert_ne.
Qed.

Lemma view_trans s s1 s2 : same_view s s1 -> same_view s1 s2 -> same_view s s2.
Proof. intros [A B] [C D]. split; intros x; [by rewrite C, A|by rewrite D, B]. Qed.

Lemma is_stale_view s s' info : same_view s s' ->
  is_stale (kill0_of pid_of others_alive s') (cmdline_of pid_of others_look s') (pid_of i) info
  = is_stale (kill0_of pid_of others_alive s) (cmdline_of pid_of others_look s) (pid_of i) info
  /\ is_pid_alive (kill0_of pid_of others_alive s') (pid info) = is_pid_alive (kill0_of pid_of others_alive s) (pid info).
Proof. intros [A B]. unfold is_stale, is_pid_alive, _cmdline_looks_like_campaign. rewrite A, B. done. Qed.

(** Creating the file and writing the record. *)
Lemma solo_created s p o : at_pc p s -> step i s = Some (create i o s) -> lock s = None ->
  exists s', solo s s' /\ file_of s' = Some (Some (record_of i)) /\ at_pc Held s'.
Proof.
  intros E X L.
  exists (Shared (Some (next_inode s, Some (record_of i))) (S (next_inode s)) (<[i := Held]> (<[i := Writing (next_inode s)]> (procs s)))).
  split_and!; [|done|unfold at_pc; cbn; apply list_lookup_insert_eq; rewrite length_insert; by eapply lookup_lt_Some].
  eapply solo_step; [rewrite X; unfold create; rewrite L; reflexivity|].
  eapply solo_step; [|apply solo_stop]. unfold RunLock.step. cbn. rewrite list_lookup_insert_eq by (by eapply lookup_lt_Some).
  cbn. by rewrite Nat.eqb_refl.
Qed.

(** The last part: a second attempt. *)
Lemma solo_retry s r f' : at_pc Retrying s -> write_or_exit (record_of i) (file_of s) = (r, f') -> exists s',
  solo s s' /\ file_of s' = f' /\ at_pc (match r with Registered => Held | SystemExit _ => Refused end) s'.
Proof.
  intros E W. assert (X : step i s = Some (create i Refused s)) by (unfold RunLock.step; by rewrite E).
  unfold write_or_exit, file_of, _write_run_lock_exclusive in W. destruct (lock s) as [[n c]|] eqn:L; cbn in W; injection W as <- <-.
  - exists (move i Refused s). split_and!; [|unfold file_of, move; cbn; by rewrite L|by eapply at_move].
    eapply solo_step; [|apply solo_stop]. rewrite X. unfold create. by rewrite L.
  - by eapply solo_created.
Qed.

(** A step that only moves the process, or removes the file too. *)
Definition goes (q : pc) (s s' : shared) : Prop := exists p, at_pc p s /\ p <> Gone /\ step i s = Some s' /\ procs s' = <[i := q]> (procs s).

Lemma goes_pc q s s' : goes q s s' -> at_pc q s'.
Proof. intros (p & E & _ & _ & P). unfold at_pc in *. rewrite P. apply list_lookup_insert_eq. by eapply lookup_lt_Some. Qed.
Lemma goes_view q s s' : goes q s s' -> q <> Gone -> same_view s s'.
Proof. intros (p & E & N & _ & P) Q. by eapply view_procs. Qed.
Lemma goes_solo q s s1 P : goes q s s1 -> (exists s', solo s1 s' /\ P s') -> exists s', solo s s' /\ P s'.
Proof. intros (p & _ & _ & X & _) (s' & S & H). exists s'. split; [by eapply solo_step|done]. Qed.

Lemma go_move p q s : at_pc p s -> p <> Gone -> step i s = Some (move i q s) -> goes q s (move i q s).
Proof. intros. exists p. by split_and!. Qed.

(** A stale or replaced file is removed before the second attempt. *)
Lemma solo_unlink s p r f' : at_pc p s -> p = Clearing \/ p = Replacing -> write_or_exit (record_of i) None = (r, f') -> exists s',
  solo s s' /\ file_of s' = f' /\ at_pc (match r with Registered => Held | SystemExit _ => Refused end) s'.
Proof.
  intros E Hp W. apply (goes_solo Retrying s (move i Retrying (unlink s))).
  - exists p. unfold RunLock.step. rewrite E. by destruct Hp as [->| ->].
  - apply solo_retry; [|done]. by apply (at_move p).
Qed.

(** From the record that was read: what the two looks at the process table decide. *)
Lemma solo_judged s info r f' : at_pc (Judging info) s ->
  (if is_stale (kill0_of pid_of others_alive s) (cmdline_of pid_of others_look s) (pid_of i) info then Ret (write_or_exit (record_of i) None)
   else if pid info =? pid_of i then Ret (write_or_exit (record_of i) None)
   else if is_pid_alive (kill0_of pid_of others_alive s) (pid info) then Ret (SystemExit (already_registered info), file_of s)
   else Ret (write_or_exit (record_of i) None)) = Ret (r, f') ->
  exists s', solo s s' /\ file_of s' = f' /\ at_pc (match r with Registered => Held | SystemExit _ => Refused end) s'.
Proof.
  intros E R. destruct (is_stale _ _ _ _) eqn:St.
  { assert (G : goes Clearing s (move i Clearing s)) by (eapply go_move; [done|done|]; unfold RunLock.step; rewrite E; cbn; by rewrite St).
    apply (goes_solo _ _ _ _ G). apply (solo_unlink _ Clearing); [by eapply goes_pc|by left|congruence]. }
  destruct (pid info =? pid_of i) eqn:M.
  { assert (G : goes Replacing s (move i Replacing s)) by (eapply go_move; [done|done|]; unfold RunLock.step; rewrite E; cbn; by rewrite St, M).
    apply (goes_solo _ _ _ _ G). apply (solo_unlink _ Replacing); [by eapply goes_pc|by right|congruence]. }
  assert (G : goes (Checking info) s (move i (Checking info) s)) by (eapply go_move; [done|done|]; unfold RunLock.step; rewrite E; cbn; by rewrite St, M).
  apply (goes_solo _ _ _ _ G). set (s1 := move i (Checking info) s) in *. pose proof (goes_pc _ _ _ G) as E1.
  destruct (is_stale_view s s1 info) as [_ V]; [by eapply goes_view|].
  destruct (is_pid_alive (kill0_of pid_of others_alive s) (pid info)) eqn:A.
  - injection R as <- <-. exists (move i Refused s1). split_and!; [|done|by eapply at_move].
    eapply solo_step; [|apply solo_stop]. unfold RunLock.step. rewrite E1. cbn. by rewrite V.
  - assert (G1 : goes Replacing s1 (move i Replacing s1)) by (eapply go_move; [done|done|]; unfold RunLock.step; rewrite E1; cbn; by rewrite V).
    apply (goes_solo _ _ _ _ G1). apply (solo_unlink _ Replacing); [by eapply goes_pc|by right|congruence].
Qed.

(** C21. (refinement) The steps of a process, when it goes on alone, are the function: from a state in which it starts, the
    steps lead to a state in which it holds the lock or has exited, as [register_active_run] returns or exits on the
    file and the process table of that state, and with the file that [register_active_run] leaves. *)
Theorem register_is_its_steps s r f' : at_pc Starting s ->
  register_active_run (kill0_of pid_of others_alive s) (cmdline_of pid_of others_look s) true (pid_of i) (record_of i) (file_of s) = Ret (r, f') ->
  exists s', solo s s' /\ file_of s' = f' /\ at_pc (match r with Registered => Held | SystemExit _ => Refused end) s'.
Proof.
  intros E R. unfold register_active_run in R. destruct (lock s) as [[n c]|] eqn:L.
  2:{ unfold file_of in R. rewrite L in R. cbn in R. injection R as <- <-. apply (solo_created s Starting Reading); [done| |done].
      unfold RunLock.step. by rewrite E. }
  assert (FL : file_of s = Some c) by (unfold file_of; by rewrite L). rewrite FL in R. cbn [_write_run_lock_exclusive] in R.
  assert (G1 : goes Reading s (move i Reading s)).
  { eapply go_move; [done|done|]. unfold RunLock.step. rewrite E. cbn. unfold create. by rewrite L. }
  apply (goes_solo _ _ _ _ G1). set (s1 := move i Reading s) in *. pose proof (goes_pc _ _ _ G1) as E1.
  assert (F1 : file_of s1 = Some c) by done.
  assert (again : read_active_run (kill0_of pid_of others_alive s) (cmdline_of pid_of others_look s) true (pid_of i) (Some c) = Ret (None, Some c) ->
    step i s1 = Some (move i Retrying s1) -> exists s', solo s1 s' /\ file_of s' = f' /\ at_pc (match r with Registered => Held | SystemExit _ => Refused end) s').
  { intros Hr X. rewrite Hr in R. cbn [mbind outcome_bind] in R. apply (goes_solo Retrying s1 (move i Retrying s1)); [by eapply go_move|].
    apply solo_retry; [by apply (at_move Reading)|]. change (file_of (move i Retrying s1)) with (file_of s1). rewrite F1. congruence. }
  destruct c as [v|]; [|apply again; [done|]; unfold RunLock.step; rewrite E1; cbn; by rewrite L].
  destruct (from_dict v) as [info| |] eqn:D; [|apply again; [cbn; by rewrite D|unfold RunLock.step; rewrite E1; cbn; by rewrite L, D]|unfold read_active_run in R; by rewrite D in R].
  assert (G2 : goes (Judging info) s1 (move i (Judging info) s1)).
  { eapply go_move; [done|done|]. unfold RunLock.step. rewrite E1. cbn. by rewrite L, D. }
  apply (goes_solo _ _ _ _ G2). set (s2 := move i (Judging info) s1) in *. pose proof (goes_pc _ _ _ G2) as E2.
  destruct (is_stale_view s s2 info) as [V1 V2]; [eapply view_trans; [by eapply goes_view|by eapply goes_view]|].
  apply (solo_judged s2 info r f' E2). rewrite V1, V2. change (file_of s2) with (file_of s). rewrite FL.
  unfold read_active_run in R. rewrite D in R. by destruct (is_stale _ _ _ _).
Qed.
End Solo.

Example register_is_its_steps_witness :
  let s := Shared dead_lock 1 [Starting; Starting] in
  exists s', solo pid_ex record_ex (fun _ => false) (fun _ => false) 1 s s' /\ file_of s' = Some (Some (record_ex 1)) /\ procs s' = [Starting; Held].
Proof.
  cbv zeta. set (s := Shared dead_lock 1 [Starting; Starting]).
  destruct (register_is_its_steps pid_ex record_ex (fun _ => false) (fun _ => false) 1 s Registered (Some (Some (record_ex 1)))) as (s' & S & F & P);
    [reflexivity|vm_compute; reflexivity|].
  exists s'. split; [exact S|]. split; [exact F|]. clear F.
  assert (K : forall a b, solo pid_ex record_ex (fun _ => false) (fun _ => false) 1 a b ->
    length (procs b) = length (procs a) /\ procs b !! 0%nat = procs a !! 0%nat).
  { induction 1 as [|a b c X _ [IH1 IH2]]; [done|]. rewrite IH1, IH2. unfold step in X. destruct (procs a !! 1%nat) as [p|]; [|done]. cbn in X.
    destruct p; unfold create in X; repeat case_match; simplify_eq; cbn; rewrite ?length_insert; (split; [done|by rewrite ?list_lookup_insert_ne]). }
  destruct (K _ _ S) as [L H0]. unfold at_pc in P. destruct (procs s') as [|p0 [|p1 [|]]]; cbn in *; congruence.
Defined.
