(* ===== verification/Exchange.v ===== *)
(** * Exchanging strategies: [provider_import.py], [shortlist_import.py]

    Strategies come in as a provider summary or as a shortlist, both JSON, and go out as preset files, as lines of a
    user matrix, and as passed rows of the run store. Values are decoded JSON; files are texts; the rows for the
    store are listed. The command lines and the report's output are left out. *)

From stdpp Require Import base numbers list strings.
From Stdlib Require Import ZArith Lia Ascii.
From S2P Require Import Prelude PyFloat PyStr PyDict PyJson GenHelpers StaticValidator Custom Domains.

#[local] Open Scope string_scope.
#[local] Set Default Proof Using "Type".

Notation dict := (list (string * json)).

(** [str(v)]; the text of floats and containers is not modelled. *)
Definition py_str (v : json) : outcome string :=
  match v with
  | JStr s => Ret s
  | JNull => Ret "None"
  | JBool b => Ret (if b then "True" else "False")
  | JInt z => Ret (str_of_Z z)
  | _ => Beyond
  end.
(** [d.get(k, default)] *)
Definition get_or (k : string) (other : json) (d : dict) : json := default other (dget k d).

(** ** The provider summary *)

Definition load_provider_summary (data : json) : outcome dict := match data with JDict d => Ret d | _ => Raise end.

Definition LUA_DESYNC : string := "--lua-desync=".
Definition _normalize_strategy (line : string) : string :=
  let line := strip line in
  if negb (nonempty line) || startswith "#" line then ""
  else match after_first LUA_DESYNC line with
       | Some rest => strip rest
       | None => if startswith "--" line then "" else line
       end.

(** The lines of one protocol, each once. *)
Fixpoint custom_bucket (lines : list json) (bucket : list string) : outcome (list string) :=
  match lines with
  | [] => Ret bucket
  | raw :: lines =>
      t ← py_str raw;
      let s := _normalize_strategy t in
      custom_bucket lines (if nonempty s && negb (bool_decide (s ∈ bucket)) then bucket ++ [s] else bucket)%list
  end.

Fixpoint custom_strategies (custom : dict) (out : list (string * list string)) : outcome (list (string * list string)) :=
  match custom with
  | [] => Ret out
  | (proto, JList lines) :: custom =>
      bucket ← custom_bucket lines [];
      custom_strategies custom (match bucket with [] => out | _ => dset proto bucket out end)
  | _ :: custom => custom_strategies custom out
  end.

Definition add_strategy (proto s : string) (out : list (string * list string)) : list (string * list string) :=
  let bucket := dget_default proto [] out in
  if bool_decide (s ∈ bucket) then dset proto bucket out else dset proto (bucket ++ [s])%list out.
Fixpoint profile_strategies (profiles : dict) (out : list (string * list string)) : outcome (list (string * list string)) :=
  match profiles with
  | [] => Ret out
  | (proto, strat) :: profiles =>
      t ← py_str strat;
      let s := _normalize_strategy t in
      profile_strategies profiles (if nonempty s then add_strategy proto s out else out)
  end.
Fixpoint shortlist_strategies (shortlist : dict) (out : list (string * list string)) : outcome (list (string * list string)) :=
  match shortlist with
  | [] => Ret out
  | (_, JDict profiles) :: shortlist => out ← profile_strategies profiles out; shortlist_strategies shortlist out
  | _ :: shortlist => shortlist_strategies shortlist out
  end.

(** [summary.get(k) or {}], when it is a dict. *)
Definition dict_at (k : string) (d : dict) : dict := match jget k d with JDict d => d | _ => [] end.
Definition extract_strategies (summary : dict) : outcome (list (string * list string)) :=
  out ← custom_strategies (dict_at "custom_strategies" summary) [];
  shortlist_strategies (dict_at "shortlist" summary) out.

(** ** Preset files *)

Definition ext_map : list (string * string) := [("quic", "quic"); ("udp_voice", "udp"); ("http", "http")].
Definition preset_name (prefix proto : string) : string := prefix +:+ "-" +:+ proto +:+ "." +:+ dget_default proto "tls" ext_map.
Definition preset_text (provider_id generated_at : string) (lines : list string) : string :=
  join newline (["# Imported from provider_summary (" +:+ provider_id +:+ ")"; "# generated_at: " +:+ generated_at; ""] ++ lines)%list
  +:+ newline.

(** The files of the directory, and the paths that are returned. *)
Definition write_shortlist_presets (summary : dict) (out_dir prefix : string) : outcome (list (string * string) * list (string * string)) :=
  strategies ← extract_strategies summary;
  id ← py_str (get_or "provider_id" (JStr "unknown") summary);
  at_ ← py_str (get_or "generated_at" (JStr "") summary);
  Ret (map (fun pl => (preset_name prefix pl.1, preset_text id at_ pl.2)) strategies,
       map (fun pl => (pl.1, join_path out_dir (preset_name prefix pl.1))) strategies).

(** ** The user matrix *)

Definition MERGED : list string := ["tls12"; "tls13"; "http"; "quic"; "udp_voice"].
Fixpoint merge_lines (new : list string) (lines existing : list string) : list string * list string :=
  match new with
  | [] => (lines, existing)
  | s :: new =>
      if bool_decide (s ∈ existing) then merge_lines new lines existing
      else merge_lines new (lines ++ [s])%list (s :: existing)
  end.
Definition existing_of (lines : list string) : list string :=
  strip <$> filter (fun ln => nonempty (strip ln) && negb (startswith "#" ln) = true) lines.
(** [old]: the text of the matrix, when it is appended to and there. *)
Definition merge_into_user_matrix (summary : json) (old : option string) : outcome string :=
  summary ← load_provider_summary summary;
  strategies ← extract_strategies summary;
  let lines := match old with Some text => splitlines text | None => [] end in
  let new := proto ← MERGED; dget_default proto [] strategies in
  Ret (join newline (merge_lines new lines (existing_of lines)).1 +:+ newline).

(** ** Shortlists *)

Definition tcp_row (proto : string) (domains : list string) (i : nat) (strat : string) : json :=
  JDict [("label", JStr ("provider_" +:+ proto +:+ "_" +:+ str_of_Z (Z.of_nat i))); ("strategy", JStr strat);
         ("domains_pass", j_strs domains); ("latency_ms", JFloat (f_of_Z 0))].
Definition udp_row (i : nat) (strat : string) : json :=
  JDict [("label", JStr ("provider_udp_" +:+ str_of_Z (Z.of_nat i))); ("strategy", JStr strat); ("target", JStr "voice");
         ("latency_ms", JFloat (f_of_Z 0))].

Definition provider_domains (summary : dict) : list string :=
  let domains := filter (fun d => nonempty d && negb (String.eqb d "*") = true) (keys (dict_at "shortlist" summary)) in
  match domains with [] => ["discord.com"] | _ => domains end.
Definition provider_summary_to_shortlist (summary : dict) : outcome dict :=
  strategies ← extract_strategies summary;
  id ← py_str (get_or "provider_id" (JStr "import") summary);
  let domains := provider_domains summary in
  let of_proto proto := dget_default proto [] strategies in
  Ret [("schema", JStr "blockchecks.shortlist/v1"); ("source_db", JStr ("provider:" +:+ id));
       ("generated_at", get_or "generated_at" (JStr "") summary); ("domains", j_strs domains);
       ("tcp", JList (proto ← ["tls12"; "tls13"; "tcp"]; imap (tcp_row proto domains) (of_proto proto)));
       ("udp", JList (imap udp_row (of_proto "udp_voice" ++ of_proto "udp")));
       ("quic", JList (imap (tcp_row "quic" domains) (of_proto "quic")));
       ("common_tcp", JList [])].

Definition SCHEMA : string := "blockchecks.shortlist/v1".
(** A schema that is no string is refused, unless it is falsy. *)
Definition load_shortlist (data : json) : outcome dict :=
  match data with
  | JDict d =>
      let schema := get_or "schema" (JStr "") d in
      if truthy schema && negb (match schema with JStr s => String.eqb s SCHEMA | _ => false end) then Raise else Ret d
  | _ => Raise
  end.

(** [str(row.get("strategy", "")).strip()] *)
Definition row_strategy (row : dict) : outcome string := t ← py_str (get_or "strategy" (JStr "") row); Ret (strip t).
Fixpoint bucket_lines (rows : list json) : outcome (list string) :=
  match rows with
  | [] => Ret []
  | row :: rows =>
      here ← match row with
             | JDict row => s ← row_strategy row; Ret (if nonempty s then [s] else [])
             | JStr s => Ret (if nonempty (strip s) then [strip s] else [])
             | _ => Ret []
             end;
      rest ← bucket_lines rows; Ret (here ++ rest)%list
  end.
(** [shortlist.get(k) or []], when it is a list. *)
Definition list_at (k : string) (d : dict) : list json := match jget k d with JList l => l | _ => [] end.

Definition common_row (shortlist : dict) (row : json) (m : dict) : outcome dict :=
  match row with
  | JDict row =>
      strat ← row_strategy row;
      if negb (nonempty strat) then Ret m
      else
        let doms := if truthy (jget "domains_pass" row) then jget "domains_pass" row
                    else if truthy (jget "domains" shortlist) then jget "domains" shortlist else j_strs ["*"] in
        doms ← strs_or_empty doms;
        Ret (foldl (fun m dom => dset dom (JDict (dset "tls12" (JStr strat) (dict_at dom m))) m) m doms)
  | _ => Ret m
  end.
Fixpoint common_rows (shortlist : dict) (rows : list json) (m : dict) : outcome dict :=
  match rows with [] => Ret m | row :: rows => m ← common_row shortlist row m; common_rows shortlist rows m end.

Definition shortlist_to_provider_summary (shortlist : dict) : outcome dict :=
  tcp ← bucket_lines (list_at "tcp" shortlist);
  udp ← bucket_lines (list_at "udp" shortlist);
  quic ← bucket_lines (list_at "quic" shortlist);
  common ← match jget "common_tcp" shortlist with
           | JList rows => common_rows shortlist rows []
           | v => if truthy v then Beyond else Ret []
           end;
  db ← py_str (get_or "source_db" (JStr "import") shortlist);
  let bucket k (l : list string) := match l with [] => [] | _ => [(k, j_strs l)] end in
  Ret [("provider_id", JStr ("shortlist:" +:+ db)); ("generated_at", get_or "generated_at" (JStr "") shortlist);
       ("custom_strategies", JDict (bucket "tls12" tcp ++ bucket "udp" udp ++ bucket "quic" quic)); ("shortlist", JDict common)].

(** ** Seeding the run store *)

(** The calls of [log_tcp] and [log_udp], all of them with PASS. *)
Inductive seed : Type :=
  | SeedTcp (label domain : string) (latency : float) (config proto : string)
  | SeedUdp (label target : string) (latency : float) (config : string).

(** [row.get(k) or other], as a text, and as a number: the first of the keys that is truthy. *)
Definition text_or (k other : string) (row : dict) : outcome string :=
  if truthy (jget k row) then py_str (jget k row) else Ret other.
Definition number_of (ks : list string) (row : dict) : outcome float :=
  float_or_0 (default JNull (list_find (fun k => truthy (jget k row) = true) ks ≫= fun x => Some (jget x.2 row))).
Definition pass_domains (row : dict) (primary : string) : outcome (list string) :=
  if truthy (jget "domains_pass" row) then strs_or_empty (jget "domains_pass" row) else Ret [primary].

(** What one row adds, after [count] rows were written. *)
Definition seed_tcp_row (ks : list string) (import proto primary : string) (count : nat) (row : json) : outcome (list seed) :=
  match row with
  | JDict row =>
      label ← text_or "label" (import +:+ str_of_Z (Z.of_nat count)) row;
      strat ← row_strategy row;
      if negb (nonempty strat) then Ret []
      else doms ← pass_domains row primary;
           match doms with [] => Ret [] | _ => ms ← number_of ks row; Ret (map (fun dom => SeedTcp label dom ms strat proto) doms) end
  | _ => Ret []
  end.
Definition seed_udp_row (count : nat) (row : json) : outcome (list seed) :=
  match row with
  | JDict row =>
      label ← text_or "label" ("import_udp_" +:+ str_of_Z (Z.of_nat count)) row;
      strat ← row_strategy row;
      if negb (nonempty strat) then Ret []
      else target ← text_or "target" "voice" row;
           ms ← number_of ["latency_ms"] row; Ret [SeedUdp label target ms strat]
  | _ => Ret []
  end.

(** A loop over rows: what was written before an error stays, and is flushed. *)
Fixpoint seed_loop (f : nat -> json -> outcome (list seed)) (rows : list json) (done : list seed) : outcome unit * list seed :=
  match rows with
  | [] => (Ret tt, done)
  | row :: rows =>
      match f (length done) row with
      | Ret new => seed_loop f rows (done ++ new)%list
      | Raise => (Raise, done)
      | Beyond => (Beyond, done)
      end
  end.
Definition then_seed (r : outcome unit * list seed) (k : list seed -> outcome unit * list seed) : outcome unit * list seed :=
  match r with (Ret _, done) => k done | _ => r end.

(** [shortlist.get("domains") or ["discord.com"]] and its first. *)
Definition primary_domain (shortlist : dict) : outcome string :=
  match jget "domains" shortlist with
  | JDict (_ :: _) => Raise
  | v => doms ← strs_or_empty v; Ret (default "discord.com" (head doms))
  end.
(** [shortlist.get(k) or []], when it is iterated: a text gives its characters and a dict its keys, no row of them. *)
Definition rows_at (k : string) (shortlist : dict) : outcome (list json) :=
  match jget k shortlist with
  | JList l => Ret l
  | JStr _ | JDict _ => Ret []
  | v => if truthy v then Raise else Ret []
  end.

Definition seed_rows (k : string) (f : nat -> json -> outcome (list seed)) (shortlist : dict) (done : list seed) : outcome unit * list seed :=
  match rows_at k shortlist with Ret rows => seed_loop f rows done | Raise => (Raise, done) | Beyond => (Beyond, done) end.

Definition seed_state_db (shortlist : dict) (mark_pass : bool) : outcome Z * list seed :=
  if negb mark_pass then (Ret 0%Z, [])
  else
    match primary_domain shortlist with
    | Ret primary =>
        let r := then_seed (seed_rows "tcp" (seed_tcp_row ["avg_latency_ms"; "latency_ms"] "import_tcp_" "tcp" primary) shortlist [])
                   (fun done => then_seed (seed_rows "udp" seed_udp_row shortlist done)
                   (seed_rows "quic" (seed_tcp_row ["latency_ms"] "import_quic_" "quic" primary) shortlist)) in
        (match r.1 with Ret _ => Ret (Z.of_nat (length r.2)) | Raise => Raise | Beyond => Beyond end, r.2)
    | Raise => (Raise, [])
    | Beyond => (Beyond, [])
    end.

(** [import_shortlist]: the presets, and the rows when a store is given. *)
Definition import_shortlist (data : json) (out_dir prefix : string) (seed_db : bool)
    : outcome (list (string * string) * list (string * string) * option (outcome Z * list seed)) :=
  shortlist ← load_shortlist data;
  summary ← shortlist_to_provider_summary shortlist;
  written ← write_shortlist_presets summary out_dir prefix;
  Ret (written, if seed_db then Some (seed_state_db shortlist true) else None).

(** ** Strategies that survive the way through a file *)

(** One core on one line, with nothing that a reader would cut or skip. *)
Definition plain (s : string) : Prop :=
  strip s = s /\ nonempty s = true /\ startswith "#" s = false /\ startswith "--" s = false /\ after_first LUA_DESYNC s = None
  /\ sforall (fun c => negb (line_end c)) s = true /\ contains "\n" s = false.
Definition one_line (s : string) : Prop := sforall (fun c => negb (line_end c)) s = true.

Lemma normalize_plain s : plain s -> _normalize_strategy s = s.
Proof. intros (S & N & H & D & A & _). unfold _normalize_strategy. rewrite S, N, H. cbn [negb orb]. by rewrite A, D. Qed.

Lemma dedup_seen {A} `{EqDecision A} (l a b : list A) : (forall x, x ∈ a <-> x ∈ b) -> dedup a l = dedup b l.
Proof.
  revert a b. induction l as [|x l IH]; intros a b H; [done|]. cbn.
  destruct (decide (x ∈ a)) as [E|E].
  - rewrite decide_True by (by apply H). by apply IH.
  - rewrite decide_False by (by rewrite <- H). f_equal. apply IH. intros y. rewrite !elem_of_cons, H. done.
Qed.

Lemma custom_bucket_plain l : Forall plain l -> forall b, custom_bucket (JStr <$> l) b = Ret (b ++ dedup b l)%list.
Proof.
  induction 1 as [|s l P _ IH]; intros b; cbn; [by rewrite app_nil_r|].
  rewrite (normalize_plain _ P). destruct P as (_ & N & _). rewrite N. cbn [andb].
  destruct (decide (s ∈ b)) as [E|E].
  - rewrite bool_decide_true by done. cbn. apply IH.
  - rewrite bool_decide_false by done. cbn [negb]. rewrite IH, <- (assoc_L (++)%list). cbn. f_equal. f_equal. f_equal.
    apply dedup_seen. intros x. rewrite elem_of_app, list_elem_of_singleton, elem_of_cons. tauto.
Qed.

Lemma merge_lines_dedup new : forall lines existing,
  (merge_lines new lines existing).1 = (lines ++ dedup existing new)%list.
Proof.
  induction new as [|s new IH]; intros lines existing; cbn; [by rewrite app_nil_r|].
  destruct (decide (s ∈ existing)) as [E|E].
  - rewrite bool_decide_true by done. apply IH.
  - rewrite bool_decide_false by done. rewrite IH. by rewrite <- (assoc_L (++)%list).
Qed.

Lemma existing_plain s lines : plain s -> s ∈ lines -> s ∈ existing_of lines.
Proof.
  intros (S & N & H & _) E. unfold existing_of. apply list_elem_of_fmap. exists s. split; [done|]. apply list_elem_of_filter.
  rewrite S, N, H. done.
Qed.

Lemma dedup_all_seen {A} `{EqDecision A} (l seen : list A) : (forall x, x ∈ l -> x ∈ seen) -> dedup seen l = [].
Proof. intros H. apply elem_of_nil_inv. intros x [E N]%elem_of_dedup. by apply N, H. Qed.

Lemma splitlines_text l : Forall one_line l -> l <> [] -> splitlines (join newline l +:+ newline) = l.
Proof. apply splitlines_join. Qed.

(** The strategies that the matrix is given. *)
Definition merged_strategies (strategies : list (string * list string)) : list string := proto ← MERGED; dget_default proto [] strategies.

(** (equivalence) Merging into a user matrix: the old lines stay as they are, and each strategy of the five protocols
    that no old line holds is added once, at the end, in the order of the protocols; merging the same summary again
    gives the same text. *)
Theorem merge_into_user_matrix_spec data summary strategies old : load_provider_summary data = Ret summary ->
  extract_strategies summary = Ret strategies -> Forall plain (merged_strategies strategies) ->
  let lines := match old with Some text => splitlines text | None => [] end in
  let all := (lines ++ dedup (existing_of lines) (merged_strategies strategies))%list in
  exists text, merge_into_user_matrix data old = Ret text
  /\ text = join newline all +:+ newline
  /\ (all <> [] -> splitlines text = all)
  /\ (forall s, s ∈ merged_strategies strategies -> s ∈ existing_of all)
  /\ merge_into_user_matrix data (Some text) = Ret text.
Proof.
  intros HL HE HP. cbv zeta. set (lines := match old with Some text => splitlines text | None => [] end).
  set (new := merged_strategies strategies) in *. set (all := (lines ++ dedup (existing_of lines) new)%list).
  assert (M : forall o, merge_into_user_matrix data o
    = Ret (join newline ((match o with Some text => splitlines text | None => [] end) ++ dedup (existing_of (match o with Some text => splitlines text | None => [] end)) new)%list +:+ newline)).
  { intros o. unfold merge_into_user_matrix. rewrite HL. cbn [mbind outcome_bind]. rewrite HE. cbn [mbind outcome_bind].
    rewrite merge_lines_dedup. done. }
  assert (O : Forall one_line all).
  { apply Forall_app. split; [unfold lines; destruct old; [apply splitlines_free; done|constructor]|].
    apply Forall_forall. intros s [Hs _]%elem_of_dedup. rewrite Forall_forall in HP. by destruct (HP s Hs) as (_ & _ & _ & _ & _ & ? & _). }
  assert (X : forall s, s ∈ new -> s ∈ existing_of all).
  { intros s Hs. rewrite Forall_forall in HP. destruct (decide (s ∈ existing_of lines)) as [E|E].
    - unfold existing_of in *. unfold all. rewrite filter_app, fmap_app, elem_of_app. by left.
    - apply existing_plain; [by apply HP|]. unfold all. apply elem_of_app. right. by apply elem_of_dedup. }
  exists (join newline all +:+ newline). split_and!; [by rewrite (M old)|done|by apply splitlines_text|done|].
  rewrite M. f_equal. destruct all as [|x l] eqn:A.
  - assert (N : new = []). { apply elem_of_nil_inv. intros s Hs. apply X in Hs. by apply elem_of_nil in Hs. } by rewrite N.
  - rewrite splitlines_text by done. rewrite (dedup_all_seen new) by done. by rewrite app_nil_r.
Qed.

(** ** Preset files are read back *)

Lemma text_lines_first w rest : forall cur, one_line w -> text_lines_from cur (w +:+ newline +:+ rest) = (cur +:+ w) :: text_lines rest.
Proof.
  unfold one_line. induction w as [|c w IH]; intros cur Hw.
  - rewrite append_nil_r, append_nil_l. change (newline +:+ rest) with (String "010" rest). done.
  - cbn [sforall] in Hw. apply andb_prop in Hw as [Hc Hw]. rewrite append_cons. cbn [text_lines_from].
    assert (N : Ascii.eqb c "010" = false /\ Ascii.eqb c "013" = false).
    { split; apply Ascii.eqb_neq; intros ->; done. }
    destruct N as [-> ->]. rewrite IH by done. by rewrite append_assoc.
Qed.

Lemma text_lines_join l : Forall one_line l -> l <> [] -> text_lines (join newline l +:+ newline) = l.
Proof.
  induction 1 as [|w l Hw Hl IH]; [done|]. intros _. destruct l as [|v l].
  - cbn [join]. rewrite <- (append_nil_r newline). unfold text_lines. by rewrite text_lines_first.
  - change (join newline (w :: v :: l)) with (w +:+ newline +:+ join newline (v :: l)). rewrite !append_assoc.
    unfold text_lines at 1. rewrite text_lines_first by done. f_equal. by apply IH.
Qed.

Lemma unescape_plain s : contains "\n" s = false -> unescape s = s.
Proof. intros H. unfold unescape. by rewrite split_pair_none. Qed.

Lemma from_file_lines_cons s l : from_file_lines (s :: l)
  = if negb (nonempty (strip s)) || is_comment (strip s) then from_file_lines l else unescape (strip s) :: from_file_lines l.
Proof. unfold from_file_lines. cbn [omap list_omap]. by destruct (_ || _). Qed.

Lemma read_plain l : Forall plain l -> from_file_lines l = l.
Proof.
  induction 1 as [|s l (S & N & H & _ & _ & _ & B) _ IH]; [done|]. rewrite from_file_lines_cons, S, N.
  unfold is_comment. rewrite H. cbn [negb orb]. by rewrite unescape_plain, IH.
Qed.

Lemma comment_skipped s l : from_file_lines (String "#" s :: l) = from_file_lines l.
Proof.
  rewrite from_file_lines_cons. assert (E : exists t, strip (String "#" s) = String "#" t).
  { unfold strip, strip_by. cbn [lstrip_by]. change (is_space "#") with false. cbn iota. cbn [rstrip_by]. destruct (rstrip_by is_space s); by eexists. }
  by destruct E as [t ->].
Qed.

Lemma one_line_app a b : one_line (a +:+ b) <-> one_line a /\ one_line b.
Proof.
  unfold one_line. induction a as [|c a IH]; [split; [by split|by intros []]|]. rewrite append_cons. cbn [sforall].
  rewrite !andb_true_iff, IH. tauto.
Qed.

(** (roundtrip) A preset file is read back as it was meant: the lines of the file that [write_shortlist_presets] writes
    for a protocol, read as the program reads a strategy file - comments and blank lines skipped - are exactly the
    strategies of the protocol, in their order, when each is one plain core on one line and neither the provider nor
    the time of the summary breaks a line. There is one file for each protocol. *)
Theorem presets_read_back summary strategies id at_ out_dir prefix : extract_strategies summary = Ret strategies ->
  Forall (fun pl => Forall plain pl.2) strategies ->
  py_str (get_or "provider_id" (JStr "unknown") summary) = Ret id -> py_str (get_or "generated_at" (JStr "") summary) = Ret at_ ->
  one_line id -> one_line at_ ->
  exists files paths, write_shortlist_presets summary out_dir prefix = Ret (files, paths)
  /\ files.*1 = map (fun pl => preset_name prefix pl.1) strategies
  /\ map (fun f => from_file_lines (text_lines f.2)) files = strategies.*2
  /\ paths.*1 = strategies.*1.
Proof.
  intros HE HP HI HA LI LA. unfold write_shortlist_presets. rewrite HE. cbn [mbind outcome_bind]. rewrite HI. cbn [mbind outcome_bind].
  rewrite HA. cbn [mbind outcome_bind]. eexists _, _. split; [reflexivity|]. split; [|split].
  - clear. induction strategies as [|pl l IH]; cbn; [done|by f_equal].
  - clear HE. induction HP as [|[p l] strategies P _ IH]; [done|]. cbn [map fmap list_fmap]. f_equal; [|exact IH].
    cbn [snd] in *. unfold preset_text. rewrite text_lines_join; [| |done].
    + cbn [app]. change ("# Imported from provider_summary (" +:+ id +:+ ")") with (String "#" (" Imported from provider_summary (" +:+ id +:+ ")")).
      change ("# generated_at: " +:+ at_) with (String "#" (" generated_at: " +:+ at_)). rewrite !comment_skipped, from_file_lines_cons. cbn [strip nonempty negb orb]. by apply read_plain.
    + cbn [app]. repeat constructor; [by repeat (apply one_line_app; split)|by apply one_line_app|].
      eapply Forall_impl; [exact P|]. intros s (_ & _ & _ & _ & _ & O & _). exact O.
  - clear. induction strategies as [|pl l IH]; cbn; [done|by f_equal].
Qed.

(** ** From a provider to a shortlist and back *)

Lemma dget_default_plain (strategies : list (string * list string)) proto : Forall (fun pl => Forall plain pl.2) strategies -> Forall plain (dget_default proto [] strategies).
Proof.
  intros H. unfold dget_default. destruct (dget proto strategies) as [l|] eqn:E; cbn; [|constructor].
  apply dget_elem in E. rewrite Forall_forall in H. exact (H _ E).
Qed.

Lemma bucket_lines_app a b : bucket_lines (a ++ b) = (x ← bucket_lines a; y ← bucket_lines b; Ret (x ++ y)%list).
Proof.
  induction a as [|r a IH]; cbn [app bucket_lines]; [by destruct (bucket_lines b)|].
  destruct (match r with JDict row => _ | JStr s => _ | _ => _ end) as [h| |]; cbn [mbind outcome_bind]; [|done..].
  rewrite IH. destruct (bucket_lines a) as [x| |]; cbn [mbind outcome_bind]; [|done..]. destruct (bucket_lines b); cbn; [by rewrite <- (assoc_L (++)%list)|done..].
Qed.

(** A row that holds a strategy. *)
Definition holds (s : string) (row : json) : Prop := exists d, row = JDict d /\ dget "strategy" d = Some (JStr s).

Lemma row_strategy_of d s : dget "strategy" d = Some (JStr s) -> row_strategy d = Ret (strip s).
Proof. unfold row_strategy, get_or. by intros ->. Qed.

Lemma bucket_lines_rows rows l : Forall plain l -> Forall2 holds l rows -> bucket_lines rows = Ret l.
Proof.
  intros P H. revert P. induction H as [|s row l rows (d & -> & D) _ IH]; intros P; [done|]. apply Forall_cons in P as [(S & N & _) P].
  cbn [bucket_lines]. rewrite (row_strategy_of _ _ D), S. cbn [mbind outcome_bind]. rewrite N, (IH P). done.
Qed.

Lemma imap_rows (f : nat -> string -> json) l : (forall i s, holds s (f i s)) -> Forall2 holds l (imap f l).
Proof. revert f. induction l as [|s l IH]; intros f H; cbn; [constructor|]. constructor; [apply H|]. apply IH. intros i x. apply H. Qed.

Lemma tcp_row_holds proto doms i s : holds s (tcp_row proto doms i s).
Proof. by eexists. Qed.
Lemma udp_row_holds i s : holds s (udp_row i s).
Proof. by eexists. Qed.

(** The buckets of a summary of plain strategies. *)
Definition buckets (l : list (string * list string)) : list (string * list string) :=
  filter (fun pl => bool_decide (pl.2 = []) = false) l.

Definition exchanged (strategies : list (string * list string)) : list (string * list string) :=
  let of_proto proto := dget_default proto [] strategies in
  buckets [("tls12", fromkeys (of_proto "tls12" ++ of_proto "tls13" ++ of_proto "tcp")); ("udp", fromkeys (of_proto "udp_voice" ++ of_proto "udp"));
           ("quic", fromkeys (of_proto "quic"))]%list.

Lemma extract_buckets T U Q id at_ : Forall plain T -> Forall plain U -> Forall plain Q ->
  let bucket k (l : list string) := match l with [] => [] | _ => [(k, j_strs l)] end in
  extract_strategies (("provider_id", id) :: ("generated_at", at_)
    :: [("custom_strategies", JDict (bucket "tls12" T ++ bucket "udp" U ++ bucket "quic" Q)%list); ("shortlist", JDict [])])
  = Ret (buckets [("tls12", fromkeys T); ("udp", fromkeys U); ("quic", fromkeys Q)]).
Proof.
  intros HT HU HQ. cbv zeta. unfold extract_strategies.
  assert (C : forall k l d out, Forall plain l -> custom_strategies ((match l with [] => [] | _ => [(k, j_strs l)] end) ++ d) out
            = custom_strategies d (match l with [] => out | _ => dset k (fromkeys l) out end)).
  { intros k l d out Hl. destruct l as [|s l]; [done|]. cbn [app custom_strategies]. unfold j_strs. rewrite custom_bucket_plain by done.
    cbn [mbind outcome_bind app]. unfold fromkeys. by cbn. }
  change (dict_at "custom_strategies" _) with
    (match T with [] => [] | _ => [("tls12", j_strs T)] end ++ match U with [] => [] | _ => [("udp", j_strs U)] end ++ match Q with [] => [] | _ => [("quic", j_strs Q)] end)%list.
  rewrite !C by done. rewrite <- (app_nil_r (match Q with [] => [] | _ => _ end)), C by done. cbn [custom_strategies mbind outcome_bind].
  destruct T, U, Q; reflexivity.
Qed.

Lemma seed_loop_length (f : nat -> json -> outcome (list seed)) k rows : (forall n row, row ∈ rows -> exists new, f n row = Ret new /\ length new = k) ->
  forall acc, exists acc', seed_loop f rows acc = (Ret tt, acc') /\ length acc' = length acc + k * length rows.
Proof.
  induction rows as [|row rows IH]; intros H acc; [exists acc; split; [done|cbn; lia]|]. cbn [seed_loop].
  destruct (H (length acc) row) as (new & -> & L); [by left|]. destruct (IH (fun n r E => H n r ltac:(by right)) (acc ++ new)%list) as (d & -> & Ld).
  exists d. split; [done|]. rewrite Ld, length_app. cbn [length]. lia.
Qed.

Lemma seed_tcp_rows ks import pr primary proto doms i s n : doms <> [] -> ks = ["avg_latency_ms"; "latency_ms"] \/ ks = ["latency_ms"] -> plain s ->
  exists new, seed_tcp_row ks import pr primary n (tcp_row proto doms i s) = Ret new /\ length new = length doms.
Proof.
  intros D K (S & N & _). unfold seed_tcp_row, tcp_row. rewrite (row_strategy_of _ s) by done.
  assert (L : forall d, text_or "label" d [("label", JStr ("provider_" +:+ proto +:+ "_" +:+ str_of_Z (Z.of_nat i))); ("strategy", JStr s); ("domains_pass", j_strs doms); ("latency_ms", JFloat (f_of_Z 0))] = Ret ("provider_" +:+ proto +:+ "_" +:+ str_of_Z (Z.of_nat i))) by done.
  rewrite L, S. cbn [mbind outcome_bind]. rewrite N. cbn [negb].
  assert (PD : pass_domains [("label", JStr ("provider_" +:+ proto +:+ "_" +:+ str_of_Z (Z.of_nat i))); ("strategy", JStr s); ("domains_pass", j_strs doms); ("latency_ms", JFloat (f_of_Z 0))] primary = Ret doms).
  { unfold pass_domains. change (jget "domains_pass" _) with (j_strs doms). rewrite strs_roundtrip. by destruct doms. }
  rewrite PD. cbn [mbind outcome_bind]. destruct doms as [|d doms]; [done|].
  assert (NO : number_of ks [("label", JStr ("provider_" +:+ proto +:+ "_" +:+ str_of_Z (Z.of_nat i))); ("strategy", JStr s); ("domains_pass", j_strs (d :: doms)); ("latency_ms", JFloat (f_of_Z 0))] = Ret (f_of_Z 0)).
  { by destruct K as [->| ->]. }
  rewrite NO. cbn [mbind outcome_bind]. eexists. split; [done|]. by rewrite length_map.
Qed.

Lemma seed_udp_rows i s n : plain s -> exists new, seed_udp_row n (udp_row i s) = Ret new /\ length new = 1.
Proof.
  intros (S & N & _). unfold seed_udp_row, udp_row. rewrite (row_strategy_of _ s) by done.
  cbn [text_or jget dget]. cbn. rewrite S, N. cbn. eexists. split; [reflexivity|done].
Qed.

Lemma elem_of_imap_rows (f : nat -> string -> json) l row : row ∈ imap f l -> exists i s, s ∈ l /\ row = f i s.
Proof.
  intros (k & E)%list_elem_of_lookup. rewrite list_lookup_imap in E. destruct (l !! k) as [s|] eqn:L; [|done]. cbn in E.
  exists k, s. split; [by eapply list_elem_of_lookup_2|congruence].
Qed.

Lemma seeded sl tcp udp quic doms : jget "domains" sl = j_strs doms -> doms <> [] ->
  rows_at "tcp" sl = Ret tcp -> rows_at "udp" sl = Ret udp -> rows_at "quic" sl = Ret quic ->
  (forall n row, row ∈ tcp -> forall pr, exists new, seed_tcp_row ["avg_latency_ms"; "latency_ms"] "import_tcp_" "tcp" pr n row = Ret new /\ length new = length doms) ->
  (forall n row, row ∈ udp -> exists new, seed_udp_row n row = Ret new /\ length new = 1) ->
  (forall n row, row ∈ quic -> forall pr, exists new, seed_tcp_row ["latency_ms"] "import_quic_" "quic" pr n row = Ret new /\ length new = length doms) ->
  exists rows, seed_state_db sl true = (Ret (Z.of_nat (length rows)), rows)
  /\ length rows = length doms * length tcp + length udp + length doms * length quic.
Proof.
  intros D DN RT RU RQ HT HU HQ. unfold seed_state_db. cbn [negb].
  assert (PD : primary_domain sl = Ret (default "discord.com" (head doms))) by (pose proof (strs_roundtrip doms) as R; unfold primary_domain; rewrite D; unfold j_strs in *; by rewrite R).
  rewrite PD. unfold seed_rows. rewrite RT, RU, RQ.
  destruct (seed_loop_length _ (length doms) tcp (fun n row H => HT n row H (default "discord.com" (head doms))) []) as (d1 & -> & L1). cbn [then_seed].
  destruct (seed_loop_length _ 1 udp HU d1) as (d2 & -> & L2). cbn [then_seed].
  destruct (seed_loop_length _ (length doms) quic (fun n row H => HQ n row H (default "discord.com" (head doms))) d2) as (d3 & -> & L3).
  exists d3. split; [done|]. cbn [length] in L1. lia.
Qed.

Lemma provider_domains_some summary : provider_domains summary <> [].
Proof. unfold provider_domains. by destruct (filter _ _). Qed.


Definition summary_ex : dict :=
  [("provider_id", JStr "isp");
   ("custom_strategies", JDict [("tls12", j_strs ["--payload=x --lua-desync=fake:blob=stun"; "fake:a"]); ("udp", j_strs ["fake:u"])]);
   ("shortlist", JDict [("d.com", JDict [("tls12", JStr "fake:b")])])].
Definition strategies_ex : list (string * list string) := [("tls12", ["fake:blob=stun"; "fake:a"; "fake:b"]); ("udp", ["fake:u"])].
Lemma strategies_ex_plain : Forall (fun pl => Forall plain pl.2) strategies_ex.
Proof. repeat constructor. Qed.


Example presets_read_back_witness : exists files paths, write_shortlist_presets summary_ex "out" "p" = Ret (files, paths)
  /\ files.*1 = ["p-tls12.tls"; "p-udp.tls"].
Proof.
  destruct (presets_read_back summary_ex strategies_ex "isp" "" "out" "p") as (files & paths & E & N & _);
    [vm_compute; reflexivity|exact strategies_ex_plain|reflexivity..|].
  exists files, paths. split; [exact E|exact N].
Defined.

Example merge_into_user_matrix_spec_witness : exists text, merge_into_user_matrix (JDict summary_ex) (Some "fake:a") = Ret text
  /\ splitlines text = ["fake:a"; "fake:blob=stun"; "fake:b"].
Proof.
  destruct (merge_into_user_matrix_spec (JDict summary_ex) summary_ex strategies_ex (Some "fake:a")) as (text & E & _ & L & _);
    [reflexivity|vm_compute; reflexivity|repeat constructor|].
  exists text. split; [exact E|]. apply L. done.
Defined.

(** *** What gets lost *)

(** A command line with two cores: the flag of the second stays inside, and the way through a shortlist drops the first. *)
Example two_cores_lose_one :
  let raw := "--lua-desync=fake:blob=stun --lua-desync=multisplit:pos=2" in
  _normalize_strategy raw = "fake:blob=stun --lua-desync=multisplit:pos=2" /\ _normalize_strategy (_normalize_strategy raw) = "multisplit:pos=2".
Proof. done. Qed.

(** The UDP strategies of a shortlist are called ["udp"]: their preset is a .tls file, and no user matrix gets them. *)
Example udp_of_shortlist_is_lost :
  let sl := [("udp", JList [JDict [("strategy", JStr "fake:u")]])] in
  exists back, shortlist_to_provider_summary sl = Ret back
  /\ (match write_shortlist_presets back "out" "p" with Ret (files, _) => files.*1 | _ => [] end) = ["p-udp.tls"]
  /\ merge_into_user_matrix (JDict back) None = Ret newline.
Proof. eexists. split; [reflexivity|]. split; vm_compute; reflexivity. Qed.

(** A strategy that is [null] becomes the strategy None. *)
Example null_strategy_is_none : bucket_lines [JDict [("strategy", JNull)]] = Ret ["None"].
Proof. reflexivity. Qed.
