(* ===== verification/ProcTree.v ===== *)
(** * Process trees and the daemons of a namespace: the killing half of [service/metrics.py]

    The process table is an argument: what [pgrep], [/proc] and [kill] answer. [pgrep] may answer differently at
    every call, because processes come and go while the tree is walked. The signals that are sent are the actions of
    the model, in their order. *)

From stdpp Require Import base numbers list strings gmap sets relations.
From Stdlib Require Import ZArith Ascii Lia.
From S2P Require Import Prelude PyStr.

#[local] Open Scope string_scope.
#[local] Set Default Proof Using "Type".

(** ** What the system answers *)

(** [subprocess.run]: it cannot be run, or it exits with a code and a text. *)
Inductive ran : Type := NotRun | Exited (rc : Z) (stdout : string).
(** Reading a file or a link: its text, [PermissionError], or another [OSError]. *)
Inductive read : Type := Text (s : string) | Eperm | Gone.
(** [os.kill(pid, SIGKILL)]. *)
Inductive kill_answer : Type := KSent | KNoProcess | KEperm | KOSError.
(** The signals that leave the process. *)
Inductive action : Type := Sigkill (pid : Z) | SudoSigkill (pid : Z).
Record PkillResult : Type := Pkilled { killed : nat; scan_errors : nat }.

#[export] Instance action_eq_dec : EqDecision action.
Proof. solve_decision. Defined.
Definition target (a : action) : Z := match a with Sigkill p | SudoSigkill p => p end.

(** ** Children and descendants *)

Definition _pgrep_child_pids (r : ran) : list Z :=
  match r with
  | Exited 0 stdout => digits_val 0 <$> filter (fun x => isdigit (strip x) = true) (split_ws stdout)
  | _ => []
  end.

Section Tree.
(** What [pgrep -P pid] answers at the n-th call. *)
Context (pgrep : nat -> Z -> ran).

(** [pending] is a stack: its last element is written first. *)
Fixpoint descend (fuel n : nat) (found pending : list Z) (seen : gset Z) : option (list Z) :=
  match fuel with
  | O => None
  | S fuel =>
      match pending with
      | [] => Some found
      | pid :: pending =>
          let new := filter (.∉ seen) (_pgrep_child_pids (pgrep n pid)) in
          descend fuel (S n) (found ++ new)%list (rev new ++ pending)%list (seen ∪ list_to_set new)
      end
  end.
Definition descendant_pids (fuel : nat) (root_pid : Z) : option (list Z) := descend fuel 0 [] [root_pid] {[root_pid]}.
End Tree.

(** ** Killing *)

Section Kill.
Context (kill : Z -> kill_answer) (sudo_kill : Z -> ran).

Definition _sudo_kill_pid (pid : Z) : bool := match sudo_kill pid with Exited 0 _ => true | _ => false end.
Definition _kill_pid_sigkill (pid : Z) : bool * list action :=
  match kill pid with
  | KSent => (true, [Sigkill pid])
  | KEperm => (_sudo_kill_pid pid, [Sigkill pid; SudoSigkill pid])
  | KNoProcess | KOSError => (false, [Sigkill pid])
  end.
(** [sum(1 for pid in pids if _kill_pid_sigkill(pid))] *)
Fixpoint kill_all (pids : list Z) : nat * list action :=
  match pids with
  | [] => (0, [])
  | pid :: pids =>
      let '(ok, a) := _kill_pid_sigkill pid in
      let '(n, acts) := kill_all pids in ((if ok then S n else n), (a ++ acts)%list)
  end.
Definition pkill_host_process_tree (pgrep : nat -> Z -> ran) (fuel : nat) (root_pid : Z) : option (nat * list action) :=
  kids ← descendant_pids pgrep fuel root_pid; Some (kill_all (kids ++ [root_pid])%list).

(** ** The daemons of one namespace *)

Record proc_fs : Type := ProcFs {
  ns_inode_of : string -> option Z;      (* os.stat of the bind mount: None is OSError *)
  listing : option (list string);        (* os.listdir of /proc *)
  comm : Z -> read;                      (* the command name of a process *)
  net_link : Z -> read;                  (* os.readlink of its network namespace *)
  sudo_link : Z -> ran                   (* sudo -n readlink of the same *)
}.
Definition _sudo_readlink (r : ran) : option string :=
  match r with Exited 0 stdout => let link := strip stdout in if nonempty link then Some link else None | _ => None end.

(** The link of a process, whether it counts as a scan error when there is none. *)
Definition read_link (fs : proc_fs) (pid : Z) : option string * nat :=
  match net_link fs pid with
  | Text link => (Some link, 0)
  | Eperm => match _sudo_readlink (sudo_link fs pid) with Some link => (Some link, 0) | None => (None, 1) end
  | Gone => (None, 0)
  end.
Definition scan_entry (fs : proc_fs) (ns_inode : Z) (entry : string) : list Z * nat :=
  if negb (isdigit entry) then ([], 0)
  else
    let pid := digits_val 0 entry in
    match comm fs pid with
    | Eperm => ([], 1)
    | Gone => ([], 0)
    | Text c =>
        if negb (bool_decide (strip c = "nfqws2")) then ([], 0)
        else match read_link fs pid with
             | (Some link, e) => ((if endswith ("[" +:+ str_of_Z ns_inode +:+ "]") link then [pid] else []), e)
             | (None, e) => ([], e)
             end
    end.
Definition _find_nfqws2_pids (fs : proc_fs) (ns_name : string) : list Z * nat :=
  match ns_inode_of fs ns_name with
  | None => ([], 0)
  | Some ns_inode =>
      match listing fs with
      | None => ([], 1)
      | Some entries =>
          let found := scan_entry fs ns_inode <$> entries in (concat found.*1, sum_list found.*2)
      end
  end.
Definition find_nfqws2_pids (fs : proc_fs) (ns_name : string) : list Z := (_find_nfqws2_pids fs ns_name).1.

Definition _pkill_nfqws2_in_ns (fs : proc_fs) (ns_name : string) : PkillResult * list action :=
  let '(pids, scan_errors) := _find_nfqws2_pids fs ns_name in
  let '(n, acts) := kill_all pids in (Pkilled n scan_errors, acts).
Definition pkill_nfqws2_in_ns (fs : proc_fs) (ns_name : string) : nat * list action :=
  let '(r, acts) := _pkill_nfqws2_in_ns fs ns_name in (killed r, acts).
End Kill.

(** ** The walk of the tree *)

Lemma elem_of_rev (x : Z) l : x ∈ rev l <-> x ∈ l.
Proof. by rewrite !list_elem_of_In, <- in_rev. Qed.

Section Walk.
Context (pgrep : nat -> Z -> ran) (root : Z).
(** [pgrep] prints a process at most once. *)
Context (once : forall n p, NoDup (_pgrep_child_pids (pgrep n p))).

Definition tree_inv (found pending : list Z) (seen : gset Z) : Prop :=
  NoDup (root :: found) /\ seen = list_to_set (root :: found) /\ pending ⊆ root :: found.

Lemma tree_inv_step n found pid pending (seen : gset Z) (new := filter (.∉ seen) (_pgrep_child_pids (pgrep n pid))) :
  tree_inv found (pid :: pending) seen -> tree_inv (found ++ new)%list (rev new ++ pending)%list (seen ∪ list_to_set new).
Proof using once.
  intros (N & -> & P). split; [|split].
  - rewrite app_comm_cons. apply NoDup_app. split; [done|]. split; [|by apply NoDup_filter].
    intros x Hx [Hn _]%list_elem_of_filter. set_solver.
  - rewrite app_comm_cons, list_to_set_app_L. done.
  - intros x [Hx|Hx]%elem_of_app; [|set_solver]. rewrite elem_of_rev in Hx.
    apply elem_of_cons. right. set_solver.
Qed.

Lemma tree_inv_start : tree_inv [] [root] {[root]}.
Proof. clear once. split; [apply NoDup_singleton|]. split; [set_solver|done]. Qed.

(** Whatever [pgrep] answers from a finite table, the walk ends, after one call per process. *)
Lemma descend_total (table : gset Z) :
  (forall n p x, x ∈ _pgrep_child_pids (pgrep n p) -> x ∈ table) ->
  forall fuel n found pending seen, tree_inv found pending seen -> (forall x, x ∈ found -> x ∈ table) ->
  length pending + size table < fuel + length found -> is_Some (descend pgrep fuel n found pending seen).
Proof using once.
  intros T. induction fuel as [|fuel IH]; intros n found pending seen I F L; cbn [descend].
  - destruct I as (N & _ & _). apply NoDup_cons in N as [_ N].
    assert (length found <= size table); [|lia]. rewrite <- (size_list_to_set (C := gset Z)) by done. apply subseteq_size. set_solver.
  - destruct pending as [|pid pending]; [by eexists|]. cbn zeta. apply IH; [by apply tree_inv_step| |].
    + intros x [Hx|Hx%list_elem_of_filter]%elem_of_app; [by apply F|]. apply (T n pid), Hx.
    + rewrite !length_app, length_rev. cbn [length] in L. lia.
Qed.

(** Every process that is found is a child of one that was found before, or of the root. *)
Context (kids : Z -> list Z) (steady : forall n p, _pgrep_child_pids (pgrep n p) = kids p).
Definition child (p q : Z) : Prop := q ∈ kids p.

Lemma descend_reach fuel : forall n found pending seen l, tree_inv found pending seen ->
  (forall x, x ∈ root :: found -> rtc child root x) ->
  (forall x y, x ∈ root :: found -> x ∉ pending -> child x y -> y ∈ root :: found) ->
  descend pgrep fuel n found pending seen = Some l ->
  NoDup (root :: l) /\ (forall x, x ∈ root :: l -> rtc child root x) /\ (forall x y, x ∈ root :: l -> child x y -> y ∈ root :: l).
Proof using once steady.
  induction fuel as [|fuel IH]; intros n found pending seen l I R C H; cbn [descend] in H; [done|].
  destruct pending as [|pid pending].
  - injection H as <-. split; [apply I|]. split; [done|]. intros x y Hx. apply C; [done|apply not_elem_of_nil].
  - cbn zeta in H. revert H. apply IH; [by apply tree_inv_step| |]; destruct I as (N & -> & P); rewrite app_comm_cons.
    + intros x [Hx|[_ Hx]%list_elem_of_filter]%elem_of_app; [by apply R|]. rewrite steady in Hx.
      apply rtc_r with pid; [|done]. apply R, P. by left.
    + intros x y Hx Np Ch. apply elem_of_app.
      assert (K : y ∈ root :: found \/ y ∉ root :: found) by (destruct (decide (y ∈ root :: found)); tauto).
      destruct K as [K|K]; [by left|]. apply elem_of_app in Hx as [Hx|Hx].
      * destruct (decide (x = pid)) as [->|Ne].
        -- right. apply list_elem_of_filter. split; [set_solver|]. by rewrite steady.
        -- left. apply (C x); [done| |done]. intros [?|?]%elem_of_cons; [done|]. apply Np, elem_of_app. by right.
      * exfalso. apply Np, elem_of_app. left. by apply elem_of_rev.
Qed.

Lemma descendants_core (table : gset Z) : (forall p x, x ∈ kids p -> x ∈ table) ->
  exists l, descendant_pids pgrep (2 + size table) root = Some l /\ NoDup (root :: l) /\
            forall x, x ∈ l <-> x <> root /\ rtc child root x.
Proof using once steady.
  intros T. destruct (descend_total table) with (fuel := 2 + size table) (n := 0) (found := @nil Z) (pending := [root]) (seen := {[root]} : gset Z)
    as [l E]; [intros n p x; rewrite steady; apply T|apply tree_inv_start|by intros x ?%elem_of_nil|cbn; lia|].
  exists l. split; [done|].
  edestruct (descend_reach (2 + size table)) as (N & R & C); [exact tree_inv_start|..|exact E|];
    [intros x ->%list_elem_of_singleton; done|intros x y Hx Nx; by destruct Nx|].
  split; [done|]. intros x. apply NoDup_cons in N as [N _]. split.
  - intros Hx. split; [by intros ->|]. apply R. by right.
  - intros [Ne Rx]. assert (x ∈ root :: l) as [?|?]%elem_of_cons; [|done|done].
    clear Ne. revert Rx. apply (rtc_ind_r (fun y => y ∈ root :: l)); [by left|]. intros y z _ Cz Hy. by apply (C y).
Qed.
End Walk.

(** ** The signals *)

Section Signals.
Context (kill : Z -> kill_answer) (sudo_kill : Z -> ran).

Definition dies (p : Z) : bool := (_kill_pid_sigkill kill sudo_kill p).1.
Definition first_signals (acts : list action) : list Z := omap (fun a => match a with Sigkill p => Some p | _ => None end) acts.

Lemma kill_all_spec pids n acts : kill_all kill sudo_kill pids = (n, acts) ->
  first_signals acts = pids /\ n = length (filter (fun p => dies p = true) pids)
  /\ (forall p, SudoSigkill p ∈ acts <-> p ∈ pids /\ kill p = KEperm).
Proof.
  revert n acts. induction pids as [|p pids IH]; intros n acts H; cbn [kill_all] in H.
  - injection H as <- <-. split; [done|]. split; [done|]. intros p. split; [by intros ?%elem_of_nil|by intros [?%elem_of_nil _]].
  - destruct (_kill_pid_sigkill kill sudo_kill p) as [ok a] eqn:E. destruct (kill_all kill sudo_kill pids) as [m b] eqn:K.
    injection H as <- <-. destruct (IH _ _ eq_refl) as (F & L & S). rewrite filter_cons.
    assert (D : dies p = ok) by (unfold dies; by rewrite E). rewrite D.
    assert (A : first_signals a = [p] /\ forall q, SudoSigkill q ∈ a <-> q = p /\ kill p = KEperm).
    { unfold _kill_pid_sigkill in E. destruct (kill p); injection E as <- <-; (split; [done|]); set_solver. }
    destruct A as [A1 A2]. split; [unfold first_signals in *; rewrite omap_app, A1, F; done|]. split.
    + rewrite L. by destruct ok.
    + intros q. rewrite elem_of_app, A2, S, elem_of_cons. naive_solver.
Qed.

Lemma signalled_first pids n acts : kill_all kill sudo_kill pids = (n, acts) -> forall a, a ∈ acts -> target a ∈ pids.
Proof.
  intros H a Ha. destruct (kill_all_spec _ _ _ H) as (F & _ & S). destruct a as [p|p]; cbn [target].
  - rewrite <- F. unfold first_signals. apply list_elem_of_omap. by exists (Sigkill p).
  - apply S. done.
Qed.
End Signals.

(** ** The daemons of one namespace *)

Section Namespace.
Context (fs : proc_fs).

(** A process whose entry cannot be read, though it may be a daemon: it counts as a scan error. *)
Definition unreadable (entry : string) : bool :=
  isdigit entry &&
  match comm fs (digits_val 0 entry) with
  | Eperm => true
  | Gone => false
  | Text c => bool_decide (strip c = "nfqws2") &&
      match net_link fs (digits_val 0 entry) with
      | Eperm => bool_decide (_sudo_readlink (sudo_link fs (digits_val 0 entry)) = None)
      | _ => false
      end
  end.

(** A daemon whose namespace can be read, with [sudo] or without. *)
Definition readable_daemon (entry link : string) : Prop :=
  isdigit entry = true /\ (exists c, comm fs (digits_val 0 entry) = Text c /\ strip c = "nfqws2")
  /\ (read_link fs (digits_val 0 entry)).1 = Some link.

Lemma scan_entry_errors i entry : (scan_entry fs i entry).2 = if unreadable entry then 1 else 0.
Proof.
  unfold scan_entry, unreadable, read_link. destruct (isdigit entry); [|done]. cbn [negb andb].
  destruct (comm fs _) as [c| |]; try done. destruct (bool_decide (strip c = "nfqws2")); [|done]. cbn [negb andb].
  destruct (net_link fs _) as [l| |]; try done. destruct (_sudo_readlink _); by case_bool_decide.
Qed.

Lemma scan_entry_pids i entry p : p ∈ (scan_entry fs i entry).1 <->
  p = digits_val 0 entry /\ exists link, readable_daemon entry link /\ endswith ("[" +:+ str_of_Z i +:+ "]") link = true.
Proof.
  unfold scan_entry, readable_daemon. destruct (isdigit entry); cbn [negb]; [|set_solver].
  destruct (comm fs _) as [c| |]; [|set_solver..]. case_bool_decide as C; cbn [negb]; [|set_solver].
  destruct (read_link fs _) as [[link|] e]; cbn [fst]; [|set_solver].
  destruct (endswith _ link) eqn:E.
  - rewrite list_elem_of_singleton. split; [|by intros [-> _]]. intros ->. split; [done|]. exists link. naive_solver.
  - split; [by intros ?%elem_of_nil|]. intros (_ & l & (_ & _ & [= <-]) & W). by rewrite W in E.
Qed.

Lemma sum_errors i entries : sum_list (scan_entry fs i <$> entries).*2 = length (filter (fun e => unreadable e = true) entries).
Proof.
  induction entries as [|e l IH]; [done|]. rewrite filter_cons, !fmap_cons. cbn [sum_list foldr]. rewrite scan_entry_errors.
  change (foldr Nat.add 0 (scan_entry fs i <$> l).*2) with (sum_list (scan_entry fs i <$> l).*2). rewrite IH.
  by destruct (unreadable e).
Qed.

(** The kernel's text of a namespace link, and where it ends in the number of another namespace. *)
Definition net_text (i : Z) : string := "net:[" +:+ str_of_Z i +:+ "]".
Lemma snoc_inj u v c : u +:+ String c EmptyString = v +:+ String c EmptyString -> u = v.
Proof.
  revert v. induction u as [|a u IH]; intros [|b v] H; [done| | |].
  - injection H as _ H. by destruct v.
  - injection H as _ H. by destruct u.
  - injection H as <- H. f_equal. by apply IH.
Qed.
Lemma no_bracket z : (0 <= z)%Z -> sforall (fun c => negb (Ascii.eqb c "["%char)) (str_of_Z z +:+ "]") = true.
Proof.
  intros N. pose proof (str_of_Z_nonneg z N) as [H _]. unfold isdigit in H. apply andb_true_iff in H as [_ H].
  rewrite sforall_append. apply andb_true_iff. split; [|done]. revert H. apply sforall_impl.
  intros c. destruct (Ascii.eqb_spec c "["%char); [by subst|done].
Qed.
Lemma net_text_of i j : (0 <= j)%Z -> endswith ("[" +:+ str_of_Z i +:+ "]") (net_text j) = true <-> j = i.
Proof.
  intros J. rewrite endswith_iff. split; [|intros ->; by exists "net:"]. intros [u H]. unfold net_text in H.
  pose proof (no_bracket j J) as B. rewrite !append_cons, !append_nil_l in H.
  destruct u as [|c0 [|c1 [|c2 [|c3 u]]]]; rewrite ?append_cons, ?append_nil_l in H; try (by injection H).
  injection H as _ _ _ _ H. destruct u as [|c u].
  - rewrite append_nil_l in H. injection H as H. by apply snoc_inj, (inj str_of_Z) in H.
  - injection H as _ H. exfalso. rewrite H, sforall_append in B. apply andb_true_iff in B as [_ B]. done.
Qed.

(** What is signalled for a namespace, given that the links have the kernel's form. *)
Context (ns_of : Z -> Z) (ns_nonneg : forall p, (0 <= ns_of p)%Z).
Context (links : forall p link, (read_link fs p).1 = Some link -> link = net_text (ns_of p)).

Lemma find_pids_core ns i entries : ns_inode_of fs ns = Some i -> listing fs = Some entries ->
  (_find_nfqws2_pids fs ns).2 = length (filter (fun e => unreadable e = true) entries)
  /\ forall p, p ∈ find_nfqws2_pids fs ns <->
       ns_of p = i /\ exists entry link, entry ∈ entries /\ p = digits_val 0 entry /\ readable_daemon entry link.
Proof using ns_nonneg links.
  intros I L. unfold find_nfqws2_pids, _find_nfqws2_pids. rewrite I, L. cbn [fst snd]. split; [apply sum_errors|].
  intros p. rewrite list_elem_of_In, in_concat. setoid_rewrite <- list_elem_of_In. split.
  - intros (l & Hl & Hp). apply list_elem_of_fmap in Hl as ([l' e] & -> & Hl). apply list_elem_of_fmap in Hl as (entry & E & He).
    assert (Hq : p ∈ (scan_entry fs i entry).1) by (by rewrite <- E).
    apply scan_entry_pids in Hq as (-> & link & D & W). split; [|by exists entry, link].
    destruct D as (_ & _ & R). rewrite (links _ _ R) in W. by apply net_text_of in W.
  - intros (<- & entry & link & He & -> & D). exists (scan_entry fs (ns_of (digits_val 0 entry)) entry).1. split.
    + apply list_elem_of_fmap. eexists. split; [done|]. by apply list_elem_of_fmap_2.
    + apply scan_entry_pids. split; [done|]. exists link. split; [done|]. destruct D as (_ & _ & R). rewrite (links _ _ R). by apply net_text_of.
Qed.
End Namespace.

(** ** The properties *)

(** C17. Killing a daemon that was started through [sudo] ends, and reaches its whole tree: when the process table is
    finite and holds still and [pgrep] prints a process once, every descendant of the wrapper gets one signal, and
    after all of them the wrapper itself; no other process gets one. [sudo kill] is used for those alone whose signal
    the kernel refused, and the number returned is the number of processes that did get a signal. *)
Theorem pkill_host_process_tree_spec (kill : Z -> kill_answer) (sudo_kill : Z -> ran) (pgrep : nat -> Z -> ran) (kids : Z -> list Z)
    (table : gset Z) (root : Z)
    (once : forall n p, NoDup (_pgrep_child_pids (pgrep n p)))
    (steady : forall n p, _pgrep_child_pids (pgrep n p) = kids p)
    (finite : forall p x, x ∈ kids p -> x ∈ table) :
  exists tree n acts,
    pkill_host_process_tree kill sudo_kill pgrep (2 + size table) root = Some (n, acts)
    /\ first_signals acts = (tree ++ [root])%list /\ NoDup (tree ++ [root])
    /\ (forall x, x ∈ tree <-> x <> root /\ rtc (fun p q => q ∈ kids p) root x)
    /\ n = length (filter (fun p => dies kill sudo_kill p = true) (tree ++ [root])%list)
    /\ (forall p, SudoSigkill p ∈ acts <-> p ∈ (tree ++ [root])%list /\ kill p = KEperm).
Proof.
  destruct (descendants_core pgrep root once kids steady table finite) as (l & E & N & R).
  destruct (kill_all kill sudo_kill (l ++ [root])) as [n acts] eqn:K. destruct (kill_all_spec _ _ _ _ _ K) as (F & L & S).
  exists l, n, acts. unfold pkill_host_process_tree. rewrite E. cbn [mbind option_bind]. rewrite K. split; [done|]. split; [done|].
  split; [by rewrite Permutation_app_comm|done].
Qed.

(** C16. Cleaning a namespace touches that namespace only: when the kernel writes [net:[inode]] for the namespace of a
    process, the processes that get a signal are those daemons, and all of those, whose link can be read and whose
    namespace is the one named; every entry of [/proc] that could not be read is counted as an error. Where the
    namespace does not exist, nothing is signalled at all. *)
Theorem pkill_nfqws2_in_ns_spec (kill : Z -> kill_answer) (sudo_kill : Z -> ran) (fs : proc_fs) (ns_of : Z -> Z) (ns : string)
    (entries : list string) (r : PkillResult) (acts : list action)
    (ns_nonneg : forall p, (0 <= ns_of p)%Z)
    (links : forall p link, (read_link fs p).1 = Some link -> link = net_text (ns_of p))
    (L : listing fs = Some entries)
    (K : _pkill_nfqws2_in_ns kill sudo_kill fs ns = (r, acts)) :
  match ns_inode_of fs ns with
  | None => acts = [] /\ r = Pkilled 0 0
  | Some i =>
      (forall a, a ∈ acts -> ns_of (target a) = i)
      /\ (forall p, p ∈ first_signals acts <->
            ns_of p = i /\ exists entry link, entry ∈ entries /\ p = digits_val 0 entry /\ readable_daemon fs entry link)
      /\ killed r = length (filter (fun p => dies kill sudo_kill p = true) (first_signals acts))
      /\ scan_errors r = length (filter (fun e => unreadable fs e = true) entries)
  end.
Proof.
  unfold _pkill_nfqws2_in_ns in K. destruct (ns_inode_of fs ns) as [i|] eqn:I.
  - destruct (find_pids_core fs ns_of ns_nonneg links ns i entries I L) as [S P]. unfold find_nfqws2_pids in P.
    destruct (_find_nfqws2_pids fs ns) as [pids e]. cbn [fst snd] in *. destruct (kill_all kill sudo_kill pids) as [n a] eqn:A.
    injection K as <- <-. destruct (kill_all_spec _ _ _ _ _ A) as (F & Len & _). rewrite F. cbn [killed scan_errors].
    split; [|done]. intros x Hx. apply (signalled_first _ _ _ _ _ A), P in Hx. by destruct Hx.
  - unfold _find_nfqws2_pids in K. rewrite I in K. by injection K as <- <-.
Qed.

(** ** Concrete inputs *)

(** [sudo nfqws2]: process 100 is the wrapper, 101 the daemon, 102 and 103 its helpers, owned by another user. *)
Definition nl : string := String (Ascii.ascii_of_N 10) EmptyString.
Definition pgrep_ex (n : nat) (p : Z) : ran :=
  if Z.eqb p 100 then Exited 0 ("101" +:+ nl) else if Z.eqb p 101 then Exited 0 ("102" +:+ nl +:+ "103" +:+ nl) else Exited 1 "".
Definition kids_ex (p : Z) : list Z := if Z.eqb p 100 then [101%Z] else if Z.eqb p 101 then [102%Z; 103%Z] else [].
Definition kill_ex (p : Z) : kill_answer := if Z.eqb p 103 then KNoProcess else if Z.leb 101 p then KEperm else KSent.

Example pkill_tree_ex :
  pkill_host_process_tree kill_ex (fun p => if Z.eqb p 102 then NotRun else Exited 0 "") pgrep_ex 6 100
  = Some (2, [Sigkill 101; SudoSigkill 101; Sigkill 102; SudoSigkill 102; Sigkill 103; Sigkill 100]).
Proof. by vm_compute. Qed.

Lemma kids_ex_steady p : _pgrep_child_pids (if Z.eqb p 100 then Exited 0 ("101" +:+ nl)
  else if Z.eqb p 101 then Exited 0 ("102" +:+ nl +:+ "103" +:+ nl) else Exited 1 "") = kids_ex p.
Proof. unfold kids_ex. by destruct (Z.eqb p 100), (Z.eqb p 101). Qed.

Lemma pkill_host_process_tree_spec_witness :
  exists tree n acts,
    pkill_host_process_tree kill_ex (fun _ => Exited 0 "") pgrep_ex (2 + size ({[101%Z; 102%Z; 103%Z]} : gset Z)) 100 = Some (n, acts)
    /\ first_signals acts = (tree ++ [100%Z])%list /\ NoDup (tree ++ [100%Z])
    /\ (forall x, x ∈ tree <-> x <> 100%Z /\ rtc (fun p q => q ∈ kids_ex p) 100%Z x)
    /\ n = length (filter (fun p => dies kill_ex (fun _ => Exited 0 "") p = true) (tree ++ [100%Z])%list)
    /\ (forall p, SudoSigkill p ∈ acts <-> p ∈ (tree ++ [100%Z])%list /\ kill_ex p = KEperm).
Proof.
  apply pkill_host_process_tree_spec.
  - intros n p. unfold pgrep_ex. rewrite kids_ex_steady. unfold kids_ex. destruct (Z.eqb p 100); [|destruct (Z.eqb p 101)]; apply (bool_decide_unpack _); by vm_compute.
  - intros n p. apply kids_ex_steady.
  - intros p x. unfold kids_ex. destruct (Z.eqb p 100); [|destruct (Z.eqb p 101)]; set_solver.
Defined.

(** Two namespaces, a daemon in each, one more whose link only [sudo] reads, and a process that is no daemon. *)
Definition fs_ex : proc_fs := {|
  ns_inode_of := fun ns => if String.eqb ns "bs0" then Some 4026532%Z else if String.eqb ns "bs1" then Some 26532%Z else None;
  listing := Some ["1"; "200"; "201"; "202"; "203"; "self"];
  comm := fun p => if Z.eqb p 1 then Text "init" else if Z.eqb p 203 then Eperm else Text ("nfqws2" +:+ nl);
  net_link := fun p => if Z.eqb p 202 then Eperm else Text (net_text (if Z.eqb p 201 then 26532 else 4026532));
  sudo_link := fun _ => Exited 0 (net_text 26532 +:+ nl)
|}.
Definition ns_ex (p : Z) : Z := if Z.eqb p 201 || Z.eqb p 202 then 26532 else 4026532.

Example find_ex : (_find_nfqws2_pids fs_ex "bs0", _find_nfqws2_pids fs_ex "bs1", _find_nfqws2_pids fs_ex "bs2")
  = (([200%Z], 1), ([201%Z; 202%Z], 1), ([], 0)).
Proof. by vm_compute. Qed.

Lemma pkill_nfqws2_in_ns_spec_witness :
  (forall a, a ∈ [Sigkill 201; SudoSigkill 201; Sigkill 202; SudoSigkill 202] -> ns_ex (target a) = 26532%Z)
  /\ (forall p, p ∈ first_signals [Sigkill 201; SudoSigkill 201; Sigkill 202; SudoSigkill 202] <->
        ns_ex p = 26532%Z /\ exists entry link, entry ∈ ["1"; "200"; "201"; "202"; "203"; "self"] /\ p = digits_val 0 entry
          /\ readable_daemon fs_ex entry link)
  /\ 2 = length (filter (fun p => dies (fun _ => KEperm) (fun _ => Exited 0 "") p = true)
           (first_signals [Sigkill 201; SudoSigkill 201; Sigkill 202; SudoSigkill 202]))
  /\ 1 = length (filter (fun e => unreadable fs_ex e = true) ["1"; "200"; "201"; "202"; "203"; "self"]).
Proof.
  apply (pkill_nfqws2_in_ns_spec (fun _ => KEperm) (fun _ => Exited 0 "") fs_ex ns_ex "bs1"
           ["1"; "200"; "201"; "202"; "203"; "self"] (Pkilled 2 1)).
  - intros p. unfold ns_ex. by destruct (_ || _).
  - intros p link. unfold read_link, ns_ex. cbn [net_link sudo_link fs_ex]. destruct (Z.eqb_spec p 202) as [->|N].
    + intros H. vm_compute in H. injection H as <-. by vm_compute.
    + rewrite orb_false_r. intros [= <-]. by destruct (Z.eqb p 201).
  - reflexivity.
  - by vm_compute.
Defined.
