(* ===== verification/MemMonitor.v ===== *)
(** * The memory monitor: the sampling half of [service/metrics.py]

    Sliding windows of memory samples, one per daemon, and the daemons to recycle. What [/proc] says and the clock are
    arguments. [pow(x, 2.0)] of the C library and the [sum] of floats, which CPython compensates from 3.12 on, are
    parameters of the slope: neither is fixed by the sources. *)

From stdpp Require Import base numbers list strings sets.
From Stdlib Require Import ZArith Lia Floats.SpecFloat.
From S2P Require Import Prelude PyFloat PyStr PyDict ProcTree.

#[local] Open Scope string_scope.
#[local] Open Scope Z_scope.
#[local] Set Default Proof Using "Type".

Definition MIB : Z := 1024 * 1024.

(** ** Reading [/proc/<pid>/status] *)

Definition newline (c : Ascii.ascii) : bool := Ascii.eqb c (Ascii.ascii_of_N 10) || Ascii.eqb c (Ascii.ascii_of_N 13).
Fixpoint text_lines (cur s : string) : list string :=
  match s with
  | EmptyString => if nonempty cur then [cur] else []
  | String c s => if newline c then cur :: text_lines EmptyString s else text_lines (cur +:+ String c EmptyString) s
  end.
Definition line_value (line : string) : Z :=
  match split_ws line with
  | _ :: v :: _ => if isdigit (strip v) then digits_val 0 v * 1024 else 0
  | _ => 0
  end.
Definition _proc_status_value (r : read) (field : string) : Z :=
  match r with
  | Text s => match filter (fun line => startswith (field +:+ ":") line = true) (text_lines EmptyString s) with
              | line :: _ => line_value line
              | [] => 0
              end
  | _ => 0
  end.
Definition process_rss_bytes (r : read) : Z := _proc_status_value r "VmRSS".
Definition process_vms_bytes (r : read) : Z := _proc_status_value r "VmSize".

(** ** Samples *)

Record MemorySample : Type := Sample { ts : float; rss_bytes : Z }.
Definition rss_mib (s : MemorySample) : float := f_lit (rss_bytes s) MIB.

(** [_Window]: a list of samples, the oldest first. *)
Definition push (s : MemorySample) (window : Z) (samples : list MemorySample) : list MemorySample :=
  let samples := (samples ++ [s])%list in
  if Z.ltb (Z.max 1 window) (Z.of_nat (length samples)) then drop (Z.to_nat (Z.of_nat (length samples) - window)) samples else samples.

Section Slope.
(** [sum] of a list of floats, and [pow(x, 2.0)]. *)
Context (py_sum : list float -> float) (square : float -> float).

Definition compute_leak_slope (samples : list MemorySample) : float :=
  if Nat.ltb (length samples) 2 then f_of_Z 0
  else
    let xs := map ts samples in
    let ys := map rss_mib samples in
    let n := f_of_Z (Z.of_nat (length samples)) in
    let mean_x := fdiv (py_sum xs) n in
    let mean_y := fdiv (py_sum ys) n in
    let num := py_sum (zip_with (fun x y => fmul (fsub x mean_x) (fsub y mean_y)) xs ys) in
    let den := py_sum (map (fun x => square (fsub x mean_x)) xs) in
    if feq den (f_of_Z 0) then f_of_Z 0 else fdiv num den.

(** ** [f"{x:.0f}"] and [f"{x:.1f}"]: the decimal nearest to the exact value, ties to even *)

Definition fixed (digits : nat) (neg : bool) (q : Z) : string :=
  let p := 10 ^ Z.of_nat digits in
  (if neg then "-" else "") +:+ str_of_Z (q / p) +:+ (if Nat.eqb digits 0 then "" else "." +:+ str_of_Z (q mod p)).
Definition fmt (digits : nat) (f : float) : string :=
  match f with
  | S754_zero s => fixed digits s 0
  | S754_infinity s => (if s then "-" else "") +:+ "inf"
  | S754_nan => "nan"
  | S754_finite s m e => fixed digits s (div_half_even (10 ^ Z.of_nat digits * Zpos m * 2 ^ Z.max e 0) (2 ^ Z.max (- e) 0))
  end.

(** ** The monitor *)

Record MemoryMonitor : Type := Monitor {
  enabled : bool; max_mib : float; leak_slope : float; py_max_mib : float; window : Z; poll : float;
  _windows : list (Z * list MemorySample); _last_py_sample : option MemorySample; _last_check : float
}.
Definition set_windows (w : list (Z * list MemorySample)) (m : MemoryMonitor) : MemoryMonitor :=
  Monitor (enabled m) (max_mib m) (leak_slope m) (py_max_mib m) (window m) (poll m) w (_last_py_sample m) (_last_check m).
(** [__init__] with the arguments and the settings put together. *)
Definition init (enabled : bool) (max_mib leak_slope py_max_mib : float) (window : Z) (poll : float) : MemoryMonitor :=
  Monitor enabled max_mib leak_slope py_max_mib window poll [] None (S754_infinity true).

Definition should_sample (now : float) (m : MemoryMonitor) : bool * MemoryMonitor :=
  if negb (enabled m) || flt (fsub now (_last_check m)) (poll m) then (false, m)
  else (true, Monitor (enabled m) (max_mib m) (leak_slope m) (py_max_mib m) (window m) (poll m) (_windows m) (_last_py_sample m) now).

Definition clear (pid : option Z) (m : MemoryMonitor) : MemoryMonitor :=
  match pid with None => set_windows [] m | Some pid => set_windows (ddel pid (_windows m)) m end.

Definition record_pid (status : read) (now : float) (pid : Z) (m : MemoryMonitor) : MemoryMonitor :=
  if negb (enabled m) then m
  else
    let rss := process_rss_bytes status in
    if Z.leb rss 0 then m
    else set_windows (dset pid (push (Sample now rss) (window m) (dget_default pid [] (_windows m))) (_windows m)) m.
(** The daemons of the namespace, unless the processes are given; each one is read at its own time. *)
Definition record_ns (fs : proc_fs) (ns_name : string) (pids : option (list Z)) (status : Z -> read) (now : Z -> float)
    (m : MemoryMonitor) : MemoryMonitor :=
  if negb (enabled m) then m
  else foldl (fun m pid => record_pid (status pid) (now pid) pid m) m (default (find_nfqws2_pids fs ns_name) pids).

Definition sample_worker (status : read) (now : float) (m : MemoryMonitor) : option MemorySample * MemoryMonitor :=
  let rss := process_rss_bytes status in
  if Z.leb rss 0 then (None, m)
  else let s := Sample now rss in
       (Some s, Monitor (enabled m) (max_mib m) (leak_slope m) (py_max_mib m) (window m) (poll m) (_windows m) (Some s) (_last_check m)).
Definition worker_over_limit (status : read) (now : float) (m : MemoryMonitor) : bool * MemoryMonitor :=
  let m := (sample_worker status now m).2 in
  (match _last_py_sample m with None => false | Some s => flt (py_max_mib m) (rss_mib s) end, m).

Definition candidate (m : MemoryMonitor) (x : Z * list MemorySample) : list (Z * string) :=
  match last x.2 with
  | None => []
  | Some s =>
      if flt (max_mib m) (rss_mib s) then [(x.1, "rss=" +:+ fmt 0 (rss_mib s) +:+ "MiB > " +:+ fmt 0 (max_mib m) +:+ "MiB")]
      else
        let slope := compute_leak_slope x.2 in
        if flt (leak_slope m) slope
        then [(x.1, "leak=" +:+ fmt 1 slope +:+ "MiB/s > " +:+ fmt 1 (leak_slope m) +:+ "MiB/s")] else []
  end.
Definition recycle_candidates (m : MemoryMonitor) : list (Z * string) := x ← _windows m; candidate m x.

Definition summary (m : MemoryMonitor) : bool * list (string * nat) * option float :=
  (enabled m, map (fun x => (str_of_Z x.1, length x.2)) (_windows m), rss_mib <$> _last_py_sample m).
End Slope.

(** ** What a window holds *)

(** The operations that change the windows, one after another. *)
Inductive op : Type := Record_ (status : read) (now : float) (pid : Z) | Clear_ (pid : option Z).
Definition exec_op (m : MemoryMonitor) (o : op) : MemoryMonitor :=
  match o with Record_ status now pid => record_pid status now pid m | Clear_ pid => clear pid m end.

(** The specification: all the samples of a process since its window was cleared, and the last [n] of them. *)
Definition next_history (pid : Z) (h : list MemorySample) (o : op) : list MemorySample :=
  match o with
  | Record_ status now p =>
      if Z.eqb p pid && Z.ltb 0 (process_rss_bytes status) then (h ++ [Sample now (process_rss_bytes status)])%list else h
  | Clear_ None => []
  | Clear_ (Some p) => if Z.eqb p pid then [] else h
  end.
Definition history (pid : Z) (ops : list op) : list MemorySample := foldl (next_history pid) [] ops.
Definition last_n {A} (n : nat) (l : list A) : list A := drop (length l - n) l.

Lemma last_last_n {A} n (l : list A) : (0 < n)%nat -> last (last_n n l) = last l.
Proof.
  intros N. unfold last_n. destruct (decide (l = [])) as [->|Ne]; [done|].
  destruct l as [|x l _] using rev_ind; [done|]. rewrite length_app. cbn [length].
  rewrite drop_app_le by lia. by rewrite !last_snoc.
Qed.
Lemma last_n_nil {A} n (l : list A) : (0 < n)%nat -> last_n n l = [] -> l = [].
Proof. intros N E. pose proof (last_last_n n l N) as H. rewrite E in H. by apply eq_sym, last_None in H. Qed.

Lemma push_last_n s (n : nat) (h : list MemorySample) : (0 < n)%nat ->
  push s (Z.of_nat n) (last_n n h) = last_n n (h ++ [s])%list.
Proof.
  intros N. unfold push, last_n. rewrite !length_app, !length_drop. cbn [length].
  destruct (Nat.le_gt_cases n (length h)) as [G|G].
  - replace (Z.max 1 (Z.of_nat n)) with (Z.of_nat n) by lia. replace (length h - (length h - n))%nat with n by lia.
    destruct (Z.ltb_spec (Z.of_nat n) (Z.of_nat (n + 1))) as [_|?]; [|lia].
    replace (Z.to_nat (Z.of_nat (n + 1) - Z.of_nat n)) with 1%nat by lia.
    rewrite <- drop_app_le by lia. rewrite drop_drop. f_equal. lia.
  - replace (length h - n)%nat with 0%nat by lia. replace (length h + 1 - n)%nat with 0%nat by lia. rewrite !drop_0.
    destruct (Z.ltb_spec (Z.max 1 (Z.of_nat n)) (Z.of_nat (length h - 0 + 1))); [lia|done].
Qed.

(** The monitor agrees with the histories. *)
Section Spec.
Context (max_mib leak_slope py_max_mib poll : float) (n : nat) (n_pos : (0 < n)%nat).
Definition start : MemoryMonitor := init true max_mib leak_slope py_max_mib (Z.of_nat n) poll.
Definition window_of (h : list MemorySample) : option (list MemorySample) := match h with [] => None | _ => Some (last_n n h) end.
Definition agrees (m : MemoryMonitor) (h : Z -> list MemorySample) : Prop :=
  (exists w, m = set_windows w start) /\ wf (_windows m) /\ forall pid, dget pid (_windows m) = window_of (h pid).

Lemma window_of_snoc h s : window_of (h ++ [s])%list = Some (last_n n (h ++ [s])%list).
Proof. unfold window_of. by destruct h. Qed.
Lemma default_window h : default [] (window_of h) = last_n n h.
Proof. by destruct h. Qed.

Lemma agrees_step m h o : agrees m h -> agrees (exec_op m o) (fun pid => next_history pid (h pid) o).
Proof using n_pos.
  intros ([w ->] & W & G). cbn [_windows set_windows] in *. destruct o as [status now p|[p|]]; cbn [exec_op next_history].
  - unfold record_pid. cbn [enabled start init set_windows negb _windows window]. destruct (Z.leb_spec (process_rss_bytes status) 0) as [L|L].
    + split; [by eexists|]. split; [done|]. intros q. cbn [_windows set_windows]. rewrite G.
      destruct (Z.ltb_spec 0 (process_rss_bytes status)); [lia|]. by rewrite andb_false_r.
    + split; [by eexists|]. cbn [_windows set_windows]. split; [by apply wf_set|]. intros q. rewrite dget_set.
      destruct (Z.ltb_spec 0 (process_rss_bytes status)); [|lia]. rewrite andb_true_r. unfold dget_default. rewrite G, default_window, push_last_n by done.
      destruct (Z.eqb_spec p q) as [->|Ne]; [by rewrite decide_True, window_of_snoc|]. by rewrite decide_False, G.
  - split; [by eexists|]. cbn [_windows set_windows clear]. split; [by apply wf_del|]. intros q.
    destruct (Z.eqb_spec p q) as [->|Ne]; [by apply dget_del_eq|]. by rewrite dget_del_ne.
  - split; [by eexists|]. split; [apply wf_nil|done].
Qed.

Lemma agrees_run ops : agrees (foldl exec_op start ops) (fun pid => history pid ops).
Proof using n_pos.
  unfold history. cut (forall m h, agrees m h -> agrees (foldl exec_op m ops) (fun pid => foldl (next_history pid) (h pid) ops)).
  - intros H. apply (H start (fun _ => [])). split; [by exists []|]. split; [apply wf_nil|done].
  - induction ops as [|o ops IH]; intros m h A; [done|]. cbn [foldl]. apply (IH _ _ (agrees_step m h o A)).
Qed.
End Spec.

Section Candidates.
Context (py_sum : list float -> float) (square : float -> float) (m : MemoryMonitor).
Notation cand := (candidate py_sum square m).

Lemma candidate_iff x pid : (exists reason, (pid, reason) ∈ cand x) <->
  pid = x.1 /\ exists s, last x.2 = Some s /\
    (flt (max_mib m) (rss_mib s) = true \/ flt (leak_slope m) (compute_leak_slope py_sum square x.2) = true).
Proof.
  unfold candidate. destruct (last x.2) as [s|]; [|set_solver].
  destruct (flt (max_mib m) _) eqn:A; [|cbn zeta; destruct (flt (leak_slope m) _) eqn:B].
  - split; [intros [r [= -> _]%list_elem_of_singleton]; eauto|]. intros [-> _]. eexists. by apply list_elem_of_singleton.
  - split; [intros [r [= -> _]%list_elem_of_singleton]; eauto|]. intros [-> _]. eexists. by apply list_elem_of_singleton.
  - split; [by intros [r ?%elem_of_nil]|]. intros (_ & s' & [= <-] & [H|H]); congruence.
Qed.
Lemma candidate_once x : NoDup (cand x).*1.
Proof. unfold candidate. destruct (last x.2); [|constructor]. cbn zeta. destruct (flt _ _); [|destruct (flt _ _)]; repeat constructor; set_solver. Qed.

Lemma candidates_iff w pid : (exists reason, (pid, reason) ∈ w ≫= cand) <-> exists l, (pid, l) ∈ w /\ exists reason, (pid, reason) ∈ cand (pid, l).
Proof.
  split.
  - intros (r & ([p l] & H & M)%list_elem_of_bind). assert (K : exists r, (pid, r) ∈ cand (p, l)) by eauto.
    apply candidate_iff in K as K'. destruct K' as [E _]. cbn [fst] in E. subst p. eauto.
  - intros (l & M & r & H). exists r. apply list_elem_of_bind. eauto.
Qed.
Lemma candidates_once w : NoDup w.*1 -> NoDup (w ≫= cand).*1.
Proof.
  induction w as [|[p l] w IH]; intros W; [constructor|]. cbn [mbind list_bind]. rewrite fmap_app. apply NoDup_cons in W as [N W].
  apply NoDup_app. split; [apply candidate_once|]. split; [|by apply IH].
  intros q (y & -> & Hy)%list_elem_of_fmap (z & E & Hz)%list_elem_of_fmap. destruct y as [q r], z as [q' r']. cbn [fst] in E. subst q'.
  assert (K : exists r, (q, r) ∈ cand (p, l)) by eauto. apply candidate_iff in K as [-> _].
  assert (K : exists r, (p, r) ∈ w ≫= cand) by eauto. apply candidates_iff in K as (l' & M & _). apply N, list_elem_of_fmap. by exists (p, l').
Qed.
End Candidates.


(** ** Concrete inputs *)

Definition status_ex (kb : string) : read :=
  Text ("Name:" +:+ String (Ascii.ascii_of_N 9) "nfqws2" +:+ nl +:+ "VmSize:  900000 kB" +:+ nl +:+ "VmRSS:  " +:+ kb +:+ " kB" +:+ nl).
Definition sum_ex (l : list float) : float := foldl fadd (f_of_Z 0) l.
Definition square_ex (x : float) : float := fmul x x.
(** One daemon that grows by 10 MiB in a second, one that is large, one that was cleared and one that went away. *)
Definition ops_ex : list op :=
  [Record_ (status_ex "102400") (f_of_Z 1) 7; Record_ (status_ex "600000") (f_of_Z 1) 8; Record_ (status_ex "700000") (f_of_Z 1) 9;
   Record_ (status_ex "112640") (f_of_Z 2) 7; Record_ Gone (f_of_Z 2) 8; Clear_ (Some 9%Z); Record_ (status_ex "122880") (f_of_Z 3) 7].
Definition monitor_ex : MemoryMonitor := foldl exec_op (start (f_of_Z 512) (f_of_Z 8) (f_of_Z 512) (f_of_Z 2) 2) ops_ex.

Example recycle_ex : recycle_candidates sum_ex square_ex monitor_ex
  = [(7, "leak=10.0MiB/s > 8.0MiB/s"); (8, "rss=586MiB > 512MiB")]
  /\ (summary monitor_ex).1.2 = [("7", 2%nat); ("8", 1%nat)]
  /\ process_vms_bytes (status_ex "1") = 921600000 /\ process_rss_bytes (Text "VmRSS: none") = 0.
Proof. by vm_compute. Qed.

(** With a window of 0, which the settings allow, every second sample empties the window: no slope is ever taken, and a
    process above the ceiling is seen at every other sample only. *)
Example zero_window_forgets :
  let s k := Sample (f_of_Z k) (k * 1024 * MIB) in
  push (s 1) 0 [] = [s 1] /\ push (s 2) 0 [s 1] = [].
Proof. by vm_compute. Qed.

