(* ===== verification/Gc.v ===== *)
(** * Retention: [engine/gc.py], the files, and [cli/commands/gc.py]

    What [bs gc] deletes of logs, summaries, exports and caches. The file system is a record of the questions the code
    asks it; a removal goes through two functions that may fail. The scans name candidates one after another, and
    [_add] sorts them into the two lists of the plan. *)

From stdpp Require Import base numbers list strings sets.
From Stdlib Require Import ZArith Ascii Lia Sorting.Sorted.
From S2P Require Import Prelude PyFloat PyStr PyJson.

#[local] Open Scope string_scope.
#[local] Set Default Proof Using "Type".

(** ** Names *)

(** [fnmatch] of a pattern whose only special character is the star. *)
Fixpoint glob_match (p : string) : string -> bool :=
  match p with
  | EmptyString => fun s => negb (nonempty s)
  | String c p =>
      if Ascii.eqb c "*"%char
      then fix star s := glob_match p s || match s with EmptyString => false | String _ s => star s end
      else fun s => match s with String d s => Ascii.eqb c d && glob_match p s | EmptyString => false end
  end.
Definition slash (dir name : string) : string := dir +:+ "/" +:+ name.
(** [path.name] *)
Definition last_part (path : string) : string := default EmptyString (last (split_char "/"%char path)).

Definition NFQWS2_LOG_KEEP : Z := 50.
Definition _PROTECTED_SUBSTR : list string := ["week_cov"].
Definition _TMP_DIR : string := "/tmp".
Definition _SHM_BLOCKCHECKS : string := "/dev/shm/blockchecks".
Definition _TMP_NFQWS2_GLOBS : list string := ["bs_nfq_*.conf"; "bs_hostlist_*"; "bs_nfqws2_*.conf"; "bs_discover_udp_*"].
Definition WAL_GLOBS : list string := ["*.db-wal"; "*.db-shm"; "*-wal"; "*-shm"].

(** ** What the code asks the file system; [None] is [OSError] *)

Record file_system : Type := FileSystem {
  scandir : string -> list string;       (* the names in a directory, none where there is no directory *)
  walk : string -> list string;          (* every path below a directory *)
  is_file : string -> bool;
  is_dir : string -> bool;
  exists_ : string -> bool;
  st_size : string -> option Z;
  st_mtime : string -> option float;
  resolve : string -> option string;
  clock : string -> float                (* the time when the age of a path is taken *)
}.
Record gc_dirs : Type := GcDirs {
  CACHE_DIR : string; DATA_DIR : string; DEFAULT_OUT_DIR : string; RUN_LOCK_FILE : string; RUNTIME_LOGS_DIR : string;
  STATE_DIR : string; PROJECT_DIR : string
}.

Record GcItem : Type := Item { path : string; bytes : Z; reason : string }.
Record GcPlan : Type := Plan { deletes : list GcItem; skipped : list GcItem }.
Definition total_bytes (plan : GcPlan) : Z := foldr Z.add 0%Z (map bytes (deletes plan)).

Section Scans.
Context (fs : file_system) (dirs : gc_dirs).

(** [directory.glob(pattern)] for a pattern of one level, and [directory.rglob(pattern)]. *)
Definition glob (dir pattern : string) : list string := map (slash dir) (filter (fun n => glob_match pattern n = true) (scandir fs dir)).
Definition rglob (dir pattern : string) : list string := filter (fun p => glob_match pattern (last_part p) = true) (walk fs dir).
Definition files_of (dir pattern : string) : list string := filter (fun p => is_file fs p = true) (glob dir pattern).

Fixpoint sizes (ps : list string) : option Z :=
  match ps with [] => Some 0%Z | p :: ps => a ← st_size fs p; b ← sizes ps; Some (a + b)%Z end.
Definition _sz (p : string) : Z :=
  if is_file fs p then default 0%Z (st_size fs p)
  else if is_dir fs p then default 0%Z (sizes (filter (fun q => is_file fs q = true) (walk fs p))) else 0%Z.

Definition _protected (p : string) : bool := existsb (fun tok => contains tok p) _PROTECTED_SUBSTR.
Definition _age_ok (p : string) (max_age_days : float) : bool :=
  if fle max_age_days (f_of_Z 0) then true
  else match st_mtime fs p with
       | Some mtime => fle (fmul max_age_days (f_of_Z 86400)) (fsub (clock fs p) mtime)
       | None => false
       end.

(** [sorted(files, key=mtime, reverse=True)], where a key may raise [OSError]. *)
Fixpoint with_keys (key : string -> option float) (ps : list string) : option (list (string * float)) :=
  match ps with [] => Some [] | p :: ps => k ← key p; l ← with_keys key ps; Some ((p, k) :: l) end.
Definition newer (a b : string * float) : bool := flt b.2 a.2.
Definition newest_first (key : string -> option float) (ps : list string) : option (list string) :=
  l ← with_keys key ps; Some (map fst (py_sorted newer l)).
Definition keep_of (keep : Z) : nat := Z.to_nat (Z.max 0 keep).

(** ** Pruning when a log is opened *)

(** The paths that are unlinked and those of them that are gone afterwards; [unlink] says whether that works. *)
Definition prune_nfqws2_debug_logs (unlink : string -> bool) (directory : string) (keep : Z) : list string * list string :=
  match newest_first (st_mtime fs) (files_of directory "nfqws2_*.log") with
  | None => ([], [])
  | Some files =>
      let tried := filter (fun p => _protected p = false) (drop (keep_of keep) files) in
      (tried, filter (fun p => unlink p = true) tried)
  end.

(** ** The scans: the calls of [add], in their order *)

Definition _has_live_run_lock : bool := is_file fs (RUN_LOCK_FILE dirs).

Definition old_files (max_age_days : float) (dir pattern why : string) : list (string * string) :=
  map (fun p => (p, why)) (filter (fun p => _age_ok p max_age_days = true) (files_of dir pattern)).
Definition _scan_tmp_nfqws2_artifacts (max_age_days : float) : list (string * string) :=
  if is_dir fs _TMP_DIR then pattern ← _TMP_NFQWS2_GLOBS; old_files max_age_days _TMP_DIR pattern "tmp_nfqws2_artifact" else [].
Definition _scan_shm_staging (max_age_days : float) (live_run : bool) : list (string * string) :=
  if live_run || negb (is_dir fs _SHM_BLOCKCHECKS) then []
  else map (fun p => (p, "shm_staging_age"))
         (filter (fun p => is_dir fs p && _age_ok p max_age_days = true) (rglob _SHM_BLOCKCHECKS ".staging.*")).
Definition _scan_jsonl_old (logs_dir : string) : list (string * string) :=
  if is_dir fs logs_dir then map (fun p => (p, "events_live_old")) (files_of logs_dir "*.jsonl.old") else [].
Definition wal_reason (p : string) : string := if endswith "-wal" (last_part p) then "sqlite_wal" else "sqlite_shm".
Definition _scan_sqlite_wal_shm (roots : list string) (max_age_days : float) : list (string * string) :=
  root ← roots;
  if is_dir fs root
  then pattern ← WAL_GLOBS; map (fun p => (p, wal_reason p)) (filter (fun p => _age_ok p max_age_days = true) (files_of root pattern))
  else [].

Definition log_key (p : string) : option float := if exists_ fs p then st_mtime fs p else Some (f_of_Z 0).
Definition harvest_root (root : string) : string := if String.eqb (last_part root) "harvest" then root else slash root "harvest".
Definition _scan_log_root (root : string) (max_age_days : float) (nfqws2_keep : Z) : outcome (list (string * string)) :=
  if negb (is_dir fs root) then Ret []
  else
    match newest_first log_key (files_of root "nfqws2_*.log") with
    | None => Raise
    | Some logs =>
        Ret (map (fun p => (p, "nfqws2_log_over_keep")) (drop (keep_of nfqws2_keep) logs)
             ++ old_files max_age_days root "run_summary_*.json" "run_summary_age"
             ++ (if is_dir fs (harvest_root root)
                 then map (fun p => (p, "harvest_dir_age"))
                        (filter (fun p => is_dir fs p && _age_ok p max_age_days = true) (glob (harvest_root root) "harvest_*"))
                 else [])
             ++ old_files max_age_days root "nfqws2_*_*.conf" "export_conf_age")%list
    end.
Fixpoint scan_log_roots (search : list string) (max_age_days : float) (nfqws2_keep : Z) : outcome (list (string * string)) :=
  match search with
  | [] => Ret []
  | root :: search =>
      a ← _scan_log_root root max_age_days nfqws2_keep; b ← scan_log_roots search max_age_days nfqws2_keep; Ret (a ++ b)%list
  end.
Definition zapret2_dl (max_age_days : float) : outcome (list (string * string)) :=
  let dl := slash (CACHE_DIR dirs) "zapret2-dl" in
  if negb (is_dir fs dl) then Ret []
  else match newest_first (st_mtime fs) (files_of dl "*.tar.gz") with
       | None => Raise
       | Some tars => Ret (map (fun p => (p, "zapret2_dl_old")) (filter (fun p => _age_ok p max_age_days = true) (drop 1 tars)))
       end.

(** ** The plan *)

(** [_add] with what it has seen; [force] is never given. *)
Definition _add (st : list string * GcPlan) (c : string * string) : list string * GcPlan :=
  let '(seen, plan) := st in
  match resolve fs c.1 with
  | None => st
  | Some resolved =>
      if bool_decide (resolved ∈ seen) then st
      else
        let seen := resolved :: seen in
        if negb (exists_ fs c.1) then (seen, plan)
        else
          let item := Item c.1 (_sz c.1) c.2 in
          if _protected c.1 then (seen, Plan (deletes plan) (skipped plan ++ [item])%list)
          else (seen, Plan (deletes plan ++ [item])%list (skipped plan))
  end.
Definition search_roots (roots : option (list string)) : list string :=
  default [RUNTIME_LOGS_DIR dirs; DEFAULT_OUT_DIR dirs; CACHE_DIR dirs; DATA_DIR dirs; slash (PROJECT_DIR dirs) "logs"] roots.
(** All the calls of [_add]. *)
Definition gc_candidates (max_age_days : float) (nfqws2_keep : Z) (roots : option (list string)) : outcome (list (string * string)) :=
  let search := search_roots roots in
  logs ← scan_log_roots search max_age_days nfqws2_keep;
  tars ← zapret2_dl max_age_days;
  Ret (logs ++ tars ++ old_files max_age_days (CACHE_DIR dirs) "bs_voice_cache_old_*" "voice_cache_old"
       ++ _scan_tmp_nfqws2_artifacts max_age_days ++ _scan_shm_staging max_age_days _has_live_run_lock
       ++ _scan_jsonl_old (RUNTIME_LOGS_DIR dirs)
       ++ _scan_sqlite_wal_shm (fromkeys (STATE_DIR dirs :: DATA_DIR dirs :: search)) max_age_days)%list.
Definition collect_gc (max_age_days : float) (nfqws2_keep : Z) (roots : option (list string)) : outcome GcPlan :=
  calls ← gc_candidates max_age_days nfqws2_keep roots; Ret (foldl _add ([], Plan [] []) calls).2.
End Scans.

(** ** Carrying the plan out *)

Section Apply.
(** The disk, whether a path is a directory on it, and the two removals: the disk after them, and whether they worked. *)
Context {Disk : Type} (on_disk_dir : Disk -> string -> bool) (rmtree unlink : string -> Disk -> Disk * bool).

Fixpoint remove_all (items : list GcItem) (disk : Disk) : Disk * Z :=
  match items with
  | [] => (disk, 0%Z)
  | item :: items =>
      let '(disk, ok) := (if on_disk_dir disk (path item) then rmtree else unlink) (path item) disk in
      let '(disk, n) := remove_all items disk in (disk, if ok then (1 + n)%Z else n)
  end.
Definition apply_gc (plan : GcPlan) (dry_run : bool) (disk : Disk) : Disk * Z :=
  if dry_run then (disk, 0%Z) else remove_all (deletes plan) disk.
End Apply.

(** ** Patterns *)

Definition snoc (s : string) (c : ascii) : string := s +:+ String c EmptyString.

Lemma glob_first c p s : Ascii.eqb c "*"%char = false -> glob_match (String c p) s = true -> exists t, s = String c t.
Proof. intros C. cbn [glob_match]. rewrite C. destruct s as [|d s]; [done|]. intros [->%Ascii.eqb_eq _]%andb_true_iff. by exists s. Qed.

Lemma glob_last p c s : Ascii.eqb c "*"%char = false -> glob_match (snoc p c) s = true -> exists u, s = snoc u c.
Proof.
  intros C. unfold snoc. revert s. induction p as [|d p IH]; intros s; rewrite ?append_nil_l, ?append_cons; cbn [glob_match].
  - rewrite C. destruct s as [|e s]; [done|]. intros [->%Ascii.eqb_eq H]%andb_true_iff. exists EmptyString. by destruct s.
  - destruct (Ascii.eqb d "*"%char).
    + induction s as [|e s IHs]; intros H; apply orb_true_iff in H as [H|H]; try done; [by apply IH..|].
      destruct (IHs H) as [u ->]. by exists (String e u).
    + destruct s as [|e s]; [done|]. intros [_ H]%andb_true_iff. destruct (IH s H) as [u ->]. by exists (String e u).
Qed.

Lemma snoc_char u v a b : snoc u a = snoc v b -> a = b.
Proof.
  unfold snoc. revert v. induction u as [|c u IH]; intros [|d v] H; rewrite ?append_nil_l, ?append_cons in H; injection H; intros; subst; try done.
  - by destruct v.
  - by destruct u.
  - by apply (IH v).
Qed.

(** Two patterns with another first or another last character match no common name. *)
Lemma globs_apart_first c d p q s : Ascii.eqb c "*"%char = false -> Ascii.eqb d "*"%char = false -> c <> d ->
  glob_match (String c p) s = true -> glob_match (String d q) s = true -> False.
Proof. intros C D N H K. destruct (glob_first _ _ _ C H) as [t ->], (glob_first _ _ _ D K) as [u E]. by injection E. Qed.
Lemma globs_apart_last c d p q s : Ascii.eqb c "*"%char = false -> Ascii.eqb d "*"%char = false -> c <> d ->
  glob_match (snoc p c) s = true -> glob_match (snoc q d) s = true -> False.
Proof. intros C D N H K. destruct (glob_last _ _ _ C H) as [t ->], (glob_last _ _ _ D K) as [u E]. by apply N, (snoc_char t u). Qed.

Definition LOG_GLOB : string := "nfqws2_*.log".
(** All the other patterns of the collection. *)
Definition OTHER_GLOBS : list string :=
  ["run_summary_*.json"; "harvest_*"; "nfqws2_*_*.conf"; "*.tar.gz"; "bs_voice_cache_old_*"; ".staging.*"; "*.jsonl.old"]
  ++ _TMP_NFQWS2_GLOBS ++ WAL_GLOBS.
Lemma other_globs n pattern : glob_match LOG_GLOB n = true -> pattern ∈ OTHER_GLOBS -> glob_match pattern n = true -> False.
Proof.
  intros L P. assert (F : Forall (fun pattern =>
    (exists c p, pattern = String c p /\ Ascii.eqb c "*"%char = false /\ c <> "n"%char)
    \/ (exists c p, pattern = snoc p c /\ Ascii.eqb c "*"%char = false /\ c <> "g"%char)) OTHER_GLOBS).
  { unfold OTHER_GLOBS, _TMP_NFQWS2_GLOBS, WAL_GLOBS. cbn [app].
    repeat (apply Forall_cons; split; [first [left; eexists _, _; split; [reflexivity|by split]
      | right; match goal with |- exists c p, ?s = _ /\ _ =>
          exists (default "*"%char (String.get (pred (String.length s)) s)), (String.substring 0 (pred (String.length s)) s) end; by split_and!]|]).
    by apply Forall_nil. }
  rewrite Forall_forall in F. destruct (F _ P) as [(c & p & -> & C & N)|(c & p & -> & C & N)]; intros H.
  - by apply (globs_apart_first c "n"%char p "fqws2_*.log" n).
  - by apply (globs_apart_last c "g"%char p "nfqws2_*.lo" n).
Qed.

Lemma tmp_other pattern : pattern ∈ _TMP_NFQWS2_GLOBS -> pattern ∈ OTHER_GLOBS.
Proof. intros H. unfold OTHER_GLOBS. rewrite !elem_of_app. tauto. Qed.
Lemma wal_other pattern : pattern ∈ WAL_GLOBS -> pattern ∈ OTHER_GLOBS.
Proof. intros H. unfold OTHER_GLOBS. rewrite !elem_of_app. tauto. Qed.

(** ** Sorting by age *)

Lemma flt_asym a b : flt a b = true -> flt b a = false.
Proof.
  intros H. destruct (flt_not_nan _ _ H) as [Na Nb]. apply flt_key in H; [|done..].
  destruct (flt b a) eqn:E; [|done]. apply flt_key in E; [|done..]. unfold key_lt in *. lia.
Qed.
Lemma flt_neg_trans a b c : is_nan a = false -> is_nan b = false -> is_nan c = false ->
  flt b a = false -> flt c b = false -> flt c a = false.
Proof.
  intros A B C H K. destruct (flt c a) eqn:E; [|done]. apply flt_key in E; [|done..].
  assert (H' : ~ key_lt (fkey b) (fkey a)) by (intros X; apply flt_key in X; [congruence|done..]).
  assert (K' : ~ key_lt (fkey c) (fkey b)) by (intros X; apply flt_key in X; [congruence|done..]).
  unfold key_lt in *. destruct (fkey a) as [[? ?] ?], (fkey b) as [[? ?] ?], (fkey c) as [[? ?] ?]. cbn in *. lia.
Qed.

Definition no_older (a b : string * float) : Prop := newer b a = false.
Lemma insert_newer x l : is_nan x.2 = false -> Forall (fun y => is_nan y.2 = false) l ->
  StronglySorted no_older l -> StronglySorted no_older (insert_stable newer x l).
Proof.
  intros X F S. induction S as [|y l S IH H]; cbn [insert_stable]; [by repeat constructor|].
  apply Forall_cons in F as [Y F]. destruct (newer y x) eqn:E.
  - constructor; [by apply IH|]. rewrite insert_stable_perm. constructor; [|done]. by apply flt_asym.
  - constructor; [by constructor|]. constructor; [done|]. rewrite Forall_forall in *. intros z Hz.
    unfold no_older, newer in *. apply (flt_neg_trans z.2 y.2 x.2); [by apply F|done..|by apply H|done].
Qed.
Lemma sorted_newest l : Forall (fun y => is_nan y.2 = false) l -> StronglySorted no_older (py_sorted newer l).
Proof.
  induction l as [|x l IH]; intros F; [constructor|]. apply Forall_cons in F as [X F]. cbn [py_sorted].
  apply insert_newer; [done|by rewrite py_sorted_perm|by apply IH].
Qed.

Lemma with_keys_spec key ps l : with_keys key ps = Some l -> map fst l = ps /\ Forall (fun y => key y.1 = Some y.2) l.
Proof.
  revert l. induction ps as [|p ps IH]; intros l H; cbn [with_keys] in H; [by injection H as <-|].
  destruct (key p) as [k|] eqn:K; [|done]. cbn [mbind option_bind] in H. destruct (with_keys key ps) as [l'|]; [|done].
  injection H as <-. destruct (IH _ eq_refl) as [<- F]. split; [done|by constructor].
Qed.

Lemma in_take {A} n (l : list A) x : x ∈ take n l -> x ∈ l.
Proof. intros H. rewrite <- (take_drop n l). apply elem_of_app. by left. Qed.
Lemma in_drop {A} n (l : list A) x : x ∈ drop n l -> x ∈ l.
Proof. intros H. rewrite <- (take_drop n l). apply elem_of_app. by right. Qed.
Lemma sorted_split {A} (R : A -> A -> Prop) n l a b : StronglySorted R l -> a ∈ take n l -> b ∈ drop n l -> R a b.
Proof.
  intros S. revert n. induction S as [|x l S IH H]; intros n; [by rewrite take_nil; intros ?%elem_of_nil|].
  destruct n as [|n]; cbn [take drop]; [by intros ?%elem_of_nil|]. intros [->|Ha]%elem_of_cons Hb; [|by apply (IH n)].
  rewrite Forall_forall in H. apply H. rewrite <- (take_drop n l). apply elem_of_app. by right.
Qed.

(** The newest files: a permutation, and what stays in front is no older than what comes after it. *)
Lemma newest_first_spec key ps l n : (forall p k, key p = Some k -> is_nan k = false) -> newest_first key ps = Some l ->
  l ≡ₚ ps /\ forall p q kp kq, p ∈ take n l -> q ∈ drop n l -> key p = Some kp -> key q = Some kq -> flt kp kq = false.
Proof.
  intros N H. unfold newest_first in H. destruct (with_keys key ps) as [l'|] eqn:W; [|done]. injection H as <-.
  destruct (with_keys_spec _ _ _ W) as [<- F]. split; [by apply fmap_Permutation, py_sorted_perm|]. intros p q kp kq Hp Hq Kp Kq.
  change (map fst (py_sorted newer l')) with (fst <$> py_sorted newer l') in *. rewrite <- fmap_take in Hp. rewrite <- fmap_drop in Hq.
  apply list_elem_of_fmap in Hp as (x & -> & Hx), Hq as (y & -> & Hy).
  assert (S : StronglySorted no_older (py_sorted newer l')).
  { apply sorted_newest. eapply Forall_impl; [exact F|]. intros z. apply N. }
  rewrite Forall_forall in F. assert (M : forall z, z ∈ py_sorted newer l' -> key z.1 = Some z.2) by (intros z ?%elem_of_py_sorted; by apply F).
  assert (R : no_older x y) by (by apply (sorted_split _ n (py_sorted newer l'))).
  rewrite (M x (in_take _ _ _ Hx)) in Kp. rewrite (M y (in_drop _ _ _ Hy)) in Kq. by simplify_eq.
Qed.

(** ** Paths *)

Definition no_slash (n : string) : Prop := sforall (fun c => negb (Ascii.eqb c "/"%char)) n = true.
Lemma split_slash d n : no_slash n -> split_char "/"%char (slash d n) = (split_char "/"%char d ++ [n])%list.
Proof. apply split_char_snoc. Qed.
Lemma last_part_slash d n : no_slash n -> last_part (slash d n) = n.
Proof. intros N. unfold last_part. by rewrite split_slash, last_snoc. Qed.
Lemma slash_inj d n d' n' : no_slash n -> no_slash n' -> slash d n = slash d' n' -> d = d' /\ n = n'.
Proof.
  intros N N' E. apply (f_equal (split_char "/"%char)) in E. rewrite !split_slash in E by done.
  apply app_inj_tail in E as [E ->]. split; [|done].
  by rewrite <- (split_char_join "/"%char d), E, split_char_join.
Qed.

(** ** What the plan holds *)

Section Collected.
Context (fs : file_system) (dirs : gc_dirs).

Definition items (plan : GcPlan) : list GcItem := (deletes plan ++ skipped plan)%list.
Definition resolved (it : GcItem) : option string := resolve fs (path it).

(** The state of [_add] after some calls. *)
Record plan_ok (calls : list (string * string)) (st : list string * GcPlan) : Prop := {
  ok_call : forall it, it ∈ items st.2 -> (path it, reason it) ∈ calls /\ exists_ fs (path it) = true /\ bytes it = _sz fs (path it);
  ok_deletes : forall it, it ∈ deletes st.2 -> _protected (path it) = false;
  ok_skipped : forall it, it ∈ skipped st.2 -> _protected (path it) = true;
  ok_once : NoDup (map resolved (items st.2));
  ok_seen : forall it, it ∈ items st.2 -> exists r, resolved it = Some r /\ r ∈ st.1;
  ok_all : forall p why r, (p, why) ∈ calls -> resolve fs p = Some r -> r ∈ st.1;
  ok_why : forall r, r ∈ st.1 -> exists p, resolve fs p = Some r /\ (exists_ fs p = true -> exists it, it ∈ items st.2 /\ resolved it = Some r)
}.

Lemma items_skip plan it x : x ∈ items (Plan (deletes plan) (skipped plan ++ [it])) <-> x = it \/ x ∈ items plan.
Proof. unfold items. cbn. set_solver. Qed.
Lemma items_delete plan it x : x ∈ items (Plan (deletes plan ++ [it]) (skipped plan)) <-> x = it \/ x ∈ items plan.
Proof. unfold items. cbn. set_solver. Qed.

Lemma plan_ok_start : plan_ok [] ([], Plan [] []).
Proof. split; cbn; try (intros *; by intros ?%elem_of_nil). constructor. Qed.

(** A path that was not seen before, and one that was or that is not there. *)
Lemma plan_ok_skip calls c seen plan : plan_ok calls (seen, plan) ->
  (forall r, resolve fs c.1 = Some r -> r ∈ seen) -> plan_ok (calls ++ [c]) (seen, plan).
Proof.
  intros [C D S O Se A W] H. split; try done; cbn [fst snd] in *.
  - intros it Hit. destruct (C it Hit) as (? & ? & ?). split; [set_solver|done].
  - intros p why r [Hc|Hc%list_elem_of_singleton]%elem_of_app; [by apply (A p why)|subst c; by apply (H r)].
Qed.
Lemma plan_ok_gone calls c seen plan r : plan_ok calls (seen, plan) -> resolve fs c.1 = Some r -> exists_ fs c.1 = false ->
  plan_ok (calls ++ [c]) (r :: seen, plan).
Proof.
  intros [C D S O Se A W] R E. split; try done; cbn [fst snd] in *.
  - intros it Hit. destruct (C it Hit) as (? & ? & ?). split; [set_solver|done].
  - intros it Hit. destruct (Se it Hit) as (r' & ? & ?). exists r'. set_solver.
  - intros p why r' [Hc|Hc%list_elem_of_singleton]%elem_of_app Hr; [right; by apply (A p why)|]. subst c. cbn in R. assert (r' = r) as -> by congruence. by left.
  - intros r' [->|Hr]%elem_of_cons; [|by apply W]. exists c.1. split; [done|]. congruence.
Qed.
Lemma plan_ok_new calls c seen plan plan' it r : plan_ok calls (seen, plan) -> resolve fs c.1 = Some r -> r ∉ seen ->
  exists_ fs c.1 = true -> it = Item c.1 (_sz fs c.1) c.2 ->
  plan' = (if _protected c.1 then Plan (deletes plan) (skipped plan ++ [it])%list else Plan (deletes plan ++ [it])%list (skipped plan)) ->
  plan_ok (calls ++ [c]) (r :: seen, plan').
Proof.
  intros [C D S O Se A W] R N E I P. cbn [fst snd] in *.
  assert (M : forall x, x ∈ items plan' <-> x = it \/ x ∈ items plan).
  { intros x. subst plan'. destruct (_protected c.1); [apply items_skip|apply items_delete]. }
  assert (Perm : items plan' ≡ₚ it :: items plan).
  { subst plan'. unfold items. destruct (_protected c.1); cbn [deletes skipped]; solve_Permutation. }
  split; cbn [fst snd].
  - intros x [->|Hx]%M; [subst it; cbn; split; [destruct c; set_solver|done]|]. destruct (C x Hx) as (? & ?). split; [set_solver|done].
  - intros x. subst plan'. destruct (_protected c.1) eqn:K; cbn [deletes]; [apply D|].
    intros [?|Hx%list_elem_of_singleton]%elem_of_app; [by apply D|by subst x it].
  - intros x. subst plan'. destruct (_protected c.1) eqn:K; cbn [skipped]; [|apply S].
    intros [?|Hx%list_elem_of_singleton]%elem_of_app; [by apply S|by subst x it].
  - change (NoDup (resolved <$> items plan')). rewrite Perm. cbn. apply NoDup_cons. split; [|exact O].
    intros (y & Hy & Hin)%list_elem_of_fmap. destruct (Se y Hin) as (r' & Hr & Hs). apply N. subst it. unfold resolved in *. cbn in Hy. congruence.
  - intros x [->|Hx]%M; [exists r; subst it; split; [done|by left]|]. destruct (Se x Hx) as (r' & ? & ?). exists r'. split; [done|by right].
  - intros p why r' [Hc|Hc%list_elem_of_singleton]%elem_of_app Hr; [right; by apply (A p why)|]. subst c. cbn in R. assert (r' = r) as -> by congruence. by left.
  - intros r' [->|Hr]%elem_of_cons.
    + exists c.1. split; [done|]. intros _. exists it. split; [apply M; by left|by subst it].
    + destruct (W r' Hr) as (p & ? & K). exists p. split; [done|]. intros Ex. destruct (K Ex) as (x & ? & ?). exists x. split; [apply M; by right|done].
Qed.

Lemma plan_ok_add calls c st : plan_ok calls st -> plan_ok (calls ++ [c]) (_add fs st c).
Proof.
  destruct st as [seen plan]. intros H. unfold _add. destruct (resolve fs c.1) as [r|] eqn:R; [|apply plan_ok_skip; [done|by rewrite R]].
  case_bool_decide as K; [apply plan_ok_skip; [done|rewrite R; by intros ? [= <-]]|]. cbn zeta.
  destruct (exists_ fs c.1) eqn:E; cbn [negb]; [|by apply plan_ok_gone].
  destruct (_protected c.1) eqn:Pr; (eapply plan_ok_new; [exact H|exact R|exact K|exact E|reflexivity|by rewrite Pr]).
Qed.

Lemma plan_ok_all calls : plan_ok calls (foldl (_add fs) ([], Plan [] []) calls).
Proof.
  cut (forall before st, plan_ok before st -> plan_ok (before ++ calls) (foldl (_add fs) st calls)).
  - intros H. apply (H [] _ plan_ok_start).
  - induction calls as [|c calls IH]; intros before st H; [by rewrite app_nil_r|].
    cbn [foldl]. rewrite cons_middle, app_assoc. by apply IH, plan_ok_add.
Qed.
End Collected.

(** ** Which paths may be called *)

Section Rules.
Context (fs : file_system) (dirs : gc_dirs) (mad : float) (keep : Z) (search : list string).
(** A directory lists each name once, and no name has a slash; a time is a number. *)
Context (names_once : forall d, NoDup (scandir fs d)) (names : forall d n, n ∈ scandir fs d -> no_slash n).
Context (times : forall p k, st_mtime fs p = Some k -> is_nan k = false).

Definition logs_of (root : string) : list string := files_of fs root LOG_GLOB.

(** What may be deleted: something old enough, a rotated event file, or a log beyond the newest ones of its root. *)
Inductive expendable (p : string) : Prop :=
  | Old : _age_ok fs p mad = true -> (exists pattern, pattern ∈ OTHER_GLOBS /\ glob_match pattern (last_part p) = true) -> expendable p
  | Rotated : p ∈ files_of fs (RUNTIME_LOGS_DIR dirs) "*.jsonl.old" -> expendable p
  | Surplus root logs : root ∈ search -> is_dir fs root = true -> newest_first (log_key fs) (logs_of root) = Some logs ->
      p ∈ drop (keep_of keep) logs -> expendable p.

Lemma glob_name dir pattern p : p ∈ glob fs dir pattern ->
  exists n, p = slash dir n /\ n ∈ scandir fs dir /\ last_part p = n /\ glob_match pattern n = true.
Proof using names.
  intros (n & -> & Hn)%list_elem_of_fmap. apply list_elem_of_filter in Hn as [G Hn]. exists n. split; [done|]. split; [done|].
  split; [|done]. by apply last_part_slash, (names dir).
Qed.
Lemma files_name dir pattern p : p ∈ files_of fs dir pattern -> is_file fs p = true /\ glob_match pattern (last_part p) = true.
Proof using names. intros [F H]%list_elem_of_filter. apply glob_name in H as (n & _ & _ & -> & G). done. Qed.

Lemma old_rule dir pattern why p w : pattern ∈ OTHER_GLOBS -> (p, w) ∈ old_files fs mad dir pattern why -> expendable p.
Proof using names.
  intros P (q & [= -> ->] & H)%list_elem_of_fmap. apply list_elem_of_filter in H as [A H]. apply files_name in H as [_ G].
  apply Old; [done|]. by exists pattern.
Qed.

Ltac other := clear; unfold OTHER_GLOBS; set_solver.

Lemma log_root_rule root calls p w : root ∈ search -> _scan_log_root fs root mad keep = Ret calls -> (p, w) ∈ calls -> expendable p.
Proof using names.
  intros R H. unfold _scan_log_root in H. destruct (is_dir fs root) eqn:D; cbn [negb] in H; [|injection H as <-; by intros ?%elem_of_nil].
  destruct (newest_first (log_key fs) (files_of fs root "nfqws2_*.log")) as [logs|] eqn:N; [|done]. injection H as <-.
  intros [H|[H|[H|H]%elem_of_app]%elem_of_app]%elem_of_app.
  - apply list_elem_of_fmap in H as (q & [= -> ->] & H). by apply (Surplus _ root logs).
  - eapply old_rule, H. other.
  - destruct (is_dir fs (harvest_root root)); [|by apply elem_of_nil in H]. apply list_elem_of_fmap in H as (q & [= -> ->] & H).
    apply list_elem_of_filter in H as [[_ A]%andb_true_iff H]. apply glob_name in H as (n & _ & _ & <- & G).
    apply Old; [done|]. exists "harvest_*". split; [other|done].
  - eapply old_rule, H. other.
Qed.
Lemma log_roots_rule roots calls p w : roots ⊆ search -> scan_log_roots fs roots mad keep = Ret calls -> (p, w) ∈ calls -> expendable p.
Proof using names.
  revert calls. induction roots as [|root roots IH]; intros calls S H; cbn [scan_log_roots] in H; [injection H as <-; by intros ?%elem_of_nil|].
  destruct (_scan_log_root fs root mad keep) as [a| |] eqn:A; [|done..]. cbn [mbind outcome_bind] in H.
  destruct (scan_log_roots fs roots mad keep) as [b| |] eqn:B; [|done..]. injection H as <-.
  intros [Hc|Hc]%elem_of_app; [by apply (log_root_rule root a p w); [apply S; left|..]|apply (IH b); [intros x Hx; apply S; by right|done..]].
Qed.
Lemma dl_rule calls p w : zapret2_dl fs dirs mad = Ret calls -> (p, w) ∈ calls -> expendable p.
Proof using names.
  unfold zapret2_dl. destruct (negb _); [intros [= <-]; by intros ?%elem_of_nil|].
  destruct (newest_first _ _) as [tars|] eqn:N; [|done]. intros [= <-] (q & [= -> ->] & H)%list_elem_of_fmap.
  apply list_elem_of_filter in H as [A H]. apply in_drop in H. unfold newest_first in N.
  destruct (with_keys _ _) as [l|] eqn:W; [|done]. injection N as <-. apply list_elem_of_fmap in H as (x & -> & Hx%elem_of_py_sorted).
  destruct (with_keys_spec _ _ _ W) as [E _]. assert (Hf : x.1 ∈ files_of fs (slash (CACHE_DIR dirs) "zapret2-dl") "*.tar.gz").
  { rewrite <- E. by apply (list_elem_of_fmap_2 fst). }
  apply files_name in Hf as [_ G]. apply Old; [done|]. exists "*.tar.gz". split; [other|done].
Qed.
Lemma wal_rule roots p w : (p, w) ∈ _scan_sqlite_wal_shm fs roots mad -> expendable p.
Proof using names.
  intros (root & H & _)%list_elem_of_bind. destruct (is_dir fs root); [|by apply elem_of_nil in H].
  apply list_elem_of_bind in H as (pattern & H & P). apply list_elem_of_fmap in H as (q & [= -> ->] & H).
  apply list_elem_of_filter in H as [A H]. apply files_name in H as [_ G]. apply Old; [done|]. exists pattern. split; [by apply wal_other|done].
Qed.

Lemma Ret_inj {A} (a b : A) : Ret a = Ret b -> a = b.
Proof. by intros [= ->]. Qed.
Lemma candidates_rule roots calls p w : search = search_roots dirs roots -> gc_candidates fs dirs mad keep roots = Ret calls ->
  (p, w) ∈ calls -> expendable p.
Proof using names.
  intros S H. unfold gc_candidates in H. cbn zeta in H. rewrite <- S in H.
  destruct (scan_log_roots fs search mad keep) as [a| |] eqn:A; [|done..]. cbn [mbind outcome_bind] in H.
  destruct (zapret2_dl fs dirs mad) as [b| |] eqn:B; [|done..]. apply Ret_inj in H as <-.
  remember (_scan_sqlite_wal_shm fs _ mad) as wal eqn:Wal. rewrite !elem_of_app. intros [H|[H|[H|[H|[H|[H|H]]]]]].
  - by eapply (log_roots_rule search a).
  - by eapply (dl_rule b).
  - eapply old_rule, H. other.
  - unfold _scan_tmp_nfqws2_artifacts in H. destruct (is_dir fs _TMP_DIR); [|by apply elem_of_nil in H].
    apply list_elem_of_bind in H as (pattern & H & P). eapply old_rule, H. by apply tmp_other.
  - unfold _scan_shm_staging in H. destruct (_ || _); [by apply elem_of_nil in H|]. apply list_elem_of_fmap in H as (q & [= -> ->] & H).
    apply list_elem_of_filter in H as [[_ Ag]%andb_true_iff H]. apply list_elem_of_filter in H as [G _].
    apply Old; [done|]. exists ".staging.*". split; [other|done].
  - unfold _scan_jsonl_old in H. destruct (is_dir fs _); [|by apply elem_of_nil in H]. apply list_elem_of_fmap in H as (q & [= -> ->] & H). by apply Rotated.
  - subst wal. eapply wal_rule, H.
Qed.

(** The newest logs of a root are not expendable. *)
Lemma logs_nodup root : NoDup (logs_of root).
Proof using names_once names.
  apply NoDup_filter, NoDup_fmap_2_strong; [|by apply NoDup_filter].
  intros x y [_ Hx]%list_elem_of_filter [_ Hy]%list_elem_of_filter E. apply slash_inj in E as [_ E]; [done|by apply (names root)..].
Qed.
Lemma newest_stay root logs p : newest_first (log_key fs) (logs_of root) = Some logs -> p ∈ take (keep_of keep) logs -> ~ expendable p.
Proof using names_once names times.
  intros N Hp E. assert (K : forall q k, log_key fs q = Some k -> is_nan k = false).
  { intros q k. unfold log_key. destruct (exists_ fs q); [apply times|by intros [= <-]]. }
  destruct (newest_first_spec _ _ _ 0 K N) as [Perm _]. assert (Hl : p ∈ logs_of root) by (rewrite <- Perm; by apply in_take in Hp).
  destruct (files_name _ _ _ Hl) as [_ G]. destruct E as [_ (pattern & P & M)|R|root' logs' R D N' Hd].
  - by apply (other_globs (last_part p) pattern).
  - apply files_name in R as [_ M]. by apply (other_globs (last_part p) "*.jsonl.old"); [|other|].
  - destruct (newest_first_spec _ _ _ 0 K N') as [Perm' _]. assert (Hl' : p ∈ logs_of root') by (rewrite <- Perm'; by apply in_drop in Hd).
    apply list_elem_of_filter in Hl as [_ (n & -> & Hn & _)%glob_name], Hl' as [_ (n' & E & Hn' & _)%glob_name].
    apply slash_inj in E as [<- <-]; [|by eapply names..]. rewrite N in N'. injection N' as <-.
    assert (ND : NoDup logs) by (rewrite Perm; apply logs_nodup). rewrite <- (take_drop (keep_of keep) logs) in ND.
    apply NoDup_app in ND as (_ & ND & _). by apply (ND _ Hp).
Qed.
End Rules.

Lemma scanned_root fs roots mad keep calls root : scan_log_roots fs roots mad keep = Ret calls -> root ∈ roots -> is_dir fs root = true ->
  exists logs, newest_first (log_key fs) (logs_of fs root) = Some logs.
Proof.
  intros H Hr D. revert calls H. induction roots as [|r roots IH]; intros calls H; [by apply elem_of_nil in Hr|]. cbn [scan_log_roots] in H.
  destruct (_scan_log_root fs r mad keep) as [a| |] eqn:A; [|done..]. cbn [mbind outcome_bind] in H.
  destruct (scan_log_roots fs roots mad keep) as [b| |] eqn:B; [|done..]. apply elem_of_cons in Hr as [->|Hr]; [|by apply (IH Hr b)].
  unfold _scan_log_root in A. rewrite D in A. cbn [negb] in A. unfold logs_of, LOG_GLOB.
  destruct (newest_first _ _) as [logs|]; [by exists logs|done].
Qed.

Lemma newest_core fs dirs mad keep roots calls root
    (names_once : forall d, NoDup (scandir fs d)) (names : forall d n, n ∈ scandir fs d -> no_slash n)
    (times : forall p k, st_mtime fs p = Some k -> is_nan k = false) :
  gc_candidates fs dirs mad keep roots = Ret calls -> root ∈ search_roots dirs roots -> is_dir fs root = true ->
  exists kept, NoDup kept /\ kept ⊆ logs_of fs root /\ length kept = Nat.min (keep_of keep) (length (logs_of fs root))
    /\ (forall p q kp kq, p ∈ kept -> q ∈ logs_of fs root -> q ∉ kept -> log_key fs p = Some kp -> log_key fs q = Some kq -> flt kp kq = false)
    /\ forall p, p ∈ kept -> ~ expendable fs dirs mad keep (search_roots dirs roots) p.
Proof.
  intros C R D. unfold gc_candidates in C. cbn zeta in C.
  destruct (scan_log_roots fs (search_roots dirs roots) mad keep) as [a| |] eqn:A; [|done..].
  destruct (scanned_root _ _ _ _ _ _ A R D) as [logs N].
  assert (K : forall q k, log_key fs q = Some k -> is_nan k = false).
  { intros q k. unfold log_key. destruct (exists_ fs q); [apply times|by intros [= <-]]. }
  destruct (newest_first_spec _ _ _ (keep_of keep) K N) as [Perm O].
  assert (ND : NoDup logs) by (rewrite Perm; by apply logs_nodup).
  exists (take (keep_of keep) logs). split; [rewrite <- (take_drop (keep_of keep) logs) in ND; by apply NoDup_app in ND as (? & _)|].
  split; [intros p Hp; rewrite <- Perm; by apply in_take in Hp|]. split; [by rewrite length_take, Perm|]. split.
  - intros p q kp kq Hp Hq Nq. apply O; [done|]. rewrite <- Perm, <- (take_drop (keep_of keep) logs) in Hq. by apply elem_of_app in Hq as [?|?].
  - intros p Hp. by apply (newest_stay fs dirs mad keep _ names_once names times root logs).
Qed.


(** A dry run leaves the disk alone; otherwise the planned paths are removed, and no others. *)
Lemma remove_all_spec {Disk} (on_disk_dir : Disk -> string -> bool) rmtree unlink l (P : Disk -> Prop) :
  (forall it d, it ∈ l -> P d -> P (rmtree (path it) d).1 /\ P (unlink (path it) d).1) ->
  forall disk, P disk -> P (remove_all on_disk_dir rmtree unlink l disk).1 /\ (0 <= (remove_all on_disk_dir rmtree unlink l disk).2 <= Z.of_nat (length l))%Z.
Proof.
  intros H. induction l as [|it l IH]; intros disk Pd; [by cbn; split; [|lia]|]. cbn [remove_all].
  destruct (H it disk) as [Pr Pu]; [by left|done|].
  assert (P1 : P ((if on_disk_dir disk (path it) then rmtree else unlink) (path it) disk).1) by (by destruct (on_disk_dir disk (path it))).
  destruct ((if on_disk_dir disk (path it) then rmtree else unlink) (path it) disk) as [d ok]. cbn [fst] in P1.
  destruct (IH (fun it' d' Hi => H it' d' (list_elem_of_further it' it l Hi)) d P1) as [P2 B].
  destruct (remove_all on_disk_dir rmtree unlink l d) as [d' n]. cbn [fst snd length] in *. split; [done|]. destruct ok; lia.
Qed.
Lemma apply_gc_dry {Disk} (on_disk_dir : Disk -> string -> bool) rmtree unlink plan disk :
  apply_gc on_disk_dir rmtree unlink plan true disk = (disk, 0%Z).
Proof. done. Qed.

(** ** A concrete disk *)

(** Directory, name, whether it is a directory, and the modification time in days; the clock shows day 100. *)
Definition entry : Type := string * string * bool * Z.
Definition full (e : entry) : string := slash e.1.1.1 e.1.1.2.
Definition days (d : Z) : float := f_of_Z (86400 * d).
Definition find_entry (es : list entry) (p : string) : option entry := list_find (fun e => full e = p) es ≫= fun x => Some x.2.
Definition fs_of (es : list entry) : file_system := {|
  scandir := fun d => map (fun e => e.1.1.2) (filter (fun e => e.1.1.1 = d) es);
  walk := fun d => filter (fun p => startswith (d +:+ "/") p = true) (map full es);
  is_file := fun p => match find_entry es p with Some e => negb e.1.2 | None => false end;
  is_dir := fun p => match find_entry es p with Some e => e.1.2 | None => false end;
  exists_ := fun p => match find_entry es p with Some _ => true | None => false end;
  st_size := fun p => match find_entry es p with Some _ => Some 10%Z | None => None end;
  st_mtime := fun p => match find_entry es p with Some e => Some (days e.2) | None => None end;
  resolve := Some;
  clock := fun _ => days 100
|}.
Definition dirs_ex : gc_dirs :=
  {| CACHE_DIR := "/c"; DATA_DIR := "/d"; DEFAULT_OUT_DIR := "/o"; RUN_LOCK_FILE := "/s/run.lock"; RUNTIME_LOGS_DIR := "/l";
     STATE_DIR := "/s"; PROJECT_DIR := "/p" |}.
Definition es_ex : list entry :=
  [("", "l", true, 99); ("/l", "nfqws2_1.log", false, 99); ("/l", "nfqws2_3.log", false, 10); ("/l", "nfqws2_2.log", false, 98);
   ("/l", "nfqws2_week_cov.log", false, 1); ("/l", "run_summary_1.json", false, 50); ("/l", "run_summary_2.json", false, 95);
   ("/l", "live.jsonl.old", false, 100); ("/l", "harvest", true, 99); ("/l/harvest", "harvest_old", true, 20);
   ("/l/harvest/harvest_old", "week_cov_batch.txt", false, 20); ("", "s", true, 99); ("/s", "run.lock", false, 100);
   ("/s", "state.db-wal", false, 100); ("/s", "state.db", false, 100)]%Z.
Definition plan_of (mad : Z) : list (string * string) * list string :=
  match collect_gc (fs_of es_ex) dirs_ex (f_of_Z mad) 1 None with
  | Ret plan => (map (fun i => (path i, reason i)) (deletes plan), map path (skipped plan))
  | _ => ([], [])
  end.

Example collect_ex : plan_of 14
  = ([("/l/nfqws2_2.log", "nfqws2_log_over_keep"); ("/l/nfqws2_3.log", "nfqws2_log_over_keep"); ("/l/run_summary_1.json", "run_summary_age");
      ("/l/harvest/harvest_old", "harvest_dir_age"); ("/l/live.jsonl.old", "events_live_old")], ["/l/nfqws2_week_cov.log"]).
Proof. by vm_compute. Qed.

(** The campaign's own files go with a directory that is deleted: only the path of the directory is looked at. *)
Example protected_inside_a_directory :
  ("/l/harvest/harvest_old", "harvest_dir_age") ∈ (plan_of 14).1
  /\ exists p, p ∈ walk (fs_of es_ex) "/l/harvest/harvest_old" /\ _protected p = true.
Proof. split; [vm_compute; set_solver|]. exists "/l/harvest/harvest_old/week_cov_batch.txt". split; [vm_compute; set_solver|done]. Qed.

(** The write-ahead log of a database in use holds rows that are committed; without an age it is deleted, while the lock
    of a live run keeps only the staging directories. *)
Example live_wal_is_deleted : _has_live_run_lock (fs_of es_ex) dirs_ex = true /\ ("/s/state.db-wal", "sqlite_wal") ∈ (plan_of 0).1.
Proof. split; [done|]. vm_compute. set_solver. Qed.

(** Unlinking "/l/live.jsonl.old" fails, so four paths are counted; a disk is the list of what was removed. *)
Example apply_ex :
  (match collect_gc (fs_of es_ex) dirs_ex (f_of_Z 14) 1 None with
   | Ret plan => Some (apply_gc (fun _ p => is_dir (fs_of es_ex) p) (fun p d => (d ++ [p], true)%list)
                         (fun p d => if endswith ".old" p then (d, false) else (d ++ [p], true)%list) plan false [])
   | _ => None end)
  = Some (["/l/nfqws2_2.log"; "/l/nfqws2_3.log"; "/l/run_summary_1.json"; "/l/harvest/harvest_old"], 4%Z).
Proof. by vm_compute. Qed.

Lemma sublist_map {A B} (f : A -> B) l k : l `sublist_of` k -> map f l `sublist_of` map f k.
Proof. induction 1; cbn; by constructor. Qed.
Lemma scandir_in es d n : n ∈ scandir (fs_of es) d -> exists e, e ∈ es /\ e.1.1.2 = n.
Proof. intros (e & -> & [_ He]%list_elem_of_filter)%list_elem_of_fmap. by exists e. Qed.
Lemma find_entry_in es p e : find_entry es p = Some e -> e ∈ es.
Proof.
  unfold find_entry. destruct (list_find _ es) as [[i x]|] eqn:F; [|done]. intros [= <-].
  apply list_find_Some in F as (F & _). by apply list_elem_of_lookup_2 in F.
Qed.

