(* ===== verification/GcDb.v ===== *)
(** * Retention: the rows of the database, and the command [bs gc]

    [prune_db_results] of [engine/gc.py] with its SQL in SQLite's three-valued logic, where a condition on NULL is
    neither true nor false, and the command that carries out both halves. An error rolls the transaction back. *)

From stdpp Require Import base numbers list strings sets.
From Stdlib Require Import ZArith Lia Floats.SpecFloat.
From S2P Require Import Prelude PyFloat PyStr PyJson Gc.

#[local] Open Scope string_scope.
#[local] Set Default Proof Using "Type".

(** ** Tables *)

(** The columns the statements name; [None] is NULL. *)
Record result_row : Type := ResultRow { row_id : Z; strategy_id : option Z; timestamp : option string; epoch_ms : option Z }.
(** A table that does not exist is [None]. *)
Record gc_db : Type := GcDb { tcp_results : option (list result_row); udp_results : option (list result_row); strategies : option (list Z) }.
Record DbGcStats : Type := Stats { tcp_rows : nat; udp_rows : nat; orphan_strategies : nat; skipped_lock : bool; dry_run : bool }.
Record cutoffs : Type := Cutoffs { cutoff_ms : Z; cutoff_iso : string }.

(** [int] of the float is an [OverflowError] or a [ValueError] where it is no number; [iso] is [strftime]. *)
Definition _age_cutoffs (now : float) (iso : float -> string) (max_age_days : float) : outcome cutoffs :=
  let age_s := if fle max_age_days (f_of_Z 0) then f_of_Z 0 else fmul max_age_days (f_of_Z 86400) in
  let cutoff := fsub now age_s in
  match f_trunc (fmul cutoff (f_of_Z 1000)) with Some ms => Ret (Cutoffs ms (iso cutoff)) | None => Raise end.

(** ** Conditions *)

Definition sql_bool : Type := option bool.
Definition and3 (a b : sql_bool) : sql_bool :=
  match a, b with Some false, _ | _, Some false => Some false | Some true, Some true => Some true | _, _ => None end.
Definition or3 (a b : sql_bool) : sql_bool :=
  match a, b with Some true, _ | _, Some true => Some true | Some false, Some false => Some false | _, _ => None end.
Definition not3 (a : sql_bool) : sql_bool := negb <$> a.
Definition is_null {A} (a : option A) : sql_bool := Some (match a with None => true | Some _ => false end).
(** A comparison of a column with a value. *)
Definition compare3 {A} (f : A -> bool) (a : option A) : sql_bool := f <$> a.
Definition holds (a : sql_bool) : bool := match a with Some true => true | _ => false end.

Section Prune.
Context (params : cutoffs).

Definition _RESULT_AGE_SQL (r : result_row) : sql_bool :=
  or3 (and3 (not3 (is_null (epoch_ms r))) (compare3 (fun e => Z.ltb e (cutoff_ms params)) (epoch_ms r)))
      (and3 (is_null (epoch_ms r))
        (and3 (not3 (is_null (timestamp r)))
          (and3 (compare3 (fun t => negb (String.eqb t "")) (timestamp r)) (compare3 (fun t => str_lt t (cutoff_iso params)) (timestamp r))))).
Definition _COUNT_SQL (rows : list result_row) : nat := length (filter (fun r => holds (_RESULT_AGE_SQL r) = true) rows).
Definition _DELETE_SQL (rows : list result_row) : list result_row := filter (fun r => holds (_RESULT_AGE_SQL r) = false) rows.
(** Whether the query for the rows that keep strategy [s] has any; a missing table gives none. *)
Definition _KEEP_SQL (s : Z) (table : option (list result_row)) : bool :=
  existsb (fun r => holds (and3 (compare3 (Z.eqb s) (strategy_id r)) (not3 (_RESULT_AGE_SQL r)))) (default [] table).
Definition _count_orphan_strategies (db : gc_db) : nat :=
  match strategies db with
  | None => 0
  | Some ids => length (filter (fun s => negb (_KEEP_SQL s (tcp_results db)) && negb (_KEEP_SQL s (udp_results db)) = true) ids)
  end.
(** The strategies that rows of a table name. *)
Definition named (rows : list result_row) : list Z := omap strategy_id rows.
(** [None]: a table of the statement does not exist, an error. *)
Definition _ORPHAN_DELETE_SQL (db : gc_db) : option gc_db :=
  match tcp_results db, udp_results db, strategies db with
  | Some t, Some u, Some ids => Some (GcDb (Some t) (Some u) (Some (filter (fun s => s ∈ (named t ++ named u)%list) ids)))
  | _, _, _ => None
  end.

(** The statements of a run that is not dry; [writes] is whether the database accepts them. *)
Definition delete_rows (writes : bool) (orphans : bool) (stats : DbGcStats) (db : gc_db) : option gc_db :=
  db ← (match tcp_results db with
        | Some t => if Nat.eqb (tcp_rows stats) 0 then Some db
                    else if writes then Some (GcDb (Some (_DELETE_SQL t)) (udp_results db) (strategies db)) else None
        | None => Some db end);
  db ← (match udp_results db with
        | Some u => if Nat.eqb (udp_rows stats) 0 then Some db
                    else if writes then Some (GcDb (tcp_results db) (Some (_DELETE_SQL u)) (strategies db)) else None
        | None => Some db end);
  if orphans && negb (Nat.eqb (orphan_strategies stats) 0) && match strategies db with Some _ => true | None => false end
  then if writes then _ORPHAN_DELETE_SQL db else None
  else Some db.

Definition count_rows (table : option (list result_row)) : nat := match table with Some rows => _COUNT_SQL rows | None => 0 end.
(** [None]: there is no file. The statistics stay when the transaction is rolled back. *)
Definition prune_connected (db : option gc_db) (dry : bool) (orphans : bool) (locked writes : bool) : DbGcStats * option gc_db :=
  match db with
  | None => (Stats 0 0 0 false dry, None)
  | Some db =>
      let stats := Stats (count_rows (tcp_results db)) (count_rows (udp_results db))
                     (if orphans then _count_orphan_strategies db else 0) (locked && negb dry) dry in
      if locked && negb dry then (stats, Some db)
      else if dry then (stats, Some db)
      else (stats, Some (default db (delete_rows writes orphans stats db)))
  end.
End Prune.

(** The statistics, and the database after it. *)
Definition prune_db_results (now : float) (iso : float -> string) (max_age_days : float) (db : option gc_db) (dry orphans : bool)
    (locked writes : bool) : outcome (DbGcStats * option gc_db) :=
  match db with
  | None => Ret (Stats 0 0 0 false dry, None)
  | _ => params ← _age_cutoffs now iso max_age_days; Ret (prune_connected params db dry orphans locked writes)
  end.

(** ** The command *)

Record gc_args : Type := GcArgs { a_apply : bool; a_dry_run : bool; a_max_age_days : float; a_nfqws2_keep : Z; a_db_days : option float; a_orphans : bool }.

Section Command.
Context {Disk : Type} (fs_at : Disk -> file_system) (dirs : gc_dirs) (rmtree unlink : string -> Disk -> Disk * bool).
Context (now : float) (iso : float -> string) (writes : bool).

Definition cmd_gc (args : gc_args) (disk : Disk) (db : option gc_db) : outcome (Disk * option gc_db * option DbGcStats) :=
  let dry := negb (a_apply args) || a_dry_run args in
  plan ← collect_gc (fs_at disk) dirs (a_max_age_days args) (a_nfqws2_keep args) None;
  let disk := (apply_gc (fun d p => is_dir (fs_at d) p) rmtree unlink plan dry disk).1 in
  match a_db_days args with
  | None => Ret (disk, db, None)
  | Some days =>
      r ← prune_db_results now iso days db dry (a_orphans args) (_has_live_run_lock (fs_at disk) dirs) writes;
      Ret (disk, r.2, Some r.1)
  end.
End Command.

(** ** What the SQL means *)

(** A row is aged when its time in milliseconds is before the cutoff, or, where it has none, when its text is. *)
Definition aged (params : cutoffs) (r : result_row) : bool :=
  match epoch_ms r with
  | Some e => Z.ltb e (cutoff_ms params)
  | None => match timestamp r with Some t => nonempty t && str_lt t (cutoff_iso params) | None => false end
  end.
(** No row is left undecided: the condition and its negation are complementary. *)
Lemma age_sql_decided params r : _RESULT_AGE_SQL params r = Some (aged params r).
Proof.
  unfold _RESULT_AGE_SQL, aged. destruct (epoch_ms r) as [e|]; cbn; [by destruct (Z.ltb _ _)|].
  destruct (timestamp r) as [t|]; cbn; [|done]. destruct t as [|c t]; cbn; [done|]. by destruct (str_lt _ _).
Qed.
Lemma holds_aged params r : holds (_RESULT_AGE_SQL params r) = aged params r.
Proof. rewrite age_sql_decided. by destruct (aged params r). Qed.
Lemma count_aged params rows : _COUNT_SQL params rows = length (filter (fun r => aged params r = true) rows).
Proof. unfold _COUNT_SQL. f_equal. apply list_filter_iff. intros r. by rewrite holds_aged. Qed.
Lemma delete_aged params rows : _DELETE_SQL params rows = filter (fun r => aged params r = false) rows.
Proof. apply list_filter_iff. intros r. by rewrite holds_aged. Qed.

Lemma filter_complement {A} (f : A -> bool) (l : list A) :
  length l = (length (filter (fun x => f x = true) l) + length (filter (fun x => f x = false) l))%nat.
Proof. induction l as [|x l IH]; [done|]. rewrite !filter_cons. destruct (f x); repeat case_decide; try done; cbn [length]; lia. Qed.
Lemma filter_all {A} (f : A -> bool) (l : list A) :
  length (filter (fun x => f x = true) l) = 0%nat -> filter (fun x => f x = false) l = l.
Proof.
  intros H. induction l as [|x l IH]; [done|]. rewrite filter_cons in *. destruct (f x) eqn:E; [done|]. cbn in *. by rewrite IH.
Qed.

(** A row that survives names the strategy. *)
Definition kept_by (params : cutoffs) (s : Z) (table : option (list result_row)) : Prop :=
  exists rows r, table = Some rows /\ r ∈ rows /\ aged params r = false /\ strategy_id r = Some s.
Lemma keep_sql_spec params s table : _KEEP_SQL params s table = true <-> kept_by params s table.
Proof.
  unfold _KEEP_SQL, kept_by. rewrite existsb_exists. split.
  - intros (r & Hr & H). destruct table as [rows|]; [|done]. exists rows, r. rewrite <- list_elem_of_In in Hr. split; [done|]. split; [done|].
    rewrite age_sql_decided in H. destruct (strategy_id r) as [i|]; cbn in H; [|by destruct (aged params r)].
    destruct (Z.eqb_spec s i) as [->|]; [|by destruct (aged params r)]. by destruct (aged params r).
  - intros (rows & r & -> & Hr & A & S). exists r. rewrite <- list_elem_of_In. split; [done|]. rewrite age_sql_decided, A, S. cbn. by rewrite Z.eqb_refl.
Qed.

Lemma survivors params (rows : list result_row) s :
  s ∈ named (filter (fun r => aged params r = false) rows) <-> kept_by params s (Some rows).
Proof.
  unfold named, kept_by. rewrite list_elem_of_omap. split.
  - intros (r & [A Hr]%list_elem_of_filter & S). by exists rows, r.
  - intros (rows' & r & [= <-] & Hr & A & S). exists r. split; [by apply list_elem_of_filter|done].
Qed.

(** The database after a run that deletes, and the counts that say so. *)
Section Deleted.
Context (params : cutoffs).
Definition pruned (rows : list result_row) : list result_row := filter (fun r => aged params r = false) rows.
(** The strategies that keep a row. *)
Definition has_row (t u : list result_row) (s : Z) : Prop := kept_by params s (Some t) \/ kept_by params s (Some u).

Lemma pruned_or_same rows : (if Nat.eqb (_COUNT_SQL params rows) 0 then rows else _DELETE_SQL params rows) = pruned rows.
Proof.
  rewrite count_aged, delete_aged. destruct (Nat.eqb_spec (length (filter (fun r => aged params r = true) rows)) 0) as [E|]; [|done].
  symmetry. by apply filter_all.
Qed.

Definition kept_ids (t u : list result_row) (ids : list Z) : list Z :=
  filter (fun s => _KEEP_SQL params s (Some t) || _KEEP_SQL params s (Some u) = true) ids.
Lemma kept_ids_spec t u ids s : s ∈ kept_ids t u ids <-> s ∈ ids /\ has_row t u s.
Proof. unfold kept_ids. rewrite list_elem_of_filter, orb_true_iff, !keep_sql_spec. unfold has_row. tauto. Qed.
Lemma orphans_counted t u ids : length ids = (_count_orphan_strategies params (GcDb (Some t) (Some u) (Some ids)) + length (kept_ids t u ids))%nat.
Proof.
  unfold _count_orphan_strategies, kept_ids. cbn [strategies tcp_results udp_results].
  rewrite (filter_complement (fun s => negb (_KEEP_SQL params s (Some t)) && negb (_KEEP_SQL params s (Some u))) ids). f_equal. f_equal.
  apply list_filter_iff. intros s. by destruct (_KEEP_SQL params s (Some t)), (_KEEP_SQL params s (Some u)).
Qed.
Lemma orphan_delete t u ids : _ORPHAN_DELETE_SQL (GcDb (Some (pruned t)) (Some (pruned u)) (Some ids))
  = Some (GcDb (Some (pruned t)) (Some (pruned u)) (Some (kept_ids t u ids))).
Proof.
  cbn. do 3 f_equal. apply list_filter_iff. intros s. unfold pruned. by rewrite elem_of_app, !survivors, orb_true_iff, !keep_sql_spec.
Qed.
End Deleted.

Definition db_of (t u : list result_row) (ids : list Z) : gc_db := GcDb (Some t) (Some u) (Some ids).

Lemma delete_rows_spec params (orphans : bool) t u ids :
  let stats := Stats (_COUNT_SQL params t) (_COUNT_SQL params u)
                 (if orphans then _count_orphan_strategies params (db_of t u ids) else 0) false false in
  delete_rows params true orphans stats (db_of t u ids)
  = Some (db_of (pruned params t) (pruned params u) (if orphans then kept_ids params t u ids else ids)).
Proof.
  cbn zeta. unfold delete_rows. cbn [tcp_results udp_results strategies db_of tcp_rows udp_rows orphan_strategies].
  assert (T : (if Nat.eqb (_COUNT_SQL params t) 0 then Some (db_of t u ids) else Some (db_of (_DELETE_SQL params t) u ids))
              = Some (db_of (pruned params t) u ids)).
  { rewrite <- pruned_or_same. by destruct (Nat.eqb _ 0). }
  unfold db_of in *. rewrite T. cbn [mbind option_bind tcp_results udp_results strategies].
  assert (U : (if Nat.eqb (_COUNT_SQL params u) 0 then Some (GcDb (Some (pruned params t)) (Some u) (Some ids))
               else Some (GcDb (Some (pruned params t)) (Some (_DELETE_SQL params u)) (Some ids)))
              = Some (GcDb (Some (pruned params t)) (Some (pruned params u)) (Some ids))).
  { rewrite <- (pruned_or_same params u). by destruct (Nat.eqb (_COUNT_SQL params u) 0). }
  rewrite U. cbn [mbind option_bind tcp_results udp_results strategies]. clear T U. destruct orphans; [|done]. cbn [andb]. rewrite andb_true_r.
  destruct (Nat.eqb_spec (_count_orphan_strategies params (GcDb (Some t) (Some u) (Some ids))) 0) as [Z|]; cbn [negb]; [|apply orphan_delete].
  do 3 f_equal. unfold kept_ids. unfold _count_orphan_strategies in Z. cbn [strategies tcp_results udp_results] in Z.
  rewrite <- (filter_all _ _ Z) at 1. apply list_filter_iff. intros s. by destruct (_KEEP_SQL params s (Some t)), (_KEEP_SQL params s (Some u)).
Qed.


(** ** Concrete inputs *)

Definition params_ex : cutoffs := Cutoffs 5000 "2026-08-01T00:00:00".
Definition tcp_ex : list result_row :=
  [ResultRow 1 (Some 1) (Some "2026-08-26T00:00:00") (Some 9000); ResultRow 2 (Some 2) (Some "2020-01-01T00:00:00") (Some 4000);
   ResultRow 3 (Some 2) (Some "2020-01-02T00:00:00") None; ResultRow 4 None None None; ResultRow 5 (Some 3) (Some "") None]%Z.
Definition udp_ex : list result_row := [ResultRow 1 (Some 2) (Some "2026-09-01T00:00:00") (Some 10)]%Z.

Example gc_prune_ex :
  prune_connected params_ex (Some (db_of tcp_ex udp_ex [1; 2; 3; 4]%Z)) false true false true
  = (Stats 2 1 2 false false,
     Some (db_of [ResultRow 1 (Some 1) (Some "2026-08-26T00:00:00") (Some 9000); ResultRow 4 None None None; ResultRow 5 (Some 3) (Some "") None]%Z
             [] [1; 3]%Z))
  /\ (prune_connected params_ex (Some (db_of tcp_ex udp_ex [1; 2; 3; 4]%Z)) false true true true).1 = Stats 2 1 2 true false.
Proof. by vm_compute. Qed.

(** Without the table of UDP results the statement that drops orphans is an error, and the rows that were deleted come
    back; the statistics still count them, and nothing in them says that the run failed. *)
Example missing_table_rolls_back :
  let db := GcDb (Some tcp_ex) None (Some [1; 2; 3; 4]%Z) in
  prune_connected params_ex (Some db) false true false true = (Stats 2 0 2 false false, Some db)
  /\ (prune_connected params_ex (Some db) false false false true).2
     = Some (GcDb (Some (pruned params_ex tcp_ex)) None (Some [1; 2; 3; 4]%Z)).
Proof. by vm_compute. Qed.

(** The cutoff of three days, at one hundred days, and an age that is no number of days. *)
Example cutoffs_ex :
  _age_cutoffs (days 100) (fun _ => "iso") (f_of_Z 3) = Ret (Cutoffs (97 * 86400 * 1000) "iso")
  /\ _age_cutoffs (days 100) (fun _ => "iso") (f_of_Z (-3)) = Ret (Cutoffs (100 * 86400 * 1000) "iso")
  /\ _age_cutoffs (days 100) (fun _ => "iso") (S754_infinity false) = Raise.
Proof. by vm_compute. Qed.

(** Without [--apply] the command changes nothing; with it, and with an age for the rows, both halves run, unless the
    lock of a live run keeps the rows. *)
Lemma cmd_gc_dry {Disk} (fs_at : Disk -> file_system) dirs rmtree unlink now iso writes args disk db r :
  negb (a_apply args) || a_dry_run args = true -> cmd_gc fs_at dirs rmtree unlink now iso writes args disk db = Ret r -> r.1 = (disk, db).
Proof.
  intros D H. unfold cmd_gc in H. rewrite D in H. destruct (collect_gc _ _ _ _ _) as [plan| |]; [|done..]. cbn [mbind outcome_bind] in H.
  destruct (a_db_days args) as [d|]; [|by apply Ret_inj in H as <-]. unfold prune_db_results in H.
  destruct db as [db|]; [|by apply Ret_inj in H as <-]. destruct (_age_cutoffs now iso d) as [p| |]; [|done..]. cbn [mbind outcome_bind] in H.
  apply Ret_inj in H as <-. cbn [fst snd]. unfold prune_connected. by destruct (_ && _).
Qed.
