(* ===== verification/Ggc.v ===== *)
(** * Google cache hosts and their addresses: [engine/ggc_pool.py]

    Names of Google's cache servers made up for a probe, the pool of real ones, and the chain of places an address is
    taken from. The generator of random numbers is the class of [AdaptiveQueue]; files are the values that
    [json.loads] gave, or nothing when they cannot be read; settings, the clock and the database of DNS answers are
    arguments. *)

From stdpp Require Import base numbers list relations strings.
From Stdlib Require Import ZArith Ascii Lia Floats.SpecFloat.
From S2P Require Import Prelude PyFloat PyStr PyDict PyJson PyRe AdaptiveQueue.

#[local] Open Scope string_scope.
#[local] Open Scope Z_scope.
#[local] Set Default Proof Using "Type".

(** ** Names *)

Definition MODES : list string := ["synthetic"; "real"; "fixed"].
Definition code_char (c : ascii) : bool := is_alnum c || Ascii.eqb c "-".
(** Under [re.IGNORECASE] the classes take both cases. *)
Definition _RR_RE : re :=
  seqs [Bol; liti "rr"; Group 1 (RepRange 1 3 digit); liti "---sn-"; Look (Seq (RepRange 4 16 (Chr code_char)) (lit "."));
        Plus (Chr is_alnum); Star (Seq (lit "-") (Plus (Chr is_alnum))); liti ".googlevideo.com"; Eol].
Definition _CODE_ALPHABET : string := "abcdefghijklmnopqrstuvwxyz0123456789".
Definition _REGION_PREFIXES : list string := ["5goeenes"; "uxaxjvh"; "1-ien4"; "a5mek"; "h5qfk"; "un57"; "xjvho"].
Definition _REGION_SUFFIXES : list string := [""; "-30ze"; "-5uae"; "-okge"; "-4g26"; "-ne6"].
Definition IPS_TTL_SEC : Z := 7 * 24 * 3600.
Definition REAL_POOL_TTL_SEC : Z := 6 * 3600.
Definition _NO_REPEAT : nat := 8.
Definition DEFAULT_LAST_RESORT_IPS : list string := ["64.233.161.198"; "108.177.14.147"; "74.125.131.103"; "64.233.161.99"].

Record GgcTarget : Type := Target { host : string; mode : string; ip_hint : option string; pool_size : Z }.

Definition is_ggc_host (host : string) : bool := found (re_match _RR_RE host).

(** [str(google.get("mode") or "")]: only a text can name a mode. [google] is [None] when the settings cannot be read. *)
Definition current_mode (env : string) (google : option json) : string :=
  let env := lower (strip env) in
  if bool_decide (env ∈ MODES) then env
  else match google with
       | Some (JDict d) =>
           match jget "mode" d with
           | JStr s => let m := lower (strip s) in if bool_decide (m ∈ MODES) then m else "synthetic"
           | _ => "synthetic"
           end
       | _ => "synthetic"
       end.

(** ** Made-up names *)

Section Random.
Context {R : Type} {RG : Rng R}.

Definition choice {A} (d : A) (l : list A) (r : R) : A * R :=
  let '(i, r) := rng_randint 0 (Z.of_nat (length l) - 1) r in (nth (Z.to_nat i) l d, r).
Fixpoint tail_chars (n : nat) (r : R) : string * R :=
  match n with
  | O => (EmptyString, r)
  | S n => let '(c, r) := choice "a" (chars _CODE_ALPHABET) r in let '(t, r) := tail_chars n r in (c +:+ t, r)
  end.
Definition generate_sn_code (r : R) : string * R :=
  let '(prefix, r) := choice "" _REGION_PREFIXES r in
  let room := 8 - Z.of_nat (String.length prefix) in
  let '(n, r) := rng_randint 0 (Z.max 0 (Z.min 3 room)) r in
  let '(tail, r) := tail_chars (if 0 <? room then Z.to_nat n else O) r in
  let code := stake 8 (prefix +:+ tail) in
  let '(suffix, r) := choice "" _REGION_SUFFIXES r in
  (if nonempty suffix then code +:+ suffix else code, r).

Definition ggc_host (n : Z) (code : string) : string := "rr" +:+ str_of_Z n +:+ "---sn-" +:+ code +:+ ".googlevideo.com".
Definition last_k {A} (k : nat) (l : list A) : list A := drop (length l - k) l.
(** The rounds that are left, the codes that were used last. *)
Fixpoint synthetic_loop (rounds : nat) (last_codes : list string) (r : R) : string * list string * R :=
  match rounds with
  | O => let '(code, r) := generate_sn_code r in (ggc_host 1 code, last_codes, r)
  | S rounds =>
      let '(n, r) := rng_randint 1 60 r in
      let '(code, r) := generate_sn_code r in
      let key := str_of_Z n +:+ ":" +:+ code in
      if bool_decide (key ∈ last_codes) then synthetic_loop rounds last_codes r
      else (ggc_host n code, last_k _NO_REPEAT (last_codes ++ [key]), r)
  end.
Definition generate_synthetic_host (last_codes : list string) (r : R) : string * list string * R := synthetic_loop 32 last_codes r.

(** ** Files *)

(** [float(v)]; a text is converted by Python. *)
Definition float_of (v : json) : outcome float :=
  match v with
  | JInt z => Ret (f_of_Z z)
  | JFloat f => Ret f
  | JBool b => Ret (f_of_Z (if b then 1 else 0))
  | JStr _ => Beyond
  | _ => Raise
  end.
(** [entry.get(key, 0)] of anything but a dict is an [AttributeError]. *)
Definition ts_of (entry : json) : outcome float :=
  match entry with JDict d => float_of (default (JInt 0) (dget "ts" d)) | _ => Raise end.
Definition ip_of (entry : json) : outcome string :=
  match entry with
  | JDict d => match default (JStr "") (dget "ip" d) with JStr s => Ret s | JNull => Ret "None" | _ => Beyond end
  | _ => Raise
  end.

Definition load_real_pool (file : option json) (now max_age_sec : float) : outcome (list string) :=
  match file with
  | None => Ret []
  | Some (JDict data) =>
      ts ← float_of (default (JInt 0) (dget "timestamp" data));
      if flt (f_of_Z 0) max_age_sec && flt max_age_sec (fsub now ts) then Ret []
      else match default (JList []) (dget "hosts" data) with
           | JList l => Ret (omap (fun h => match h with JStr s => if is_ggc_host s then Some s else None | _ => None end) l)
           | JStr _ | JDict _ => Beyond
           | _ => Raise
           end
  | Some _ => Raise
  end.

Definition _read_ips_cache_entries (file : option json) : outcome (list (string * json)) :=
  match file with
  | None => Ret []
  | Some (JDict data) => match jget "ips" data with JDict e => Ret e | _ => Ret [] end
  | Some _ => Raise
  end.
Definition entry_of (ip : string) (now : float) : json := JDict [("ip", JStr ip); ("ts", JFloat now)].
Definition ips_file (entries : list (string * json)) : json := JDict [("ips", JDict entries)].

(** [time.time() - float(v.get("ts", 0)) < IPS_TTL_SEC] *)
Definition fresh (now ts : float) : bool := flt (fsub now ts) (f_of_Z IPS_TTL_SEC).
Fixpoint fresh_entries (now : float) (entries : list (string * json)) : outcome (list (string * json)) :=
  match entries with
  | [] => Ret []
  | (k, v) :: entries => ts ← ts_of v; rest ← fresh_entries now entries; Ret (if fresh now ts then (k, v) :: rest else rest)
  end.
(** [v["ts"]], where a missing key is a [KeyError]. *)
Definition ts_at (entry : json) : outcome float :=
  match entry with JDict d => match dget "ts" d with Some v => float_of v | None => Raise end | _ => Raise end.
Fixpoint with_ts (key : json -> outcome float) (entries : list (string * json)) : outcome (list (float * (string * json))) :=
  match entries with [] => Ret [] | (k, v) :: entries => ts ← key v; rest ← with_ts key entries; Ret ((ts, (k, v)) :: rest) end.
(** [sorted(entries.items(), key=lambda kv: -ts)] *)
Definition newest (key : json -> outcome float) (entries : list (string * json)) : outcome (list (float * (string * json))) :=
  l ← with_ts key entries; Ret (py_sorted (fun a b => flt (fneg a.1) (fneg b.1)) l).

(** The file after it: not written for another host or without an address. *)
Definition remember_ggc_ip (file : option json) (host ip : string) (now : float) : outcome (option json) :=
  if negb (nonempty ip) || negb (is_ggc_host host) then Ret file
  else
    entries ← _read_ips_cache_entries file;
    kept ← fresh_entries now entries;
    sorted ← newest ts_at (dset host (entry_of ip now) kept);
    Ret (Some (ips_file (dict_of (take 256 sorted).*2))).

Fixpoint unique_ips (now : float) (l : list (float * (string * json))) (out : list string) : outcome (list string) :=
  match l with
  | [] => Ret out
  | (ts, (_, entry)) :: l =>
      ip ← ip_of entry;
      unique_ips now l (if nonempty ip && fle (fsub now (f_of_Z IPS_TTL_SEC)) ts && negb (bool_decide (ip ∈ out)) then (out ++ [ip])%list else out)
  end.
Definition cached_ips (file : option json) (now : float) : outcome (list string) :=
  entries ← _read_ips_cache_entries file; l ← newest ts_of entries; unique_ips now l [].

(** ** Addresses *)

Definition configured_fallback_ips (env : string) (google : option json) : outcome (list string) :=
  if nonempty (strip env) then Ret (filter (fun ip => nonempty ip = true) (strip <$> split_char "," (strip env)))
  else match google with
       | Some (JDict d) =>
           match jget "fallback_ips" d with
           | JList l => if forallb (fun v => match v with JStr _ => true | _ => false end) l
                        then Ret (omap (fun v => match v with JStr s => Some s | _ => None end) l) else Beyond
           | _ => Ret []
           end
       | _ => Ret []
       end.

(** [_ROTATION["i"]] before and after. *)
Definition _rotate_last_resort (i : Z) : string * Z :=
  (nth (Z.to_nat (i mod Z.of_nat (length DEFAULT_LAST_RESORT_IPS))) DEFAULT_LAST_RESORT_IPS "", i + 1).

(** [recs]: the fresh answers of the provider's database, [None] when it cannot be read. *)
Definition resolve_ip_chain (recs : option (list (string * list string))) (env : string) (google file : option json) (now : float)
    (i : Z) (host : string) : outcome (option string * Z) :=
  match dget_default host [] (default [] recs) with
  | ip :: _ => Ret (Some ip, i)
  | [] =>
      configured ← configured_fallback_ips env google;
      match configured with
      | ip :: _ => Ret (Some ip, i)
      | [] =>
          cached ← cached_ips file now;
          match cached with
          | ip :: _ => Ret (Some ip, i)
          | [] => let '(ip, i) := _rotate_last_resort i in Ret (Some ip, i)
          end
      end
  end.

Definition pick_target (ggc_fixed : string) (mode_env : string) (google pool_file ips : option json) (now : float)
    (last_codes : list string) (r : R) : outcome (GgcTarget * list string * R) :=
  let m := current_mode mode_env google in
  let synthetic r :=
    let '(h, last_codes, r) := generate_synthetic_host last_codes r in
    entries ← _read_ips_cache_entries ips;
    hint ← match dget h entries with
           | Some entry => if truthy entry then ts ← ts_of entry; if fresh now ts then ip ← ip_of entry; Ret (Some ip) else Ret None else Ret None
           | None => Ret None
           end;
    Ret (Target h m hint 0, last_codes, r) in
  if String.eqb m "fixed" then Ret (Target ggc_fixed m None 1, last_codes, r)
  else if String.eqb m "real" then
    pool ← load_real_pool pool_file now (f_of_Z REAL_POOL_TTL_SEC);
    match pool with
    | [] => synthetic r
    | _ => let '(h, r) := choice "" pool r in Ret (Target h m None (Z.of_nat (length pool)), last_codes, r)
    end
  else synthetic r.
End Random.

(** ** The pattern accepts the names that are made up *)

(** A code: words of letters and digits with dashes between them. *)
Fixpoint dashed (l : list string) : string := match l with [] => EmptyString | w :: l => "-" +:+ w +:+ dashed l end.
Definition code_word (w : string) : Prop := nonempty w = true /\ sforall is_alnum w = true.
Definition valid_code (code : string) : Prop :=
  (4 <= String.length code <= 16)%nat /\ sforall code_char code = true
  /\ exists w l, code = w +:+ dashed l /\ code_word w /\ Forall code_word l.

Lemma lang_liti w : lang (liti w) (fun v => lower v = lower w).
Proof. intros x y. rewrite lit_by_liti, den_lit_by. setoid_rewrite agree_eqi. done. Qed.
Lemma lang_lit w : lang (lit w) (fun v => v = w).
Proof. intros x y. rewrite den_lit. naive_solver. Qed.
Lemma lang_word : lang (Plus (Chr is_alnum)) code_word.
Proof. intros x y. rewrite den_plus_chr. unfold code_word. naive_solver. Qed.
Lemma lang_dashed l : Forall code_word l -> forall x q, consumes x.1 (dashed l) q -> den (Star (Seq (lit "-") (Plus (Chr is_alnum)))) x (q, x.2).
Proof.
  intros F. change (forall x q, consumes x.1 (dashed l) q -> rtc (fun x y => den (Seq (lit "-") (Plus (Chr is_alnum))) x y /\ shorter y.1 x.1 = true) x (q, x.2)).
  induction F as [|w l [N W] F IH]; intros [p c] q H; cbn [fst snd] in *.
  - apply consumes_nil in H as ->. done.
  - cbn [dashed] in H. rewrite <- append_assoc in H. apply consumes_app_inv in H as (o & Ho & H).
    apply rtc_l with (o, c); [|by apply (IH (o, c))]. split.
    + apply (lang_seq _ _ _ _ (lang_lit "-") lang_word). exists ("-" +:+ w). split; [by exists "-", w|done].
    + unfold shorter. cbn [fst]. apply Nat.ltb_lt. rewrite (consumes_length _ _ _ Ho), length_append. cbn. lia.
Qed.

(** Going on from a position over a text. *)
Definition after (p : pos) (w : string) : pos := Pos (advance (prev p) w) (sdrop (String.length w) (rest p)).
Lemma after_consumes pr w s : consumes (Pos pr (w +:+ s)) w (Pos (advance pr w) s).
Proof. done. Qed.

Lemma is_ggc_host_valid n code : 1 <= n <= 60 -> valid_code code -> is_ggc_host (ggc_host n code) = true.
Proof.
  intros Hn (L & C & w & l & E & W & F). apply re_match_found.
  assert (D : (1 <= String.length (str_of_Z n) <= 3)%nat /\ sforall is_digit (str_of_Z n) = true).
  { assert (In n (map Z.of_nat (List.seq 1 60))) as I by (apply in_map_iff; exists (Z.to_nat n); rewrite in_seq; lia).
    clear Hn. revert n I. apply List.Forall_forall. vm_compute. repeat constructor. }
  set (dom := ".googlevideo.com"). set (d := str_of_Z n) in *.
  set (p0 := Pos None (ggc_host n code)). set (p1 := Pos (advance None "rr") (d +:+ "---sn-" +:+ code +:+ dom)).
  set (p2 := Pos (advance (prev p1) d) ("---sn-" +:+ code +:+ dom)). set (p3 := Pos (advance (prev p2) "---sn-") (code +:+ dom)).
  set (p4 := Pos (advance (prev p3) w) (dashed l +:+ dom)). set (p5 := Pos (advance (prev p4) (dashed l)) dom).
  set (p6 := Pos (advance (prev p5) dom) EmptyString). set (c := [(1%nat, between p1 p2)]).
  exists p6, c. unfold _RR_RE. cbn [seqs]. 
  exists (p0, []). split; [done|]. exists (p1, []). split; [apply lang_liti; exists "rr"; done|].
  exists (p2, c). split.
  { exists (p2, []). split; [|done]. apply lang_range; [lia|]. exists d. split; [split; apply D|done]. }
  exists (p3, c). split; [apply lang_liti; exists "---sn-"; done|].
  exists (p3, c). split.
  { exists (Pos (advance (advance (prev p3) code) ".") "googlevideo.com", c). split; [|done].
    apply (lang_seq _ _ _ _ (lang_range 4 16 code_char ltac:(lia)) (lang_lit ".")).
    exists (code +:+ "."). split; [by exists code, "."|]. split; [|done]. split; cbn [fst prev rest p3]; [by rewrite append_assoc|by rewrite advance_append]. }
  exists (p4, c). split.
  { apply lang_word. exists w. split; [done|]. split; [|done]. subst p3 p4. cbn [prev]. rewrite E, append_assoc. apply after_consumes. }
  exists (p5, c). split; [apply (lang_dashed l F (p4, c)); apply after_consumes|].
  exists (p6, c). split; [|done]. apply lang_liti. exists dom. split; [done|]. split; [|done]. split; [by rewrite append_nil_r|done].
Qed.

Section Synthetic.
Context {R : Type} {RG : Rng R} {RO : RngOk R}.

Lemma choice_in {A} (d : A) l (r : R) : l <> [] -> (choice d l r).1 ∈ l.
Proof using RO.
  intros N. unfold choice. assert (L : (0 < length l)%nat) by (destruct l; [done|cbn; lia]).
  pose proof (rng_randint_range 0 (Z.of_nat (length l) - 1) r ltac:(lia)) as B.
  destruct (rng_randint 0 _ r) as [i r']. cbn [fst] in *. rewrite list_elem_of_In. apply nth_In. lia.
Qed.

Lemma stake_all n s : (String.length s <= n)%nat -> stake n s = s.
Proof. revert n. induction s as [|c s IH]; intros [|n] H; cbn in *; try lia; [done..|]. f_equal. apply IH. lia. Qed.

Lemma tail_chars_spec n (r : R) : String.length (tail_chars n r).1 = n /\ sforall is_alnum (tail_chars n r).1 = true.
Proof using RO.
  revert r. induction n as [|n IH]; intros r; cbn [tail_chars]; [done|].
  pose proof (choice_in "a" (chars _CODE_ALPHABET) r ltac:(done)) as C. destruct (choice "a" (chars _CODE_ALPHABET) r) as [c r1].
  destruct (IH r1) as [L F]. destruct (tail_chars n r1) as [t r2]. cbn [fst] in *. rewrite length_append, sforall_append, L, F.
  assert (P : String.length c = 1%nat /\ sforall is_alnum c = true); [|destruct P as [-> ->]; split; [lia|done]].
  revert c C. apply Forall_forall. vm_compute. repeat constructor.
Qed.

(** What a region begins with and what may follow it. *)
Lemma valid_code_parts prefix tail suffix : prefix ∈ _REGION_PREFIXES -> suffix ∈ _REGION_SUFFIXES ->
  (String.length prefix + String.length tail <= 8)%nat -> sforall is_alnum tail = true -> valid_code (prefix +:+ tail +:+ suffix).
Proof.
  intros P S L T.
  assert (Hs : (String.length suffix <= 5)%nat /\ sforall code_char suffix = true /\ exists l, suffix = dashed l /\ Forall code_word l).
  { clear -S. revert suffix S. apply Forall_forall. unfold _REGION_SUFFIXES. repeat (apply Forall_cons; split); [..|by apply Forall_nil].
    all: split; [cbn; lia|]; split; [reflexivity|].
    all: match goal with |- exists l, ?s = _ /\ _ => exists (if nonempty s then [sdrop 1 s] else []) end; split; [reflexivity|by repeat constructor]. }
  destruct Hs as (Ls & Cs & l & -> & F).
  assert (Hp : (4 <= String.length prefix)%nat /\ sforall code_char prefix = true
               /\ forall t, sforall is_alnum t = true -> exists w k, prefix +:+ t = w +:+ dashed k /\ code_word w /\ Forall code_word k).
  { clear -P. revert prefix P. apply Forall_forall. unfold _REGION_PREFIXES. repeat (apply Forall_cons; split); [..|by apply Forall_nil].
    all: split; [cbn; lia|]; split; [reflexivity|]; intros t Ht.
    3: (exists "1", ["ien4" +:+ t]; split; [cbn [dashed]; by rewrite append_nil_r|split; [done|by repeat constructor]]).
    all: match goal with |- exists w k, ?p +:+ _ = _ /\ _ => exists (p +:+ t), []; split; [by rewrite append_nil_r|]; split; [by split|constructor] end. }
  destruct Hp as (Lp & Cp & Hp). destruct (Hp tail T) as (w & k & E & W & K).
  assert (Ct : sforall code_char tail = true) by (revert T; apply sforall_impl; intros c Hc; unfold code_char; by rewrite Hc).
  split; [rewrite !length_append; lia|]. split; [by rewrite !sforall_append, Cp, Ct, Cs|].
  exists w, (k ++ l)%list. rewrite <- append_assoc, E, append_assoc. split; [|split; [done|by apply Forall_app]].
  f_equal. clear. induction k as [|x k IH]; cbn [dashed app]; [done|]. by rewrite !append_assoc, IH.
Qed.

Lemma generate_sn_code_valid (r : R) : valid_code (generate_sn_code r).1.
Proof using RO.
  unfold generate_sn_code. pose proof (choice_in "" _REGION_PREFIXES r ltac:(done)) as P.
  destruct (choice "" _REGION_PREFIXES r) as [prefix r1]. cbn [fst] in P.
  set (room := 8 - Z.of_nat (String.length prefix)). pose proof (rng_randint_range 0 (Z.max 0 (Z.min 3 room)) r1 ltac:(lia)) as B.
  destruct (rng_randint 0 (Z.max 0 (Z.min 3 room)) r1) as [n r2]. cbn [fst] in B.
  pose proof (tail_chars_spec (if 0 <? room then Z.to_nat n else 0%nat) r2) as [T F].
  destruct (tail_chars _ r2) as [tail r3]. cbn [fst] in T, F.
  pose proof (choice_in "" _REGION_SUFFIXES r3 ltac:(done)) as S. destruct (choice "" _REGION_SUFFIXES r3) as [suffix r4]. cbn [fst] in *.
  assert (L : (String.length prefix + String.length tail <= 8)%nat).
  { assert (String.length prefix <= 8)%nat by (clear -P; revert prefix P; apply Forall_forall; repeat constructor).
    rewrite T. destruct (Z.ltb_spec 0 room); unfold room in *; lia. }
  rewrite stake_all by (rewrite length_append; lia).
  assert (E : (if nonempty suffix then (prefix +:+ tail) +:+ suffix else prefix +:+ tail) = prefix +:+ tail +:+ suffix).
  { destruct suffix; cbn [nonempty]; [by rewrite append_nil_r|by rewrite append_assoc]. }
  rewrite E. by apply valid_code_parts.
Qed.

Definition code_key (n : Z) (code : string) : string := str_of_Z n +:+ ":" +:+ code.

Lemma synthetic_core rounds last_codes (r : R) :
  let '(h, last', _) := synthetic_loop rounds last_codes r in
  exists n code, h = ggc_host n code /\ 1 <= n <= 60 /\ valid_code code
  /\ ((code_key n code ∉ last_codes /\ last' = last_k _NO_REPEAT (last_codes ++ [code_key n code])) \/ (n = 1 /\ last' = last_codes)).
Proof using RO.
  revert r. induction rounds as [|rounds IH]; intros r; cbn [synthetic_loop].
  - pose proof (generate_sn_code_valid r) as V. destruct (generate_sn_code r) as [code r1]. cbn [fst] in V.
    exists 1, code. split; [done|]. split; [lia|]. split; [done|]. by right.
  - pose proof (rng_randint_range 1 60 r ltac:(lia)) as B. destruct (rng_randint 1 60 r) as [n r1]. cbn [fst] in B.
    pose proof (generate_sn_code_valid r1) as V. destruct (generate_sn_code r1) as [code r2]. cbn [fst] in V.
    fold (code_key n code). case_bool_decide as D; [apply IH|]. exists n, code. split; [done|]. split; [done|]. split; [done|]. by left.
Qed.
End Synthetic.


(** Four calls in a row go through all the addresses of last resort, wherever the rotation stands. *)
Lemma rotation_fair i : 0 <= i ->
  map (fun k => (_rotate_last_resort (i + k)).1) [0; 1; 2; 3] ≡ₚ DEFAULT_LAST_RESORT_IPS.
Proof.
  intros I. unfold _rotate_last_resort. cbn [map fst]. change (Z.of_nat (length DEFAULT_LAST_RESORT_IPS)) with 4.
  assert (M : forall k, (i + k) mod 4 = (i mod 4 + k) mod 4) by (intros k; by rewrite Zplus_mod_idemp_l).
  rewrite !M. pose proof (Z.mod_pos_bound i 4 ltac:(lia)) as B.
  assert (i mod 4 = 0 \/ i mod 4 = 1 \/ i mod 4 = 2 \/ i mod 4 = 3) as [-> | [-> | [-> | ->]]] by lia;
    apply (bool_decide_unpack _); by vm_compute.
Qed.

(** ** Concrete inputs *)


Example ggc_names : is_ggc_host "rr3---sn-uxaxjvh-30ze.googlevideo.com" = true /\ is_ggc_host "RR12---SN-1-ien4.GoogleVideo.com" = true
  /\ is_ggc_host "rr3---sn-ab.googlevideo.com" = false /\ is_ggc_host "rr3---sn-abcd-.googlevideo.com" = false
  /\ (generate_synthetic_host [] tt).1 = ("rr1---sn-5goeenes.googlevideo.com", ["1:5goeenes"])
  /\ (generate_synthetic_host ["1:5goeenes"] tt).1 = ("rr1---sn-5goeenes.googlevideo.com", ["1:5goeenes"]).
Proof. by vm_compute. Qed.

Example remember_ex :
  let now := f_of_Z 1000000 in
  let file := Some (ips_file [("rr1---sn-5goeenes.googlevideo.com", entry_of "1.1.1.1" (f_of_Z 999000));
                              ("rr2---sn-a5mek.googlevideo.com", entry_of "2.2.2.2" (f_of_Z 1000))]) in
  (match remember_ggc_ip file "rr3---sn-h5qfk.googlevideo.com" "3.3.3.3" now with Ret f => cached_ips f now | _ => Raise end)
    = Ret ["3.3.3.3"; "1.1.1.1"]
  /\ cached_ips file now = Ret ["1.1.1.1"]
  /\ resolve_ip_chain None "" None file now 5 "x" = Ret (Some "1.1.1.1", 5)
  /\ resolve_ip_chain None "" None None now 5 "x" = Ret (Some "108.177.14.147", 6)
  /\ resolve_ip_chain (Some [("x", ["9.9.9.9"])]) "8.8.8.8" None file now 5 "x" = Ret (Some "9.9.9.9", 5)
  /\ resolve_ip_chain (Some [("x", [])]) " 8.8.8.8 , 7.7.7.7" None file now 5 "x" = Ret (Some "8.8.8.8", 5).
Proof. by vm_compute. Qed.

(** [pick_target] is documented never to raise; a pool file or a cache file of another shape makes it raise. *)
Example pick_target_raises :
  pick_target "h" "real" None (Some (JList [])) None (f_of_Z 0) [] tt = Raise
  /\ pick_target "h" "real" None (Some (JDict [("timestamp", JNull)])) None (f_of_Z 0) [] tt = Raise
  /\ pick_target "h" "" None None (Some (JList [])) (f_of_Z 0) [] tt = Raise.
Proof. by vm_compute. Qed.
