(* ===== verification/DataBlock.v ===== *)
(** * The store of a provider: [data_block/store.py]

    The files that are kept per provider: DNS answers and strategies that passed in two SQLite databases, the hosts
    file, the best configuration, and the commit of the directory. SQLite's choices are the class of [RunStore]; the
    time stamps written, the conversion of a time stamp to seconds (it depends on the time zone), the success of
    single statements and the runs of git are arguments. The TOML text of the triage profile and the notes file
    of the same store are not modelled. *)

From stdpp Require Import base numbers list strings.
From Stdlib Require Import ZArith Ascii Lia Floats.SpecFloat.
From S2P Require Import Prelude PyFloat PyStr PyDict PyJson RunStore Domains.

#[local] Open Scope string_scope.
#[local] Open Scope Z_scope.
#[local] Set Default Proof Using "Type".

(** ** dns.db *)

Record DnsRecord : Type := DnsRow { r_domain : string; r_ips : string; r_source : string; r_checked_at : string }.
Record TamperedRow : Type := Tampered { t_domain : string; t_udp_ips : string; t_doh_ips : string; t_verdict : string; t_checked_at : string }.
Record DnsDb : Type := Dns { dns_records : list DnsRecord; dns_tampered : table TamperedRow }.

(** A file that is not there, one that SQLite refuses, and a database. *)
Inductive dns_file : Type := NoFile | BadFile | DnsFile (db : DnsDb).

(** [_ts_to_epoch]; [None] is a [ValueError] or an [OverflowError]. *)
Definition _ts_to_epoch (mktime : string -> option float) (ts : string) : float := default (f_of_Z 0) (mktime ts).

(** [connect] makes the file, the script its tables. *)
Definition _init_dns (file : dns_file) : outcome DnsDb :=
  match file with NoFile => Ret (Dns [] empty) | BadFile => Raise | DnsFile db => Ret db end.

(** [INSERT ... ON CONFLICT(domain) DO UPDATE]: the row keeps its place. *)
Fixpoint upsert_record (r : DnsRecord) (rows : list DnsRecord) : list DnsRecord :=
  match rows with
  | [] => [r]
  | x :: rows => if decide (r_domain x = r_domain r) then r :: rows else x :: upsert_record r rows
  end.

Definition record_row (domain : string) (ips : list string) (source ts : string) : DnsRecord :=
  DnsRow domain (join ", " (fromkeys ips)) source ts.
Definition skipped (domain : string) (ips : list string) : bool := negb (nonempty domain) || bool_decide (ips = []).

(** The loop over the records; [ok n] tells whether statement [n] succeeds. *)
Fixpoint upserts (ok : nat -> bool) (n : nat) (records : list (string * list string)) (source ts : string)
    (rows : list DnsRecord) : option (list DnsRecord) :=
  match records with
  | [] => Some rows
  | (domain, ips) :: records =>
      if skipped domain ips then upserts ok n records source ts rows
      else if ok n then upserts ok (S n) records source ts (upsert_record (record_row domain ips source ts) rows)
      else None
  end.

(** What is not committed is gone when the connection is closed. *)
Definition save_dns_records (ok : nat -> bool) (commit : bool) (records : list (string * list string)) (source ts : string)
    (file : dns_file) : outcome unit * dns_file :=
  if bool_decide (records = []) then (Ret tt, file) else
  match _init_dns file with
  | Ret db =>
      match upserts ok 0 records source ts (dns_records db) with
      | Some rows => if commit then (Ret tt, DnsFile (Dns rows (dns_tampered db))) else (Raise, DnsFile db)
      | None => (Raise, DnsFile db)
      end
  | _ => (Raise, file)
  end.

Definition tampered_row (r : list (string * string)) (ts : string) : TamperedRow :=
  let get k := dget_default k "" r in
  Tampered (get "domain") (get "udp_ips") (get "doh_ips") (get "verdict")
    (if nonempty (get "checked_at") then get "checked_at" else ts).
Fixpoint append_tampered `{Sqlite} (ok : nat -> bool) (n : nat) (rows : list (list (string * string))) (ts : string)
    (t : table TamperedRow) : option (table TamperedRow) :=
  match rows with
  | [] => Some t
  | r :: rows => if ok n then append_tampered ok (S n) rows ts (insert (tampered_row r ts) t).2 else None
  end.
Definition save_dns_tampered `{Sqlite} (ok : nat -> bool) (commit : bool) (rows : list (list (string * string))) (ts : string)
    (file : dns_file) : outcome unit * dns_file :=
  if bool_decide (rows = []) then (Ret tt, file) else
  match _init_dns file with
  | Ret db =>
      match append_tampered ok 0 rows ts (dns_tampered db) with
      | Some t => if commit then (Ret tt, DnsFile (Dns (dns_records db) t)) else (Raise, DnsFile db)
      | None => (Raise, DnsFile db)
      end
  | _ => (Raise, file)
  end.

Definition parse_ips (ips : string) : list string := filter (fun ip => nonempty ip = true) (strip <$> split_char "," ips).

Section Loading.
Context `{Sqlite} (mktime : string -> option float).

Definition load_row (cutoff : float) (out : list (string * (list string * string))) (r : DnsRecord)
    : list (string * (list string * string)) :=
  if flt (_ts_to_epoch mktime (r_checked_at r)) cutoff then out
  else match parse_ips (r_ips r) with
       | [] => out
       | parsed => dset (r_domain r) (parsed, r_checked_at r) out
       end.
Definition load_rows (cutoff : float) (rows : list DnsRecord) : list (string * (list string * string)) :=
  foldl (load_row cutoff) [] (row_order rows).

Definition load_dns_records (now ttl : float) (file : dns_file) : outcome (list (string * (list string * string))) :=
  match file with
  | NoFile => Ret []
  | BadFile => Raise
  | DnsFile db => Ret (load_rows (fsub now ttl) (dns_records db))
  end.
Definition load_dns_records_sync (now ttl : float) (file : dns_file) : list (string * (list string * string)) :=
  match file with
  | NoFile | BadFile => []
  | DnsFile db => load_rows (fsub now ttl) (dns_records db)
  end.
End Loading.

(** ** strategies.db *)

Record PassRow : Type := Pass {
  p_strategy : string; p_domain : string; p_protocol : option string; p_latency : float; p_code : Z; p_approved : Z; p_time : string
}.
(** A table with the columns of its UNIQUE constraint. *)
Record pass_table : Type := PassTable { unique_columns : list string; pass : table PassRow }.
(** [pass_strategies] and [pass_strategies_new], where they exist. *)
Record StrategiesDb : Type := Strategies { main : option pass_table; fresh_copy : option pass_table }.

Definition _STRATEGIES_LEGACY_UNIQUE : list string := ["strategy"; "domain"].
Definition current_unique : list string := ["strategy"; "domain"; "protocol"].

Definition column (c : string) (r : PassRow) : option string :=
  if String.eqb c "strategy" then Some (p_strategy r)
  else if String.eqb c "domain" then Some (p_domain r)
  else if String.eqb c "protocol" then p_protocol r
  else None.
(** Rows clash when they agree in all columns; NULL agrees with nothing. *)
Definition clash (columns : list string) (a b : PassRow) : bool :=
  forallb (fun c => match column c a, column c b with Some x, Some y => String.eqb x y | _, _ => false end) columns.
Fixpoint no_clash (columns : list string) (rows : list PassRow) : bool :=
  match rows with
  | [] => true
  | r :: rows => forallb (fun x => negb (clash columns r x)) rows && no_clash columns rows
  end.

(** CREATE TABLE IF NOT EXISTS *)
Definition create_if_missing (db : StrategiesDb) : StrategiesDb :=
  match main db with
  | Some _ => db
  | None => Strategies (Some (PassTable current_unique empty)) (fresh_copy db)
  end.

Definition _pass_strategies_needs_protocol_unique (db : StrategiesDb) : bool :=
  match main db with
  | Some t => bool_decide (unique_columns t = _STRATEGIES_LEGACY_UNIQUE)
  | None => false
  end.

(** The statements of the migration; [None] is an error of SQLite. *)
Definition create_copy (db : StrategiesDb) : option StrategiesDb :=
  match fresh_copy db with
  | Some _ => None
  | None => Some (Strategies (main db) (Some (PassTable current_unique empty)))
  end.
Definition coalesced (r : PassRow) : PassRow :=
  Pass (p_strategy r) (p_domain r) (Some (default "tcp" (p_protocol r))) (p_latency r) (p_code r) (p_approved r) (p_time r).
Definition largest_id {A} (rows : list (Z * A)) : Z := foldr (fun r m => Z.max r.1 m) 0 rows.
Definition copy_rows (db : StrategiesDb) : option StrategiesDb :=
  match main db, fresh_copy db with
  | Some old, Some new =>
      let rows := prod_map id coalesced <$> rows (pass old) in
      if no_clash (unique_columns new) rows.*2
      then Some (Strategies (main db) (Some (PassTable (unique_columns new) (Table rows (largest_id rows)))))
      else None
  | _, _ => None
  end.
Definition drop_main (db : StrategiesDb) : option StrategiesDb :=
  match main db with Some _ => Some (Strategies None (fresh_copy db)) | None => None end.
Definition rename_copy (db : StrategiesDb) : option StrategiesDb :=
  match main db, fresh_copy db with None, Some t => Some (Strategies (Some t) None) | _, _ => None end.
Definition migration : list (StrategiesDb -> option StrategiesDb) := [create_copy; copy_rows; drop_main; rename_copy].

(** [executescript] commits each statement by itself. A process lives for [alive] statements more; the flag tells that
    the script came to its end. *)
Fixpoint run_script (alive : nat) (script : list (StrategiesDb -> option StrategiesDb)) (db : StrategiesDb) : bool * StrategiesDb :=
  match script, alive with
  | [], _ => (true, db)
  | _, O => (false, db)
  | step :: script, S alive => match step db with Some db => run_script alive script db | None => (false, db) end
  end.

Definition _migrate_pass_strategies_protocol_unique (alive : nat) (db : StrategiesDb) : bool * StrategiesDb :=
  if _pass_strategies_needs_protocol_unique db then run_script alive migration db else (true, db).

Definition _init_strategies (alive : nat) (db : StrategiesDb) : bool * StrategiesDb :=
  match alive with
  | O => (false, db)
  | S alive => _migrate_pass_strategies_protocol_unique alive (create_if_missing db)
  end.

(** [INSERT ... ON CONFLICT(strategy, domain, protocol) DO UPDATE] *)
Fixpoint update_clashing (columns : list string) (r : PassRow) (rows : list (Z * PassRow)) : option (list (Z * PassRow)) :=
  match rows with
  | [] => None
  | x :: rows => if clash columns r x.2 then Some ((x.1, r) :: rows) else cons x <$> update_clashing columns r rows
  end.
Definition upsert_row `{Sqlite} (r : PassRow) (t : pass_table) : pass_table :=
  match update_clashing (unique_columns t) r (rows (pass t)) with
  | Some l => PassTable (unique_columns t) (Table l (after_conflict (counter (pass t))))
  | None => PassTable (unique_columns t) (insert r (pass t)).2
  end.

Definition upsert_pass_strategy `{Sqlite} (alive : nat) (strategy domain protocol : string) (latency_ms : float) (http_code : Z)
    (approved : bool) (ts : string) (db : StrategiesDb) : bool * StrategiesDb :=
  let '(opened, db) := _init_strategies alive db in
  match opened, main db with
  | true, Some t =>
      (true, Strategies (Some (upsert_row (Pass strategy domain (Some protocol) latency_ms http_code (Z.b2z approved) ts) t)) (fresh_copy db))
  | _, _ => (false, db)
  end.

(** [None] is the error of a file without the table. *)
Definition pass_strategies `{Sqlite} (is_file approved_only : bool) (db : StrategiesDb) : option (list PassRow) :=
  if negb is_file then Some [] else
  t ← main db;
  Some (filter (fun r => negb approved_only || (p_approved r =? 1) = true) (row_order (rows (pass t)).*2)).

(** ** The hosts file, the best configuration and the commit *)

Definition first_ips (records : list (string * list string)) : list (string * string) :=
  foldl (fun d kv => match kv.2 with ip :: _ => dset kv.1 ip d | [] => d end) [] records.
Definition write_hosts (hosts : option string) (records : list (string * list string)) : string :=
  let existing := match hosts with Some text => parse_pins text | None => [] end in
  let merged := merge_pins existing (first_ips records) in
  join newline (_HEADERS ++ (pin_line merged <$> py_sorted str_lt (keys merged)))%list +:+ newline.

(** The file afterwards, and whether it was written. *)
Definition write_best_config (existing : option string) (content : string) : string * bool :=
  if bool_decide (existing = Some content) then (content, false) else (content, true).

(** A run of git: return code, output and errors; [None] is [TimeoutExpired]. The commands that were run are kept. *)
Section Git.
Context (git : list string -> option (Z * string * string)).

Fixpoint run_all (prefix : list string) (cmds : list (list string)) (ran : list (list string)) : outcome bool * list (list string) :=
  match cmds with
  | [] => (Ret true, ran)
  | cmd :: cmds =>
      let ran := (ran ++ [prefix ++ cmd])%list in
      match git (prefix ++ cmd)%list with
      | None => (Raise, ran)
      | Some (rc, out, err) =>
          if negb (rc =? 0) && negb (contains "nothing to commit" (out +:+ err)) then (Ret false, ran)
          else run_all prefix cmds ran
      end
  end.

Definition commit_commands (ts : string) : list (list string) :=
  [["git"; "add"; "-A"]; ["git"; "commit"; "-m"; "sync: update provider data (" +:+ ts +:+ ")"]].
Definition push_command : list string := ["git"; "push"].
Definition sudo_prefix (euid : Z) (sudo_user : string) : list string :=
  if (euid =? 0) && nonempty (strip sudo_user) then ["sudo"; "-u"; strip sudo_user] else [].

Definition sync_commit (has_git push : bool) (euid : Z) (sudo_user ts : string) : outcome bool * list (list string) :=
  if negb has_git then (Ret false, []) else
  let prefix := sudo_prefix euid sudo_user in
  match run_all prefix (commit_commands ts) [] with
  | (Ret true, ran) =>
      if push then
        let cmd := (prefix ++ push_command)%list in
        match git cmd with
        | None => (Raise, (ran ++ [cmd])%list)
        | Some (rc, _, _) => (Ret (rc =? 0), (ran ++ [cmd])%list)
        end
      else (Ret true, ran)
  | r => r
  end.
End Git.

(** ** The cache of DNS answers *)

Definition ip_char (c : ascii) : bool := negb (is_space c) && negb (Ascii.eqb c ",").
(** An address as it may stand in a row: no blank, no comma. *)
Definition plain_ip (ip : string) : Prop := nonempty ip = true /\ sforall ip_char ip = true.

Lemma plain_ip_parts ip : plain_ip ip -> sforall (fun c => negb (Ascii.eqb c ",")) ip = true /\ strip ip = ip.
Proof.
  intros [_ P]. split; [eapply sforall_impl; [|exact P]; unfold ip_char; intros c; by destruct (is_space c)|].
  apply strip_none. eapply sforall_impl; [|exact P]. unfold ip_char. intros c. by destruct (is_space c).
Qed.

Lemma strip_blank s : strip (" " +:+ s) = strip s.
Proof. done. Qed.

Lemma parse_ips_blank s : parse_ips (" " +:+ s) = parse_ips s.
Proof.
  unfold parse_ips. rewrite append_cons, append_nil_l. cbn [split_char].
  pose proof (split_char_ne "," s). by destruct (split_char "," s).
Qed.

Lemma parse_ips_join l : Forall plain_ip l -> l <> [] -> parse_ips (join ", " l) = l.
Proof.
  induction l as [|a l IH]; intros P NE; [done|]. inversion P as [|? ? A Ps]; subst.
  pose proof (plain_ip_parts a A) as [C S]. destruct A as [N _].
  destruct l as [|b l].
  - cbn [join]. unfold parse_ips. rewrite split_char_alone by done. cbn [fmap list_fmap]. rewrite S. by rewrite filter_cons_True.
  - change (join ", " (a :: b :: l)) with (a +:+ String "," (" " +:+ join ", " (b :: l))).
    unfold parse_ips. rewrite split_char_cons by done. cbn [fmap list_fmap]. rewrite S, filter_cons_True by done. f_equal.
    change (parse_ips (" " +:+ join ", " (b :: l)) = b :: l). rewrite parse_ips_blank. by apply IH.
Qed.

(** The row of a domain. *)
Definition row_of (d : string) (rows : list DnsRecord) : option DnsRecord := find (fun r => String.eqb (r_domain r) d) rows.
Definition one_row_each (rows : list DnsRecord) : Prop := NoDup (r_domain <$> rows).

Lemma row_of_Some d rows r : one_row_each rows -> row_of d rows = Some r <-> r ∈ rows /\ r_domain r = d.
Proof.
  unfold one_row_each, row_of. induction rows as [|x rows IH]; intros ND; cbn [find].
  - split; [done|]. intros [H _]. by apply elem_of_nil in H.
  - rewrite fmap_cons in ND. apply NoDup_cons in ND as [NI ND]. rewrite elem_of_cons.
    destruct (String.eqb_spec (r_domain x) d) as [E|E].
    + split; [intros [= ->]; auto|]. intros [[->|Hr] Hd]; [done|]. contradict NI. rewrite E, <- Hd. by apply list_elem_of_fmap_2.
    + rewrite (IH ND). split; [intros [? ?]; auto|]. intros [[->|?] ?]; [done|auto].
Qed.

Lemma row_of_perm d rows rows' : one_row_each rows -> rows ≡ₚ rows' -> row_of d rows = row_of d rows'.
Proof.
  intros ND P. assert (ND' : one_row_each rows') by (unfold one_row_each; by rewrite <- P).
  apply option_eq. intros r. rewrite !row_of_Some by done. by rewrite P.
Qed.

Lemma row_of_upsert d r rows : row_of d (upsert_record r rows) = if String.eqb (r_domain r) d then Some r else row_of d rows.
Proof.
  unfold row_of. induction rows as [|x rows IH]; cbn [upsert_record find]; [done|].
  destruct (decide (r_domain x = r_domain r)) as [E|E]; cbn [find].
  - rewrite E. by destruct (String.eqb _ d).
  - destruct (String.eqb_spec (r_domain x) d) as [<-|]; [|done]. destruct (String.eqb_spec (r_domain r) (r_domain x)); [congruence|done].
Qed.

Lemma elem_of_domains_upsert x r rows :
  x ∈ r_domain <$> upsert_record r rows -> x = r_domain r \/ x ∈ r_domain <$> rows.
Proof.
  induction rows as [|y rows IH]; cbn [upsert_record].
  - rewrite fmap_cons, elem_of_cons. intros [->|H]; [by left|]. by apply elem_of_nil in H.
  - destruct (decide _) as [E|E]; rewrite !fmap_cons, !elem_of_cons; [intros [->|H]; auto|].
    intros [->|H]; [auto|]. destruct (IH H) as [->|]; auto.
Qed.

Lemma one_row_each_upsert r rows : one_row_each rows -> one_row_each (upsert_record r rows).
Proof.
  unfold one_row_each. induction rows as [|x rows IH]; intros ND; cbn [upsert_record].
  - rewrite fmap_cons. apply NoDup_singleton.
  - rewrite fmap_cons in ND. apply NoDup_cons in ND as [NI ND].
    destruct (decide _) as [E|E]; rewrite fmap_cons; apply NoDup_cons; [by rewrite <- E|].
    split; [|by apply IH]. intros [?|?]%elem_of_domains_upsert; done.
Qed.

Lemma upserts_spec ok records source ts : forall n rows rows', PyDict.wf records -> one_row_each rows ->
  upserts ok n records source ts rows = Some rows' ->
  one_row_each rows' /\ forall d, row_of d rows' =
    match dget d records with
    | Some ips => if skipped d ips then row_of d rows else Some (record_row d ips source ts)
    | None => row_of d rows
    end.
Proof.
  induction records as [|[dom ips] records IH]; intros n rows rows' W ND; cbn [upserts]; [intros [= <-]; done|].
  unfold PyDict.wf, keys in W. rewrite fmap_cons in W. apply NoDup_cons in W as [NI W]. cbn [fst] in NI.
  apply dget_None in NI.
  destruct (skipped dom ips) eqn:K; [|destruct (ok n); [|done]]; intros H.
  - destruct (IH _ _ _ W ND H) as [ND' R]. split; [done|]. intros d. rewrite R. cbn [dget].
    destruct (decide (d = dom)) as [->|]; [|done]. by rewrite NI, K.
  - destruct (IH _ _ _ W (one_row_each_upsert _ _ ND) H) as [ND' R]. split; [done|]. intros d. rewrite R, row_of_upsert. cbn [dget record_row r_domain].
    destruct (decide (d = dom)) as [->|NE]; [by rewrite NI, K, String.eqb_refl|].
    apply not_eq_sym, String.eqb_neq in NE. by rewrite NE.
Qed.

(** What a load gives for a row. *)
Definition row_view (mktime : string -> option float) (cutoff : float) (r : DnsRecord) : option (list string * string) :=
  if flt (_ts_to_epoch mktime (r_checked_at r)) cutoff then None
  else match parse_ips (r_ips r) with [] => None | l => Some (l, r_checked_at r) end.

Lemma dget_load_rows mktime cutoff d rows out : one_row_each rows -> (forall r, r ∈ rows -> dget (r_domain r) out = None) ->
  dget d (foldl (load_row mktime cutoff) out rows) = match row_of d rows with Some r => row_view mktime cutoff r | None => dget d out end.
Proof.
  unfold one_row_each. revert out. induction rows as [|x rows IH]; intros out ND F; [done|]. cbn [foldl].
  rewrite fmap_cons in ND. apply NoDup_cons in ND as [NI ND].
  assert (X : forall k, dget k (load_row mktime cutoff out x) = if String.eqb (r_domain x) k then row_view mktime cutoff x else dget k out).
  { intros k. unfold load_row, row_view. pose proof (F x (list_elem_of_here _ _)) as N.
    destruct (String.eqb_spec (r_domain x) k) as [<-|NE]; destruct (flt _ _); [done| |done|];
      destruct (parse_ips (r_ips x)); try done; [apply dget_set_eq|by apply dget_set_ne]. }
  rewrite IH; [|done|].
  - unfold row_of. cbn [find]. rewrite X. destruct (String.eqb_spec (r_domain x) d) as [<-|]; [|done].
    destruct (find _ rows) as [r|] eqn:E; [|done]. apply find_some in E as [Hin Hd%String.eqb_eq]. contradict NI.
    rewrite <- Hd. apply list_elem_of_fmap_2. by apply list_elem_of_In.
  - intros r Hr. rewrite X. destruct (String.eqb_spec (r_domain x) (r_domain r)) as [E|]; [|apply F; by right].
    contradict NI. rewrite E. by apply list_elem_of_fmap_2.
Qed.

Definition cached `{Sqlite} (mktime : string -> option float) (now ttl : float) (file : dns_file) (d : string) : option (list string * string) :=
  match load_dns_records mktime now ttl file with Ret l => dget d l | _ => None end.

Lemma cached_row `{Sqlite} mktime now ttl db d : one_row_each (dns_records db) ->
  cached mktime now ttl (DnsFile db) d = r ← row_of d (dns_records db); row_view mktime (fsub now ttl) r.
Proof.
  intros ND. unfold cached, load_dns_records, load_rows.
  rewrite dget_load_rows; [|by unfold one_row_each; rewrite row_order_perm|done].
  rewrite (row_of_perm d (row_order (dns_records db)) (dns_records db)); [|by unfold one_row_each; rewrite row_order_perm|apply row_order_perm].
  by destruct (row_of d _).
Qed.

Lemma row_view_fresh mktime cutoff d ips source ts : Forall plain_ip ips -> skipped d ips = false ->
  row_view mktime cutoff (record_row d ips source ts) = if flt (_ts_to_epoch mktime ts) cutoff then None else Some (fromkeys ips, ts).
Proof.
  intros P K. unfold row_view, record_row. cbn [r_checked_at r_ips]. destruct (flt _ _); [done|].
  assert (NE : fromkeys ips <> []).
  { unfold skipped in K. apply orb_false_iff in K as [_ K]. apply bool_decide_eq_false in K. intros E. apply K.
    destruct ips as [|ip ips]; [done|]. assert (H : ip ∈ fromkeys (ip :: ips)) by (apply elem_of_fromkeys; left).
    rewrite E in H. by apply elem_of_nil in H. }
  rewrite parse_ips_join; [by destruct (fromkeys ips)| |done].
  rewrite Forall_forall in P. apply Forall_forall. intros ip. rewrite elem_of_fromkeys. apply P.
Qed.

(** C40. (roundtrip) Saving DNS answers and loading them: the save raises, and what is loaded afterwards is what was loaded
    before, or it returns, and then every domain of the records that has a name and addresses is loaded with these
    addresses without their repetitions and the time of the save, as long as that time is within the time to live;
    other domains are as before. A domain keeps to one row. *)
Theorem dns_save_load `{Sqlite} mktime ok commit records source ts db now ttl :
  PyDict.wf records -> Forall (fun kv => Forall plain_ip kv.2) records -> one_row_each (dns_records db) ->
  let '(r, file) := save_dns_records ok commit records source ts (DnsFile db) in
  exists db', file = DnsFile db' /\ one_row_each (dns_records db') /\ dns_tampered db' = dns_tampered db
  /\ ((r = Raise /\ db' = db)
      \/ (r = Ret tt /\ forall d, cached mktime now ttl file d =
            match dget d records with
            | Some ips => if skipped d ips then cached mktime now ttl (DnsFile db) d
                          else if flt (_ts_to_epoch mktime ts) (fsub now ttl) then None else Some (fromkeys ips, ts)
            | None => cached mktime now ttl (DnsFile db) d
            end)).
Proof.
  intros W P ND. unfold save_dns_records. case_bool_decide as E.
  { subst. exists db. split_and!; auto. }
  cbn [_init_dns]. destruct (upserts ok 0 records source ts (dns_records db)) as [rows|] eqn:U; [|exists db; split_and!; auto].
  destruct commit; [|exists db; split_and!; auto].
  destruct (upserts_spec ok records source ts 0 _ _ W ND U) as [ND' R].
  eexists. split; [reflexivity|]. cbn [dns_records dns_tampered]. split; [done|]. split; [done|]. right. split; [done|]. intros d.
  rewrite !cached_row by done. cbn [dns_records]. rewrite R. destruct (dget d records) as [ips|] eqn:G; [|done].
  destruct (skipped d ips) eqn:K; [done|]. cbn [mbind option_bind]. apply row_view_fresh; [|done].
  rewrite Forall_forall in P. apply dget_elem in G. by apply P in G.
Qed.

(** Both ways to load agree on a database that can be read. *)
Lemma load_sync_agrees `{Sqlite} mktime now ttl file :
  load_dns_records mktime now ttl file = match file with BadFile => Raise | _ => Ret (load_dns_records_sync mktime now ttl file) end.
Proof. by destruct file. Qed.

(** ** The strategies that passed *)

Definition with_key (strategy domain protocol : string) (r : PassRow) : Prop :=
  p_strategy r = strategy /\ p_domain r = domain /\ p_protocol r = Some protocol.
#[export] Instance with_key_dec strategy domain protocol r : Decision (with_key strategy domain protocol r).
Proof. unfold with_key. apply _. Defined.

(** A table of the present shape. *)
Definition current (t : pass_table) : Prop := unique_columns t = current_unique /\ no_clash current_unique (rows (pass t)).*2 = true.
Definition legacy (t : pass_table) : Prop :=
  unique_columns t = _STRATEGIES_LEGACY_UNIQUE /\ no_clash _STRATEGIES_LEGACY_UNIQUE (rows (pass t)).*2 = true.

Lemma clash_current a b : clash current_unique a b = true <->
  p_strategy a = p_strategy b /\ p_domain a = p_domain b /\ exists p, p_protocol a = Some p /\ p_protocol b = Some p.
Proof.
  cbn. rewrite !andb_true_iff, !String.eqb_eq. destruct (p_protocol a) as [p|], (p_protocol b) as [q|]; split.
  all: try (intros (_ & _ & H & _); discriminate).
  all: try (intros (_ & _ & x & ? & ?); discriminate).
  - rewrite String.eqb_eq. intros (? & ? & -> & _). eauto 6.
  - rewrite String.eqb_eq. intros (? & ? & x & [= ->] & [= ->]). auto.
Qed.

Lemma clash_legacy a b : clash _STRATEGIES_LEGACY_UNIQUE a b = true <-> p_strategy a = p_strategy b /\ p_domain a = p_domain b.
Proof. cbn. rewrite !andb_true_iff, !String.eqb_eq. tauto. Qed.

Lemma no_clash_mono f (l : list PassRow) :
  (forall a b, clash current_unique (f a) (f b) = true -> clash _STRATEGIES_LEGACY_UNIQUE a b = true) ->
  no_clash _STRATEGIES_LEGACY_UNIQUE l = true -> no_clash current_unique (f <$> l) = true.
Proof.
  intros F. induction l as [|r l IH]; [done|]. rewrite fmap_cons. cbn [no_clash]. rewrite !andb_true_iff, !forallb_forall.
  intros [A B]. split; [|by apply IH]. intros x (y & -> & Hy)%list_elem_of_In%list_elem_of_fmap. apply negb_true_iff.
  destruct (clash current_unique (f r) (f y)) eqn:C; [|done]. apply F in C. apply list_elem_of_In, A in Hy. by rewrite C in Hy.
Qed.

Lemma snd_prod_map {A B C} (f : B -> C) (l : list (A * B)) : (prod_map id f <$> l).*2 = f <$> l.*2.
Proof. rewrite <- !list_fmap_compose. by apply list_fmap_ext. Qed.

Lemma migration_core t : legacy t ->
  no_clash current_unique (prod_map id coalesced <$> rows (pass t)).*2 = true /\ unique_columns t = _STRATEGIES_LEGACY_UNIQUE.
Proof.
  intros [U N]. split; [|done]. rewrite snd_prod_map. apply no_clash_mono; [|done]. intros a b.
  rewrite clash_current, clash_legacy. cbn. tauto.
Qed.

(** (functional) Opening a database whose table still has the old constraint, by a process that lives long enough,
    gives a table of the present shape with the same rows under the same numbers, where a missing protocol is now tcp;
    no copy is left behind, and opening it again changes nothing. *)
Theorem migration_spec t : legacy t ->
  exists t', _init_strategies 5 (Strategies (Some t) None) = (true, Strategies (Some t') None)
  /\ current t' /\ rows (pass t') = prod_map id coalesced <$> rows (pass t)
  /\ forall alive, _init_strategies (S alive) (Strategies (Some t') None) = (true, Strategies (Some t') None).
Proof.
  intros L. destruct (migration_core t L) as [C U]. unfold _init_strategies, _migrate_pass_strategies_protocol_unique, _pass_strategies_needs_protocol_unique, create_if_missing.
  cbn [main]. rewrite U, bool_decide_true by done. unfold migration. cbn [run_script create_copy fresh_copy main copy_rows pass unique_columns].
  rewrite C. cbn [drop_main main rename_copy fresh_copy]. eexists. split; [reflexivity|]. split; [done|]. split; [done|].
  intros alive. done.
Qed.

Lemma begun_copy_blocks t c alive : unique_columns t = _STRATEGIES_LEGACY_UNIQUE ->
  _init_strategies alive (Strategies (Some t) (Some c)) = (false, Strategies (Some t) (Some c)).
Proof.
  intros U. destruct alive as [|alive]; [done|].
  unfold _init_strategies, _migrate_pass_strategies_protocol_unique, _pass_strategies_needs_protocol_unique, create_if_missing.
  cbn [main]. rewrite U, bool_decide_true by done. by destruct alive.
Qed.

(** (safety) A process that dies in the middle of the migration leaves a database that is lost to the program: the copy
    that was begun makes every later attempt fail, and after the old table was dropped the next start finds an empty
    one. *)
Theorem migration_is_not_atomic `{Sqlite} t n : legacy t -> n = 2%nat \/ n = 3%nat \/ n = 4%nat ->
  let '(opened, db) := _init_strategies n (Strategies (Some t) None) in
  opened = false /\
  if decide (n = 4%nat) then
    forall alive, exists db', _init_strategies (S alive) db = (true, db') /\ pass_strategies true false db' = Some []
  else forall alive, (_init_strategies alive db) = (false, db).
Proof.
  intros L D. destruct (migration_core t L) as [C _]. destruct L as [U N].
  unfold _init_strategies at 1, _migrate_pass_strategies_protocol_unique, _pass_strategies_needs_protocol_unique, create_if_missing.
  cbn [main]. destruct D as [-> | [-> | ->]]; rewrite U, bool_decide_true by done; unfold migration;
    cbn [run_script create_copy fresh_copy main copy_rows pass unique_columns]; rewrite ?C; cbn [drop_main main fresh_copy];
    (split; [done|]); cbn [decide].
  - intros alive. by apply begun_copy_blocks.
  - intros alive. by apply begun_copy_blocks.
  - intros alive. eexists. split; [reflexivity|]. cbn. pose proof (row_order_perm (@nil PassRow)) as P.
    apply Permutation_nil_r in P. by rewrite P.
Qed.

Lemma clash_sym a b : clash current_unique a b = clash current_unique b a.
Proof.
  apply Bool.eq_iff_eq_true. rewrite !clash_current. split; intros (? & ? & p & ? & ?); eauto 6.
Qed.

Lemma no_clash_cons r l : no_clash current_unique (r :: l) = true <->
  (forall x, x ∈ l -> clash current_unique r x = false) /\ no_clash current_unique l = true.
Proof.
  cbn [no_clash]. rewrite andb_true_iff, forallb_forall. setoid_rewrite negb_true_iff. by setoid_rewrite list_elem_of_In.
Qed.

Lemma no_clash_perm l l' : l ≡ₚ l' -> no_clash current_unique l = true -> no_clash current_unique l' = true.
Proof.
  induction 1 as [|r l l' P IH|r x l|l l' l'' P IH P' IH']; [done| | |by auto]; rewrite ?no_clash_cons.
  - intros [A B]. split; [|by apply IH]. intros y. rewrite <- P. apply A.
  - intros (A & B & C). split; [|split; [|done]].
    + intros y [->|Hy]%elem_of_cons; [rewrite clash_sym; apply A; left|by apply B].
    + intros y Hy. apply A. by right.
Qed.

Lemma update_clashing_spec r (l : list (Z * PassRow)) :
  match update_clashing current_unique r l with
  | Some l' => exists a i old b, l = (a ++ (i, old) :: b)%list /\ l' = (a ++ (i, r) :: b)%list /\ clash current_unique r old = true
  | None => forall x, x ∈ l -> clash current_unique r x.2 = false
  end.
Proof.
  induction l as [|[i x] l IH]; cbn [update_clashing snd]; [by intros x H%elem_of_nil|]. destruct (clash current_unique r x) eqn:C.
  - by exists [], i, x, l.
  - destruct (update_clashing current_unique r l) as [l'|]; cbn [fmap option_fmap option_map].
    + destruct IH as (a & j & old & b & -> & -> & ?). by exists ((i, x) :: a), j, old, b.
    + intros y [->|Hy]%elem_of_cons; [done|by apply IH].
Qed.

Lemma clash_key s d p lat code appr ts x :
  clash current_unique (Pass s d (Some p) lat code appr ts) x = true <-> with_key s d p x.
Proof.
  rewrite clash_current. cbn. unfold with_key. split.
  - intros (-> & -> & q & [= ->] & ->). done.
  - intros (-> & -> & ->). eauto.
Qed.

Lemma same_key_clash s d p a b : with_key s d p a -> with_key s d p b -> clash current_unique a b = true.
Proof. intros (? & ? & ?) (? & ? & ?). apply clash_current. split_and!; [congruence|congruence|by exists p]. Qed.

Lemma keyless s d p (l : list (Z * PassRow)) : (forall x, x ∈ l.*2 -> ~ with_key s d p x) ->
  filter (fun x => with_key s d p x.2) l = [] /\ filter (fun x => ~ with_key s d p x.2) l = l.
Proof.
  induction l as [|x l IH]; intros K; [done|]. rewrite fmap_cons in K.
  destruct IH as [I J]; [intros y Hy; apply K; by right|]. assert (N : ~ with_key s d p x.2) by (apply K; left).
  by rewrite filter_cons_False, filter_cons_True, I, J by done.
Qed.

(** (invariant) Recording a strategy that passed: the table keeps its shape, with one row for the strategy, the domain
    and the protocol, which holds what was recorded, under the number it had when there was one; the other rows stay
    as they are, and the approved ones are those recorded as such. *)
Theorem upsert_pass_strategy_spec `{Sqlite} alive s d p lat code appr ts t : current t ->
  let r := Pass s d (Some p) lat code (Z.b2z appr) ts in
  exists t', upsert_pass_strategy (S alive) s d p lat code appr ts (Strategies (Some t) None) = (true, Strategies (Some t') None)
  /\ current t'
  /\ filter (fun x => ~ with_key s d p x.2) (rows (pass t')) = filter (fun x => ~ with_key s d p x.2) (rows (pass t))
  /\ exists i, filter (fun x => with_key s d p x.2) (rows (pass t')) = [(i, r)]
  /\ forall j x, (j, x) ∈ rows (pass t) -> with_key s d p x -> j = i.
Proof.
  intros [U N] r. unfold upsert_pass_strategy, _init_strategies, _migrate_pass_strategies_protocol_unique,
    _pass_strategies_needs_protocol_unique, create_if_missing. cbn [main].
  rewrite U, bool_decide_false by done. cbn [main fresh_copy]. eexists. split; [reflexivity|].
  pose proof (update_clashing_spec r (rows (pass t))) as S. unfold upsert_row. rewrite U.
  assert (K : with_key s d p r) by done.
  fold r. destruct (update_clashing current_unique r (rows (pass t))) as [l|] eqn:E; cbn [pass unique_columns rows insert snd].
  - destruct S as (a & i & old & b & El & -> & C). rewrite El in *. clear E El.
    rewrite fmap_app, fmap_cons in N. cbn [snd] in N.
    apply (no_clash_perm _ (old :: a.*2 ++ b.*2)) in N; [|apply Permutation_sym, Permutation_middle]. apply no_clash_cons in N as [A N].
    apply clash_key in C as Ko.
    assert (F : forall x, x ∈ (a.*2 ++ b.*2)%list -> ~ with_key s d p x).
    { intros x Hx Kx. specialize (A x Hx). by rewrite (same_key_clash s d p old x Ko Kx) in A. }
    destruct (keyless s d p a) as [Ka Na]; [intros x Hx; apply F, elem_of_app; by left|].
    destruct (keyless s d p b) as [Kb Nb]; [intros x Hx; apply F, elem_of_app; by right|].
    split; [|split; [|exists i; split]].
    + split; [done|]. cbn [pass rows]. rewrite fmap_app, fmap_cons. cbn [snd]. eapply no_clash_perm; [apply Permutation_middle|].
      apply no_clash_cons. split; [|done]. intros x Hx. destruct (clash current_unique r x) eqn:X; [|done].
      apply clash_key in X. by apply F in Hx.
    + rewrite !filter_app, !filter_cons_False by (cbn; tauto). done.
    + by rewrite filter_app, filter_cons_True, Ka, Kb by done.
    + intros j x [Hx|[[= -> ->]|Hx]%elem_of_cons]%elem_of_app Kx; [|done|]; exfalso; eapply F, Kx; apply elem_of_app;
        [left|right]; by apply (list_elem_of_fmap_2 snd) in Hx.
  - assert (F : forall x, x ∈ (rows (pass t)).*2 -> ~ with_key s d p x).
    { intros x (y & -> & Hy)%list_elem_of_fmap Kx. apply S in Hy. apply (clash_key s d p lat code (Z.b2z appr) ts) in Kx. change (clash current_unique r y.2 = true) in Kx. congruence. }
    destruct (keyless s d p _ F) as [Kn Nn]. split; [|split; [|eexists; split]].
    + split; [done|]. cbn [pass rows]. rewrite fmap_app. eapply no_clash_perm; [apply Permutation_app_comm|]. cbn [app fmap list_fmap snd].
      apply no_clash_cons. split; [|done]. intros x Hx. destruct (clash current_unique r x) eqn:X; [|done].
      apply clash_key in X. by apply F in Hx.
    + by rewrite filter_app, filter_cons_False, filter_nil, app_nil_r by (cbn; tauto).
    + by rewrite filter_app, Kn, filter_cons_True by done.
    + intros j x Hx Kx. exfalso. eapply F, Kx. by apply (list_elem_of_fmap_2 snd) in Hx.
Qed.

(** ** The hosts file *)

Lemma wf_fold_set {A} (f : list (string * string) -> A -> list (string * string)) l : forall d,
  (forall d x, PyDict.wf d -> PyDict.wf (f d x)) -> PyDict.wf d -> PyDict.wf (foldl f d l).
Proof. induction l as [|x l IH]; intros d F W; [done|]. cbn [foldl]. apply IH; [done|]. by apply F. Qed.

Lemma wf_parse_pins text : PyDict.wf (parse_pins text).
Proof.
  apply wf_fold_set; [|apply wf_nil]. intros d x W. unfold pin_step. destruct (pin_of_line x) as [[k v]|]; [by apply wf_set|done].
Qed.

Lemma wf_merge_pins current updates : PyDict.wf current -> PyDict.wf (merge_pins current updates).
Proof. apply wf_fold_set. intros d x W. destruct (nonempty x.2); [by apply wf_set|done]. Qed.

(** The address that a record gives to the file. *)
Definition host_ip (ips : list string) : option string := match ips with ip :: _ => Some ip | [] => None end.

Lemma dget_first_ips records d : PyDict.wf records -> dget d (first_ips records) = ips ← dget d records; host_ip ips.
Proof.
  unfold first_ips. cut (forall out, PyDict.wf records -> dget d (foldl (fun d kv => match kv.2 with ip :: _ => dset kv.1 ip d | [] => d end) out records)
    = match dget d records with Some ips => match host_ip ips with Some ip => Some ip | None => dget d out end | None => dget d out end).
  { intros C W. rewrite (C [] W). destruct (dget d records) as [ips|]; [|done]. cbn. by destruct (host_ip ips). }
  unfold PyDict.wf, keys. induction records as [|[k ips] records IH]; intros out W; [done|]. rewrite fmap_cons in W. apply NoDup_cons in W as [NI W].
  cbn [fst] in NI. apply dget_None in NI. cbn [foldl fst snd dget]. rewrite (IH _ W). destruct (decide (d = k)) as [->|NE].
  - rewrite NI. destruct ips as [|ip ips]; [done|]. cbn [host_ip]. apply dget_set_eq.
  - destruct ips as [|ip ips]; [done|]. by rewrite dget_set_ne.
Qed.

Lemma wf_first_ips records : PyDict.wf (first_ips records).
Proof.
  unfold first_ips. assert (W : PyDict.wf (@nil (string * string))) by apply wf_nil. revert W. generalize (@nil (string * string)).
  induction records as [|[k [|ip ips]] records IH]; intros d W; cbn [foldl snd fst]; [done|by apply IH|]. apply IH. by apply wf_set.
Qed.

Lemma dget_merge_pins updates : forall current d, PyDict.wf updates -> dget d (merge_pins current updates) =
  match dget d updates with Some ip => if nonempty ip then Some ip else dget d current | None => dget d current end.
Proof.
  unfold merge_pins, PyDict.wf, keys. induction updates as [|[k ip] updates IH]; intros current d W; [done|].
  rewrite fmap_cons in W. apply NoDup_cons in W as [NI W]. cbn [fst] in NI. apply dget_None in NI. cbn [foldl fst snd dget]. rewrite (IH _ _ W).
  destruct (decide (d = k)) as [->|NE]; [rewrite NI|]; destruct (nonempty ip) eqn:N; [apply dget_set_eq|done|by rewrite dget_set_ne|done].
Qed.

Lemma merge_pins_same updates : forall current,
  (forall k ip, (k, ip) ∈ updates -> nonempty ip = true -> dget k current = Some ip) -> merge_pins current updates = current.
Proof.
  unfold merge_pins. induction updates as [|[k ip] updates IH]; intros current S; [done|]. cbn [foldl fst snd].
  destruct (nonempty ip) eqn:N; [rewrite dset_same by (apply S; [left|done])|]; apply IH; intros; apply S; by try right.
Qed.

(** What the file holds already, and the map that is written. *)
Definition pinned (hosts : option string) : list (string * string) := match hosts with Some text => parse_pins text | None => [] end.
Definition merged_hosts (hosts : option string) (records : list (string * list string)) : list (string * string) :=
  merge_pins (pinned hosts) (first_ips records).

Lemma wf_merged hosts records : PyDict.wf (merged_hosts hosts records).
Proof. apply wf_merge_pins. destruct hosts; [apply wf_parse_pins|apply wf_nil]. Qed.

Lemma dget_merged hosts records d : PyDict.wf records -> dget d (merged_hosts hosts records) =
  match ips ← dget d records; host_ip ips with Some ip => if nonempty ip then Some ip else dget d (pinned hosts) | None => dget d (pinned hosts) end.
Proof. intros W. unfold merged_hosts. rewrite dget_merge_pins by apply wf_first_ips. by rewrite dget_first_ips. Qed.

Lemma merged_ok hosts records : PyDict.wf records -> Forall pin_ok (pinned hosts) ->
  Forall (fun kv => forall ip, host_ip kv.2 = Some ip -> nonempty ip = true -> pin_ok (kv.1, ip)) records ->
  Forall pin_ok (merged_hosts hosts records).
Proof.
  intros W P R. rewrite !Forall_forall in *. intros [k v] Hkv%elem_of_dict; [|apply wf_merged]. rewrite dget_merged in Hkv by done.
  destruct (dget k records) as [ips|] eqn:G; cbn [mbind option_bind] in Hkv.
  - destruct (host_ip ips) as [ip|] eqn:H; [destruct (nonempty ip) eqn:N|].
    + injection Hkv as <-. apply dget_elem in G. by apply (R _ G).
    + by apply P, dget_elem.
    + by apply P, dget_elem.
  - by apply P, dget_elem.
Qed.

(** The sorted map looks up as the map. *)
Lemma dget_sorted_pins pins d : PyDict.wf pins -> PyDict.wf (sorted_pins pins) /\ dget d (sorted_pins pins) = dget d pins.
Proof.
  intros W. assert (K : keys (sorted_pins pins) = py_sorted str_lt (keys pins)).
  { unfold keys, sorted_pins. rewrite <- list_fmap_compose. rewrite (list_fmap_ext _ id) by done. by rewrite list_fmap_id. }
  assert (S : PyDict.wf (sorted_pins pins)) by (unfold PyDict.wf; by rewrite K, py_sorted_perm).
  split; [done|]. destruct (dget d pins) as [v|] eqn:G.
  - apply elem_of_dict; [done|]. apply list_elem_of_fmap. exists d. unfold dget_default. rewrite G. split; [done|].
    apply elem_of_py_sorted. by apply dget_Some_key in G.
  - apply dget_None. rewrite K, elem_of_py_sorted. by apply dget_None.
Qed.

Lemma dump_same pins pins' : PyDict.wf pins -> PyDict.wf pins' -> (forall d, dget d pins' = dget d pins) -> dump_pins pins' = dump_pins pins.
Proof.
  intros W W' E. unfold dump_pins. assert (K : py_sorted str_lt (keys pins') = py_sorted str_lt (keys pins)).
  { apply py_sorted_str_perm, NoDup_Permutation; [done|done|]. intros d. by rewrite !elem_of_keys, E. }
  rewrite K. do 3 f_equal. apply list_fmap_ext. intros _ d _. unfold pin_line, dget_default. by rewrite E.
Qed.

(** (functional) Regenerating the hosts file: what is read from it afterwards is, for a domain whose record begins with
    an address, that address, and for every other domain what the file held before; all of it can be held by a line;
    and regenerating the file once more with the same records leaves its text as it is. *)
Theorem write_hosts_spec hosts records : PyDict.wf records -> Forall pin_ok (pinned hosts) ->
  Forall (fun kv => forall ip, host_ip kv.2 = Some ip -> nonempty ip = true -> pin_ok (kv.1, ip)) records ->
  let text := write_hosts hosts records in
  (forall d, dget d (parse_pins text) =
     match ips ← dget d records; host_ip ips with
     | Some ip => if nonempty ip then Some ip else dget d (pinned hosts)
     | None => dget d (pinned hosts)
     end)
  /\ Forall pin_ok (parse_pins text) /\ write_hosts (Some text) records = text.
Proof.
  intros W P R text. pose proof (wf_merged hosts records) as M. pose proof (merged_ok hosts records W P R) as O.
  assert (T : parse_pins text = sorted_pins (merged_hosts hosts records)) by (by apply parse_dump_core).
  pose proof (fun d => dget_sorted_pins (merged_hosts hosts records) d M) as S.
  split; [|split].
  - intros d. rewrite T. destruct (S d) as [_ ->]. by apply dget_merged.
  - rewrite T. apply Forall_forall. intros [k v] Hk. destruct (S k) as [Ws E]. apply elem_of_dict in Hk; [|done]. rewrite E in Hk.
    rewrite Forall_forall in O. by apply O, dget_elem.
  - change (dump_pins (merged_hosts (Some text) records) = dump_pins (merged_hosts hosts records)).
    apply dump_same; [done|apply wf_merged|]. intros d. unfold merged_hosts at 1. cbn [pinned]. rewrite T, merge_pins_same; [apply S|].
    intros k ip Hk N. destruct (S k) as [_ ->]. unfold merged_hosts. rewrite dget_merge_pins by apply wf_first_ips.
    apply elem_of_dict in Hk; [|apply wf_first_ips]. by rewrite Hk, N.
Qed.

(** ** The commit *)

Lemma run_all_prefix git prefix cmds : forall ran,
  let '(r, ran') := run_all git prefix cmds ran in
  exists k, ran' = (ran ++ k)%list /\ k `prefix_of` (app prefix <$> cmds) /\ (r = Ret true -> k = (app prefix <$> cmds)).
Proof.
  induction cmds as [|cmd cmds IH]; intros ran; cbn [run_all]; [exists []; rewrite app_nil_r; split_and!; done|].
  rewrite fmap_cons. set (c := (prefix ++ cmd)%list).
  assert (Stop : forall r : outcome bool, r <> Ret true -> exists k, (ran ++ [c])%list = (ran ++ k)%list /\
    k `prefix_of` c :: (app prefix <$> cmds) /\ (r = Ret true -> k = c :: (app prefix <$> cmds))).
  { intros r N. exists [c]. split; [done|]. split; [|done]. by exists (app prefix <$> cmds). }
  destruct (git c) as [[[rc out] err]|]; [|by apply Stop]. destruct (_ && _); [by apply Stop|].
  specialize (IH (ran ++ [c])%list). destruct (run_all git prefix cmds (ran ++ [c])) as [r ran'].
  destruct IH as (k & -> & P & D). exists (c :: k). rewrite <- app_assoc. split; [done|].
  split; [by apply prefix_cons|]. intros E. by rewrite (D E).
Qed.

(** (safety) git is run with add, commit and push in this order and nothing else; a push is tried only when it was
    asked for, and success is reported only when all of them were run. *)
Theorem sync_commit_spec git has_git push euid user ts :
  let '(r, ran) := sync_commit git has_git push euid user ts in
  let plan := (fun c => (sudo_prefix euid user ++ c)%list) <$> (commit_commands ts ++ (if push then [push_command] else []))%list in
  ran `prefix_of` plan /\ (r = Ret true -> has_git = true /\ ran = plan).
Proof.
  unfold sync_commit. destruct has_git; [|split; [apply prefix_nil|done]]. cbn [negb]. cbv zeta.
  pose proof (run_all_prefix git (sudo_prefix euid user) (commit_commands ts) []) as H.
  rewrite fmap_app. set (cs := (fun c => (sudo_prefix euid user ++ c)%list) <$> commit_commands ts) in *.
  destruct (run_all git _ _ []) as [r ran]. destruct H as (k & -> & P & D). cbn [app].
  assert (Stop : k `prefix_of` (cs ++ ((fun c => (sudo_prefix euid user ++ c)%list) <$> (if push then [push_command] else [])))%list).
  { destruct P as [t P]. change (cs = k ++ t)%list in P. rewrite P. exists (t ++ (app (sudo_prefix euid user) <$> (if push then [push_command] else [])))%list. by rewrite <- app_assoc. }
  destruct r as [[]| |]; [|split; [exact Stop|done]..]. rewrite (D eq_refl).
  destruct push; [|split; [by rewrite app_nil_r|by rewrite app_nil_r]].
  destruct (git _) as [[[rc out] err]|]; (split; [done|]); done.
Qed.

(** ** Concrete inputs *)

Definition ex_db : DnsDb := Dns [DnsRow "a.com" "1.1.1.1, 1.0.0.1" "doh" "old"; DnsRow "b.com" "2.2.2.2" "doh" "new"] empty.
Definition ex_mktime (ts : string) : option float := if String.eqb ts "new" then Some (f_of_Z 1000) else None.
Definition ex_records : list (string * list string) := [("a.com", ["9.9.9.9"; "9.9.9.9"; "8.8.8.8"]); ("c.com", [])].

Lemma dns_save_load_witness :
  PyDict.wf ex_records /\ Forall (fun kv => Forall plain_ip kv.2) ex_records /\ one_row_each (dns_records ex_db) /\
  let '(r, file) := save_dns_records (fun _ => true) true ex_records "doh" "new" (DnsFile ex_db) in
  exists db', file = DnsFile db' /\ one_row_each (dns_records db') /\ dns_tampered db' = dns_tampered ex_db
  /\ ((r = Raise /\ db' = ex_db)
      \/ (r = Ret tt /\ forall d, cached ex_mktime (f_of_Z 1100) (f_of_Z 500) file d =
            match dget d ex_records with
            | Some ips => if skipped d ips then cached ex_mktime (f_of_Z 1100) (f_of_Z 500) (DnsFile ex_db) d
                          else if flt (_ts_to_epoch ex_mktime "new") (fsub (f_of_Z 1100) (f_of_Z 500)) then None else Some (fromkeys ips, "new")
            | None => cached ex_mktime (f_of_Z 1100) (f_of_Z 500) (DnsFile ex_db) d
            end)).
Proof.
  assert (W : PyDict.wf ex_records) by (refine (bool_decide_unpack _ _); vm_compute; exact I).
  assert (P : Forall (fun kv => Forall plain_ip kv.2) ex_records) by (repeat constructor).
  assert (N : one_row_each (dns_records ex_db)) by (refine (bool_decide_unpack _ _); vm_compute; exact I).
  split; [exact W|]. split; [exact P|]. split; [exact N|].
  exact (dns_save_load ex_mktime (fun _ => true) true ex_records "doh" "new" ex_db (f_of_Z 1100) (f_of_Z 500) W P N).
Defined.

(** The old answer of the first domain is stale, the second save is read, the third has no address; a failing statement
    leaves everything. *)
Example dns_ex :
  let now := f_of_Z 1100 in let ttl := f_of_Z 500 in
  load_dns_records ex_mktime now ttl (DnsFile ex_db) = Ret [("b.com", (["2.2.2.2"], "new"))]
  /\ load_dns_records ex_mktime now ttl (save_dns_records (fun _ => true) true ex_records "doh" "new" (DnsFile ex_db)).2
     = Ret [("a.com", (["9.9.9.9"; "8.8.8.8"], "new")); ("b.com", (["2.2.2.2"], "new"))]
  /\ save_dns_records (fun n => (n =? 1)%nat) true ex_records "doh" "new" (DnsFile ex_db) = (Raise, DnsFile ex_db)
  /\ load_dns_records_sync ex_mktime now ttl BadFile = [].
Proof. by vm_compute. Qed.

Definition ex_legacy : pass_table :=
  PassTable _STRATEGIES_LEGACY_UNIQUE (Table [(1, Pass "s" "d" None (f_of_Z 5) 200 1 "t"); (4, Pass "s" "e" (Some "udp") (f_of_Z 5) 0 0 "t")] 7).

Lemma migration_spec_witness : legacy ex_legacy /\
  exists t', _init_strategies 5 (Strategies (Some ex_legacy) None) = (true, Strategies (Some t') None)
  /\ current t' /\ rows (pass t') = prod_map id coalesced <$> rows (pass ex_legacy)
  /\ forall alive, _init_strategies (S alive) (Strategies (Some t') None) = (true, Strategies (Some t') None).
Proof. assert (L : legacy ex_legacy) by (split; reflexivity). split; [exact L|]. exact (migration_spec ex_legacy L). Defined.

Lemma migration_is_not_atomic_witness : legacy ex_legacy /\
  let '(opened, db) := _init_strategies 4 (Strategies (Some ex_legacy) None) in
  opened = false /\
  if decide (4%nat = 4%nat) then
    forall alive, exists db', _init_strategies (S alive) db = (true, db') /\ pass_strategies true false db' = Some []
  else forall alive, (_init_strategies alive db) = (false, db).
Proof.
  assert (L : legacy ex_legacy) by (split; reflexivity). split; [exact L|].
  exact (migration_is_not_atomic ex_legacy 4 L (or_intror (or_intror eq_refl))).
Defined.

Definition ex_pass : pass_table := PassTable current_unique (Table [(3, Pass "s" "d" (Some "tcp") (f_of_Z 5) 200 0 "t")] 3).

Lemma upsert_pass_strategy_spec_witness : current ex_pass /\
  exists t', upsert_pass_strategy 1 "s" "d" "tcp" (f_of_Z 9) 301 true "u" (Strategies (Some ex_pass) None) = (true, Strategies (Some t') None)
  /\ current t'
  /\ filter (fun x => ~ with_key "s" "d" "tcp" x.2) (rows (pass t')) = filter (fun x => ~ with_key "s" "d" "tcp" x.2) (rows (pass ex_pass))
  /\ exists i, filter (fun x => with_key "s" "d" "tcp" x.2) (rows (pass t')) = [(i, Pass "s" "d" (Some "tcp") (f_of_Z 9) 301 (Z.b2z true) "u")]
  /\ forall j x, (j, x) ∈ rows (pass ex_pass) -> with_key "s" "d" "tcp" x -> j = i.
Proof.
  assert (C : current ex_pass) by (split; reflexivity). split; [exact C|].
  exact (upsert_pass_strategy_spec 0 "s" "d" "tcp" (f_of_Z 9) 301 true "u" ex_pass C).
Defined.

Example pass_ex :
  let db := (upsert_pass_strategy 1 "s" "e" "tcp" (f_of_Z 9) 301 true "u" (Strategies (Some ex_pass) None)).2 in
  pass_strategies true true db = Some [Pass "s" "e" (Some "tcp") (f_of_Z 9) 301 1 "u"]
  /\ length <$> pass_strategies true false db = Some 2%nat
  /\ pass_strategies true false (Strategies None None) = None.
Proof. by vm_compute. Qed.

Lemma write_hosts_spec_witness :
  let hosts := Some (dump_pins [("a.com", "1.1.1.1"); ("z.com", "2.2.2.2")]) in
  PyDict.wf ex_records /\ Forall pin_ok (pinned hosts) /\
  Forall (fun kv => forall ip, host_ip kv.2 = Some ip -> nonempty ip = true -> pin_ok (kv.1, ip)) ex_records /\
  let text := write_hosts hosts ex_records in
  (forall d, dget d (parse_pins text) =
     match ips ← dget d ex_records; host_ip ips with
     | Some ip => if nonempty ip then Some ip else dget d (pinned hosts)
     | None => dget d (pinned hosts)
     end)
  /\ Forall pin_ok (parse_pins text) /\ write_hosts (Some text) ex_records = text.
Proof.
  intros hosts.
  assert (W : PyDict.wf ex_records) by (refine (bool_decide_unpack _ _); vm_compute; exact I).
  assert (P : Forall pin_ok (pinned hosts)).
  { assert (E : pinned hosts = [("a.com", "1.1.1.1"); ("z.com", "2.2.2.2")]) by (vm_compute; reflexivity). rewrite E.
    repeat constructor; vm_compute; reflexivity. }
  assert (R : Forall (fun kv => forall ip, host_ip kv.2 = Some ip -> nonempty ip = true -> pin_ok (kv.1, ip)) ex_records).
  { constructor; [|constructor; [|constructor]]; cbn [host_ip snd fst]; intros ip [= <-] _. repeat split; vm_compute; reflexivity. }
  split; [exact W|]. split; [exact P|]. split; [exact R|]. exact (write_hosts_spec hosts ex_records W P R).
Defined.

Example sync_ex :
  let git c := if bool_decide (last c = Some "push") then Some (1, "", "denied")
               else if bool_decide (c = ["git"; "add"; "-A"]) then Some (0, "", "") else Some (1, "nothing to commit", "") in
  sync_commit git true false 1000 "" "t" = (Ret true, commit_commands "t")
  /\ (sync_commit git true true 1000 "" "t").1 = Ret false
  /\ sync_commit (fun _ => None) true true 0 " bob " "t" = (Raise, [["sudo"; "-u"; "bob"; "git"; "add"; "-A"]])
  /\ sync_commit git false true 0 "" "t" = (Ret false, []).
Proof. by vm_compute. Qed.
